(* ===== verification/_CoqProject ===== *)
-Q . S2P
Prelude.v
Hoare.v
Bytes.v
Param.v
Str.v
UserMem.v
Riscv.v
PhysMem.v
Kalloc.v
Vm.v
VmSpec.v
VmMap.v
VmGrow.v
VmFree.v
VmCopy.v
VmTheorems.v
Pipe.v
Spinlock.v
SleepWake.v
Mutex.v
Proc.v
ProcSpec.v
ProcGrow.v
ProcFork.v
Sleeplock.v
BufIface.v
Bio.v
BioSpec.v
BioInv.v
Log.v
LogSpec.v
LogCrash.v
LogProto.v
Fs.v
FsBlock.v
FsData.v
FsRw.v
FsWrite.v
FsTrunc.v
FsDir.v
FsTheorems.v
UserSpace.v
File.v
FsRefs.v
Sysfile.v
SysfileRefs.v
SysfileTheorems.v
ProcWait.v
ProcTheorems.v
Exec.v
ExecLoad.v
ExecTheorems.v
Ring.v
Virtio.v
VirtioInv.v
VirtioSim.v
User.v
Ulib.v
Uprintf.v
Console.v
ConsoleTheorems.v
Uprogs.v
UprogsTheorems.v
Grep.v
Sh.v
ShTotal.v
ShParse.v
ShTheorems.v
ShRun.v
Umalloc.v
UmallocTheorems.v
Machine.v
Trap.v
Isolation.v
IsoOps.v
TrapSafe.v
TrapPath.v
Mkfs.v
MkfsTheorems.v
Boot.v
