(* ===== verification/Prelude.v ===== *)
(** * xv6_TP: a verification of the kernel

    The program is a fork of xv6 for RISC-V: a small Unix kernel in C, with
    file modes, [lseek], [chmod], user mutexes and a process listing added to it.
    This development translates the kernel's C functions to functions on
    explicit states and proves what they guarantee.

    ** The parts and the files

    Each kernel file is a file here, with its functions under their own names,
    followed by files with their specifications.

    - Foundations. Prelude: machine integers ([u32], [s32], ...), lists and the
      monad. Hoare: partial triples. Bytes: little-endian fields. Param:
      kernel/param.h and kernel/fs.h. Str: kernel/string.c.
    - Memory. Riscv: kernel/riscv.h and kernel/memlayout.h. PhysMem: loads and
      stores. Kalloc: kernel/kalloc.c. Vm: kernel/vm.c, whose page tables are
      words of the modelled memory. VmSpec, VmWalk, VmMap, VmUser, VmGrow,
      VmFree and VmCopy specify it over address spaces, VmTheorems and UserSpace
      state the results.
    - Locks and waiting. Spinlock: kernel/spinlock.c. SleepWake: [sleep] and
      [wakeup] of kernel/proc.c. Sleeplock: kernel/sleeplock.c. Mutex:
      kernel/mutex.c.
    - Processes. Proc: kernel/proc.c, over Kalloc and Vm, and over open files
      through the class [FileOps]. ProcMem, ProcSpec, ProcGrow, ProcFork and
      ProcWait specify it; FileProc provides the files; ProcTheorems states the
      results.
    - Storage. Disk: a block device. BufIface: what the log and the file system
      use of the buffer cache. Bio: kernel/bio.c; BioSpec and BioInv show that it
      implements BufIface. Log: kernel/log.c, over any BufIface; LogSpec,
      LogCrash and LogProto. Fs: kernel/fs.c, over Log; FsTx, FsBlock, FsData,
      FsInode, FsRw, FsWrite, FsTrunc, FsTable, FsDir, FsPath and FsRefs specify
      it, FsDemo is an example disk and FsTheorems states the results.
    - Files. UserMem: the class through which the kernel sees user memory; its
      instance for page tables is in UserSpace. Pipe: kernel/pipe.c. File:
      kernel/file.c with [pipealloc] and the freeing part of [pipeclose].
      Sysfile: kernel/sysfile.c and the argument functions of kernel/syscall.c.
      SysfileRefs and SysfileTheorems.

    ** How code is modelled

    A function is a [Definition] or [Fixpoint] in the monad [M S A], from a state
    to an [outcome]: [Ret] with a result and a state, [Panic] with the message,
    [Sleep] with the channel where the code would wait, [Fault] where it would
    leave an array or follow a null pointer, and [NoFuel]. A C integer is a [Z]
    wrapped at its width. Pointers to array elements are indices; physical
    addresses are [Z].

    What runs under one spin lock is one step: Spinlock shows that such sections
    exclude each other, SleepWake that the step from the test of a condition to
    sleep loses no wakeup. Where the interleaving itself is the question
    (Spinlock, SleepWake, LogProto, Mutex, the pipe runs of Pipe, and the
    allocations of Kalloc) it is a step relation. Elsewhere a function is taken
    from its start, or from where it wakes up, to its end or to where it sleeps.

    Loops over arrays recurse on the length. The other loops have fuel computed
    from their arguments, such as the number of blocks or pages a copy touches or
    the length of a path, and the theorems stated with [wp] or with [Ret] show
    that the fuel is enough. Statements of the form [m s = Ret r s' -> ...]
    (C5, C34) are about runs that return.

    ** What is proved

    - Storage: [commit] is atomic across crashes and recovery may be interrupted;
      bio.c implements a least-recently-used cache; transactions within their
      reservation do not overflow a log with room for LOGSIZE blocks; [writei],
      [readi], [balloc], [dirlink], [dirlookup], [iget], [iput], [iupdate] with
      [ilock], and [skipelem] do what they promise.
    - Memory: [kalloc] never hands out a page twice; [copyout] and [copyinstr]
      equal byte-by-byte references; [uvmfree] gives back every page.
    - Processes: [fork], [wait] and [growproc] on every branch, with every page
      accounted for.
    - Concurrency: spin locks exclude and make progress, no wakeup is lost, user
      mutexes exclude.
    - Files: pipes are FIFO queues; the reference counts of files and inodes are
      exact across the system calls; [sys_lseek].
    - What the code does not do right is proved as well: the off-by-one in the log
      reservation, [kill] of pid 0, the reference [sys_chmod] keeps, the
      transaction a refused [sys_open] leaves open, [sys_lseek] from the end, a
      byte lost by [piperead], and mutexes reused after an unlock.

    ** Assumptions

    The disk reads back what was written, and a crash keeps a prefix of the
    writes, each block whole. Devices other than the disk are arguments. The
    addresses of the end of the kernel, of the trampoline page and of [forkret]
    are arguments, with the bounds the theorems state. The C compiler and the
    atomic instructions do what they document.

    ** Not modelled

    - Assembly (entry.S, swtch.S, trampoline.S, kernelvec.S) and what only sets
      control registers or devices: start.c, main.c, plic.c, trap.c, uart.c, and
      virtio_disk.c, whose device protocol is outside the sources.
    - [kvmmake], [kvminit], [kvminithart], [proc_mapstacks], [forkret].
    - exec.c with [sys_exec], sysproc.c, the table and dispatch of syscall.c,
      console.c, printf.c.
    - mkfs and the user programs. *)
From Stdlib Require Import ZArith Lia.
From stdpp Require Import base tactics numbers option list strings.

Declare Scope xv6_scope.
Delimit Scope xv6_scope with xv6.
#[global] Open Scope Z_scope.

(** ** Machine integers *)

(** The C types of kernel/types.h as wrap-around on [Z]; [s16] and [s32] read
    the low bits of a value as a two's-complement number. *)
Definition u8 (x : Z) : Z := x mod 256.
Definition u16 (x : Z) : Z := x mod 65536.
Definition u32 (x : Z) : Z := x mod 4294967296.
Definition u64 (x : Z) : Z := x mod 18446744073709551616.
Definition s16 (x : Z) : Z := (x + 32768) mod 65536 - 32768.
Definition s32 (x : Z) : Z := (x + 2147483648) mod 4294967296 - 2147483648.

(** [lia] after every [/] and [mod] by a constant has been spelled out. *)
Ltac zlia := Z.div_mod_to_equations; lia.

(** Unfolds the machine types first. *)
Ltac wordlia := unfold u8, u16, u32, u64, s16, s32 in *; zlia.

Lemma u8_range x : 0 ≤ u8 x < 256.
Proof. wordlia. Qed.

Lemma u32_range x : 0 ≤ u32 x < 4294967296.
Proof. wordlia. Qed.

Lemma u64_range x : 0 ≤ u64 x < 18446744073709551616.
Proof. wordlia. Qed.

Lemma s32_range x : -2147483648 ≤ s32 x < 2147483648.
Proof. wordlia. Qed.

Lemma u8_small x : 0 ≤ x < 256 → u8 x = x.
Proof. wordlia. Qed.

Lemma u16_small x : 0 ≤ x < 65536 → u16 x = x.
Proof. wordlia. Qed.

Lemma u32_small x : 0 ≤ x < 4294967296 → u32 x = x.
Proof. wordlia. Qed.

Lemma u64_small x : 0 ≤ x < 18446744073709551616 → u64 x = x.
Proof. wordlia. Qed.

Lemma s32_small x : -2147483648 ≤ x < 2147483648 → s32 x = x.
Proof. wordlia. Qed.

Create HintDb word.
Create Rewrite HintDb word.
#[export] Hint Resolve u8_range u32_range u64_range s32_range : word.
#[export] Hint Rewrite u8_small u16_small u32_small u64_small s32_small
  using lia : word.

(** ** Lists *)

(** Membership in explicit lists, spelled out as disjunctions of equations. *)
Ltac elems :=
  intros;
  repeat match goal with
    | H : ∀ x : ?T, _ |- _ => lazymatch type of T with Prop => fail | _ => clear H end
    end;
  repeat first
    [ rewrite list_elem_of_singleton in * | rewrite elem_of_nil in *
    | rewrite elem_of_cons in * | rewrite elem_of_app in * ];
  intuition (subst; auto; congruence).

Lemma rev_reverse {A} (l : list A) : rev l = reverse l.
Proof. apply rev_alt. Qed.

Lemma list_find_ext_in {A} (P Q : A → Prop) `{!∀ x, Decision (P x), !∀ x, Decision (Q x)} l :
  (∀ x, x ∈ l → P x ↔ Q x) → list_find P l = list_find Q l.
Proof.
  induction l as [|x l IH]; intros Hx; [done|]. cbn [list_find].
  rewrite IH by (intros; apply Hx; by right).
  specialize (Hx x (list_elem_of_here _ _)). repeat case_decide; tauto.
Qed.

Lemma nth_insert_eq {A} (l : list A) i x y : (i < length l)%nat → nth i (<[i := x]> l) y = x.
Proof. intros. by rewrite nth_lookup, list_lookup_insert_eq. Qed.

Lemma nth_insert_ne {A} (l : list A) i j x y : i ≠ j → nth j (<[i := x]> l) y = nth j l y.
Proof. intros. by rewrite !nth_lookup, list_lookup_insert_ne. Qed.

Lemma nth_Some {A} (l : list A) i y : (i < length l)%nat → l !! i = Some (nth i l y).
Proof. intros [x Hx]%lookup_lt_is_Some_2. by rewrite nth_lookup, Hx. Qed.

Lemma lookup_pre_seq (pre post : list nat) n x :
  seq 0 n = pre ++ x :: post → x = length pre ∧ (x < n)%nat ∧ pre = seq 0 x.
Proof.
  intros Hs. assert (seq 0 n !! length pre = Some x) as Hx.
  { rewrite Hs. by apply list_lookup_middle. }
  apply lookup_seq in Hx as [-> ?]. split_and!; [done..|].
  assert (take (length pre) (seq 0 n) = pre) as Ht by (rewrite Hs; apply take_app_length).
  rewrite take_seq in Ht. rewrite <-Ht at 1. f_equal. lia.
Qed.

(** ** Outcomes and the kernel monad *)

(** What a process sleeps on: the C code passes the address of some object. *)
Inductive chan := Chan (what : string) (idx : nat).

#[export] Instance chan_eq_dec : EqDecision chan.
Proof. solve_decision. Defined.

(** How a kernel function ends. [Sleep c s]: the process released its lock and
    called [sleep] on channel [c], leaving state [s] to the other processes.
    [Fault]: the C program reads or writes outside an object. [NoFuel]: the
    bound given to a [while] loop of the model was too small. *)
Inductive outcome (S A : Type) : Type :=
| Ret (a : A) (s : S)
| Panic (msg : string)
| Sleep (c : chan) (s : S)
| Fault
| NoFuel.
Arguments Ret {S A} a s.
Arguments Panic {S A} msg.
Arguments Sleep {S A} c s.
Arguments Fault {S A}.
Arguments NoFuel {S A}.

Definition M (S A : Type) : Type := S → outcome S A.

#[export] Instance M_ret {S} : MRet (M S) := λ A a s, Ret a s.
#[export] Instance M_bind {S} : MBind (M S) := λ A B f m s,
  match m s with
  | Ret a s' => f a s'
  | Panic e => Panic e
  | Sleep c s' => Sleep c s'
  | Fault => Fault
  | NoFuel => NoFuel
  end.

Definition panic {S A} (msg : string) : M S A := λ _, Panic msg.
Definition msleep {S A} (c : chan) : M S A := λ s, Sleep c s.
Definition mfault {S A} : M S A := λ _, Fault.
Definition mget {S} : M S S := λ s, Ret s s.
Definition gets {S A} (f : S → A) : M S A := λ s, Ret (f s) s.
Definition modify {S} (f : S → S) : M S unit := λ s, Ret tt (f s).

(** [mwhen c m]: C's [if(c) m;]. *)
Definition mwhen {S} (c : bool) (m : M S unit) : M S unit :=
  if c then m else mret tt.

(** An array element read: outside the array the C program faults. *)
Definition mnth {S A} (o : option A) : M S A :=
  match o with Some x => mret x | None => mfault end.

(** [for(x in l) body]. *)
Fixpoint mfor {S A} (l : list A) (body : A → M S unit) : M S unit :=
  match l with
  | [] => mret tt
  | x :: l' => body x ;; mfor l' body
  end.

(** [for(x in l) body] where the body may leave the loop with a value. *)
Fixpoint mfind {S A R} (l : list A) (body : A → M S (option R))
    : M S (option R) :=
  match l with
  | [] => mret None
  | x :: l' =>
      r ← body x;
      match r with Some v => mret (Some v) | None => mfind l' body end
  end.

(** Running an operation of a component inside a larger state. *)
Definition lift {S T A} (get : S → T) (put : T → S → S) (m : M T A) : M S A :=
  λ s, match m (get s) with
       | Ret a t => Ret a (put t s)
       | Panic e => Panic e
       | Sleep c t => Sleep c (put t s)
       | Fault => Fault
       | NoFuel => NoFuel
       end.

Lemma mget_bind {S A} (k : S → M S A) s : (mget ≫= k) s = k s s.
Proof. done. Qed.

Lemma modify_bind {S A} f (k : unit → M S A) s : (modify f ≫= k) s = k tt (f s).
Proof. done. Qed.

(** ** Total correctness *)

(** [wp m s Q]: from [s], [m] returns (it neither panics, sleeps, faults nor
    runs out of fuel) and its value and final state satisfy [Q]. *)
Definition wp {S A} (m : M S A) (s : S) (Q : A → S → Prop) : Prop :=
  match m s with Ret a s' => Q a s' | _ => False end.

Section wp_rules.
Context {S : Type}.
Implicit Types s : S.

Lemma wp_bind {A B} (m : M S A) (k : A → M S B) s Q :
  wp m s (λ a s', wp (k a) s' Q) → wp (m ≫= k) s Q.
Proof. unfold wp, mbind, M_bind. by destruct (m s). Qed.

Lemma wp_ret {A} (a : A) s (Q : A → S → Prop) : Q a s → wp (mret a) s Q.
Proof. done. Qed.

Lemma wp_mget s (Q : S → S → Prop) : Q s s → wp mget s Q.
Proof. done. Qed.

Lemma wp_gets {A} (f : S → A) s (Q : A → S → Prop) :
  Q (f s) s → wp (gets f) s Q.
Proof. done. Qed.

Lemma wp_modify (f : S → S) s (Q : unit → S → Prop) :
  Q tt (f s) → wp (modify f) s Q.
Proof. done. Qed.

Lemma wp_mnth {A} (o : option A) x s (Q : A → S → Prop) :
  o = Some x → Q x s → wp (mnth o) s Q.
Proof. by intros ->. Qed.

Lemma wp_mono {A} (m : M S A) s (P Q : A → S → Prop) :
  wp m s P → (∀ a s', P a s' → Q a s') → wp m s Q.
Proof. unfold wp. destruct (m s); naive_solver. Qed.

Lemma wp_Ret {A} (m : M S A) s (Q : A → S → Prop) :
  wp m s Q ↔ ∃ a s', m s = Ret a s' ∧ Q a s'.
Proof.
  unfold wp. split.
  - destruct (m s); try done. eauto.
  - by intros (a & s' & -> & ?).
Qed.

Lemma wp_eq {A} (m : M S A) s a s' (Q : A → S → Prop) : m s = Ret a s' → Q a s' → wp m s Q.
Proof. unfold wp. by intros ->. Qed.

(** Loop rule: the invariant is indexed by the elements already visited. *)
Lemma wp_mfor {A} (l : list A) (body : A → M S unit)
    (I : list A → S → Prop) s :
  I [] s →
  (∀ pre x post s', l = pre ++ x :: post → I pre s' →
     wp (body x) s' (λ _ s'', I (pre ++ [x]) s'')) →
  wp (mfor l body) s (λ _ s', I l s').
Proof.
  intros H0 Hstep.
  assert (∀ post pre s', l = pre ++ post → I pre s' →
            wp (mfor post body) s' (λ _ s'', I l s'')) as Hgen.
  { induction post as [|x post IH]; intros pre s' Hl Hi; simpl.
    - apply wp_ret. by rewrite Hl, app_nil_r.
    - apply wp_bind. eapply wp_mono; [by eapply Hstep|].
      intros [] s'' ?. apply (IH (pre ++ [x])); [|done].
      by rewrite Hl, <-app_assoc. }
  by apply (Hgen l []).
Qed.

(** The same for [for(i = 0; i < n; i++)]. *)
Lemma wp_mfor_seq n (body : nat → M S unit) (I : nat → S → Prop) s :
  I O s →
  (∀ i s', (i < n)%nat → I i s' → wp (body i) s' (λ _ s'', I (Datatypes.S i) s'')) →
  wp (mfor (seq 0 n) body) s (λ _ s', I n s').
Proof.
  intros H0 Hstep.
  eapply wp_mono; [apply (wp_mfor _ _ (λ pre, I (length pre))); [done|]|].
  - intros pre i post s' (-> & ? & _)%lookup_pre_seq HI.
    rewrite length_app, Nat.add_1_r. by apply Hstep.
  - intros [] s'. by rewrite length_seq.
Qed.

(** [for] with an early exit. *)
Lemma wp_mfind_seq {R} k n (body : nat → M S (option R)) (I : nat → S → Prop)
    (Q : option R → S → Prop) s :
  I k s →
  (∀ i s', (k ≤ i < k + n)%nat → I i s' →
     wp (body i) s' (λ r s'', match r with
                              | Some x => Q (Some x) s''
                              | None => I (Datatypes.S i) s''
                              end)) →
  (∀ s', I (k + n)%nat s' → Q None s') →
  wp (mfind (seq k n) body) s Q.
Proof.
  revert k s. induction n as [|n IH]; intros k s H0 Hb HQ; cbn [seq mfind].
  - apply wp_ret, HQ. by rewrite Nat.add_0_r.
  - apply wp_bind. eapply wp_mono; [apply Hb; [lia|done]|]. intros [x|] s' Hx; [by apply wp_ret|].
    apply IH; [done| |].
    + intros i s'' Hi HI. apply Hb; [lia|done].
    + intros s'' HI. apply HQ. by rewrite Nat.add_succ_r.
Qed.

Lemma wp_lift {T A} (get : S → T) (put : T → S → S) (m : M T A) s
    (Q : A → S → Prop) :
  wp m (get s) (λ a t, Q a (put t s)) → wp (lift get put m) s Q.
Proof. unfold wp, lift. by destruct (m (get s)). Qed.
End wp_rules.

(** One symbolic-execution step of a [wp] goal. *)
Ltac wp_step :=
  lazymatch goal with
  | |- wp (_ ≫= _) _ _ => apply wp_bind
  | |- wp (mret _) _ _ => apply wp_ret
  | |- wp mget _ _ => apply wp_mget
  | |- wp (gets _) _ _ => apply wp_gets
  | |- wp (modify _) _ _ => apply wp_modify
  | |- wp (lift _ _ _) _ _ => apply wp_lift
  end; cbv beta.
Ltac wp_steps := repeat wp_step.

(** ** Simulation *)

(** [osim R o o']: two runs end the same way, in states related by [R]. *)
Inductive osim {S T A} (R : S → T → Prop) : outcome S A → outcome T A → Prop :=
| osim_ret a s t : R s t → osim R (Ret a s) (Ret a t)
| osim_panic msg : osim R (Panic msg) (Panic msg)
| osim_sleep c s t : R s t → osim R (Sleep c s) (Sleep c t)
| osim_fault : osim R Fault Fault
| osim_nofuel : osim R NoFuel NoFuel.

Create HintDb sim.
#[export] Hint Constructors osim : sim.

Section simulation.
Context {S T : Type} (R : S → T → Prop).

Lemma osim_bind {A B} (m : M S A) (m' : M T A) (k : A → M S B) (k' : A → M T B) s t :
  osim R (m s) (m' t) →
  (∀ a s' t', m' t = Ret a t' → R s' t' → osim R (k a s') (k' a t')) →
  osim R ((m ≫= k) s) ((m' ≫= k') t).
Proof.
  unfold mbind, M_bind. intros Hm. remember (m' t) as o' eqn:E.
  destruct Hm; auto with sim.
Qed.

Lemma osim_wp {A} (m : M S A) s a (t : T) :
  wp m s (λ a' s', a' = a ∧ R s' t) → osim R (m s) (Ret a t).
Proof.
  unfold wp. destruct (m s); try done. intros [-> ?]. auto with sim.
Qed.

(** Steps that only the concrete program makes. *)
Lemma osim_bind_l {A B} (m : M S A) (k : A → M S B) s (P : A → S → Prop) o :
  wp m s P → (∀ a s', P a s' → osim R (k a s') o) → osim R ((m ≫= k) s) o.
Proof. unfold wp, mbind, M_bind. destruct (m s); naive_solver. Qed.

(** Total correctness of the abstract operation carries over. *)
Lemma wp_osim {A} (m : M S A) (m' : M T A) s t (Q : A → T → Prop) :
  osim R (m s) (m' t) → wp m' t Q →
  wp m s (λ a s', ∃ t', R s' t' ∧ Q a t').
Proof. unfold wp. intros Hm. destruct Hm; naive_solver. Qed.
End simulation.
