(* ===== verification/Hoare.v ===== *)
(** * Partial triples

    [tr P m Q]: a run of [m] from a state in [P] that returns ends in [Q]. The
    invariants of the system calls are proved with these rules; [kept I m] says
    that [m] keeps [I], and the tactic [kept] proves it by following the
    program. *)
From Stdlib Require Import ZArith Lia.
From stdpp Require Import prelude strings.
From S2P Require Import Prelude.

Section tr.
Context {S : Type}.
Implicit Types P I : S → Prop.

Definition tr {A} P (m : M S A) (Q : A → S → Prop) : Prop :=
  ∀ s, P s → match m s with Ret a s' => Q a s' | _ => True end.

Definition kept {A} I (m : M S A) : Prop := tr I m (λ _, I).

Lemma tr_bind {A B} P (m : M S A) (R : A → S → Prop) (k : A → M S B) (Q : B → S → Prop) :
  tr P m R → (∀ a, tr (R a) (k a) Q) → tr P (m ≫= k) Q.
Proof.
  intros Hm Hk s Hs. specialize (Hm s Hs). unfold mbind, M_bind. destruct (m s) as [a s'| | | |]; try done. by apply Hk.
Qed.

Lemma tr_ret {A} P (a : A) (Q : A → S → Prop) : (∀ s, P s → Q a s) → tr P (mret a) Q.
Proof. intros Hq s Hs. by apply Hq. Qed.

Lemma tr_mget P (Q : S → S → Prop) : (∀ s, P s → Q s s) → tr P mget Q.
Proof. intros Hq s Hs. by apply Hq. Qed.

Lemma tr_gets {A} P (f : S → A) (Q : A → S → Prop) : (∀ s, P s → Q (f s) s) → tr P (gets f) Q.
Proof. intros Hq s Hs. by apply Hq. Qed.

Lemma tr_modify P (f : S → S) (Q : unit → S → Prop) : (∀ s, P s → Q tt (f s)) → tr P (modify f) Q.
Proof. intros Hq s Hs. by apply Hq. Qed.

Lemma tr_mnth {A} P (o : option A) (Q : A → S → Prop) : (∀ a s, o = Some a → P s → Q a s) → tr P (mnth o) Q.
Proof. intros Hq s Hs. destruct o as [a|]; [|done]. by apply Hq. Qed.

Lemma tr_conseq {A} P P' (m : M S A) (Q Q' : A → S → Prop) :
  tr P' m Q' → (∀ s, P s → P' s) → (∀ a s, Q' a s → Q a s) → tr P m Q.
Proof. intros Hm Hp Hq s Hs. specialize (Hm s (Hp s Hs)). destruct (m s); auto. Qed.

Lemma tr_pre {A} P P' (m : M S A) (Q : A → S → Prop) : tr P' m Q → (∀ s, P s → P' s) → tr P m Q.
Proof. intros Hm Hp. eapply tr_conseq; eauto. Qed.

Lemma tr_post {A} P (m : M S A) (Q Q' : A → S → Prop) : tr P m Q' → (∀ a s, Q' a s → Q a s) → tr P m Q.
Proof. intros Hm Hp. eapply tr_conseq; eauto. Qed.

(** A fact about the initial state only. *)
Lemma tr_pull {A} P (m : M S A) (Q : A → S → Prop) (X : Prop) : (X → tr P m Q) → tr (λ s, X ∧ P s) m Q.
Proof. intros Hm s [Hx Hs]. by apply Hm. Qed.

Lemma tr_ex {A B} (P : B → S → Prop) (m : M S A) (Q : A → S → Prop) :
  (∀ b, tr (P b) m Q) → tr (λ s, ∃ b, P b s) m Q.
Proof. intros Hm s [b Hs]. by apply (Hm b). Qed.

Lemma tr_use {A} P (m : M S A) (Q : A → S → Prop) s a s' : tr P m Q → P s → m s = Ret a s' → Q a s'.
Proof. intros Hm Hs Hrun. specialize (Hm s Hs). by rewrite Hrun in Hm. Qed.

(** ** [kept] *)
Lemma kept_bind {A B} I (m : M S A) (k : A → M S B) : kept I m → (∀ a, kept I (k a)) → kept I (m ≫= k).
Proof. intros Hm Hk. eapply tr_bind; [exact Hm|done]. Qed.

Lemma kept_ret {A} I (a : A) : kept I (mret a).
Proof. by apply tr_ret. Qed.

Lemma kept_panic {A} I msg : kept I (panic msg : M S A).
Proof. by intros s Hs. Qed.

Lemma kept_sleep {A} I c : kept I (msleep c : M S A).
Proof. by intros s Hs. Qed.

Lemma kept_fault {A} I : kept I (mfault : M S A).
Proof. by intros s Hs. Qed.

Lemma kept_nofuel {A} I : kept I ((λ _, NoFuel) : M S A).
Proof. by intros s Hs. Qed.

Lemma kept_mget I : kept I mget.
Proof. by apply tr_mget. Qed.

Lemma kept_gets {A} I (f : S → A) : kept I (gets f).
Proof. by apply tr_gets. Qed.

Lemma kept_mnth {A} I (o : option A) : kept I (mnth o).
Proof. by apply tr_mnth. Qed.

Lemma kept_mwhen I c (m : M S unit) : kept I m → kept I (mwhen c m).
Proof. destruct c; [done|]. intros _. apply kept_ret. Qed.

Lemma kept_mfor {A} I (l : list A) (body : A → M S unit) : (∀ x, kept I (body x)) → kept I (mfor l body).
Proof.
  intros Hb. induction l as [|x l IH]; cbn [mfor]; [apply kept_ret|]. by apply kept_bind.
Qed.

Lemma kept_mfind {A R} I (l : list A) (body : A → M S (option R)) : (∀ x, kept I (body x)) → kept I (mfind l body).
Proof.
  intros Hb. induction l as [|x l IH]; cbn [mfind]; [apply kept_ret|]. apply kept_bind; [done|].
  intros [v|]; [apply kept_ret|done].
Qed.

(** A search: nothing found keeps [I], what is found leaves [Q]. *)
Lemma tr_mfind {A R} I (l : list A) (body : A → M S (option R)) (Q : R → S → Prop) :
  (∀ x, tr I (body x) (λ r s, match r with Some v => Q v s | None => I s end)) →
  tr I (mfind l body) (λ r s, match r with Some v => Q v s | None => I s end).
Proof.
  intros Hb. induction l as [|x l IH]; cbn [mfind]; [by apply tr_ret|]. eapply tr_bind; [apply Hb|].
  intros [v|]; [by apply tr_ret|done].
Qed.
End tr.

Lemma tr_lift {S T A} (get : S → T) (put : T → S → S) (P : S → Prop) (PT : S → T → Prop) (m : M T A) (Q : A → S → Prop) (QT : S → A → T → Prop) :
  (∀ s0, tr (PT s0) m (QT s0)) → (∀ s, P s → PT s (get s)) → (∀ s a t, P s → QT s a t → Q a (put t s)) → tr P (lift get put m) Q.
Proof.
  intros Hm Hp Hq s Hs. specialize (Hm s (get s) (Hp s Hs)). unfold lift. destruct (m (get s)); auto.
Qed.

(** A component the invariant does not look at. *)
Lemma kept_lift {S T A} (I : S → Prop) (get : S → T) (put : T → S → S) (m : M T A) :
  (∀ s t, I s → I (put t s)) → kept I (lift get put m).
Proof. intros Hi. eapply (tr_lift get put I (λ _ _, True) m _ (λ _ _ _, True)); [by intros s0 t _; destruct (m t)|done|eauto]. Qed.

Create HintDb kept.
#[export] Hint Resolve kept_ret kept_panic kept_sleep kept_fault kept_nofuel kept_mget kept_gets kept_mnth : kept.

(** Follows the program; what it calls is looked up in the hints. *)
Ltac kept_step :=
  lazymatch goal with
  | |- kept _ (_ ≫= _) => apply kept_bind; [|intros ?]
  | |- kept _ (mwhen _ _) => apply kept_mwhen
  | |- kept _ (mfor _ _) => apply kept_mfor; intros ?
  | |- kept _ (mfind _ _) => apply kept_mfind; intros ?
  | |- kept _ (match ?x with _ => _ end) => destruct x
  | |- kept _ (let '_ := ?x in _) => destruct x
  | |- kept _ _ => solve [eauto with kept]
  end.
Ltac kept :=
  try lazymatch goal with |- tr ?I ?m _ => change (kept I m) end;
  repeat (cbv beta zeta; kept_step).
