(* ===== verification/Bytes.v ===== *)
(** * Byte sequences

    Little-endian encodings and in-place updates of byte arrays: what the C
    code does when it casts [bp->data] to a struct pointer and reads or assigns
    one of its fields. A byte array is a [list Z]; offsets are in bytes. *)
From Stdlib Require Import ZArith Lia.
From stdpp Require Import base tactics numbers option list.
From S2P Require Import Prelude.

Fixpoint le_bytes (n : nat) (v : Z) : list Z :=
  match n with
  | O => []
  | S n => v mod 256 :: le_bytes n (v / 256)
  end.

Fixpoint le_val (bs : list Z) : Z :=
  match bs with
  | [] => 0
  | b :: bs => b + 256 * le_val bs
  end.

(** The bytes [off .. off+n) of an array. *)
Definition sub (l : list Z) (off n : nat) : list Z := take n (drop off l).

(** The array with the bytes [w] stored at [off]. *)
Definition splice (l : list Z) (off : nat) (w : list Z) : list Z :=
  take off l ++ w ++ drop (off + length w) l.

Definition get16 (l : list Z) (off : nat) : Z := le_val (sub l off 2).
Definition get32 (l : list Z) (off : nat) : Z := le_val (sub l off 4).
Definition put16 (l : list Z) (off : nat) (v : Z) : list Z := splice l off (le_bytes 2 v).
Definition put32 (l : list Z) (off : nat) (v : Z) : list Z := splice l off (le_bytes 4 v).

Lemma length_le_bytes n v : length (le_bytes n v) = n.
Proof. revert v; induction n; intros; simpl; congruence. Qed.

Lemma le_val_bytes n v : le_val (le_bytes n v) = v mod 256 ^ Z.of_nat n.
Proof.
  revert v; induction n as [|n IH]; intros v; cbn [le_bytes le_val].
  - by rewrite Z.mod_1_r.
  - rewrite IH, Nat2Z.inj_succ, Z.pow_succ_r by lia.
    rewrite Z.rem_mul_r by (try apply Z.pow_nonzero; lia). lia.
Qed.

Lemma length_sub l off n : (off + n ≤ length l)%nat → length (sub l off n) = n.
Proof. intros. unfold sub. rewrite length_take, length_drop. lia. Qed.

Lemma length_splice l off w :
  (off + length w ≤ length l)%nat → length (splice l off w) = length l.
Proof. intros. unfold splice. rewrite !length_app, length_take, length_drop. lia. Qed.

Lemma lookup_splice l off w i :
  (off + length w ≤ length l)%nat →
  splice l off w !! i =
    if decide (off ≤ i < off + length w)%nat then w !! (i - off)%nat else l !! i.
Proof.
  intros Hlen. unfold splice. case_decide as Hin.
  - rewrite lookup_app_r; rewrite length_take; [|lia].
    rewrite lookup_app_l by lia. f_equal; lia.
  - destruct (decide (i < off)%nat).
    + rewrite lookup_app_l by (rewrite length_take; lia).
      by rewrite lookup_take_lt.
    + rewrite lookup_app_r; rewrite length_take; [|lia].
      rewrite lookup_app_r by lia. rewrite lookup_drop. f_equal; lia.
Qed.

Lemma lookup_sub l off n i :
  sub l off n !! i = if decide (i < n)%nat then l !! (off + i)%nat else None.
Proof.
  unfold sub. case_decide.
  - by rewrite lookup_take_lt, lookup_drop.
  - apply lookup_take_ge. lia.
Qed.

Lemma sub_splice_eq l off w :
  (off + length w ≤ length l)%nat → sub (splice l off w) off (length w) = w.
Proof.
  intros. apply list_eq. intros i. rewrite lookup_sub. case_decide.
  - rewrite lookup_splice by done. case_decide; [f_equal|]; lia.
  - symmetry. apply lookup_ge_None_2. lia.
Qed.

Lemma sub_splice_ne l off w o n :
  (off + length w ≤ length l)%nat →
  (o + n ≤ off ∨ off + length w ≤ o)%nat →
  sub (splice l off w) o n = sub l o n.
Proof.
  intros Hl Hd. apply list_eq. intros i. rewrite !lookup_sub. case_decide; [|done].
  rewrite lookup_splice by done. case_decide; [lia|done].
Qed.

Lemma get32_put32_eq l off v :
  (off + 4 ≤ length l)%nat → get32 (put32 l off v) off = u32 v.
Proof.
  intros. unfold get32, put32.
  pose proof (sub_splice_eq l off (le_bytes 4 v)) as Hs.
  rewrite length_le_bytes in Hs. rewrite Hs by lia. by rewrite le_val_bytes.
Qed.

Lemma get16_put16_eq l off v :
  (off + 2 ≤ length l)%nat → get16 (put16 l off v) off = u16 v.
Proof.
  intros. unfold get16, put16.
  pose proof (sub_splice_eq l off (le_bytes 2 v)) as Hs.
  rewrite length_le_bytes in Hs. rewrite Hs by lia. by rewrite le_val_bytes.
Qed.

(** A store at one offset leaves a disjoint field alone. *)
Section disjoint_fields.
Context (l : list Z) (off o : nat) (v : Z).

Lemma get32_put32_ne :
  (off + 4 ≤ length l)%nat → (o + 4 ≤ off ∨ off + 4 ≤ o)%nat →
  get32 (put32 l off v) o = get32 l o.
Proof.
  intros. unfold get32, put32.
  rewrite sub_splice_ne by (rewrite length_le_bytes; lia). done.
Qed.

Lemma get16_put32_ne :
  (off + 4 ≤ length l)%nat → (o + 2 ≤ off ∨ off + 4 ≤ o)%nat →
  get16 (put32 l off v) o = get16 l o.
Proof.
  intros. unfold get16, put32.
  rewrite sub_splice_ne by (rewrite length_le_bytes; lia). done.
Qed.

Lemma get32_put16_ne :
  (off + 2 ≤ length l)%nat → (o + 4 ≤ off ∨ off + 2 ≤ o)%nat →
  get32 (put16 l off v) o = get32 l o.
Proof.
  intros. unfold get32, put16.
  rewrite sub_splice_ne by (rewrite length_le_bytes; lia). done.
Qed.

Lemma get16_put16_ne :
  (off + 2 ≤ length l)%nat → (o + 2 ≤ off ∨ off + 2 ≤ o)%nat →
  get16 (put16 l off v) o = get16 l o.
Proof.
  intros. unfold get16, put16.
  rewrite sub_splice_ne by (rewrite length_le_bytes; lia). done.
Qed.

Lemma length_put32 : (off + 4 ≤ length l)%nat → length (put32 l off v) = length l.
Proof. intros. apply length_splice. by rewrite length_le_bytes. Qed.

Lemma length_put16 : (off + 2 ≤ length l)%nat → length (put16 l off v) = length l.
Proof. intros. apply length_splice. by rewrite length_le_bytes. Qed.
End disjoint_fields.

Create Rewrite HintDb bytes.
#[export] Hint Rewrite get32_put32_eq get16_put16_eq get32_put32_ne get16_put32_ne
  get32_put16_ne get16_put16_ne length_put32 length_put16
  using (rewrite ?length_put32, ?length_put16 by lia; lia) : bytes.
