(* ===== verification/Param.v ===== *)
(** * Build-time parameters

    The constants of kernel/param.h, of the on-disk format kernel/fs.h and of
    kernel/fcntl.h. Array
    sizes are [nat]; block and inode numbers, which the code keeps in [uint]s,
    are [Z]. *)
From Stdlib Require Import ZArith.
From S2P Require Import Prelude.

(** ** kernel/param.h *)
Definition NPROC : nat := 64.
Definition NCPU : nat := 8.
Definition NOFILE : nat := 16.
Definition NFILE : nat := 100.
Definition NINODE : nat := 50.
Definition NDEV : Z := 10.
Definition ROOTDEV : Z := 1.
Definition MAXARG : nat := 32.
Definition MAXOPBLOCKS : Z := 10.
Definition LOGSIZE : Z := MAXOPBLOCKS * 3.
Definition NBUF : nat := 30.
Definition FSSIZE : Z := 2000.
Definition MAXPATH : Z := 128.
Definition USERSTACK : Z := 1.

(** ** kernel/fs.h *)
Definition ROOTINO : Z := 1.
Definition BSIZE : Z := 1024.
Definition FSMAGIC : Z := 0x10203040.
Definition NDIRECT : Z := 12.
Definition NINDIRECT : Z := BSIZE / 4.
Definition MAXFILE : Z := NDIRECT + NINDIRECT.
Definition DIRSIZ : nat := 14.
Definition BPB : Z := BSIZE * 8.

(** [sizeof(struct dinode)]: four shorts, a uint, 13 uints, a ushort and 956
    bytes of padding make 1022, rounded up to the alignment of [uint]. *)
Definition sizeof_dinode : Z := 1024.
Definition IPB : Z := BSIZE / sizeof_dinode.

Record superblock := SuperBlock {
  sb_magic : Z;
  sb_size : Z;
  sb_nblocks : Z;
  sb_ninodes : Z;
  sb_nlog : Z;
  sb_logstart : Z;
  sb_inodestart : Z;
  sb_bmapstart : Z
}.

Definition IBLOCK (i : Z) (sb : superblock) : Z := i / IPB + sb_inodestart sb.
Definition BBLOCK (b : Z) (sb : superblock) : Z := b / BPB + sb_bmapstart sb.

(** ** kernel/fcntl.h *)
Definition O_RDONLY : Z := 0.
Definition O_WRONLY : Z := 1.
Definition O_RDWR : Z := 2.
Definition O_CREATE : Z := 512.
Definition O_TRUNC : Z := 1024.
Definition SEEK_SET : Z := 0.
Definition SEEK_CUR : Z := 1.
Definition SEEK_END : Z := 2.
Definition S_IRUSR : Z := 4.
Definition S_IWUSR : Z := 2.
Definition S_IXUSR : Z := 1.
