(* ===== verification/Str.v ===== *)
(** * Strings and memory: kernel/string.c

    Memory is a map from addresses to bytes; an address that was never written
    reads as 0. A C string read through a pointer [p] is the function
    [i ↦ p[i]], so that the same definitions serve memory, arrays on the stack
    and bytes of a disk block. *)
From Stdlib Require Import ZArith Lia.
From stdpp Require Import prelude gmap strings.
From S2P Require Import Prelude Bytes.

Abbreviation mem := (gmap Z Z).

Definition ld (m : mem) (a : Z) : Z := default 0 (m !! a).
Definition st (m : mem) (a v : Z) : mem := <[a := u8 v]> m.

Lemma ld_st m a v b : ld (st m a v) b = if decide (a = b) then u8 v else ld m b.
Proof.
  unfold ld, st. destruct (decide (a = b)) as [<-|Hne].
  - by rewrite lookup_insert_eq.
  - by rewrite lookup_insert_ne.
Qed.

Definition memset (m : mem) (dst c : Z) (n : nat) : mem :=
  foldl (λ m i, st m (dst + Z.of_nat i) c) m (seq 0 n).

(** [while(n-- > 0) *d++ = *s++;] *)
Definition copy_up (m : mem) (d s : Z) (n : nat) : mem :=
  foldl (λ m i, st m (d + Z.of_nat i) (ld m (s + Z.of_nat i))) m (seq 0 n).

(** [s += n; d += n; while(n-- > 0) *--d = *--s;] *)
Definition copy_down (m : mem) (d s : Z) (n : nat) : mem :=
  foldl (λ m i, st m (d + Z.of_nat i) (ld m (s + Z.of_nat i))) m (rev (seq 0 n)).

Definition memmove (m : mem) (dst src : Z) (n : nat) : mem :=
  if decide (n = 0%nat) then m
  else if (src <? dst) && (src + Z.of_nat n >? dst) then copy_down m dst src n
  else copy_up m dst src n.

Definition memcpy (m : mem) (dst src : Z) (n : nat) : mem := memmove m dst src n.

(** [p[0], p[1], ...] *)
Abbreviation ptr := (nat → Z).
Definition advance (p : ptr) (k : nat) : ptr := λ i, p (k + i)%nat.
Definition mem_ptr (m : mem) (a : Z) : ptr := λ i, ld m (a + Z.of_nat i).
Definition list_ptr (l : list Z) : ptr := λ i, nth i l 0.

Fixpoint memcmp (p q : ptr) (n : nat) : Z :=
  match n with
  | O => 0
  | S n => if p O =? q O then memcmp (advance p 1) (advance q 1) n else u8 (p O) - u8 (q O)
  end.

Fixpoint strncmp (p q : ptr) (n : nat) : Z :=
  match n with
  | O => 0
  | S n' =>
      if negb (p O =? 0) && (p O =? q O) then strncmp (advance p 1) (advance q 1) n'
      else u8 (p O) - u8 (q O)
  end.

(** The bytes [strncpy(s, t, n)] stores at [s], [s+1], ... *)
Fixpoint strncpy (t : ptr) (n : nat) : list Z :=
  match n with
  | O => []
  | S n' => if t O =? 0 then t O :: replicate n' 0 else t O :: strncpy (advance t 1) n'
  end.

(** The loop of [safestrcpy], entered with [n] before its [--n]. *)
Fixpoint safestrcpy_loop (t : ptr) (n : nat) : list Z :=
  match n with
  | O | 1%nat => [0]
  | S n' => if t O =? 0 then [t O; 0] else t O :: safestrcpy_loop (advance t 1) n'
  end.

(** The bytes [safestrcpy(s, t, n)] stores at [s], [s+1], ... *)
Definition safestrcpy (t : ptr) (n : Z) : list Z :=
  if n <=? 0 then [] else safestrcpy_loop t (Z.to_nat n).

(** [strlen], for a string that ends within [fuel] bytes. *)
Fixpoint strlen_from (fuel : nat) (s : ptr) (n : nat) : option nat :=
  match fuel with
  | O => None
  | S fuel => if s n =? 0 then Some n else strlen_from fuel s (S n)
  end.
Definition strlen (fuel : nat) (s : ptr) : option nat := strlen_from fuel s 0.

(** ** Specifications *)

(** The C string at [p], cut off after [n] bytes. *)
Fixpoint cstr (n : nat) (p : ptr) : list Z :=
  match n with
  | O => []
  | S n => if p O =? 0 then [] else p O :: cstr n (advance p 1)
  end.

Definition bytes_ptr (p : ptr) : Prop := ∀ i, 0 ≤ p i < 256.
Definition bytes_mem (m : mem) : Prop := ∀ a, 0 ≤ ld m a < 256.

Lemma bytes_advance p k : bytes_ptr p → bytes_ptr (advance p k).
Proof. intros Hp i. apply Hp. Qed.

Lemma bytes_st m a v : bytes_mem m → bytes_mem (st m a v).
Proof. intros Hm b. rewrite ld_st. case_decide; [apply u8_range|apply Hm]. Qed.

Lemma ld_memset m dst c n a :
  ld (memset m dst c n) a =
    if decide (dst ≤ a < dst + Z.of_nat n) then u8 c else ld m a.
Proof.
  unfold memset. induction n as [|n IH].
  - cbn [seq foldl]. case_decide; [lia|done].
  - rewrite seq_S, foldl_app. cbn [foldl]. rewrite ld_st, IH.
    repeat case_decide; try done; lia.
Qed.

(** Copying upwards is right when the destination starts below the source or
    beyond its end; copying downwards when it starts above the source. *)
Lemma ld_copy_up m d s n a :
  bytes_mem m → d ≤ s ∨ s + Z.of_nat n ≤ d →
  ld (copy_up m d s n) a =
    if decide (d ≤ a < d + Z.of_nat n) then ld m (s + (a - d)) else ld m a.
Proof.
  intros Hm Hd. revert a. unfold copy_up. induction n as [|n IH]; intros a.
  - cbn [seq foldl]. case_decide; [lia|done].
  - rewrite seq_S, foldl_app. cbn [foldl]. rewrite ld_st, Nat.add_0_l, !IH by lia.
    repeat case_decide; subst; try lia; try done.
    rewrite u8_small by apply Hm. f_equal. lia.
Qed.

Lemma ld_copy_down m d s n a :
  bytes_mem m → s ≤ d →
  ld (copy_down m d s n) a =
    if decide (d ≤ a < d + Z.of_nat n) then ld m (s + (a - d)) else ld m a.
Proof.
  intros Hm Hd. unfold copy_down. revert m Hm. induction n as [|n IH]; intros m Hm.
  - cbn [seq foldl rev]. case_decide; [lia|done].
  - rewrite seq_S, rev_app_distr. cbn [rev app foldl].
    rewrite IH by (by apply bytes_st). rewrite !ld_st, Nat.add_0_l.
    repeat case_decide; subst; try lia; try done.
    rewrite u8_small by apply Hm. f_equal. lia.
Qed.

Lemma ld_memmove m dst src n a :
  bytes_mem m →
  ld (memmove m dst src n) a =
    if decide (dst ≤ a < dst + Z.of_nat n) then ld m (src + (a - dst)) else ld m a.
Proof.
  intros Hm. unfold memmove. case_decide as Hn; [subst; case_decide; [lia|done]|].
  destruct (_ && _) eqn:E.
  - apply andb_true_iff in E as [E1%Z.ltb_lt E2]. apply ld_copy_down; [done|lia].
  - apply ld_copy_up; [done|]. apply andb_false_iff in E as [E%Z.ltb_ge|E]; [lia|].
    rewrite Z.gtb_ltb in E. apply Z.ltb_ge in E. lia.
Qed.

Lemma strncmp_cstr p q n :
  bytes_ptr p → bytes_ptr q → strncmp p q n = 0 ↔ cstr n p = cstr n q.
Proof.
  revert p q. induction n as [|n IH]; intros p q Hp Hq; [done|]. cbn [strncmp cstr].
  pose proof (Hp O). pose proof (Hq O).
  destruct (Z.eqb_spec (p O) 0) as [Hp0|Hp0]; cbn [negb andb].
  - rewrite !u8_small by done. destruct (Z.eqb_spec (q O) 0); (split; [lia||done|]); [lia|done].
  - destruct (Z.eqb_spec (p O) (q O)) as [Heq|Hne].
    + rewrite IH by (by apply bytes_advance). rewrite <-Heq.
      destruct (Z.eqb_spec (p O) 0); [done|]. split; [by intros ->|by injection 1].
    + rewrite !u8_small by done. split; [lia|].
      destruct (Z.eqb_spec (q O) 0); [done|]. by injection 1.
Qed.

Lemma length_cstr n p : (length (cstr n p) ≤ n)%nat.
Proof.
  revert p. induction n as [|n IH]; intros p; cbn [cstr]; [done|].
  destruct (p O =? 0); cbn [length]; [lia|]. specialize (IH (advance p 1)). lia.
Qed.

Lemma strncpy_cstr t n :
  strncpy t n = cstr n t ++ replicate (n - length (cstr n t)) 0.
Proof.
  revert t. induction n as [|n IH]; intros t; [done|]. cbn [strncpy cstr].
  destruct (Z.eqb_spec (t O) 0) as [->|]; [done|]. cbn [length app Nat.sub]. by rewrite IH.
Qed.

Lemma length_strncpy t n : length (strncpy t n) = n.
Proof.
  rewrite strncpy_cstr, length_app, length_replicate. pose proof (length_cstr n t). lia.
Qed.

(** Reading back what [strncpy] stored. *)
Lemma cstr_ext n p q : (∀ i, (i < n)%nat → p i = q i) → cstr n p = cstr n q.
Proof.
  revert p q. induction n as [|n IH]; intros p q Hpq; [done|]. cbn [cstr].
  rewrite (Hpq O) by lia. destruct (q O =? 0); [done|]. f_equal.
  apply IH. intros i Hi. apply (Hpq (S i)). lia.
Qed.

Lemma cstr_strncpy t n : cstr n (list_ptr (strncpy t n)) = cstr n t.
Proof.
  revert t. induction n as [|n IH]; intros t; [done|]. cbn [strncpy cstr].
  destruct (Z.eqb_spec (t O) 0) as [Ht|Ht].
  - unfold list_ptr at 1. cbn [nth]. by rewrite Ht.
  - change (list_ptr (t O :: strncpy (advance t 1) n) O) with (t O).
    destruct (Z.eqb_spec (t O) 0); [done|]. f_equal. rewrite <-(IH (advance t 1)). apply cstr_ext. intros i _. reflexivity.
Qed.

(** A string is equal to its copy. *)
Lemma strncmp_strncpy p n : strncmp p (list_ptr (strncpy p n)) n = 0.
Proof.
  revert p. induction n as [|n IH]; intros p; [done|]. cbn [strncmp strncpy].
  destruct (Z.eqb_spec (p O) 0) as [H0|H0]; cbn [negb andb].
  - unfold list_ptr. cbn [nth]. lia.
  - change (list_ptr (p O :: strncpy (advance p 1) n) O) with (p O). rewrite Z.eqb_refl. apply IH.
Qed.

Lemma cstr_S n p : cstr (S n) p = if p O =? 0 then [] else p O :: cstr n (advance p 1).
Proof. done. Qed.

Lemma safestrcpy_loop_S t k :
  safestrcpy_loop t (S (S k)) =
    if t O =? 0 then [t O; 0] else t O :: safestrcpy_loop (advance t 1) (S k).
Proof. done. Qed.

Lemma safestrcpy_nul t n : 0 < n →
  (Z.of_nat (length (safestrcpy t n)) ≤ n) ∧ last (safestrcpy t n) = Some 0.
Proof.
  intros Hn. unfold safestrcpy. rewrite (proj2 (Z.leb_gt _ _)) by done.
  assert (∀ k t, (0 < k)%nat → (length (safestrcpy_loop t k) ≤ k)%nat ∧ last (safestrcpy_loop t k) = Some 0) as H.
  { clear. induction k as [|[|k] IH]; intros t Hk; [lia|done|].
    rewrite safestrcpy_loop_S. destruct (t O =? 0); [split; [cbn [length]; lia|done]|].
    destruct (IH (advance t 1)) as [H1 H2]; [lia|]. cbn [length]. split; [lia|].
    by rewrite last_cons, H2. }
  destruct (H (Z.to_nat n) t); [lia|]. split; [lia|done].
Qed.

(** As much of the string as fits before the final NUL. *)
Lemma safestrcpy_cstr t n : 0 < n →
  cstr (Z.to_nat n) (list_ptr (safestrcpy t n)) = cstr (Z.to_nat n - 1) t.
Proof.
  intros Hn. unfold safestrcpy. rewrite (proj2 (Z.leb_gt _ _)) by done.
  assert (∀ k t, (0 < k)%nat → cstr k (list_ptr (safestrcpy_loop t k)) = cstr (k - 1) t) as H; [|apply H; lia].
  clear. induction k as [|[|k] IH]; intros t Hk; [lia|done|].
  rewrite safestrcpy_loop_S. change (S (S k) - 1)%nat with (S k).
  rewrite (cstr_S (S k)), (cstr_S k t).
  destruct (Z.eqb_spec (t O) 0) as [Ht|Ht].
  - unfold list_ptr at 1. cbn [nth]. by rewrite Ht.
  - change (list_ptr (t O :: _) O) with (t O). destruct (Z.eqb_spec (t O) 0); [done|]. f_equal.
    specialize (IH (advance t 1) ltac:(lia)). rewrite Nat.sub_succ, Nat.sub_0_r in IH.
    rewrite <-IH. apply cstr_ext. intros i _. reflexivity.
Qed.

Lemma strlen_spec fuel s n :
  strlen fuel s = Some n ↔ (n < fuel)%nat ∧ s n = 0 ∧ ∀ i, (i < n)%nat → s i ≠ 0.
Proof.
  unfold strlen. assert (∀ f k, (∀ i, (i < k)%nat → s i ≠ 0) →
    strlen_from f s k = Some n ↔ (k ≤ n < k + f)%nat ∧ s n = 0 ∧ ∀ i, (i < n)%nat → s i ≠ 0) as H.
  { induction f as [|f IH]; intros k Hk; cbn [strlen_from].
    - split; [done|]. lia.
    - destruct (Z.eqb_spec (s k) 0) as [H0|H0].
      + split; [intros [= <-]; split; [lia|done]|]. intros (? & ? & Hn).
        destruct (decide (k = n)) as [->|]; [done|]. destruct (Hn k); [lia|done].
      + rewrite IH by (intros i Hi; destruct (decide (i = k)) as [->|]; [done|apply Hk; lia]).
        split; [intros (? & ? & ?)|intros (? & ? & ?)]; split_and!; try done; try lia.
        destruct (decide (k = n)) as [->|]; [done|lia]. }
  rewrite H by lia. split; intros (? & ? & ?); split_and!; try done; lia.
Qed.
