(* ===== verification/UserMem.v ===== *)
(** * The memory of the calling process

    What fs.c, pipe.c and console.c need of [copyout] and [copyin]. *)
From Stdlib Require Import ZArith.
From stdpp Require Import prelude.
From S2P Require Import Prelude.

(** Copies between the kernel and the memory of the calling process.
    Each returns what was copied before a failure, and whether all was.
    [ucopyinstr]: the string at an address with its null byte, if it ends within
    a number of bytes. *)
Class UserMem (U : Type) := {
  ucopyout : U → Z → list Z → U * bool;
  ucopyin : U → Z → nat → list Z * bool;
  ucopyinstr : U → Z → nat → option (list Z)
}.

(** What the file system relies on of kernel/vm.c [copyout] and [copyin]: a
    range may be copied piece by piece. *)
Class UserMemLaws (U : Type) `{UserMem U} := {
  ucopyout_app m dst a b :
    0 ≤ dst → dst + Z.of_nat (length (a ++ b)) < 18446744073709551616 →
    ucopyout m dst (a ++ b) =
      (let '(m', ok) := ucopyout m dst a in
       if ok then ucopyout m' (dst + Z.of_nat (length a)) b else (m', false));
  ucopyout_nil m dst : ucopyout m dst [] = (m, true);
  ucopyin_app m src n1 n2 l :
    0 ≤ src → src + Z.of_nat (n1 + n2) < 18446744073709551616 →
    ucopyin m src (n1 + n2) = (l, true) →
    length l = (n1 + n2)%nat ∧ ucopyin m src n1 = (take n1 l, true) ∧
    ucopyin m (src + Z.of_nat n1) n2 = (drop n1 l, true)
}.
