(* ===== verification/Riscv.v ===== *)
(** * Pages and page-table entries: kernel/riscv.h and kernel/memlayout.h

    The macros on addresses and Sv39 page-table entries, with the division and
    modulo they amount to. *)
From Stdlib Require Import ZArith Lia.
From stdpp Require Import base tactics numbers.
From S2P Require Import Prelude.

(** ** kernel/riscv.h *)
Definition PGSIZE : Z := 4096.
Definition PGSHIFT : Z := 12.
Definition PGROUNDUP (sz : Z) : Z := Z.land (u64 (sz + PGSIZE - 1)) (Z.lnot (PGSIZE - 1)).
Definition PGROUNDDOWN (a : Z) : Z := Z.land a (Z.lnot (PGSIZE - 1)).

Definition PTE_V : Z := Z.shiftl 1 0.
Definition PTE_R : Z := Z.shiftl 1 1.
Definition PTE_W : Z := Z.shiftl 1 2.
Definition PTE_X : Z := Z.shiftl 1 3.
Definition PTE_U : Z := Z.shiftl 1 4.

Definition PA2PTE (pa : Z) : Z := Z.shiftl (Z.shiftr pa 12) 10.
Definition PTE2PA (pte : Z) : Z := u64 (Z.shiftl (Z.shiftr pte 10) 12).
Definition PTE_FLAGS (pte : Z) : Z := Z.land pte 0x3FF.

Definition PXMASK : Z := 0x1FF.
Definition PXSHIFT (level : Z) : Z := PGSHIFT + 9 * level.
Definition PX (level va : Z) : Z := Z.land (Z.shiftr va (PXSHIFT level)) PXMASK.

Definition MAXVA : Z := Z.shiftl 1 (9 + 9 + 9 + 12 - 1).

(** ** kernel/memlayout.h *)
Definition UART0 : Z := 0x10000000.
Definition VIRTIO0 : Z := 0x10001000.
Definition PLIC : Z := 0x0c000000.
Definition KERNBASE : Z := 0x80000000.
Definition PHYSTOP : Z := KERNBASE + 128 * 1024 * 1024.
Definition TRAMPOLINE : Z := MAXVA - PGSIZE.
Definition KSTACK (p : Z) : Z := TRAMPOLINE - (p + 1) * 2 * PGSIZE.
Definition TRAPFRAME : Z := TRAMPOLINE - PGSIZE.

(** ** What they compute *)

Lemma land_lnot_ones x n : 0 ≤ n → Z.land x (Z.lnot (Z.ones n)) = x / 2 ^ n * 2 ^ n.
Proof.
  intros Hn. rewrite <-Z.ldiff_land, Z.ldiff_ones_r, Z.shiftl_mul_pow2, Z.shiftr_div_pow2 by done. done.
Qed.

Lemma PGROUNDDOWN_div a : PGROUNDDOWN a = a / 4096 * 4096.
Proof. apply (land_lnot_ones a 12). lia. Qed.

Lemma PGROUNDUP_div sz :
  0 ≤ sz → sz + 4095 < 18446744073709551616 → PGROUNDUP sz = (sz + 4095) / 4096 * 4096.
Proof.
  intros H0 H1. unfold PGROUNDUP, PGSIZE. replace (sz + 4096 - 1) with (sz + 4095) by lia.
  rewrite u64_small by lia. apply (land_lnot_ones (sz + 4095) 12). lia.
Qed.

Lemma PA2PTE_div pa : PA2PTE pa = pa / 4096 * 1024.
Proof. unfold PA2PTE. by rewrite Z.shiftl_mul_pow2, Z.shiftr_div_pow2. Qed.

Lemma PTE2PA_div pte : PTE2PA pte = u64 (pte / 1024 * 4096).
Proof. unfold PTE2PA. by rewrite Z.shiftl_mul_pow2, Z.shiftr_div_pow2. Qed.

Lemma PTE_FLAGS_mod pte : PTE_FLAGS pte = pte mod 1024.
Proof. apply (Z.land_ones pte 10). lia. Qed.

Lemma PX_div level va : 0 ≤ level → PX level va = va / (4096 * 512 ^ level) mod 512.
Proof.
  intros Hl. unfold PX, PXSHIFT, PGSHIFT. rewrite Z.shiftr_div_pow2 by lia.
  change PXMASK with (Z.ones 9). rewrite Z.land_ones by lia. f_equal. f_equal.
  rewrite Z.pow_add_r, Z.pow_mul_r by lia. done.
Qed.

Lemma PX_range level va : 0 ≤ PX level va < 512.
Proof.
  unfold PX. change PXMASK with (Z.ones 9). rewrite Z.land_ones by lia. by apply Z.mod_pos_bound.
Qed.

(** The three indices determine the page. *)
Lemma PX_inj va va' :
  0 ≤ va < MAXVA → 0 ≤ va' < MAXVA →
  PX 2 va = PX 2 va' → PX 1 va = PX 1 va' → PX 0 va = PX 0 va' → va / 4096 = va' / 4096.
Proof.
  intros Hva Hva'. rewrite !PX_div by lia. change MAXVA with 274877906944 in *.
  change (4096 * 512 ^ 2) with 1073741824. change (4096 * 512 ^ 1) with 2097152.
  change (4096 * 512 ^ 0) with 4096. zlia.
Qed.

(** ** Entries *)

Lemma lor_low hi lo : 0 ≤ lo < 1024 → Z.lor (hi * 1024) lo = hi * 1024 + lo.
Proof.
  intros Hlo. rewrite <-Z.add_lor_land. assert (Z.land (hi * 1024) lo = 0) as ->; [|lia].
  apply Z.bits_inj'. intros n Hn. rewrite Z.land_spec, Z.bits_0. destruct (decide (n < 10)) as [Hl|Hl].
  - change 1024 with (2 ^ 10). by rewrite Z.mul_pow2_bits_low.
  - rewrite <-(Z.mod_small lo (2 ^ 10)), Z.mod_pow2_bits_high by lia. apply andb_false_r.
Qed.

(** The entry for the page at [pa] with flags [fl]: both can be read back. *)
Lemma PTE2PA_join pa fl :
  pa mod 4096 = 0 → 0 ≤ pa < 18446744073709551616 → 0 ≤ fl < 1024 →
  PTE2PA (Z.lor (PA2PTE pa) fl) = pa.
Proof. intros Hpa Hr Hfl. rewrite PA2PTE_div, lor_low, PTE2PA_div by done. wordlia. Qed.

Lemma PTE_FLAGS_join pa fl : 0 ≤ fl < 1024 → PTE_FLAGS (Z.lor (PA2PTE pa) fl) = fl.
Proof. intros Hfl. rewrite PA2PTE_div, lor_low, PTE_FLAGS_mod by done. zlia. Qed.

Lemma lor_1024 a b : 0 ≤ a < 1024 → 0 ≤ b < 1024 → 0 ≤ Z.lor a b < 1024.
Proof.
  intros Ha Hb. split; [apply Z.lor_nonneg; lia|].
  destruct (Z.eq_dec (Z.lor a b) 0) as [->|Hne]; [done|].
  assert (0 ≤ Z.lor a b) by (apply Z.lor_nonneg; lia).
  change 1024 with (2 ^ 10). apply Z.log2_lt_pow2; [lia|]. rewrite Z.log2_lor by lia.
  apply Z.max_lub_lt; [destruct (Z.eq_dec a 0) as [->|]|destruct (Z.eq_dec b 0) as [->|]]; try done; apply Z.log2_lt_pow2; lia.
Qed.

(** Testing one flag. *)
Definition flag (pte bit : Z) : bool := negb (Z.land pte bit =? 0).

Lemma land_bit x k : 0 ≤ k → Z.land x (Z.shiftl 1 k) = if Z.testbit x k then 2 ^ k else 0.
Proof.
  intros Hk. rewrite Z.shiftl_1_l. apply Z.bits_inj'. intros n Hn. rewrite Z.land_spec.
  destruct (decide (n = k)) as [->|Hne].
  - rewrite Z.pow2_bits_true, andb_true_r by done. destruct (Z.testbit x k) eqn:E;
      [by rewrite Z.pow2_bits_true|by rewrite Z.bits_0].
  - rewrite Z.pow2_bits_false, andb_false_r by done.
    destruct (Z.testbit x k); [by rewrite Z.pow2_bits_false|by rewrite Z.bits_0].
Qed.

Lemma flag_testbit pte k : 0 ≤ k → flag pte (Z.shiftl 1 k) = Z.testbit pte k.
Proof.
  intros Hk. unfold flag. rewrite land_bit by done. destruct (Z.testbit pte k); [|done].
  rewrite (proj2 (Z.eqb_neq _ _)); [done|]. by apply Z.pow_nonzero.
Qed.

(** The flags of an entry are those it was made with. *)
Lemma flag_join pa fl k :
  0 ≤ k < 10 → 0 ≤ fl < 1024 → flag (Z.lor (PA2PTE pa) fl) (Z.shiftl 1 k) = Z.testbit fl k.
Proof.
  intros Hk Hfl. rewrite flag_testbit by lia. rewrite Z.lor_spec, PA2PTE_div.
  change 1024 with (2 ^ 10). by rewrite Z.mul_pow2_bits_low by lia.
Qed.

Lemma flag_0 bit : flag 0 bit = false.
Proof. unfold flag. by rewrite Z.land_0_l. Qed.
