(* ===== verification/PhysMem.v ===== *)
(** * Physical memory

    Loads and stores of 64-bit words and of byte ranges in the memory of
    kernel/string.c: what [*p] and [*p = v] mean for a [uint64 *], and what
    [memmove] from a buffer outside the allocator's pages does. *)
From Stdlib Require Import ZArith Lia.
From stdpp Require Import prelude gmap.
From S2P Require Import Prelude Bytes Str.

Definition st_bytes (m : mem) (a : Z) (l : list Z) : mem :=
  foldl (λ m '(i, b), st m (a + Z.of_nat i) b) m (imap (λ i b, (i, b)) l).
Definition ld_bytes (m : mem) (a : Z) (n : nat) : list Z :=
  (λ i, ld m (a + Z.of_nat i)) <$> seq 0 n.

Definition ld64 (m : mem) (a : Z) : Z := le_val (ld_bytes m a 8).
Definition st64 (m : mem) (a v : Z) : mem := st_bytes m a (le_bytes 8 v).

Lemma st_bytes_snoc m a l b : st_bytes m a (l ++ [b]) = st (st_bytes m a l) (a + Z.of_nat (length l)) b.
Proof. unfold st_bytes. rewrite imap_app, foldl_app. cbn. by rewrite Nat.add_0_r. Qed.

Lemma st_bytes_app m a l1 l2 :
  st_bytes m a (l1 ++ l2) = st_bytes (st_bytes m a l1) (a + Z.of_nat (length l1)) l2.
Proof.
  induction l2 as [|b l2 IH] using rev_ind; [by rewrite app_nil_r|].
  rewrite app_assoc, !st_bytes_snoc, IH, length_app. f_equal. lia.
Qed.

Lemma ld_st_bytes m a l b :
  ld (st_bytes m a l) b =
    if decide (a ≤ b < a + Z.of_nat (length l)) then u8 (nth (Z.to_nat (b - a)) l 0) else ld m b.
Proof.
  induction l as [|y l IH] using rev_ind; [cbn; case_decide; [lia|done]|].
  rewrite st_bytes_snoc, ld_st, IH, length_app. cbn [length].
  destruct (decide (a + Z.of_nat (length l) = b)) as [<-|Hne].
  - rewrite decide_True, app_nth2 by lia. replace (Z.to_nat _ - length l)%nat with 0%nat by lia. done.
  - repeat case_decide; try lia; try done. by rewrite app_nth1 by lia.
Qed.

Lemma bytes_st_bytes m a l : bytes_mem m → bytes_mem (st_bytes m a l).
Proof. intros Hm b. rewrite ld_st_bytes. case_decide; [apply u8_range|apply Hm]. Qed.

Lemma bytes_memset m a c n : bytes_mem m → bytes_mem (memset m a c n).
Proof. intros Hm b. rewrite ld_memset. case_decide; [apply u8_range|apply Hm]. Qed.

Lemma bytes_memmove m d s n : bytes_mem m → bytes_mem (memmove m d s n).
Proof. intros Hm b. rewrite ld_memmove by done. case_decide; apply Hm. Qed.

#[export] Hint Resolve bytes_st_bytes bytes_memset bytes_memmove : word.

Lemma ld_bytes_ext m m' a n :
  (∀ b, a ≤ b < a + Z.of_nat n → ld m' b = ld m b) → ld_bytes m' a n = ld_bytes m a n.
Proof. intros Hm. apply list_fmap_ext. intros i k [-> Hi]%lookup_seq. apply Hm. lia. Qed.

Lemma ld64_ext m m' a : (∀ b, a ≤ b < a + 8 → ld m' b = ld m b) → ld64 m' a = ld64 m a.
Proof. intros Hm. unfold ld64. by rewrite (ld_bytes_ext m m'). Qed.

Lemma length_ld_bytes m a n : length (ld_bytes m a n) = n.
Proof. unfold ld_bytes. by rewrite length_fmap, length_seq. Qed.

Lemma ld_bytes_st m a l : Forall (λ b, 0 ≤ b < 256) l → ld_bytes (st_bytes m a l) a (length l) = l.
Proof.
  intros Hl. apply list_eq. intros i. unfold ld_bytes. rewrite list_lookup_fmap.
  destruct (decide (i < length l)%nat) as [Hi|Hi].
  - rewrite lookup_seq_lt by done. cbn [fmap option_fmap option_map Nat.add].
    rewrite ld_st_bytes, decide_True by lia. replace (Z.to_nat (a + Z.of_nat i - a)) with i by lia.
    rewrite (nth_Some l i 0) by done. f_equal. apply u8_small.
    apply (Forall_lookup_1 (λ b, 0 ≤ b < 256) l i); [done|by apply nth_Some].
  - rewrite lookup_seq_ge, lookup_ge_None_2 by lia. done.
Qed.

Lemma le_bytes_range n v : Forall (λ b, 0 ≤ b < 256) (le_bytes n v).
Proof.
  revert v. induction n as [|n IH]; intros v; cbn [le_bytes]; constructor; [by apply Z.mod_pos_bound|apply IH].
Qed.

Lemma ld64_st64_eq m a v : ld64 (st64 m a v) a = u64 v.
Proof.
  unfold ld64, st64. pose proof (ld_bytes_st m a (le_bytes 8 v) (le_bytes_range 8 v)) as Hb.
  rewrite length_le_bytes in Hb. rewrite Hb. by rewrite le_val_bytes.
Qed.

Lemma ld_st64_ne m a v b : b < a ∨ a + 8 ≤ b → ld (st64 m a v) b = ld m b.
Proof. intros Hb. unfold st64. rewrite ld_st_bytes, length_le_bytes. case_decide; [lia|done]. Qed.

Lemma ld64_st64_ne m a v b : b + 8 ≤ a ∨ a + 8 ≤ b → ld64 (st64 m a v) b = ld64 m b.
Proof. intros Hb. apply ld64_ext. intros c Hc. apply ld_st64_ne. lia. Qed.

Lemma bytes_st64 m a v : bytes_mem m → bytes_mem (st64 m a v).
Proof. apply bytes_st_bytes. Qed.

#[export] Hint Resolve bytes_st64 : word.

Lemma le_val_range l : Forall (λ b, 0 ≤ b < 256) l → 0 ≤ le_val l < 256 ^ Z.of_nat (length l).
Proof.
  induction 1 as [|b l Hb Hl IH]; [cbn; lia|]. cbn [le_val length].
  rewrite Nat2Z.inj_succ, Z.pow_succ_r by lia. lia.
Qed.

Lemma ld64_range m a : bytes_mem m → 0 ≤ ld64 m a < 18446744073709551616.
Proof.
  intros Hm. unfold ld64. pose proof (le_val_range (ld_bytes m a 8)) as Hr.
  rewrite length_ld_bytes in Hr. apply Hr. unfold ld_bytes. apply Forall_fmap, Forall_forall. intros i _. apply Hm.
Qed.

(** A range filled with zeros. *)
Lemma ld64_memset_0 m a n b :
  a ≤ b → b + 8 ≤ a + Z.of_nat n → ld64 (memset m a 0 n) b = 0.
Proof.
  intros H0 H1. unfold ld64. replace (ld_bytes (memset m a 0 n) b 8) with (replicate 8 0); [done|].
  apply list_eq. intros i. unfold ld_bytes. rewrite list_lookup_fmap. destruct (decide (i < 8)%nat) as [Hi|Hi].
  - rewrite lookup_seq_lt, lookup_replicate_2 by done. cbn [fmap option_fmap option_map Nat.add].
    by rewrite ld_memset, decide_True by lia.
  - rewrite lookup_seq_ge, lookup_ge_None_2 by (rewrite ?length_replicate; lia). done.
Qed.
