(* ===== verification/Kalloc.v ===== *)
(** * The page allocator: kernel/kalloc.c

    Free pages are linked through their first eight bytes ([struct run]). The
    lock makes each function atomic. [kend] is the address [end] of
    kernel.ld, the first one after the kernel. *)
From Stdlib Require Import ZArith Lia.
From stdpp Require Import prelude gmap strings relations.
From S2P Require Import Prelude Bytes Str Riscv PhysMem.

Definition PGN : nat := Z.to_nat PGSIZE.

(** [kmem] and the memory it manages. *)
Record kmem := KMem {
  k_mem : mem;
  k_freelist : Z;
  k_nfree : Z
}.

Definition kset_mem m s := KMem m (k_freelist s) (k_nfree s).

Section kalloc_code.
Context (kend : Z).

Definition kfree (pa : Z) : M kmem unit :=
  if negb (pa mod PGSIZE =? 0) || (pa <? kend) || (pa >=? PHYSTOP) then panic "kfree" else
  modify (λ s, kset_mem (memset (k_mem s) pa 1 PGN) s) ;;
  modify (λ s, KMem (st64 (k_mem s) pa (k_freelist s)) pa (u64 (k_nfree s + 1))).

Fixpoint freerange_loop (fuel : nat) (p pa_end : Z) : M kmem unit :=
  match fuel with
  | O => λ _, NoFuel
  | S fuel =>
      if p + PGSIZE <=? pa_end then kfree p ;; freerange_loop fuel (p + PGSIZE) pa_end
      else mret tt
  end.

Definition freerange (pa_start pa_end : Z) : M kmem unit :=
  let p := PGROUNDUP pa_start in
  freerange_loop (S (Z.to_nat ((pa_end - p) / PGSIZE))) p pa_end.

Definition kinit : M kmem unit :=
  modify (λ s, KMem (k_mem s) (k_freelist s) 0) ;;
  freerange kend PHYSTOP.

Definition kalloc : M kmem Z :=
  s ← mget;
  let r := k_freelist s in
  mwhen (negb (r =? 0))
    (modify (λ s, KMem (k_mem s) (ld64 (k_mem s) r) (u64 (k_nfree s - 1)))) ;;
  mwhen (negb (r =? 0)) (modify (λ s, kset_mem (memset (k_mem s) r 5 PGN) s)) ;;
  mret r.

Definition kalloc_free_memory : M kmem Z := gets (λ s, u64 (k_nfree s * PGSIZE)).

(** ** The free list *)

Definition page_ok (pa : Z) : Prop := pa mod 4096 = 0 ∧ kend ≤ pa < PHYSTOP.
Definition in_page (pa a : Z) : Prop := pa ≤ a < pa + 4096.

(** The list that starts at [p] consists of the pages [L]. *)
Fixpoint flist (m : mem) (p : Z) (L : list Z) : Prop :=
  match L with
  | [] => p = 0
  | q :: L' => p = q ∧ page_ok q ∧ flist m (ld64 m q) L'
  end.

(** The allocator's invariant: the free pages are [L]. *)
Record kmem_ok (s : kmem) (L : list Z) : Prop := {
  ko_list : flist (k_mem s) (k_freelist s) L;
  ko_nodup : NoDup L;
  ko_count : k_nfree s = Z.of_nat (length L);
  ko_bytes : bytes_mem (k_mem s)
}.
End kalloc_code.

Section kalloc_spec.
Context (kend : Z) (Hend : KERNBASE ≤ kend).
Implicit Types (s : kmem) (L : list Z) (m : mem).
Abbreviation page_ok := (page_ok kend).
Abbreviation kmem_ok := (kmem_ok kend).

Lemma page_bounds pa : page_ok pa → 0 < pa ∧ pa + 4096 ≤ PHYSTOP.
Proof.
  intros [Hm Hr]. unfold PHYSTOP, KERNBASE in *. zlia.
Qed.

Lemma pages_disjoint p q a : page_ok p → page_ok q → in_page p a → in_page q a → p = q.
Proof. unfold page_ok, in_page. intros [? _] [? _] ? ?. zlia. Qed.

(** There are no more pages than fit into the machine. *)
Lemma pages_bound (l : list Z) : NoDup l → (∀ p, p ∈ l → page_ok p) → Z.of_nat (length l) ≤ 32768.
Proof.
  intros Hnd Hpg. assert (length l ≤ length ((λ i, (KERNBASE + 4096 * i)%Z) <$> seqZ 0 32768))%nat as Hl.
  { apply submseteq_length, NoDup_submseteq; [done|]. intros p Hp. destruct (Hpg p Hp) as [Hm Hr]. apply list_elem_of_fmap.
    exists ((p - KERNBASE) / 4096). rewrite elem_of_seqZ. unfold PHYSTOP, KERNBASE in *. split; zlia. }
  rewrite length_fmap, length_seqZ in Hl. lia.
Qed.

Lemma flist_ext m m' p L :
  (∀ q a, q ∈ L → in_page q a → ld m' a = ld m a) → flist kend m p L → flist kend m' p L.
Proof.
  revert p. induction L as [|q L IH]; intros p Hext; [done|]. intros (-> & Hq & Hl).
  split_and!; [done..|]. rewrite (ld64_ext m m').
  - apply IH; [|done]. intros r a Hr. apply Hext. by right.
  - intros b Hb. apply (Hext q); [by left|]. unfold in_page. lia.
Qed.

Lemma flist_ok m p L : flist kend m p L → Forall page_ok L.
Proof. revert p. induction L as [|q L IH]; intros p; [done|]. intros (-> & Hq & Hl). constructor; eauto. Qed.

Lemma flist_pages s L q : kmem_ok s L → q ∈ L → page_ok q.
Proof. intros Hok Hq. eapply Forall_forall; [eapply flist_ok, Hok|done]. Qed.

(** There are fewer free pages than memory has. *)
Lemma free_count L : Forall page_ok L → NoDup L → Z.of_nat (length L) ≤ 32768.
Proof.
  intros Hok Hnd.
  assert (length L ≤ length (seqZ (KERNBASE / 4096) 32768))%nat as Hlen.
  { rewrite <-(length_fmap (λ p, p / 4096) L). apply submseteq_length, NoDup_submseteq.
    - apply NoDup_fmap_2_strong; [|done]. intros p q Hp Hq He.
      rewrite Forall_forall in Hok. destruct (Hok p Hp), (Hok q Hq). zlia.
    - intros x (p & -> & Hp)%list_elem_of_fmap. apply elem_of_seqZ.
      rewrite Forall_forall in Hok. destruct (Hok p Hp) as [? ?].
      unfold PHYSTOP, KERNBASE in *. zlia. }
  rewrite length_seqZ in Hlen. lia.
Qed.

(** Writing elsewhere keeps the free list. *)
Lemma kmem_ok_mem s L m' :
  kmem_ok s L → bytes_mem m' → (∀ q a, q ∈ L → in_page q a → ld m' a = ld (k_mem s) a) →
  kmem_ok (kset_mem m' s) L.
Proof. intros [Hl Hn Hc Hb] Hb' Hext. split; try done. by eapply flist_ext. Qed.

Lemma kfree_spec s L pa (Q : unit → kmem → Prop) :
  kmem_ok s L → page_ok pa → pa ∉ L →
  (∀ s', kmem_ok s' (pa :: L) → (∀ a, ¬ in_page pa a → ld (k_mem s') a = ld (k_mem s) a) → Q tt s') →
  wp (kfree kend pa) s Q.
Proof.
  intros Hok Hpa Hnin HQ. pose proof Hok as [Hl Hn Hc Hb]. destruct (page_bounds pa Hpa) as [Hp0 Hp1].
  unfold kfree. destruct Hpa as [Hal [Hlo Hhi]].
  rewrite (proj2 (Z.eqb_eq _ _)) by done. rewrite (proj2 (Z.ltb_ge _ _)) by done.
  rewrite Z.geb_leb, (proj2 (Z.leb_gt _ _)) by done. cbn [negb orb]. wp_step. wp_step. wp_step. apply HQ.
  - set (m1 := memset (k_mem s) pa 1 PGN). split; cbn [k_mem k_freelist k_nfree kset_mem].
    + cbn [flist]. split_and!; [done|by split_and!|]. rewrite ld64_st64_eq, u64_small.
      * eapply (flist_ext (k_mem s)); [|done]. intros q a Hq Ha.
        assert (¬ in_page pa a) as Hna.
        { intros Ha'. apply Hnin. replace pa with q; [done|].
          eapply pages_disjoint; [by eapply flist_pages|by split_and!|done|done]. }
        unfold in_page in Hna. rewrite ld_st64_ne by lia. unfold m1.
        rewrite ld_memset, decide_False; [done|]. unfold PGN, PGSIZE. lia.
      * destruct L as [|q L]; cbn in Hl; [lia|]. destruct Hl as (-> & Hq & _).
        destruct (page_bounds q Hq). unfold PHYSTOP, KERNBASE in *. lia.
    + by constructor.
    + cbn [length]. rewrite Hc, u64_small; [lia|].
      pose proof (free_count L (flist_ok _ _ _ Hl) Hn). lia.
    + unfold m1. auto with word.
  - intros a Ha. unfold in_page in Ha. cbn [k_mem kset_mem]. rewrite ld_st64_ne by lia.
    rewrite ld_memset, decide_False; [done|]. unfold PGN, PGSIZE. lia.
Qed.

Lemma kalloc_spec s L (Q : Z → kmem → Prop) :
  kmem_ok s L →
  match L with
  | [] => Q 0 s
  | p :: L' => ∀ s', kmem_ok s' L' → page_ok p → p ∉ L' →
      (∀ a, ld (k_mem s') a = if decide (in_page p a) then 5 else ld (k_mem s) a) → Q p s'
  end →
  wp kalloc s Q.
Proof.
  intros Hok HQ. pose proof Hok as [Hl Hn Hc Hb]. unfold kalloc. wp_step. wp_step. cbv zeta.
  destruct L as [|p L]; cbn [flist] in Hl.
  - rewrite Hl. cbn [negb Z.eqb mwhen]. wp_steps. exact HQ.
  - destruct Hl as (Hp & Hpok & Hl). destruct (page_bounds p Hpok) as [Hp0 Hp1]. rewrite Hp.
    rewrite (proj2 (Z.eqb_neq _ _)) by lia. cbn [negb mwhen]. wp_steps.
    apply NoDup_cons in Hn as [Hnp Hn]. apply HQ; [|done|done|].
    + split; cbn [k_mem k_freelist k_nfree kset_mem].
      * eapply flist_ext; [|done]. intros q a Hq Ha. rewrite ld_memset, decide_False; [done|].
        intros Ha'. apply Hnp. replace p with q; [done|].
        eapply pages_disjoint; [|done|done|].
        -- eapply Forall_forall; [by eapply flist_ok|done].
        -- unfold in_page, PGN, PGSIZE in *. lia.
      * done.
      * rewrite Hc. cbn [length]. pose proof (free_count L (flist_ok _ _ _ Hl) Hn). rewrite u64_small; lia.
      * auto with word.
    + intros a. cbn [k_mem kset_mem]. rewrite ld_memset. unfold in_page, PGN, PGSIZE. by repeat case_decide; try lia.
Qed.

(** The pages between [p] and [e]. *)
Definition page_range (p e : Z) : list Z :=
  (λ i, p + 4096 * i) <$> seqZ 0 ((e - p) / 4096).

Lemma freerange_loop_spec fuel : ∀ s L p e,
  kmem_ok s L → p mod 4096 = 0 → kend ≤ p → e ≤ PHYSTOP → (∀ q, q ∈ L → q < p) →
  (Z.to_nat ((e - p) / 4096) < fuel)%nat →
  wp (freerange_loop kend fuel p e) s (λ _ s', kmem_ok s' (reverse (page_range p e) ++ L)).
Proof.
  induction fuel as [|fuel IH]; intros s L p e Hok Hp Hlo He HL Hf; [lia|].
  cbn [freerange_loop]. change PGSIZE with 4096. destruct (Z.leb_spec (p + 4096) e) as [Hle|Hgt].
  - assert (page_ok p) as Hpok by (split; [done|unfold PHYSTOP, KERNBASE in *; lia]).
    wp_step. eapply kfree_spec; [done|done| |].
    { intros Hin%HL. lia. }
    intros s1 Hok1 _. eapply wp_mono; [apply (IH s1 (p :: L) (p + 4096) e)|]; try done; try lia.
    + zlia.
    + intros q [->|Hq]%elem_of_cons; [lia|]. apply HL in Hq. lia.
    + zlia.
    + intros [] s2 Hok2. replace (reverse (page_range p e) ++ L) with (reverse (page_range (p + 4096) e) ++ p :: L); [done|].
      unfold page_range. assert (1 ≤ (e - p) / 4096) as H1 by zlia.
      replace ((e - p) / 4096) with (Z.succ ((e - (p + 4096)) / 4096)) by zlia.
      rewrite (seqZ_cons 0 (Z.succ _)) by zlia. rewrite Z.pred_succ, fmap_cons, reverse_cons, Z.mul_0_r, Z.add_0_r.
      rewrite <-app_assoc. cbn [app]. f_equal. f_equal.
      change (seqZ (Z.succ 0) ?k) with (seqZ (1 + 0) k). rewrite <-fmap_add_seqZ, <-list_fmap_compose. apply list_fmap_ext. intros _ x _. cbn. lia.
  - wp_step. unfold page_range. replace ((e - p) / 4096) with (Z.min ((e - p) / 4096) 0) by zlia.
    rewrite seqZ_nil by lia. done.
Qed.

Lemma kinit_spec m :
  bytes_mem m → kend < PHYSTOP →
  wp (kinit kend) (KMem m 0 0) (λ _ s, kmem_ok s (reverse (page_range (PGROUNDUP kend) PHYSTOP))).
Proof.
  intros Hm Hlt. unfold kinit. wp_step. wp_step. unfold freerange. change PGSIZE with 4096.
  assert (PGROUNDUP kend = (kend + 4095) / 4096 * 4096) as Hr.
  { apply PGROUNDUP_div; unfold PHYSTOP, KERNBASE in *; lia. }
  eapply wp_mono; [apply (freerange_loop_spec _ _ [])|]; try done.
  - split; try done. apply NoDup_nil_2.
  - rewrite Hr. zlia.
  - rewrite Hr. zlia.
  - intros q Hq. by apply elem_of_nil in Hq.
  - lia.
  - intros [] s. by rewrite app_nil_r.
Qed.
End kalloc_spec.

(** ** The allocator and its clients

    [owned] are the pages handed out. A client may write to a page it owns and
    give it back. *)
Section clients.
Context (kend : Z).

Inductive kstep : kmem * gset Z → kmem * gset Z → Prop :=
| KAlloc s p s' owned :
    kalloc s = Ret p s' → p ≠ 0 → kstep (s, owned) (s', {[p]} ∪ owned)
| KAllocFails s s' owned :
    kalloc s = Ret 0 s' → kstep (s, owned) (s', owned)
| KFree s p s' owned :
    p ∈ owned → kfree kend p s = Ret tt s' → kstep (s, owned) (s', owned ∖ {[p]})
| KWrite s p a l owned :
    p ∈ owned → p ≤ a → a + Z.of_nat (length l) ≤ p + 4096 →
    kstep (s, owned) (kset_mem (st_bytes (k_mem s) a l) s, owned).

Definition all_pages : gset Z := list_to_set (page_range (PGROUNDUP kend) PHYSTOP).

Context (Hend : KERNBASE ≤ kend < PHYSTOP).

(** Every page is either free or owned. *)
Definition kinv (st : kmem * gset Z) : Prop :=
  ∃ L, kmem_ok kend (fst st) L ∧ list_to_set L ∪ snd st = all_pages ∧ (list_to_set L : gset Z) ## snd st.

Lemma range_ok p : p ∈ all_pages → page_ok kend p.
Proof.
  unfold all_pages, page_range. rewrite elem_of_list_to_set, list_elem_of_fmap.
  intros (i & -> & Hi%elem_of_seqZ). rewrite PGROUNDUP_div in * by (unfold PHYSTOP, KERNBASE in *; lia).
  unfold page_ok, PHYSTOP, KERNBASE in *. zlia.
Qed.

Lemma NoDup_page_range p e : NoDup (page_range p e).
Proof. unfold page_range. apply NoDup_fmap_2; [intros x y ?; lia|apply NoDup_seqZ]. Qed.

Lemma kinv_start s0 : kinit kend (KMem ∅ 0 0) = Ret tt s0 → kinv (s0, ∅).
Proof.
  intros Hrun. assert (bytes_mem ∅) as Hb by (intros a; unfold ld; rewrite lookup_empty; cbn; lia).
  pose proof (kinit_spec kend ltac:(lia) ∅ Hb ltac:(lia)) as Hwp. unfold wp in Hwp. rewrite Hrun in Hwp.
  eexists. split; [exact Hwp|]. cbn [snd]. rewrite union_empty_r_L. split; [|set_solver].
  unfold all_pages. apply set_eq. intros p. by rewrite !elem_of_list_to_set, elem_of_reverse.
Qed.

Lemma kinv_step st st' : kstep st st' → kinv st → kinv st'.
Proof.
  intros Hstep (L & Hok & Hall & Hdis). destruct Hstep as [s p s' owned Hrun Hp|s s' owned Hrun|s p s' owned Hp Hrun|s p a l owned Hp Ha Hl];
    cbn [fst snd] in *.
  - assert (wp kalloc s (λ p s', p ≠ 0 → ∃ L', L = p :: L' ∧ kmem_ok kend s' L')) as Hwp.
    { apply (kalloc_spec kend ltac:(lia) s L); [done|]. destruct L as [|q L]; [done|]. intros s2 Hok2 _ _ _ _. by exists L. }
    unfold wp in Hwp. rewrite Hrun in Hwp. destruct (Hwp Hp) as (L' & -> & Hok').
    exists L'. split; [done|]. cbn [list_to_set] in *. pose proof (ko_nodup _ _ _ Hok) as [? _]%NoDup_cons.
    split; [rewrite <-Hall; set_solver|set_solver].
  - assert (wp kalloc s (λ p s', p = 0 → ∃ L', L = L' ∧ kmem_ok kend s' L')) as Hwp.
    { apply (kalloc_spec kend ltac:(lia) s L); [done|]. destruct L as [|q L]; [by exists []|].
      intros s2 Hok2 Hq _ _ ->. destruct (page_bounds kend ltac:(lia) 0 Hq). lia. }
    unfold wp in Hwp. rewrite Hrun in Hwp. destruct (Hwp eq_refl) as (L' & <- & Hok'). by exists L.
  - assert (page_ok kend p) as Hpok by (apply range_ok; rewrite <-Hall; set_solver).
    assert (wp (kfree kend p) s (λ _ s', kmem_ok kend s' (p :: L))) as Hwp.
    { apply (kfree_spec kend ltac:(lia) s L); [done|done|set_solver|]. intros s2 Hok2 _. done. }
    unfold wp in Hwp. rewrite Hrun in Hwp. exists (p :: L). split; [done|]. cbn [list_to_set].
    split; [rewrite <-Hall; apply set_eq; intros x; destruct (decide (x = p)); set_solver|set_solver].
  - assert (page_ok kend p) as Hpok by (apply range_ok; rewrite <-Hall; set_solver).
    exists L. split; [|done]. apply kmem_ok_mem; [done|apply bytes_st_bytes, Hok|].
    intros q b Hq Hb. rewrite ld_st_bytes, decide_False; [done|]. intros Hb'.
    assert (p = q) as ->; [|set_solver].
    eapply (pages_disjoint kend p q b); [done|by eapply flist_pages|unfold in_page; lia|done].
Qed.
End clients.

Lemma kinv_reach kend s0 st :
  KERNBASE ≤ kend < PHYSTOP → kinit kend (KMem ∅ 0 0) = Ret tt s0 →
  rtc (kstep kend) (s0, ∅) st → kinv kend st.
Proof.
  intros Hend Hrun Hst. assert (kinv kend (s0, ∅)) as Hinv by (by apply kinv_start).
  remember (s0, ∅ : gset Z) as st0. clear Heqst0 Hrun. induction Hst as [|st1 st2 st3 Hs _ IH]; [done|].
  by eapply IH, kinv_step.
Qed.

(** C15: after [kinit], whatever the order of allocations, frees of allocated
    pages and writes to them, [kalloc] returns a page of free memory that nobody
    owns, and 0 only if every page is owned; freeing an owned page never
    panics; and [kalloc_free_memory] is the number of bytes in the pages that
    are not owned. *)
Theorem kalloc_exclusive kend s0 s owned :
  KERNBASE ≤ kend < PHYSTOP → kinit kend (KMem ∅ 0 0) = Ret tt s0 →
  rtc (kstep kend) (s0, ∅) (s, owned) →
  (∃ p s', kalloc s = Ret p s' ∧
     ((p = 0 ∧ owned = all_pages kend) ∨ (p ∈ all_pages kend ∧ p ∉ owned))) ∧
  (∀ p, p ∈ owned → ∃ s', kfree kend p s = Ret tt s') ∧
  kalloc_free_memory s = Ret (4096 * (Z.of_nat (size (all_pages kend)) - Z.of_nat (size owned))) s.
Proof.
  intros Hend Hrun (L & Hok & Hall & Hdis)%kinv_reach; [|done|done]. cbn [fst snd] in *. split_and!.
  - apply wp_Ret, (kalloc_spec kend ltac:(lia) s L); [done|]. destruct L as [|p L].
    + left. split; [done|]. set_solver.
    + intros s' _ _ _ _. right. set_solver.
  - intros p Hp. assert (page_ok kend p) as Hpok by (apply range_ok; [done|set_solver]).
    assert (wp (kfree kend p) s (λ _ _, True)) as Hwp.
    { apply (kfree_spec kend ltac:(lia) s L); [done|done|set_solver|done]. }
    apply wp_Ret in Hwp as ([] & s' & ? & _). eauto.
  - unfold kalloc_free_memory, gets. f_equal. rewrite (ko_count _ _ _ Hok), <-Hall, size_union by done.
    rewrite size_list_to_set by (apply Hok). change PGSIZE with 4096.
    pose proof (free_count kend ltac:(lia) L (flist_ok _ _ _ _ (ko_list _ _ _ Hok)) (ko_nodup _ _ _ Hok)).
    rewrite u64_small; lia.
Qed.

(** A machine with two pages of memory after the kernel. *)
Lemma kalloc_exclusive_witness : ∃ s0 p s',
  kinit (PHYSTOP - 8192) (KMem ∅ 0 0) = Ret tt s0 ∧ kalloc s0 = Ret p s' ∧ p ∈ all_pages (PHYSTOP - 8192).
Proof.
  assert (KERNBASE ≤ PHYSTOP - 8192 < PHYSTOP) as He by (by vm_compute).
  assert (bytes_mem ∅) as Hb by (intros a; unfold ld; rewrite lookup_empty; cbn; lia).
  destruct (proj1 (wp_Ret _ _ _) (kinit_spec (PHYSTOP - 8192) (proj1 He) ∅ Hb (proj2 He))) as ([] & s0 & Hrun & _).
  destruct (kalloc_exclusive (PHYSTOP - 8192) s0 s0 ∅ He Hrun (rtc_refl _ _)) as ((p & s' & Ha & Hp) & _).
  exists s0, p, s'. split; [exact Hrun|]. split; [exact Ha|]. destruct Hp as [[_ He0]|[Hp _]]; [|exact Hp].
  exfalso. assert (PHYSTOP - 4096 ∈ all_pages (PHYSTOP - 8192)) as Hin; [|rewrite <-He0 in Hin; set_solver].
  unfold all_pages. apply elem_of_list_to_set. replace (page_range _ _) with [PHYSTOP - 8192; PHYSTOP - 4096] by (by vm_compute).
  right. left.
Defined.
