(* ===== verification/Vm.v ===== *)
(** * Virtual memory: kernel/vm.c

    Page tables live in physical memory: a page-table page is 512 words of
    eight bytes. A null pointer is 0. [kend], [etext] and [trampoline] are the
    addresses kernel.ld and trampoline.S define. Storing through a null pointer
    faults. *)
From Stdlib Require Import ZArith Lia.
From stdpp Require Import prelude gmap strings.
From S2P Require Import Prelude Bytes Param Str Riscv PhysMem Kalloc.

(** [&pagetable[i]] *)
Definition pte_at (pagetable i : Z) : Z := pagetable + 8 * i.

Section vm_code.
Context (kend : Z).
Abbreviation VM := (M kmem).

Definition ldp (a : Z) : VM Z := gets (λ s, ld64 (k_mem s) a).
Definition stp (a v : Z) : VM unit := modify (λ s, kset_mem (st64 (k_mem s) a v) s).

(** [memset(p, 0, PGSIZE)] *)
Definition zero_page (p : Z) : VM unit :=
  if p =? 0 then mfault else modify (λ s, kset_mem (memset (k_mem s) p 0 PGN) s).

(** The loop of [walk] over the levels [level .. 1]; the page table at level 0,
    or 0. *)
Fixpoint walk_loop (level : nat) (pagetable va : Z) (alloc : bool) : VM Z :=
  match level with
  | O => mret pagetable
  | S level' =>
      let pte := pte_at pagetable (PX (Z.of_nat level) va) in
      v ← ldp pte;
      if flag v PTE_V then walk_loop level' (PTE2PA v) va alloc
      else if negb alloc then mret 0 else
        pagetable ← kalloc;
        if pagetable =? 0 then mret 0 else
        zero_page pagetable ;;
        stp pte (Z.lor (PA2PTE pagetable) PTE_V) ;;
        walk_loop level' pagetable va alloc
  end.

Definition walk (pagetable va : Z) (alloc : bool) : VM Z :=
  if va >=? MAXVA then panic "walk" else
  pagetable ← walk_loop 2 pagetable va alloc;
  mret (if pagetable =? 0 then 0 else pte_at pagetable (PX 0 va)).

Definition walkaddr (pagetable va : Z) : VM Z :=
  if va >=? MAXVA then mret 0 else
  pte ← walk pagetable va false;
  if pte =? 0 then mret 0 else
  v ← ldp pte;
  if negb (flag v PTE_V) then mret 0 else
  if negb (flag v PTE_U) then mret 0 else
  mret (PTE2PA v).

Fixpoint mappages_loop (fuel : nat) (pagetable a last pa perm : Z) : VM Z :=
  match fuel with
  | O => λ _, NoFuel
  | S fuel =>
      pte ← walk pagetable a true;
      if pte =? 0 then mret (-1) else
      v ← ldp pte;
      if flag v PTE_V then panic "mappages: remap" else
      stp pte (Z.lor (Z.lor (PA2PTE pa) perm) PTE_V) ;;
      if a =? last then mret 0
      else mappages_loop fuel pagetable (u64 (a + PGSIZE)) last (u64 (pa + PGSIZE)) perm
  end.

Definition mappages (pagetable va size pa perm : Z) : VM Z :=
  if negb (va mod PGSIZE =? 0) then panic "mappages: va not aligned" else
  if negb (size mod PGSIZE =? 0) then panic "mappages: size not aligned" else
  if size =? 0 then panic "mappages: size" else
  mappages_loop (Z.to_nat (size / PGSIZE)) pagetable va (u64 (va + size - PGSIZE)) pa perm.

Definition kvmmap (kpgtbl va pa sz perm : Z) : VM unit :=
  r ← mappages kpgtbl va sz pa perm;
  if negb (r =? 0) then panic "kvmmap" else mret tt.

Fixpoint uvmunmap_loop (fuel : nat) (pagetable a stop : Z) (do_free : bool) : VM unit :=
  match fuel with
  | O => λ _, NoFuel
  | S fuel =>
      if a <? stop then
        pte ← walk pagetable a false;
        if pte =? 0 then panic "uvmunmap: walk" else
        v ← ldp pte;
        if negb (flag v PTE_V) then panic "uvmunmap: not mapped" else
        if PTE_FLAGS v =? PTE_V then panic "uvmunmap: not a leaf" else
        mwhen do_free (kfree kend (PTE2PA v)) ;;
        stp pte 0 ;;
        uvmunmap_loop fuel pagetable (u64 (a + PGSIZE)) stop do_free
      else mret tt
  end.

Definition uvmunmap (pagetable va npages : Z) (do_free : bool) : VM unit :=
  if negb (va mod PGSIZE =? 0) then panic "uvmunmap: not aligned" else
  uvmunmap_loop (S (Z.to_nat npages)) pagetable va (u64 (va + npages * PGSIZE)) do_free.

Definition uvmcreate : VM Z :=
  pagetable ← kalloc;
  if pagetable =? 0 then mret 0 else
  zero_page pagetable ;; mret pagetable.

(** [src]: the [sz] bytes at [src]. *)
Definition uvmfirst (pagetable : Z) (src : list Z) : VM unit :=
  if Z.of_nat (length src) >=? PGSIZE then panic "uvmfirst: more than a page" else
  mem ← kalloc;
  zero_page mem ;;
  mappages pagetable 0 PGSIZE mem (Z.lor (Z.lor (Z.lor PTE_W PTE_R) PTE_X) PTE_U) ;;
  modify (λ s, kset_mem (st_bytes (k_mem s) mem src) s).

Definition uvmdealloc (pagetable oldsz newsz : Z) : VM Z :=
  if newsz >=? oldsz then mret oldsz else
  mwhen (PGROUNDUP newsz <? PGROUNDUP oldsz)
    (let npages := s32 ((PGROUNDUP oldsz - PGROUNDUP newsz) / PGSIZE) in
     uvmunmap pagetable (PGROUNDUP newsz) (u64 npages) true) ;;
  mret newsz.

Fixpoint uvmalloc_loop (fuel : nat) (pagetable a oldsz newsz xperm : Z) : VM Z :=
  match fuel with
  | O => λ _, NoFuel
  | S fuel =>
      if a <? newsz then
        mem ← kalloc;
        if mem =? 0 then uvmdealloc pagetable a oldsz ;; mret 0 else
        zero_page mem ;;
        r ← mappages pagetable a PGSIZE mem (Z.lor (Z.lor PTE_R PTE_U) xperm);
        if negb (r =? 0) then kfree kend mem ;; uvmdealloc pagetable a oldsz ;; mret 0 else
        uvmalloc_loop fuel pagetable (u64 (a + PGSIZE)) oldsz newsz xperm
      else mret newsz
  end.

Definition uvmalloc (pagetable oldsz newsz xperm : Z) : VM Z :=
  if newsz <? oldsz then mret oldsz else
  let oldsz := PGROUNDUP oldsz in
  uvmalloc_loop (S (Z.to_nat ((newsz - oldsz) / PGSIZE + 1))) pagetable oldsz oldsz newsz xperm.

(** The recursion goes down the levels of the page table. *)
Fixpoint freewalk (fuel : nat) (pagetable : Z) : VM unit :=
  match fuel with
  | O => λ _, NoFuel
  | S fuel =>
      mfor (seq 0 512) (λ i,
        let a := pte_at pagetable (Z.of_nat i) in
        pte ← ldp a;
        if flag pte PTE_V && (Z.land pte (Z.lor (Z.lor PTE_R PTE_W) PTE_X) =? 0) then
          freewalk fuel (PTE2PA pte) ;; stp a 0
        else if flag pte PTE_V then panic "freewalk: leaf" else mret tt) ;;
      kfree kend pagetable
  end.

Definition uvmfree (pagetable sz : Z) : VM unit :=
  mwhen (sz >? 0) (uvmunmap pagetable 0 (PGROUNDUP sz / PGSIZE) true) ;;
  freewalk 3 pagetable.

(** Returns 0, or -1 and the [i] at which it failed. *)
Fixpoint uvmcopy_loop (fuel : nat) (old new i sz : Z) : VM (Z * Z) :=
  match fuel with
  | O => λ _, NoFuel
  | S fuel =>
      if i <? sz then
        pte ← walk old i false;
        if pte =? 0 then panic "uvmcopy: pte should exist" else
        v ← ldp pte;
        if negb (flag v PTE_V) then panic "uvmcopy: page not present" else
        let pa := PTE2PA v in
        let flags := u32 (PTE_FLAGS v) in
        mem ← kalloc;
        if mem =? 0 then mret (-1, i) else
        modify (λ s, kset_mem (memmove (k_mem s) mem pa PGN) s) ;;
        r ← mappages new i PGSIZE mem flags;
        if negb (r =? 0) then kfree kend mem ;; mret (-1, i) else
        uvmcopy_loop fuel old new (u64 (i + PGSIZE)) sz
      else mret (0, i)
  end.

Definition uvmcopy (old new sz : Z) : VM Z :=
  '(r, i) ← uvmcopy_loop (S (Z.to_nat (sz / PGSIZE + 1))) old new 0 sz;
  if r =? 0 then mret 0 else
  uvmunmap new 0 (i / PGSIZE) true ;; mret (-1).

Definition uvmclear (pagetable va : Z) : VM unit :=
  pte ← walk pagetable va false;
  if pte =? 0 then panic "uvmclear" else
  v ← ldp pte;
  stp pte (Z.land v (Z.lnot PTE_U)).

(** [src]: the [len] bytes at [src], in a buffer of the kernel. *)
Fixpoint copyout_loop (fuel : nat) (pagetable dstva : Z) (src : list Z) : VM Z :=
  match fuel with
  | O => λ _, NoFuel
  | S fuel =>
      if 0 <? Z.of_nat (length src) then
        let va0 := PGROUNDDOWN dstva in
        if va0 >=? MAXVA then mret (-1) else
        pte ← walk pagetable va0 false;
        if pte =? 0 then mret (-1) else
        v ← ldp pte;
        if negb (flag v PTE_V) || negb (flag v PTE_U) || negb (flag v PTE_W) then mret (-1) else
        let pa0 := PTE2PA v in
        let n := Z.to_nat (Z.min (PGSIZE - (dstva - va0)) (Z.of_nat (length src))) in
        modify (λ s, kset_mem (st_bytes (k_mem s) (pa0 + (dstva - va0)) (take n src)) s) ;;
        copyout_loop fuel pagetable (u64 (va0 + PGSIZE)) (drop n src)
      else mret 0
  end.

Definition copyout (pagetable dstva : Z) (src : list Z) : VM Z :=
  copyout_loop (S (length src)) pagetable dstva src.

(** The bytes that have been stored at [dst], and the value returned. *)
Fixpoint copyin_loop (fuel : nat) (pagetable srcva len : Z) : VM (list Z * Z) :=
  match fuel with
  | O => λ _, NoFuel
  | S fuel =>
      if 0 <? len then
        let va0 := PGROUNDDOWN srcva in
        pa0 ← walkaddr pagetable va0;
        if pa0 =? 0 then mret ([], -1) else
        let n := Z.min (PGSIZE - (srcva - va0)) len in
        bytes ← gets (λ s, ld_bytes (k_mem s) (pa0 + (srcva - va0)) (Z.to_nat n));
        '(more, r) ← copyin_loop fuel pagetable (u64 (va0 + PGSIZE)) (len - n);
        mret (bytes ++ more, r)
      else mret ([], 0)
  end.

Definition copyin (pagetable srcva len : Z) : VM (list Z * Z) :=
  copyin_loop (S (Z.to_nat len)) pagetable srcva len.

(** The inner loop: at most [n] bytes, up to and including a null byte. *)
Fixpoint copystr (p : ptr) (n : nat) : list Z * bool :=
  match n with
  | O => ([], false)
  | S n => if p O =? 0 then ([0], true)
           else let '(l, got_null) := copystr (advance p 1) n in (p O :: l, got_null)
  end.

Fixpoint copyinstr_loop (fuel : nat) (pagetable srcva max : Z) : VM (list Z * Z) :=
  match fuel with
  | O => λ _, NoFuel
  | S fuel =>
      if 0 <? max then
        let va0 := PGROUNDDOWN srcva in
        pa0 ← walkaddr pagetable va0;
        if pa0 =? 0 then mret ([], -1) else
        let n := Z.min (PGSIZE - (srcva - va0)) max in
        copied ← gets (λ s, copystr (mem_ptr (k_mem s) (pa0 + (srcva - va0))) (Z.to_nat n));
        let '(bytes, got_null) := (copied : list Z * bool) in
        if got_null then mret (bytes, 0) else
        '(more, r) ← copyinstr_loop fuel pagetable (u64 (va0 + PGSIZE)) (max - n);
        mret (bytes ++ more, r)
      else mret ([], -1)
  end.

Definition copyinstr (pagetable srcva max : Z) : VM (list Z * Z) :=
  copyinstr_loop (S (Z.to_nat max)) pagetable srcva max.
End vm_code.
