(* ===== verification/VmSpec.v ===== *)
(** * Page tables: what kernel/vm.c keeps true

    [T] gives the page-table pages of an address space by their path from the
    root: [[]] is the root, [[i]] the page its entry [i] points to, [[i; j]] the
    page entry [j] of that one points to. [D] is the address space itself: the
    valid leaf entries by virtual page number. *)
From Stdlib Require Import ZArith Lia.
From stdpp Require Import prelude gmap strings.
From S2P Require Import Prelude Bytes Param Str Riscv PhysMem Kalloc Vm.

(** The path to the table that holds the leaf entry of a virtual page. *)
Definition ix (level : nat) (vpn : Z) : Z := vpn / 512 ^ Z.of_nat level mod 512.
Definition path (level : nat) (vpn : Z) : list Z :=
  match level with
  | O => [ix 2 vpn; ix 1 vpn]
  | S O => [ix 2 vpn]
  | _ => []
  end.

Definition NVPN : Z := 134217728.

Definition pte_of (m : mem) (T : gmap (list Z) Z) (vpn : Z) : Z :=
  match T !! path 0 vpn with Some p => ld64 m (pte_at p (ix 0 vpn)) | None => 0 end.

Definition tpages (T : gmap (list Z) Z) : gset Z := map_img T.

Section spec.
Context (kend : Z) (Hend : KERNBASE ≤ kend).
Implicit Types (s : kmem) (L : list Z) (m : mem) (T : gmap (list Z) Z) (D : gmap Z Z).

Record ptab (m : mem) (T : gmap (list Z) Z) (root : Z) : Prop := {
  pt_root : T !! [] = Some root;
  pt_path l p : T !! l = Some p → (length l ≤ 2)%nat ∧ Forall (λ i, 0 ≤ i < 512) l;
  pt_page l p : T !! l = Some p → page_ok kend p;
  pt_inj l l' p : T !! l = Some p → T !! l' = Some p → l = l';
  pt_parent l i p : T !! (l ++ [i]) = Some p → is_Some (T !! l);
  pt_entry l p i : T !! l = Some p → (length l < 2)%nat → 0 ≤ i < 512 →
    match T !! (l ++ [i]) with
    | Some q => ld64 m (pte_at p i) = Z.lor (PA2PTE q) PTE_V
    | None => flag (ld64 m (pte_at p i)) PTE_V = false
    end
}.

(** The state holds the address space [D] of page table [root], its table pages
    are [T], and [L] are the free pages. *)
Record aspace (s : kmem) (L : list Z) (T : gmap (list Z) Z) (D : gmap Z Z) (root : Z) : Prop := {
  as_k : kmem_ok kend s L;
  as_tab : ptab (k_mem s) T root;
  as_free l p : T !! l = Some p → p ∉ L;
  as_pte vpn : 0 ≤ vpn < NVPN → pte_of (k_mem s) T vpn = default 0 (D !! vpn);
  as_dom vpn v : D !! vpn = Some v → 0 ≤ vpn < NVPN ∧ flag v PTE_V = true
}.

Lemma PX_ix level vpn : PX (Z.of_nat level) (4096 * vpn) = ix level vpn.
Proof.
  rewrite PX_div by lia. unfold ix. f_equal. rewrite <-Z.div_div by lia.
  by rewrite (Z.mul_comm 4096), Z.div_mul.
Qed.

Lemma ix_range level vpn : 0 ≤ ix level vpn < 512.
Proof. by apply Z.mod_pos_bound. Qed.

Lemma path_S level vpn :
  (level < 2)%nat → path level vpn = path (S level) vpn ++ [ix (S level) vpn].
Proof. destruct level as [|[|[]]]; (done || lia). Qed.

Lemma length_path level vpn : length (path level vpn) = (2 - level)%nat.
Proof. by destruct level as [|[|[]]]. Qed.

Lemma path_inj vpn vpn' :
  0 ≤ vpn < NVPN → 0 ≤ vpn' < NVPN → path 0 vpn = path 0 vpn' → ix 0 vpn = ix 0 vpn' → vpn = vpn'.
Proof.
  unfold NVPN, path, ix. intros Hv Hv' [= H2 H1] H0. revert H2 H1 H0.
  change (512 ^ Z.of_nat 2) with 262144. change (512 ^ Z.of_nat 1) with 512. change (512 ^ Z.of_nat 0) with 1. zlia.
Qed.

(** Entries of different tables, or at different indices, do not overlap. *)
Lemma pte_page p i a : 0 ≤ i < 512 → pte_at p i ≤ a < pte_at p i + 8 → in_page p a.
Proof. unfold pte_at, in_page. lia. Qed.

Lemma table_ne m T root l l' p q :
  ptab m T root → T !! l = Some p → T !! l' = Some q → l ≠ l' → p ≠ q.
Proof. intros Ht Hl Hl' Hne ->. by apply Hne, (pt_inj _ _ _ Ht l l' q). Qed.

Lemma ld64_page m m' p i :
  0 ≤ i < 512 → (∀ a, in_page p a → ld m' a = ld m a) → ld64 m' (pte_at p i) = ld64 m (pte_at p i).
Proof. intros Hi Hm. apply ld64_ext. intros b Hb. by apply Hm, (pte_page p i). Qed.

(** A table pointer and a zero entry, read back. *)
Lemma page_u64 p : page_ok kend p → 0 ≤ p < 18446744073709551616.
Proof. intros Hp. destruct (page_bounds kend Hend p Hp). unfold PHYSTOP, KERNBASE in *. lia. Qed.

Lemma flag_V_lor x : flag (Z.lor x PTE_V) PTE_V = true.
Proof. unfold PTE_V. rewrite flag_testbit, Z.lor_spec by lia. apply orb_true_r. Qed.

Lemma table_entry p : page_ok kend p → PTE2PA (Z.lor (PA2PTE p) PTE_V) = p.
Proof. intros Hp. apply PTE2PA_join; [apply Hp|by apply page_u64|done]. Qed.

Lemma entry_u64 pa fl : 0 ≤ pa < 18446744073709551616 → 0 ≤ fl < 1024 → u64 (Z.lor (PA2PTE pa) fl) = Z.lor (PA2PTE pa) fl.
Proof. intros Hpa Hfl. apply u64_small. rewrite PA2PTE_div, lor_low by done. zlia. Qed.
(** ** Changing a table *)

(** Only pages of [P] are written. *)
Definition outside (P : gset Z) (m m' : mem) : Prop :=
  ∀ a, (∀ p, p ∈ P → ¬ in_page p a) → ld m' a = ld m a.

Lemma tpages_elem T p : p ∈ tpages T ↔ ∃ l, T !! l = Some p.
Proof. unfold tpages. apply elem_of_map_img. Qed.

Lemma table_page_ne m T root l p q a :
  ptab m T root → T !! l = Some p → page_ok kend q → p ≠ q → in_page q a → in_page p a → False.
Proof.
  intros Ht Hl Hq Hne Ha Hp. apply Hne. eapply (pages_disjoint kend); [eapply (pt_page _ _ _ Ht), Hl|done..].
Qed.

(** A new zeroed table [p], entered at index [i] of table [pt]. *)
Lemma add_table s s' L T D root l i pt p :
  aspace s (p :: L) T D root → kmem_ok kend s' L → page_ok kend p →
  T !! l = Some pt → (length l < 2)%nat → 0 ≤ i < 512 → T !! (l ++ [i]) = None →
  (∀ a, ¬ in_page p a → ¬ (pte_at pt i ≤ a < pte_at pt i + 8) → ld (k_mem s') a = ld (k_mem s) a) →
  (∀ j, 0 ≤ j < 512 → ld64 (k_mem s') (pte_at p j) = 0) →
  ld64 (k_mem s') (pte_at pt i) = Z.lor (PA2PTE p) PTE_V →
  aspace s' L (<[l ++ [i] := p]> T) D root.
Proof.
  intros Has Hk' Hp Hl Hlen Hi Hnone Hframe Hzero Hnew. pose proof (as_tab _ _ _ _ _ Has) as Ht.
  assert (∀ l' q, T !! l' = Some q → q ≠ p) as Hfresh.
  { intros l' q Hq ->. by apply (as_free _ _ _ _ _ Has l' p); [|left]. }
  assert (∀ l' q j, T !! l' = Some q → 0 ≤ j < 512 → (l', j) ≠ (l, i) →
            ld64 (k_mem s') (pte_at q j) = ld64 (k_mem s) (pte_at q j)) as Hold.
  { intros l' q j Hq Hj Hne. apply ld64_ext. intros b Hb.
    assert (in_page q b) as Hqb by (by apply (pte_page q j)). apply Hframe.
    - intros Hpb. eapply (table_page_ne _ T root l' q p b); eauto.
    - intros Hb'. destruct (decide (l' = l)) as [->|Hll].
      + simplify_eq. apply Hne. f_equal. unfold pte_at in *. lia.
      + eapply (table_page_ne _ T root l' q pt b); [done|done|by eapply pt_page|by eapply table_ne| |done].
        by apply (pte_page pt i). }
  split.
  - done.
  - split.
    + rewrite lookup_insert_ne by (by destruct l). apply Ht.
    + intros l' q [[<- <-]|[? Hq]]%lookup_insert_Some; [|by eapply pt_path].
      destruct (pt_path _ _ _ Ht l pt Hl) as [_ Hf]. rewrite length_app. cbn [length]. split; [lia|].
      apply Forall_app; split; [done|]. by constructor.
    + intros l' q [[<- <-]|[? Hq]]%lookup_insert_Some; [done|]. by eapply pt_page.
    + intros l1 l2 q [[<- <-]|[? Hq]]%lookup_insert_Some [[<- ?]|[? Hq']]%lookup_insert_Some; [done| | |].
      * by apply Hfresh in Hq'.
      * subst. by apply Hfresh in Hq.
      * by eapply pt_inj.
    + intros l' j q [[[-> ->]%app_inj_tail <-]|[? Hq]]%lookup_insert_Some; apply lookup_insert_is_Some'; [by eauto|].
      right. by eapply pt_parent.
    + intros l' q j [[<- <-]|[Hne Hq]]%lookup_insert_Some Hlen' Hj.
      * rewrite lookup_insert_ne by (intros Heq; apply (f_equal length) in Heq; rewrite !length_app in Heq; cbn in Heq; lia).
        destruct (T !! ((l ++ [i]) ++ [j])) eqn:E.
        { apply (pt_parent _ _ _ Ht) in E. rewrite Hnone in E. by destruct E. }
        by rewrite Hzero, flag_0.
      * destruct (decide ((l', j) = (l, i))) as [[= -> ->]|Hlj].
        { simplify_eq. by rewrite lookup_insert_eq. }
        rewrite lookup_insert_ne by (intros [-> ->]%app_inj_tail; done).
        pose proof (pt_entry _ _ _ Ht l' q j Hq Hlen' Hj) as He. by rewrite (Hold l' q j).
  - intros l' q [[<- <-]|[? Hq]]%lookup_insert_Some.
    + pose proof (ko_nodup _ _ _ (as_k _ _ _ _ _ Has)) as [? _]%NoDup_cons. done.
    + intros Hin. apply (as_free _ _ _ _ _ Has l' q Hq). by right.
  - intros vpn Hv. rewrite <-(as_pte _ _ _ _ _ Has vpn Hv). unfold pte_of.
    destruct (decide (l ++ [i] = path 0 vpn)) as [Heq|Hne].
    + rewrite <-Heq, lookup_insert_eq, Hnone. apply Hzero, ix_range.
    + rewrite lookup_insert_ne by done. destruct (T !! path 0 vpn) as [q|] eqn:Hq; [|done].
      apply (Hold _ _ _ Hq); [apply ix_range|]. intros [= Hl' _]. apply (f_equal length) in Hl'. cbn in Hl'. lia.
  - apply Has.
Qed.

(** Writing the leaf entry of a virtual page. *)
Lemma set_leaf s s' L T D root vpn p v D' :
  aspace s L T D root → kmem_ok kend s' L → 0 ≤ vpn < NVPN → T !! path 0 vpn = Some p →
  (∀ a, ¬ (pte_at p (ix 0 vpn) ≤ a < pte_at p (ix 0 vpn) + 8) → ld (k_mem s') a = ld (k_mem s) a) →
  ld64 (k_mem s') (pte_at p (ix 0 vpn)) = v → v = default 0 (D' !! vpn) →
  (∀ vpn', vpn' ≠ vpn → D' !! vpn' = D !! vpn') → (D' !! vpn = Some v → flag v PTE_V = true) →
  aspace s' L T D' root.
Proof.
  intros Has Hk' Hv Hp Hframe Hnew HD' HDne Hval. pose proof (as_tab _ _ _ _ _ Has) as Ht.
  pose proof (ix_range 0 vpn) as Hi.
  assert (∀ l q j, T !! l = Some q → 0 ≤ j < 512 → (l, j) ≠ (path 0 vpn, ix 0 vpn) →
            ld64 (k_mem s') (pte_at q j) = ld64 (k_mem s) (pte_at q j)) as Hold.
  { intros l q j Hq Hj Hne. apply ld64_ext. intros b Hb. apply Hframe. intros Hb'.
    destruct (decide (l = path 0 vpn)) as [->|Hll].
    - simplify_eq. apply Hne. f_equal. unfold pte_at in *. lia.
    - eapply (table_page_ne _ T root l q p b); [done|done|by eapply pt_page|by eapply table_ne|by apply (pte_page p (ix 0 vpn))|by apply (pte_page q j)]. }
  split.
  - done.
  - split; try apply Ht. intros l q j Hq Hlen Hj. pose proof (pt_entry _ _ _ Ht l q j Hq Hlen Hj) as He.
    rewrite (Hold l q j Hq Hj); [done|]. intros [= -> _]. cbn in Hlen. lia.
  - apply Has.
  - intros vpn' Hv'. destruct (decide (vpn' = vpn)) as [->|Hne].
    + rewrite <-HD', <-Hnew. unfold pte_of. by rewrite Hp.
    + rewrite HDne, <-(as_pte _ _ _ _ _ Has vpn' Hv') by done. unfold pte_of.
      destruct (T !! path 0 vpn') as [q|] eqn:Hq; [|done]. apply (Hold _ _ _ Hq (ix_range _ _)).
      intros [= H2 H1 H0]. apply Hne, path_inj; [done|done|unfold path; congruence|done].
  - intros vpn' v' Hv'. destruct (decide (vpn' = vpn)) as [->|Hne].
    + rewrite Hv' in HD'. cbn in HD'. subst v'. split; [done|by apply Hval].
    + rewrite HDne in Hv' by done. by eapply as_dom.
Qed.

(** Nothing an address space consists of is written. *)
Lemma aspace_frame s s' L L' T D root :
  aspace s L T D root → kmem_ok kend s' L' → (∀ l p, T !! l = Some p → p ∉ L') →
  (∀ l p a, T !! l = Some p → in_page p a → ld (k_mem s') a = ld (k_mem s) a) →
  aspace s' L' T D root.
Proof.
  intros Has Hk' HL Hm. pose proof (as_tab _ _ _ _ _ Has) as Ht. split.
  - done.
  - split; try apply Ht. intros l p i Hp Hlen Hi. pose proof (pt_entry _ _ _ Ht l p i Hp Hlen Hi) as He.
    rewrite (ld64_page (k_mem s) (k_mem s') p i Hi); [done|]. intros a. by eapply Hm.
  - done.
  - intros vpn Hv. rewrite <-(as_pte _ _ _ _ _ Has vpn Hv). unfold pte_of.
    destruct (T !! path 0 vpn) as [p|] eqn:Hp; [|done]. apply ld64_page; [apply ix_range|]. intros a. by eapply Hm.
  - apply Has.
Qed.
End spec.
