(* ===== verification/VmMap.v ===== *)
(** * Walking a page table, mapping and unmapping pages

    [walk] as the lookup and the edit of one entry; [mappages] and [uvmunmap] of
    kernel/vm.c as updates of the address space. *)
From Stdlib Require Import ZArith Lia.
From stdpp Require Import prelude gmap strings.
From S2P Require Import Prelude Bytes Param Str Riscv PhysMem Kalloc Vm VmSpec.

(** ** Walking and editing a page table

    Specifications of [walk] over the address space [D] that the tables in
    memory represent, and what writing a leaf entry does to it. *)

(** The address space is extended with tables taken from the free list. *)
Record grow (s : kmem) (L : list Z) (T : gmap (list Z) Z) (s' : kmem) (L' : list Z)
    (T' : gmap (list Z) Z) : Prop := {
  gr_sub : T ⊆ T';
  gr_pages : ∃ new, L = new ++ L' ∧ tpages T' = tpages T ∪ list_to_set new;
  gr_out : outside (tpages T') (k_mem s) (k_mem s')
}.

Lemma grow_refl s L T : grow s L T s L T.
Proof. split; [done| |done]. exists []. split; [done|]. set_solver. Qed.

Lemma outside_mono (P P' : gset Z) m m' : P ⊆ P' → outside P m m' → outside P' m m'.
Proof. intros HP Hm a Ha. apply Hm. intros p Hp. by apply Ha, HP. Qed.

Lemma outside_trans P m1 m2 m3 : outside P m1 m2 → outside P m2 m3 → outside P m1 m3.
Proof. intros H12 H23 a Ha. by rewrite H23, H12. Qed.

Lemma grow_trans s L T s1 L1 T1 s2 L2 T2 :
  grow s L T s1 L1 T1 → grow s1 L1 T1 s2 L2 T2 → grow s L T s2 L2 T2.
Proof.
  intros [H1 (n1 & -> & Hp1) Ho1] [H2 (n2 & -> & Hp2) Ho2]. split; [by etrans| |].
  - exists (n1 ++ n2). split; [by rewrite app_assoc|]. rewrite Hp2, Hp1, list_to_set_app_L. set_solver.
  - eapply outside_trans; [|done]. eapply outside_mono; [|done]. rewrite Hp2. set_solver.
Qed.

#[local] Opaque memset st64.

Section walk.
Context (kend : Z) (Hend : KERNBASE ≤ kend).
Implicit Types (s : kmem) (L : list Z) (m : mem) (T : gmap (list Z) Z) (D : gmap Z Z).
Abbreviation aspace := (aspace kend).

(** A valid entry of a table above level 0 leads to the next one. *)
Lemma table_step s L T D root level vpn pt :
  aspace s L T D root → (level < 2)%nat → T !! path (S level) vpn = Some pt →
  match T !! path level vpn with
  | Some q => ld64 (k_mem s) (pte_at pt (ix (S level) vpn)) = Z.lor (PA2PTE q) PTE_V
  | None => flag (ld64 (k_mem s) (pte_at pt (ix (S level) vpn))) PTE_V = false
  end.
Proof.
  intros Has Hl Hpt. rewrite (path_S level) by done.
  apply (pt_entry _ _ _ _ (as_tab _ _ _ _ _ _ Has)); [done| |apply ix_range]. rewrite length_path. lia.
Qed.

Lemma no_table s L T D root level vpn :
  aspace s L T D root → (level ≤ 2)%nat → T !! path level vpn = None → T !! path 0 vpn = None.
Proof.
  intros Has. induction level as [|level IH]; [done|]. intros Hl Hn. apply IH; [lia|].
  destruct (T !! path level vpn) as [q|] eqn:Hq; [|done]. rewrite (path_S level) in Hq by lia.
  apply (pt_parent _ _ _ _ (as_tab _ _ _ _ _ _ Has)) in Hq as [? ?]. congruence.
Qed.

(** Where every table exists, nothing is allocated. *)
Lemma walk_loop_present s L T D root alloc level vpn p : ∀ pt,
  aspace s L T D root → (level ≤ 2)%nat → T !! path level vpn = Some pt → T !! path 0 vpn = Some p →
  walk_loop level pt (4096 * vpn) alloc s = Ret p s.
Proof.
  induction level as [|level IH]; intros pt Has Hl Hpt Hp; [cbn [walk_loop]; unfold mret, M_ret; congruence|].
  cbn [walk_loop]. rewrite PX_ix. unfold ldp, gets, mbind, M_bind.
  pose proof (table_step _ _ _ _ _ level vpn pt Has ltac:(lia) Hpt) as He.
  destruct (T !! path level vpn) as [q|] eqn:Hq.
  - rewrite He, flag_V_lor, (table_entry kend Hend) by (by eapply (pt_page _ _ _ _ (as_tab _ _ _ _ _ _ Has))).
    apply IH; [done|lia|done|done].
  - rewrite (no_table s L T D root level vpn Has ltac:(lia) Hq) in Hp. done.
Qed.

Lemma walk_loop_noalloc s L T D root level vpn : ∀ pt,
  aspace s L T D root → (level ≤ 2)%nat → T !! path level vpn = Some pt →
  walk_loop level pt (4096 * vpn) false s = Ret (default 0 (T !! path 0 vpn)) s.
Proof.
  induction level as [|level IH]; intros pt Has Hl Hpt; [by rewrite Hpt|].
  cbn [walk_loop]. rewrite PX_ix. unfold ldp, gets, mbind, M_bind.
  pose proof (table_step _ _ _ _ _ level vpn pt Has ltac:(lia) Hpt) as He.
  destruct (T !! path level vpn) as [q|] eqn:Hq.
  - rewrite He, flag_V_lor, (table_entry kend Hend) by (by eapply (pt_page _ _ _ _ (as_tab _ _ _ _ _ _ Has))).
    apply IH; [done|lia|done].
  - rewrite He. by rewrite (no_table s L T D root level vpn Has ltac:(lia) Hq).
Qed.

Lemma walk_maxva {A} vpn (a b : A) : 0 ≤ vpn < NVPN / 2 → (if 4096 * vpn >=? MAXVA then a else b) = b.
Proof. intros Hv. change (NVPN / 2) with 67108864 in Hv. change MAXVA with 274877906944. destruct (Z.geb_spec (4096 * vpn) 274877906944); [lia|done]. Qed.

Lemma pte_nonzero T s L D root l p i : aspace s L T D root → T !! l = Some p → 0 ≤ i → p ≠ 0 ∧ pte_at p i ≠ 0.
Proof.
  intros Has Hp Hi. destruct (page_bounds kend Hend p); [by eapply (pt_page _ _ _ _ (as_tab _ _ _ _ _ _ Has))|].
  unfold pte_at. lia.
Qed.

Definition leaf_addr T vpn : Z :=
  match T !! path 0 vpn with Some p => pte_at p (ix 0 vpn) | None => 0 end.

Lemma walk_noalloc s L T D root vpn :
  aspace s L T D root → 0 ≤ vpn < NVPN / 2 →
  walk root (4096 * vpn) false s = Ret (leaf_addr T vpn) s.
Proof.
  intros Has Hv. unfold walk. rewrite walk_maxva by done. unfold mbind, M_bind.
  rewrite (walk_loop_noalloc s L T D root 2 vpn root) by (done || apply (as_tab _ _ _ _ _ _ Has)).
  unfold leaf_addr. destruct (T !! path 0 vpn) as [p|] eqn:Hp; cbn [default]; [|done].
  destruct (pte_nonzero T s L D root _ p 0 Has Hp ltac:(lia)) as [Hp0 _].
  rewrite (proj2 (Z.eqb_neq _ _)) by done. by rewrite (PX_ix 0).
Qed.

Lemma walk_present s L T D root alloc vpn p :
  aspace s L T D root → 0 ≤ vpn < NVPN / 2 → T !! path 0 vpn = Some p →
  walk root (4096 * vpn) alloc s = Ret (pte_at p (ix 0 vpn)) s.
Proof.
  intros Has Hv Hp. unfold walk. rewrite walk_maxva by done. unfold mbind, M_bind.
  rewrite (walk_loop_present s L T D root alloc 2 vpn p root) by (done || apply (as_tab _ _ _ _ _ _ Has)).
  destruct (pte_nonzero T s L D root _ p 0 Has Hp ltac:(lia)) as [Hp0 _].
  rewrite (proj2 (Z.eqb_neq _ _)) by done. by rewrite (PX_ix 0).
Qed.

Lemma walk_alloc_step s L T D root level vpn pt p s1 :
  aspace s (p :: L) T D root → (level < 2)%nat → T !! path (S level) vpn = Some pt → T !! path level vpn = None →
  kmem_ok kend s1 L → page_ok kend p → p ∉ L →
  (∀ a, ld (k_mem s1) a = if decide (in_page p a) then 5 else ld (k_mem s) a) →
  let pte := pte_at pt (ix (S level) vpn) in
  let m := st64 (memset (k_mem s1) p 0 PGN) pte (Z.lor (PA2PTE p) PTE_V) in
  let T' := <[path level vpn := p]> T in
  aspace (kset_mem m s1) L T' D root ∧ grow s (p :: L) T (kset_mem m s1) L T'.
Proof.
  intros Has Hl Hpt Hn Hk1 Hp HpL Hm1 pte m T'. pose proof (as_tab _ _ _ _ _ _ Has) as Ht.
  pose proof (ix_range (S level) vpn) as Hi.
  assert (pt ≠ p) as Hne. { intros ->. by apply (as_free _ _ _ _ _ _ Has _ p Hpt); left. }
  assert (page_ok kend pt) as Hptok by (by eapply pt_page).
  assert (∀ a, in_page p a → pte ≤ a < pte + 8 → False) as Hsep.
  { intros a Ha Ha'. apply Hne. apply (pages_disjoint kend pt p a); try done. by apply (pte_page pt (ix (S level) vpn)). }
  assert (∀ a, ¬ in_page p a → ¬ (pte ≤ a < pte + 8) → ld m a = ld (k_mem s) a) as Hframe.
  { intros a Ha Ha'. unfold m. rewrite ld_st64_ne by lia. rewrite ld_memset, decide_False.
    - rewrite Hm1, decide_False; [done|]. exact Ha.
    - unfold in_page, PGN, PGSIZE in *. lia. }
  split.
  - unfold T'. rewrite (path_S level) by done.
    apply (add_table kend s _ L T D root (path (S level) vpn) (ix (S level) vpn) pt p).
    + exact Has.
    + apply kmem_ok_mem; [exact Hk1|unfold m; apply bytes_st64, bytes_memset, Hk1|].
      intros q a Hq Ha. assert (q ≠ p) as Hqp by (by intros ->).
      assert (¬ in_page p a) as Hna. { intros Ha'. apply Hqp, (pages_disjoint kend q p a); try done. by eapply flist_pages. }
      rewrite Hm1, decide_False by done. apply Hframe; [done|]. intros Ha'. apply (as_free _ _ _ _ _ _ Has _ pt Hpt). right.
      replace pt with q; [done|]. apply (pages_disjoint kend q pt a); try done; [by eapply flist_pages|]. by apply (pte_page pt (ix (S level) vpn)).
    + exact Hp.
    + exact Hpt.
    + rewrite length_path. lia.
    + exact Hi.
    + by rewrite <-path_S by done.
    + exact Hframe.
    + intros j Hj. cbn [k_mem kset_mem]. unfold m. rewrite ld64_st64_ne.
      * apply ld64_memset_0; unfold pte_at, PGN, PGSIZE; lia.
      * assert (¬ (pte ≤ pte_at p j < pte + 8) ∧ ¬ (pte ≤ pte_at p j + 7 < pte + 8)) as [? ?].
        { split; intros Hx; eapply Hsep, Hx; unfold in_page, pte_at; lia. }
        lia.
    + cbn [k_mem kset_mem]. unfold m. rewrite ld64_st64_eq. apply (entry_u64 p 1); [by apply (page_u64 kend)|done].
  - assert (tpages T' = tpages T ∪ list_to_set [p]) as HT'.
    { apply set_eq. intros q. rewrite elem_of_union, !tpages_elem. cbn [list_to_set]. rewrite union_empty_r_L, elem_of_singleton.
      unfold T'. split.
      - intros (l & [[_ <-]|[_ Hq]]%lookup_insert_Some); [by right|left; eauto].
      - intros [[l Hq]| ->].
        + exists l. rewrite lookup_insert_ne; [done|]. intros <-. congruence.
        + exists (path level vpn). by rewrite lookup_insert_eq. }
    split.
    + by apply insert_subseteq.
    + exists [p]. by split.
    + intros a Ha. cbn [k_mem kset_mem]. apply Hframe.
      * apply Ha. rewrite HT'. set_solver.
      * intros Ha'. eapply (Ha pt); [|by apply (pte_page pt (ix (S level) vpn))].
        rewrite HT', elem_of_union, tpages_elem. left. eauto.
Qed.

Lemma walk_loop_alloc vpn level : ∀ s L T D root pt (Q : Z → kmem → Prop),
  aspace s L T D root → (level ≤ 2)%nat → T !! path level vpn = Some pt →
  (∀ r s' L' T', aspace s' L' T' D root → grow s L T s' L' T' →
     (r = 0 ∧ L' = [] ∧ (length L < level)%nat) ∨
     (T' !! path 0 vpn = Some r ∧ (length L ≤ length L' + level)%nat) → Q r s') →
  wp (walk_loop level pt (4096 * vpn) true) s Q.
Proof.
  induction level as [|level IH]; intros s L T D root pt Q Has Hl Hpt HQ.
  { cbn [walk_loop]. wp_step. apply (HQ pt s L T); [done|apply grow_refl|right; split; [done|lia]]. }
  cbn [walk_loop]. rewrite PX_ix. unfold ldp. wp_step. wp_step.
  pose proof (table_step _ _ _ _ _ level vpn pt Has ltac:(lia) Hpt) as He.
  destruct (T !! path level vpn) as [q|] eqn:Hq.
  { rewrite He, flag_V_lor, (table_entry kend Hend) by (by eapply (pt_page _ _ _ _ (as_tab _ _ _ _ _ _ Has))).
    eapply IH; [done|lia|done|]. intros r s' L' T' Has' Hg' Hr. eapply HQ; [done|done|].
    destruct Hr as [(? & ? & ?)|[? ?]]; [left|right]; split_and!; (done || lia). }
  rewrite He. cbn [negb]. wp_step. apply (kalloc_spec kend Hend s L); [apply Has|]. destruct L as [|p L].
  { cbn [Z.eqb]. wp_step. apply (HQ 0 s [] T); [done|apply grow_refl|left; split_and!; [done|done|cbn; lia]]. }
  intros s1 Hk1 Hp HpL Hm1. destruct (page_bounds kend Hend p Hp) as [Hp0 _].
  rewrite (proj2 (Z.eqb_neq _ _)) by lia. unfold zero_page. rewrite (proj2 (Z.eqb_neq _ _)) by lia.
  unfold stp. wp_step. wp_step. wp_step. wp_step.
  destruct (walk_alloc_step s L T D root level vpn pt p s1 Has ltac:(lia) Hpt Hq Hk1 Hp HpL Hm1) as [Has1 Hg1].
  eapply (IH _ L _ D root p); [exact Has1|lia|by rewrite lookup_insert_eq|].
  intros r s' L' T' Has' Hg' Hr. apply (HQ r s' L' T'); [exact Has'|exact (grow_trans _ _ _ _ _ _ _ _ _ Hg1 Hg')|].
  cbn [length]. destruct Hr as [(? & ? & ?)|[? ?]]; [left|right]; split_and!; (done || lia).
Qed.

Lemma walk_alloc s L T D root vpn (Q : Z → kmem → Prop) :
  aspace s L T D root → 0 ≤ vpn < NVPN / 2 →
  (∀ r s' L' T', aspace s' L' T' D root → grow s L T s' L' T' →
     (r = 0 ∧ L' = [] ∧ (length L < 2)%nat) ∨
     (r ≠ 0 ∧ (length L ≤ length L' + 2)%nat ∧ ∃ p, T' !! path 0 vpn = Some p ∧ r = pte_at p (ix 0 vpn)) → Q r s') →
  wp (walk root (4096 * vpn) true) s Q.
Proof.
  intros Has Hv HQ. unfold walk. rewrite walk_maxva by done. wp_step.
  eapply (walk_loop_alloc vpn 2 s L T D root); [done|lia|apply (as_tab _ _ _ _ _ _ Has)|].
  intros r s' L' T' Has' Hg [(-> & -> & Hl)|[Hr Hl]]; wp_step.
  - apply (HQ 0 s' [] T'); [done|done|by left].
  - destruct (pte_nonzero T' s' L' D root _ r (ix 0 vpn) Has' Hr ltac:(apply ix_range)) as [Hr0 Hr1].
    rewrite (proj2 (Z.eqb_neq _ _)) by done. rewrite (PX_ix 0).
    apply (HQ _ s' L' T'); [done|done|right; split_and!; [done|done|by exists r]].
Qed.

Lemma ld_leaf s L T D root vpn p :
  aspace s L T D root → 0 ≤ vpn < NVPN → T !! path 0 vpn = Some p →
  ld64 (k_mem s) (pte_at p (ix 0 vpn)) = default 0 (D !! vpn).
Proof. intros Has Hv Hp. rewrite <-(as_pte _ _ _ _ _ _ Has vpn Hv). unfold pte_of. by rewrite Hp. Qed.

(** A valid entry has a table. *)
Lemma leaf_table s L T D root vpn v :
  aspace s L T D root → D !! vpn = Some v → ∃ p, T !! path 0 vpn = Some p.
Proof.
  intros Has Hv. destruct (as_dom _ _ _ _ _ _ Has vpn v Hv) as [Hr Hf].
  pose proof (as_pte _ _ _ _ _ _ Has vpn Hr) as He. rewrite Hv in He. cbn in He. unfold pte_of in He.
  destruct (T !! path 0 vpn); [by eexists|]. subst v. by rewrite flag_0 in Hf.
Qed.

(** Writing a leaf entry touches its table only. *)
Lemma write_leaf s L T D root vpn p v D' :
  aspace s L T D root → 0 ≤ vpn < NVPN → T !! path 0 vpn = Some p → 0 ≤ v < 18446744073709551616 →
  v = default 0 (D' !! vpn) → (∀ vpn', vpn' ≠ vpn → D' !! vpn' = D !! vpn') →
  (D' !! vpn = Some v → flag v PTE_V = true) →
  let s' := kset_mem (st64 (k_mem s) (pte_at p (ix 0 vpn)) v) s in
  aspace s' L T D' root ∧ grow s L T s' L T.
Proof.
  intros Has Hv Hp Hr HD HDne Hf s'. pose proof (ix_range 0 vpn) as Hi.
  assert (∀ a, pte_at p (ix 0 vpn) ≤ a < pte_at p (ix 0 vpn) + 8 → in_page p a) as Hin.
  { intros a. by apply pte_page. }
  split.
  - eapply (set_leaf kend s s' L T D root vpn p v D'); try done.
    + apply kmem_ok_mem; [apply Has|apply bytes_st64, (as_k _ _ _ _ _ _ Has)|].
      intros q a Hq Ha. apply ld_st64_ne.
      destruct (decide (pte_at p (ix 0 vpn) ≤ a < pte_at p (ix 0 vpn) + 8)) as [Hx|]; [|lia].
      exfalso. apply (as_free _ _ _ _ _ _ Has _ p Hp). replace p with q; [done|].
      apply (pages_disjoint kend q p a); [by eapply flist_pages, Hq; apply Has|by eapply (pt_page _ _ _ _ (as_tab _ _ _ _ _ _ Has))|done|by apply Hin].
    + intros a Ha. apply ld_st64_ne. lia.
    + cbn [s' k_mem kset_mem]. by rewrite ld64_st64_eq, u64_small.
  - split; [done| |].
    + exists []. split; [done|]. set_solver.
    + intros a Ha. apply ld_st64_ne.
      destruct (decide (pte_at p (ix 0 vpn) ≤ a < pte_at p (ix 0 vpn) + 8)) as [Hx|]; [|lia].
      exfalso. eapply (Ha p); [apply tpages_elem; eauto|by apply Hin].
Qed.
End walk.

Definition leaf (pa perm : Z) : Z := Z.lor (PA2PTE pa) (Z.lor perm PTE_V).

(** [n] pages from [vpn] on, mapped to consecutive physical pages. *)
Fixpoint map_range (D : gmap Z Z) (vpn : Z) (n : nat) (pa perm : Z) : gmap Z Z :=
  match n with
  | O => D
  | S n => map_range (<[vpn := leaf pa perm]> D) (vpn + 1) n (pa + 4096) perm
  end.

Fixpoint unmap_range (D : gmap Z Z) (vpn : Z) (n : nat) : gmap Z Z :=
  match n with O => D | S n => unmap_range (delete vpn D) (vpn + 1) n end.

Lemma lookup_map_range D vpn n pa perm v :
  map_range D vpn n pa perm !! v =
    if decide (vpn ≤ v < vpn + Z.of_nat n) then Some (leaf (pa + 4096 * (v - vpn)) perm) else D !! v.
Proof.
  revert D vpn pa. induction n as [|n IH]; intros D vpn pa; cbn [map_range]; [by rewrite decide_False by lia|].
  rewrite IH. destruct (decide (v = vpn)) as [->|Hne].
  - rewrite decide_False, decide_True, lookup_insert_eq by lia. f_equal. f_equal. lia.
  - rewrite lookup_insert_ne by done. repeat case_decide; try lia; try done. f_equal. f_equal. lia.
Qed.

Lemma lookup_unmap_range D vpn n v :
  unmap_range D vpn n !! v = if decide (vpn ≤ v < vpn + Z.of_nat n) then None else D !! v.
Proof.
  revert D vpn. induction n as [|n IH]; intros D vpn; cbn [unmap_range]; [by rewrite decide_False by lia|].
  rewrite IH. destruct (decide (v = vpn)) as [->|Hne].
  - by rewrite decide_False, decide_True, lookup_delete_eq by lia.
  - rewrite lookup_delete_ne by done. by repeat case_decide; try lia.
Qed.

Lemma unmap_map_range D vpn n pa perm :
  (∀ v, vpn ≤ v < vpn + Z.of_nat n → D !! v = None) → unmap_range (map_range D vpn n pa perm) vpn n = D.
Proof.
  intros HD. apply map_eq. intros v. rewrite lookup_unmap_range, lookup_map_range. case_decide; [|done].
  symmetry. by apply HD.
Qed.

Lemma lor_perm_V perm : 0 ≤ perm < 1024 → 0 ≤ Z.lor perm PTE_V < 1024.
Proof. intros Hp. by apply lor_1024. Qed.

#[local] Opaque memset st64.

Section leaves.
Context (pa perm : Z) (Hpa : 0 ≤ pa < 18446744073709551616) (Hal : pa mod 4096 = 0) (Hperm : 0 ≤ perm < 1024).

Lemma leaf_V : flag (leaf pa perm) PTE_V = true.
Proof. unfold leaf. rewrite Z.lor_assoc. apply flag_V_lor. Qed.

Lemma leaf_range : 0 ≤ leaf pa perm < 18446744073709551616.
Proof using Hpa Hperm.
  clear Hal. unfold leaf. pose proof (lor_perm_V perm Hperm). rewrite PA2PTE_div, lor_low by done. zlia.
Qed.

Lemma leaf_pa : PTE2PA (leaf pa perm) = pa.
Proof. apply PTE2PA_join; [done..|by apply lor_perm_V]. Qed.

Lemma leaf_flags : PTE_FLAGS (leaf pa perm) = Z.lor perm PTE_V.
Proof. by apply PTE_FLAGS_join, lor_perm_V. Qed.
End leaves.

Section map.
Context (kend : Z) (Hend : KERNBASE ≤ kend).
Implicit Types (s : kmem) (L : list Z) (m : mem) (T : gmap (list Z) Z) (D : gmap Z Z).
Abbreviation aspace := (aspace kend).

Lemma mappages_loop_spec perm fuel : ∀ s L T D root vpn pa n (Q : Z → kmem → Prop),
  aspace s L T D root → n = fuel → (0 < n)%nat → 0 ≤ vpn → vpn + Z.of_nat n ≤ NVPN / 2 →
  0 ≤ pa → pa + 4096 * Z.of_nat n ≤ 18446744073709551616 → 0 ≤ perm < 1024 →
  (∀ v, vpn ≤ v < vpn + Z.of_nat n → D !! v = None) →
  (∀ r s' L' T' k, aspace s' L' T' (map_range D vpn k pa perm) root → grow s L T s' L' T' →
     (r = 0 ∧ k = n ∧ (length L ≤ length L' + 2 * n)%nat) ∨
     (r = -1 ∧ (k < n)%nat ∧ L' = [] ∧ (length L < 2 * n)%nat) → Q r s') →
  wp (mappages_loop fuel root (4096 * vpn) (4096 * (vpn + Z.of_nat n - 1)) pa perm) s Q.
Proof.
  change (NVPN / 2) with 67108864.
  induction fuel as [|fuel IH]; intros s L T D root vpn pa n Q Has -> Hn Hv Hv' Hpa Hpa' Hperm HD HQ; [lia|].
  cbn [mappages_loop]. wp_step.
  apply (walk_alloc kend Hend s L T D root vpn); [done|change (NVPN / 2) with 67108864; lia|].
  intros r s1 L1 T1 Has1 Hg1 [(-> & -> & Hlen)|(Hr & Hlen & p & Hp & ->)].
  { cbn [Z.eqb]. wp_step. apply (HQ (-1) s1 [] T1 O); [done|done|right; split_and!; [done|lia|done|lia]]. }
  rewrite (proj2 (Z.eqb_neq _ _)) by done. unfold ldp, stp. wp_step. wp_step.
  assert (0 ≤ vpn < NVPN) as Hvr by (unfold NVPN; lia).
  rewrite (ld_leaf kend s1 L1 T1 D root vpn p Has1 Hvr Hp), HD by lia. cbn [default]. rewrite flag_0. wp_step. wp_step.
  rewrite <-Z.lor_assoc. change (Z.lor (PA2PTE pa) (Z.lor perm PTE_V)) with (leaf pa perm).
  edestruct (write_leaf kend Hend s1 L1 T1 D root vpn p (leaf pa perm) (<[vpn := leaf pa perm]> D)) as [Has2 Hg2];
    [exact Has1|exact Hvr|exact Hp|apply leaf_range; lia|by rewrite lookup_insert_eq|
     intros v Hne; by rewrite lookup_insert_ne|intros _; apply leaf_V|].
  pose proof (grow_trans _ _ _ _ _ _ _ _ _ Hg1 Hg2) as Hg.
  destruct fuel as [|fuel].
  - replace (4096 * vpn =? 4096 * (vpn + Z.of_nat 1 - 1)) with true by (symmetry; apply Z.eqb_eq; lia).
    wp_step. by apply (HQ 0 _ L1 T1 1%nat); [|exact Hg|left; split_and!; [..|lia]].
  - rewrite (proj2 (Z.eqb_neq _ _)) by lia. rewrite !(u64_small) by (unfold PGSIZE; lia).
    change PGSIZE with 4096. replace (4096 * vpn + 4096) with (4096 * (vpn + 1)) by lia.
    replace (4096 * (vpn + Z.of_nat (S (S fuel)) - 1)) with (4096 * (vpn + 1 + Z.of_nat (S fuel) - 1)) by lia.
    eapply (IH _ L1 T1 _ root (vpn + 1) (pa + 4096) (S fuel)); [exact Has2|done|lia|lia|lia|lia|lia|done| |].
    + intros v Hvv. rewrite lookup_insert_ne by lia. apply HD. lia.
    + intros r s' L' T' k Has' Hg' Hr'. apply (HQ r s' L' T' (S k)); [exact Has'| |].
      * exact (grow_trans _ _ _ _ _ _ _ _ _ Hg Hg').
      * destruct Hr' as [(-> & -> & ?)|(-> & ? & -> & ?)]; [left; split_and!; (done || lia)|right; split_and!; (done || lia)].
Qed.

(** What [mappages] does to an unmapped range: it maps all of it, or runs out
    of memory and leaves a prefix mapped. *)
Lemma mappages_spec s L T D root vpn n pa perm (Q : Z → kmem → Prop) :
  aspace s L T D root → (0 < n)%nat → 0 ≤ vpn → vpn + Z.of_nat n ≤ NVPN / 2 →
  0 ≤ pa → pa + 4096 * Z.of_nat n ≤ 18446744073709551616 → 0 ≤ perm < 1024 →
  (∀ v, vpn ≤ v < vpn + Z.of_nat n → D !! v = None) →
  (∀ r s' L' T' k, aspace s' L' T' (map_range D vpn k pa perm) root → grow s L T s' L' T' →
     (r = 0 ∧ k = n ∧ (length L ≤ length L' + 2 * n)%nat) ∨
     (r = -1 ∧ (k < n)%nat ∧ L' = [] ∧ (length L < 2 * n)%nat) → Q r s') →
  wp (mappages root (4096 * vpn) (4096 * Z.of_nat n) pa perm) s Q.
Proof.
  intros Has Hn Hv Hv' Hpa Hpa' Hperm HD HQ. unfold mappages. change PGSIZE with 4096.
  rewrite (Z.mul_comm 4096 vpn), Z_mod_mult, (Z.mul_comm 4096 (Z.of_nat n)), Z_mod_mult. cbn [negb Z.eqb].
  rewrite (proj2 (Z.eqb_neq _ _)) by lia. rewrite Z.div_mul, Nat2Z.id by done.
  change (NVPN / 2) with 67108864 in *. rewrite u64_small by lia.
  replace (vpn * 4096 + Z.of_nat n * 4096 - 4096) with (4096 * (vpn + Z.of_nat n - 1)) by lia.
  rewrite (Z.mul_comm vpn 4096).
  by apply (mappages_loop_spec perm n s L T D root vpn pa n).
Qed.

(** Mapping over a valid entry panics. *)
Lemma mappages_remap s L T D root vpn n pa perm v :
  aspace s L T D root → (0 < n)%nat → 0 ≤ vpn < NVPN / 2 → D !! vpn = Some v →
  mappages root (4096 * vpn) (4096 * Z.of_nat n) pa perm s = Panic "mappages: remap".
Proof.
  intros Has Hn Hv HD. destruct (leaf_table _ _ _ _ _ _ _ _ Has HD) as [p Hp].
  unfold mappages. change PGSIZE with 4096.
  rewrite (Z.mul_comm 4096 vpn), Z_mod_mult, (Z.mul_comm 4096 (Z.of_nat n)), Z_mod_mult. cbn [negb Z.eqb].
  rewrite (proj2 (Z.eqb_neq _ _)) by lia. rewrite Z.div_mul, Nat2Z.id by done.
  destruct n as [|n]; [lia|]. cbn [mappages_loop]. rewrite (Z.mul_comm vpn 4096). unfold mbind, M_bind.
  rewrite (walk_present kend Hend s L T D root true vpn p) by done.
  destruct (pte_nonzero kend Hend T s L D root _ p (ix 0 vpn) Has Hp) as [_ Hp0]; [apply ix_range|].
  rewrite (proj2 (Z.eqb_neq _ _)) by done. unfold ldp, gets.
  destruct (as_dom _ _ _ _ _ _ Has vpn v HD) as [Hvr Hf].
  rewrite (ld_leaf kend s L T D root vpn p Has Hvr Hp), HD.
  cbn [default from_option id]. by rewrite Hf.
Qed.

(** ** Unmapping *)

(** The physical pages of virtual pages. *)
Definition dpages (D : gmap Z Z) (vs : list Z) : list Z := (λ v, PTE2PA (default 0 (D !! v))) <$> vs.

(** A leaf: valid, and not a pointer to a table. *)
Definition mapped D v : Prop := ∃ e, D !! v = Some e ∧ PTE_FLAGS e ≠ PTE_V.

Fixpoint vrange (vpn : Z) (n : nat) : list Z :=
  match n with O => [] | S n => vpn :: vrange (vpn + 1) n end.

Lemma elem_of_vrange v vpn n : v ∈ vrange vpn n ↔ vpn ≤ v < vpn + Z.of_nat n.
Proof.
  revert vpn. induction n as [|n IH]; intros vpn; cbn [vrange]; [rewrite elem_of_nil; lia|].
  rewrite elem_of_cons, IH. lia.
Qed.

Lemma length_vrange vpn n : length (vrange vpn n) = n.
Proof. revert vpn. induction n as [|n IH]; intros vpn; cbn; [done|]. by rewrite IH. Qed.

(** The pages of [vs] belong to this address space alone. *)
Record owns L T D (vs : list Z) : Prop := {
  ow_nodup : NoDup (dpages D vs);
  ow_page p : p ∈ dpages D vs → page_ok kend p ∧ (p ∉ L) ∧ p ∉ tpages T
}.

Lemma owns_nil L T D : owns L T D [].
Proof. split; [apply NoDup_nil_2|]. intros p Hp. by apply elem_of_nil in Hp. Qed.

Lemma dpages_delete D v vs : v ∉ vs → dpages (delete v D) vs = dpages D vs.
Proof.
  intros Hv. apply list_fmap_ext. intros i x Hx. rewrite lookup_delete_ne; [done|].
  intros <-. by apply Hv, list_elem_of_lookup_2 with i.
Qed.

Lemma owns_tail L T D v vs :
  v ∉ vs → owns L T D (v :: vs) →
  owns (PTE2PA (default 0 (D !! v)) :: L) T (delete v D) vs ∧ owns L T (delete v D) vs.
Proof.
  intros Hv [Hnd Hp]. cbn [dpages fmap list_fmap] in *. apply NoDup_cons in Hnd as [Hn Hnd].
  split; split; rewrite dpages_delete by done; try done; intros p Hp'.
  - destruct (Hp p) as (? & ? & ?); [by right|]. split_and!; [done| |done].
    intros [->|?]%elem_of_cons; [by apply Hn|done].
  - apply Hp. by right.
Qed.

Lemma kfree_aspace s L T D root q (Q : unit → kmem → Prop) :
  aspace s L T D root → page_ok kend q → q ∉ L → q ∉ tpages T →
  (∀ s', aspace s' (q :: L) T D root → outside {[q]} (k_mem s) (k_mem s') → Q tt s') →
  wp (kfree kend q) s Q.
Proof.
  intros Has Hq HqL HqT HQ. apply (kfree_spec kend Hend s L); [apply Has|done|done|].
  intros s' Hk' Hm'. apply HQ.
  - eapply aspace_frame; [exact Has|done| |].
    + intros l p Hp [->|Hin]%elem_of_cons; [apply HqT, tpages_elem; eauto|by eapply (as_free _ _ _ _ _ _ Has)].
    + intros l p a Hp Ha. apply Hm'. intros Ha'.
      eapply (table_page_ne kend _ T root l p q a); [apply Has|done|done| |done|done].
      intros ->. apply HqT, tpages_elem. eauto.
  - intros a Ha. apply Hm', Ha. set_solver.
Qed.

(** Reading the entry of a mapped page. *)
Lemma walk_mapped s L T D root v e (Q : Z → kmem → Prop) :
  aspace s L T D root → 0 ≤ v < NVPN / 2 → D !! v = Some e →
  (∀ p, T !! path 0 v = Some p → (pte_at p (ix 0 v) =? 0) = false →
     ld64 (k_mem s) (pte_at p (ix 0 v)) = e → flag e PTE_V = true → Q (pte_at p (ix 0 v)) s) →
  wp (walk root (4096 * v) false) s Q.
Proof.
  intros Has Hv He HQ. destruct (leaf_table _ _ _ _ _ _ _ _ Has He) as [p Hp].
  destruct (as_dom _ _ _ _ _ _ Has v e He) as [Hvr HV].
  eapply wp_eq; [by apply (walk_present kend Hend s L T D root false v p)|]. apply HQ; [done| | |done].
  - apply Z.eqb_neq. destruct (pte_nonzero kend Hend T s L D root _ p (ix 0 v) Has Hp) as [_ ?]; [apply ix_range|done].
  - by rewrite (ld_leaf kend s L T D root v p Has Hvr Hp), He.
Qed.

Lemma clear_leaf s L T D root v p :
  aspace s L T D root → 0 ≤ v < NVPN → T !! path 0 v = Some p →
  let s' := kset_mem (st64 (k_mem s) (pte_at p (ix 0 v)) 0) s in
  aspace s' L T (delete v D) root ∧ outside (tpages T) (k_mem s) (k_mem s').
Proof.
  intros Has Hv Hp. destruct (write_leaf kend Hend s L T D root v p 0 (delete v D)) as [Has' Hg];
    [exact Has|exact Hv|exact Hp|done|by rewrite lookup_delete_eq| |by rewrite lookup_delete_eq|].
  - intros v' Hne. by rewrite lookup_delete_ne.
  - split; [exact Has'|apply Hg].
Qed.

Lemma uvmunmap_loop_spec (do_free : bool) fuel : ∀ s L T D root vpn n (Q : unit → kmem → Prop),
  aspace s L T D root → (n < fuel)%nat → 0 ≤ vpn → vpn + Z.of_nat n ≤ NVPN / 2 →
  (∀ v, vpn ≤ v < vpn + Z.of_nat n → mapped D v) → (do_free → owns L T D (vrange vpn n)) →
  (∀ s', aspace s' (if do_free then reverse (dpages D (vrange vpn n)) ++ L else L) T (unmap_range D vpn n) root →
     outside (tpages T ∪ (if do_free then list_to_set (dpages D (vrange vpn n)) else ∅)) (k_mem s) (k_mem s') → Q tt s') →
  wp (uvmunmap_loop kend fuel root (4096 * vpn) (4096 * (vpn + Z.of_nat n)) do_free) s Q.
Proof.
  change (NVPN / 2) with 67108864.
  induction fuel as [|fuel IH]; intros s L T D root vpn n Q Has Hn Hv Hv' Hmap Hown HQ; [lia|].
  cbn [uvmunmap_loop]. destruct n as [|n].
  { rewrite (proj2 (Z.ltb_ge _ _)) by lia. wp_step. apply HQ; [by destruct do_free|done]. }
  rewrite (proj2 (Z.ltb_lt _ _)) by lia. destruct (Hmap vpn) as (e & He & Hfl); [lia|].
  wp_step. eapply walk_mapped; [done|change (NVPN / 2) with 67108864; lia|done|].
  intros p Hp Hp0 Hld HV. rewrite Hp0. unfold ldp, stp. wp_step. wp_step. rewrite Hld, HV. cbn [negb].
  rewrite (proj2 (Z.eqb_neq _ _)) by done.
  assert (vpn ∉ vrange (vpn + 1) n) as Hvn by (rewrite elem_of_vrange; lia).
  assert (0 ≤ vpn < NVPN) as Hvr by (unfold NVPN; lia).
  assert (∀ v, vpn + 1 ≤ v < vpn + 1 + Z.of_nat n → mapped (delete vpn D) v) as Hmap'.
  { intros v Hvv. destruct (Hmap v) as (e' & He' & ?); [lia|]. exists e'. by rewrite lookup_delete_ne by lia. }
  assert (PTE2PA (default 0 (D !! vpn)) = PTE2PA e) as Hpa by (by rewrite He).
  replace (vpn + Z.of_nat (S n)) with (vpn + 1 + Z.of_nat n) in * by lia.
  rewrite (u64_small (4096 * vpn + PGSIZE)) by (unfold PGSIZE; lia). change PGSIZE with 4096. replace (4096 * vpn + 4096) with (4096 * (vpn + 1)) by lia.
  wp_step. destruct do_free; cbn [mwhen].
  - pose proof (Hown I) as Ho. destruct (owns_tail L T D vpn _ Hvn Ho) as [Ho1 _]. rewrite Hpa in Ho1.
    destruct (ow_page _ _ _ _ Ho (PTE2PA e)) as (Hpok & HpL & HpT); [cbn; rewrite He; left|].
    apply (kfree_aspace s L T D root); [done..|]. intros s1 Has1 Ho1'. wp_step. wp_step.
    destruct (clear_leaf s1 _ T D root vpn p Has1 Hvr Hp) as [Has2 Hout2].
    eapply (IH _ _ T (delete vpn D) root (vpn + 1) n); [exact Has2|lia|lia|lia|done|done|].
    cbn [vrange dpages fmap list_fmap unmap_range] in HQ. rewrite Hpa in HQ.
    intros s' Has' Hout'. fold (dpages (delete vpn D) (vrange (vpn + 1) n)) in *. rewrite dpages_delete in * by done. apply HQ.
    + by rewrite reverse_cons, <-app_assoc.
    + eapply outside_trans; [|eapply outside_mono; [|exact Hout']; clear; set_solver].
      apply (outside_trans _ _ (k_mem s1)).
      * apply (outside_mono {[PTE2PA e]}); [|exact Ho1'].
        intros x ->%elem_of_singleton. apply elem_of_union_r, elem_of_list_to_set. left.
      * apply (outside_mono (tpages T)); [apply union_subseteq_l|exact Hout2].
  - wp_step. wp_step. wp_step. destruct (clear_leaf s _ T D root vpn p Has Hvr Hp) as [Has2 Hout2].
    eapply (IH _ _ T (delete vpn D) root (vpn + 1) n); [exact Has2|lia|lia|lia|done|done|].
    intros s' Has' Hout'. apply HQ; [exact Has'|]. eapply outside_trans; [|exact Hout'].
    eapply outside_mono; [|exact Hout2]. clear; set_solver.
Qed.

Lemma uvmunmap_spec s L T D root vpn n (do_free : bool) (Q : unit → kmem → Prop) :
  aspace s L T D root → 0 ≤ vpn → vpn + Z.of_nat n ≤ NVPN / 2 →
  (∀ v, vpn ≤ v < vpn + Z.of_nat n → mapped D v) → (do_free → owns L T D (vrange vpn n)) →
  (∀ s', aspace s' (if do_free then reverse (dpages D (vrange vpn n)) ++ L else L) T (unmap_range D vpn n) root →
     outside (tpages T ∪ (if do_free then list_to_set (dpages D (vrange vpn n)) else ∅)) (k_mem s) (k_mem s') → Q tt s') →
  wp (uvmunmap kend root (4096 * vpn) (Z.of_nat n) do_free) s Q.
Proof.
  intros Has Hv Hv' Hmap Hown HQ. unfold uvmunmap. change PGSIZE with 4096.
  rewrite (Z.mul_comm 4096 vpn), Z_mod_mult. cbn [negb Z.eqb]. rewrite u64_small by (change (NVPN / 2) with 67108864 in *; lia).
  replace (vpn * 4096 + Z.of_nat n * 4096) with (4096 * (vpn + Z.of_nat n)) by lia. rewrite (Z.mul_comm vpn).
  apply (uvmunmap_loop_spec do_free _ s L T D root vpn n); try done. lia.
Qed.
End map.
