(* ===== verification/VmGrow.v ===== *)
(** * User address spaces: growing, shrinking and copying a process's memory

    [uvmdealloc], [uvmalloc] and [uvmcopy] of kernel/vm.c. *)
From Stdlib Require Import ZArith Lia.
From stdpp Require Import prelude gmap strings.
From S2P Require Import Prelude Bytes Param Str Riscv PhysMem Kalloc Vm VmSpec VmMap.

(** ** User address spaces

    [uvmalloc], [uvmdealloc] and [uvmcopy] of kernel/vm.c grow an address space
    by freshly allocated pages, or give every one of them back. *)

#[local] Opaque memset st64 memmove.

(** Pages that are free, tables, or in [lim]. *)
Definition rest (L : list Z) (T : gmap (list Z) Z) (lim : gset Z) : gset Z :=
  list_to_set L ∪ tpages T ∪ lim.

Lemma elem_of_rest p L T lim : p ∈ rest L T lim ↔ p ∈ L ∨ p ∈ tpages T ∨ p ∈ lim.
Proof. unfold rest. rewrite !elem_of_union, elem_of_list_to_set. tauto. Qed.

Lemma grow_tables s L T s' L' T' p : grow s L T s' L' T' → p ∈ tpages T' → p ∈ L ∨ p ∈ tpages T.
Proof.
  intros Hg Hp. destruct (gr_pages _ _ _ _ _ _ Hg) as (new & -> & HT). rewrite HT in Hp.
  apply elem_of_union in Hp as [Hp|Hp%elem_of_list_to_set]; [by right|]. left. apply elem_of_app. by left.
Qed.

Lemma grow_rest s L T s' L' T' lim : grow s L T s' L' T' → rest L T lim = rest L' T' lim.
Proof.
  intros Hg. destruct (gr_pages _ _ _ _ _ _ Hg) as (new & -> & HT). unfold rest. f_equal.
  rewrite HT, list_to_set_app_L. apply set_eq. intros p. rewrite !elem_of_union. tauto.
Qed.

Section user.
Context (kend : Z) (Hend : KERNBASE ≤ kend).
Implicit Types (s : kmem) (L : list Z) (m : mem) (T : gmap (list Z) Z) (D : gmap Z Z).
Abbreviation aspace := (aspace kend).
Abbreviation owns := (owns kend).

Lemma kalloc_aspace s L T D root (Q : Z → kmem → Prop) :
  aspace s L T D root →
  match L with
  | [] => Q 0 s
  | p :: L' => ∀ s', aspace s' L' T D root → page_ok kend p → p ∉ L' → p ∉ tpages T →
      outside {[p]} (k_mem s) (k_mem s') → Q p s'
  end → wp kalloc s Q.
Proof.
  intros Has HQ. apply (kalloc_spec kend Hend s L); [apply Has|]. destruct L as [|p L]; [done|].
  intros s' Hk' Hp HpL Hm.
  assert (p ∉ tpages T) as HpT.
  { intros [l Hl]%tpages_elem. by apply (as_free _ _ _ _ _ _ Has l p); [|left]. }
  assert (outside {[p]} (k_mem s) (k_mem s')) as Hout.
  { intros a Ha. rewrite Hm, decide_False; [done|]. apply Ha. by apply elem_of_singleton. }
  apply HQ; try done. eapply aspace_frame; [exact Has|done| |].
  - intros l q Hq Hin. apply (as_free _ _ _ _ _ _ Has l q Hq). by right.
  - intros l q a Hq Ha. apply Hout. intros p' ->%elem_of_singleton Ha'.
    eapply (table_page_ne kend _ T root l q p a); [apply Has|done|done| |done|done].
    intros ->. apply HpT, tpages_elem. eauto.
Qed.

(** Writing to a page that is neither free nor a table. *)
Lemma write_page s L T D root p m' :
  aspace s L T D root → page_ok kend p → p ∉ L → p ∉ tpages T → bytes_mem m' →
  outside {[p]} (k_mem s) m' → aspace (kset_mem m' s) L T D root.
Proof.
  intros Has Hp HpL HpT Hb Hout. assert (∀ q a, page_ok kend q → q ≠ p → in_page q a → ld m' a = ld (k_mem s) a) as Hne.
  { intros q a Hq Hqp Ha. apply Hout. intros p' ->%elem_of_singleton Ha'. by apply Hqp, (pages_disjoint kend q p a). }
  eapply aspace_frame; [exact Has| | |].
  - apply kmem_ok_mem; [apply Has|done|]. intros q a Hq Ha. apply (Hne q); [by eapply flist_pages, Hq; apply Has| |done].
    by intros ->.
  - apply Has.
  - intros l q a Hq Ha. apply (Hne q); [by eapply (pt_page _ _ _ _ (as_tab _ _ _ _ _ _ Has))| |done].
    intros ->. apply HpT, tpages_elem. eauto.
Qed.

(** ** Growing an address space

    Pages [n0 .. n0 + k) have been added, page [v] with permissions [perm v] and
    contents [content v], all of it out of the free pages [L0]. The pages of
    [lim] are allocated but not mapped yet. *)
Section growing.
Context (s0 : kmem) (L0 : list Z) (T0 : gmap (list Z) Z) (D0 : gmap Z Z) (root n0 : Z)
  (perm : Z → Z) (content : Z → Z → Z) (Hperm : ∀ v, 0 ≤ perm v < 1024).

Record grown (k : nat) (lim : gset Z) (s : kmem) (L : list Z) (T : gmap (list Z) Z) (D : gmap Z Z) : Prop := {
  gw_as : aspace s L T D root;
  gw_same v : ¬ (n0 ≤ v < n0 + Z.of_nat k) → D !! v = D0 !! v;
  gw_new v : n0 ≤ v < n0 + Z.of_nat k → ∃ p, D !! v = Some (leaf p (perm v)) ∧ page_ok kend p ∧
    ∀ i, 0 ≤ i < 4096 → ld (k_mem s) (p + i) = content v i;
  gw_nodup : NoDup (dpages D (vrange n0 k));
  gw_own p : p ∈ dpages D (vrange n0 k) → page_ok kend p ∧ p ∉ rest L T lim;
  gw_lim p : p ∈ lim → page_ok kend p ∧ (p ∉ L) ∧ p ∉ tpages T;
  gw_sub : T0 ⊆ T;
  gw_set : rest L0 T0 ∅ = rest L T lim ∪ list_to_set (dpages D (vrange n0 k));
  gw_out : outside (rest L0 T0 ∅) (k_mem s0) (k_mem s)
}.

Lemma grown_start : aspace s0 L0 T0 D0 root → grown O ∅ s0 L0 T0 D0.
Proof.
  intros Has. split; try done.
  - intros v Hv. lia.
  - apply NoDup_nil_2.
  - intros p Hp. by apply elem_of_nil in Hp.
  - cbn. by rewrite union_empty_r_L.
Qed.

Lemma grown_zero s L T D : grown O ∅ s L T D → grown O ∅ s L T D0.
Proof.
  intros Hg. assert (D = D0) as <-; [|done]. apply map_eq. intros v. apply Hg. lia.
Qed.

Lemma dpages_new D k v p :
  n0 ≤ v < n0 + Z.of_nat k → D !! v = Some (leaf p (perm v)) → page_ok kend p → p ∈ dpages D (vrange n0 k).
Proof.
  intros Hv HD Hp. apply list_elem_of_fmap. exists v. split; [|by apply elem_of_vrange].
  rewrite HD. cbn [default from_option id]. symmetry. apply leaf_pa; [by apply (page_u64 kend)|apply Hp|done].
Qed.

Lemma rest_page k lim s L T D p : grown k lim s L T D → p ∈ rest L T lim → page_ok kend p.
Proof.
  intros Hg [Hp|[[l Hl]%tpages_elem|Hp]]%elem_of_rest.
  - by eapply flist_pages, Hp; apply (gw_as _ _ _ _ _ _ Hg).
  - by eapply (pt_page _ _ _ _ (as_tab _ _ _ _ _ _ (gw_as _ _ _ _ _ _ Hg))).
  - by apply (gw_lim _ _ _ _ _ _ Hg).
Qed.

(** Pages other than the mapped ones may be written, and change roles. *)
Lemma grown_change k lim s L T D lim' s' L' T' :
  grown k lim s L T D → aspace s' L' T' D root →
  outside (rest L T lim) (k_mem s) (k_mem s') → T ⊆ T' → rest L T lim = rest L' T' lim' →
  (∀ p, p ∈ lim' → page_ok kend p ∧ (p ∉ L') ∧ p ∉ tpages T') →
  grown k lim' s' L' T' D.
Proof.
  intros Hg Has' Hout HT Hset Hlim'.
  split; [done|apply Hg| |apply Hg| |done|etrans; [apply Hg|done]| |].
  - intros v Hv. destruct (gw_new _ _ _ _ _ _ Hg v Hv) as (p & HD & Hp & Hc). exists p. split_and!; [done..|].
    intros i Hi. rewrite <-(Hc i Hi). apply Hout. intros r Hr Ha.
    destruct (gw_own _ _ _ _ _ _ Hg p) as [_ Hnot]; [by eapply dpages_new|]. apply Hnot.
    replace p with r; [done|]. apply (pages_disjoint kend r p (p + i)); [by eapply rest_page|done..|unfold in_page; lia].
  - intros p Hp. rewrite <-Hset. by apply Hg.
  - rewrite (gw_set _ _ _ _ _ _ Hg). by rewrite Hset.
  - eapply outside_trans; [apply Hg|]. eapply outside_mono; [|exact Hout].
    rewrite (gw_set _ _ _ _ _ _ Hg). apply union_subseteq_l.
Qed.

Lemma vrange_snoc k v : vrange v (S k) = vrange v k ++ [v + Z.of_nat k].
Proof.
  revert v. induction k as [|k IH]; intros v; [cbn; f_equal; lia|].
  change (vrange v (S (S k))) with (v :: vrange (v + 1) (S k)). rewrite IH. cbn [vrange app]. do 3 f_equal. lia.
Qed.

Lemma dpages_insert D v e vs : v ∉ vs → dpages (<[v := e]> D) vs = dpages D vs.
Proof.
  intros Hv. apply list_fmap_ext. intros i x Hx. rewrite lookup_insert_ne; [done|].
  intros <-. by apply Hv, list_elem_of_lookup_2 with i.
Qed.

(** The page in limbo is mapped next. *)
Lemma grown_add k s s' L T L' T' D p :
  let v := n0 + Z.of_nat k in let D' := <[v := leaf p (perm v)]> D in
  grown k {[p]} s L T D → aspace s' L' T' D' root → grow s L T s' L' T' →
  (∀ i, 0 ≤ i < 4096 → ld (k_mem s) (p + i) = content v i) → grown (S k) ∅ s' L' T' D'.
Proof.
  intros v D' Hg Has' Hgrow Hc. pose proof (gr_out _ _ _ _ _ _ Hgrow) as Hout.
  pose proof (grow_rest _ _ _ _ _ _ {[p]} Hgrow) as Hrest. pose proof (λ p, grow_tables _ _ _ _ _ _ p Hgrow) as Htab.
  destruct (gw_lim _ _ _ _ _ _ Hg p) as (Hp & HpL & HpT); [by apply elem_of_singleton|].
  assert (dpages D' (vrange n0 (S k)) = dpages D (vrange n0 k) ++ [p]) as Hd.
  { rewrite vrange_snoc. unfold dpages at 1. rewrite fmap_app. f_equal.
    - unfold D'. apply dpages_insert. rewrite elem_of_vrange. unfold v. lia.
    - cbn [fmap list_fmap]. unfold D'. rewrite lookup_insert_eq. cbn [default from_option id].
      f_equal. apply leaf_pa; [by apply (page_u64 kend)|apply Hp|done]. }
  assert (p ∉ dpages D (vrange n0 k)) as Hpd.
  { intros Hin. apply (gw_own _ _ _ _ _ _ Hg) in Hin as [_ Hin]. apply Hin, elem_of_rest. right. right. by apply elem_of_singleton. }
  assert ((p ∉ L') ∧ p ∉ tpages T') as [HpL' HpT'].
  { assert (¬ (p ∈ L ∨ p ∈ tpages T)) as Hn by tauto. split; intros Hin; apply Hn.
    - destruct (gr_pages _ _ _ _ _ _ Hgrow) as (new & -> & _). left. apply elem_of_app. by right.
    - by apply Htab. }
  assert (∀ q i, page_ok kend q → q ∉ tpages T' → 0 ≤ i < 4096 → ld (k_mem s') (q + i) = ld (k_mem s) (q + i)) as Hsame.
  { intros q i Hq HqT Hi. apply Hout. intros t Ht Ha. apply HqT. replace q with t; [done|].
    apply (pages_disjoint kend t q (q + i)); [|done|done|unfold in_page; lia]. eapply rest_page; [exact Hg|]. apply elem_of_rest. apply Htab in Ht. tauto. }
  split; [done| | | | | |etrans; [apply Hg|apply Hgrow]| |].
  - intros x Hx. unfold D'. rewrite lookup_insert_ne by (unfold v; lia). apply Hg. lia.
  - intros x Hx. unfold D'. destruct (decide (x = v)) as [->|Hne].
    + exists p. rewrite lookup_insert_eq. split_and!; [done..|]. intros i Hi. by rewrite Hsame, Hc.
    + rewrite lookup_insert_ne by done. destruct (gw_new _ _ _ _ _ _ Hg x) as (q & HD & Hq & Hqc); [unfold v in Hne; lia|].
      exists q. split_and!; [done..|]. intros i Hi. rewrite Hsame; [by apply Hqc|done| |done].
      destruct (gw_own _ _ _ _ _ _ Hg q) as [_ Hn]; [eapply dpages_new; [|done..]; unfold v in Hne; lia|].
      rewrite Hrest, elem_of_rest in Hn. tauto.
  - rewrite Hd. apply NoDup_app. split_and!; [apply Hg| |apply NoDup_singleton].
    intros q Hq ->%list_elem_of_singleton. done.
  - intros q. rewrite Hd, elem_of_app, list_elem_of_singleton. intros [Hq| ->].
    + destruct (gw_own _ _ _ _ _ _ Hg q Hq) as [? Hn]. split; [done|]. rewrite Hrest, elem_of_rest in Hn. rewrite elem_of_rest. rewrite elem_of_empty. tauto.
    + split; [done|]. rewrite elem_of_rest, elem_of_empty. tauto.
  - intros q Hq. by apply elem_of_empty in Hq.
  - rewrite (gw_set _ _ _ _ _ _ Hg), Hrest, Hd, list_to_set_app_L. unfold rest. cbn [list_to_set]. rewrite !union_empty_r_L.
    rewrite <-!(assoc_L (∪)). do 2 f_equal. apply (comm_L (∪)).
  - eapply outside_trans; [apply Hg|]. eapply outside_mono; [|exact Hout].
    rewrite (gw_set _ _ _ _ _ _ Hg), Hrest. unfold rest. intros q Hq. rewrite !elem_of_union. tauto.
Qed.
(** ** The steps of the loops *)

Lemma grown_kalloc k s L T D (Q : Z → kmem → Prop) :
  grown k ∅ s L T D →
  match L with
  | [] => Q 0 s
  | p :: L' => ∀ s', grown k {[p]} s' L' T D → p ≠ 0 → Q p s'
  end → wp kalloc s Q.
Proof.
  intros Hg HQ. apply (kalloc_aspace s L T D root); [apply Hg|]. destruct L as [|p L]; [done|].
  intros s' Has' Hp HpL HpT Hout. apply HQ; [|destruct (page_bounds kend Hend p Hp); lia].
  eapply (grown_change k ∅ s (p :: L) T D); [done|done| |done| |].
  - eapply outside_mono; [|done]. intros q ->%elem_of_singleton. apply elem_of_rest. left. left.
  - apply set_eq. intros q. rewrite !elem_of_rest, elem_of_cons, elem_of_singleton, elem_of_empty. tauto.
  - intros q ->%elem_of_singleton. by split_and!.
Qed.

Lemma grown_fill k s L T D p m' :
  grown k {[p]} s L T D → bytes_mem m' → outside {[p]} (k_mem s) m' → grown k {[p]} (kset_mem m' s) L T D.
Proof.
  intros Hg Hb Hout. destruct (gw_lim _ _ _ _ _ _ Hg p) as (Hp & HpL & HpT); [by apply elem_of_singleton|].
  eapply (grown_change k {[p]} s L T D); [done| | |done|done|apply Hg].
  - by eapply write_page; [apply Hg|..].
  - eapply outside_mono; [|done]. intros q Hq. apply elem_of_rest. tauto.
Qed.

Lemma grown_kfree k s L T D p (Q : unit → kmem → Prop) :
  grown k {[p]} s L T D → (∀ s', grown k ∅ s' (p :: L) T D → Q tt s') → wp (kfree kend p) s Q.
Proof.
  intros Hg HQ. destruct (gw_lim _ _ _ _ _ _ Hg p) as (Hp & HpL & HpT); [by apply elem_of_singleton|].
  apply (kfree_aspace kend Hend s L T D root); [apply Hg|done..|]. intros s' Has' Hout. apply HQ.
  eapply (grown_change k {[p]} s L T D); [done|done| |done| |].
  - eapply outside_mono; [|done]. intros q Hq. apply elem_of_rest. tauto.
  - apply set_eq. intros q. rewrite !elem_of_rest, elem_of_cons, elem_of_singleton, elem_of_empty. tauto.
  - intros q Hq. by apply elem_of_empty in Hq.
Qed.

Lemma grown_map k s L T D p (Q : Z → kmem → Prop) :
  let v := n0 + Z.of_nat k in
  grown k {[p]} s L T D → 0 ≤ n0 → v < NVPN / 2 → D0 !! v = None →
  (∀ i, 0 ≤ i < 4096 → ld (k_mem s) (p + i) = content v i) →
  (∀ s' L' T' D', grown (S k) ∅ s' L' T' D' → (length L ≤ length L' + 2)%nat → Q 0 s') →
  (∀ s' T', grown k {[p]} s' [] T' D → (length L < 2)%nat → Q (-1) s') →
  wp (mappages root (4096 * v) 4096 p (perm v)) s Q.
Proof.
  intros v Hg H0 Hv HD Hc HQ0 HQ1. destruct (gw_lim _ _ _ _ _ _ Hg p) as (Hp & HpL & HpT); [by apply elem_of_singleton|].
  destruct (page_bounds kend Hend p Hp). unfold PHYSTOP, KERNBASE in *.
  change 4096 with (4096 * Z.of_nat 1) at 2.
  apply (mappages_spec kend Hend s L T D root v 1); [apply Hg|lia|unfold v; lia|lia|lia|lia|apply Hperm| |].
  { intros x Hx. replace x with v by lia. rewrite (gw_same _ _ _ _ _ _ Hg) by (unfold v; lia). done. }
  intros r s' L' T' j Has' Hgrow [(-> & -> & Hlen)|(-> & Hj & -> & Hlen)].
  - cbn [map_range] in Has'. eapply (HQ0 s' L' T'); [|lia]. eapply grown_add; done.
  - replace j with 0%nat in Has' by lia. cbn [map_range] in Has'. apply (HQ1 s' T'); [|lia].
    eapply (grown_change k {[p]} s L T D); [done|done| |apply Hgrow|by eapply grow_rest|].
    + eapply outside_mono; [|apply Hgrow]. intros q Hq. apply elem_of_rest. apply (grow_tables _ _ _ _ _ _ _ Hgrow) in Hq. tauto.
    + intros q ->%elem_of_singleton. split_and!; [done|apply not_elem_of_nil|]. intros Hq. apply (grow_tables _ _ _ _ _ _ _ Hgrow) in Hq. tauto.
Qed.

(** Everything is given back. *)
Lemma grown_undo k s L T D (Q : unit → kmem → Prop) :
  grown k ∅ s L T D → 0 ≤ n0 → n0 + Z.of_nat k ≤ NVPN / 2 → 
  (∀ v, n0 ≤ v < n0 + Z.of_nat k → Z.lor (perm v) PTE_V ≠ PTE_V) →
  (∀ v, n0 ≤ v < n0 + Z.of_nat k → D0 !! v = None) →
  (∀ s' L', grown O ∅ s' L' T D0 → Q tt s') →
  wp (uvmunmap kend root (4096 * n0) (Z.of_nat k) true) s Q.
Proof.
  intros Hg H0 Hn Hfl HD0 HQ.
  apply (uvmunmap_spec kend Hend s L T D root n0 k true); [apply Hg|done|done| | |].
  - intros v Hv. destruct (gw_new _ _ _ _ _ _ Hg v Hv) as (p & HD & _). exists (leaf p (perm v)). split; [done|].
    rewrite leaf_flags by apply Hperm. by apply Hfl.
  - intros _. split; [apply Hg|]. intros p Hp. destruct (gw_own _ _ _ _ _ _ Hg p Hp) as [? Hn'].
    rewrite elem_of_rest in Hn'. split_and!; tauto.
  - intros s' Has' Hout.
    assert (unmap_range D n0 k = D0) as HD.
    { apply map_eq. intros v. rewrite lookup_unmap_range. case_decide as Hv; [by rewrite HD0|by apply Hg]. }
    rewrite HD in Has'. assert (rest L0 T0 ∅ = rest (reverse (dpages D (vrange n0 k)) ++ L) T ∅) as Hset.
    { rewrite (gw_set _ _ _ _ _ _ Hg). apply set_eq. intros q.
      rewrite elem_of_union, !elem_of_rest, elem_of_app, elem_of_reverse, elem_of_list_to_set. tauto. }
    eapply HQ. split; [exact Has'|done| | | | |apply Hg| |].
    + intros v Hv. lia.
    + apply NoDup_nil_2.
    + intros p Hp. by apply elem_of_nil in Hp.
    + intros p Hp. by apply elem_of_empty in Hp.
    + rewrite Hset. cbn. by rewrite union_empty_r_L.
    + eapply outside_trans; [apply Hg|]. eapply outside_mono; [|exact Hout]. rewrite (gw_set _ _ _ _ _ _ Hg).
      intros q. rewrite !elem_of_union, !elem_of_rest, elem_of_list_to_set. tauto.
Qed.
End growing.
End user.

#[local] Opaque memset st64 memmove.

(** The pages that [sz] bytes take up. *)
Definition npages (sz : Z) : Z := (sz + 4095) / 4096.

Lemma PGROUNDUP_npages sz : 0 ≤ sz < 4096 * NVPN → PGROUNDUP sz = 4096 * npages sz.
Proof. intros Hs. unfold npages. change NVPN with 134217728 in Hs. rewrite PGROUNDUP_div by lia. lia. Qed.

(** A valid entry's flags already have PTE_V. *)
Lemma flags_lor_V e : flag e PTE_V = true → Z.lor (PTE_FLAGS e) PTE_V = PTE_FLAGS e.
Proof.
  unfold PTE_V. rewrite flag_testbit by lia. intros HV. apply Z.bits_inj'. intros b Hb.
  rewrite Z.lor_spec. destruct (Z.eq_dec b 0) as [->|Hb0].
  - rewrite PTE_FLAGS_mod. change 1024 with (2 ^ 10). by rewrite Z.mod_pow2_bits_low, HV by lia.
  - rewrite Z.shiftl_1_l, Z.pow2_bits_false by lia. apply orb_false_r.
Qed.

Section grow.
Context (kend : Z) (Hend : KERNBASE ≤ kend).
Implicit Types (s : kmem) (L : list Z) (m : mem) (T : gmap (list Z) Z) (D : gmap Z Z).
Abbreviation aspace := (aspace kend).
Abbreviation owns := (owns kend).

(** [uvmdealloc] unmaps and frees the pages above the new size. *)
Lemma uvmdealloc_spec s L T D root oldsz newsz (Q : Z → kmem → Prop) :
  aspace s L T D root → 0 ≤ newsz → 0 ≤ oldsz ≤ 4096 * (NVPN / 2) →
  let n0 := npages newsz in let k := Z.to_nat (npages oldsz - npages newsz) in
  (∀ v, n0 ≤ v < n0 + Z.of_nat k → mapped D v) → owns L T D (vrange n0 k) →
  (∀ s', aspace s' (reverse (dpages D (vrange n0 k)) ++ L) T (unmap_range D n0 k) root →
     outside (tpages T ∪ list_to_set (dpages D (vrange n0 k))) (k_mem s) (k_mem s') → Q (Z.min oldsz newsz) s') →
  wp (uvmdealloc kend root oldsz newsz) s Q.
Proof.
  change (NVPN / 2) with 67108864. intros Has H0 Hold n0 k Hmap Hown HQ. unfold uvmdealloc.
  destruct (Z.geb_spec newsz oldsz) as [Hge|Hlt].
  { assert (k = O) as Hk by (unfold k, npages; zlia). rewrite Hk in HQ. cbn [vrange dpages fmap list_fmap] in HQ.
    wp_step. rewrite Z.min_l in HQ by lia. apply HQ; [exact Has|done]. }
  rewrite !PGROUNDUP_npages by (unfold NVPN; lia). wp_step. rewrite Z.min_r in HQ by lia.
  destruct (Z.ltb_spec (4096 * npages newsz) (4096 * npages oldsz)) as [Hl|Hl]; cbn [mwhen].
  - replace ((4096 * npages oldsz - 4096 * npages newsz) / PGSIZE) with (Z.of_nat k) by (change PGSIZE with 4096; unfold k; zlia).
    assert (n0 + Z.of_nat k ≤ 67108864) by (unfold n0, k, npages in *; zlia).
    assert (0 ≤ n0) by (unfold n0, npages; zlia).
    rewrite s32_small, u64_small by lia.
    apply (uvmunmap_spec kend Hend s L T D root n0 k true); [done|lia|done|done|done|].
    intros s' Has' Hout. wp_step. by apply HQ.
  - wp_step. wp_step. assert (k = O) as Hk by (unfold k; lia). rewrite Hk in HQ. apply HQ; [exact Has|done].
Qed.

(** ** [uvmalloc] *)
Section alloc.
Context (s0 : kmem) (L0 : list Z) (T0 : gmap (list Z) Z) (D0 : gmap Z Z) (root n0 n1 newsz xperm : Z).
(** Either the new size fits below page [top], or there is more room there than
    the machine has pages. *)
Context (top : Z) (Htop : top ≤ 67108864) (Hn0 : 0 ≤ n0 ≤ n1) (Hn1 : n1 = npages newsz) (Hsz : 0 ≤ newsz)
  (Hroom : n1 ≤ top ∨ n0 + 32768 < top) (Hx : 0 ≤ xperm < 1024) (HD0 : ∀ v, n0 ≤ v < n1 → v < top → D0 !! v = None).

Definition uperm : Z := Z.lor (Z.lor PTE_R PTE_U) xperm.
Abbreviation grown := (grown kend s0 L0 T0 D0 root n0 (λ _, uperm) (λ _ _, 0)).

Lemma uperm_range : 0 ≤ uperm < 1024.
Proof. apply lor_1024; [done|exact Hx]. Qed.

Lemma uperm_leaf : Z.lor uperm PTE_V ≠ PTE_V.
Proof.
  intros He. apply (f_equal (λ x, Z.testbit x 1)) in He. revert He. unfold uperm.
  by rewrite !Z.lor_spec.
Qed.

Lemma grown_bound k lim s L T D : grown k lim s L T D → n0 + Z.of_nat k ≤ n1 →
  n0 + Z.of_nat k ≤ top ∧ (n0 + Z.of_nat k < n1 → n0 + Z.of_nat k < top).
Proof using Hend Hroom.
  intros Hg Hk. destruct Hroom as [?|Hr]; [lia|].
  pose proof (pages_bound kend Hend _ (gw_nodup _ _ _ _ _ _ _ _ _ _ _ _ _ _ _ Hg)
    (λ p Hp, proj1 (gw_own _ _ _ _ _ _ _ _ _ _ _ _ _ _ _ Hg p Hp))) as Hl.
  unfold dpages in Hl. rewrite length_fmap, length_vrange in Hl. lia.
Qed.

Lemma uvmalloc_back k s L T D (Q : Z → kmem → Prop) :
  grown k ∅ s L T D → n0 + Z.of_nat k ≤ n1 → (∀ r s' L', grown O ∅ s' L' T D0 → Q r s') →
  wp (uvmdealloc kend root (4096 * (n0 + Z.of_nat k)) (4096 * n0)) s Q.
Proof.
  intros Hg Hk HQ. destruct (grown_bound _ _ _ _ _ _ Hg Hk) as [Hn _]. unfold uvmdealloc.
  destruct (Z.geb_spec (4096 * n0) (4096 * (n0 + Z.of_nat k))) as [Hge|Hlt].
  { assert (k = O) as -> by lia. wp_step. apply (HQ _ s L). eapply grown_zero. exact Hg. }
  rewrite !PGROUNDUP_npages by (unfold NVPN; lia). unfold npages. change PGSIZE with 4096.
  replace ((4096 * n0 + 4095) / 4096) with n0 by zlia.
  replace ((4096 * (n0 + Z.of_nat k) + 4095) / 4096) with (n0 + Z.of_nat k) by zlia.
  replace ((4096 * (n0 + Z.of_nat k) - 4096 * n0) / 4096) with (Z.of_nat k) by zlia.
  rewrite (proj2 (Z.ltb_lt _ _)) by lia. cbn [mwhen]. rewrite s32_small, u64_small by lia. wp_step.
  eapply (grown_undo kend Hend s0 L0 T0 D0 root n0 (λ _, uperm)); [intros; apply uperm_range|exact Hg|lia| | | |].
  - change (NVPN / 2) with 67108864. lia.
  - intros _ _. apply uperm_leaf.
  - intros v Hv. apply HD0; lia.
  - intros s' L' Hg'. wp_step. by eapply HQ.
Qed.

Lemma uvmalloc_loop_spec fuel : ∀ k s L T D (Q : Z → kmem → Prop),
  grown k ∅ s L T D → (length L0 ≤ length L + 3 * k)%nat → n0 + Z.of_nat k ≤ n1 →
  n1 - (n0 + Z.of_nat k) < Z.of_nat fuel →
  (∀ s' L' T' D', grown (Z.to_nat (n1 - n0)) ∅ s' L' T' D' → (length L0 ≤ length L' + 3 * Z.to_nat (n1 - n0))%nat → Q newsz s') →
  (∀ s' L' T', grown O ∅ s' L' T' D0 → Z.of_nat (length L0) < 3 * (n1 - n0) → Q 0 s') →
  wp (uvmalloc_loop kend fuel root (4096 * (n0 + Z.of_nat k)) (4096 * n0) newsz xperm) s Q.
Proof.
  induction fuel as [|fuel IH]; intros k s L T D Q Hg Hlen Hk Hf HQ1 HQ0; [lia|].
  destruct (grown_bound _ _ _ _ _ _ Hg Hk) as [_ Hn]. cbn [uvmalloc_loop].
  destruct (Z.ltb_spec (4096 * (n0 + Z.of_nat k)) newsz) as [Hlt|Hge].
  2:{ replace (Z.to_nat (n1 - n0)) with k in HQ1 by (unfold npages in Hn1; zlia). wp_step. eapply HQ1; [exact Hg|lia]. }
  assert (n0 + Z.of_nat k < n1) as Hk1 by (rewrite Hn1; unfold npages; zlia). specialize (Hn Hk1).
  wp_step. eapply (grown_kalloc kend Hend s0 L0 T0 D0 root n0 (λ _, uperm)); [intros; apply uperm_range|exact Hg|].
  destruct L as [|p L].
  { cbn [Z.eqb]. wp_step. eapply uvmalloc_back; [exact Hg|lia|]. intros r s' L' Hg'. wp_step. eapply HQ0; [exact Hg'|].
    cbn in Hlen. lia. }
  intros s1 Hg1 Hp0. rewrite (proj2 (Z.eqb_neq _ _)) by done. unfold zero_page. rewrite (proj2 (Z.eqb_neq _ _)) by done.
  wp_step. wp_step. wp_step. change PGSIZE with 4096.
  eapply (grown_map kend Hend s0 L0 T0 D0 root n0 (λ _, uperm) (λ _ _, 0)); [intros; apply uperm_range| |lia| | | | |].
  - eapply grown_fill; [done|intros; apply uperm_range|exact Hg1| |].
    + apply bytes_memset. apply (as_k _ _ _ _ _ _ (gw_as _ _ _ _ _ _ _ _ _ _ _ _ _ _ _ Hg1)).
    + intros a Ha. rewrite ld_memset, decide_False; [done|]. specialize (Ha p ltac:(by apply elem_of_singleton)).
      unfold in_page in Ha. unfold PGN, PGSIZE. lia.
  - change (NVPN / 2) with 67108864. lia.
  - apply HD0; lia.
  - intros i Hi. cbn [k_mem kset_mem]. rewrite ld_memset, decide_True; [done|]. unfold PGN, PGSIZE. lia.
  - intros s' L' T' D' Hg' Hl. cbn [Z.eqb negb]. change PGSIZE with 4096. rewrite u64_small by lia.
    replace (4096 * (n0 + Z.of_nat k) + 4096) with (4096 * (n0 + Z.of_nat (S k))) by lia.
    eapply IH; [exact Hg'| |lia|lia|done|done]. cbn [length] in Hlen. lia.
  - intros s' T' Hg' Hl. cbn [Z.eqb negb]. wp_step.
    eapply grown_kfree; [done|intros; apply uperm_range|exact Hg'|]. intros s2 Hg2. wp_step.
    eapply uvmalloc_back; [exact Hg2|lia|]. intros r s3 L3 Hg3. wp_step. eapply HQ0; [exact Hg3|].
    cbn [length] in Hlen. lia.
Qed.
End alloc.

(** Any new size: beyond page [top] memory runs out first. *)
Lemma uvmalloc_any s L T D root oldsz newsz xperm top (Q : Z → kmem → Prop) :
  aspace s L T D root → 0 ≤ oldsz ≤ newsz → top ≤ 67108864 → 0 ≤ xperm < 1024 →
  let n0 := npages oldsz in let n1 := npages newsz in
  oldsz < 4096 * NVPN → n1 ≤ top ∨ n0 + 32768 < top → (∀ v, n0 ≤ v < n1 → v < top → D !! v = None) →
  (∀ s' L' T' D', grown kend s L T D root n0 (λ _, uperm xperm) (λ _ _, 0) (Z.to_nat (n1 - n0)) ∅ s' L' T' D' →
     (length L ≤ length L' + 3 * Z.to_nat (n1 - n0))%nat → Q newsz s') →
  (∀ s' L' T', grown kend s L T D root n0 (λ _, uperm xperm) (λ _ _, 0) O ∅ s' L' T' D →
     Z.of_nat (length L) < 3 * (n1 - n0) → Q 0 s') →
  wp (uvmalloc kend root oldsz newsz xperm) s Q.
Proof.
  intros Has Hold Htop Hx n0 n1 Hlow Hroom HD HQ1 HQ0. unfold uvmalloc. rewrite (proj2 (Z.ltb_ge _ _)) by lia.
  rewrite PGROUNDUP_npages by lia. fold n0. cbv zeta.
  replace (4096 * n0) with (4096 * (n0 + Z.of_nat 0)) at 2 by lia. change PGSIZE with 4096.
  apply (uvmalloc_loop_spec s L T D root n0 n1 newsz xperm top Htop) with (L := L) (T := T) (D := D); try done; try lia.
  - unfold n0, n1, npages. zlia.
  - by apply grown_start.
  - unfold n0, n1, npages. zlia.
  - unfold n0, n1, npages. zlia.
Qed.

Lemma uvmalloc_spec s L T D root oldsz newsz xperm (Q : Z → kmem → Prop) :
  aspace s L T D root → 0 ≤ oldsz ≤ newsz → newsz ≤ 4096 * (NVPN / 2) → 0 ≤ xperm < 1024 →
  let n0 := npages oldsz in let n1 := npages newsz in
  (∀ v, n0 ≤ v < n1 → D !! v = None) →
  (∀ s' L' T' D', grown kend s L T D root n0 (λ _, uperm xperm) (λ _ _, 0) (Z.to_nat (n1 - n0)) ∅ s' L' T' D' → Q newsz s') →
  (∀ s' L' T', grown kend s L T D root n0 (λ _, uperm xperm) (λ _ _, 0) O ∅ s' L' T' D →
     Z.of_nat (length L) < 3 * (n1 - n0) → Q 0 s') →
  wp (uvmalloc kend root oldsz newsz xperm) s Q.
Proof.
  change (NVPN / 2) with 67108864. intros Has Hold Hnew Hx n0 n1 HD HQ1 HQ0.
  apply (uvmalloc_any s L T D root oldsz newsz xperm 67108864); [done|done|done|done|unfold NVPN; lia| | | |done].
  - left. unfold npages. zlia.
  - intros v Hv _. by apply HD.
  - intros s' L' T' D' Hg _. by eapply HQ1.
Qed.

(** ** [uvmcopy] *)
Section copy.
Context (s0 : kmem) (L0 : list Z) (T0 : gmap (list Z) Z) (D0 : gmap Z Z) (new : Z).
Context (To : gmap (list Z) Z) (Do : gmap Z Z) (old n sz : Z).

Definition oldpte (v : Z) : Z := default 0 (Do !! v).
Definition operm (v : Z) : Z := PTE_FLAGS (oldpte v).
Definition ocontent (v i : Z) : Z := ld (k_mem s0) (PTE2PA (oldpte v) + i).
Abbreviation grown := (grown kend s0 L0 T0 D0 new 0 operm ocontent).

(** The parent's tables and pages are apart from the child's. *)
Record parent : Prop := {
  pa_as : aspace s0 L0 To Do old;
  pa_tab p : p ∈ tpages To → p ∉ rest L0 T0 ∅;
  pa_map v : 0 ≤ v < n → mapped Do v;
  pa_page v : 0 ≤ v < n → page_ok kend (PTE2PA (oldpte v)) ∧ PTE2PA (oldpte v) ∉ rest L0 T0 ∅
}.

Context (Hpar : parent) (Hn : n = npages sz) (Hsz : 0 ≤ sz ≤ 4096 * (NVPN / 2))
  (HD0 : ∀ v, 0 ≤ v < n → D0 !! v = None) (Has0 : aspace s0 L0 T0 D0 new).

Lemma operm_range v : 0 ≤ operm v < 1024.
Proof. unfold operm. rewrite PTE_FLAGS_mod. by apply Z.mod_pos_bound. Qed.

Lemma rest0_page p : p ∈ rest L0 T0 ∅ → page_ok kend p.
Proof. eapply rest_page. by apply (grown_start kend s0 L0 T0 D0 new 0 operm ocontent). Qed.

(** Copying does not disturb the parent. *)
Lemma parent_same k lim s L T D p a :
  grown k lim s L T D → page_ok kend p → p ∉ rest L0 T0 ∅ → in_page p a → ld (k_mem s) a = ld (k_mem s0) a.
Proof.
  intros Hg Hp Hnot Ha. apply (gw_out _ _ _ _ _ _ _ _ _ _ _ _ _ _ _ Hg). intros q Hq Ha'. apply Hnot.
  replace p with q; [done|]. apply (pages_disjoint kend q p a); [by apply rest0_page|done..].
Qed.

Lemma parent_kept k lim s L T D : grown k lim s L T D → aspace s L To Do old.
Proof.
  intros Hg. eapply (aspace_frame kend s0); [apply Hpar|apply (gw_as _ _ _ _ _ _ _ _ _ _ _ _ _ _ _ Hg)| |].
  - intros l p Hp Hin. apply (pa_tab Hpar p); [apply tpages_elem; eauto|].
    rewrite (gw_set _ _ _ _ _ _ _ _ _ _ _ _ _ _ _ Hg), elem_of_union, elem_of_rest. tauto.
  - intros l p a Hp Ha. eapply parent_same; [exact Hg| | |exact Ha].
    + by eapply (pt_page _ _ _ _ (as_tab _ _ _ _ _ _ (pa_as Hpar))).
    + apply (pa_tab Hpar), tpages_elem. eauto.
Qed.

Lemma copied_page k s L T D p v m :
  grown k {[p]} s L T D → 0 ≤ v < n → m = memmove (k_mem s) p (PTE2PA (oldpte v)) PGN →
  grown k {[p]} (kset_mem m s) L T D ∧ ∀ i, 0 ≤ i < 4096 → ld m (p + i) = ocontent v i.
Proof.
  intros Hg Hv ->. assert (bytes_mem (k_mem s)) as Hb by apply (as_k _ _ _ _ _ _ (gw_as _ _ _ _ _ _ _ _ _ _ _ _ _ _ _ Hg)).
  destruct (pa_page Hpar v Hv) as [Hpg Hnot]. split.
  - eapply grown_fill; [done|apply operm_range|exact Hg|by apply bytes_memmove|].
    intros a Ha. rewrite ld_memmove, decide_False; [done| |done]. specialize (Ha p ltac:(by apply elem_of_singleton)).
    unfold in_page in Ha. unfold PGN, PGSIZE. lia.
  - intros i Hi. rewrite ld_memmove, decide_True; [|unfold PGN, PGSIZE; lia|done].
    replace (p + i - p) with i by lia. unfold ocontent.
    eapply (parent_same _ _ _ _ _ _ (PTE2PA (oldpte v))); [exact Hg|done|done|unfold in_page; lia].
Qed.

Lemma n_bound : 0 ≤ n ≤ 67108864.
Proof using Hn Hsz. clear Hpar HD0 Has0. change (NVPN / 2) with 67108864 in Hsz. rewrite Hn. unfold npages. zlia. Qed.

Lemma uvmcopy_loop_spec fuel : ∀ k s L T D (Q : Z * Z → kmem → Prop),
  grown k ∅ s L T D → (length L0 ≤ length L + 3 * k)%nat → Z.of_nat k ≤ n → n - Z.of_nat k < Z.of_nat fuel →
  (∀ s' L' T' D' i, grown (Z.to_nat n) ∅ s' L' T' D' → Q (0, i) s') →
  (∀ s' L' T' D' j, grown j ∅ s' L' T' D' → Z.of_nat j < n → Z.of_nat (length L0) < 3 * n → Q (-1, 4096 * Z.of_nat j) s') →
  wp (uvmcopy_loop kend fuel old new (4096 * Z.of_nat k) sz) s Q.
Proof.
  induction fuel as [|fuel IH]; intros k s L T D Q Hg Hlen Hk Hf HQ0 HQ1; [lia|].
  pose proof n_bound as Hnb. cbn [uvmcopy_loop].
  destruct (Z.ltb_spec (4096 * Z.of_nat k) sz) as [Hlt|Hge].
  2:{ wp_step. eapply HQ0. replace (Z.to_nat n) with k by (unfold npages in Hn; zlia). exact Hg. }
  assert (Z.of_nat k < n) as Hk1 by (rewrite Hn; unfold npages; zlia).
  destruct (pa_map Hpar (Z.of_nat k)) as (e & He & Hfl); [lia|].
  assert (oldpte (Z.of_nat k) = e) as Hoe by (unfold oldpte; by rewrite He).
  wp_step. eapply (walk_mapped kend Hend s L To Do old (Z.of_nat k)); [by eapply parent_kept|change (NVPN / 2) with 67108864; lia|exact He|].
  intros pt _ Hpt0 Hld HV. rewrite Hpt0. unfold ldp. wp_step. wp_step. rewrite Hld, HV. cbn [negb]. wp_step.
  eapply (grown_kalloc kend Hend s0 L0 T0 D0 new 0 operm); [apply operm_range|exact Hg|]. destruct L as [|p L].
  { cbn [Z.eqb]. wp_step. cbn in Hlen. eapply HQ1; [exact Hg|lia|lia]. }
  intros s1 Hg1 Hp0. rewrite (proj2 (Z.eqb_neq _ _)) by done. wp_step. wp_step. wp_step. change PGSIZE with 4096.
  replace (u32 (PTE_FLAGS e)) with (operm (Z.of_nat k)).
  2:{ unfold operm. rewrite Hoe, u32_small; [done|]. rewrite PTE_FLAGS_mod. zlia. }
  destruct (copied_page k s1 L T D p (Z.of_nat k) _ Hg1 ltac:(lia) eq_refl) as [Hg2 Hc]. rewrite Hoe in Hg2, Hc.
  eapply (grown_map kend Hend s0 L0 T0 D0 new 0 operm ocontent operm_range k _ L T D p); [exact Hg2|lia| | |exact Hc| |].
  - change (NVPN / 2) with 67108864. lia.
  - apply HD0. lia.
  - intros s' L' T' D' Hg' Hl. cbn [Z.eqb negb]. rewrite u64_small by lia.
    replace (4096 * Z.of_nat k + 4096) with (4096 * Z.of_nat (S k)) by lia.
    eapply IH; [exact Hg'| |lia|lia|done|done]. cbn [length] in Hlen. lia.
  - intros s' T' Hg' Hl. cbn [Z.eqb negb]. wp_step.
    eapply grown_kfree; [done|apply operm_range|exact Hg'|]. intros s2 Hg3. wp_step.
    eapply HQ1; [exact Hg3|lia|]. cbn [length] in Hlen. lia.
Qed.

Lemma uvmcopy_spec (Q : Z → kmem → Prop) :
  (∀ s' L' T' D', grown (Z.to_nat n) ∅ s' L' T' D' → Q 0 s') →
  (∀ s' L' T', grown O ∅ s' L' T' D0 → Z.of_nat (length L0) < 3 * n → Q (-1) s') →
  wp (uvmcopy kend old new sz) s0 Q.
Proof.
  intros HQ0 HQ1. pose proof n_bound as Hnb. unfold uvmcopy. wp_step. change 0 with (4096 * Z.of_nat 0) at 1.
  change (NVPN / 2) with 67108864 in Hsz.
  apply (uvmcopy_loop_spec _ O) with (L := L0) (T := T0) (D := D0); [by apply grown_start|lia|lia| | |].
  - rewrite Hn. unfold npages. change PGSIZE with 4096. zlia.
  - intros s' L' T' D' i Hg. cbn [Z.eqb]. wp_step. by eapply HQ0.
  - intros s' L' T' D' j Hg Hj Hl. cbn [Z.eqb]. change PGSIZE with 4096. rewrite Z.mul_comm, Z.div_mul by done. wp_step.
    change 0 with (4096 * 0). eapply (grown_undo kend Hend s0 L0 T0 D0 new 0 operm); [apply operm_range|exact Hg|lia| | | |].
    + change (NVPN / 2) with 67108864. lia.
    + intros v Hv. destruct (pa_map Hpar v) as (e & He & Hfl); [lia|]. unfold operm, oldpte. rewrite He. cbn [default from_option id].
      intros Heq. apply Hfl. destruct (as_dom _ _ _ _ _ _ (pa_as Hpar) v e He) as [_ HV]. by rewrite flags_lor_V in Heq.
    + intros v Hv. apply HD0. lia.
    + intros s2 L2 Hg2. wp_step. by eapply HQ1.
Qed.
End copy.
End grow.
