(* ===== verification/VmFree.v ===== *)
(** * Freeing an address space

    [freewalk] and [uvmfree] of kernel/vm.c give back every table and page. *)
From Stdlib Require Import ZArith Lia.
From stdpp Require Import prelude gmap strings.
From S2P Require Import Prelude Bytes Param Str Riscv PhysMem Kalloc Vm VmSpec VmMap VmGrow.

#[local] Opaque memset st64 memmove.

Lemma table_not_leaf q : Z.land (Z.lor (PA2PTE q) PTE_V) (Z.lor (Z.lor PTE_R PTE_W) PTE_X) = 0.
Proof.
  rewrite Z.land_lor_distr_l. change (Z.land PTE_V _) with 0. rewrite Z.lor_0_r, PA2PTE_div.
  apply Z.bits_inj'. intros b Hb. rewrite Z.land_spec, Z.bits_0. destruct (decide (b < 10)) as [Hl|Hl].
  - change 1024 with (2 ^ 10). by rewrite Z.mul_pow2_bits_low.
  - change (Z.lor (Z.lor PTE_R PTE_W) PTE_X) with 14. rewrite <-(Z.mod_small 14 (2 ^ 10)), Z.mod_pow2_bits_high by lia. apply andb_false_r.
Qed.

Section free.
Context (kend : Z) (Hend : KERNBASE ≤ kend).
Implicit Types (s : kmem) (L : list Z) (m : mem) (T : gmap (list Z) Z) (D : gmap Z Z).
Abbreviation aspace := (aspace kend).

Section walk.
Context (T : gmap (list Z) Z) (m0 : mem) (root : Z) (Ht : ptab kend m0 T root).

(** The entries of every table at or below [l] are as in [T], with no leaf. *)
Definition intact m (l : list Z) : Prop := ∀ l' q i,
  T !! (l ++ l') = Some q → 0 ≤ i < 512 →
  match T !! ((l ++ l') ++ [i]) with
  | Some r => ld64 m (pte_at q i) = Z.lor (PA2PTE r) PTE_V
  | None => flag (ld64 m (pte_at q i)) PTE_V = false
  end.

(** [F] are the tables at or below [l]. *)
Definition below (l : list Z) (F : list Z) : Prop := ∀ q, q ∈ F ↔ ∃ l', T !! (l ++ l') = Some q.

(** [F] are the tables below the first [n] entries of the table [l]. *)
Definition below_first (l : list Z) (n : nat) (F : list Z) : Prop := ∀ q,
  q ∈ F ↔ ∃ j l', 0 ≤ j < Z.of_nat n ∧ T !! ((l ++ [j]) ++ l') = Some q.

Lemma intact_ext m m' l :
  (∀ l' q a, T !! (l ++ l') = Some q → in_page q a → ld m' a = ld m a) → intact m l → intact m' l.
Proof.
  intros Hm Hi l' q i Hq Hr. specialize (Hi l' q i Hq Hr).
  rewrite (ld64_page m m' q i Hr); [done|]. intros a. by eapply Hm.
Qed.

Lemma intact_child m l i : intact m l → intact m (l ++ [i]).
Proof. intros Hi l' q j. rewrite <-app_assoc. apply Hi. Qed.

Lemma page_apart l l' q r a :
  T !! l = Some q → T !! l' = Some r → l ≠ l' → in_page q a → in_page r a → False.
Proof.
  intros Hq Hr Hne Ha Ha'. apply Hne. assert (q = r) as ->; [|by eapply (pt_inj _ _ _ _ Ht)].
  eapply (pages_disjoint kend); [by eapply (pt_page _ _ _ _ Ht)|by eapply (pt_page _ _ _ _ Ht)|done|done].
Qed.

Lemma below_cons l p F : T !! l = Some p → below_first l 512 F → below l (p :: F).
Proof.
  intros Hp HF q. rewrite elem_of_cons, (HF q). split.
  - intros [->|(j & l' & _ & Hq)]; [exists []; by rewrite app_nil_r|]. exists (j :: l'). by rewrite <-app_assoc in Hq.
  - intros ([|j l'] & Hq); [left; rewrite app_nil_r in Hq; congruence|]. right. exists j, l'.
    rewrite <-app_assoc. split; [|done]. destruct (pt_path _ _ _ _ Ht _ _ Hq) as [_ Hf].
    apply Forall_app in Hf as [_ Hf]. apply Forall_cons in Hf as [? _]. lia.
Qed.

(** The state of the loop of [freewalk] on table [p] before entry [i]. *)
Record walking (s : kmem) L (l : list Z) (p : Z) (i : nat) (s' : kmem) : Prop := {
  wk_F : ∃ F, below_first l i F ∧ kmem_ok kend s' (F ++ L);
  wk_entry j : Z.of_nat i ≤ j < 512 → ld64 (k_mem s') (pte_at p j) = ld64 (k_mem s) (pte_at p j);
  wk_out a : (∀ j l' q, 0 ≤ j < Z.of_nat i → T !! ((l ++ [j]) ++ l') = Some q → ¬ in_page q a) → ¬ in_page p a →
    ld (k_mem s') a = ld (k_mem s) a
}.

Lemma below_first_S l n F G :
  below_first l n F → below (l ++ [Z.of_nat n]) G → below_first l (S n) (G ++ F).
Proof.
  intros HF HG q. rewrite elem_of_app, (HF q), (HG q). split.
  - intros [(l' & Hq)|(j & l' & Hj & Hq)]; [exists (Z.of_nat n), l'|exists j, l']; (split; [lia|done]).
  - intros (j & l' & Hj & Hq). destruct (decide (j = Z.of_nat n)) as [->|Hne]; [left; eauto|].
    right. exists j, l'. split; [lia|done].
Qed.

Lemma below_first_skip l n F :
  below_first l n F → T !! (l ++ [Z.of_nat n]) = None → below_first l (S n) F.
Proof.
  intros HF Hn q. rewrite (HF q). split; intros (j & l' & Hj & Hq); exists j, l'; (split; [|done]); [lia|].
  destruct (decide (j = Z.of_nat n)) as [->|Hne]; [|lia]. exfalso. revert q Hq.
  induction l' as [|x l' IH] using rev_ind; intros q Hq; [rewrite app_nil_r in Hq; congruence|].
  rewrite app_assoc in Hq. apply (pt_parent _ _ _ _ Ht) in Hq as [r Hr]. by eapply IH.
Qed.

(** What [freewalk] does to the table at [l]. *)
Definition frees (fuel : nat) : Prop := ∀ l p s L (Q : unit → kmem → Prop),
  T !! l = Some p → (length l + fuel = 3)%nat → kmem_ok kend s L →
  (∀ l' q, T !! (l ++ l') = Some q → q ∉ L) → intact (k_mem s) l →
  (∀ s' F, below l F → kmem_ok kend s' (F ++ L) → outside (list_to_set F) (k_mem s) (k_mem s') → Q tt s') →
  wp (freewalk kend fuel p) s Q.

Lemma child_ne (l : list Z) i j l1 l2 : (l ++ [i]) ++ l1 = (l ++ [j]) ++ l2 → i = j.
Proof. rewrite <-!app_assoc. intros Heq%app_inv_head. cbn in Heq. congruence. Qed.

Lemma self_ne (l : list Z) i l1 : (l ++ [i]) ++ l1 ≠ l.
Proof. intros Heq%(f_equal length). rewrite !length_app in Heq. cbn in Heq. lia. Qed.

(** A child is freed and its entry cleared. *)
Lemma walking_child s L l p i s1 F G s2 r :
  T !! l = Some p → (i < 512)%nat → p ∉ L → T !! (l ++ [Z.of_nat i]) = Some r →
  walking s L l p i s1 → below_first l i F → kmem_ok kend s1 (F ++ L) →
  below (l ++ [Z.of_nat i]) G → kmem_ok kend s2 (G ++ F ++ L) → outside (list_to_set G) (k_mem s1) (k_mem s2) →
  walking s L l p (S i) (kset_mem (st64 (k_mem s2) (pte_at p (Z.of_nat i)) 0) s2).
Proof.
  intros Hp Hi HpL Hr Hw HF Hk1 HG Hk2 Hout.
  assert (p ∉ G ++ F ++ L) as Hnin.
  { intros [Hin|[Hin|Hin]%elem_of_app]%elem_of_app; [apply HG in Hin as (l' & Hq)|apply HF in Hin as (j & l' & _ & Hq)|done];
      by eapply self_ne, (pt_inj _ _ _ _ Ht). }
  assert (∀ a, in_page p a → ld (k_mem s2) a = ld (k_mem s1) a) as Hsame.
  { intros a Ha. apply Hout. intros q Hq%elem_of_list_to_set Ha'. apply HG in Hq as (l' & Hq).
    eapply (page_apart _ l q p a Hq Hp); [apply self_ne|done|done]. }
  split.
  - exists (G ++ F). split; [by apply below_first_S|]. rewrite <-app_assoc. apply kmem_ok_mem; [done|apply bytes_st64, Hk2|].
    intros q a Hq Ha. apply ld_st64_ne.
    destruct (decide (pte_at p (Z.of_nat i) ≤ a < pte_at p (Z.of_nat i) + 8)) as [Hx|]; [|lia]. exfalso.
    apply Hnin. replace p with q; [done|]. apply (pages_disjoint kend q p a); [by eapply flist_pages|by eapply (pt_page _ _ _ _ Ht)|done|].
    apply (pte_page p (Z.of_nat i)); [lia|done].
  - intros j Hj. cbn [k_mem kset_mem]. rewrite ld64_st64_ne by (unfold pte_at; lia).
    rewrite (ld64_page (k_mem s1) (k_mem s2)); [|lia|done]. apply Hw. lia.
  - intros a Ha Hpa. cbn [k_mem kset_mem]. rewrite ld_st64_ne.
    2:{ destruct (decide (pte_at p (Z.of_nat i) ≤ a < pte_at p (Z.of_nat i) + 8)) as [Hx|]; [|lia].
        destruct Hpa. apply (pte_page p (Z.of_nat i)); [lia|done]. }
    rewrite Hout.
    + apply Hw; [|done]. intros j l' q Hj. apply Ha. lia.
    + intros q Hq%elem_of_list_to_set. apply HG in Hq as (l' & Hq). apply (Ha (Z.of_nat i) l' q); [lia|done].
Qed.

Lemma walking_body fuel s L l p i s1 :
  frees fuel → T !! l = Some p → (length l + S fuel = 3)%nat → (i < 512)%nat →
  (∀ l' q, T !! (l ++ l') = Some q → q ∉ L) → intact (k_mem s) l → walking s L l p i s1 →
  let a := pte_at p (Z.of_nat i) in
  wp (pte ← ldp a;
      if flag pte PTE_V && (Z.land pte (Z.lor (Z.lor PTE_R PTE_W) PTE_X) =? 0) then freewalk kend fuel (PTE2PA pte) ;; stp a 0
      else if flag pte PTE_V then panic "freewalk: leaf" else mret tt) s1 (λ _ s2, walking s L l p (S i) s2).
Proof.
  intros Hfree Hp Hlen Hi HL Hint Hw. cbv zeta. unfold ldp, stp. wp_step. wp_step.
  rewrite (wk_entry _ _ _ _ _ _ Hw) by lia. pose proof (Hint [] p (Z.of_nat i)) as He. rewrite !app_nil_r in He.
  specialize (He Hp ltac:(lia)). destruct (wk_F _ _ _ _ _ _ Hw) as (F & HF & Hk1).
  destruct (T !! (l ++ [Z.of_nat i])) as [r|] eqn:Hr.
  - rewrite He, flag_V_lor, table_not_leaf. cbn [andb Z.eqb].
    rewrite (table_entry kend Hend) by (by eapply (pt_page _ _ _ _ Ht)). wp_step.
    apply (Hfree (l ++ [Z.of_nat i]) r s1 (F ++ L)); [done|rewrite length_app; cbn; lia|done| | |].
    + intros l' q Hq [Hin|Hin]%elem_of_app; [|by eapply HL, Hin; rewrite app_assoc].
      apply HF in Hin as (j & l2 & Hj & Hq2). pose proof (pt_inj _ _ _ _ Ht _ _ _ Hq Hq2) as Heq%child_ne. lia.
    + eapply intact_ext; [|by apply intact_child]. intros l' q b Hq Hb. apply Hw.
      * intros j l2 q2 Hj Hq2 Hb'. eapply (page_apart _ _ q q2 b Hq Hq2); [|done|done]. intros Heq%child_ne. lia.
      * intros Hb'. eapply (page_apart _ _ q p b Hq Hp); [apply self_ne|done|done].
    + intros s2 G HG Hk2 Hout. wp_step. eapply walking_child; try done. apply (HL []). by rewrite app_nil_r.
  - rewrite He. cbn [andb]. wp_step. split.
    + exists F. split; [by apply below_first_skip|done].
    + intros j Hj. apply Hw. lia.
    + intros b Hb. apply Hw. intros j l' q Hj. apply Hb. lia.
Qed.

Lemma freewalk_spec fuel : frees fuel.
Proof.
  induction fuel as [|fuel IH]; intros l p s L Q Hp Hlen Hk HL Hint HQ.
  { destruct (pt_path _ _ _ _ Ht l p Hp). lia. }
  cbn [freewalk]. wp_step. assert (p ∉ L) as HpL by (apply (HL []); by rewrite app_nil_r).
  eapply wp_mono; [eapply (wp_mfor_seq 512 _ (walking s L l p))|].
  - split; [|done|done]. exists []. split; [|done]. intros q. rewrite elem_of_nil. split; [done|]. intros (j & l' & Hj & _). lia.
  - intros i s1 Hi Hw. by eapply walking_body.
  - intros [] s1 [(F & HF & Hk1) _ Hout].
    assert (page_ok kend p) as Hpok by (by eapply (pt_page _ _ _ _ Ht)).
    apply (kfree_spec kend Hend s1 (F ++ L)); [done|done| |].
    { intros [Hin|Hin]%elem_of_app; [|done]. apply HF in Hin as (j & l' & _ & Hq). by eapply self_ne, (pt_inj _ _ _ _ Ht). }
    intros s2 Hk2 Hout2. apply (HQ s2 (p :: F)); [by apply below_cons|done|].
    intros a Ha. rewrite Hout2 by (apply Ha, elem_of_list_to_set; left). apply Hout.
    + intros j l' q Hj Hq. apply Ha, elem_of_list_to_set. right. apply HF. exists j, l'. split; [lia|done].
    + apply Ha, elem_of_list_to_set. left.
Qed.
End walk.

Lemma intact_empty s L T root : aspace s L T ∅ root → intact T (k_mem s) [].
Proof.
  intros Has l q i Hq Hi. cbn [app] in *. pose proof (as_tab _ _ _ _ _ _ Has) as Ht.
  destruct (pt_path _ _ _ _ Ht l q Hq) as [Hlen Hf]. destruct (decide (length l < 2)%nat) as [Hl|Hl].
  { by apply (pt_entry _ _ _ _ Ht). }
  destruct l as [|i2 [|i1 [|]]]; cbn in Hl, Hlen; try lia. apply Forall_cons in Hf as [H2 Hf]. apply Forall_cons in Hf as [H1 _].
  destruct (T !! ([i2; i1] ++ [i])) as [r|] eqn:Hr.
  { destruct (pt_path _ _ _ _ Ht _ _ Hr) as [Hx _]. cbn in Hx. lia. }
  set (vpn := i2 * 262144 + i1 * 512 + i).
  assert (path 0 vpn = [i2; i1] ∧ ix 0 vpn = i) as [Hpath Hix].
  { unfold path, ix, vpn. change (512 ^ Z.of_nat 2) with 262144. change (512 ^ Z.of_nat 1) with 512.
    change (512 ^ Z.of_nat 0) with 1. split; [f_equal; [zlia|f_equal; zlia]|zlia]. }
  pose proof (as_pte _ _ _ _ _ _ Has vpn) as Hpte. unfold pte_of in Hpte. rewrite Hpath, Hq, Hix, lookup_empty in Hpte.
  rewrite Hpte by (unfold vpn, NVPN; lia). cbn [default from_option]. by rewrite flag_0.
Qed.

(** [uvmfree]: every page the process had is free again. *)
Lemma uvmfree_spec s L T D root sz (Q : unit → kmem → Prop) :
  aspace s L T D root → 0 ≤ sz ≤ 4096 * (NVPN / 2) →
  let k := Z.to_nat (npages sz) in
  (∀ v, is_Some (D !! v) ↔ 0 ≤ v < Z.of_nat k) → (∀ v, 0 ≤ v < Z.of_nat k → mapped D v) → owns kend L T D (vrange 0 k) →
  (∀ s' L', kmem_ok kend s' L' →
     list_to_set L' =@{gset Z} list_to_set L ∪ tpages T ∪ list_to_set (dpages D (vrange 0 k)) →
     outside (tpages T ∪ list_to_set (dpages D (vrange 0 k))) (k_mem s) (k_mem s') → Q tt s') →
  wp (uvmfree kend root sz) s Q.
Proof.
  change (NVPN / 2) with 67108864. intros Has Hsz k Hdom Hmap Hown HQ. unfold uvmfree. wp_step.
  assert (∀ s1, aspace s1 (reverse (dpages D (vrange 0 k)) ++ L) T ∅ root →
    outside (tpages T ∪ list_to_set (dpages D (vrange 0 k))) (k_mem s) (k_mem s1) → wp (freewalk kend 3 root) s1 Q) as Hrest.
  { intros s1 Has1 Hout1. pose proof (as_tab _ _ _ _ _ _ Has1) as Ht.
    eapply (freewalk_spec T _ root Ht 3 [] root s1); [apply Ht|done|apply Has1| |by eapply intact_empty|].
    - intros l q Hq. by eapply (as_free _ _ _ _ _ _ Has1).
    - intros s2 F HF Hk2 Hout2. assert (list_to_set F =@{gset Z} tpages T) as HFT.
      { apply set_eq. intros q. rewrite elem_of_list_to_set, (HF q), tpages_elem. done. }
      apply (HQ s2 _ Hk2).
      + rewrite !list_to_set_app_L, HFT. apply set_eq. intros q. rewrite !elem_of_union, !elem_of_list_to_set, elem_of_reverse. tauto.
      + eapply outside_trans; [exact Hout1|]. eapply outside_mono; [|exact Hout2]. rewrite HFT. apply union_subseteq_l. }
  assert (unmap_range D 0 k = ∅) as HD.
  { apply map_eq. intros v. rewrite lookup_unmap_range, lookup_empty. case_decide as Hv; [done|].
    apply eq_None_not_Some. rewrite Hdom. lia. }
  destruct (Z.gtb_spec sz 0) as [Hpos|Hzero]; cbn [mwhen].
  - rewrite PGROUNDUP_npages by (unfold NVPN; lia). change PGSIZE with 4096. rewrite Z.mul_comm, Z.div_mul by done.
    change 0 with (4096 * 0) at 1. replace (npages sz) with (Z.of_nat k) by (unfold k, npages; zlia).
    apply (uvmunmap_spec kend Hend s L T D root 0 k true); [done|lia| |done|done|].
    + change (NVPN / 2) with 67108864. unfold k, npages. zlia.
    + rewrite HD. intros s1 Has1 Hout1. by apply Hrest.
  - wp_step. assert (k = O) as Hk by (unfold k, npages; zlia). rewrite Hk in *. apply Hrest; [by rewrite <-HD|done].
Qed.
End free.
