(* ===== verification/VmCopy.v ===== *)
(** * Copying between the kernel and a process

    [copyout], [copyin] and [copyinstr] of kernel/vm.c go page by page through
    the page table. The reference definitions here go byte by byte through the
    address space [D], and are an instance of the interface the file system
    uses. *)
From Stdlib Require Import ZArith Lia.
From stdpp Require Import prelude gmap strings.
From S2P Require Import Prelude Bytes Param Str Riscv PhysMem Kalloc Vm VmSpec VmMap VmGrow.

#[local] Opaque memset st64 memmove.

(** The physical address of a user address; [need]: the flag the access needs. *)
Definition utrans (D : gmap Z Z) (need : Z) (va : Z) : option Z :=
  match D !! (va / 4096) with
  | Some e => if flag e PTE_U && flag e need then Some (PTE2PA e + va mod 4096) else None
  | None => None
  end.

Fixpoint acopyout (D : gmap Z Z) (m : mem) (va : Z) (l : list Z) : mem * bool :=
  match l with
  | [] => (m, true)
  | b :: l =>
      match utrans D PTE_W va with
      | Some pa => acopyout D (st m pa b) (va + 1) l
      | None => (m, false)
      end
  end.

Fixpoint acopyin (D : gmap Z Z) (m : mem) (va : Z) (n : nat) : list Z * bool :=
  match n with
  | O => ([], true)
  | S n =>
      match utrans D PTE_V va with
      | Some pa => let '(l, ok) := acopyin D m (va + 1) n in (ld m pa :: l, ok)
      | None => ([], false)
      end
  end.

(** The string at [va], with its null byte, if it ends within [n] bytes. *)
Fixpoint acopyinstr (D : gmap Z Z) (m : mem) (va : Z) (n : nat) : option (list Z) :=
  match n with
  | O => None
  | S n =>
      match utrans D PTE_V va with
      | Some pa =>
          if ld m pa =? 0 then Some [0]
          else match acopyinstr D m (va + 1) n with Some l => Some (ld m pa :: l) | None => None end
      | None => None
      end
  end.

(** ** The reference definitions on a stretch within one page *)

Lemma utrans_page D need va e i :
  0 ≤ va → 0 ≤ i → va mod 4096 + i < 4096 → D !! (va / 4096) = Some e →
  flag e PTE_U && flag e need = true → utrans D need (va + i) = Some (PTE2PA e + va mod 4096 + i).
Proof.
  intros H0 Hi Hlt He Hf. unfold utrans. replace ((va + i) / 4096) with (va / 4096) by zlia.
  rewrite He, Hf. f_equal. zlia.
Qed.

Lemma acopyout_app D m va a b :
  acopyout D m va (a ++ b) =
    let '(m', ok) := acopyout D m va a in
    if ok then acopyout D m' (va + Z.of_nat (length a)) b else (m', false).
Proof.
  revert m va. induction a as [|x a IH]; intros m va; cbn [app acopyout length]; [by rewrite Z.add_0_r|].
  destruct (utrans D PTE_W va); [|done]. rewrite IH. destruct (acopyout D (st m z x) (va + 1) a) as [m' []]; [|done].
  f_equal. lia.
Qed.

Lemma acopyout_page D m va e l :
  0 ≤ va → va mod 4096 + Z.of_nat (length l) ≤ 4096 → D !! (va / 4096) = Some e →
  flag e PTE_U && flag e PTE_W = true →
  acopyout D m va l = (st_bytes m (PTE2PA e + va mod 4096) l, true).
Proof.
  intros H0 Hlen He Hf. induction l as [|x l IH] using rev_ind; [done|].
  rewrite length_app in Hlen. cbn [length] in Hlen. rewrite acopyout_app, IH by lia. cbn [acopyout].
  rewrite (utrans_page D PTE_W va e) by (done || lia). by rewrite st_bytes_snoc.
Qed.

Lemma acopyin_app D m va n1 n2 :
  acopyin D m va (n1 + n2) =
    let '(l1, ok) := acopyin D m va n1 in
    if ok then let '(l2, ok2) := acopyin D m (va + Z.of_nat n1) n2 in (l1 ++ l2, ok2) else (l1, false).
Proof.
  revert va. induction n1 as [|n1 IH]; intros va; cbn [Nat.add acopyin].
  { rewrite Z.add_0_r. by destruct (acopyin D m va n2). }
  destruct (utrans D PTE_V va); [|done]. rewrite IH. destruct (acopyin D m (va + 1) n1) as [l1 []]; [|done].
  replace (va + 1 + Z.of_nat n1) with (va + Z.of_nat (S n1)) by lia. by destruct (acopyin D m (va + Z.of_nat (S n1)) n2).
Qed.

Lemma ld_bytes_S m a n : ld_bytes m a (S n) = ld_bytes m a n ++ [ld m (a + Z.of_nat n)].
Proof. unfold ld_bytes. by rewrite seq_S, fmap_app. Qed.

Lemma acopyin_page D m va e n :
  0 ≤ va → va mod 4096 + Z.of_nat n ≤ 4096 → D !! (va / 4096) = Some e →
  flag e PTE_U && flag e PTE_V = true →
  acopyin D m va n = (ld_bytes m (PTE2PA e + va mod 4096) n, true).
Proof.
  intros H0 Hlen He Hf. induction n as [|n IH]; [done|].
  rewrite <-Nat.add_1_r, acopyin_app, IH by lia. cbn [acopyin].
  rewrite (utrans_page D PTE_V va e) by (done || lia). by rewrite Nat.add_1_r, ld_bytes_S.
Qed.

Lemma copystr_bytes p n : bytes_ptr p → (length (fst (copystr p n)) ≤ n)%nat ∧ Forall (λ b, 0 ≤ b < 256) (fst (copystr p n)).
Proof.
  revert p. induction n as [|n IH]; intros p Hp; cbn [copystr]; [done|]. destruct (p O =? 0); [split; [cbn; lia|by repeat constructor]|].
  specialize (IH (advance p 1) (bytes_advance p 1 Hp)). destruct (copystr (advance p 1) n) as [l g]. cbn in *. split; [lia|]. constructor; [apply Hp|tauto].
Qed.

Lemma copystr_ext p q n : (∀ i, p i = q i) → copystr p n = copystr q n.
Proof.
  revert p q. induction n as [|n IH]; intros p q Hpq; [done|]. cbn [copystr].
  by rewrite (Hpq O), (IH (advance p 1) (advance q 1)) by (intros i; apply Hpq).
Qed.

Lemma acopyinstr_page D m va e n k :
  0 ≤ va → va mod 4096 + Z.of_nat n ≤ 4096 → D !! (va / 4096) = Some e →
  flag e PTE_U && flag e PTE_V = true →
  acopyinstr D m va (n + k) =
    let '(l, got) := copystr (mem_ptr m (PTE2PA e + va mod 4096)) n in
    if got then Some l else (λ l', l ++ l') <$> acopyinstr D m (va + Z.of_nat n) k.
Proof.
  intros H0 Hlen He Hf. set (a := PTE2PA e + va mod 4096).
  assert (∀ n' i, (i + n' = n)%nat →
    acopyinstr D m (va + Z.of_nat i) (n' + k) =
      let '(l, got) := copystr (advance (mem_ptr m a) i) n' in
      if got then Some l else (λ l', l ++ l') <$> acopyinstr D m (va + Z.of_nat n) k) as Hgen.
  { induction n' as [|n' IH]; intros i Hi; cbn [Nat.add copystr acopyinstr].
    { replace i with n by lia. by destruct (acopyinstr D m (va + Z.of_nat n) k). }
    rewrite (utrans_page D PTE_V va e) by (done || lia). fold a.
    replace (advance (mem_ptr m a) i 0) with (ld m (a + Z.of_nat i)) by (unfold advance, mem_ptr; f_equal; lia).
    destruct (ld m (a + Z.of_nat i) =? 0); [done|].
    replace (va + Z.of_nat i + 1) with (va + Z.of_nat (S i)) by lia. rewrite (IH (S i)) by lia.
    rewrite (copystr_ext (advance (advance (mem_ptr m a) i) 1) (advance (mem_ptr m a) (S i)))
      by (intros j; unfold advance; f_equal; lia).
    destruct (copystr (advance (mem_ptr m a) (S i)) n') as [l []]; [done|].
    by destruct (acopyinstr D m (va + Z.of_nat n) k). }
  specialize (Hgen n O ltac:(lia)). rewrite Z.add_0_r in Hgen. exact Hgen.
Qed.

Section copy.
Context (kend : Z) (Hend : KERNBASE ≤ kend).
Implicit Types (s : kmem) (L : list Z) (m : mem) (T : gmap (list Z) Z) (D : gmap Z Z).
Abbreviation aspace := (aspace kend).

(** What user code can reach is ordinary memory below MAXVA: neither a page
    table nor a free page. *)
Record user_pages L T D : Prop := {
  up_low v e : D !! v = Some e → v < NVPN / 2;
  up_page v e : D !! v = Some e → flag e PTE_U = true →
    page_ok kend (PTE2PA e) ∧ (PTE2PA e ∉ L) ∧ PTE2PA e ∉ tpages T
}.

Lemma user_maxva {A} va (a b : A) :
  (if 4096 * (va / 4096) >=? MAXVA then a else b) = if decide (va / 4096 < NVPN / 2) then b else a.
Proof.
  change (NVPN / 2) with 67108864. change MAXVA with 274877906944.
  destruct (Z.geb_spec (4096 * (va / 4096)) 274877906944); case_decide; (done || lia).
Qed.

(** [walk] without allocation, and the entry it finds. *)
Lemma walk_entry s L T D root vpn :
  aspace s L T D root → 0 ≤ vpn < NVPN / 2 →
  walk root (4096 * vpn) false s = Ret (leaf_addr T vpn) s ∧
  match D !! vpn with
  | Some e => leaf_addr T vpn ≠ 0 ∧ ld64 (k_mem s) (leaf_addr T vpn) = e ∧ flag e PTE_V = true
  | None => leaf_addr T vpn = 0 ∨ ld64 (k_mem s) (leaf_addr T vpn) = 0
  end.
Proof.
  intros Has Hv. split; [by eapply (walk_noalloc kend)|]. unfold leaf_addr.
  assert (0 ≤ vpn < NVPN) as Hv' by (change (NVPN / 2) with 67108864 in Hv; unfold NVPN; lia).
  destruct (D !! vpn) as [e|] eqn:He.
  - destruct (leaf_table _ _ _ _ _ _ _ _ Has He) as [p Hp]. rewrite Hp.
    destruct (pte_nonzero kend Hend T s L D root _ p (ix 0 vpn) Has Hp) as [_ ?]; [apply ix_range|].
    rewrite (ld_leaf kend s L T D root vpn p Has Hv' Hp), He. split_and!; [done..|]. by eapply (as_dom _ _ _ _ _ _ Has).
  - destruct (T !! path 0 vpn) as [p|] eqn:Hp; [right|by left].
    by rewrite (ld_leaf kend s L T D root vpn p Has Hv' Hp), He.
Qed.

(** [walkaddr] is the reference translation of the first byte of a page. *)
Lemma walkaddr_spec s L T D root vpn :
  aspace s L T D root → user_pages L T D → 0 ≤ vpn →
  walkaddr root (4096 * vpn) s =
    Ret (match D !! vpn with Some e => if flag e PTE_U then PTE2PA e else 0 | None => 0 end) s.
Proof.
  intros Has Hu Hv. unfold walkaddr. replace (4096 * vpn >=? MAXVA) with (bool_decide (NVPN / 2 ≤ vpn)).
  2:{ change (NVPN / 2) with 67108864. change MAXVA with 274877906944.
      destruct (Z.geb_spec (4096 * vpn) 274877906944); case_bool_decide; (done || lia). }
  case_bool_decide as Hmax.
  { destruct (D !! vpn) as [e|] eqn:He; [|done]. apply (up_low _ _ _ Hu) in He. lia. }
  destruct (walk_entry s L T D root vpn Has ltac:(lia)) as [Hw He]. unfold mbind, M_bind. rewrite Hw. unfold ldp, gets.
  destruct (D !! vpn) as [e|].
  - destruct He as (H0 & Hld & HV). rewrite (proj2 (Z.eqb_neq _ _)) by done. rewrite Hld, HV. cbn [negb]. by destruct (flag e PTE_U).
  - destruct (Z.eqb_spec (leaf_addr T vpn) 0) as [|Hne]; [done|]. destruct He as [|Hld]; [done|]. by rewrite Hld, flag_0.
Qed.

Lemma copyout_loop_spec fuel : ∀ s L T D root va src,
  aspace s L T D root → user_pages L T D → 0 ≤ va < 18446744073709551616 → (length src < fuel)%nat →
  let '(m', ok) := acopyout D (k_mem s) va src in
  copyout_loop fuel root va src s = Ret (if ok then 0 else -1) (kset_mem m' s) ∧ aspace (kset_mem m' s) L T D root.
Proof.
  induction fuel as [|fuel IH]; intros s L T D root va src Has Hu Hva Hf; [lia|]. cbn [copyout_loop].
  destruct (Z.ltb_spec 0 (Z.of_nat (length src))) as [Hpos|Hz].
  2:{ destruct src; [|cbn in Hz; lia]. cbn [acopyout]. by destruct s. }
  rewrite PGROUNDDOWN_div. replace (va / 4096 * 4096) with (4096 * (va / 4096)) by lia. rewrite user_maxva.
  assert (∀ e, utrans D PTE_W va = e → e = None → acopyout D (k_mem s) va src = (k_mem s, false)) as Hfail.
  { intros e He ->. destruct src; [cbn in Hpos; lia|]. cbn [acopyout]. by rewrite He. }
  case_decide as Hmax.
  2:{ rewrite (Hfail None); [by destruct s| |done]. unfold utrans. destruct (D !! (va / 4096)) eqn:He; [|done].
      apply (up_low _ _ _ Hu) in He. lia. }
  destruct (walk_entry s L T D root (va / 4096) Has ltac:(zlia)) as [Hw He]. unfold mbind, M_bind. rewrite Hw. unfold ldp, gets.
  destruct (D !! (va / 4096)) as [e|] eqn:HD.
  2:{ rewrite (Hfail None); [|unfold utrans; by rewrite HD|done]. destruct (Z.eqb_spec (leaf_addr T (va / 4096)) 0); [by destruct s|].
      destruct He as [|Hld]; [done|]. rewrite Hld, flag_0. by destruct s. }
  destruct He as (H0 & Hld & HV). rewrite (proj2 (Z.eqb_neq _ _)) by done. rewrite Hld, HV. cbn [negb orb].
  destruct (flag e PTE_U && flag e PTE_W) eqn:Hfl.
  2:{ rewrite (Hfail None); [|unfold utrans; by rewrite HD, Hfl|done]. destruct (flag e PTE_U), (flag e PTE_W); (done || by destruct s). }
  replace (negb (flag e PTE_U) || negb (flag e PTE_W)) with false by (destruct (flag e PTE_U), (flag e PTE_W); done).
  replace (va - 4096 * (va / 4096)) with (va mod 4096) by zlia. change PGSIZE with 4096.
  set (n := Z.to_nat _).
  assert ((1 ≤ n ≤ length src)%nat ∧ va mod 4096 + Z.of_nat n ≤ 4096 ∧
    ((n < length src)%nat → va + Z.of_nat n = 4096 * (va / 4096) + 4096)) as (Hn & Hn4 & Hnext) by (unfold n; zlia).
  assert (length (take n src) = n) as Hlt by (rewrite length_take; lia).
  set (m1 := st_bytes (k_mem s) (PTE2PA e + va mod 4096) (take n src)).
  assert (aspace (kset_mem m1 s) L T D root) as Has1.
  { apply andb_true_iff in Hfl as [HU _]. destruct (up_page _ _ _ Hu _ _ HD HU) as (Hp & HpL & HpT).
    eapply write_page; [done|exact Hp|done|done|apply bytes_st_bytes, (as_k _ _ _ _ _ _ Has)|].
    intros a Ha. unfold m1. rewrite ld_st_bytes, decide_False; [done|]. rewrite Hlt. intros Hr.
    apply (Ha (PTE2PA e)); [by apply elem_of_singleton|]. unfold in_page. zlia. }
  change (NVPN / 2) with 67108864 in Hmax. rewrite u64_small by zlia.
  specialize (IH (kset_mem m1 s) L T D root (4096 * (va / 4096) + 4096) (drop n src) Has1 Hu ltac:(zlia)).
  rewrite length_drop in IH. specialize (IH ltac:(lia)).
  assert (acopyout D (k_mem s) va src = acopyout D m1 (4096 * (va / 4096) + 4096) (drop n src)) as ->; [|exact IH].
  rewrite <-(take_drop n src) at 1. rewrite acopyout_app, (acopyout_page D _ va e) by (done || lia). fold m1. rewrite Hlt.
  destruct (decide (n < length src)%nat) as [Hl|Hl]; [by rewrite Hnext by done|]. by rewrite drop_ge by lia.
Qed.

Lemma acopyin_fail D m va n : utrans D PTE_V va = None → (0 < n)%nat → acopyin D m va n = ([], false).
Proof. intros He Hn. destruct n; [lia|]. cbn [acopyin]. by rewrite He. Qed.

(** What one round of [copyin] and [copyinstr] finds at [va]. *)
Lemma walkaddr_utrans s L T D root va :
  aspace s L T D root → user_pages L T D → 0 ≤ va →
  ∃ pa0, walkaddr root (PGROUNDDOWN va) s = Ret pa0 s ∧
    if pa0 =? 0 then utrans D PTE_V va = None
    else va / 4096 < 67108864 ∧ ∃ e, D !! (va / 4096) = Some e ∧ flag e PTE_U && flag e PTE_V = true ∧ pa0 = PTE2PA e.
Proof.
  intros Has Hu Hva. rewrite PGROUNDDOWN_div. replace (va / 4096 * 4096) with (4096 * (va / 4096)) by lia.
  rewrite (walkaddr_spec s L T D root (va / 4096) Has Hu) by zlia. eexists. split; [done|]. unfold utrans.
  destruct (D !! (va / 4096)) as [e|] eqn:He; [|done]. destruct (flag e PTE_U) eqn:HU; [|done].
  destruct (up_page _ _ _ Hu _ _ He HU) as (Hp & _ & _). destruct (page_bounds kend Hend _ Hp).
  rewrite (proj2 (Z.eqb_neq _ _)) by lia. split; [by apply (up_low _ _ _ Hu _ _ He)|]. exists e. split_and!; [done| |done].
  rewrite HU. by destruct (as_dom _ _ _ _ _ _ Has _ _ He) as [_ ->].
Qed.

(** How far a round gets. *)
Lemma round_len va len n :
  0 ≤ va → va / 4096 < 67108864 → 0 < len → n = Z.min (4096 - va mod 4096) len →
  0 < n ≤ len ∧ va mod 4096 + n ≤ 4096 ∧ (n < len → va + n = u64 (4096 * (va / 4096) + 4096)) ∧
  0 ≤ u64 (4096 * (va / 4096) + 4096) < 18446744073709551616.
Proof. intros Hva Hm Hl ->. rewrite u64_small by zlia. zlia. Qed.

Lemma copyin_loop_spec fuel : ∀ s L T D root va len,
  aspace s L T D root → user_pages L T D → 0 ≤ va < 18446744073709551616 → 0 ≤ len → (Z.to_nat len < fuel)%nat →
  copyin_loop fuel root va len s =
    (let '(l, ok) := acopyin D (k_mem s) va (Z.to_nat len) in Ret (l, if ok then 0 else -1) s).
Proof.
  induction fuel as [|fuel IH]; intros s L T D root va len Has Hu Hva Hlen Hf; [lia|]. cbn [copyin_loop].
  destruct (Z.ltb_spec 0 len) as [Hpos|Hz]; [|by replace len with 0 by lia].
  destruct (walkaddr_utrans s L T D root va Has Hu ltac:(lia)) as (pa0 & Hw & Hpa). unfold mbind, M_bind. rewrite Hw.
  destruct (pa0 =? 0). { by rewrite acopyin_fail by (done || lia). }
  destruct Hpa as (Hmax & e & He & Hfl & ->). unfold gets. rewrite PGROUNDDOWN_div. change PGSIZE with 4096.
  replace (va - va / 4096 * 4096) with (va mod 4096) by zlia. rewrite (Z.mul_comm (va / 4096)).
  set (n := Z.min _ _). destruct (round_len va len n ltac:(lia) Hmax Hpos eq_refl) as (Hn & Hn4 & Hnext & Hr).
  rewrite (IH s L T D root _ (len - n) Has Hu Hr) by lia.
  replace (Z.to_nat len) with (Z.to_nat n + Z.to_nat (len - n))%nat by lia.
  rewrite acopyin_app, (acopyin_page D _ va e) by (done || lia).
  assert (acopyin D (k_mem s) (va + Z.of_nat (Z.to_nat n)) (Z.to_nat (len - n)) =
    acopyin D (k_mem s) (u64 (4096 * (va / 4096) + 4096)) (Z.to_nat (len - n))) as ->.
  { destruct (decide (n < len)) as [Hl|Hl]; [by rewrite Z2Nat.id, Hnext by lia|]. by replace (Z.to_nat (len - n)) with O by lia. }
  by destruct (acopyin _ _ (u64 _) _).
Qed.

Lemma copyinstr_loop_full fuel : ∀ s L T D root va max,
  aspace s L T D root → user_pages L T D → 0 ≤ va < 18446744073709551616 → 0 ≤ max → (Z.to_nat max < fuel)%nat →
  ∃ l r, copyinstr_loop fuel root va max s = Ret (l, r) s ∧ Z.of_nat (length l) ≤ max ∧ Forall (λ b, 0 ≤ b < 256) l ∧
    match acopyinstr D (k_mem s) va (Z.to_nat max) with Some l' => l = l' ∧ r = 0 | None => r = -1 end.
Proof.
  induction fuel as [|fuel IH]; intros s L T D root va max Has Hu Hva Hlen Hf; [lia|]. cbn [copyinstr_loop].
  destruct (Z.ltb_spec 0 max) as [Hpos|Hz]; [|replace max with 0 by lia; by exists [], (-1)].
  destruct (walkaddr_utrans s L T D root va Has Hu ltac:(lia)) as (pa0 & Hw & Hpa). unfold mbind, M_bind. rewrite Hw.
  destruct (pa0 =? 0).
  { exists [], (-1). split_and!; [done|cbn; lia|done|]. destruct (Z.to_nat max) eqn:E; [lia|]. cbn [acopyinstr]. by rewrite Hpa. }
  destruct Hpa as (Hmax & e & He & Hfl & ->). unfold gets. rewrite PGROUNDDOWN_div. change PGSIZE with 4096.
  replace (va - va / 4096 * 4096) with (va mod 4096) by zlia. rewrite (Z.mul_comm (va / 4096)).
  set (n := Z.min _ _). destruct (round_len va max n ltac:(lia) Hmax Hpos eq_refl) as (Hn & Hn4 & Hnext & Hr).
  replace (Z.to_nat max) with (Z.to_nat n + Z.to_nat (max - n))%nat by lia.
  rewrite (acopyinstr_page D _ va e) by (done || lia).
  pose proof (copystr_bytes (mem_ptr (k_mem s) (PTE2PA e + va mod 4096)) (Z.to_nat n) (λ i, ko_bytes _ _ _ (as_k _ _ _ _ _ _ Has) _)) as [Hcl Hcb].
  destruct (copystr _ (Z.to_nat n)) as [l []]; cbn [fst] in *; [exists l, 0; split_and!; [done|lia|done|done|done]|].
  destruct (IH s L T D root _ (max - n) Has Hu Hr ltac:(lia) ltac:(lia)) as (l2 & r2 & Hrun & Hl2 & Hb2 & Hres). rewrite Hrun.
  exists (l ++ l2), r2. split_and!; [done|rewrite length_app; lia|by apply Forall_app|].
  assert (acopyinstr D (k_mem s) (va + Z.of_nat (Z.to_nat n)) (Z.to_nat (max - n)) =
    acopyinstr D (k_mem s) (u64 (4096 * (va / 4096) + 4096)) (Z.to_nat (max - n))) as ->.
  { destruct (decide (n < max)) as [Hl|Hl]; [by rewrite Z2Nat.id, Hnext by lia|]. by replace (Z.to_nat (max - n)) with O by lia. }
  destruct (acopyinstr _ _ (u64 _) _); cbn; [|done]. by destruct Hres as [-> ->].
Qed.
Lemma copyinstr_loop_spec fuel s L T D root va max :
  aspace s L T D root → user_pages L T D → 0 ≤ va < 18446744073709551616 → 0 ≤ max → (Z.to_nat max < fuel)%nat →
  ∃ l r, copyinstr_loop fuel root va max s = Ret (l, r) s ∧
    match acopyinstr D (k_mem s) va (Z.to_nat max) with Some l' => l = l' ∧ r = 0 | None => r = -1 end.
Proof. intros Has Hu Hva Hm Hf. destruct (copyinstr_loop_full fuel s L T D root va max Has Hu Hva Hm Hf) as (l & r & ? & _ & _ & ?). by exists l, r. Qed.
End copy.
