(* ===== verification/VmTheorems.v ===== *)
(** * Theorems about kernel/vm.c

    What the functions on address spaces compute, with an example of each: a
    machine with sixteen pages of memory after the kernel. *)
From Stdlib Require Import ZArith Lia.
From stdpp Require Import prelude gmap strings.
From S2P Require Import Prelude Bytes Param Str Riscv PhysMem Kalloc Vm VmSpec VmMap VmGrow VmFree VmCopy.

#[local] Opaque memset st64 memmove.

Section create.
Context (kend : Z) (Hend : KERNBASE ≤ kend).

(** An empty page table. *)
Lemma uvmcreate_spec s L (Q : Z → kmem → Prop) :
  kmem_ok kend s L →
  match L with
  | [] => Q 0 s
  | p :: L' => ∀ s', aspace kend s' L' {[ [] := p ]} ∅ p → outside {[p]} (k_mem s) (k_mem s') → Q p s'
  end → wp uvmcreate s Q.
Proof.
  intros Hk HQ. unfold uvmcreate. wp_step. apply (kalloc_spec kend Hend s L); [done|].
  destruct L as [|p L]; [exact HQ|]. intros s1 Hk1 Hp HpL Hm1. destruct (page_bounds kend Hend p Hp).
  rewrite (proj2 (Z.eqb_neq _ _)) by lia. unfold zero_page. rewrite (proj2 (Z.eqb_neq _ _)) by lia.
  wp_step. wp_step. wp_step.
  assert (∀ i, 0 ≤ i < 512 → ld64 (memset (k_mem s1) p 0 PGN) (pte_at p i) = 0) as Hz.
  { intros i Hi. apply ld64_memset_0; unfold pte_at, PGN, PGSIZE; lia. }
  apply HQ; [split; [| | |intros vpn Hv|done]; cbn [k_mem kset_mem]|].
  - apply kmem_ok_mem; [done|apply bytes_memset, Hk1|]. intros q a Hq Ha. rewrite ld_memset, decide_False; [done|].
    intros Ha'. apply HpL. replace p with q; [done|]. apply (pages_disjoint kend q p a); [by eapply flist_pages|done|done|].
    unfold in_page, PGN, PGSIZE in *. lia.
  - split.
    + by rewrite lookup_singleton_eq.
    + intros l q [<- <-]%lookup_singleton_Some. split; [cbn; lia|done].
    + by intros l q [<- <-]%lookup_singleton_Some.
    + by intros l l' q [<- <-]%lookup_singleton_Some [<- _]%lookup_singleton_Some.
    + intros l i q [Heq _]%lookup_singleton_Some. by destruct l.
    + intros l q i [<- <-]%lookup_singleton_Some _ Hi. rewrite lookup_singleton_ne by done. by rewrite Hz, flag_0.
  - by intros l q [<- <-]%lookup_singleton_Some.
  - unfold pte_of. by rewrite lookup_singleton_ne.
  - intros a Ha. assert (¬ in_page p a) as Hna by (apply Ha; by apply elem_of_singleton).
    cbn [k_mem kset_mem]. rewrite ld_memset, decide_False by (unfold in_page, PGN, PGSIZE in *; lia).
    by rewrite Hm1, decide_False.
Qed.
End create.

(** ** The example *)
Definition demo_kend : Z := PHYSTOP - 16 * 4096.

Lemma demo_kend_ok : KERNBASE ≤ demo_kend.
Proof. by vm_compute. Qed.

(** An address space, fifteen free pages. *)
Lemma demo_aspace : ∃ s L T root,
  aspace demo_kend s L T ∅ root ∧ length L = 15%nat ∧ tpages T = {[root]} ∧ root ∉ L.
Proof.
  assert (bytes_mem ∅) as Hb by (intros a; unfold ld; rewrite lookup_empty; cbn; lia).
  destruct (proj1 (wp_Ret _ _ _) (kinit_spec demo_kend demo_kend_ok ∅ Hb ltac:(by vm_compute))) as ([] & s0 & _ & Hk).
  set (L := reverse _) in Hk. assert (length L = 16%nat) as HL by (unfold L; by vm_compute).
  clearbody L. destruct L as [|p L]; [done|].
  assert (wp uvmcreate s0 (λ r s, r = p ∧ aspace demo_kend s L {[ [] := p ]} ∅ p)) as Hwp.
  { by apply (uvmcreate_spec _ demo_kend_ok s0 (p :: L)). }
  apply wp_Ret in Hwp as (r & s & _ & -> & Has). exists s, L, {[ [] := p ]}, p. split_and!; [done|by injection HL| |].
  - unfold tpages. by rewrite map_img_singleton_L.
  - by apply (as_free _ _ _ _ _ _ Has []).
Qed.

(** ** The theorems *)

(** [mappages] on an unmapped range either maps all of it, changing no other
    mapping, or runs out of memory, returns -1 and leaves only a prefix of the
    range mapped; the latter only if fewer than two pages per page mapped were
    free. Memory outside the page tables is not written. Mapping over a mapped
    page panics. *)
Theorem mappages_correct kend s L T D root vpn n pa perm :
  KERNBASE ≤ kend → aspace kend s L T D root → (0 < n)%nat → 0 ≤ vpn → vpn + Z.of_nat n ≤ NVPN / 2 →
  0 ≤ pa → pa + 4096 * Z.of_nat n ≤ 18446744073709551616 → 0 ≤ perm < 1024 →
  ((∀ v, vpn ≤ v < vpn + Z.of_nat n → D !! v = None) →
    ∃ r s' L' T' k, mappages root (4096 * vpn) (4096 * Z.of_nat n) pa perm s = Ret r s' ∧
      aspace kend s' L' T' (map_range D vpn k pa perm) root ∧ outside (tpages T') (k_mem s) (k_mem s') ∧
      ((r = 0 ∧ k = n) ∨ (r = -1 ∧ (k < n)%nat ∧ (length L < 2 * n)%nat))) ∧
  (∀ v, D !! vpn = Some v →
    mappages root (4096 * vpn) (4096 * Z.of_nat n) pa perm s = Panic "mappages: remap").
Proof.
  intros Hend Has Hn Hv Hv' Hpa Hpa' Hperm. split.
  - intros HD.
    assert (wp (mappages root (4096 * vpn) (4096 * Z.of_nat n) pa perm) s (λ r s', ∃ L' T' k,
      aspace kend s' L' T' (map_range D vpn k pa perm) root ∧ outside (tpages T') (k_mem s) (k_mem s') ∧
      ((r = 0 ∧ k = n) ∨ (r = -1 ∧ (k < n)%nat ∧ (length L < 2 * n)%nat)))) as Hwp.
    { eapply (mappages_spec kend Hend s L T D); try done. intros r s' L' T' k Has' Hg Hr. exists L', T', k.
      split_and!; [done|apply Hg|]. destruct Hr as [(-> & -> & _)|(-> & ? & _ & ?)]; [by left|by right]. }
    apply wp_Ret in Hwp as (r & s' & ? & L' & T' & k & ?). by exists r, s', L', T', k.
  - intros v HD. eapply (mappages_remap kend Hend); [done|done|lia|done].
Qed.

Lemma mappages_correct_witness : ∃ s root r s',
  mappages root (4096 * 5) (4096 * Z.of_nat 2) UART0 (Z.lor PTE_R PTE_W) s = Ret r s' ∧ r = 0.
Proof.
  destruct demo_aspace as (s & L & T & root & Has & HL & _).
  destruct (mappages_correct demo_kend s L T ∅ root 5 2 UART0 (Z.lor PTE_R PTE_W) demo_kend_ok Has
    ltac:(lia) ltac:(lia) ltac:(by vm_compute) ltac:(by vm_compute) ltac:(by vm_compute) ltac:(by vm_compute)) as [Hmap _].
  destruct (Hmap (λ v _, lookup_empty v)) as (r & s' & L' & T' & k & Hrun & _ & _ & Hr).
  exists s, root, r, s'. split; [exact Hrun|]. destruct Hr as [[? _]|(_ & _ & Hl)]; [done|]. rewrite HL in Hl. lia.
Defined.

(** [uvmalloc] grows a process from [oldsz] to [newsz] bytes: the new pages
    are zero-filled, readable by the user with the permissions asked for, and
    distinct pages that were free before, and nothing else of the address space
    or of memory outside free pages and page tables changes; or it returns 0
    with the address space as it was and every data page given back, which
    happens only when fewer than three free pages per new page were left. *)
Theorem uvmalloc_correct kend s L T D root oldsz newsz xperm :
  KERNBASE ≤ kend → aspace kend s L T D root → 0 ≤ oldsz ≤ newsz → newsz ≤ MAXVA → 0 ≤ xperm < 1024 →
  (∀ v, npages oldsz ≤ v < npages newsz → D !! v = None) →
  let grown := grown kend s L T D root (npages oldsz) (λ _, uperm xperm) (λ _ _, 0) in
  ∃ r s' L' T' D', uvmalloc kend root oldsz newsz xperm s = Ret r s' ∧
    ((r = newsz ∧ grown (Z.to_nat (npages newsz - npages oldsz)) ∅ s' L' T' D') ∨
     (r = 0 ∧ D' = D ∧ grown O ∅ s' L' T' D ∧ Z.of_nat (length L) < 3 * (npages newsz - npages oldsz))).
Proof.
  intros Hend Has Hsz Hmax Hx HD grown.
  assert (wp (uvmalloc kend root oldsz newsz xperm) s (λ r s', ∃ L' T' D',
    (r = newsz ∧ grown (Z.to_nat (npages newsz - npages oldsz)) ∅ s' L' T' D') ∨
    (r = 0 ∧ D' = D ∧ grown O ∅ s' L' T' D ∧ Z.of_nat (length L) < 3 * (npages newsz - npages oldsz)))) as Hwp.
  { eapply (uvmalloc_spec kend Hend s L T D root); try done.
    - intros s' L' T' D' Hg. exists L', T', D'. by left.
    - intros s' L' T' Hg Hl. exists L', T', D. right. by split_and!. }
  apply wp_Ret in Hwp as (r & s' & ? & L' & T' & D' & ?). by exists r, s', L', T', D'.
Qed.

Lemma uvmalloc_correct_witness : ∃ s root s',
  uvmalloc demo_kend root 0 5000 PTE_W s = Ret 5000 s'.
Proof.
  destruct demo_aspace as (s & L & T & root & Has & HL & _).
  destruct (uvmalloc_correct demo_kend s L T ∅ root 0 5000 PTE_W demo_kend_ok Has ltac:(lia) ltac:(by vm_compute)
    ltac:(by vm_compute) (λ v _, lookup_empty v)) as (r & s' & L' & T' & D' & Hrun & Hr).
  exists s, root, s'. destruct Hr as [[-> _]|(_ & _ & _ & Hl)]; [exact Hrun|]. exfalso.
  rewrite HL in Hl. vm_compute in Hl. done.
Defined.

(** [uvmcopy] gives the child a copy of the parent's memory: page by page the
    same contents and flags, in pages of its own that were free before, the
    parent's address space and memory untouched; or it returns -1 with the
    child's address space as it was and every data page given back, only if
    fewer than three free pages per page were left. *)
Theorem uvmcopy_correct kend s L T D new To Do old sz :
  KERNBASE ≤ kend → aspace kend s L T D new → parent kend s L T To Do old (npages sz) →
  0 ≤ sz ≤ MAXVA → (∀ v, 0 ≤ v < npages sz → D !! v = None) →
  let grown := grown kend s L T D new 0 (operm Do) (ocontent s Do) in
  ∃ r s' L' T' D', uvmcopy kend old new sz s = Ret r s' ∧ aspace kend s' L' To Do old ∧
    (∀ v i, 0 ≤ v < npages sz → 0 ≤ i < 4096 →
       ld (k_mem s') (PTE2PA (oldpte Do v) + i) = ld (k_mem s) (PTE2PA (oldpte Do v) + i)) ∧
    ((r = 0 ∧ grown (Z.to_nat (npages sz)) ∅ s' L' T' D') ∨
     (r = -1 ∧ D' = D ∧ grown O ∅ s' L' T' D ∧ Z.of_nat (length L) < 3 * npages sz)).
Proof.
  intros Hend Has Hpar Hsz HD grown.
  assert (∀ k s' L' T' D', grown k ∅ s' L' T' D' → aspace kend s' L' To Do old ∧
    ∀ v i, 0 ≤ v < npages sz → 0 ≤ i < 4096 →
       ld (k_mem s') (PTE2PA (oldpte Do v) + i) = ld (k_mem s) (PTE2PA (oldpte Do v) + i)) as Hkeep.
  { intros k s' L' T' D' Hg. split; [by eapply (parent_kept kend)|]. intros v i Hv Hi.
    destruct (pa_page _ _ _ _ _ _ _ _ Hpar v Hv).
    eapply (parent_same kend); [exact Has|exact Hg|done|done|unfold in_page; lia]. }
  assert (wp (uvmcopy kend old new sz) s (λ r s', ∃ L' T' D', aspace kend s' L' To Do old ∧
    (∀ v i, 0 ≤ v < npages sz → 0 ≤ i < 4096 →
       ld (k_mem s') (PTE2PA (oldpte Do v) + i) = ld (k_mem s) (PTE2PA (oldpte Do v) + i)) ∧
    ((r = 0 ∧ grown (Z.to_nat (npages sz)) ∅ s' L' T' D') ∨
     (r = -1 ∧ D' = D ∧ grown O ∅ s' L' T' D ∧ Z.of_nat (length L) < 3 * npages sz)))) as Hwp.
  { eapply (uvmcopy_spec kend Hend s L T D new To Do old); try done.
    - intros s' L' T' D' Hg. exists L', T', D'. destruct (Hkeep _ _ _ _ _ Hg). split_and!; [done..|by left].
    - intros s' L' T' Hg Hl. exists L', T', D. destruct (Hkeep _ _ _ _ _ Hg). split_and!; [done..|]. right. by split_and!. }
  apply wp_Ret in Hwp as (r & s' & ? & L' & T' & D' & ?). by exists r, s', L', T', D'.
Qed.

(** Two address spaces, then a page for the first. *)
Lemma demo_two : ∃ s L T1 r1 T2 r2,
  aspace demo_kend s L T1 ∅ r1 ∧ aspace demo_kend s L T2 ∅ r2 ∧ length L = 14%nat ∧
  tpages T1 = {[r1]} ∧ tpages T2 = {[r2]} ∧ r1 ≠ r2.
Proof.
  destruct demo_aspace as (s & L & T1 & r1 & Has & HL & HT1 & Hr1). destruct L as [|r2 L]; [done|].
  assert (wp uvmcreate s (λ r s', r = r2 ∧ aspace demo_kend s' L {[ [] := r2 ]} ∅ r2 ∧ outside {[r2]} (k_mem s) (k_mem s'))) as Hwp.
  { apply (uvmcreate_spec _ demo_kend_ok s (r2 :: L)); [apply Has|]. by intros s' ? ?. }
  apply wp_Ret in Hwp as (r & s' & _ & -> & Has2 & Hout).
  assert (r1 ≠ r2) as Hne. { intros ->. apply Hr1. left. }
  exists s', L, T1, r1, {[ [] := r2 ]}, r2. split_and!; [|done|by injection HL|done|unfold tpages; by rewrite map_img_singleton_L|done].
  eapply aspace_frame; [exact Has|apply Has2| |].
  - intros l p Hp Hin. apply (as_free _ _ _ _ _ _ Has l p Hp). by right.
  - intros l p a Hp Ha. apply Hout. intros q ->%elem_of_singleton Ha'.
    assert (p ∈ tpages T1) as Hpt by (apply tpages_elem; eauto). rewrite HT1 in Hpt. apply elem_of_singleton in Hpt as ->.
    apply Hne. apply (pages_disjoint demo_kend r1 r2 a); [by eapply (pt_page _ _ _ _ (as_tab _ _ _ _ _ _ Has))| |done|done].
    by eapply (pt_page _ _ _ _ (as_tab _ _ _ _ _ _ Has2) []).
Qed.

Lemma demo_parent : ∃ s L T new To Do old,
  aspace demo_kend s L T ∅ new ∧ parent demo_kend s L T To Do old (npages 4096).
Proof.
  destruct demo_two as (s & L & T1 & r1 & T2 & r2 & Has1 & Has2 & HL & HT1 & HT2 & Hne).
  assert (r2 ∉ rest L T1 ∅) as Hr2.
  { rewrite elem_of_rest, HT1, elem_of_singleton, elem_of_empty. intros [Hin|[->|[]]]; [|done].
    apply (as_free _ _ _ _ _ _ Has2 [] r2); [apply Has2|done]. }
  assert (wp (uvmalloc demo_kend r1 0 4096 PTE_W) s (λ _ s', ∃ L' T' D',
    grown demo_kend s L T1 ∅ r1 0 (λ _, uperm PTE_W) (λ _ _, 0) 1 ∅ s' L' T' D')) as Hwp.
  { eapply (uvmalloc_spec _ demo_kend_ok s L T1 ∅ r1); [done|lia|by vm_compute|by vm_compute|by intros|by eauto|].
    intros s' L' T' _ Hl. rewrite HL in Hl. by vm_compute in Hl. }
  apply wp_Ret in Hwp as (_ & s' & _ & L' & T' & D' & Hg).
  assert (∀ p, p ∈ rest L' T' ∅ ∨ p ∈ dpages D' [0] → p ∈ rest L T1 ∅) as Hin.
  { intros p Hp. rewrite (gw_set _ _ _ _ _ _ _ _ _ _ _ _ _ _ _ Hg), elem_of_union, elem_of_list_to_set. exact Hp. }
  exists s', L', T2, r2, T', D', r1.
  assert (∀ l p, T2 !! l = Some p → p = r2) as HT2'.
  { intros l p Hp. assert (p ∈ tpages T2) as Hpt by (apply tpages_elem; eauto). rewrite HT2 in Hpt. by apply elem_of_singleton in Hpt. }
  assert (∀ p, p ∈ rest L' T' ∅ ∨ p ∈ dpages D' [0] → p ∉ L' → p ∉ rest L' T2 ∅) as Hapart.
  { intros p Hp HpL. rewrite elem_of_rest, HT2, elem_of_singleton, elem_of_empty. intros [?|[->|[]]]; [done|]. by apply Hr2, Hin. }
  pose proof (gw_as _ _ _ _ _ _ _ _ _ _ _ _ _ _ _ Hg) as Has'. split; [|split; [done| | |]].
  - eapply aspace_frame; [exact Has2|apply Has'| |].
    + intros l p ->%HT2' Hp. apply Hr2, Hin. left. apply elem_of_rest. by left.
    + intros l p a Hp Ha. apply (gw_out _ _ _ _ _ _ _ _ _ _ _ _ _ _ _ Hg). intros q Hq Ha'. apply Hr2.
      rewrite <-(HT2' l p Hp). replace p with q; [done|].
      apply (pages_disjoint demo_kend q p a); [|by eapply (pt_page _ _ _ _ (as_tab _ _ _ _ _ _ Has2))|done|done].
      eapply (rest_page demo_kend s L T1 ∅ r1 0 (λ _, uperm PTE_W) (λ _ _, 0) O ∅ s L T1 ∅); [by apply grown_start|done].
  - intros p Hp. apply Hapart; [left; apply elem_of_rest; tauto|]. apply tpages_elem in Hp as [l Hp]. by eapply (as_free _ _ _ _ _ _ Has').
  - intros v Hv. change (npages 4096) with 1 in Hv. destruct (gw_new _ _ _ _ _ _ _ _ _ _ _ _ _ _ _ Hg v) as (p & HD & _); [lia|].
    eexists. split; [exact HD|]. rewrite leaf_flags by (by vm_compute). by vm_compute.
  - intros v Hv. change (npages 4096) with 1 in Hv. replace v with 0 by lia. unfold oldpte.
    destruct (gw_own _ _ _ _ _ _ _ _ _ _ _ _ _ _ _ Hg (PTE2PA (default 0 (D' !! 0)))) as [Hpg Hn]; [left|].
    split; [done|]. apply Hapart; [right; left|]. rewrite elem_of_rest in Hn. tauto.
Qed.

Lemma uvmcopy_correct_witness : ∃ s old new r s', uvmcopy demo_kend old new 4096 s = Ret r s'.
Proof.
  destruct demo_parent as (s & L & T & new & To & Do & old & Has & Hpar).
  destruct (uvmcopy_correct demo_kend s L T ∅ new To Do old 4096 demo_kend_ok Has Hpar ltac:(by vm_compute)
    (λ v _, lookup_empty v)) as (r & s' & L' & T' & D' & Hrun & _).
  exists s, old, new, r, s'. exact Hrun.
Defined.

(** C32: [uvmfree] on an address space that maps exactly the process's [sz] bytes
    to pages of its own gives back every data page and every page-table page,
    each once, and writes nowhere else. *)
Theorem uvmfree_returns_all kend s L T D root sz :
  KERNBASE ≤ kend → aspace kend s L T D root → 0 ≤ sz ≤ MAXVA →
  (∀ v, is_Some (D !! v) ↔ 0 ≤ v < npages sz) → (∀ v, 0 ≤ v < npages sz → mapped D v) →
  owns kend L T D (vrange 0 (Z.to_nat (npages sz))) →
  ∃ s' L', uvmfree kend root sz s = Ret tt s' ∧ kmem_ok kend s' L' ∧
    list_to_set L' =@{gset Z} list_to_set L ∪ tpages T ∪ list_to_set (dpages D (vrange 0 (Z.to_nat (npages sz)))) ∧
    outside (tpages T ∪ list_to_set (dpages D (vrange 0 (Z.to_nat (npages sz))))) (k_mem s) (k_mem s').
Proof.
  intros Hend Has Hsz Hdom Hmap Hown. assert (Z.of_nat (Z.to_nat (npages sz)) = npages sz) as Hn.
  { apply Z2Nat.id. unfold npages. zlia. }
  assert (wp (uvmfree kend root sz) s (λ _ s', ∃ L', kmem_ok kend s' L' ∧
    list_to_set L' =@{gset Z} list_to_set L ∪ tpages T ∪ list_to_set (dpages D (vrange 0 (Z.to_nat (npages sz)))) ∧
    outside (tpages T ∪ list_to_set (dpages D (vrange 0 (Z.to_nat (npages sz))))) (k_mem s) (k_mem s'))) as Hwp.
  { eapply (uvmfree_spec kend Hend s L T D root sz); [done|done| | |done|]; rewrite ?Hn; [done|done|].
    intros s' L' Hk HL Hout. by exists L'. }
  apply wp_Ret in Hwp as ([] & s' & ? & L' & ?). by exists s', L'.
Qed.

(** A process with one page. *)
Lemma demo_process : ∃ s L T D root, aspace demo_kend s L T D root ∧
  (∀ v, is_Some (D !! v) ↔ 0 ≤ v < npages 4096) ∧ (∀ v, 0 ≤ v < npages 4096 → mapped D v) ∧ owns demo_kend L T D (vrange 0 1).
Proof.
  destruct demo_aspace as (s & L & T & root & Has & HL & _). change (npages 4096) with 1.
  assert (wp (uvmalloc demo_kend root 0 4096 PTE_W) s (λ _ s', ∃ L' T' D',
    grown demo_kend s L T ∅ root 0 (λ _, uperm PTE_W) (λ _ _, 0) 1 ∅ s' L' T' D')) as Hwp.
  { eapply (uvmalloc_spec _ demo_kend_ok s L T ∅ root); [done|lia|by vm_compute|by vm_compute|by intros|by eauto|].
    intros s' L' T' _ Hl. rewrite HL in Hl. by vm_compute in Hl. }
  apply wp_Ret in Hwp as (_ & s' & _ & L' & T' & D' & [Has' Hsame Hnew Hnd Hown _ _ _ _]).
  exists s', L', T', D', root. split_and!; [done| | |].
  - intros v. destruct (decide (0 ≤ v < 1)) as [Hv|Hv].
    + destruct (Hnew v) as (p & -> & _); [lia|]. by split.
    + rewrite Hsame, lookup_empty by lia. split; [by intros []|lia].
  - intros v Hv. destruct (Hnew v) as (p & HD & _); [lia|].
    eexists. split; [exact HD|]. rewrite leaf_flags by (by vm_compute). by vm_compute.
  - split; [done|]. intros p Hp. destruct (Hown p Hp) as [? Hn]. rewrite elem_of_rest in Hn. split_and!; tauto.
Qed.

Lemma uvmfree_returns_all_witness : ∃ s root s', uvmfree demo_kend root 4096 s = Ret tt s'.
Proof.
  destruct demo_process as (s & L & T & D & root & Has & Hdom & Hmap & Hown).
  destruct (uvmfree_returns_all demo_kend s L T D root 4096 demo_kend_ok Has ltac:(by vm_compute) Hdom Hmap Hown) as (s' & L' & Hrun & _).
  exists s, root, s'. exact Hrun.
Defined.
