(* ===== verification/Pipe.v ===== *)
(** * Pipes: kernel/pipe.c

    A pipe is a ring of 512 bytes with two 32-bit counters that wrap around.
    Each function is cut where it sleeps: the part between two acquisitions of
    the pipe's lock is one step, which ends by returning or by going to sleep. *)
From Stdlib Require Import ZArith Lia.
From stdpp Require Import prelude strings relations.
From S2P Require Import Prelude UserMem.

Definition PIPESIZE : Z := 512.

Record pipe := Pipe {
  data : list Z;
  nread : Z;
  nwrite : Z;
  readopen : Z;
  writeopen : Z
}.

Definition set_nread (x : Z) (p : pipe) := Pipe (data p) x (nwrite p) (readopen p) (writeopen p).
Definition put_byte (ch : Z) (p : pipe) :=
  Pipe (<[Z.to_nat (nwrite p mod PIPESIZE) := ch]> (data p)) (nread p) (u32 (nwrite p + 1)) (readopen p) (writeopen p).

(** The pipe, the memory of the calling process, whether it has been killed,
    and the channels it has called [wakeup] on. *)
Record pst (U : Type) := PSt { ps_pipe : pipe; ps_mem : U; ps_killed : bool; ps_woken : list chan }.
Arguments PSt {U}.
Arguments ps_pipe {U}.
Arguments ps_mem {U}.
Arguments ps_killed {U}.
Arguments ps_woken {U}.

Definition nread_chan : chan := Chan "pi->nread" 0.
Definition nwrite_chan : chan := Chan "pi->nwrite" 0.

(** How a step ends: asleep with [i] bytes done, or returning. *)
Inductive pres := PSleep (i : Z) | PRet (r : Z).

Section code.
Context {U : Type} `{UserMem U}.
Abbreviation PM := (M (pst U)).

Definition set_pipe (f : pipe → pipe) : PM unit :=
  modify (λ s, PSt (f (ps_pipe s)) (ps_mem s) (ps_killed s) (ps_woken s)).
Definition set_mem (u : U) : PM unit :=
  modify (λ s, PSt (ps_pipe s) u (ps_killed s) (ps_woken s)).
Definition pwakeup (c : chan) : PM unit :=
  modify (λ s, PSt (ps_pipe s) (ps_mem s) (ps_killed s) (ps_woken s ++ [c])).

(** What [pipealloc] makes of a fresh page, whose bytes are [junk]. *)
Definition pipe_new (junk : list Z) : pipe := Pipe junk 0 0 1 1.

(** [true]: the last end was closed, the pipe is freed. *)
Definition pipeclose (writable : bool) : PM bool :=
  (if writable then
     set_pipe (λ p, Pipe (data p) (nread p) (nwrite p) (readopen p) 0) ;; pwakeup nread_chan
   else
     set_pipe (λ p, Pipe (data p) (nread p) (nwrite p) 0 (writeopen p)) ;; pwakeup nwrite_chan) ;;
  gets (λ s, (readopen (ps_pipe s) =? 0) && (writeopen (ps_pipe s) =? 0)).

Fixpoint pipewrite_loop (fuel : nat) (addr n i : Z) : PM pres :=
  match fuel with
  | O => λ _, NoFuel
  | S fuel =>
      if i <? n then
        s ← mget;
        let pi := ps_pipe s in
        if (readopen pi =? 0) || ps_killed s then mret (PRet (-1)) else
        if nwrite pi =? u32 (nread pi + PIPESIZE) then
          pwakeup nread_chan ;; mret (PSleep i)
        else
          match ucopyin (ps_mem s) (u64 (addr + i)) 1 with
          | ([ch], true) => set_pipe (put_byte ch) ;; pipewrite_loop fuel addr n (i + 1)
          | _ => pwakeup nread_chan ;; mret (PRet i)
          end
      else pwakeup nread_chan ;; mret (PRet i)
  end.

(** From byte [i] on, after waking up. *)
Definition pipewrite_from (addr n i : Z) : PM pres := pipewrite_loop (S (Z.to_nat (n - i))) addr n i.
Definition pipewrite (addr n : Z) : PM pres := pipewrite_from addr n 0.

Fixpoint piperead_loop (fuel : nat) (addr n i : Z) : PM pres :=
  match fuel with
  | O => λ _, NoFuel
  | S fuel =>
      if i <? n then
        s ← mget;
        let pi := ps_pipe s in
        if nread pi =? nwrite pi then pwakeup nwrite_chan ;; mret (PRet i) else
        ch ← mnth (data pi !! Z.to_nat (nread pi mod PIPESIZE));
        set_pipe (set_nread (u32 (nread pi + 1))) ;;
        let '(u, ok) := ucopyout (ps_mem s) (u64 (addr + i)) [ch] in
        set_mem u ;;
        if negb ok then pwakeup nwrite_chan ;; mret (PRet i) else
        piperead_loop fuel addr n (i + 1)
      else pwakeup nwrite_chan ;; mret (PRet i)
  end.

Definition piperead (addr n : Z) : PM pres :=
  s ← mget;
  let pi := ps_pipe s in
  if (nread pi =? nwrite pi) && negb (writeopen pi =? 0) then
    if ps_killed s then mret (PRet (-1)) else mret (PSleep 0)
  else piperead_loop (S (Z.to_nat n)) addr n 0.
End code.

(** ** The queue a pipe stands for *)

Record pipe_rep (p : pipe) (q : list Z) : Prop := {
  pr_len : length (data p) = 512%nat;
  pr_cap : (length q ≤ 512)%nat;
  pr_nread : 0 ≤ nread p < 4294967296;
  pr_nwrite : nwrite p = u32 (nread p + Z.of_nat (length q));
  pr_data k : (k < length q)%nat → data p !! Z.to_nat ((nread p + Z.of_nat k) mod 512) = q !! k
}.

Lemma pipe_full p q : pipe_rep p q → (nwrite p =? u32 (nread p + PIPESIZE)) = bool_decide (length q = 512%nat).
Proof.
  intros Hr. rewrite (pr_nwrite _ _ Hr). pose proof (pr_cap _ _ Hr). pose proof (pr_nread _ _ Hr). unfold PIPESIZE.
  case_bool_decide as Hq; [rewrite Hq; apply Z.eqb_refl|]. apply Z.eqb_neq. wordlia.
Qed.

Lemma pipe_empty p q : pipe_rep p q → (nread p =? nwrite p) = bool_decide (q = []).
Proof.
  intros Hr. rewrite (pr_nwrite _ _ Hr). pose proof (pr_cap _ _ Hr). pose proof (pr_nread _ _ Hr).
  case_bool_decide as Hq.
  - subst q. cbn. apply Z.eqb_eq. wordlia.
  - apply Z.eqb_neq. assert (length q ≠ 0%nat) by (by destruct q). wordlia.
Qed.

Lemma u32_mod512 x : u32 x mod 512 = x mod 512.
Proof. apply Z.mod_mod_divide. by exists 8388608. Qed.

Lemma pipe_put p q ch :
  pipe_rep p q → (length q < 512)%nat → pipe_rep (put_byte ch p) (q ++ [ch]).
Proof.
  intros Hr Hlt. pose proof (pr_nread _ _ Hr) as Hn. pose proof (pr_nwrite _ _ Hr) as Hw. unfold put_byte, PIPESIZE.
  split; cbn [data nread nwrite].
  - by rewrite length_insert, (pr_len _ _ Hr).
  - rewrite length_app. cbn. lia.
  - done.
  - rewrite Hw, length_app. cbn [length]. wordlia.
  - intros k. rewrite length_app. cbn [length]. intros Hk.
    assert (nwrite p mod 512 = (nread p + Z.of_nat (length q)) mod 512) as Hm.
    { by rewrite Hw, u32_mod512. }
    rewrite Hm. destruct (decide (k = length q)) as [->|Hne].
    + rewrite list_lookup_insert_eq, lookup_app_r, Nat.sub_diag; [done|lia|]. rewrite (pr_len _ _ Hr). zlia.
    + rewrite lookup_app_l by lia. rewrite list_lookup_insert_ne; [apply (pr_data _ _ Hr); lia|]. zlia.
Qed.

Lemma pipe_get p ch q :
  pipe_rep p (ch :: q) →
  data p !! Z.to_nat (nread p mod PIPESIZE) = Some ch ∧ pipe_rep (set_nread (u32 (nread p + 1)) p) q.
Proof.
  intros Hr. pose proof (pr_nread _ _ Hr) as Hn. pose proof (pr_cap _ _ Hr) as Hcap. cbn [length] in Hcap. split.
  - pose proof (pr_data _ _ Hr 0%nat) as Hd. cbn in Hd. rewrite Z.add_0_r in Hd. apply Hd. lia.
  - split; cbn [data nread nwrite set_nread].
    + apply Hr.
    + lia.
    + apply u32_range.
    + rewrite (pr_nwrite _ _ Hr). cbn [length]. wordlia.
    + intros k Hk. change (q !! k) with ((ch :: q) !! S k). rewrite <-(pr_data _ _ Hr (S k)) by (cbn; lia). f_equal. f_equal. rewrite <-Zplus_mod_idemp_l, u32_mod512, Zplus_mod_idemp_l. f_equal. lia.
Qed.

(** ** What a step does to the queue *)
Section spec.
Context {U : Type} `{UM : UserMem U}.
Implicit Types (s : pst U) (m : U) (q : list Z).

(** The bytes at [addr + i] that can be copied in, at most [k] of them. *)
Fixpoint copyable m (addr i : Z) (k : nat) : list Z :=
  match k with
  | O => []
  | S k =>
      match ucopyin m (u64 (addr + i)) 1 with
      | ([ch], true) => ch :: copyable m addr (i + 1) k
      | _ => []
      end
  end.

(** Bytes taken from the queue, copied out from [addr + i] on: the memory, the
    bytes taken, and how many were delivered. *)
Fixpoint deliver m (addr i : Z) (k : nat) q : U * list Z * Z :=
  match k, q with
  | S k, ch :: q =>
      let '(m', ok) := ucopyout m (u64 (addr + i)) [ch] in
      if ok : bool then let '(m'', l, j) := deliver m' addr (i + 1) k q in (m'', ch :: l, j) else (m', [ch], i)
  | _, _ => (m, [], i)
  end.

Lemma copyable_length m addr i k : (length (copyable m addr i k) ≤ k)%nat.
Proof.
  revert i. induction k as [|k IH]; intros i; cbn [copyable]; [done|].
  destruct (ucopyin m (u64 (addr + i)) 1) as [[|ch [|]] []]; cbn; try lia. specialize (IH (i + 1)). lia.
Qed.

(** How [pipewrite] goes on from byte [i] with [k] bytes left to write. *)
Definition write_end (n i : Z) (k : nat) (l : list Z) : pres :=
  if decide (length l < k)%nat then PRet (i + Z.of_nat (length l))
  else if decide (i + Z.of_nat (length l) < n) then PSleep (i + Z.of_nat (length l)) else PRet (i + Z.of_nat (length l)).

Lemma pipewrite_loop_spec fuel : ∀ p q m w addr n i,
  pipe_rep p q → readopen p ≠ 0 → (Z.to_nat (n - i) < fuel)%nat →
  let k := Nat.min (Z.to_nat (n - i)) (512 - length q) in
  let l := copyable m addr i k in
  ∃ p', pipewrite_loop fuel addr n i (PSt p m false w) = Ret (write_end n i k l) (PSt p' m false (w ++ [nread_chan])) ∧
    pipe_rep p' (q ++ l) ∧ readopen p' = readopen p ∧ writeopen p' = writeopen p.
Proof.
  induction fuel as [|fuel IH]; intros p q m w addr n i Hr Ho Hf; [lia|]. intros k l. cbn [pipewrite_loop].
  pose proof (pr_cap _ _ Hr) as Hcap. destruct (Z.ltb_spec i n) as [Hlt|Hge].
  2:{ assert (k = O) as Hk by (unfold k; lia). assert (l = []) as -> by (unfold l; by rewrite Hk). exists p. rewrite app_nil_r.
      split_and!; try done. unfold write_end. cbn [length]. rewrite Hk. repeat case_decide; try lia. by rewrite Z.add_0_r. }
  rewrite mget_bind. cbn [ps_pipe ps_killed ps_mem]. rewrite (proj2 (Z.eqb_neq _ _)) by done. cbn [orb].
  rewrite (pipe_full p q Hr). case_bool_decide as Hfull.
  { assert (k = O) as Hk by (unfold k; lia). assert (l = []) as -> by (unfold l; by rewrite Hk). exists p. rewrite app_nil_r.
    split_and!; try done. unfold write_end. cbn [length]. rewrite Hk. repeat case_decide; try lia. by rewrite Z.add_0_r. }
  destruct k as [|k'] eqn:Hk; [lia|]. cbn [copyable] in l. unfold l.
  assert (∀ r : list Z * bool, copyable m addr i (S k') = [] → ∃ p',
    (pwakeup nread_chan ;; mret (PRet i)) (PSt p m false w) = Ret (write_end n i (S k') []) (PSt p' m false (w ++ [nread_chan])) ∧
    pipe_rep p' (q ++ []) ∧ readopen p' = readopen p ∧ writeopen p' = writeopen p) as Hstop.
  { intros _ _. exists p. rewrite app_nil_r. split_and!; try done. unfold write_end. cbn [length].
    rewrite decide_True by lia. by rewrite Z.add_0_r. }
  cbn [copyable] in Hstop. destruct (ucopyin m (u64 (addr + i)) 1) as [[|ch [|]] []] eqn:Ec; try (by apply (Hstop ([], false))).
  assert (length q < 512)%nat as Hq by lia. pose proof (pipe_put p q ch Hr Hq) as Hr'.
  destruct (IH (put_byte ch p) (q ++ [ch]) m w addr n (i + 1) Hr' Ho ltac:(lia)) as (p' & Hrun & Hrep & Hro & Hwo).
  rewrite length_app in Hrun, Hrep. cbn [length] in Hrun, Hrep.
  replace (Nat.min (Z.to_nat (n - (i + 1))) (512 - (length q + 1))) with k' in Hrun, Hrep by lia.
  exists p'. split_and!; [|by rewrite <-app_assoc in Hrep|done|done].
  unfold set_pipe. rewrite modify_bind. cbn [ps_pipe ps_mem ps_killed ps_woken]. rewrite Hrun. f_equal.
  unfold write_end. cbn [length]. replace (i + 1 + Z.of_nat (length (copyable m addr (i + 1) k')))
    with (i + Z.of_nat (S (length (copyable m addr (i + 1) k')))) by lia.
  repeat case_decide; (done || lia).
Qed.

Lemma piperead_loop_spec fuel : ∀ p q m w addr n i,
  pipe_rep p q → (Z.to_nat (n - i) < fuel)%nat →
  let '(m', l, j) := deliver m addr i (Z.to_nat (n - i)) q in
  ∃ p' q', piperead_loop fuel addr n i (PSt p m false w) = Ret (PRet j) (PSt p' m' false (w ++ [nwrite_chan])) ∧
    q = l ++ q' ∧ pipe_rep p' q' ∧ readopen p' = readopen p ∧ writeopen p' = writeopen p ∧
    nread p' = u32 (nread p + Z.of_nat (length l)) ∧ data p' = data p.
Proof.
  induction fuel as [|fuel IH]; intros p q m w addr n i Hr Hf; [lia|]. cbn [piperead_loop].
  assert (nread p = u32 (nread p + Z.of_nat 0)) as Hn0 by (rewrite Z.add_0_r, u32_small; [done|apply Hr]).
  destruct (Z.ltb_spec i n) as [Hlt|Hge].
  2:{ replace (Z.to_nat (n - i)) with O by lia. cbn [deliver]. exists p, q. by split_and!. }
  destruct (Z.to_nat (n - i)) as [|k] eqn:Hk; [lia|]. rewrite mget_bind. cbn [ps_pipe ps_mem].
  rewrite (pipe_empty p q Hr). destruct q as [|ch q].
  { rewrite bool_decide_true by done. cbn [deliver]. exists p, []. by split_and!. }
  rewrite bool_decide_false by done. destruct (pipe_get p ch q Hr) as [Hch Hr']. rewrite Hch. cbn [deliver mnth].
  destruct (ucopyout m (u64 (addr + i)) [ch]) as [m1 ok] eqn:Eo.
  unfold set_pipe, set_mem, mret, M_ret, mbind, M_bind, modify. cbn [ps_pipe ps_mem ps_killed ps_woken]. rewrite Eo.
  destruct ok; cbn [negb].
  2:{ exists (set_nread (u32 (nread p + 1)) p), q. split_and!; done. }
  specialize (IH (set_nread (u32 (nread p + 1)) p) q m1 w addr n (i + 1) Hr' ltac:(lia)).
  replace (Z.to_nat (n - (i + 1))) with k in IH by lia.
  destruct (deliver m1 addr (i + 1) k q) as [[m2 l] j]. destruct IH as (p' & q' & Hrun & -> & Hrep & ? & ? & Hnr & ?).
  exists p', q'. split_and!; try done. rewrite Hnr. cbn [nread set_nread length]. wordlia.
Qed.

Lemma deliver_killed fuel : ∀ p m killed w addr n i,
  piperead_loop fuel addr n i (PSt p m killed w) =
  match piperead_loop fuel addr n i (PSt p m false w) with
  | Ret r s => Ret r (PSt (ps_pipe s) (ps_mem s) killed (ps_woken s))
  | Panic e => Panic e
  | Sleep c s => Sleep c (PSt (ps_pipe s) (ps_mem s) killed (ps_woken s))
  | Fault => Fault
  | NoFuel => NoFuel
  end.
Proof.
  induction fuel as [|fuel IH]; intros p m killed w addr n i; [done|]. cbn [piperead_loop].
  destruct (i <? n); [|done]. rewrite !mget_bind. cbn [ps_pipe ps_mem]. destruct (nread p =? nwrite p); [done|].
  destruct (data p !! _) as [ch|]; [|done]. cbn [mnth].
  unfold set_pipe, set_mem, mret, M_ret, mbind, M_bind, modify. cbn [ps_pipe ps_mem ps_killed ps_woken].
  destruct (ucopyout m _ [ch]) as [m1 []]; cbn [negb]; [|done]. apply IH.
Qed.

(** A step that writes nothing. *)
Lemma pipewrite_refused p m killed w addr n i :
  (readopen p = 0 ∨ killed = true) →
  pipewrite_from addr n i (PSt p m killed w) =
    if i <? n then Ret (PRet (-1)) (PSt p m killed w) else Ret (PRet i) (PSt p m killed (w ++ [nread_chan])).
Proof.
  intros Hk. unfold pipewrite_from. cbn [pipewrite_loop]. destruct (i <? n); [|done]. rewrite mget_bind. cbn [ps_pipe ps_killed].
  destruct Hk as [-> | ->]; [done|]. by rewrite orb_true_r.
Qed.

Lemma copyable_again m addr i k : copyable m addr i (length (copyable m addr i k)) = copyable m addr i k.
Proof.
  revert i. induction k as [|k IH]; intros i; [done|]. cbn [copyable].
  destruct (ucopyin m (u64 (addr + i)) 1) as [[|ch [|]] []] eqn:E; try done. cbn [length copyable]. by rewrite E, IH.
Qed.

(** ** Many readers and writers *)

(** The bytes read between two states of the pipe. *)
Definition taken (p p' : pipe) : list Z :=
  (λ k, default 0 (data p !! Z.to_nat ((nread p + Z.of_nat k) mod 512))) <$> seq 0 (Z.to_nat (u32 (nread p' - nread p))).

Definition progress (r : pres) (i : Z) : nat := match r with PSleep j | PRet j => Z.to_nat (j - i) end.

(** [pipe_run p W R]: after any sequence of steps of any processes on a new pipe,
    [p] is its state, [W] what was taken from the writers' memory and [R] what
    readers took out. *)
Inductive pipe_run : pipe → list Z → list Z → Prop :=
| run_new junk : length junk = 512%nat → pipe_run (pipe_new junk) [] []
| run_write p W R m killed w addr n i r s' :
    pipe_run p W R → 0 ≤ i → pipewrite_from addr n i (PSt p m killed w) = Ret r s' →
    pipe_run (ps_pipe s') (W ++ copyable m addr i (progress r i)) R
| run_read p W R m killed w addr n r s' :
    pipe_run p W R → piperead addr n (PSt p m killed w) = Ret r s' →
    pipe_run (ps_pipe s') W (R ++ taken p (ps_pipe s'))
| run_close p W R writable m killed w b s' :
    pipe_run p W R → pipeclose writable (PSt p m killed w) = Ret b s' → pipe_run (ps_pipe s') W R.

Lemma taken_none p p' : 0 ≤ nread p < 4294967296 → nread p' = nread p → taken p p' = [].
Proof. intros Hr He. unfold taken. by rewrite He, Z.sub_diag. Qed.

Lemma taken_prefix p p' l q :
  pipe_rep p (l ++ q) → nread p' = u32 (nread p + Z.of_nat (length l)) → taken p p' = l.
Proof.
  intros Hr Hn. pose proof (pr_nread _ _ Hr). pose proof (pr_cap _ _ Hr) as Hc. rewrite length_app in Hc.
  unfold taken. rewrite Hn. replace (Z.to_nat (u32 _)) with (length l) by wordlia.
  apply list_eq. intros k. rewrite list_lookup_fmap. destruct (decide (k < length l)%nat) as [Hk|Hk].
  - rewrite lookup_seq_lt by done. cbn [fmap option_fmap option_map Nat.add].
    rewrite (pr_data _ _ Hr k) by (rewrite length_app; lia). rewrite lookup_app_l by done. by rewrite (nth_Some l k 0).
  - by rewrite lookup_seq_ge, lookup_ge_None_2 by lia.
Qed.

Lemma rep_close p q ro wo : pipe_rep p q → pipe_rep (Pipe (data p) (nread p) (nwrite p) ro wo) q.
Proof. intros []. by split. Qed.

Lemma pipe_inv p W R : pipe_run p W R → ∃ q, pipe_rep p q ∧ W = R ++ q.
Proof.
  induction 1 as [junk Hj|p W R m killed w addr n i r s' _ (q & Hr & ->) Hi Hrun|p W R m killed w addr n r s' _ (q & Hr & ->) Hrun|p W R wr m killed w b s' _ (q & Hr & ->) Hrun].
  - exists []. split; [|done]. split; cbn; (done || lia).
  - destruct (decide (readopen p = 0 ∨ killed = true)) as [Hk|Hk].
    { rewrite pipewrite_refused in Hrun by done. exists q. destruct (Z.ltb_spec i n); injection Hrun as <- <-; cbn [progress ps_pipe];
        (replace (Z.to_nat _) with O by lia); by rewrite app_nil_r. }
    assert (killed = false) as -> by (destruct killed; [tauto|done]).
    destruct (pipewrite_loop_spec (S (Z.to_nat (n - i))) p q m w addr n i Hr ltac:(tauto) ltac:(lia)) as (p' & Hrun' & Hr' & _).
    unfold pipewrite_from in Hrun. rewrite Hrun' in Hrun. injection Hrun as <- <-. set (l := copyable _ _ _ _) in *.
    exists (q ++ l). split; [done|]. rewrite <-app_assoc. f_equal. f_equal.
    replace (progress _ i) with (length l) by (unfold write_end; repeat case_decide; cbn; lia). apply copyable_again.
  - unfold piperead in Hrun. rewrite mget_bind in Hrun. cbn [ps_pipe ps_killed] in Hrun.
    destruct ((nread p =? nwrite p) && negb (writeopen p =? 0)).
    { exists q. assert (ps_pipe s' = p) as -> by (destruct killed; by injection Hrun as <- <-).
      by rewrite taken_none, app_nil_r by (done || apply Hr). }
    rewrite deliver_killed in Hrun.
    pose proof (piperead_loop_spec (S (Z.to_nat n)) p q m w addr n 0 Hr ltac:(lia)) as Hspec.
    destruct (deliver m addr 0 (Z.to_nat (n - 0)) q) as [[m' l] j]. destruct Hspec as (p' & q' & Hrun' & -> & Hr' & _ & _ & Hn & _).
    rewrite Hrun' in Hrun. injection Hrun as <- <-. cbn [ps_pipe]. exists q'. split; [done|].
    by rewrite (taken_prefix p p' l q' Hr Hn), <-app_assoc.
  - exists q. split; [|done]. destruct wr; injection Hrun as <- <-; by apply rep_close.
Qed.


Context `{UL : !UserMemLaws U}.

Lemma copyable_all m addr i k l :
  0 ≤ addr + i → addr + i + Z.of_nat k < 18446744073709551616 →
  ucopyin m (addr + i) k = (l, true) → copyable m addr i k = l.
Proof.
  revert i l. induction k as [|k IH]; intros i l H0 H1 Hl.
  - destruct (ucopyin_app m (addr + i) 0 0 l) as (Hlen & _); [lia|lia|done|]. by destruct l.
  - destruct (ucopyin_app m (addr + i) 1 k l) as (Hlen & Hfst & Hrest); [lia|lia|done|].
    destruct l as [|ch l]; [done|]. cbn [take drop] in Hfst, Hrest. rewrite take_0 in Hfst. rewrite drop_0 in Hrest.
    cbn [copyable]. rewrite u64_small, Hfst by lia. f_equal. apply IH; [lia|lia|]. by replace (addr + (i + 1)) with (addr + i + Z.of_nat 1) by lia.
Qed.

(** [pipewrite] from byte [i] on, with the reader's end open, copies into the
    queue as many of the remaining bytes as there is room for, wakes readers, and
    returns when all are written or sleeps when the queue is full; with the
    reader's end closed, or a killed process, it returns -1 and writes nothing. *)
Theorem pipewrite_correct p q m killed w addr n i l :
  pipe_rep p q → 0 ≤ i < n → 0 ≤ addr → addr + n < 18446744073709551616 →
  ucopyin m (addr + i) (Z.to_nat (n - i)) = (l, true) →
  ((readopen p = 0 ∨ killed = true) → pipewrite_from addr n i (PSt p m killed w) = Ret (PRet (-1)) (PSt p m killed w)) ∧
  (readopen p ≠ 0 → killed = false → ∃ p',
    let k := Z.min (n - i) (512 - Z.of_nat (length q)) in
    pipewrite_from addr n i (PSt p m killed w) =
      Ret (if i + k <? n then PSleep (i + k) else PRet n) (PSt p' m killed (w ++ [nread_chan])) ∧
    pipe_rep p' (q ++ take (Z.to_nat k) l)).
Proof.
  intros Hr Hi Ha Hn Hl. split.
  { intros Hk. rewrite pipewrite_refused by done. by rewrite (proj2 (Z.ltb_lt _ _)) by lia. }
  intros Ho ->. pose proof (pr_cap _ _ Hr) as Hcap.
  destruct (pipewrite_loop_spec (S (Z.to_nat (n - i))) p q m w addr n i Hr Ho ltac:(lia)) as (p' & Hrun & Hr' & _).
  set (k := Nat.min _ _) in *.
  assert (copyable m addr i k = take k l) as Hc.
  { replace (Z.to_nat (n - i)) with (k + (Z.to_nat (n - i) - k))%nat in Hl by (unfold k; lia).
    destruct (ucopyin_app m (addr + i) k (Z.to_nat (n - i) - k) l ltac:(lia) ltac:(unfold k; lia) Hl) as (_ & Hk & _).
    apply copyable_all; [lia|unfold k; lia|done]. }
  assert (length (take k l) = k) as Hlen.
  { destruct (ucopyin_app m (addr + i) (Z.to_nat (n - i)) 0 l) as (Hll & _); [lia|lia|by rewrite Nat.add_0_r|]. rewrite length_take. unfold k. lia. }
  exists p'. cbv zeta. replace (Z.min (n - i) (512 - Z.of_nat (length q))) with (Z.of_nat k) by (unfold k; lia).
  rewrite Nat2Z.id. rewrite Hc in Hrun, Hr'. split; [|done]. unfold pipewrite_from. rewrite Hrun. f_equal.
  unfold write_end. rewrite Hlen, decide_False by lia. destruct (Z.ltb_spec (i + Z.of_nat k) n); case_decide; try lia; [done|].
  f_equal. unfold k in *. lia.
Qed.

(** [piperead] on a pipe with data copies out the first bytes of the queue, as
    many as asked for and there are, removes them, wakes writers and returns
    their number; on an empty pipe it returns 0 once the writers are gone, and
    else sleeps, or returns -1 if the process was killed. *)
Theorem piperead_correct p q m killed w addr n :
  pipe_rep p q → 0 ≤ n → 0 ≤ addr → addr + n < 18446744073709551616 →
  let k := Nat.min (Z.to_nat n) (length q) in
  snd (ucopyout m addr (take k q)) = true →
  (q ≠ [] ∨ writeopen p = 0 → ∃ p',
    piperead addr n (PSt p m killed w) =
      Ret (PRet (Z.of_nat k)) (PSt p' (fst (ucopyout m addr (take k q))) killed (w ++ [nwrite_chan])) ∧
    pipe_rep p' (drop k q)) ∧
  (q = [] → writeopen p ≠ 0 →
    piperead addr n (PSt p m killed w) = Ret (if killed then PRet (-1) else PSleep 0) (PSt p m killed w)).
Proof.
  intros Hr Hn Ha Hmax k Hok. split.
  2:{ intros -> Ho. unfold piperead. rewrite mget_bind. cbn [ps_pipe ps_killed]. rewrite (pipe_empty p [] Hr), bool_decide_true by done.
      rewrite (proj2 (Z.eqb_neq _ _)) by done. by destruct killed. }
  intros Hdata. assert (∀ k m q i, 0 ≤ i → addr + i + Z.of_nat k < 18446744073709551616 → snd (ucopyout m (addr + i) (take k q)) = true →
    deliver m addr i k q = (fst (ucopyout m (addr + i) (take k q)), take k q, i + Z.of_nat (Nat.min k (length q)))) as Hdel.
  { clear -Ha UL. induction k as [|k IH]; intros m q i Hi Hmax Hok.
    { rewrite take_0, ucopyout_nil. cbn. f_equal. lia. }
    destruct q as [|ch q]; [rewrite take_nil, ucopyout_nil; cbn; f_equal; lia|]. cbn [deliver take].
    cbn [take] in Hok. rewrite (u64_small (addr + i)) by lia. change (ch :: take k q) with ([ch] ++ take k q) in Hok |- *.
    assert (length ([ch] ++ take k q) ≤ S k)%nat as Hlen by (cbn; rewrite length_take; lia).
    rewrite ucopyout_app in Hok |- * by lia. destruct (ucopyout m (addr + i) [ch]) as [m' []]; [|done].
    cbn [length] in *. replace (addr + i + Z.of_nat 1) with (addr + (i + 1)) in * by lia.
    rewrite IH by (done || lia). cbn [app Nat.min]. f_equal. lia. }
  unfold piperead. rewrite mget_bind. cbn [ps_pipe ps_killed]. rewrite (pipe_empty p q Hr).
  replace (bool_decide (q = []) && negb (writeopen p =? 0)) with false.
  2:{ symmetry. case_bool_decide; [|done]. destruct Hdata as [?|Hw]; [done|]. by rewrite Hw. }
  rewrite deliver_killed. pose proof (piperead_loop_spec (S (Z.to_nat n)) p q m w addr n 0 Hr ltac:(lia)) as Hspec.
  rewrite Z.sub_0_r in Hspec.
  assert (take (Z.to_nat n) q = take k q) as Htk.
  { unfold k. destruct (decide (Z.to_nat n ≤ length q)%nat); [by rewrite Nat.min_l|]. rewrite Nat.min_r, !take_ge by lia. done. }
  rewrite Hdel, Z.add_0_r, Htk in Hspec by (rewrite ?Z.add_0_r, ?Htk; (done || lia)). rewrite Z.add_0_l in Hspec.
  destruct Hspec as (p' & q' & Hrun & Hq & Hr' & _). exists p'. rewrite Hrun. cbn [ps_pipe ps_mem ps_woken]. split; [done|].
  replace (drop k q) with q'; [done|]. rewrite Hq at 1. rewrite <-Hq. rewrite <-(take_drop k q) in Hq at 1. by apply app_inv_head in Hq.
Qed.

(** A byte that cannot be copied out is lost: it leaves the queue, but
    [piperead] does not count it. *)
Theorem piperead_loses_byte p ch q m m' killed w addr n :
  pipe_rep p (ch :: q) → 0 < n → 0 ≤ addr < 18446744073709551616 → ucopyout m addr [ch] = (m', false) →
  ∃ p', piperead addr n (PSt p m killed w) = Ret (PRet 0) (PSt p' m' killed (w ++ [nwrite_chan])) ∧ pipe_rep p' q.
Proof.
  intros Hr Hn Ha Hc. unfold piperead. rewrite mget_bind. cbn [ps_pipe ps_killed]. rewrite (pipe_empty _ _ Hr), bool_decide_false by done.
  cbn [andb]. rewrite deliver_killed. pose proof (piperead_loop_spec (S (Z.to_nat n)) p (ch :: q) m w addr n 0 Hr ltac:(lia)) as Hspec.
  destruct (Z.to_nat (n - 0)) as [|k] eqn:E; [lia|]. cbn [deliver] in Hspec. rewrite Z.add_0_r, u64_small, Hc in Hspec by lia.
  destruct Hspec as (p' & q' & Hrun & Hq & Hr' & _). injection Hq as <-. exists p'. rewrite Hrun. done.
Qed.
End spec.

(** ** Examples: processes that read the letter A everywhere *)
Module PipeDemo.
Definition mem_A : UserMem unit := {|
  ucopyout _ _ _ := (tt, true);
  ucopyin _ _ n := (replicate n 65, true);
  ucopyinstr _ _ _ := None
|}.

Lemma mem_A_laws : @UserMemLaws unit mem_A.
Proof.
  split; cbn; [done|by intros []|]. intros m src n1 n2 l _ _ [= <-].
  rewrite length_replicate, take_replicate, drop_replicate, Nat.min_l by lia. split_and!; [done|done|]. do 2 f_equal. lia.
Qed.

(** Memory that cannot be written. *)
Definition mem_ro : UserMem unit := {|
  ucopyout _ _ l := (tt, match l with [] => true | _ => false end);
  ucopyin _ _ n := (replicate n 65, true);
  ucopyinstr _ _ _ := None
|}.

Lemma mem_ro_laws : @UserMemLaws unit mem_ro.
Proof.
  split; cbn.
  - intros m dst [|x a] b _ _; [by destruct m|done].
  - by intros [].
  - intros m src n1 n2 l _ _ [= <-]. rewrite length_replicate, take_replicate, drop_replicate, Nat.min_l by lia.
    split_and!; [done|done|]. do 2 f_equal. lia.
Qed.

Definition fresh : pipe := pipe_new (replicate 512 0).

Lemma fresh_rep : pipe_rep fresh [].
Proof. split; cbn; (done || lia). Qed.

Definition holds_A : pipe := put_byte 65 fresh.

Lemma holds_A_rep : pipe_rep holds_A [65].
Proof. apply (pipe_put fresh [] 65 fresh_rep). cbn. lia. Qed.
End PipeDemo.


Lemma pipewrite_correct_witness : ∃ p', @pipewrite_from unit PipeDemo.mem_A 4096 3 0 (PSt PipeDemo.fresh tt false []) =
  Ret (PRet 3) (PSt p' tt false [nread_chan]).
Proof.
  destruct (@pipewrite_correct unit PipeDemo.mem_A PipeDemo.mem_A_laws PipeDemo.fresh [] tt false [] 4096 3 0 [65; 65; 65]
    PipeDemo.fresh_rep ltac:(lia) ltac:(lia) ltac:(lia) eq_refl) as [_ Hw].
  destruct (Hw ltac:(done) eq_refl) as (p' & Hrun & _). exists p'. exact Hrun.
Defined.

Lemma piperead_correct_witness : ∃ p', @piperead unit PipeDemo.mem_A 4096 10 (PSt PipeDemo.holds_A tt false []) =
  Ret (PRet 1) (PSt p' tt false [nwrite_chan]).
Proof.
  destruct (@piperead_correct unit PipeDemo.mem_A PipeDemo.mem_A_laws PipeDemo.holds_A [65] tt false [] 4096 10
    PipeDemo.holds_A_rep ltac:(lia) ltac:(lia) ltac:(lia) eq_refl) as [Hr _].
  destruct (Hr ltac:(by left)) as (p' & Hrun & _). exists p'. exact Hrun.
Defined.

Lemma piperead_loses_byte_witness : ∃ p', @piperead unit PipeDemo.mem_ro 4096 10 (PSt PipeDemo.holds_A tt false []) =
  Ret (PRet 0) (PSt p' tt false [nwrite_chan]) ∧ pipe_rep p' [].
Proof.
  exact (@piperead_loses_byte unit PipeDemo.mem_ro PipeDemo.holds_A 65 [] tt tt false [] 4096 10
    PipeDemo.holds_A_rep ltac:(lia) ltac:(lia) eq_refl).
Defined.
