(* ===== verification/Spinlock.v ===== *)
(** * Spinlocks: kernel/spinlock.c

    [push_off] and [pop_off] on the state of one CPU, and a lock shared by all
    CPUs, which run [acquire] and [release] one shared access at a time in any
    interleaving. *)
From Stdlib Require Import ZArith Lia.
From stdpp Require Import prelude functions strings relations.
From S2P Require Import Prelude.

(** The fields of [struct cpu] for locks, and the CPU's interrupt-enable bit. *)
Record cpu := Cpu { noff : Z; intena : bool; sie : bool }.

Definition intr_get : M cpu bool := gets sie.
Definition intr_off : M cpu unit := modify (λ c, Cpu (noff c) (intena c) false).
Definition intr_on : M cpu unit := modify (λ c, Cpu (noff c) (intena c) true).

Definition push_off : M cpu unit :=
  old ← intr_get;
  intr_off ;;
  c ← mget;
  mwhen (noff c =? 0) (modify (λ c, Cpu (noff c) old (sie c))) ;;
  modify (λ c, Cpu (s32 (noff c + 1)) (intena c) (sie c)).

Definition pop_off : M cpu unit :=
  i ← intr_get;
  if (i : bool) then panic "pop_off - interruptible" else
  c ← mget;
  if noff c <? 1 then panic "pop_off" else
  modify (λ c, Cpu (noff c - 1) (intena c) (sie c)) ;;
  c ← mget;
  mwhen ((noff c =? 0) && intena c) intr_on.

(** [lcpu]: the holder, none for the null pointer. *)
Record spinlock := Spinlock { locked : Z; lcpu : option nat }.

Definition initlock : spinlock := Spinlock 0 None.

Definition holding (lk : spinlock) (id : nat) : bool :=
  negb (locked lk =? 0) && bool_decide (lcpu lk = Some id).

(** ** Nesting *)

(** Calls of [push_off] ([true]) and [pop_off]. *)
Fixpoint run_offs (l : list bool) : M cpu unit :=
  match l with
  | [] => mret tt
  | b :: l => (if b : bool then push_off else pop_off) ;; run_offs l
  end.

Inductive balanced : list bool → Prop :=
| bal_nil : balanced []
| bal_nest l l' : balanced l → balanced l' → balanced (true :: l ++ false :: l').

(** The CPU between calls: interrupts are off inside, and outermost [intena]
    says whether to turn them on again. *)
Definition cpu_ok (c : cpu) : Prop :=
  0 ≤ noff c < 1000000 ∧ (0 < noff c → sie c = false).

Lemma push_off_run c :
  cpu_ok c → push_off c = Ret tt (Cpu (noff c + 1) (if noff c =? 0 then sie c else intena c) false).
Proof.
  intros [Hn Hs]. unfold push_off, intr_get, intr_off, gets, modify, mbind, M_bind, mget, mwhen. cbn [noff intena sie].
  destruct (noff c =? 0); cbn [noff intena sie mret M_ret]; by rewrite s32_small by lia.
Qed.

Lemma pop_off_run n ie :
  1 ≤ n → pop_off (Cpu n ie false) = Ret tt (Cpu (n - 1) ie ((n =? 1) && ie)).
Proof.
  intros Hn. unfold pop_off, intr_get, intr_on, gets, modify, mbind, M_bind, mget, mwhen. cbn [noff intena sie].
  rewrite (proj2 (Z.ltb_ge _ _)) by lia. cbn [noff intena sie].
  replace (n - 1 =? 0) with (n =? 1) by (destruct (Z.eqb_spec n 1), (Z.eqb_spec (n - 1) 0); (done || lia)).
  by destruct (n =? 1), ie.
Qed.

Lemma run_offs_app l l' c : run_offs (l ++ l') c = (run_offs l ;; run_offs l') c.
Proof.
  revert c. induction l as [|b l IH]; intros c; [done|]. cbn [app run_offs]. unfold mbind, M_bind in *.
  by destruct ((if b then push_off else pop_off) c).
Qed.

(** Inside, a balanced run changes nothing. *)
Lemma run_inside l : balanced l → ∀ n ie, 1 ≤ n → n + Z.of_nat (length l) < 1000000 →
  run_offs l (Cpu n ie false) = Ret tt (Cpu n ie false).
Proof.
  induction 1 as [|l l' Hl IH Hl' IH']; intros n ie Hn Hlen; [done|].
  cbn [length] in Hlen. rewrite length_app in Hlen. cbn [length] in Hlen. cbn [run_offs]. unfold mbind, M_bind.
  rewrite push_off_run by (split; cbn; (lia || done)). cbn [noff intena sie].
  rewrite (proj2 (Z.eqb_neq n 0)) by lia. rewrite run_offs_app. unfold mbind, M_bind. rewrite IH by lia.
  cbn [run_offs]. unfold mbind, M_bind. rewrite pop_off_run by lia. rewrite (proj2 (Z.eqb_neq (n + 1) 1)) by lia. cbn [andb].
  replace (n + 1 - 1) with n by lia. apply IH'; lia.
Qed.

(** ** One lock, all CPUs *)

(** Where a CPU is in [acquire] or [release] of the lock. *)
Inductive spc :=
| Out          (* neither holds the lock nor is in a call *)
| AHolding     (* acquire, after push_off *)
| ASpin        (* before test-and-set *)
| AOwn         (* before [lk->cpu = mycpu()] *)
| In           (* holds the lock *)
| RUnlock      (* release, after [lk->cpu = 0] *)
| RPop         (* before pop_off *)
| SPanic (msg : string).

(** [s_nest i]: how many other [push_off]s CPU [i] has not undone yet. *)
Record sys := Sys { s_cpu : nat → cpu; s_pc : nat → spc; s_nest : nat → nat; s_lk : spinlock }.

Definition at_pc (st : sys) (i : nat) (p : spc) : sys :=
  Sys (s_cpu st) (<[i := p]> (s_pc st)) (s_nest st) (s_lk st).
Definition set_lk (st : sys) (lk : spinlock) : sys := Sys (s_cpu st) (s_pc st) (s_nest st) lk.
Definition set_cpu (st : sys) (i : nat) (c : cpu) : sys :=
  Sys (<[i := c]> (s_cpu st)) (s_pc st) (s_nest st) (s_lk st).
Definition set_nest (st : sys) (i n : nat) : sys :=
  Sys (s_cpu st) (s_pc st) (<[i := n]> (s_nest st)) (s_lk st).

Definition calm (p : spc) : bool := match p with Out | In => true | _ => false end.

Inductive sstep (st : sys) (i : nat) : sys → Prop :=
| SPush c' : s_pc st i = Out → push_off (s_cpu st i) = Ret tt c' →
    sstep st i (at_pc (set_cpu st i c') i AHolding)
| SHoldingPanic : s_pc st i = AHolding → holding (s_lk st) i = true →
    sstep st i (at_pc st i (SPanic "acquire"))
| SHolding : s_pc st i = AHolding → holding (s_lk st) i = false → sstep st i (at_pc st i ASpin)
| STestAndSet : s_pc st i = ASpin →
    sstep st i (at_pc (set_lk st (Spinlock 1 (lcpu (s_lk st)))) i (if locked (s_lk st) =? 0 then AOwn else ASpin))
| SOwn : s_pc st i = AOwn → sstep st i (at_pc (set_lk st (Spinlock (locked (s_lk st)) (Some i))) i In)
| SReleasePanic : s_pc st i = In → holding (s_lk st) i = false → sstep st i (at_pc st i (SPanic "release"))
| SRelease : s_pc st i = In → holding (s_lk st) i = true →
    sstep st i (at_pc (set_lk st (Spinlock (locked (s_lk st)) None)) i RUnlock)
| SUnlock : s_pc st i = RUnlock → sstep st i (at_pc (set_lk st (Spinlock 0 (lcpu (s_lk st)))) i RPop)
| SPop c' : s_pc st i = RPop → pop_off (s_cpu st i) = Ret tt c' → sstep st i (at_pc (set_cpu st i c') i Out)
| SPopPanic msg : s_pc st i = RPop → pop_off (s_cpu st i) = Panic msg → sstep st i (at_pc st i (SPanic msg))
(* what the code between the calls does to the CPU: other locks, and the
   interrupt bit while no lock is held *)
| SNestPush c' : calm (s_pc st i) = true → (s_nest st i < 1000)%nat → push_off (s_cpu st i) = Ret tt c' →
    sstep st i (set_nest (set_cpu st i c') i (S (s_nest st i)))
| SNestPop n c' : calm (s_pc st i) = true → s_nest st i = S n → pop_off (s_cpu st i) = Ret tt c' →
    sstep st i (set_nest (set_cpu st i c') i n)
| SIntr b : s_pc st i = Out → s_nest st i = O →
    sstep st i (set_cpu st i (Cpu (noff (s_cpu st i)) (intena (s_cpu st i)) b)).

Definition sany (st st' : sys) : Prop := ∃ i, sstep st i st'.

(** CPUs after boot. *)
Definition boot (st : sys) : Prop :=
  s_lk st = initlock ∧ ∀ i, s_pc st i = Out ∧ s_nest st i = O ∧ noff (s_cpu st i) = 0.

Definition holder_pc (p : spc) : bool := match p with AOwn | In | RUnlock => true | _ => false end.
Definition is_out (p : spc) : bool := match p with Out => true | _ => false end.

Record sinv (st : sys) : Prop := {
  si_one i j : holder_pc (s_pc st i) → holder_pc (s_pc st j) → i = j;
  si_locked i : holder_pc (s_pc st i) → locked (s_lk st) ≠ 0;
  si_held : locked (s_lk st) ≠ 0 → ∃ i, holder_pc (s_pc st i);
  si_cpu i : lcpu (s_lk st) = Some i ↔ s_pc st i = In;
  si_noff i : noff (s_cpu st i) = Z.of_nat (s_nest st i) + (if is_out (s_pc st i) then 0 else 1);
  si_nest i : (s_nest st i ≤ 1000)%nat;
  si_sie i : 0 < noff (s_cpu st i) → sie (s_cpu st i) = false;
  si_fine i msg : s_pc st i ≠ SPanic msg
}.

Lemma holding_spec st i : sinv st → holding (s_lk st) i = true ↔ s_pc st i = In.
Proof.
  intros Hi. unfold holding. rewrite andb_true_iff, bool_decide_eq_true, (si_cpu _ Hi). split; [tauto|].
  intros Hp. split; [|done]. apply negb_true_iff, Z.eqb_neq. apply (si_locked _ Hi i). by rewrite Hp.
Qed.

(** A step of CPU [i]: what has to be shown of [i] and of the lock. *)
Lemma sinv_step st st' i :
  sinv st →
  (∀ j, j ≠ i → s_pc st' j = s_pc st j ∧ s_cpu st' j = s_cpu st j ∧ s_nest st' j = s_nest st j) →
  (holder_pc (s_pc st' i) → locked (s_lk st') ≠ 0 ∧ ∀ j, j ≠ i → ¬ holder_pc (s_pc st j)) →
  (∀ j, j ≠ i → holder_pc (s_pc st j) → locked (s_lk st') ≠ 0) →
  (locked (s_lk st') ≠ 0 → ∃ j, holder_pc (s_pc st' j)) →
  (lcpu (s_lk st') = Some i ↔ s_pc st' i = In) →
  (∀ j, j ≠ i → lcpu (s_lk st') = Some j ↔ s_pc st j = In) →
  (noff (s_cpu st' i) = Z.of_nat (s_nest st' i) + (if is_out (s_pc st' i) then 0 else 1)) →
  (s_nest st' i ≤ 1000)%nat → (0 < noff (s_cpu st' i) → sie (s_cpu st' i) = false) →
  (∀ msg, s_pc st' i ≠ SPanic msg) → sinv st'.
Proof.
  intros Hi Hsame Hown Hlk Hheld Hci Hcj Hn Hnest Hs Hp.
  split; [| |exact Hheld|..]; intros j; destruct (decide (j = i)) as [->|Hne]; try done;
    try (destruct (Hsame j Hne) as (Hpj & Hcpj & Hnj); rewrite ?Hpj, ?Hcpj, ?Hnj); try apply Hi; auto.
  - intros k Hhi Hhk. destruct (decide (k = i)) as [->|Hk]; [done|]. destruct (Hsame k Hk) as (Hpk & _). rewrite Hpk in Hhk.
    exfalso. by eapply (proj2 (Hown Hhi)).
  - intros k Hhj Hhk. destruct (decide (k = i)) as [->|Hk]; [by destruct (proj2 (Hown Hhk) j Hne)|].
    destruct (Hsame k Hk) as (Hpk & _). rewrite Hpk in Hhk. by eapply (si_one _ Hi).
  - intros Hh. by destruct (Hown Hh).
  - by apply Hlk.
Qed.

Lemma others_out st i : sinv st → holder_pc (s_pc st i) → ∀ j, j ≠ i → ¬ holder_pc (s_pc st j).
Proof. intros Hi Hh j Hne Hj. by eapply Hne, (si_one _ Hi). Qed.

Lemma cpu_fine st i : sinv st → cpu_ok (s_cpu st i).
Proof.
  intros Hi. split; [|apply Hi]. rewrite (si_noff _ Hi). pose proof (si_nest _ Hi i). destruct (is_out _); lia.
Qed.

(** Where CPU [i] does not touch the lock. *)
Lemma sinv_cpu st st' i :
  sinv st → s_lk st' = s_lk st →
  (∀ j, j ≠ i → s_pc st' j = s_pc st j ∧ s_cpu st' j = s_cpu st j ∧ s_nest st' j = s_nest st j) →
  (holder_pc (s_pc st' i) ↔ holder_pc (s_pc st i)) → (s_pc st' i = In ↔ s_pc st i = In) →
  (noff (s_cpu st' i) = Z.of_nat (s_nest st' i) + (if is_out (s_pc st' i) then 0 else 1)) →
  (s_nest st' i ≤ 1000)%nat → (0 < noff (s_cpu st' i) → sie (s_cpu st' i) = false) →
  (∀ msg, s_pc st' i ≠ SPanic msg) → sinv st'.
Proof.
  intros Hi Hlk Hsame Hh Hin Hn Hnest Hs Hp. eapply sinv_step; try done; rewrite Hlk.
  - rewrite Hh. intros Hhi. split; [by eapply (si_locked _ Hi)|by apply others_out].
  - intros j _. apply (si_locked _ Hi).
  - intros Hl. destruct (si_held _ Hi Hl) as [j Hj]. exists j. destruct (decide (j = i)) as [->|Hne]; [by apply Hh|].
    by destruct (Hsame j Hne) as (-> & _).
  - rewrite Hin. apply (si_cpu _ Hi).
  - intros j _. apply (si_cpu _ Hi).
Qed.

Ltac sfn := cbn [s_pc s_cpu s_nest s_lk at_pc set_cpu set_lk set_nest locked lcpu];
  rewrite ?fn_lookup_insert.
Ltac sothers := let j := fresh "j" in let Hj := fresh "Hj" in
  intros j Hj; sfn; rewrite ?fn_lookup_insert_ne by done; done.

(** A step inside [acquire] or [release]: the CPU record is unchanged. *)
Lemma sinv_lock st i p lk :
  sinv st → s_pc st i ≠ Out → is_out p = false → (∀ msg, p ≠ SPanic msg) →
  (holder_pc p → locked lk ≠ 0 ∧ ∀ j, j ≠ i → ¬ holder_pc (s_pc st j)) →
  (∀ j, j ≠ i → holder_pc (s_pc st j) → locked lk ≠ 0) →
  (locked lk ≠ 0 → holder_pc p ∨ ∃ j, j ≠ i ∧ holder_pc (s_pc st j)) →
  (lcpu lk = Some i ↔ p = In) → (∀ j, j ≠ i → lcpu lk = Some j ↔ s_pc st j = In) →
  sinv (at_pc (set_lk st lk) i p).
Proof.
  intros Hi Hno Hout Hp Hown Hlk Hheld Hci Hcj. apply (sinv_step st _ i); sfn; try done.
  - sothers.
  - intros [Hh|(j & Hne & Hj)]%Hheld; [exists i; by rewrite fn_lookup_insert|].
    exists j. by rewrite fn_lookup_insert_ne.
  - rewrite Hout, (si_noff _ Hi). by destruct (s_pc st i).
  - apply Hi.
  - apply Hi.
Qed.

Lemma sinv_sstep st i st' : sstep st i st' → sinv st → sinv st'.
Proof.
  intros Hstep Hi. pose proof (cpu_fine st i Hi) as Hok. pose proof (si_noff _ Hi i) as Hn. pose proof (si_nest _ Hi i) as Hnest.
  destruct Hstep as [c' Hpc Hrun|Hpc Hh|Hpc Hh|Hpc|Hpc|Hpc Hh|Hpc Hh|Hpc|c' Hpc Hrun|msg Hpc Hrun|c' Hpc Hlt Hrun|n c' Hpc Hne Hrun|b Hpc Hne].
  - rewrite (push_off_run _ Hok) in Hrun. injection Hrun as <-. rewrite Hpc in Hn. cbn in Hn.
    apply (sinv_cpu st _ i); sfn; rewrite ?Hpc; cbn; (done || lia || sothers).
  - apply (holding_spec _ _ Hi) in Hh. congruence.
  - apply (sinv_cpu st _ i); sfn; rewrite ?Hpc; cbn; try (done || sothers); [by rewrite Hpc in Hn|apply Hok].
  - destruct (Z.eqb_spec (locked (s_lk st)) 0) as [Hz|Hz].
    + assert (∀ j, ¬ holder_pc (s_pc st j)) as Hnone by (intros j Hj; by apply (si_locked _ Hi) in Hj).
      apply sinv_lock; try done; [by rewrite Hpc|..].
      * by left.
      * split; [|done]. cbn. rewrite (si_cpu _ Hi). congruence.
      * intros j _. apply (si_cpu _ Hi).
    + apply sinv_lock; try done; [by rewrite Hpc|..].
      * intros _. right. destruct (si_held _ Hi Hz) as [j Hj]. exists j. split; [|done]. intros ->. by rewrite Hpc in Hj.
      * split; [|done]. cbn. rewrite (si_cpu _ Hi). congruence.
      * intros j _. apply (si_cpu _ Hi).
  - assert (holder_pc (s_pc st i)) as Hhi by (by rewrite Hpc). pose proof (others_out _ _ Hi Hhi) as Hoth.
    apply sinv_lock; try done; [by rewrite Hpc|..].
    + intros _. split; [by eapply (si_locked _ Hi)|done].
    + intros j Hj Hhj. by destruct (Hoth j Hj).
    + by left.
    + intros j Hj. cbn. split; [congruence|]. intros Hin. destruct (Hoth j Hj). by rewrite Hin.
  - assert (holding (s_lk st) i = true) by (by apply (holding_spec _ _ Hi)). congruence.
  - assert (holder_pc (s_pc st i)) as Hhi by (by rewrite Hpc). pose proof (others_out _ _ Hi Hhi) as Hoth.
    apply sinv_lock; try done; [by rewrite Hpc|..].
    + intros _. split; [by eapply (si_locked _ Hi)|done].
    + intros j Hj Hhj. by destruct (Hoth j Hj).
    + by left.
    + intros j Hj. cbn. split; [congruence|]. intros Hin. destruct (Hoth j Hj). by rewrite Hin.
  - assert (holder_pc (s_pc st i)) as Hhi by (by rewrite Hpc). pose proof (others_out _ _ Hi Hhi) as Hoth.
    apply sinv_lock; try done; [by rewrite Hpc|..].
    + intros j Hj Hhj. by destruct (Hoth j Hj).
    + cbn. rewrite (si_cpu _ Hi). split; [congruence|done].
    + intros j _. apply (si_cpu _ Hi).
  - rewrite Hpc in Hn. cbn in Hn. destruct Hok as [_ Hsie]. destruct (s_cpu st i) as [n ie se] eqn:Ec. cbn in Hn, Hsie.
    rewrite Hsie, pop_off_run in Hrun by lia. injection Hrun as <-.
    apply (sinv_cpu st _ i); sfn; rewrite ?Hpc; cbn; try (done || lia || sothers).
  - rewrite Hpc in Hn. cbn in Hn. destruct Hok as [_ Hsie]. destruct (s_cpu st i) as [n ie se] eqn:Ec. cbn in Hn, Hsie.
    rewrite Hsie, pop_off_run in Hrun by lia. done.
  - rewrite (push_off_run _ Hok) in Hrun. injection Hrun as <-.
    apply (sinv_cpu st _ i); sfn; cbn; (done || lia || sothers || apply Hi).
  - destruct Hok as [_ Hsie]. destruct (s_cpu st i) as [k ie se] eqn:Ec. cbn in Hn, Hsie. rewrite Hne in Hn.
    rewrite Hsie, pop_off_run in Hrun by (destruct (is_out _); lia). injection Hrun as <-.
    apply (sinv_cpu st _ i); sfn; cbn; try (done || lia || sothers || apply Hi).
  - rewrite Hpc, Hne in Hn. cbn in Hn.
    apply (sinv_cpu st _ i); sfn; rewrite ?Hpc; cbn; try (done || lia || sothers).
Qed.

Lemma sinv_reach st0 st : boot st0 → rtc sany st0 st → sinv st.
Proof.
  intros [Hlk Hb] Hreach. assert (sinv st0) as Hi0.
  { split; try (intros i; destruct (Hb i) as (Hp & Hn & Hc); rewrite ?Hp, ?Hlk, ?Hn, ?Hc; cbn; (done || lia)).
    by rewrite Hlk. }
  clear Hb Hlk. induction Hreach as [|st1 st2 st3 [i Hs] _ IH]; [done|]. by eapply IH, sinv_sstep.
Qed.

(** C27: in every state the CPUs can reach, at most one of them is between the end
    of [acquire] and the start of [release], with interrupts off, and it is the
    one [holding] says; no call panics. *)
Theorem spinlock_mutual_exclusion st0 st :
  boot st0 → rtc sany st0 st →
  (∀ i j, s_pc st i = In → s_pc st j = In → i = j) ∧
  (∀ i, s_pc st i = In → sie (s_cpu st i) = false) ∧
  (∀ i, holding (s_lk st) i = true ↔ s_pc st i = In) ∧
  (∀ i msg, s_pc st i ≠ SPanic msg).
Proof.
  intros Hb Hr. pose proof (sinv_reach _ _ Hb Hr) as Hi. split_and!.
  - intros i j Hpi Hpj. apply (si_one _ Hi); by rewrite ?Hpi, ?Hpj.
  - intros i Hpi. apply (si_sie _ Hi). rewrite (si_noff _ Hi), Hpi. cbn. lia.
  - intros i. by apply holding_spec.
  - apply (si_fine _ Hi).
Qed.

Definition booted : sys := Sys (λ _, Cpu 0 false true) (λ _, Out) (λ _, O) initlock.

Lemma spinlock_mutual_exclusion_witness : ∃ st, rtc sany booted st ∧ s_pc st 1%nat = In ∧ sie (s_cpu st 1%nat) = false.
Proof.
  assert (boot booted) as Hb by (split; [done|by intros i]).
  assert (∃ st, rtc sany booted st ∧ s_pc st 1%nat = In) as (st & Hr & Hp).
  { eexists. split.
    - eapply rtc_l; [exists 1%nat; by eapply SPush|]. eapply rtc_l; [exists 1%nat; by eapply SHolding|].
      eapply rtc_l; [exists 1%nat; by eapply STestAndSet|]. eapply rtc_l; [exists 1%nat; by eapply SOwn|]. apply rtc_refl.
    - done. }
  destruct (spinlock_mutual_exclusion booted st Hb Hr) as (_ & Hs & _). exists st. split; [exact Hr|]. split; [exact Hp|].
  exact (Hs 1%nat Hp).
Defined.

(** C28: [acquire] never blocks forever: from every reachable state in which a CPU
    spins, the CPUs can run on so that it gets the lock. *)
Theorem spinlock_progress st0 st i :
  boot st0 → rtc sany st0 st → s_pc st i = ASpin →
  ∃ st', rtc sany st st' ∧ s_pc st' i = In.
Proof.
  intros Hb Hr Hp. pose proof (sinv_reach _ _ Hb Hr) as Hi. clear Hb Hr st0.
  assert (∀ st, s_pc st i = ASpin → locked (s_lk st) = 0 → ∃ st', rtc sany st st' ∧ s_pc st' i = In) as Hfree.
  { clear. intros st Hp Hl. eexists. split.
    - eapply rtc_l; [exists i; by eapply STestAndSet|]. rewrite Hl. cbn [Z.eqb].
      eapply rtc_l; [exists i; eapply SOwn; sfn; done|]. apply rtc_refl.
    - sfn. done. }
  destruct (decide (locked (s_lk st) = 0)) as [Hl|Hl]; [by apply Hfree|].
  destruct (si_held _ Hi Hl) as [j Hj]. assert (i ≠ j) as Hne by (intros ->; by rewrite Hp in Hj).
  assert (∀ st, sinv st → s_pc st i = ASpin → s_pc st j = RUnlock → ∃ st', rtc sany st st' ∧ s_pc st' i = In) as Hun.
  { intros st1 _ Hp1 Hj1. destruct (Hfree (at_pc (set_lk st1 (Spinlock 0 (lcpu (s_lk st1)))) j RPop)) as (st' & Hr & Hin).
    - sfn. by rewrite fn_lookup_insert_ne.
    - done.
    - exists st'. split; [|done]. eapply rtc_l; [exists j; by eapply SUnlock|done]. }
  assert (∀ st, sinv st → s_pc st i = ASpin → s_pc st j = In → ∃ st', rtc sany st st' ∧ s_pc st' i = In) as Hin.
  { intros st1 Hi1 Hp1 Hj1. assert (sstep st1 j (at_pc (set_lk st1 (Spinlock (locked (s_lk st1)) None)) j RUnlock)) as Hs.
    { apply SRelease; [done|]. by apply holding_spec. }
    destruct (Hun _ (sinv_sstep _ _ _ Hs Hi1)) as (st' & Hr & Hend); [sfn; by rewrite fn_lookup_insert_ne|by sfn|].
    exists st'. split; [|done]. eapply rtc_l; [by exists j|done]. }
  destruct (s_pc st j) eqn:Ej; try done; [|by eapply Hin|by eapply Hun].
  assert (sstep st j (at_pc (set_lk st (Spinlock (locked (s_lk st)) (Some j))) j In)) as Hs by (by apply SOwn).
  destruct (Hin _ (sinv_sstep _ _ _ Hs Hi)) as (st' & Hr & Hend); [sfn; by rewrite fn_lookup_insert_ne|by sfn|].
  exists st'. split; [|done]. eapply rtc_l; [by exists j|done].
Qed.

Lemma spinlock_progress_witness : ∃ st st', s_pc st 1%nat = ASpin ∧ rtc sany st st' ∧ s_pc st' 1%nat = In.
Proof.
  assert (boot booted) as Hb by (split; [done|by intros i]).
  assert (∃ st, rtc sany booted st ∧ s_pc st 1%nat = ASpin) as (st & Hr & Hp).
  { eexists. split.
    - eapply rtc_l; [exists 1%nat; by eapply SPush|]. eapply rtc_l; [exists 1%nat; by eapply SHolding|]. apply rtc_refl.
    - done. }
  destruct (spinlock_progress booted st 1 Hb Hr Hp) as (st' & Hr' & Hin). exists st, st'. split; [exact Hp|]. split; [exact Hr'|exact Hin].
Defined.

(** Balanced calls of [push_off] and [pop_off] do not panic and leave the
    interrupt state and the nesting depth as they were. *)
Theorem push_pop_balanced l c :
  balanced l → cpu_ok c → noff c + Z.of_nat (length l) < 1000000 →
  ∃ c', run_offs l c = Ret tt c' ∧ noff c' = noff c ∧ sie c' = sie c ∧ (0 < noff c → c' = c).
Proof.
  intros Hl. revert c. induction Hl as [|l l' Hl IH Hl' IH']; intros c Hok Hlen; [by exists c|].
  cbn [length] in Hlen. rewrite length_app in Hlen. cbn [length] in Hlen.
  destruct (decide (0 < noff c)) as [Hpos|Hz].
  - exists c. assert (c = Cpu (noff c) (intena c) false) as Hc by (destruct Hok as [_ <-]; [by destruct c|done]).
    split; [|done]. rewrite Hc at 1. rewrite run_inside; [by rewrite <-Hc|by constructor|lia|cbn [length]; rewrite length_app; cbn [length]; lia].
  - destruct Hok as [Hr Hs]. assert (noff c = 0) as H0 by lia. cbn [run_offs]. unfold mbind, M_bind.
    rewrite push_off_run by done. rewrite H0, Z.eqb_refl. rewrite run_offs_app. unfold mbind, M_bind. rewrite run_inside by (done || lia).
    cbn [run_offs]. unfold mbind, M_bind. rewrite pop_off_run by lia. cbn [Z.eqb Z.add Z.sub Z.opp Z.pos_sub Pos.eqb andb].
    destruct (IH' (Cpu 0 (sie c) (sie c))) as (c' & Hrun & Hn & Hse & _); [split; cbn; lia|cbn; lia|].
    exists c'. split_and!; [done|done|done|lia].
Qed.

Lemma push_pop_balanced_witness : ∃ c', run_offs [true; true; false; false] (Cpu 0 false true) = Ret tt c' ∧ sie c' = true.
Proof.
  destruct (push_pop_balanced [true; true; false; false] (Cpu 0 false true)) as (c' & Hrun & _ & Hs & _).
  - apply (bal_nest [true; false] []); [apply (bal_nest [] []); constructor|constructor].
  - split; cbn; lia.
  - cbn. lia.
  - exists c'. split; [exact Hrun|exact Hs].
Defined.
