(* ===== verification/SleepWake.v ===== *)
(** * Sleep and wakeup: kernel/proc.c

    [sleep] and [wakeup] by any number of processes on one channel, whose
    condition the lock [lk] protects, one access to a lock or to a process's
    state at a time, in any interleaving. A waiter runs
    [acquire(lk); while(!cond) sleep(chan, lk); ...; release(lk)], a waker
    [acquire(lk); ...; wakeup(chan); ...; release(lk)], making the condition
    true before or after its call to [wakeup]. *)
From Stdlib Require Import ZArith Lia.
From stdpp Require Import prelude functions relations.
From S2P Require Import Prelude.

Inductive runstate := Running | Runnable | Sleeping.

#[export] Instance runstate_eq_dec : EqDecision runstate.
Proof. solve_decision. Defined.

Inductive wpc :=
| Idle
| WTest                  (* holds lk, about to test the condition *)
| WGot                   (* holds lk, the condition was true *)
| SAcquire               (* sleep: before acquire(&p->lock) *)
| SRelease               (* before release(lk) *)
| SChan                  (* before p->chan = chan *)
| SState                 (* before p->state = SLEEPING *)
| SSched                 (* before the switch to the scheduler, which releases p->lock *)
| SAsleep                (* not running *)
| SWoken                 (* scheduled again, before p->chan = 0 *)
| SUnlock                (* before release(&p->lock) *)
| SReacquire             (* before acquire(lk) *)
| KStart                 (* waker, holds lk *)
| KLoop (j : nat)        (* wakeup: about to look at process j *)
| KLooked (j : nat)      (* holds p->lock of j, before the test *)
| KDone (j : nat)        (* before release of it *)
| KEnd.                  (* wakeup returned *)

Record wsys := WSys {
  w_pc : nat → wpc; w_state : nat → runstate; w_chan : nat → bool;
  w_lk : option nat; w_pl : nat → option nat; w_cond : bool
}.

Section steps.
Context (NP : nat).

Inductive wstep (w : wsys) (i : nat) : wsys → Prop :=
| WAcquire : w_pc w i = Idle → w_lk w = None →
    wstep w i (WSys (<[i := WTest]> (w_pc w)) (w_state w) (w_chan w) (Some i) (w_pl w) (w_cond w))
| WTrue : w_pc w i = WTest → w_cond w = true →
    wstep w i (WSys (<[i := WGot]> (w_pc w)) (w_state w) (w_chan w) (w_lk w) (w_pl w) (w_cond w))
| WFalse : w_pc w i = WTest → w_cond w = false →
    wstep w i (WSys (<[i := SAcquire]> (w_pc w)) (w_state w) (w_chan w) (w_lk w) (w_pl w) (w_cond w))
| WUse b : w_pc w i = WGot →
    wstep w i (WSys (<[i := Idle]> (w_pc w)) (w_state w) (w_chan w) None (w_pl w) b)
| SAcquired : w_pc w i = SAcquire → w_pl w i = None →
    wstep w i (WSys (<[i := SRelease]> (w_pc w)) (w_state w) (w_chan w) (w_lk w) (<[i := Some i]> (w_pl w)) (w_cond w))
| SReleased : w_pc w i = SRelease →
    wstep w i (WSys (<[i := SChan]> (w_pc w)) (w_state w) (w_chan w) None (w_pl w) (w_cond w))
| SSetChan : w_pc w i = SChan →
    wstep w i (WSys (<[i := SState]> (w_pc w)) (w_state w) (<[i := true]> (w_chan w)) (w_lk w) (w_pl w) (w_cond w))
| SSetState : w_pc w i = SState →
    wstep w i (WSys (<[i := SSched]> (w_pc w)) (<[i := Sleeping]> (w_state w)) (w_chan w) (w_lk w) (w_pl w) (w_cond w))
| SSwitched : w_pc w i = SSched →
    wstep w i (WSys (<[i := SAsleep]> (w_pc w)) (w_state w) (w_chan w) (w_lk w) (<[i := None]> (w_pl w)) (w_cond w))
| SScheduled : w_pc w i = SAsleep → w_state w i = Runnable → w_pl w i = None →
    wstep w i (WSys (<[i := SWoken]> (w_pc w)) (<[i := Running]> (w_state w)) (w_chan w) (w_lk w) (<[i := Some i]> (w_pl w)) (w_cond w))
| SClearChan : w_pc w i = SWoken →
    wstep w i (WSys (<[i := SUnlock]> (w_pc w)) (w_state w) (<[i := false]> (w_chan w)) (w_lk w) (w_pl w) (w_cond w))
| SUnlocked : w_pc w i = SUnlock →
    wstep w i (WSys (<[i := SReacquire]> (w_pc w)) (w_state w) (w_chan w) (w_lk w) (<[i := None]> (w_pl w)) (w_cond w))
| SReacquired : w_pc w i = SReacquire → w_lk w = None →
    wstep w i (WSys (<[i := WTest]> (w_pc w)) (w_state w) (w_chan w) (Some i) (w_pl w) (w_cond w))
| KAcquire : w_pc w i = Idle → w_lk w = None →
    wstep w i (WSys (<[i := KStart]> (w_pc w)) (w_state w) (w_chan w) (Some i) (w_pl w) (w_cond w))
| KSetBefore : w_pc w i = KStart →
    wstep w i (WSys (w_pc w) (w_state w) (w_chan w) (w_lk w) (w_pl w) true)
| KSetAfter : w_pc w i = KEnd →
    wstep w i (WSys (w_pc w) (w_state w) (w_chan w) (w_lk w) (w_pl w) true)
| KCall : w_pc w i = KStart →
    wstep w i (WSys (<[i := KLoop 0]> (w_pc w)) (w_state w) (w_chan w) (w_lk w) (w_pl w) (w_cond w))
| KSelf : w_pc w i = KLoop i →
    wstep w i (WSys (<[i := KLoop (S i)]> (w_pc w)) (w_state w) (w_chan w) (w_lk w) (w_pl w) (w_cond w))
| KAcquired j : w_pc w i = KLoop j → (j < NP)%nat → j ≠ i → w_pl w j = None →
    wstep w i (WSys (<[i := KLooked j]> (w_pc w)) (w_state w) (w_chan w) (w_lk w) (<[j := Some i]> (w_pl w)) (w_cond w))
| KWake j : w_pc w i = KLooked j → w_state w j = Sleeping → w_chan w j = true →
    wstep w i (WSys (<[i := KDone j]> (w_pc w)) (<[j := Runnable]> (w_state w)) (w_chan w) (w_lk w) (w_pl w) (w_cond w))
| KSkip j : w_pc w i = KLooked j → ¬ (w_state w j = Sleeping ∧ w_chan w j = true) →
    wstep w i (WSys (<[i := KDone j]> (w_pc w)) (w_state w) (w_chan w) (w_lk w) (w_pl w) (w_cond w))
| KReleased j : w_pc w i = KDone j →
    wstep w i (WSys (<[i := KLoop (S j)]> (w_pc w)) (w_state w) (w_chan w) (w_lk w) (<[j := None]> (w_pl w)) (w_cond w))
| KReturn : w_pc w i = KLoop NP →
    wstep w i (WSys (<[i := KEnd]> (w_pc w)) (w_state w) (w_chan w) (w_lk w) (w_pl w) (w_cond w))
| KRelease : w_pc w i = KEnd →
    wstep w i (WSys (<[i := Idle]> (w_pc w)) (w_state w) (w_chan w) None (w_pl w) (w_cond w))
(* kill() and wakeups of other channels: *)
| KKill : w_pl w i = None → w_state w i = Sleeping →
    wstep w i (WSys (w_pc w) (<[i := Runnable]> (w_state w)) (w_chan w) (w_lk w) (w_pl w) (w_cond w)).

Definition wany (w w' : wsys) : Prop := ∃ i, (i < NP)%nat ∧ wstep w i w'.

Definition winit (w : wsys) : Prop :=
  w_lk w = None ∧ ∀ i, w_pc w i = Idle ∧ w_state w i = Running ∧ w_pl w i = None.

(** On the way to sleep without [lk], or asleep. *)
Definition committed (w : wsys) (p : nat) : Prop :=
  match w_pc w p with
  | SChan | SState | SSched => True
  | SAsleep => w_state w p = Sleeping
  | _ => False
  end.

Definition has_lk (p : wpc) : bool :=
  match p with
  | WTest | WGot | SAcquire | SRelease | KStart | KLoop _ | KLooked _ | KDone _ | KEnd => true
  | _ => false
  end.

(** Holds the lock of the process itself. *)
Definition has_own (p : wpc) : bool :=
  match p with SRelease | SChan | SState | SSched | SWoken | SUnlock => true | _ => false end.

(** Whom a waker has dealt with. *)
Definition passed (pc : wpc) (p : nat) : Prop :=
  match pc with
  | KLoop j | KLooked j => (p < j)%nat
  | KDone j => (p ≤ j)%nat
  | KEnd => (p < NP)%nat
  | _ => False
  end.

Definition waking (pc : wpc) : bool :=
  match pc with KLoop _ | KLooked _ | KDone _ => true | _ => false end.

Record winv (w : wsys) : Prop := {
  wi_range i : (NP ≤ i)%nat → w_pc w i = Idle;
  wi_got i : w_pc w i = WGot → w_cond w = true;
  wi_lk i : has_lk (w_pc w i) → w_lk w = Some i;
  wi_own i : has_own (w_pc w i) → w_pl w i = Some i;
  wi_look i j : w_pc w i = KLooked j ∨ w_pc w i = KDone j → w_pl w j = Some i ∧ i ≠ j;
  wi_false i : w_pc w i = SAcquire ∨ w_pc w i = SRelease → w_cond w = false;
  wi_chan i : w_pc w i = SState ∨ w_pc w i = SSched ∨ w_pc w i = SAsleep → w_chan w i = true;
  wi_passed i p : passed (w_pc w i) p → ¬ committed w p;
  wi_cond p : w_cond w = true → committed w p →
    ∃ i, w_lk w = Some i ∧ (w_pc w i = KStart ∨ waking (w_pc w i))
}.


(** Case analysis on which process an updated field is read at. *)
Ltac fnsplit :=
  repeat match goal with
  | H : context [ (<[?i := _]> _) ?j ] |- _ =>
      destruct (decide (i = j)) as [<-|?];
      [rewrite !fn_lookup_insert in *|rewrite !fn_lookup_insert_ne in * by done]
  | |- context [ (<[?i := _]> _) ?j ] =>
      destruct (decide (i = j)) as [<-|?];
      [rewrite !fn_lookup_insert in *|rewrite !fn_lookup_insert_ne in * by done]
  end.

Section step.
Context (w w' : wsys) (i : nat) (Hlt : (i < NP)%nat) (Hs : wstep w i w').

Lemma step_range : (∀ k, (NP ≤ k)%nat → w_pc w k = Idle) → ∀ k, (NP ≤ k)%nat → w_pc w' k = Idle.
Proof. intros H k Hk. destruct Hs; cbn; try (rewrite fn_lookup_insert_ne by lia); by apply H. Qed.

Ltac pcs := repeat match goal with E : w_pc w _ = _ |- _ => rewrite E in * end; cbn in *.

Lemma step_lk : (∀ k, has_lk (w_pc w k) → w_lk w = Some k) → ∀ k, has_lk (w_pc w' k) → w_lk w' = Some k.
Proof.
  intros H k. pose proof (H i) as Hi. pose proof (H k) as Hk. clear H.
  destruct Hs; cbn; fnsplit; pcs; try tauto; try congruence.
  all: intros Hx; try (specialize (Hk Hx)); try (specialize (Hi I)); congruence.
Qed.

Lemma step_got :
  (∀ k, has_lk (w_pc w k) → w_lk w = Some k) → (∀ k, w_pc w k = WGot → w_cond w = true) →
  ∀ k, w_pc w' k = WGot → w_cond w' = true.
Proof.
  intros Hlk H k. pose proof (Hlk i) as Hi. pose proof (Hlk k) as Hk. specialize (H k). clear Hlk.
  destruct Hs; cbn; fnsplit; pcs; try tauto; try congruence.
  intros E. rewrite E in *. specialize (Hi I). specialize (Hk I). congruence.
Qed.

Lemma step_false :
  (∀ k, has_lk (w_pc w k) → w_lk w = Some k) →
  (∀ k, w_pc w k = SAcquire ∨ w_pc w k = SRelease → w_cond w = false) →
  ∀ k, w_pc w' k = SAcquire ∨ w_pc w' k = SRelease → w_cond w' = false.
Proof.
  intros Hlk H k. pose proof (Hlk i) as Hi. pose proof (Hlk k) as Hk. specialize (H k). clear Hlk.
  destruct Hs; cbn; fnsplit; pcs; try tauto; try (intros [|]; congruence).
  all: intros [E|E]; rewrite E in *; specialize (Hi I); specialize (Hk I); congruence.
Qed.

Lemma step_chan :
  (∀ k, w_pc w k = SState ∨ w_pc w k = SSched ∨ w_pc w k = SAsleep → w_chan w k = true) →
  ∀ k, w_pc w' k = SState ∨ w_pc w' k = SSched ∨ w_pc w' k = SAsleep → w_chan w' k = true.
Proof.
  intros H k. specialize (H k). destruct Hs; cbn; fnsplit; pcs; try tauto; first [intros _; apply H; tauto|intros [|[|]]; congruence].
Qed.

Lemma step_own :
  (∀ k, has_own (w_pc w k) → w_pl w k = Some k) →
  (∀ k j, w_pc w k = KLooked j ∨ w_pc w k = KDone j → w_pl w j = Some k ∧ k ≠ j) →
  ∀ k, has_own (w_pc w' k) → w_pl w' k = Some k.
Proof.
  intros Ho Hl k. pose proof (Ho k) as Hk. pose proof (Ho i) as Hi. pose proof (Hl i) as Hli. clear Ho Hl.
  destruct Hs; cbn; fnsplit; pcs; try tauto; try congruence.
  - intros Hx. specialize (Hk Hx). congruence.
  - intros Hx. specialize (Hk Hx). destruct (Hli j); [by right|]. congruence.
Qed.

Lemma step_look :
  (∀ k, has_own (w_pc w k) → w_pl w k = Some k) →
  (∀ k j, w_pc w k = KLooked j ∨ w_pc w k = KDone j → w_pl w j = Some k ∧ k ≠ j) →
  ∀ k j, w_pc w' k = KLooked j ∨ w_pc w' k = KDone j → w_pl w' j = Some k ∧ k ≠ j.
Proof.
  intros Ho Hl k j'. pose proof (Hl k j') as Hk. pose proof (Ho i) as Hi. pose proof (Hl i) as Hli. clear Ho Hl.
  destruct Hs; cbn; fnsplit; pcs; try tauto; try (intros [|]; congruence); intros Hx; try (destruct (Hk Hx); intuition congruence).
  - split; [done|congruence].
  - destruct Hx as [?|[= <-]]; [congruence|]. apply Hli. by left.
  - destruct Hx as [?|[= <-]]; [congruence|]. apply Hli. by left.
  - destruct (Hk Hx) as [Hp ?]. destruct (Hli j) as [Hp' ?]; [by right|]. congruence.
Qed.

(** Who commits to sleeping, and whom wakers deal with. *)
Lemma step_committed p : committed w' p → committed w p ∨ (p = i ∧ w_pc w i = SRelease ∧ w_cond w' = w_cond w).
Proof.
  unfold committed. destruct Hs; cbn; fnsplit; pcs; try tauto.
  - by destruct (w_pc w j); try tauto.
  - by destruct (w_pc w i); try tauto.
Qed.

Lemma step_passed k p :
  passed (w_pc w' k) p → passed (w_pc w k) p ∨ (k = i ∧ w_pc w i = KLoop i ∧ p = i) ∨ (k = i ∧ w_pc w i = KLooked p ∧ w_pc w' i = KDone p).
Proof.
  destruct Hs; cbn; fnsplit; pcs; try tauto; try lia; intros Hp.
  - destruct (decide (p = i)) as [->|]; [tauto|left; lia].
  - destruct (decide (p = j)) as [->|]; [tauto|left; lia].
  - destruct (decide (p = j)) as [->|]; [tauto|left; lia].
Qed.

(** A process whose lock the waker took is dealt with by its test. *)
Lemma step_woken p :
  winv w → w_pc w i = KLooked p → w_pc w' i = KDone p → committed w' p → False.
Proof.
  intros Hi Hp. destruct (wi_look _ Hi i p) as [Hpl Hne]; [by left|].
  pose proof (wi_own _ Hi p) as Ho. pose proof (wi_chan _ Hi p) as Hc.
  unfold committed. destruct Hs; cbn; fnsplit; try congruence; intros _; rewrite fn_lookup_insert_ne by done;
    replace j with p in * by congruence.
  - rewrite fn_lookup_insert. destruct (w_pc w p); cbn in Ho; try done; specialize (Ho I); congruence.
  - destruct (w_pc w p); cbn in Ho; try done; try (specialize (Ho I); congruence). intros Hst. apply H0. split; [done|]. apply Hc. tauto.
Qed.

(** The condition of a sleeper is looked after. *)
Lemma step_cond p :
  winv w → w_cond w' = true → committed w' p → ∃ k, w_lk w' = Some k ∧ (w_pc w' k = KStart ∨ waking (w_pc w' k)).
Proof.
  intros Hi Hc' Hp'. pose proof (step_committed p Hp') as [Hp|(-> & Hpc & Hc)].
  2:{ rewrite Hc, (wi_false _ Hi i) in Hc' by (by right). done. }
  assert (p < NP)%nat as HpNP.
  { destruct (decide (p < NP)%nat); [done|]. unfold committed in Hp. rewrite (wi_range _ Hi p) in Hp by lia. done. }
  pose proof (wi_lk _ Hi i) as Hlk. pose proof (wi_passed _ Hi i p) as Hpass.
  assert (w_cond w = true → ∃ k, w_lk w = Some k ∧ (w_pc w k = KStart ∨ waking (w_pc w k))) as Hex by (intros Hc; by apply (wi_cond _ Hi p)).
  destruct Hs as [Hpc Hn|Hpc Hc|Hpc Hc|b Hpc|Hpc Hn|Hpc|Hpc|Hpc|Hpc|Hpc Hst Hn|Hpc|Hpc|Hpc Hn|Hpc Hn|Hpc|Hpc|Hpc|Hpc|j Hpc Hj Hne Hn|j Hpc Hst Hch|j Hpc Hst|j Hpc|Hpc|Hpc|Hpl Hst];
    cbn in *; try rewrite Hpc in *; cbn in *; try (specialize (Hlk I)).
  all: try (exfalso; by apply Hpass).
  all: try (exists i; rewrite ?fn_lookup_insert, ?Hpc; split; [done|cbn; tauto]).
  all: try (destruct (Hex Hc') as (k & Hk & Hw); destruct (decide (i = k)) as [<-|Hne];
    [rewrite Hpc in Hw; cbn in Hw; exfalso; destruct Hw; (done || congruence)
    |exists k; rewrite ?fn_lookup_insert_ne by done; (done || congruence)]).
  - destruct (Hex (wi_got _ Hi i Hpc)) as (k & Hk & Hw). assert (k = i) as -> by congruence. rewrite Hpc in Hw. by destruct Hw.
  - by apply Hex.
Qed.

Lemma winv_step : winv w → winv w'.
Proof.
  intros Hi. split.
  - apply step_range, Hi.
  - apply step_got; apply Hi.
  - apply step_lk, Hi.
  - apply step_own; apply Hi.
  - apply step_look; apply Hi.
  - apply step_false; apply Hi.
  - apply step_chan, Hi.
  - intros k p [Hk|[(-> & Hpc & ->)|(-> & Hpc & Hpc')]]%step_passed Hp.
    + pose proof (step_committed p Hp) as [Hp0|(-> & Hpc & _)]; [by eapply (wi_passed _ Hi)|].
      assert (k = i) as ->.
      { assert (has_lk (w_pc w k)) as Hl by (by destruct (w_pc w k)). apply (wi_lk _ Hi) in Hl.
        assert (has_lk (w_pc w i)) as Hl' by (by rewrite Hpc). apply (wi_lk _ Hi) in Hl'. congruence. }
      by rewrite Hpc in Hk.
    + pose proof (step_committed i Hp) as [Hp0|(_ & Hpc' & _)]; [|congruence]. unfold committed in Hp0. by rewrite Hpc in Hp0.
    + by eapply step_woken.
  - intros p. by apply step_cond.
Qed.
End step.

Lemma winv_reach w0 w : winit w0 → rtc wany w0 w → winv w.
Proof.
  intros [Hlk Hinit] Hr. assert (winv w0) as Hi.
  { split; try (intros i; destruct (Hinit i) as (Hp & Hst & Hpl); unfold committed; rewrite ?Hp; cbn; naive_solver). }
  clear Hlk Hinit. induction Hr as [|w1 w2 w3 (i & Hlt & Hs) _ IH]; [done|]. by eapply IH, winv_step.
Qed.

(** C13: no wakeup is lost: whenever the lock of the condition is free and the
    condition holds, no process is asleep on the channel, nor on its way to
    sleep after [sleep] has released that lock; every one that was asleep has
    been made runnable. *)
Theorem no_lost_wakeup w0 w :
  winit w0 → rtc wany w0 w → w_lk w = None → w_cond w = true →
  ∀ p, ¬ committed w p.
Proof.
  intros Hinit Hr Hlk Hc p Hp. pose proof (winv_reach _ _ Hinit Hr) as Hi.
  destruct (wi_cond _ Hi p Hc Hp) as (k & Hk & _). congruence.
Qed.
End steps.

Definition wdemo : wsys := WSys (λ _, Idle) (λ _, Running) (λ _, false) None (λ _, None) false.

Ltac wdo i tac := eapply rtc_l;
  [exists i; split; [lia|tac; cbn [w_pc w_state w_chan w_lk w_pl w_cond];
    rewrite ?fn_lookup_insert, ?fn_lookup_insert_ne by lia; first [eassumption|reflexivity|lia]]|cbn [w_pc w_state w_chan w_lk w_pl w_cond]].
Ltac wgo i c := wdo i ltac:(eapply c).

(** A process goes to sleep. *)
Lemma goes_to_sleep w : w_pc w 0%nat = Idle → w_lk w = None → w_pl w 0%nat = None → w_cond w = false →
  ∃ w', rtc (wany 2) w w' ∧ w_pc w' 0%nat = SAsleep ∧ w_state w' 0%nat = Sleeping ∧ w_chan w' 0%nat = true ∧
    w_lk w' = None ∧ w_pl w' 0%nat = None ∧ w_pc w' 1%nat = w_pc w 1%nat.
Proof.
  intros Hpc Hlk Hpl Hc. eexists. split.
  - wgo 0%nat WAcquire. wgo 0%nat WFalse. wgo 0%nat SAcquired. wgo 0%nat SReleased. wgo 0%nat SSetChan. wgo 0%nat SSetState.
    wgo 0%nat SSwitched. apply rtc_refl.
  - cbn [w_pc w_state w_chan w_lk w_pl w_cond]. rewrite !fn_lookup_insert, !fn_lookup_insert_ne by lia. done.
Qed.

(** Another one wakes it. *)
Lemma wakes w : w_pc w 0%nat = SAsleep → w_state w 0%nat = Sleeping → w_chan w 0%nat = true → w_lk w = None →
  w_pl w 0%nat = None → w_pc w 1%nat = Idle →
  ∃ w', rtc (wany 2) w w' ∧ w_pc w' 0%nat = SAsleep ∧ w_cond w' = true ∧ w_lk w' = None.
Proof.
  intros Hpc Hst Hch Hlk Hpl Hpc1. eexists. split.
  - wgo 1%nat KAcquire. wgo 1%nat KSetBefore. wgo 1%nat KCall. wdo 1%nat ltac:(eapply KAcquired with (j := 0%nat)).
    wdo 1%nat ltac:(eapply KWake with (j := 0%nat)). wdo 1%nat ltac:(eapply KReleased with (j := 0%nat)). wgo 1%nat KSelf. wgo 1%nat KReturn. wgo 1%nat KRelease. apply rtc_refl.
  - cbn [w_pc w_state w_chan w_lk w_pl w_cond]. rewrite !fn_lookup_insert_ne by lia. done.
Qed.

Lemma no_lost_wakeup_witness : ∃ w, rtc (wany 2) wdemo w ∧ w_pc w 0%nat = SAsleep ∧ w_cond w = true ∧ w_state w 0%nat ≠ Sleeping.
Proof.
  assert (winit wdemo) as Hinit by (split; [done|by intros i]).
  destruct (goes_to_sleep wdemo) as (w1 & Hr1 & Hp1 & Hs1 & Hc1 & Hl1 & Hpl1 & H1); [done..|].
  destruct (wakes w1) as (w & Hr2 & Hp & Hc & Hlk); [done..|].
  assert (rtc (wany 2) wdemo w) as Hr by (by etrans).
  exists w. split; [exact Hr|]. split; [exact Hp|]. split; [exact Hc|]. intros Hst.
  apply (no_lost_wakeup 2 wdemo w Hinit Hr Hlk Hc 0%nat). unfold committed. by rewrite Hp.
Defined.
