(* ===== verification/Mutex.v ===== *)
(** * User mutexes: kernel/mutex.c

    A table of 64 mutexes that processes create, lock, unlock and free by number.
    The spinlocks make each call atomic; a process that finds the mutex locked
    sleeps and calls again. [me] is [myproc()->pid]. *)
From Stdlib Require Import ZArith Lia.
From stdpp Require Import prelude strings relations gmap.
From S2P Require Import Prelude.

Definition MAX_MUTEXES : nat := 64.

Record mutex := Mutex { locked : Z; pid : Z }.
Abbreviation mtable := (list mutex).

Definition mutex_init : M mtable unit := λ _, Ret tt (replicate MAX_MUTEXES (Mutex 0 0)).

Section code.
Context (me : Z).

Definition mutex_create : M mtable Z :=
  r ← mfind (seq 0 MAX_MUTEXES) (λ i,
    t ← mget;
    m ← mnth (t !! i);
    if pid m =? 0 then
      modify (λ t, <[i := Mutex (locked m) me]> t) ;; mret (Some (Z.of_nat i))
    else mret None);
  mret (default (-1) r).

Definition bad_id (mutex_id : Z) : bool := (mutex_id <? 0) || (mutex_id >=? Z.of_nat MAX_MUTEXES).

Definition mutex_lock (mutex_id : Z) : M mtable Z :=
  if bad_id mutex_id then mret (-1) else
  t ← mget;
  m ← mnth (t !! Z.to_nat mutex_id);
  if negb (locked m =? 0) then msleep (Chan "mutex" (Z.to_nat mutex_id)) else
  modify (λ t, <[Z.to_nat mutex_id := Mutex 1 me]> t) ;;
  mret 0.

Definition mutex_unlock (mutex_id : Z) : M mtable Z :=
  if bad_id mutex_id then mret (-1) else
  t ← mget;
  m ← mnth (t !! Z.to_nat mutex_id);
  if negb (pid m =? me) then mret (-1) else
  modify (λ t, <[Z.to_nat mutex_id := Mutex 0 0]> t) ;;
  mret 0.

Definition mutex_free (mutex_id : Z) : M mtable Z :=
  if bad_id mutex_id then mret (-1) else
  t ← mget;
  m ← mnth (t !! Z.to_nat mutex_id);
  if negb (pid m =? me) then mret (-1) else
  modify (λ t, <[Z.to_nat mutex_id := Mutex 0 0]> t) ;;
  mret 0.
End code.

(** ** What the calls do *)

Lemma bad_id_spec id : bad_id id = false ↔ 0 ≤ id < 64.
Proof. unfold bad_id. change (Z.of_nat MAX_MUTEXES) with 64. rewrite orb_false_iff, Z.ltb_ge, Z.geb_leb, Z.leb_gt. lia. Qed.

(** The first mutex without an owner. *)
Definition first_free (t : mtable) (id : Z) : Prop :=
  0 ≤ id < 64 ∧ (∃ l, t !! Z.to_nat id = Some (Mutex l 0)) ∧
  ∀ j m, 0 ≤ j < id → t !! Z.to_nat j = Some m → pid m ≠ 0.

Lemma mutex_create_spec me t :
  length t = 64%nat →
  wp (mutex_create me) t (λ r t',
    (∃ m, first_free t r ∧ t !! Z.to_nat r = Some m ∧ t' = <[Z.to_nat r := Mutex (locked m) me]> t) ∨
    (r = -1 ∧ t' = t ∧ ∀ j m, t !! j = Some m → pid m ≠ 0)).
Proof.
  intros Hlen. unfold mutex_create. wp_step.
  apply (wp_mfind_seq 0 64 _ (λ i t', t' = t ∧ ∀ j m, (j < i)%nat → t !! j = Some m → pid m ≠ 0)).
  - split; [done|]. intros j m Hj. lia.
  - intros i t1 Hi [-> Hbefore]. wp_step. wp_step.
    destruct (t !! i) as [m|] eqn:Hm; [|apply lookup_ge_None in Hm; lia]. wp_step. cbn [mnth]. wp_step.
    destruct (Z.eqb_spec (pid m) 0) as [Hz|Hz].
    + wp_step. wp_step. wp_step. wp_step. cbn [default from_option id]. left. exists m. rewrite Nat2Z.id.
      split_and!; [|done|done]. split_and!; [lia|lia| |].
      * exists (locked m). rewrite Nat2Z.id, Hm. by destruct m; cbn in *; subst.
      * intros j m' Hj Hm'. eapply (Hbefore (Z.to_nat j)); [lia|done].
    + wp_step. split; [done|]. intros j m' Hj Hm'. destruct (decide (j = i)) as [->|]; [congruence|]. apply (Hbefore j); [lia|done].
  - intros t1 [-> Hall]. wp_step. right. split_and!; [done|done|]. intros j m Hm. apply (Hall j m); [|done].
    apply lookup_lt_Some in Hm. cbn. lia.
Qed.

Lemma mutex_lock_run me id t l p :
  0 ≤ id < 64 → t !! Z.to_nat id = Some (Mutex l p) →
  mutex_lock me id t = if l =? 0 then Ret 0 (<[Z.to_nat id := Mutex 1 me]> t) else Sleep (Chan "mutex" (Z.to_nat id)) t.
Proof.
  intros Hid Ht. unfold mutex_lock. rewrite (proj2 (bad_id_spec id)) by done. rewrite mget_bind, Ht.
  unfold mnth, mret, M_ret, mbind, M_bind. cbn [locked pid].
  by destruct (l =? 0).
Qed.

Lemma mutex_unlock_run me id t l p :
  0 ≤ id < 64 → t !! Z.to_nat id = Some (Mutex l p) →
  mutex_unlock me id t = if p =? me then Ret 0 (<[Z.to_nat id := Mutex 0 0]> t) else Ret (-1) t.
Proof.
  intros Hid Ht. unfold mutex_unlock. rewrite (proj2 (bad_id_spec id)) by done. rewrite mget_bind, Ht.
  unfold mnth, mret, M_ret, mbind, M_bind. cbn [locked pid].
  by destruct (p =? me).
Qed.

(** ** Many processes *)

(** [held id]: the process that has returned from [mutex_lock id] and has not
    unlocked it since. *)
Abbreviation msys := (mtable * gmap Z Z)%type.

Inductive mstep : msys → msys → Prop :=
| MCreate me r t t' held : 0 < me → mutex_create me t = Ret r t' → mstep (t, held) (t', held)
| MLock me id t t' held : 0 < me → mutex_lock me id t = Ret 0 t' → mstep (t, held) (t', <[id := me]> held)
| MLockFails me id r t t' held : 0 < me → mutex_lock me id t = Ret r t' → r ≠ 0 → mstep (t, held) (t', held)
| MUnlock me id t t' held : 0 < me → mutex_unlock me id t = Ret 0 t' → mstep (t, held) (t', delete id held)
| MUnlockFails me id r t t' held : 0 < me → mutex_unlock me id t = Ret r t' → r ≠ 0 → mstep (t, held) (t', held)
| MFree me id t t' held : 0 < me → mutex_free me id t = Ret 0 t' → mstep (t, held) (t', delete id held)
| MFreeFails me id r t t' held : 0 < me → mutex_free me id t = Ret r t' → r ≠ 0 → mstep (t, held) (t', held).

Record minv (st : msys) : Prop := {
  mi_len : length (fst st) = 64%nat;
  mi_held id me : snd st !! id = Some me → 0 ≤ id < 64 ∧ fst st !! Z.to_nat id = Some (Mutex 1 me) ∧ 0 < me;
  mi_locked id m : 0 ≤ id < 64 → fst st !! Z.to_nat id = Some m → locked m ≠ 0 → snd st !! id = Some (pid m)
}.

Section preservation.
Context (t : mtable) (held : gmap Z Z) (Hi : minv (t, held)).

Lemma some_mutex id : 0 ≤ id < 64 → ∃ l p, t !! Z.to_nat id = Some (Mutex l p).
Proof.
  intros Hid. pose proof (mi_len _ Hi) as Hl. cbn in Hl. destruct (lookup_lt_is_Some_2 t (Z.to_nat id)) as [[l p] Hm]; [lia|]. eauto.
Qed.

(** Replacing one mutex of the table. *)
Lemma minv_insert id m held' :
  0 ≤ id < 64 → (∀ j, j ≠ id → held' !! j = held !! j) →
  (∀ me, held' !! id = Some me → m = Mutex 1 me ∧ 0 < me) → (locked m ≠ 0 → held' !! id = Some (pid m)) →
  minv (<[Z.to_nat id := m]> t, held').
Proof.
  intros Hid Hne Hh Hl. pose proof (mi_len _ Hi) as Hlen. cbn in Hlen. split; cbn [fst snd].
  - by rewrite length_insert.
  - intros j me Hj. destruct (decide (j = id)) as [->|Hji].
    + destruct (Hh me Hj) as [-> ?]. split_and!; [lia|lia| |done]. by rewrite list_lookup_insert_eq by lia.
    + rewrite Hne in Hj by done. destruct (mi_held _ Hi j me Hj) as (Hr & Hm & Hpos). cbn in Hm.
      split_and!; [lia|lia| |done]. by rewrite list_lookup_insert_ne by lia.
  - intros j m' Hj Hm'. destruct (decide (j = id)) as [->|Hji].
    + rewrite list_lookup_insert_eq in Hm' by lia. by injection Hm' as <-.
    + rewrite list_lookup_insert_ne in Hm' by lia. rewrite Hne by done. by apply (mi_locked _ Hi).
Qed.

Lemma minv_lock me id r t' :
  0 < me → mutex_lock me id t = Ret r t' → minv (t', if r =? 0 then <[id := me]> held else held).
Proof.
  intros Hme Hrun. destruct (bad_id id) eqn:Hb; [unfold mutex_lock in Hrun; rewrite Hb in Hrun; by injection Hrun as <- <-|].
  apply bad_id_spec in Hb. destruct (some_mutex id Hb) as (l & p & Hm).
  rewrite (mutex_lock_run me id t l p Hb Hm) in Hrun. destruct (l =? 0); [|done]. injection Hrun as <- <-. cbn [Z.eqb].
  apply minv_insert; [done| | |].
  - intros j Hj. by rewrite lookup_insert_ne.
  - intros me'. rewrite lookup_insert_eq. by intros [= ->].
  - intros _. by rewrite lookup_insert_eq.
Qed.

Lemma minv_unlock me id r t' :
  0 < me → mutex_unlock me id t = Ret r t' → minv (t', if r =? 0 then delete id held else held).
Proof.
  intros Hme Hrun. destruct (bad_id id) eqn:Hb; [unfold mutex_unlock in Hrun; rewrite Hb in Hrun; by injection Hrun as <- <-|].
  apply bad_id_spec in Hb. destruct (some_mutex id Hb) as (l & p & Hm).
  rewrite (mutex_unlock_run me id t l p Hb Hm) in Hrun. destruct (p =? me); injection Hrun as <- <-; cbn [Z.eqb]; [|done].
  apply minv_insert; [done| | |done].
  - intros j Hj. by rewrite lookup_delete_ne.
  - intros me'. by rewrite lookup_delete_eq.
Qed.

Lemma minv_create me r t' : 0 < me → mutex_create me t = Ret r t' → minv (t', held).
Proof.
  intros Hme Hrun. pose proof (mutex_create_spec me t (mi_len _ Hi)) as Hwp. unfold wp in Hwp. rewrite Hrun in Hwp.
  destruct Hwp as [(m & (Hr & (l & Hl) & _) & Hm & ->)|(_ & -> & _)]; [|done].
  rewrite Hl in Hm. injection Hm as <-. cbn [locked].
  assert (l = 0) as ->.
  { destruct (decide (l = 0)); [done|]. pose proof (mi_locked _ Hi r _ Hr Hl) as Hh. cbn in Hh.
    destruct (mi_held _ Hi r 0) as (_ & _ & ?); [by apply Hh|lia]. }
  apply minv_insert; [done|done| |done]. intros me' Hh. destruct (mi_held _ Hi r me' Hh) as (_ & Hm & ?). cbn in Hm. congruence.
Qed.
End preservation.

Lemma minv_step st st' : mstep st st' → minv st → minv st'.
Proof.
  intros Hs Hi. destruct Hs as [me r t t' held Hme Hrun|me id t t' held Hme Hrun|me id r t t' held Hme Hrun Hr|me id t t' held Hme Hrun
    |me id r t t' held Hme Hrun Hr|me id t t' held Hme Hrun|me id r t t' held Hme Hrun Hr].
  - by eapply minv_create.
  - exact (minv_lock _ _ Hi me id 0 t' Hme Hrun).
  - pose proof (minv_lock _ _ Hi me id r t' Hme Hrun) as Hx. by rewrite (proj2 (Z.eqb_neq r 0)) in Hx.
  - exact (minv_unlock _ _ Hi me id 0 t' Hme Hrun).
  - pose proof (minv_unlock _ _ Hi me id r t' Hme Hrun) as Hx. by rewrite (proj2 (Z.eqb_neq r 0)) in Hx.
  - exact (minv_unlock _ _ Hi me id 0 t' Hme Hrun).
  - pose proof (minv_unlock _ _ Hi me id r t' Hme Hrun) as Hx. by rewrite (proj2 (Z.eqb_neq r 0)) in Hx.
Qed.

Definition mtable0 : mtable := replicate MAX_MUTEXES (Mutex 0 0).

Lemma minv_reach st : rtc mstep (mtable0, ∅) st → minv st.
Proof.
  intros Hr. assert (minv (mtable0, ∅)) as Hi.
  { split; cbn [fst snd].
    - done.
    - intros id me. by rewrite lookup_empty.
    - intros id m _ [-> _]%lookup_replicate Hl. done. }
  remember (mtable0, ∅ : gmap Z Z) as st0. clear Heqst0. induction Hr as [|s1 s2 s3 Hs _ IH]; [done|]. by eapply IH, minv_step.
Qed.



(** Unlocking also gives the mutex up: after a process that created a mutex
    has locked and unlocked it, the next [mutex_create] of any process returns
    the same mutex, which the first process still uses. *)
Theorem mutex_reused t me other id t1 t2 t3 :
  length t = 64%nat → 0 < me → mutex_create me t = Ret id t1 → id ≠ -1 →
  mutex_lock me id t1 = Ret 0 t2 → mutex_unlock me id t2 = Ret 0 t3 →
  ∃ t4, mutex_create other t3 = Ret id t4.
Proof.
  intros Hlen Hme Hc Hid Hl Hu. pose proof (mutex_create_spec me t Hlen) as Hwp. unfold wp in Hwp. rewrite Hc in Hwp.
  destruct Hwp as [(m & (Hr & _ & Hbefore) & Hm & ->)|(-> & _)]; [|done].
  assert (<[Z.to_nat id:=Mutex (locked m) me]> t !! Z.to_nat id = Some (Mutex (locked m) me)) as Hm1.
  { rewrite list_lookup_insert_eq; [done|lia]. }
  rewrite (mutex_lock_run me id _ _ _ Hr Hm1) in Hl. destruct (locked m =? 0); [|done]. injection Hl as <-. rewrite list_insert_insert_eq in Hu.
  assert (<[Z.to_nat id:=Mutex 1 me]> t !! Z.to_nat id = Some (Mutex 1 me)) as Hm2 by (rewrite list_lookup_insert_eq; [done|lia]).
  rewrite (mutex_unlock_run me id _ _ _ Hr Hm2), Z.eqb_refl in Hu. injection Hu as <-. rewrite list_insert_insert_eq.
  set (t3 := <[Z.to_nat id:=Mutex 0 0]> t). assert (length t3 = 64%nat) as Hlen3 by (unfold t3; by rewrite length_insert).
  destruct (proj1 (wp_Ret _ _ _) (mutex_create_spec other t3 Hlen3)) as (r & t4 & Hrun & Hres). exists t4.
  assert (t3 !! Z.to_nat id = Some (Mutex 0 0)) as H3 by (unfold t3; rewrite list_lookup_insert_eq; [done|lia]).
  destruct Hres as [(m' & (Hr' & (l & Hl) & Hbefore') & _ & _)|(_ & _ & Hall)].
  2:{ by destruct (Hall (Z.to_nat id) _ H3). }
  replace id with r; [done|]. destruct (Z.lt_total r id) as [Hlt|[->|Hgt]]; [|done|].
  - unfold t3 in Hl. rewrite list_lookup_insert_ne in Hl by lia. by destruct (Hbefore r _ ltac:(lia) Hl).
  - by destruct (Hbefore' id _ ltac:(lia) H3).
Qed.

Lemma mutex_reused_witness : ∃ t3 t4, mutex_unlock 7 0 (<[0%nat := Mutex 1 7]> mtable0) = Ret 0 t3 ∧ mutex_create 9 t3 = Ret 0 t4.
Proof.
  destruct (mutex_reused mtable0 7 9 0 (<[0%nat := Mutex 0 7]> mtable0) (<[0%nat := Mutex 1 7]> mtable0) mtable0
    eq_refl ltac:(lia) ltac:(by vm_compute) ltac:(lia) ltac:(by vm_compute) ltac:(by vm_compute)) as (t4 & Hc).
  exists mtable0, t4. split; [by vm_compute|exact Hc].
Defined.
