(* ===== verification/Proc.v ===== *)
(** * Processes: kernel/proc.c

    The process table over the page allocator and the page tables of Vm. What
    proc.c calls of file.c, fs.c and log.c is the interface [FileOps], whose
    operations may also use the page allocator and report the channels they call
    [wakeup] on. The locks make each function atomic up to where it calls
    [sched]; [me] is the index of [myproc()], a pointer to a process is its
    index, and 0 is the null pointer of other pointers. *)
From Stdlib Require Import ZArith Lia.
From stdpp Require Import prelude gmap strings.
From S2P Require Import Prelude Bytes Param Str Riscv PhysMem Kalloc Vm Spinlock.

Inductive procstate := UNUSED | USED | SLEEPING | RUNNABLE | RUNNING | ZOMBIE.

#[export] Instance procstate_eq_dec : EqDecision procstate.
Proof. solve_decision. Defined.

(** [struct context]: the registers that are ever set by C code. *)
Record context := Context_ { ctx_ra : Z; ctx_sp : Z }.

(** [p_ofile]: an entry of the file table for each descriptor. [p_cwd]: an entry
    of the inode table. *)
Record proc := Proc {
  p_state : procstate;
  p_chan : option chan;
  p_killed : Z;
  p_xstate : Z;
  p_pid : Z;
  p_parent : option nat;
  p_kstack : Z;
  p_sz : Z;
  p_pagetable : Z;
  p_trapframe : Z;
  p_context : context;
  p_ofile : list (option nat);
  p_cwd : option nat;
  p_name : list Z
}.

Definition pset_state v p := Proc v (p_chan p) (p_killed p) (p_xstate p) (p_pid p) (p_parent p) (p_kstack p) (p_sz p) (p_pagetable p) (p_trapframe p) (p_context p) (p_ofile p) (p_cwd p) (p_name p).
Definition pset_chan v p := Proc (p_state p) v (p_killed p) (p_xstate p) (p_pid p) (p_parent p) (p_kstack p) (p_sz p) (p_pagetable p) (p_trapframe p) (p_context p) (p_ofile p) (p_cwd p) (p_name p).
Definition pset_killed v p := Proc (p_state p) (p_chan p) v (p_xstate p) (p_pid p) (p_parent p) (p_kstack p) (p_sz p) (p_pagetable p) (p_trapframe p) (p_context p) (p_ofile p) (p_cwd p) (p_name p).
Definition pset_xstate v p := Proc (p_state p) (p_chan p) (p_killed p) v (p_pid p) (p_parent p) (p_kstack p) (p_sz p) (p_pagetable p) (p_trapframe p) (p_context p) (p_ofile p) (p_cwd p) (p_name p).
Definition pset_pid v p := Proc (p_state p) (p_chan p) (p_killed p) (p_xstate p) v (p_parent p) (p_kstack p) (p_sz p) (p_pagetable p) (p_trapframe p) (p_context p) (p_ofile p) (p_cwd p) (p_name p).
Definition pset_parent v p := Proc (p_state p) (p_chan p) (p_killed p) (p_xstate p) (p_pid p) v (p_kstack p) (p_sz p) (p_pagetable p) (p_trapframe p) (p_context p) (p_ofile p) (p_cwd p) (p_name p).
Definition pset_kstack v p := Proc (p_state p) (p_chan p) (p_killed p) (p_xstate p) (p_pid p) (p_parent p) v (p_sz p) (p_pagetable p) (p_trapframe p) (p_context p) (p_ofile p) (p_cwd p) (p_name p).
Definition pset_sz v p := Proc (p_state p) (p_chan p) (p_killed p) (p_xstate p) (p_pid p) (p_parent p) (p_kstack p) v (p_pagetable p) (p_trapframe p) (p_context p) (p_ofile p) (p_cwd p) (p_name p).
Definition pset_pagetable v p := Proc (p_state p) (p_chan p) (p_killed p) (p_xstate p) (p_pid p) (p_parent p) (p_kstack p) (p_sz p) v (p_trapframe p) (p_context p) (p_ofile p) (p_cwd p) (p_name p).
Definition pset_trapframe v p := Proc (p_state p) (p_chan p) (p_killed p) (p_xstate p) (p_pid p) (p_parent p) (p_kstack p) (p_sz p) (p_pagetable p) v (p_context p) (p_ofile p) (p_cwd p) (p_name p).
Definition pset_context v p := Proc (p_state p) (p_chan p) (p_killed p) (p_xstate p) (p_pid p) (p_parent p) (p_kstack p) (p_sz p) (p_pagetable p) (p_trapframe p) v (p_ofile p) (p_cwd p) (p_name p).
Definition pset_ofile v p := Proc (p_state p) (p_chan p) (p_killed p) (p_xstate p) (p_pid p) (p_parent p) (p_kstack p) (p_sz p) (p_pagetable p) (p_trapframe p) (p_context p) v (p_cwd p) (p_name p).
Definition pset_cwd v p := Proc (p_state p) (p_chan p) (p_killed p) (p_xstate p) (p_pid p) (p_parent p) (p_kstack p) (p_sz p) (p_pagetable p) (p_trapframe p) (p_context p) (p_ofile p) v (p_name p).
Definition pset_name v p := Proc (p_state p) (p_chan p) (p_killed p) (p_xstate p) (p_pid p) (p_parent p) (p_kstack p) (p_sz p) (p_pagetable p) (p_trapframe p) (p_context p) (p_ofile p) (p_cwd p) v.

(** Offsets of [struct trapframe]. *)
Definition TF_kernel_satp : Z := 0.
Definition TF_kernel_sp : Z := 8.
Definition TF_kernel_trap : Z := 16.
Definition TF_epc : Z := 24.
Definition TF_kernel_hartid : Z := 32.
Definition TF_sp : Z := 48.
Definition TF_a0 : Z := 112.
Definition TF_a1 : Z := 120.
Definition TF_a7 : Z := 168.
Definition sizeof_trapframe : nat := 288.

(** What a process needs of the file system. *)
Class FileOps (F : Type) := {
  filedup : nat → M (kmem * F) unit;
  fileclose : nat → M (kmem * F) (list chan);
  idup : nat → M (kmem * F) unit;
  begin_op : M (kmem * F) unit;
  iput : nat → M (kmem * F) unit;
  end_op : M (kmem * F) (list chan);
  namei : list Z → M (kmem * F) (option nat)
}.

(** [ks_ticks]: the clock of trap.c. *)
Record kstate (F : Type) := KState {
  ks_k : kmem;
  ks_f : F;
  ks_procs : list proc;
  ks_nextpid : Z;
  ks_initproc : option nat;
  ks_ticks : Z
}.
Arguments KState {F}.
Arguments ks_k {F}.
Arguments ks_f {F}.
Arguments ks_procs {F}.
Arguments ks_nextpid {F}.
Arguments ks_initproc {F}.
Arguments ks_ticks {F}.

(** ** [sched] *)

(** The CPU's lock state, [p->lock] and [p->state] when a process calls [sched]:
    why it panics, if it does. *)
Definition sched (id : nat) (c : cpu) (lk : spinlock) (st : procstate) : option string :=
  if negb (holding lk id) then Some "sched p->lock"%string else
  if negb (noff c =? 1) then Some "sched locks"%string else
  if decide (st = RUNNING) then Some "sched running"%string else
  if sie c then Some "sched interruptible"%string else None.

Section code.
Context {F : Type} `{FileOps F}.
(** Addresses from kernel.ld and trampoline.S, and of [forkret]. *)
Context (kend trampoline forkret_pc : Z) (initcode : list Z).
Abbreviation KM := (M (kstate F)).

Definition onk {A} (m : M kmem A) : KM A :=
  lift ks_k (λ k s, KState k (ks_f s) (ks_procs s) (ks_nextpid s) (ks_initproc s) (ks_ticks s)) m.
Definition onf {A} (m : M (kmem * F) A) : KM A :=
  lift (λ s, (ks_k s, ks_f s))
    (λ kf s, KState (fst kf) (snd kf) (ks_procs s) (ks_nextpid s) (ks_initproc s) (ks_ticks s)) m.

Definition getp (p : nat) : KM proc := s ← mget; mnth (ks_procs s !! p).
Definition setp (p : nat) (f : proc → proc) : KM unit :=
  modify (λ s, KState (ks_k s) (ks_f s) (alter f p (ks_procs s)) (ks_nextpid s) (ks_initproc s) (ks_ticks s)).

(** [for(p = proc; p < &proc[NPROC]; p++)] *)
Definition each_proc : list nat := seq 0 NPROC.

Definition procinit : KM unit :=
  mfor each_proc (λ p, setp p (pset_state UNUSED) ;; setp p (pset_kstack (KSTACK (Z.of_nat p)))).

Definition allocpid : KM Z :=
  s ← mget;
  let pid := ks_nextpid s in
  modify (λ s, KState (ks_k s) (ks_f s) (ks_procs s) (s32 (ks_nextpid s + 1)) (ks_initproc s) (ks_ticks s)) ;;
  mret pid.

Definition proc_pagetable (tf : Z) : M kmem Z :=
  pagetable ← uvmcreate;
  if pagetable =? 0 then mret 0 else
  r ← mappages pagetable TRAMPOLINE PGSIZE trampoline (Z.lor PTE_R PTE_X);
  if r <? 0 then uvmfree kend pagetable 0 ;; mret 0 else
  r ← mappages pagetable TRAPFRAME PGSIZE tf (Z.lor PTE_R PTE_W);
  if r <? 0 then uvmunmap kend pagetable TRAMPOLINE 1 false ;; uvmfree kend pagetable 0 ;; mret 0 else
  mret pagetable.

Definition proc_freepagetable (pagetable sz : Z) : M kmem unit :=
  uvmunmap kend pagetable TRAMPOLINE 1 false ;;
  uvmunmap kend pagetable TRAPFRAME 1 false ;;
  uvmfree kend pagetable sz.

Definition freeproc (p : nat) : KM unit :=
  q ← getp p;
  mwhen (negb (p_trapframe q =? 0)) (onk (kfree kend (p_trapframe q))) ;;
  setp p (pset_trapframe 0) ;;
  mwhen (negb (p_pagetable q =? 0)) (onk (proc_freepagetable (p_pagetable q) (p_sz q))) ;;
  setp p (λ q, pset_pagetable 0 q) ;;
  setp p (pset_sz 0) ;;
  setp p (pset_pid 0) ;;
  setp p (pset_parent None) ;;
  setp p (λ q, pset_name (<[0%nat := 0]> (p_name q)) q) ;;
  setp p (pset_chan None) ;;
  setp p (pset_killed 0) ;;
  setp p (pset_xstate 0) ;;
  setp p (pset_state UNUSED).

(** [None]: the null pointer. *)
Definition allocproc : KM (option nat) :=
  r ← mfind each_proc (λ p,
    q ← getp p;
    mret (if decide (p_state q = UNUSED) then Some p else None));
  match r with
  | None => mret None
  | Some p =>
      pid ← allocpid;
      setp p (pset_pid pid) ;;
      setp p (pset_state USED) ;;
      tf ← onk kalloc;
      setp p (pset_trapframe tf) ;;
      if tf =? 0 then freeproc p ;; mret None else
      pt ← onk (proc_pagetable tf);
      setp p (pset_pagetable pt) ;;
      if pt =? 0 then freeproc p ;; mret None else
      setp p (λ q, pset_context (Context_ forkret_pc (u64 (p_kstack q + PGSIZE))) q) ;;
      mret (Some p)
  end.

(** [safestrcpy(p->name, s, sizeof(p->name))] *)
Definition set_name (t : ptr) (q : proc) : proc := pset_name (splice (p_name q) 0 (safestrcpy t 16)) q.

Definition slash : list Z := [47].
Definition initcode_name : list Z := [105; 110; 105; 116; 99; 111; 100; 101; 0].

Definition userinit : KM unit :=
  r ← allocproc;
  modify (λ s, KState (ks_k s) (ks_f s) (ks_procs s) (ks_nextpid s) r (ks_ticks s)) ;;
  match r with
  | None => mfault
  | Some p =>
      q ← getp p;
      onk (uvmfirst (p_pagetable q) initcode) ;;
      setp p (pset_sz PGSIZE) ;;
      onk (stp (p_trapframe q + TF_epc) 0) ;;
      onk (stp (p_trapframe q + TF_sp) PGSIZE) ;;
      setp p (set_name (list_ptr initcode_name)) ;;
      cwd ← onf (namei slash);
      setp p (pset_cwd cwd) ;;
      setp p (pset_state RUNNABLE)
  end.

(** ** Waking and killing *)

Definition wakeup (me : option nat) (c : chan) : KM unit :=
  mfor each_proc (λ p,
    if decide (Some p = me) then mret tt else
    q ← getp p;
    mwhen (bool_decide (p_state q = SLEEPING ∧ p_chan q = Some c)) (setp p (pset_state RUNNABLE))).

Definition wakeups (me : option nat) (cs : list chan) : KM unit := mfor cs (wakeup me).

Definition kill (pid : Z) : KM Z :=
  r ← mfind each_proc (λ p,
    q ← getp p;
    if p_pid q =? pid then
      setp p (pset_killed 1) ;;
      mwhen (bool_decide (p_state q = SLEEPING)) (setp p (pset_state RUNNABLE)) ;;
      mret (Some 0)
    else mret None);
  mret (default (-1) r).

Definition setkilled (p : nat) : KM unit := setp p (pset_killed 1).
Definition killed (p : nat) : KM Z := q ← getp p; mret (p_killed q).

(** The channel that is the address of a process. *)
Definition proc_chan (p : nat) : chan := Chan "proc" p.

(** [sleep]: what it does before it switches to the scheduler, and after the
    process has been woken up. *)
Definition sleep_begin (me : nat) (c : chan) : KM unit :=
  setp me (pset_chan (Some c)) ;;
  setp me (pset_state SLEEPING).
Definition sleep_end (me : nat) : KM unit := setp me (pset_chan None).

Definition yield_begin (me : nat) : KM unit := setp me (pset_state RUNNABLE).

(** One process of the [scheduler]'s scan: [true] if it is switched to. *)
Definition scheduler_visit (p : nat) : KM bool :=
  q ← getp p;
  if decide (p_state q = RUNNABLE) then setp p (pset_state RUNNING) ;; mret true else mret false.

(** ** The calling process *)
Section self.
Context (me : nat).

Definition growproc (n : Z) : KM Z :=
  p ← getp me;
  let sz := p_sz p in
  if n >? 0 then
    sz' ← onk (uvmalloc kend (p_pagetable p) sz (u64 (sz + n)) PTE_W);
    if sz' =? 0 then mret (-1) else setp me (pset_sz sz') ;; mret 0
  else if n <? 0 then
    sz' ← onk (uvmdealloc kend (p_pagetable p) sz (u64 (sz + n)));
    setp me (pset_sz sz') ;; mret 0
  else setp me (pset_sz sz) ;; mret 0.

Definition fork : KM Z :=
  r ← allocproc;
  match r with
  | None => mret (-1)
  | Some np =>
      p ← getp me;
      q ← getp np;
      r ← onk (uvmcopy kend (p_pagetable p) (p_pagetable q) (p_sz p));
      if r <? 0 then freeproc np ;; mret (-1) else
      setp np (pset_sz (p_sz p)) ;;
      onk (modify (λ k, kset_mem (memmove (k_mem k) (p_trapframe q) (p_trapframe p) sizeof_trapframe) k)) ;;
      onk (stp (p_trapframe q + TF_a0) 0) ;;
      mfor (seq 0 NOFILE) (λ i,
        f ← mnth (p_ofile p !! i);
        match f with
        | Some f => onf (filedup f) ;; setp np (λ q, pset_ofile (<[i := Some f]> (p_ofile q)) q)
        | None => mret tt
        end) ;;
      (match p_cwd p with Some ip => onf (idup ip) | None => mfault end) ;;
      setp np (pset_cwd (p_cwd p)) ;;
      setp np (set_name (list_ptr (p_name p))) ;;
      setp np (pset_parent (Some me)) ;;
      setp np (pset_state RUNNABLE) ;;
      mret (p_pid q)
  end.

Definition reparent : KM unit :=
  mfor each_proc (λ pp,
    q ← getp pp;
    mwhen (bool_decide (p_parent q = Some me))
      (s ← mget;
       setp pp (pset_parent (ks_initproc s)) ;;
       match ks_initproc s with Some i => wakeup (Some me) (proc_chan i) | None => mret tt end)).

(** Up to the switch to the scheduler, from which a zombie does not return. *)
Definition exit (status : Z) : KM unit :=
  s ← mget;
  if decide (ks_initproc s = Some me) then panic "init exiting" else
  mfor (seq 0 NOFILE) (λ fd,
    p ← getp me;
    f ← mnth (p_ofile p !! fd);
    match f with
    | Some f =>
        cs ← onf (fileclose f);
        wakeups (Some me) cs ;;
        setp me (λ p, pset_ofile (<[fd := None]> (p_ofile p)) p)
    | None => mret tt
    end) ;;
  p ← getp me;
  onf begin_op ;;
  (match p_cwd p with Some ip => onf (iput ip) | None => mfault end) ;;
  cs ← onf end_op;
  wakeups (Some me) cs ;;
  setp me (pset_cwd None) ;;
  reparent ;;
  p ← getp me;
  (match p_parent p with Some pp => wakeup (Some me) (proc_chan pp) | None => mret tt end) ;;
  setp me (pset_xstate status) ;;
  setp me (pset_state ZOMBIE).

(** The scan of [wait]: whether the caller has children, and the value to
    return if one has exited. *)
Fixpoint wait_scan (l : list nat) (addr : Z) (havekids : bool) : KM (bool * option Z) :=
  match l with
  | [] => mret (havekids, None)
  | pp :: l =>
      q ← getp pp;
      if decide (p_parent q = Some me) then
        if decide (p_state q = ZOMBIE) then
          p ← getp me;
          r ← (if negb (addr =? 0) then onk (copyout (p_pagetable p) addr (le_bytes 4 (p_xstate q))) else mret 0);
          if r <? 0 then mret (true, Some (-1)) else
          freeproc pp ;; mret (true, Some (p_pid q))
        else wait_scan l addr true
      else wait_scan l addr havekids
  end.

(** One round of [wait]; it sleeps on the caller's address and tries again. *)
Definition wait (addr : Z) : KM Z :=
  '(havekids, r) ← wait_scan each_proc addr false;
  match r with
  | Some r => mret r
  | None =>
      k ← killed me;
      if negb havekids || negb (k =? 0) then mret (-1) else msleep (proc_chan me)
  end.

Definition either_copyout (user_dst : bool) (dst : Z) (src : list Z) : KM Z :=
  p ← getp me;
  if user_dst then onk (copyout (p_pagetable p) dst src)
  else onk (modify (λ k, kset_mem (st_bytes (k_mem k) dst src) k)) ;; mret 0.

Definition either_copyin (user_src : bool) (src len : Z) : KM (list Z * Z) :=
  p ← getp me;
  if user_src then onk (copyin (p_pagetable p) src len)
  else onk (gets (λ k, (ld_bytes (k_mem k) src (Z.to_nat len), 0))).

(** [sizeof(struct proc_info)] bytes: pid, state, name. *)
Definition state_num (st : procstate) : Z :=
  match st with UNUSED => 0 | USED => 1 | SLEEPING => 2 | RUNNABLE => 3 | RUNNING => 4 | ZOMBIE => 5 end.

(** The bytes of [struct proc_info] past the name's null byte are whatever the
    stack held: [junk]. *)
Definition proc_info_bytes (junk : list Z) (q : proc) : list Z :=
  le_bytes 4 (p_pid q) ++ le_bytes 4 (state_num (p_state q)) ++ splice junk 0 (safestrcpy (list_ptr (p_name q)) 16).

Definition sys_getprocs (junk : list Z) (info_addr : Z) : KM Z :=
  s ← mget;
  let live := filter (λ q, p_state q ≠ UNUSED) (ks_procs s) in
  let count := Z.of_nat (length live) in
  if 0 <? count then
    p ← getp me;
    r ← onk (copyout (p_pagetable p) info_addr (concat (proc_info_bytes junk <$> live)));
    if r <? 0 then mret (-1) else mret count
  else mret count.
End self.

(** What [procdump] prints: pid, state and name of each process. *)
Definition state_name (st : procstate) : string :=
  match st with
  | UNUSED => "unused" | USED => "used" | SLEEPING => "sleep " | RUNNABLE => "runble"
  | RUNNING => "run   " | ZOMBIE => "zombie"
  end.

Definition procdump : KM (list (Z * string * list Z)) :=
  gets (λ s, (λ q, (p_pid q, state_name (p_state q), cstr 16 (list_ptr (p_name q)))) <$>
    filter (λ q, p_state q ≠ UNUSED) (ks_procs s)).
End code.
