(* ===== verification/ProcSpec.v ===== *)
(** * The memory of a process; allocating and freeing processes

    [proc_pagetable], [proc_freepagetable], [allocproc] and [freeproc] of
    kernel/proc.c on the process table and on memory. *)
From Stdlib Require Import ZArith Lia.
From stdpp Require Import prelude gmap strings.
From S2P Require Import Prelude Bytes Param Str Riscv PhysMem Kalloc Vm VmSpec VmMap VmGrow VmFree VmTheorems Spinlock Proc.

(** ** The memory of a process

    [proc_pagetable] and [proc_freepagetable] of kernel/proc.c: an address space
    with the trampoline and the trap frame at its top and the process's memory
    at its bottom, and the pages it consists of. *)

#[local] Opaque memset st64 memmove.

(** The virtual pages of TRAMPOLINE and TRAPFRAME. *)
Definition vtramp : Z := 67108863.
Definition vtf : Z := 67108862.

Lemma TRAMPOLINE_vpn : TRAMPOLINE = 4096 * vtramp.
Proof. done. Qed.

Lemma TRAPFRAME_vpn : TRAPFRAME = 4096 * vtf.
Proof. done. Qed.

Section pmem.
Context (kend trampoline : Z) (Hend : KERNBASE ≤ kend) (Htr : 0 ≤ trampoline < 18446744073709547520).
Implicit Types (k : kmem) (L : list Z) (T : gmap (list Z) Z) (D : gmap Z Z).

Definition tramp_pte : Z := leaf trampoline (Z.lor PTE_R PTE_X).
Definition tf_pte (tf : Z) : Z := leaf tf (Z.lor PTE_R PTE_W).

(** The user's part of an address space of [n] pages. *)
Definition upages D (n : Z) : list Z := dpages D (vrange 0 (Z.to_nat n)).

(** The page table of a process of [sz] bytes with trap frame [tf]. *)
Record ppt (k : kmem) L T D (root sz tf : Z) : Prop := {
  pm_as : aspace kend k L T D root;
  pm_user v : 0 ≤ v < npages sz → mapped D v;
  pm_dom v : is_Some (D !! v) → 0 ≤ v < npages sz ∨ v = vtramp ∨ v = vtf;
  pm_tramp : D !! vtramp = Some tramp_pte;
  pm_tf : D !! vtf = Some (tf_pte tf);
  pm_sz : 0 ≤ sz ≤ 4096 * vtf;
  pm_owns : owns kend L T D (vrange 0 (Z.to_nat (npages sz)))
}.

(** It, and the trap frame. *)
Record pmem (k : kmem) L T D (root sz tf : Z) : Prop := {
  pm_ppt : ppt k L T D root sz tf;
  pm_tfpage : page_ok kend tf ∧ (tf ∉ L) ∧ (tf ∉ tpages T) ∧ tf ∉ upages D (npages sz)
}.

(** Everything the process has of physical memory. *)
Definition own_set T D (sz tf : Z) : gset Z := tpages T ∪ list_to_set (upages D (npages sz)) ∪ {[tf]}.

Lemma own_set_page k L T D root sz tf p :
  pmem k L T D root sz tf → p ∈ own_set T D sz tf → page_ok kend p ∧ p ∉ L.
Proof.
  intros [[Has _ _ _ _ _ Hown] Htf]. unfold own_set. rewrite !elem_of_union, tpages_elem, elem_of_list_to_set, elem_of_singleton.
  intros [[[l Hl]|Hin]| ->].
  - split; [by eapply (pt_page _ _ _ _ (as_tab _ _ _ _ _ _ Has))|by eapply (as_free _ _ _ _ _ _ Has)].
  - destruct (ow_page _ _ _ _ _ Hown p Hin) as (? & ? & ?). done.
  - destruct Htf as (? & ? & _). done.
Qed.

(** What happens elsewhere does not matter. *)
Lemma ppt_frame k k' L L' T D root sz tf :
  ppt k L T D root sz tf → kmem_ok kend k' L' → (∀ p, p ∈ tpages T ∨ p ∈ upages D (npages sz) → p ∉ L') →
  (∀ p a, p ∈ tpages T → in_page p a → ld (k_mem k') a = ld (k_mem k) a) →
  ppt k' L' T D root sz tf.
Proof.
  intros [Has Huser Hdom Htramp Htf Hsz Hown] Hk' Hdis Hm. split; try done.
  - eapply aspace_frame; [exact Has|done| |].
    + intros l p Hp. apply Hdis. left. apply tpages_elem. eauto.
    + intros l p a Hp. apply Hm, tpages_elem. eauto.
  - split; [apply Hown|]. intros p Hp. destruct (ow_page _ _ _ _ _ Hown p Hp) as (? & ? & ?). split_and!; [done| |done].
    apply Hdis. by right.
Qed.

Lemma pmem_frame k k' L L' T D root sz tf :
  pmem k L T D root sz tf → kmem_ok kend k' L' → (∀ p, p ∈ own_set T D sz tf → p ∉ L') →
  (∀ p a, p ∈ tpages T → in_page p a → ld (k_mem k') a = ld (k_mem k) a) →
  pmem k' L' T D root sz tf.
Proof.
  intros [Hp Htf] Hk' Hdis Hm. unfold own_set in Hdis. split.
  - eapply ppt_frame; [done|done| |done]. intros p Hin. apply Hdis. rewrite !elem_of_union, elem_of_list_to_set. tauto.
  - destruct Htf as (? & ? & ? & ?). split_and!; [done| |done|done]. apply Hdis. rewrite !elem_of_union, elem_of_singleton. tauto.
Qed.

(** Giving up a page table without user memory. *)
Lemma free_empty k L T root (Q : unit → kmem → Prop) :
  aspace kend k L T ∅ root →
  (∀ k' L', kmem_ok kend k' L' → list_to_set L' =@{gset Z} list_to_set L ∪ tpages T →
     outside (tpages T) (k_mem k) (k_mem k') → Q tt k') →
  wp (uvmfree kend root 0) k Q.
Proof.
  intros Has HQ. eapply (uvmfree_spec kend Hend k L T ∅ root 0); [done|by vm_compute| | | |].
  - intros v. rewrite lookup_empty. change (npages 0) with 0. cbn. split; [by intros []|lia].
  - intros v Hv. change (npages 0) with 0 in Hv. cbn in Hv. lia.
  - change (npages 0) with 0. apply owns_nil.
  - change (dpages ∅ (vrange 0 (Z.to_nat (npages 0)))) with (@nil Z). rewrite list_to_set_nil.
    intros k' L'. rewrite !union_empty_r_L. apply HQ.
Qed.

Lemma leaf_not_table pa perm : 0 ≤ perm < 1024 → Z.lor perm PTE_V ≠ PTE_V → PTE_FLAGS (leaf pa perm) ≠ PTE_V.
Proof. intros Hp Hne. by rewrite leaf_flags. Qed.

(** A table with some of the two pages mapped. *)
Lemma unmap_one k L T D root v (Q : unit → kmem → Prop) :
  aspace kend k L T D root → 0 ≤ v < 67108864 → mapped D v →
  (∀ k', aspace kend k' L T (delete v D) root → outside (tpages T) (k_mem k) (k_mem k') → Q tt k') →
  wp (uvmunmap kend root (4096 * v) 1 false) k Q.
Proof.
  intros Has Hv Hm HQ. change 1 with (Z.of_nat 1).
  apply (uvmunmap_spec kend Hend k L T D root v 1 false); [done|lia|change (NVPN / 2) with 67108864; lia| |done|].
  - intros x Hx. by replace x with v by lia.
  - cbn [unmap_range]. rewrite union_empty_r_L. exact (λ k', HQ k').
Qed.

(** ** [proc_pagetable] *)

(** The pages of [L] are now free or tables; only they were written. *)
Definition split_pages (k : kmem) L (k' : kmem) L' T : Prop :=
  list_to_set L =@{gset Z} list_to_set L' ∪ tpages T ∧ outside (list_to_set L) (k_mem k) (k_mem k').

Lemma split_grow k L k1 L1 T1 k2 L2 T2 :
  split_pages k L k1 L1 T1 → grow k1 L1 T1 k2 L2 T2 → split_pages k L k2 L2 T2.
Proof.
  intros [Hset Hout] Hg. destruct (gr_pages _ _ _ _ _ _ Hg) as (new & -> & HT). split.
  - rewrite Hset, HT, list_to_set_app_L. apply set_eq. intros p. rewrite !elem_of_union. tauto.
  - eapply outside_trans; [exact Hout|]. eapply outside_mono; [|apply Hg].
    rewrite Hset, HT, list_to_set_app_L. intros p. rewrite !elem_of_union. tauto.
Qed.

Lemma split_free k L k1 L1 T k2 L2 :
  split_pages k L k1 L1 T → list_to_set L2 =@{gset Z} list_to_set L1 ∪ tpages T → outside (tpages T) (k_mem k1) (k_mem k2) →
  list_to_set L2 =@{gset Z} list_to_set L ∧ outside (list_to_set L) (k_mem k) (k_mem k2).
Proof.
  intros [Hset Hout] HL2 Hout2. split; [by rewrite HL2, Hset|].
  eapply outside_trans; [exact Hout|]. eapply outside_mono; [|exact Hout2]. rewrite Hset. apply union_subseteq_r.
Qed.

Definition D_tramp : gmap Z Z := {[ vtramp := tramp_pte ]}.
Definition D_empty (tf : Z) : gmap Z Z := <[ vtf := tf_pte tf ]> D_tramp.

Lemma pmem_empty k L T root tf :
  aspace kend k L T (D_empty tf) root → page_ok kend tf → tf ∉ L → tf ∉ tpages T → pmem k L T (D_empty tf) root 0 tf.
Proof.
  intros Has Htf HL HT. unfold D_empty, D_tramp in *. split; [split|].
  - done.
  - intros v Hv. change (npages 0) with 0 in Hv. lia.
  - intros v [x [[<- _]|[_ [<- _]%lookup_singleton_Some]]%lookup_insert_Some]; tauto.
  - by rewrite lookup_insert_ne, lookup_singleton_eq.
  - by rewrite lookup_insert_eq.
  - done.
  - apply owns_nil.
  - split_and!; try done. change (npages 0) with 0. apply not_elem_of_nil.
Qed.

Lemma tramp_perm : 0 ≤ Z.lor PTE_R PTE_X < 1024 ∧ Z.lor (Z.lor PTE_R PTE_X) PTE_V ≠ PTE_V.
Proof. by vm_compute. Qed.

Lemma tf_perm : 0 ≤ Z.lor PTE_R PTE_W < 1024 ∧ Z.lor (Z.lor PTE_R PTE_W) PTE_V ≠ PTE_V.
Proof. by vm_compute. Qed.

(** Mapping one page of the kernel's own. *)
Lemma map_one k L T D root v pa perm (Q : Z → kmem → Prop) :
  aspace kend k L T D root → 0 ≤ v < 67108864 → 0 ≤ pa < 18446744073709547520 → 0 ≤ perm < 1024 → D !! v = None →
  (∀ k' L' T', aspace kend k' L' T' (<[v := leaf pa perm]> D) root → grow k L T k' L' T' → (length L ≤ length L' + 2)%nat → Q 0 k') →
  (∀ k' T', aspace kend k' [] T' D root → grow k L T k' [] T' → (length L < 2)%nat → Q (-1) k') →
  wp (mappages root (4096 * v) 4096 pa perm) k Q.
Proof.
  intros Has Hv Hpa Hperm HD HQ0 HQ1. change 4096 with (4096 * Z.of_nat 1) at 2.
  apply (mappages_spec kend Hend k L T D root v 1); try done; try lia.
  - change (NVPN / 2) with 67108864. lia.
  - intros x Hx. by replace x with v by lia.
  - intros r k' L' T' j Has' Hg [(-> & -> & Hlen)|(-> & Hj & -> & Hlen)].
    + eapply HQ0; [exact Has'|done|lia].
    + replace j with O in Has' by lia. eapply HQ1; [exact Has'|done|lia].
Qed.

Lemma proc_pagetable_spec k L tf (Q : Z → kmem → Prop) :
  kmem_ok kend k L → page_ok kend tf → tf ∉ L →
  (∀ k' L' T root, pmem k' L' T (D_empty tf) root 0 tf → root ≠ 0 → split_pages k L k' L' T →
     (length L ≤ length L' + 5)%nat → Q root k') →
  (∀ k' L', kmem_ok kend k' L' → list_to_set L' =@{gset Z} list_to_set L →
     outside (list_to_set L) (k_mem k) (k_mem k') → (length L < 5)%nat → Q 0 k') →
  wp (proc_pagetable kend trampoline tf) k Q.
Proof.
  intros Hk Htf HtfL HQ HQ0. unfold proc_pagetable. wp_step. apply (uvmcreate_spec kend Hend k L); [done|]. destruct L as [|p L].
  { cbn [Z.eqb]. wp_step. apply (HQ0 k []); [done|done|done|cbn; lia]. }
  intros k1 Has1 Hout1. assert (p ≠ 0) as Hp0.
  { destruct (page_bounds kend Hend p); [by eapply (pt_page _ _ _ _ (as_tab _ _ _ _ _ _ Has1) [])|lia]. }
  rewrite (proj2 (Z.eqb_neq _ _)) by done.
  assert (split_pages k (p :: L) k1 L {[ [] := p ]}) as Hs1.
  { split.
    - unfold tpages. rewrite map_img_singleton_L. cbn [list_to_set]. apply (comm_L (∪)).
    - eapply outside_mono; [|exact Hout1]. cbn [list_to_set]. apply union_subseteq_l. }
  wp_step. rewrite TRAMPOLINE_vpn. change PGSIZE with 4096.
  eapply (map_one k1 L {[ [] := p ]} ∅ p vtramp); [done|done|done|apply tramp_perm|by rewrite lookup_empty| |].
  2:{ intros k2 T2 Has2 Hg2 Hlen. change (-1 <? 0) with true. cbv match. wp_step. eapply free_empty; [exact Has2|].
      intros k3 L3 Hk3 HL3 Hout3. wp_step. destruct (split_free _ _ _ _ _ _ _ (split_grow _ _ _ _ _ _ _ _ Hs1 Hg2) HL3 Hout3).
      apply (HQ0 k3 L3); [done..|cbn [length]; lia]. }
  intros k2 L2 T2 Has2 Hg2 Hlen2. change (0 <? 0) with false. cbv match. wp_step. rewrite TRAPFRAME_vpn.
  pose proof (split_grow _ _ _ _ _ _ _ _ Hs1 Hg2) as Hs2. change (<[vtramp := leaf trampoline (Z.lor PTE_R PTE_X)]> ∅) with D_tramp in Has2.
  eapply (map_one k2 L2 T2 D_tramp p vtf tf); [done|done| |apply tf_perm|done| |].
  { destruct (page_bounds kend Hend tf Htf). unfold PHYSTOP, KERNBASE in *. lia. }
  2:{ intros k3 T3 Has3 Hg3 Hlen3. change (-1 <? 0) with true. cbv match. wp_step. eapply unmap_one; [exact Has3|done| |].
      { exists tramp_pte. split; [by unfold D_tramp; rewrite lookup_singleton_eq|]. apply (leaf_not_table trampoline _ (proj1 tramp_perm) (proj2 tramp_perm)). }
      intros k4 Has4 Hout4. wp_step. replace (delete vtramp D_tramp) with (∅ : gmap Z Z) in Has4 by (unfold D_tramp; by rewrite delete_singleton_eq).
      eapply free_empty; [exact Has4|]. intros k5 L5 Hk5 HL5 Hout5. wp_step.
      destruct (split_free _ _ _ _ _ _ _ (split_grow _ _ _ _ _ _ _ _ Hs2 Hg3) HL5 (outside_trans _ _ _ _ Hout4 Hout5)).
      apply (HQ0 k5 L5); [done..|cbn [length]; lia]. }
  intros k3 L3 T3 Has3 Hg3 Hlen3. change (0 <? 0) with false. cbv match. wp_step. pose proof (split_grow _ _ _ _ _ _ _ _ Hs2 Hg3) as Hs3.
  apply (HQ k3 L3 T3); [|done|done|cbn [length]; lia]. apply pmem_empty; [exact Has3|done| |].
  - intros Hin. apply HtfL. apply (elem_of_list_to_set (C := gset Z)). rewrite (proj1 Hs3), elem_of_union, elem_of_list_to_set. by left.
  - intros Hin. apply HtfL. apply (elem_of_list_to_set (C := gset Z)). rewrite (proj1 Hs3), elem_of_union. by right.
Qed.

(** ** [proc_freepagetable] *)
Lemma proc_freepagetable_spec k L T D root sz tf (Q : unit → kmem → Prop) :
  ppt k L T D root sz tf →
  (∀ k' L', kmem_ok kend k' L' → list_to_set L' =@{gset Z} list_to_set L ∪ tpages T ∪ list_to_set (upages D (npages sz)) →
     outside (tpages T ∪ list_to_set (upages D (npages sz))) (k_mem k) (k_mem k') → Q tt k') →
  wp (proc_freepagetable kend root sz) k Q.
Proof.
  intros [Has Huser Hdom Htramp Htf Hsz Hown] HQ. unfold proc_freepagetable.
  assert (npages sz ≤ vtf) as Hn by (unfold npages, vtf in *; zlia). assert (0 ≤ npages sz) as Hn0 by (unfold npages; zlia).
  wp_step. rewrite TRAMPOLINE_vpn. eapply unmap_one; [exact Has|done| |].
  { exists tramp_pte. split; [done|]. apply (leaf_not_table trampoline _ (proj1 tramp_perm) (proj2 tramp_perm)). }
  intros k1 Has1 Hout1. wp_step. rewrite TRAPFRAME_vpn. eapply unmap_one; [exact Has1|done| |].
  { exists (tf_pte tf). split; [by rewrite lookup_delete_ne|]. apply (leaf_not_table tf _ (proj1 tf_perm) (proj2 tf_perm)). }
  intros k2 Has2 Hout2. set (D2 := delete vtf (delete vtramp D)) in *.
  assert (∀ v, 0 ≤ v < npages sz → D2 !! v = D !! v) as Hsame.
  { intros v Hv. unfold D2. rewrite !lookup_delete_ne by (unfold vtf, vtramp in *; lia). done. }
  assert (dpages D2 (vrange 0 (Z.to_nat (npages sz))) = upages D (npages sz)) as Hd.
  { apply list_fmap_ext. intros i v Hv%list_elem_of_lookup_2%elem_of_vrange. rewrite Hsame by lia. done. }
  eapply (uvmfree_spec kend Hend k2 L T D2 root sz); [done| | | | |].
  - change (NVPN / 2) with 67108864. unfold vtf in Hsz. lia.
  - intros v. rewrite Z2Nat.id by done. split.
    + intros Hv. unfold D2 in Hv. destruct (decide (v = vtf)) as [->|]; [rewrite lookup_delete_eq in Hv; by destruct Hv|].
      rewrite lookup_delete_ne in Hv by done. destruct (decide (v = vtramp)) as [->|]; [rewrite lookup_delete_eq in Hv; by destruct Hv|].
      rewrite lookup_delete_ne in Hv by done. destruct (Hdom v Hv) as [|[|]]; [lia|done|done].
    + intros Hv. rewrite Hsame by done. destruct (Huser v Hv) as (e & -> & _). done.
  - intros v. rewrite Z2Nat.id by done. intros Hv. destruct (Huser v Hv) as (e & He & Hfl). exists e. by rewrite Hsame.
  - destruct Hown as [Hnd Hpg]. split; rewrite Hd; done.
  - rewrite Hd. intros k3 L3 Hk3 HL3 Hout3. apply (HQ k3 L3); [done|done|].
    assert (outside (tpages T) (k_mem k) (k_mem k2)) as Hout by (by eapply outside_trans).
    eapply outside_trans; [|exact Hout3]. eapply outside_mono; [|exact Hout]. apply union_subseteq_l.
Qed.
End pmem.

#[local] Opaque memset st64 memmove.

Section table.
Context {F : Type}.
Implicit Types (s : kstate F) (p : nat) (q : proc).

Definition with_proc s p q : kstate F :=
  KState (ks_k s) (ks_f s) (<[p := q]> (ks_procs s)) (ks_nextpid s) (ks_initproc s) (ks_ticks s).
Definition with_k s (k : kmem) : kstate F :=
  KState k (ks_f s) (ks_procs s) (ks_nextpid s) (ks_initproc s) (ks_ticks s).
Definition with_nextpid s (n : Z) : kstate F :=
  KState (ks_k s) (ks_f s) (ks_procs s) n (ks_initproc s) (ks_ticks s).

Lemma with_proc_lookup s p q q0 : ks_procs s !! p = Some q0 → ks_procs (with_proc s p q) !! p = Some q.
Proof. intros Hp%lookup_lt_Some. cbn. by rewrite list_lookup_insert_eq. Qed.

Lemma with_proc_twice s p q q' : with_proc (with_proc s p q) p q' = with_proc s p q'.
Proof. unfold with_proc. cbn. by rewrite list_insert_insert_eq. Qed.

Lemma with_proc_same s p q : ks_procs s !! p = Some q → with_proc s p q = s.
Proof. intros Hp. unfold with_proc. rewrite list_insert_id by done. by destruct s. Qed.

Lemma wp_getp s p q (Q : proc → kstate F → Prop) : ks_procs s !! p = Some q → Q q s → wp (getp p) s Q.
Proof. intros Hp HQ. unfold getp. wp_step. wp_step. by rewrite Hp. Qed.

Lemma wp_setp s p q f (Q : unit → kstate F → Prop) :
  ks_procs s !! p = Some q → Q tt (with_proc s p (f q)) → wp (setp p f) s Q.
Proof.
  intros Hp HQ. unfold setp. wp_step. replace (alter f p (ks_procs s)) with (<[p := f q]> (ks_procs s)); [exact HQ|].
  apply list_eq. intros i. destruct (decide (i = p)) as [->|Hne].
  - rewrite list_lookup_insert_eq, list_lookup_alter_eq, Hp; [done|]. by eapply lookup_lt_Some.
  - by rewrite list_lookup_insert_ne, list_lookup_alter_ne.
Qed.

Lemma wp_onk {A} (m : M kmem A) s (Q : A → kstate F → Prop) :
  wp m (ks_k s) (λ a k, Q a (with_k s k)) → wp (onk m) s Q.
Proof. intros Hm. unfold onk. wp_step. exact Hm. Qed.
End table.

(** Runs the next access to process [p], whose record is [q]. *)
Ltac pget := eapply wp_getp; [first [eassumption|by eapply with_proc_lookup]|].
Ltac pset := wp_step; eapply wp_setp; [first [eassumption|by eapply with_proc_lookup]|];
  rewrite ?with_proc_twice.

Section spec.
Context {F : Type} `{FileOps F}.
Context (kend trampoline forkret_pc : Z) (Hend : KERNBASE ≤ kend) (Htr : 0 ≤ trampoline < 18446744073709547520).
Implicit Types (s : kstate F) (p : nat) (q : proc) (L : list Z).
Abbreviation pmem := (pmem kend trampoline).
Abbreviation ppt := (ppt kend trampoline).

(** What [freeproc] makes of a process. *)
Definition freed q : proc :=
  Proc UNUSED None 0 0 0 None (p_kstack q) 0 0 0 (p_context q) (p_ofile q) (p_cwd q) (<[0%nat := 0]> (p_name q)).

(** What it does to memory. *)
Definition freemem q : M kmem unit :=
  mwhen (negb (p_trapframe q =? 0)) (kfree kend (p_trapframe q)) ;;
  mwhen (negb (p_pagetable q =? 0)) (proc_freepagetable kend (p_pagetable q) (p_sz q)).

Lemma freeproc_mem s p q (Q : unit → kstate F → Prop) :
  ks_procs s !! p = Some q →
  wp (freemem q) (ks_k s) (λ _ k, Q tt (with_proc (with_k s k) p (freed q))) →
  wp (freeproc kend p) s Q.
Proof.
  intros Hp Hm. unfold freemem in Hm. unfold freeproc. wp_step. pget.
  assert (∀ c (m : M kmem unit) s0 (Q0 : unit → kstate F → Prop),
    wp (mwhen c m) (ks_k s0) (λ _ k, Q0 tt (with_k s0 k)) → wp (mwhen c (onk m)) s0 Q0) as Hwhen.
  { intros [] m s0 Q0 Hw; cbn [mwhen] in *; [apply wp_onk; eapply wp_mono; [exact Hw|by intros []]|]. wp_step. by destruct s0. }
  wp_step. apply Hwhen. apply wp_Ret in Hm as ([] & k2 & Hrun & HQ). unfold mbind, M_bind in Hrun.
  destruct (mwhen (negb (p_trapframe q =? 0)) _ (ks_k s)) as [[] k1| | | |] eqn:E1; try done.
  eapply wp_eq; [exact E1|]. assert (ks_procs (with_k s k1) !! p = Some q) as Hp1 by done.
  pset. wp_step. apply Hwhen. eapply wp_eq; [exact Hrun|].
  change (with_k (with_proc (with_k s k1) p (pset_trapframe 0 q)) k2) with (with_proc (with_k s k2) p (pset_trapframe 0 q)).
  assert (ks_procs (with_k s k2) !! p = Some q) as Hp2 by done.
  do 7 pset. pset. eapply wp_setp; [by eapply with_proc_lookup|]. rewrite with_proc_twice. exact HQ.
Qed.

Lemma freemem_none q k (Q : unit → kmem → Prop) :
  p_trapframe q = 0 → p_pagetable q = 0 → Q tt k → wp (freemem q) k Q.
Proof. intros Ht Hp HQ. unfold freemem. rewrite Ht, Hp. exact HQ. Qed.

Lemma freemem_tf q k L (Q : unit → kmem → Prop) :
  kmem_ok kend k L → page_ok kend (p_trapframe q) → p_trapframe q ∉ L → p_pagetable q = 0 →
  (∀ k', kmem_ok kend k' (p_trapframe q :: L) → outside {[p_trapframe q]} (k_mem k) (k_mem k') → Q tt k') →
  wp (freemem q) k Q.
Proof.
  intros Hk Htf HtfL Hp HQ. unfold freemem. rewrite Hp. destruct (page_bounds kend Hend _ Htf).
  rewrite (proj2 (Z.eqb_neq (p_trapframe q) 0)) by lia. cbn [negb mwhen Z.eqb]. wp_step.
  apply (kfree_spec kend Hend k L); [done..|]. intros k' Hk' Hout. wp_step. apply HQ; [done|].
  intros a Ha. apply Hout, Ha. by apply elem_of_singleton.
Qed.

Lemma freemem_all q k L T D (Q : unit → kmem → Prop) :
  pmem k L T D (p_pagetable q) (p_sz q) (p_trapframe q) → p_pagetable q ≠ 0 →
  (∀ k' L', kmem_ok kend k' L' → list_to_set L' =@{gset Z} list_to_set L ∪ own_set T D (p_sz q) (p_trapframe q) →
     outside (own_set T D (p_sz q) (p_trapframe q)) (k_mem k) (k_mem k') → Q tt k') →
  wp (freemem q) k Q.
Proof.
  intros [Hppt (Htf & HtfL & HtfT & HtfU)] Hp HQ. unfold freemem. destruct (page_bounds kend Hend _ Htf).
  rewrite (proj2 (Z.eqb_neq (p_trapframe q) 0)), (proj2 (Z.eqb_neq (p_pagetable q) 0)) by (done || lia). cbn [negb mwhen]. wp_step.
  apply (kfree_spec kend Hend k L); [apply (pm_as _ _ _ _ _ _ _ _ _ Hppt)|done|done|]. intros k1 Hk1 Hout1.
  eapply (proc_freepagetable_spec kend trampoline Hend Htr).
  - eapply ppt_frame; [exact Hppt|exact Hk1| |].
    + intros r Hr [->|Hin]%elem_of_cons; [tauto|]. destruct Hr as [[l Hl]%tpages_elem|Hr].
      * by eapply (as_free _ _ _ _ _ _ (pm_as _ _ _ _ _ _ _ _ _ Hppt)).
      * by destruct (ow_page _ _ _ _ _ (pm_owns _ _ _ _ _ _ _ _ _ Hppt) r Hr) as (_ & ? & _).
    + intros r a Hr Ha. apply Hout1. intros Ha'. apply HtfT. replace (p_trapframe q) with r; [done|].
      apply (pages_disjoint kend r (p_trapframe q) a); [|done|done|done].
      apply tpages_elem in Hr as [l Hl]. by eapply (pt_page _ _ _ _ (as_tab _ _ _ _ _ _ (pm_as _ _ _ _ _ _ _ _ _ Hppt))).
  - intros k2 L2 Hk2 HL2 Hout2. apply (HQ k2 L2); [done| |].
    + rewrite HL2. unfold own_set. cbn [list_to_set]. apply set_eq. intros r. rewrite !elem_of_union. tauto.
    + eapply outside_trans.
      * intros a Ha. apply Hout1. apply (Ha (p_trapframe q)). unfold own_set. rewrite elem_of_union, elem_of_singleton. by right.
      * eapply outside_mono; [|exact Hout2]. unfold own_set. apply union_subseteq_l.
Qed.

(** ** [allocproc] *)

Definition first_unused s p q : Prop :=
  ks_procs s !! p = Some q ∧ p_state q = UNUSED ∧
  ∀ j q', (j < p)%nat → ks_procs s !! j = Some q' → p_state q' ≠ UNUSED.

(** An unused entry has no memory. *)
Definition blank q : Prop := p_sz q = 0 ∧ p_pagetable q = 0 ∧ p_trapframe q = 0.

Definition allocated q (pid root tf : Z) : proc :=
  Proc USED (p_chan q) (p_killed q) (p_xstate q) pid (p_parent q) (p_kstack q) (p_sz q) root tf
    (Context_ forkret_pc (u64 (p_kstack q + PGSIZE))) (p_ofile q) (p_cwd q) (p_name q).

Lemma find_unused_proc s (Q : option nat → kstate F → Prop) :
  length (ks_procs s) = NPROC →
  (∀ p q, first_unused s p q → Q (Some p) s) →
  ((∀ p q, ks_procs s !! p = Some q → p_state q ≠ UNUSED) → Q None s) →
  wp (mfind each_proc (λ p, q ← getp p; mret (if decide (p_state q = UNUSED) then Some p else None))) s Q.
Proof.
  intros Hlen HQ HQ0. unfold each_proc.
  apply (wp_mfind_seq 0 NPROC _ (λ i s', s' = s ∧ ∀ j q, (j < i)%nat → ks_procs s !! j = Some q → p_state q ≠ UNUSED)).
  - split; [done|]. intros j q Hj. lia.
  - intros i s' Hi [-> Hbefore]. destruct (lookup_lt_is_Some_2 (ks_procs s) i) as [q Hq]; [lia|]. wp_step. pget. wp_step.
    destruct (decide (p_state q = UNUSED)) as [Hu|Hu]; [by apply HQ with q|]. split; [done|].
    intros j q' Hj Hq'. destruct (decide (j = i)) as [->|]; [congruence|]. apply (Hbefore j); [lia|done].
  - intros s' [-> Hall]. apply HQ0. intros p q Hp. apply (Hall p); [|done]. apply lookup_lt_Some in Hp. lia.
Qed.

Lemma allocproc_spec s L (Q : option nat → kstate F → Prop) :
  length (ks_procs s) = NPROC → kmem_ok kend (ks_k s) L → (∀ p q, ks_procs s !! p = Some q → p_state q = UNUSED → blank q) →
  ((∀ p q, ks_procs s !! p = Some q → p_state q ≠ UNUSED) → Q None s) →
  (∀ p q k' L' T root tf, first_unused s p q → pmem k' L' T (D_empty trampoline tf) root 0 tf → root ≠ 0 →
     list_to_set L =@{gset Z} list_to_set L' ∪ own_set T (D_empty trampoline tf) 0 tf →
     outside (list_to_set L) (k_mem (ks_k s)) (k_mem k') → (length L ≤ length L' + 6)%nat →
     Q (Some p) (with_nextpid (with_proc (with_k s k') p (allocated q (ks_nextpid s) root tf)) (s32 (ks_nextpid s + 1)))) →
  (∀ p q k' L', first_unused s p q → kmem_ok kend k' L' → list_to_set L' =@{gset Z} list_to_set L →
     outside (list_to_set L) (k_mem (ks_k s)) (k_mem k') → (length L < 6)%nat →
     Q None (with_nextpid (with_proc (with_k s k') p (freed q)) (s32 (ks_nextpid s + 1)))) →
  wp (allocproc kend trampoline forkret_pc) s Q.
Proof.
  intros Hlen Hk Hblank HQ0 HQ1 HQ2. unfold allocproc. wp_step. apply find_unused_proc; [done| |].
  2:{ intros Hall. wp_step. by apply HQ0. }
  intros p q Hfu. pose proof Hfu as (Hp & Hu & _). destruct (Hblank p q Hp Hu) as (Hsz & Hpt & Htf0).
  unfold allocpid. wp_step. wp_step. wp_step. wp_step. wp_step. wp_step.
  set (s1 := with_nextpid s (s32 (ks_nextpid s + 1))). change (KState _ _ _ _ _ _) with s1.
  assert (ks_procs s1 !! p = Some q) as Hp1 by done. pset. pset. wp_step. apply wp_onk.
  apply (kalloc_spec kend Hend _ L); [exact Hk|]. destruct L as [|tf L].
  { assert (ks_procs (with_k s1 (ks_k s)) !! p = Some q) as Hp2 by done.
    change (with_k (with_proc s1 p ?x) (ks_k (with_proc s1 p ?x))) with (with_proc (with_k s1 (ks_k s)) p x).
    pset. cbn [Z.eqb]. wp_step. eapply freeproc_mem; [by eapply with_proc_lookup|]. apply freemem_none; [done|done|].
    wp_step. change (with_k (with_proc ?a p ?x) ?k) with (with_proc a p x). rewrite with_proc_twice.
    apply (HQ2 p q (ks_k s) []); [done|done|done|done|cbn; lia]. }
  intros k1 Hk1 Htf HtfL Hm1. destruct (page_bounds kend Hend tf Htf) as [Htf1 _].
  assert (outside (list_to_set (tf :: L)) (k_mem (ks_k s)) (k_mem k1)) as Hout1.
  { intros a Ha. change (ks_k (with_proc s1 p _)) with (ks_k s) in Hm1. rewrite Hm1, decide_False; [done|].
    apply Ha, elem_of_list_to_set. left. }
  change (with_k (with_proc s1 p ?x) k1) with (with_proc (with_k s1 k1) p x).
  assert (ks_procs (with_k s1 k1) !! p = Some q) as Hp2 by done.
  pset. rewrite (proj2 (Z.eqb_neq tf 0)) by lia. wp_step. apply wp_onk.
  apply (proc_pagetable_spec kend trampoline Hend Htr k1 L tf); [done|done|done| |].
  - intros k2 L2 T root Hpm Hroot [Hset Hout2] Hlen2.
    change (with_k (with_proc (with_k s1 k1) p ?x) k2) with (with_proc (with_k s1 k2) p x).
    assert (ks_procs (with_k s1 k2) !! p = Some q) as Hp3 by done.
    pset. rewrite (proj2 (Z.eqb_neq root 0)) by done. pset. wp_step. apply (HQ1 p q k2 L2 T root tf); [done|done|done| | |cbn [length]; lia].
    + cbn [list_to_set]. rewrite Hset. unfold own_set. apply set_eq. intros r.
      change (upages (D_empty trampoline tf) (npages 0)) with (@nil Z). rewrite list_to_set_nil, !elem_of_union, elem_of_empty. tauto.
    + eapply outside_trans; [exact Hout1|]. eapply outside_mono; [|exact Hout2]. cbn [list_to_set]. apply union_subseteq_r.
  - intros k2 L2 Hk2 HL2 Hout2 Hlen2.
    change (with_k (with_proc (with_k s1 k1) p ?x) k2) with (with_proc (with_k s1 k2) p x).
    assert (ks_procs (with_k s1 k2) !! p = Some q) as Hp3 by done.
    pset. cbn [Z.eqb]. wp_step. eapply freeproc_mem; [by eapply with_proc_lookup|].
    assert (tf ∉ L2) as HtfL2.
    { intros Hin. apply HtfL. apply (elem_of_list_to_set (C := gset Z)). rewrite <-HL2. by apply elem_of_list_to_set. }
    apply (freemem_tf _ k2 L2); [done|done|done|done|]. intros k3 Hk3 Hout3.
    wp_step. change (with_k (with_proc (with_k s1 k2) p ?x) k3) with (with_proc (with_k s1 k3) p x). rewrite with_proc_twice.
    apply (HQ2 p q k3 (tf :: L2)); [done|done| | |cbn [length]; lia].
    + cbn [list_to_set]. by rewrite HL2.
    + eapply outside_trans; [exact Hout1|]. eapply outside_trans.
      * eapply outside_mono; [|exact Hout2]. cbn [list_to_set]. apply union_subseteq_r.
      * eapply outside_mono; [|exact Hout3]. cbn [list_to_set]. apply union_subseteq_l.
Qed.
End spec.
