(* ===== verification/ProcGrow.v ===== *)
(** * growproc: kernel/proc.c

    Growing and shrinking the memory of the calling process. *)
From Stdlib Require Import ZArith Lia.
From stdpp Require Import prelude gmap strings.
From S2P Require Import Prelude Bytes Param Str Riscv PhysMem Kalloc Vm VmSpec VmMap VmGrow VmFree VmTheorems Spinlock Proc ProcSpec.

#[local] Opaque memset st64 memmove.

Lemma vrange_app v n k : vrange v (n + k) = vrange v n ++ vrange (v + Z.of_nat n) k.
Proof.
  revert v. induction n as [|n IH]; intros v; cbn [vrange Nat.add app]; [f_equal; lia|].
  rewrite IH. do 3 f_equal. lia.
Qed.

Lemma upages_app D n k : 0 ≤ n → upages D (n + Z.of_nat k) = upages D n ++ dpages D (vrange n k).
Proof.
  intros Hn. unfold upages, dpages. rewrite Z2Nat.inj_add, Nat2Z.id, vrange_app, fmap_app by lia.
  by rewrite Z2Nat.id, Z.add_0_l by lia.
Qed.

Lemma upages_ext D D' n : (∀ v, 0 ≤ v < n → D' !! v = D !! v) → upages D' n = upages D n.
Proof.
  intros Hv. apply list_fmap_ext. intros i v Hin%list_elem_of_lookup_2%elem_of_vrange. rewrite Hv by lia. done.
Qed.

Section grow.
Context (kend trampoline : Z) (Hend : KERNBASE ≤ kend) (Htr : 0 ≤ trampoline < 18446744073709547520).
Implicit Types (k : kmem) (L : list Z) (T : gmap (list Z) Z) (D : gmap Z Z).
Abbreviation pmem := (pmem kend trampoline).

(** Growing keeps a process's memory well-formed. *)
Lemma pmem_grown k L T D root sz tf newsz perm content m k' L' T' D' :
  pmem k L T D root sz tf → npages newsz = npages sz + Z.of_nat m → 0 ≤ newsz ≤ 4096 * vtf →
  (∀ v, 0 ≤ perm v < 1024) → (∀ v, npages sz ≤ v < npages newsz → Z.lor (perm v) PTE_V ≠ PTE_V) →
  grown kend k L T D root (npages sz) perm content m ∅ k' L' T' D' → pmem k' L' T' D' root newsz tf.
Proof.
  intros Hpm Hn Hnew Hperm Hleaf [Has Hsame Hfresh Hnd Hown _ Hsub Hset Hout].
  pose proof (pm_ppt _ _ _ _ _ _ _ _ _ Hpm) as Hppt. pose proof (pm_sz _ _ _ _ _ _ _ _ _ Hppt) as Hsz.
  assert (0 ≤ npages sz) as Hn0 by (unfold npages; zlia).
  assert (npages newsz ≤ vtf) as Hn1 by (unfold npages, vtf in *; zlia).
  assert (∀ v, 0 ≤ v < npages sz ∨ npages newsz ≤ v → D' !! v = D !! v) as Hold by (intros v Hv; apply Hsame; lia).
  assert (upages D' (npages newsz) = upages D (npages sz) ++ dpages D' (vrange (npages sz) m)) as Hup.
  { rewrite Hn, upages_app by done. f_equal. apply upages_ext. intros v Hv. apply Hold. lia. }
  destruct (pm_tfpage _ _ _ _ _ _ _ _ _ Hpm) as (Htf & HtfL & HtfT & HtfU). pose proof (pm_owns _ _ _ _ _ _ _ _ _ Hppt) as Hpo.
  assert (∀ p, p ∈ upages D (npages sz) ∨ p = tf → p ∉ rest L T ∅) as Hnot.
  { intros p Hp. rewrite elem_of_rest, elem_of_empty. destruct Hp as [Hp| ->]; [|tauto].
    destruct (ow_page _ _ _ _ _ Hpo p Hp) as (_ & ? & ?). tauto. }
  assert (∀ p, p ∉ rest L T ∅ → (p ∉ L') ∧ (p ∉ tpages T') ∧ p ∉ dpages D' (vrange (npages sz) m)) as Happart.
  { intros p. rewrite Hset, elem_of_union, elem_of_rest, elem_of_empty, elem_of_list_to_set. tauto. }
  split; [split|].
  - done.
  - intros v Hv. destruct (decide (v < npages sz)) as [Hlt|Hge].
    + destruct (pm_user _ _ _ _ _ _ _ _ _ Hppt v) as (e & He & Hfl); [lia|]. exists e. by rewrite Hold by lia.
    + destruct (Hfresh v) as (p & HD & _); [lia|]. exists (leaf p (perm v)). split; [done|]. rewrite leaf_flags by done. apply Hleaf. lia.
  - intros v Hv. destruct (decide (0 ≤ v < npages newsz)) as [|Hout']; [by left|]. right. rewrite Hsame in Hv by lia.
    destruct (pm_dom _ _ _ _ _ _ _ _ _ Hppt v Hv); [lia|done].
  - rewrite Hold by (unfold vtf, vtramp in *; lia). apply Hppt.
  - rewrite Hold by lia. apply Hppt.
  - done.
  - split.
    + change (NoDup (upages D' (npages newsz))). rewrite Hup, NoDup_app. split_and!; [apply Hpo| |done].
      intros p Hp. apply Happart, Hnot. by left.
    + change (∀ p, p ∈ upages D' (npages newsz) → page_ok kend p ∧ (p ∉ L') ∧ p ∉ tpages T'). rewrite Hup.
      intros p [Hp|Hp]%elem_of_app.
      * destruct (Happart p) as (? & ? & _); [apply Hnot; by left|]. split_and!; [|done..]. by eapply (ow_page _ _ _ _ _ Hpo).
      * destruct (Hown p Hp) as [? Hr]. rewrite elem_of_rest in Hr. tauto.
  - destruct (Happart tf) as (? & ? & ?); [apply Hnot; by right|]. split_and!; [done..|]. rewrite Hup, elem_of_app. tauto.
Qed.

(** Shrinking, too. *)
Lemma pmem_shrunk k L T D root sz tf newsz k' :
  pmem k L T D root sz tf → 0 ≤ newsz ≤ sz → let m := Z.to_nat (npages sz - npages newsz) in
  aspace kend k' (reverse (dpages D (vrange (npages newsz) m)) ++ L) T (unmap_range D (npages newsz) m) root →
  pmem k' (reverse (dpages D (vrange (npages newsz) m)) ++ L) T (unmap_range D (npages newsz) m) root newsz tf.
Proof.
  intros Hpm Hsz m Has. pose proof (pm_ppt _ _ _ _ _ _ _ _ _ Hpm) as Hppt. pose proof (pm_sz _ _ _ _ _ _ _ _ _ Hppt) as Hmax.
  assert (0 ≤ npages newsz ≤ npages sz) as Hn by (unfold npages; zlia).
  assert (npages sz ≤ vtf) as Hn1 by (unfold npages, vtf in *; zlia).
  assert (∀ v, v < npages newsz ∨ npages sz ≤ v → unmap_range D (npages newsz) m !! v = D !! v) as Hold.
  { intros v Hv. rewrite lookup_unmap_range, decide_False by lia. done. }
  assert (upages (unmap_range D (npages newsz) m) (npages newsz) = upages D (npages newsz)) as Hup.
  { apply upages_ext. intros v Hv. apply Hold. lia. }
  assert (upages D (npages sz) = upages D (npages newsz) ++ dpages D (vrange (npages newsz) m)) as Hsplit.
  { rewrite <-upages_app by lia. f_equal. lia. }
  pose proof (pm_owns _ _ _ _ _ _ _ _ _ Hppt) as [Hnd Hpg]. fold (upages D (npages sz)) in Hnd, Hpg. rewrite Hsplit in Hnd, Hpg.
  apply NoDup_app in Hnd as (Hnd & Hdis & _).
  destruct (pm_tfpage _ _ _ _ _ _ _ _ _ Hpm) as (Htf & HtfL & HtfT & HtfU). rewrite Hsplit, elem_of_app in HtfU.
  split; [split|].
  - done.
  - intros v Hv. destruct (pm_user _ _ _ _ _ _ _ _ _ Hppt v) as (e & He & Hfl); [lia|]. exists e. by rewrite Hold by lia.
  - intros v [e He]. rewrite lookup_unmap_range in He. case_decide as Hv; [done|].
    destruct (pm_dom _ _ _ _ _ _ _ _ _ Hppt v) as [Hr|Hr]; [by exists e|left; lia|by right].
  - rewrite Hold by (unfold vtf, vtramp in *; lia). apply Hppt.
  - rewrite Hold by lia. apply Hppt.
  - lia.
  - split; fold (upages (unmap_range D (npages newsz) m) (npages newsz)); rewrite Hup; [done|].
    intros p Hp. destruct (Hpg p) as (? & ? & ?); [apply elem_of_app; by left|]. split_and!; [done| |done].
    rewrite elem_of_app, elem_of_reverse. intros [Hin|Hin]; [by apply (Hdis p)|done].
  - rewrite elem_of_app, elem_of_reverse, Hup. tauto.
Qed.

(** A process has no more pages than the machine. *)
Lemma pmem_pages k L T D root sz tf : pmem k L T D root sz tf → npages sz ≤ 32768.
Proof.
  intros Hpm. pose proof (pm_ppt _ _ _ _ _ _ _ _ _ Hpm) as Hppt. pose proof (pm_sz _ _ _ _ _ _ _ _ _ Hppt) as Hmax.
  destruct (pm_owns _ _ _ _ _ _ _ _ _ Hppt) as [Hnd Hpg]. fold (upages D (npages sz)) in Hnd, Hpg.
  pose proof (pages_bound kend Hend _ Hnd (λ p Hp, proj1 (Hpg p Hp))) as Hl. unfold upages, dpages in Hl.
  rewrite length_fmap, length_vrange in Hl. unfold npages in *. zlia.
Qed.

(** ** [growproc] *)
Context {F : Type} `{FileOps F}.
Implicit Types s : kstate F.

(** The two halves of an address space's account: the pages are conserved, and
    what is mapped before and after keeps its page and contents. *)
Record resized (k : kmem) L T D sz (k' : kmem) L' T' D' newsz tf : Prop := {
  rz_set : list_to_set L ∪ own_set T D sz tf =@{gset Z} list_to_set L' ∪ own_set T' D' newsz tf;
  rz_same v : 0 ≤ v < npages sz → v < npages newsz → D' !! v = D !! v;
  rz_content v i : 0 ≤ v < npages sz → v < npages newsz → 0 ≤ i < 4096 →
    ld (k_mem k') (PTE2PA (oldpte D v) + i) = ld (k_mem k) (PTE2PA (oldpte D v) + i);
  rz_out : outside (list_to_set L ∪ own_set T D sz tf) (k_mem k) (k_mem k')
}.

Lemma resized_grown k L T D root sz tf newsz perm content m k' L' T' D' :
  pmem k L T D root sz tf → npages newsz = npages sz + Z.of_nat m →
  grown kend k L T D root (npages sz) perm content m ∅ k' L' T' D' → resized k L T D sz k' L' T' D' newsz tf.
Proof.
  intros Hpm Hn [Has Hsame Hfresh Hnd Hown _ Hsub Hset Hout].
  pose proof (pm_ppt _ _ _ _ _ _ _ _ _ Hpm) as Hppt. pose proof (pm_sz _ _ _ _ _ _ _ _ _ Hppt) as Hsz.
  assert (0 ≤ npages sz) as Hn0 by (unfold npages; zlia).
  split.
  - assert (∀ (A B : gset Z) U, A ∪ (B ∪ U ∪ {[tf]}) = A ∪ B ∪ ∅ ∪ U ∪ {[tf]}) as Hassoc.
    { intros A B U. rewrite union_empty_r_L. by rewrite !(assoc_L (∪)). }
    unfold own_set. rewrite Hn, upages_app, list_to_set_app_L by done. rewrite (upages_ext D D') by (intros v Hv; apply Hsame; lia).
    rewrite !Hassoc. fold (rest L T ∅) (rest L' T' ∅). rewrite Hset. f_equal. rewrite <-!(assoc_L (∪)). f_equal. apply (comm_L (∪)).
  - intros v Hv _. apply Hsame. lia.
  - intros v i Hv _ Hi. apply Hout. intros p Hp Ha. 
    assert (PTE2PA (oldpte D v) ∈ upages D (npages sz)) as Hin by (apply list_elem_of_fmap; exists v; split; [done|apply elem_of_vrange; lia]).
    destruct (ow_page _ _ _ _ _ (pm_owns _ _ _ _ _ _ _ _ _ Hppt) _ Hin) as (Hpg & HpL & HpT).
    assert (page_ok kend p ∧ (p ∈ L ∨ p ∈ tpages T)) as [Hpok HpLT].
    { rewrite elem_of_rest, elem_of_empty in Hp. split; [|tauto]. destruct Hp as [Hp|[[l Hp]%tpages_elem|[]]].
      - eapply flist_pages; [apply (pm_as _ _ _ _ _ _ _ _ _ Hppt)|done].
      - by eapply (pt_page _ _ _ _ (as_tab _ _ _ _ _ _ (pm_as _ _ _ _ _ _ _ _ _ Hppt))). }
    assert (p = PTE2PA (oldpte D v)) as ->; [|tauto]. apply (pages_disjoint kend _ _ (PTE2PA (oldpte D v) + i)); [done..|unfold in_page; lia].
  - eapply outside_mono; [|exact Hout]. intros p. unfold own_set. rewrite elem_of_rest, !elem_of_union, elem_of_list_to_set, elem_of_empty. tauto.
Qed.

Lemma resized_shrunk k L T D root sz tf newsz k' :
  pmem k L T D root sz tf → 0 ≤ newsz ≤ sz → let m := Z.to_nat (npages sz - npages newsz) in
  outside (tpages T ∪ list_to_set (dpages D (vrange (npages newsz) m))) (k_mem k) (k_mem k') →
  resized k L T D sz k' (reverse (dpages D (vrange (npages newsz) m)) ++ L) T (unmap_range D (npages newsz) m) newsz tf.
Proof.
  intros Hpm Hsz m Hout. pose proof (pm_ppt _ _ _ _ _ _ _ _ _ Hpm) as Hppt.
  assert (0 ≤ npages newsz ≤ npages sz) as Hn by (unfold npages; zlia).
  assert (upages D (npages sz) = upages D (npages newsz) ++ dpages D (vrange (npages newsz) m)) as Hsplit.
  { rewrite <-upages_app by lia. f_equal. lia. }
  pose proof (pm_owns _ _ _ _ _ _ _ _ _ Hppt) as [Hnd Hpg]. fold (upages D (npages sz)) in Hnd, Hpg. rewrite Hsplit in Hnd, Hpg.
  apply NoDup_app in Hnd as (Hnd & Hdis & _).
  split.
  - apply set_eq. intros p. unfold own_set. rewrite Hsplit, (upages_ext D (unmap_range D (npages newsz) m)).
    + rewrite !elem_of_union, !elem_of_list_to_set, !elem_of_app, elem_of_reverse. tauto.
    + intros v Hv. rewrite lookup_unmap_range, decide_False by lia. done.
  - intros v Hv Hv'. rewrite lookup_unmap_range, decide_False by lia. done.
  - intros v i Hv Hv' Hi. apply Hout. intros p Hp Ha.
    assert (PTE2PA (oldpte D v) ∈ upages D (npages newsz)) as Hin by (apply list_elem_of_fmap; exists v; split; [done|apply elem_of_vrange; lia]).
    destruct (Hpg (PTE2PA (oldpte D v))) as (Hpok & _ & HpT); [apply elem_of_app; by left|].
    assert (page_ok kend p) as Hok.
    { apply elem_of_union in Hp as [[l Hp]%tpages_elem|Hp%elem_of_list_to_set].
      - by eapply (pt_page _ _ _ _ (as_tab _ _ _ _ _ _ (pm_as _ _ _ _ _ _ _ _ _ Hppt))).
      - apply Hpg, elem_of_app. by right. }
    assert (p = PTE2PA (oldpte D v)) as ->; [apply (pages_disjoint kend _ _ (PTE2PA (oldpte D v) + i)); [done..|unfold in_page; lia]|].
    apply elem_of_union in Hp as [Hp|Hp%elem_of_list_to_set]; [done|by apply (Hdis (PTE2PA (oldpte D v)))].
  - eapply outside_mono; [|exact Hout]. intros p. unfold own_set. rewrite Hsplit, !elem_of_union, !elem_of_list_to_set, elem_of_app. tauto.
Qed.

Lemma uvmalloc_perm : (∀ v : Z, 0 ≤ uperm PTE_W < 1024) ∧ Z.lor (uperm PTE_W) PTE_V ≠ PTE_V.
Proof. by vm_compute. Qed.

Definition grow_size (sz n : Z) : Z := if 0 <=? sz + n then sz + n else sz.

(** The pages between two sizes belong to the process as well. *)
Lemma owns_part sz newsz L T D :
  0 ≤ newsz ≤ sz → owns kend L T D (vrange 0 (Z.to_nat (npages sz))) →
  owns kend L T D (vrange (npages newsz) (Z.to_nat (npages sz - npages newsz))).
Proof.
  intros Hsz [Hnd Hpg]. assert (0 ≤ npages newsz ≤ npages sz) as Hn by (unfold npages; zlia).
  assert (upages D (npages sz) = upages D (npages newsz) ++ dpages D (vrange (npages newsz) (Z.to_nat (npages sz - npages newsz)))) as Hsplit.
  { rewrite <-upages_app by lia. f_equal. lia. }
  fold (upages D (npages sz)) in Hnd, Hpg. rewrite Hsplit in Hnd, Hpg. apply NoDup_app in Hnd as (_ & _ & Hnd).
  split; [done|]. intros p Hp. apply Hpg, elem_of_app. by right.
Qed.

Lemma growproc_spec s L T D me p n (Q : Z → kstate F → Prop) :
  ks_procs s !! me = Some p → pmem (ks_k s) L T D (p_pagetable p) (p_sz p) (p_trapframe p) → -2147483648 ≤ n < 2147483648 →
  (∀ k' L' T' D', pmem k' L' T' D' (p_pagetable p) (grow_size (p_sz p) n) (p_trapframe p) →
     resized (ks_k s) L T D (p_sz p) k' L' T' D' (grow_size (p_sz p) n) (p_trapframe p) →
     (∀ v i, npages (p_sz p) ≤ v < npages (grow_size (p_sz p) n) → 0 ≤ i < 4096 →
        PTE_FLAGS (oldpte D' v) = Z.lor (uperm PTE_W) PTE_V ∧ ld (k_mem k') (PTE2PA (oldpte D' v) + i) = 0) →
     Q 0 (with_proc (with_k s k') me (pset_sz (grow_size (p_sz p) n) p))) →
  (∀ k' L' T', pmem k' L' T' D (p_pagetable p) (p_sz p) (p_trapframe p) →
     resized (ks_k s) L T D (p_sz p) k' L' T' D (p_sz p) (p_trapframe p) → 0 < n →
     Z.of_nat (length L) < 3 * (npages (p_sz p + n) - npages (p_sz p)) → Q (-1) (with_k s k')) →
  wp (growproc kend me n) s Q.
Proof.
  intros Hp Hpm Hn HQ0 HQ1. unfold growproc. wp_step. pget.
  pose proof (pm_ppt _ _ _ _ _ _ _ _ _ Hpm) as Hppt. pose proof (pm_sz _ _ _ _ _ _ _ _ _ Hppt) as Hsz.
  pose proof (pmem_pages _ _ _ _ _ _ _ Hpm) as Hpages. set (sz := p_sz p) in *.
  assert (sz ≤ 134217728) as Hsz' by (unfold npages in Hpages; zlia).
  destruct (Z.gtb_spec n 0) as [Hpos|Hneg].
  - wp_step. apply wp_onk. rewrite u64_small by lia.
    unfold grow_size in *. rewrite (proj2 (Z.leb_le 0 (sz + n))) in * by lia.
    assert (npages sz ≤ npages (sz + n)) as Hle by (unfold npages; zlia).
    apply (uvmalloc_spec kend Hend _ L T D); [apply Hppt|lia|change (NVPN / 2) with 67108864; lia|by vm_compute| | |].
    + intros v Hv. destruct (D !! v) eqn:E; [|done]. exfalso.
      destruct (pm_dom _ _ _ _ _ _ _ _ _ Hppt v) as [|[-> | ->]]; [by rewrite E|lia| |]; unfold npages, vtramp, vtf in Hv; zlia.
    + intros k' L' T' D' Hg. rewrite (proj2 (Z.eqb_neq _ _)) by lia.
      assert (ks_procs (with_k s k') !! me = Some p) as Hp' by done. pset. wp_step.
      assert (npages (sz + n) = npages sz + Z.of_nat (Z.to_nat (npages (sz + n) - npages sz))) as Hcount by lia.
      apply (HQ0 k' L' T' D').
      * eapply pmem_grown; [exact Hpm|exact Hcount|unfold vtf; lia|apply uvmalloc_perm|intros v Hv; apply uvmalloc_perm|exact Hg].
      * by eapply resized_grown.
      * intros v i Hv Hi. destruct (gw_new _ _ _ _ _ _ _ _ _ _ _ _ _ _ _ Hg v) as (q & HD & Hq & Hc); [lia|].
        unfold oldpte. rewrite HD. cbn [default from_option id].
        rewrite leaf_flags, leaf_pa; [split; [done|by apply Hc]|by apply (page_u64 kend)|apply Hq|by apply uvmalloc_perm|by apply uvmalloc_perm].
    + intros k' L' T' Hg Hl. cbn [Z.eqb]. wp_step. apply (HQ1 k' L' T'); [| |lia|done].
      * eapply pmem_grown; [exact Hpm| | |apply uvmalloc_perm| |exact Hg]; [lia|lia|intros v Hv; lia].
      * eapply resized_grown; [exact Hpm| |exact Hg]. lia.
  - assert (∀ newsz k', 0 ≤ newsz ≤ sz → let m := Z.to_nat (npages sz - npages newsz) in
      aspace kend k' (reverse (dpages D (vrange (npages newsz) m)) ++ L) T (unmap_range D (npages newsz) m) (p_pagetable p) →
      outside (tpages T ∪ list_to_set (dpages D (vrange (npages newsz) m))) (k_mem (ks_k s)) (k_mem k') →
      newsz = grow_size sz n → Q 0 (with_proc (with_k s k') me (pset_sz newsz p))) as Hshrink.
    { intros newsz k' Hnew m Has' Hout' ->. eapply HQ0; [by apply (pmem_shrunk _ _ _ _ _ _ _ _ _ Hpm)|by eapply resized_shrunk|].
      intros v i Hv. exfalso. unfold npages in Hv. zlia. }
    assert (0 ≤ grow_size sz n ≤ sz) as Hgs by (unfold grow_size; destruct (Z.leb_spec 0 (sz + n)); lia).
    destruct (Z.ltb_spec n 0) as [Hlt|Hz].
    + wp_step. apply wp_onk. unfold grow_size in *. destruct (Z.leb_spec 0 (sz + n)) as [Hle|Hgt].
      * rewrite u64_small by lia.
        apply (uvmdealloc_spec kend Hend _ L T D); [apply Hppt|lia|change (NVPN / 2) with 67108864; lia| | |].
        -- intros v Hv. apply (pm_user _ _ _ _ _ _ _ _ _ Hppt). unfold npages in *. zlia.
        -- apply (owns_part sz); [lia|apply Hppt].
        -- intros k' Has' Hout'. assert (ks_procs (with_k s k') !! me = Some p) as Hp' by done. pset. wp_step.
           rewrite Z.min_r by lia. by apply Hshrink.
      * assert (u64 (sz + n) = sz + n + 18446744073709551616) as -> by wordlia.
        set (big := sz + n + 18446744073709551616). assert (Z.to_nat (npages sz - npages big) = O) as Hk by (unfold npages, big; zlia).
        apply (uvmdealloc_spec kend Hend _ L T D); [apply Hppt|unfold big; lia|change (NVPN / 2) with 67108864; lia| | |]; rewrite Hk.
        -- intros v Hv. lia.
        -- apply owns_nil.
        -- intros k' Has' Hout'. assert (ks_procs (with_k s k') !! me = Some p) as Hp' by done. pset. wp_step.
           rewrite Z.min_l by (unfold big; lia). apply Hshrink; [lia|by rewrite Z.sub_diag|by rewrite Z.sub_diag|done].
    + pset. wp_step. unfold grow_size in *. replace n with 0 in * by lia. rewrite Z.add_0_r in *.
      rewrite (proj2 (Z.leb_le 0 sz)) in Hshrink by lia. replace s with (with_k s (ks_k s)) by (by destruct s).
      apply Hshrink; [lia|rewrite Z.sub_diag; apply Hppt|by rewrite Z.sub_diag|done].
Qed.
End grow.
