(* ===== verification/ProcFork.v ===== *)
(** * fork: kernel/proc.c

    The child has a copy of the parent's memory, registers and open files; if
    memory or process entries run out, everything is given back. *)
From Stdlib Require Import ZArith Lia.
From stdpp Require Import prelude gmap gmultiset strings.
From S2P Require Import Prelude Bytes Param Str Riscv PhysMem Kalloc Vm VmSpec VmMap VmGrow VmFree VmTheorems Spinlock Proc ProcSpec ProcGrow.

#[local] Opaque memset st64 memmove.

(** What proc.c relies on when it shares an open file or an inode. [f_ok fs X Y P]:
    besides its own, the file system counts the references of the processes to
    the open files [X] and to the inodes [Y], and has the pages [P] in use. *)
Class FileLaws (F : Type) `{FileOps F} := {
  f_ok : F → gmultiset nat → gmultiset nat → gset Z → Prop;
  filedup_law k fs X Y P f : f_ok fs X Y P → f ∈ X →
    wp (filedup f) (k, fs) (λ _ kf, kf.1 = k ∧ f_ok kf.2 (X ⊎ {[+ f +]}) Y P);
  idup_law k fs X Y P i : f_ok fs X Y P → i ∈ Y →
    wp (idup i) (k, fs) (λ _ kf, kf.1 = k ∧ f_ok kf.2 X (Y ⊎ {[+ i +]}) P)
}.

(** The references of a process. *)
Definition refs (l : list (option nat)) : gmultiset nat := list_to_set_disj (omap id l).
Definition open_files (p : proc) : gmultiset nat := refs (p_ofile p).
Definition cwd_of (p : proc) : gmultiset nat := match p_cwd p with Some ip => {[+ ip +]} | None => ∅ end.

Section fork.
Context {F : Type} `{FL : FileLaws F}.
Context (kend trampoline forkret_pc : Z) (Hend : KERNBASE ≤ kend) (Htr : 0 ≤ trampoline < 18446744073709547520).
Implicit Types (s : kstate F) (L : list Z) (T Tp : gmap (list Z) Z) (D Dp : gmap Z Z).
Abbreviation pmem := (pmem kend trampoline).

(** ** Memory *)

(** Writing a page that is nobody's table and not free. *)
Lemma pmem_write k L T D root sz tf p m' :
  pmem k L T D root sz tf → page_ok kend p → p ∉ L → p ∉ tpages T → bytes_mem m' → outside {[p]} (k_mem k) m' →
  pmem (kset_mem m' k) L T D root sz tf.
Proof.
  intros Hpm Hp HpL HpT Hb Hout. pose proof (pm_as _ _ _ _ _ _ _ _ _ (pm_ppt _ _ _ _ _ _ _ _ _ Hpm)) as Has.
  pose proof (write_page kend k L T D root p m' Has Hp HpL HpT Hb Hout) as Has'.
  eapply (pmem_frame kend trampoline Htr); [exact Hpm|apply Has'| |].
  - intros r Hr. by eapply own_set_page.
  - intros r a Hr Ha. apply Hout. intros x ->%elem_of_singleton Ha'. apply HpT. replace p with r; [done|].
    apply (pages_disjoint kend r p a); [|done..]. apply tpages_elem in Hr as [l Hl]. by eapply (pt_page _ _ _ _ (as_tab _ _ _ _ _ _ Has)).
Qed.

(** The parent's view of memory, once the child has its empty page table. *)
Lemma fork_parent k L Tp Dp proot sz ptf k1 L1 T tf :
  pmem k L Tp Dp proot sz ptf → kmem_ok kend k1 L1 →
  list_to_set L =@{gset Z} list_to_set L1 ∪ own_set T (D_empty trampoline tf) 0 tf →
  outside (list_to_set L) (k_mem k) (k_mem k1) →
  pmem k1 L1 Tp Dp proot sz ptf ∧ ∀ p, p ∈ own_set Tp Dp sz ptf → p ∉ rest L1 T ∅ ∪ {[tf]}.
Proof.
  intros Hpm Hk1 Hset Hout.
  assert (∀ p, p ∈ list_to_set L1 ∪ own_set T (D_empty trampoline tf) 0 tf → p ∈ L) as Hin.
  { intros p. rewrite <-Hset. by rewrite elem_of_list_to_set. }
  assert (∀ p, p ∈ own_set Tp Dp sz ptf → p ∉ list_to_set L1 ∪ own_set T (D_empty trampoline tf) 0 tf) as Hnot.
  { intros p Hp Hp'. apply Hin in Hp'. by destruct (own_set_page _ _ _ _ _ _ _ _ _ p Hpm Hp). }
  split.
  - eapply (pmem_frame kend trampoline Htr); [exact Hpm|done| |].
    + intros p Hp Hp'. apply (Hnot p Hp). rewrite elem_of_union, elem_of_list_to_set. by left.
    + intros p a Hp Ha. apply Hout. intros r Hr%elem_of_list_to_set Ha'.
      assert (p ∈ own_set Tp Dp sz ptf) as Hpo by (unfold own_set; rewrite !elem_of_union; tauto).
      destruct (own_set_page _ _ _ _ _ _ _ _ _ p Hpm Hpo) as [Hpok HpL]. apply HpL. replace p with r; [done|].
      apply (pages_disjoint kend r p a); [|done..]. eapply flist_pages; [|exact Hr].
      apply (pm_as _ _ _ _ _ _ _ _ _ (pm_ppt _ _ _ _ _ _ _ _ _ Hpm)).
  - intros p Hp Hp'. apply (Hnot p Hp). unfold own_set. rewrite elem_of_union, elem_of_rest, elem_of_singleton, elem_of_empty in Hp'.
    rewrite !elem_of_union, elem_of_singleton, elem_of_list_to_set. tauto.
Qed.

Section mem.
Context (k : kmem) L Tp Dp (proot sz ptf : Z) (k1 : kmem) L1 T (root tf : Z).
Context (Hpar : pmem k1 L1 Tp Dp proot sz ptf) (Hchild : pmem k1 L1 T (D_empty trampoline tf) root 0 tf).
Context (Hdis : ∀ p, p ∈ own_set Tp Dp sz ptf → p ∉ rest L1 T ∅ ∪ {[tf]}).

Let Hppt := pm_ppt _ _ _ _ _ _ _ _ _ Hpar.
Let Hcppt := pm_ppt _ _ _ _ _ _ _ _ _ Hchild.
Abbreviation grown := (grown kend k1 L1 T (D_empty trampoline tf) root 0 (operm Dp) (ocontent k1 Dp)).

Lemma sz_pages : 0 ≤ npages sz ≤ vtf.
Proof. pose proof (pm_sz _ _ _ _ _ _ _ _ _ Hppt) as Hs. unfold npages, vtf in *. zlia. Qed.

Lemma fork_is_parent : parent kend k1 L1 T Tp Dp proot (npages sz).
Proof.
  assert (∀ p, p ∈ tpages Tp ∨ p ∈ upages Dp (npages sz) → p ∉ rest L1 T ∅) as Hnot.
  { intros p Hp Hr. apply (Hdis p); [unfold own_set; rewrite !elem_of_union, elem_of_list_to_set; tauto|]. rewrite elem_of_union. by left. }
  split.
  - apply Hppt.
  - intros p Hp. apply Hnot. by left.
  - apply Hppt.
  - intros v Hv. assert (PTE2PA (oldpte Dp v) ∈ upages Dp (npages sz)) as Hin.
    { apply list_elem_of_fmap. exists v. split; [done|]. apply elem_of_vrange. lia. }
    split; [|apply Hnot; by right]. by destruct (ow_page _ _ _ _ _ (pm_owns _ _ _ _ _ _ _ _ _ Hppt) _ Hin).
Qed.

Lemma tf_apart : tf ∉ rest L1 T ∅.
Proof.
  destruct (pm_tfpage _ _ _ _ _ _ _ _ _ Hchild) as (_ & HL & HT & _). rewrite elem_of_rest, elem_of_empty. tauto.
Qed.

Lemma empty_none v : 0 ≤ v < vtf → D_empty trampoline tf !! v = None.
Proof.
  intros Hv. unfold D_empty, D_tramp, vtf, vtramp in *. rewrite lookup_insert_ne by lia. by rewrite lookup_singleton_ne by lia.
Qed.

(** The child after a copy, complete or undone. *)
Lemma fork_copied k2 L2 T2 D2 :
  grown (Z.to_nat (npages sz)) ∅ k2 L2 T2 D2 → pmem k2 L2 T2 D2 root sz tf.
Proof.
  intros Hg. pose proof sz_pages as Hn. eapply (pmem_grown kend trampoline Htr); [exact Hchild| | | | |exact Hg].
  - change (npages 0) with 0. lia.
  - apply Hppt.
  - intros v. apply operm_range.
  - intros v Hv. destruct (pm_user _ _ _ _ _ _ _ _ _ Hppt v Hv) as (e & He & Hfl). unfold operm, oldpte. rewrite He.
    cbn [default from_option id]. destruct (as_dom _ _ _ _ _ _ (pm_as _ _ _ _ _ _ _ _ _ Hppt) v e He) as [_ HV]. by rewrite flags_lor_V.
Qed.

Lemma fork_undone k2 L2 T2 : grown O ∅ k2 L2 T2 (D_empty trampoline tf) → pmem k2 L2 T2 (D_empty trampoline tf) root 0 tf.
Proof.
  intros [Has _ _ _ _ _ _ Hset _]. pose proof tf_apart as Htf. rewrite Hset in Htf.
  rewrite elem_of_union, elem_of_rest, elem_of_empty in Htf. destruct (pm_tfpage _ _ _ _ _ _ _ _ _ Hchild) as (Htfp & _).
  apply (pmem_empty kend trampoline Htr); tauto.
Qed.
End mem.

(** What a successful [fork] has done to memory. *)
Record forked (k : kmem) L Tp Dp (proot sz ptf : Z) (k' : kmem) L' T D (root tf : Z) : Prop := {
  fk_child : pmem k' L' T D root sz tf;
  fk_parent : pmem k' L' Tp Dp proot sz ptf;
  fk_perm v : 0 ≤ v < npages sz → PTE_FLAGS (oldpte D v) = PTE_FLAGS (oldpte Dp v);
  fk_pages v i : 0 ≤ v < npages sz → 0 ≤ i < 4096 →
    ld (k_mem k') (PTE2PA (oldpte D v) + i) = ld (k_mem k) (PTE2PA (oldpte Dp v) + i);
  fk_regs i : 0 ≤ i < 288 → ¬ (112 ≤ i < 120) → ld (k_mem k') (tf + i) = ld (k_mem k) (ptf + i);
  fk_a0 : ld64 (k_mem k') (tf + TF_a0) = 0;
  fk_set : list_to_set L =@{gset Z} list_to_set L' ∪ own_set T D sz tf;
  fk_out : outside (list_to_set L) (k_mem k) (k_mem k')
}.

Lemma own_same k L Tp Dp proot sz ptf m' p a :
  pmem k L Tp Dp proot sz ptf → outside (list_to_set L) (k_mem k) m' → p ∈ own_set Tp Dp sz ptf → in_page p a →
  ld m' a = ld (k_mem k) a.
Proof.
  intros Hpm Hout Hp Ha. apply Hout. intros r Hr%elem_of_list_to_set Ha'.
  destruct (own_set_page _ _ _ _ _ _ _ _ _ p Hpm Hp) as [Hpok HpL]. apply HpL. replace p with r; [done|].
  apply (pages_disjoint kend r p a); [|done..]. eapply flist_pages; [|exact Hr].
  apply (pm_as _ _ _ _ _ _ _ _ _ (pm_ppt _ _ _ _ _ _ _ _ _ Hpm)).
Qed.

Section forked.
Context (k : kmem) L Tp Dp (proot sz ptf : Z) (k1 : kmem) (L1 : list Z) T (root tf : Z) (k2 : kmem) (L2 : list Z) (T2 : gmap (list Z) Z) (D2 : gmap Z Z).
Context (Hpm : pmem k L Tp Dp proot sz ptf) (Hch : pmem k1 L1 T (D_empty trampoline tf) root 0 tf)
  (Hset : list_to_set L =@{gset Z} list_to_set L1 ∪ own_set T (D_empty trampoline tf) 0 tf)
  (Hout : outside (list_to_set L) (k_mem k) (k_mem k1))
  (Hg : grown kend k1 L1 T (D_empty trampoline tf) root 0 (operm Dp) (ocontent k1 Dp) (Z.to_nat (npages sz)) ∅ k2 L2 T2 D2).

Lemma set_start p : p ∈ L ↔ p ∈ rest L1 T ∅ ∪ {[tf]}.
Proof.
  rewrite <-(elem_of_list_to_set (C := gset Z)), Hset. unfold own_set.
  change (upages (D_empty trampoline tf) (npages 0)) with (@nil Z).
  rewrite !elem_of_union, elem_of_rest, list_to_set_nil, elem_of_empty, elem_of_list_to_set. tauto.
Qed.

(** The parent's own bytes when the copy is done. *)
Lemma copied_own p a : p ∈ own_set Tp Dp sz ptf → in_page p a → ld (k_mem k2) a = ld (k_mem k) a.
Proof.
  intros Hp Ha. destruct (own_set_page _ _ _ _ _ _ _ _ _ p Hpm Hp) as [Hpok HpL]. rewrite set_start in HpL.
  rewrite <-(own_same _ _ _ _ _ _ _ _ p a Hpm Hout Hp Ha).
  eapply parent_same; [apply Hch|exact Hg|done| |done]. intros Hr. apply HpL. rewrite elem_of_union. by left.
Qed.

Context (m' : mem) (Hm' : m' = st64 (memmove (k_mem k2) tf ptf sizeof_trapframe) (tf + TF_a0) 0).

Lemma copied_bytes : bytes_mem (k_mem k2).
Proof. apply (as_k _ _ _ _ _ _ (gw_as _ _ _ _ _ _ _ _ _ _ _ _ _ _ _ Hg)). Qed.

Lemma regs_outside : outside {[tf]} (k_mem k2) m'.
Proof.
  intros a Ha. specialize (Ha tf ltac:(by apply elem_of_singleton)). unfold in_page in Ha. unfold TF_a0, sizeof_trapframe in *.
  rewrite Hm', ld_st64_ne, ld_memmove, decide_False; [done|lia|apply copied_bytes|lia].
Qed.

Lemma copied_child : pmem k2 L2 T2 D2 root sz tf.
Proof.
  pose proof (pm_as _ _ _ _ _ _ _ _ _ (pm_ppt _ _ _ _ _ _ _ _ _ Hch)) as Has1.
  destruct (fork_parent _ _ _ _ _ _ _ _ _ _ _ Hpm (as_k _ _ _ _ _ _ Has1) Hset Hout) as [Hpar Hdis]. by eapply fork_copied.
Qed.

Lemma copied_set p : p ∈ L ↔ p ∈ list_to_set L2 ∪ own_set T2 D2 sz tf.
Proof.
  rewrite set_start, (gw_set _ _ _ _ _ _ _ _ _ _ _ _ _ _ _ Hg). unfold own_set, upages.
  rewrite !elem_of_union, elem_of_rest, elem_of_empty, elem_of_singleton, !elem_of_list_to_set. tauto.
Qed.

Lemma final_own p a : p ∈ own_set Tp Dp sz ptf → in_page p a → ld m' a = ld (k_mem k) a.
Proof.
  intros Hp Ha. rewrite <-(copied_own p a Hp Ha). apply regs_outside. intros q ->%elem_of_singleton Ha'.
  destruct (own_set_page _ _ _ _ _ _ _ _ _ p Hpm Hp) as [Hpok HpL]. apply HpL.
  replace p with tf; [apply set_start; rewrite elem_of_union, elem_of_singleton; by right|].
  apply (pages_disjoint kend tf p a); [apply (pm_tfpage _ _ _ _ _ _ _ _ _ Hch)|done..].
Qed.

Lemma upage_own T0 D0 (n t v : Z) : 0 ≤ v < npages n → PTE2PA (oldpte D0 v) ∈ own_set T0 D0 n t.
Proof.
  intros Hv. unfold own_set. rewrite !elem_of_union, elem_of_list_to_set. left. right. apply list_elem_of_fmap. exists v.
  split; [done|]. apply elem_of_vrange. lia.
Qed.

Lemma copied_new v : 0 ≤ v < npages sz →
  PTE_FLAGS (oldpte D2 v) = PTE_FLAGS (oldpte Dp v) ∧
  ∀ i, 0 ≤ i < 4096 → ld (k_mem k2) (PTE2PA (oldpte D2 v) + i) = ld (k_mem k) (PTE2PA (oldpte Dp v) + i).
Proof.
  intros Hv. destruct (gw_new _ _ _ _ _ _ _ _ _ _ _ _ _ _ _ Hg v) as (p & HD & Hp & Hc); [lia|].
  destruct (pm_user _ _ _ _ _ _ _ _ _ (pm_ppt _ _ _ _ _ _ _ _ _ Hpm) v Hv) as (e & He & _).
  assert (oldpte D2 v = leaf p (operm Dp v)) as -> by (unfold oldpte; by rewrite HD). split.
  - rewrite leaf_flags by apply operm_range. unfold operm, oldpte. rewrite He. cbn [default from_option id].
    by apply flags_lor_V, (as_dom _ _ _ _ _ _ (pm_as _ _ _ _ _ _ _ _ _ (pm_ppt _ _ _ _ _ _ _ _ _ Hpm)) v e).
  - intros i Hi. rewrite leaf_pa, Hc; [|done|by apply (page_u64 kend)|apply Hp|apply operm_range].
    apply (own_same _ _ _ _ _ _ _ _ (PTE2PA (oldpte Dp v)) _ Hpm Hout); [by apply upage_own|unfold in_page; lia].
Qed.

Lemma forked_mem : forked k L Tp Dp proot sz ptf (kset_mem m' k2) L2 T2 D2 root tf.
Proof.
  pose proof copied_child as Hch2. destruct (pm_tfpage _ _ _ _ _ _ _ _ _ Hch2) as (Htf & HtfL & HtfT & HtfU).
  assert (bytes_mem m') as Hb by (rewrite Hm'; apply bytes_st64, bytes_memmove, copied_bytes).
  assert (pmem (kset_mem m' k2) L2 T2 D2 root sz tf) as Hch3.
  { eapply pmem_write; [exact Hch2|exact Htf|done|done|done|apply regs_outside]. }
  split.
  - done.
  - eapply (pmem_frame kend trampoline Htr); [exact Hpm|apply Hch3| |].
    + intros p Hp Hin. destruct (own_set_page _ _ _ _ _ _ _ _ _ p Hpm Hp) as [_ HpL]. apply HpL, copied_set.
      rewrite elem_of_union, elem_of_list_to_set. by left.
    + intros p a Hp. apply final_own. unfold own_set. rewrite !elem_of_union. tauto.
  - intros v Hv. by apply copied_new.
  - intros v i Hv Hi. cbn [k_mem kset_mem]. rewrite regs_outside; [by apply copied_new|].
    intros q ->%elem_of_singleton Ha. apply HtfU. pose proof (upage_own T2 D2 sz tf v Hv) as Hu.
    replace tf with (PTE2PA (oldpte D2 v)) at 1; [apply list_elem_of_fmap; exists v; split; [done|apply elem_of_vrange; lia]|].
    apply (pages_disjoint kend _ _ (PTE2PA (oldpte D2 v) + i)); [by eapply own_set_page|done|unfold in_page; lia|done].
  - intros i Hi Ha0. cbn [k_mem kset_mem]. rewrite Hm', ld_st64_ne by (unfold TF_a0; lia).
    rewrite ld_memmove, decide_True; [|unfold sizeof_trapframe; lia|apply copied_bytes].
    replace (tf + i - tf) with i by lia. apply (copied_own ptf); [unfold own_set; rewrite !elem_of_union, elem_of_singleton; tauto|].
    unfold in_page. lia.
  - cbn [k_mem kset_mem]. by rewrite Hm', ld64_st64_eq.
  - apply set_eq. intros p. rewrite elem_of_list_to_set. apply copied_set.
  - cbn [k_mem kset_mem]. eapply outside_trans; [exact Hout|]. eapply outside_trans.
    + eapply outside_mono; [|apply (gw_out _ _ _ _ _ _ _ _ _ _ _ _ _ _ _ Hg)]. intros p Hp.
      rewrite elem_of_list_to_set, set_start, elem_of_union. by left.
    + eapply outside_mono; [|apply regs_outside]. intros p ->%elem_of_singleton.
      rewrite elem_of_list_to_set, set_start, elem_of_union, elem_of_singleton. by right.
Qed.
End forked.

(** ** Open files *)

Definition with_f s (fs : F) : kstate F :=
  KState (ks_k s) fs (ks_procs s) (ks_nextpid s) (ks_initproc s) (ks_ticks s).

Lemma wp_filedup s X Y P f (Q : unit → kstate F → Prop) :
  f_ok (ks_f s) X Y P → f ∈ X → (∀ fs', f_ok fs' (X ⊎ {[+ f +]}) Y P → Q tt (with_f s fs')) → wp (onf (filedup f)) s Q.
Proof.
  intros Hok Hf HQ. apply wp_lift. eapply wp_mono; [by eapply filedup_law|]. intros [] [k fs'] [Hk Hok']. cbn in *. subst k. by apply (HQ fs').
Qed.

Lemma wp_idup s X Y P i (Q : unit → kstate F → Prop) :
  f_ok (ks_f s) X Y P → i ∈ Y → (∀ fs', f_ok fs' X (Y ⊎ {[+ i +]}) P → Q tt (with_f s fs')) → wp (onf (idup i)) s Q.
Proof.
  intros Hok Hf HQ. apply wp_lift. eapply wp_mono; [by eapply idup_law|]. intros [] [k fs'] [Hk Hok']. cbn in *. subst k. by apply (HQ fs').
Qed.

Lemma refs_app l1 l2 : refs (l1 ++ l2) = refs l1 ⊎ refs l2.
Proof. unfold refs. by rewrite omap_app, list_to_set_disj_app. Qed.

Lemma refs_elem l i f : l !! i = Some (Some f) → f ∈ refs l.
Proof. intros Hi. unfold refs. rewrite elem_of_list_to_set_disj, list_elem_of_omap. exists (Some f). split; [|done]. by eapply list_elem_of_lookup_2. Qed.

(** [for(i = 0; i < NOFILE; i++)] of [fork]. *)
Lemma dup_files s np q X Y P (l : list (option nat)) (Q : unit → kstate F → Prop) :
  ks_procs s !! np = Some q → length l = NOFILE → p_ofile q = replicate NOFILE None →
  f_ok (ks_f s) X Y P → refs l ⊆ X →
  (∀ fs', f_ok fs' (X ⊎ refs l) Y P → Q tt (with_proc (with_f s fs') np (pset_ofile l q))) →
  wp (mfor (seq 0 NOFILE) (λ i,
    f ← mnth (l !! i);
    match f with
    | Some f => onf (filedup f) ;; setp np (λ q, pset_ofile (<[i := Some f]> (p_ofile q)) q)
    | None => mret tt
    end)) s Q.
Proof.
  intros Hq Hl Hnone Hok Hsub HQ. eapply wp_mono.
  - apply (wp_mfor_seq NOFILE _ (λ i s', ∃ fs', f_ok fs' (X ⊎ refs (take i l)) Y P ∧
      s' = with_proc (with_f s fs') np (pset_ofile (take i l ++ drop i (replicate NOFILE None)) q))).
    + exists (ks_f s). split; [rewrite take_0; by change (refs []) with (∅ : gmultiset nat); rewrite (right_id_L ∅ (⊎))|]. rewrite with_proc_same; [by destruct s|]. cbn [ks_procs with_f]. rewrite Hq. f_equal.
      rewrite drop_0, take_0, app_nil_l, <-Hnone. by destruct q.
    + intros i s' Hi (fs' & Hk & ->). destruct (lookup_lt_is_Some_2 l i) as [o Ho]; [lia|].
      assert (drop i (replicate NOFILE (@None nat)) = None :: drop (S i) (replicate NOFILE None)) as Hdrop.
      { apply drop_S. by rewrite lookup_replicate_2. }
      assert (refs (take (S i) l) = refs (take i l) ⊎ match o with Some f => {[+ f +]} | None => ∅ end) as Hrefs.
      { rewrite (take_S_r l i o), refs_app by done. f_equal. destruct o; unfold refs; cbn [omap list_omap id list_to_set_disj foldr fmap list_fmap]; [|done]. by rewrite (right_id_L ∅ (⊎)). }
      wp_step. eapply wp_mnth; [exact Ho|]. destruct o as [f|].
      * wp_step. eapply wp_filedup; [exact Hk|apply gmultiset_elem_of_disj_union; left; eapply gmultiset_elem_of_subseteq; [by eapply refs_elem|done]|]. intros fs2 Hk2. eapply wp_setp; [by eapply (with_proc_lookup (with_f s fs2)), Hq|].
        exists fs2. split; [by rewrite Hrefs, (assoc_L (⊎))|]. rewrite Hdrop, (take_S_r l i (Some f)) by done.
        change (with_f (with_proc ?a np ?x) fs2) with (with_proc (with_f s fs2) np x). rewrite with_proc_twice. f_equal.
        cbn [p_ofile pset_ofile]. unfold pset_ofile at 1 3. cbn. f_equal. rewrite <-app_assoc. cbn [app].
        replace i with (length (take i l) + 0)%nat at 1 by (rewrite length_take; lia). by rewrite insert_app_r.
      * wp_step. exists fs'. split; [by rewrite Hrefs, (right_id_L ∅ (⊎))|]. rewrite Hdrop, (take_S_r l i None) by done. by rewrite <-app_assoc.
  - intros [] s' (fs' & Hk & ->). rewrite drop_ge, app_nil_r by (rewrite length_replicate; lia).
    rewrite take_ge in * by lia. by apply HQ.
Qed.

(** ** The whole of [fork] *)

(** An unused entry has neither memory nor files. *)
Definition unused_ok s : Prop :=
  ∀ p q, ks_procs s !! p = Some q → p_state q = UNUSED → blank q ∧ p_ofile q = replicate NOFILE None.

(** A running process whose descriptors and directory are valid. *)
Definition caller_ok s (me : nat) (p : proc) X Y P : Prop :=
  ks_procs s !! me = Some p ∧ p_state p ≠ UNUSED ∧ length (p_ofile p) = NOFILE ∧
  f_ok (ks_f s) X Y P ∧ open_files p ⊆ X ∧ is_Some (p_cwd p) ∧ cwd_of p ⊆ Y.

(** The child in entry [q]. *)
Definition child_of (me : nat) (p q : proc) (pid root tf : Z) : proc :=
  set_name (list_ptr (p_name p))
    (Proc RUNNABLE (p_chan q) (p_killed q) (p_xstate q) pid (Some me) (p_kstack q) (p_sz p) root tf
      (Context_ forkret_pc (u64 (p_kstack q + PGSIZE))) (p_ofile p) (p_cwd p) (p_name q)).

Lemma undone_set L k1 L1 T root tf perm content k2 L2 T2 n0 :
  list_to_set L =@{gset Z} list_to_set L1 ∪ own_set T (D_empty trampoline tf) 0 tf →
  grown kend k1 L1 T (D_empty trampoline tf) root n0 perm content O ∅ k2 L2 T2 (D_empty trampoline tf) →
  list_to_set L =@{gset Z} list_to_set L2 ∪ own_set T2 (D_empty trampoline tf) 0 tf ∧
  outside (list_to_set L) (k_mem k1) (k_mem k2).
Proof.
  intros Hset Hg. pose proof (gw_set _ _ _ _ _ _ _ _ _ _ _ _ _ _ _ Hg) as Hs. cbn [vrange dpages seq fmap list_fmap list_to_set] in Hs.
  split.
  - apply set_eq. intros p. rewrite elem_of_list_to_set, (set_start L L1 T tf Hset), Hs. unfold own_set.
    change (upages (D_empty trampoline tf) (npages 0)) with (@nil Z).
    rewrite !elem_of_union, elem_of_rest, list_to_set_nil, !elem_of_empty, elem_of_list_to_set. tauto.
  - eapply outside_mono; [|apply (gw_out _ _ _ _ _ _ _ _ _ _ _ _ _ _ _ Hg)]. intros p Hp.
    rewrite elem_of_list_to_set, (set_start L L1 T tf Hset), elem_of_union. by left.
Qed.

(** What [fork] does once the memory is copied. *)
Definition fork_rest (me np : nat) (p q : proc) : M (kstate F) Z :=
  setp np (pset_sz (p_sz p)) ;;
  onk (modify (λ k, kset_mem (memmove (k_mem k) (p_trapframe q) (p_trapframe p) sizeof_trapframe) k)) ;;
  onk (stp (p_trapframe q + TF_a0) 0) ;;
  mfor (seq 0 NOFILE) (λ i,
    f ← mnth (p_ofile p !! i);
    match f with
    | Some f => onf (filedup f) ;; setp np (λ q, pset_ofile (<[i := Some f]> (p_ofile q)) q)
    | None => mret tt
    end) ;;
  (match p_cwd p with Some ip => onf (idup ip) | None => mfault end) ;;
  setp np (pset_cwd (p_cwd p)) ;;
  setp np (set_name (list_ptr (p_name p))) ;;
  setp np (pset_parent (Some me)) ;;
  setp np (pset_state RUNNABLE) ;;
  mret (p_pid q).

Lemma fork_rest_spec s k2 me np p q pid root tf s' m' X Y P (Q : Z → kstate F → Prop) :
  caller_ok s me p X Y P → ks_procs s !! np = Some q → p_ofile q = replicate NOFILE None →
  s' = with_proc (with_k s k2) np (allocated forkret_pc q pid root tf) →
  m' = st64 (memmove (k_mem k2) tf (p_trapframe p) sizeof_trapframe) (tf + TF_a0) 0 →
  (∀ fs', f_ok fs' (X ⊎ open_files p) (Y ⊎ cwd_of p) P →
     Q pid (with_proc (with_f (with_k s (kset_mem m' k2)) fs') np (child_of me p q pid root tf))) →
  wp (fork_rest me np p (allocated forkret_pc q pid root tf)) s' Q.
Proof.
  intros (Hme & Hst & Hof & Hok & Hopen & [ip Hcwd] & Hip) Hnp Hnone -> -> HQ. unfold fork_rest.
  assert (∀ k fs, ks_procs (with_f (with_k s k) fs) !! np = Some q) as Hq by done.
  assert (ks_procs (with_k s k2) !! np = Some q) as Hq2 by done. pset.
  wp_step. apply wp_onk. wp_step. wp_step. apply wp_onk. unfold stp. wp_step. cbn [k_mem kset_mem p_trapframe allocated].
  change (with_k (with_k (with_proc (with_k s k2) np ?x) _) (kset_mem ?m ?k)) with (with_proc (with_f (with_k s (kset_mem m k2)) (ks_f s)) np x).
  set (k3 := kset_mem _ k2) in *. wp_step.
  eapply dup_files; [by eapply with_proc_lookup, Hq|done|exact Hnone|exact Hok|exact Hopen|]. intros fs1 Hk1.
  change (with_f (with_proc (with_f ?a ?b) np ?x) fs1) with (with_proc (with_f a fs1) np x). rewrite with_proc_twice.
  rewrite Hcwd. wp_step. unfold cwd_of in *. rewrite Hcwd in *. eapply wp_idup; [exact Hk1|by apply gmultiset_singleton_subseteq_l|]. intros fs2 Hk2.
  change (with_f (with_proc (with_f ?a ?b) np ?x) fs2) with (with_proc (with_f a fs2) np x). specialize (Hq k3 fs2).
  pset. pset. pset. pset. wp_step. unfold child_of in HQ. rewrite Hcwd in HQ. by apply (HQ fs2).
Qed.

Lemma fork_spec s L me p Tp Dp X Y P (Q : Z → kstate F → Prop) :
  length (ks_procs s) = NPROC → unused_ok s → caller_ok s me p X Y P →
  pmem (ks_k s) L Tp Dp (p_pagetable p) (p_sz p) (p_trapframe p) →
  (∀ np q k' L' T D root tf fs', first_unused s np q → forked (ks_k s) L Tp Dp (p_pagetable p) (p_sz p) (p_trapframe p) k' L' T D root tf →
     f_ok fs' (X ⊎ open_files p) (Y ⊎ cwd_of p) P →
     Q (ks_nextpid s) (with_nextpid (with_proc (with_f (with_k s k') fs') np (child_of me p q (ks_nextpid s) root tf)) (s32 (ks_nextpid s + 1)))) →
  ((∀ j q, ks_procs s !! j = Some q → p_state q ≠ UNUSED) → Q (-1) s) →
  (∀ np q q' k' L', first_unused s np q → kmem_ok kend k' L' → list_to_set L' =@{gset Z} list_to_set L →
     outside (list_to_set L) (k_mem (ks_k s)) (k_mem k') → p_state q' = UNUSED → blank q' → p_ofile q' = p_ofile q → p_cwd q' = p_cwd q →
     Z.of_nat (length L) < 6 + 3 * npages (p_sz p) →
     Q (-1) (with_nextpid (with_proc (with_k s k') np q') (s32 (ks_nextpid s + 1)))) →
  wp (fork kend trampoline forkret_pc me) s Q.
Proof.
  intros Hlen Hun Hcall Hpm HQ HQ0 HQ1. pose proof Hcall as (Hme & Hst & _). unfold fork. wp_step.
  pose proof (pm_as _ _ _ _ _ _ _ _ _ (pm_ppt _ _ _ _ _ _ _ _ _ Hpm)) as Has.
  assert (0 ≤ npages (p_sz p)) as Hnp by (pose proof (pm_sz _ _ _ _ _ _ _ _ _ (pm_ppt _ _ _ _ _ _ _ _ _ Hpm)); unfold npages; zlia).
  apply (allocproc_spec kend trampoline forkret_pc Hend Htr s L); [done|apply Has|intros ? ? ? ?; by eapply Hun| | |].
  { intros Hall. wp_step. by apply HQ0. }
  2:{ intros np q k' L' Hfu Hk' HL' Hout Hl. wp_step. apply (HQ1 np q (freed q) k' L'); [done..|lia]. }
  intros np q k1 L1 T root tf Hfu Hch Hroot Hset Hout1 Hlen1. pose proof Hfu as (Hnp' & Hunp & _).
  assert (me ≠ np) as Hne by (intros ->; congruence).
  set (sn := with_nextpid s (s32 (ks_nextpid s + 1))).
  change (with_nextpid (with_proc (with_k s k1) np ?x) _) with (with_proc (with_k sn k1) np x).
  wp_step. eapply wp_getp; [cbn; by rewrite list_lookup_insert_ne|]. wp_step. assert (ks_procs (with_k sn k1) !! np = Some q) as Hnp1 by done.
  pget. wp_step. apply wp_onk. cbn [p_pagetable allocated]. change (ks_k (with_proc (with_k sn k1) np _)) with k1.
  pose proof (pm_as _ _ _ _ _ _ _ _ _ (pm_ppt _ _ _ _ _ _ _ _ _ Hch)) as Hasc.
  destruct (fork_parent _ _ _ _ _ _ _ _ _ _ _ Hpm (as_k _ _ _ _ _ _ Hasc) Hset Hout1) as [Hpar Hdis].
  pose proof (pm_sz _ _ _ _ _ _ _ _ _ (pm_ppt _ _ _ _ _ _ _ _ _ Hpar)) as Hsz.
  apply (uvmcopy_spec kend Hend k1 L1 T (D_empty trampoline tf) root Tp Dp (p_pagetable p) (npages (p_sz p))).
  - by eapply fork_is_parent.
  - done.
  - change (NVPN / 2) with 67108864. unfold vtf in Hsz. lia.
  - intros v Hv. apply (empty_none tf). pose proof (sz_pages _ _ _ _ _ _ _ Hpar). lia.
  - done.
  - intros k2 L2 T2 D2 Hg. change (0 <? 0) with false. cbv match.
    refine (fork_rest_spec sn k2 me np p q (ks_nextpid s) root tf _ _ X Y P Q _ _ _ eq_refl eq_refl _); [exact Hcall|done|by eapply Hun|].
    intros fs' Hk. eapply (HQ np q _ L2 T2 D2 root tf fs'); [done| |done]. by eapply forked_mem.
  - intros k2 L2 T2 Hg Hl. change (-1 <? 0) with true. cbv match. wp_step. eapply freeproc_mem; [by eapply with_proc_lookup|].
    apply (freemem_all kend trampoline Hend Htr _ k2 L2 T2 (D_empty trampoline tf)).
    + destruct (Hun np q Hnp' Hunp) as [(Hsz0 & _) _]. cbn [p_pagetable p_sz p_trapframe allocated]. rewrite Hsz0.
      by eapply fork_undone.
    + done.
    + destruct (Hun np q Hnp' Hunp) as [(Hsz0 & _) _]. cbn [p_sz p_trapframe allocated]. rewrite Hsz0. intros k3 L3 Hk3 HL3 Hout3.
      destruct (undone_set _ _ _ _ _ _ _ _ _ _ _ _ Hset Hg) as [HLset Hout2]. wp_step.
      change (with_k (with_k (with_proc (with_k sn k1) np ?x) k2) k3) with (with_proc (with_k sn k3) np x). rewrite with_proc_twice.
      apply (HQ1 np q _ k3 L3); [done|done|by rewrite HL3| |done..|lia].
      eapply outside_trans; [exact Hout1|]. eapply outside_trans; [exact Hout2|]. eapply outside_mono; [|exact Hout3].
      rewrite HLset. apply union_subseteq_r.
Qed.
End fork.
