(* ===== verification/Sleeplock.v ===== *)
(** * Sleep locks: kernel/sleeplock.c

    A sleep lock as the process that calls its operations sees it: the inner
    spinlock makes each operation atomic, and a process that finds the lock
    taken goes to sleep. [me] is [myproc()->pid], [c] the address of the lock. *)
From Stdlib Require Import ZArith Lia.
From stdpp Require Import base tactics numbers option list strings.
From S2P Require Import Prelude.

Record sleeplock := SleepLock { sl_locked : Z; sl_pid : Z }.

#[export] Instance sleeplock_eq_dec : EqDecision sleeplock.
Proof. solve_decision. Defined.

Definition initsleeplock : sleeplock := SleepLock 0 0.

Definition acquiresleep (me : Z) (c : chan) : M sleeplock unit :=
  lk ← mget;
  if negb (sl_locked lk =? 0) then msleep c
  else modify (λ _, SleepLock 1 me).

Definition releasesleep : M sleeplock unit := modify (λ _, SleepLock 0 0).

Definition holdingsleep (me : Z) : M sleeplock bool :=
  gets (λ lk, negb (sl_locked lk =? 0) && (sl_pid lk =? me)).

Definition held_by (me : Z) (lk : sleeplock) : Prop := sl_locked lk ≠ 0 ∧ sl_pid lk = me.

Lemma wp_acquiresleep me c lk (Q : unit → sleeplock → Prop) :
  sl_locked lk = 0 → Q tt (SleepLock 1 me) → wp (acquiresleep me c) lk Q.
Proof. intros H ?. unfold acquiresleep. wp_steps. by rewrite H. Qed.

Lemma wp_holdingsleep me lk (Q : bool → sleeplock → Prop) :
  held_by me lk → Q true lk → wp (holdingsleep me) lk Q.
Proof.
  intros [? ?] ?. unfold holdingsleep. wp_steps.
  by rewrite (proj2 (Z.eqb_neq _ _)), (proj2 (Z.eqb_eq _ _)).
Qed.
