(* ===== verification/BufIface.v ===== *)
(** * The disk and the buffer-cache interface

    The disk as the buffer cache sees it. What kernel/log.c and kernel/fs.c use of
    the buffer cache: [BufOps] lists the operations and [BufSpec] what they
    promise. Clients are written against the first and proved against the second;
    [BioInv] has the instances for kernel/bio.c. *)
From Stdlib Require Import ZArith Lia.
From stdpp Require Import base tactics numbers option list gmap prelude functions strings.
From S2P Require Import Prelude Param.

(** ** The disk as the buffer cache sees it

    kernel/bio.c transfers whole blocks with [virtio_disk_rw] and waits until
    the transfer is complete. [DiskDev] is that interface and [DiskLaws] what
    its clients rely on; the clients are proved against the classes. Two
    instances: [block_map], the contents of the disk, and [tdisk], which also
    remembers every block write in order, so that a crash is a prefix of it. *)

Abbreviation block := (list Z).
Definition BLK : nat := Z.to_nat BSIZE.
Definition zero_block : block := replicate BLK 0.

Class DiskDev (D : Type) := {
  dread : D → Z → block;
  dwrite : D → Z → block → D
}.

Class DiskLaws (D : Type) `{DiskDev D} := {
  dread_length : ∀ d b, length (dread d b) = BLK;
  dread_dwrite : ∀ d b v b', length v = BLK →
    dread (dwrite d b v) b' = if decide (b = b') then v else dread d b'
}.

Lemma dread_dwrite_eq `{DiskLaws D} d b v :
  length v = BLK → dread (dwrite d b v) b = v.
Proof. intros. rewrite dread_dwrite by done. by rewrite decide_True. Qed.

Lemma dread_dwrite_ne `{DiskLaws D} d b v b' :
  length v = BLK → b ≠ b' → dread (dwrite d b v) b' = dread d b'.
Proof. intros. rewrite dread_dwrite by done. by rewrite decide_False. Qed.

(** ** Sequences of disk writes *)

Definition dwrites `{DiskDev D} (d : D) (w : list (Z * block)) : D :=
  foldl (λ d '(b, x), dwrite d b x) d w.

Definition full_blocks (w : list (Z * block)) : Prop := ∀ b x, (b, x) ∈ w → length x = BLK.

Lemma dwrites_app `{DiskDev D} (d : D) w1 w2 :
  dwrites d (w1 ++ w2) = dwrites (dwrites d w1) w2.
Proof. apply foldl_app. Qed.

Lemma dwrites_cons `{DiskDev D} (d : D) b x w :
  dwrites d ((b, x) :: w) = dwrites (dwrite d b x) w.
Proof. done. Qed.

Lemma dwrites_snoc `{DiskDev D} (d : D) w b x :
  dwrites d (w ++ [(b, x)]) = dwrite (dwrites d w) b x.
Proof. by rewrite dwrites_app. Qed.

Lemma full_blocks_app w1 w2 : full_blocks (w1 ++ w2) ↔ full_blocks w1 ∧ full_blocks w2.
Proof.
  unfold full_blocks. split.
  - intros Hw. split; intros b x Hin; apply (Hw b x), elem_of_app; auto.
  - intros [H1 H2] b x [Hin|Hin]%elem_of_app; [by eapply H1|by eapply H2].
Qed.

Lemma full_blocks_take w i : full_blocks w → full_blocks (take i w).
Proof. rewrite <-(take_drop i w) at 1. by intros [? _]%full_blocks_app. Qed.

Lemma dread_dwrites_ne `{DiskLaws D} (d : D) w b :
  full_blocks w → b ∉ w.*1 → dread (dwrites d w) b = dread d b.
Proof.
  induction w as [|[b' x] w IH] using rev_ind; [done|].
  rewrite full_blocks_app, fmap_app, not_elem_of_app. intros [Hw Hx] [Hb Hb'].
  rewrite dwrites_snoc, dread_dwrite_ne; [by apply IH| |].
  - apply (Hx b'). by left.
  - intros ->. apply Hb'. by left.
Qed.

Lemma dread_dwrites_in `{DiskLaws D} (d : D) w i b x :
  full_blocks w → NoDup w.*1 → w !! i = Some (b, x) → dread (dwrites d w) b = x.
Proof.
  induction w as [|[b' x'] w IH] using rev_ind; [done|].
  rewrite full_blocks_app, fmap_app. intros [Hw Hx] (Hnd & Hdis & _)%NoDup_app Hi.
  rewrite dwrites_snoc. apply lookup_app_Some in Hi as [Hi|[_ Hi]].
  - rewrite dread_dwrite_ne; [by apply IH|apply (Hx b'); by left|].
    intros ->. apply (Hdis b); [|by left].
    apply list_elem_of_fmap. exists (b, x). split; [done|]. by eapply list_elem_of_lookup_2.
  - apply list_lookup_singleton_Some in Hi as [_ [= <- <-]].
    apply dread_dwrite_eq. apply (Hx b'). by left.
Qed.

(** ** The contents of the disk *)

(** A block that was never written reads as zeroes; a transfer is always
    [BSIZE] bytes long. *)
Abbreviation block_map := (gmap Z block).

#[export] Instance block_map_dev : DiskDev block_map := {
  dread d b := resize BLK 0 (default [] (d !! b));
  dwrite d b v := <[b := v]> d
}.

#[export] Instance block_map_laws : DiskLaws block_map.
Proof.
  split.
  - intros d b. apply length_resize.
  - intros d b v b' Hv. cbn [dread dwrite block_map_dev].
    rewrite lookup_insert. case_decide; [|done].
    cbn [default from_option id]. by rewrite <-Hv, resize_all.
Qed.

(** ** The disk with its history *)

Record tdisk := TDisk { t_base : block_map; t_writes : list (Z * block) }.

(** What is on the platter after the first [k] writes: the disk a crash at that
    moment leaves behind. *)
Definition crash_at (k : nat) (t : tdisk) : block_map :=
  dwrites (t_base t) (take k (t_writes t)).

#[export] Instance tdisk_dev : DiskDev tdisk := {
  dread t b := dread (dwrites (t_base t) (t_writes t)) b;
  dwrite t b v := TDisk (t_base t) (t_writes t ++ [(b, v)])
}.

#[export] Instance tdisk_laws : DiskLaws tdisk.
Proof.
  split; cbn [dread dwrite tdisk_dev t_writes t_base].
  - intros t b. apply (dread_length (D := block_map)).
  - intros t b v b' Hv. rewrite dwrites_snoc.
    apply (dread_dwrite (D := block_map) _ b v b' Hv).
Qed.

(** A disk with history records the writes and goes on reading as the disk
    those writes produce. *)
Lemma tdisk_dwrites (t : tdisk) w :
  dwrites t w = TDisk (t_base t) (t_writes t ++ w).
Proof.
  revert t; induction w as [|[b x] w IH]; intros [d0 w0].
  - by rewrite app_nil_r.
  - rewrite dwrites_cons, IH. cbn [dwrite tdisk_dev t_base t_writes]. by rewrite <-app_assoc.
Qed.

Lemma crash_at_dwrites (t : tdisk) w k :
  (length (t_writes t) ≤ k)%nat →
  crash_at k (dwrites t w) =
    dwrites (dwrites (t_base t) (t_writes t)) (take (k - length (t_writes t)) w).
Proof.
  intros Hk. rewrite tdisk_dwrites. unfold crash_at. cbn [t_base t_writes].
  rewrite take_app, (take_ge (t_writes t)) by done. apply dwrites_app.
Qed.

Class BufOps (S : Type) := {
  op_bread : Z → Z → Z → M S nat;
  op_bwrite : Z → nat → M S unit;
  op_brelse : Z → nat → M S unit;
  op_bpin : nat → M S unit;
  op_bunpin : nat → M S unit;
  (** [b->blockno], [b->data] and stores into [b->data]. *)
  op_blockno : nat → M S Z;
  op_data : nat → M S block;
  op_setdata : nat → block → M S unit
}.

(** The cache as its user [me] sees it: [v] the current contents of every block
    of device [dev], [P] the blocks the log has pinned, [H] the buffers [me] has
    locked and the block each holds, [T] the blocks changed in the cache and
    neither written to the disk nor pinned since, [d] the disk. *)
Class BufSpec (S D : Type) `{BufOps S} `{DiskDev D} (dev me : Z) := {
  brep : S → (Z → block) → gset Z → gmap nat Z → gset Z → D → Prop;

  brep_length s v P H T d b : brep s v P H T d → length (v b) = BLK;
  brep_clean s v P H T d b : brep s v P H T d → b ∉ P → b ∉ T → v b = dread d b;
  brep_inj s v P H T d i j b :
    brep s v P H T d → H !! i = Some b → H !! j = Some b → i = j;

  (** A pinned block will be saved by the log. *)
  brep_saved s v P H T d b :
    brep s v P H T d → b ∈ P → brep s v P H (T ∖ {[b]}) d;

  spec_bread s v P H T d b :
    brep s v P H T d → b ∉ (map_img H : gset Z) →
    b ∈ P ∨ (size (P ∪ map_img H) < NBUF)%nat →
    wp (op_bread me dev b) s (λ i s',
      H !! i = None ∧ brep s' v P (<[i := b]> H) T d);

  spec_bwrite s v P H T d i b :
    brep s v P H T d → H !! i = Some b →
    wp (op_bwrite me i) s (λ _ s', brep s' v P H (T ∖ {[b]}) (dwrite d b (v b)));

  (** Releasing a buffer that was changed and not saved would lose the change. *)
  spec_brelse s v P H T d i b :
    brep s v P H T d → H !! i = Some b → b ∉ T →
    wp (op_brelse me i) s (λ _ s', brep s' v P (delete i H) T d);

  spec_bpin s v P H T d i b :
    brep s v P H T d → H !! i = Some b → b ∉ P →
    wp (op_bpin i) s (λ _ s', brep s' v ({[b]} ∪ P) H (T ∖ {[b]}) d);

  spec_bunpin s v P H T d i b :
    brep s v P H T d → H !! i = Some b → b ∈ P → v b = dread d b →
    wp (op_bunpin i) s (λ _ s', brep s' v (P ∖ {[b]}) H T d);

  spec_blockno s v P H T d i b :
    brep s v P H T d → H !! i = Some b →
    wp (op_blockno i) s (λ x s', x = b ∧ s' = s);

  spec_data s v P H T d i b :
    brep s v P H T d → H !! i = Some b →
    wp (op_data i) s (λ x s', x = v b ∧ s' = s);

  spec_setdata s v P H T d i b x :
    brep s v P H T d → H !! i = Some b → length x = BLK →
    wp (op_setdata i x) s (λ _ s', brep s' (<[b := x]> v) P H ({[b]} ∪ T) d)
}.
