(* ===== verification/Bio.v ===== *)
(** * The buffer cache: kernel/bio.c

    [NBUF] buffers in an array, threaded on a circular doubly linked list from
    [bcache.head], most recently used first. A [struct buf *] is the index of
    the buffer; [HEAD], one past the array, is [&bcache.head]. The spinlock
    [bcache.lock] makes each of its critical sections atomic. *)
From Stdlib Require Import ZArith Lia.
From stdpp Require Import prelude functions strings.
From S2P Require Import Prelude Param Sleeplock BufIface.

Record buf := Buf {
  b_valid : Z;
  b_disk : Z;
  b_dev : Z;
  b_blockno : Z;
  b_lock : sleeplock;
  b_refcnt : Z;
  b_prev : nat;
  b_next : nat;
  b_data : block
}.

Definition set_valid v b :=
  Buf v (b_disk b) (b_dev b) (b_blockno b) (b_lock b) (b_refcnt b) (b_prev b) (b_next b) (b_data b).
Definition set_key dev bno b :=
  Buf (b_valid b) (b_disk b) dev bno (b_lock b) (b_refcnt b) (b_prev b) (b_next b) (b_data b).
Definition set_lock lk b :=
  Buf (b_valid b) (b_disk b) (b_dev b) (b_blockno b) lk (b_refcnt b) (b_prev b) (b_next b) (b_data b).
Definition set_refcnt r b :=
  Buf (b_valid b) (b_disk b) (b_dev b) (b_blockno b) (b_lock b) r (b_prev b) (b_next b) (b_data b).
Definition set_prev p b :=
  Buf (b_valid b) (b_disk b) (b_dev b) (b_blockno b) (b_lock b) (b_refcnt b) p (b_next b) (b_data b).
Definition set_next n b :=
  Buf (b_valid b) (b_disk b) (b_dev b) (b_blockno b) (b_lock b) (b_refcnt b) (b_prev b) n (b_data b).
Definition set_data d b :=
  Buf (b_valid b) (b_disk b) (b_dev b) (b_blockno b) (b_lock b) (b_refcnt b) (b_prev b) (b_next b) d.

(** Zeroed storage, as the loader leaves it. *)
Definition zero_buf : buf := Buf 0 0 0 0 (SleepLock 0 0) 0 0 0 zero_block.

(** [&bcache.head]. *)
Definition HEAD : nat := NBUF.

Record bstate (D : Type) := BState { bc : list buf; dk : D }.
Arguments BState {D} bc dk.
Arguments bc {D} b.
Arguments dk {D} b.

Section bio.
Context {D : Type} `{DiskDev D}.

(** [b->f] and [b->f = ...] through a buffer pointer. *)
Definition bufget (i : nat) : M (bstate D) buf :=
  s ← mget; mnth (bc s !! i).
Definition bufset (i : nat) (f : buf → buf) : M (bstate D) unit :=
  b ← bufget i; modify (λ s, BState (<[i := f b]> (bc s)) (dk s)).

(** Operations on [b->lock]. *)
Definition on_lock {A} (i : nat) (m : M sleeplock A) : M (bstate D) A :=
  b ← bufget i;
  lift (λ _, b_lock b)
       (λ lk s, BState (<[i := set_lock lk b]> (bc s)) (dk s)) m.

Definition blockchan (i : nat) : chan := Chan "buffer" i.

(** What [virtio_disk_rw] has done when it returns. *)
Definition disk_rw (i : nat) (write : bool) : M (bstate D) unit :=
  b ← bufget i;
  if write
  then modify (λ s, BState (bc s) (dwrite (dk s) (b_blockno b) (b_data b)))
  else s ← mget; bufset i (set_data (dread (dk s) (b_blockno b))).

(** The body of [binit]'s loop, for [b]. *)
Definition binit_one (b : nat) : M (bstate D) unit :=
  hd ← bufget HEAD;
  bufset b (set_next (b_next hd)) ;;
  bufset b (set_prev HEAD) ;;
  bufset b (set_lock initsleeplock) ;;
  hd ← bufget HEAD;
  bufset (b_next hd) (set_prev b) ;;
  bufset HEAD (set_next b).

Definition binit : M (bstate D) unit :=
  bufset HEAD (set_prev HEAD) ;;
  bufset HEAD (set_next HEAD) ;;
  mfor (seq 0 NBUF) binit_one.

(** First loop of [bget]: walk [next] pointers looking for the block. *)
Fixpoint bget_cached (fuel : nat) (b : nat) (dev blockno : Z)
    : M (bstate D) (option nat) :=
  match fuel with
  | O => λ _, NoFuel
  | S fuel =>
      if decide (b = HEAD) then mret None
      else
        x ← bufget b;
        if (b_dev x =? dev) && (b_blockno x =? blockno) then
          bufset b (set_refcnt (u32 (b_refcnt x + 1))) ;;
          mret (Some b)
        else bget_cached fuel (b_next x) dev blockno
  end.

(** Second loop of [bget]: walk [prev] pointers looking for an unused buffer. *)
Fixpoint bget_recycle (fuel : nat) (b : nat) (dev blockno : Z)
    : M (bstate D) (option nat) :=
  match fuel with
  | O => λ _, NoFuel
  | S fuel =>
      if decide (b = HEAD) then mret None
      else
        x ← bufget b;
        if b_refcnt x =? 0 then
          bufset b (set_key dev blockno) ;;
          bufset b (set_valid 0) ;;
          bufset b (set_refcnt 1) ;;
          mret (Some b)
        else bget_recycle fuel (b_prev x) dev blockno
  end.

Definition bget (me dev blockno : Z) : M (bstate D) nat :=
  hd ← bufget HEAD;
  r ← bget_cached (S NBUF) (b_next hd) dev blockno;
  match r with
  | Some b => on_lock b (acquiresleep me (blockchan b)) ;; mret b
  | None =>
      hd ← bufget HEAD;
      r ← bget_recycle (S NBUF) (b_prev hd) dev blockno;
      match r with
      | Some b => on_lock b (acquiresleep me (blockchan b)) ;; mret b
      | None => panic "bget: no buffers"
      end
  end.

Definition bread (me dev blockno : Z) : M (bstate D) nat :=
  b ← bget me dev blockno;
  x ← bufget b;
  mwhen (b_valid x =? 0) (disk_rw b false ;; bufset b (set_valid 1)) ;;
  mret b.

Definition bwrite (me : Z) (b : nat) : M (bstate D) unit :=
  h ← on_lock b (holdingsleep me);
  if negb h then panic "bwrite" else disk_rw b true.

(** The list surgery of [brelse]: move [b] to the head of the list. *)
Definition brelse_relink (b : nat) : M (bstate D) unit :=
  (* b->next->prev = b->prev; *)
  x ← bufget b;
  bufset (b_next x) (set_prev (b_prev x)) ;;
  (* b->prev->next = b->next; *)
  x ← bufget b;
  bufset (b_prev x) (set_next (b_next x)) ;;
  (* b->next = bcache.head.next; *)
  hd ← bufget HEAD;
  bufset b (set_next (b_next hd)) ;;
  (* b->prev = &bcache.head; *)
  bufset b (set_prev HEAD) ;;
  (* bcache.head.next->prev = b; *)
  hd ← bufget HEAD;
  bufset (b_next hd) (set_prev b) ;;
  (* bcache.head.next = b; *)
  bufset HEAD (set_next b).

Definition brelse (me : Z) (b : nat) : M (bstate D) unit :=
  h ← on_lock b (holdingsleep me);
  if negb h then panic "brelse" else
  on_lock b releasesleep ;;
  x ← bufget b;
  bufset b (set_refcnt (u32 (b_refcnt x - 1))) ;;
  x ← bufget b;
  if b_refcnt x =? 0 then brelse_relink b else mret tt.

Definition bpin (b : nat) : M (bstate D) unit :=
  x ← bufget b; bufset b (set_refcnt (u32 (b_refcnt x + 1))).

Definition bunpin (b : nat) : M (bstate D) unit :=
  x ← bufget b; bufset b (set_refcnt (u32 (b_refcnt x - 1))).
End bio.

(** Before [binit]: zeroed storage. *)
Definition bcache0 {D} (d : D) : bstate D := BState (replicate (S NBUF) zero_buf) d.

(** ** Circular doubly linked lists *)

(** [seg nx pv x m y]: following [nx] from [x] visits [m] and then reaches [y],
    and [pv] leads back. *)
Fixpoint seg (nx pv : nat → nat) (x : nat) (m : list nat) (y : nat) : Prop :=
  match m with
  | [] => nx x = y ∧ pv y = x
  | z :: m' => nx x = z ∧ pv z = x ∧ seg nx pv z m' y
  end.

Section rings.
Implicit Types (nx pv : nat → nat) (x y z h b : nat) (m : list nat).

Lemma seg_next nx pv x m y : seg nx pv x m y → nx x ∈ m ++ [y].
Proof. destruct m; simpl; elems. Qed.

Lemma seg_prev nx pv x m y : seg nx pv x m y → pv y ∈ x :: m.
Proof.
  revert x; induction m as [|z m IH]; intros x; simpl.
  - intros [_ ->]. by left.
  - intros (_ & _ & ?). right. by apply IH.
Qed.

Lemma seg_frame nx pv nx' pv' x m y :
  seg nx pv x m y →
  (∀ a, a ∈ x :: m → nx' a = nx a) → (∀ a, a ∈ m ++ [y] → pv' a = pv a) →
  seg nx' pv' x m y.
Proof.
  revert x; induction m as [|z m IH]; intros x Hs Hn Hp; simpl in *.
  - rewrite Hn, Hp by elems. done.
  - destruct Hs as (<- & ? & ?). rewrite (Hn x), (Hp (nx x)) by elems.
    split_and!; [done..|].
    apply IH; [done|intros; apply Hn|intros; apply Hp]; by right.
Qed.

Lemma seg_app nx pv x m1 z m2 y :
  seg nx pv x (m1 ++ z :: m2) y ↔ seg nx pv x m1 z ∧ seg nx pv z m2 y.
Proof.
  revert x; induction m1 as [|w m1 IH]; intros x; simpl; [naive_solver|].
  rewrite IH. naive_solver.
Qed.

(** [b->next->prev = b->prev; b->prev->next = b->next;] *)
Lemma seg_unlink nx pv x l1 b l2 y :
  seg nx pv x l1 b → seg nx pv b l2 y →
  NoDup (x :: l1 ++ l2) → y ∉ l1 ++ l2 →
  seg (<[pv b := nx b]> nx) (<[nx b := pv b]> pv) x (l1 ++ l2) y.
Proof.
  revert x; induction l1 as [|w l1 IH]; intros x H1 H2 Hnd Hy; simpl in *.
  - destruct H1 as [Hx Hb]. rewrite Hb.
    destruct l2 as [|z l2]; simpl in *.
    + destruct H2 as [<- _]. by rewrite !fn_lookup_insert.
    + destruct H2 as (-> & _ & H2). rewrite !fn_lookup_insert.
      split_and!; [done..|]. apply NoDup_cons in Hnd as [Hx' Hnd].
      apply NoDup_cons in Hnd as [Hz _].
      eapply seg_frame; [done|..]; intros a Ha; apply fn_lookup_insert_ne; elems.
  - destruct H1 as (Hx & Hw & H1).
    apply NoDup_cons in Hnd as [Hx' Hnd].
    pose proof (seg_prev _ _ _ _ _ H1) as Hpb.
    pose proof (seg_next _ _ _ _ _ H2) as Hnb.
    apply NoDup_cons in Hnd as Hnd'. destruct Hnd' as [Hw' _].
    rewrite !fn_lookup_insert_ne by elems.
    split_and!; [done..|]. apply IH; [done..|elems].
Qed.

(** [b->next = head.next; b->prev = &head; head.next->prev = b; head.next = b;] *)
Lemma seg_push nx pv h l b :
  seg nx pv h l h → NoDup (h :: l) → b ∉ h :: l →
  seg (<[h := b]> (<[b := nx h]> nx)) (<[nx h := b]> (<[b := h]> pv)) h (b :: l) h.
Proof.
  intros Hs Hnd Hb. pose proof (seg_next _ _ _ _ _ Hs) as Hnh.
  simpl. rewrite fn_lookup_insert.
  rewrite (fn_lookup_insert_ne (<[b:=h]> pv)) by elems.
  rewrite fn_lookup_insert. split_and!; [done..|].
  destruct l as [|z l]; simpl in *.
  - destruct Hs as [-> _].
    rewrite fn_lookup_insert_ne, !fn_lookup_insert by elems. done.
  - destruct Hs as (-> & _ & Hs). rewrite fn_lookup_insert.
    rewrite fn_lookup_insert_ne, fn_lookup_insert by elems.
    split_and!; [done..|]. apply NoDup_cons in Hnd as [Hh Hnd].
    apply NoDup_cons in Hnd as [Hz _].
    eapply seg_frame; [done|..]; intros a Ha; rewrite !fn_lookup_insert_ne by elems; done.
Qed.
End rings.
