(* ===== verification/BioSpec.v ===== *)
(** * What the buffer cache promises

    [acache]: the cache with its linked list replaced by the order it stands
    for, a list of buffer indices, most recently used first. The operations of
    kernel/bio.c as modelled in [Bio] refine those on [acache]: the pointer
    surgery of [bget] and [brelse] is search in, and move-to-front on, that
    list. *)
From Stdlib Require Import ZArith Lia.
From stdpp Require Import prelude functions strings.
From S2P Require Import Prelude Param Sleeplock BufIface Bio.

(** A buffer without its list pointers. *)
Record bcore := BCore {
  c_valid : Z;
  c_disk : Z;
  c_dev : Z;
  c_blockno : Z;
  c_lock : sleeplock;
  c_refcnt : Z;
  c_data : block
}.

Definition mkbuf (c : bcore) (p n : nat) : buf :=
  Buf (c_valid c) (c_disk c) (c_dev c) (c_blockno c) (c_lock c) (c_refcnt c) p n (c_data c).

Record acache (D : Type) := ACache { a_order : list nat; a_core : nat → bcore; a_dk : D }.
Arguments ACache {D} _ _ _.
Arguments a_order {D} _.
Arguments a_core {D} _ _.
Arguments a_dk {D} _.

Definition cset_valid v c := BCore v (c_disk c) (c_dev c) (c_blockno c) (c_lock c) (c_refcnt c) (c_data c).
Definition cset_key dev bno c := BCore (c_valid c) (c_disk c) dev bno (c_lock c) (c_refcnt c) (c_data c).
Definition cset_lock lk c := BCore (c_valid c) (c_disk c) (c_dev c) (c_blockno c) lk (c_refcnt c) (c_data c).
Definition cset_refcnt r c := BCore (c_valid c) (c_disk c) (c_dev c) (c_blockno c) (c_lock c) r (c_data c).
Definition cset_data d c := BCore (c_valid c) (c_disk c) (c_dev c) (c_blockno c) (c_lock c) (c_refcnt c) d.

Definition key_is (dev bno : Z) (c : bcore) : bool :=
  (c_dev c =? dev) && (c_blockno c =? bno).
Definition unused (c : bcore) : bool := c_refcnt c =? 0.

(** Moving a buffer to the front of the order. *)
Definition to_front (i : nat) (l : list nat) : list nat := i :: filter (λ j, j ≠ i) l.

Section spec.
Context {D : Type} `{DiskDev D}.

Definition a_get (i : nat) : M (acache D) bcore := gets (λ a, a_core a i).
Definition a_set (i : nat) (g : bcore → bcore) : M (acache D) unit :=
  modify (λ a, ACache (a_order a) (<[i := g (a_core a i)]> (a_core a)) (a_dk a)).
Definition a_on_lock {A} (i : nat) (m : M sleeplock A) : M (acache D) A :=
  c ← a_get i;
  lift (λ _, c_lock c)
       (λ lk a, ACache (a_order a) (<[i := cset_lock lk c]> (a_core a)) (a_dk a)) m.

Definition a_disk_rw (i : nat) (write : bool) : M (acache D) unit :=
  c ← a_get i;
  if write
  then modify (λ a, ACache (a_order a) (a_core a) (dwrite (a_dk a) (c_blockno c) (c_data c)))
  else a ← mget; a_set i (cset_data (dread (a_dk a) (c_blockno c))).

(** The cached copy if there is one, else the least recently used buffer that
    nobody refers to. *)
Definition a_bget (me dev bno : Z) : M (acache D) nat :=
  a ← mget;
  match find (λ i, key_is dev bno (a_core a i)) (a_order a) with
  | Some i =>
      a_set i (λ c, cset_refcnt (u32 (c_refcnt c + 1)) c) ;;
      a_on_lock i (acquiresleep me (blockchan i)) ;; mret i
  | None =>
      match find (λ i, unused (a_core a i)) (rev (a_order a)) with
      | Some i =>
          a_set i (λ c, cset_refcnt 1 (cset_valid 0 (cset_key dev bno c))) ;;
          a_on_lock i (acquiresleep me (blockchan i)) ;; mret i
      | None => panic "bget: no buffers"
      end
  end.

Definition a_bread (me dev bno : Z) : M (acache D) nat :=
  b ← a_bget me dev bno;
  c ← a_get b;
  mwhen (c_valid c =? 0) (a_disk_rw b false ;; a_set b (cset_valid 1)) ;;
  mret b.

Definition a_bwrite (me : Z) (b : nat) : M (acache D) unit :=
  h ← a_on_lock b (holdingsleep me);
  if negb h then panic "bwrite" else a_disk_rw b true.

Definition a_brelse (me : Z) (b : nat) : M (acache D) unit :=
  h ← a_on_lock b (holdingsleep me);
  if negb h then panic "brelse" else
  a_on_lock b releasesleep ;;
  a_set b (λ c, cset_refcnt (u32 (c_refcnt c - 1)) c) ;;
  c ← a_get b;
  if unused c
  then modify (λ a, ACache (to_front b (a_order a)) (a_core a) (a_dk a))
  else mret tt.

Definition a_bpin (b : nat) : M (acache D) unit :=
  a_set b (λ c, cset_refcnt (u32 (c_refcnt c + 1)) c).
Definition a_bunpin (b : nat) : M (acache D) unit :=
  a_set b (λ c, cset_refcnt (u32 (c_refcnt c - 1)) c).

(** ** The representation relation *)

Definition rep (s : bstate D) (nx pv : nat → nat) (co : nat → bcore) : Prop :=
  length (bc s) = S NBUF ∧
  ∀ i, (i ≤ NBUF)%nat → bc s !! i = Some (mkbuf (co i) (pv i) (nx i)).

Definition ring (nx pv : nat → nat) (l : list nat) : Prop :=
  seg nx pv HEAD l HEAD ∧ l ≡ₚ seq 0 NBUF.

Definition bsim (s : bstate D) (a : acache D) : Prop :=
  ∃ nx pv, rep s nx pv (a_core a) ∧ ring nx pv (a_order a) ∧ dk s = a_dk a.

Lemma ring_NoDup nx pv l : ring nx pv l → NoDup (HEAD :: l).
Proof.
  intros [_ Hp]. apply NoDup_cons. rewrite Hp. split; [|apply NoDup_seq].
  rewrite elem_of_seq. unfold HEAD. lia.
Qed.

Lemma ring_lt nx pv l i : ring nx pv l → i ∈ l → (i < NBUF)%nat.
Proof. intros [_ Hp]. rewrite Hp, elem_of_seq. lia. Qed.

Lemma ring_in nx pv l i : ring nx pv l → (i < NBUF)%nat → i ∈ l.
Proof. intros [_ Hp]. rewrite Hp, elem_of_seq. lia. Qed.

(** *** Symbolic execution of pointer code *)

Lemma rep_insert s nx pv co i c' p' n' :
  rep s nx pv co → (i ≤ NBUF)%nat →
  rep (BState (<[i := mkbuf c' p' n']> (bc s)) (dk s))
      (<[i := n']> nx) (<[i := p']> pv) (<[i := c']> co).
Proof.
  intros [Hl Hr] Hi. split; simpl; [by rewrite length_insert|].
  intros j Hj. destruct (decide (i = j)) as [<-|Hne].
  - rewrite !fn_lookup_insert. apply list_lookup_insert_eq. lia.
  - rewrite list_lookup_insert_ne, !fn_lookup_insert_ne by done. by apply Hr.
Qed.

Lemma rep_ext s nx pv co nx' pv' co' :
  rep s nx pv co → (∀ i, nx' i = nx i) → (∀ i, pv' i = pv i) → (∀ i, co' i = co i) →
  rep s nx' pv' co'.
Proof. intros [Hl Hr] Hn Hp Hc. split; [done|]. intros. rewrite Hn, Hp, Hc. auto. Qed.

Lemma fn_insert_id {A} (f : nat → A) i j : <[i := f i]> f j = f j.
Proof.
  destruct (decide (i = j)) as [->|]; [by rewrite fn_lookup_insert|].
  by rewrite fn_lookup_insert_ne.
Qed.

Lemma wp_bufget s nx pv co i (Q : buf → bstate D → Prop) :
  rep s nx pv co → (i ≤ NBUF)%nat →
  Q (mkbuf (co i) (pv i) (nx i)) s → wp (bufget i) s Q.
Proof. intros [_ Hr] Hi HQ. unfold bufget. wp_steps. by rewrite Hr. Qed.

Lemma wp_bufset_next s nx pv co i v (Q : unit → bstate D → Prop) :
  rep s nx pv co → (i ≤ NBUF)%nat →
  (∀ s', dk s' = dk s → rep s' (<[i := v]> nx) pv co → Q tt s') →
  wp (bufset i (set_next v)) s Q.
Proof.
  intros Hr Hi HQ. unfold bufset. wp_step. eapply wp_bufget; [done..|].
  wp_steps. apply HQ; [done|].
  eapply rep_ext; [by apply (rep_insert _ _ _ _ i (co i) (pv i) v Hr)|..]; intros j;
    rewrite ?fn_insert_id; done.
Qed.

Lemma wp_bufset_prev s nx pv co i v (Q : unit → bstate D → Prop) :
  rep s nx pv co → (i ≤ NBUF)%nat →
  (∀ s', dk s' = dk s → rep s' nx (<[i := v]> pv) co → Q tt s') →
  wp (bufset i (set_prev v)) s Q.
Proof.
  intros Hr Hi HQ. unfold bufset. wp_step. eapply wp_bufget; [done..|].
  wp_steps. apply HQ; [done|].
  eapply rep_ext; [by apply (rep_insert _ _ _ _ i (co i) v (nx i) Hr)|..]; intros j;
    rewrite ?fn_insert_id; done.
Qed.

Lemma wp_bufset_core s nx pv co i f g (Q : unit → bstate D → Prop) :
  rep s nx pv co → (i ≤ NBUF)%nat →
  (∀ c p n, f (mkbuf c p n) = mkbuf (g c) p n) →
  (∀ s', dk s' = dk s → rep s' nx pv (<[i := g (co i)]> co) → Q tt s') →
  wp (bufset i f) s Q.
Proof.
  intros Hr Hi Hf HQ. unfold bufset. wp_step. eapply wp_bufget; [done..|].
  wp_steps. apply HQ; [done|]. rewrite Hf.
  eapply rep_ext; [by apply (rep_insert _ _ _ _ i (g (co i)) (pv i) (nx i) Hr)|..]; intros j;
    rewrite ?fn_insert_id; done.
Qed.

(** *** Simulation of the primitive accesses *)

Lemma sim_bufget {A} s a i (k : buf → M (bstate D) A) (k' : bcore → M (acache D) A) :
  bsim s a → (i < NBUF)%nat →
  (∀ p n, bc s !! i = Some (mkbuf (a_core a i) p n) →
     osim bsim (k (mkbuf (a_core a i) p n) s) (k' (a_core a i) a)) →
  osim bsim ((bufget i ≫= k) s) ((a_get i ≫= k') a).
Proof.
  intros (nx & pv & [Hl Hr] & _) Hi Hk.
  specialize (Hr i ltac:(lia)). specialize (Hk _ _ Hr).
  unfold mbind, M_bind, bufget, mget, mbind, M_bind, a_get, gets. by rewrite Hr.
Qed.

Lemma bsim_insert s a i c p n :
  bsim s a → (i < NBUF)%nat → bc s !! i = Some (mkbuf (a_core a i) p n) →
  bsim (BState (<[i := mkbuf c p n]> (bc s)) (dk s))
       (ACache (a_order a) (<[i := c]> (a_core a)) (a_dk a)).
Proof.
  intros (nx & pv & Hr & Hring & Hd) Hi Hb.
  pose proof Hr as [_ Hrep]. rewrite (Hrep i) in Hb by lia.
  injection Hb as Hp Hn.
  pose proof (rep_insert _ _ _ _ i c p n Hr ltac:(lia)) as Hr'.
  exists nx, pv. split_and!; [|done..]. eapply rep_ext; [done|..]; intros j; simpl.
  - rewrite <-Hn. by rewrite fn_insert_id.
  - rewrite <-Hp. by rewrite fn_insert_id.
  - done.
Qed.

Lemma sim_bufset s a i f g :
  bsim s a → (i < NBUF)%nat → (∀ c p n, f (mkbuf c p n) = mkbuf (g c) p n) →
  osim bsim (bufset i f s) (a_set i g a).
Proof.
  intros (nx & pv & Hr & Hring & Hd) Hi Hf. apply osim_wp.
  eapply wp_bufset_core; [done|lia|done|].
  intros s' Hd' Hr'. split; [done|]. exists nx, pv. simpl. by rewrite Hd'.
Qed.

Lemma sim_on_lock {A} s a i (m : M sleeplock A) :
  bsim s a → (i < NBUF)%nat → osim bsim (on_lock i m s) (a_on_lock i m a).
Proof.
  intros Hs Hi. unfold on_lock, a_on_lock. apply sim_bufget; [done..|].
  intros p n Hb. unfold lift. cbn [b_lock mkbuf].
  destruct (m _) as [x lk| |c lk| |]; constructor;
    exact (bsim_insert s a i (cset_lock lk (a_core a i)) p n Hs Hi Hb).
Qed.

Lemma sim_disk_rw s a i w :
  bsim s a → (i < NBUF)%nat → osim bsim (disk_rw i w s) (a_disk_rw i w a).
Proof.
  intros Hs Hi. unfold disk_rw, a_disk_rw. apply sim_bufget; [done..|].
  intros p n Hb. pose proof Hs as (nx & pv & Hr & Hring & Hd). destruct w.
  - constructor. exists nx, pv. simpl. by rewrite Hd.
  - eapply (sim_bufset s a); [done..|]. by rewrite Hd.
Qed.

(** *** The two walks of [bget] *)

Lemma bget_cached_walk dev bno m : ∀ x fuel s nx pv co,
  rep s nx pv co → seg nx pv x m HEAD → (∀ i, i ∈ m → (i < NBUF)%nat) →
  (length m < fuel)%nat →
  wp (bget_cached fuel (nx x) dev bno) s (λ r s',
    r = find (λ i, key_is dev bno (co i)) m ∧ dk s' = dk s ∧
    rep s' nx pv (match r with
                  | Some i => <[i := cset_refcnt (u32 (c_refcnt (co i) + 1)) (co i)]> co
                  | None => co
                  end)).
Proof.
  induction m as [|z m IH]; intros x [|fuel] s nx pv co Hr Hs Hlt Hf;
    simpl in Hs, Hf; try lia; cbn [bget_cached].
  - destruct Hs as [-> _]. rewrite decide_True by done. by wp_step.
  - destruct Hs as (-> & _ & Hs). specialize (Hlt z) as Hz.
    assert (z < NBUF)%nat by (apply Hz; by left).
    rewrite decide_False by (unfold HEAD; lia).
    wp_step. eapply wp_bufget; [done|lia|]. cbn [find].
    change (_ && _) with (key_is dev bno (co z)). destruct (key_is dev bno (co z)).
    + wp_step. eapply (wp_bufset_core _ _ _ _ _ _ (cset_refcnt (u32 (c_refcnt (co z) + 1))));
        [done|lia|done|]. intros s' ??. by wp_step.
    + change (b_next _) with (nx z). apply IH; [done..| |lia].
      intros. apply Hlt. by right.
Qed.

Lemma bget_recycle_walk dev bno m : ∀ y fuel s nx pv co,
  rep s nx pv co → seg nx pv HEAD m y → (∀ i, i ∈ m → (i < NBUF)%nat) →
  (length m < fuel)%nat →
  wp (bget_recycle fuel (pv y) dev bno) s (λ r s',
    r = find (λ i, unused (co i)) (rev m) ∧ dk s' = dk s ∧
    match r with
    | Some i =>
        rep s' nx pv (<[i := cset_refcnt 1 (cset_valid 0 (cset_key dev bno (co i)))]> co)
    | None => rep s' nx pv co
    end).
Proof.
  induction m as [|z m IH] using rev_ind; intros y [|fuel] s nx pv co Hr Hs Hlt Hf;
    rewrite ?length_app in Hf; simpl in Hs, Hf; try lia; cbn [bget_recycle].
  - destruct Hs as [_ ->]. rewrite decide_True by done. by wp_step.
  - apply seg_app in Hs as [Hs [_ ->]].
    assert (z < NBUF)%nat by (apply Hlt; rewrite elem_of_app; right; by left).
    rewrite decide_False by (unfold HEAD; lia).
    wp_step. eapply wp_bufget; [done|lia|]. rewrite rev_app_distr. cbn [find rev app].
    change (_ =? 0) with (unused (co z)). destruct (unused (co z)).
    + wp_step. eapply (wp_bufset_core _ _ _ _ _ _ (cset_key dev bno));
        [done|lia|done|]. intros s1 Hd1 Hr1.
      wp_step. eapply (wp_bufset_core _ _ _ _ _ _ (cset_valid 0));
        [done|lia|done|]. intros s2 Hd2 Hr2.
      wp_step. eapply (wp_bufset_core _ _ _ _ _ _ (cset_refcnt 1));
        [done|lia|done|]. intros s3 Hd3 Hr3.
      wp_step. split_and!; [done|congruence|].
      eapply rep_ext; [done..|]. intros j.
      destruct (decide (z = j)) as [<-|]; rewrite ?fn_lookup_insert, ?fn_lookup_insert_ne by done; done.
    + change (b_prev _) with (pv z). apply IH; [done..| |lia].
      intros. apply Hlt. rewrite elem_of_app. by left.
Qed.

(** *** Refinement *)

Lemma find_in {A} (f : A → bool) l x : find f l = Some x → x ∈ l ∧ f x = true.
Proof. intros Hf. apply find_some in Hf as [Hi ?]. by rewrite list_elem_of_In. Qed.

Lemma osim_bufget_l {T A} (R : bstate D → T → Prop) s nx pv co i
    (k : buf → M (bstate D) A) o :
  rep s nx pv co → (i ≤ NBUF)%nat →
  osim R (k (mkbuf (co i) (pv i) (nx i)) s) o → osim R ((bufget i ≫= k) s) o.
Proof.
  intros Hr Hi Ho.
  eapply (osim_bind_l _ _ _ _ (λ x s', x = mkbuf (co i) (pv i) (nx i) ∧ s' = s)).
  - by eapply wp_bufget.
  - by intros x s' [-> ->].
Qed.

Lemma bget_refines s a me dev bno :
  bsim s a → osim bsim (bget me dev bno s) (a_bget me dev bno a).
Proof.
  intros (nx & pv & Hr & Hring & Hd). pose proof Hring as [Hseg Hperm].
  assert (length (a_order a) = NBUF) as Hlen by (rewrite Hperm; apply length_seq).
  unfold bget. eapply osim_bufget_l; [done|unfold HEAD; lia|].
  change (b_next _) with (nx HEAD).
  eapply osim_bind_l.
  { eapply (bget_cached_walk _ _ (a_order a)); [done..| |lia].
    intros. by eapply ring_lt. }
  intros r s1 (Hr1 & Hd1 & Hrep1). unfold a_bget. rewrite mget_bind.
  rewrite <-Hr1. destruct r as [i|].
  - symmetry in Hr1. apply find_in in Hr1 as [Hi _].
    unfold a_set. rewrite modify_bind. apply osim_bind.
    + apply sim_on_lock; [|by eapply ring_lt]. exists nx, pv. by rewrite Hd1.
    + intros [] ????. by constructor.
  - eapply osim_bufget_l; [done|unfold HEAD; lia|].
    change (b_prev _) with (pv HEAD).
    eapply osim_bind_l.
    { eapply (bget_recycle_walk _ _ (a_order a)); [done..| |lia].
      intros. by eapply ring_lt. }
    intros r s2 (Hr2 & Hd2 & Hrep2). rewrite <-Hr2. destruct r as [i|]; [|constructor].
    symmetry in Hr2. apply find_in in Hr2 as [Hi _]. rewrite list_elem_of_In, <-in_rev, <-list_elem_of_In in Hi.
    unfold a_set. rewrite modify_bind. apply osim_bind.
    + apply sim_on_lock; [|by eapply ring_lt]. exists nx, pv. rewrite Hd2, Hd1. done.
    + intros [] ????. by constructor.
Qed.

Lemma filter_ne_id (l : list nat) b : b ∉ l → filter (λ j, j ≠ b) l = l.
Proof.
  induction l as [|x l IH]; [done|]. intros [? ?]%not_elem_of_cons.
  rewrite filter_cons_True by done. by rewrite IH.
Qed.

Lemma filter_middle (l1 l2 : list nat) b :
  NoDup (l1 ++ b :: l2) → filter (λ j, j ≠ b) (l1 ++ b :: l2) = l1 ++ l2.
Proof.
  intros (_ & H1 & [H2 _]%NoDup_cons)%NoDup_app.
  rewrite filter_app, filter_cons_False by naive_solver.
  rewrite !filter_ne_id; [done|done|]. intros Hb. apply (H1 b Hb). by left.
Qed.

Lemma relink_spec s nx pv co l b :
  rep s nx pv co → ring nx pv l → (b < NBUF)%nat →
  wp (brelse_relink b) s (λ _ s', ∃ nx' pv',
    rep s' nx' pv' co ∧ ring nx' pv' (to_front b l) ∧ dk s' = dk s).
Proof.
  intros Hr Hring Hb. pose proof (ring_in _ _ _ _ Hring Hb) as Hin.
  pose proof (ring_NoDup _ _ _ Hring) as Hnd. pose proof Hring as [Hseg Hperm].
  apply list_elem_of_split in Hin as (l1 & l2 & ->).
  pose proof Hseg as [Hs1 Hs2]%seg_app.
  pose proof (seg_prev _ _ _ _ _ Hs1) as Hpb.
  pose proof (seg_next _ _ _ _ _ Hs2) as Hnb.
  assert (∀ i, i ∈ l1 ++ b :: l2 → (i < NBUF)%nat) as Hlt by (intros; by eapply ring_lt).
  assert ((b ∉ HEAD :: l1 ++ l2) ∧ NoDup (HEAD :: l1 ++ l2)) as [Hb' Hnd'].
  { rewrite <-Permutation_middle in Hnd.
    apply NoDup_cons in Hnd as [Hh [Hb' Hnd]%NoDup_cons].
    split; [|apply NoDup_cons; split; [|done]]; unfold HEAD in *; elems. }
  assert (((pv b ≤ NBUF)%nat ∧ (nx b ≤ NBUF)%nat) ∧ pv b ≠ b ∧ nx b ≠ b) as ([? ?] & Hpb' & Hnb').
  { clear -Hpb Hnb Hlt Hb'. unfold HEAD in *. split_and!.
    - apply elem_of_cons in Hpb as [->|]; [lia|].
      apply Nat.lt_le_incl, Hlt, elem_of_app. by left.
    - apply elem_of_app in Hnb as [| ->%list_elem_of_singleton]; [|lia].
      apply Nat.lt_le_incl, Hlt, elem_of_app. right. by right.
    - intros Heq; rewrite Heq in Hpb. elems.
    - intros Heq; rewrite Heq in Hnb. elems. }
  set (nx1 := <[pv b := nx b]> nx). set (pv1 := <[nx b := pv b]> pv).
  assert (seg nx1 pv1 HEAD (l1 ++ l2) HEAD) as Hseg1.
  { apply seg_unlink; [done..|]. by apply NoDup_cons in Hnd' as [? _]. }
  pose proof (seg_push _ _ _ _ b Hseg1 Hnd' Hb') as Hseg2.
  pose proof (seg_next _ _ _ _ _ Hseg1) as Hn1.
  assert (nx1 HEAD ≤ NBUF)%nat as Hn1'.
  { clear -Hn1 Hlt. apply elem_of_app in Hn1 as [| ->%list_elem_of_singleton]; [|unfold HEAD; lia].
    apply Nat.lt_le_incl, Hlt. elems. }
  unfold brelse_relink.
  wp_step. eapply wp_bufget; [done|lia|]. cbn [b_next b_prev mkbuf].
  wp_step. eapply wp_bufset_prev; [done|lia|]. intros s1 Hd1 Hr1.
  wp_step. eapply wp_bufget; [done|lia|]. cbn [b_next b_prev mkbuf].
  rewrite fn_lookup_insert_ne by done.
  wp_step. eapply wp_bufset_next; [done|lia|]. intros s2 Hd2 Hr2.
  wp_step. eapply wp_bufget; [done|unfold HEAD; lia|]. cbn [b_next mkbuf]. fold nx1.
  wp_step. eapply wp_bufset_next; [done|lia|]. intros s3 Hd3 Hr3.
  wp_step. eapply wp_bufset_prev; [done|lia|]. intros s4 Hd4 Hr4.
  wp_step. eapply wp_bufget; [done|unfold HEAD; lia|]. cbn [b_next mkbuf].
  rewrite (fn_lookup_insert_ne nx1 b HEAD) by (unfold HEAD; lia).
  wp_step. eapply wp_bufset_prev; [done|lia|]. intros s5 Hd5 Hr5.
  eapply wp_bufset_next; [done|unfold HEAD; lia|]. intros s6 Hd6 Hr6.
  exists (<[HEAD := b]> (<[b := nx1 HEAD]> nx1)), (<[nx1 HEAD := b]> (<[b := HEAD]> pv1)).
  split_and!; [done| |congruence].
  unfold to_front. rewrite filter_middle by (by apply NoDup_cons in Hnd as [_ ?]).
  split; [done|]. by rewrite <-Hperm, Permutation_middle.
Qed.

Lemma a_bget_lt a me dev bno i a' :
  a_order a ≡ₚ seq 0 NBUF → a_bget me dev bno a = Ret i a' → (i < NBUF)%nat.
Proof.
  intros Hp. unfold a_bget. rewrite mget_bind.
  assert (∀ j, j ∈ a_order a → (j < NBUF)%nat) as Hlt.
  { intros j. rewrite Hp, elem_of_seq. lia. }
  assert (∀ j g (o : M sleeplock unit), ((a_set j g ;; a_on_lock j o ;; mret j) : M (acache D) nat) a = Ret i a' →
            j = i) as Hret.
  { intros j g o. unfold mbind, M_bind. destruct (a_set j g a); try done.
    destruct (a_on_lock j o s); try done. by injection 1. }
  destruct (find _ (a_order a)) as [j|] eqn:E1; intros Hr.
  - apply find_in in E1 as [? _]. apply Hret in Hr as <-. auto.
  - destruct (find _ (rev _)) as [j|] eqn:E2; [|done].
    apply find_in in E2 as [Hj _]. rewrite list_elem_of_In, <-in_rev, <-list_elem_of_In in Hj.
    apply Hret in Hr as <-. auto.
Qed.

Lemma bread_refines s a me dev bno :
  bsim s a → osim bsim (bread me dev bno s) (a_bread me dev bno a).
Proof.
  intros Hs. unfold bread, a_bread.
  assert (a_order a ≡ₚ seq 0 NBUF) as Hp by (by destruct Hs as (? & ? & _ & [_ ?] & _)).
  apply osim_bind; [by apply bget_refines|]. intros i s' a' Hi%a_bget_lt Hs'; [|done].
  apply sim_bufget; [done..|]. intros p n _. cbn [b_valid mkbuf].
  apply osim_bind; [|by constructor].
  unfold mwhen. destruct (c_valid (a_core a' i) =? 0); [|by constructor].
  apply osim_bind; [by apply sim_disk_rw|]. intros [] ????. by apply sim_bufset.
Qed.

Lemma bwrite_refines s a me i :
  bsim s a → (i < NBUF)%nat → osim bsim (bwrite me i s) (a_bwrite me i a).
Proof.
  intros Hs Hi. unfold bwrite, a_bwrite. apply osim_bind; [by apply sim_on_lock|].
  intros h s' a' _ Hs'. destruct (negb h); [constructor|by apply sim_disk_rw].
Qed.

Lemma bpin_refines s a i : bsim s a → (i < NBUF)%nat → osim bsim (bpin i s) (a_bpin i a).
Proof.
  intros Hs Hi. pose proof Hs as (nx & pv & Hr & _).
  unfold bpin. eapply osim_bufget_l; [done|lia|].
  apply (sim_bufset s a i _ (cset_refcnt (u32 (c_refcnt (a_core a i) + 1)))); done.
Qed.

Lemma bunpin_refines s a i :
  bsim s a → (i < NBUF)%nat → osim bsim (bunpin i s) (a_bunpin i a).
Proof.
  intros Hs Hi. pose proof Hs as (nx & pv & Hr & _).
  unfold bunpin. eapply osim_bufget_l; [done|lia|].
  apply (sim_bufset s a i _ (cset_refcnt (u32 (c_refcnt (a_core a i) - 1)))); done.
Qed.

Lemma brelse_refines s a me i :
  bsim s a → (i < NBUF)%nat → osim bsim (brelse me i s) (a_brelse me i a).
Proof.
  intros Hs Hi. unfold brelse, a_brelse. apply osim_bind; [by apply sim_on_lock|].
  intros h s1 a1 _ Hs1. destruct (negb h); [constructor|].
  apply osim_bind; [by apply sim_on_lock|]. intros [] s2 a2 _ Hs2.
  pose proof Hs2 as (nx & pv & Hr & _). eapply osim_bufget_l; [done|lia|].
  apply osim_bind.
  { apply (sim_bufset s2 a2 i _ (cset_refcnt (u32 (c_refcnt (a_core a2 i) - 1)))); done. }
  intros [] s3 a3 _ Hs3. apply sim_bufget; [done..|]. intros p n _.
  cbn [b_refcnt mkbuf]. change (_ =? 0) with (unused (a_core a3 i)).
  destruct (unused _); [|by constructor].
  destruct Hs3 as (nx3 & pv3 & Hr3 & Hring3 & Hd3). apply osim_wp.
  eapply wp_mono; [by apply (relink_spec s3 nx3 pv3 (a_core a3) (a_order a3))|].
  intros [] s4 (nx4 & pv4 & Hr4 & Hring4 & Hd4). split; [done|].
  exists nx4, pv4. simpl. by rewrite Hd4.
Qed.

(** *** [binit] *)

Definition zero_core : bcore := BCore 0 0 0 0 (SleepLock 0 0) 0 zero_block.

(** The cache [binit] sets up: no block cached, buffer 29 most recent. *)
Definition acache0 (d : D) : acache D :=
  ACache (rev (seq 0 NBUF)) (λ _, zero_core) d.

Lemma binit_one_spec s nx pv l b :
  rep s nx pv (λ _, zero_core) → seg nx pv HEAD l HEAD →
  NoDup l → (∀ j, j ∈ l → (j < NBUF)%nat) → (b < NBUF)%nat → b ∉ l →
  wp (binit_one b) s (λ _ s', dk s' = dk s ∧ ∃ nx' pv',
    rep s' nx' pv' (λ _, zero_core) ∧ seg nx' pv' HEAD (b :: l) HEAD).
Proof.
  intros Hr Hseg Hnd Hlt Hb Hbl.
  assert (b ∉ HEAD :: l) as Hb' by (apply not_elem_of_cons; unfold HEAD; split; [lia|done]).
  assert (NoDup (HEAD :: l)) as HndH.
  { apply NoDup_cons. split; [|done]. intros Hin%Hlt. unfold HEAD in Hin. lia. }
  pose proof (seg_push _ _ _ _ b Hseg HndH Hb') as Hseg'.
  assert (nx HEAD ≤ NBUF)%nat as Hnx.
  { pose proof (seg_next _ _ _ _ _ Hseg) as Hn.
    apply elem_of_app in Hn as [Hn%Hlt| ->%list_elem_of_singleton]; unfold HEAD in *; lia. }
  unfold binit_one.
  wp_step. eapply wp_bufget; [done|unfold HEAD; lia|]. cbn [b_next mkbuf].
  wp_step. eapply wp_bufset_next; [done|lia|]. intros s3 Hd3 Hr3.
  wp_step. eapply wp_bufset_prev; [done|lia|]. intros s4 Hd4 Hr4.
  wp_step. eapply (wp_bufset_core _ _ _ _ _ _ (cset_lock initsleeplock)); [done|lia|done|].
  intros s5 Hd5 Hr5.
  wp_step. eapply wp_bufget; [done|unfold HEAD; lia|]. cbn [b_next mkbuf].
  rewrite (fn_lookup_insert_ne nx b HEAD) by (unfold HEAD; lia).
  wp_step. eapply wp_bufset_prev; [done|lia|]. intros s6 Hd6 Hr6.
  eapply wp_bufset_next; [done|unfold HEAD; lia|]. intros s7 Hd7 Hr7.
  split; [congruence|]. eexists _, _. split; [|done].
  eapply rep_ext; [done..|]. intros i.
  destruct (decide (b = i)) as [<-|]; [by rewrite fn_lookup_insert|by rewrite fn_lookup_insert_ne].
Qed.

Lemma binit_spec d : wp binit (bcache0 d) (λ _ s, bsim s (acache0 d)).
Proof.
  assert (rep (bcache0 d) (λ _, O) (λ _, O) (λ _, zero_core)) as Hr0.
  { split; [apply length_replicate|]. intros i Hi. apply lookup_replicate_2. lia. }
  unfold binit.
  wp_step. eapply wp_bufset_prev; [done|unfold HEAD; lia|]. intros s1 Hd1 Hr1.
  wp_step. eapply wp_bufset_next; [done|unfold HEAD; lia|]. intros s2 Hd2 Hr2.
  eapply wp_mono; [apply (wp_mfor _ _ (λ pre s, dk s = d ∧ ∃ nx pv,
    rep s nx pv (λ _, zero_core) ∧ seg nx pv HEAD (rev pre) HEAD))|].
  - split; [by rewrite Hd2|]. eexists _, _. split; [done|]. simpl.
    by rewrite !fn_lookup_insert.
  - intros pre b post s Hsplit (Hd & nx & pv & Hr & Hseg).
    pose proof (NoDup_seq 0 NBUF) as Hnd. rewrite Hsplit in Hnd.
    assert (∀ j, j ∈ pre ++ b :: post → (j < NBUF)%nat) as Hlt.
    { intros j. rewrite <-Hsplit, elem_of_seq. lia. }
    apply NoDup_app in Hnd as (Hnd1 & Hnd2 & _).
    eapply wp_mono; [eapply (binit_one_spec _ _ _ _ _ Hr Hseg)|].
    + by rewrite rev_reverse, reverse_Permutation.
    + intros j. rewrite rev_reverse, elem_of_reverse. intros. apply Hlt, elem_of_app. by left.
    + apply Hlt, elem_of_app. right. by left.
    + rewrite rev_reverse, elem_of_reverse. intros Hin. apply (Hnd2 b Hin). by left.
    + intros [] s' (Hd' & nx' & pv' & ? & ?). split; [congruence|].
      exists nx', pv'. by rewrite rev_app_distr.
  - intros [] s (Hd & nx & pv & Hr & Hseg). exists nx, pv.
    split_and!; [done| |done]. split; [done|].
    unfold acache0. cbn [a_order]. by rewrite rev_reverse, reverse_Permutation.
Qed.
End spec.
