(* ===== verification/BioInv.v ===== *)
(** * The buffer cache meets its interface

    The invariant of the buffer cache, stated over [acache], and the instances
    of [BufOps] and [BufSpec] for [acache] and, through the refinement of
    [BioSpec], for the code of kernel/bio.c. *)
From Stdlib Require Import ZArith Lia.
From stdpp Require Import prelude functions strings gmap.
From S2P Require Import Prelude Param Sleeplock BufIface Bio BioSpec.

#[export] Instance bstate_ops `{DiskDev D} : BufOps (bstate D) := {
  op_bread := bread;
  op_bwrite := bwrite;
  op_brelse := brelse;
  op_bpin := bpin;
  op_bunpin := bunpin;
  op_blockno i := b ← bufget i; mret (b_blockno b);
  op_data i := b ← bufget i; mret (b_data b);
  op_setdata i d := bufset i (set_data d)
}.

#[export] Instance acache_ops `{DiskDev D} : BufOps (acache D) := {
  op_bread := a_bread;
  op_bwrite := a_bwrite;
  op_brelse := a_brelse;
  op_bpin := a_bpin;
  op_bunpin := a_bunpin;
  op_blockno i := c ← a_get i; mret (c_blockno c);
  op_data i := c ← a_get i; mret (c_data c);
  op_setdata i d := a_set i (cset_data d)
}.


Section invariant.
Context {D : Type} `{HD : DiskDev D} `{HL : !DiskLaws D} (dev me : Z).

(** A buffer that has never been used, or one that caches block
    [c_blockno c]. *)
Definition idle (c : bcore) : Prop :=
  c_dev c = 0 ∧ c_refcnt c = 0 ∧ sl_locked (c_lock c) = 0.
Definition caches (c : bcore) (v : Z → block) (pinned : bool) (held : option Z) : Prop :=
  c_dev c = dev ∧ c_valid c ≠ 0 ∧ c_data c = v (c_blockno c) ∧
  match held with
  | Some b =>
      b = c_blockno c ∧ c_lock c = SleepLock 1 me ∧ c_refcnt c = Z.b2z pinned + 1
  | None => sl_locked (c_lock c) = 0 ∧ c_refcnt c = Z.b2z pinned
  end.

Definition buf_ok (v : Z → block) (P : gset Z) (H : gmap nat Z) (i : nat) (c : bcore) : Prop :=
  (idle c ∧ H !! i = None) ∨ caches c v (bool_decide (c_blockno c ∈ P)) (H !! i).

Record arep (a : acache D) (v : Z → block) (P : gset Z) (H : gmap nat Z)
    (T : gset Z) (d : D) : Prop := ARep {
  ar_dev : dev ≠ 0;
  ar_order : a_order a ≡ₚ seq 0 NBUF;
  ar_disk : a_dk a = d;
  ar_buf : ∀ i, (i < NBUF)%nat → buf_ok v P H i (a_core a i);
  ar_held : ∀ i b, H !! i = Some b → (i < NBUF)%nat;
  ar_uniq : ∀ i j, (i < NBUF)%nat → (j < NBUF)%nat →
    c_dev (a_core a i) = dev → c_dev (a_core a j) = dev →
    c_blockno (a_core a i) = c_blockno (a_core a j) → i = j;
  ar_pinned : ∀ b, b ∈ P → ∃ i, (i < NBUF)%nat ∧ key_is dev b (a_core a i) = true;
  ar_dirty : ∀ b, b ∈ T → ∃ i, H !! i = Some b;
  ar_clean : ∀ b, b ∉ P → b ∉ T → v b = dread d b;
  ar_length : ∀ b, length (v b) = BLK
}.
#[local] Arguments ar_dev {_ _ _ _ _ _}.
#[local] Arguments ar_order {_ _ _ _ _ _}.
#[local] Arguments ar_disk {_ _ _ _ _ _}.
#[local] Arguments ar_buf {_ _ _ _ _ _}.
#[local] Arguments ar_held {_ _ _ _ _ _}.
#[local] Arguments ar_uniq {_ _ _ _ _ _}.
#[local] Arguments ar_pinned {_ _ _ _ _ _}.
#[local] Arguments ar_dirty {_ _ _ _ _ _}.
#[local] Arguments ar_clean {_ _ _ _ _ _}.
#[local] Arguments ar_length {_ _ _ _ _ _}.

Lemma key_is_spec b c : key_is dev b c = true ↔ c_dev c = dev ∧ c_blockno c = b.
Proof. unfold key_is. rewrite andb_true_iff, !Z.eqb_eq. done. Qed.

Implicit Types (a : acache D) (v : Z → block) (P T : gset Z) (H : gmap nat Z) (d : D).

Lemma arep_keyed a v P H T d i b :
  arep a v P H T d → (i < NBUF)%nat → key_is dev b (a_core a i) = true →
  caches (a_core a i) v (bool_decide (b ∈ P)) (H !! i) ∧ c_blockno (a_core a i) = b.
Proof.
  intros Ha Hi [Hd Hb]%key_is_spec.
  destruct (ar_buf Ha i Hi) as [[[Hd' _] _]|Hc].
  - by destruct (ar_dev Ha); rewrite <-Hd.
  - rewrite Hb in Hc. done.
Qed.

Lemma arep_locked a v P H T d i b :
  arep a v P H T d → H !! i = Some b →
  (i < NBUF)%nat ∧ key_is dev b (a_core a i) = true ∧
  c_valid (a_core a i) ≠ 0 ∧ c_data (a_core a i) = v b ∧
  c_lock (a_core a i) = SleepLock 1 me ∧
  c_refcnt (a_core a i) = Z.b2z (bool_decide (b ∈ P)) + 1.
Proof.
  intros Ha Hh. pose proof (ar_held Ha _ _ Hh) as Hi.
  destruct (ar_buf Ha i Hi) as [[_ Hn]|Hc]; [congruence|].
  rewrite Hh in Hc. destruct Hc as (? & ? & Hv & -> & ? & ?).
  rewrite key_is_spec. done.
Qed.

(** Changing one buffer without changing the block it caches. *)
Lemma arep_same a v P H T d i b c' o' v' P' H' T' d' :
  arep a v P H T d → (i < NBUF)%nat →
  key_is dev b (a_core a i) = true → key_is dev b c' = true →
  o' ≡ₚ seq 0 NBUF → caches c' v' (bool_decide (b ∈ P')) (H' !! i) →
  (∀ j, j ≠ i → H' !! j = H !! j) →
  (∀ b', b' ≠ b → v' b' = v b') → (∀ b', b' ≠ b → b' ∈ P' ↔ b' ∈ P) →
  (∀ b', b' ∈ T' → ∃ j, H' !! j = Some b') →
  (∀ b', b' ∉ P' → b' ∉ T' → v' b' = dread d' b') →
  length (v' b) = BLK →
  arep (ACache o' (<[i := c']> (a_core a)) d') v' P' H' T' d'.
Proof.
  intros Ha Hi [Hd Hb]%key_is_spec [Hd' Hb']%key_is_spec Ho Hc HH Hv HP HT Hcl Hlen.
  assert (∀ j, (j < NBUF)%nat → j ≠ i → c_dev (a_core a j) = dev →
            c_blockno (a_core a j) ≠ b) as Hoth.
  { intros j Hj Hne Hdj Hbj. apply Hne.
    apply (ar_uniq Ha); congruence. }
  split; cbn [a_order a_core a_dk]; try done.
  - apply (ar_dev Ha).
  - intros j Hj. destruct (decide (i = j)) as [<-|Hne].
    + rewrite fn_lookup_insert. right. by rewrite Hb'.
    + rewrite fn_lookup_insert_ne by done.
      destruct (ar_buf Ha j Hj) as [[? ?]|Hcj].
      * left. rewrite HH by done. done.
      * right. unfold caches in *. rewrite HH by done.
        assert (c_blockno (a_core a j) ≠ b) by (apply Hoth; naive_solver).
        rewrite (bool_decide_ext _ (c_blockno (a_core a j) ∈ P)) by auto.
        by rewrite Hv.
  - intros j b2. destruct (decide (i = j)) as [<-|Hne]; [done|].
    rewrite HH by done. apply (ar_held Ha).
  - intros j k Hj Hk.
    destruct (decide (i = j)) as [<-|], (decide (i = k)) as [<-|];
      rewrite ?fn_lookup_insert, ?fn_lookup_insert_ne by done; intros Hdj Hdk Hjk.
    + done.
    + destruct (Hoth k); congruence.
    + destruct (Hoth j); congruence.
    + by apply (ar_uniq Ha).
  - intros b2 Hb2. destruct (decide (b2 = b)) as [->|Hne].
    + exists i. rewrite fn_lookup_insert, key_is_spec. done.
    + apply HP in Hb2; [|done].
      destruct (ar_pinned Ha _ Hb2) as (j & Hj & Hkj). exists j.
      split; [done|]. rewrite fn_lookup_insert_ne; [done|].
      intros <-. apply key_is_spec in Hkj as [_ ?]. congruence.
  - intros b2. destruct (decide (b2 = b)) as [->|]; [done|].
    rewrite Hv by done. apply (ar_length Ha).
Qed.

Lemma arep_ext a a' v P H T d :
  (∀ i, a_core a' i = a_core a i) → a_order a' = a_order a → a_dk a' = a_dk a →
  arep a v P H T d → arep a' v P H T d.
Proof.
  intros Hc Ho Hd Ha. destruct a as [o co dk], a' as [o' co' dk'].
  cbn [a_core a_order a_dk] in *. subst o' dk'. destruct Ha.
  split; cbn [a_core a_order a_dk] in *; try done.
  - intros i Hi. rewrite Hc. auto.
  - intros i j. rewrite !Hc. auto.
  - intros b Hb. destruct (ar_pinned0 b Hb) as (i & ?). exists i. by rewrite Hc.
Qed.

Lemma wp_a_holding a v P H T d i b (Q : bool → acache D → Prop) :
  arep a v P H T d → H !! i = Some b →
  (∀ a', a_order a' = a_order a → a_dk a' = a_dk a →
     (∀ j, a_core a' j = a_core a j) → Q true a') →
  wp (a_on_lock i (holdingsleep me)) a Q.
Proof.
  intros Ha Hh HQ. destruct (arep_locked _ _ _ _ _ _ _ _ Ha Hh) as (_ & _ & _ & _ & Hl & _).
  unfold a_on_lock, a_get. wp_steps. apply wp_holdingsleep; [by rewrite Hl|].
  apply HQ; [done..|]. intros j. cbn [a_core].
  destruct (decide (i = j)) as [<-|]; [|by rewrite fn_lookup_insert_ne].
  rewrite fn_lookup_insert. by destruct (a_core a i).
Qed.

Lemma a_bwrite_spec a v P H T d i b :
  arep a v P H T d → H !! i = Some b →
  wp (a_bwrite me i) a (λ _ a', arep a' v P H (T ∖ {[b]}) (dwrite d b (v b))).
Proof.
  intros Ha Hh. destruct (arep_locked _ _ _ _ _ _ _ _ Ha Hh) as (Hi & Hk & Hva & Hda & Hl & Hr).
  pose proof Hk as [Hkd Hkb]%key_is_spec.
  unfold a_bwrite. wp_step. eapply wp_a_holding; [done..|]. intros a1 Ho1 Hd1 Hc1.
  cbn [negb]. unfold a_disk_rw, a_get. wp_steps. rewrite Hc1, Hkb, Hda, Hd1, (ar_disk Ha).
  eapply (arep_ext (ACache (a_order a) (<[i := a_core a i]> (a_core a)) (dwrite d b (v b))));
    cbn [a_core a_order a_dk]; [|done..|].
  { intros j. by rewrite Hc1, fn_insert_id. }
  pose proof (ar_length Ha b) as Hlen.
  eapply (arep_same _ _ _ _ _ _ i b _ _ v P H); try done.
  - apply (ar_order Ha).
  - by eapply arep_keyed.
  - intros b' Hb'. apply (ar_dirty Ha). set_solver.
  - intros b' HP HT. destruct (decide (b = b')) as [<-|].
    + by rewrite dread_dwrite_eq.
    + rewrite dread_dwrite_ne by done. apply (ar_clean Ha); set_solver.
Qed.

Lemma to_front_perm i l : i ∈ l → NoDup l → to_front i l ≡ₚ l.
Proof.
  intros (l1 & l2 & ->)%list_elem_of_split Hnd. unfold to_front.
  rewrite filter_middle by done. apply Permutation_middle.
Qed.

Lemma a_brelse_spec a v P H T d i b :
  arep a v P H T d → H !! i = Some b → b ∉ T →
  wp (a_brelse me i) a (λ _ a', arep a' v P (delete i H) T d).
Proof.
  intros Ha Hh HbT. destruct (arep_locked _ _ _ _ _ _ _ _ Ha Hh) as (Hi & Hk & Hva & Hda & Hl & Hr).
  pose proof Hk as [Hkd Hkb]%key_is_spec.
  set (c' := cset_refcnt (Z.b2z (bool_decide (b ∈ P))) (cset_lock (SleepLock 0 0) (a_core a i))).
  assert (∀ o, o ≡ₚ seq 0 NBUF →
    arep (ACache o (<[i := c']> (a_core a)) d) v P (delete i H) T d) as Hfin.
  { intros o Ho. eapply (arep_same _ _ _ _ _ _ i b _ _ v P (delete i H)); try done.
    - rewrite lookup_delete_eq. split_and!; try done. subst c'. cbn. by rewrite Hda, Hkb.
    - intros j Hj. by rewrite lookup_delete_ne.
    - intros b' Hb'. destruct (ar_dirty Ha b' Hb') as [j Hj]. exists j.
      rewrite lookup_delete_ne; [done|]. intros <-. by simplify_eq.
    - apply (ar_clean Ha).
    - apply (ar_length Ha). }
  assert (i ∈ a_order a) as Hin by (rewrite (ar_order Ha), elem_of_seq; lia).
  assert (NoDup (a_order a)) as Hnd by (rewrite (ar_order Ha); apply NoDup_seq).
  unfold a_brelse. wp_step. eapply wp_a_holding; [done..|]. intros a1 Ho1 Hd1 Hc1. cbn [negb].
  unfold a_on_lock, a_get, a_set, releasesleep, unused. wp_steps.
  cbn [a_core a_order a_dk]. rewrite !fn_lookup_insert. cbn [c_refcnt cset_refcnt cset_lock].
  rewrite Hc1, Hr, Ho1, Hd1, (ar_disk Ha).
  replace (u32 _) with (Z.b2z (bool_decide (b ∈ P))) by (destruct (bool_decide _); reflexivity).
  destruct (_ =? 0); wp_steps; cbn [a_core a_order a_dk].
  all: eapply arep_ext; [| | |apply Hfin]; cbn [a_core a_order a_dk]; try done;
    [|rewrite ?Ho1, ?to_front_perm by done; apply (ar_order Ha)].
  all: intros j; destruct (decide (i = j)) as [<-|];
    rewrite ?fn_lookup_insert, ?fn_lookup_insert_ne, ?Hc1 by done; done.
Qed.

(** Changing the pin count or the contents of a locked buffer. *)
Lemma a_set_locked a v P H T d i b g v' P' T' :
  arep a v P H T d → H !! i = Some b →
  (∀ c, c_dev (g c) = c_dev c ∧ c_blockno (g c) = c_blockno c ∧
        c_valid (g c) = c_valid c ∧ c_lock (g c) = c_lock c) →
  c_data (g (a_core a i)) = v' b →
  c_refcnt (g (a_core a i)) = Z.b2z (bool_decide (b ∈ P')) + 1 →
  (∀ b', b' ≠ b → v' b' = v b') → (∀ b', b' ≠ b → b' ∈ P' ↔ b' ∈ P) →
  T' ⊆ {[b]} ∪ T →
  (∀ b', b' ∉ P' → b' ∉ T' → v' b' = dread d b') →
  length (v' b) = BLK →
  wp (a_set i g) a (λ _ a', arep a' v' P' H T' d).
Proof.
  intros Ha Hh Hg Hdg Hrg Hv HP HT Hcl Hlen.
  destruct (arep_locked _ _ _ _ _ _ _ _ Ha Hh) as (Hi & Hk & Hva & Hda & Hl & Hr).
  destruct (Hg (a_core a i)) as (Hgd & Hgb & Hgv & Hgl).
  pose proof Hk as [Hkd Hkb]%key_is_spec.
  unfold a_set. wp_step. rewrite (ar_disk Ha).
  eapply (arep_same _ _ _ _ _ _ i b); try done.
  - apply key_is_spec. by rewrite Hgd, Hgb.
  - apply (ar_order Ha).
  - rewrite Hh. split_and!; congruence.
  - intros b' Hb'. destruct (decide (b' = b)) as [->|]; [by exists i|].
    apply (ar_dirty Ha). set_solver.
Qed.

Lemma a_bpin_spec a v P H T d i b :
  arep a v P H T d → H !! i = Some b → b ∉ P →
  wp (a_bpin i) a (λ _ a', arep a' v ({[b]} ∪ P) H (T ∖ {[b]}) d).
Proof.
  intros Ha Hh HbP. destruct (arep_locked _ _ _ _ _ _ _ _ Ha Hh) as (Hi & Hk & Hva & Hda & Hl & Hr).
  eapply a_set_locked; try done.
  - cbn. rewrite Hr, !bool_decide_eq_false_2, bool_decide_eq_true_2 by set_solver. done.
  - set_solver.
  - set_solver.
  - intros b' ??. apply (ar_clean Ha); set_solver.
  - apply (ar_length Ha).
Qed.

Lemma a_bunpin_spec a v P H T d i b :
  arep a v P H T d → H !! i = Some b → b ∈ P → v b = dread d b →
  wp (a_bunpin i) a (λ _ a', arep a' v (P ∖ {[b]}) H T d).
Proof.
  intros Ha Hh HbP Hb. destruct (arep_locked _ _ _ _ _ _ _ _ Ha Hh) as (Hi & Hk & Hva & Hda & Hl & Hr).
  eapply a_set_locked; try done.
  - cbn. rewrite Hr, bool_decide_eq_true_2, bool_decide_eq_false_2 by set_solver. done.
  - set_solver.
  - set_solver.
  - intros b' ??. destruct (decide (b' = b)) as [->|]; [done|].
    apply (ar_clean Ha); set_solver.
  - apply (ar_length Ha).
Qed.

Lemma a_setdata_spec a v P H T d i b x :
  arep a v P H T d → H !! i = Some b → length x = BLK →
  wp (a_set i (cset_data x)) a (λ _ a', arep a' (<[b := x]> v) P H ({[b]} ∪ T) d).
Proof.
  intros Ha Hh Hx. destruct (arep_locked _ _ _ _ _ _ _ _ Ha Hh) as (Hi & Hk & Hva & Hda & Hl & Hr).
  eapply a_set_locked; try done.
  - by rewrite fn_lookup_insert.
  - intros. by rewrite fn_lookup_insert_ne.
  - intros b' ??. rewrite fn_lookup_insert_ne by set_solver.
    apply (ar_clean Ha); set_solver.
  - by rewrite fn_lookup_insert.
Qed.

(** Every buffer in use caches a pinned or locked block of its own. *)
Lemma in_use_bound a v P H T d :
  arep a v P H T d → (∀ i, (i < NBUF)%nat → unused (a_core a i) = false) →
  (NBUF ≤ size (P ∪ map_img H))%nat.
Proof.
  intros Ha Hall.
  assert (∀ i, (i < NBUF)%nat → c_dev (a_core a i) = dev ∧
            c_blockno (a_core a i) ∈ P ∪ map_img H) as Hin.
  { intros i Hi. specialize (Hall i Hi). apply Z.eqb_neq in Hall.
    destruct (ar_buf Ha i Hi) as [[(_ & ? & _) _]|(Hd & _ & _ & Hc)]; [done|].
    split; [done|]. destruct (H !! i) eqn:E.
    - destruct Hc as [-> _]. apply elem_of_union_r. by eapply elem_of_map_img_2.
    - destruct Hc as [_ Hr]. case_bool_decide; [set_solver|by rewrite Hr in Hall]. }
  set (l := (λ i, c_blockno (a_core a i)) <$> seq 0 NBUF).
  assert (NoDup l) as Hnd.
  { apply NoDup_fmap_2_strong; [|apply NoDup_seq]. intros i j Hi Hj.
    apply elem_of_seq in Hi, Hj. apply (ar_uniq Ha); try lia; apply Hin; lia. }
  replace NBUF with (size (list_to_set l : gset Z)).
  - apply subseteq_size. intros b. rewrite elem_of_list_to_set. unfold l.
    intros (i & -> & Hi)%list_elem_of_fmap. apply elem_of_seq in Hi. apply Hin. lia.
  - rewrite size_list_to_set by done. unfold l. by rewrite length_fmap, length_seq.
Qed.

Lemma find_unused a v P H T d :
  arep a v P H T d → (size (P ∪ map_img H) < NBUF)%nat →
  ∃ i, find (λ i, unused (a_core a i)) (rev (a_order a)) = Some i ∧
       (i < NBUF)%nat ∧ unused (a_core a i) = true.
Proof.
  intros Ha Hsz. destruct (find _ _) as [i|] eqn:E.
  - apply find_in in E as [Hin ?]. exists i. split_and!; try done.
    rewrite rev_reverse, elem_of_reverse, (ar_order Ha), elem_of_seq in Hin. lia.
  - exfalso.
    assert (NBUF ≤ size (P ∪ map_img H))%nat; [|lia].
    eapply in_use_bound; [done|]. intros i Hi.
    apply (find_none _ _ E). rewrite <-in_rev, <-list_elem_of_In, (ar_order Ha), elem_of_seq. lia.
Qed.

(** An unused buffer holds no lock and caches no pinned block. *)
Lemma unused_free a v P H T d i :
  arep a v P H T d → (i < NBUF)%nat → unused (a_core a i) = true →
  H !! i = None ∧ sl_locked (c_lock (a_core a i)) = 0 ∧
  (c_dev (a_core a i) = dev → c_blockno (a_core a i) ∉ P).
Proof.
  intros Ha Hi Hu%Z.eqb_eq. destruct (ar_buf Ha i Hi) as [[(Hd & _ & ?) ?]|(Hd & _ & _ & Hc)].
  - split_and!; [done..|]. intros Hd'. by destruct (ar_dev Ha); rewrite <-Hd'.
  - destruct (H !! i).
    + destruct Hc as (_ & _ & Hr). destruct (bool_decide _); cbn in Hr; lia.
    + destruct Hc as [? Hr]. split_and!; [done..|]. intros _. case_bool_decide; [|done].
      cbn in Hr. lia.
Qed.

Lemma arep_recycle a v P H T d i b c' :
  arep a v P H T d → (i < NBUF)%nat → unused (a_core a i) = true →
  (∀ j, (j < NBUF)%nat → key_is dev b (a_core a j) = false) →
  c_dev c' = dev → c_blockno c' = b → c_valid c' ≠ 0 → c_data c' = dread d b →
  c_lock c' = SleepLock 1 me → c_refcnt c' = 1 → b ∉ (map_img H : gset Z) →
  arep (ACache (a_order a) (<[i := c']> (a_core a)) d) v P (<[i := b]> H) T d.
Proof.
  intros Ha Hi Hu Hnk Hd' Hb' Hv' Hda' Hl' Hr' HbH.
  destruct (unused_free _ _ _ _ _ _ _ Ha Hi Hu) as (HiH & _ & HiP).
  assert (b ∉ P) as HbP.
  { intros (j & Hj & Hk)%(ar_pinned Ha). by rewrite Hnk in Hk. }
  assert (b ∉ T) as HbT.
  { intros [j Hj]%(ar_dirty Ha). apply HbH. by eapply elem_of_map_img_2. }
  assert (∀ j, (j < NBUF)%nat → c_dev (a_core a j) = dev → c_blockno (a_core a j) ≠ b) as Hoth.
  { intros j Hj ??. specialize (Hnk j Hj). rewrite (proj2 (key_is_spec _ _)) in Hnk; done. }
  split; cbn [a_order a_core a_dk]; try apply Ha; try done.
  - intros j Hj. destruct (decide (i = j)) as [<-|Hne].
    + rewrite fn_lookup_insert. right. unfold caches. rewrite lookup_insert_eq, Hb'.
      split_and!; try done; [by rewrite Hda', (ar_clean Ha)|].
      by rewrite bool_decide_eq_false_2.
    + rewrite fn_lookup_insert_ne by done. unfold buf_ok, caches.
      rewrite lookup_insert_ne by done. by apply (ar_buf Ha).
  - intros j b2. destruct (decide (i = j)) as [<-|]; [done|].
    rewrite lookup_insert_ne by done. apply (ar_held Ha).
  - intros j k Hj Hk.
    destruct (decide (i = j)) as [<-|], (decide (i = k)) as [<-|];
      rewrite ?fn_lookup_insert, ?fn_lookup_insert_ne by done; intros Hdj Hdk Hjk; try done.
    + destruct (Hoth k); congruence.
    + destruct (Hoth j); congruence.
    + by apply (ar_uniq Ha).
  - intros b2 Hb2. destruct (ar_pinned Ha b2 Hb2) as (j & Hj & Hk). exists j.
    split; [done|]. rewrite fn_lookup_insert_ne; [done|]. intros <-.
    apply key_is_spec in Hk as [? <-]. by apply HiP.
  - intros b2 Hb2. destruct (ar_dirty Ha b2 Hb2) as [j Hj]. exists j.
    rewrite lookup_insert_ne; [done|]. intros <-. congruence.
Qed.

Lemma bread_hit a v P H T d b i :
  arep a v P H T d → b ∉ (map_img H : gset Z) →
  (i < NBUF)%nat → key_is dev b (a_core a i) = true →
  let c := a_core a i in
  H !! i = None ∧ sl_locked (c_lock c) = 0 ∧ c_valid c ≠ 0 ∧
  arep (ACache (a_order a)
          (<[i := cset_lock (SleepLock 1 me) (cset_refcnt (u32 (c_refcnt c + 1)) c)]> (a_core a)) d)
       v P (<[i := b]> H) T d.
Proof.
  intros Ha Hb Hi Hk c. destruct (arep_keyed _ _ _ _ _ _ _ _ Ha Hi Hk) as [(Hd & Hv & Hda & Hc) Hbn].
  assert (H !! i = None) as HiH.
  { destruct (H !! i) as [b'|] eqn:E; [|done]. destruct Hc as [-> _].
    exfalso. apply Hb. rewrite <-Hbn. by eapply elem_of_map_img_2. }
  rewrite HiH in Hc. destruct Hc as [Hl Hr]. split_and!; [done..|].
  eapply (arep_same _ _ _ _ _ _ i b); try done.
  - apply (ar_order Ha).
  - rewrite lookup_insert_eq. split_and!; try done.
    cbn [c_refcnt cset_refcnt cset_lock]. subst c. rewrite Hr. by destruct (bool_decide _).
  - intros. by rewrite lookup_insert_ne.
  - intros b' Hb'. destruct (ar_dirty Ha b' Hb') as [j Hj]. exists j.
    rewrite lookup_insert_ne; [done|]. congruence.
  - apply (ar_clean Ha).
  - apply (ar_length Ha).
Qed.

Lemma a_bread_spec a v P H T d b :
  arep a v P H T d → b ∉ (map_img H : gset Z) →
  b ∈ P ∨ (size (P ∪ map_img H) < NBUF)%nat →
  wp (a_bread me dev b) a (λ i a', H !! i = None ∧ arep a' v P (<[i := b]> H) T d).
Proof.
  intros Ha Hb Hroom. unfold a_bread, a_bget. wp_steps.
  destruct (find _ (a_order a)) as [i|] eqn:E.
  - apply find_in in E as [Hin Hk]. rewrite (ar_order Ha), elem_of_seq in Hin.
    destruct (bread_hit _ _ _ _ _ _ b i Ha Hb ltac:(lia) Hk) as (? & Hl & Hv & Ha').
    unfold a_set, a_on_lock, a_get. wp_steps. cbn [a_core a_order a_dk].
    rewrite fn_lookup_insert. apply wp_acquiresleep; [done|]. wp_steps.
    cbn [a_core]. rewrite fn_lookup_insert.
    change (c_valid _) with (c_valid (a_core a i)). rewrite (proj2 (Z.eqb_neq _ _)) by done.
    cbn [mwhen]. wp_steps. split; [done|]. rewrite (ar_disk Ha).
    eapply arep_ext; [| | |done]; try done. cbn [a_core]. intros j.
    destruct (decide (i = j)) as [<-|];
      rewrite ?fn_lookup_insert, ?fn_lookup_insert_ne by done; done.
  - assert (∀ j, (j < NBUF)%nat → key_is dev b (a_core a j) = false) as Hnk.
    { intros j Hj. apply (find_none _ _ E).
      rewrite <-list_elem_of_In, (ar_order Ha), elem_of_seq. lia. }
    assert (size (P ∪ map_img H) < NBUF)%nat as Hsz.
    { destruct Hroom as [(j & ? & Hk)%(ar_pinned Ha)|]; [|done]. by rewrite Hnk in Hk. }
    destruct (find_unused _ _ _ _ _ _ Ha Hsz) as (i & -> & Hi & Hu).
    destruct (unused_free _ _ _ _ _ _ _ Ha Hi Hu) as (HiH & Hl & _).
    unfold a_set, a_on_lock, a_get, a_disk_rw. wp_steps. cbn [a_core a_order a_dk].
    rewrite fn_lookup_insert. apply wp_acquiresleep; [done|]. wp_steps.
    cbn [a_core]. rewrite fn_lookup_insert. cbn [c_valid cset_lock cset_refcnt cset_valid Z.eqb mwhen].
    unfold a_set, a_get. wp_steps. split; [done|]. cbn [a_core a_order a_dk].
    rewrite !fn_lookup_insert, (ar_disk Ha).
    eapply arep_ext; [| | |apply (arep_recycle a v P H T d i b
      (BCore 1 (c_disk (a_core a i)) dev b (SleepLock 1 me) 1 (dread d b)))]; try done.
    cbn [a_core]. intros j.
    destruct (decide (i = j)) as [<-|];
      rewrite ?fn_lookup_insert, ?fn_lookup_insert_ne by done; done.
Qed.
End invariant.

Section instances.
Context {D : Type} `{HD : DiskDev D} `{HL : !DiskLaws D} (dev me : Z).

#[export] Instance acache_spec : BufSpec (acache D) D dev me.
Proof.
  refine {| brep := arep dev me |}.
  - intros. by eapply ar_length.
  - intros. by eapply ar_clean.
  - intros s v P H T d i j b Ha Hi Hj.
    destruct (arep_locked _ _ _ _ _ _ _ _ _ _ Ha Hi) as (? & Hk & _).
    destruct (arep_locked _ _ _ _ _ _ _ _ _ _ Ha Hj) as (? & Hk' & _).
    apply key_is_spec in Hk as [??], Hk' as [??]. eapply ar_uniq; [done..|congruence].
  - intros s v P H T d b [] ?. split; try done; set_solver.
  - apply a_bread_spec.
  - apply a_bwrite_spec.
  - apply a_brelse_spec.
  - apply a_bpin_spec.
  - apply a_bunpin_spec.
  - intros s v P H T d i b Ha Hi.
    destruct (arep_locked _ _ _ _ _ _ _ _ _ _ Ha Hi) as (? & Hk & _).
    apply key_is_spec in Hk as [_ ?]. cbn. unfold a_get. by wp_steps.
  - intros s v P H T d i b Ha Hi.
    destruct (arep_locked _ _ _ _ _ _ _ _ _ _ Ha Hi) as (? & _ & _ & ? & _).
    cbn. unfold a_get. by wp_steps.
  - intros. by eapply a_setdata_spec.
Defined.

Definition bio_rep (s : bstate D) (v : Z → block) (P : gset Z) (H : gmap nat Z)
    (T : gset Z) (d : D) : Prop :=
  ∃ a, bsim s a ∧ arep dev me a v P H T d.

Lemma bio_get s v P H T d i b :
  bio_rep s v P H T d → H !! i = Some b →
  wp (bufget i) s (λ x s', b_blockno x = b ∧ b_data x = v b ∧ s' = s).
Proof.
  intros (a & (nx & pv & Hr & _) & Ha) Hi.
  destruct (arep_locked _ _ _ _ _ _ _ _ _ _ Ha Hi) as (? & Hk & _ & ? & _).
  apply key_is_spec in Hk as [_ ?]. eapply wp_bufget; [done|lia|done].
Qed.

#[export] Instance bio_spec : BufSpec (bstate D) D dev me.
Proof.
  refine {| brep := bio_rep |}.
  - intros s v P H T d b (a & _ & Ha). by eapply ar_length.
  - intros s v P H T d b (a & _ & Ha). by eapply ar_clean.
  - intros s v P H T d i j b (a & _ & Ha). by apply (brep_inj (BufSpec := acache_spec) a v P H T d).
  - intros s v P H T d b (a & Hs & Ha) ?. exists a. split; [done|].
    by apply (brep_saved (BufSpec := acache_spec)).
  - intros s v P H T d b (a & Hs & Ha) ??. eapply wp_mono.
    { eapply wp_osim; [by apply bread_refines|by eapply a_bread_spec]. }
    intros i s' (a' & ? & ? & ?). split; [done|by exists a'].
  - intros s v P H T d i b (a & Hs & Ha) Hi. pose proof (ar_held _ _ _ _ _ _ _ _ Ha _ _ Hi).
    eapply wp_mono; [eapply wp_osim; [by apply bwrite_refines|by eapply a_bwrite_spec]|done].
  - intros s v P H T d i b (a & Hs & Ha) Hi ?. pose proof (ar_held _ _ _ _ _ _ _ _ Ha _ _ Hi).
    eapply wp_mono; [eapply wp_osim; [by apply brelse_refines|by eapply a_brelse_spec]|done].
  - intros s v P H T d i b (a & Hs & Ha) Hi ?. pose proof (ar_held _ _ _ _ _ _ _ _ Ha _ _ Hi).
    eapply wp_mono; [eapply wp_osim; [by apply bpin_refines|by eapply a_bpin_spec]|done].
  - intros s v P H T d i b (a & Hs & Ha) Hi ??. pose proof (ar_held _ _ _ _ _ _ _ _ Ha _ _ Hi).
    eapply wp_mono; [eapply wp_osim; [by apply bunpin_refines|by eapply a_bunpin_spec]|done].
  - intros s v P H T d i b Hs Hi. cbn. wp_step. eapply wp_mono; [by eapply bio_get|].
    intros x s' (? & ? & ->). by wp_step.
  - intros s v P H T d i b Hs Hi. cbn. wp_step. eapply wp_mono; [by eapply bio_get|].
    intros x s' (? & ? & ->). by wp_step.
  - intros s v P H T d i b x (a & Hs & Ha) Hi Hx. pose proof (ar_held _ _ _ _ _ _ _ _ Ha _ _ Hi).
    eapply wp_mono; [eapply wp_osim; [by apply (sim_bufset s a i _ (cset_data x))|by eapply a_setdata_spec]|done].
Defined.

Lemma bio_rep_disk s v P H T d : brep (BufSpec := bio_spec) s v P H T d → dk s = d.
Proof. intros (a & (nx & pv & _ & _ & Hd) & Ha). rewrite Hd. by apply (ar_disk _ _ _ _ _ _ _ _ Ha). Qed.

Lemma acache0_arep (d : D) : dev ≠ 0 → arep dev me (acache0 d) (dread d) ∅ ∅ ∅ d.
Proof.
  intros Hdev. split; cbn [a_order a_core a_dk acache0]; try done.
  - by rewrite rev_reverse, reverse_Permutation.
  - intros i _. left. split; [done|apply lookup_empty].
  - apply dread_length.
Qed.

(** After [binit] the cache is empty: every block reads as the disk has it. *)
Lemma binit_rep (d : D) : dev ≠ 0 →
  wp binit (bcache0 d) (λ _ s, brep s (dread d) ∅ ∅ ∅ d).
Proof.
  intros Hdev. eapply wp_mono; [apply binit_spec|]. intros [] s Hs.
  exists (acache0 d). split; [done|by apply acache0_arep].
Qed.
End instances.

(** C5: kernel/bio.c implements a least-recently-used cache. While the linked
    list represents the order of [acache] ([bsim]), every operation of the
    buffer cache does what its specification on that order does: same result,
    same panic or sleep, and again related states. *)
Theorem bio_refines_lru `{DiskDev D} (s : bstate D) (a : acache D) (me : Z) :
  bsim s a →
  (∀ dev bno, osim bsim (bread me dev bno s) (a_bread me dev bno a)) ∧
  ∀ i, (i < NBUF)%nat →
    osim bsim (bwrite me i s) (a_bwrite me i a) ∧
    osim bsim (brelse me i s) (a_brelse me i a) ∧
    osim bsim (bpin i s) (a_bpin i a) ∧
    osim bsim (bunpin i s) (a_bunpin i a).
Proof.
  intros Hs. split; [intros; by apply bread_refines|]. intros i Hi. split_and!.
  - by apply bwrite_refines.
  - by apply brelse_refines.
  - by apply bpin_refines.
  - by apply bunpin_refines.
Qed.

(** Reading block 7 through the cache that [binit] sets up. *)
Lemma bio_refines_lru_witness : ∃ s : bstate block_map,
  binit (bcache0 ∅) = Ret tt s ∧
  osim bsim (bread 1 1 7 s) (a_bread 1 1 7 (acache0 ∅)).
Proof.
  destruct (proj1 (wp_Ret _ _ _) (binit_spec (∅ : block_map))) as ([] & s & Hr & Hs).
  exists s. split; [exact Hr|]. apply (bio_refines_lru s (acache0 ∅) 1 Hs).
Defined.
