(* ===== verification/Log.v ===== *)
(** * The log: kernel/log.c

    The on-disk redo log. Written against the buffer-cache interface; [S] is the
    state of the cache. [log.lock] makes its critical sections atomic, and
    [me] is the calling process. *)
From Stdlib Require Import ZArith Lia.
From stdpp Require Import prelude functions strings.
From S2P Require Import Prelude Bytes Param BufIface.

Record logheader := LogHeader { lh_n : Z; lh_block : list Z }.

Record log := Log {
  l_start : Z;
  l_size : Z;
  l_outstanding : Z;
  l_committing : Z;
  l_dev : Z;
  l_lh : logheader
}.

Definition zero_log : log := Log 0 0 0 0 0 (LogHeader 0 (replicate (Z.to_nat LOGSIZE) 0)).

Record lstate (S : Type) := LState { l_buf : S; l_log : log }.
Arguments LState {S} _ _.
Arguments l_buf {S} _.
Arguments l_log {S} _.

(** Field updates of [struct log]. *)
Definition lset_n (n : Z) (l : log) : log :=
  Log (l_start l) (l_size l) (l_outstanding l) (l_committing l) (l_dev l)
      (LogHeader n (lh_block (l_lh l))).
Definition lset_block (i : nat) (b : Z) (l : log) : log :=
  Log (l_start l) (l_size l) (l_outstanding l) (l_committing l) (l_dev l)
      (LogHeader (lh_n (l_lh l)) (<[i := b]> (lh_block (l_lh l)))).
Definition lset_outstanding (o : Z) (l : log) : log :=
  Log (l_start l) (l_size l) o (l_committing l) (l_dev l) (l_lh l).
Definition lset_committing (c : Z) (l : log) : log :=
  Log (l_start l) (l_size l) (l_outstanding l) c (l_dev l) (l_lh l).

(** Offsets in the header block: [int n; int block[LOGSIZE]]. *)
Definition hdr_n : nat := 0.
Definition hdr_block (i : nat) : nat := 4 + 4 * i.
Definition sizeof_logheader : Z := 4 + 4 * LOGSIZE.

Definition logchan : chan := Chan "log" 0.

Section log_code.
Context {S : Type} `{BufOps S} (me : Z).
Abbreviation LM := (M (lstate S)).

(** A buffer-cache call. *)
Definition onb {A} (m : M S A) : LM A := lift l_buf (λ b s, LState b (l_log s)) m.

Definition getlog : LM log := gets l_log.
Definition setlog (f : log → log) : LM unit := modify (λ s, LState (l_buf s) (f (l_log s))).

(** [log.lh.block[i]] and [log.lh.block[i] = b]; outside the array the C
    program leaves the object. *)
Definition getblock (i : nat) : LM Z := l ← getlog; mnth (lh_block (l_lh l) !! i).
Definition setblock (i : nat) (b : Z) : LM unit :=
  getblock i ;; setlog (lset_block i b).

Definition install_one (recovering : bool) (tail : nat) : LM unit :=
  l ← getlog;
  lbuf ← onb (op_bread me (u32 (l_dev l)) (u32 (l_start l + Z.of_nat tail + 1)));
  dst ← getblock tail;
  dbuf ← onb (op_bread me (u32 (l_dev l)) (u32 dst));
  d ← onb (op_data lbuf);
  onb (op_setdata dbuf d) ;;
  onb (op_bwrite me dbuf) ;;
  mwhen (negb recovering) (onb (op_bunpin dbuf)) ;;
  onb (op_brelse me lbuf) ;;
  onb (op_brelse me dbuf).

Definition install_trans (recovering : bool) : LM unit :=
  l ← getlog;
  mfor (seq 0 (Z.to_nat (lh_n (l_lh l)))) (install_one recovering).

Definition read_head : LM unit :=
  l ← getlog;
  buf ← onb (op_bread me (u32 (l_dev l)) (u32 (l_start l)));
  d ← onb (op_data buf);
  setlog (lset_n (s32 (get32 d hdr_n))) ;;
  mfor (seq 0 (Z.to_nat (s32 (get32 d hdr_n)))) (λ i,
    d ← onb (op_data buf);
    setblock i (s32 (get32 d (hdr_block i)))) ;;
  onb (op_brelse me buf).

Definition write_head : LM unit :=
  l ← getlog;
  buf ← onb (op_bread me (u32 (l_dev l)) (u32 (l_start l)));
  d ← onb (op_data buf);
  onb (op_setdata buf (put32 d hdr_n (lh_n (l_lh l)))) ;;
  mfor (seq 0 (Z.to_nat (lh_n (l_lh l)))) (λ i,
    b ← getblock i;
    d ← onb (op_data buf);
    onb (op_setdata buf (put32 d (hdr_block i) b))) ;;
  onb (op_bwrite me buf) ;;
  onb (op_brelse me buf).

Definition recover_from_log : LM unit :=
  read_head ;;
  install_trans true ;;
  setlog (lset_n 0) ;;
  write_head.

Definition initlog (dev : Z) (sb : superblock) : LM unit :=
  if sizeof_logheader >=? BSIZE then panic "initlog: too big logheader" else
  setlog (λ l, Log (s32 (sb_logstart sb)) (s32 (sb_nlog sb)) (l_outstanding l)
                   (l_committing l) dev (l_lh l)) ;;
  recover_from_log.

(** One pass of [begin_op]'s loop: a process that has to wait sleeps on
    [&log] and starts the pass again when it is woken. *)
Definition begin_op : LM unit :=
  l ← getlog;
  if negb (l_committing l =? 0) then msleep logchan
  else if lh_n (l_lh l) + (l_outstanding l + 1) * MAXOPBLOCKS >? LOGSIZE
  then msleep logchan
  else setlog (lset_outstanding (s32 (l_outstanding l + 1))).

Definition write_log_one (tail : nat) : LM unit :=
  l ← getlog;
  to ← onb (op_bread me (u32 (l_dev l)) (u32 (l_start l + Z.of_nat tail + 1)));
  src ← getblock tail;
  from ← onb (op_bread me (u32 (l_dev l)) (u32 src));
  d ← onb (op_data from);
  onb (op_setdata to d) ;;
  onb (op_bwrite me to) ;;
  onb (op_brelse me from) ;;
  onb (op_brelse me to).

Definition write_log : LM unit :=
  l ← getlog;
  mfor (seq 0 (Z.to_nat (lh_n (l_lh l)))) write_log_one.

Definition commit : LM unit :=
  l ← getlog;
  if lh_n (l_lh l) >? 0 then
    write_log ;;
    write_head ;;
    install_trans false ;;
    setlog (lset_n 0) ;;
    write_head
  else mret tt.

(** The first critical section of [end_op]: [do_commit]. *)
Definition end_op_leave : LM bool :=
  l ← getlog;
  setlog (lset_outstanding (s32 (l_outstanding l - 1))) ;;
  l ← getlog;
  if negb (l_committing l =? 0) then panic "log.committing" else
  if l_outstanding l =? 0
  then setlog (lset_committing 1) ;; mret true
  else mret false.

Definition end_op_commit : LM unit :=
  commit ;;
  setlog (lset_committing 0).

Definition end_op : LM unit :=
  do_commit ← end_op_leave;
  mwhen do_commit end_op_commit.

(** The search loop of [log_write]: the first [i < n] with
    [block[i] == b->blockno], else [n]. *)
Definition absorb_index (l : log) (bno : Z) : nat :=
  let n := Z.to_nat (lh_n (l_lh l)) in
  match list_find (λ x, u32 x = bno) (take n (lh_block (l_lh l))) with
  | Some (i, _) => i
  | None => n
  end.

Definition log_write (b : nat) : LM unit :=
  l ← getlog;
  if (lh_n (l_lh l) >=? LOGSIZE) || (lh_n (l_lh l) >=? l_size l - 1)
  then panic "too big a transaction" else
  if l_outstanding l <? 1 then panic "log_write outside of trans" else
  bno ← onb (op_blockno b);
  let i := absorb_index l bno in
  setblock i (s32 bno) ;;
  if Z.of_nat i =? lh_n (l_lh l)
  then onb (op_bpin b) ;; setlog (lset_n (lh_n (l_lh l) + 1))
  else mret tt.
End log_code.
