(* ===== verification/LogSpec.v ===== *)
(** * The log is atomic: specifications of kernel/log.c

    What each function of the log does to the disk, proved against the
    buffer-cache interface, and [replay], the contents of the file system that
    a disk stands for once recovery has run. *)
From Stdlib Require Import ZArith Lia.
From stdpp Require Import prelude functions strings gmap.
From S2P Require Import Prelude Bytes Param BufIface Log.

(** ** The header block and recovery *)

(** The block numbers a header block lists. *)
Definition disk_lh (x : block) : list Z :=
  (λ i, s32 (get32 x (hdr_block i))) <$> seq 0 (Z.to_nat (s32 (get32 x hdr_n))).

Definition log_slot (start : Z) (i : nat) : Z := start + Z.of_nat i + 1.

(** The position of a block in the log. *)
Definition log_index (L : list Z) (b : Z) : option nat := fst <$> list_find (λ x, x = b) L.

(** The contents a disk stands for: a committed block is the one in the log. *)
Definition replay `{DiskDev D} (start : Z) (d : D) (b : Z) : block :=
  match log_index (disk_lh (dread d start)) b with
  | Some i => dread d (log_slot start i)
  | None => dread d b
  end.

(** The log: the header block and the [LOGSIZE - 1] slots that [mkfs] leaves
    for it ([nlog = LOGSIZE]). *)
Definition in_log (start b : Z) : Prop := start ≤ b < start + LOGSIZE.

(** A header the log can have written: different blocks, one per slot at most,
    none of them in the log itself. *)
Definition lh_ok (start : Z) (L : list Z) : Prop :=
  NoDup L ∧ Z.of_nat (length L) < LOGSIZE ∧
  ∀ b, b ∈ L → 0 ≤ b < 2147483648 ∧ ¬ in_log start b.

Lemma log_index_Some L b i : NoDup L → log_index L b = Some i ↔ L !! i = Some b.
Proof.
  intros Hnd. unfold log_index. rewrite fmap_Some. split.
  - intros ([j x] & (? & ? & _)%list_find_Some & ->). by subst x.
  - intros Hi. exists (i, b). split; [|done]. apply list_find_Some. split_and!; [done..|].
    intros j y Hj Hlt ->. assert (i = j) by (by eapply NoDup_lookup). lia.
Qed.

Lemma log_index_None L b : log_index L b = None ↔ b ∉ L.
Proof.
  unfold log_index. rewrite fmap_None, list_find_None, Forall_forall. naive_solver.
Qed.

(** ** The functions of the log *)

Lemma held_one (i : nat) (b : Z) : delete i (<[i := b]> (∅ : gmap nat Z)) = ∅.
Proof. by rewrite delete_insert_id by apply lookup_empty. Qed.

Lemma held_two (i j : nat) (a b : Z) :
  i ≠ j → delete j (delete i (<[j := b]> (<[i := a]> (∅ : gmap nat Z)))) = ∅.
Proof.
  intros Hij. rewrite delete_insert_ne by done. rewrite held_one. apply held_one.
Qed.

Lemma img_one (i : nat) (b : Z) : (map_img (<[i := b]> (∅ : gmap nat Z)) : gset Z) = {[b]}.
Proof. rewrite insert_empty. apply map_img_singleton_L. Qed.

Lemma img_none : (map_img (∅ : gmap nat Z) : gset Z) = ∅.
Proof. apply map_img_empty_L. Qed.

Lemma wp_onb {S A} (m : M S A) (st : lstate S) (Q : A → lstate S → Prop) :
  wp m (l_buf st) (λ a s, Q a (LState s (l_log st))) → wp (onb m) st Q.
Proof. intros. unfold onb. by apply wp_lift. Qed.

(** A buffer-cache call whose specification is [lem]. *)
Ltac buf_step lem := wp_step; apply wp_onb; eapply wp_mono; [by eapply lem|].

Section log_proofs.
Context {S D : Type} `{OB : BufOps S} `{HD : DiskDev D} `{HL : !DiskLaws D}.
Context (dev me : Z) `{BS : !BufSpec S D dev me} (start : Z).
Context (Hstart : 0 ≤ start ∧ start + LOGSIZE < 2147483648).
Implicit Types (st : lstate S) (l : log) (L : list Z) (v : Z → block) (P : gset Z) (d : D).

(** [log.lh] lists the blocks [L]. *)
Definition log_is (l : log) (L : list Z) : Prop :=
  u32 (l_dev l) = dev ∧ l_start l = start ∧ Z.of_nat (length (lh_block (l_lh l))) = LOGSIZE ∧
  lh_n (l_lh l) = Z.of_nat (length L) ∧ take (length L) (lh_block (l_lh l)) = L.

Lemma log_is_block l L i b :
  log_is l L → L !! i = Some b → lh_block (l_lh l) !! i = Some b.
Proof.
  intros (_ & _ & _ & _ & HL') Hi. rewrite <-HL' in Hi.
  by apply lookup_take_Some in Hi as [? _].
Qed.

Lemma log_slot_u32 l L i b :
  log_is l L → lh_ok start L → L !! i = Some b →
  u32 (l_start l + Z.of_nat i + 1) = log_slot start i ∧ in_log start (log_slot start i) ∧
  log_slot start i ≠ start.
Proof.
  intros (_ & -> & _) (_ & Hlen & _) Hi%lookup_lt_Some.
  unfold log_slot, in_log. rewrite u32_small; lia.
Qed.

Lemma log_slot_inj i j : log_slot start i = log_slot start j → i = j.
Proof. unfold log_slot. lia. Qed.

Lemma wp_getblock st L i b (Q : Z → lstate S → Prop) :
  log_is (l_log st) L → L !! i = Some b → Q b st → wp (getblock i) st Q.
Proof.
  intros Hl Hi HQ. unfold getblock, getlog. wp_steps.
  eapply wp_mnth; [by eapply log_is_block|done].
Qed.

Lemma lh_ok_block L i b :
  lh_ok start L → L !! i = Some b →
  u32 b = b ∧ s32 b = b ∧ b ≠ start ∧ ∀ j c, L !! j = Some c → b ≠ log_slot start j.
Proof.
  intros (_ & Hlen & Hb) Hi. destruct (Hb b) as [? Hn]; [by eapply list_elem_of_lookup_2|].
  unfold in_log, log_slot in *.
  split_and!; [by apply u32_small; lia|by apply s32_small; lia|lia|].
  intros j c Hj%lookup_lt_Some. lia.
Qed.

Lemma install_one_spec (recovering : bool) st L v P d i b :
  log_is (l_log st) L → lh_ok start L → L !! i = Some b →
  brep (l_buf st) v P ∅ ∅ d →
  log_slot start i ∉ P →
  (if recovering then P = ∅ else b ∈ P ∧ (size P < NBUF)%nat) →
  wp (install_one me recovering i) st (λ _ st', l_log st' = l_log st ∧
    ∃ v', brep (l_buf st') v' (if recovering then ∅ else P ∖ {[b]}) ∅ ∅
               (dwrite d b (dread d (log_slot start i))) ∧
          ∀ b', b' ≠ b → v' b' = v b').
Proof.
  intros Hl Hok Hi Hb Hs HP. pose proof Hl as (Hdev & _).
  destruct (log_slot_u32 _ _ _ _ Hl Hok Hi) as (Hu & _ & _).
  destruct (lh_ok_block _ _ _ Hok Hi) as (Hub & _ & _ & Hne). specialize (Hne i b Hi).
  pose proof (brep_length _ _ _ _ _ _ (log_slot start i) Hb) as Hlen.
  pose proof (brep_clean _ _ _ _ _ _ (log_slot start i) Hb Hs ltac:(set_solver)) as Hclean.
  assert (size P < NBUF)%nat as Hsz.
  { destruct recovering; [subst P; rewrite size_empty; cbv; lia|tauto]. }
  unfold install_one, getlog. wp_steps. rewrite Hdev, Hu. apply wp_onb.
  eapply wp_mono; [eapply (spec_bread _ v P ∅); [done|rewrite img_none; set_solver|]|].
  { right. rewrite img_none, union_empty_r_L. done. }
  intros li s1 [_ Hb1]. wp_step. eapply wp_getblock; [done..|]. rewrite Hub. wp_steps. apply wp_onb.
  eapply wp_mono; [eapply (spec_bread _ v P (<[li := log_slot start i]> ∅))|]; [done|..].
  { rewrite img_one. set_solver. }
  { destruct recovering; [right|left; tauto]. subst P.
    rewrite img_one, union_empty_l_L, size_singleton. cbv. lia. }
  intros di s2 [Hli Hb2]. cbn [l_log l_buf].
  assert (li ≠ di) as Hij by (intros ->; by rewrite lookup_insert_eq in Hli).
  set (H2 := <[di := b]> (<[li := log_slot start i]> (∅ : gmap nat Z))) in *.
  assert (H2 !! di = Some b) as Hdi by apply lookup_insert_eq.
  assert (H2 !! li = Some (log_slot start i)) as Hli2.
  { unfold H2. rewrite lookup_insert_ne by done. apply lookup_insert_eq. }
  buf_step spec_data. intros x s3 [-> ->]. buf_step spec_setdata. intros [] s4 Hb4.
  buf_step spec_bwrite. intros [] s5 Hb5.
  rewrite fn_lookup_insert, Hclean in Hb5. rewrite union_empty_r_L, difference_diag_L in Hb5.
  wp_step. eapply (wp_mono _ _ (λ _ st', l_log st' = l_log st ∧
    brep (l_buf st') (<[b := dread d (log_slot start i)]> v) (if recovering then ∅ else P ∖ {[b]}) H2 ∅
      (dwrite d b (dread d (log_slot start i))))).
  { destruct recovering; cbn [negb mwhen].
    - subst P. wp_step. done.
    - apply wp_onb. eapply wp_mono; [eapply spec_bunpin|]; [done..|tauto| |].
      + rewrite fn_lookup_insert, dread_dwrite_eq; [done|]. apply dread_length.
      + intros [] s6 ?. done. }
  intros [] st6 [Hl6 Hb6].
  buf_step spec_brelse. intros [] s7 Hb7.
  apply wp_onb. eapply wp_mono; [eapply (spec_brelse _ _ _ _ _ _ di b); [done| |set_solver]|].
  { by rewrite lookup_delete_ne. }
  intros [] s8 Hb8. unfold H2 in Hb8. rewrite held_two in Hb8 by done.
  split; [done|]. eexists. split; [done|]. intros b' Hb'. by rewrite fn_lookup_insert_ne.
Qed.

Lemma write_log_one_spec st L v P d i b :
  log_is (l_log st) L → lh_ok start L → L !! i = Some b →
  brep (l_buf st) v P ∅ ∅ d →
  log_slot start i ∉ P → b ∈ P → (size P < NBUF)%nat →
  wp (write_log_one me i) st (λ _ st', l_log st' = l_log st ∧
    brep (l_buf st') (<[log_slot start i := v b]> v) P ∅ ∅ (dwrite d (log_slot start i) (v b))).
Proof.
  intros Hl Hok Hi Hb Hs HP Hsz. pose proof Hl as (Hdev & _).
  destruct (log_slot_u32 _ _ _ _ Hl Hok Hi) as (Hu & _ & _).
  destruct (lh_ok_block _ _ _ Hok Hi) as (Hub & _ & _ & Hne). specialize (Hne i b Hi).
  pose proof (brep_length _ _ _ _ _ _ b Hb) as Hlen.
  unfold write_log_one, getlog. wp_steps. rewrite Hdev, Hu. apply wp_onb.
  eapply wp_mono; [eapply (spec_bread _ v P ∅); [done|rewrite img_none; set_solver|]|].
  { right. rewrite img_none, union_empty_r_L. done. }
  intros li s1 [_ Hb1]. wp_step. eapply wp_getblock; [done..|]. rewrite Hub. wp_steps. apply wp_onb.
  eapply wp_mono; [eapply (spec_bread _ v P (<[li := log_slot start i]> ∅))|];
    [done|rewrite img_one; set_solver|by left|].
  intros di s2 [Hli Hb2]. cbn [l_log l_buf].
  assert (li ≠ di) as Hij by (intros ->; by rewrite lookup_insert_eq in Hli).
  set (H2 := <[di := b]> (<[li := log_slot start i]> (∅ : gmap nat Z))) in *.
  assert (H2 !! di = Some b) as Hdi by apply lookup_insert_eq.
  assert (H2 !! li = Some (log_slot start i)) as Hli2.
  { unfold H2. rewrite lookup_insert_ne by done. apply lookup_insert_eq. }
  buf_step spec_data. intros x s3 [-> ->]. buf_step spec_setdata. intros [] s4 Hb4.
  buf_step spec_bwrite. intros [] s5 Hb5.
  rewrite fn_lookup_insert in Hb5. rewrite union_empty_r_L, difference_diag_L in Hb5.
  buf_step spec_brelse. intros [] s7 Hb7.
  apply wp_onb. eapply wp_mono; [eapply (spec_brelse _ _ _ _ _ _ li (log_slot start i)); [done| |set_solver]|].
  { by rewrite lookup_delete_ne. }
  intros [] s8 Hb8. unfold H2 in Hb8.
  rewrite delete_delete, held_two in Hb8 by done. done.
Qed.

Definition log_writes (L : list Z) (v : Z → block) : list (Z * block) :=
  imap (λ i b, (log_slot start i, v b)) L.
Definition home_writes (L : list Z) (d : D) : list (Z * block) :=
  imap (λ i b, (b, dread d (log_slot start i))) L.

Lemma home_writes_fst L d : (home_writes L d).*1 = L.
Proof.
  apply list_eq. intros i. unfold home_writes.
  rewrite list_lookup_fmap, list_lookup_imap. by destruct (L !! i).
Qed.

Lemma home_writes_full L d : full_blocks (home_writes L d).
Proof.
  intros b x [i Hi]%list_elem_of_lookup. unfold home_writes in Hi.
  rewrite list_lookup_imap in Hi. destruct (L !! i); [|done].
  injection Hi as _ <-. apply dread_length.
Qed.

Lemma log_writes_full L v : (∀ b, length (v b) = BLK) → full_blocks (log_writes L v).
Proof.
  intros Hv b x [i Hi]%list_elem_of_lookup. unfold log_writes in Hi.
  rewrite list_lookup_imap in Hi. destruct (L !! i); [|done]. by injection Hi as _ <-.
Qed.

Lemma lh_ok_lt L : lh_ok start L → (length L < NBUF)%nat.
Proof. intros (_ & Hlen & _). unfold LOGSIZE, MAXOPBLOCKS, NBUF in *. lia. Qed.

Lemma lh_ok_size L : lh_ok start L → size (list_to_set L : gset Z) = length L.
Proof. intros [? _]. by apply size_list_to_set. Qed.

Lemma write_log_spec st L v d :
  log_is (l_log st) L → lh_ok start L →
  brep (l_buf st) v (list_to_set L) ∅ ∅ d →
  wp (write_log me) st (λ _ st', l_log st' = l_log st ∧
    ∃ v', brep (l_buf st') v' (list_to_set L) ∅ ∅ (dwrites d (log_writes L v)) ∧
          ∀ b, ¬ in_log start b → v' b = v b).
Proof.
  intros Hl Hok Hb. pose proof (lh_ok_lt _ Hok) as Hlen.
  pose proof Hl as (_ & _ & _ & Hn & _). unfold write_log, getlog. wp_steps.
  rewrite Hn, Nat2Z.id. eapply wp_mono; [apply (wp_mfor_seq _ _ (λ i st', l_log st' = l_log st ∧
    ∃ v', brep (l_buf st') v' (list_to_set L) ∅ ∅ (dwrites d (take i (log_writes L v))) ∧
          ∀ b, ¬ in_log start b → v' b = v b))|].
  - split; [done|]. exists v. done.
  - intros i st1 Hi (Hl1 & v1 & Hb1 & Hv1).
    apply lookup_lt_is_Some_2 in Hi as [b Hi].
    destruct (log_slot_u32 _ _ _ _ Hl Hok Hi) as (_ & Hin & _).
    destruct Hok as (Hnd & Hsz & Hblk).
    assert (b ∈ L) as HbL by (by eapply list_elem_of_lookup_2).
    eapply wp_mono; [eapply write_log_one_spec|]; [by rewrite Hl1|done..| | | |].
    + rewrite elem_of_list_to_set. intros Hs. by apply Hblk in Hs as [_ ?].
    + by apply elem_of_list_to_set.
    + rewrite lh_ok_size; [done|by split_and!].
    + intros [] st2 [Hl2 Hb2]. split; [congruence|]. eexists. split.
      * erewrite take_S_r, dwrites_snoc; [|unfold log_writes; by rewrite list_lookup_imap, Hi].
        rewrite <-(Hv1 b) by (by apply Hblk). done.
      * intros b' Hb'. rewrite fn_lookup_insert_ne; [by apply Hv1|]. by intros <-.
  - intros [] st1 (? & v1 & Hb1 & ?). split; [done|]. exists v1. split; [|done].
    rewrite take_ge in Hb1; [done|]. unfold log_writes. rewrite length_imap. lia.
Qed.

(** The blocks the log still pins once the first [i] have been installed. *)
Definition pins (recovering : bool) (L : list Z) : gset Z :=
  if recovering then ∅ else list_to_set L.

Lemma pins_step (recovering : bool) L i b :
  NoDup L → L !! i = Some b →
  (if recovering then (∅ : gset Z) else pins recovering (drop i L) ∖ {[b]}) = pins recovering (drop (Datatypes.S i) L).
Proof.
  intros Hnd Hi. destruct recovering; [done|]. cbn [pins].
  assert (NoDup (drop i L)) as Hnd' by (rewrite <-(take_drop i L), NoDup_app in Hnd; tauto).
  rewrite (drop_S L b i) in * by done. apply NoDup_cons in Hnd' as [Hb _].
  cbn [list_to_set foldr]. apply (not_elem_of_list_to_set (C := gset Z)) in Hb. set_solver.
Qed.

Lemma install_trans_spec (recovering : bool) st L v d :
  log_is (l_log st) L → lh_ok start L →
  brep (l_buf st) v (pins recovering L) ∅ ∅ d →
  wp (install_trans me recovering) st (λ _ st', l_log st' = l_log st ∧
    ∃ v', brep (l_buf st') v' ∅ ∅ ∅ (dwrites d (home_writes L d)) ∧
          ∀ b, b ∉ L → v' b = v b).
Proof.
  intros Hl Hok Hb. pose proof (lh_ok_lt _ Hok) as Hlen. pose proof Hl as (_ & _ & _ & Hn & _).
  pose proof Hok as (Hnd & Hsz & Hblk). unfold install_trans, getlog. wp_steps.
  rewrite Hn, Nat2Z.id. eapply wp_mono; [apply (wp_mfor_seq _ _ (λ i st', l_log st' = l_log st ∧
    ∃ v', brep (l_buf st') v' (pins recovering (drop i L)) ∅ ∅ (dwrites d (take i (home_writes L d))) ∧
          ∀ b, b ∉ L → v' b = v b))|].
  - split; [done|]. exists v. done.
  - intros i st1 Hi (Hl1 & v1 & Hb1 & Hv1).
    apply lookup_lt_is_Some_2 in Hi as [b Hi].
    destruct (log_slot_u32 _ _ _ _ Hl Hok Hi) as (_ & Hin & _).
    assert (b ∈ L) as HbL by (by eapply list_elem_of_lookup_2).
    assert (∀ b', b' ∈ pins recovering (drop i L) → b' ∈ L) as Hpins.
    { intros b'. destruct recovering; cbn [pins]; [set_solver|].
      rewrite elem_of_list_to_set. intros Hd. rewrite <-(take_drop i L), elem_of_app. auto. }
    eapply wp_mono; [eapply install_one_spec|]; [by rewrite Hl1|done..| | |].
    + intros Hs%Hpins. by apply Hblk in Hs as [_ ?].
    + destruct recovering; [done|]. cbn [pins]. rewrite elem_of_list_to_set. split.
      * rewrite (drop_S L b i) by done. by left.
      * rewrite size_list_to_set by (rewrite <-(take_drop i L), NoDup_app in Hnd; tauto).
        rewrite length_drop. lia.
    + intros [] st2 (Hl2 & v2 & Hb2 & Hv2). split; [congruence|]. exists v2. split.
      * erewrite take_S_r, dwrites_snoc; [|unfold home_writes; by rewrite list_lookup_imap, Hi].
        rewrite <-(pins_step recovering L i b) by done.
        rewrite dread_dwrites_ne in Hb2; [done|..].
        -- apply full_blocks_take, home_writes_full.
        -- rewrite fmap_take, home_writes_fst.
           intros (j & Hj & _)%elem_of_take. apply list_elem_of_lookup_2 in Hj.
           by apply Hblk in Hj as [_ ?].
      * intros b' Hb'. rewrite Hv2; [by apply Hv1|]. by intros ->.
  - intros [] st1 (? & v1 & Hb1 & ?). split; [done|]. exists v1. split; [|done].
    rewrite take_ge, drop_all in Hb1; [by destruct recovering|].
    unfold home_writes. rewrite length_imap. lia.
Qed.

(** The first [k] entries of [L] have been stored in header block [x]. *)
Definition hdr_upto (x : block) (L : list Z) (k : nat) : Prop :=
  length x = BLK ∧ get32 x hdr_n = Z.of_nat (length L) ∧
  ∀ i b, (i < k)%nat → L !! i = Some b → get32 x (hdr_block i) = b.

Lemma hdr_upto_0 x L :
  lh_ok start L → length x = BLK → hdr_upto (put32 x hdr_n (Z.of_nat (length L))) L 0.
Proof.
  intros (_ & ? & _) Hx. unfold LOGSIZE, MAXOPBLOCKS in *.
  assert (0 + 4 ≤ length x)%nat by (rewrite Hx; unfold BLK, BSIZE; lia).
  split_and!; [by rewrite length_put32| |lia].
  rewrite get32_put32_eq by done. apply u32_small. lia.
Qed.

Lemma hdr_upto_S x L k b :
  lh_ok start L → hdr_upto x L k → L !! k = Some b →
  hdr_upto (put32 x (hdr_block k) b) L (Datatypes.S k).
Proof.
  intros Hok (Hx & Hn & Hb) Hk. pose proof Hok as (_ & Hlen & _).
  pose proof (lookup_lt_Some _ _ _ Hk). unfold LOGSIZE, MAXOPBLOCKS in *.
  assert (hdr_block k + 4 ≤ length x)%nat by (rewrite Hx; unfold BLK, BSIZE, hdr_block; lia).
  split_and!; [by rewrite length_put32| |].
  - rewrite get32_put32_ne; [done..|]. unfold hdr_n, hdr_block. lia.
  - intros i c Hi Hc. destruct (decide (i = k)) as [->|].
    + simplify_eq. rewrite get32_put32_eq by done. by eapply lh_ok_block.
    + rewrite get32_put32_ne; [apply Hb; [lia|done]|done|]. unfold hdr_block. lia.
Qed.

Lemma hdr_upto_lh x L :
  lh_ok start L → hdr_upto x L (length L) →
  disk_lh x = L ∧ s32 (get32 x hdr_n) = Z.of_nat (length L).
Proof.
  intros Hok (Hx & Hn & Hb). pose proof Hok as (_ & Hlen & _).
  unfold LOGSIZE, MAXOPBLOCKS in *. assert (s32 (get32 x hdr_n) = Z.of_nat (length L)) as Hs.
  { rewrite Hn. apply s32_small. lia. }
  split; [|done]. unfold disk_lh. rewrite Hs, Nat2Z.id. apply list_eq. intros i.
  rewrite list_lookup_fmap. destruct (L !! i) as [b|] eqn:E.
  - pose proof (lookup_lt_Some _ _ _ E). rewrite lookup_seq_lt by done. cbn [fmap option_fmap option_map].
    rewrite Nat.add_0_l, (Hb i b) by done. f_equal. by eapply lh_ok_block.
  - rewrite lookup_seq_ge; [done|]. by apply lookup_ge_None_1 in E.
Qed.

Lemma write_head_spec st L v P d :
  log_is (l_log st) L → lh_ok start L → (size P < NBUF)%nat → start ∉ P →
  brep (l_buf st) v P ∅ ∅ d →
  wp (write_head me) st (λ _ st', l_log st' = l_log st ∧
    ∃ x v', length x = BLK ∧ disk_lh x = L ∧ s32 (get32 x hdr_n) = Z.of_nat (length L) ∧
      brep (l_buf st') v' P ∅ ∅ (dwrite d start x) ∧ ∀ b, b ≠ start → v' b = v b).
Proof.
  intros Hl Hok Hsz Hs Hb. pose proof Hl as (Hdev & Hst & _ & Hn & _).
  assert (u32 start = start) as Hu by (apply u32_small; unfold LOGSIZE, MAXOPBLOCKS in *; lia).
  unfold write_head, getlog. wp_steps. rewrite Hdev, Hst, Hu. apply wp_onb.
  eapply wp_mono; [eapply (spec_bread _ v P ∅); [done|rewrite img_none; set_solver|]|].
  { right. rewrite img_none, union_empty_r_L. done. }
  intros h s1 [_ Hb1]. set (H1 := <[h := start]> (∅ : gmap nat Z)) in *.
  assert (H1 !! h = Some start) as Hh by apply lookup_insert_eq.
  pose proof (brep_length _ _ _ _ _ _ start Hb) as Hlen.
  buf_step spec_data. intros x s2 [-> ->]. rewrite Hn, Nat2Z.id.
  pose proof (hdr_upto_0 _ _ Hok Hlen) as Hx0. pose proof (proj1 Hx0).
  buf_step spec_setdata.
  intros [] s3 Hb3. wp_step.
  eapply wp_mono; [apply (wp_mfor_seq _ _ (λ k st', l_log st' = l_log st ∧
    ∃ x v', hdr_upto x L k ∧ v' start = x ∧
      brep (l_buf st') v' P H1 {[start]} d ∧ ∀ b, b ≠ start → v' b = v b))|].
  - split; [done|]. eexists _, _. split_and!; [done| |by rewrite union_empty_r_L in Hb3|].
    + by rewrite fn_lookup_insert.
    + intros. by rewrite fn_lookup_insert_ne.
  - intros k st1 Hk (Hl1 & x & v1 & Hx1 & Hv1 & Hb1' & Hvo). apply lookup_lt_is_Some_2 in Hk as [b Hk].
    wp_step. eapply wp_getblock; [by rewrite Hl1|done|].
    buf_step spec_data. intros x' s4 [-> ->]. rewrite Hv1.
    pose proof (hdr_upto_S _ _ _ _ Hok Hx1 Hk) as Hx2.
    apply wp_onb. eapply wp_mono; [eapply spec_setdata; [done..|by destruct Hx2]|].
    intros [] s5 Hb5. split; [done|]. eexists _, _. split_and!; [done| | |].
    + by rewrite fn_lookup_insert.
    + by replace ({[start]} ∪ {[start]}) with ({[start]} : gset Z) in Hb5 by set_solver.
    + intros. rewrite fn_lookup_insert_ne by done. auto.
  - intros [] st1 (Hl1 & x & v1 & Hx1 & Hv1 & Hb1' & Hvo). destruct (hdr_upto_lh _ _ Hok Hx1) as [? ?].
    buf_step spec_bwrite. intros [] s4 Hb4. rewrite Hv1, difference_diag_L in Hb4.
    apply wp_onb. eapply wp_mono; [by eapply spec_brelse|]. intros [] s5 Hb5.
    unfold H1 in Hb5. rewrite held_one in Hb5. split; [done|]. exists x, v1.
    split_and!; try done. by destruct Hx1.
Qed.

(** A header block that recovery can trust. *)
Definition hdr_ok (x : block) : Prop :=
  0 ≤ s32 (get32 x hdr_n) ∧ lh_ok start (disk_lh x).

(** [log] has been given its place on the disk. *)
Definition log_at (l : log) : Prop :=
  u32 (l_dev l) = dev ∧ l_start l = start ∧ Z.of_nat (length (lh_block (l_lh l))) = LOGSIZE.

(** The part of [struct log] that [lh] does not touch. *)
Definition log_ctl (l : log) : Z * Z * Z := (l_size l, l_outstanding l, l_committing l).

Lemma log_is_empty l : log_at l → log_is (lset_n 0 l) [].
Proof. intros (? & ? & ?). by split_and!. Qed.

Lemma lh_ok_nil : lh_ok start [].
Proof. split; [apply NoDup_nil_2|]. split; [done|]. by intros b ?%elem_of_nil. Qed.

Lemma read_head_spec st v d :
  log_at (l_log st) → brep (l_buf st) v ∅ ∅ ∅ d → hdr_ok (dread d start) →
  wp (read_head me) st (λ _ st', log_is (l_log st') (disk_lh (dread d start)) ∧
    log_ctl (l_log st') = log_ctl (l_log st) ∧ brep (l_buf st') v ∅ ∅ ∅ d).
Proof.
  intros (Hdev & Hst & Hlb) Hb [Hn Hok].
  assert (u32 start = start) as Hu by (apply u32_small; unfold LOGSIZE, MAXOPBLOCKS in *; lia).
  pose proof (brep_clean _ _ _ _ _ _ start Hb ltac:(set_solver) ltac:(set_solver)) as Hc.
  set (x := dread d start) in *. set (n := s32 (get32 x hdr_n)) in *.
  assert (length (disk_lh x) = Z.to_nat n) as HL'.
  { unfold disk_lh. by rewrite length_fmap, length_seq. }
  unfold read_head, getlog. wp_steps. rewrite Hdev, Hst, Hu. apply wp_onb.
  eapply wp_mono; [eapply (spec_bread _ v ∅ ∅); [done|rewrite img_none; set_solver|]|].
  { right. rewrite img_none, union_empty_r_L, size_empty. cbv. lia. }
  intros h s1 [_ Hb1]. set (H1 := <[h := start]> (∅ : gmap nat Z)) in *.
  assert (H1 !! h = Some start) as Hh by apply lookup_insert_eq.
  buf_step spec_data. intros y s2 [-> ->]. rewrite Hc. fold n. unfold setlog. wp_steps.
  eapply wp_mono; [apply (wp_mfor_seq _ _ (λ k st', log_at (l_log st') ∧ log_ctl (l_log st') = log_ctl (l_log st) ∧
    lh_n (l_lh (l_log st')) = n ∧ take k (lh_block (l_lh (l_log st'))) = take k (disk_lh x) ∧ brep (l_buf st') v ∅ H1 ∅ d))|].
  - done.
  - intros k st1 Hk ((Hd1 & Hs1 & Hl1) & Hc1 & Hn1 & Ht1 & Hb1').
    destruct Hok as (_ & Hlen & _).
    buf_step spec_data. intros y s4 [-> ->]. rewrite Hc. unfold setblock, getblock, getlog, setlog.
    wp_steps. destruct (lookup_lt_is_Some_2 (lh_block (l_lh (l_log st1))) k) as [z Hz]; [lia|].
    eapply wp_mnth; [done|]. wp_steps.
    split_and!; cbn [l_log l_buf lset_block l_lh lh_n lh_block l_dev l_start]; try done.
    { split_and!; try done. cbn [lset_block l_lh lh_block]. by rewrite length_insert. }
    assert (disk_lh x !! k = Some (s32 (get32 x (hdr_block k)))) as HLk.
    { unfold disk_lh. rewrite list_lookup_fmap, lookup_seq_lt; [done|lia]. }
    rewrite (take_S_r _ _ _ HLk), <-Ht1.
    rewrite (take_S_r _ k (s32 (get32 x (hdr_block k)))) by (apply list_lookup_insert_eq; lia).
    by rewrite take_insert_ge by lia.
  - intros [] st1 ((? & ? & ?) & Hc1 & Hn1 & Ht1 & Hb1'). apply wp_onb.
    eapply wp_mono; [by eapply spec_brelse|]. intros [] s5 Hb5.
    unfold H1 in Hb5. rewrite held_one in Hb5. split; [|done].
    split_and!; try done; rewrite HL'; cbn [l_log]; [by rewrite Hn1, Z2Nat.id|].
    rewrite Ht1. apply take_ge. lia.
Qed.

Lemma recover_spec st v d :
  log_at (l_log st) → brep (l_buf st) v ∅ ∅ ∅ d → hdr_ok (dread d start) →
  wp (recover_from_log me) st (λ _ st', log_is (l_log st') [] ∧
    log_ctl (l_log st') = log_ctl (l_log st) ∧
    ∃ x v', length x = BLK ∧ disk_lh x = [] ∧ s32 (get32 x hdr_n) = 0 ∧
      brep (l_buf st') v' ∅ ∅ ∅
        (dwrites d (home_writes (disk_lh (dread d start)) d ++ [(start, x)]))).
Proof.
  intros Hl Hb Hh. unfold recover_from_log.
  wp_step. eapply wp_mono; [by eapply read_head_spec|]. intros [] st1 (Hl1 & Hc1 & Hb1).
  wp_step. eapply wp_mono; [eapply (install_trans_spec true)|]; [done|by destruct Hh|done..|].
  intros [] st2 (Hl2 & v2 & Hb2 & _). unfold setlog. wp_steps.
  assert (log_is (lset_n 0 (l_log st2)) []) as Hl3.
  { rewrite Hl2. apply log_is_empty. by destruct Hl1 as (? & ? & ? & _). }
  eapply wp_mono; [eapply write_head_spec|]; [done|apply lh_ok_nil| | |done|].
  { rewrite size_empty. cbv. lia. } { set_solver. }
  intros [] st4 (Hl4 & x & v4 & ? & ? & ? & Hb4 & _). rewrite Hl4.
  split; [done|]. split; [by rewrite <-Hc1, <-Hl2|]. exists x, v4. rewrite dwrites_snoc. done.
Qed.

Definition commit_writes (L : list Z) (v : Z → block) (x1 x2 : block) : list (Z * block) :=
  log_writes L v ++ (start, x1) :: ((λ b, (b, v b)) <$> L) ++ [(start, x2)].

Lemma log_writes_slot L v i b :
  L !! i = Some b → log_writes L v !! i = Some (log_slot start i, v b).
Proof. intros Hi. unfold log_writes. by rewrite list_lookup_imap, Hi. Qed.

Lemma log_writes_fst L v b :
  lh_ok start L → b ∈ (log_writes L v).*1 → in_log start b ∧ b ≠ start.
Proof.
  intros (_ & Hlen & _) [i Hi]%list_elem_of_lookup. unfold log_writes in Hi.
  rewrite list_lookup_fmap, list_lookup_imap in Hi.
  destruct (L !! i) as [b'|] eqn:E; [|done]. injection Hi as <-.
  apply lookup_lt_Some in E. unfold in_log, log_slot. cbn. lia.
Qed.

Lemma log_writes_NoDup L v : NoDup (log_writes L v).*1.
Proof.
  apply NoDup_alt. intros i j b. unfold log_writes.
  rewrite !list_lookup_fmap, !list_lookup_imap.
  destruct (L !! i), (L !! j); try done. intros [= <-] [= Hij]. unfold log_slot in Hij. lia.
Qed.

(** Once the log blocks are written, slot [i] holds the [i]-th logged block. *)
Lemma dread_log_slot L v d i b :
  (∀ b, length (v b) = BLK) → L !! i = Some b →
  dread (dwrites d (log_writes L v)) (log_slot start i) = v b.
Proof.
  intros Hv Hi. eapply dread_dwrites_in; [by apply log_writes_full|apply log_writes_NoDup|].
  by apply log_writes_slot.
Qed.

Lemma home_writes_committed L v d x1 :
  lh_ok start L → (∀ b, length (v b) = BLK) → length x1 = BLK →
  home_writes L (dwrite (dwrites d (log_writes L v)) start x1) = (λ b, (b, v b)) <$> L.
Proof.
  intros Hok Hv Hx. apply list_eq. intros i. unfold home_writes.
  rewrite list_lookup_imap, list_lookup_fmap. destruct (L !! i) as [b|] eqn:Hi; [|done]. simpl.
  rewrite dread_dwrite_ne, (dread_log_slot _ _ _ _ b); [done..|].
  unfold log_slot. lia.
Qed.

Lemma commit_spec st L v d :
  log_is (l_log st) L → lh_ok start L → L ≠ [] →
  brep (l_buf st) v (list_to_set L) ∅ ∅ d →
  wp (commit me) st (λ _ st', l_log st' = lset_n 0 (l_log st) ∧
    ∃ x1 x2 v', length x1 = BLK ∧ length x2 = BLK ∧ disk_lh x1 = L ∧
      s32 (get32 x1 hdr_n) = Z.of_nat (length L) ∧ disk_lh x2 = [] ∧ s32 (get32 x2 hdr_n) = 0 ∧
      brep (l_buf st') v' ∅ ∅ ∅ (dwrites d (commit_writes L v x1 x2))).
Proof.
  intros Hl Hok Hne Hb. pose proof (lh_ok_lt _ Hok) as Hlen. pose proof Hl as (Hdev & Hst & Hbl & Hn & Htk).
  assert (∀ b, length (v b) = BLK) as Hv by (intros; by eapply brep_length).
  unfold commit, getlog. wp_step. wp_step. rewrite Hn.
  assert ((Z.of_nat (length L) >? 0) = true) as -> by (destruct L; [done|apply Z.gtb_lt; simpl; lia]).
  wp_step. eapply wp_mono; [by eapply write_log_spec|]. intros [] st1 (Hl1 & v1 & Hb1 & Hv1).
  wp_step. eapply wp_mono; [eapply write_head_spec; [by rewrite Hl1|done| | |done]|].
  { by rewrite lh_ok_size. }
  { rewrite elem_of_list_to_set. intros Hs. destruct Hok as (_ & ? & Hok). apply Hok in Hs as [_ Hs].
    apply Hs. unfold in_log. lia. }
  intros [] st2 (Hl2 & x1 & v2 & Hx1 & Hlh1 & Hn1 & Hb2 & Hv2).
  wp_step. eapply wp_mono; [eapply (install_trans_spec false); [by rewrite Hl2, Hl1|done..]|].
  intros [] st3 (Hl3 & v3 & Hb3 & Hv3). unfold setlog. wp_steps.
  rewrite home_writes_committed in Hb3 by done.
  eapply wp_mono; [eapply write_head_spec; [|apply lh_ok_nil| | |done]|].
  { apply log_is_empty. by rewrite Hl3, Hl2, Hl1. }
  { rewrite size_empty. cbv. lia. } { set_solver. }
  intros [] st4 (Hl4 & x2 & v4 & Hx2 & Hlh2 & Hn2 & Hb4 & _).
  split; [by rewrite Hl4; cbn [l_log]; rewrite Hl3, Hl2, Hl1|].
  exists x1, x2, v4. split_and!; try done.
  unfold commit_writes. by rewrite dwrites_app, dwrites_cons, dwrites_snoc.
Qed.

(** [log_write] adds the block to the transaction once. *)
Definition log_add (L : list Z) (b : Z) : list Z := if decide (b ∈ L) then L else L ++ [b].

Lemma lh_ok_add L b :
  lh_ok start L → Z.of_nat (length L) < LOGSIZE - 1 → 0 ≤ b < 2147483648 → ¬ in_log start b →
  lh_ok start (log_add L b).
Proof.
  intros (Hnd & Hlen & Hb) Hlt Hb0 Hbl. unfold log_add. case_decide as Hin; [done|].
  split_and!.
  - apply NoDup_app. split_and!; [done| |apply NoDup_singleton].
    by intros c Hc ->%list_elem_of_singleton.
  - rewrite length_app. cbn [length]. lia.
  - intros c [Hc| ->%list_elem_of_singleton]%elem_of_app; auto.
Qed.

Lemma absorb_index_spec l L b :
  log_is l L → lh_ok start L → u32 b = b →
  absorb_index l b = default (length L) (log_index L b).
Proof.
  intros (_ & _ & _ & Hn & Ht) Hok Hb. unfold absorb_index, log_index.
  rewrite Hn, Nat2Z.id, Ht.
  rewrite (list_find_ext_in (λ x, u32 x = b) (λ x, x = b)).
  - by destruct (list_find _ L) as [[i x]|].
  - intros x Hx. destruct (proj1 (list_elem_of_lookup _ _) Hx) as [i Hi].
    destruct (lh_ok_block _ _ _ Hok Hi) as (-> & _). done.
Qed.

Lemma log_is_add l L b :
  log_is l L → lh_ok start L → b ∉ L → Z.of_nat (length L) < LOGSIZE →
  log_is (lset_n (lh_n (l_lh l) + 1) (lset_block (length L) b l)) (log_add L b).
Proof.
  intros (Hd & Hs & Hlen & Hn & Ht) Hok Hb Hlt.
  unfold log_add. rewrite decide_False by done.
  split_and!; cbn [lset_n lset_block l_lh lh_n lh_block]; try done.
  - by rewrite length_insert.
  - rewrite Hn, length_app. cbn [length]. lia.
  - rewrite length_app, Nat.add_1_r. cbn [length].
    rewrite (take_S_r _ _ b) by (apply list_lookup_insert_eq; lia).
    by rewrite take_insert_ge, Ht by lia.
Qed.

Lemma log_write_spec st L v H T d i b :
  log_is (l_log st) L → lh_ok start L → brep (l_buf st) v (list_to_set L) H T d →
  H !! i = Some b → 0 ≤ b < 2147483648 → ¬ in_log start b →
  1 ≤ l_outstanding (l_log st) →
  Z.of_nat (length L) < l_size (l_log st) - 1 → l_size (l_log st) ≤ LOGSIZE →
  wp (log_write i) st (λ _ st', log_is (l_log st') (log_add L b) ∧ lh_ok start (log_add L b) ∧
    brep (l_buf st') v (list_to_set (log_add L b)) H (T ∖ {[b]}) d ∧
    l_outstanding (l_log st') = l_outstanding (l_log st) ∧
    l_committing (l_log st') = l_committing (l_log st) ∧ l_size (l_log st') = l_size (l_log st)).
Proof.
  intros Hl Hok Hb Hi Hb0 Hbl Hout Hsz2 Hsz3.
  assert (Z.of_nat (length L) < LOGSIZE) as Hsz1 by lia.
  assert (lh_ok start (log_add L b)) as Hok' by (apply lh_ok_add; done || lia).
  pose proof Hl as (_ & _ & Hlen & Hn & Ht).
  unfold log_write, getlog. wp_step. wp_step. rewrite Hn, !Z.geb_leb.
  rewrite (proj2 (Z.leb_gt _ _) Hsz1), (proj2 (Z.leb_gt _ _) Hsz2). cbn [orb].
  rewrite (proj2 (Z.ltb_ge _ _)) by done.
  buf_step spec_blockno. intros x s1 [-> ->]. cbv zeta.
  rewrite (absorb_index_spec _ L) by (try apply u32_small; done || lia).
  rewrite s32_small by lia. unfold setblock, getblock, getlog, setlog, log_add in *.
  assert (0 ≤ Z.of_nat (length L)) by lia.
  destruct (log_index L b) as [k|] eqn:E; cbn [default from_option id].
  - destruct Hok as [Hnd Hok]. apply log_index_Some in E; [|done].
    pose proof (lookup_lt_Some _ _ _ E) as Hk.
    rewrite decide_True in * by (by eapply list_elem_of_lookup_2).
    wp_steps. eapply wp_mnth; [by eapply log_is_block|]. wp_steps.
    rewrite (proj2 (Z.eqb_neq _ _)) by lia. wp_steps.
    split_and!; cbn [l_log lset_block l_lh lh_n lh_block]; try done.
    + split_and!; try apply Hl; cbn [l_log lset_block l_lh lh_n lh_block].
      * by rewrite length_insert.
      * by rewrite list_insert_id by (by eapply log_is_block).
    + eapply brep_saved; [done|]. apply elem_of_list_to_set. by eapply list_elem_of_lookup_2.
  - apply log_index_None in E. rewrite decide_False in * by done.
    destruct (lookup_lt_is_Some_2 (lh_block (l_lh (l_log st))) (length L)) as [z Hz]; [lia|].
    wp_steps. eapply wp_mnth; [done|]. wp_steps.
    rewrite Z.eqb_refl. wp_step. apply wp_onb.
    eapply wp_mono; [eapply spec_bpin; [done..|by rewrite elem_of_list_to_set]|].
    intros [] s2 Hb2. wp_steps. split_and!; cbn [l_log l_buf]; try done.
    + rewrite <-Hn. pose proof (log_is_add _ _ _ Hl Hok E Hsz1) as Ha.
      unfold log_add in Ha. by rewrite decide_False in Ha.
    + rewrite list_to_set_app_L, union_comm_L. cbn [list_to_set foldr]. by rewrite union_empty_r_L.
Qed.
End log_proofs.
