(* ===== verification/LogCrash.v ===== *)
(** * Crash safety of the log

    A crash keeps a prefix of the block writes. Whatever the prefix of
    [commit]'s writes, rebooting (kernel/bio.c [binit], then kernel/log.c
    [initlog]) yields either the file system before the transaction or the one
    after it; and recovery itself may be interrupted any number of times. *)
From Stdlib Require Import ZArith Lia.
From stdpp Require Import prelude functions strings gmap.
From S2P Require Import Prelude Bytes Param Sleeplock BufIface Bio BioSpec BioInv Log LogSpec.

Section replay.
Context {D : Type} `{HD : DiskDev D} `{HL : !DiskLaws D} (start : Z).
Implicit Types (d : D) (L : list Z) (v : Z → block).

Lemma replay_empty d b : disk_lh (dread d start) = [] → replay start d b = dread d b.
Proof. intros Hd. unfold replay. by rewrite Hd. Qed.

Lemma replay_listed d L i b :
  disk_lh (dread d start) = L → NoDup L → L !! i = Some b →
  replay start d b = dread d (log_slot start i).
Proof.
  intros Hd Hnd Hi. unfold replay. rewrite Hd.
  apply log_index_Some in Hi; [|done]. by rewrite Hi.
Qed.

Lemma replay_unlisted d b :
  b ∉ disk_lh (dread d start) → replay start d b = dread d b.
Proof. intros Hb. unfold replay. apply log_index_None in Hb. by rewrite Hb. Qed.

Lemma start_in_log : in_log start start.
Proof. unfold in_log, LOGSIZE, MAXOPBLOCKS. lia. Qed.

Lemma lh_ok_start L : lh_ok start L → start ∉ L.
Proof. intros (_ & _ & Hb) Hs. apply Hb in Hs as [_ Hs]. apply Hs, start_in_log. Qed.

Lemma lh_ok_slot L i b : lh_ok start L → L !! i = Some b → log_slot start i ∉ L.
Proof.
  intros (_ & Hlen & Hb) Hi%lookup_lt_Some Hj. apply Hb in Hj as [_ Hj]. apply Hj. unfold in_log, log_slot. lia.
Qed.

(** While the log blocks are being written the header still says "empty". *)
Lemma replay_logging d L v k b :
  lh_ok start L → (∀ b, length (v b) = BLK) → disk_lh (dread d start) = [] →
  ¬ in_log start b →
  let c := dwrites d (take k (log_writes start L v)) in
  dread c start = dread d start ∧ replay start c b = dread d b.
Proof.
  intros Hok Hv Hd Hb c.
  assert (∀ b', b' ∈ (take k (log_writes start L v)).*1 → in_log start b' ∧ b' ≠ start) as Hw.
  { intros b'. rewrite fmap_take. intros (i & Hi & _)%elem_of_take.
    eapply log_writes_fst; [done|]. by eapply list_elem_of_lookup_2. }
  assert (full_blocks (take k (log_writes start L v))) as Hf
    by (by apply full_blocks_take, log_writes_full).
  assert (dread c start = dread d start) as Hc.
  { apply dread_dwrites_ne; [done|]. by intros [_ ?]%Hw. }
  split; [done|]. rewrite replay_empty by (by rewrite Hc).
  apply dread_dwrites_ne; [done|]. by intros [? _]%Hw.
Qed.

(** Installing a committed transaction, completely or in part, changes
    neither the header nor what the disk stands for. *)
Lemma replay_installing d L k :
  disk_lh (dread d start) = L → lh_ok start L →
  let c := dwrites d (take k (home_writes start L d)) in
  dread c start = dread d start ∧ ∀ b, ¬ in_log start b → replay start c b = replay start d b.
Proof.
  intros Hd Hok c. pose proof Hok as (Hnd & _).
  assert (full_blocks (take k (home_writes start L d))) as Hf
    by (by apply full_blocks_take, home_writes_full).
  assert (∀ b', b' ∉ L → dread c b' = dread d b') as Hc.
  { intros b' Hb'. apply dread_dwrites_ne; [done|]. rewrite fmap_take, home_writes_fst.
    intros (i & Hi & _)%elem_of_take. apply Hb'. by eapply list_elem_of_lookup_2. }
  assert (dread c start = dread d start) as Hs by (by apply Hc, lh_ok_start).
  split; [done|]. intros b Hb. destruct (decide (b ∈ L)) as [[i Hi]%list_elem_of_lookup|HbL].
  - rewrite (replay_listed d L i b), (replay_listed c L i b) by (try rewrite Hs; done).
    apply Hc. by eapply lh_ok_slot.
  - rewrite (replay_unlisted d b), (replay_unlisted c b) by (by rewrite ?Hs, Hd). by apply Hc.
Qed.

(** Once installed completely, every home block holds what [replay] says. *)
Lemma dread_installed d L b :
  disk_lh (dread d start) = L → lh_ok start L →
  dread (dwrites d (home_writes start L d)) b = replay start d b.
Proof.
  intros Hd Hok. pose proof Hok as (Hnd & _). pose proof (home_writes_full start L d) as Hf.
  destruct (decide (b ∈ L)) as [[i Hi]%list_elem_of_lookup|HbL].
  - rewrite (replay_listed _ L i) by done. eapply (dread_dwrites_in _ _ i); [done|..].
    + by rewrite home_writes_fst.
    + unfold home_writes. by rewrite list_lookup_imap, Hi.
  - rewrite replay_unlisted by (by rewrite Hd). apply dread_dwrites_ne; [done|].
    by rewrite home_writes_fst.
Qed.

(** A header block that says the log is empty. *)
Definition hdr_empty (x : block) : Prop :=
  length x = BLK ∧ disk_lh x = [] ∧ s32 (get32 x hdr_n) = 0.

Lemma hdr_empty_ok x : hdr_empty x → hdr_ok start x.
Proof.
  intros (_ & Hx & Hn). split; [lia|]. rewrite Hx. split; [apply NoDup_nil_2|].
  split; [done|]. by intros b ?%elem_of_nil.
Qed.

Lemma recover_prefix d L x k :
  disk_lh (dread d start) = L → hdr_ok start (dread d start) → hdr_empty x →
  let c := dwrites d (take k (home_writes start L d ++ [(start, x)])) in
  hdr_ok start (dread c start) ∧ ∀ b, ¬ in_log start b → replay start c b = replay start d b.
Proof.
  intros Hd Hh Hx c. pose proof Hh as [Hn Hok]. rewrite Hd in Hok.
  destruct (decide (k ≤ length (home_writes start L d))%nat) as [Hk|Hk].
  - subst c. rewrite take_app_le by done.
    destruct (replay_installing d L k Hd Hok) as [-> ?]. done.
  - subst c. rewrite take_ge by (rewrite length_app; simpl; lia). rewrite dwrites_snoc.
    destruct Hx as (Hlen & Hnil & Hzero).
    assert (∀ c', dread (dwrite c' start x) start = x) as Hs by (intros; by apply dread_dwrite_eq).
    rewrite Hs. split; [by apply hdr_empty_ok|]. intros b Hb.
    rewrite replay_empty by (by rewrite Hs).
    rewrite dread_dwrite_ne; [by apply dread_installed|done|].
    intros <-. apply Hb, start_in_log.
Qed.

(** The disk once the header of the transaction is on it: the commit point. *)
Lemma replay_committed d L v x1 b :
  lh_ok start L → (∀ b, length (v b) = BLK) → (∀ b, b ∉ L → v b = dread d b) →
  length x1 = BLK → disk_lh x1 = L → ¬ in_log start b →
  replay start (dwrite (dwrites d (log_writes start L v)) start x1) b = v b.
Proof.
  intros Hok Hv Hcl Hx Hlh Hb. pose proof Hok as (Hnd & _).
  set (d1 := dwrite _ start x1).
  assert (dread d1 start = x1) as Hs by (by apply dread_dwrite_eq).
  destruct (decide (b ∈ L)) as [[i Hi]%list_elem_of_lookup|HbL].
  - rewrite (replay_listed _ L i) by (rewrite ?Hs; done). subst d1.
    rewrite dread_dwrite_ne; [by apply dread_log_slot|done|]. unfold log_slot. lia.
  - rewrite replay_unlisted by (by rewrite Hs, Hlh). subst d1. rewrite Hcl by done.
    rewrite dread_dwrite_ne; [|done|intros <-; apply Hb, start_in_log].
    apply dread_dwrites_ne; [by apply log_writes_full|].
    intros Hin. by destruct (log_writes_fst _ _ _ _ Hok Hin).
Qed.

Lemma commit_prefix d L v x1 x2 k :
  lh_ok start L → (∀ b, length (v b) = BLK) → (∀ b, b ∉ L → v b = dread d b) →
  length x1 = BLK → disk_lh x1 = L → s32 (get32 x1 hdr_n) = Z.of_nat (length L) →
  hdr_empty x2 → hdr_empty (dread d start) →
  let c := dwrites d (take k (commit_writes start L v x1 x2)) in
  hdr_ok start (dread c start) ∧
  ∀ b, ¬ in_log start b →
    replay start c b = if decide (k ≤ length L)%nat then dread d b else v b.
Proof.
  intros Hok Hv Hcl Hx1 Hlh1 Hn1 Hx2 Hd0 c. pose proof Hd0 as (_ & Hd0l & _).
  assert (length (log_writes start L v) = length L) as Hll by apply length_imap.
  case_decide as Hk.
  - subst c. unfold commit_writes. rewrite take_app_le by lia. split.
    + destruct (replay_logging d L v k (start + LOGSIZE + 1) Hok Hv Hd0l) as [-> _].
      * unfold in_log. lia.
      * by apply hdr_empty_ok.
    + intros b Hb. by apply (replay_logging d L v k b).
  - set (d1 := dwrite (dwrites d (log_writes start L v)) start x1).
    assert (dread d1 start = x1) as Hs by (by apply dread_dwrite_eq).
    assert (c = dwrites d1 (take (k - length L - 1) (home_writes start L d1 ++ [(start, x2)]))) as ->.
    { subst c. unfold commit_writes. rewrite take_app, (take_ge (log_writes start L v)), Hll by lia.
      replace (k - length L)%nat with (S (k - length L - 1)) at 1 by lia. cbn [take].
      rewrite dwrites_app, dwrites_cons. subst d1. by rewrite home_writes_committed. }
    destruct (recover_prefix d1 L x2 (k - length L - 1)) as [Hh Hr]; [by rewrite Hs|..|done|].
    + rewrite Hs. split; [lia|by rewrite Hlh1].
    + split; [done|]. intros b Hb. rewrite Hr by done. by apply replay_committed.
Qed.
End replay.

(** ** Rebooting *)

(** The part of the boot sequence that touches the disk: [binit] on zeroed
    memory, then [initlog] (run by the first process, from [fsinit]). *)
Definition reboot `{DiskDev D} (me dev : Z) (sb : superblock) (d : D)
    : outcome (lstate (bstate D)) unit :=
  (onb binit ;; initlog me dev sb) (LState (bcache0 d) zero_log).

Section reboot.
(** The log lies where the superblock says, within the disk. *)
Context (me dev : Z) (sb : superblock) (start : Z).
Context (Hdev : 0 < dev < 4294967296) (Hsb : s32 (sb_logstart sb) = start).
Context (Hstart : 0 ≤ start ∧ start + LOGSIZE < 2147483648).

Lemma reboot_spec `{HD : DiskDev D} `{HL : !DiskLaws D} (d : D) :
  hdr_ok start (dread d start) →
  ∃ st x v, reboot me dev sb d = Ret tt st ∧ hdr_empty x ∧
    dk (l_buf st) = dwrites d (home_writes start (disk_lh (dread d start)) d ++ [(start, x)]) ∧
    log_is dev start (l_log st) [] ∧ l_outstanding (l_log st) = 0 ∧ l_committing (l_log st) = 0 ∧
    l_size (l_log st) = s32 (sb_nlog sb) ∧
    brep (BufSpec := bio_spec dev me) (l_buf st) v ∅ ∅ ∅ (dk (l_buf st)).
Proof.
  intros Hh. unfold reboot.
  assert (u32 dev = dev) as Hud by (apply u32_small; lia).
  assert (wp (onb binit ;; initlog me dev sb) (LState (bcache0 d) zero_log) (λ _ st,
    ∃ x v, hdr_empty x ∧ log_is dev start (l_log st) [] ∧
      log_ctl (l_log st) = (s32 (sb_nlog sb), 0, 0) ∧
      brep (BufSpec := bio_spec dev me) (l_buf st) v ∅ ∅ ∅
        (dwrites d (home_writes start (disk_lh (dread d start)) d ++ [(start, x)])))) as Hwp.
  { wp_step. apply wp_onb. eapply wp_mono; [apply (binit_rep dev me); lia|].
    intros [] s Hs. unfold initlog. change (sizeof_logheader >=? BSIZE) with false. cbn match.
    unfold setlog. wp_steps. cbn [l_buf l_log].
    eapply wp_mono; [eapply recover_spec; [done| |done|done]|].
    - split_and!; done.
    - intros [] st (Hl & Hc & x & v & ? & ? & ? & Hb). exists x, v. done. }
  destruct (proj1 (wp_Ret _ _ _) Hwp) as ([] & st & Hr & x & v & Hx & Hl & Hc & Hb).
  pose proof (bio_rep_disk _ _ _ _ _ _ _ _ Hb) as Hd.
  unfold log_ctl in Hc. injection Hc as ???.
  exists st, x, v. rewrite Hd. split_and!; done.
Qed.

Lemma reboot_contents `{HD : DiskDev D} `{HL : !DiskLaws D} (d : D) :
  hdr_ok start (dread d start) →
  ∃ st, reboot me dev sb d = Ret tt st ∧
    ∀ b, ¬ in_log start b → dread (dk (l_buf st)) b = replay start d b.
Proof.
  intros Hh. destruct (reboot_spec d Hh) as (st & x & v & Hr & (Hx & _) & Hd & _).
  exists st. split; [done|]. intros b Hb. rewrite Hd, dwrites_snoc.
  rewrite dread_dwrite_ne; [|done|intros <-; by apply Hb, start_in_log].
  apply dread_installed; [done|]. by destruct Hh.
Qed.

(** C1: [commit] is atomic and durable across crashes. If a transaction with
    the blocks [L] is in the log, [commit] returns, and whatever number [k] of
    block writes reached the disk before a crash, rebooting yields, outside
    the log, the old contents of the disk when the header of the transaction
    was not yet written and the new contents [v] of every block when it was. *)
Theorem commit_crash_atomic (st : lstate (bstate tdisk)) (L : list Z) (v : Z → block) :
  let d := dk (l_buf st) in
  log_is dev start (l_log st) L → lh_ok start L →
  bio_rep dev me (l_buf st) v (list_to_set L) ∅ ∅ d → hdr_empty (dread d start) →
  ∃ st', commit me st = Ret tt st' ∧
    ∀ k, (length (t_writes d) ≤ k)%nat →
      ∃ st2, reboot me dev sb (crash_at k (dk (l_buf st'))) = Ret tt st2 ∧
        ∀ b, ¬ in_log start b →
          dread (dk (l_buf st2)) b =
            if decide (k ≤ length (t_writes d) + length L)%nat then dread d b else v b.
Proof.
  intros d Hl Hok Hb Hd0.
  assert (∀ b, length (v b) = BLK) as Hv by (intros; by eapply (brep_length (BufSpec := bio_spec dev me))).
  assert (∀ b, b ∉ L → v b = dread d b) as Hcl.
  { intros b HbL. eapply (brep_clean (BufSpec := bio_spec dev me)); [done| |set_solver].
    by rewrite elem_of_list_to_set. }
  assert (∃ st' w, commit me st = Ret tt st' ∧ dk (l_buf st') = dwrites d w ∧
    ∀ k, let c := dwrites (dwrites (t_base d) (t_writes d)) (take k w) in
      hdr_ok start (dread c start) ∧ ∀ b, ¬ in_log start b →
        replay start c b = if decide (k ≤ length L)%nat then dread d b else v b)
    as (st' & w & Hr & Hw & Hk).
  { destruct (decide (L = [])) as [->|Hne].
    - exists st, []. destruct Hl as (_ & _ & _ & Hn & _). split_and!; [|done|].
      + unfold commit, getlog, gets, mbind, M_bind. by rewrite Hn.
      + intros k. rewrite take_nil. split; [by apply hdr_empty_ok|]. intros b Hb'.
        rewrite replay_empty by apply Hd0. case_decide; [done|]. symmetry. apply Hcl. by intros ?%elem_of_nil.
    - destruct (proj1 (wp_Ret _ _ _) (commit_spec (BS := bio_spec dev me) dev me start Hstart st L v d Hl Hok Hne Hb))
        as ([] & st' & Hr & _ & x1 & x2 & v' & Hx1 & Hx2 & Hlh1 & Hn1 & Hlh2 & Hn2 & Hb').
      exists st', (commit_writes start L v x1 x2). split_and!; [done|by eapply bio_rep_disk|].
      intros k. by apply (commit_prefix start (dwrites (t_base d) (t_writes d)) L v x1 x2 k). }
  exists st'. split; [done|]. intros k Hle. rewrite Hw, crash_at_dwrites by done.
  destruct (Hk (k - length (t_writes d))%nat) as [Hh Hrep].
  destruct (reboot_contents _ Hh) as (st2 & Hr2 & Hc2). exists st2. split; [done|].
  intros b Hb'. rewrite Hc2, Hrep by done. apply decide_ext. lia.
Qed.

(** C7: recovery may itself be interrupted. Rebooting installs exactly what
    the log says ([replay]) and, crash during it wherever one likes, rebooting
    again gives the same contents. *)
Theorem recovery_restartable (c : block_map) :
  hdr_ok start (dread c start) →
  ∃ st, reboot me dev sb (TDisk c []) = Ret tt st ∧
    (∀ b, ¬ in_log start b → dread (dk (l_buf st)) b = replay start c b) ∧
    ∀ k, ∃ st2, reboot me dev sb (crash_at k (dk (l_buf st))) = Ret tt st2 ∧
      ∀ b, ¬ in_log start b → dread (dk (l_buf st2)) b = replay start c b.
Proof.
  intros Hh. assert (hdr_ok start (dread (TDisk c []) start)) as Ht.
  { by replace (dread (TDisk c []) start) with (dread c start). }
  destruct (reboot_spec (TDisk c []) Ht) as (st & x & v & Hr & Hx & Hd & _).
  destruct (reboot_contents (TDisk c []) Ht) as (st' & Hr' & Hc).
  assert (st' = st) as -> by congruence. exists st. split_and!; [done|done|].
  intros k. rewrite Hd, crash_at_dwrites by (cbn; lia).
  destruct (recover_prefix start c (disk_lh (dread c start)) x (k - 0) eq_refl Hh Hx) as [Hh' Hrep].
  destruct (reboot_contents _ Hh') as (st2 & Hr2 & Hc2). exists st2. split; [done|].
  intros b Hb. rewrite Hc2 by done. by apply Hrep.
Qed.
End reboot.

(** ** A transaction of one block *)

(** Start a transaction and replace the contents of block [b]. *)
Definition put_block {S} `{BufOps S} (me dev b : Z) (x : block) : M (lstate S) unit :=
  begin_op ;;
  i ← onb (op_bread me dev b);
  onb (op_setdata i x) ;;
  log_write i ;;
  onb (op_brelse me i).

Section put_block.
Context {S D : Type} `{OB : BufOps S} `{HD : DiskDev D} `{HL : !DiskLaws D}.
Context (dev me : Z) `{BS : !BufSpec S D dev me} (start : Z).
Context (Hstart : 0 ≤ start ∧ start + LOGSIZE < 2147483648).

Lemma begin_op_idle (st : lstate S) (Q : unit → lstate S → Prop) :
  log_is dev start (l_log st) [] → l_outstanding (l_log st) = 0 → l_committing (l_log st) = 0 →
  Q tt (LState (l_buf st) (lset_outstanding 1 (l_log st))) → wp begin_op st Q.
Proof.
  intros (_ & _ & _ & Hn & _) Ho Hc HQ. unfold begin_op, getlog, setlog. wp_step. wp_step.
  rewrite Hc, Hn, Ho. change (negb (0 =? 0)) with false. cbn match.
  change (Z.of_nat (length []) + (0 + 1) * MAXOPBLOCKS >? LOGSIZE) with false. cbn match.
  by wp_step.
Qed.

Lemma put_block_spec (st : lstate S) v d b x :
  log_is dev start (l_log st) [] → brep (l_buf st) v ∅ ∅ ∅ d →
  l_outstanding (l_log st) = 0 → l_committing (l_log st) = 0 → 2 ≤ l_size (l_log st) ≤ LOGSIZE →
  0 ≤ b < 2147483648 → ¬ in_log start b → length x = BLK →
  wp (put_block me dev b x) st (λ _ st', ∃ v', log_is dev start (l_log st') [b] ∧ v' b = x ∧
    brep (l_buf st') v' (list_to_set [b]) ∅ ∅ d).
Proof.
  intros Hl Hb Ho Hc Hz Hb0 Hbl Hx. unfold put_block. wp_step. apply begin_op_idle; [done..|].
  wp_step. apply wp_onb. cbn [l_buf l_log].
  eapply wp_mono; [eapply (spec_bread _ v ∅ ∅ ∅ d b); [done|rewrite img_none; set_solver|]|].
  { right. rewrite img_none, union_empty_r_L, size_empty. cbv. lia. }
  intros i s1 [_ Hb1]. assert (<[i := b]> (∅ : gmap nat Z) !! i = Some b) as Hi by apply lookup_insert_eq.
  buf_step spec_setdata. intros [] s2 Hb2. wp_step.
  eapply wp_mono; [eapply (log_write_spec dev me start _ [] _ _ _ _ i b)|];
    cbn [l_log l_buf lset_outstanding l_outstanding l_size length]; try done; try lia.
  { apply lh_ok_nil. }
  intros [] st3 (Hl' & _ & Hb3 & _). apply wp_onb.
  eapply wp_mono; [eapply (spec_brelse _ _ _ _ _ _ i b); [done..|set_solver]|].
  intros [] s4 Hb4. rewrite held_one in Hb4. eexists. split_and!; [done| |]; cbn [l_buf l_log].
  - by rewrite fn_lookup_insert.
  - by replace (({[b]} ∪ ∅) ∖ {[b]}) with (∅ : gset Z) in Hb4 by set_solver.
Qed.
End put_block.

Definition demo_sb : superblock := SuperBlock FSMAGIC 2000 1954 200 30 2 32 45.
Definition demo_data : block := replicate BLK 7.

Lemma hdr_zero : hdr_empty (dread (∅ : block_map) 2).
Proof. split_and!; vm_compute; done. Qed.

Lemma hdr_zero_ok : hdr_ok 2 (dread (TDisk ∅ []) 2).
Proof.
  replace (dread (TDisk ∅ []) 2) with (dread (∅ : block_map) 2) by done.
  apply hdr_empty_ok, hdr_zero.
Qed.

(** Boot on a blank disk and change block 50. *)
Lemma demo_tx : ∃ st0 st v,
  reboot 1 1 demo_sb (TDisk ∅ []) = Ret tt st0 ∧ put_block 1 1 50 demo_data st0 = Ret tt st ∧
  log_is 1 2 (l_log st) [50] ∧ bio_rep 1 1 (l_buf st) v (list_to_set [50]) ∅ ∅ (dk (l_buf st)) ∧
  hdr_empty (dread (dk (l_buf st)) 2) ∧ v 50 = demo_data.
Proof.
  assert (0 ≤ 2 ∧ 2 + LOGSIZE < 2147483648) as Hs by (cbv; done).
  destruct (reboot_spec 1 1 demo_sb 2 ltac:(lia) eq_refl Hs (TDisk ∅ []) hdr_zero_ok)
    as (st0 & x & v & Hr & Hx & Hd & Hl & Ho & Hc & Hz & Hb).
  assert (hdr_empty (dread (dk (l_buf st0)) 2)) as Hd2.
  { rewrite Hd, dwrites_snoc, dread_dwrite_eq; [done|by destruct Hx]. }
  assert (2 ≤ l_size (l_log st0) ≤ LOGSIZE) as Hz2 by (rewrite Hz; clear; by vm_compute).
  assert (¬ in_log 2 50) as H50 by (unfold in_log, LOGSIZE, MAXOPBLOCKS; lia).
  destruct (proj1 (wp_Ret _ _ _) (put_block_spec (BS := bio_spec 1 1) 1 1 2 Hs st0 v
    (dk (l_buf st0)) 50 demo_data Hl Hb Ho Hc Hz2 ltac:(lia) H50 (length_replicate _ _)))
    as ([] & st & Hr2 & v' & Hl' & Hv' & Hb').
  pose proof (bio_rep_disk _ _ _ _ _ _ _ _ Hb') as Hd'.
  exists st0, st, v'. rewrite Hd'. split_and!; done.
Qed.

Lemma demo_lh_ok : lh_ok 2 [50].
Proof.
  split; [apply NoDup_singleton|]. split; [done|].
  intros b ->%list_elem_of_singleton. unfold in_log, LOGSIZE, MAXOPBLOCKS. lia.
Qed.

(** Cutting the power while the transaction of [demo_tx] commits. *)
Lemma commit_crash_atomic_witness : ∃ st st' v,
  commit 1 st = Ret tt st' ∧ v 50 = demo_data ∧
  ∀ k, (length (t_writes (dk (l_buf st))) ≤ k)%nat →
    ∃ st2, reboot 1 1 demo_sb (crash_at k (dk (l_buf st'))) = Ret tt st2 ∧
      ∀ b, ¬ in_log 2 b →
        dread (dk (l_buf st2)) b =
          if decide (k ≤ length (t_writes (dk (l_buf st))) + 1)%nat
          then dread (dk (l_buf st)) b else v b.
Proof.
  destruct demo_tx as (st0 & st & v & _ & _ & Hl & Hb & Hd & Hv).
  destruct (commit_crash_atomic 1 1 demo_sb 2 ltac:(lia) eq_refl ltac:(by vm_compute) st [50] v
    Hl demo_lh_ok Hb Hd) as (st' & Hr & Hk).
  exists st, st', v. split; [exact Hr|]. split; [exact Hv|]. exact Hk.
Defined.

(** Interrupting the recovery of a blank disk. *)
Lemma recovery_restartable_witness : ∃ st,
  reboot 1 1 demo_sb (TDisk ∅ []) = Ret tt st ∧
  ∀ k, ∃ st2, reboot 1 1 demo_sb (crash_at k (dk (l_buf st))) = Ret tt st2.
Proof.
  destruct (recovery_restartable 1 1 demo_sb 2 ltac:(lia) eq_refl ltac:(by vm_compute) ∅
    (hdr_empty_ok 2 _ hdr_zero)) as (st & Hr & _ & Hk).
  exists st. split; [exact Hr|]. intros k. destruct (Hk k) as (st2 & Hr2 & _).
  exists st2. exact Hr2.
Defined.
