(* ===== verification/LogProto.v ===== *)
(** * Concurrent transactions: who may enter the log, and does it overflow?

    Any number of processes run [begin_op], [log_write] and [end_op] of
    kernel/log.c in any order; each critical section is one step, and the
    process whose [end_op] found itself last commits in a step of its own. Each
    transaction writes at most [MAXOPBLOCKS] blocks, as the comment in
    kernel/param.h asks. *)
From Stdlib Require Import ZArith Lia.
From stdpp Require Import prelude functions strings gmap.
From S2P Require Import Prelude Bytes Param BufIface Log.

(** The protocol depends on [struct log] only: here buffer [i] stands for block
    [i], and the buffer operations do nothing else. *)
#[export] Instance nobuf_ops : BufOps unit := {
  op_bread me dev b := mret (Z.to_nat b);
  op_bwrite me i := mret tt;
  op_brelse me i := mret tt;
  op_bpin i := mret tt;
  op_bunpin i := mret tt;
  op_blockno i := mret (Z.of_nat i);
  op_data i := mret zero_block;
  op_setdata i d := mret tt
}.

(** [ops]: the processes between [begin_op] and [end_op], each with the number
    of [log_write]s it has done; [comm]: a process is in [commit]. *)
Record pstate := PState { p_log : lstate unit; p_ops : gmap Z Z; p_comm : bool }.

Inductive lstep : pstate → pstate → Prop :=
| step_begin st ops c p st' :
    ops !! p = None → begin_op st = Ret tt st' →
    lstep (PState st ops c) (PState st' (<[p := 0]> ops) c)
| step_wait st ops c p ch st' :
    ops !! p = None → begin_op st = Sleep ch st' →
    lstep (PState st ops c) (PState st' ops c)
| step_write st ops c p k b st' :
    ops !! p = Some k → k < MAXOPBLOCKS → log_write b st = Ret tt st' →
    lstep (PState st ops c) (PState st' (<[p := k + 1]> ops) c)
| step_leave st ops c p k st' do_commit :
    ops !! p = Some k → end_op_leave st = Ret do_commit st' →
    lstep (PState st ops c) (PState st' (delete p ops) (c || do_commit))
| step_commit st ops me st' :
    end_op_commit me st = Ret tt st' →
    lstep (PState st ops true) (PState st' ops false).

(** The log as [initlog] leaves it, with [lsize] blocks. *)
Definition log_start (lsize : Z) : pstate :=
  PState (LState tt (Log 0 lsize 0 0 1 (l_lh zero_log))) ∅ false.

(** Log blocks promised to running transactions and not used yet. *)
Definition reserved (ops : gmap Z Z) : Z :=
  map_fold (λ _ k acc, MAXOPBLOCKS - k + acc) 0 ops.

Lemma reserved_insert ops p k :
  ops !! p = None → reserved (<[p := k]> ops) = MAXOPBLOCKS - k + reserved ops.
Proof.
  intros Hp. unfold reserved. rewrite map_fold_insert_L; [done| |done].
  intros. lia.
Qed.

Lemma reserved_delete ops p k :
  ops !! p = Some k → reserved ops = MAXOPBLOCKS - k + reserved (delete p ops).
Proof.
  intros Hp. rewrite <-(reserved_insert _ p) by apply lookup_delete_eq.
  by rewrite insert_delete_id.
Qed.

Record log_inv (lsize : Z) (s : pstate) : Prop := {
  li_size : l_size (l_log (p_log s)) = lsize;
  li_len : Z.of_nat (length (lh_block (l_lh (l_log (p_log s))))) = LOGSIZE;
  li_out : l_outstanding (l_log (p_log s)) = Z.of_nat (size (p_ops s));
  li_few : Z.of_nat (size (p_ops s)) * MAXOPBLOCKS ≤ LOGSIZE;
  li_comm : l_committing (l_log (p_log s)) = Z.b2z (p_comm s);
  li_excl : p_comm s = true → p_ops s = ∅;
  li_used : ∀ p k, p_ops s !! p = Some k → 0 ≤ k ≤ MAXOPBLOCKS;
  li_n : 0 ≤ lh_n (l_lh (l_log (p_log s)));
  li_space : lh_n (l_lh (l_log (p_log s))) + reserved (p_ops s) ≤ LOGSIZE
}.

Lemma reserved_bounds ops :
  (∀ p k, ops !! p = Some k → 0 ≤ k ≤ MAXOPBLOCKS) →
  0 ≤ reserved ops ≤ Z.of_nat (size ops) * MAXOPBLOCKS.
Proof.
  induction ops as [|p k ops Hp IH] using map_ind; intros Hk.
  - unfold reserved. rewrite map_fold_empty, map_size_empty. lia.
  - rewrite reserved_insert, map_size_insert_None by done.
    pose proof (Hk p k (lookup_insert_eq _ _ _)).
    assert (0 ≤ reserved ops ≤ Z.of_nat (size ops) * MAXOPBLOCKS); [|unfold MAXOPBLOCKS in *; lia].
    apply IH. intros q k' Hq. apply (Hk q). rewrite lookup_insert_ne; [done|]. congruence.
Qed.

Lemma wp_inv {S A} (m : M S A) s (Q : A → S → Prop) a s' : wp m s Q → m s = Ret a s' → Q a s'.
Proof. unfold wp. by intros ? Hm; rewrite Hm in *. Qed.

(** ** What the steps do to [struct log] *)

Lemma begin_op_cases (st : lstate unit) :
  begin_op st = Sleep logchan st ∨
  (begin_op st = Ret tt (LState tt (lset_outstanding (s32 (l_outstanding (l_log st) + 1)) (l_log st))) ∧
   l_committing (l_log st) = 0 ∧
   lh_n (l_lh (l_log st)) + (l_outstanding (l_log st) + 1) * MAXOPBLOCKS ≤ LOGSIZE).
Proof.
  destruct st as [[] l]. unfold begin_op, getlog, gets, setlog, modify, msleep, mbind, M_bind.
  cbn [l_log l_buf]. destruct (l_committing l =? 0) eqn:Hc; cbn [negb]; [|by left].
  apply Z.eqb_eq in Hc. rewrite Z.gtb_ltb. destruct (LOGSIZE <? _) eqn:Hn; [by left|].
  apply Z.ltb_ge in Hn. by right.
Qed.

Lemma mfor_keeps_log n (body : nat → M (lstate unit) unit) (st : lstate unit) :
  (∀ i st', (i < n)%nat → l_log st' = l_log st → wp (body i) st' (λ _ st'', l_log st'' = l_log st)) →
  wp (mfor (seq 0 n) body) st (λ _ st', l_log st' = l_log st).
Proof. intros Hb. by apply (wp_mfor_seq n body (λ _ st', l_log st' = l_log st)). Qed.

Lemma wp_getblock_in (st : lstate unit) i (Q : Z → lstate unit → Prop) :
  (i < length (lh_block (l_lh (l_log st))))%nat → (∀ b, Q b st) → wp (getblock i) st Q.
Proof.
  intros [b Hb]%lookup_lt_is_Some_2 HQ. unfold getblock, getlog. wp_steps. by eapply wp_mnth.
Qed.

(** Runs a function that uses buffers only. *)
Ltac nobuf := repeat first [wp_step | apply wp_getblock_in; [|intros ?]
                           | match goal with |- wp (onb _) _ _ => unfold onb end
                           | progress cbn [op_bread op_bwrite op_brelse op_bpin op_bunpin
                               op_blockno op_data op_setdata nobuf_ops]].

Lemma commit_nobuf me (st : lstate unit) :
  0 ≤ lh_n (l_lh (l_log st)) ≤ Z.of_nat (length (lh_block (l_lh (l_log st)))) →
  wp (commit me) st (λ _ st', l_log st' = lset_n 0 (l_log st)).
Proof.
  intros Hn.
  assert (∀ st', 0 ≤ lh_n (l_lh (l_log st')) ≤ Z.of_nat (length (lh_block (l_lh (l_log st')))) →
    wp (write_head me) st' (λ _ st'', l_log st'' = l_log st')) as Hwh.
  { intros st' Hn'. unfold write_head, getlog. nobuf. cbn [l_log].
    eapply wp_mono; [apply mfor_keeps_log|intros; nobuf; done].
    intros i st1 Hi Hl. cbn [l_log] in Hl. nobuf; [cbn [l_log]; rewrite Hl; lia|done]. }
  unfold commit, getlog. wp_step. wp_step. rewrite Z.gtb_ltb.
  destruct (0 <? _) eqn:E.
  - unfold write_log, install_trans, write_log_one, install_one, getlog, setlog. wp_steps.
    eapply wp_mono; [apply mfor_keeps_log|].
    { intros i st1 Hi Hl. nobuf; [cbn [l_log]; rewrite Hl; lia|done]. }
    intros [] st1 Hl1. wp_step. eapply wp_mono; [apply Hwh; by rewrite Hl1|].
    intros [] st2 Hl2. wp_steps. eapply wp_mono; [apply mfor_keeps_log|].
    { intros i st3 Hi Hl. nobuf; [cbn [l_log]; rewrite Hl; rewrite Hl2, Hl1 in *; lia|].
      cbn [mwhen negb]. nobuf. done. }
    intros [] st3 Hl3. wp_steps. eapply wp_mono; [apply Hwh; cbn; rewrite Hl3, Hl2, Hl1; lia|].
    intros [] st4 ->. cbn [l_log]. by rewrite Hl3, Hl2, Hl1.
  - wp_steps. apply Z.ltb_ge in E. assert (lh_n (l_lh (l_log st)) = 0) as E0 by lia.
    destruct st as [? [? ? ? ? ? [n b]]]. cbn in *. by subst n.
Qed.

Lemma log_write_nobuf (st : lstate unit) b :
  0 ≤ lh_n (l_lh (l_log st)) < LOGSIZE → lh_n (l_lh (l_log st)) < l_size (l_log st) - 1 →
  1 ≤ l_outstanding (l_log st) → Z.of_nat (length (lh_block (l_lh (l_log st)))) = LOGSIZE →
  wp (log_write b) st (λ _ st',
    l_size (l_log st') = l_size (l_log st) ∧ l_outstanding (l_log st') = l_outstanding (l_log st) ∧
    l_committing (l_log st') = l_committing (l_log st) ∧
    length (lh_block (l_lh (l_log st'))) = length (lh_block (l_lh (l_log st))) ∧
    lh_n (l_lh (l_log st)) ≤ lh_n (l_lh (l_log st')) ≤ lh_n (l_lh (l_log st)) + 1).
Proof.
  intros [Hn0 Hn1] Hsz Hout Hlen. unfold log_write, getlog. wp_step. wp_step.
  rewrite !Z.geb_leb, (proj2 (Z.leb_gt _ _) Hn1), (proj2 (Z.leb_gt _ _) Hsz). cbn [orb].
  rewrite (proj2 (Z.ltb_ge _ _)) by done. nobuf. cbv zeta. unfold setblock. wp_step.
  apply wp_getblock_in.
  - cbn [l_log]. unfold absorb_index.
    destruct (list_find _ _) as [[i x]|] eqn:E; [|lia].
    apply list_find_Some in E as (Hi & _). apply lookup_lt_Some in Hi.
    rewrite length_take in Hi. lia.
  - intros y. unfold setlog. wp_step.
    assert (∀ i z, length (<[i := z]> (lh_block (l_lh (l_log st)))) = length (lh_block (l_lh (l_log st))))
      by (intros; apply length_insert).
    destruct (_ =? _); nobuf; split_and!; cbn; auto; lia.
Qed.

Lemma end_op_leave_nobuf (st : lstate unit) :
  l_committing (l_log st) = 0 → 0 ≤ l_outstanding (l_log st) - 1 < 2147483648 →
  wp end_op_leave st (λ r st',
    r = (l_outstanding (l_log st) - 1 =? 0) ∧
    l_log st' = lset_committing (Z.b2z r) (lset_outstanding (l_outstanding (l_log st) - 1) (l_log st))).
Proof.
  intros Hc Ho. unfold end_op_leave, getlog, setlog. wp_steps.
  cbn [l_log lset_outstanding l_committing l_outstanding]. rewrite Hc, s32_small by lia.
  cbn [Z.eqb negb]. destruct (_ =? 0) eqn:E; wp_steps; (split; [done|]); [done|].
  cbn [Z.b2z]. unfold lset_outstanding, lset_committing. cbn. by rewrite Hc.
Qed.

(** ** The invariant *)

(** While a transaction runs nobody commits. *)
Lemma inv_op lsize st ops c p k :
  log_inv lsize (PState st ops c) → ops !! p = Some k →
  (0 < size ops)%nat ∧ 0 ≤ reserved (delete p ops) ∧ c = false.
Proof.
  intros [_ _ _ _ _ Hex Hused _ _] Hp. cbn [p_log p_ops p_comm] in *. split_and!.
  - rewrite <-(insert_delete_id ops p k), map_size_insert_None by (done || apply lookup_delete_eq). lia.
  - apply reserved_bounds. intros q k' [_ Hq]%lookup_delete_Some. by eapply Hused.
  - destruct c; [|done]. rewrite Hex in Hp by done. by rewrite lookup_empty in Hp.
Qed.

Lemma inv_begin lsize st ops c p st' :
  log_inv lsize (PState st ops c) → ops !! p = None → begin_op st = Ret tt st' →
  log_inv lsize (PState st' (<[p := 0]> ops) c).
Proof.
  intros [Hsz Hlen Hout Hfew Hcomm Hex Hused Hn Hsp] Hp Hb. cbn [p_log p_ops p_comm] in *.
  pose proof (reserved_bounds _ Hused) as Hres.
  destruct (begin_op_cases st) as [Hb'|(Hb' & Hc & Hg)]; rewrite Hb' in Hb; [done|].
  injection Hb as <-. rewrite Hout in *. unfold LOGSIZE, MAXOPBLOCKS in *.
  assert (c = false) as -> by (destruct c; [by rewrite Hc in Hcomm|done]).
  split; cbn [p_log p_ops p_comm l_log lset_outstanding l_size l_lh l_outstanding l_committing];
    rewrite ?reserved_insert, ?map_size_insert_None by done; unfold LOGSIZE, MAXOPBLOCKS in *;
    try done; try lia.
  - rewrite s32_small; lia.
  - intros q k. destruct (decide (p = q)) as [<-|]; [rewrite lookup_insert_eq|rewrite lookup_insert_ne by done].
    + injection 1 as <-. lia.
    + apply Hused.
Qed.

Lemma inv_write lsize st ops c p k b st' :
  log_inv lsize (PState st ops c) → ops !! p = Some k → k < MAXOPBLOCKS →
  lh_n (l_lh (l_log st)) < lsize - 1 →
  log_write b st = Ret tt st' → log_inv lsize (PState st' (<[p := k + 1]> ops) c).
Proof.
  intros Hinv Hp Hk Hlt Hw. destruct (inv_op _ _ _ _ _ _ Hinv Hp) as (Hpos & Hres & Hc).
  destruct Hinv as [Hsz Hlen Hout Hfew Hcomm Hex Hused Hn Hsp]. cbn [p_log p_ops p_comm] in *.
  rewrite (reserved_delete _ _ _ Hp) in Hsp. destruct (Hused _ _ Hp).
  eapply wp_inv in Hw; [|apply log_write_nobuf; lia]. destruct Hw as (Hs' & Ho' & Hc' & Hl' & Hn').
  assert (size (<[p := k + 1]> ops) = size ops) as Hso by (by rewrite map_size_insert, Hp).
  split; cbn [p_log p_ops p_comm]; rewrite ?Hs', ?Ho', ?Hc', ?Hl', ?Hso; try done; try lia.
  - by rewrite Hc.
  - intros q k'. destruct (decide (p = q)) as [<-|]; [rewrite lookup_insert_eq|rewrite lookup_insert_ne by done].
    + injection 1 as <-. lia.
    + apply Hused.
  - rewrite (reserved_delete (<[p := k + 1]> ops) p (k + 1)) by apply lookup_insert_eq.
    rewrite delete_insert_eq. lia.
Qed.

Lemma inv_leave lsize st ops c p k st' r :
  log_inv lsize (PState st ops c) → ops !! p = Some k → end_op_leave st = Ret r st' →
  log_inv lsize (PState st' (delete p ops) (c || r)).
Proof.
  intros Hinv Hp Hl. destruct (inv_op _ _ _ _ _ _ Hinv Hp) as (Hpos & Hres & ->).
  destruct Hinv as [Hsz Hlen Hout Hfew Hcomm Hex Hused Hn Hsp]. cbn [p_log p_ops p_comm] in *.
  rewrite (reserved_delete _ _ _ Hp) in Hsp. destruct (Hused _ _ Hp).
  assert (size ops = S (size (delete p ops))) as Hso.
  { rewrite <-(insert_delete_id ops p k) at 1 by done. apply map_size_insert_None, lookup_delete_eq. }
  unfold LOGSIZE, MAXOPBLOCKS in *.
  eapply wp_inv in Hl; [|apply end_op_leave_nobuf; [done|lia]]. destruct Hl as [Hr Hl'].
  split; cbn [p_log p_ops p_comm]; rewrite ?Hl';
    cbn [lset_committing lset_outstanding l_size l_lh l_outstanding l_committing];
    unfold LOGSIZE, MAXOPBLOCKS in *; try done; try lia.
  - cbn [orb]. intros Hrt. rewrite Hrt in Hr. symmetry in Hr. apply Z.eqb_eq in Hr.
    apply map_size_empty_inv. lia.
  - intros q k' [_ Hq]%lookup_delete_Some. by eapply Hused.
Qed.

Lemma wp_end_op_commit lsize me st ops :
  log_inv lsize (PState st ops true) →
  wp (end_op_commit me) st (λ _ st', l_log st' = lset_committing 0 (lset_n 0 (l_log st))).
Proof.
  intros [Hsz Hlen Hout Hfew Hcomm Hex Hused Hn Hsp]. cbn [p_log p_ops p_comm] in *.
  pose proof (reserved_bounds _ Hused). unfold end_op_commit. wp_step.
  eapply wp_mono; [apply commit_nobuf; lia|]. intros [] st1 Hl1.
  unfold setlog. wp_step. cbn. by rewrite Hl1.
Qed.

Lemma inv_commit lsize st ops me st' :
  log_inv lsize (PState st ops true) → end_op_commit me st = Ret tt st' →
  log_inv lsize (PState st' ops false).
Proof.
  intros Hinv Hc. eapply wp_inv in Hc; [|by eapply wp_end_op_commit].
  destruct Hinv as [Hsz Hlen Hout Hfew Hcomm Hex Hused Hn Hsp]. cbn [p_log p_ops p_comm] in *.
  pose proof (reserved_bounds _ Hused).
  split; cbn [p_log p_ops p_comm]; rewrite ?Hc;
    cbn [lset_committing lset_n l_size l_lh l_outstanding l_committing lh_block lh_n]; try done; lia.
Qed.

(** [log_write] panics rather than overflow the log. *)
Lemma log_write_room (st st' : lstate unit) b :
  log_write b st = Ret tt st' → lh_n (l_lh (l_log st)) < l_size (l_log st) - 1.
Proof.
  intros Hw. destruct (decide (lh_n (l_lh (l_log st)) < l_size (l_log st) - 1)) as [|Hge]; [done|].
  unfold log_write, getlog, gets, mbind, M_bind in Hw.
  by rewrite (Z.geb_leb _ (l_size _ - 1)), (proj2 (Z.leb_le _ _)), orb_true_r in Hw by lia.
Qed.

Lemma log_inv_step lsize s s' : log_inv lsize s → lstep s s' → log_inv lsize s'.
Proof.
  intros Hinv Hstep. destruct Hstep as [st ops c p st' Hp Hb|st ops c p ch st' Hp Hb
    |st ops c p k b st' Hp Hk Hw|st ops c p k st' r Hp Hl|st ops me st' Hc].
  - by eapply inv_begin.
  - destruct (begin_op_cases st) as [Hb'|(Hb' & _)]; rewrite Hb' in Hb; [|done]. by injection Hb as _ <-.
  - eapply inv_write; try done. apply log_write_room in Hw. by destruct Hinv as [<- _].
  - by eapply inv_leave.
  - by eapply inv_commit.
Qed.

Lemma log_inv_reach lsize s : rtc lstep (log_start lsize) s → log_inv lsize s.
Proof.
  assert (log_inv lsize (log_start lsize)) as H0.
  { split; by cbn. }
  intros Hr. induction Hr as [|s1 s2 s3 Hs _ IH]; [done|]. apply IH. by eapply log_inv_step.
Qed.

(** ** Running the protocol *)

Inductive action := ABegin (p : Z) | AWrite (p : Z) (b : nat) | ALeave (p : Z) | ACommit (p : Z).

Definition pexec (a : action) (s : pstate) : option pstate :=
  match a with
  | ABegin p =>
      match p_ops s !! p, begin_op (p_log s) with
      | None, Ret _ st' => Some (PState st' (<[p := 0]> (p_ops s)) (p_comm s))
      | _, _ => None
      end
  | AWrite p b =>
      match p_ops s !! p with
      | Some k =>
          if k <? MAXOPBLOCKS then
            match log_write b (p_log s) with
            | Ret _ st' => Some (PState st' (<[p := k + 1]> (p_ops s)) (p_comm s))
            | _ => None
            end
          else None
      | None => None
      end
  | ALeave p =>
      match p_ops s !! p, end_op_leave (p_log s) with
      | Some _, Ret r st' => Some (PState st' (delete p (p_ops s)) (p_comm s || r))
      | _, _ => None
      end
  | ACommit p =>
      if p_comm s then
        match end_op_commit p (p_log s) with
        | Ret _ st' => Some (PState st' (p_ops s) false)
        | _ => None
        end
      else None
  end.

Definition pexecs (l : list action) (s : pstate) : option pstate :=
  foldl (λ o a, o ≫= pexec a) (Some s) l.

Lemma pexec_step a s s' : pexec a s = Some s' → lstep s s'.
Proof.
  destruct s as [st ops c], a as [p|p b|p|p]; cbn [pexec p_ops p_log p_comm].
  - destruct (ops !! p) eqn:Hp; [done|]. destruct (begin_op st) as [[] st'| | | |] eqn:Hb; try done.
    injection 1 as <-. by apply step_begin.
  - destruct (ops !! p) as [k|] eqn:Hp; [|done]. destruct (k <? MAXOPBLOCKS) eqn:Hk; [|done].
    destruct (log_write b st) as [[] st'| | | |] eqn:Hw; try done. injection 1 as <-.
    apply step_write with (k := k) (b := b); [done|by apply Z.ltb_lt|done].
  - destruct (ops !! p) as [k|] eqn:Hp; [|done].
    destruct (end_op_leave st) as [r st'| | | |] eqn:Hl; try done. injection 1 as <-.
    by eapply step_leave.
  - destruct c; [|done]. destruct (end_op_commit p st) as [[] st'| | | |] eqn:Hc; try done.
    injection 1 as <-. by eapply step_commit.
Qed.

Lemma pexecs_rtc l s s' : pexecs l s = Some s' → rtc lstep s s'.
Proof.
  revert s'. induction l as [|a l IH] using rev_ind; intros s'; unfold pexecs in *.
  - injection 1 as <-. done.
  - rewrite foldl_app. cbn [foldl]. destruct (foldl _ _ l) as [s1|]; [|done]. cbn [mbind option_bind].
    intros Ha%pexec_step. eapply rtc_r; [by apply IH|done].
Qed.



(** Three transactions of ten blocks each, up to the last block. *)
Definition three_full : list action :=
  [ABegin 1; ABegin 2; ABegin 3] ++ (AWrite 1 <$> seq 100 10) ++
  (AWrite 2 <$> seq 200 10) ++ (AWrite 3 <$> seq 300 9).

(** C38: the log that [mkfs] lays out is one block too small for the
    reservations that [begin_op] hands out: three admitted transactions that
    keep to [MAXOPBLOCKS] blocks each make [log_write] panic. *)
Theorem log_reservation_off_by_one :
  ∃ s k, rtc lstep (log_start LOGSIZE) s ∧ p_ops s !! 3 = Some k ∧ k < MAXOPBLOCKS ∧
    log_write 309 (p_log s) = Panic "too big a transaction".
Proof.
  destruct (pexecs three_full (log_start LOGSIZE)) as [s|] eqn:E; [|by vm_compute in E].
  exists s, 9. split; [by apply pexecs_rtc in E|].
  vm_compute in E. injection E as <-. done.
Qed.
