(* ===== verification/Fs.v ===== *)
(** * The file system: kernel/fs.c

    Block allocator, inodes, directories and path names, over the log and the
    buffer cache. The in-memory inode table is a list; a [struct inode *] is an
    index into it, and a function that may return 0 returns an [option]. [me]
    is the calling process. Copies to and from user space go through the
    interface [UserMem]. *)
From Stdlib Require Import ZArith Lia.
From stdpp Require Import prelude functions strings gmap.
From S2P Require Import Prelude Bytes Param Str UserMem Sleeplock BufIface Log.

(** ** Data *)

(** The part of an inode that lives on disk. *)
Record dinode := DInode {
  d_type : Z;
  d_major : Z;
  d_minor : Z;
  d_nlink : Z;
  d_size : Z;
  d_addrs : list Z;
  d_mode : Z
}.

Record inode := Inode {
  i_dev : Z;
  i_inum : Z;
  i_ref : Z;
  i_lock : sleeplock;
  i_valid : Z;
  i_d : dinode
}.

Definition T_DIR : Z := 1.
Definition T_FILE : Z := 2.
Definition T_DEVICE : Z := 3.

Definition dset_type t d := DInode t (d_major d) (d_minor d) (d_nlink d) (d_size d) (d_addrs d) (d_mode d).
Definition dset_size n d := DInode (d_type d) (d_major d) (d_minor d) (d_nlink d) n (d_addrs d) (d_mode d).
Definition dset_nlink n d := DInode (d_type d) (d_major d) (d_minor d) n (d_size d) (d_addrs d) (d_mode d).
Definition dset_addrs a d := DInode (d_type d) (d_major d) (d_minor d) (d_nlink d) (d_size d) a (d_mode d).
Definition dset_addr (i : nat) a d := dset_addrs (<[i := a]> (d_addrs d)) d.

Definition iset_key dev inum ref valid x := Inode dev inum ref (i_lock x) valid (i_d x).
Definition iset_ref r x := Inode (i_dev x) (i_inum x) r (i_lock x) (i_valid x) (i_d x).
Definition iset_lock lk x := Inode (i_dev x) (i_inum x) (i_ref x) lk (i_valid x) (i_d x).
Definition iset_valid v x := Inode (i_dev x) (i_inum x) (i_ref x) (i_lock x) v (i_d x).
Definition iset_d d x := Inode (i_dev x) (i_inum x) (i_ref x) (i_lock x) (i_valid x) d.
Definition iupd (f : dinode → dinode) x := iset_d (f (i_d x)) x.

Definition NADDR : nat := Z.to_nat NDIRECT + 1.
Definition zero_dinode : dinode := DInode 0 0 0 0 0 (replicate NADDR 0) 0.
Definition zero_inode : inode := Inode 0 0 0 (SleepLock 0 0) 0 zero_dinode.

(** [struct dinode] in a block, at byte [o]. *)
Definition dinode_get (x : block) (o : nat) : dinode :=
  DInode (s16 (get16 x o)) (s16 (get16 x (o + 2))) (s16 (get16 x (o + 4)))
         (s16 (get16 x (o + 6))) (get32 x (o + 8))
         ((λ i, get32 x (o + 12 + 4 * i)) <$> seq 0 NADDR) (get16 x (o + 64)).

Definition dinode_put (d : dinode) (x : block) (o : nat) : block :=
  let x := put16 x o (d_type d) in
  let x := put16 x (o + 2) (d_major d) in
  let x := put16 x (o + 4) (d_minor d) in
  let x := put16 x (o + 6) (d_nlink d) in
  let x := put32 x (o + 8) (d_size d) in
  let x := put16 x (o + 64) (d_mode d) in
  foldl (λ x i, put32 x (o + 12 + 4 * i) (nth i (d_addrs d) 0)) x (seq 0 NADDR).

Definition dinode_off (inum : Z) : nat := Z.to_nat (inum mod IPB * sizeof_dinode).

Definition superblock_get (x : block) : superblock :=
  SuperBlock (get32 x 0) (get32 x 4) (get32 x 8) (get32 x 12)
             (get32 x 16) (get32 x 20) (get32 x 24) (get32 x 28).

(** [f_loc]: the kernel buffer that [readi] and [writei] are given when
    [user_dst]/[user_src] is 0, i.e. [struct dirent de] on the stack; a kernel
    address is an offset in it. [f_console]: what [printf] printed. *)
Record fstate (S U : Type) := FState {
  f_l : lstate S;
  f_sb : superblock;
  f_it : list inode;
  f_loc : list Z;
  f_mem : U;
  f_console : list string
}.
Arguments FState {S U} _ _ _ _ _ _.
Arguments f_l {S U} _.
Arguments f_sb {S U} _.
Arguments f_it {S U} _.
Arguments f_loc {S U} _.
Arguments f_mem {S U} _.
Arguments f_console {S U} _.

Definition fset_l {S U} (l : lstate S) (s : fstate S U) := FState l (f_sb s) (f_it s) (f_loc s) (f_mem s) (f_console s).
Definition fset_sb {S U} b (s : fstate S U) := FState (f_l s) b (f_it s) (f_loc s) (f_mem s) (f_console s).
Definition fset_it {S U} t (s : fstate S U) := FState (f_l s) (f_sb s) t (f_loc s) (f_mem s) (f_console s).
Definition fset_loc {S U} b (s : fstate S U) := FState (f_l s) (f_sb s) (f_it s) b (f_mem s) (f_console s).
Definition fset_mem {S U} (m : U) (s : fstate S U) := FState (f_l s) (f_sb s) (f_it s) (f_loc s) m (f_console s).
Definition fset_console {S U} c (s : fstate S U) := FState (f_l s) (f_sb s) (f_it s) (f_loc s) (f_mem s) c.

Definition inochan (ip : nat) : chan := Chan "inode" ip.

(** ** Paths *)

(** A path is the list of its bytes, without the final NUL. *)
Definition SLASH : Z := 47.

(** The first loop: past the slashes. *)
Fixpoint skip_slashes (path : list Z) : list Z :=
  match path with
  | c :: path' => if c =? SLASH then skip_slashes path' else path
  | [] => []
  end.

(** The second loop, to the next slash or the end: what was skipped, and the
    rest. *)
Fixpoint skip_name (path : list Z) : list Z * list Z :=
  match path with
  | c :: path' =>
      if c =? SLASH then ([], path)
      else let '(s, r) := skip_name path' in (c :: s, r)
  | [] => ([], [])
  end.

(** The new [name] buffer and the rest of the path; [None] for 0. *)
Definition skipelem (path name : list Z) : option (list Z * list Z) :=
  match skip_slashes path with
  | [] => None
  | path =>
      let '(s, path) := skip_name path in
      let name :=
        if decide (DIRSIZ ≤ length s)%nat then splice name 0 (take DIRSIZ s)
        else splice name 0 (s ++ [0]) in
      Some (name, skip_slashes path)
  end.

Section fs_code.
Context {S U : Type} `{BufOps S} `{UserMem U} (me : Z).
Abbreviation FM := (M (fstate S U)).

(** Calls into the log and the buffer cache. *)
Definition onl {A} (m : M (lstate S) A) : FM A := lift f_l fset_l m.
Definition fb {A} (m : M S A) : FM A := onl (onb m).

Definition printf (msg : string) : FM unit :=
  modify (λ s, fset_console (f_console s ++ [msg]) s).

(** [ip->f] and [ip->f = ...]. *)
Definition getino (ip : nat) : FM inode := s ← mget; mnth (f_it s !! ip).
Definition setino (ip : nat) (f : inode → inode) : FM unit :=
  x ← getino ip; modify (λ s, fset_it (<[ip := f x]> (f_it s)) s).
Definition on_ilock {A} (ip : nat) (m : M sleeplock A) : FM A :=
  x ← getino ip;
  lift (λ _, i_lock x) (λ lk s, fset_it (<[ip := iset_lock lk x]> (f_it s)) s) m.

(** ** Blocks *)

Definition readsb (dev : Z) : FM unit :=
  bp ← fb (op_bread me (u32 dev) 1);
  d ← fb (op_data bp);
  modify (fset_sb (superblock_get d)) ;;
  fb (op_brelse me bp).

Definition fsinit (dev : Z) : FM unit :=
  readsb dev ;;
  sb ← gets f_sb;
  if negb (sb_magic sb =? FSMAGIC) then panic "invalid file system" else
  onl (initlog me dev sb).

Definition bzero (dev bno : Z) : FM unit :=
  bp ← fb (op_bread me (u32 dev) (u32 bno));
  fb (op_setdata bp zero_block) ;;
  onl (log_write bp) ;;
  fb (op_brelse me bp).

(** [m = 1 << (bi % 8)], and the test and update of [bp->data[bi/8]]. *)
Definition bitmask (bi : Z) : Z := Z.shiftl 1 (bi mod 8).
Definition bit_byte (bi : Z) : nat := Z.to_nat (bi / 8).

(** The inner loop of [balloc]: bits of the bitmap block in [bp], which
    describes blocks [b], [b+1], ... *)
Definition balloc_scan (dev b : Z) (bp : nat) (n : nat) : FM (option Z) :=
  mfind (seq 0 n) (λ i,
    let bi := Z.of_nat i in
    let m := bitmask bi in
    d ← fb (op_data bp);
    x ← mnth (d !! bit_byte bi);
    if Z.land x m =? 0 then
      fb (op_setdata bp (<[bit_byte bi := Z.lor x m]> d)) ;;
      onl (log_write bp) ;;
      fb (op_brelse me bp) ;;
      bzero dev (b + bi) ;;
      mret (Some (b + bi))
    else mret None).

Definition balloc (dev : Z) : FM Z :=
  sb ← gets f_sb;
  r ← mfind (seq 0 (Z.to_nat ((sb_size sb + BPB - 1) / BPB))) (λ k,
        let b := BPB * Z.of_nat k in
        bp ← fb (op_bread me dev (u32 (BBLOCK b sb)));
        r ← balloc_scan dev b bp (Z.to_nat (Z.min BPB (sb_size sb - b)));
        match r with
        | Some a => mret (Some a)
        | None => fb (op_brelse me bp) ;; mret None
        end);
  match r with
  | Some a => mret a
  | None => printf "balloc: out of blocks\n" ;; mret 0
  end.

Definition bfree (dev b : Z) : FM unit :=
  sb ← gets f_sb;
  bp ← fb (op_bread me (u32 dev) (u32 (BBLOCK b sb)));
  let bi := b mod BPB in
  let m := bitmask bi in
  d ← fb (op_data bp);
  x ← mnth (d !! bit_byte bi);
  if Z.land x m =? 0 then panic "freeing free block" else
  fb (op_setdata bp (<[bit_byte bi := Z.land x (Z.lnot m)]> d)) ;;
  onl (log_write bp) ;;
  fb (op_brelse me bp).

(** ** Inodes *)

Definition iinit : FM unit :=
  mfor (seq 0 NINODE) (λ i, setino i (iset_lock initsleeplock)).

(** The loop of [iget]: the entry for (dev, inum), or the first empty slot. *)
Fixpoint iget_scan (dev inum : Z) (l : list inode) (i : nat) (empty : option nat)
    : nat + option nat :=
  match l with
  | [] => inr empty
  | x :: l' =>
      if (i_ref x >? 0) && (i_dev x =? dev) && (i_inum x =? inum) then inl i
      else
        iget_scan dev inum l' (Datatypes.S i)
          (match empty with
           | None => if i_ref x =? 0 then Some i else None
           | Some _ => empty
           end)
  end.

Definition iget (dev inum : Z) : FM nat :=
  s ← mget;
  match iget_scan dev inum (f_it s) 0 None with
  | inl ip => setino ip (λ x, iset_ref (i_ref x + 1) x) ;; mret ip
  | inr None => panic "iget: no inodes"
  | inr (Some ip) => setino ip (iset_key dev inum 1 0) ;; mret ip
  end.

Definition ialloc (dev type : Z) : FM (option nat) :=
  sb ← gets f_sb;
  r ← mfind (seq 1 (Z.to_nat (sb_ninodes sb) - 1)) (λ k,
        let inum := Z.of_nat k in
        bp ← fb (op_bread me dev (u32 (IBLOCK inum sb)));
        d ← fb (op_data bp);
        let o := dinode_off inum in
        if s16 (get16 d o) =? 0 then
          let d := splice d o (replicate (Z.to_nat sizeof_dinode) 0) in
          let d := put16 d o type in
          let d := put16 d (o + 64) 6 in
          fb (op_setdata bp d) ;;
          onl (log_write bp) ;;
          fb (op_brelse me bp) ;;
          ip ← iget dev inum;
          mret (Some ip)
        else fb (op_brelse me bp) ;; mret None);
  match r with
  | Some ip => mret (Some ip)
  | None => printf "ialloc: no inodes\n" ;; mret None
  end.

Definition iupdate (ip : nat) : FM unit :=
  x ← getino ip;
  sb ← gets f_sb;
  bp ← fb (op_bread me (i_dev x) (u32 (IBLOCK (i_inum x) sb)));
  d ← fb (op_data bp);
  fb (op_setdata bp (dinode_put (i_d x) d (dinode_off (i_inum x)))) ;;
  onl (log_write bp) ;;
  fb (op_brelse me bp).

Definition idup (ip : nat) : FM nat :=
  setino ip (λ x, iset_ref (i_ref x + 1) x) ;; mret ip.

Definition ilock (ip : nat) : FM unit :=
  x ← getino ip;
  if i_ref x <? 1 then panic "ilock" else
  on_ilock ip (acquiresleep me (inochan ip)) ;;
  x ← getino ip;
  if i_valid x =? 0 then
    sb ← gets f_sb;
    bp ← fb (op_bread me (i_dev x) (u32 (IBLOCK (i_inum x) sb)));
    d ← fb (op_data bp);
    setino ip (iset_d (dinode_get d (dinode_off (i_inum x)))) ;;
    fb (op_brelse me bp) ;;
    setino ip (iset_valid 1) ;;
    x ← getino ip;
    if d_type (i_d x) =? 0 then panic "ilock: no type" else mret tt
  else mret tt.

Definition iunlock (ip : nat) : FM unit :=
  h ← on_ilock ip (holdingsleep me);
  x ← getino ip;
  if negb h || (i_ref x <? 1) then panic "iunlock" else
  on_ilock ip releasesleep.

(** ** Inode contents *)

Definition bmap_alloc (ip : nat) (i : nat) : FM Z :=
  x ← getino ip;
  addr ← mnth (d_addrs (i_d x) !! i);
  if addr =? 0 then
    addr ← balloc (i_dev x);
    if addr =? 0 then mret 0
    else setino ip (iupd (dset_addr i addr)) ;; mret addr
  else mret addr.

Definition bmap (ip : nat) (bn : Z) : FM Z :=
  if bn <? NDIRECT then bmap_alloc ip (Z.to_nat bn) else
  let bn := bn - NDIRECT in
  if bn <? NINDIRECT then
    addr ← bmap_alloc ip (Z.to_nat NDIRECT);
    if addr =? 0 then mret 0 else
    x ← getino ip;
    bp ← fb (op_bread me (i_dev x) addr);
    d ← fb (op_data bp);
    let o := (4 * Z.to_nat bn)%nat in
    addr ← (if get32 d o =? 0 then
              addr ← balloc (i_dev x);
              mwhen (negb (addr =? 0))
                (d ← fb (op_data bp);
                 fb (op_setdata bp (put32 d o addr)) ;;
                 onl (log_write bp)) ;;
              mret addr
            else mret (get32 d o));
    fb (op_brelse me bp) ;;
    mret addr
  else panic "bmap: out of range".

Definition itrunc_direct (ip : nat) : FM unit :=
  mfor (seq 0 (Z.to_nat NDIRECT)) (λ i,
    x ← getino ip;
    a ← mnth (d_addrs (i_d x) !! i);
    mwhen (negb (a =? 0))
      (bfree (i_dev x) a ;; setino ip (iupd (dset_addr i 0)))).

Definition itrunc (ip : nat) : FM unit :=
  itrunc_direct ip ;;
  x ← getino ip;
  a ← mnth (d_addrs (i_d x) !! Z.to_nat NDIRECT);
  mwhen (negb (a =? 0))
    (bp ← fb (op_bread me (i_dev x) a);
     mfor (seq 0 (Z.to_nat NINDIRECT)) (λ j,
       d ← fb (op_data bp);
       mwhen (negb (get32 d (4 * j) =? 0)) (bfree (i_dev x) (get32 d (4 * j)))) ;;
     fb (op_brelse me bp) ;;
     bfree (i_dev x) a ;;
     setino ip (iupd (dset_addr (Z.to_nat NDIRECT) 0))) ;;
  setino ip (iupd (dset_size 0)) ;;
  iupdate ip.

Definition iput (ip : nat) : FM unit :=
  x ← getino ip;
  mwhen ((i_ref x =? 1) && negb (i_valid x =? 0) && (d_nlink (i_d x) =? 0))
    (on_ilock ip (acquiresleep me (inochan ip)) ;;
     itrunc ip ;;
     setino ip (iupd (dset_type 0)) ;;
     iupdate ip ;;
     setino ip (iset_valid 0) ;;
     on_ilock ip releasesleep) ;;
  setino ip (λ x, iset_ref (i_ref x - 1) x).

Definition iunlockput (ip : nat) : FM unit := iunlock ip ;; iput ip.

(** [either_copyout(user_dst, dst, src, len)] and
    [either_copyin(dst, user_src, src, len)] of kernel/proc.c. *)
Definition either_copyout (user_dst : bool) (dst : Z) (src : list Z) : FM bool :=
  s ← mget;
  if user_dst then
    let '(m, ok) := ucopyout (f_mem s) dst src in
    modify (fset_mem m) ;; mret ok
  else
    if (0 <=? dst) && (dst + Z.of_nat (length src) <=? Z.of_nat (length (f_loc s)))
    then modify (fset_loc (splice (f_loc s) (Z.to_nat dst) src)) ;; mret true
    else mfault.

Definition either_copyin (user_src : bool) (src : Z) (len : nat) : FM (list Z * bool) :=
  s ← mget;
  if user_src then mret (ucopyin (f_mem s) src len)
  else
    if (0 <=? src) && (src + Z.of_nat len <=? Z.of_nat (length (f_loc s)))
    then mret (sub (f_loc s) (Z.to_nat src) len, true)
    else mfault.

Fixpoint readi_loop (fuel : nat) (ip : nat) (user_dst : bool) (dst off n tot : Z) : FM Z :=
  match fuel with
  | O => λ _, NoFuel
  | Datatypes.S fuel =>
      if tot <? n then
        addr ← bmap ip (off / BSIZE);
        if addr =? 0 then mret tot else
        x ← getino ip;
        bp ← fb (op_bread me (i_dev x) addr);
        let m := Z.min (n - tot) (BSIZE - off mod BSIZE) in
        d ← fb (op_data bp);
        ok ← either_copyout user_dst dst (sub d (Z.to_nat (off mod BSIZE)) (Z.to_nat m));
        if negb ok then fb (op_brelse me bp) ;; mret (-1) else
        fb (op_brelse me bp) ;;
        readi_loop fuel ip user_dst (u64 (dst + m)) (u32 (off + m)) n (u32 (tot + m))
      else mret tot
  end.

(** Rounds of the copying loops for [n] bytes: all but the first and the last
    move a whole block. *)
Definition rw_fuel (n : Z) : nat := Z.to_nat (n / BSIZE) + 3.

Definition readi (ip : nat) (user_dst : bool) (dst off n : Z) : FM Z :=
  x ← getino ip;
  let size := d_size (i_d x) in
  if (off >? size) || (u32 (off + n) <? off) then mret 0 else
  let n := if u32 (off + n) >? size then u32 (size - off) else n in
  r ← readi_loop (rw_fuel n) ip user_dst dst off n 0;
  mret (s32 r).

(** Returns [tot] and the final [off]. *)
Fixpoint writei_loop (fuel : nat) (ip : nat) (user_src : bool) (src off n tot : Z) : FM (Z * Z) :=
  match fuel with
  | O => λ _, NoFuel
  | Datatypes.S fuel =>
      if tot <? n then
        addr ← bmap ip (off / BSIZE);
        if addr =? 0 then mret (tot, off) else
        x ← getino ip;
        bp ← fb (op_bread me (i_dev x) addr);
        let m := Z.min (n - tot) (BSIZE - off mod BSIZE) in
        r ← either_copyin user_src src (Z.to_nat m);
        d ← fb (op_data bp);
        fb (op_setdata bp (splice d (Z.to_nat (off mod BSIZE)) (fst r))) ;;
        if negb (snd r) then fb (op_brelse me bp) ;; mret (tot, off) else
        onl (log_write bp) ;;
        fb (op_brelse me bp) ;;
        writei_loop fuel ip user_src (u64 (src + m)) (u32 (off + m)) n (u32 (tot + m))
      else mret (tot, off)
  end.

Definition writei (ip : nat) (user_src : bool) (src off n : Z) : FM Z :=
  x ← getino ip;
  if (off >? d_size (i_d x)) || (u32 (off + n) <? off) then mret (-1) else
  if u32 (off + n) >? MAXFILE * BSIZE then mret (-1) else
  '(tot, off) ← writei_loop (rw_fuel n) ip user_src src off n 0;
  x ← getino ip;
  mwhen (off >? d_size (i_d x)) (setino ip (iupd (dset_size off))) ;;
  iupdate ip ;;
  mret (s32 tot).

(** ** Directories *)

Definition sizeof_dirent : Z := 16.

Definition namecmp (s t : list Z) : Z := strncmp (list_ptr s) (list_ptr t) DIRSIZ.

(** [de.inum] and [de.name] of the [struct dirent] in the kernel buffer. *)
Definition de_inum (de : list Z) : Z := get16 de 0.
Definition de_name (de : list Z) : list Z := sub de 2 DIRSIZ.

Fixpoint dirlookup_loop (fuel : nat) (dp : nat) (name : list Z) (off : Z) : FM (option (nat * Z)) :=
  match fuel with
  | O => λ _, NoFuel
  | Datatypes.S fuel =>
      x ← getino dp;
      if off <? d_size (i_d x) then
        r ← readi dp false 0 off sizeof_dirent;
        if negb (r =? sizeof_dirent) then panic "dirlookup read" else
        de ← gets f_loc;
        if de_inum de =? 0 then dirlookup_loop fuel dp name (u32 (off + sizeof_dirent)) else
        if namecmp name (de_name de) =? 0 then
          ip ← iget (i_dev x) (de_inum de);
          mret (Some (ip, off))
        else dirlookup_loop fuel dp name (u32 (off + sizeof_dirent))
      else mret None
  end.

Definition dir_fuel (size : Z) : nat := Z.to_nat (size / sizeof_dirent) + 2.

(** The entry's inode and its offset, [*poff]. *)
Definition dirlookup (dp : nat) (name : list Z) : FM (option (nat * Z)) :=
  x ← getino dp;
  if negb (d_type (i_d x) =? T_DIR) then panic "dirlookup not DIR" else
  dirlookup_loop (dir_fuel (d_size (i_d x))) dp name 0.

(** The search of [dirlink] for an empty entry: its offset. *)
Fixpoint dirlink_scan (fuel : nat) (dp : nat) (off : Z) : FM Z :=
  match fuel with
  | O => λ _, NoFuel
  | Datatypes.S fuel =>
      x ← getino dp;
      if off <? d_size (i_d x) then
        r ← readi dp false 0 off sizeof_dirent;
        if negb (r =? sizeof_dirent) then panic "dirlink read" else
        de ← gets f_loc;
        if de_inum de =? 0 then mret off
        else dirlink_scan fuel dp (off + sizeof_dirent)
      else mret off
  end.

Definition dirlink (dp : nat) (name : list Z) (inum : Z) : FM Z :=
  r ← dirlookup dp name;
  match r with
  | Some (ip, _) => iput ip ;; mret (-1)
  | None =>
      x ← getino dp;
      off ← dirlink_scan (dir_fuel (d_size (i_d x))) dp 0;
      modify (λ s, fset_loc (put16 (splice (f_loc s) 2 (strncpy (list_ptr name) DIRSIZ)) 0 inum) s) ;;
      r ← writei dp false 0 off sizeof_dirent;
      mret (if negb (r =? sizeof_dirent) then -1 else 0)
  end.

(** ** Names *)

(** The loop of [namex]; returns the inode and the [name] buffer. *)
Fixpoint namex_loop (fuel : nat) (ip : nat) (path name : list Z) (nameiparent : bool)
    : FM (option nat * list Z) :=
  match fuel with
  | O => λ _, NoFuel
  | Datatypes.S fuel =>
      match skipelem path name with
      | Some (name, path) =>
          ilock ip ;;
          x ← getino ip;
          if negb (d_type (i_d x) =? T_DIR) then iunlockput ip ;; mret (None, name) else
          if nameiparent && bool_decide (path = []) then iunlock ip ;; mret (Some ip, name) else
          next ← dirlookup ip name;
          match next with
          | None => iunlockput ip ;; mret (None, name)
          | Some (next, _) => iunlockput ip ;; namex_loop fuel next path name nameiparent
          end
      | None =>
          if nameiparent then iput ip ;; mret (None, name)
          else mret (Some ip, name)
      end
  end.

Definition namex (cwd : nat) (path name : list Z) (nameiparent : bool) : FM (option nat * list Z) :=
  ip ← (match path with
        | c :: _ => if c =? SLASH then iget ROOTDEV ROOTINO else idup cwd
        | [] => idup cwd
        end);
  namex_loop (Datatypes.S (length path)) ip path name nameiparent.

Definition namei (cwd : nat) (path : list Z) : FM (option nat) :=
  r ← namex cwd path (replicate DIRSIZ 0) false;
  mret (fst r).

Definition nameiparent (cwd : nat) (path name : list Z) : FM (option nat * list Z) :=
  namex cwd path name true.

(** [stati] *)
Record stat := Stat {
  st_dev : Z;
  st_ino : Z;
  st_type : Z;
  st_nlink : Z;
  st_size : Z;
  st_mode : Z
}.

Definition stati (ip : nat) : FM stat :=
  x ← getino ip;
  let d := i_d x in
  mret (Stat (s32 (i_dev x)) (i_inum x) (d_type d) (d_nlink d) (d_size d) (d_mode d)).
End fs_code.
