(* ===== verification/FsBlock.v ===== *)
(** * Transactions and the block allocator of kernel/fs.c

    The rules for reasoning inside a transaction; [balloc] hands out a block that
    was free and leaves it zeroed, [bfree] is its inverse. The free map is read as
    one bit per block of the disk. *)
From Stdlib Require Import ZArith Lia.
From stdpp Require Import prelude functions strings gmap.
From S2P Require Import Prelude Bytes Param Str UserMem Sleeplock BufIface Log LogSpec Fs.

(** ** Reasoning about kernel/fs.c inside a transaction

    [tx]: the calling process works on the blocks of the disk through the log.
    One rule per operation that kernel/fs.c uses: [bread], the contents of a
    buffer, [log_write], [brelse]. *)

(** The blocks of the cache in use, and whether one more may be read. *)
Definition cache_room (L : list Z) (H : gmap nat Z) (k : nat) : Prop :=
  (length L + size H + k ≤ NBUF)%nat.

Lemma size_map_img (H : gmap nat Z) : (size (map_img H : gset Z) ≤ size H)%nat.
Proof.
  induction H as [|i b H Hi IH] using map_ind.
  - by rewrite img_none.
  - rewrite map_img_insert_notin_L, map_size_insert_None by done.
    rewrite size_union_alt, size_singleton.
    assert (size ((map_img H : gset Z) ∖ {[b]}) ≤ size (map_img H : gset Z))%nat
      by (apply subseteq_size; set_solver). lia.
Qed.

Lemma cache_room_spec start L (H : gmap nat Z) k :
  lh_ok start L → cache_room L H (1 + k) → (size (list_to_set L ∪ map_img H : gset Z) < NBUF)%nat.
Proof.
  intros Hok Hr. unfold cache_room in Hr. rewrite size_union_alt, (lh_ok_size start L) by done.
  pose proof (size_map_img H).
  assert (size ((map_img H : gset Z) ∖ list_to_set L) ≤ size (map_img H : gset Z))%nat
    by (apply subseteq_size; set_solver). lia.
Qed.

Section tx.
Context {S D U : Type} `{OB : BufOps S} `{HD : DiskDev D} `{HL : !DiskLaws D} `{UM : UserMem U}.
Context (dev me : Z) `{BS : !BufSpec S D dev me} (start : Z).
Context (Hstart : 0 ≤ start ∧ start + LOGSIZE < 2147483648).
Implicit Types (fs : fstate S U) (l : lstate S) (L : list Z) (v : Z → block)
  (H : gmap nat Z) (T : gset Z) (d : D).

(** The log lists [L]; [c] is the rest of [struct log] ([log_ctl]); every other
    argument is as in [BufSpec]. *)
Record tx (l : lstate S) (c : Z * Z * Z) (L : list Z) (v : Z → block)
    (H : gmap nat Z) (T : gset Z) (d : D) : Prop := {
  tx_log : log_is dev start (l_log l) L;
  tx_ok : lh_ok start L;
  tx_ctl : log_ctl (l_log l) = c;
  tx_buf : brep (l_buf l) v (list_to_set L) H T d
}.

(** [c] is that of a log of size [LOGSIZE] at most, inside a transaction, with
    room for [k] more blocks. *)
Definition log_room (c : Z * Z * Z) (L : list Z) (k : Z) : Prop :=
  let '(sz, out, _) := c in
  sz ≤ LOGSIZE ∧ 1 ≤ out ∧ Z.of_nat (length L) + k ≤ sz - 1.

(** A block that transactions may write: not in the log. *)
Definition home (b : Z) : Prop := 0 ≤ b < 2147483648 ∧ ¬ in_log start b.

Lemma fset_l_id fs : fset_l (f_l fs) fs = fs.
Proof. by destruct fs. Qed.

Lemma LState_eta l : LState (l_buf l) (l_log l) = l.
Proof. by destruct l. Qed.

Lemma wp_fb {A} (m : M S A) fs (Q : A → fstate S U → Prop) :
  wp m (l_buf (f_l fs)) (λ a s, Q a (fset_l (LState s (l_log (f_l fs))) fs)) → wp (fb m) fs Q.
Proof. intros Hm. unfold fb, onl. apply wp_lift, wp_onb. done. Qed.

Lemma tx_bread fs c L v H T d b (Q : nat → fstate S U → Prop) :
  tx (f_l fs) c L v H T d → b ∉ (map_img H : gset Z) → cache_room L H 1 →
  (∀ i l, H !! i = None → tx l c L v (<[i := b]> H) T d → Q i (fset_l l fs)) →
  wp (fb (op_bread me dev b)) fs Q.
Proof.
  intros [Hl Hok Hc Hb] Hbh Hr HQ. apply wp_fb.
  eapply wp_mono; [eapply spec_bread; [done..|right; by eapply (cache_room_spec start _ _ 0)]|].
  intros i s [Hi Hb']. by apply HQ.
Qed.

Lemma tx_data fs c L v H T d i b (Q : block → fstate S U → Prop) :
  tx (f_l fs) c L v H T d → H !! i = Some b → Q (v b) fs → wp (fb (op_data i)) fs Q.
Proof.
  intros [Hl Hok Hc Hb] Hi HQ. apply wp_fb. eapply wp_mono; [by eapply spec_data|].
  intros x s [-> ->]. by rewrite LState_eta, fset_l_id.
Qed.

Lemma tx_setdata fs c L v H T d i b x (Q : unit → fstate S U → Prop) :
  tx (f_l fs) c L v H T d → H !! i = Some b → length x = BLK →
  (∀ l, tx l c L (<[b := x]> v) H ({[b]} ∪ T) d → Q tt (fset_l l fs)) →
  wp (fb (op_setdata i x)) fs Q.
Proof.
  intros [Hl Hok Hc Hb] Hi Hx HQ. apply wp_fb. eapply wp_mono; [by eapply spec_setdata|].
  intros [] s Hb'. by apply HQ.
Qed.

Lemma tx_brelse fs c L v H T d i b (Q : unit → fstate S U → Prop) :
  tx (f_l fs) c L v H T d → H !! i = Some b → b ∉ T →
  (∀ l, tx l c L v (delete i H) T d → Q tt (fset_l l fs)) →
  wp (fb (op_brelse me i)) fs Q.
Proof.
  intros [Hl Hok Hc Hb] Hi HbT HQ. apply wp_fb. eapply wp_mono; [by eapply spec_brelse|].
  intros [] s Hb'. by apply HQ.
Qed.

Lemma tx_log_write fs c L v H T d i b (Q : unit → fstate S U → Prop) :
  tx (f_l fs) c L v H T d → H !! i = Some b → home b → log_room c L 1 →
  (∀ l, tx l c (log_add L b) v H (T ∖ {[b]}) d → Q tt (fset_l l fs)) →
  wp (onl (log_write i)) fs Q.
Proof.
  intros [Hl Hok Hc Hb] Hi [Hb0 Hbl] Hr HQ. unfold onl. apply wp_lift.
  unfold log_room in Hr. rewrite <-Hc in Hr. unfold log_ctl in Hr. destruct Hr as (? & ? & ?).
  eapply wp_mono; [eapply (log_write_spec dev me start); done || lia|].
  intros [] l (Hl' & Hok' & Hb' & Ho & Hcm & Hs). apply HQ. split; try done.
  unfold log_ctl in *. congruence.
Qed.

Lemma tx_length l c L v H T d b : tx l c L v H T d → length (v b) = BLK.
Proof. intros [_ _ _ Hb]. by eapply brep_length. Qed.

(** Changing a block and logging it. *)
Lemma tx_put {A} fs c L v H T d i b x (k : M (fstate S U) A) (Q : A → fstate S U → Prop) :
  tx (f_l fs) c L v H T d → H !! i = Some b → b ∉ T → length x = BLK → home b → log_room c L 1 →
  (∀ l, tx l c (log_add L b) (<[b := x]> v) H T d → wp k (fset_l l fs) Q) →
  wp (fb (op_setdata i x) ;; onl (log_write i) ;; k) fs Q.
Proof.
  intros Htx Hi HbT Hx Hb Hr HQ. wp_step. eapply tx_setdata; [done..|]. intros l1 Htx1.
  wp_step. eapply tx_log_write; [done..|]. intros l2 Htx2.
  replace (({[b]} ∪ T) ∖ {[b]}) with T in Htx2 by set_solver. by apply HQ in Htx2.
Qed.

(** Reading a buffer that was not held before, and giving it back. *)
Lemma held_back (H : gmap nat Z) i b : H !! i = None → delete i (<[i := b]> H) = H.
Proof. apply delete_insert_id. Qed.

Lemma log_add_length L b : (length (log_add L b) ≤ Datatypes.S (length L))%nat.
Proof. unfold log_add. case_decide; [lia|]. rewrite length_app. cbn. lia. Qed.

Lemma log_room_add c L b k : log_room c L (1 + k) → log_room c (log_add L b) k.
Proof. destruct c as [[sz out] cm]. pose proof (log_add_length L b). unfold log_room. lia. Qed.

Lemma log_room_le c L k k' : log_room c L k → k' ≤ k → log_room c L k'.
Proof. destruct c as [[sz out] cm]. unfold log_room. lia. Qed.

Lemma cache_room_le L H k k' : cache_room L H k → (k' ≤ k)%nat → cache_room L H k'.
Proof. unfold cache_room. lia. Qed.

Lemma cache_room_add L b H k : cache_room L H (1 + k) → cache_room (log_add L b) H k.
Proof. pose proof (log_add_length L b). unfold cache_room. lia. Qed.
End tx.

(** ** The free map *)

(** Bit [b] of the free map: is block [b] in use? *)
Definition in_use (sb : superblock) (v : Z → block) (b : Z) : bool :=
  Z.testbit (nth (bit_byte (b mod BPB)) (v (BBLOCK b sb)) 0) (b mod 8).

(** The number of blocks before the data: boot block, superblock, log, inodes
    and free map, as mkfs/mkfs.c computes it. *)
Definition nmeta (sb : superblock) : Z := sb_bmapstart sb + (sb_size sb / BPB + 1).

(** The disk layout of kernel/fs.h: superblock, log, inodes, free map, data. *)
Record geometry (start : Z) (sb : superblock) : Prop := {
  g_start : 2 ≤ start;
  g_log : start + LOGSIZE ≤ sb_inodestart sb;
  g_inodes : 0 ≤ sb_ninodes sb ∧ sb_inodestart sb + sb_ninodes sb ≤ sb_bmapstart sb;
  g_data : nmeta sb ≤ sb_size sb < 2147483648
}.

Lemma testbit_mask k n : 0 ≤ k → 0 ≤ n → Z.testbit (Z.shiftl 1 k) n = bool_decide (n = k).
Proof.
  intros Hk Hn. rewrite Z.shiftl_spec by done. destruct (decide (n = k)) as [->|Hne].
  - by rewrite Z.sub_diag, bool_decide_eq_true_2.
  - rewrite bool_decide_eq_false_2 by done. destruct (decide (n < k)).
    + apply Z.testbit_neg_r. lia.
    + apply Z.bits_above_log2; [done|]. change (Z.log2 1) with 0. lia.
Qed.

Lemma land_mask x k : 0 ≤ k → (Z.land x (Z.shiftl 1 k) =? 0) = negb (Z.testbit x k).
Proof.
  intros Hk. destruct (Z.testbit x k) eqn:E; cbn [negb].
  - apply Z.eqb_neq. intros H0. apply (f_equal (λ z, Z.testbit z k)) in H0.
    by rewrite Z.land_spec, testbit_mask, E, bool_decide_eq_true_2, Z.testbit_0_l in H0.
  - apply Z.eqb_eq, Z.bits_inj'. intros n Hn. rewrite Z.land_spec, testbit_mask, Z.testbit_0_l by done.
    case_bool_decide as Hnk; [by rewrite Hnk, E|apply andb_false_r].
Qed.

Section bits.
Context (sb : superblock) (start : Z) (Hg : geometry start sb).
Implicit Types (v : Z → block) (b : Z).

Lemma BBLOCK_range b : 0 ≤ b < sb_size sb →
  sb_bmapstart sb ≤ BBLOCK b sb < nmeta sb ∧ u32 (BBLOCK b sb) = BBLOCK b sb.
Proof.
  intros Hb. destruct Hg. unfold nmeta, BBLOCK, LOGSIZE, MAXOPBLOCKS in *.
  assert (0 ≤ b / BPB ≤ sb_size sb / BPB) by (unfold BPB, BSIZE; zlia).
  split; [lia|]. apply u32_small. lia.
Qed.

Lemma bit_byte_lt b : (bit_byte (b mod BPB) < BLK)%nat.
Proof.
  unfold bit_byte, BLK, BPB, BSIZE. assert (0 ≤ b mod (1024 * 8) / 8 < 1024) by zlia. lia.
Qed.

(** Changing the bit of one block leaves the bits of all others alone. *)
Lemma in_use_put v b b' (f : Z → Z) x y :
  0 ≤ b < sb_size sb → length x = BLK → x = v (BBLOCK b sb) →
  (∀ z n, 0 ≤ n → Z.testbit (f z) n = if decide (n = b mod 8) then y else Z.testbit z n) →
  in_use sb (<[BBLOCK b sb := <[bit_byte (b mod BPB) := f (nth (bit_byte (b mod BPB)) x 0)]> x]> v) b' =
    if decide (b = b') then y else in_use sb v b'.
Proof.
  intros Hb Hx -> Hf. unfold in_use.
  assert (0 ≤ b' mod 8) by (apply Z.mod_pos_bound; lia).
  destruct (decide (BBLOCK b sb = BBLOCK b' sb)) as [He|Hne].
  - rewrite <-He, fn_lookup_insert.
    destruct (decide (bit_byte (b mod BPB) = bit_byte (b' mod BPB))) as [Hbyte|Hbyte].
    + rewrite <-Hbyte, nth_insert_eq by (rewrite Hx; apply bit_byte_lt). rewrite Hf by done.
      destruct (decide (b = b')) as [->|Hbb]; [by rewrite decide_True|].
      rewrite decide_False; [done|]. intros Hmod. apply Hbb.
      unfold BBLOCK, bit_byte, BPB, BSIZE in *. zlia.
    + rewrite nth_insert_ne by done.
      rewrite decide_False; [done|]. intros ->. done.
  - rewrite fn_lookup_insert_ne by done. rewrite decide_False; [done|]. by intros ->.
Qed.
End bits.

(** ** The operations *)

(** The disk after block [a] has been allocated. *)
Definition alloc_view (sb : superblock) (v : Z → block) (a : Z) : Z → block :=
  let x := v (BBLOCK a sb) in
  let i := bit_byte (a mod BPB) in
  <[a := zero_block]> (<[BBLOCK a sb := <[i := Z.lor (nth i x 0) (bitmask (a mod BPB))]> x]> v).

(** The disk after block [a] has been freed. *)
Definition free_view (sb : superblock) (v : Z → block) (a : Z) : Z → block :=
  let x := v (BBLOCK a sb) in
  let i := bit_byte (a mod BPB) in
  <[BBLOCK a sb := <[i := Z.land (nth i x 0) (Z.lnot (bitmask (a mod BPB)))]> x]> v.

(** Every block before the data is marked in use. *)
Definition meta_used (sb : superblock) (v : Z → block) : Prop :=
  ∀ b, 0 ≤ b < nmeta sb → in_use sb v b = true.

Lemma mod_BPB_8 a : (a mod BPB) mod 8 = a mod 8.
Proof. unfold BPB, BSIZE. zlia. Qed.

Lemma bitmask_mod a : bitmask (a mod BPB) = Z.shiftl 1 (a mod 8).
Proof. unfold bitmask. by rewrite mod_BPB_8. Qed.

Section blocks.
Context {S D U : Type} `{OB : BufOps S} `{HD : DiskDev D} `{HL : !DiskLaws D} `{UM : UserMem U}.
Context (dev me : Z) `{BS : !BufSpec S D dev me} (start : Z) (sb : superblock).
Context (Hstart : 0 ≤ start ∧ start + LOGSIZE < 2147483648).
Context (Hdev : u32 dev = dev) (Hg : geometry start sb).
Implicit Types (fs : fstate S U) (L : list Z) (v : Z → block) (H : gmap nat Z) (T : gset Z) (d : D).
Abbreviation tx := (tx dev me start).

Lemma home_meta b : sb_inodestart sb ≤ b < sb_size sb → home start b.
Proof. destruct Hg. unfold home, in_log, LOGSIZE, MAXOPBLOCKS in *. lia. Qed.

Lemma nmeta_bounds : sb_inodestart sb ≤ sb_bmapstart sb ∧ sb_bmapstart sb < nmeta sb ∧ 32 ≤ sb_inodestart sb.
Proof.
  destruct Hg. unfold nmeta, LOGSIZE, MAXOPBLOCKS, BPB, BSIZE in *.
  zlia.
Qed.

Lemma in_use_alloc v a b :
  (∀ b, length (v b) = BLK) → nmeta sb ≤ a < sb_size sb → 0 ≤ b < sb_size sb →
  in_use sb (alloc_view sb v a) b = if decide (a = b) then true else in_use sb v b.
Proof.
  intros Hlen Ha Hb. unfold alloc_view. pose proof nmeta_bounds.
  destruct (BBLOCK_range sb start Hg b) as [? _]; [done|].
  set (x := v (BBLOCK a sb)). set (i := bit_byte (a mod BPB)).
  replace (in_use sb (<[a := zero_block]> _) b) with
    (in_use sb (<[BBLOCK a sb := <[i := Z.lor (nth i x 0) (bitmask (a mod BPB))]> x]> v) b)
    by (unfold in_use; by rewrite (fn_lookup_insert_ne _ a) by lia).
  apply (in_use_put sb v a b (λ z, Z.lor z (bitmask (a mod BPB))) x true); [lia|apply Hlen|done|].
  intros z n Hn. rewrite bitmask_mod, Z.lor_spec, testbit_mask by (lia || apply Z.mod_pos_bound; lia).
  destruct (decide _); [by rewrite bool_decide_eq_true_2, orb_true_r|].
  by rewrite bool_decide_eq_false_2, orb_false_r.
Qed.

Lemma in_use_free v a b :
  (∀ b, length (v b) = BLK) → 0 ≤ a < sb_size sb →
  in_use sb (free_view sb v a) b = if decide (a = b) then false else in_use sb v b.
Proof.
  intros Hlen Ha. apply (in_use_put sb v a b (λ z, Z.land z (Z.lnot (bitmask (a mod BPB)))) _ false);
    [done|apply Hlen|done|].
  intros z n Hn. rewrite bitmask_mod, Z.land_spec, Z.lnot_spec, testbit_mask by
    (lia || apply Z.mod_pos_bound; lia).
  destruct (decide _); [by rewrite bool_decide_eq_true_2, andb_false_r|].
  by rewrite bool_decide_eq_false_2, andb_true_r.
Qed.

Lemma bzero_spec fs c L v H T d b (Q : unit → fstate S U → Prop) :
  tx (f_l fs) c L v H T d → b ∉ (map_img H : gset Z) → b ∉ T → home start b →
  log_room c L 1 → cache_room L H 1 →
  (∀ l, tx l c (log_add L b) (<[b := zero_block]> v) H T d → Q tt (fset_l l fs)) →
  wp (bzero me dev b) fs Q.
Proof.
  intros Htx HbH HbT Hb Hr Hcr HQ. unfold bzero.
  rewrite Hdev, (u32_small b) by (destruct Hb; lia).
  wp_step. eapply tx_bread; [done..|]. intros i l1 Hi Htx1.
  eapply (tx_put _ _ _ Hstart); [done|apply lookup_insert_eq|done|apply length_replicate|done..|]. intros l2 Htx2.
  eapply tx_brelse; [done|apply lookup_insert_eq|done|]. intros l3 Htx3.
  rewrite held_back in Htx3 by done. by apply HQ.
Qed.

(** What [balloc] needs of the state: metadata and the blocks at hand are marked
    in use, and no part of the free map is locked. *)
Definition alloc_ok (v : Z → block) (H : gmap nat Z) (T : gset Z) : Prop :=
  meta_used sb v ∧
  ∀ b, b ∈ (map_img H : gset Z) ∨ b ∈ T →
    0 ≤ b < sb_size sb ∧ in_use sb v b = true ∧ ¬ (sb_bmapstart sb ≤ b < nmeta sb).

Lemma BPB_index k i : 0 ≤ k → 0 ≤ i < BPB →
  BBLOCK (BPB * k + i) sb = BBLOCK (BPB * k) sb ∧ (BPB * k + i) mod BPB = i ∧ (BPB * k + i) mod 8 = i mod 8.
Proof. intros. unfold BBLOCK, BPB, BSIZE in *. split_and!; zlia. Qed.

Lemma balloc_scan_spec fs c L v H T d k bp n (Q : option Z → fstate S U → Prop) :
  let b := BPB * k in
  f_sb fs = sb → tx (f_l fs) c L v (<[bp := BBLOCK b sb]> H) T d → H !! bp = None → alloc_ok v H T →
  0 ≤ k → Z.of_nat n ≤ BPB → b + Z.of_nat n ≤ sb_size sb → log_room c L 2 → cache_room L H 2 →
  ((∀ x, b ≤ x < b + Z.of_nat n → in_use sb v x = true) → Q None fs) →
  (∀ a l, b ≤ a < b + Z.of_nat n → nmeta sb ≤ a → in_use sb v a = false →
     (∀ x, b ≤ x < a → in_use sb v x = true) →
     tx l c (log_add (log_add L (BBLOCK a sb)) a) (alloc_view sb v a) H T d →
     Q (Some a) (fset_l l fs)) →
  wp (balloc_scan me dev b bp n) fs Q.
Proof.
  intros b Hsb Htx Hbp [Hmeta Hheld] Hk Hn Hsz Hr Hcr Hnone Hsome. unfold balloc_scan.
  assert (∀ i, 0 ≤ i < Z.of_nat n → in_use sb v (b + i) =
    Z.testbit (nth (bit_byte i) (v (BBLOCK b sb)) 0) (i mod 8)) as Hbit.
  { intros i Hi. destruct (BPB_index k i) as (He & Hm & H8); [lia..|]. unfold in_use, b. by rewrite He, Hm, H8. }
  apply (wp_mfind_seq 0 n _ (λ i fs', fs' = fs ∧ ∀ x, b ≤ x < b + Z.of_nat i → in_use sb v x = true)).
  - split; [done|lia].
  - intros i fs' Hi [-> Hpre]. set (bi := Z.of_nat i).
    assert (0 ≤ bi < Z.of_nat n) as Hbi by (unfold bi; lia).
    wp_step. eapply tx_data; [done|apply lookup_insert_eq|].
    pose proof (tx_length _ _ _ _ _ _ _ _ _ _ (BBLOCK b sb) Htx) as Hlen.
    assert (bit_byte bi < length (v (BBLOCK b sb)))%nat as Hbb.
    { rewrite Hlen. pose proof (bit_byte_lt (b + bi)) as Hb.
      destruct (BPB_index k bi) as (_ & Hm & _); [lia..|]. unfold b in Hb. by rewrite Hm in Hb. }
    wp_step. eapply wp_mnth; [by apply (nth_Some _ _ 0)|].
    unfold bitmask. rewrite land_mask by (apply Z.mod_pos_bound; lia). rewrite <-Hbit by done.
    destruct (in_use sb v (b + bi)) eqn:Hu; cbn [negb].
    { wp_step. split; [done|]. intros x Hx. destruct (decide (x = b + bi)) as [->|]; [done|].
      apply Hpre. unfold bi in *. lia. }
    assert (nmeta sb ≤ b + bi) as Hmb.
    { destruct (decide (b + bi < nmeta sb)) as [Hlt|]; [|lia].
      rewrite Hmeta in Hu; [done|]. unfold b, BPB, BSIZE in *. lia. }
    pose proof nmeta_bounds. destruct (BBLOCK_range sb start Hg (b + bi)) as [Hrange _]; [lia|].
    destruct (BPB_index k bi) as (He & Hm & H8); [lia..|]. fold b in He, Hm, H8. rewrite He in Hrange.
    eapply (tx_put _ _ _ Hstart); [done|apply lookup_insert_eq| |by rewrite length_insert|apply home_meta; lia
      |eapply log_room_le; [done|lia]|].
    { intros HT. destruct (Hheld (BBLOCK b sb)) as (_ & _ & Hc); [by right|]. lia. }
    intros l1 Htx1. wp_step. eapply tx_brelse; [done|apply lookup_insert_eq| |].
    { intros HT. destruct (Hheld (BBLOCK b sb)) as (_ & _ & Hc); [by right|]. lia. }
    intros l2 Htx2. rewrite held_back in Htx2 by done. wp_step.
    eapply bzero_spec; [done| | |apply home_meta; lia|by apply log_room_add|by apply cache_room_add|].
    { intros HH. destruct (Hheld (b + bi)) as (_ & Hc & _); [by left|]. congruence. }
    { intros HT. destruct (Hheld (b + bi)) as (_ & Hc & _); [by right|]. congruence. }
    intros l3 Htx3. wp_step. apply Hsome; [lia|done..| |].
    + intros x Hx. apply Hpre. unfold bi in *. lia.
    + unfold alloc_view, bitmask. rewrite He, Hm. done.
  - intros fs' [-> Hall]. by apply Hnone.
Qed.

Lemma balloc_spec fs c L v H T d (Q : Z → fstate S U → Prop) :
  f_sb fs = sb → tx (f_l fs) c L v H T d → alloc_ok v H T → log_room c L 2 → cache_room L H 2 →
  ((∀ b, 0 ≤ b < sb_size sb → in_use sb v b = true) →
     ∀ l, tx l c L v H T d →
     Q 0 (fset_console (f_console fs ++ ["balloc: out of blocks\n"]) (fset_l l fs))) →
  (∀ a l, nmeta sb ≤ a < sb_size sb → in_use sb v a = false →
     (∀ b, 0 ≤ b < a → in_use sb v b = true) →
     tx l c (log_add (log_add L (BBLOCK a sb)) a) (alloc_view sb v a) H T d →
     Q a (fset_l l fs)) →
  wp (balloc me dev) fs Q.
Proof.
  intros Hsb Htx Hok Hr Hcr Hnone Hsome. pose proof Hok as [_ Hheld].
  pose proof nmeta_bounds. pose proof (g_data _ _ Hg). unfold balloc. wp_step. wp_step. rewrite Hsb.
  set (n := Z.to_nat _). wp_step.
  apply (wp_mfind_seq 0 n _ (λ k fs', ∃ l, fs' = fset_l l fs ∧ tx l c L v H T d ∧
    ∀ b, 0 ≤ b < BPB * Z.of_nat k → b < sb_size sb → in_use sb v b = true)).
  - exists (f_l fs). rewrite fset_l_id. split_and!; [done..|lia].
  - intros k fs' Hk (l & -> & Htx1 & Hpre). cbv zeta. set (b := BPB * Z.of_nat k).
    assert (0 ≤ b < sb_size sb) as Hb.
    { unfold b, n, BPB, BSIZE in *. split; [lia|]. zlia. }
    destruct (BBLOCK_range sb start Hg b Hb) as [Hrange ->].
    wp_step. eapply tx_bread; [done| |by eapply cache_room_le; [done|lia]|].
    { intros HH. destruct (Hheld (BBLOCK b sb)) as (_ & _ & Hc); [by left|]. lia. }
    intros bp l2 Hbp Htx2. wp_step.
    eapply (balloc_scan_spec (fset_l l2 fs) c L v H T d (Z.of_nat k)); try done; try lia.
    + unfold b, BPB, BSIZE in *. lia.
    + intros Hall. wp_step. eapply tx_brelse; [done|apply lookup_insert_eq| |].
      { intros HT. destruct (Hheld (BBLOCK b sb)) as (_ & _ & Hc); [by right|]. lia. }
      intros l3 Htx3. rewrite held_back in Htx3 by done. wp_step.
      exists l3. split_and!; [done..|]. intros x Hx Hxs.
      destruct (decide (x < b)) as [Hlt|]; [apply Hpre; unfold b in *; lia|].
      apply Hall. unfold b, BPB, BSIZE in *. lia.
    + intros a l3 Ha Hm Hu Hbefore Htx3. wp_step. wp_step.
      apply (Hsome a l3); [unfold b, BPB, BSIZE in *; lia|done| |done].
      intros x Hx. destruct (decide (x < b)) as [Hlt|]; [apply Hpre; unfold b in *; lia|].
      apply Hbefore. unfold b in *. lia.
  - intros fs' (l & -> & Htx1 & Hall). wp_step. unfold printf. wp_steps.
    apply Hnone; [|done]. intros b Hb. apply Hall; [|lia].
    unfold n, BPB, BSIZE in *. zlia.
Qed.

Lemma bfree_spec fs c L v H T d b (Q : unit → fstate S U → Prop) :
  f_sb fs = sb → tx (f_l fs) c L v H T d → 0 ≤ b < sb_size sb → in_use sb v b = true →
  BBLOCK b sb ∉ (map_img H : gset Z) → BBLOCK b sb ∉ T → log_room c L 1 → cache_room L H 1 →
  (∀ l, tx l c (log_add L (BBLOCK b sb)) (free_view sb v b) H T d → Q tt (fset_l l fs)) →
  wp (bfree me dev b) fs Q.
Proof.
  intros Hsb Htx Hb Hu HH HT Hr Hcr HQ. unfold bfree. wp_step. wp_step. rewrite Hsb, Hdev.
  destruct (BBLOCK_range sb start Hg b Hb) as [Hrange ->]. pose proof nmeta_bounds.
  pose proof (g_data _ _ Hg).
  wp_step. eapply tx_bread; [done..|]. intros bp l1 Hbp Htx1. cbv zeta.
  wp_step. eapply tx_data; [done|apply lookup_insert_eq|].
  pose proof (tx_length _ _ _ _ _ _ _ _ _ _ (BBLOCK b sb) Htx) as Hlen.
  wp_step. eapply wp_mnth; [apply (nth_Some _ _ 0); rewrite Hlen; apply bit_byte_lt|].
  assert ((Z.land (nth (bit_byte (b mod BPB)) (v (BBLOCK b sb)) 0) (bitmask (b mod BPB)) =? 0) = false) as ->.
  { rewrite bitmask_mod, land_mask by (apply Z.mod_pos_bound; lia). unfold in_use in Hu. by rewrite Hu. }
  eapply (tx_put _ _ _ Hstart); [done|apply lookup_insert_eq|done|by rewrite length_insert
    |apply home_meta; lia|done|]. intros l2 Htx2.
  eapply tx_brelse; [done|apply lookup_insert_eq|done|]. intros l3 Htx3.
  rewrite held_back in Htx3 by done. by apply HQ.
Qed.

(** Freeing a block that is free is a bug of the caller, and is caught. *)
Lemma bfree_free fs c L v H T d b :
  f_sb fs = sb → tx (f_l fs) c L v H T d → 0 ≤ b < sb_size sb → in_use sb v b = false →
  BBLOCK b sb ∉ (map_img H : gset Z) → cache_room L H 1 →
  bfree me dev b fs = Panic "freeing free block".
Proof.
  intros Hsb Htx Hb Hu HH Hcr.
  destruct (BBLOCK_range sb start Hg b Hb) as [Hrange Hu32].
  assert (wp (fb (op_bread me dev (BBLOCK b sb))) fs (λ bp fs', ∃ l,
    fs' = fset_l l fs ∧ tx l c L v (<[bp := BBLOCK b sb]> H) T d)) as Hr.
  { eapply tx_bread; [done..|]. eauto. }
  apply wp_Ret in Hr as (bp & fs' & Hr & l & -> & Htx1).
  assert (wp (fb (op_data bp)) (fset_l l fs) (λ x fs', x = v (BBLOCK b sb) ∧ fs' = fset_l l fs)) as Hd.
  { eapply tx_data; [done|apply lookup_insert_eq|done]. }
  apply wp_Ret in Hd as (x & fs' & Hd & -> & ->).
  pose proof (tx_length _ _ _ _ _ _ _ _ _ _ (BBLOCK b sb) Htx) as Hlen.
  unfold bfree, gets, mbind, M_bind. rewrite Hsb, Hdev, Hu32, Hr, Hd.
  rewrite (nth_Some _ (bit_byte (b mod BPB)) 0) by (rewrite Hlen; apply bit_byte_lt).
  cbn [mnth]. unfold mret, M_ret. rewrite bitmask_mod, land_mask by (apply Z.mod_pos_bound; lia).
  unfold in_use in Hu. by rewrite Hu.
Qed.
End blocks.
