(* ===== verification/FsData.v ===== *)
(** * File contents: bmap, readi and writei of kernel/fs.c

    An inode names its blocks in [addrs] and, from the thirteenth on, in an
    indirect block. [ptr] numbers these places 0, 1, ...: place 12 is the
    indirect block itself. [fbyte] is the byte at an offset of the file. *)
From Stdlib Require Import ZArith Lia.
From stdpp Require Import prelude functions strings gmap.
From S2P Require Import Prelude Bytes Param Str UserMem Sleeplock BufIface Log LogSpec Fs FsBlock.

(** The indirect block's place, and the number of places. *)
Definition IND : nat := 12.
Definition NPTR : nat := 269.

Definition ptr_at (v : Z → block) (dd : dinode) (i : nat) : Z :=
  if decide (i < NADDR)%nat then nth i (d_addrs dd) 0
  else if nth IND (d_addrs dd) 0 =? 0 then 0
  else get32 (v (nth IND (d_addrs dd) 0)) (4 * (i - NADDR)).

(** The constants above as numbers. *)
Ltac places := change NADDR with 13%nat in *; change IND with 12%nat in *;
  change NPTR with 269%nat in *; lia.

(** The place of the file's block [bn]. *)
Definition place (bn : Z) : nat := if bn <? NDIRECT then Z.to_nat bn else Z.to_nat bn + 1.

Definition fbyte (v : Z → block) (dd : dinode) (o : Z) : Z :=
  nth (Z.to_nat (o mod BSIZE)) (v (ptr_at v dd (place (o / BSIZE)))) 0.
Definition fbytes (v : Z → block) (dd : dinode) (off : Z) (n : nat) : list Z :=
  (λ i, fbyte v dd (off + Z.of_nat i)) <$> seq 0 n.

(** A well-formed inode: its blocks are data blocks marked in use, and no block
    is used twice. *)
Record ino_ok (sb : superblock) (v : Z → block) (dd : dinode) : Prop := {
  io_len : length (d_addrs dd) = NADDR;
  io_data : ∀ i, (i < NPTR)%nat → ptr_at v dd i ≠ 0 →
    nmeta sb ≤ ptr_at v dd i < sb_size sb ∧ in_use sb v (ptr_at v dd i) = true;
  io_inj : ∀ i j, (i < NPTR)%nat → (j < NPTR)%nat → ptr_at v dd i ≠ 0 →
    ptr_at v dd i = ptr_at v dd j → i = j
}.

Lemma place_lt bn : 0 ≤ bn < MAXFILE → (place bn < NPTR)%nat ∧ place bn ≠ IND.
Proof.
  unfold place, NPTR, IND, MAXFILE, NINDIRECT, NDIRECT, BSIZE.
  change (12 + 1024 / 4) with 268. destruct (Z.ltb_spec bn 12); lia.
Qed.

Lemma place_inj bn bn' : 0 ≤ bn → 0 ≤ bn' → place bn = place bn' → bn = bn'.
Proof.
  unfold place, NDIRECT. destruct (Z.ltb_spec bn 12), (Z.ltb_spec bn' 12); lia.
Qed.

Lemma length_fbytes v dd off n : length (fbytes v dd off n) = n.
Proof. unfold fbytes. by rewrite length_fmap, length_seq. Qed.

Lemma fbytes_app v dd off n1 n2 :
  fbytes v dd off (n1 + n2) = fbytes v dd off n1 ++ fbytes v dd (off + Z.of_nat n1) n2.
Proof.
  unfold fbytes. rewrite seq_app, fmap_app, Nat.add_0_l. f_equal.
  rewrite <-(Nat.add_0_r n1) at 1. rewrite <-fmap_add_seq, <-list_fmap_compose.
  apply list_fmap_ext. intros _ i _. cbn. f_equal. lia.
Qed.

(** Bytes of one block of the file. *)
Lemma fbytes_block v dd off n :
  length (v (ptr_at v dd (place (off / BSIZE)))) = BLK →
  0 ≤ off → off mod BSIZE + Z.of_nat n ≤ BSIZE →
  fbytes v dd off n = sub (v (ptr_at v dd (place (off / BSIZE)))) (Z.to_nat (off mod BSIZE)) n.
Proof.
  intros Hlen Hoff Hn. apply list_eq. intros i. unfold fbytes.
  rewrite list_lookup_fmap, lookup_sub. case_decide as Hi.
  - rewrite lookup_seq_lt by done. cbn [fmap option_fmap option_map].
    unfold BSIZE in *. unfold fbyte.
    replace ((off + Z.of_nat (0 + i)) / BSIZE) with (off / BSIZE) by (unfold BSIZE; zlia).
    replace (Z.to_nat ((off + Z.of_nat (0 + i)) mod BSIZE)) with (Z.to_nat (off mod BSIZE) + i)%nat
      by (unfold BSIZE; zlia).
    symmetry. apply nth_Some. unfold BSIZE in *. rewrite Hlen. unfold BLK, BSIZE. zlia.
  - by rewrite lookup_seq_ge by lia.
Qed.

(** ** How allocation changes the disk *)

Section pointers.
Context (sb : superblock) (start : Z) (Hg : geometry start sb).
Implicit Types (v : Z → block) (dd : dinode) (X : list Z).

(** [v'] comes from [v] by allocating blocks and writing the blocks [X]: blocks
    in use stay in use and, apart from [X], keep their contents. *)
Record extends (X : list Z) (v v' : Z → block) : Prop := {
  ex_used : ∀ b, 0 ≤ b < sb_size sb → in_use sb v b = true → in_use sb v' b = true;
  ex_data : ∀ b, nmeta sb ≤ b < sb_size sb → in_use sb v b = true → b ∉ X → v' b = v b;
  ex_meta : ∀ b, 0 ≤ b < sb_bmapstart sb → b ∉ X → v' b = v b;
  ex_len : (∀ b, length (v b) = BLK) → ∀ b, length (v' b) = BLK
}.

Lemma extends_refl X v : extends X v v.
Proof. by split. Qed.

Lemma extends_trans X v1 v2 v3 : extends X v1 v2 → extends X v2 v3 → extends X v1 v3.
Proof.
  intros [U1 D1 M1 L1] [U2 D2 M2 L2]. split.
  - auto.
  - intros b Hb Hu HX. pose proof (nmeta_bounds start sb Hg).
    rewrite D2, D1; auto. apply U1; [lia|done].
  - intros b Hb HX. rewrite M2, M1; auto.
  - auto.
Qed.

Lemma extends_mono X Y v v' : (∀ b, b ∈ X → b ∈ Y) → extends X v v' → extends Y v v'.
Proof. intros HXY [U1 D1 M1 L1]. split; auto. Qed.

Lemma extends_meta_used X v v' : extends X v v' → meta_used sb v → meta_used sb v'.
Proof.
  intros [U1 _ _ _] Hm b Hb. pose proof (g_data _ _ Hg). apply U1; [lia|]. by apply Hm.
Qed.

Lemma alloc_view_eq v a : alloc_view sb v a a = zero_block.
Proof. unfold alloc_view. by rewrite fn_lookup_insert. Qed.

Lemma alloc_view_ne v a b : b ≠ a → b ≠ BBLOCK a sb → alloc_view sb v a b = v b.
Proof. intros. unfold alloc_view. by rewrite !fn_lookup_insert_ne. Qed.

Lemma alloc_extends v a :
  (∀ b, length (v b) = BLK) → nmeta sb ≤ a < sb_size sb → in_use sb v a = false →
  extends [] v (alloc_view sb v a).
Proof.
  intros Hlen Ha Hu. pose proof (nmeta_bounds start sb Hg).
  destruct (BBLOCK_range sb start Hg a) as [Hr _]; [lia|]. split.
  - intros b Hb Hub. rewrite (in_use_alloc start sb Hg) by done. by case_decide.
  - intros b Hb Hub _. apply alloc_view_ne; [congruence|lia].
  - intros b Hb _. apply alloc_view_ne; lia.
  - intros _ b. unfold alloc_view.
    destruct (decide (a = b)) as [<-|]; [rewrite fn_lookup_insert; apply length_replicate|].
    rewrite fn_lookup_insert_ne by done.
    destruct (decide (BBLOCK a sb = b)) as [<-|].
    + by rewrite fn_lookup_insert, length_insert.
    + by rewrite fn_lookup_insert_ne.
Qed.

(** Writing a data block or an inode block changes no bit of the free map. *)
Lemma in_use_write v b x b' :
  nmeta sb ≤ b ∨ b < sb_bmapstart sb → 0 ≤ b' < sb_size sb →
  in_use sb (<[b := x]> v) b' = in_use sb v b'.
Proof.
  intros Hb Hb'. destruct (BBLOCK_range sb start Hg b' Hb') as [? _].
  unfold in_use. by rewrite fn_lookup_insert_ne by lia.
Qed.

Lemma write_extends v b x :
  nmeta sb ≤ b ∨ b < sb_bmapstart sb → length x = BLK → extends [b] v (<[b := x]> v).
Proof.
  intros Hb Hx. split.
  - intros b' Hb' Hu. by rewrite in_use_write.
  - intros b' _ _ Hn. rewrite fn_lookup_insert_ne; [done|]. intros ->. apply Hn. by left.
  - intros b' _ Hn. rewrite fn_lookup_insert_ne; [done|]. intros ->. apply Hn. by left.
  - intros Hlen b'. destruct (decide (b = b')) as [<-|];
      [by rewrite fn_lookup_insert|by rewrite fn_lookup_insert_ne].
Qed.

(** ** How allocation changes the pointers of an inode *)

Lemma ptr_IND v dd : ptr_at v dd IND = nth IND (d_addrs dd) 0.
Proof. done. Qed.

Lemma ptr_at_ext v v' dd i :
  (nth IND (d_addrs dd) 0 ≠ 0 → v' (nth IND (d_addrs dd) 0) = v (nth IND (d_addrs dd) 0)) →
  ptr_at v' dd i = ptr_at v dd i.
Proof.
  intros Hv. unfold ptr_at. case_decide; [done|].
  destruct (Z.eqb_spec (nth IND (d_addrs dd) 0) 0); [done|]. by rewrite Hv.
Qed.

(** What [extends] leaves alone of a well-formed inode. *)
Lemma ptr_at_extends X v v' dd i :
  ino_ok sb v dd → extends X v v' → ptr_at v dd IND ∉ X → ptr_at v' dd i = ptr_at v dd i.
Proof.
  intros Hok Hx HX. apply ptr_at_ext. rewrite <-ptr_IND with (v := v). intros H0.
  destruct (io_data _ _ _ Hok IND) as [? ?]; [cbv; lia|done|]. by apply (ex_data _ _ _ Hx).
Qed.

Lemma get32_zero o : get32 zero_block o = 0.
Proof.
  unfold get32, sub, zero_block. rewrite drop_replicate, take_replicate.
  assert (∀ n, le_val (replicate n 0) = 0) as Hz by (induction n; cbn in *; lia). apply Hz.
Qed.

(** [ip->addrs[i0] = a], for a fresh zeroed block [a]. *)
Lemma ptr_at_addr v dd i0 a i :
  length (d_addrs dd) = NADDR → (i0 < NADDR)%nat → nth i0 (d_addrs dd) 0 = 0 → v a = zero_block →
  ptr_at v (dset_addr i0 a dd) i = if decide (i = i0) then a else ptr_at v dd i.
Proof.
  intros Hlen Hi0 H0 Hz. unfold ptr_at, dset_addr, dset_addrs. cbn [d_addrs].
  destruct (decide (i < NADDR)%nat) as [Hi|Hi].
  - destruct (decide (i = i0)) as [->|]; [by rewrite nth_insert_eq by lia|by rewrite nth_insert_ne].
  - rewrite (decide_False (P := i = i0)) by lia.
    destruct (decide (i0 = IND)) as [->|]; [|by rewrite nth_insert_ne].
    rewrite nth_insert_eq, H0, Hz, get32_zero by (rewrite Hlen; cbv; lia). by destruct (a =? 0).
Qed.

(** [a[j] = a] in the indirect block. *)
Lemma ptr_at_entry v dd j a i :
  let ind := nth IND (d_addrs dd) 0 in
  ind ≠ 0 → length (v ind) = BLK → (j < 256)%nat → (i < NPTR)%nat → u32 a = a →
  ptr_at (<[ind := put32 (v ind) (4 * j) a]> v) dd i =
    if decide (i = NADDR + j)%nat then a else ptr_at v dd i.
Proof.
  intros ind Hind Hlen Hj Hi Ha. unfold ptr_at. fold ind.
  destruct (decide (i < NADDR)%nat) as [Hlt|Hge].
  - by rewrite decide_False by lia.
  - rewrite (proj2 (Z.eqb_neq _ _) Hind), fn_lookup_insert.
    assert (4 * j + 4 ≤ length (v ind))%nat by (rewrite Hlen; unfold BLK, BSIZE; lia).
    case_decide as He.
    + subst i. replace (NADDR + j - NADDR)%nat with j by lia. by rewrite get32_put32_eq.
    + rewrite get32_put32_ne by lia. done.
Qed.

(** A fresh block in an empty place. *)
Lemma ino_ok_fresh v dd v' dd' i0 a :
  ino_ok sb v dd → length (d_addrs dd') = NADDR →
  (∀ i, (i < NPTR)%nat → ptr_at v' dd' i = if decide (i = i0) then a else ptr_at v dd i) →
  nmeta sb ≤ a < sb_size sb → in_use sb v a = false → in_use sb v' a = true →
  (∀ b, 0 ≤ b < sb_size sb → in_use sb v b = true → in_use sb v' b = true) →
  ino_ok sb v' dd'.
Proof.
  intros [_ Hd Hi] Hlen Hp Ha Hu Hu' Hm. pose proof (nmeta_bounds start sb Hg). split; [done|..].
  - intros i Hin. rewrite Hp by done. case_decide; [done|]. intros Hnz.
    destruct (Hd i Hin Hnz) as [? ?]. split; [done|]. apply Hm; [lia|done].
  - intros i j Hin Hjn. rewrite !Hp by done. repeat case_decide; subst; try done.
    + intros _ ->. destruct (Hd j Hjn) as [_ ?]; [lia|congruence].
    + intros Hnz He. destruct (Hd i Hin Hnz) as [_ ?]. congruence.
    + by apply Hi.
Qed.
End pointers.

(** A caller that holds no buffer may allocate. *)
Lemma alloc_ok_none sb v : meta_used sb v → alloc_ok sb v ∅ ∅.
Proof. intros. split; [done|]. intros b [Hb|Hb]; [rewrite img_none in Hb|]; set_solver. Qed.

(** ** How the log grows *)

Section log_growth.
Context (sb : superblock).
Implicit Types (L W : list Z).

(** The log after a function that may allocate: at most [k] more blocks, all
    of them free-map blocks or in [W]. *)
Definition log_grows (L L' : list Z) (k : nat) (W : list Z) : Prop :=
  (length L' ≤ length L + k)%nat ∧
  ∀ b, b ∈ L' → b ∈ L ∨ sb_bmapstart sb ≤ b < nmeta sb ∨ (b ≠ 0 ∧ b ∈ W).

Lemma elem_of_log_add L b b' : b' ∈ log_add L b ↔ b' ∈ L ∨ b' = b.
Proof.
  unfold log_add. case_decide; [naive_solver|]. by rewrite elem_of_app, list_elem_of_singleton.
Qed.

Lemma log_grows_refl L k W : log_grows L L k W.
Proof. split; [lia|auto]. Qed.

Lemma log_grows_add L L' k W b :
  log_grows L L' k W → sb_bmapstart sb ≤ b < nmeta sb ∨ (b ≠ 0 ∧ b ∈ W) →
  log_grows L (log_add L' b) (k + 1) W.
Proof.
  intros [Hl Hb] HW. pose proof (log_add_length L' b). split; [lia|].
  intros b' [Hb'| ->]%elem_of_log_add; auto.
Qed.

Lemma log_grows_trans L1 L2 L3 k1 k2 W1 W2 W :
  log_grows L1 L2 k1 W1 → log_grows L2 L3 k2 W2 → (∀ b, b ≠ 0 → b ∈ W1 ∨ b ∈ W2 → b ∈ W) →
  log_grows L1 L3 (k1 + k2) W.
Proof.
  intros [Hl1 Hb1] [Hl2 Hb2] HW. split; [lia|]. intros b Hb.
  destruct (Hb2 b Hb) as [Hb'|[|[]]]; [destruct (Hb1 b Hb') as [|[|[]]]|..]; auto 6.
Qed.

Lemma log_grows_mono L L' k k' W W' :
  log_grows L L' k W → (k ≤ k')%nat → (∀ b, b ≠ 0 → b ∈ W → b ∈ W') → log_grows L L' k' W'.
Proof. intros [Hl Hb] Hk HW. split; [lia|]. intros b Hin. destruct (Hb b Hin) as [|[|[]]]; auto 6. Qed.
End log_growth.

(** ** bmap *)

Section bmap.
Context {S D U : Type} `{OB : BufOps S} `{HD : DiskDev D} `{HL : !DiskLaws D} `{UM : UserMem U}.
Context (dev me : Z) `{BS : !BufSpec S D dev me} (start : Z) (sb : superblock).
Context (Hstart : 0 ≤ start ∧ start + LOGSIZE < 2147483648).
Context (Hdev : u32 dev = dev) (Hg : geometry start sb).
Implicit Types (fs : fstate S U) (L : list Z) (v : Z → block) (d : D) (dd : dinode).
Abbreviation tx := (tx dev me start).

(** [fs'] differs from [fs] in the disk, in the [dinode] of [ip], and in what
    was printed. *)
Record ino_upd (fs : fstate S U) (ip : nat) (x : inode) (dd' : dinode) (fs' : fstate S U) : Prop := {
  iu_sb : f_sb fs' = f_sb fs;
  iu_loc : f_loc fs' = f_loc fs;
  iu_mem : f_mem fs' = f_mem fs;
  iu_it : f_it fs' = <[ip := iset_d dd' x]> (f_it fs)
}.

(** The state a function of this section is called in. *)
Record ino_pre (fs : fstate S U) (ip : nat) (x : inode) (c : Z * Z * Z) (L : list Z)
    (v : Z → block) (d : D) : Prop := {
  ip_sb : f_sb fs = sb;
  ip_it : f_it fs !! ip = Some x;
  ip_dev : i_dev x = dev;
  ip_tx : tx (f_l fs) c L v ∅ ∅ d;
  ip_meta : meta_used sb v;
  ip_ok : ino_ok sb v (i_d x)
}.

Lemma iset_d_id x : iset_d (i_d x) x = x.
Proof. by destruct x. Qed.

Lemma ino_upd_refl fs ip x l : f_it fs !! ip = Some x → ino_upd fs ip x (i_d x) (fset_l l fs).
Proof. intros Hx. split; try done. cbn. by rewrite iset_d_id, list_insert_id. Qed.

Lemma ino_upd_trans fs1 fs2 fs3 ip x dd2 dd3 :
  ino_upd fs1 ip x dd2 fs2 → ino_upd fs2 ip (iset_d dd2 x) dd3 fs3 → ino_upd fs1 ip x dd3 fs3.
Proof.
  intros [Hs Hl Hm Hi] [Hs' Hl' Hm' Hi']. split; try congruence.
  by rewrite Hi', Hi, list_insert_insert_eq.
Qed.

Lemma wp_getino fs ip x (Q : inode → fstate S U → Prop) :
  f_it fs !! ip = Some x → Q x fs → wp (getino ip) fs Q.
Proof. intros Hx HQ. unfold getino. wp_steps. by eapply wp_mnth. Qed.

Lemma wp_setino fs ip x f (Q : unit → fstate S U → Prop) :
  f_it fs !! ip = Some x → Q tt (fset_it (<[ip := f x]> (f_it fs)) fs) → wp (setino ip f) fs Q.
Proof. intros Hx HQ. unfold setino. wp_step. eapply wp_getino; [done|]. by wp_steps. Qed.

(** How many pointers of the inode changed, and what became of place [i0]. *)
Record ptr_post (v : Z → block) (dd : dinode) (i0 : nat) (r : Z) (v' : Z → block) (dd' : dinode) : Prop := {
  pp_ok : ino_ok sb v' dd';
  pp_ext : extends sb [ptr_at v' dd' IND] v v';
  pp_at : r ≠ 0 → ptr_at v' dd' i0 = r;
  pp_others : ∀ i, (i < NPTR)%nat → i ≠ i0 → i ≠ IND → ptr_at v' dd' i = ptr_at v dd i;
  pp_ind : ptr_at v dd IND ≠ 0 → ptr_at v' dd' IND = ptr_at v dd IND;
  pp_fields : dd' = dset_addrs (d_addrs dd') dd;
  pp_old : ptr_at v dd i0 ≠ 0 → r = ptr_at v dd i0 ∧ v' = v ∧ dd' = dd;
  pp_new : r ≠ 0 → ptr_at v dd i0 = 0 → v' r = zero_block;
  pp_full : r = 0 → ∀ b, 0 ≤ b < sb_size sb → in_use sb v' b = true
}.

Lemma ptr_post_refl v dd i0 :
  ino_ok sb v dd → (ptr_at v dd i0 = 0 → ∀ b, 0 ≤ b < sb_size sb → in_use sb v b = true) →
  ptr_post v dd i0 (ptr_at v dd i0) v dd.
Proof.
  intros Hok Hfull. split; try done. by destruct dd.
Qed.

(** The two ways to fill an empty place. *)
Lemma ptr_post_addr v dd i0 a :
  (∀ b, length (v b) = BLK) → ino_ok sb v dd → (i0 < NADDR)%nat → ptr_at v dd i0 = 0 →
  nmeta sb ≤ a < sb_size sb → in_use sb v a = false →
  ptr_post v dd i0 a (alloc_view sb v a) (dset_addr i0 a dd).
Proof.
  intros Hlen Hok Hi0 H0 Ha Hu. pose proof (alloc_extends sb start Hg v a Hlen Ha Hu) as Hext.
  pose proof (io_len _ _ _ Hok) as Hal. pose proof (nmeta_bounds start sb Hg).
  assert (nth i0 (d_addrs dd) 0 = 0) as H0' by (unfold ptr_at in H0; by rewrite decide_True in H0).
  assert (∀ i, ptr_at (alloc_view sb v a) (dset_addr i0 a dd) i =
    if decide (i = i0) then a else ptr_at v dd i) as Hp.
  { intros i. rewrite ptr_at_addr by (done || apply alloc_view_eq). case_decide; [done|].
    eapply ptr_at_extends; [done..|]. set_solver. }
  split; try done.
  - eapply ino_ok_fresh; try done.
    + cbn. by rewrite length_insert.
    + rewrite (in_use_alloc start sb Hg) by (done || lia). by rewrite decide_True.
    + apply Hext.
  - by eapply extends_mono; [|done]; intros b ?%elem_of_nil.
  - rewrite Hp. by rewrite decide_True.
  - intros i _ Hi _. by rewrite Hp, decide_False.
  - intros Hind. rewrite Hp. case_decide as He; [by rewrite <-He in H0|done].
  - intros _ _. apply alloc_view_eq.
  - lia.
Qed.

Lemma ptr_post_entry v dd j a :
  let ind := ptr_at v dd IND in
  (∀ b, length (v b) = BLK) → ino_ok sb v dd → (j < 256)%nat → ind ≠ 0 →
  ptr_at v dd (NADDR + j) = 0 → nmeta sb ≤ a < sb_size sb → in_use sb v a = false →
  let v1 := alloc_view sb v a in
  ptr_post v dd (NADDR + j) a (<[ind := put32 (v1 ind) (4 * j) a]> v1) dd.
Proof.
  intros ind Hlen Hok Hj Hind H0 Ha Hu v1. pose proof (alloc_extends sb start Hg v a Hlen Ha Hu) as Hext.
  pose proof (nmeta_bounds start sb Hg). pose proof (g_data _ _ Hg).
  destruct (io_data _ _ _ Hok IND) as [Hi1 Hi2]; [cbv; lia|done|]. fold ind in Hi1, Hi2.
  pose proof (ex_len _ _ _ _ Hext Hlen) as Hlen1.
  assert (4 * j + 4 ≤ length (v1 ind))%nat by (rewrite Hlen1; unfold BLK, BSIZE; lia).
  assert (length (put32 (v1 ind) (4 * j) a) = BLK) as Hpl by (by rewrite length_put32).
  assert (extends sb [ind] v1 (<[ind := put32 (v1 ind) (4 * j) a]> v1)) as Hext2.
  { apply (write_extends sb start Hg); [lia|done]. }
  assert (∀ i, (i < NPTR)%nat → ptr_at (<[ind := put32 (v1 ind) (4 * j) a]> v1) dd i =
    if decide (i = NADDR + j)%nat then a else ptr_at v dd i) as Hp.
  { intros i Hi. etrans; [apply (ptr_at_entry v1 dd j a i); done || (apply u32_small; lia)|].
    case_decide; [done|]. eapply ptr_at_extends; [done..|]. set_solver. }
  assert (ptr_at (<[ind := put32 (v1 ind) (4 * j) a]> v1) dd IND = ind) as HpI by done.
  split; rewrite ?HpI; try done.
  - eapply (ino_ok_fresh sb start Hg v dd); try done; [apply Hok| |].
    + rewrite (in_use_write sb start Hg) by lia. unfold v1.
      rewrite (in_use_alloc start sb Hg) by (done || lia). by rewrite decide_True.
    + intros b Hb Hub. apply (ex_used _ _ _ _ Hext2); [done|]. by apply (ex_used _ _ _ _ Hext).
  - eapply extends_trans; [done| |done]. by eapply extends_mono; [|done]; intros b ?%elem_of_nil.
  - intros _. rewrite Hp by (unfold NADDR, NDIRECT, NPTR; lia). by rewrite decide_True.
  - intros i Hi Hne _. by rewrite Hp, decide_False.
  - by destruct dd.
  - intros _ _. rewrite fn_lookup_insert_ne by congruence. apply alloc_view_eq.
  - lia.
Qed.

(** The change to place [IND], then the one behind it. *)
Lemma ptr_post_trans v dd i0 r1 v1 dd1 r v' dd' :
  ptr_at v dd i0 = ptr_at v1 dd1 i0 → i0 ≠ IND → (i0 < NPTR)%nat → r1 ≠ 0 →
  ptr_post v dd IND r1 v1 dd1 → ptr_post v1 dd1 i0 r v' dd' → (ptr_at v dd i0 ≠ 0 → v1 = v ∧ dd1 = dd) →
  ptr_post v dd i0 r v' dd'.
Proof.
  intros He Hne Hlt Hr1 [] [] Hold. rewrite pp_at0 in * by done.
  assert (ptr_at v' dd' IND = r1) as HI by (by apply pp_ind1).
  split; try done.
  - rewrite HI in *. by eapply extends_trans.
  - intros i Hi Hi0 HiI. rewrite pp_others1, pp_others0; done.
  - intros Hi. rewrite HI. by destruct (pp_old0 Hi).
  - rewrite pp_fields1. rewrite pp_fields0. by destruct dd.
  - intros Hi. destruct (Hold Hi) as [-> ->]. by apply pp_old1.
  - intros Hr Hi. apply pp_new1; [done|]. congruence.
Qed.

(** The state after a function that may allocate. *)
Definition ino_post (fs : fstate S U) (ip : nat) (x : inode) (c : Z * Z * Z) (L : list Z)
    (k : nat) (W : list Z) (d : D) (v' : Z → block) (dd' : dinode) (fs' : fstate S U) : Prop :=
  ino_upd fs ip x dd' fs' ∧ ∃ L', tx (f_l fs') c L' v' ∅ ∅ d ∧ log_grows sb L L' k W.

(** [balloc] logs a block of the free map and the new block. *)
Lemma log_grows_alloc L a W :
  0 < a < sb_size sb → a ∈ W → log_grows sb L (log_add (log_add L (BBLOCK a sb)) a) 2 W.
Proof.
  intros Ha HW. destruct (BBLOCK_range sb start Hg a) as [? _]; [lia|].
  apply (log_grows_add sb L _ 1); [apply (log_grows_add sb L _ 0); [apply log_grows_refl|auto]|].
  right. split; [lia|done].
Qed.

Lemma bmap_alloc_spec fs ip x c L v d i0 :
  ino_pre fs ip x c L v d → (i0 < NADDR)%nat → log_room c L 2 → cache_room L ∅ 2 →
  wp (bmap_alloc me ip i0) fs (λ r fs', ∃ v' dd',
    ptr_post v (i_d x) i0 r v' dd' ∧ ino_post fs ip x c L 2 [r] d v' dd' fs' ∧
    (r = 0 → v' = v ∧ dd' = i_d x)).
Proof.
  intros [Hsb Hit Hxd Htx Hmeta Hok] Hi0 Hr Hcr. unfold bmap_alloc. wp_step.
  eapply wp_getino; [done|]. pose proof (io_len _ _ _ Hok) as Hal.
  wp_step. eapply wp_mnth; [apply (nth_Some _ _ 0); lia|].
  assert (nth i0 (d_addrs (i_d x)) 0 = ptr_at v (i_d x) i0) as Hp by (unfold ptr_at; by rewrite decide_True).
  rewrite Hp. pose proof (nmeta_bounds start sb Hg).
  destruct (Z.eqb_spec (ptr_at v (i_d x) i0) 0) as [H0|H0].
  - wp_step. rewrite Hxd.
    eapply (balloc_spec dev me start sb Hstart Hdev Hg); [done..|by apply alloc_ok_none|done|done| |].
    + intros Hfull l Htx1. rewrite Z.eqb_refl. wp_step. exists v, (i_d x). rewrite <-H0.
      split_and!; [by apply ptr_post_refl| |done].
      destruct (ino_upd_refl fs ip x l Hit) as [? ? ? ?].
      split; [by split|]. exists L. split; [done|apply log_grows_refl].
    + intros a l Ha Hu _ Htx1.
      rewrite (proj2 (Z.eqb_neq _ _)) by lia. wp_step. eapply wp_setino; [done|]. wp_step.
      exists (alloc_view sb v a), (dset_addr i0 a (i_d x)). split_and!; [| |lia].
      * apply ptr_post_addr; try done. intros b. by eapply tx_length.
      * split; [by split|]. eexists. split; [done|]. apply log_grows_alloc; [lia|by left].
  - wp_step. exists v, (i_d x). split_and!; [by apply ptr_post_refl| |done].
    split; [rewrite <-(fset_l_id fs) at 2; by apply ino_upd_refl|].
    exists L. split; [done|apply log_grows_refl].
Qed.

Lemma ino_pre_post fs ip x c L v d k W v' dd' fs' X :
  ino_pre fs ip x c L v d → ino_post fs ip x c L k W d v' dd' fs' → ino_ok sb v' dd' →
  extends sb X v v' →
  ∃ L', ino_pre fs' ip (iset_d dd' x) c L' v' d ∧ log_grows sb L L' k W.
Proof.
  intros [Hsb Hit Hxd Htx Hmeta Hok] [[Hs Hl Hm Hi] (L' & Htx' & Hlen)] Hok' Hext.
  exists L'. split; [|done]. split; try done.
  - congruence.
  - rewrite Hi. apply list_lookup_insert_eq. by eapply lookup_lt_Some.
  - by eapply extends_meta_used.
Qed.

Lemma ino_post_trans fs1 fs2 fs3 ip x c L1 L2 k1 k2 W1 W2 W d dd2 v3 dd3 :
  ino_upd fs1 ip x dd2 fs2 → log_grows sb L1 L2 k1 W1 →
  ino_post fs2 ip (iset_d dd2 x) c L2 k2 W2 d v3 dd3 fs3 → (∀ b, b ≠ 0 → b ∈ W1 ∨ b ∈ W2 → b ∈ W) →
  ino_post fs1 ip x c L1 (k1 + k2) W d v3 dd3 fs3.
Proof.
  intros Hu Hlen [Hu' (L3 & Htx & Hlen')] HW. split; [by eapply ino_upd_trans|].
  exists L3. split; [done|by eapply log_grows_trans].
Qed.

Lemma ino_post_mono fs ip x c L k k' W W' d v' dd' fs' :
  ino_post fs ip x c L k W d v' dd' fs' → (k ≤ k')%nat → (∀ b, b ≠ 0 → b ∈ W → b ∈ W') →
  ino_post fs ip x c L k' W' d v' dd' fs'.
Proof.
  intros [? (L' & ? & ?)] ? ?. split; [done|]. exists L'. split; [done|by eapply log_grows_mono].
Qed.

Lemma log_room_grow c L L' k n :
  log_room c L k → (length L' ≤ length L + n)%nat → log_room c L' (k - Z.of_nat n).
Proof. destruct c as [[sz out] cm]. unfold log_room. intros (? & ? & ?) ?. split_and!; lia. Qed.

Lemma cache_room_grow L L' (H : gmap nat Z) k n :
  cache_room L H k → (length L' ≤ length L + n)%nat → (n ≤ k)%nat → cache_room L' H (k - n).
Proof. unfold cache_room. lia. Qed.

(** The part of [bmap] after the indirect block has been found: place
    [NADDR + j]. *)
Lemma bmap_indirect_spec fs ip x c L v d j (Q : Z → fstate S U → Prop) :
  let ind := ptr_at v (i_d x) IND in
  ino_pre fs ip x c L v d → (j < 256)%nat → ind ≠ 0 → log_room c L 3 → cache_room L ∅ 3 →
  (∀ r v' fs', ptr_post v (i_d x) (NADDR + j) r v' (i_d x) →
     ino_post fs ip x c L 3 [r; ind] d v' (i_d x) fs' → Q r fs') →
  wp (bp ← fb (op_bread me (i_dev x) ind);
      b ← fb (op_data bp);
      addr ← (if get32 b (4 * j) =? 0 then
                addr ← balloc me (i_dev x);
                mwhen (negb (addr =? 0))
                  (b ← fb (op_data bp);
                   fb (op_setdata bp (put32 b (4 * j) addr)) ;;
                   onl (log_write bp)) ;;
                mret addr
              else mret (get32 b (4 * j)));
      fb (op_brelse me bp) ;;
      mret addr) fs Q.
Proof.
  intros ind [Hsb Hit Hxd Htx Hmeta Hok] Hj Hind Hr Hcr HQ. rewrite Hxd.
  pose proof (nmeta_bounds start sb Hg) as Hnm. pose proof (g_data _ _ Hg) as Hgd.
  destruct (io_data _ _ _ Hok IND) as [Hi1 Hi2]; [cbv; lia|done|]. fold ind in Hi1, Hi2.
  assert (∀ b, length (v b) = BLK) as Hlen by (intros; by eapply tx_length).
  assert (get32 (v ind) (4 * j) = ptr_at v (i_d x) (NADDR + j)) as Hp.
  { unfold ptr_at at 1. rewrite decide_False by lia.
    change (nth IND (d_addrs (i_d x)) 0) with ind. rewrite (proj2 (Z.eqb_neq _ _) Hind).
    by replace (NADDR + j - NADDR)%nat with j by lia. }
  wp_step. eapply tx_bread; [done|rewrite img_none; set_solver|by eapply cache_room_le; [done|lia]|].
  intros bp l1 Hbp Htx1. wp_step. eapply tx_data; [done|apply lookup_insert_eq|]. rewrite Hp.
  assert (∀ l W, tx l c L v ∅ ∅ d → ino_post fs ip x c L 3 W d v (i_d x) (fset_l l fs)) as Hsame.
  { intros l W Htx'. split; [by apply ino_upd_refl|]. exists L. split; [done|apply log_grows_refl]. }
  destruct (Z.eqb_spec (ptr_at v (i_d x) (NADDR + j)) 0) as [H0|H0].
  - wp_step. wp_step.
    eapply (balloc_spec dev me start sb Hstart Hdev Hg); [done..| | | | |].
    + split; [done|]. rewrite img_one. intros b [->%elem_of_singleton|Hb]; [|set_solver].
      split_and!; [lia..|done|lia].
    + eapply log_room_le; [done|lia].
    + unfold cache_room in *. rewrite map_size_insert_None, map_size_empty by apply lookup_empty.
      rewrite map_size_empty in Hcr. lia.
    + intros Hfull l2 Htx2. wp_steps. cbn [mwhen negb Z.eqb]. wp_steps.
      eapply tx_brelse; [done|apply lookup_insert_eq|set_solver|]. intros l3 Htx3.
      rewrite held_back in Htx3 by done. wp_step. apply HQ with (v' := v).
      * rewrite <-H0. by apply ptr_post_refl.
      * destruct (Hsame l3 [0; ind] Htx3) as [[? ? ? ?] ?]. by split.
    + intros a l2 Ha Hu _ Htx2. wp_step. rewrite (proj2 (Z.eqb_neq _ _)) by lia. cbn [negb mwhen].
      assert (BBLOCK a sb ≠ ind ∧ a ≠ ind) as [Hn1 Hn2].
      { destruct (BBLOCK_range sb start Hg a) as [? _]; [lia|]. split; [lia|congruence]. }
      wp_step. eapply tx_data; [done|apply lookup_insert_eq|].
      wp_step. eapply tx_setdata; [done|apply lookup_insert_eq| |].
      { rewrite length_put32; [by eapply tx_length|]. erewrite tx_length by done. unfold BLK, BSIZE. lia. }
      intros l3 Htx3. eapply tx_log_write; [done|apply lookup_insert_eq| | |].
      { apply (home_meta start sb Hg). lia. }
      { eapply log_room_le; [apply (log_room_grow c L _ 3 2)|lia]; [done|].
        pose proof (log_add_length L (BBLOCK a sb)).
        pose proof (log_add_length (log_add L (BBLOCK a sb)) a). lia. }
      intros l4 Htx4. wp_steps. eapply tx_brelse; [done|apply lookup_insert_eq|set_solver|].
      intros l5 Htx5. rewrite held_back in Htx5 by done. wp_step.
      eapply HQ; [by apply (ptr_post_entry v (i_d x) j a)|].
      replace (({[ind]} ∪ ∅) ∖ {[ind]}) with (∅ : gset Z) in Htx5 by set_solver.
      split; [exact (ino_upd_refl fs ip x l5 Hit)|]. eexists. split; [done|].
      apply (log_grows_add sb L _ 2); [apply log_grows_alloc; [lia|by left]|].
      right. split; [done|by right; left].
  - wp_steps. eapply tx_brelse; [done|apply lookup_insert_eq|set_solver|].
    intros l2 Htx2. rewrite held_back in Htx2 by done. wp_step.
    apply HQ with (v' := v); [by apply ptr_post_refl|exact (Hsame l2 _ Htx2)].
Qed.

Lemma ptr_behind_IND v dd i : (NADDR ≤ i)%nat → ptr_at v dd i ≠ 0 → ptr_at v dd IND ≠ 0.
Proof.
  intros Hi. rewrite ptr_IND. unfold ptr_at. rewrite decide_False by lia.
  by destruct (Z.eqb_spec (nth IND (d_addrs dd) 0) 0).
Qed.

Lemma place_indirect bn : NDIRECT ≤ bn → place bn = (NADDR + Z.to_nat (bn - NDIRECT))%nat.
Proof.
  intros Hbn. unfold place. rewrite (proj2 (Z.ltb_ge _ _)) by done.
  unfold NADDR, NDIRECT in *. lia.
Qed.

Lemma bmap_spec fs ip x c L v d bn :
  ino_pre fs ip x c L v d → 0 ≤ bn < MAXFILE → log_room c L 5 → cache_room L ∅ 5 →
  wp (bmap me ip bn) fs (λ r fs', ∃ v' dd',
    ptr_post v (i_d x) (place bn) r v' dd' ∧ ino_post fs ip x c L 5 [r; ptr_at v' dd' IND] d v' dd' fs').
Proof.
  intros Hpre Hbn Hr Hcr. pose proof (ip_ok _ _ _ _ _ _ _ Hpre) as Hok. unfold bmap.
  destruct (Z.ltb_spec bn NDIRECT) as [Hlt|Hge].
  - assert (place bn = Z.to_nat bn) as -> by (unfold place; by rewrite (proj2 (Z.ltb_lt _ _))).
    eapply wp_mono; [apply (bmap_alloc_spec fs ip x c L v d (Z.to_nat bn)); [done|..]|].
    + unfold NADDR. lia.
    + eapply log_room_le; [done|lia].
    + eapply cache_room_le; [done|lia].
    + intros r fs' (v' & dd' & Hpp & Hpost & _). exists v', dd'. split; [done|].
      eapply ino_post_mono; [done|lia|]. set_solver.
  - rewrite place_indirect by done. set (j := Z.to_nat (bn - NDIRECT)).
    assert (j < 256)%nat as Hj by (unfold j, MAXFILE, NDIRECT, NINDIRECT, BSIZE in *; zlia).
    rewrite (proj2 (Z.ltb_lt _ NINDIRECT)) by (unfold MAXFILE in Hbn; lia).
    wp_step. eapply wp_mono; [apply (bmap_alloc_spec fs ip x c L v d IND); [done|..]|].
    + cbv. lia.
    + eapply log_room_le; [done|lia].
    + eapply cache_room_le; [done|lia].
    + intros r1 fs1 (v1 & dd1 & Hpp & Hpost & Hfail). destruct (Z.eqb_spec r1 0) as [H0|H0].
      * destruct (Hfail H0) as [-> ->]. wp_step. exists v, (i_d x).
        split; [|eapply ino_post_mono; [done|lia|subst r1; set_solver]].
        destruct (decide (ptr_at v (i_d x) (NADDR + j) = 0)) as [He|Hne].
        -- rewrite <-He. apply ptr_post_refl; [done|]. intros _. by apply Hpp.
        -- apply ptr_behind_IND in Hne; [|lia]. destruct (pp_old _ _ _ _ _ _ Hpp Hne). congruence.
      * destruct (ino_pre_post _ _ _ _ _ _ _ _ _ _ _ _ _ Hpre Hpost (pp_ok _ _ _ _ _ _ Hpp) (pp_ext _ _ _ _ _ _ Hpp))
          as (L1 & Hpre1 & Hlen1).
        destruct Hpost as [Hupd1 _]. pose proof (ip_it _ _ _ _ _ _ _ Hpre1) as Hit1.
        wp_step. eapply wp_getino; [done|].
        rewrite <-(pp_at _ _ _ _ _ _ Hpp H0).
        apply (bmap_indirect_spec fs1 ip (iset_d dd1 x) c L1 v1 d j); try done.
        -- cbn. by rewrite (pp_at _ _ _ _ _ _ Hpp H0).
        -- eapply log_room_le; [eapply (log_room_grow _ L _ 5 2); [done|apply Hlen1]|lia].
        -- eapply cache_room_le; [eapply (cache_room_grow L _ _ 5 2); [done|apply Hlen1|lia]|lia].
        -- intros r v' fs' Hpp2 Hpost2. exists v', dd1. cbn [iset_d i_d] in *.
           split.
           2:{ eapply (ino_post_trans fs fs1 fs' ip x c L L1 2 3); [done..|].
               rewrite <-(pp_at _ _ _ _ _ _ Hpp H0), !ptr_IND. set_solver. }
           eapply (ptr_post_trans v (i_d x) _ r1 v1 dd1); try done.
           ++ symmetry. apply Hpp; places.
           ++ places.
           ++ intros Hne. apply ptr_behind_IND in Hne; [|lia]. by destruct (pp_old _ _ _ _ _ _ Hpp Hne).
Qed.
End bmap.
