(* ===== verification/FsRw.v ===== *)
(** * Inodes on disk and reading files: iupdate, ilock and readi of kernel/fs.c

    [readi] delivers the bytes [fbyte] of the file, to a kernel buffer or to
    user space. *)
From Stdlib Require Import ZArith Lia.
From stdpp Require Import prelude functions strings gmap.
From S2P Require Import Prelude Bytes Param Str UserMem Sleeplock BufIface Log LogSpec Fs FsBlock FsData.

(** ** On-disk inodes: iupdate and ilock of kernel/fs.c

    [struct dinode] in a block survives being written and read back; [iupdate]
    writes it to the inode's own slot and [ilock] reads it from there. *)

(** The fields have the values their C types allow. *)
Record dinode_wf (d : dinode) : Prop := {
  dw_type : -32768 ≤ d_type d < 32768;
  dw_major : -32768 ≤ d_major d < 32768;
  dw_minor : -32768 ≤ d_minor d < 32768;
  dw_nlink : -32768 ≤ d_nlink d < 32768;
  dw_size : 0 ≤ d_size d < 4294967296;
  dw_len : length (d_addrs d) = NADDR;
  dw_addrs : Forall (λ a, 0 ≤ a < 4294967296) (d_addrs d);
  dw_mode : 0 ≤ d_mode d < 65536
}.

(** [memmove(dip->addrs, ip->addrs, sizeof(ip->addrs))]. *)
Section words.
Context (a : nat → Z) (p : nat).

Definition put_words (x : block) (n : nat) : block :=
  foldl (λ x i, put32 x (p + 4 * i) (a i)) x (seq 0 n).

Lemma put_words_S x n : put_words x (S n) = put32 (put_words x n) (p + 4 * n) (a n).
Proof. unfold put_words. by rewrite seq_S, foldl_app. Qed.

Lemma length_put_words x n : (p + 4 * n ≤ length x)%nat → length (put_words x n) = length x.
Proof.
  induction n as [|n IH]; intros Hl; [done|]. rewrite put_words_S, length_put32; rewrite IH; lia.
Qed.

Lemma get32_put_words x n j :
  (p + 4 * n ≤ length x)%nat → (j < n)%nat → get32 (put_words x n) (p + 4 * j) = u32 (a j).
Proof.
  induction n as [|n IH]; intros Hl Hj; [lia|]. rewrite put_words_S.
  destruct (decide (j = n)) as [->|].
  - rewrite get32_put32_eq; [done|]. rewrite length_put_words; lia.
  - rewrite get32_put32_ne; [apply IH; lia| |lia]. rewrite length_put_words; lia.
Qed.

Lemma sub_put_words x n o k :
  (p + 4 * n ≤ length x)%nat → (o + k ≤ p ∨ p + 4 * n ≤ o)%nat → sub (put_words x n) o k = sub x o k.
Proof.
  induction n as [|n IH]; intros Hl Ho; [done|]. rewrite put_words_S. unfold put32.
  rewrite sub_splice_ne; [apply IH; lia|..]; rewrite length_le_bytes; [rewrite length_put_words|]; lia.
Qed.
End words.

Lemma dinode_put_words d x o :
  dinode_put d x o =
  put_words (λ i, nth i (d_addrs d) 0) (o + 12)
    (put16 (put32 (put16 (put16 (put16 (put16 x o (d_type d)) (o + 2) (d_major d)) (o + 4) (d_minor d))
      (o + 6) (d_nlink d)) (o + 8) (d_size d)) (o + 64) (d_mode d)) NADDR.
Proof. done. Qed.

Ltac fields := repeat (rewrite length_put16 || rewrite length_put32); change NADDR with 13%nat in *; lia.

Lemma length_dinode_put d x o : (o + 66 ≤ length x)%nat → length (dinode_put d x o) = length x.
Proof.
  intros Hl. rewrite dinode_put_words, length_put_words; fields.
Qed.

Lemma s16_u16 z : -32768 ≤ z < 32768 → s16 (u16 z) = z.
Proof. intros. unfold s16, u16. wordlia. Qed.

(** What [iupdate] writes, [ilock] reads back. *)
Lemma dinode_get_put d x o :
  dinode_wf d → (o + 66 ≤ length x)%nat → dinode_get (dinode_put d x o) o = d.
Proof.
  intros [Ht Hma Hmi Hn Hs Hl Ha Hm] Hx. rewrite dinode_put_words.
  destruct d as [ty ma mi nl sz ad mo]. cbn [d_type d_major d_minor d_nlink d_size d_addrs d_mode] in *.
  unfold dinode_get. f_equal; unfold get16, get32.
  1-5,7: rewrite sub_put_words by fields.
  - rewrite <-(s16_u16 ty) at 2 by lia. f_equal. change (le_val (sub ?y ?q 2)) with (get16 y q).
    rewrite get16_put16_ne, get16_put32_ne, !get16_put16_ne, get16_put16_eq by fields. done.
  - rewrite <-(s16_u16 ma) at 2 by lia. f_equal. change (le_val (sub ?y ?q 2)) with (get16 y q).
    rewrite get16_put16_ne, get16_put32_ne, !get16_put16_ne, get16_put16_eq by fields. done.
  - rewrite <-(s16_u16 mi) at 2 by lia. f_equal. change (le_val (sub ?y ?q 2)) with (get16 y q).
    rewrite get16_put16_ne, get16_put32_ne, get16_put16_ne, get16_put16_eq by fields. done.
  - rewrite <-(s16_u16 nl) at 2 by lia. f_equal. change (le_val (sub ?y ?q 2)) with (get16 y q).
    rewrite get16_put16_ne, get16_put32_ne, get16_put16_eq by fields. done.
  - change (le_val (sub ?y ?q 4)) with (get32 y q).
    rewrite get32_put16_ne, get32_put32_eq by fields. by apply u32_small.
  - change (le_val (sub ?y ?q 2)) with (get16 y q). rewrite get16_put16_eq by fields.
    unfold u16. apply Z.mod_small. lia.
  - apply list_eq. intros i. rewrite list_lookup_fmap. destruct (decide (i < NADDR)%nat) as [Hi|Hi].
    + rewrite lookup_seq_lt by done. cbn [fmap option_fmap option_map Nat.add].
      change (le_val (sub ?y ?q 4)) with (get32 y q). rewrite get32_put_words by fields.
      rewrite (nth_Some _ _ 0) by lia. f_equal. apply u32_small.
      apply (Forall_lookup_1 (λ a, 0 ≤ a < 4294967296) ad i); [done|]. apply nth_Some. lia.
    + rewrite lookup_seq_ge, lookup_ge_None_2 by lia. done.
Qed.

Section inodes.
Context {S D U : Type} `{OB : BufOps S} `{HD : DiskDev D} `{HL : !DiskLaws D} `{UM : UserMem U}.
Context (dev me : Z) `{BS : !BufSpec S D dev me} (start : Z) (sb : superblock).
Context (Hstart : 0 ≤ start ∧ start + LOGSIZE < 2147483648).
Context (Hg : geometry start sb).
Implicit Types (fs : fstate S U) (L : list Z) (v : Z → block) (H : gmap nat Z) (T : gset Z) (d : D).
Abbreviation tx := (tx dev me start).

(** The inode [x] is one of the file system. *)
Definition ino_known (x : inode) : Prop := i_dev x = dev ∧ 0 ≤ i_inum x < sb_ninodes sb.

Lemma IBLOCK_range inum :
  0 ≤ inum < sb_ninodes sb →
  u32 (IBLOCK inum sb) = IBLOCK inum sb ∧ sb_inodestart sb ≤ IBLOCK inum sb < sb_bmapstart sb.
Proof.
  intros Hi. pose proof (nmeta_bounds start sb Hg). destruct (g_inodes _ _ Hg), (g_data _ _ Hg).
  unfold IBLOCK, IPB, sizeof_dinode, BSIZE. change (1024 / 1024) with 1. rewrite Z.div_1_r.
  rewrite u32_small; lia.
Qed.

Lemma dinode_off_lt inum : (dinode_off inum + 66 ≤ BLK)%nat.
Proof.
  unfold dinode_off, IPB, sizeof_dinode, BSIZE, BLK. change (1024 / 1024) with 1.
  rewrite Z.mod_1_r. unfold BSIZE. lia.
Qed.

Lemma wp_on_ilock {A} fs ip x (m : M sleeplock A) (Q : A → fstate S U → Prop) :
  f_it fs !! ip = Some x →
  wp m (i_lock x) (λ a lk, Q a (fset_it (<[ip := iset_lock lk x]> (f_it fs)) fs)) →
  wp (on_ilock ip m) fs Q.
Proof. intros Hx Hm. unfold on_ilock. wp_step. eapply wp_getino; [done|]. by apply wp_lift. Qed.

(** The disk after [iupdate]. *)
Definition iupdate_view v (x : inode) : Z → block :=
  <[IBLOCK (i_inum x) sb := dinode_put (i_d x) (v (IBLOCK (i_inum x) sb)) (dinode_off (i_inum x))]> v.

Lemma iupdate_spec fs ip x c L v H T d (Q : unit → fstate S U → Prop) :
  f_sb fs = sb → f_it fs !! ip = Some x → ino_known x → tx (f_l fs) c L v H T d →
  IBLOCK (i_inum x) sb ∉ (map_img H : gset Z) ∪ T → log_room c L 1 → cache_room L H 1 →
  (∀ l, tx l c (log_add L (IBLOCK (i_inum x) sb)) (iupdate_view v x) H T d → Q tt (fset_l l fs)) →
  wp (iupdate me ip) fs Q.
Proof.
  intros Hsb Hit [Hxd Hin] Htx Hfree Hr Hcr HQ. unfold iupdate.
  destruct (IBLOCK_range _ Hin) as [Hu Hb]. pose proof (nmeta_bounds start sb Hg).
  destruct (g_data _ _ Hg). pose proof (dinode_off_lt (i_inum x)).
  wp_step. eapply wp_getino; [done|]. wp_step. wp_step. rewrite Hsb, Hu, Hxd.
  wp_step. eapply tx_bread; [done|set_solver|done|]. intros bp l1 Hbp Htx1.
  wp_step. eapply tx_data; [done|apply lookup_insert_eq|].
  eapply (tx_put _ _ _ Hstart); [done|apply lookup_insert_eq|set_solver| | |done|].
  - rewrite length_dinode_put; by erewrite tx_length.
  - apply (home_meta start sb Hg). lia.
  - intros l2 Htx2. eapply tx_brelse; [done|apply lookup_insert_eq|set_solver|]. intros l3 Htx3.
    rewrite held_back in Htx3 by done. by apply HQ.
Qed.

(** The inode [ilock] leaves behind: [x] locked and read from the disk. *)
Definition ilock_ino v (x : inode) : inode :=
  let x := iset_lock (SleepLock 1 me) x in
  if i_valid x =? 0
  then iset_valid 1 (iset_d (dinode_get (v (IBLOCK (i_inum x) sb)) (dinode_off (i_inum x))) x)
  else x.

Lemma ilock_spec fs ip x c L v H T d (Q : unit → fstate S U → Prop) :
  f_sb fs = sb → f_it fs !! ip = Some x → ino_known x → tx (f_l fs) c L v H T d →
  IBLOCK (i_inum x) sb ∉ (map_img H : gset Z) ∪ T → cache_room L H 1 →
  1 ≤ i_ref x → sl_locked (i_lock x) = 0 → d_type (i_d (ilock_ino v x)) ≠ 0 →
  (∀ l, tx l c L v H T d → Q tt (fset_l l (fset_it (<[ip := ilock_ino v x]> (f_it fs)) fs))) →
  wp (ilock me ip) fs Q.
Proof.
  intros Hsb Hit [Hxd Hin] Htx Hfree Hcr Href Hlk Hty HQ. unfold ilock.
  destruct (IBLOCK_range _ Hin) as [Hu Hb]. unfold ilock_ino in *. cbn [i_valid i_inum iset_lock] in *.
  pose proof (lookup_lt_Some _ _ _ Hit) as Hlt.
  wp_step. eapply wp_getino; [done|]. rewrite (proj2 (Z.ltb_ge _ _)) by lia.
  wp_step. eapply wp_on_ilock; [done|]. apply wp_acquiresleep; [done|].
  wp_step. eapply wp_getino; [apply list_lookup_insert_eq; lia|]. cbn [i_valid i_dev i_inum iset_lock].
  destruct (Z.eqb_spec (i_valid x) 0) as [Hv|Hv].
  2: { wp_step. specialize (HQ (f_l fs) Htx). by destruct fs. }
  wp_step. wp_step. cbn [f_sb fset_it]. rewrite Hsb, Hu, Hxd.
  wp_step. eapply tx_bread; [exact Htx|set_solver|done|]. intros bp l1 Hbp Htx1.
  wp_step. eapply tx_data; [exact Htx1|apply lookup_insert_eq|].
  wp_step. eapply wp_setino; [apply list_lookup_insert_eq; lia|].
  wp_step. eapply tx_brelse; [exact Htx1|apply lookup_insert_eq|set_solver|]. intros l2 Htx2.
  rewrite held_back in Htx2 by done.
  cbn [f_it fset_l fset_it]. rewrite list_insert_insert_eq.
  wp_step. eapply wp_setino; [apply list_lookup_insert_eq; lia|]. cbn [f_it fset_l fset_it].
  rewrite list_insert_insert_eq.
  wp_step. eapply wp_getino; [apply list_lookup_insert_eq; lia|].
  rewrite (proj2 (Z.eqb_neq _ _)) by done. wp_step. apply HQ in Htx2. by destruct fs.
Qed.
End inodes.

Lemma splice_app l d a b :
  (d + length (a ++ b) ≤ length l)%nat →
  splice (splice l d a) (d + length a) b = splice l d (a ++ b).
Proof.
  intros Hl. rewrite length_app in Hl. apply list_eq. intros i.
  rewrite !lookup_splice by (rewrite ?length_splice, ?length_app by lia; lia).
  rewrite length_app. repeat case_decide; try lia; try done.
  - rewrite lookup_app_r by lia. f_equal. lia.
  - by rewrite lookup_app_l by lia.
Qed.

Lemma splice_nil l d : splice l d [] = l.
Proof. unfold splice. cbn [app length]. rewrite Nat.add_0_r. apply take_drop. Qed.

Section sinks.
Context {S U : Type} `{UM : UserMem U} `{UL : !UserMemLaws U}.
Implicit Types (fs : fstate S U) (bs : list Z).

(** [bs] has been copied to [dst]; the disk may have changed, nothing else. *)
Definition sink_post (user : bool) (dst : Z) (bs : list Z) fs fs' : Prop :=
  f_sb fs' = f_sb fs ∧ f_it fs' = f_it fs ∧ f_console fs' = f_console fs ∧
  if user then f_loc fs' = f_loc fs ∧ ucopyout (f_mem fs) dst bs = (f_mem fs', true)
  else f_mem fs' = f_mem fs ∧ f_loc fs' = splice (f_loc fs) (Z.to_nat dst) bs.

(** The destination can take [bs]. *)
Definition can_sink (user : bool) (dst : Z) (bs : list Z) fs : Prop :=
  0 ≤ dst ∧ dst + Z.of_nat (length bs) < 18446744073709551616 ∧
  if user then snd (ucopyout (f_mem fs) dst bs) = true
  else dst + Z.of_nat (length bs) ≤ Z.of_nat (length (f_loc fs)).

Lemma sink_nil user dst fs l : sink_post user dst [] fs (fset_l l fs).
Proof.
  unfold sink_post. destruct user; cbn; split_and!; try done.
  - apply ucopyout_nil.
  - by rewrite splice_nil.
Qed.

Lemma sink_step user dst a b fs fs1 :
  can_sink user dst (a ++ b) fs → sink_post user dst a fs fs1 →
  can_sink user (dst + Z.of_nat (length a)) b fs1 ∧
  ∀ fs2, sink_post user (dst + Z.of_nat (length a)) b fs1 fs2 → sink_post user dst (a ++ b) fs fs2.
Proof.
  intros (Hd & Hlen & Hcan) (Hs & Hi & Hc & Hp). unfold can_sink, sink_post.
  rewrite length_app in *. destruct user.
  - destruct Hp as [Hloc Hm]. rewrite ucopyout_app in * by (rewrite ?length_app; lia).
    rewrite Hm in *. split.
    + split_and!; try done; lia.
    + intros fs2 (? & ? & ? & ? & ?). split_and!; congruence.
  - destruct Hp as [Hm Hloc]. split.
    + split_and!; try lia. rewrite Hloc, length_splice by lia. lia.
    + intros fs2 (? & ? & ? & ? & Hl2). split_and!; try congruence.
      rewrite Hl2, Hloc, Z2Nat.inj_add, Nat2Z.id by lia. apply splice_app. rewrite length_app. lia.
Qed.

Lemma can_sink_app user dst a b fs : can_sink user dst (a ++ b) fs → can_sink user dst a fs.
Proof.
  intros (Hd & Hlen & Hcan). unfold can_sink. rewrite length_app in *. split_and!; try lia.
  destruct user; [|lia]. rewrite ucopyout_app in Hcan by (rewrite ?length_app; lia).
  by destruct (ucopyout (f_mem fs) dst a) as [m' []].
Qed.

Lemma can_sink_l user dst bs fs l : can_sink user dst bs fs → can_sink user dst bs (fset_l l fs).
Proof. done. Qed.

Lemma either_copyout_spec user dst bs fs (Q : bool → fstate S U → Prop) :
  can_sink user dst bs fs →
  (∀ fs', f_l fs' = f_l fs → sink_post user dst bs fs fs' → Q true fs') →
  wp (either_copyout user dst bs) fs Q.
Proof.
  intros (Hd & Hlen & Hcan) HQ. unfold either_copyout. wp_step. wp_step. destruct user.
  - destruct (ucopyout (f_mem fs) dst bs) as [m ok] eqn:E. cbn in Hcan. subst ok.
    wp_steps. apply HQ; [done|]. by split_and!.
  - rewrite (proj2 (Z.leb_le 0 dst)), (proj2 (Z.leb_le _ _)) by done. cbn [andb].
    wp_steps. apply HQ; [done|]. by split_and!.
Qed.

(** [bs] can be read at [src]. *)
Definition source (user : bool) (src : Z) (bs : list Z) fs : Prop :=
  0 ≤ src ∧ src + Z.of_nat (length bs) < 18446744073709551616 ∧
  if user then ucopyin (f_mem fs) src (length bs) = (bs, true)
  else src + Z.of_nat (length bs) ≤ Z.of_nat (length (f_loc fs)) ∧
       bs = sub (f_loc fs) (Z.to_nat src) (length bs).

Lemma source_same user src bs fs fs' :
  f_mem fs' = f_mem fs → f_loc fs' = f_loc fs → source user src bs fs → source user src bs fs'.
Proof. unfold source. by intros -> ->. Qed.

Lemma source_split user src bs fs k :
  (k ≤ length bs)%nat → source user src bs fs →
  source user src (take k bs) fs ∧ source user (src + Z.of_nat k) (drop k bs) fs.
Proof.
  intros Hk (H0 & Hlen & Hs). unfold source. rewrite length_take_le, length_drop by done. destruct user.
  - replace (length bs) with (k + (length bs - k))%nat in Hs by lia.
    apply ucopyin_app in Hs as (_ & Hs1 & Hs2); [|lia..]. split_and!; try done; lia.
  - destruct Hs as [Hl Hs]. split_and!; try lia.
    + rewrite Hs at 1. unfold sub. rewrite take_take. f_equal. lia.
    + rewrite Hs at 1. unfold sub. rewrite Z2Nat.inj_add, Nat2Z.id, <-drop_drop by lia.
      replace (length bs) with (k + (length bs - k))%nat at 1 by lia. by rewrite <-take_drop_commute.
Qed.

Lemma either_copyin_spec user src bs fs (Q : list Z * bool → fstate S U → Prop) :
  source user src bs fs → Q (bs, true) fs → wp (either_copyin user src (length bs)) fs Q.
Proof.
  intros (H0 & Hlen & Hs) HQ. unfold either_copyin. wp_step. wp_step. destruct user.
  - wp_step. by rewrite Hs.
  - destruct Hs as [Hl Hs]. rewrite (proj2 (Z.leb_le 0 src)), (proj2 (Z.leb_le _ _)) by done.
    cbn [andb]. wp_step. by rewrite <-Hs.
Qed.
End sinks.

Section readi.
Context {S D U : Type} `{OB : BufOps S} `{HD : DiskDev D} `{HL : !DiskLaws D}
  `{UM : UserMem U} `{UL : !UserMemLaws U}.
Context (dev me : Z) `{BS : !BufSpec S D dev me} (start : Z) (sb : superblock).
Implicit Types (fs : fstate S U) (L : list Z) (v : Z → block) (d : D) (dd : dinode).
Abbreviation tx := (tx dev me start).

(** [bmap] of a block that is there: no allocation. *)
Lemma bmap_hit fs ip x c L v d bn (Q : Z → fstate S U → Prop) :
  f_it fs !! ip = Some x → i_dev x = dev → length (d_addrs (i_d x)) = NADDR →
  tx (f_l fs) c L v ∅ ∅ d → cache_room L ∅ 1 → 0 ≤ bn < MAXFILE →
  ptr_at v (i_d x) (place bn) ≠ 0 →
  (∀ l, tx l c L v ∅ ∅ d → Q (ptr_at v (i_d x) (place bn)) (fset_l l fs)) →
  wp (bmap me ip bn) fs Q.
Proof.
  intros Hit Hxd Hal Htx Hcr Hbn Hne HQ. unfold bmap.
  assert (∀ i (Q : Z → fstate S U → Prop), (i < NADDR)%nat → ptr_at v (i_d x) i ≠ 0 →
    Q (ptr_at v (i_d x) i) fs → wp (bmap_alloc me ip i) fs Q) as Halloc.
  { intros i Q' Hi Hi0 HQ'. unfold bmap_alloc. wp_step. eapply wp_getino; [done|].
    wp_step. eapply wp_mnth; [apply (nth_Some _ _ 0); lia|].
    assert (nth i (d_addrs (i_d x)) 0 = ptr_at v (i_d x) i) as -> by (unfold ptr_at; by rewrite decide_True).
    rewrite (proj2 (Z.eqb_neq _ _)) by done. by wp_step. }
  destruct (Z.ltb_spec bn NDIRECT) as [Hlt|Hge].
  - assert (place bn = Z.to_nat bn) as Hpl by (unfold place; by rewrite (proj2 (Z.ltb_lt _ _))).
    rewrite Hpl in *. apply Halloc; [unfold NADDR; lia|done|].
    specialize (HQ (f_l fs) Htx). by rewrite fset_l_id in HQ.
  - rewrite (proj2 (Z.ltb_lt _ NINDIRECT)) by (unfold MAXFILE in Hbn; lia).
    rewrite place_indirect in * by done. set (j := Z.to_nat (bn - NDIRECT)) in *.
    pose proof (ptr_behind_IND v (i_d x) (NADDR + j) ltac:(lia) Hne) as Hind.
    wp_step. apply (Halloc IND); [places|done|]. rewrite (proj2 (Z.eqb_neq _ _)) by done.
    wp_step. eapply wp_getino; [done|]. rewrite Hxd.
    wp_step. eapply tx_bread; [done|rewrite img_none; set_solver|done|]. intros bp l1 Hbp Htx1.
    wp_step. eapply tx_data; [done|apply lookup_insert_eq|]. cbv zeta.
    assert (get32 (v (ptr_at v (i_d x) IND)) (4 * j) = ptr_at v (i_d x) (NADDR + j)) as ->.
    { unfold ptr_at at 2. rewrite decide_False by lia. rewrite ptr_IND in Hind |- *.
      rewrite (proj2 (Z.eqb_neq _ _) Hind). by replace (NADDR + j - NADDR)%nat with j by lia. }
    rewrite (proj2 (Z.eqb_neq _ _)) by done. wp_steps.
    eapply tx_brelse; [done|apply lookup_insert_eq|set_solver|]. intros l2 Htx2.
    rewrite held_back in Htx2 by done. wp_step. by apply HQ.
Qed.

Lemma chunk_bounds off n tot :
  0 ≤ off → tot < n → let m := Z.min (n - tot) (BSIZE - off mod BSIZE) in
  0 < m ∧ m ≤ n - tot ∧ off mod BSIZE + m ≤ BSIZE ∧
  (tot + m < n → (off + m) mod BSIZE = 0).
Proof.
  intros Hoff Htot m. unfold m, BSIZE. split_and!; zlia.
Qed.

(** Rounds of the loop still to go with [n - tot] bytes left at [off], the one
    that leaves it included. *)
Definition rounds (off n tot : Z) : Z :=
  if tot <? n then (n - tot) / BSIZE + (if off mod BSIZE =? 0 then 2 else 3) else 1.

Lemma rounds_step off n tot :
  0 ≤ off → tot < n → let m := Z.min (n - tot) (BSIZE - off mod BSIZE) in
  1 ≤ rounds (off + m) n (tot + m) < rounds off n tot.
Proof.
  intros Hoff Htot m. pose proof (chunk_bounds off n tot Hoff Htot) as Hb. cbv zeta in Hb. fold m in Hb.
  destruct Hb as (? & ? & ? & Hal). unfold rounds. rewrite (proj2 (Z.ltb_lt tot n)) by done.
  destruct (Z.ltb_spec (tot + m) n) as [Hlt|Hge].
  - rewrite Hal by done. cbn [Z.eqb]. assert (m = BSIZE - off mod BSIZE) as Hm by (unfold m in *; lia).
    unfold BSIZE in *. destruct (Z.eqb_spec (off mod 1024) 0); zlia.
  - unfold BSIZE in *. destruct (Z.eqb_spec (off mod 1024) 0); zlia.
Qed.

Lemma rounds_pos off n tot : tot ≤ n → 1 ≤ rounds off n tot.
Proof.
  intros Htot. unfold rounds. assert (0 ≤ (n - tot) / BSIZE) by (apply Z.div_pos; [lia|done]).
  destruct (tot <? n), (off mod BSIZE =? 0); lia.
Qed.

Lemma rounds_fuel off n : 0 ≤ n → (Z.to_nat (rounds off n 0) ≤ rw_fuel n)%nat.
Proof.
  intros Hn. unfold rounds, rw_fuel. assert (0 ≤ n / BSIZE) by (by apply Z.div_pos).
  rewrite Z.sub_0_r. destruct (0 <? n), (off mod BSIZE =? 0); lia.
Qed.

(** The blocks of bytes [off .. off + n) are allocated. *)
Definition allocated v dd (off n : Z) : Prop :=
  ∀ o, off ≤ o < off + n → ptr_at v dd (place (o / BSIZE)) ≠ 0.

Lemma readi_loop_spec fuel : ∀ fs ip x user dst c L v d off n tot,
  f_it fs !! ip = Some x → i_dev x = dev → length (d_addrs (i_d x)) = NADDR →
  tx (f_l fs) c L v ∅ ∅ d → cache_room L ∅ 1 →
  0 ≤ off → 0 ≤ tot ≤ n → off + (n - tot) ≤ MAXFILE * BSIZE →
  allocated v (i_d x) off (n - tot) →
  (Z.to_nat (rounds off n tot) ≤ fuel)%nat →
  can_sink user dst (fbytes v (i_d x) off (Z.to_nat (n - tot))) fs →
  n < 4294967296 →
  wp (readi_loop me fuel ip user dst off n tot) fs (λ r fs', r = n ∧ tx (f_l fs') c L v ∅ ∅ d ∧
    sink_post user dst (fbytes v (i_d x) off (Z.to_nat (n - tot))) fs fs').
Proof.
  induction fuel as [|fuel IH]; intros fs ip x user dst c L v d off n tot Hit Hxd Hal Htx Hcr Hoff Htot
    Hmax Halloc Hfuel Hcan Hn.
  { exfalso. pose proof (rounds_pos off n tot). lia. }
  cbn [readi_loop]. destruct (Z.ltb_spec tot n) as [Hlt|Hge].
  2: { assert (tot = n) as -> by lia. rewrite Z.sub_diag in *. wp_step. split_and!; [done..|].
       cbn. rewrite <-(fset_l_id fs) at 2. apply sink_nil. }
  destruct (chunk_bounds off n tot Hoff Hlt) as (Hm0 & Hm1 & Hm2 & Hm3).
  pose proof (rounds_step off n tot Hoff Hlt) as Hstep. cbv zeta in Hstep.
  set (m := Z.min (n - tot) (BSIZE - off mod BSIZE)) in *.
  assert (0 ≤ off / BSIZE < MAXFILE) as Hbn by (unfold MAXFILE, NINDIRECT, BSIZE in *; zlia).
  assert (fbytes v (i_d x) off (Z.to_nat (n - tot)) =
    fbytes v (i_d x) off (Z.to_nat m) ++ fbytes v (i_d x) (off + m) (Z.to_nat (n - (tot + m)))) as Hsplit.
  { replace (Z.to_nat (n - tot)) with (Z.to_nat m + Z.to_nat (n - (tot + m)))%nat by lia.
    rewrite fbytes_app, Z2Nat.id by lia. done. }
  rewrite Hsplit in *. wp_step. eapply bmap_hit; [done..|apply Halloc; lia|]. intros l1 Htx1.
  rewrite (proj2 (Z.eqb_neq _ _)) by (apply Halloc; lia).
  wp_step. eapply wp_getino; [done|]. rewrite Hxd.
  wp_step. eapply tx_bread; [done|rewrite img_none; set_solver|done|]. intros bp l2 Hbp Htx2. cbv zeta.
  wp_step. eapply tx_data; [done|apply lookup_insert_eq|]. fold m.
  rewrite <-(fbytes_block v (i_d x) off (Z.to_nat m)) by (by eapply tx_length || lia).
  wp_step. apply either_copyout_spec; [by eapply can_sink_app|].
  intros fs3 Hl3 Hsink. cbn [negb]. wp_step.
  eapply tx_brelse; [rewrite Hl3; done|apply lookup_insert_eq|set_solver|]. intros l4 Htx4.
  rewrite held_back in Htx4 by done.
  assert (sink_post user dst (fbytes v (i_d x) off (Z.to_nat m)) fs (fset_l l4 fs3)) as Hsink' by exact Hsink.
  destruct (sink_step _ _ _ _ _ _ Hcan Hsink') as [Hcan' Hcompose].
  rewrite length_fbytes, Z2Nat.id in * by lia.
  assert (dst + m < 18446744073709551616 ∧ 0 ≤ dst) as [Hd1 Hd2].
  { destruct Hcan as (? & Hc & _). rewrite length_app, !length_fbytes in Hc. lia. }
  rewrite (u64_small (dst + m)) by lia.
  rewrite (u32_small (off + m)) by (unfold MAXFILE, NDIRECT, NINDIRECT, BSIZE in *; zlia).
  rewrite (u32_small (tot + m)) by lia.
  destruct Hsink as (Hsb3 & Hit3 & _).
  eapply wp_mono; [apply (IH _ ip x user (dst + m) c L v d (off + m) n (tot + m))|]; try done; try lia.
  - cbn. by rewrite Hit3.
  - intros o Ho. apply Halloc. lia.
  - intros r fs5 (-> & Htx5 & Hs5). split_and!; [done..|]. by apply Hcompose.
Qed.

Lemma readi_spec fs ip x user dst c L v d off n :
  let size := d_size (i_d x) in let k := Z.min n (size - off) in
  f_it fs !! ip = Some x → i_dev x = dev → length (d_addrs (i_d x)) = NADDR →
  tx (f_l fs) c L v ∅ ∅ d → cache_room L ∅ 1 →
  0 ≤ off ≤ size → 0 ≤ n → off + n < 4294967296 → size ≤ MAXFILE * BSIZE →
  allocated v (i_d x) off k → can_sink user dst (fbytes v (i_d x) off (Z.to_nat k)) fs →
  wp (readi me ip user dst off n) fs (λ r fs', r = k ∧ tx (f_l fs') c L v ∅ ∅ d ∧
    sink_post user dst (fbytes v (i_d x) off (Z.to_nat k)) fs fs').
Proof.
  intros size k Hit Hxd Hal Htx Hcr Hoff Hn Hsum Hmax Halloc Hcan.
  unfold readi. wp_step. eapply wp_getino; [done|]. cbv zeta. fold size.
  rewrite Z.gtb_ltb, (proj2 (Z.ltb_ge _ _)), u32_small by lia. cbn [orb].
  rewrite (proj2 (Z.ltb_ge _ _)) by lia.
  replace (if off + n >? size then u32 (size - off) else n) with k.
  2: { unfold k. rewrite Z.gtb_ltb. destruct (Z.ltb_spec size (off + n)); [rewrite u32_small|]; lia. }
  wp_step. eapply wp_mono; [eapply (readi_loop_spec _ fs ip x user dst c L v d off k 0)|]; try done; try lia.
  - by rewrite Z.sub_0_r.
  - apply rounds_fuel. lia.
  - by rewrite Z.sub_0_r.
  - intros r fs' (-> & Htx' & Hs). rewrite Z.sub_0_r in Hs. wp_step.
    rewrite s32_small by (unfold MAXFILE, NDIRECT, NINDIRECT, BSIZE in *; zlia). done.
Qed.
End readi.
