(* ===== verification/FsWrite.v ===== *)
(** * Writing files: writei of kernel/fs.c

    [wrote] says what a write is to do to a file: the given bytes at the given
    offset, every other byte of this file and every block of the others as
    before. [writei] does that, block by block, inside one transaction. *)
From Stdlib Require Import ZArith Lia.
From stdpp Require Import prelude functions strings gmap.
From S2P Require Import Prelude Bytes Param Str UserMem Sleeplock BufIface Log LogSpec Fs FsBlock FsData FsRw.

(** The blocks an inode names; 0 stands for none. *)
Definition blocks (v : Z → block) (dd : dinode) : list Z := 0 :: (ptr_at v dd <$> seq 0 NPTR).

Lemma elem_of_blocks v dd b :
  b ∈ blocks v dd ↔ b = 0 ∨ ∃ i, (i < NPTR)%nat ∧ b = ptr_at v dd i.
Proof.
  unfold blocks. rewrite elem_of_cons, list_elem_of_fmap. f_equiv.
  split; intros (i & ? & ?); exists i; [|split; [done|]]; rewrite ?elem_of_seq in *; naive_solver lia.
Qed.

(** The blocks that hold bytes [off .. off + n) of the file, and the indirect
    block. *)
Definition span (off n : Z) : Z := if n <=? 0 then 0 else (off + n - 1) / BSIZE - off / BSIZE + 1.

Definition touched (v : Z → block) (dd : dinode) (off n : Z) : list Z :=
  ptr_at v dd IND :: ((λ bn, ptr_at v dd (place bn)) <$> seqZ (off / BSIZE) (span off n)).

Lemma elem_of_touched v dd off n b :
  0 ≤ off →
  b ∈ touched v dd off n ↔
    b = ptr_at v dd IND ∨ ∃ o, off ≤ o < off + n ∧ b = ptr_at v dd (place (o / BSIZE)).
Proof.
  intros Hoff. unfold touched, span. rewrite elem_of_cons, list_elem_of_fmap. f_equiv.
  destruct (Z.leb_spec n 0) as [Hn|Hn].
  - split; [intros (? & _ & ?%elem_of_nil)|intros (? & ? & _)]; lia || done.
  - setoid_rewrite elem_of_seqZ. unfold BSIZE. split.
    + intros (bn & -> & Hbn). exists (Z.max off (bn * 1024)). split; [zlia|]. do 2 f_equal. zlia.
    + intros (o & Ho & ->). exists (o / 1024). split; [done|zlia].
Qed.

Section wrote.
Context (sb : superblock) (start : Z) (Hg : geometry start sb).
Implicit Types (v : Z → block) (dd : dinode) (off : Z).

(** [bs] was written at [off] of the file. *)
Record wrote v dd off (bs : list Z) v' dd' : Prop := {
  wr_ok : ino_ok sb v' dd';
  wr_ext : extends sb (blocks v' dd') v v';
  wr_fields : dd' = dset_addrs (d_addrs dd') dd;
  wr_keep : ∀ i, (i < NPTR)%nat → ptr_at v dd i ≠ 0 → ptr_at v' dd' i = ptr_at v dd i;
  wr_in : ∀ k y, bs !! k = Some y → fbyte v' dd' (off + Z.of_nat k) = y ∧
    ptr_at v' dd' (place ((off + Z.of_nat k) / BSIZE)) ≠ 0;
  wr_out : ∀ o, 0 ≤ o < MAXFILE * BSIZE → o < off ∨ off + Z.of_nat (length bs) ≤ o →
    ptr_at v dd (place (o / BSIZE)) ≠ 0 → fbyte v' dd' o = fbyte v dd o
}.

Lemma blocks_keep v dd v' dd' :
  (∀ i, (i < NPTR)%nat → ptr_at v dd i ≠ 0 → ptr_at v' dd' i = ptr_at v dd i) →
  ∀ x, x ∈ blocks v dd → x ∈ blocks v' dd'.
Proof.
  intros Hk x [->|(i & Hi & ->)]%elem_of_blocks; apply elem_of_blocks; [by left|].
  destruct (decide (ptr_at v dd i = 0)) as [->|Hne]; [by left|].
  right. exists i. split; [done|]. by rewrite Hk.
Qed.

Lemma wrote_trans v dd off a v1 dd1 b v2 dd2 :
  0 ≤ off → off + Z.of_nat (length (a ++ b)) ≤ MAXFILE * BSIZE →
  wrote v dd off a v1 dd1 → wrote v1 dd1 (off + Z.of_nat (length a)) b v2 dd2 →
  wrote v dd off (a ++ b) v2 dd2.
Proof.
  intros Hoff Hmax [Ok1 E1 F1 K1 I1 O1] [Ok2 E2 F2 K2 I2 O2]. rewrite length_app in Hmax.
  assert (∀ o, 0 ≤ o < MAXFILE * BSIZE → (place (o / BSIZE) < NPTR)%nat) as Hpl.
  { intros o Ho. apply place_lt. unfold BSIZE in *. zlia. }
  split.
  - done.
  - eapply extends_trans; [done| |done]. eapply extends_mono; [|done]. by apply blocks_keep.
  - rewrite F2, F1. done.
  - intros i Hi Hne. rewrite K2, K1; [done..|]. by rewrite K1.
  - intros k y Hk. destruct (decide (k < length a)%nat) as [Hlt|Hge].
    + rewrite lookup_app_l in Hk by done. destruct (I1 k y Hk) as [Hb Hp].
      rewrite O2, K2 by (done || lia || apply Hpl; lia). done.
    + rewrite lookup_app_r in Hk by lia.
      replace (off + Z.of_nat k) with (off + Z.of_nat (length a) + Z.of_nat (k - length a)) by lia.
      by apply I2.
  - intros o Ho Hout Hp. rewrite length_app in Hout.
    rewrite O2, O1; [done|done|lia|done|done|lia|]. rewrite K1; [done|by apply Hpl|done].
Qed.

Lemma wrote_nil v dd off : ino_ok sb v dd → wrote v dd off [] v dd.
Proof. intros Hok. split; try done. by destruct dd. Qed.

Lemma place_off o : 0 ≤ o < MAXFILE * BSIZE → (place (o / BSIZE) < NPTR)%nat ∧ place (o / BSIZE) ≠ IND.
Proof. intros Ho. apply place_lt. unfold BSIZE in *. zlia. Qed.

Lemma nth_splice l p w i d :
  (p + length w ≤ length l)%nat →
  nth i (splice l p w) d =
    if decide (p ≤ i < p + length w)%nat then nth (i - p) w d else nth i l d.
Proof.
  intros Hl. rewrite !nth_lookup, lookup_splice by done. by case_decide.
Qed.

(** [bmap] alone writes nothing. *)
Lemma bmap_wrote v dd off i0 r v' dd' :
  ino_ok sb v dd → i0 ≠ IND → ptr_post sb v dd i0 r v' dd' → wrote v dd off [] v' dd'.
Proof.
  intros Hok Hi0 Hpp. pose proof (pp_ok _ _ _ _ _ _ _ Hpp) as Hok'.
  assert (∀ i, (i < NPTR)%nat → ptr_at v dd i ≠ 0 → ptr_at v' dd' i = ptr_at v dd i) as Hkeep.
  { intros i Hi Hne. destruct (decide (i = i0)) as [->|].
    - by destruct (pp_old _ _ _ _ _ _ _ Hpp Hne) as (_ & -> & ->).
    - destruct (decide (i = IND)) as [->|];
        [by apply (pp_ind _ _ _ _ _ _ _ Hpp)|by apply (pp_others _ _ _ _ _ _ _ Hpp)]. }
  split; try done.
  - eapply extends_mono; [|apply Hpp]. intros b ->%list_elem_of_singleton. apply elem_of_blocks.
    right. exists IND. split; [places|done].
  - apply Hpp.
  - intros o Ho _ Hne. destruct (place_off o Ho) as [Hp Hpi]. pose proof (Hkeep _ Hp Hne) as Hk.
    unfold fbyte. rewrite Hk. f_equal. destruct (io_data _ _ _ Hok _ Hp Hne) as [Hd Hu].
    apply (ex_data _ _ _ _ (pp_ext _ _ _ _ _ _ _ Hpp)); [done..|].
    intros He%list_elem_of_singleton. apply Hpi. apply (io_inj _ _ _ Hok'); [done|places|by rewrite Hk|congruence].
Qed.

(** Bytes [a] put into the block at [off], which is there. *)
Section chunk.
Context (v : Z → block) (dd : dinode) (off : Z) (a : list Z).
Context (Hok : ino_ok sb v dd) (Hlen : ∀ b, length (v b) = BLK).
Context (Hr : ptr_at v dd (place (off / BSIZE)) ≠ 0).
Context (Hoff : 0 ≤ off < MAXFILE * BSIZE) (Ha : off mod BSIZE + Z.of_nat (length a) ≤ BSIZE).
Let r := ptr_at v dd (place (off / BSIZE)).

Definition chunk_view : Z → block :=
  <[r := splice (v r) (Z.to_nat (off mod BSIZE)) a]> v.

Lemma chunk_fits : (Z.to_nat (off mod BSIZE) + length a ≤ length (v r))%nat.
Proof. rewrite Hlen. unfold BLK, BSIZE in *. zlia. Qed.

Lemma chunk_ptr i : ptr_at chunk_view dd i = ptr_at v dd i.
Proof.
  destruct (place_off off Hoff) as [Hi0 Hni]. apply ptr_at_ext. intros _. unfold chunk_view.
  rewrite fn_lookup_insert_ne; [done|]. intros He. apply Hni.
  apply (io_inj _ _ _ Hok); [done|places|done|]. by rewrite ptr_IND.
Qed.

Lemma chunk_ok : ino_ok sb chunk_view dd.
Proof.
  destruct (place_off off Hoff) as [Hi0 _]. destruct (io_data _ _ _ Hok _ Hi0 Hr) as [Hrng _].
  pose proof (nmeta_bounds start sb Hg). destruct Hok as [L1 D1 J1]. split; [done|..].
  - intros i Hi. rewrite !chunk_ptr. intros Hne. destruct (D1 i Hi Hne). split; [done|].
    unfold chunk_view, r. rewrite (in_use_write sb start Hg) by lia. done.
  - intros i j Hi Hj. rewrite !chunk_ptr. by apply J1.
Qed.

Lemma chunk_ext : extends sb (blocks chunk_view dd) v chunk_view.
Proof.
  destruct (place_off off Hoff) as [Hi0 _]. destruct (io_data _ _ _ Hok _ Hi0 Hr) as [Hrng _].
  eapply extends_mono; [|apply (write_extends sb start Hg); [left; apply Hrng|]].
  - intros x ->%list_elem_of_singleton. apply elem_of_blocks. right. eexists. by rewrite chunk_ptr.
  - rewrite length_splice by apply chunk_fits. apply Hlen.
Qed.

Lemma chunk_out o :
  0 ≤ o < MAXFILE * BSIZE → o < off ∨ off + Z.of_nat (length a) ≤ o →
  ptr_at v dd (place (o / BSIZE)) ≠ 0 → fbyte chunk_view dd o = fbyte v dd o.
Proof.
  intros Ho Hout Hne. destruct (place_off o Ho) as [Hp _], (place_off off Hoff) as [Hi0 _].
  unfold fbyte. rewrite chunk_ptr. unfold chunk_view.
  destruct (decide (ptr_at v dd (place (o / BSIZE)) = r)) as [He|Hnr].
  - assert (o / BSIZE = off / BSIZE) as Hbn.
    { apply place_inj; [unfold BSIZE; zlia..|]. by apply (io_inj _ _ _ Hok). }
    rewrite He, fn_lookup_insert, nth_splice by apply chunk_fits.
    rewrite decide_False; [done|]. unfold BSIZE in *. zlia.
  - by rewrite fn_lookup_insert_ne by congruence.
Qed.

Lemma chunk_wrote : wrote v dd off a chunk_view dd.
Proof.
  split.
  - apply chunk_ok.
  - apply chunk_ext.
  - by destruct dd.
  - intros i Hi Hne. apply chunk_ptr.
  - intros k y Hk. pose proof (lookup_lt_Some _ _ _ Hk) as Hlt. unfold fbyte. rewrite chunk_ptr.
    replace ((off + Z.of_nat k) / BSIZE) with (off / BSIZE) by (unfold BSIZE in *; zlia).
    split; [|done].
    replace (Z.to_nat ((off + Z.of_nat k) mod BSIZE)) with (Z.to_nat (off mod BSIZE) + k)%nat
      by (unfold BSIZE in *; zlia).
    unfold chunk_view, r. rewrite fn_lookup_insert, nth_splice by apply chunk_fits.
    rewrite decide_True by lia.
    replace (Z.to_nat (off mod BSIZE) + k - Z.to_nat (off mod BSIZE))%nat with k by lia.
    by apply nth_lookup_Some.
  - apply chunk_out.
Qed.
End chunk.
End wrote.

(** What a whole [writei] promises: [k] of the bytes [bs] written at [off] of the
    inode [x], which is now [x']. *)
Record written (sb : superblock) (v : Z → block) (x : inode) (off : Z) (bs : list Z) (k : nat)
    (v' : Z → block) (x' : inode) : Prop := {
  wn_count : (k ≤ length bs)%nat;
  wn_full : (k < length bs)%nat → ∀ b, 0 ≤ b < sb_size sb → in_use sb v' b = true;
  wn_inode : x' = iset_d (DInode (d_type (i_d x)) (d_major (i_d x)) (d_minor (i_d x)) (d_nlink (i_d x))
      (d_size (i_d x')) (d_addrs (i_d x')) (d_mode (i_d x))) x;
  wn_size : d_size (i_d x') = Z.max (d_size (i_d x)) (off + Z.of_nat k);
  wn_bytes : ∀ o, 0 ≤ o < d_size (i_d x') →
    fbyte v' (i_d x') o = if decide (off ≤ o < off + Z.of_nat k)
                          then nth (Z.to_nat (o - off)) bs 0 else fbyte v (i_d x) o;
  wn_alloc : allocated v' (i_d x') 0 (d_size (i_d x'));
  wn_ok : ino_ok sb v' (i_d x');
  wn_disk : dinode_get (v' (IBLOCK (i_inum x) sb)) (dinode_off (i_inum x)) = i_d x';
  wn_rest : extends sb (IBLOCK (i_inum x) sb :: blocks v' (i_d x')) v v'
}.

(** The inode [writei] leaves in memory. *)
Definition grown (x : inode) (dd : dinode) (off : Z) : inode :=
  iset_d (if off >? d_size dd then dset_size off dd else dd) x.

Section finish.
Context (sb : superblock) (start : Z) (Hg : geometry start sb).
Implicit Types (v : Z → block) (dd : dinode) (off : Z).

Lemma ptr_at_size v dd n i : ptr_at v (dset_size n dd) i = ptr_at v dd i.
Proof. done. Qed.

Lemma fbyte_size v dd n o : fbyte v (dset_size n dd) o = fbyte v dd o.
Proof. done. Qed.

Lemma ino_ok_size v dd n : ino_ok sb v dd → ino_ok sb v (dset_size n dd).
Proof. intros [? ? ?]. by split. Qed.

Lemma ptr_at_grown v x dd off i : ptr_at v (i_d (grown x dd off)) i = ptr_at v dd i.
Proof. unfold grown. cbn. by destruct (off >? d_size dd). Qed.

(** Writing a block of the inode area leaves the files alone. *)
Section meta.
Context (v : Z → block) (dd : dinode) (b : Z) (y : block).
Context (Hok : ino_ok sb v dd) (Hb : 0 ≤ b < sb_bmapstart sb).

Lemma ptr_at_meta i : ptr_at (<[b := y]> v) dd i = ptr_at v dd i.
Proof.
  apply ptr_at_ext. rewrite <-ptr_IND with (v := v). intros Hne. pose proof (nmeta_bounds start sb Hg).
  destruct (io_data _ _ _ Hok IND) as [? _]; [places|done|]. by rewrite fn_lookup_insert_ne by lia.
Qed.

Lemma fbyte_meta o :
  0 ≤ o < MAXFILE * BSIZE → ptr_at v dd (place (o / BSIZE)) ≠ 0 →
  fbyte (<[b := y]> v) dd o = fbyte v dd o.
Proof.
  intros Ho Hne. unfold fbyte. rewrite ptr_at_meta. pose proof (nmeta_bounds start sb Hg).
  destruct (io_data _ _ _ Hok (place (o / BSIZE))) as [? _]; [by apply place_off|done|].
  by rewrite fn_lookup_insert_ne by lia.
Qed.

Lemma ino_ok_meta : ino_ok sb (<[b := y]> v) dd.
Proof.
  destruct Hok as [L1 D1 J1]. pose proof (nmeta_bounds start sb Hg). split; [done|..].
  - intros i Hi. rewrite !ptr_at_meta. intros Hne. destruct (D1 i Hi Hne). split; [done|].
    by rewrite (in_use_write sb start Hg) by lia.
  - intros i j Hi Hj. rewrite !ptr_at_meta. by apply J1.
Qed.
End meta.

Lemma dinode_wf_addrs v dd n l :
  dinode_wf dd → 0 ≤ n < 4294967296 → ino_ok sb v (dset_addrs l dd) →
  dinode_wf (dset_size n (dset_addrs l dd)).
Proof.
  intros [? ? ? ? ? ? ? ?] Hn [Hl Hd _]. split; try done. cbn in *. apply Forall_lookup_2.
  intros i a Hi. pose proof (lookup_lt_Some _ _ _ Hi) as Hlt. rewrite Hl in Hlt.
  pose proof (nmeta_bounds start sb Hg). destruct (g_data _ _ Hg).
  specialize (Hd i ltac:(places)). unfold ptr_at in Hd. rewrite decide_True in Hd by done. cbn in Hd.
  rewrite (nth_lookup_Some _ _ _ _ Hi) in Hd. destruct (decide (a = 0)); [lia|]. destruct Hd; lia.
Qed.

Lemma wrote_written v x off bs k v' dd' :
  let x' := grown x dd' (off + Z.of_nat k) in
  wrote sb v (i_d x) off (take k bs) v' dd' →
  (k ≤ length bs)%nat → ((k < length bs)%nat → ∀ b, 0 ≤ b < sb_size sb → in_use sb v' b = true) →
  (∀ b, length (v' b) = BLK) → 0 ≤ i_inum x < sb_ninodes sb → dinode_wf (i_d x) →
  0 ≤ off ≤ d_size (i_d x) → d_size (i_d x) ≤ MAXFILE * BSIZE → off + Z.of_nat k ≤ MAXFILE * BSIZE →
  allocated v (i_d x) 0 (d_size (i_d x)) →
  written sb v x off bs k (iupdate_view sb v' x') x'.
Proof.
  intros x' [Ok1 E1 F1 K1 I1 O1] Hk Hfull Hlen Hin Hwf Hoff Hsz Hmax Hal.
  destruct (IBLOCK_range start sb Hg _ Hin) as [_ Hib]. pose proof (nmeta_bounds start sb Hg).
  rewrite length_take_le in * by done.
  assert (d_size dd' = d_size (i_d x)) as Hs by (by rewrite F1).
  assert (i_d x' = dset_size (Z.max (d_size (i_d x)) (off + Z.of_nat k)) dd') as Hx'.
  { unfold x', grown. cbn. rewrite Z.gtb_ltb. destruct (Z.ltb_spec (d_size dd') (off + Z.of_nat k)).
    - f_equal. lia.
    - rewrite <-Hs, Z.max_l by lia. by destruct dd'. }
  assert (ino_ok sb v' (i_d x')) as Ok2 by (rewrite Hx'; by apply ino_ok_size).
  assert (∀ o, 0 ≤ o < d_size (i_d x') → ptr_at v' (i_d x') (place (o / BSIZE)) ≠ 0) as Hal'.
  { rewrite Hx'. cbn. intros o Ho. rewrite ptr_at_size.
    destruct (decide (off ≤ o < off + Z.of_nat k)) as [Hi|Ho'].
    - destruct (I1 (Z.to_nat (o - off)) (nth (Z.to_nat (o - off)) bs 0)) as [_ Hp].
      { rewrite lookup_take_lt by lia. apply nth_Some. lia. }
      by rewrite Z2Nat.id, Zplus_minus in Hp by lia.
    - rewrite K1; [apply Hal; lia|apply place_off; lia|apply Hal; lia]. }
  assert (d_size (i_d x') ≤ MAXFILE * BSIZE) as Hsz' by (rewrite Hx'; cbn; lia).
  unfold iupdate_view. change (i_inum x') with (i_inum x). split; try done.
  - intros Hlt b Hb. rewrite (in_use_write sb start Hg) by lia. by apply Hfull.
  - transitivity (iset_d (i_d x') x); [done|]. f_equal. rewrite Hx'. by rewrite F1 at 1.
  - by rewrite Hx'.
  - intros o Ho. rewrite (fbyte_meta v' (i_d x')) by (done || lia || by apply Hal').
    rewrite Hx', fbyte_size. rewrite Hx' in Ho. cbn in Ho.
    destruct (decide (off ≤ o < off + Z.of_nat k)) as [Hi|Ho'].
    + destruct (I1 (Z.to_nat (o - off)) (nth (Z.to_nat (o - off)) bs 0)) as [Hp _].
      { rewrite lookup_take_lt by lia. apply nth_Some. lia. }
      by rewrite Z2Nat.id, Zplus_minus in Hp by lia.
    + apply O1; [lia|lia|apply Hal; lia].
  - intros o Ho. rewrite ptr_at_meta by (done || lia). by apply Hal'.
  - apply ino_ok_meta; [done|lia].
  - rewrite fn_lookup_insert. apply dinode_get_put.
    + rewrite Hx', F1. apply (dinode_wf_addrs v'); [done| |by rewrite <-F1].
      unfold MAXFILE, NINDIRECT, NDIRECT, BSIZE in *. destruct (dw_size _ Hwf). zlia.
    + rewrite Hlen. apply dinode_off_lt.
  - eapply extends_trans; [done| |].
    + eapply extends_mono; [|exact E1]. intros b Hb. right. eapply blocks_keep; [|exact Hb].
      intros i Hi Hne. rewrite ptr_at_meta by (done || lia). by rewrite Hx'.
    + eapply extends_mono; [|apply (write_extends sb start Hg); [right; lia|]].
      * intros b ->%list_elem_of_singleton. by left.
      * rewrite length_dinode_put; [done|]. rewrite Hlen. apply dinode_off_lt.
Qed.
End finish.

Section writei.
Context {S D U : Type} `{OB : BufOps S} `{HD : DiskDev D} `{HL : !DiskLaws D}
  `{UM : UserMem U} `{UL : !UserMemLaws U}.
Context (dev me : Z) `{BS : !BufSpec S D dev me} (start : Z) (sb : superblock).
Context (Hstart : 0 ≤ start ∧ start + LOGSIZE < 2147483648).
Context (Hdev : u32 dev = dev) (Hg : geometry start sb).
Implicit Types (fs : fstate S U) (L : list Z) (v : Z → block) (d : D) (dd : dinode).
Abbreviation tx := (tx dev me start).
Abbreviation ino_pre := (ino_pre dev me start sb).
Abbreviation ino_post := (ino_post dev me start sb).

Definition disk_full v : Prop := ∀ b, 0 ≤ b < sb_size sb → in_use sb v b = true.

(** Blocks a round of the loop may add to the log. *)
Definition per_round : nat := 6.

(** What the loop leaves behind when [k] of the bytes [bs] were written. *)
Definition loop_post fs ip x c L v d off (bs : list Z) (lim k : nat) fs' : Prop :=
  ∃ v' dd', (k ≤ length bs)%nat ∧ ((k < length bs)%nat → disk_full v') ∧
    wrote sb v (i_d x) off (take k bs) v' dd' ∧
    ino_post fs ip x c L lim (touched v' dd' off (Z.of_nat k)) d v' dd' fs'.

Lemma ino_post_id fs ip x c L v d lim W :
  ino_pre fs ip x c L v d → ino_post fs ip x c L lim W d v (i_d x) fs.
Proof.
  intros Hpre. split.
  - rewrite <-(fset_l_id fs) at 2. apply ino_upd_refl, Hpre.
  - exists L. split; [apply Hpre|apply log_grows_refl].
Qed.

(** A round after [bmap]: the bytes [a] into block [r]. *)
Lemma writei_put fs ip x user src c L v d off (a : list Z) r tot (k : M (fstate S U) (Z * Z))
    (R : Z * Z → fstate S U → Prop) :
  ino_pre fs ip x c L v d → r = ptr_at v (i_d x) (place (off / BSIZE)) → r ≠ 0 →
  0 ≤ off < MAXFILE * BSIZE → off mod BSIZE + Z.of_nat (length a) ≤ BSIZE → source user src a fs →
  log_room c L 1 → cache_room L ∅ 1 →
  (∀ l, tx l c (log_add L r) (chunk_view v (i_d x) off a) ∅ ∅ d → wp k (fset_l l fs) R) →
  wp (x ← getino ip;
      bp ← fb (op_bread me (i_dev x) r);
      y ← either_copyin user src (length a);
      z ← fb (op_data bp);
      fb (op_setdata bp (splice z (Z.to_nat (off mod BSIZE)) (fst y))) ;;
      if negb (snd y) then fb (op_brelse me bp) ;; mret (tot, off) else
      onl (log_write bp) ;;
      fb (op_brelse me bp) ;;
      k) fs R.
Proof.
  intros [Hsb Hit Hxd Htx Hm Hok] -> Hr0 Hoff Ha Hsrc Hr Hcr Hgo.
  destruct (place_off off Hoff) as [Hi0 Hni]. destruct (io_data _ _ _ Hok _ Hi0 Hr0) as [Hrng _].
  pose proof (nmeta_bounds start sb Hg). set (r := ptr_at v _ _) in *.
  assert (length (splice (v r) (Z.to_nat (off mod BSIZE)) a) = BLK) as Hsl.
  { assert (length (v r) = BLK) as Hlr by (by eapply tx_length).
    rewrite length_splice; [done|]. rewrite Hlr. unfold BLK, BSIZE in *. zlia. }
  wp_step. eapply wp_getino; [done|]. rewrite Hxd.
  wp_step. eapply tx_bread; [done|rewrite img_none; set_solver|done|]. intros bp l1 Hbp Htx1.
  wp_step. apply either_copyin_spec; [exact Hsrc|].
  wp_step. eapply tx_data; [done|apply lookup_insert_eq|]. cbn [fst snd negb].
  eapply (tx_put _ _ _ Hstart); [done|apply lookup_insert_eq|set_solver|done| |done|].
  - apply (home_meta start sb Hg). lia.
  - intros l2 Htx2. wp_step. eapply tx_brelse; [done|apply lookup_insert_eq|set_solver|].
    intros l3 Htx3. rewrite held_back in Htx3 by done. by apply Hgo.
Qed.

(** One round: [bmap], then the bytes [a] into the block. *)
Lemma writei_round fs ip x user src c L v d off (a : list Z) tot (k : M (fstate S U) (Z * Z))
    (R : Z * Z → fstate S U → Prop) :
  ino_pre fs ip x c L v d → 0 ≤ off < MAXFILE * BSIZE → (0 < length a)%nat →
  off mod BSIZE + Z.of_nat (length a) ≤ BSIZE → source user src a fs →
  log_room c L (Z.of_nat per_round) → cache_room L ∅ per_round →
  (∀ v' dd' fs', disk_full v' → wrote sb v (i_d x) off [] v' dd' →
     ino_post fs ip x c L per_round (touched v' dd' off 0) d v' dd' fs' → R (tot, off) fs') →
  (∀ v' dd' fs', wrote sb v (i_d x) off a v' dd' →
     ino_post fs ip x c L per_round (touched v' dd' off (Z.of_nat (length a))) d v' dd' fs' → wp k fs' R) →
  wp (r ← bmap me ip (off / BSIZE);
      if r =? 0 then mret (tot, off) else
      x ← getino ip;
      bp ← fb (op_bread me (i_dev x) r);
      y ← either_copyin user src (length a);
      z ← fb (op_data bp);
      fb (op_setdata bp (splice z (Z.to_nat (off mod BSIZE)) (fst y))) ;;
      if negb (snd y) then fb (op_brelse me bp) ;; mret (tot, off) else
      onl (log_write bp) ;;
      fb (op_brelse me bp) ;;
      k) fs R.
Proof.
  intros Hpre Hoff Ha0 Ha Hsrc Hr Hcr Hfail Hgo. pose proof (ip_ok _ _ _ _ _ _ _ _ _ _ _ Hpre) as Hok.
  destruct (place_off off Hoff) as [Hi0 Hni].
  wp_step. eapply wp_mono; [eapply (bmap_spec dev me start sb Hstart Hdev Hg); [done|..]|].
  { unfold BSIZE in *. zlia. }
  { eapply log_room_le; [done|]. unfold per_round. lia. }
  { eapply cache_room_le; [done|]. unfold per_round. lia. }
  intros r fs1 (v1 & dd1 & Hpp & Hpost).
  destruct (ino_pre_post dev me start sb Hg _ _ _ _ _ _ _ _ _ _ _ _ _ Hpre Hpost
    (pp_ok _ _ _ _ _ _ _ Hpp) (pp_ext _ _ _ _ _ _ _ Hpp)) as (L1 & Hpre1 & Hgrow).
  pose proof (bmap_wrote sb _ _ off _ _ _ _ Hok Hni Hpp) as Hw1.
  destruct (Z.eqb_spec r 0) as [->|Hr0].
  - wp_step. apply (Hfail v1 dd1 fs1); [exact (pp_full _ _ _ _ _ _ _ Hpp eq_refl)|done|].
    eapply ino_post_mono; [done|unfold per_round; lia|].
    intros b Hb [->|[->|Hn]%elem_of_cons]%elem_of_cons; [done|by left|by apply elem_of_nil in Hn].
  - pose proof (pp_at _ _ _ _ _ _ _ Hpp Hr0) as Hat. destruct Hpost as [Hupd _].
    pose proof Hgrow as [Hgl _].
    eapply (writei_put fs1 ip (iset_d dd1 x)); [done|by rewrite <-Hat|done..| | | |].
    { eapply source_same; [apply Hupd..|done]. }
    { destruct c as [[sz out] cm]. unfold log_room, per_round in *. lia. }
    { unfold cache_room, per_round in *. lia. }
    intros l Htx. cbn [i_d iset_d] in *.
    assert (∀ b, length (v1 b) = BLK) as Hlen1 by (intros; eapply tx_length; apply Hpre1).
    pose proof (ip_ok _ _ _ _ _ _ _ _ _ _ _ Hpre1) as Hok1. cbn [i_d iset_d] in Hok1.
    pose proof (chunk_wrote sb start Hg v1 dd1 off a Hok1 Hlen1 ltac:(by rewrite Hat) Hoff Ha) as Hw2.
    assert (∀ i, ptr_at (chunk_view v1 dd1 off a) dd1 i = ptr_at v1 dd1 i) as Hptr
      by (intros; apply (chunk_ptr sb); [done|by rewrite Hat|done]).
    assert (r ∈ touched (chunk_view v1 dd1 off a) dd1 off (Z.of_nat (length a))) as Hrt.
    { apply elem_of_touched; [lia|]. right. exists off. rewrite Hptr, Hat. split; [lia|done]. }
    apply (Hgo (chunk_view v1 dd1 off a) dd1).
    + change a with ([] ++ a) at 1. eapply wrote_trans; [done|lia| |done|].
      * cbn. unfold MAXFILE, NINDIRECT, BSIZE in *. zlia.
      * by rewrite Z.add_0_r.
    + split; [by destruct Hupd|]. eexists. split; [exact Htx|].
      apply (log_grows_add sb L L1 5); [|by right].
      eapply log_grows_mono; [done|done|].
      intros b Hb [->|[->|Hn]%elem_of_cons]%elem_of_cons; [done| |by apply elem_of_nil in Hn].
      by left.
Qed.

Lemma touched_trans v1 dd1 v2 dd2 off m k b :
  0 ≤ off → 0 ≤ m → 0 ≤ k → off + m ≤ MAXFILE * BSIZE →
  (∀ i, (i < NPTR)%nat → ptr_at v1 dd1 i ≠ 0 → ptr_at v2 dd2 i = ptr_at v1 dd1 i) → b ≠ 0 →
  b ∈ touched v1 dd1 off m ∨ b ∈ touched v2 dd2 (off + m) k → b ∈ touched v2 dd2 off (m + k).
Proof.
  intros Hoff Hm Hk Hmax Hkeep Hb. rewrite !elem_of_touched by lia. intros [[->|(o & Ho & ->)]|[->|(o & Ho & ->)]].
  - left. symmetry. apply Hkeep; [places|done].
  - right. exists o. split; [lia|]. symmetry. apply Hkeep; [apply place_off; lia|done].
  - by left.
  - right. exists o. split; [lia|done].
Qed.

Lemma writei_loop_spec fuel : ∀ fs ip x user src c L v d off n tot bs,
  let lim := (per_round * (Z.to_nat (rounds off n tot) - 1))%nat in
  ino_pre fs ip x c L v d → source user src bs fs → Z.of_nat (length bs) = n - tot →
  0 ≤ off → 0 ≤ tot → off + (n - tot) ≤ MAXFILE * BSIZE → n < 4294967296 →
  (Z.to_nat (rounds off n tot) ≤ fuel)%nat → log_room c L (Z.of_nat lim) → cache_room L ∅ lim →
  wp (writei_loop me fuel ip user src off n tot) fs (λ r fs', ∃ k : nat,
    r = (tot + Z.of_nat k, off + Z.of_nat k) ∧ loop_post fs ip x c L v d off bs lim k fs').
Proof.
  induction fuel as [|fuel IH]; intros fs ip x user src c L v d off n tot bs lim Hpre Hsrc Hbs Hoff Htot
    Hmax Hn Hfuel Hroom Hcr.
  { exfalso. pose proof (rounds_pos off n tot). lia. }
  cbn [writei_loop]. destruct (Z.ltb_spec tot n) as [Hlt|Hge].
  2: { wp_step. exists 0%nat. rewrite !Z.add_0_r. split; [done|]. exists v, (i_d x). split_and!; [lia..| |].
       - apply wrote_nil, Hpre.
       - by apply ino_post_id. }
  destruct (chunk_bounds off n tot Hoff Hlt) as (Hm0 & Hm1 & Hm2 & Hm3).
  pose proof (rounds_step off n tot Hoff Hlt) as Hstep. cbv zeta in Hstep |- *.
  set (m := Z.min (n - tot) (BSIZE - off mod BSIZE)) in *.
  set (lim' := (per_round * (Z.to_nat (rounds (off + m) n (tot + m)) - 1))%nat).
  assert (per_round + lim' ≤ lim)%nat as Hlim by (unfold lim, lim', per_round; lia).
  destruct (source_split user src bs fs (Z.to_nat m)) as [Hs1 Hs2]; [lia|done|].
  assert (length (take (Z.to_nat m) bs) = Z.to_nat m) as Hla by (rewrite length_take; lia).
  rewrite <-Hla.
  eapply writei_round; [done|lia|lia|lia|done|..].
  { eapply log_room_le; [done|lia]. }
  { eapply cache_room_le; [done|lia]. }
  { intros v1 dd1 fs1 Hfull Hw Hpost. exists 0%nat. rewrite !Z.add_0_r. split; [done|].
    exists v1, dd1. split_and!; [lia|done|done|]. eapply ino_post_mono; [done|lia|done]. }
  intros v1 dd1 fs1 Hw1 Hpost1. rewrite Hla, Z2Nat.id in * by lia.
  destruct (ino_pre_post dev me start sb Hg _ _ _ _ _ _ _ _ _ _ _ _ _ Hpre Hpost1
    (wr_ok _ _ _ _ _ _ _ Hw1) (wr_ext _ _ _ _ _ _ _ Hw1)) as (L1 & Hpre1 & Hgrow).
  destruct Hpost1 as [Hupd1 _]. pose proof Hgrow as [Hgl _].
  destruct Hsrc as (Hsrc0 & Hsrc1 & _).
  rewrite (u64_small (src + m)), (u32_small (tot + m)) by lia.
  rewrite (u32_small (off + m)) by (unfold MAXFILE, NDIRECT, NINDIRECT, BSIZE in *; zlia).
  eapply wp_mono; [apply (IH fs1 ip (iset_d dd1 x) user (src + m) c L1 v1 d (off + m) n (tot + m)
    (drop (Z.to_nat m) bs))|]; try done; try lia.
  - by eapply source_same; [apply Hupd1..|].
  - rewrite length_drop. lia.
  - fold lim'. eapply log_room_le; [by apply (log_room_grow c L L1 (Z.of_nat lim) per_round)|lia].
  - fold lim'. eapply cache_room_le; [by apply (cache_room_grow L L1 ∅ lim per_round); [..|lia]|lia].
  - fold lim'. intros r fs2 (k & -> & v2 & dd2 & Hk & Hfull & Hw2 & Hpost2). rewrite length_drop in *.
    exists (Z.to_nat m + k)%nat. split; [f_equal; lia|]. exists v2, dd2. cbn [i_d iset_d] in *.
    split_and!; [lia|intros; apply Hfull; lia| |].
    + rewrite <-(take_take_drop bs). eapply wrote_trans; [done|done| |done|].
      * rewrite length_app, !length_take, length_drop. lia.
      * by rewrite Hla, Z2Nat.id by lia.
    + eapply ino_post_mono; [eapply (ino_post_trans dev me start sb fs fs1 fs2 ip x c L L1); [done..|]|done|done].
      intros b Hb Ht. rewrite Nat2Z.inj_add, Z2Nat.id by lia.
      eapply (touched_trans v1 dd1); [lia..|apply Hw2|done|done].
Qed.
(** Blocks the log holds after a write: those of the file, the inode and the
    free map. *)
Definition write_log_bound (L L' : list Z) v x off (n : Z) : Prop :=
  ∀ b, b ∈ L' → b ∈ L ∨ sb_bmapstart sb ≤ b < nmeta sb ∨
    b ∈ IBLOCK (i_inum x) sb :: touched v (i_d x) off n.

(** The end of [writei]: the new size and [iupdate]. *)
Lemma writei_tail fs ip x c L lim W d v' dd' fs1 off (Q : Z → fstate S U → Prop) tot :
  ino_post fs ip x c L lim W d v' dd' fs1 → f_it fs !! ip = Some x → f_sb fs = sb → ino_known dev sb x →
  log_room c L (Z.of_nat lim + 1) → cache_room L ∅ (lim + 1) →
  (let x' := grown x dd' off in
   ∀ fs' L', f_it fs' = <[ip := x']> (f_it fs) → f_sb fs' = sb → f_loc fs' = f_loc fs → f_mem fs' = f_mem fs →
     tx (f_l fs') c L' (iupdate_view sb v' x') ∅ ∅ d →
     log_grows sb L L' (lim + 1) (IBLOCK (i_inum x) sb :: W) → Q (s32 tot) fs') →
  wp (x ← getino ip;
      mwhen (off >? d_size (i_d x)) (setino ip (iupd (dset_size off))) ;;
      iupdate me ip ;;
      mret (s32 tot)) fs1 Q.
Proof.
  intros [[Hsb Hloc Hmem Hit] (L1 & Htx & Hgrow)] Hx Hsb0 [Hxd Hin] Hr Hcr HQ.
  destruct (IBLOCK_range start sb Hg _ Hin) as [_ Hib]. pose proof (nmeta_bounds start sb Hg).
  assert (f_it fs1 !! ip = Some (iset_d dd' x)) as Hx1.
  { rewrite Hit. apply list_lookup_insert_eq. by eapply lookup_lt_Some. }
  set (x' := grown x dd' off) in *. cbv zeta in HQ.
  assert (∀ f : fstate S U, f_it f = <[ip := x']> (f_it fs) → f_sb f = sb → f_loc f = f_loc fs →
    f_mem f = f_mem fs → f_l f = f_l fs1 → wp (iupdate me ip ;; mret (s32 tot)) f Q) as Hend.
  { intros f Hf1 Hf2 Hf3 Hf4 Hf5. wp_step. destruct Hgrow as [Hgl Hgb].
    eapply (iupdate_spec dev me start sb Hstart Hg f ip x'); [done| |by split|by rewrite Hf5|set_solver|..].
    - rewrite Hf1. apply list_lookup_insert_eq. by eapply lookup_lt_Some.
    - destruct c as [[sz out] cm]. unfold log_room in *. lia.
    - unfold cache_room in *. lia.
    - intros l Htx'. wp_step. eapply HQ; [done..|exact Htx'|].
      eapply log_grows_add.
      + eapply log_grows_mono; [by split|done|]. intros b _ Hb. by right.
      + right. split; [change (i_inum x') with (i_inum x); lia|by left]. }
  wp_step. eapply wp_getino; [done|]. cbn [i_d iset_d].
  unfold x', grown in Hend. destruct (off >? d_size dd'); cbn [mwhen].
  - wp_step. eapply wp_setino; [done|]. apply Hend; cbn; try done; try congruence.
    by rewrite Hit, list_insert_insert_eq.
  - wp_step. wp_step. apply Hend; try done; congruence.
Qed.

(** [writei] does what [written] says, and returns the number of bytes. *)
Lemma writei_spec fs ip x user src c L v d off bs :
  let n := Z.of_nat (length bs) in
  let lim := (per_round * (Z.to_nat (rounds off n 0) - 1))%nat in
  ino_pre fs ip x c L v d → ino_known dev sb x → dinode_wf (i_d x) →
  0 ≤ off ≤ d_size (i_d x) → d_size (i_d x) ≤ MAXFILE * BSIZE → off + n ≤ MAXFILE * BSIZE →
  allocated v (i_d x) 0 (d_size (i_d x)) → source user src bs fs →
  log_room c L (Z.of_nat lim + 1) → cache_room L ∅ (lim + 1) →
  wp (writei me ip user src off n) fs (λ r fs', ∃ (k : nat) v' x' L',
    r = Z.of_nat k ∧ written sb v x off bs k v' x' ∧
    f_it fs' = <[ip := x']> (f_it fs) ∧ f_sb fs' = sb ∧ f_loc fs' = f_loc fs ∧ f_mem fs' = f_mem fs ∧
    tx (f_l fs') c L' v' ∅ ∅ d ∧ write_log_bound L L' v' x' off n).
Proof.
  intros n lim Hpre Hkn Hwf Hoff Hsz Hmax Hal Hsrc Hr Hcr.
  pose proof Hpre as [Hsb Hit Hxd Htx Hm Hok].
  assert (off + n < 2147483648) as Hsmall by (unfold MAXFILE, NDIRECT, NINDIRECT, BSIZE in *; zlia).
  unfold writei. wp_step. eapply wp_getino; [done|].
  rewrite Z.gtb_ltb, (proj2 (Z.ltb_ge _ _)), u32_small by lia. cbn [orb].
  rewrite (proj2 (Z.ltb_ge _ _)) by lia. rewrite Z.gtb_ltb, (proj2 (Z.ltb_ge _ _)) by lia.
  wp_step. eapply wp_mono; [eapply (writei_loop_spec _ fs ip x user src c L v d off n 0 bs)|];
    try done; try lia.
  - apply rounds_fuel. lia.
  - eapply log_room_le; [done|lia].
  - eapply cache_room_le; [done|lia].
  - intros r fs1 (k & -> & v1 & dd1 & Hk & Hfull & Hw & Hpost). fold lim in Hpost.
    eapply writei_tail; [done..|]. cbv zeta. intros fs' L' Hf1 Hf2 Hf3 Hf4 Htx' [_ Hb].
    exists k, (iupdate_view sb v1 (grown x dd1 (off + Z.of_nat k))), (grown x dd1 (off + Z.of_nat k)), L'.
    split; [rewrite s32_small; lia|]. split_and!; try done.
    + apply (wrote_written sb start Hg); try done; [|apply Hkn|lia].
      destruct Hpost as [_ (L1 & Htx1 & _)]. intros b. by eapply tx_length.
    + intros b Hbl. destruct (Hb b Hbl) as [|[|[Hb0 [->|Hb']%elem_of_cons]]]; [by left|by right; left|right; right..].
      * by left.
      * right. replace n with (Z.of_nat k + (n - Z.of_nat k)) by lia.
        apply (touched_trans v1 dd1); [lia..| |done|by left]. intros i Hi _. unfold iupdate_view.
        destruct (IBLOCK_range start sb Hg (i_inum x)) as [_ Hib]; [apply Hkn|].
        rewrite ptr_at_grown. apply (ptr_at_meta sb start Hg); [apply Hw|].
        pose proof (nmeta_bounds start sb Hg). cbn. lia.
Qed.
End writei.
