(* ===== verification/FsTrunc.v ===== *)
(** * Truncating files: itrunc of kernel/fs.c

    [itrunc] frees every block of the file, the indirect block included, and no
    other, and leaves an empty inode on disk. *)
From Stdlib Require Import ZArith Lia.
From stdpp Require Import prelude functions strings gmap.
From S2P Require Import Prelude Bytes Param Str UserMem Sleeplock BufIface Log LogSpec Fs FsBlock FsData FsRw FsWrite.

(** Blocks of the free map. *)
Definition nbitmap (sb : superblock) : nat := Z.to_nat (sb_size sb / BPB + 1).

(** A bound on the log from what it may hold. *)
Lemma log_count sb start L L' W :
  geometry start sb → NoDup L' →
  (∀ b, b ∈ L' → b ∈ L ∨ sb_bmapstart sb ≤ b < nmeta sb ∨ b ∈ W) →
  (length L' ≤ length L + nbitmap sb + length W)%nat.
Proof.
  intros Hg Hnd Hb. destruct (g_data _ _ Hg). pose proof (nmeta_bounds start sb Hg).
  assert (length (seqZ (sb_bmapstart sb) (nmeta sb - sb_bmapstart sb)) = nbitmap sb) as <-.
  { rewrite length_seqZ. unfold nmeta, nbitmap. f_equal. lia. }
  rewrite <-Nat.add_assoc, <-!length_app. apply submseteq_length, NoDup_submseteq; [done|].
  intros b Hin. rewrite !elem_of_app, elem_of_seqZ. destruct (Hb b Hin) as [|[|]]; auto.
  right. left. lia.
Qed.

Section frees.
Context (sb : superblock) (start : Z) (Hg : geometry start sb).
Implicit Types (v : Z → block) (X : list Z).

(** [v'] comes from [v] by freeing the blocks [X]. *)
Record frees X v v' : Prop := {
  fr_use : ∀ b, 0 ≤ b < sb_size sb → in_use sb v' b = in_use sb v b && bool_decide (b ∉ X);
  fr_same : ∀ b, ¬ sb_bmapstart sb ≤ b < nmeta sb → v' b = v b
}.

Lemma frees_nil v : frees [] v v.
Proof.
  split; [|done]. intros b _. rewrite bool_decide_eq_true_2, andb_true_r by apply not_elem_of_nil. done.
Qed.

Lemma frees_step X v v' a :
  (∀ b, length (v' b) = BLK) → 0 ≤ a < sb_size sb → frees X v v' → frees (a :: X) v (free_view sb v' a).
Proof.
  intros Hlen Ha [Hu Hs]. destruct (BBLOCK_range sb start Hg a Ha) as [Hr _]. split.
  - intros b Hb. rewrite in_use_free, Hu by done.
    destruct (decide (a = b)) as [->|Hne].
    + rewrite (bool_decide_eq_false_2 (b ∉ b :: X)); [by rewrite andb_false_r|].
      intros Hn. apply Hn. by left.
    + f_equal. apply bool_decide_ext. rewrite elem_of_cons. naive_solver.
  - intros b Hb. unfold free_view. rewrite fn_lookup_insert_ne by lia. by apply Hs.
Qed.

Lemma frees_same_elems X Y v v' : (∀ b, 0 ≤ b < sb_size sb → in_use sb v b = true → b ∈ X ↔ b ∈ Y) →
  frees X v v' → frees Y v v'.
Proof.
  intros HXY [Hu Hs]. split; [|done]. intros b Hb. rewrite Hu by done.
  destruct (in_use sb v b) eqn:E; [|done]. cbn. apply bool_decide_ext. by rewrite HXY.
Qed.
End frees.

(** The addresses after the first [i] were cleared. *)
Definition cleared (i : nat) (l : list Z) : list Z := replicate i 0 ++ drop i l.

Lemma cleared_lookup i l : cleared i l !! i = l !! i.
Proof.
  unfold cleared. rewrite lookup_app_r; rewrite length_replicate; [|done].
  by rewrite Nat.sub_diag, lookup_drop, Nat.add_0_r.
Qed.

Lemma cleared_S i l : (i < length l)%nat → <[i := 0]> (cleared i l) = cleared (S i) l.
Proof.
  intros Hi. unfold cleared. rewrite <-(Nat.add_0_r i) at 1. rewrite <-(length_replicate i 0) at 1.
  rewrite insert_app_r, (drop_S _ _ _ (nth_Some _ _ 0 Hi)). cbn [insert list_insert].
  by rewrite replicate_S_end, <-app_assoc.
Qed.

Lemma cleared_skip i l : l !! i = Some 0 → cleared (S i) l = cleared i l.
Proof.
  intros Hi. rewrite <-cleared_S by (by eapply lookup_lt_Some). apply list_insert_id.
  by rewrite cleared_lookup.
Qed.

(** The empty inode [itrunc] leaves. *)
Definition emptied (x : inode) : inode :=
  iset_d (dset_size 0 (dset_addrs (replicate NADDR 0) (i_d x))) x.

(** The disk after [itrunc] of [x]: its blocks are free, every other block is
    as before, and the inode on disk is empty. *)
Record truncated (sb : superblock) (v : Z → block) (x : inode) (v' : Z → block) : Prop := {
  tr_use : ∀ b, 0 ≤ b < sb_size sb →
    in_use sb v' b = in_use sb v b && bool_decide (b = 0 ∨ b ∉ blocks v (i_d x));
  tr_same : ∀ b, ¬ sb_bmapstart sb ≤ b < nmeta sb → b ≠ IBLOCK (i_inum x) sb → v' b = v b;
  tr_disk : dinode_get (v' (IBLOCK (i_inum x) sb)) (dinode_off (i_inum x)) = i_d (emptied x)
}.

Section itrunc.
Context {S D U : Type} `{OB : BufOps S} `{HD : DiskDev D} `{HL : !DiskLaws D} `{UM : UserMem U}.
Context (dev me : Z) `{BS : !BufSpec S D dev me} (start : Z) (sb : superblock).
Context (Hstart : 0 ≤ start ∧ start + LOGSIZE < 2147483648).
Context (Hdev : u32 dev = dev) (Hg : geometry start sb).
Implicit Types (L X : list Z) (v : Z → block) (dd : dinode).
Abbreviation tx := (tx dev me start).
Abbreviation ino_pre := (ino_pre dev me start sb).

Section run.
Context (fs : fstate S U) (ip : nat) (x : inode) (c : Z * Z * Z) (L : list Z) (v : Z → block) (d : D).
Context (Hpre : ino_pre fs ip x c L v d).
Context (Hroom : log_room c L (Z.of_nat (nbitmap sb) + 2)) (Hcr : cache_room L ∅ (nbitmap sb + 3)).
Let ptr := ptr_at v (i_d x).

(** The state while [itrunc] runs: the blocks [X] are freed, the inode is
    [dd'] and the buffers [H] are held. *)
Definition trunc_inv (X : list Z) (dd' : dinode) (H : gmap nat Z) (fs' : fstate S U) : Prop :=
  ino_upd fs ip x dd' fs' ∧ ∃ v' L', tx (f_l fs') c L' v' H ∅ d ∧ frees sb X v v' ∧
    ∀ b, b ∈ L' → b ∈ L ∨ sb_bmapstart sb ≤ b < nmeta sb.

Lemma trunc_count l L' v' H :
  tx l c L' v' H ∅ d → (∀ b, b ∈ L' → b ∈ L ∨ sb_bmapstart sb ≤ b < nmeta sb) →
  (length L' ≤ length L + nbitmap sb)%nat.
Proof.
  intros [_ [Hnd _] _ _] Hb. rewrite <-(Nat.add_0_r (_ + _)).
  apply (log_count sb start L L' [] Hg Hnd). intros b Hin. destruct (Hb b Hin); auto.
Qed.

Lemma trunc_it X dd' H fs' : trunc_inv X dd' H fs' → f_it fs' !! ip = Some (iset_d dd' x).
Proof.
  intros [[_ _ _ ->] _]. apply list_lookup_insert_eq. eapply lookup_lt_Some, Hpre.
Qed.

Lemma trunc_bfree X dd' H fs' a :
  trunc_inv X dd' H fs' → (size H ≤ 1)%nat →
  (∀ b, b ∈ (map_img H : gset Z) → nmeta sb ≤ b) →
  nmeta sb ≤ a < sb_size sb → in_use sb v a = true → a ∉ X →
  wp (bfree me (i_dev x) a) fs' (λ _, trunc_inv (a :: X) dd' H).
Proof.
  intros [Hupd (v' & L' & Htx & Hfr & Hb)] Hsz HH Ha Hu HX. pose proof (nmeta_bounds start sb Hg).
  destruct (BBLOCK_range sb start Hg a) as [Hr _]; [lia|]. pose proof (trunc_count _ _ _ _ Htx Hb).
  rewrite (ip_dev _ _ _ _ _ _ _ _ _ _ _ Hpre).
  eapply (bfree_spec dev me start sb Hstart Hdev Hg); [ |done|lia| | |set_solver| | |].
  - rewrite (iu_sb _ _ _ _ _ Hupd). apply Hpre.
  - rewrite (fr_use _ _ _ _ Hfr) by lia. by rewrite Hu, bool_decide_eq_true_2.
  - intros Hin. apply HH in Hin. lia.
  - destruct c as [[sz out] cm]. unfold log_room in *. lia.
  - unfold cache_room in *. rewrite map_size_empty in Hcr. lia.
  - intros l Htx'. split; [by destruct Hupd|]. eexists _, _. split; [exact Htx'|]. split.
    + apply (frees_step sb start Hg); [intros; by eapply tx_length|lia|done].
    + intros b [Hin| ->]%elem_of_log_add; [by apply Hb|by right].
Qed.

(** The blocks at the places [l]. *)
Definition ptrs (l : list nat) : list Z := filter (λ b, b ≠ 0) (ptr <$> l).

Lemma elem_of_ptrs l b : b ∈ ptrs l ↔ b ≠ 0 ∧ ∃ i, i ∈ l ∧ b = ptr i.
Proof. unfold ptrs. rewrite list_elem_of_filter, list_elem_of_fmap. naive_solver. Qed.

Lemma ptrs_skip k l : (∀ i, i ∈ l → ptr i = 0) → ptrs (k ++ l) = ptrs k.
Proof.
  intros Hl. unfold ptrs. rewrite fmap_app, filter_app. rewrite <-(app_nil_r (filter _ (ptr <$> k))) at 2.
  f_equal. induction l as [|i l IH]; [done|]. rewrite fmap_cons, filter_cons_False.
  - apply IH. intros j Hj. apply Hl. by right.
  - intros Hn. apply Hn, Hl. by left.
Qed.

Lemma trunc_skip l i dd' H fs' :
  ptr i = 0 → trunc_inv (ptrs l) dd' H fs' → trunc_inv (ptrs (l ++ [i])) dd' H fs'.
Proof. intros H0. rewrite ptrs_skip; [done|]. by intros j ->%list_elem_of_singleton. Qed.

Lemma trunc_free l i dd' H fs' :
  trunc_inv (ptrs l) dd' H fs' → (size H ≤ 1)%nat → (∀ b, b ∈ (map_img H : gset Z) → nmeta sb ≤ b) →
  (i < NPTR)%nat → i ∉ l → (∀ j, j ∈ l → (j < NPTR)%nat) → ptr i ≠ 0 →
  wp (bfree me (i_dev x) (ptr i)) fs' (λ _, trunc_inv (ptrs (l ++ [i])) dd' H).
Proof.
  intros Hinv Hsz HH Hi Hil Hl H0. pose proof (ip_ok _ _ _ _ _ _ _ _ _ _ _ Hpre) as Hok.
  destruct (io_data _ _ _ Hok i Hi H0) as [Hd Hu].
  eapply wp_mono; [eapply trunc_bfree; try done|].
  - intros (_ & j & Hj & He)%elem_of_ptrs. apply Hil. replace i with j; [done|].
    symmetry. by apply (io_inj _ _ _ Hok); auto.
  - intros [] fs2 [Hupd (v' & L' & Htx & Hfr & Hb)]. split; [done|]. exists v', L'. split; [done|].
    split; [|done]. eapply frees_same_elems; [|done]. intros b _ _.
    rewrite elem_of_cons, !elem_of_ptrs. setoid_rewrite elem_of_app. setoid_rewrite list_elem_of_singleton.
    naive_solver.
Qed.

Let dd_at (i : nat) : dinode := dset_addrs (cleared i (d_addrs (i_d x))) (i_d x).

Lemma trunc_setino X i H fs' :
  trunc_inv X (dd_at i) H fs' → (i < NADDR)%nat →
  wp (setino ip (iupd (dset_addr i 0))) fs' (λ _, trunc_inv X (dd_at (Datatypes.S i)) H).
Proof.
  intros Hinv Hi. eapply wp_setino; [by eapply trunc_it|]. destruct Hinv as [[Hs Hl Hm Hit] Hrest].
  split; [|done]. split; try done. cbn. rewrite Hit, list_insert_insert_eq. f_equal.
  unfold iupd, dd_at, dset_addr, dset_addrs, iset_d. cbn. rewrite cleared_S; [done|].
  pose proof (io_len _ _ _ (ip_ok _ _ _ _ _ _ _ _ _ _ _ Hpre)). lia.
Qed.

Lemma trunc_same X i H fs' :
  ptr i = 0 → (i < NADDR)%nat → trunc_inv X (dd_at i) H fs' → trunc_inv X (dd_at (Datatypes.S i)) H fs'.
Proof.
  intros H0 Hi. unfold dd_at. rewrite cleared_skip; [done|]. rewrite (nth_Some _ _ 0).
  - unfold ptr, ptr_at in H0. rewrite decide_True in H0 by done. by rewrite H0.
  - pose proof (io_len _ _ _ (ip_ok _ _ _ _ _ _ _ _ _ _ _ Hpre)). lia.
Qed.

Lemma dd_at_lookup i : (i < NADDR)%nat → d_addrs (dd_at i) !! i = Some (ptr i).
Proof.
  intros Hi. unfold dd_at. cbn. rewrite cleared_lookup, (nth_Some _ _ 0).
  - unfold ptr, ptr_at. by rewrite decide_True.
  - pose proof (io_len _ _ _ (ip_ok _ _ _ _ _ _ _ _ _ _ _ Hpre)). lia.
Qed.

Lemma itrunc_direct_spec :
  wp (itrunc_direct me ip) fs (λ _, trunc_inv (ptrs (seq 0 IND)) (dd_at IND) ∅).
Proof.
  unfold itrunc_direct. apply (wp_mfor_seq _ _ (λ i, trunc_inv (ptrs (seq 0 i)) (dd_at i) ∅)).
  - pose proof Hpre as [? Hit ? ? ? ?]. split.
    + replace (dd_at 0) with (i_d x) by (unfold dd_at, cleared; cbn; by destruct (i_d x)).
      rewrite <-(fset_l_id fs) at 2. by apply ino_upd_refl.
    + exists v, L. split_and!; [done|apply frees_nil|auto].
  - intros i fs' Hi Hinv. change (Z.to_nat NDIRECT) with IND in Hi.
    assert (i < NADDR)%nat as Hi' by places.
    wp_step. eapply wp_getino; [by eapply trunc_it|].
    wp_step. eapply wp_mnth; [by apply dd_at_lookup|]. rewrite seq_S. cbn [Nat.add].
    destruct (Z.eqb_spec (ptr i) 0) as [H0|H0]; cbn [negb mwhen].
    + wp_step. by apply trunc_same, trunc_skip.
    + wp_step. eapply wp_mono; [eapply trunc_free; try done|].
      * rewrite map_size_empty. lia.
      * places.
      * rewrite elem_of_seq. lia.
      * intros j Hj%elem_of_seq. places.
      * intros [] fs2 Hinv2. by apply trunc_setino.
Qed.

Lemma itrunc_entries_spec bp fs1 dd' :
  let H := {[bp := ptr IND]} in
  ptr IND ≠ 0 → trunc_inv (ptrs (seq 0 IND)) dd' H fs1 →
  wp (mfor (seq 0 (Z.to_nat NINDIRECT)) (λ j,
        b ← fb (op_data bp);
        mwhen (negb (get32 b (4 * j) =? 0)) (bfree me (i_dev x) (get32 b (4 * j))))) fs1
    (λ _, trunc_inv (ptrs (seq 0 IND ++ seq NADDR 256)) dd' H).
Proof.
  intros H Hind Hinv. pose proof (ip_ok _ _ _ _ _ _ _ _ _ _ _ Hpre) as Hok.
  destruct (io_data _ _ _ Hok IND) as [Hd _]; [places|done|]. fold ptr in Hd.
  apply (wp_mfor_seq _ _ (λ j, trunc_inv (ptrs (seq 0 IND ++ seq NADDR j)) dd' H)).
  - cbn [seq]. by rewrite app_nil_r.
  - intros j fs' Hj Hinv'. change (Z.to_nat NINDIRECT) with 256%nat in Hj.
    wp_step. pose proof Hinv' as [_ (v' & L' & Htx & Hfr & _)].
    eapply tx_data; [done|apply lookup_singleton_eq|].
    assert (get32 (v' (ptr IND)) (4 * j) = ptr (NADDR + j)) as ->.
    { rewrite (fr_same _ _ _ _ Hfr) by lia. unfold ptr. unfold ptr_at at 2. rewrite decide_False by lia.
      rewrite ptr_IND in *. unfold ptr in Hind. rewrite ptr_IND in Hind.
      rewrite (proj2 (Z.eqb_neq _ _) Hind). by replace (NADDR + j - NADDR)%nat with j by lia. }
    rewrite seq_S, app_assoc.
    destruct (Z.eqb_spec (ptr (NADDR + j)) 0) as [H0|H0]; cbn [negb mwhen].
    + wp_step. by apply trunc_skip.
    + eapply trunc_free; try done.
      * unfold H. rewrite map_size_singleton. lia.
      * intros b. unfold H. rewrite map_img_singleton_L. intros ->%elem_of_singleton. lia.
      * places.
      * rewrite elem_of_app, !elem_of_seq. places.
      * intros k. rewrite elem_of_app, !elem_of_seq. places.
Qed.

(** The indirect block and its entries. *)
Lemma itrunc_indirect_spec fs1 :
  trunc_inv (ptrs (seq 0 IND)) (dd_at IND) ∅ fs1 → ptr IND ≠ 0 →
  wp (bp ← fb (op_bread me (i_dev x) (ptr IND));
      mfor (seq 0 (Z.to_nat NINDIRECT)) (λ j,
        b ← fb (op_data bp);
        mwhen (negb (get32 b (4 * j) =? 0)) (bfree me (i_dev x) (get32 b (4 * j)))) ;;
      fb (op_brelse me bp) ;;
      bfree me (i_dev x) (ptr IND) ;;
      setino ip (iupd (dset_addr IND 0))) fs1
    (λ _, trunc_inv (ptrs (seq 0 IND ++ seq NADDR 256 ++ [IND])) (dd_at NADDR) ∅).
Proof.
  intros Hinv Hind. pose proof (ip_dev _ _ _ _ _ _ _ _ _ _ _ Hpre) as Hxd. rewrite Hxd.
  pose proof Hinv as [Hupd (v1 & L1 & Htx & Hfr & Hb)]. pose proof (trunc_count _ _ _ _ Htx Hb) as Hcount.
  wp_step. eapply tx_bread; [done|rewrite img_none; set_solver|unfold cache_room in *; lia|].
  intros bp l1 Hbp Htx1. wp_step. rewrite <-Hxd. eapply wp_mono; [apply itrunc_entries_spec; [done|]|].
  { split; [by destruct Hupd|]. by exists v1, L1. }
  intros [] fs2 [Hupd2 (v2 & L2 & Htx2 & Hfr2 & Hb2)]. wp_step.
  eapply tx_brelse; [exact Htx2|apply lookup_singleton_eq|apply not_elem_of_empty|]. intros l3 Htx3.
  rewrite delete_singleton_eq in Htx3. wp_step.
  eapply wp_mono; [eapply (trunc_free (seq 0 IND ++ seq NADDR 256)); [..|exact Hind]|].
  - split; [by destruct Hupd2|]. exists v2, L2. split; [exact Htx3|]. split; [exact Hfr2|exact Hb2].
  - rewrite map_size_empty. lia.
  - intros b. rewrite img_none. by intros ?%not_elem_of_empty.
  - places.
  - rewrite elem_of_app, !elem_of_seq. places.
  - intros j. rewrite elem_of_app, !elem_of_seq. places.
  - intros [] fs4 Hinv4. rewrite <-app_assoc in Hinv4. apply (trunc_setino _ IND); [done|places].
Qed.

Lemma cleared_all : dd_at NADDR = dset_addrs (replicate NADDR 0) (i_d x).
Proof.
  unfold dd_at, cleared. pose proof (io_len _ _ _ (ip_ok _ _ _ _ _ _ _ _ _ _ _ Hpre)) as Hl.
  by rewrite <-Hl at 2; rewrite drop_all, app_nil_r.
Qed.

(** Both passes together free the blocks of the file. *)
Lemma trunc_all b : b ∈ ptrs (seq 0 IND ++ seq NADDR 256 ++ [IND]) ↔ b ≠ 0 ∧ b ∈ blocks v (i_d x).
Proof.
  rewrite elem_of_ptrs, elem_of_blocks. setoid_rewrite elem_of_app. setoid_rewrite elem_of_app.
  setoid_rewrite elem_of_seq. setoid_rewrite list_elem_of_singleton. split.
  - intros [H0 (i & Hi & ->)]. split; [done|]. right. exists i. split; [places|done].
  - intros [H0 [|(i & Hi & ->)]]; [done|]. split; [done|]. exists i. split; [places|done].
Qed.
End run.

(** What [itrunc] leaves behind. *)
Definition trunc_post (fs : fstate S U) ip x c L v d (fs' : fstate S U) : Prop :=
  ∃ v' L', truncated sb v x v' ∧ f_it fs' = <[ip := emptied x]> (f_it fs) ∧ f_sb fs' = sb ∧
    f_loc fs' = f_loc fs ∧ f_mem fs' = f_mem fs ∧ tx (f_l fs') c L' v' ∅ ∅ d ∧
    ∀ b, b ∈ L' → b ∈ L ∨ sb_bmapstart sb ≤ b < nmeta sb ∨ b = IBLOCK (i_inum x) sb.

Lemma dinode_wf_emptied x : dinode_wf (i_d x) → dinode_wf (i_d (emptied x)).
Proof. intros [? ? ? ? ? ? ? ?]. split; try done. cbn. apply Forall_replicate. lia. Qed.

Lemma itrunc_tail fs ip x c L v d X fs1 :
  ino_pre fs ip x c L v d → ino_known dev sb x → dinode_wf (i_d x) →
  log_room c L (Z.of_nat (nbitmap sb) + 2) → cache_room L ∅ (nbitmap sb + 3) →
  (∀ b, b ∈ X ↔ b ≠ 0 ∧ b ∈ blocks v (i_d x)) →
  trunc_inv fs ip x c L v d X (dset_addrs (replicate NADDR 0) (i_d x)) ∅ fs1 →
  wp (setino ip (iupd (dset_size 0)) ;; iupdate me ip) fs1 (λ _, trunc_post fs ip x c L v d).
Proof.
  intros Hpre Hkn Hwf Hroom Hcr HX Hinv. pose proof Hkn as [Hxd Hin].
  destruct (IBLOCK_range start sb Hg _ Hin) as [_ Hib]. pose proof (nmeta_bounds start sb Hg).
  wp_step. eapply wp_setino; [by eapply trunc_it|].
  destruct Hinv as [[Hsb Hloc Hmem Hit] (v1 & L1 & Htx & [Hu Hs] & Hb)].
  pose proof (trunc_count _ _ _ _ _ _ _ Htx Hb) as Hcount.
  assert (∀ b, length (v1 b) = BLK) as Hlen by (intros; by eapply tx_length).
  eapply (iupdate_spec dev me start sb Hstart Hg _ ip (emptied x)); [ | |by split|exact Htx|set_solver|..].
  - cbn. rewrite Hsb. apply Hpre.
  - cbn. rewrite Hit, list_insert_insert_eq. apply list_lookup_insert_eq. eapply lookup_lt_Some, Hpre.
  - destruct c as [[sz out] cm]. unfold log_room in *. lia.
  - unfold cache_room in *. lia.
  - intros l Htx'. exists (iupdate_view sb v1 (emptied x)). eexists.
    unfold iupdate_view in *. change (i_inum (emptied x)) with (i_inum x) in *. split_and!; [|..].
    + split.
      * intros b Hbr. rewrite (in_use_write sb start Hg), Hu by lia. f_equal. apply bool_decide_ext.
        rewrite HX. destruct (decide (b = 0)); naive_solver.
      * intros b Hb1 Hb2. rewrite fn_lookup_insert_ne by done. by apply Hs.
      * rewrite fn_lookup_insert. apply dinode_get_put; [by apply dinode_wf_emptied|].
        rewrite Hlen. apply dinode_off_lt.
    + cbn. by rewrite Hit, list_insert_insert_eq.
    + cbn. rewrite Hsb. apply Hpre.
    + done.
    + done.
    + exact Htx'.
    + intros b [Hbl| ->]%elem_of_log_add; [|auto]. destruct (Hb b Hbl); auto.
Qed.

Lemma itrunc_spec fs ip x c L v d :
  ino_pre fs ip x c L v d → ino_known dev sb x → dinode_wf (i_d x) →
  log_room c L (Z.of_nat (nbitmap sb) + 2) → cache_room L ∅ (nbitmap sb + 3) →
  wp (itrunc me ip) fs (λ _, trunc_post fs ip x c L v d).
Proof.
  intros Hpre Hkn Hwf Hroom Hcr. unfold itrunc.
  wp_step. eapply wp_mono; [by eapply (itrunc_direct_spec fs ip x c L v d)|].
  intros [] fs1 Hinv. wp_step. eapply wp_getino; [by eapply trunc_it|]. 
  wp_step. eapply wp_mnth; [eapply dd_at_lookup; [done|places]|].
  pose proof (trunc_all x v) as Hall. pose proof (cleared_all fs ip x c L v d Hpre) as Hclear.
  cbn [i_dev iset_d]. set (p := ptr_at v (i_d x) IND) in *.
  destruct (Z.eqb_spec p 0) as [H0|H0]; cbn [negb mwhen].
  - wp_step. wp_step. eapply itrunc_tail; [done..|exact Hall|]. rewrite <-Hclear.
    apply (trunc_same fs ip x c L v d Hpre _ IND); [done|places|].
    rewrite ptrs_skip; [done|]. intros i Hi. destruct (decide (ptr_at v (i_d x) i = 0)) as [|Hne]; [done|].
    apply elem_of_app in Hi as [Hi%elem_of_seq| ->%list_elem_of_singleton]; [|done].
    apply ptr_behind_IND in Hne; [done|lia].
  - wp_step. eapply wp_mono; [by apply (itrunc_indirect_spec fs ip x c L v d)|].
    intros [] fs2 Hinv2. eapply itrunc_tail; [done..|exact Hall|]. by rewrite <-Hclear.
Qed.
End itrunc.
