(* ===== verification/FsDir.v ===== *)
(** * Path names, the inode table and directories of kernel/fs.c

    [skipelem]; [iget], [idup] and [iput]; a directory is a file of
    [struct dirent]s: [dirlookup] returns the inode of the first entry with the
    name, [dirlink] adds an entry with a name that is not there, in the first free
    slot or at the end. *)
From Stdlib Require Import ZArith Lia.
From stdpp Require Import prelude functions strings gmap.
From S2P Require Import Prelude Bytes Param Str UserMem Sleeplock BufIface Log LogSpec Fs FsBlock FsData FsRw FsWrite FsTrunc.

(** ** Path names: skipelem of kernel/fs.c

    [components] is what a path name means: the parts between slashes, empty
    ones left out. [skipelem] takes them off one by one. *)

Definition flush (cur : list Z) : list (list Z) := if decide (cur = []) then [] else [cur].

Fixpoint split_slash (cur path : list Z) : list (list Z) :=
  match path with
  | [] => flush cur
  | c :: path' =>
      if c =? SLASH then flush cur ++ split_slash [] path' else split_slash (cur ++ [c]) path'
  end.

Definition components (path : list Z) : list (list Z) := split_slash [] path.

Lemma skip_slashes_components path : components (skip_slashes path) = components path.
Proof.
  induction path as [|c path IH]; [done|]. cbn [skip_slashes].
  destruct (c =? SLASH) eqn:E; [|done]. unfold components in *. rewrite IH. cbn [split_slash]. by rewrite E.
Qed.

Lemma skip_slashes_head path c path' : skip_slashes path = c :: path' → c ≠ SLASH.
Proof.
  induction path as [|c0 path IH]; [done|]. cbn [skip_slashes].
  destruct (Z.eqb_spec c0 SLASH); [done|]. by intros [= -> _].
Qed.

Lemma skip_slashes_length path : (length (skip_slashes path) ≤ length path)%nat.
Proof. induction path as [|c path IH]; cbn; [lia|]. destruct (c =? SLASH); cbn; lia. Qed.

Lemma skip_slashes_in path b : b ∈ skip_slashes path → b ∈ path.
Proof.
  induction path as [|c path IH]; [done|]. cbn [skip_slashes].
  destruct (c =? SLASH); [|done]. intros Hb. right. auto.
Qed.

Lemma split_slash_nonempty cur path : cur ≠ [] → split_slash cur path ≠ [].
Proof.
  revert cur. induction path as [|c path IH]; intros cur Hc; cbn [split_slash].
  - unfold flush. by rewrite decide_False.
  - destruct (c =? SLASH); [unfold flush; by rewrite decide_False|]. apply IH. by destruct cur.
Qed.

Lemma skip_name_spec path :
  let '(s, r) := skip_name path in
  path = s ++ r ∧ (SLASH ∉ s) ∧ (r = [] ∨ ∃ r', r = SLASH :: r').
Proof.
  induction path as [|c path IH]; cbn [skip_name].
  - split_and!; [done|apply not_elem_of_nil|by left].
  - destruct (Z.eqb_spec c SLASH) as [->|Hc].
    + split_and!; [done|apply not_elem_of_nil|]. right. eauto.
    + destruct (skip_name path) as [s r]. destruct IH as (-> & Hs & Hr). split_and!; [done| |done].
      by apply not_elem_of_cons.
Qed.

Lemma split_slash_app cur s r :
  SLASH ∉ s → split_slash cur (s ++ r) = split_slash (cur ++ s) r.
Proof.
  revert cur. induction s as [|c s IH]; intros cur Hs; [by rewrite app_nil_r|].
  apply not_elem_of_cons in Hs as [Hc Hs]. cbn [app split_slash].
  rewrite (proj2 (Z.eqb_neq _ _)) by done. rewrite IH by done. by rewrite <-app_assoc.
Qed.

(** The first part of a path that does not begin with a slash. *)
Lemma components_cons s r :
  s ≠ [] → SLASH ∉ s → (r = [] ∨ ∃ r', r = SLASH :: r') → components (s ++ r) = s :: components r.
Proof.
  intros Hs Hn Hr. unfold components. rewrite split_slash_app by done. cbn [app].
  destruct Hr as [->|[r' ->]]; cbn [split_slash]; unfold flush; rewrite decide_False by done; done.
Qed.

(** The name buffer: a C string unless the part fills it. *)
Lemma cstr_buffer n (l rest : list Z) :
  0 ∉ l → cstr n (list_ptr (l ++ rest)) = if decide (n ≤ length l)%nat then take n l else l ++ cstr (n - length l) (list_ptr rest).
Proof.
  revert n. induction l as [|c l IH]; intros n Hl; cbn [app length].
  - destruct n as [|n]; [done|]. by rewrite decide_False, Nat.sub_0_r by lia.
  - apply not_elem_of_cons in Hl as [Hc Hl]. destruct n as [|n]; [done|].
    rewrite cstr_S. change (list_ptr (c :: l ++ rest) 0) with c. rewrite (proj2 (Z.eqb_neq c 0)) by done.
    rewrite (cstr_ext n _ (list_ptr (l ++ rest))) by done. rewrite IH by done.
    repeat case_decide; try lia; done.
Qed.

Lemma skipelem_name name s :
  length name = DIRSIZ → 0 ∉ s →
  cstr DIRSIZ (list_ptr (if decide (DIRSIZ ≤ length s)%nat then splice name 0 (take DIRSIZ s)
                         else splice name 0 (s ++ [0]))) = take DIRSIZ s.
Proof.
  intros Hn Hs. unfold splice. rewrite take_0. cbn [app].
  assert (0 ∉ take DIRSIZ s) as Ht.
  { intros Hin. apply Hs. rewrite <-(take_drop DIRSIZ s). apply elem_of_app. by left. }
  case_decide as Hd.
  - rewrite cstr_buffer, length_take_le, decide_True, take_take by done. by f_equal.
  - rewrite <-app_assoc, cstr_buffer, decide_False, take_ge by (done || lia).
    destruct (DIRSIZ - length s)%nat; [|cbn]; by rewrite app_nil_r.
Qed.

(** [skipelem] takes the first component off. *)
Lemma skipelem_spec path name :
  length name = DIRSIZ → 0 ∉ path →
  match skipelem path name with
  | None => components path = []
  | Some (name', rest) =>
      ∃ s, components path = s :: components rest ∧ length name' = DIRSIZ ∧
        cstr DIRSIZ (list_ptr name') = take DIRSIZ s ∧
        (rest = [] ↔ components rest = []) ∧ (length rest < length path)%nat ∧ (0 ∉ rest)
  end.
Proof.
  intros Hname H0. unfold skipelem. pose proof (skip_slashes_components path) as Hc.
  pose proof (skip_slashes_length path) as Hl. pose proof (skip_slashes_head path) as Hh.
  destruct (skip_slashes path) as [|c path1] eqn:E; [by rewrite <-Hc|].
  pose proof (skip_name_spec (c :: path1)) as Hs. destruct (skip_name (c :: path1)) as [s r].
  destruct Hs as (Heq & Hns & Hr). assert (s ≠ []) as Hs0.
  { intros ->. destruct Hr as [->|[r' ->]]; [done|]. cbn in Heq. injection Heq as -> _. by eapply Hh. }
  assert (∀ b, b ∈ s ++ r → b ∈ path) as Hin.
  { intros b. rewrite <-Heq, <-E. apply skip_slashes_in. }
  exists s. split_and!.
  - rewrite <-Hc, Heq, skip_slashes_components. by apply components_cons.
  - case_decide; rewrite length_splice; rewrite ?length_take, ?length_app; cbn [length Nat.add]; lia.
  - apply skipelem_name; [done|]. intros Hb. apply H0, Hin, elem_of_app. by left.
  - pose proof (skip_slashes_head r) as Hhr. destruct (skip_slashes r) as [|c' r']; [done|].
    split; [done|]. intros Hn. exfalso. revert Hn. unfold components. cbn [split_slash app].
    rewrite (proj2 (Z.eqb_neq _ _)) by (by eapply Hhr). apply split_slash_nonempty. done.
  - pose proof (skip_slashes_length r). rewrite Heq, length_app in Hl. destruct s; [done|]. cbn in Hl. lia.
  - intros Hb%skip_slashes_in. apply H0, Hin, elem_of_app. by right.
Qed.

(** ** The inode table: iget, idup, iput of kernel/fs.c

    An entry of the table is in use while its [ref] is positive. At most one
    entry in use stands for an inode ([itable_ok]); [iget] finds it or takes a
    free entry, [iput] gives a reference back and, with the last one to an
    inode without links, frees the inode on disk. *)

(** [x] is in use for inode [inum] of [dev]. *)
Definition active (dev inum : Z) (x : inode) : Prop := 0 < i_ref x ∧ i_dev x = dev ∧ i_inum x = inum.

#[export] Instance active_dec dev inum x : Decision (active dev inum x).
Proof. unfold active. apply _. Defined.

Definition itable_ok (it : list inode) : Prop :=
  (∀ i x, it !! i = Some x → 0 ≤ i_ref x) ∧
  ∀ i j x y, it !! i = Some x → it !! j = Some y → active (i_dev x) (i_inum x) x →
    active (i_dev x) (i_inum x) y → i = j.

Section scan.
Context (dev inum : Z).
Implicit Types (l : list inode).

Lemma active_test x :
  ((i_ref x >? 0) && (i_dev x =? dev) && (i_inum x =? inum)) = bool_decide (active dev inum x).
Proof.
  symmetry. destruct (i_ref x >? 0) eqn:E1, (i_dev x =? dev) eqn:E2, (i_inum x =? inum) eqn:E3;
    (apply bool_decide_eq_true_2 || apply bool_decide_eq_false_2); unfold active; lia.
Qed.

(** The loop returns the first entry in use for the inode; else [empty], or
    the first free entry. *)
Lemma iget_scan_spec l i e :
  match iget_scan dev inum l i e with
  | inl k => ∃ j x, k = (i + j)%nat ∧ l !! j = Some x ∧ active dev inum x
  | inr r => (∀ j x, l !! j = Some x → ¬ active dev inum x) ∧
      match e with
      | Some _ => r = e
      | None => match r with
                | Some k => ∃ j x, k = (i + j)%nat ∧ l !! j = Some x ∧ i_ref x = 0
                | None => ∀ j x, l !! j = Some x → i_ref x ≠ 0
                end
      end
  end.
Proof.
  revert i e. induction l as [|y l IH]; intros i e; cbn [iget_scan].
  { split; [done|]. by destruct e. }
  rewrite active_test. case_bool_decide as Ha.
  { exists 0%nat, y. split; [lia|done]. }
  specialize (IH (S i) (match e with None => if i_ref y =? 0 then Some i else None | Some _ => e end)).
  destruct (iget_scan dev inum l (S i) _) as [k|r].
  - destruct IH as (j & x & -> & Hj & Hx). exists (S j), x. split; [lia|done].
  - destruct IH as [Hno Hr]. split; [intros [|j] x Hx; [by simplify_eq/=|exact (Hno j x Hx)]|].
    destruct e as [e|]; [done|]. destruct (Z.eqb_spec (i_ref y) 0) as [H0|H0].
    + subst r. exists 0%nat, y. split; [lia|done].
    + destruct r as [k|].
      * destruct Hr as (j & x & -> & Hj & Hx). exists (S j), x. split; [lia|done].
      * intros [|j] x Hx; [by simplify_eq/=|exact (Hr j x Hx)].
Qed.
End scan.

(** What [iget] does to the table. *)
Definition iget_post (dev inum : Z) (it : list inode) (ip : nat) (it' : list inode) : Prop :=
  ∃ x x', it !! ip = Some x ∧ it' = <[ip := x']> it ∧ active dev inum x' ∧
    ((active dev inum x ∧ x' = iset_ref (i_ref x + 1) x) ∨
     (i_ref x = 0 ∧ x' = iset_key dev inum 1 0 x ∧ ∀ j y, it !! j = Some y → ¬ active dev inum y)).

Section table.
Context {S U : Type} `{OB : BufOps S} `{UM : UserMem U}.
Implicit Types (fs : fstate S U) (it : list inode).

Lemma iget_spec fs dev inum (Q : nat → fstate S U → Prop) :
  (∃ i x, f_it fs !! i = Some x ∧ (active dev inum x ∨ i_ref x = 0)) →
  (∀ ip it', iget_post dev inum (f_it fs) ip it' → Q ip (fset_it it' fs)) →
  wp (iget dev inum) fs Q.
Proof.
  intros (i & x & Hi & Hx) HQ. unfold iget. wp_step. wp_step.
  pose proof (iget_scan_spec dev inum (f_it fs) 0 None) as Hs.
  destruct (iget_scan dev inum (f_it fs) 0 None) as [k|[k|]].
  - destruct Hs as (j & y & -> & Hj & Hy). wp_step. eapply wp_setino; [done|]. wp_step. apply HQ.
    exists y, (iset_ref (i_ref y + 1) y). split_and!; [done..| |by left].
    destruct Hy as (? & ? & ?). split_and!; cbn; lia || done.
  - destruct Hs as (Hno & j & y & -> & Hj & Hy). wp_step. eapply wp_setino; [done|]. wp_step. apply HQ.
    exists y, (iset_key dev inum 1 0 y). split_and!; [done..| |by right].
    unfold active. cbn. lia.
  - destruct Hs as [Hno Hfull]. exfalso. destruct Hx as [Hx|Hx]; [by eapply Hno|by eapply Hfull].
Qed.

Lemma iget_none fs dev inum :
  (∀ i x, f_it fs !! i = Some x → ¬ active dev inum x ∧ i_ref x ≠ 0) →
  iget (S := S) (U := U) dev inum fs = Panic "iget: no inodes".
Proof.
  intros Hno. pose proof (iget_scan_spec dev inum (f_it fs) 0 None) as Hs.
  destruct (iget_scan dev inum (f_it fs) 0 None) as [k|[k|]] eqn:E.
  - destruct Hs as (j & y & -> & Hj & Hy). by destruct (Hno j y Hj).
  - destruct Hs as (_ & j & y & -> & Hj & Hy). by destruct (Hno j y Hj).
  - unfold iget, mbind, M_bind, mget. by rewrite E.
Qed.

(** Changing an entry without making it active for another inode. *)
Lemma itable_ok_insert it ip x x' :
  itable_ok it → it !! ip = Some x → 0 ≤ i_ref x' →
  (active (i_dev x') (i_inum x') x' → ∀ j y, j ≠ ip → it !! j = Some y → ¬ active (i_dev x') (i_inum x') y) →
  itable_ok (<[ip := x']> it).
Proof.
  intros [Hr Hu] Hx Hr' Hne. pose proof (lookup_lt_Some _ _ _ Hx) as Hlt. split.
  - intros i y Hy. apply list_lookup_insert_Some in Hy as [(<- & <- & _)|[_ Hy]]; [done|by eapply Hr].
  - intros i j y z Hy Hz Ay Az.
    apply list_lookup_insert_Some in Hy as [(<- & <- & _)|[Hi Hy]];
      apply list_lookup_insert_Some in Hz as [(<- & <- & _)|[Hj Hz]]; try done.
    + exfalso. eapply Hne; eauto.
    + exfalso. destruct Az as (? & ? & ?), Ay as (? & ? & ?). eapply (Hne ltac:(by split_and!) i y); [done..|].
      by split_and!.
    + by eapply Hu.
Qed.

Lemma iget_table_ok dev inum it ip it' :
  iget_post dev inum it ip it' → itable_ok it → itable_ok it'.
Proof.
  intros (x & x' & Hx & -> & (H0 & Hd & Hn) & Hcase) Hok. eapply itable_ok_insert; [done..|lia|].
  intros _ j y Hj Hy Hay. rewrite Hd, Hn in Hay. destruct Hcase as [[Ha _]|(_ & _ & Hno)]; [|by eapply Hno].
  apply Hj. destruct Ha as (? & <- & <-), Hok as [_ Hu]. symmetry.
  by apply (Hu ip j x y).
Qed.

Lemma idup_spec fs ip x (Q : nat → fstate S U → Prop) :
  f_it fs !! ip = Some x → Q ip (fset_it (<[ip := iset_ref (i_ref x + 1) x]> (f_it fs)) fs) →
  wp (idup ip) fs Q.
Proof. intros Hx HQ. unfold idup. wp_step. eapply wp_setino; [done|]. by wp_step. Qed.

Lemma iput_keep fs me ip x (Q : unit → fstate S U → Prop) :
  f_it fs !! ip = Some x → ¬ (i_ref x = 1 ∧ i_valid x ≠ 0 ∧ d_nlink (i_d x) = 0) →
  Q tt (fset_it (<[ip := iset_ref (i_ref x - 1) x]> (f_it fs)) fs) →
  wp (iput me ip) fs Q.
Proof.
  intros Hx Hk HQ. unfold iput. wp_step. eapply wp_getino; [done|].
  assert (((i_ref x =? 1) && negb (i_valid x =? 0) && (d_nlink (i_d x) =? 0)) = false) as -> by
    (destruct (Z.eqb_spec (i_ref x) 1), (Z.eqb_spec (i_valid x) 0), (Z.eqb_spec (d_nlink (i_d x)) 0); tauto).
  cbn [mwhen]. wp_step. wp_step. by eapply wp_setino.
Qed.
End table.

(** ** The last reference to an inode without links *)

Section drop.
Context {S D U : Type} `{OB : BufOps S} `{HD : DiskDev D} `{HL : !DiskLaws D} `{UM : UserMem U}.
Context (dev me : Z) `{BS : !BufSpec S D dev me} (start : Z) (sb : superblock).
Context (Hstart : 0 ≤ start ∧ start + LOGSIZE < 2147483648).
Context (Hdev : u32 dev = dev) (Hg : geometry start sb).
Implicit Types (fs : fstate S U) (L : list Z) (v : Z → block) (d : D).
Abbreviation tx := (tx dev me start).
Abbreviation ino_pre := (ino_pre dev me start sb).

(** The entry [iput] leaves: free. *)
Definition dropped (x : inode) : inode :=
  iset_ref 0 (iset_lock (SleepLock 0 0) (iset_valid 0 (iupd (dset_type 0) (emptied x)))).

(** The disk: the blocks of the inode are free, and so is the inode. *)
Record deleted v (x : inode) (v' : Z → block) : Prop := {
  de_use : ∀ b, 0 ≤ b < sb_size sb →
    in_use sb v' b = in_use sb v b && bool_decide (b = 0 ∨ b ∉ blocks v (i_d x));
  de_same : ∀ b, ¬ sb_bmapstart sb ≤ b < nmeta sb → b ≠ IBLOCK (i_inum x) sb → v' b = v b;
  de_disk : dinode_get (v' (IBLOCK (i_inum x) sb)) (dinode_off (i_inum x)) = i_d (dropped x)
}.

Definition iput_post fs ip x c L v d (fs' : fstate S U) : Prop :=
  ∃ v' L', deleted v x v' ∧ f_it fs' = <[ip := dropped x]> (f_it fs) ∧ f_sb fs' = sb ∧
    f_loc fs' = f_loc fs ∧ f_mem fs' = f_mem fs ∧ tx (f_l fs') c L' v' ∅ ∅ d ∧
    ∀ b, b ∈ L' → b ∈ L ∨ sb_bmapstart sb ≤ b < nmeta sb ∨ b = IBLOCK (i_inum x) sb.

Lemma deleted_iupdate v x v1 :
  (∀ b, length (v1 b) = BLK) → 0 ≤ i_inum x < sb_ninodes sb → dinode_wf (i_d x) →
  truncated sb v x v1 → deleted v x (iupdate_view sb v1 (iupd (dset_type 0) (emptied x))).
Proof.
  intros Hlen Hin Hwf [Hu Hs Hd]. destruct (IBLOCK_range start sb Hg _ Hin) as [_ Hib].
  pose proof (nmeta_bounds start sb Hg). unfold iupdate_view. cbn [i_inum iupd iset_d emptied]. split.
  - intros b Hb. rewrite (in_use_write sb start Hg) by lia. by apply Hu.
  - intros b Hb Hne. rewrite fn_lookup_insert_ne by done. by apply Hs.
  - rewrite fn_lookup_insert. apply dinode_get_put; [|rewrite Hlen; apply dinode_off_lt].
    destruct (dinode_wf_emptied x Hwf). by split.
Qed.

Lemma iput_drop fs ip x c L v d :
  ino_pre fs ip x c L v d → ino_known dev sb x → dinode_wf (i_d x) →
  i_ref x = 1 → i_valid x ≠ 0 → d_nlink (i_d x) = 0 → sl_locked (i_lock x) = 0 →
  log_room c L (Z.of_nat (nbitmap sb) + 2) → cache_room L ∅ (nbitmap sb + 3) →
  wp (iput me ip) fs (λ _, iput_post fs ip x c L v d).
Proof.
  intros Hpre Hkn Hwf Href Hval Hnl Hlk Hroom Hcr. pose proof Hpre as [Hsb Hit Hxd Htx Hm Hok].
  pose proof (lookup_lt_Some _ _ _ Hit) as Hlt. unfold iput. wp_step. eapply wp_getino; [done|].
  rewrite Href, Hnl, (proj2 (Z.eqb_neq _ _) Hval). cbn [negb andb Z.eqb Pos.eqb mwhen].
  set (x1 := iset_lock (SleepLock 1 me) x). wp_step. wp_step.
  eapply wp_on_ilock; [done|]. apply wp_acquiresleep; [done|]. fold x1. wp_step.
  eapply wp_mono; [eapply (itrunc_spec dev me start sb Hstart Hdev Hg _ ip x1 c L v d)|]; try done.
  { split; try done. by apply list_lookup_insert_eq. }
  intros [] fs2 (v1 & L1 & Htr & Hit2 & Hsb2 & Hloc2 & Hmem2 & Htx2 & Hb2).
  cbn [f_it fset_it] in Hit2. rewrite list_insert_insert_eq in Hit2.
  wp_step. eapply wp_setino; [rewrite Hit2; by apply list_lookup_insert_eq|].
  rewrite Hit2, list_insert_insert_eq. set (x2 := iupd (dset_type 0) (emptied x1)).
  pose proof (log_count sb start L L1 [IBLOCK (i_inum x) sb] Hg (proj1 (tx_ok _ _ _ _ _ _ _ _ _ _ Htx2))
    ltac:(intros b Hb; destruct (Hb2 b Hb) as [|[| ->]]; [by left|by right; left|right; right; by left])) as Hcount.
  wp_step. eapply (iupdate_spec dev me start sb Hstart Hg _ ip x2); [done| |done|exact Htx2|set_solver|..].
  { by apply list_lookup_insert_eq. }
  { destruct c as [[sz out] cm]. unfold log_room in *. cbn in Hcount. lia. }
  { unfold cache_room in *. cbn in Hcount. lia. }
  intros l Htx3. wp_step. eapply wp_setino; [by apply list_lookup_insert_eq|].
  cbn [f_it fset_it fset_l]. rewrite list_insert_insert_eq.
  eapply wp_on_ilock; [by apply list_lookup_insert_eq|]. unfold releasesleep. wp_step.
  cbn [f_it fset_it fset_l]. rewrite list_insert_insert_eq.
  eapply wp_setino; [by apply list_lookup_insert_eq|].
  cbn [f_it fset_it fset_l]. rewrite list_insert_insert_eq.
  eexists _, _. split_and!; [|..|exact Htx3|].
  - destruct (deleted_iupdate v x1 v1) as [Hd1 Hd2 Hd3];
      [intros; by eapply tx_length|apply Hkn|done|done|]. split; [exact Hd1|exact Hd2|exact Hd3].
  - cbn. unfold dropped, x2, x1, emptied, iset_ref, iset_lock, iset_valid, iupd, iset_d. cbn.
    by rewrite Href.
  - done.
  - done.
  - done.
  - intros b [Hb| ->]%elem_of_log_add; auto.
Qed.
End drop.

(** Entry [i] of the directory. *)
Definition dent (v : Z → block) (dd : dinode) (i : nat) : list Z :=
  fbytes v dd (16 * Z.of_nat i) 16.
Definition ndents (dd : dinode) : nat := Z.to_nat (d_size dd / 16).

(** The entry is in use and has the name. *)
Definition dir_match (name de : list Z) : Prop := de_inum de ≠ 0 ∧ namecmp name (de_name de) = 0.

#[export] Instance dir_match_dec name de : Decision (dir_match name de).
Proof. unfold dir_match. apply _. Defined.

(** Entry [i] is the first one with the name. *)
Definition dir_first (v : Z → block) (dd : dinode) (name : list Z) (i : nat) : Prop :=
  (i < ndents dd)%nat ∧ dir_match name (dent v dd i) ∧ ∀ j, (j < i)%nat → ¬ dir_match name (dent v dd j).
Definition dir_absent (v : Z → block) (dd : dinode) (name : list Z) : Prop :=
  ∀ i, (i < ndents dd)%nat → ¬ dir_match name (dent v dd i).

(** For buffers of bytes, [dir_match] compares C strings of at most [DIRSIZ]
    bytes. *)
Lemma dir_match_cstr name de :
  Forall (λ c, 0 ≤ c < 256) name → Forall (λ c, 0 ≤ c < 256) de →
  dir_match name de ↔
    de_inum de ≠ 0 ∧ cstr DIRSIZ (list_ptr name) = cstr DIRSIZ (list_ptr (de_name de)).
Proof.
  intros Hn Hd. unfold dir_match, namecmp.
  assert (∀ l, Forall (λ c, 0 ≤ c < 256) l → bytes_ptr (list_ptr l)) as Hb.
  { intros l Hl i. unfold list_ptr. destruct (decide (i < length l)%nat) as [Hi|Hi].
    - eapply (Forall_lookup_1 (λ c, 0 ≤ c < 256)); [done|]. by apply nth_Some.
    - rewrite nth_overflow by lia. lia. }
  rewrite strncmp_cstr; [done|by apply Hb|]. apply Hb. unfold de_name, sub. by apply Forall_take, Forall_drop.
Qed.

(** A well-formed directory: whole entries only. *)
Record dir_ok (v : Z → block) (dd : dinode) : Prop := {
  do_type : d_type dd = T_DIR;
  do_size : d_size dd mod 16 = 0;
  do_max : 0 ≤ d_size dd ≤ MAXFILE * BSIZE;
  do_alloc : allocated v dd 0 (d_size dd)
}.

(** The entry [dirlink] writes. *)
Definition new_dent (name : list Z) (inum : Z) : list Z :=
  le_bytes 2 inum ++ strncpy (list_ptr name) DIRSIZ.

Lemma length_new_dent name inum : length (new_dent name inum) = 16%nat.
Proof. unfold new_dent. by rewrite length_app, length_le_bytes, length_strncpy. Qed.

Lemma new_dent_put loc name inum :
  length loc = 16%nat → put16 (splice loc 2 (strncpy (list_ptr name) DIRSIZ)) 0 inum = new_dent name inum.
Proof.
  intros Hl. unfold put16, splice, new_dent. rewrite take_0, length_le_bytes, length_strncpy.
  cbn [app Nat.add]. f_equal. rewrite drop_app_ge; rewrite length_take_le by (rewrite Hl; lia); [|lia].
  rewrite Nat.sub_diag, (drop_ge loc) by (rewrite Hl; unfold DIRSIZ; lia). apply app_nil_r.
Qed.

Lemma de_inum_new name inum : de_inum (new_dent name inum) = u16 inum.
Proof.
  unfold de_inum, new_dent, get16, sub. rewrite drop_0.
  rewrite take_app_le, take_ge by (by rewrite length_le_bytes). by rewrite le_val_bytes.
Qed.

Lemma de_name_new name inum : de_name (new_dent name inum) = strncpy (list_ptr name) DIRSIZ.
Proof.
  unfold de_name, new_dent, sub. rewrite drop_app_length' by (by rewrite length_le_bytes).
  apply take_ge. by rewrite length_strncpy.
Qed.

Lemma dir_match_new name inum : u16 inum ≠ 0 → dir_match name (new_dent name inum).
Proof.
  intros Hi. split; [by rewrite de_inum_new|]. rewrite de_name_new. apply strncmp_strncpy.
Qed.

(** The directory after a successful [dirlink] into slot [k]. *)
Section added.
Context (sb : superblock) (v : Z → block) (x : inode) (name : list Z) (inum : Z) (k : nat).
Context (v' : Z → block) (x' : inode).
Context (Hdir : dir_ok v (i_d x)) (Hk : (k ≤ ndents (i_d x))%nat).
Context (Hw : written sb v x (16 * Z.of_nat k) (new_dent name inum) 16 v' x').
Context (Hend : 16 * Z.of_nat k + 16 ≤ MAXFILE * BSIZE).

Lemma added_size : ndents (i_d x') = Nat.max (ndents (i_d x)) (S k) ∧ d_size (i_d x') mod 16 = 0.
Proof.
  destruct Hdir as [_ Hmod Hmax _]. unfold ndents in *. rewrite (wn_size _ _ _ _ _ _ _ _ Hw). zlia.
Qed.

Lemma added_dent i : (i < ndents (i_d x'))%nat →
  dent v' (i_d x') i = if decide (i = k) then new_dent name inum else dent v (i_d x) i.
Proof.
  intros Hi. destruct added_size as [_ Hmod']. unfold ndents in Hi.
  assert (∀ m, (m < 16)%nat → fbyte v' (i_d x') (16 * Z.of_nat i + Z.of_nat m) =
    if decide (i = k) then nth m (new_dent name inum) 0
    else fbyte v (i_d x) (16 * Z.of_nat i + Z.of_nat m)) as Hb.
  { intros m Hm. rewrite (wn_bytes _ _ _ _ _ _ _ _ Hw) by zlia. destruct (decide (i = k)) as [->|Hne].
    - rewrite decide_True by lia. f_equal. lia.
    - by rewrite decide_False by lia. }
  apply list_eq. intros m. unfold dent at 1, fbytes. rewrite list_lookup_fmap.
  destruct (decide (m < 16)%nat) as [Hm|Hm].
  - rewrite lookup_seq_lt by done. cbn [fmap option_fmap option_map Nat.add]. rewrite Hb by done.
    case_decide as Hd.
    + symmetry. apply nth_Some. by rewrite length_new_dent.
    + unfold dent, fbytes. by rewrite list_lookup_fmap, lookup_seq_lt.
  - rewrite lookup_seq_ge by lia. case_decide; symmetry; apply lookup_ge_None_2;
      [rewrite length_new_dent|unfold dent; rewrite length_fbytes]; lia.
Qed.

Lemma added_first :
  u16 inum ≠ 0 → dir_absent v (i_d x) name → dir_first v' (i_d x') name k.
Proof.
  intros Hi Habs. destruct added_size as [Hn _]. split_and!; [lia|..].
  - rewrite added_dent, decide_True by (done || lia). by apply dir_match_new.
  - intros j Hj. rewrite added_dent, decide_False by lia. apply Habs. lia.
Qed.

Lemma added_ok : dir_ok v' (i_d x').
Proof.
  destruct added_size as [_ Hmod]. pose proof (wn_inode _ _ _ _ _ _ _ _ Hw) as Hx'. split; try done.
  - rewrite Hx'. cbn. apply Hdir.
  - rewrite (wn_size _ _ _ _ _ _ _ _ Hw). destruct Hdir. lia.
  - apply Hw.
Qed.
End added.

Lemma rounds_small off : 1 ≤ rounds off 16 0 ≤ 3.
Proof.
  unfold rounds. cbn [Z.ltb Z.compare]. change ((16 - 0) / BSIZE) with 0.
  destruct (off mod BSIZE =? 0); lia.
Qed.

Section dirs.
Context {S D U : Type} `{OB : BufOps S} `{HD : DiskDev D} `{HL : !DiskLaws D}
  `{UM : UserMem U} `{UL : !UserMemLaws U}.
Context (dev me : Z) `{BS : !BufSpec S D dev me} (start : Z) (sb : superblock).
Implicit Types (fs : fstate S U) (L : list Z) (v : Z → block) (d : D) (dd : dinode) (name : list Z).
Abbreviation tx := (tx dev me start).

Section lookup.
Context (c : Z * Z * Z) (L : list Z) (v : Z → block) (d : D) (dp : nat) (x : inode).
Context (Hxd : i_dev x = dev) (Hal : length (d_addrs (i_d x)) = NADDR) (Hcr : cache_room L ∅ 1).
Context (Hdir : dir_ok v (i_d x)).

(** [fs'] is [fs] with another [de], and disk blocks read. *)
Record dir_same fs fs' : Prop := {
  ds_sb : f_sb fs' = f_sb fs;
  ds_it : f_it fs' = f_it fs;
  ds_mem : f_mem fs' = f_mem fs;
  ds_len : length (f_loc fs') = 16%nat;
  ds_tx : tx (f_l fs') c L v ∅ ∅ d
}.

Lemma dir_same_trans fs1 fs2 fs3 : dir_same fs1 fs2 → dir_same fs2 fs3 → dir_same fs1 fs3.
Proof. intros [? ? ? ? ?] [? ? ? ? ?]. split; congruence || done. Qed.

(** Reading entry [i] into [de]. *)
Lemma read_dent fs i :
  dir_same fs fs → f_it fs !! dp = Some x → (i < ndents (i_d x))%nat →
  wp (readi me dp false 0 (16 * Z.of_nat i) sizeof_dirent) fs (λ r fs',
    r = sizeof_dirent ∧ dir_same fs fs' ∧ f_loc fs' = dent v (i_d x) i).
Proof.
  intros [_ _ _ Hlen Htx] Hit Hi. destruct Hdir as [_ Hmod Hmax Halloc]. unfold ndents in Hi.
  assert (16 * Z.of_nat i + 16 ≤ d_size (i_d x)) as Hend by zlia.
  assert (Z.min sizeof_dirent (d_size (i_d x) - 16 * Z.of_nat i) = 16) as Hk by (unfold sizeof_dirent; lia).
  assert (d_size (i_d x) < 2147483648) by (unfold MAXFILE, NDIRECT, NINDIRECT, BSIZE in *; zlia).
  eapply wp_mono; [eapply (readi_spec dev me start); try done|].
  - lia.
  - unfold sizeof_dirent. lia.
  - lia.
  - rewrite Hk. intros o Ho. apply Halloc. lia.
  - rewrite Hk. unfold can_sink. rewrite length_fbytes, Hlen. lia.
  - rewrite Hk. intros r fs' (-> & Htx' & Hsb & Hi' & Hco & Hme & Hlo).
    assert (f_loc fs' = dent v (i_d x) i) as Hloc.
    { rewrite Hlo. unfold splice. cbn [Z.to_nat take app]. rewrite length_fbytes, drop_ge by (rewrite Hlen; lia).
      by rewrite app_nil_r. }
    split_and!; [done| |done]. split; try done. by rewrite Hloc; apply length_fbytes.
Qed.

Lemma dent_off i :
  (i ≤ ndents (i_d x))%nat →
  (16 * Z.of_nat i <? d_size (i_d x)) = bool_decide (i < ndents (i_d x))%nat ∧
  u32 (16 * Z.of_nat i + sizeof_dirent) = 16 * Z.of_nat (Datatypes.S i).
Proof.
  intros Hi. destruct Hdir as [_ Hmod Hmax _]. unfold ndents in *. split.
  - case_bool_decide; [apply Z.ltb_lt|apply Z.ltb_ge]; zlia.
  - rewrite u32_small; unfold sizeof_dirent; [lia|].
    unfold MAXFILE, NDIRECT, NINDIRECT, BSIZE in *. zlia.
Qed.

Lemma dirlookup_loop_spec name fuel : ∀ i fs (Q : option (nat * Z) → fstate S U → Prop),
  dir_same fs fs → f_it fs !! dp = Some x → (∃ k y, f_it fs !! k = Some y ∧ i_ref y = 0) →
  (i ≤ ndents (i_d x))%nat → (∀ j, (j < i)%nat → ¬ dir_match name (dent v (i_d x) j)) →
  (ndents (i_d x) - i < fuel)%nat →
  (dir_absent v (i_d x) name → ∀ fs', dir_same fs fs' → Q None fs') →
  (∀ k fs' ip it', dir_first v (i_d x) name k → dir_same fs fs' →
     iget_post dev (de_inum (dent v (i_d x) k)) (f_it fs) ip it' →
     Q (Some (ip, 16 * Z.of_nat k)) (fset_it it' fs')) →
  wp (dirlookup_loop me fuel dp name (16 * Z.of_nat i)) fs Q.
Proof.
  induction fuel as [|fuel IH]; intros i fs Q Hsame Hit Hfree Hi Hbefore Hfuel Hnone Hsome; [lia|].
  cbn [dirlookup_loop]. destruct (dent_off i Hi) as [Hlt Hnext].
  wp_step. eapply wp_getino; [done|]. rewrite Hlt. case_bool_decide as Hi'.
  2: { wp_step. apply Hnone; [|done]. intros j Hj. apply Hbefore. lia. }
  wp_step. eapply wp_mono; [by apply (read_dent fs i)|]. intros r fs1 (-> & Hs1 & Hloc).
  rewrite Z.eqb_refl. cbn [negb]. wp_step. wp_step. rewrite Hloc, Hnext.
  assert (∀ Hne : ¬ dir_match name (dent v (i_d x) i),
    wp (dirlookup_loop me fuel dp name (16 * Z.of_nat (Datatypes.S i))) fs1 Q) as Hgo.
  { intros Hne. apply IH; try lia.
    - by destruct Hs1; split.
    - by rewrite (ds_it _ _ Hs1).
    - by rewrite (ds_it _ _ Hs1).
    - intros j Hj. destruct (decide (j = i)) as [->|]; [done|]. apply Hbefore. lia.
    - intros Habs fs' Hs'. apply Hnone; [done|]. by eapply dir_same_trans.
    - intros k fs' ip it' Hk Hs' Hg. apply Hsome; [done|by eapply dir_same_trans|].
      by rewrite <-(ds_it _ _ Hs1). }
  destruct (Z.eqb_spec (de_inum (dent v (i_d x) i)) 0) as [H0|H0]; [apply Hgo; by intros [? _]|].
  destruct (Z.eqb_spec (namecmp name (de_name (dent v (i_d x) i))) 0) as [Hn|Hn]; [|apply Hgo; by intros [_ ?]].
  wp_step. rewrite Hxd. apply iget_spec.
  - rewrite (ds_it _ _ Hs1). destruct Hfree as (k & y & ? & ?). eauto.
  - intros ip it' Hg. wp_step. apply Hsome; [by split_and!|done|]. by rewrite <-(ds_it _ _ Hs1).
Qed.

Lemma dirlookup_spec name fs (Q : option (nat * Z) → fstate S U → Prop) :
  dir_same fs fs → f_it fs !! dp = Some x → (∃ k y, f_it fs !! k = Some y ∧ i_ref y = 0) →
  (dir_absent v (i_d x) name → ∀ fs', dir_same fs fs' → Q None fs') →
  (∀ k fs' ip it', dir_first v (i_d x) name k → dir_same fs fs' →
     iget_post dev (de_inum (dent v (i_d x) k)) (f_it fs) ip it' →
     Q (Some (ip, 16 * Z.of_nat k)) (fset_it it' fs')) →
  wp (dirlookup me dp name) fs Q.
Proof.
  intros Hsame Hit Hfree Hnone Hsome. unfold dirlookup. wp_step. eapply wp_getino; [done|].
  rewrite (do_type _ _ Hdir). cbn [negb Z.eqb Pos.eqb].
  apply (dirlookup_loop_spec name _ 0); try done; try lia.
  unfold dir_fuel, ndents, sizeof_dirent. lia.
Qed.

(** The slot [dirlink] takes: the first free one, or the end. *)
Definition dir_slot (k : nat) : Prop :=
  (k ≤ ndents (i_d x))%nat ∧ ((k < ndents (i_d x))%nat → de_inum (dent v (i_d x) k) = 0) ∧
  ∀ j, (j < k)%nat → de_inum (dent v (i_d x) j) ≠ 0.

Lemma dirlink_scan_spec fuel : ∀ i fs (Q : Z → fstate S U → Prop),
  dir_same fs fs → f_it fs !! dp = Some x → (i ≤ ndents (i_d x))%nat →
  (∀ j, (j < i)%nat → de_inum (dent v (i_d x) j) ≠ 0) → (ndents (i_d x) - i < fuel)%nat →
  (∀ k fs', dir_slot k → dir_same fs fs' → Q (16 * Z.of_nat k) fs') →
  wp (dirlink_scan me fuel dp (16 * Z.of_nat i)) fs Q.
Proof.
  induction fuel as [|fuel IH]; intros i fs Q Hsame Hit Hi Hbefore Hfuel HQ; [lia|].
  cbn [dirlink_scan]. destruct (dent_off i Hi) as [Hlt _].
  wp_step. eapply wp_getino; [done|]. rewrite Hlt. case_bool_decide as Hi'.
  2: { wp_step. apply HQ; [|done]. split_and!; [done|lia|done]. }
  wp_step. eapply wp_mono; [by apply (read_dent fs i)|]. intros r fs1 (-> & Hs1 & Hloc).
  rewrite Z.eqb_refl. cbn [negb]. wp_step. wp_step. rewrite Hloc.
  destruct (Z.eqb_spec (de_inum (dent v (i_d x) i)) 0) as [H0|H0].
  - wp_step. apply HQ; [by split_and!|done].
  - replace (16 * Z.of_nat i + sizeof_dirent) with (16 * Z.of_nat (Datatypes.S i)) by (unfold sizeof_dirent; lia).
    apply IH; try lia.
    + by destruct Hs1; split.
    + by rewrite (ds_it _ _ Hs1).
    + intros j Hj. destruct (decide (j = i)) as [->|]; [done|]. apply Hbefore. lia.
    + intros k fs' Hk Hs'. apply HQ; [done|]. by eapply dir_same_trans.
Qed.
End lookup.

(** ** dirlink *)

Context (Hstart : 0 ≤ start ∧ start + LOGSIZE < 2147483648).
Context (Hdev : u32 dev = dev) (Hg : geometry start sb).
Abbreviation ino_pre := (ino_pre dev me start sb).

(** The inode of a name that was there is given back. *)
Lemma iget_iput inum it ip it' fs (Q : unit → fstate S U → Prop) :
  itable_ok it → iget_post dev inum it ip it' → f_it fs = it' →
  (∀ it2, itable_ok it2 → Q tt (fset_it it2 fs)) → wp (iput me ip) fs Q.
Proof.
  intros Hok Hg' Hit HQ. pose proof (iget_table_ok _ _ _ _ _ Hg' Hok) as Hok'.
  destruct Hg' as (y & y' & Hy & -> & Ha & Hcase). pose proof (lookup_lt_Some _ _ _ Hy) as Hlt.
  assert (f_it fs !! ip = Some y') as Hy' by (rewrite Hit; by apply list_lookup_insert_eq).
  eapply iput_keep; [done| |].
  - destruct Hcase as [[(? & _ & _) ->]|(_ & -> & _)]; cbn; lia.
  - apply HQ. rewrite Hit. destruct Ha as (? & ? & ?). eapply itable_ok_insert; [done|by rewrite <-Hit|cbn; lia|].
    intros Ha2 j z Hj Hz Az. apply Hj. rewrite <-Hit in Hz. destruct Hok' as [_ Hu]. rewrite <-Hit in Hu.
    symmetry. apply (Hu ip j y' z Hy' Hz); [by split_and!|exact Az].
Qed.

(** What [dirlink] leaves behind: -1 and an unchanged disk if the name was
    there; otherwise the bytes of the new entry, all of them unless the disk is
    full, in the slot. *)
Definition dirlink_post fs dp x c L v d name inum (r : Z) (fs' : fstate S U) : Prop :=
  (r = -1 ∧ ¬ dir_absent v (i_d x) name ∧ tx (f_l fs') c L v ∅ ∅ d ∧ itable_ok (f_it fs')) ∨
  (dir_absent v (i_d x) name ∧ ∃ (k j : nat) v' x' L',
     r = (if decide (k = 16%nat) then 0 else -1) ∧ dir_slot v x j ∧
     written sb v x (16 * Z.of_nat j) (new_dent name inum) k v' x' ∧
     f_it fs' = <[dp := x']> (f_it fs) ∧ f_sb fs' = sb ∧ f_mem fs' = f_mem fs ∧
     tx (f_l fs') c L' v' ∅ ∅ d ∧
     write_log_bound sb L L' v' x' (16 * Z.of_nat j) 16).

Lemma dirlink_spec fs dp x c L v d name inum :
  ino_pre fs dp x c L v d → ino_known dev sb x → dinode_wf (i_d x) → dir_ok v (i_d x) →
  d_size (i_d x) + 16 ≤ MAXFILE * BSIZE → length (f_loc fs) = 16%nat →
  itable_ok (f_it fs) → (∃ k y, f_it fs !! k = Some y ∧ i_ref y = 0) →
  log_room c L 13 → cache_room L ∅ 13 →
  wp (dirlink me dp name inum) fs (dirlink_post fs dp x c L v d name inum).
Proof.
  intros Hpre Hkn Hwf Hdir Hmax Hloc Htab Hfree Hroom Hcr. pose proof Hpre as [Hsb Hit Hxd Htx Hm Hok].
  assert (cache_room L ∅ 1) as Hcr1 by (eapply cache_room_le; [done|lia]).
  pose proof (io_len _ _ _ Hok) as Hal.
  assert (dir_same c L v d fs fs) as Hsame by (by split). unfold dirlink. wp_step.
  eapply (dirlookup_spec c L v d dp x); [done..| |].
  - intros Habs fs1 Hs1. wp_step. eapply wp_getino; [by rewrite (ds_it _ _ _ _ _ _ Hs1)|].
    wp_step. change 0 with (16 * Z.of_nat 0) at 1.
    eapply (dirlink_scan_spec c L v d dp x); [done..| | |lia|lia| |].
    { by destruct Hs1; split. } 
    { by rewrite (ds_it _ _ _ _ _ _ Hs1). }
    { unfold dir_fuel, ndents, sizeof_dirent. lia. }
    intros j fs2 Hj Hs2. pose proof (dir_same_trans _ _ _ _ _ _ _ Hs1 Hs2) as [Hsb2 Hit2 Hmem2 Hlen2 Htx2].
    wp_step. wp_step. rewrite new_dent_put by done. wp_step.
    assert (sizeof_dirent = Z.of_nat (length (new_dent name inum))) as -> by (by rewrite length_new_dent).
    eapply wp_mono; [eapply (writei_spec dev me start sb Hstart Hdev Hg _ dp x false 0 c L v d)|]; try done.
    + by split; cbn; rewrite ?Hsb2, ?Hit2.
    + destruct Hj as [Hj _], Hdir as [_ Hmod ? _]. unfold ndents in Hj. zlia.
    + lia.
    + destruct Hj as [Hj _], Hdir as [_ Hmod ? _]. unfold ndents in Hj. rewrite length_new_dent. zlia.
    + apply Hdir.
    + split_and!; cbn [f_loc fset_loc]; rewrite ?length_new_dent; try lia.
      unfold sub. by rewrite drop_0, take_ge by (by rewrite length_new_dent).
    + eapply log_room_le; [done|]. rewrite length_new_dent. change (Z.of_nat 16) with 16.
      pose proof (rounds_small (16 * Z.of_nat j)). unfold per_round. lia.
    + eapply cache_room_le; [exact Hcr|]. rewrite length_new_dent. change (Z.of_nat 16) with 16.
      pose proof (rounds_small (16 * Z.of_nat j)). unfold per_round. lia.
    + rewrite length_new_dent. intros r fs4 (k & v' & x' & L' & -> & Hw & Hit4 & Hsb4 & Hloc4 & Hmem4 & Htx4 & Hb4).
      wp_step. right. split; [done|]. exists k, j, v', x', L'. cbn in *.
      split_and!; try done; [|by rewrite Hit4, Hit2|by rewrite Hmem4, Hmem2].
      destruct (decide (k = 16%nat)) as [->|]; [done|]. by rewrite (proj2 (Z.eqb_neq _ _)) by lia.
  - intros k fs1 ip it' Hk Hs1 Hg'. wp_step. eapply (iget_iput _ (f_it fs)); [done..|].
    intros it2 Hok2. wp_step. left. split_and!; try done; [|apply Hs1].
    intros Habs. destruct Hk as (Hk1 & Hk2 & _). by eapply Habs.
Qed.
End dirs.
