(* ===== verification/FsTheorems.v ===== *)
(** * What kernel/fs.c guarantees

    The theorems about the file system, for kernel/log.c and kernel/bio.c as
    they are and any disk that keeps what is written to it. Each one is
    followed by an application to the small file system below. *)
From Stdlib Require Import ZArith Lia.
From stdpp Require Import prelude functions strings gmap.
From S2P Require Import Prelude Bytes Param Str UserMem Sleeplock BufIface Bio BioInv Log LogSpec Fs FsBlock FsData FsRw FsWrite FsTrunc FsDir.

(** ** A small file system

    A disk with the layout mkfs/mkfs.c writes, one directory (inode 1) with
    one entry and one file of five bytes (inode 2), and the state of the kernel
    inside a transaction on it. The theorems about kernel/fs.c are applied to
    it as examples. *)

(** A process without memory: copies of no bytes succeed, others fail. *)
#[export] Instance no_mem : UserMem unit := {
  ucopyout _ _ l := (tt, match l with [] => true | _ => false end);
  ucopyin _ _ n := match n with O => ([], true) | _ => ([], false) end;
  ucopyinstr _ _ _ := None
}.

#[export] Instance no_mem_laws : UserMemLaws unit.
Proof.
  split.
  - intros [] dst [|y a] b _ _; [|done]. cbn. by destruct b.
  - by intros [] dst.
  - intros [] src [|n1] n2 l _ _; cbn; [|done]. destruct n2; [|done]. intros [= <-]. done.
Qed.

Module Demo.
Definition sb : superblock := SuperBlock FSMAGIC 2000 1766 200 30 2 32 233.

Definition dir_ino : dinode := DInode T_DIR 0 0 1 32 (234 :: replicate 12 0) 6.
Definition file_ino : dinode := DInode T_FILE 0 0 0 5 (235 :: replicate 12 0) 6.

Definition dot : list Z := [46].
Definition name_a : list Z := [97].

Definition bitmap_block : block := replicate 29 255 ++ [15] ++ replicate 994 0.
Definition dir_block : block := splice zero_block 0 (new_dent dot 1).
Definition file_block : block := splice zero_block 0 [104; 101; 108; 108; 111].

Definition disk : block_map :=
  <[33 := dinode_put dir_ino zero_block 0]> (<[34 := dinode_put file_ino zero_block 0]>
    (<[233 := bitmap_block]> (<[234 := dir_block]> {[235 := file_block]}))).

Definition x_dir : inode := Inode 1 1 1 initsleeplock 1 dir_ino.
Definition x_file : inode := Inode 1 2 1 initsleeplock 1 file_ino.
Definition table : list inode := [x_dir; x_file; zero_inode].

Definition ctl : Z * Z * Z := (30, 1, 0).
Definition in_op : log := Log 2 30 1 0 1 (LogHeader 0 (replicate (Z.to_nat LOGSIZE) 0)).

Lemma start_ok : 0 ≤ 2 ∧ 2 + LOGSIZE < 2147483648.
Proof. by vm_compute. Qed.

Lemma geom : geometry 2 sb.
Proof. split; vm_compute; done || (split; done). Qed.

(** The kernel after boot, in a system call. *)
Lemma kernel : ∃ fs : fstate (bstate block_map) unit,
  f_sb fs = sb ∧ f_it fs = table ∧ f_loc fs = replicate 16 0 ∧
  tx (BS := bio_spec 1 1) 1 1 2 (f_l fs) ctl [] (dread disk) ∅ ∅ disk.
Proof.
  pose proof (binit_rep 1 1 disk ltac:(lia)) as Hb.
  destruct (proj1 (wp_Ret _ _ _) Hb) as ([] & s & _ & Hs). clear Hb.
  exists (FState (LState s in_op) sb table (replicate 16 0) tt []). split_and!; [done..|].
  split; [|apply lh_ok_nil|done|exact Hs]. split_and!; vm_compute; done.
Qed.

Lemma room k : k ≤ 29 → log_room ctl [] k.
Proof. intros Hk. unfold log_room, ctl, LOGSIZE, MAXOPBLOCKS. cbn [length]. lia. Qed.

Lemma croom k : (k ≤ 30)%nat → cache_room [] ∅ k.
Proof. intros Hk. unfold cache_room. rewrite map_size_empty. cbn [length]. change NBUF with 30%nat. lia. Qed.

(** Checking a property of every number below a bound. *)
Lemma forall_seq (P : nat → bool) n : forallb P (seq 0 n) = true → ∀ i, (i < n)%nat → P i = true.
Proof. intros Hall i Hi. rewrite forallb_forall in Hall. apply Hall, in_seq. lia. Qed.

Lemma used b : 0 ≤ b < 236 → in_use sb (dread disk) b = true.
Proof.
  intros Hb. rewrite <-(Z2Nat.id b) by lia.
  apply (forall_seq (λ i, in_use sb (dread disk) (Z.of_nat i)) 236); [by vm_compute|lia].
Qed.

Lemma meta : meta_used sb (dread disk).
Proof. intros b Hb. apply used. change (nmeta sb) with 234 in Hb. lia. Qed.

(** The file and the directory have one block each. *)
Lemma one_block dd b :
  d_addrs dd = b :: replicate 12 0 → (b = 234 ∨ b = 235) →
  (∀ i, ptr_at (dread disk) dd i = if decide (i = O) then b else 0) ∧ ino_ok sb (dread disk) dd.
Proof.
  intros Ha Hb. assert (∀ i, ptr_at (dread disk) dd i = if decide (i = O) then b else 0) as Hp.
  { intros i. unfold ptr_at. rewrite Ha. case_decide as Hi; [|rewrite decide_False by places; done].
    do 13 (destruct i as [|i]; [done|]). exfalso. places. }
  split; [done|]. split; [by rewrite Ha| |].
  - intros i _. rewrite Hp. case_decide; [|done]. intros _. split; [|apply used; lia].
    change (nmeta sb) with 234. cbn. lia.
  - intros i j _ _. rewrite !Hp. repeat case_decide; lia.
Qed.

Lemma one_allocated dd b :
  d_addrs dd = b :: replicate 12 0 → (b = 234 ∨ b = 235) → 0 ≤ d_size dd ≤ BSIZE →
  allocated (dread disk) dd 0 (d_size dd).
Proof.
  intros Ha Hb Hs o Ho. destruct (one_block dd b Ha Hb) as [Hp _].
  replace (o / BSIZE) with 0 by (unfold BSIZE in *; zlia). rewrite Hp, decide_True by done. lia.
Qed.

Lemma wf dd b n :
  d_addrs dd = b :: replicate 12 0 → (b = 234 ∨ b = 235) → 0 ≤ d_size dd ≤ BSIZE →
  d_type dd = n → 0 ≤ n < 4 → d_major dd = 0 → d_minor dd = 0 → 0 ≤ d_nlink dd < 2 → d_mode dd = 6 →
  dinode_wf dd.
Proof.
  intros Ha Hb Hs <- Ht Hma Hmi Hn Hmo. split; try lia.
  - unfold BSIZE in *. lia.
  - by rewrite Ha.
  - rewrite Ha. constructor; [lia|]. apply Forall_replicate. lia.
Qed.

Lemma dir_wf : dinode_wf dir_ino.
Proof. eapply wf; [done|by left|by vm_compute|done|by vm_compute|done|done|by vm_compute|done]. Qed.

Lemma file_wf : dinode_wf file_ino.
Proof. eapply wf; [done|by right|by vm_compute|done|by vm_compute|done|done|by vm_compute|done]. Qed.

Lemma table_ok : itable_ok table.
Proof.
  split.
  - intros i x Hx. do 3 (destruct i as [|i]; [injection Hx as <-; cbn; lia|]). done.
  - intros i j x y Hx Hy (Hr & _ & _) (Hr' & _ & Hi).
    do 3 (destruct i as [|i]; [injection Hx as <-; do 3 (destruct j as [|j]; [injection Hy as <-; done|]); done|]).
    done.
Qed.

Lemma dir : dir_ok (dread disk) dir_ino.
Proof.
  split; [done|done|by vm_compute|]. eapply one_allocated; [done|lia|by vm_compute].
Qed.

Lemma file_alloc : allocated (dread disk) file_ino 0 5.
Proof. apply (one_allocated file_ino 235); [done|by right|by vm_compute]. Qed.

Lemma dir_pre (fs : fstate (bstate block_map) unit) :
  f_sb fs = sb → f_it fs = table → tx 1 1 2 (f_l fs) ctl [] (dread disk) ∅ ∅ disk →
  ino_pre 1 1 2 sb fs 0 x_dir ctl [] (dread disk) disk.
Proof.
  intros Hsb Hit Htx. split; [done|by rewrite Hit|done|done|apply meta|].
  apply (one_block dir_ino 234); [done|by left].
Qed.

Lemma file_pre (fs : fstate (bstate block_map) unit) :
  f_sb fs = sb → f_it fs = table → tx 1 1 2 (f_l fs) ctl [] (dread disk) ∅ ∅ disk →
  ino_pre 1 1 2 sb fs 1 x_file ctl [] (dread disk) disk.
Proof.
  intros Hsb Hit Htx. split; [done|by rewrite Hit|done|done|apply meta|].
  apply (one_block file_ino 235); [done|by right].
Qed.

Lemma free_slot (fs : fstate (bstate block_map) unit) :
  f_it fs = table → ∃ k y, f_it fs !! k = Some y ∧ i_ref y = 0.
Proof. intros ->. by exists 2%nat, zero_inode. Qed.

Lemma known_dir : ino_known 1 sb x_dir.
Proof. split; [done|by vm_compute]. Qed.

Lemma known_file : ino_known 1 sb x_file.
Proof. split; [done|by vm_compute]. Qed.
End Demo.

(** The superblock [sb] was read from device [dev], and the log is at [start]. *)
Record mounted (dev start : Z) (sb : superblock) : Prop := {
  mo_log : 0 ≤ start ∧ start + LOGSIZE < 2147483648;
  mo_dev : u32 dev = dev;
  mo_geometry : geometry start sb
}.

Lemma demo_mounted : mounted 1 2 Demo.sb.
Proof. split; [apply Demo.start_ok|done|apply Demo.geom]. Qed.

Section theorems.
Context {D U : Type} `{HD : DiskDev D} `{HL : !DiskLaws D} `{UM : UserMem U} `{UL : !UserMemLaws U}.
Implicit Types (fs : fstate (bstate D) U) (L : list Z) (v : Z → block) (d : D).

(** C30: [balloc] returns the first free block, marked in use and filled with
    zeros, and changes no other block than the one of the free map with its
    bit; it returns 0 only if no block is free, and then the disk is
    unchanged. *)
Theorem balloc_correct dev me start sb fs c L v d :
  mounted dev start sb → f_sb fs = sb → tx dev me start (f_l fs) c L v ∅ ∅ d → meta_used sb v →
  log_room c L 2 → cache_room L ∅ 2 →
  wp (balloc me dev) fs (λ a fs', ∃ v' L', tx dev me start (f_l fs') c L' v' ∅ ∅ d ∧
    if decide (a = 0) then v' = v ∧ ∀ b, 0 ≤ b < sb_size sb → in_use sb v b = true
    else nmeta sb ≤ a < sb_size sb ∧ in_use sb v a = false ∧
      (∀ b, 0 ≤ b < a → in_use sb v b = true) ∧ v' a = zero_block ∧
      (∀ b, 0 ≤ b < sb_size sb → in_use sb v' b = if decide (b = a) then true else in_use sb v b) ∧
      ∀ b, b ≠ a → b ≠ BBLOCK a sb → v' b = v b).
Proof.
  intros [Hst Hdev Hg] Hsb Htx Hm Hr Hcr. pose proof (nmeta_bounds start sb Hg).
  eapply (balloc_spec dev me start sb Hst Hdev Hg); [done..|by apply alloc_ok_none|done|done| |].
  - intros Hall l Htx'. exists v, L. by rewrite decide_True.
  - intros a l Ha Hu Hfirst Htx'. eexists _, _. split; [exact Htx'|]. rewrite decide_False by lia.
    split_and!; try done; try lia.
    + apply alloc_view_eq.
    + intros b Hb. assert (∀ b, length (v b) = BLK) as Hlen by (intros b0; exact (tx_length _ _ _ _ _ _ _ _ _ _ b0 Htx)).
      rewrite (in_use_alloc start sb Hg) by (done || lia). repeat case_decide; congruence.
    + intros b. apply alloc_view_ne.
Qed.

(** C21: [readi] copies exactly the bytes of the file from [off] on, as many as
    were asked for and the file has, to the kernel buffer or to user space, and
    returns their number; neither the disk nor the inode table changes. *)
Theorem readi_correct dev me start fs ip x user dst c L v d off n :
  let k := Z.min n (d_size (i_d x) - off) in
  f_it fs !! ip = Some x → i_dev x = dev → length (d_addrs (i_d x)) = NADDR →
  tx dev me start (f_l fs) c L v ∅ ∅ d → cache_room L ∅ 1 →
  0 ≤ off ≤ d_size (i_d x) → 0 ≤ n → off + n < 4294967296 → d_size (i_d x) ≤ MAXFILE * BSIZE →
  allocated v (i_d x) off k → can_sink user dst (fbytes v (i_d x) off (Z.to_nat k)) fs →
  wp (readi me ip user dst off n) fs (λ r fs', r = k ∧ tx dev me start (f_l fs') c L v ∅ ∅ d ∧
    sink_post user dst (fbytes v (i_d x) off (Z.to_nat k)) fs fs').
Proof. intros. by apply (readi_spec dev me start). Qed.


(** a [writei] of at most three blocks, the most kernel/file.c passes to one
    transaction, puts no more than [MAXOPBLOCKS] blocks into the log: those it
    writes, the indirect block, the inode and the blocks of the free map (up to
    four of them, a disk of 32768 blocks). *)
Theorem writei_fits_reservation dev me start sb fs ip x user src c L v d off bs :
  let n := Z.of_nat (length bs) in
  let lim := (per_round * (Z.to_nat (rounds off n 0) - 1))%nat in
  mounted dev start sb → ino_pre dev me start sb fs ip x c L v d → ino_known dev sb x →
  dinode_wf (i_d x) → 0 ≤ off ≤ d_size (i_d x) → d_size (i_d x) ≤ MAXFILE * BSIZE →
  off + n ≤ MAXFILE * BSIZE → allocated v (i_d x) 0 (d_size (i_d x)) → source user src bs fs →
  log_room c L (Z.of_nat lim + 1) → cache_room L ∅ (lim + 1) →
  n ≤ 3 * BSIZE → (nbitmap sb ≤ 4)%nat →
  wp (writei me ip user src off n) fs (λ _ fs', ∃ L' v',
    tx dev me start (f_l fs') c L' v' ∅ ∅ d ∧ Z.of_nat (length L') ≤ Z.of_nat (length L) + MAXOPBLOCKS).
Proof.
  intros n lim [Hst Hdev Hg] Hpre Hkn Hwf Hoff Hsz Hmax Hal Hsrc Hr Hcr Hn Hnb.
  eapply wp_mono; [by apply (writei_spec dev me start sb Hst Hdev Hg fs ip x user src c L v d off bs)|].
  intros r fs' (k & v' & x' & L' & _ & _ & _ & _ & _ & _ & Htx & Hb). exists L', v'. split; [done|].
  pose proof (log_count sb start L L' _ Hg (proj1 (tx_ok _ _ _ _ _ _ _ _ _ _ Htx)) Hb) as Hc.
  unfold touched in Hc. cbn [length] in Hc. rewrite length_fmap, length_seqZ in Hc.
  assert (span off n ≤ 4) by (unfold span, BSIZE in *; destruct (n <=? 0); zlia).
  fold n in Hc. unfold MAXOPBLOCKS. lia.
Qed.

(** C23: giving back the last reference to an inode that has no links deletes the
    file: its blocks, the indirect one included, and no others become free, the
    inode on disk is empty with type 0, and the table entry is free again. *)
Theorem iput_deletes dev me start sb fs ip x c L v d :
  mounted dev start sb → ino_pre dev me start sb fs ip x c L v d → ino_known dev sb x → dinode_wf (i_d x) →
  i_ref x = 1 → i_valid x ≠ 0 → d_nlink (i_d x) = 0 → sl_locked (i_lock x) = 0 →
  log_room c L (Z.of_nat (nbitmap sb) + 2) → cache_room L ∅ (nbitmap sb + 3) →
  wp (iput me ip) fs (λ _, iput_post dev me start sb fs ip x c L v d).
Proof. intros [Hst Hdev Hg] **. by apply (iput_drop dev me start sb Hst Hdev Hg). Qed.

(** C33: an inode written with [iupdate] and dropped from memory is read back
    unchanged by [ilock]. *)
Theorem inode_roundtrip dev me start sb fs ip x c L v d :
  mounted dev start sb → f_sb fs = sb → f_it fs !! ip = Some x → ino_known dev sb x → dinode_wf (i_d x) →
  d_type (i_d x) ≠ 0 → 1 ≤ i_ref x → sl_locked (i_lock x) = 0 →
  tx dev me start (f_l fs) c L v ∅ ∅ d → log_room c L 1 → cache_room L ∅ 2 →
  wp (iupdate me ip ;; setino ip (λ y, iset_valid 0 (iset_d zero_dinode y)) ;; ilock me ip) fs (λ _ fs',
    f_it fs' = <[ip := iset_lock (SleepLock 1 me) (iset_valid 1 x)]> (f_it fs)).
Proof.
  intros [Hst Hdev Hg] Hsb Hit [Hxd Hin] Hwf Hty Href Hlk Htx Hr Hcr.
  pose proof (lookup_lt_Some _ _ _ Hit) as Hlt.
  assert (∀ b, length (v b) = BLK) as Hlen by (intros b0; exact (tx_length _ _ _ _ _ _ _ _ _ _ b0 Htx)).
  wp_step. eapply (iupdate_spec dev me start sb Hst Hg); [done..|by split|exact Htx|set_solver|done| |].
  { eapply cache_room_le; [done|lia]. }
  intros l1 Htx1. wp_step. eapply wp_setino; [exact Hit|].
  assert (ilock_ino me sb (iupdate_view sb v x) (iset_valid 0 (iset_d zero_dinode x)) =
    iset_lock (SleepLock 1 me) (iset_valid 1 x)) as Hx'.
  { unfold ilock_ino, iupdate_view. cbn [i_valid iset_lock iset_valid iset_d Z.eqb i_inum].
    rewrite fn_lookup_insert, dinode_get_put; [by destruct x|done|]. rewrite Hlen. apply dinode_off_lt. }
  eapply (ilock_spec dev me start sb Hst Hg _ ip (iset_valid 0 (iset_d zero_dinode x)));
    [done|by apply list_lookup_insert_eq|by split|exact Htx1|set_solver| |done|done| |].
  - unfold cache_room in *. pose proof (log_add_length L (IBLOCK (i_inum x) sb)). lia.
  - by rewrite Hx'.
  - intros l2 Htx2. rewrite Hx'. cbn. by rewrite list_insert_insert_eq.
Qed.

(** [dirlookup] returns the inode, and the offset, of the first entry in use
    with the name, with one more reference to it in the inode table; it returns
    0 if and only if no entry has the name. The disk is unchanged. *)
Theorem dirlookup_correct dev me start fs dp x c L v d name :
  f_it fs !! dp = Some x → i_dev x = dev → length (d_addrs (i_d x)) = NADDR → dir_ok v (i_d x) →
  length (f_loc fs) = 16%nat → tx dev me start (f_l fs) c L v ∅ ∅ d → cache_room L ∅ 1 →
  itable_ok (f_it fs) → (∃ k y, f_it fs !! k = Some y ∧ i_ref y = 0) →
  wp (dirlookup me dp name) fs (λ r fs', tx dev me start (f_l fs') c L v ∅ ∅ d ∧ itable_ok (f_it fs') ∧
    match r with
    | None => dir_absent v (i_d x) name ∧ f_it fs' = f_it fs
    | Some (ip, off) => ∃ k, off = 16 * Z.of_nat k ∧ dir_first v (i_d x) name k ∧
        iget_post dev (de_inum (dent v (i_d x) k)) (f_it fs) ip (f_it fs')
    end).
Proof.
  intros Hit Hxd Hal Hdir Hloc Htx Hcr Htab Hfree.
  eapply (dirlookup_spec dev me start c L v d dp x); [done..|by split|done|done| |].
  - intros Habs fs' [? Hi ? ? ?]. by rewrite Hi.
  - intros k fs' ip it' Hk [? ? ? ? ?] Hg. split_and!; [done|by eapply iget_table_ok|]. by exists k.
Qed.


(** [iget] returns the one entry of the inode table that stands for the
    inode, with one more reference; it takes a free entry, to be read from the
    disk, only if there is none, and panics only if no entry is free. Two
    entries never stand for the same inode. *)
Theorem iget_unique dev inum fs :
  itable_ok (f_it fs) →
  match iget (S := bstate D) dev inum fs with
  | Ret ip fs' => iget_post dev inum (f_it fs) ip (f_it fs') ∧ itable_ok (f_it fs')
  | Panic _ => ∀ i x, f_it fs !! i = Some x → ¬ active dev inum x ∧ i_ref x ≠ 0
  | _ => False
  end.
Proof.
  intros Htab. destruct (decide (Exists (λ x, active dev inum x ∨ i_ref x = 0) (f_it fs))) as [He|He].
  - apply Exists_exists in He as (x & [i Hi]%list_elem_of_lookup & Hx).
    assert (wp (iget dev inum) fs (λ ip fs', iget_post dev inum (f_it fs) ip (f_it fs') ∧ itable_ok (f_it fs'))) as Hwp.
    { apply iget_spec; [by eauto|]. intros ip it' Hp. split; [done|by eapply iget_table_ok]. }
    apply wp_Ret in Hwp as (ip & fs' & -> & Hp). exact Hp.
  - rewrite <-Forall_Exists_neg in He.
    assert (∀ i x, f_it fs !! i = Some x → ¬ active dev inum x ∧ i_ref x ≠ 0) as Hno.
    { intros i x Hi. pose proof (Forall_lookup_1 _ _ _ _ He Hi) as Hx. cbn in Hx. tauto. }
    by rewrite (iget_none fs dev inum Hno).
Qed.
End theorems.

(** [skipelem] takes the first component off a path: it returns 0 exactly
    if the path has none, and otherwise leaves a shorter path with the
    remaining components and no leading slash, and the component, cut to
    [DIRSIZ] bytes, in the name buffer. *)
Theorem skipelem_correct path name :
  length name = DIRSIZ → 0 ∉ path →
  match skipelem path name with
  | None => components path = []
  | Some (name', rest) =>
      ∃ s, components path = s :: components rest ∧ length name' = DIRSIZ ∧
        cstr DIRSIZ (list_ptr name') = take DIRSIZ s ∧
        (rest = [] ↔ components rest = []) ∧ (length rest < length path)%nat ∧ (0 ∉ rest)
  end.
Proof. apply skipelem_spec. Qed.

Lemma balloc_correct_witness : ∃ (fs fs' : fstate (bstate block_map) unit),
  f_sb fs = Demo.sb ∧ balloc 1 1 fs = Ret 236 fs'.
Proof.
  destruct Demo.kernel as (fs & Hsb & _ & _ & Htx).
  pose proof (Demo.room 2 ltac:(lia)) as Hr. pose proof (Demo.croom 2 ltac:(lia)) as Hcr.
  destruct (proj1 (wp_Ret _ _ _) (balloc_correct 1 1 2 Demo.sb fs _ _ _ _ demo_mounted Hsb Htx Demo.meta Hr Hcr))
    as (a & fs' & Hrun & v' & L' & _ & Hpost).
  exists fs, fs'. split; [exact Hsb|]. rewrite Hrun. f_equal.
  assert (in_use Demo.sb (dread Demo.disk) 236 = false) as H236 by (by vm_compute).
  destruct (decide (a = 0)) as [->|Ha].
  - destruct Hpost as [_ Hall]. rewrite Hall in H236 by (cbn; lia). done.
  - destruct Hpost as (Hrng & Hu & Hfirst & _). destruct (Z.lt_trichotomy a 236) as [Hlt|[->|Hgt]]; [|done|].
    + change (nmeta Demo.sb) with 234 in Hrng. rewrite Demo.used in Hu by lia. done.
    + rewrite Hfirst in H236 by lia. done.
Defined.

(** Reading the file of five bytes from its second byte on. *)
Lemma readi_correct_witness : ∃ (fs fs' : fstate (bstate block_map) unit),
  f_it fs = Demo.table ∧ readi 1 1 false 0 1 10 fs = Ret 4 fs' ∧
  f_loc fs' = [101; 108; 108; 111] ++ replicate 12 0.
Proof.
  destruct Demo.kernel as (fs & _ & Hit & Hloc & Htx).
  assert (f_it fs !! 1%nat = Some Demo.x_file) as Hx by (by rewrite Hit).
  assert (allocated (dread Demo.disk) Demo.file_ino 1 4) as Hal by (intros o Ho; apply Demo.file_alloc; lia).
  assert (can_sink false 0 (fbytes (dread Demo.disk) Demo.file_ino 1 4) fs) as Hs.
  { unfold can_sink. rewrite Hloc, length_fbytes, length_replicate. lia. }
  destruct (proj1 (wp_Ret _ _ _) (readi_correct 1 1 2 fs 1 Demo.x_file false 0 Demo.ctl [] _ _ 1 10
    Hx eq_refl eq_refl Htx (Demo.croom 1 ltac:(lia)) ltac:(cbn; lia) ltac:(lia) ltac:(lia)
    ltac:(by vm_compute) Hal Hs)) as (r & fs' & Hrun & -> & _ & _ & _ & _ & _ & Hl).
  exists fs, fs'. split; [exact Hit|]. split; [exact Hrun|]. rewrite Hl, Hloc. by vm_compute.
Defined.

Lemma demo_source (fs : fstate (bstate block_map) unit) :
  f_loc fs = replicate 16 0 → source false 0 [0; 0; 0; 0] fs.
Proof. intros Hl. unfold source. rewrite Hl. split_and!; by vm_compute. Qed.


Lemma writei_fits_reservation_witness : ∃ (fs fs' : fstate (bstate block_map) unit) r,
  f_it fs = Demo.table ∧ writei 1 1 false 0 5 4 fs = Ret r fs' ∧ lh_n (l_lh (l_log (f_l fs'))) ≤ 10.
Proof.
  destruct Demo.kernel as (fs & Hsb & Hit & Hloc & Htx).
  destruct (proj1 (wp_Ret _ _ _) (writei_fits_reservation 1 1 2 Demo.sb fs 1 Demo.x_file false 0 Demo.ctl [] _ _ 5 [0; 0; 0; 0]
    demo_mounted (Demo.file_pre fs Hsb Hit Htx) Demo.known_file Demo.file_wf ltac:(cbn; lia) ltac:(by vm_compute)
    ltac:(by vm_compute) Demo.file_alloc (demo_source fs Hloc)
    (Demo.room 13 ltac:(lia)) (Demo.croom 13 ltac:(lia)) ltac:(by vm_compute) ltac:(vm_compute; lia)))
    as (r & fs' & Hrun & L' & v' & Htx' & Hlen).
  exists fs, fs', r. split; [exact Hit|]. split; [exact Hrun|].
  destruct (tx_log _ _ _ _ _ _ _ _ _ _ Htx') as (_ & _ & _ & Hn & _). rewrite Hn.
  unfold MAXOPBLOCKS in Hlen. cbn in Hlen. lia.
Defined.

(** Deleting the file, which has no links: its block is free again. *)
Lemma iput_deletes_witness : ∃ (fs fs' : fstate (bstate block_map) unit),
  f_it fs = Demo.table ∧ iput 1 1 fs = Ret tt fs' ∧
  ∃ v' L', tx 1 1 2 (f_l fs') Demo.ctl L' v' ∅ ∅ Demo.disk ∧ in_use Demo.sb v' 235 = false.
Proof.
  destruct Demo.kernel as (fs & Hsb & Hit & Hloc & Htx).
  destruct (proj1 (wp_Ret _ _ _) (iput_deletes 1 1 2 Demo.sb fs 1 Demo.x_file Demo.ctl [] _ _
    demo_mounted (Demo.file_pre fs Hsb Hit Htx) Demo.known_file Demo.file_wf eq_refl ltac:(done) eq_refl eq_refl
    (Demo.room 3 ltac:(lia)) (Demo.croom 4 ltac:(lia))))
    as ([] & fs' & Hrun & v' & L' & Hdel & _ & _ & _ & _ & Htx' & _).
  exists fs, fs'. split; [exact Hit|]. split; [exact Hrun|]. exists v', L'. split; [exact Htx'|].
  rewrite (de_use _ _ _ _ Hdel) by (cbn; lia). apply andb_false_intro2, bool_decide_eq_false_2.
  intros [|Hn]; [lia|]. apply Hn, elem_of_blocks. right. exists 0%nat. split; [places|]. done.
Defined.

Lemma inode_roundtrip_witness : ∃ (fs fs' : fstate (bstate block_map) unit),
  f_it fs = Demo.table ∧
  (iupdate 1 1 ;; setino 1 (λ y, iset_valid 0 (iset_d zero_dinode y)) ;; ilock 1 1) fs = Ret tt fs' ∧
  ∃ x', f_it fs' !! 1%nat = Some x' ∧ i_d x' = Demo.file_ino.
Proof.
  destruct Demo.kernel as (fs & Hsb & Hit & Hloc & Htx).
  assert (f_it fs !! 1%nat = Some Demo.x_file) as Hx by (by rewrite Hit).
  destruct (proj1 (wp_Ret _ _ _) (inode_roundtrip 1 1 2 Demo.sb fs 1 Demo.x_file Demo.ctl [] _ _
    demo_mounted Hsb Hx Demo.known_file Demo.file_wf ltac:(done) ltac:(cbn; lia) eq_refl Htx
    (Demo.room 1 ltac:(lia)) (Demo.croom 2 ltac:(lia)))) as ([] & fs' & Hrun & Hit').
  exists fs, fs'. split; [exact Hit|]. split; [exact Hrun|]. eexists. rewrite Hit', Hit. done.
Defined.

(** The directory has an entry "." and none "a". *)
Lemma demo_dents :
  dir_match Demo.dot (dent (dread Demo.disk) Demo.dir_ino 0) ∧ dir_absent (dread Demo.disk) Demo.dir_ino Demo.name_a.
Proof.
  split; [split; by vm_compute|]. intros i Hi. change (ndents Demo.dir_ino) with 2%nat in Hi.
  destruct i as [|[|i]]; [| |lia]; intros [H1 H2]; vm_compute in H1, H2; done.
Qed.

Lemma dirlookup_correct_witness : ∃ (fs fs' : fstate (bstate block_map) unit),
  f_it fs = Demo.table ∧ dirlookup 1 0 Demo.name_a fs = Ret None fs'.
Proof.
  destruct Demo.kernel as (fs & Hsb & Hit & Hloc & Htx).
  assert (f_it fs !! 0%nat = Some Demo.x_dir) as Hx by (by rewrite Hit).
  assert (length (f_loc fs) = 16%nat) as Hl by (by rewrite Hloc).
  assert (itable_ok (f_it fs)) as Htab by (rewrite Hit; apply Demo.table_ok).
  destruct (proj1 (wp_Ret _ _ _) (dirlookup_correct 1 1 2 fs 0 Demo.x_dir Demo.ctl [] _ _ Demo.name_a
    Hx eq_refl eq_refl Demo.dir Hl Htx (Demo.croom 1 ltac:(lia)) Htab (Demo.free_slot fs Hit)))
    as (r & fs' & Hrun & _ & _ & Hr).
  exists fs, fs'. split; [exact Hit|]. rewrite Hrun. destruct r as [[ip off]|]; [|done].
  destruct Hr as (k & _ & (Hk & Hm & _) & _). exfalso. by eapply (proj2 demo_dents).
Defined.


Lemma iget_unique_witness : ∃ (fs fs' : fstate (bstate block_map) unit) ip,
  f_it fs = Demo.table ∧ iget 1 2 fs = Ret ip fs' ∧ itable_ok (f_it fs').
Proof.
  destruct Demo.kernel as (fs & Hsb & Hit & Hloc & Htx).
  assert (itable_ok (f_it fs)) as Htab by (rewrite Hit; apply Demo.table_ok).
  pose proof (iget_unique 1 2 fs Htab) as Hg. exists fs.
  destruct (iget 1 2 fs) as [ip fs'| | | |] eqn:E; try by destruct Hg.
  - exists fs', ip. split; [exact Hit|]. split; [reflexivity|exact (proj2 Hg)].
  - exfalso. rewrite Hit in Hg. destruct (Hg 2%nat zero_inode eq_refl) as [_ Hn]. by apply Hn.
Defined.

(** The path "/a//b". *)
Lemma skipelem_correct_witness : ∃ name' rest,
  skipelem [47; 97; 47; 47; 98] (replicate DIRSIZ 1) = Some (name', rest) ∧
  components rest = [[98]] ∧ cstr DIRSIZ (list_ptr name') = [97].
Proof.
  assert (0 ∉ [47; 97; 47; 47; 98]) as H0 by set_solver.
  pose proof (skipelem_correct [47; 97; 47; 47; 98] (replicate DIRSIZ 1) (length_replicate _ _) H0) as Hs.
  destruct (skipelem _ _) as [[name' rest]|]; [|by vm_compute in Hs].
  destruct Hs as (s & Hc & _ & Hn & _). exists name', rest. split; [reflexivity|].
  vm_compute in Hc. injection Hc as Hs Hrest. subst s. split; [exact (eq_sym Hrest)|exact Hn].
Defined.
