(* ===== verification/UserSpace.v ===== *)
(** * The memory of a process, as the file system sees it

    The reference copies of VmCopy are an instance of the interface that fs.c's
    model uses; [copyout], [copyin] and [copyinstr] of kernel/vm.c implement
    them on the page tables. *)
From Stdlib Require Import ZArith Lia.
From stdpp Require Import prelude gmap strings.
From S2P Require Import Prelude Bytes Param Str UserMem Riscv PhysMem Kalloc Vm VmSpec VmMap VmGrow VmCopy VmTheorems Fs FsRw.

#[local] Opaque memset st64 memmove.

(** The process with address space [D]. *)
Definition vm_mem (D : gmap Z Z) : UserMem mem := {|
  ucopyout m va l := acopyout D m va l;
  ucopyin m va n := acopyin D m va n;
  ucopyinstr m va n := acopyinstr D m va n
|}.

Lemma length_acopyin D m va n l : acopyin D m va n = (l, true) → length l = n.
Proof.
  revert va l. induction n as [|n IH]; intros va l; cbn [acopyin]; [by intros [= <-]|].
  destruct (utrans D PTE_V va); [|done]. destruct (acopyin D m (va + 1) n) as [l' ok] eqn:E.
  intros [= <- ->]. cbn [length]. f_equal. by eapply IH.
Qed.

Lemma vm_mem_laws D : @UserMemLaws mem (vm_mem D).
Proof.
  split; cbn [ucopyout ucopyin vm_mem].
  - intros m dst a b _ _. apply acopyout_app.
  - done.
  - intros m src n1 n2 l _ _ Hl. pose proof (length_acopyin _ _ _ _ _ Hl) as Hlen. split; [done|].
    rewrite acopyin_app in Hl. destruct (acopyin D m src n1) as [l1 []] eqn:E1; [|done].
    destruct (acopyin D m (src + Z.of_nat n1) n2) as [l2 ok2] eqn:E2. injection Hl as <- ->.
    pose proof (length_acopyin _ _ _ _ _ E1) as Hl1. split; f_equal.
    + by rewrite take_app_length'.
    + by rewrite drop_app_length'.
Qed.

(** C19: [copyout] writes exactly the bytes the reference copy does, page table
    walk by page table walk: it returns 0 when every byte goes to a page the
    user may write, else -1 after the bytes before the first such page; the
    page tables and free pages are untouched. *)
Theorem copyout_correct kend s L T D root va src :
  KERNBASE ≤ kend → aspace kend s L T D root → user_pages kend L T D → 0 ≤ va < 18446744073709551616 →
  let '(m', ok) := @ucopyout _ (vm_mem D) (k_mem s) va src in
  copyout root va src s = Ret (if ok then 0 else -1) (kset_mem m' s) ∧ aspace kend (kset_mem m' s) L T D root.
Proof. intros Hend Has Hu Hva. apply (copyout_loop_spec kend Hend); (done || lia). Qed.

(** [copyin] reads the bytes the reference copy does, and returns 0 if and
    only if every byte is in a page the user may access. *)
Theorem copyin_correct kend s L T D root va len :
  KERNBASE ≤ kend → aspace kend s L T D root → user_pages kend L T D → 0 ≤ va < 18446744073709551616 → 0 ≤ len →
  let '(l, ok) := @ucopyin _ (vm_mem D) (k_mem s) va (Z.to_nat len) in
  copyin root va len s = Ret (l, if ok then 0 else -1) s.
Proof.
  intros Hend Has Hu Hva Hlen. cbn [ucopyin vm_mem]. unfold copyin.
  rewrite (copyin_loop_spec kend Hend _ s L T D root va len) by (done || lia). by destruct (acopyin _ _ _ _).
Qed.

(** C34: [copyinstr] returns 0 exactly when a null byte is among the first [max]
    bytes at [va] and every byte up to it is accessible; what it stores is then
    the string with its null byte. *)
Theorem copyinstr_correct kend s L T D root va max :
  KERNBASE ≤ kend → aspace kend s L T D root → user_pages kend L T D → 0 ≤ va < 18446744073709551616 → 0 ≤ max →
  ∃ l r, copyinstr root va max s = Ret (l, r) s ∧
    match @ucopyinstr _ (vm_mem D) (k_mem s) va (Z.to_nat max) with Some l' => l = l' ∧ r = 0 | None => r = -1 end.
Proof. intros Hend Has Hu Hva Hlen. apply (copyinstr_loop_spec kend Hend _ s L T D root); (done || lia). Qed.

Lemma process_pages L T D :
  (∀ v, is_Some (D !! v) ↔ 0 ≤ v < 1) → owns demo_kend L T D (vrange 0 1) → user_pages demo_kend L T D.
Proof.
  intros Hdom Hown. split.
  - intros v e He. assert (0 ≤ v < 1) by (apply Hdom; eauto). change (NVPN / 2) with 67108864. lia.
  - intros v e He _. assert (0 ≤ v < 1) as Hv by (apply Hdom; eauto). assert (v = 0) as -> by lia.
    apply (ow_page _ _ _ _ _ Hown). cbn. rewrite He. left.
Qed.

Lemma copyout_correct_witness : ∃ s root r s', copyout root 100 [1; 2; 3] s = Ret r s'.
Proof.
  destruct demo_process as (s & L & T & D & root & Has & Hdom & Hmap & Hown).
  pose proof (copyout_correct demo_kend s L T D root 100 [1; 2; 3] demo_kend_ok Has (process_pages L T D Hdom Hown) ltac:(lia)) as Hc.
  destruct (@ucopyout _ (vm_mem D) (k_mem s) 100 [1; 2; 3]) as [m' ok]. destruct Hc as [Hc _].
  exists s, root, (if ok then 0 else -1), (kset_mem m' s). exact Hc.
Defined.

Lemma copyin_correct_witness : ∃ s root l r, copyin root 4090 10 s = Ret (l, r) s.
Proof.
  destruct demo_process as (s & L & T & D & root & Has & Hdom & Hmap & Hown).
  pose proof (copyin_correct demo_kend s L T D root 4090 10 demo_kend_ok Has (process_pages L T D Hdom Hown) ltac:(lia) ltac:(lia)) as Hc.
  destruct (@ucopyin _ (vm_mem D) (k_mem s) 4090 (Z.to_nat 10)) as [l ok].
  exists s, root, l, (if ok then 0 else -1). exact Hc.
Defined.

Lemma copyinstr_correct_witness : ∃ s root l r, copyinstr root 0 128 s = Ret (l, r) s.
Proof.
  destruct demo_process as (s & L & T & D & root & Has & Hdom & Hmap & Hown).
  destruct (copyinstr_correct demo_kend s L T D root 0 128 demo_kend_ok Has (process_pages L T D Hdom Hown) ltac:(lia) ltac:(lia)) as (l & r & Hc & _).
  exists s, root, l, r. exact Hc.
Defined.
