(* ===== verification/File.v ===== *)
(** * Open files: kernel/file.c, and [pipealloc] and [pipeclose] of kernel/pipe.c

    The table of open files over the file system of Fs, the pipes of Pipe and
    the page allocator. A pipe is found by the address of its page. *)
From Stdlib Require Import ZArith Lia.
From stdpp Require Import prelude gmap strings.
From S2P Require Import Prelude Bytes Param Str UserMem Riscv PhysMem Kalloc Pipe Sleeplock BufIface Log Fs.

Inductive ftype := FD_NONE | FD_PIPE | FD_INODE | FD_DEVICE.

#[export] Instance ftype_eq_dec : EqDecision ftype.
Proof. solve_decision. Defined.

(** [fl_ref] counts descriptors, of which there are NPROC * NOFILE at most.
    [fl_pipe], [fl_ip]: 0 and [None] are the null pointer. The field
    [executable] is not used anywhere. *)
Record file := File {
  fl_type : ftype;
  fl_ref : Z;
  fl_readable : Z;
  fl_writable : Z;
  fl_pipe : Z;
  fl_ip : option nat;
  fl_off : Z;
  fl_major : Z
}.

Definition zero_file : file := File FD_NONE 0 0 0 0 None 0 0.

Definition flset_ref v f := File (fl_type f) v (fl_readable f) (fl_writable f) (fl_pipe f) (fl_ip f) (fl_off f) (fl_major f).
Definition flset_type v f := File v (fl_ref f) (fl_readable f) (fl_writable f) (fl_pipe f) (fl_ip f) (fl_off f) (fl_major f).
Definition flset_off v f := File (fl_type f) (fl_ref f) (fl_readable f) (fl_writable f) (fl_pipe f) (fl_ip f) v (fl_major f).
Definition flset_major v f := File (fl_type f) (fl_ref f) (fl_readable f) (fl_writable f) (fl_pipe f) (fl_ip f) (fl_off f) v.
Definition flset_ip v f := File (fl_type f) (fl_ref f) (fl_readable f) (fl_writable f) (fl_pipe f) v (fl_off f) (fl_major f).
Definition flset_rw r w f := File (fl_type f) (fl_ref f) r w (fl_pipe f) (fl_ip f) (fl_off f) (fl_major f).
Definition flset_pipe v f := File (fl_type f) (fl_ref f) (fl_readable f) (fl_writable f) v (fl_ip f) (fl_off f) (fl_major f).

(** [fl_killed]: [killed(myproc())]. [fl_woken]: the channels [wakeup] has been
    called on. *)
Record fls (S U : Type) := Fls {
  fl_k : kmem;
  fl_files : list file;
  fl_pipes : gmap Z pipe;
  fl_fs : fstate S U;
  fl_killed : bool;
  fl_woken : list chan
}.
Arguments Fls {S U}.
Arguments fl_k {S U}.
Arguments fl_files {S U}.
Arguments fl_pipes {S U}.
Arguments fl_fs {S U}.
Arguments fl_killed {S U}.
Arguments fl_woken {S U}.

Definition flset_k {S U} v (s : fls S U) : fls S U := Fls v (fl_files s) (fl_pipes s) (fl_fs s) (fl_killed s) (fl_woken s).
Definition flset_files {S U} v (s : fls S U) : fls S U := Fls (fl_k s) v (fl_pipes s) (fl_fs s) (fl_killed s) (fl_woken s).
Definition flset_pipes {S U} v (s : fls S U) : fls S U := Fls (fl_k s) (fl_files s) v (fl_fs s) (fl_killed s) (fl_woken s).
Definition flset_fs {S U} v (s : fls S U) : fls S U := Fls (fl_k s) (fl_files s) (fl_pipes s) v (fl_killed s) (fl_woken s).
Definition flset_woken {S U} v (s : fls S U) : fls S U := Fls (fl_k s) (fl_files s) (fl_pipes s) (fl_fs s) (fl_killed s) v.

(** [struct stat] as it is laid out in memory; [pad] are the bytes between its
    fields. *)
Definition stat_bytes (pad : list Z) (st : stat) : list Z :=
  le_bytes 4 (st_dev st) ++ le_bytes 4 (st_ino st) ++ le_bytes 2 (st_type st) ++ le_bytes 2 (st_nlink st) ++
  take 4 pad ++ le_bytes 8 (st_size st) ++ le_bytes 2 (st_mode st) ++ take 6 (drop 4 pad).

(** The channels of the pipe at [pi]. *)
Definition pipe_chan (pi : Z) (c : chan) : chan :=
  match c with Chan name _ => Chan name (Z.to_nat (pi / PGSIZE)) end.

Section code.
Context {S U : Type} `{BufOps S} `{UserMem U} (me kend : Z).
Abbreviation FLM := (M (fls S U)).

(** [devsw]: the functions of a device, which take a user address and a count
    and return a count. *)
Context (dev_read dev_write : Z → option (Z → Z → FLM pres)).

Definition flk {A} (m : M kmem A) : FLM A := lift fl_k flset_k m.
Definition flf {A} (m : M (fstate S U) A) : FLM A := lift fl_fs flset_fs m.
Definition fll {A} (m : M (lstate S) A) : FLM A := flf (onl m).
Definition flwake (c : chan) : FLM unit := modify (λ s, flset_woken (fl_woken s ++ [c]) s).

(** [log.c]'s [end_op] calls [wakeup(&log)] on either branch. *)
Definition fl_begin_op : FLM unit := fll begin_op.
Definition fl_end_op : FLM unit := fll (end_op me) ;; flwake logchan.

Definition getfile (f : nat) : FLM file := s ← mget; mnth (fl_files s !! f).
Definition setfile (f : nat) (g : file → file) : FLM unit :=
  modify (λ s, flset_files (alter g f (fl_files s)) s).

(** Runs a function of pipe.c on the pipe at [pi]. *)
Definition on_pipe {A} (pi : Z) (m : M (pst U) A) : FLM A :=
  s ← mget;
  p ← mnth (fl_pipes s !! pi);
  lift (λ s, PSt p (f_mem (fl_fs s)) (fl_killed s) [])
    (λ r s, Fls (fl_k s) (fl_files s) (<[pi := ps_pipe r]> (fl_pipes s)) (fset_mem (ps_mem r) (fl_fs s)) (fl_killed s)
      (fl_woken s ++ (pipe_chan pi <$> ps_woken r))) m.

Definition filealloc : FLM (option nat) :=
  mfind (seq 0 NFILE) (λ f,
    x ← getfile f;
    if fl_ref x =? 0 then setfile f (flset_ref 1) ;; mret (Some f) else mret None).

Definition filedup (f : nat) : FLM nat :=
  x ← getfile f;
  if fl_ref x <? 1 then panic "filedup" else
  setfile f (flset_ref (fl_ref x + 1)) ;; mret f.

(** [pipeclose(pi, writable)]: the last end to be closed frees the page. *)
Definition pipe_close (pi : Z) (writable : bool) : FLM unit :=
  last ← on_pipe pi (pipeclose writable);
  mwhen last (modify (λ s, flset_pipes (delete pi (fl_pipes s)) s) ;; flk (kfree kend pi)).

Definition fileclose (f : nat) : FLM unit :=
  x ← getfile f;
  if fl_ref x <? 1 then panic "fileclose" else
  setfile f (flset_ref (fl_ref x - 1)) ;;
  if fl_ref x - 1 >? 0 then mret tt else
  setfile f (flset_ref 0) ;;
  setfile f (flset_type FD_NONE) ;;
  match fl_type x with
  | FD_PIPE => pipe_close (fl_pipe x) (negb (fl_writable x =? 0))
  | FD_INODE | FD_DEVICE =>
      fl_begin_op ;;
      ip ← mnth (fl_ip x);
      flf (iput me ip) ;;
      fl_end_op
  | FD_NONE => mret tt
  end.

(** [copyout(p->pagetable, addr, ...)] *)
Definition fl_copyout (addr : Z) (bytes : list Z) : FLM bool := flf (either_copyout true addr bytes).

Definition filestat (pad : list Z) (f : nat) (addr : Z) : FLM Z :=
  x ← getfile f;
  match fl_type x with
  | FD_INODE | FD_DEVICE =>
      ip ← mnth (fl_ip x);
      flf (ilock me ip) ;;
      st ← flf (stati ip);
      flf (iunlock me ip) ;;
      ok ← fl_copyout addr (stat_bytes pad st);
      mret (if (ok : bool) then 0 else -1)
  | _ => mret (-1)
  end.

(** Reading and writing a device is where [f->major] selects it. *)
Definition devsw (tbl : Z → option (Z → Z → FLM pres)) (major addr n : Z) : FLM pres :=
  if (major <? 0) || (major >=? NDEV) then mret (PRet (-1)) else
  match tbl major with
  | Some rw => rw addr n
  | None => mret (PRet (-1))
  end.

Definition fileread (f : nat) (addr n : Z) : FLM pres :=
  x ← getfile f;
  if fl_readable x =? 0 then mret (PRet (-1)) else
  match fl_type x with
  | FD_PIPE => on_pipe (fl_pipe x) (piperead addr n)
  | FD_DEVICE => devsw dev_read (fl_major x) addr n
  | FD_INODE =>
      ip ← mnth (fl_ip x);
      flf (ilock me ip) ;;
      x ← getfile f;
      r ← flf (readi me ip true addr (fl_off x) (u32 n));
      mwhen (r >? 0) (setfile f (flset_off (u32 (fl_off x + r)))) ;;
      flf (iunlock me ip) ;;
      mret (PRet r)
  | FD_NONE => panic "fileread"
  end.

(** [int max = ((MAXOPBLOCKS-1-1-2) / 2) * BSIZE] *)
Definition write_max : Z := (MAXOPBLOCKS - 1 - 1 - 2) / 2 * BSIZE.

(** One round of the loop of [filewrite]: [n1] bytes in a transaction. *)
Definition write_chunk (f ip : nat) (addr n1 : Z) : FLM Z :=
  fl_begin_op ;;
  flf (ilock me ip) ;;
  x ← getfile f;
  r ← flf (writei me ip true addr (fl_off x) n1);
  mwhen (r >? 0) (setfile f (flset_off (u32 (fl_off x + r)))) ;;
  flf (iunlock me ip) ;;
  fl_end_op ;;
  mret r.

Fixpoint filewrite_loop (fuel : nat) (f ip : nat) (addr n i : Z) : FLM Z :=
  match fuel with
  | O => λ _, NoFuel
  | Datatypes.S fuel =>
      if i <? n then
        let n1 := Z.min (n - i) write_max in
        r ← write_chunk f ip (u64 (addr + i)) n1;
        if negb (r =? n1) then mret i else filewrite_loop fuel f ip addr n (i + r)
      else mret i
  end.

Definition filewrite (f : nat) (addr n : Z) : FLM pres :=
  x ← getfile f;
  if fl_writable x =? 0 then mret (PRet (-1)) else
  match fl_type x with
  | FD_PIPE => on_pipe (fl_pipe x) (pipewrite addr n)
  | FD_DEVICE => devsw dev_write (fl_major x) addr n
  | FD_INODE =>
      ip ← mnth (fl_ip x);
      i ← filewrite_loop (Datatypes.S (Z.to_nat (n / write_max) + 1)) f ip addr n 0;
      mret (PRet (if i =? n then n else -1))
  | FD_NONE => panic "filewrite"
  end.

(** [pipealloc]: the two files, or -1. *)
Definition pipealloc : FLM (option (nat * nat)) :=
  let bad (f0 f1 : option nat) : FLM (option (nat * nat)) :=
    (match f0 with Some f => fileclose f | None => mret tt end) ;;
    (match f1 with Some f => fileclose f | None => mret tt end) ;;
    mret None in
  f0 ← filealloc;
  match f0 with
  | None => bad None None
  | Some f0 =>
      f1 ← filealloc;
      match f1 with
      | None => bad (Some f0) None
      | Some f1 =>
          pi ← flk kalloc;
          if pi =? 0 then bad (Some f0) (Some f1) else
          modify (λ s, flset_pipes (<[pi := pipe_new (ld_bytes (k_mem (fl_k s)) (pi + 24) 512)]> (fl_pipes s)) s) ;;
          setfile f0 (λ x, flset_pipe pi (flset_rw 1 0 (flset_type FD_PIPE x))) ;;
          setfile f1 (λ x, flset_pipe pi (flset_rw 0 1 (flset_type FD_PIPE x))) ;;
          mret (Some (f0, f1))
      end
  end.
End code.
