(* ===== verification/FsRefs.v ===== *)
(** * Reference counts of inodes: kernel/fs.c

    What every function of fs.c does to the counts of the inode table: [iget],
    [idup], [dirlookup], [ialloc] and [namei] take a reference to the inode they
    return, [iput] gives one back, and nothing else touches a count. *)
From Stdlib Require Import ZArith Lia.
From stdpp Require Import prelude strings.
From S2P Require Import Prelude Hoare Bytes Param Str UserMem Sleeplock BufIface Log Fs FsDir.

(** Counts as a function of the table index; adding to one of them. *)
Definition cnt : Type := nat → Z.
Definition addc (o : cnt) (i : nat) (d : Z) : cnt := λ j, o j + if decide (j = i) then d else 0.

Section refs.
Context {S U : Type} `{BufOps S} `{UserMem U} (me : Z).
Abbreviation FM := (M (fstate S U)).
Implicit Types (fs : fstate S U) (o : cnt).

Definition irefs o fs : Prop := ∀ ip x, f_it fs !! ip = Some x → i_ref x = o ip.

Lemma irefs_ext o o' fs : (∀ ip, o ip = o' ip) → irefs o fs → irefs o' fs.
Proof. intros Heq Hi ip x Hx. rewrite <-Heq. by apply Hi. Qed.

Lemma keep_onl {A} o (m : M (lstate S) A) : kept (irefs o) (onl m : FM A).
Proof. by apply kept_lift. Qed.

Lemma keep_fb {A} o (m : M S A) : kept (irefs o) (fb m : FM A).
Proof. by apply kept_lift. Qed.

Lemma tr_getino o ip : tr (irefs o) (getino ip : FM inode) (λ x fs, irefs o fs ∧ f_it fs !! ip = Some x).
Proof.
  unfold getino. eapply tr_bind; [apply (tr_mget _ (λ a s, irefs o s ∧ a = s)); done|]. intros a.
  intros s [Hs ->]. unfold mnth. destruct (f_it s !! ip) eqn:E; [|done]. by split.
Qed.

Lemma keep_getino o ip : kept (irefs o) (getino ip : FM inode).
Proof. eapply tr_post; [apply tr_getino|]. by intros ? ? [? _]. Qed.

Lemma tr_setino o ip f d : (∀ x, i_ref (f x) = i_ref x + d) → tr (irefs o) (setino ip f : FM unit) (λ _, irefs (addc o ip d)).
Proof.
  intros Hf. unfold setino. eapply tr_bind; [apply tr_getino|]. intros x. apply tr_modify. intros fs [Hfs Hx] j y Hy.
  unfold addc. cbn in Hy. destruct (decide (j = ip)) as [->|Hne].
  - rewrite list_lookup_insert_eq in Hy by (by eapply lookup_lt_Some). injection Hy as <-. rewrite Hf. f_equal. by apply Hfs.
  - rewrite list_lookup_insert_ne in Hy by done. rewrite Z.add_0_r. by apply Hfs.
Qed.

Lemma addc_0 o ip j : addc o ip 0 j = o j.
Proof. unfold addc. case_decide; lia. Qed.

Lemma keep_setino o ip f : (∀ x, i_ref (f x) = i_ref x) → kept (irefs o) (setino ip f : FM unit).
Proof.
  intros Hf. eapply tr_post; [apply (tr_setino o ip f 0); intros x; rewrite Hf; lia|]. intros [] s. cbv beta.
  apply irefs_ext. intros j. apply addc_0.
Qed.

Lemma keep_on_ilock {A} o ip (m : M sleeplock A) : kept (irefs o) (on_ilock ip m : FM A).
Proof.
  unfold on_ilock. eapply tr_bind; [apply tr_getino|]. intros x. 
  eapply (tr_lift _ _ _ (λ _ _, True) m _ (λ _ _ _, True)); [by intros s0 t _; destruct (m t)|done|].
  intros s a t [Hs Hx] _ j y Hy. cbn in Hy. destruct (decide (j = ip)) as [->|Hne].
  - rewrite list_lookup_insert_eq in Hy by (by eapply lookup_lt_Some). injection Hy as <-. by apply (Hs ip x).
  - rewrite list_lookup_insert_ne in Hy by done. by apply Hs.
Qed.

Lemma keep_modify o (f : fstate S U → fstate S U) : (∀ fs, f_it (f fs) = f_it fs) → kept (irefs o) (modify f).
Proof. intros Hf. apply tr_modify. intros fs Hfs ip x. rewrite Hf. apply Hfs. Qed.

Hint Resolve keep_onl keep_fb keep_getino keep_on_ilock : kept.
Hint Extern 1 (kept _ (setino _ _)) => (apply keep_setino; done) : kept.
Hint Extern 1 (kept _ (modify _)) => (apply keep_modify; done) : kept.

(** ** What keeps the counts *)

Lemma keep_printf o msg : kept (irefs o) (printf msg : FM unit).
Proof. by apply keep_modify. Qed.
Hint Resolve keep_printf : kept.

Lemma keep_bzero o dev b : kept (irefs o) (bzero me dev b : FM unit).
Proof. unfold bzero. kept. Qed.
Hint Resolve keep_bzero : kept.

Lemma keep_balloc o dev : kept (irefs o) (balloc me dev : FM Z).
Proof. unfold balloc, balloc_scan. kept. Qed.

Lemma keep_bfree o dev b : kept (irefs o) (bfree me dev b : FM unit).
Proof. unfold bfree. kept. Qed.

Lemma keep_iupdate o ip : kept (irefs o) (iupdate me ip : FM unit).
Proof. unfold iupdate. kept. Qed.
Hint Resolve keep_balloc keep_bfree keep_iupdate : kept.

Lemma keep_ilock o ip : kept (irefs o) (ilock me ip : FM unit).
Proof. unfold ilock. kept. Qed.

Lemma keep_iunlock o ip : kept (irefs o) (iunlock me ip : FM unit).
Proof. unfold iunlock. kept. Qed.

Lemma keep_bmap o ip bn : kept (irefs o) (bmap me ip bn : FM Z).
Proof. unfold bmap, bmap_alloc. kept. Qed.

Lemma keep_itrunc o ip : kept (irefs o) (itrunc me ip : FM unit).
Proof. unfold itrunc, itrunc_direct. kept. Qed.
Hint Resolve keep_ilock keep_iunlock keep_bmap keep_itrunc : kept.

Lemma keep_copyout o u dst src : kept (irefs o) (either_copyout u dst src : FM bool).
Proof. unfold either_copyout. kept. Qed.

Lemma keep_copyin o u src n : kept (irefs o) (either_copyin u src n : FM (list Z * bool)).
Proof. unfold either_copyin. kept. Qed.
Hint Resolve keep_copyout keep_copyin : kept.

Lemma keep_readi o ip u dst off n : kept (irefs o) (readi me ip u dst off n : FM Z).
Proof.
  unfold readi. assert (∀ fuel dst off n tot, kept (irefs o) (readi_loop me fuel ip u dst off n tot : FM Z)) as Hl.
  { induction fuel as [|fuel IH]; intros; cbn [readi_loop]; kept. }
  kept.
Qed.

Lemma keep_writei o ip u src off n : kept (irefs o) (writei me ip u src off n : FM Z).
Proof.
  unfold writei. assert (∀ fuel src off n tot, kept (irefs o) (writei_loop me fuel ip u src off n tot : FM (Z * Z))) as Hl.
  { induction fuel as [|fuel IH]; intros; cbn [writei_loop]; kept. }
  kept.
Qed.

Hint Resolve keep_readi keep_writei : kept.

Lemma keep_stati o ip : kept (irefs o) (stati ip : FM stat).
Proof. unfold stati. kept. Qed.

(** ** What moves them *)

(** The state after a call that returns a reference, or nothing. *)
Definition taken o (r : option nat) fs : Prop :=
  match r with Some ip => irefs (addc o ip 1) fs | None => irefs o fs end.

Lemma tr_iput o ip : tr (irefs o) (iput me ip : FM unit) (λ _, irefs (addc o ip (-1))).
Proof.
  unfold iput. eapply tr_bind; [apply keep_getino|]. intros x. eapply tr_bind; [apply (kept_mwhen (irefs o)); kept|].
  intros []. apply tr_setino. intros y. cbn. lia.
Qed.

Lemma tr_iunlockput o ip : tr (irefs o) (iunlockput me ip : FM unit) (λ _, irefs (addc o ip (-1))).
Proof. unfold iunlockput. eapply tr_bind; [apply keep_iunlock|]. intros []. apply tr_iput. Qed.

(** Giving back what was taken. *)
Lemma addc_back o ip j : addc (addc o ip 1) ip (-1) j = o j.
Proof. unfold addc. case_decide; lia. Qed.

Lemma tr_put_back o ip (m : FM unit) :
  (∀ o, tr (irefs o) m (λ _, irefs (addc o ip (-1)))) → tr (irefs (addc o ip 1)) m (λ _, irefs o).
Proof. intros Hm. eapply tr_post; [apply Hm|]. intros a fs. apply irefs_ext. intros j. apply addc_back. Qed.

Lemma tr_idup o ip : tr (irefs o) (idup ip : FM nat) (λ r, taken o (Some r)).
Proof. unfold idup. eapply tr_bind; [apply (tr_setino o ip _ 1); done|]. intros []. by apply tr_ret. Qed.

Lemma tr_iget o dev inum : tr (irefs o) (iget dev inum : FM nat) (λ r, taken o (Some r)).
Proof.
  unfold iget. eapply tr_bind; [apply (tr_mget _ (λ a s, irefs o s ∧ a = s)); done|]. intros s.
  pose proof (iget_scan_spec dev inum (f_it s) 0 None) as Hscan. destruct (iget_scan dev inum (f_it s) 0 None) as [ip|[ip|]].
  - eapply tr_pre; [|by intros ? [? _]]. eapply tr_bind; [apply (tr_setino o ip _ 1); done|]. intros []. by apply tr_ret.
  - destruct Hscan as (_ & j & x & Hj & Hx & Hr). cbn in Hj. subst j. intros fs [Hfs ->].
    unfold setino, getino, mbind, M_bind, mget, mnth. rewrite Hx. cbn. intros j y Hy. cbn in Hy.
    unfold addc. destruct (decide (j = ip)) as [->|Hne].
    + rewrite list_lookup_insert_eq in Hy by (by eapply lookup_lt_Some). injection Hy as <-. cbn. rewrite <-(Hfs ip x Hx). lia.
    + rewrite list_lookup_insert_ne in Hy by done. rewrite Z.add_0_r. by apply Hfs.
  - intros fs _. done.
Qed.

Lemma tr_dirlookup o dp name : tr (irefs o) (dirlookup me dp name : FM (option (nat * Z))) (λ r, taken o (fst <$> r)).
Proof.
  unfold dirlookup. eapply tr_bind; [apply keep_getino|]. intros x. destruct (negb _); [by intros ? _|].
  generalize (dir_fuel (d_size (i_d x))) 0. intros fuel. induction fuel as [|fuel IH]; intros off; cbn [dirlookup_loop]; [by intros ? _|].
  eapply tr_bind; [apply keep_getino|]. intros y. destruct (off <? _); [|by apply tr_ret].
  eapply tr_bind; [apply keep_readi|]. intros r. destruct (negb _); [by intros ? _|].
  eapply tr_bind; [apply kept_gets|]. intros de. destruct (de_inum de =? 0); [apply IH|].
  destruct (namecmp name (de_name de) =? 0); [|apply IH]. eapply tr_bind; [apply tr_iget|]. intros ip. by apply tr_ret.
Qed.

Lemma keep_dirlink o dp name inum : kept (irefs o) (dirlink me dp name inum : FM Z).
Proof.
  unfold dirlink. eapply tr_bind; [apply tr_dirlookup|]. intros [[ip off]|].
  - eapply tr_bind; [apply tr_put_back; intros o'; apply tr_iput|]. intros []. by apply tr_ret.
  - assert (∀ fuel off, kept (irefs o) (dirlink_scan me fuel dp off : FM Z)) as Hscan.
    { induction fuel as [|fuel IH]; intros off; cbn [dirlink_scan]; kept. }
    change (kept (irefs o) (x ← getino dp; off ← dirlink_scan me (dir_fuel (d_size (i_d x))) dp 0;
      modify (λ s : fstate S U, fset_loc (put16 (splice (f_loc s) 2 (strncpy (list_ptr name) DIRSIZ)) 0 inum) s) ;;
      r ← writei me dp false 0 off sizeof_dirent; mret (if negb (r =? sizeof_dirent) then -1 else 0))). kept.
Qed.

Lemma tr_ialloc o dev type : tr (irefs o) (ialloc me dev type : FM (option nat)) (taken o).
Proof.
  unfold ialloc. eapply tr_bind; [apply kept_gets|]. intros sb.
  eapply tr_bind; [apply (tr_mfind (irefs o) _ _ (λ ip, irefs (addc o ip 1)))|].
  - intros k. eapply tr_bind; [apply keep_fb|]. intros bp. eapply tr_bind; [apply keep_fb|]. intros d. destruct (s16 _ =? 0).
    + do 3 (eapply tr_bind; [apply keep_fb || apply keep_onl|]; intros []). eapply tr_bind; [apply tr_iget|]. intros ip. by apply tr_ret.
    + eapply tr_bind; [apply keep_fb|]. intros []. by apply tr_ret.
  - intros [ip|]; [by apply tr_ret|]. eapply tr_bind; [apply keep_printf|]. intros []. by apply tr_ret.
Qed.

Lemma tr_namex o cwd path name np : tr (irefs o) (namex me cwd path name np : FM (option nat * list Z)) (λ r, taken o (fst r)).
Proof.
  unfold namex. eapply tr_bind with (R := λ r, taken o (Some r)).
  { destruct path as [|c path]; [apply tr_idup|]. destruct (c =? SLASH); [apply tr_iget|apply tr_idup]. }
  generalize (Datatypes.S (length path)). intros fuel ip. revert ip path name.
  induction fuel as [|fuel IH]; intros ip path name; cbn [namex_loop taken]; [by intros ? _|].
  destruct (skipelem path name) as [[name' path']|].
  2:{ destruct np; [|by apply tr_ret]. eapply tr_bind; [apply tr_put_back; intros o'; apply tr_iput|]. intros []. by apply tr_ret. }
  eapply tr_bind; [apply keep_ilock|]. intros []. eapply tr_bind; [apply keep_getino|]. intros x. destruct (negb _).
  { eapply tr_bind; [apply tr_put_back; intros o'; apply tr_iunlockput|]. intros []. by apply tr_ret. }
  destruct (np && _); [eapply tr_bind; [apply keep_iunlock|]; intros []; by apply tr_ret|].
  eapply tr_bind; [apply tr_dirlookup|]. intros [[next off]|]; cbn [fmap option_fmap option_map fst taken].
  - eapply tr_bind with (R := λ _, taken o (Some next)); [|intros []; apply (IH next path' name')]. cbn [taken].
    eapply tr_conseq; [apply (tr_put_back (addc o next 1) ip); intros o'; apply tr_iunlockput| |done].
    intros fs. apply irefs_ext. intros j. unfold addc. repeat case_decide; lia.
  - eapply tr_bind; [apply tr_put_back; intros o'; apply tr_iunlockput|]. intros []. by apply tr_ret.
Qed.

Lemma tr_namei o cwd path : tr (irefs o) (namei me cwd path : FM (option nat)) (taken o).
Proof. unfold namei. eapply tr_bind; [apply tr_namex|]. intros [r name]. by apply tr_ret. Qed.
End refs.

#[export] Hint Resolve keep_onl keep_fb keep_getino keep_on_ilock keep_printf keep_balloc keep_bfree keep_iupdate
  keep_ilock keep_iunlock keep_itrunc keep_copyout keep_copyin keep_readi keep_writei keep_stati keep_dirlink : kept.
#[export] Hint Extern 1 (kept _ (setino _ _)) => (apply keep_setino; done) : kept.
#[export] Hint Extern 1 (kept _ (modify _)) => (apply keep_modify; done) : kept.
