(* ===== verification/Sysfile.v ===== *)
(** * System calls on files: kernel/sysfile.c and the arguments of kernel/syscall.c

    The descriptors and the directory of the calling process over the open files
    of File. A call returns the C value of its function; [PSleep] is a pipe or
    device that has to wait. *)
From Stdlib Require Import ZArith Lia.
From stdpp Require Import prelude gmap strings.
From S2P Require Import Prelude Bytes Param Str UserMem Riscv PhysMem Kalloc Pipe Sleeplock BufIface Log Fs File.

(** [x & bits], as a condition. *)
Definition has (x bits : Z) : bool := negb (Z.land x bits =? 0).

Definition dset_dev (major minor : Z) d := DInode (d_type d) major minor (d_nlink d) (d_size d) (d_addrs d) (d_mode d).
Definition dset_mode (mode : Z) d := DInode (d_type d) (d_major d) (d_minor d) (d_nlink d) (d_size d) (d_addrs d) mode.

(** The calling process: [ofile], [cwd], [sz] and the registers a0 to a5 of its
    trap frame. *)
Record sst (S U : Type) := SSt {
  ss_ofile : list (option nat);
  ss_cwd : nat;
  ss_sz : Z;
  ss_args : list Z;
  ss_fl : fls S U
}.
Arguments SSt {S U}.
Arguments ss_ofile {S U}.
Arguments ss_cwd {S U}.
Arguments ss_sz {S U}.
Arguments ss_args {S U}.
Arguments ss_fl {S U}.

Definition dots (n : nat) : list Z := replicate n 46.

Section code.
Context {S U : Type} `{BufOps S} `{UserMem U} (me kend : Z).
Context (dev_read dev_write : Z → option (Z → Z → M (fls S U) pres)).
Abbreviation SM := (M (sst S U)).

Definition sfl {A} (m : M (fls S U) A) : SM A :=
  lift ss_fl (λ f s, SSt (ss_ofile s) (ss_cwd s) (ss_sz s) (ss_args s) f) m.
Definition sfs {A} (m : M (fstate S U) A) : SM A := sfl (flf m).
Definition s_begin_op : SM unit := sfl fl_begin_op.
Definition s_end_op : SM unit := sfl (fl_end_op me).
Definition s_ino (ip : nat) : SM inode := sfs (getino ip).
Definition s_setd (ip : nat) (g : dinode → dinode) : SM unit := sfs (setino ip (iupd g)).
Definition setfd (fd : nat) (o : option nat) : SM unit :=
  modify (λ s, SSt (<[fd := o]> (ss_ofile s)) (ss_cwd s) (ss_sz s) (ss_args s) (ss_fl s)).
Definition umem : SM U := gets (λ s, f_mem (fl_fs (ss_fl s))).

(** ** Arguments *)

Definition argraw (n : nat) : SM Z :=
  s ← mget;
  if decide (n < 6)%nat then mnth (ss_args s !! n) else panic "argraw".

Definition argint (n : nat) : SM Z := a ← argraw n; mret (s32 a).
Definition argaddr (n : nat) : SM Z := argraw n.

(** [None]: -1. *)
Definition fetchaddr (addr : Z) : SM (option Z) :=
  sz ← gets ss_sz;
  if (addr >=? sz) || (u64 (addr + 8) >? sz) then mret None else
  m ← umem;
  match ucopyin m addr 8 with
  | (bytes, true) => mret (Some (le_val bytes))
  | (_, false) => mret None
  end.

(** The string without its null byte; its length is what the code returns. *)
Definition fetchstr (addr max : Z) : SM (option (list Z)) :=
  m ← umem;
  mret (match ucopyinstr m addr (Z.to_nat max) with
        | Some l => Some (take (length l - 1) l)
        | None => None
        end).

Definition argstr (n : nat) (max : Z) : SM (option (list Z)) :=
  addr ← argaddr n;
  fetchstr addr max.

(** [*pfd] and [*pf]. *)
Definition argfd (n : nat) : SM (option (nat * nat)) :=
  fd ← argint n;
  if (fd <? 0) || (fd >=? Z.of_nat NOFILE) then mret None else
  s ← mget;
  f ← mnth (ss_ofile s !! Z.to_nat fd);
  mret (match f with Some f => Some (Z.to_nat fd, f) | None => None end).

Definition fdalloc (f : nat) : SM (option nat) :=
  mfind (seq 0 NOFILE) (λ fd,
    s ← mget;
    o ← mnth (ss_ofile s !! fd);
    match o with
    | None => setfd fd (Some f) ;; mret (Some fd)
    | Some _ => mret None
    end).

(** ** The calls *)

Definition sys_dup : SM Z :=
  r ← argfd 0;
  match r with
  | None => mret (-1)
  | Some (_, f) =>
      fd ← fdalloc f;
      match fd with
      | None => mret (-1)
      | Some fd => sfl (filedup f) ;; mret (Z.of_nat fd)
      end
  end.

(** [f->ip && !(f->ip->mode & bit) && f->ip->type != T_DIR] *)
Definition denied (f : nat) (bit : Z) : SM bool :=
  x ← sfl (getfile f);
  match fl_ip x with
  | None => mret false
  | Some ip => i ← s_ino ip; mret (negb (has (d_mode (i_d i)) bit) && negb (d_type (i_d i) =? T_DIR))
  end.

Definition sys_read : SM pres :=
  p ← argaddr 1;
  n ← argint 2;
  r ← argfd 0;
  match r with
  | None => mret (PRet (-1))
  | Some (_, f) =>
      no ← denied f S_IRUSR;
      if (no : bool) then mret (PRet (-1)) else sfl (fileread me dev_read f p n)
  end.

Definition sys_write : SM pres :=
  p ← argaddr 1;
  n ← argint 2;
  r ← argfd 0;
  match r with
  | None => mret (PRet (-1))
  | Some (_, f) =>
      no ← denied f S_IWUSR;
      if (no : bool) then mret (PRet (-1)) else sfl (filewrite me dev_write f p n)
  end.

Definition sys_close : SM Z :=
  r ← argfd 0;
  match r with
  | None => mret (-1)
  | Some (fd, f) => setfd fd None ;; sfl (fileclose me kend f) ;; mret 0
  end.

Definition sys_fstat (pad : list Z) : SM Z :=
  st ← argaddr 1;
  r ← argfd 0;
  match r with
  | None => mret (-1)
  | Some (_, f) => sfl (filestat me pad f st)
  end.

Definition s_namei (path : list Z) : SM (option nat) :=
  s ← mget; sfs (namei me (ss_cwd s) path).
Definition s_nameiparent (path : list Z) : SM (option nat * list Z) :=
  s ← mget; sfs (nameiparent me (ss_cwd s) path (replicate DIRSIZ 0)).

Definition sys_link : SM Z :=
  old ← argstr 0 MAXPATH;
  match old with None => mret (-1) | Some old =>
  new ← argstr 1 MAXPATH;
  match new with None => mret (-1) | Some new =>
  s_begin_op ;;
  ip ← s_namei old;
  match ip with None => s_end_op ;; mret (-1) | Some ip =>
  sfs (ilock me ip) ;;
  x ← s_ino ip;
  if d_type (i_d x) =? T_DIR then sfs (iunlockput me ip) ;; s_end_op ;; mret (-1) else
  s_setd ip (λ d, dset_nlink (s16 (d_nlink d + 1)) d) ;;
  sfs (iupdate me ip) ;;
  sfs (iunlock me ip) ;;
  let bad : SM Z :=
    sfs (ilock me ip) ;;
    s_setd ip (λ d, dset_nlink (s16 (d_nlink d - 1)) d) ;;
    sfs (iupdate me ip) ;;
    sfs (iunlockput me ip) ;;
    s_end_op ;;
    mret (-1) in
  '(dp, name) ← s_nameiparent new;
  match dp with None => bad | Some dp =>
  sfs (ilock me dp) ;;
  xd ← s_ino dp;
  x ← s_ino ip;
  r ← (if negb (i_dev xd =? i_dev x) then mret (-1) else sfs (dirlink me dp name (i_inum x)));
  if r <? 0 then sfs (iunlockput me dp) ;; bad else
  sfs (iunlockput me dp) ;;
  sfs (iput me ip) ;;
  s_end_op ;;
  mret 0
  end end end end.

Fixpoint isdirempty_loop (fuel : nat) (dp : nat) (off : Z) : M (fstate S U) bool :=
  match fuel with
  | O => λ _, NoFuel
  | Datatypes.S fuel =>
      x ← getino dp;
      if off <? d_size (i_d x) then
        r ← readi me dp false 0 off sizeof_dirent;
        if negb (r =? sizeof_dirent) then panic "isdirempty: readi" else
        de ← gets f_loc;
        if negb (de_inum de =? 0) then mret false
        else isdirempty_loop fuel dp (off + sizeof_dirent)
      else mret true
  end.

Definition isdirempty (dp : nat) : M (fstate S U) bool :=
  x ← getino dp;
  isdirempty_loop (dir_fuel (d_size (i_d x))) dp (2 * sizeof_dirent).

Definition sys_unlink : SM Z :=
  path ← argstr 0 MAXPATH;
  match path with None => mret (-1) | Some path =>
  s_begin_op ;;
  '(dp, name) ← s_nameiparent path;
  match dp with None => s_end_op ;; mret (-1) | Some dp =>
  sfs (ilock me dp) ;;
  let bad : SM Z := sfs (iunlockput me dp) ;; s_end_op ;; mret (-1) in
  if (namecmp name (dots 1) =? 0) || (namecmp name (dots 2) =? 0) then bad else
  r ← sfs (dirlookup me dp name);
  match r with None => bad | Some (ip, off) =>
  sfs (ilock me ip) ;;
  x ← s_ino ip;
  if d_nlink (i_d x) <? 1 then panic "unlink: nlink < 1" else
  empty ← (if d_type (i_d x) =? T_DIR then sfs (isdirempty ip) else mret true);
  if negb empty then sfs (iunlockput me ip) ;; bad else
  sfs (modify (fset_loc (replicate (Z.to_nat sizeof_dirent) 0))) ;;
  w ← sfs (writei me dp false 0 off sizeof_dirent);
  if negb (w =? sizeof_dirent) then panic "unlink: writei" else
  mwhen (d_type (i_d x) =? T_DIR)
    (s_setd dp (λ d, dset_nlink (s16 (d_nlink d - 1)) d) ;; sfs (iupdate me dp)) ;;
  sfs (iunlockput me dp) ;;
  s_setd ip (λ d, dset_nlink (s16 (d_nlink d - 1)) d) ;;
  sfs (iupdate me ip) ;;
  sfs (iunlockput me ip) ;;
  s_end_op ;;
  mret 0
  end end end.

(** The inode is returned locked. *)
Definition create (path : list Z) (type major minor : Z) : SM (option nat) :=
  '(dp, name) ← s_nameiparent path;
  match dp with None => mret None | Some dp =>
  sfs (ilock me dp) ;;
  r ← sfs (dirlookup me dp name);
  match r with
  | Some (ip, _) =>
      sfs (iunlockput me dp) ;;
      sfs (ilock me ip) ;;
      x ← s_ino ip;
      let t := d_type (i_d x) in
      if (type =? T_FILE) && ((t =? T_FILE) || (t =? T_DEVICE)) then mret (Some ip) else
      sfs (iunlockput me ip) ;;
      mret None
  | None =>
      xd ← s_ino dp;
      r ← sfs (ialloc me (i_dev xd) type);
      match r with None => sfs (iunlockput me dp) ;; mret None | Some ip =>
      sfs (ilock me ip) ;;
      s_setd ip (dset_dev major minor) ;;
      s_setd ip (dset_nlink 1) ;;
      sfs (iupdate me ip) ;;
      let fail : SM (option nat) :=
        s_setd ip (dset_nlink 0) ;;
        sfs (iupdate me ip) ;;
        sfs (iunlockput me ip) ;;
        sfs (iunlockput me dp) ;;
        mret None in
      x ← s_ino ip;
      r ← (if type =? T_DIR then
             r ← sfs (dirlink me ip (dots 1) (i_inum x));
             if r <? 0 then mret (-1) else sfs (dirlink me ip (dots 2) (i_inum xd))
           else mret 0);
      if r <? 0 then fail else
      r ← sfs (dirlink me dp name (i_inum x));
      if r <? 0 then fail else
      mwhen (type =? T_DIR)
        (s_setd dp (λ d, dset_nlink (s16 (d_nlink d + 1)) d) ;; sfs (iupdate me dp)) ;;
      sfs (iunlockput me dp) ;;
      s_setd ip (dset_mode (Z.lor S_IRUSR S_IWUSR)) ;;
      mret (Some ip)
      end
  end
  end.

(** From the inode [ip], locked, to the descriptor. *)
Definition open_inode (ip : nat) (omode : Z) : SM Z :=
  x ← s_ino ip;
  let d := i_d x in
  if (d_type d =? T_DEVICE) && ((d_major d <? 0) || (d_major d >=? NDEV))
  then sfs (iunlockput me ip) ;; s_end_op ;; mret (-1) else
  if has omode O_RDONLY && negb (has (d_mode d) S_IRUSR) && negb (d_type d =? T_DIR)
  then sfs (iunlockput me ip) ;; mret (-1) else
  if has omode O_WRONLY && negb (has (d_mode d) S_IWUSR) && negb (d_type d =? T_DIR)
  then sfs (iunlockput me ip) ;; mret (-1) else
  f ← sfl filealloc;
  match f with None => sfs (iunlockput me ip) ;; s_end_op ;; mret (-1) | Some f =>
  fd ← fdalloc f;
  match fd with
  | None => sfl (fileclose me kend f) ;; sfs (iunlockput me ip) ;; s_end_op ;; mret (-1)
  | Some fd =>
  (if d_type d =? T_DEVICE
   then sfl (setfile f (λ y, flset_major (d_major d) (flset_type FD_DEVICE y)))
   else sfl (setfile f (λ y, flset_off 0 (flset_type FD_INODE y)))) ;;
  sfl (setfile f (λ y,
    flset_rw (if has omode O_WRONLY then 0 else 1) (if has omode O_WRONLY || has omode O_RDWR then 1 else 0)
      (flset_ip (Some ip) y))) ;;
  mwhen (has omode O_TRUNC && (d_type d =? T_FILE)) (sfs (itrunc me ip)) ;;
  sfs (iunlock me ip) ;;
  s_end_op ;;
  mret (Z.of_nat fd)
  end end.

Definition sys_open : SM Z :=
  omode ← argint 1;
  path ← argstr 0 MAXPATH;
  match path with None => mret (-1) | Some path =>
  s_begin_op ;;
  if has omode O_CREATE then
    ip ← create path T_FILE 0 0;
    match ip with
    | None => s_end_op ;; mret (-1)
    | Some ip => open_inode ip omode
    end
  else
    ip ← s_namei path;
    match ip with
    | None => s_end_op ;; mret (-1)
    | Some ip =>
        sfs (ilock me ip) ;;
        x ← s_ino ip;
        if (d_type (i_d x) =? T_DIR) && negb (omode =? O_RDONLY)
        then sfs (iunlockput me ip) ;; s_end_op ;; mret (-1)
        else open_inode ip omode
    end
  end.

Definition sys_mkdir : SM Z :=
  s_begin_op ;;
  path ← argstr 0 MAXPATH;
  ip ← (match path with None => mret None | Some path => create path T_DIR 0 0 end);
  match ip with
  | None => s_end_op ;; mret (-1)
  | Some ip => sfs (iunlockput me ip) ;; s_end_op ;; mret 0
  end.

Definition sys_mknod : SM Z :=
  s_begin_op ;;
  major ← argint 1;
  minor ← argint 2;
  path ← argstr 0 MAXPATH;
  ip ← (match path with None => mret None | Some path => create path T_DEVICE (s16 major) (s16 minor) end);
  match ip with
  | None => s_end_op ;; mret (-1)
  | Some ip => sfs (iunlockput me ip) ;; s_end_op ;; mret 0
  end.

Definition sys_chdir : SM Z :=
  s_begin_op ;;
  path ← argstr 0 MAXPATH;
  ip ← (match path with None => mret None | Some path => s_namei path end);
  match ip with
  | None => s_end_op ;; mret (-1)
  | Some ip =>
      sfs (ilock me ip) ;;
      x ← s_ino ip;
      if negb (d_type (i_d x) =? T_DIR) then sfs (iunlockput me ip) ;; s_end_op ;; mret (-1) else
      sfs (iunlock me ip) ;;
      s ← mget;
      sfs (iput me (ss_cwd s)) ;;
      s_end_op ;;
      modify (λ s, SSt (ss_ofile s) ip (ss_sz s) (ss_args s) (ss_fl s)) ;;
      mret 0
  end.

Definition sys_pipe : SM Z :=
  fdarray ← argaddr 0;
  r ← sfl (pipealloc me kend);
  match r with None => mret (-1) | Some (rf, wf) =>
  let bad : SM Z := sfl (fileclose me kend rf) ;; sfl (fileclose me kend wf) ;; mret (-1) in
  fd0 ← fdalloc rf;
  match fd0 with None => bad | Some fd0 =>
  fd1 ← fdalloc wf;
  match fd1 with None => setfd fd0 None ;; bad | Some fd1 =>
  ok ← sfl (fl_copyout fdarray (le_bytes 4 (Z.of_nat fd0)));
  ok ← (if (ok : bool) then sfl (fl_copyout (u64 (fdarray + 4)) (le_bytes 4 (Z.of_nat fd1))) else mret false);
  if (ok : bool) then mret 0 else
  setfd fd0 None ;;
  setfd fd1 None ;;
  bad
  end end end.

(** [f->off], [f->ip->size] and [offset] are compared as 32-bit unsigned. *)
Definition sys_lseek : SM Z :=
  r ← argfd 0;
  match r with None => mret (-1) | Some (_, f) =>
  offset ← argint 1;
  whence ← argint 2;
  x ← sfl (getfile f);
  let seek (cond : Z → bool) (off : Z → Z) : SM Z :=
    ip ← mnth (fl_ip x);
    i ← s_ino ip;
    let size := d_size (i_d i) in
    if cond size then mret (-1) else
    sfl (setfile f (flset_off (off size))) ;;
    mret (off size) in
  if whence =? SEEK_SET then
    if offset <? 0 then mret (-1) else seek (λ size, u32 offset >? size) (λ _, u32 offset)
  else if whence =? SEEK_CUR then
    seek (λ size, (u32 (fl_off x + offset) <? 0) || (u32 (fl_off x + offset) >? size)) (λ _, u32 (fl_off x + offset))
  else if whence =? SEEK_END then
    if offset >? 0 then mret (-1) else
    seek (λ size, u32 (size + offset) <? 0) (λ size, u32 (size + offset))
  else mret (-1)
  end.

Definition sys_chmod : SM Z :=
  mode ← argint 1;
  path ← argstr 0 MAXPATH;
  match path with None => sfs (printf "C'est dans le premier que ca ndem") ;; mret (-1) | Some path =>
  s_begin_op ;;
  ip ← s_namei path;
  match ip with
  | None => s_end_op ;; sfs (printf "Donc c'est alors dans le deuxieme que ca ndem") ;; mret (-1)
  | Some ip =>
      sfs (ilock me ip) ;;
      s_setd ip (dset_mode (u16 mode)) ;;
      sfs (iupdate me ip) ;;
      sfs (iunlock me ip) ;;
      s_end_op ;;
      mret 0
  end end.
End code.
