(* ===== verification/SysfileRefs.v ===== *)
(** * Reference counts under the system calls: kernel/sysfile.c and kernel/file.c

    A file's count is the number of descriptors that name it, and an inode's
    count is the number of open files and current directories that name it.
    Every system call keeps both, whatever it returns, except [sys_chmod]. *)
From Stdlib Require Import ZArith Lia.
From stdpp Require Import prelude gmap strings.
From S2P Require Import Prelude Hoare Bytes Param Str UserMem Riscv PhysMem Kalloc Pipe Sleeplock BufIface Log Fs File FsRefs Sysfile.

(** Descriptors that name file [f]. *)
Definition nfd (f : nat) (l : list (option nat)) : nat := length (filter (λ o, o = Some f) l).

(** Whether an open file holds a reference to inode [ip], and how many do. *)
Definition holds (ip : nat) (x : file) : Prop :=
  (fl_type x = FD_INODE ∨ fl_type x = FD_DEVICE) ∧ fl_ip x = Some ip.

#[export] Instance holds_dec ip x : Decision (holds ip x).
Proof. unfold holds. apply _. Defined.

Definition nfile (ip : nat) (l : list file) : nat := length (filter (holds ip) l).

(** One for true. *)
Definition one (P : Prop) `{Decision P} : Z := if decide P then 1 else 0.

Lemma length_filter_insert {A} (P : A → Prop) `{!∀ x, Decision (P x)} (l : list A) i x y :
  l !! i = Some x → Z.of_nat (length (filter P (<[i := y]> l))) = Z.of_nat (length (filter P l)) - one (P x) + one (P y).
Proof.
  revert i. induction l as [|a l IH]; intros [|i] Hx; cbn in Hx; [done|done| |].
  - injection Hx as ->. unfold one. cbn [insert list_insert]. rewrite !filter_cons. repeat case_decide; cbn [length]; lia.
  - change (<[Datatypes.S i := y]> (a :: l)) with (a :: <[i := y]> l). rewrite !filter_cons. specialize (IH i Hx). case_decide; cbn [length]; lia.
Qed.

Lemma alter_alter {A} (g h : A → A) (i : nat) (l : list A) : alter g i (alter h i l) = alter (λ x, g (h x)) i l.
Proof.
  apply list_eq. intros j. destruct (decide (j = i)) as [->|Hne].
  - rewrite !list_lookup_alter_eq. by destruct (l !! i).
  - by rewrite !list_lookup_alter_ne.
Qed.

Section refs.
Context {S U : Type} `{BufOps S} `{UserMem U} (me kend : Z).
Abbreviation SM := (M (sst S U)).
Implicit Types (s : sst S U) (oF oI : cnt).

(** The references to inode [ip] that the calling process accounts for. *)
Definition ioff oI s : cnt := λ ip, oI ip + Z.of_nat (nfile ip (fl_files (ss_fl s))) + one (ip = ss_cwd s).

(** [oF] and [oI]: the references of other processes. *)
Record counts oF oI s : Prop := {
  co_file f x : fl_files (ss_fl s) !! f = Some x → fl_ref x = oF f + Z.of_nat (nfd f (ss_ofile s));
  co_free f x : fl_files (ss_fl s) !! f = Some x → fl_ref x = 0 → fl_type x = FD_NONE;
  co_inode : irefs (ioff oI s) (fl_fs (ss_fl s))
}.

Lemma counts_ext oF oI s s' :
  ss_ofile s' = ss_ofile s → ss_cwd s' = ss_cwd s → fl_files (ss_fl s') = fl_files (ss_fl s) →
  f_it (fl_fs (ss_fl s')) = f_it (fl_fs (ss_fl s)) → counts oF oI s → counts oF oI s'.
Proof.
  intros H1 H2 H3 H4 [Hf Hn Hi]. split.
  - rewrite H1, H3. done.
  - rewrite H3. done.
  - unfold irefs, ioff in *. by rewrite H2, H3, H4.
Qed.

(** ** Operations of the file system *)

Lemma counts_fs {A} oF oI (m : M (fstate S U) A) (d : A → cnt) :
  (∀ o, tr (irefs o) m (λ a, irefs (λ j, o j + d a j))) →
  tr (counts oF oI) (sfs m) (λ a, counts oF (λ j, oI j + d a j)).
Proof.
  intros Hm s Hs. specialize (Hm (ioff oI s) (fl_fs (ss_fl s)) (co_inode _ _ _ Hs)). unfold sfs, sfl, flf, lift.
  destruct (m (fl_fs (ss_fl s))) as [a fs| | | |]; try done. destruct Hs as [Hf Hn Hi]. split; [done|done|].
  eapply irefs_ext; [|exact Hm]. intros ip. unfold ioff. cbn [ss_fl ss_cwd fl_files flset_fs]. lia.
Qed.

Lemma counts_keep {A} oF oI (m : M (fstate S U) A) : (∀ o, kept (irefs o) m) → kept (counts oF oI) (sfs m).
Proof.
  intros Hm. eapply tr_post; [apply (counts_fs oF oI m (λ _ _, 0))|].
  - intros o. eapply tr_post; [apply Hm|]. intros a fs. apply irefs_ext. intros j. lia.
  - intros a s [Hf Hn Hi]. split; [done|done|]. eapply irefs_ext; [|exact Hi]. intros j. unfold ioff. lia.
Qed.

(** What is returned is held. *)
Definition given oF oI (r : option nat) s : Prop :=
  match r with Some ip => counts oF (addc oI ip 1) s | None => counts oF oI s end.

Lemma counts_take {A} oF oI (m : M (fstate S U) A) (g : A → option nat) :
  (∀ o, tr (irefs o) m (λ r, taken o (g r))) → tr (counts oF oI) (sfs m) (λ r, given oF oI (g r)).
Proof.
  intros Hm. eapply tr_post; [apply (counts_fs oF oI m (λ r j, match g r with Some ip => one (j = ip) | None => 0 end))|].
  - intros o. eapply tr_post; [apply Hm|]. intros a fs. unfold taken. destruct (g a); apply irefs_ext; intros j; unfold addc, one; try lia.
  - intros a s [Hf Hn Hi]. unfold given. destruct (g a); (split; [done|done|]); (eapply irefs_ext; [|exact Hi]); intros j; unfold ioff, addc, one; lia.
Qed.

Lemma counts_put oF oI ip (m : M (fstate S U) unit) :
  (∀ o, tr (irefs o) m (λ _, irefs (addc o ip (-1)))) → tr (counts oF (addc oI ip 1)) (sfs m) (λ _, counts oF oI).
Proof.
  intros Hm. eapply tr_post; [apply (counts_fs oF (addc oI ip 1) m (λ _ j, if decide (j = ip) then -1 else 0)); exact Hm|].
  intros a s [Hf Hn Hi]. split; [done|done|]. eapply irefs_ext; [|exact Hi]. intros j. unfold ioff, addc. case_decide; lia.
Qed.

Lemma counts_eq oF oI oF' oI' s :
  (∀ f, oF f = oF' f) → (∀ ip, oI ip = oI' ip) → counts oF oI s → counts oF' oI' s.
Proof.
  intros HF HI [Hf Hn Hi]. split; [|done|].
  - intros f x Hx. rewrite <-HF. by apply Hf.
  - eapply irefs_ext; [|exact Hi]. intros ip. unfold ioff. by rewrite HI.
Qed.

(** ** Operations on the table of files *)

Lemma sfl_bind {A B} (m : M (fls S U) A) (k : A → M (fls S U) B) s :
  sfl (m ≫= k) s = (sfl m ≫= λ a, sfl (k a)) s.
Proof.
  unfold sfl, lift, mbind, M_bind. destruct (m (ss_fl s)) as [a t| | | |]; done.
Qed.

Lemma tr_sfl_bind {A B} (P : sst S U → Prop) (m : M (fls S U) A) R (k : A → M (fls S U) B) Q :
  tr P (sfl m) R → (∀ a, tr (R a) (sfl (k a)) Q) → tr P (sfl (m ≫= k)) Q.
Proof. intros Hm Hk s Hs. rewrite sfl_bind. by apply (tr_bind P (sfl m) R (λ a, sfl (k a)) Q). Qed.

Lemma tr_sfl_ret {A} (P : sst S U → Prop) (a : A) Q : (∀ s, P s → Q a s) → tr P (sfl (mret a)) Q.
Proof. intros HQ s Hs. cbn. destruct s. by apply HQ. Qed.

(** Parts of the state the counts do not depend on. *)
Definition quiet {A} (m : M (fls S U) A) : Prop :=
  ∀ fi it, kept (λ t, fl_files t = fi ∧ f_it (fl_fs t) = it) m.

Lemma counts_quiet {A} oF oI (m : M (fls S U) A) : quiet m → kept (counts oF oI) (sfl m).
Proof.
  intros Hm s Hs. specialize (Hm (fl_files (ss_fl s)) (f_it (fl_fs (ss_fl s))) (ss_fl s) (conj eq_refl eq_refl)).
  unfold sfl, lift. destruct (m (ss_fl s)); try done. destruct Hm as [H1 H2]. by eapply counts_ext, Hs.
Qed.

Lemma quiet_flk {A} (m : M kmem A) : quiet (flk m).
Proof. intros fi it. by apply kept_lift. Qed.

Lemma quiet_wake c : quiet (flwake c).
Proof. intros fi it. by apply tr_modify. Qed.

Lemma quiet_fll {A} (m : M (lstate S) A) : quiet (fll m).
Proof.
  intros fi it t [Hf Hi]. unfold fll, flf, onl, lift. by destruct (m (f_l (fl_fs t))).
Qed.

Lemma quiet_pipe {A} pi (m : M (pst U) A) : quiet (on_pipe pi m).
Proof. intros fi it. unfold on_pipe. apply kept_bind; [kept|]. intros t. apply kept_bind; [kept|]. intros p. by apply kept_lift. Qed.

Lemma tr_getfile oF oI f :
  tr (counts oF oI) (sfl (getfile f)) (λ x s, counts oF oI s ∧ fl_files (ss_fl s) !! f = Some x).
Proof.
  intros s Hs. unfold sfl, lift, getfile, mbind, M_bind, mget, mnth. destruct (fl_files (ss_fl s) !! f) eqn:E; [|done]. cbn. by destruct s.
Qed.

Lemma keep_getfile oF oI f : kept (counts oF oI) (sfl (getfile f)).
Proof. eapply tr_post; [apply tr_getfile|]. by intros ? ? [? _]. Qed.

Lemma sfl_setfile f g s :
  sfl (setfile f g) s = Ret tt (SSt (ss_ofile s) (ss_cwd s) (ss_sz s) (ss_args s) (flset_files (alter g f (fl_files (ss_fl s))) (ss_fl s))).
Proof. done. Qed.

(** Two updates of a file in a row are one. *)
Lemma tr_fuse {A} (P : sst S U → Prop) f h g (k : unit → SM A) Q :
  tr P (sfl (setfile f (λ y, g (h y))) ≫= k) Q → tr P (sfl (setfile f h) ;; sfl (setfile f g) ≫= k) Q.
Proof.
  intros Hm s Hs. specialize (Hm s Hs). unfold mbind, M_bind in *. rewrite !sfl_setfile in *. cbn [ss_ofile ss_cwd ss_sz ss_args ss_fl flset_files fl_files fl_k fl_pipes fl_fs fl_killed fl_woken] in *.
  by rewrite alter_alter.
Qed.

Lemma tr_fuse_sfl {A} (P : sst S U → Prop) f h g (k : unit → M (fls S U) A) Q :
  tr P (sfl (setfile f (λ y, g (h y)) ≫= k)) Q → tr P (sfl (setfile f h ;; (setfile f g ≫= k))) Q.
Proof.
  intros Hm s Hs. specialize (Hm s Hs). unfold sfl, lift, setfile, modify, mbind, M_bind in *.
  cbn [flset_files fl_files fl_k fl_pipes fl_fs fl_killed fl_woken] in *. by rewrite alter_alter.
Qed.

(** Updating the file [x] in entry [f]. *)
Lemma tr_setfile oF oI f x g :
  (fl_ref (g x) = 0 → fl_type (g x) = FD_NONE) →
  tr (λ s, counts oF oI s ∧ fl_files (ss_fl s) !! f = Some x) (sfl (setfile f g))
    (λ _ s, counts (addc oF f (fl_ref (g x) - fl_ref x)) (λ ip, oI ip + one (holds ip x) - one (holds ip (g x))) s ∧
       fl_files (ss_fl s) !! f = Some (g x)).
Proof.
  intros Hg s [[Hf Hn Hi] Hx]. rewrite sfl_setfile.
  assert (alter g f (fl_files (ss_fl s)) = <[f := g x]> (fl_files (ss_fl s))) as Halt.
  { apply list_eq. intros i. destruct (decide (i = f)) as [->|Hne].
    - rewrite list_lookup_insert_eq, list_lookup_alter_eq, Hx; [done|]. by eapply lookup_lt_Some.
    - by rewrite list_lookup_insert_ne, list_lookup_alter_ne. }
  split; [split|]; cbn [ss_ofile ss_cwd ss_fl fl_files flset_files fl_fs]; rewrite Halt.
  - intros j y Hy. unfold addc. destruct (decide (j = f)) as [->|Hne].
    + rewrite list_lookup_insert_eq in Hy by (by eapply lookup_lt_Some). injection Hy as <-. rewrite (Hf f x Hx). lia.
    + rewrite list_lookup_insert_ne in Hy by done. rewrite (Hf j y Hy). lia.
  - intros j y Hy. destruct (decide (j = f)) as [->|Hne].
    + rewrite list_lookup_insert_eq in Hy by (by eapply lookup_lt_Some). injection Hy as <-. by apply Hg.
    + rewrite list_lookup_insert_ne in Hy by done. by apply (Hn j).
  - eapply irefs_ext; [|exact Hi]. intros ip. unfold ioff, nfile. cbn [ss_fl fl_files flset_files ss_cwd].
    rewrite (length_filter_insert (holds ip) _ f x (g x) Hx). lia.
  - rewrite list_lookup_insert_eq; [done|]. by eapply lookup_lt_Some.
Qed.

(** ** file.c *)

Lemma tr_filedup oF oI f : tr (counts oF oI) (sfl (filedup f)) (λ _, counts (addc oF f 1) oI).
Proof.
  unfold filedup. eapply tr_sfl_bind; [apply tr_getfile|]. intros x. destruct (Z.ltb_spec (fl_ref x) 1); [by intros ? _|].
  eapply tr_sfl_bind; [apply (tr_setfile oF oI f x (flset_ref (fl_ref x + 1))); cbn; lia|]. intros []. apply tr_sfl_ret.
  intros s [Hs _]. eapply counts_eq, Hs; intros j; cbn.
  - unfold addc. case_decide; lia.
  - change (holds j (flset_ref (fl_ref x + 1) x)) with (holds j x). unfold one. repeat case_decide; tauto || lia.
Qed.

(** A file that is being set up. *)
Definition fresh (f : nat) s : Prop := ∃ x, fl_files (ss_fl s) !! f = Some x ∧ fl_ref x ≠ 0 ∧ fl_type x = FD_NONE.

Lemma tr_filealloc oF oI (l : list nat) :
  tr (λ s, counts oF oI s ∧ ∀ g, g ∈ l → fresh g s) (sfl filealloc)
    (λ r s, match r with
            | Some f => counts (addc oF f 1) oI s ∧ (f ∉ l) ∧ ∀ g, g ∈ f :: l → fresh g s
            | None => counts oF oI s ∧ ∀ g, g ∈ l → fresh g s
            end).
Proof.
  unfold filealloc. generalize (seq 0 NFILE). intros fl. induction fl as [|f fl IH]; cbn [mfind]; [by apply tr_sfl_ret|].
  eapply tr_sfl_bind with (R := λ r s, match r with
    | Some f => counts (addc oF f 1) oI s ∧ (f ∉ l) ∧ ∀ g, g ∈ f :: l → fresh g s
    | None => counts oF oI s ∧ ∀ g, g ∈ l → fresh g s end).
  2:{ intros [g|]; [by apply tr_sfl_ret|exact IH]. }
  intros s [Hs Hl]. unfold sfl, lift, getfile, mbind, M_bind, mget, mnth.
  destruct (fl_files (ss_fl s) !! f) as [x|] eqn:Hx; [|done]. cbn [mret]. unfold mret, M_ret. cbv beta match.
  destruct (Z.eqb_spec (fl_ref x) 0) as [Hz|Hz]; [|cbn; by destruct s]. cbn [setfile modify].
  pose proof (tr_setfile oF oI f x (flset_ref 1) ltac:(cbn; lia) s (conj Hs Hx)) as Hset. rewrite sfl_setfile in Hset.
  destruct Hset as [Hset Hx']. unfold setfile, modify. cbn [flset_files]. split_and!.
  - eapply counts_eq, Hset; intros j; cbn.
    + unfold addc. case_decide; lia.
    + change (holds j (flset_ref 1 x)) with (holds j x). unfold one. repeat case_decide; tauto || lia.
  - intros Hin. destruct (Hl f Hin) as (y & Hy & Hy0 & _). congruence.
  - intros g [->|Hg]%elem_of_cons.
    + exists (flset_ref 1 x). split_and!; [exact Hx'|done|]. cbn. by apply (co_free _ _ _ Hs f).
    + destruct (Hl g Hg) as (y & Hy & Hy0 & Hyt). exists y. split_and!; [|done|done].
      cbn. rewrite list_lookup_alter_ne; [done|]. intros ->. congruence.
Qed.

Lemma tr_pipe_close oF oI pi w : kept (counts oF oI) (sfl (pipe_close kend pi w)).
Proof.
  apply counts_quiet. intros fi it. unfold pipe_close. apply kept_bind; [apply quiet_pipe|]. intros []; cbn [mwhen]; [|kept].
  apply kept_bind; [by apply tr_modify|]. intros []. apply quiet_flk.
Qed.

Lemma keep_begin_op oF oI : kept (counts oF oI) (sfl fl_begin_op).
Proof. apply counts_quiet, quiet_fll. Qed.

Lemma keep_end_op oF oI : kept (counts oF oI) (sfl (fl_end_op me)).
Proof. apply counts_quiet. intros fi it. unfold fl_end_op. apply kept_bind; [apply quiet_fll|]. intros _. apply quiet_wake. Qed.

Lemma tr_fileclose oF oI f : tr (counts oF oI) (sfl (fileclose me kend f)) (λ _, counts (addc oF f (-1)) oI).
Proof.
  unfold fileclose. eapply tr_sfl_bind; [apply tr_getfile|]. intros x. destruct (Z.ltb_spec (fl_ref x) 1) as [|Hr]; [by intros ? _|].
  destruct (Z.gtb_spec (fl_ref x - 1) 0) as [Hmore|Hlast].
  { eapply tr_sfl_bind; [apply (tr_setfile oF oI f x); cbn; lia|]. intros []. apply tr_sfl_ret. intros s [Hs _].
    eapply counts_eq, Hs; intros j; cbn.
    - unfold addc. case_decide; lia.
    - change (holds j (flset_ref (fl_ref x - 1) x)) with (holds j x). unfold one. repeat case_decide; tauto || lia. }
  assert (tr (λ s, counts oF oI s ∧ fl_files (ss_fl s) !! f = Some x)
    (sfl (setfile f (λ y, flset_type FD_NONE (flset_ref 0 (flset_ref (fl_ref x - 1) y)))))
    (λ _, counts (addc oF f (-1)) (λ ip, oI ip + one (holds ip x)))) as Hset.
  { eapply tr_post; [apply (tr_setfile oF oI f x); done|]. intros [] s [Hs _]. eapply counts_eq, Hs; intros j; cbn.
    - unfold addc. case_decide; lia.
    - unfold one at 2. rewrite decide_False; [lia|]. unfold holds. cbn. by intros [[|] _]. }
  apply tr_fuse_sfl, tr_fuse_sfl. eapply tr_sfl_bind; [exact Hset|]. intros [].
  assert (∀ s, (fl_type x = FD_NONE ∨ fl_type x = FD_PIPE) → counts (addc oF f (-1)) (λ ip, oI ip + one (holds ip x)) s →
    counts (addc oF f (-1)) oI s) as Hnone.
  { intros s Ht Hs. eapply counts_eq, Hs; [done|]. intros ip. unfold one. rewrite decide_False; [lia|]. unfold holds. intros [[Hh|Hh] _]; destruct Ht; congruence. }
  assert (fl_type x = FD_INODE ∨ fl_type x = FD_DEVICE →
    tr (counts (addc oF f (-1)) (λ ip, oI ip + one (holds ip x)))
      (sfl (fl_begin_op ;; ip ← mnth (fl_ip x); flf (iput me ip) ;; fl_end_op me)) (λ _, counts (addc oF f (-1)) oI)) as Hput.
  { intros Ht. eapply tr_sfl_bind; [apply keep_begin_op|]. intros []. destruct (fl_ip x) as [ip|] eqn:Hip; [|by intros ? _].
    eapply tr_sfl_bind with (R := λ a s, a = ip ∧ counts (addc oF f (-1)) (addc oI ip 1) s).
    - apply tr_sfl_ret. intros s Hs. split; [done|]. eapply counts_eq, Hs; [done|]. intros j. unfold addc, one.
      assert (holds j x ↔ j = ip) as Hh by (unfold holds; rewrite Hip; naive_solver). repeat case_decide; tauto || lia.
    - intros a. apply tr_pull. intros ->. eapply tr_sfl_bind; [apply counts_put; intros o; apply tr_iput|]. intros []. apply keep_end_op. }
  destruct (fl_type x).
  - apply tr_sfl_ret. intros s. apply Hnone. by left.
  - eapply tr_post; [apply tr_pipe_close|]. intros [] s. apply Hnone. by right.
  - apply Hput. by left.
  - apply Hput. by right.
Qed.
End refs.
