(* ===== verification/SysfileTheorems.v ===== *)
(** * Theorems about kernel/sysfile.c *)
From Stdlib Require Import ZArith Lia.
From stdpp Require Import prelude gmap strings.
From S2P Require Import Prelude Hoare Bytes Param Str UserMem Riscv PhysMem Kalloc Pipe Sleeplock BufIface Bio BioInv Log Fs FsTheorems File FsRefs Sysfile SysfileRefs.

Section refs.
Context {S U : Type} `{BufOps S} `{UserMem U} (me kend : Z).
Context (dev_read dev_write : Z → option (Z → Z → M (fls S U) pres)).
Abbreviation SM := (M (sst S U)).
Implicit Types (s : sst S U) (oF oI : cnt).

(** Device drivers do not touch the tables of files and inodes. *)
Definition quiet_dev (tbl : Z → option (Z → Z → M (fls S U) pres)) : Prop :=
  ∀ major rw addr n, tbl major = Some rw → quiet (rw addr n).

Context (Hread : quiet_dev dev_read) (Hwrite : quiet_dev dev_write).

(** ** Reading and writing *)

Lemma kept_sfl_bind {A B} oF oI (m : M (fls S U) A) (k : A → M (fls S U) B) :
  kept (counts oF oI) (sfl m) → (∀ a, kept (counts oF oI) (sfl (k a))) → kept (counts oF oI) (sfl (m ≫= k)).
Proof. intros Hm Hk. eapply tr_sfl_bind; [exact Hm|done]. Qed.

Lemma kept_sfl_ret {A} oF oI (a : A) : kept (counts oF oI) (sfl (mret a : M (fls S U) A)).
Proof. by apply tr_sfl_ret. Qed.

Lemma kept_sfl_fs {A} oF oI (m : M (fstate S U) A) : (∀ o, kept (irefs o) m) → kept (counts oF oI) (sfl (flf m)).
Proof. apply counts_keep. Qed.

Lemma kept_sfl_mnth {A} oF oI (o : option A) : kept (counts oF oI) (sfl (mnth o : M (fls S U) A)).
Proof. destruct o; [apply kept_sfl_ret|by intros ? _]. Qed.

Lemma kept_setfile oF oI f g :
  (∀ x, fl_ref (g x) = fl_ref x ∧ fl_type (g x) = fl_type x ∧ fl_ip (g x) = fl_ip x) → kept (counts oF oI) (sfl (setfile f g) : SM unit).
Proof.
  intros Hg s Hs. destruct (fl_files (ss_fl s) !! f) as [x|] eqn:Hx.
  - destruct (Hg x) as (Hr & Ht & Hi).
    pose proof (tr_setfile oF oI f x g ltac:(rewrite Hr, Ht; by apply (co_free _ _ _ Hs f)) s (conj Hs Hx)) as Hset.
    rewrite sfl_setfile in *. destruct Hset as [Hset _]. eapply counts_eq, Hset; intros j; cbn.
    + unfold addc. case_decide; lia.
    + assert (holds j (g x) ↔ holds j x) by (unfold holds; by rewrite Ht, Hi). unfold one. repeat case_decide; tauto || lia.
  - rewrite sfl_setfile. eapply counts_ext, Hs; try done. cbn. apply list_eq. intros i.
    destruct (decide (i = f)) as [->|Hne]; [by rewrite list_lookup_alter_eq, Hx|by rewrite list_lookup_alter_ne].
Qed.

Lemma kept_dev oF oI tbl major addr n : quiet_dev tbl → kept (counts oF oI) (sfl (devsw tbl major addr n)).
Proof.
  intros Hq. apply counts_quiet. intros fi it. unfold devsw. destruct (_ || _); [kept|].
  destruct (tbl major) eqn:E; [|kept]. by eapply Hq.
Qed.

Hint Resolve kept_sfl_ret kept_sfl_mnth keep_getfile keep_begin_op keep_end_op kept_dev : kept.
Hint Extern 1 (kept _ (sfl (flf _))) => (apply kept_sfl_fs; intros; solve [eauto with kept]) : kept.
Hint Extern 1 (kept _ (sfl (on_pipe _ _))) => (apply counts_quiet, quiet_pipe) : kept.
Hint Extern 1 (kept _ (sfl (setfile _ _))) => (apply kept_setfile; intros; split_and!; done) : kept.
Hint Extern 1 (kept _ (sfl (panic _))) => (intros ? _; done) : kept.

Lemma keep_fileread oF oI f addr n : kept (counts oF oI) (sfl (fileread me dev_read f addr n)).
Proof.
  unfold fileread. apply kept_sfl_bind; [kept|]. intros x. destruct (_ =? 0); [kept|]. destruct (fl_type x); [kept..| |kept].
  do 4 (apply kept_sfl_bind; [kept|]; intros ?). apply kept_sfl_bind; [destruct (_ >? 0); cbn [mwhen]; kept|]. intros [].
  apply kept_sfl_bind; [kept|]. intros ?. kept.
Qed.

Lemma keep_filewrite oF oI f addr n : kept (counts oF oI) (sfl (filewrite me dev_write f addr n)).
Proof.
  assert (∀ ip a n1, kept (counts oF oI) (sfl (write_chunk me f ip a n1) : SM Z)) as Hchunk.
  { intros ip a n1. unfold write_chunk. do 4 (apply kept_sfl_bind; [kept|]; intros ?).
    apply kept_sfl_bind; [destruct (_ >? 0); cbn [mwhen]; kept|]. intros []. do 2 (apply kept_sfl_bind; [kept|]; intros ?). kept. }
  unfold filewrite. apply kept_sfl_bind; [kept|]. intros x. destruct (_ =? 0); [kept|]. destruct (fl_type x); [kept..| |kept].
  apply kept_sfl_bind; [kept|]. intros ip. apply kept_sfl_bind; [|intros i; kept].
  generalize (Datatypes.S (Z.to_nat (n / write_max) + 1)) 0. intros fuel. induction fuel as [|fuel IH]; intros i; cbn [filewrite_loop]; [by intros ? _|].
  destruct (i <? n); [|kept]. apply kept_sfl_bind; [apply Hchunk|]. intros r. destruct (negb _); [kept|apply IH].
Qed.

Lemma keep_filestat oF oI pad f addr : kept (counts oF oI) (sfl (filestat me pad f addr) : SM Z).
Proof.
  unfold filestat, fl_copyout. apply kept_sfl_bind; [kept|]. intros x. destruct (fl_type x); [kept|kept|..];
    (do 5 (apply kept_sfl_bind; [kept|]; intros ?); kept).
Qed.

(** ** Descriptors *)

Lemma length_filter_fd l fd f o g :
  l !! fd = Some o → Z.of_nat (nfd g (<[fd := f]> l)) = Z.of_nat (nfd g l) - one (o = Some g) + one (f = Some g).
Proof. intros Ho. unfold nfd. rewrite (length_filter_insert (λ o, o = Some g) l fd o f Ho). unfold one. repeat case_decide; done. Qed.

(** Descriptors and the files they name. *)
Definition has_fds (l : list (nat * nat)) s : Prop := ∀ fd f, (fd, f) ∈ l → ss_ofile s !! fd = Some (Some f).

Lemma tr_setfd oF oI fd o o' l (R : fls S U → Prop) :
  fd ∉ l.*1 →
  tr (λ s, counts oF oI s ∧ ss_ofile s !! fd = Some o ∧ has_fds l s ∧ R (ss_fl s)) (setfd fd o')
    (λ _ s, counts (λ f, oF f + one (o = Some f) - one (o' = Some f)) oI s ∧ ss_ofile s !! fd = Some o' ∧ has_fds l s ∧ R (ss_fl s)).
Proof.
  intros Hl s ([Hf Hn Hi] & Ho & Hfds & HR). cbn. split_and!; [split; [|done|done]| | |done].
  - intros f x Hx. cbn [ss_ofile ss_fl] in *. rewrite (length_filter_fd _ _ _ _ _ Ho), (Hf f x Hx). lia.
  - rewrite list_lookup_insert_eq; [done|]. by eapply lookup_lt_Some.
  - intros fd' f Hin. cbn. rewrite list_lookup_insert_ne; [by apply Hfds|]. intros ->. apply Hl. apply list_elem_of_fmap. by exists (fd', f).
Qed.

Lemma tr_fdalloc oF oI f l (R : fls S U → Prop) :
  tr (λ s, counts oF oI s ∧ has_fds l s ∧ R (ss_fl s)) (fdalloc f)
    (λ r s, match r with
            | Some fd => counts (addc oF f (-1)) oI s ∧ (fd ∉ l.*1) ∧ has_fds ((fd, f) :: l) s ∧ R (ss_fl s)
            | None => counts oF oI s ∧ has_fds l s ∧ R (ss_fl s)
            end).
Proof.
  unfold fdalloc.
  apply (tr_mfind _ _ _ (λ fd s, counts (addc oF f (-1)) oI s ∧ (fd ∉ l.*1) ∧ has_fds ((fd, f) :: l) s ∧ R (ss_fl s))). intros fd.
  eapply tr_bind; [apply (tr_mget _ (λ a s, a = s ∧ counts oF oI s ∧ has_fds l s ∧ R (ss_fl s))); done|]. intros s0.
  eapply tr_bind; [apply (tr_mnth _ _ (λ o s, counts oF oI s ∧ ss_ofile s !! fd = Some o ∧ has_fds l s ∧ R (ss_fl s)))|].
  { intros o s Ho (-> & Hs & Hl & HR). by split_and!. }
  intros [g|]; [apply tr_ret; by intros s (? & _ & ? & ?)|].
  eapply tr_bind with (R := λ _ s, (fd ∉ l.*1) ∧ counts (λ g, oF g + one (None = Some g) - one (Some f = Some g)) oI s ∧
    ss_ofile s !! fd = Some (Some f) ∧ has_fds l s ∧ R (ss_fl s)).
  { intros s Hs. assert (fd ∉ l.*1) as Hfd.
    { intros ([fd' g] & -> & Hin)%list_elem_of_fmap. destruct Hs as (_ & Ho & Hl & _). cbn in Ho. rewrite (Hl fd' g Hin) in Ho. done. }
    pose proof (tr_setfd oF oI fd None (Some f) l R Hfd s Hs) as Hset. destruct (setfd fd (Some f) s); done. }
  intros []. apply tr_ret. intros s (Hfd & Hs & Ho & Hl & HR). split_and!; [|done| |done].
  - eapply counts_eq, Hs; [|done]. intros j. unfold addc, one. repeat case_decide; naive_solver lia.
  - intros fd' g [[= -> ->]|Hin]%elem_of_cons; [done|]. by apply Hl.
Qed.

(** Calls that only look at the arguments. *)
Lemma keep_argraw (I : sst S U → Prop) n : kept I (argraw n).
Proof. unfold argraw. kept. Qed.
Hint Resolve keep_argraw : kept.

Lemma keep_argint (I : sst S U → Prop) n : kept I (argint n).
Proof. unfold argint. kept. Qed.

Lemma keep_argaddr (I : sst S U → Prop) n : kept I (argaddr n).
Proof. unfold argaddr. kept. Qed.

Lemma keep_argstr (I : sst S U → Prop) n max : kept I (argstr n max).
Proof. unfold argstr, fetchstr, umem, argaddr. kept. Qed.
Hint Resolve keep_argint keep_argaddr keep_argstr : kept.

Lemma tr_argfd oF oI n :
  tr (counts oF oI) (argfd n : SM (option (nat * nat))) (λ r s, counts oF oI s ∧ match r with Some (fd, f) => ss_ofile s !! fd = Some (Some f) | None => True end).
Proof.
  unfold argfd. eapply tr_bind; [apply keep_argint|]. intros fd. destruct (_ || _); [by apply tr_ret|].
  eapply tr_bind; [apply (tr_mget _ (λ a s, a = s ∧ counts oF oI s)); done|]. intros s0.
  eapply tr_bind; [apply (tr_mnth _ _ (λ o s, counts oF oI s ∧ ss_ofile s !! Z.to_nat fd = Some o))|].
  { intros o s Ho (-> & Hs). by split. }
  intros [f|]; apply tr_ret; [done|]. by intros s [Hs _].
Qed.

(** ** The calls *)

Lemma tr_bind_kept {A B} (P : sst S U → Prop) (m : SM A) (k : A → SM B) Q :
  kept P m → (∀ a, tr P (k a) Q) → tr P (m ≫= k) Q.
Proof. intros Hm Hk. eapply tr_bind; [exact Hm|done]. Qed.

Lemma keep_s_begin oF oI : kept (counts oF oI) (s_begin_op : SM unit).
Proof. apply keep_begin_op. Qed.

Lemma keep_s_end oF oI : kept (counts oF oI) (s_end_op me : SM unit).
Proof. apply keep_end_op. Qed.

Lemma keep_s_ino oF oI ip : kept (counts oF oI) (s_ino ip : SM inode).
Proof. apply counts_keep. intros o. kept. Qed.

Lemma keep_s_setd oF oI ip g : kept (counts oF oI) (s_setd ip g : SM unit).
Proof. apply counts_keep. intros o. kept. Qed.

Hint Resolve keep_s_begin keep_s_end keep_s_ino keep_s_setd keep_fileread keep_filewrite keep_filestat : kept.
Hint Extern 1 (kept _ (sfs _)) => (apply counts_keep; intros; solve [kept]) : kept.

(** The next call keeps the counts. *)
Ltac rs := cbv beta zeta; apply tr_bind_kept; [solve [kept]|intros ?].
Ltac rret := apply tr_ret; intros ? ?; assumption.

Lemma tr_put_unlock oF oI ip : tr (counts oF (addc oI ip 1)) (sfs (iunlockput me ip) : SM unit) (λ _, counts oF oI).
Proof. apply counts_put. intros o. apply tr_iunlockput. Qed.

Lemma tr_put oF oI ip : tr (counts oF (addc oI ip 1)) (sfs (iput me ip) : SM unit) (λ _, counts oF oI).
Proof. apply counts_put. intros o. apply tr_iput. Qed.

Ltac rput := cbv beta zeta; eapply tr_bind; [apply tr_put_unlock|intros []].

Lemma tr_s_namei oF oI path : tr (counts oF oI) (s_namei me path : SM (option nat)) (given oF oI).
Proof. unfold s_namei. rs. apply (counts_take oF oI _ id). intros o. apply tr_namei. Qed.

Lemma tr_s_nameiparent oF oI path :
  tr (counts oF oI) (s_nameiparent me path : SM (option nat * list Z)) (λ r, given oF oI (fst r)).
Proof. unfold s_nameiparent. rs. apply counts_take. intros o. apply tr_namex. Qed.

Lemma keep_sys_dup oF oI : kept (counts oF oI) (sys_dup : SM Z).
Proof.
  unfold sys_dup. eapply tr_bind; [apply tr_argfd|]. intros [[fd f]|]; [|apply tr_ret; by intros ? [? _]].
  eapply tr_bind; [eapply tr_pre; [apply (tr_fdalloc oF oI f [] (λ _, True))|intros ? [? _]; split_and!; [done|by intros ? ? ?%elem_of_nil|done]]|].
  intros [fd'|]; [|apply tr_ret; by intros ? [? _]]. eapply tr_bind; [eapply tr_pre; [apply tr_filedup|by intros ? [? _]]|].
  intros g. apply tr_ret. intros s Hs. eapply counts_eq, Hs; [|done]. intros j. unfold addc. case_decide; lia.
Qed.

Lemma keep_denied oF oI f bit : kept (counts oF oI) (denied f bit : SM bool).
Proof. unfold denied. kept. Qed.
Hint Resolve keep_denied : kept.

Lemma tr_argfd_kept {A} oF oI n (k : option (nat * nat) → SM A) :
  (∀ r, kept (counts oF oI) (k r)) → kept (counts oF oI) (argfd n ≫= k).
Proof. intros Hk. eapply tr_bind; [apply tr_argfd|]. intros r. eapply tr_pre; [apply Hk|by intros ? [? _]]. Qed.

Lemma keep_sys_read oF oI : kept (counts oF oI) (sys_read me dev_read : SM pres).
Proof. unfold sys_read. rs. rs. apply tr_argfd_kept. intros [[fd f]|]; kept. Qed.

Lemma keep_sys_write oF oI : kept (counts oF oI) (sys_write me dev_write : SM pres).
Proof. unfold sys_write. rs. rs. apply tr_argfd_kept. intros [[fd f]|]; kept. Qed.

Lemma keep_sys_fstat oF oI pad : kept (counts oF oI) (sys_fstat me pad : SM Z).
Proof. unfold sys_fstat. rs. apply tr_argfd_kept. intros [[fd f]|]; kept. Qed.

Lemma keep_sys_lseek oF oI : kept (counts oF oI) (sys_lseek : SM Z).
Proof. unfold sys_lseek. apply tr_argfd_kept. intros [[fd f]|]; kept. Qed.

Lemma keep_sys_close oF oI : kept (counts oF oI) (sys_close me kend : SM Z).
Proof.
  unfold sys_close. eapply tr_bind; [apply tr_argfd|]. intros [[fd f]|]; [|apply tr_ret; by intros ? [? _]].
  eapply tr_bind; [eapply tr_pre; [apply (tr_setfd oF oI fd (Some f) None [] (λ _, True)); apply not_elem_of_nil|]|].
  { intros s [Hs Ho]. split_and!; [done|done|by intros ? ? ?%elem_of_nil|done]. }
  intros [].
  eapply tr_bind; [eapply tr_pre; [apply tr_fileclose|by intros ? [? _]]|]. intros []. apply tr_ret. intros s Hs.
  eapply counts_eq, Hs; [|done]. intros j. unfold addc, one. repeat case_decide; naive_solver lia.
Qed.

Lemma keep_sys_link oF oI : kept (counts oF oI) (sys_link me : SM Z).
Proof.
  unfold sys_link. rs. destruct a as [old|]; [|kept]. rs. destruct a as [new|]; [|kept]. rs.
  eapply tr_bind; [apply tr_s_namei|]. intros [ip|]; cbn [given]; [|kept]. rs. rs. destruct (_ =? T_DIR); [rput; kept|].
  rs. rs. rs. eapply tr_bind; [apply tr_s_nameiparent|]. intros [[dp|] name]; cbn [given fst].
  2:{ rs. rs. rs. rput. kept. }
  rs. rs. rs. apply tr_bind_kept; [destruct (negb _); kept|]. intros r. destruct (r <? 0); rput.
  - rs. rs. rs. rput. kept.
  - eapply tr_bind; [apply tr_put|]. intros []. kept.
Qed.

Lemma keep_isdirempty o dp : kept (irefs o) (isdirempty me dp : M (fstate S U) bool).
Proof.
  unfold isdirempty. kept. generalize (dir_fuel (d_size (i_d a))) (2 * sizeof_dirent). intros fuel.
  induction fuel as [|fuel IH]; intros off; cbn [isdirempty_loop]; kept.
Qed.
Hint Resolve keep_isdirempty : kept.

Lemma keep_sys_unlink oF oI : kept (counts oF oI) (sys_unlink me : SM Z).
Proof.
  unfold sys_unlink. rs. destruct a as [path|]; [|kept]. rs. eapply tr_bind; [apply tr_s_nameiparent|].
  intros [[dp|] name]; cbn [given fst]; [|kept]. rs. destruct (_ || _); [rput; kept|].
  eapply tr_bind; [apply counts_take; intros o; apply tr_dirlookup|]. intros [[ip off]|]; cbn [given fmap option_fmap option_map fst]; [|rput; kept].
  rs. rs. destruct (_ <? 1); [by intros ? _|]. apply tr_bind_kept; [destruct (_ =? T_DIR); kept|]. intros empty.
  destruct (negb empty); [rput; rput; kept|]. rs. rs. destruct (negb _); [by intros ? _|]. rs.
  eapply tr_bind; [eapply (tr_conseq _ (counts oF (addc (addc oI ip 1) dp 1))); [apply tr_put_unlock| |done]|].
  { intros s Hs. eapply counts_eq, Hs; [done|]. intros j. unfold addc. repeat case_decide; lia. }
  intros []. rs. rs. rput. kept.
Qed.

Lemma tr_create oF oI path type major minor : tr (counts oF oI) (create me path type major minor : SM (option nat)) (given oF oI).
Proof.
  unfold create. eapply tr_bind; [apply tr_s_nameiparent|]. intros [[dp|] name]; cbn [given fst]; [|rret]. rs.
  eapply tr_bind; [apply counts_take; intros o; apply tr_dirlookup|]. intros [[ip off]|]; cbn [given fmap option_fmap option_map fst].
  - eapply tr_bind; [eapply (tr_conseq _ (counts oF (addc (addc oI ip 1) dp 1))); [apply tr_put_unlock| |done]|].
    { intros s Hs. eapply counts_eq, Hs; [done|]. intros j. unfold addc. repeat case_decide; lia. }
    intros []. rs. rs. destruct (_ && _); [rret|]. rput. rret.
  - rs. eapply tr_bind; [apply (counts_take _ _ _ id); intros o; apply tr_ialloc|]. intros [ip|]; cbn [given id]; [|rput; rret].
    rs. rs. rs. rs. rs. apply tr_bind_kept; [destruct (type =? T_DIR); kept|]. intros r. destruct (r <? 0); [rs; rs; rput; rput; rret|].
    rs. destruct (_ <? 0); [rs; rs; rput; rput; rret|]. rs.
    eapply tr_bind; [eapply (tr_conseq _ (counts oF (addc (addc oI ip 1) dp 1))); [apply tr_put_unlock| |done]|].
    { intros s Hs. eapply counts_eq, Hs; [done|]. intros j. unfold addc. repeat case_decide; lia. }
    intros []. rs. rret.
Qed.

Lemma keep_sys_mkdir oF oI : kept (counts oF oI) (sys_mkdir me : SM Z).
Proof.
  unfold sys_mkdir. rs. rs. eapply tr_bind with (R := given oF oI); [destruct a0; [apply tr_create|rret]|].
  intros [ip|]; cbn [given]; [rput|]; kept.
Qed.

Lemma keep_sys_mknod oF oI : kept (counts oF oI) (sys_mknod me : SM Z).
Proof.
  unfold sys_mknod. rs. rs. rs. rs. eapply tr_bind with (R := given oF oI); [destruct a2; [apply tr_create|rret]|].
  intros [ip|]; cbn [given]; [rput|]; kept.
Qed.

Lemma keep_sys_chdir oF oI : kept (counts oF oI) (sys_chdir me : SM Z).
Proof.
  unfold sys_chdir. rs. rs. eapply tr_bind with (R := given oF oI); [destruct a0; [apply tr_s_namei|rret]|].
  intros [ip|]; cbn [given]; [|kept]. rs. rs. destruct (negb _); [rput; kept|]. rs.
  eapply tr_bind; [apply (tr_mget _ (λ b s, b = s ∧ counts oF (addc oI ip 1) s)); done|]. intros s0.
  eapply tr_bind with (R := λ _ s, ss_cwd s = ss_cwd s0 ∧ counts oF (λ j, addc oI ip 1 j - one (j = ss_cwd s0)) s).
  { intros s [<- Hs]. pose proof (counts_fs oF (addc oI ip 1) (iput me (ss_cwd s0)) (λ _ j, if decide (j = ss_cwd s0) then -1 else 0)
      (λ o, tr_iput me o (ss_cwd s0)) s0 Hs) as Hput. unfold sfs, sfl, lift in *. destruct (flf _ _) as [[] t| | | |]; try done.
    split; [done|]. eapply counts_eq, Hput; [done|]. intros j. unfold one. case_decide; lia. }
  intros []. eapply tr_bind with (R := λ _ s, ss_cwd s = ss_cwd s0 ∧ counts oF (λ j, addc oI ip 1 j - one (j = ss_cwd s0)) s).
  { intros s [Hcwd Hs]. pose proof (keep_end_op me oF _ s Hs) as He. unfold s_end_op, sfl, lift in *.
    destruct (fl_end_op me _) as [[] t| | | |]; done. }
  intros []. eapply tr_bind; [apply (tr_modify _ _ (λ _, counts oF oI))|].
  - intros s [Hcwd [Hf Hn Hi]]. split; [done|done|]. eapply irefs_ext; [|exact Hi]. intros j. unfold ioff, addc, one. cbn [ss_cwd ss_fl].
    rewrite Hcwd. repeat case_decide; lia.
  - intros []. kept.
Qed.

(** Setting up a fresh file, as the end of a pipe or for the inode [ip] whose
    reference it takes over; other fresh files stay fresh. *)
Lemma tr_setup oF oI f g (l : list nat) (ipo : option nat) :
  (∀ x, fl_ref (g x) = fl_ref x) → (∀ x ip, holds ip (g x) ↔ ipo = Some ip) → f ∉ l →
  tr (λ s, counts oF (λ j, oI j + one (ipo = Some j)) s ∧ ∀ h, h ∈ f :: l → fresh h s) (sfl (setfile f g))
    (λ _ s, counts oF oI s ∧ ∀ h, h ∈ l → fresh h s).
Proof.
  intros Hr Hh Hf s [Hs Hl]. destruct (Hl f) as (x & Hx & Hx0 & Hxt); [left|].
  pose proof (tr_setfile oF (λ j, oI j + one (ipo = Some j)) f x g ltac:(rewrite Hr; lia) s (conj Hs Hx)) as Hset.
  rewrite sfl_setfile in *. destruct Hset as [Hset _]. split.
  - eapply counts_eq, Hset; intros j; cbn; [unfold addc; rewrite Hr; case_decide; lia|].
    assert (¬ holds j x) by (unfold holds; rewrite Hxt; by intros [[|] _]). specialize (Hh x j).
    unfold one. repeat case_decide; tauto || lia.
  - intros h Hin. destruct (Hl h) as (y & Hy & Hy0 & Hyt); [by right|]. exists y. split_and!; [|done|done]. cbn.
    rewrite list_lookup_alter_ne; [done|]. by intros ->.
Qed.

Lemma tr_quiet_fresh {A} oF oI (l : list nat) (m : M (fls S U) A) :
  quiet m → kept (λ s, counts oF oI s ∧ ∀ h, h ∈ l → fresh h s) (sfl m).
Proof.
  intros Hm s [Hs Hl]. specialize (Hm (fl_files (ss_fl s)) (f_it (fl_fs (ss_fl s))) (ss_fl s) (conj eq_refl eq_refl)).
  unfold sfl, lift. destruct (m (ss_fl s)); try done. destruct Hm as [H1 H2]. split; [by eapply counts_ext, Hs|].
  intros h Hh. unfold fresh. cbn. rewrite H1. by apply Hl.
Qed.

Lemma tr_sfl_skip {A} (P : sst S U → Prop) (k : unit → M (fls S U) A) Q : tr P (sfl (k tt)) Q → tr P (sfl (mret tt ≫= k)) Q.
Proof. done. Qed.

(** [pipealloc] returns two new files, or has given back what it took. *)
Lemma tr_pipealloc oF oI :
  tr (counts oF oI) (sfl (pipealloc me kend) : SM (option (nat * nat)))
    (λ r s, match r with Some (f0, f1) => counts (addc (addc oF f0 1) f1 1) oI s | None => counts oF oI s end).
Proof.
  unfold pipealloc. eapply tr_sfl_bind; [eapply tr_pre; [apply (tr_filealloc oF oI [])|]|].
  { intros s Hs. split; [done|]. by intros g ?%elem_of_nil. }
  intros [f0|]; cbv beta zeta.
  2:{ apply tr_sfl_skip, tr_sfl_skip, tr_sfl_ret. by intros s [Hs _]. }
  eapply tr_sfl_bind; [eapply tr_pre; [apply (tr_filealloc (addc oF f0 1) oI [f0])|by intros s (? & _ & ?)]|].
  assert (∀ s, counts (addc (addc oF f0 1) f0 (-1)) oI s → counts oF oI s) as Hback.
  { intros s Hs. eapply counts_eq, Hs; [|done]. intros j. apply addc_back. }
  intros [f1|].
  2:{ eapply tr_sfl_bind; [eapply tr_pre; [apply tr_fileclose|by intros s [? _]]|]. intros []. by apply tr_sfl_skip, tr_sfl_ret. }
  set (oF2 := addc (addc oF f0 1) f1 1). 
  eapply tr_sfl_bind with (R := λ _ s, (f1 ∉ [f0]) ∧ counts oF2 oI s ∧ ∀ h, h ∈ [f1; f0] → fresh h s).
  { intros s (Hs & Hne & Hl). pose proof (tr_quiet_fresh oF2 oI [f1; f0] (flk kalloc) (quiet_flk kalloc) s (conj Hs Hl)) as Hk.
    destruct (sfl (flk kalloc) s); done. }
  intros pi. apply tr_pull. intros Hne%not_elem_of_cons. destruct (pi =? 0).
  { eapply tr_sfl_bind; [eapply tr_pre; [apply tr_fileclose|by intros s [? _]]|]. intros [].
    eapply tr_sfl_bind; [apply tr_fileclose|]. intros []. apply tr_sfl_ret. intros s Hs. eapply counts_eq, Hs; [|done].
    intros j. unfold oF2, addc. repeat case_decide; lia. }
  eapply tr_sfl_bind; [apply tr_quiet_fresh; intros fi it; by apply tr_modify|]. intros [].
  assert (∀ s, counts oF2 oI s → counts oF2 (λ j, oI j + one (None = Some j)) s) as Hnone.
  { intros s Hs. eapply counts_eq, Hs; [done|]. intros j. unfold one. case_decide; lia || done. }
  eapply tr_sfl_bind; [eapply tr_pre; [apply (tr_setup oF2 oI f0 _ [f1] None)|]|].
  - done.
  - intros x ip. unfold holds. cbn. split; [by intros [[|] _]|done].
  - rewrite list_elem_of_singleton. intros ->. by destruct Hne.
  - intros s [Hs Hl]. split; [by apply Hnone|]. intros h Hh. apply Hl. set_solver.
  - intros []. eapply tr_sfl_bind; [eapply tr_pre; [apply (tr_setup oF2 oI f1 _ [] None)|]|].
    + done.
    + intros x ip. unfold holds. cbn. split; [by intros [[|] _]|done].
    + apply not_elem_of_nil.
    + intros s [Hs Hl]. split; [by apply Hnone|done].
    + intros []. apply tr_sfl_ret. by intros s [Hs _].
Qed.

Lemma tr_sys_chmod oF oI : tr (counts oF oI) (sys_chmod me : SM Z)
  (λ r s, if r =? 0 then ∃ ip, counts oF (addc oI ip 1) s else counts oF oI s).
Proof.
  unfold sys_chmod. rs. rs. destruct a0 as [path|]; [|rs; rret]. rs. eapply tr_bind; [apply tr_s_namei|].
  intros [ip|]; cbn [given]; [|rs; rs; rret]. rs. rs. rs. rs. rs. apply tr_ret. intros s Hs. by exists ip.
Qed.

(** The descriptors are not touched below. *)
Lemma kept_fds {A} oF oI l (m : M (fls S U) A) :
  kept (counts oF oI) (sfl m) → kept (λ s, counts oF oI s ∧ has_fds l s ∧ True) (sfl m).
Proof. intros Hm s (Hs & Hl & _). specialize (Hm s Hs). unfold sfl, lift in *. by destruct (m (ss_fl s)). Qed.

Lemma keep_sys_pipe oF oI : kept (counts oF oI) (sys_pipe me kend : SM Z).
Proof.
  unfold sys_pipe. rs. eapply tr_bind; [apply tr_pipealloc|]. intros [[rf wf]|]; [|kept]. cbv beta zeta.
  set (o2 := addc (addc oF rf 1) wf 1).
  assert (∀ o, (∀ f, o f = o2 f) → tr (counts o oI) (sfl (fileclose me kend rf) ;; sfl (fileclose me kend wf) ;; mret (-1) : SM Z) (λ _, counts oF oI)) as Hbad.
  { intros o Ho. eapply tr_bind; [apply tr_fileclose|]. intros []. eapply tr_bind; [apply tr_fileclose|]. intros []. apply tr_ret.
    intros s Hs. eapply counts_eq, Hs; [|done]. intros f. unfold addc at 1 2. rewrite Ho. unfold o2, addc. repeat case_decide; lia. }
  eapply tr_bind; [eapply tr_pre; [apply (tr_fdalloc o2 oI rf [] (λ _, True))|intros s Hs; split_and!; [done|by intros ? ? ?%elem_of_nil|done]]|].
  intros [fd0|]; [|eapply tr_pre; [by apply Hbad|by intros s [? _]]].
  eapply tr_bind; [eapply tr_pre; [apply (tr_fdalloc (addc o2 rf (-1)) oI wf [(fd0, rf)] (λ _, True))|by intros s (? & _ & ? & ?)]|].
  set (o3 := addc (addc o2 rf (-1)) wf (-1)). intros [fd1|].
  2:{ eapply tr_bind; [eapply tr_pre; [apply (tr_setfd (addc o2 rf (-1)) oI fd0 (Some rf) None [] (λ _, True)); apply not_elem_of_nil|]|].
      { intros s (Hs & Hl & _). split_and!; [exact Hs|apply Hl; left|by intros ? ? ?%elem_of_nil|done]. }
      intros []. eapply tr_pre; [apply Hbad|by intros s [? _]]. intros f. unfold o2, addc, one. repeat case_decide; naive_solver lia. }
  eapply tr_bind with (R := λ _ s, (fd1 ∉ [fd0]) ∧ counts o3 oI s ∧ has_fds [(fd1, wf); (fd0, rf)] s ∧ True).
  { intros s (Hs & Hne & Hl & _). unfold fl_copyout.
    pose proof (kept_fds o3 oI [(fd1, wf); (fd0, rf)] (flf (either_copyout true a (le_bytes 4 (Z.of_nat fd0)))) ltac:(kept) s (conj Hs (conj Hl I))) as Hk.
    destruct (sfl _ s); done. }
  intros ok. apply tr_pull. intros Hne.
  eapply tr_bind with (R := λ _ s, counts o3 oI s ∧ has_fds [(fd1, wf); (fd0, rf)] s ∧ True).
  { destruct ok; [|by apply tr_ret]. apply kept_fds. unfold fl_copyout. kept. }
  intros []; [apply tr_ret; intros s [Hs _]; eapply counts_eq, Hs; [|done]; intros f; unfold o3, o2, addc; repeat case_decide; lia|].
  eapply tr_bind; [eapply tr_pre; [apply (tr_setfd o3 oI fd0 (Some rf) None [(fd1, wf)] (λ _, True))|]|].
  { cbn [fmap list_fmap fst]. intros ->%list_elem_of_singleton. apply Hne. left. }
  { intros s (Hs & Hl & _). split_and!; [done|apply Hl; right; left|intros ? ? Hin; apply Hl; apply elem_of_cons; left; by apply list_elem_of_singleton in Hin|done]. }
  intros []. eapply tr_bind; [eapply tr_pre; [apply (tr_setfd (λ f, o3 f + one (Some rf = Some f) - one (None = Some f)) oI fd1 (Some wf) None [] (λ _, True)); apply not_elem_of_nil|]|].
  { intros s (Hs & _ & Hl & _). split_and!; [exact Hs|apply Hl; left|by intros ? ? ?%elem_of_nil|done]. }
  intros []. eapply tr_pre; [apply Hbad|by intros s [? _]]. intros f. unfold o3, o2, addc, one. repeat case_decide; naive_solver lia.
Qed.

(** The file takes over the reference to the inode. *)
Lemma tr_open_inode oF oI ip omode : tr (counts oF (addc oI ip 1)) (open_inode me kend ip omode : SM Z) (λ _, counts oF oI).
Proof.
  unfold open_inode. rs. cbv beta zeta. destruct (_ && _); [rput; kept|]. destruct (_ && _); [rput; kept|]. destruct (_ && _); [rput; kept|].
  eapply tr_bind; [eapply tr_pre; [apply (tr_filealloc oF (addc oI ip 1) [])|intros s Hs; split; [exact Hs|by intros g ?%elem_of_nil]]|].
  intros [f|]; [|eapply tr_pre; [|by intros s [? _]]; rput; kept].
  eapply tr_bind; [eapply tr_pre; [apply (tr_fdalloc (addc oF f 1) (addc oI ip 1) f [] (λ t, fresh f (SSt [] 0%nat 0 [] t)))|]|].
  { intros s (Hs & _ & Hl). split_and!; [done|by intros ? ? ?%elem_of_nil|apply (Hl f); left]. }
  intros [fd|].
  2:{ eapply tr_bind; [eapply tr_pre; [apply tr_fileclose|by intros s [? _]]|]. intros [].
      eapply (tr_pre _ (counts oF (addc oI ip 1))); [rput; kept|]. intros s Hs. eapply counts_eq, Hs; [|done]. intros j. apply addc_back. }
  assert (∀ g, (∀ x, fl_ref (g x) = fl_ref x) → (∀ x j, holds j (g x) ↔ Some ip = Some j) →
    tr (λ s, counts (addc (addc oF f 1) f (-1)) (addc oI ip 1) s ∧ (fd ∉ ([] : list (nat * nat)).*1) ∧ has_fds [(fd, f)] s ∧ fresh f (SSt [] 0%nat 0 [] (ss_fl s)))
      (sfl (setfile f g)) (λ _, counts oF oI)) as Hset.
  { intros g Hr Hh. eapply tr_conseq; [apply (tr_setup oF oI f g [] (Some ip) Hr Hh (not_elem_of_nil _))| |by intros _ s [? _]].
    intros s (Hs & _ & _ & Hfr). split; [|by intros h ->%list_elem_of_singleton]. eapply counts_eq, Hs; intros j; [apply addc_back|].
    unfold addc, one. repeat case_decide; naive_solver. }
  assert (∀ x j, (fl_type x = FD_INODE ∨ fl_type x = FD_DEVICE) → fl_ip x = Some ip → (holds j x ↔ Some ip = Some j)) as Hholds.
  { intros x j Ht Hi. unfold holds. rewrite Hi. tauto. }
  destruct (_ =? T_DEVICE); apply tr_fuse; (eapply tr_bind; [apply Hset; [done|intros; apply Hholds; [by cbn; auto|done]]|]); intros []; kept.
Qed.

Lemma keep_sys_open oF oI : kept (counts oF oI) (sys_open me kend : SM Z).
Proof.
  unfold sys_open. rs. rs. destruct a0 as [path|]; [|kept]. rs. destruct (has a O_CREATE).
  - eapply tr_bind; [apply tr_create|]. intros [ip|]; cbn [given]; [apply tr_open_inode|kept].
  - eapply tr_bind; [apply tr_s_namei|]. intros [ip|]; cbn [given]; [|kept]. rs. rs. destruct (_ && _); [rput; kept|apply tr_open_inode].
Qed.

(** ** The theorems *)

(** What a call does, without its result. *)
Definition only {A} (m : SM A) : SM unit := m ;; mret tt.

(** Every system call of sysfile.c except [sys_chmod] and [sys_exec]. *)
Definition file_calls (pad : list Z) : list (SM unit) :=
  [only sys_dup; only (sys_read me dev_read); only (sys_write me dev_write); only (sys_close me kend); only (sys_fstat me pad);
   only (sys_link me); only (sys_unlink me); only (sys_open me kend); only (sys_mkdir me); only (sys_mknod me); only (sys_chdir me);
   only (sys_pipe me kend); only sys_lseek].

Lemma file_calls_keep oF oI pad m : m ∈ file_calls pad → kept (counts oF oI) m.
Proof.
  assert (∀ A (x : SM A), kept (counts oF oI) x → kept (counts oF oI) (only x)) as Honly by (intros A x Hx; unfold only; apply kept_bind; [exact Hx|intros ?; kept]).
  unfold file_calls. rewrite !elem_of_cons, elem_of_nil.
  intros H13. destruct_or? H13; subst; try done; apply Honly;
    auto using keep_sys_dup, keep_sys_read, keep_sys_write, keep_sys_close, keep_sys_fstat, keep_sys_link, keep_sys_unlink,
      keep_sys_open, keep_sys_mkdir, keep_sys_mknod, keep_sys_chdir, keep_sys_pipe, keep_sys_lseek.
Qed.

(** C9: Every system call of sysfile.c but [sys_chmod] and [sys_exec] keeps the
    reference counts, whatever it returns: each open file's count is the number of descriptors naming it, each
    inode's count the number of open files and current directories naming it,
    and a file without references is of no type. *)
Theorem sysfile_counts oF oI pad m s s' :
  counts oF oI s → m ∈ file_calls pad → m s = Ret tt s' → counts oF oI s'.
Proof. intros Hs Hm Hrun. exact (tr_use _ _ _ _ _ _ (file_calls_keep oF oI pad m Hm) Hs Hrun). Qed.

(** [sys_chmod] that succeeds keeps the reference to the inode that [namei]
    returned: an inode's count is one more than its uses afterwards. *)
Theorem chmod_leaks_inode oF oI s s' :
  counts oF oI s → sys_chmod me s = Ret 0 s' → ∃ ip, counts oF (addc oI ip 1) s'.
Proof. intros Hs Hrun. exact (tr_use _ _ _ _ _ _ (tr_sys_chmod oF oI) Hs Hrun). Qed.
End refs.

(** ** [sys_lseek] *)
Section lseek.
Context {S U : Type} `{BufOps S} `{UserMem U}.
Implicit Types s : sst S U.

(** The calling process's descriptor [fd] is file [f], record [x], of inode [i]. *)
Record seekable s (fd f : nat) (x : file) (ip : nat) (i : inode) : Prop := {
  sk_fd : (fd < NOFILE)%nat ∧ ss_ofile s !! fd = Some (Some f);
  sk_file : fl_files (ss_fl s) !! f = Some x ∧ fl_ip x = Some ip;
  sk_inode : f_it (fl_fs (ss_fl s)) !! ip = Some i;
  sk_size : 0 ≤ d_size (i_d i) < 2147483648;
  sk_off : 0 ≤ fl_off x ≤ d_size (i_d i)
}.

Definition with_off s (f : nat) (off : Z) : sst S U :=
  SSt (ss_ofile s) (ss_cwd s) (ss_sz s) (ss_args s) (flset_files (alter (flset_off off) f (fl_files (ss_fl s))) (ss_fl s)).

Lemma seek_run s fd f x ip i (cond : Z → bool) (off : Z → Z) :
  seekable s fd f x ip i →
  wp (ip ← mnth (fl_ip x); i ← s_ino ip;
      if cond (d_size (i_d i)) then mret (-1) else
      sfl (setfile f (flset_off (off (d_size (i_d i))))) ;; mret (off (d_size (i_d i)))) s
    (λ r s', r = (if cond (d_size (i_d i)) then -1 else off (d_size (i_d i))) ∧
             s' = if cond (d_size (i_d i)) then s else with_off s f (off (d_size (i_d i)))).
Proof.
  intros [_ [Hx Hip] Hi _ _]. wp_step. eapply wp_mnth; [exact Hip|]. wp_step. unfold s_ino, sfs, sfl, flf, getino.
  wp_step. wp_step. wp_step. wp_step. eapply wp_mnth; [exact Hi|]. destruct s as [ofile cwd sz args [k files pipes fs kd wk]]. cbn in *.
  destruct (cond (d_size (i_d i))); wp_steps; done.
Qed.

(** Where [whence] and [offset] point to. *)
Definition seek_target (whence offset off size : Z) : Z :=
  if whence =? SEEK_SET then offset else if whence =? SEEK_CUR then off + offset else size + offset.

Lemma wp_argint s n a (Q : Z → sst S U → Prop) : ss_args s !! n = Some a → (n < 6)%nat → Q (s32 a) s → wp (argint n) s Q.
Proof.
  intros Ha Hn HQ. unfold argint, argraw. wp_step. wp_step. wp_step. rewrite decide_True by done.
  eapply wp_mnth; [exact Ha|]. wp_step. exact HQ.
Qed.

Lemma wp_argfd s n a fd f (Q : option (nat * nat) → sst S U → Prop) :
  ss_args s !! n = Some a → (n < 6)%nat → s32 a = Z.of_nat fd → (fd < NOFILE)%nat → ss_ofile s !! fd = Some (Some f) →
  Q (Some (fd, f)) s → wp (argfd n) s Q.
Proof.
  intros Ha Hn Hfd Hlt Hof HQ. unfold argfd. wp_step. eapply wp_argint; [exact Ha|done|]. rewrite Hfd.
  rewrite (proj2 (Z.ltb_ge _ _)), Z.geb_leb, (proj2 (Z.leb_gt _ _)) by lia. cbn [orb]. wp_step. wp_step. wp_step.
  rewrite Nat2Z.id. eapply wp_mnth; [exact Hof|]. by wp_step.
Qed.

Lemma wp_getfile s f x (Q : file → sst S U → Prop) : fl_files (ss_fl s) !! f = Some x → Q x s → wp (sfl (getfile f)) s Q.
Proof. intros Hx HQ. unfold sfl, getfile. wp_step. wp_step. wp_step. eapply wp_mnth; [exact Hx|]. by destruct s. Qed.

Lemma lseek_run s fd f x ip i a0 a1 a2 rest :
  seekable s fd f x ip i → ss_args s = a0 :: a1 :: a2 :: rest → s32 a0 = Z.of_nat fd →
  let size := d_size (i_d i) in
  let t := seek_target (s32 a2) (s32 a1) (fl_off x) size in
  sys_lseek s =
    if ((s32 a2 =? SEEK_SET) || (s32 a2 =? SEEK_CUR)) && bool_decide (0 ≤ t ≤ size) then Ret t (with_off s f t)
    else if (s32 a2 =? SEEK_END) && bool_decide (s32 a1 ≤ 0) then Ret (u32 t) (with_off s f (u32 t))
    else Ret (-1) s.
Proof.
  intros Hsk Hargs Hfd size t. pose proof Hsk as [[Hlt Hof] [Hx Hip] Hi Hsize Hoff]. fold size in Hsize, Hoff.
  assert (-2147483648 ≤ s32 a1 < 2147483648) as Hoffs by wordlia.
  assert (∀ r s', wp sys_lseek s (λ r0 s0, r0 = r ∧ s0 = s') → sys_lseek s = Ret r s') as Huse.
  { intros r s' Hwp. by apply wp_Ret in Hwp as (r0 & s0 & Hrun & -> & ->). }
  match goal with |- _ = ?rhs => destruct rhs as [r s'| | | |] eqn:Hres; try (repeat case_match; done) end.
  apply Huse. unfold sys_lseek. wp_step. eapply wp_argfd; [by rewrite Hargs|lia|exact Hfd|done|exact Hof|].
  wp_step. eapply wp_argint; [by rewrite Hargs|lia|]. wp_step. eapply wp_argint; [by rewrite Hargs|lia|].
  wp_step. eapply wp_getfile; [exact Hx|]. cbv zeta. unfold seek_target in t.
  destruct (s32 a2 =? SEEK_SET) eqn:E0; [|destruct (s32 a2 =? SEEK_CUR) eqn:E1; [|destruct (s32 a2 =? SEEK_END) eqn:E2]];
    cbn [orb andb] in Hres; unfold t in Hres.
  - apply Z.eqb_eq in E0. rewrite E0 in Hres. cbn [Z.eqb SEEK_END andb] in Hres. destruct (Z.ltb_spec (s32 a1) 0) as [Hneg|Hpos].
    + rewrite bool_decide_eq_false_2 in Hres by lia. injection Hres as <- <-. by wp_step.
    + eapply wp_mono; [apply (seek_run s fd f x ip i (λ size, u32 (s32 a1) >? size) (λ _, u32 (s32 a1)) Hsk)|]. cbv beta. fold size.
      rewrite u32_small by lia. intros r0 s0 [-> ->]. destruct (Z.gtb_spec (s32 a1) size).
      * rewrite bool_decide_eq_false_2 in Hres by lia. by injection Hres as <- <-.
      * rewrite bool_decide_eq_true_2 in Hres by lia. by injection Hres as <- <-.
  - apply Z.eqb_eq in E1. rewrite E1 in Hres. cbn [Z.eqb SEEK_END andb] in Hres.
    eapply wp_mono; [apply (seek_run s fd f x ip i (λ size, (u32 (fl_off x + s32 a1) <? 0) || (u32 (fl_off x + s32 a1) >? size)) (λ _, u32 (fl_off x + s32 a1)) Hsk)|].
    cbv beta. fold size. intros r0 s0 [-> ->]. rewrite (proj2 (Z.ltb_ge (u32 (fl_off x + s32 a1)) 0)) by wordlia. cbn [orb].
    destruct (Z.gtb_spec (u32 (fl_off x + s32 a1)) size) as [Hgt|Hle].
    + rewrite bool_decide_eq_false_2 in Hres; [by injection Hres as <- <-|]. intros [? ?]. rewrite u32_small in Hgt by lia. lia.
    + assert (0 ≤ fl_off x + s32 a1) as Hge by wordlia. rewrite u32_small in * by lia.
      rewrite bool_decide_eq_true_2 in Hres by lia. by injection Hres as <- <-.
  - destruct (Z.gtb_spec (s32 a1) 0) as [Hpos|Hneg].
    + rewrite bool_decide_eq_false_2 in Hres by lia. injection Hres as <- <-. by wp_step.
    + rewrite bool_decide_eq_true_2 in Hres by lia. injection Hres as <- <-.
      eapply wp_mono; [apply (seek_run s fd f x ip i (λ size, u32 (size + s32 a1) <? 0) (λ size, u32 (size + s32 a1)) Hsk)|].
      cbv beta. fold size. rewrite (proj2 (Z.ltb_ge (u32 (size + s32 a1)) 0)) by wordlia. done.
  - injection Hres as <- <-. by wp_step.
Qed.

(** [sys_lseek] moves the offset to where it is asked to, within the file, and
    returns it; for a place before the start or after the end, or an unknown
    [whence], it returns -1 and changes nothing. Places before the start counted
    from the end are excepted. *)
Theorem lseek_correct s fd f x ip i a0 a1 a2 rest :
  seekable s fd f x ip i → ss_args s = a0 :: a1 :: a2 :: rest → s32 a0 = Z.of_nat fd →
  let size := d_size (i_d i) in
  let t := seek_target (s32 a2) (s32 a1) (fl_off x) size in
  (s32 a2 = SEEK_END → 0 ≤ t) →
  sys_lseek s = if bool_decide (0 ≤ s32 a2 ≤ 2 ∧ 0 ≤ t ≤ size) then Ret t (with_off s f t) else Ret (-1) s.
Proof.
  intros Hsk Hargs Hfd size t Hend. rewrite (lseek_run s fd f x ip i a0 a1 a2 rest Hsk Hargs Hfd). fold size. fold t.
  pose proof (sk_size _ _ _ _ _ _ Hsk) as Hsize. fold size in Hsize. unfold SEEK_SET, SEEK_CUR, SEEK_END in *.
  destruct (Z.eqb_spec (s32 a2) 0) as [E|E0]; [rewrite E; cbn [orb andb Z.eqb]; repeat case_bool_decide; done || lia|].
  destruct (Z.eqb_spec (s32 a2) 1) as [E|E1]; [rewrite E; cbn [orb andb Z.eqb]; repeat case_bool_decide; done || lia|].
  destruct (Z.eqb_spec (s32 a2) 2) as [E|E2]; cbn [orb andb]; [|rewrite bool_decide_eq_false_2 by lia; done].
  specialize (Hend E). assert (t = size + s32 a1) as Ht by (unfold t, seek_target, SEEK_SET, SEEK_CUR; by rewrite E).
  clearbody t. destruct (decide (s32 a1 ≤ 0)).
  - rewrite !bool_decide_eq_true_2 by lia. by rewrite u32_small by lia.
  - by rewrite !bool_decide_eq_false_2 by lia.
Qed.

(** C40: Seeking to a place before the start of the file counted from its end is not
    refused: the comparison with 0 is unsigned, the offset wraps around to a
    place after the end of the file, and that is what [sys_lseek] returns. *)
Theorem lseek_end_wraps s fd f x ip i a0 a1 a2 rest :
  seekable s fd f x ip i → ss_args s = a0 :: a1 :: a2 :: rest → s32 a0 = Z.of_nat fd →
  let size := d_size (i_d i) in
  s32 a2 = SEEK_END → size + s32 a1 < 0 →
  size < size + s32 a1 + 4294967296 ∧
  sys_lseek s = Ret (size + s32 a1 + 4294967296) (with_off s f (size + s32 a1 + 4294967296)).
Proof.
  intros Hsk Hargs Hfd size He Hneg. rewrite (lseek_run s fd f x ip i a0 a1 a2 rest Hsk Hargs Hfd). fold size.
  pose proof (sk_size _ _ _ _ _ _ Hsk) as Hsize. fold size in Hsize. unfold seek_target. rewrite He. cbn [orb andb Z.eqb Pos.eqb SEEK_SET SEEK_CUR SEEK_END].
  rewrite bool_decide_eq_true_2 by lia. assert (u32 (size + s32 a1) = size + s32 a1 + 4294967296) as -> by wordlia. split; [wordlia|done].
Qed.
End lseek.

(** ** Opening without permission *)

Section denied.
Context {S U : Type} `{BufOps S} `{UserMem U} (me kend : Z).

Lemma wp_sfs {A} (m : M (fstate S U) A) (s : sst S U) (Q : A → sst S U → Prop) :
  wp m (fl_fs (ss_fl s)) (λ a fs, Q a (SSt (ss_ofile s) (ss_cwd s) (ss_sz s) (ss_args s) (flset_fs fs (ss_fl s)))) → wp (sfs m) s Q.
Proof. intros Hm. unfold sfs, sfl, flf. wp_step. wp_step. exact Hm. Qed.

Lemma wp_getino_at (fs : fstate S U) ip x (Q : inode → fstate S U → Prop) : f_it fs !! ip = Some x → Q x fs → wp (getino ip) fs Q.
Proof. intros Hx HQ. unfold getino. wp_step. wp_step. by eapply wp_mnth. Qed.

Lemma wp_s_ino (s : sst S U) ip x (Q : inode → sst S U → Prop) : f_it (fl_fs (ss_fl s)) !! ip = Some x → Q x s → wp (s_ino ip) s Q.
Proof. intros Hx HQ. unfold s_ino. apply wp_sfs. eapply wp_getino_at; [exact Hx|]. by destruct s as [? ? ? ? []]. Qed.

(** Unlocking and giving back an inode that has links does not use the log. *)
Lemma iunlockput_log (fs : fstate S U) ip x :
  f_it fs !! ip = Some x → held_by me (i_lock x) → 1 ≤ i_ref x → d_nlink (i_d x) ≠ 0 →
  wp (iunlockput me ip) fs (λ _ fs', f_l fs' = f_l fs).
Proof.
  intros Hx [Hlk Hpid] Href Hnl. unfold iunlockput, iunlock, on_ilock. wp_step. wp_step. wp_step. eapply wp_getino_at; [exact Hx|].
  unfold holdingsleep, releasesleep. wp_step. wp_step. rewrite (proj2 (Z.eqb_neq (sl_locked (i_lock x)) 0)), Hpid, Z.eqb_refl by done. cbn [negb andb].
  assert (∀ (y : inode) (l : list inode), l !! ip = Some x → <[ip := y]> l !! ip = Some y) as Hins.
  { intros y l Hl. apply list_lookup_insert_eq. by eapply lookup_lt_Some. }
  wp_step. eapply wp_getino_at; [by cbn; apply Hins|]. cbn [i_ref iset_lock]. rewrite (proj2 (Z.ltb_ge _ _)) by done. cbn [orb].
  wp_step. eapply wp_getino_at; [by cbn; apply Hins|]. wp_step. wp_step. unfold iput. wp_step. eapply wp_getino_at; [by cbn; rewrite list_insert_insert_eq; apply Hins|].
  cbn [i_d i_ref i_valid iset_lock]. rewrite (proj2 (Z.eqb_neq (d_nlink (i_d x)) 0)), andb_false_r by done. cbn [mwhen]. wp_step. wp_step.
  unfold setino. wp_step. eapply wp_getino_at; [by cbn; rewrite list_insert_insert_eq; apply Hins|]. by wp_step.
Qed.

(** Opening a file for writing that its owner may not write returns -1, but the
    transaction that [sys_open] began is not ended: the log still counts it, and
    with three of them no later system call on files can begin. *)
Theorem open_denied_keeps_transaction (s : sst S U) ip x omode :
  f_it (fl_fs (ss_fl s)) !! ip = Some x → held_by me (i_lock x) → 1 ≤ i_ref x → d_nlink (i_d x) ≠ 0 →
  d_type (i_d x) = T_FILE → has omode O_WRONLY = true → has (d_mode (i_d x)) S_IWUSR = false →
  ∃ s', open_inode me kend ip omode s = Ret (-1) s' ∧
    f_l (fl_fs (ss_fl s')) = f_l (fl_fs (ss_fl s)) ∧
    (3 ≤ l_outstanding (l_log (f_l (fl_fs (ss_fl s)))) → 0 ≤ lh_n (l_lh (l_log (f_l (fl_fs (ss_fl s))))) →
     ∃ s'', (s_begin_op : M (sst S U) unit) s' = Sleep logchan s'').
Proof.
  intros Hx [Hlk Hpid] Href Hnl Hty Hw Hmode.
  assert (wp (open_inode me kend ip omode) s (λ r s', r = -1 ∧ f_l (fl_fs (ss_fl s')) = f_l (fl_fs (ss_fl s)))) as Hwp.
  { unfold open_inode. wp_step. eapply wp_s_ino; [exact Hx|]. rewrite Hty, Hw, Hmode. change (has omode O_RDONLY) with (negb (Z.land omode 0 =? 0)).
    rewrite Z.land_0_r. cbn [andb negb Z.eqb Pos.eqb T_FILE T_DEVICE T_DIR]. wp_step. apply wp_sfs.
    eapply wp_mono; [apply (iunlockput_log _ ip x); (done || by split)|]. intros [] fs Hl. wp_step. by split. }
  apply wp_Ret in Hwp as (r & s' & Hrun & -> & Hl). exists s'. split_and!; [done|done|]. intros Hout Hn.
  unfold s_begin_op, sfl, fl_begin_op, fll, flf, onl, lift, begin_op, getlog, gets, mbind, M_bind. rewrite Hl.
  destruct (negb _); [by eexists|]. rewrite (Z.gtb_ltb _ LOGSIZE), (proj2 (Z.ltb_lt _ _)) by (unfold LOGSIZE, MAXOPBLOCKS; lia). by eexists.
Qed.
End denied.

(** ** The example: the file system of FsDemo between system calls *)
Module SysDemo.

(** A process whose memory reads as the string "/" everywhere. *)
Definition mem_slash : UserMem unit := {|
  ucopyout _ _ _ := (tt, true);
  ucopyin _ _ n := (replicate n 47, true);
  ucopyinstr _ _ _ := Some [47; 0]
|}.

Definition bufs : bstate block_map :=
  match binit (bcache0 Demo.disk) with Ret _ s => s | _ => bcache0 Demo.disk end.
Definition idle : log := Log 2 30 0 0 1 (LogHeader 0 (replicate (Z.to_nat LOGSIZE) 0)).
Definition dfs : fstate (bstate block_map) unit := FState (LState bufs idle) Demo.sb Demo.table (replicate 16 0) tt [].

(** Descriptor 0 is an open file of inode 1, the directory is inode 0. *)
Definition afile : file := File FD_INODE 1 1 0 0 (Some 1%nat) 0 0.
Definition caller (args : list Z) : sst (bstate block_map) unit :=
  SSt (Some 0%nat :: replicate 15 None) 0%nat 4096 args (Fls (KMem ∅ 0 0) [afile] ∅ dfs false []).

Lemma counts_ok args : counts (λ _, 0) (λ _, 0) (caller args).
Proof.
  split.
  - intros [|f] x Hx; [|done]. by injection Hx as <-.
  - intros [|f] x Hx; [|done]. by injection Hx as <-.
  - intros ip x Hx. do 3 (destruct ip as [|ip]; [by injection Hx as <-|]). done.
Qed.

Definition no_dev : Z → option (Z → Z → M (fls (bstate block_map) unit) pres) := λ _, None.

Lemma no_dev_quiet : quiet_dev no_dev.
Proof. by intros major rw addr n. Qed.

(** [dup(0)] *)
Lemma sysfile_counts_witness : ∃ s', only sys_dup (caller [0; 0; 0; 0; 0; 0]) = Ret tt s' ∧ counts (λ _, 0) (λ _, 0) s'.
Proof.
  eexists. split; [reflexivity|].
  apply (@sysfile_counts _ _ _ mem_slash 1 0 no_dev no_dev no_dev_quiet no_dev_quiet (λ _, 0) (λ _, 0) [] (only sys_dup) (caller [0; 0; 0; 0; 0; 0]));
    [apply counts_ok|left|reflexivity].
Defined.

(** [chmod("/", 6)] *)
Lemma chmod_run : ∃ s', @sys_chmod _ _ _ mem_slash 1 (caller [0; 6; 0; 0; 0; 0]) = Ret 0 s'.
Proof.
  assert (match @sys_chmod _ _ _ mem_slash 1 (caller [0; 6; 0; 0; 0; 0]) with Ret r _ => r =? 0 | _ => false end = true) as Hrun by (vm_compute; reflexivity).
  destruct (sys_chmod _ _) as [r s'| | | |]; try done. exists s'. f_equal. by apply Z.eqb_eq.
Qed.

Lemma chmod_leaks_inode_witness : ∃ s' ip, @sys_chmod _ _ _ mem_slash 1 (caller [0; 6; 0; 0; 0; 0]) = Ret 0 s' ∧ counts (λ _, 0) (addc (λ _, 0) ip 1) s'.
Proof.
  destruct chmod_run as [s' Hrun]. exists s'.
  destruct (@chmod_leaks_inode _ _ _ mem_slash 1 (λ _, 0) (λ _, 0) _ s' (counts_ok _) Hrun) as [ip Hip].
  exists ip. exact (conj Hrun Hip).
Defined.

Lemma seekable_ok args : seekable (caller args) 0 0 afile 1 Demo.x_file.
Proof. split; [by split; [unfold NOFILE; lia|]|done|done|by vm_compute|by vm_compute]. Qed.

(** [lseek(0, 3, SEEK_SET)] and [lseek(0, -10, SEEK_END)] on a file of five bytes *)
Lemma lseek_correct_witness : sys_lseek (caller [0; 3; 0; 0; 0; 0]) = Ret 3 (with_off (caller [0; 3; 0; 0; 0; 0]) 0 3).
Proof. exact (lseek_correct (caller [0; 3; 0; 0; 0; 0]) 0 0 afile 1 Demo.x_file 0 3 0 [0; 0; 0] (seekable_ok _) eq_refl eq_refl ltac:(done)). Defined.

Lemma lseek_end_wraps_witness : sys_lseek (caller [0; 18446744073709551606; 2; 0; 0; 0]) =
  Ret 4294967291 (with_off (caller [0; 18446744073709551606; 2; 0; 0; 0]) 0 4294967291).
Proof.
  exact (proj2 (lseek_end_wraps (caller [0; 18446744073709551606; 2; 0; 0; 0]) 0 0 afile 1 Demo.x_file 0 18446744073709551606 2 [0; 0; 0]
    (seekable_ok _) eq_refl eq_refl eq_refl ltac:(by vm_compute))).
Defined.

(** An inode that may be read only, locked by process 1. *)
Definition readonly : inode := Inode 1 2 1 (SleepLock 1 1) 1 (DInode T_FILE 0 0 1 5 (235 :: replicate 12 0) 4).
Definition opening : sst (bstate block_map) unit :=
  SSt (replicate 16 None) 0%nat 4096 [] (Fls (KMem ∅ 0 0) [] ∅
    (FState (LState bufs (Log 2 30 3 0 1 (LogHeader 0 (replicate (Z.to_nat LOGSIZE) 0)))) Demo.sb [readonly] (replicate 16 0) tt []) false []).

Lemma open_denied_keeps_transaction_witness : ∃ s' s'', open_inode 1 0 0 O_WRONLY opening = Ret (-1) s' ∧ s_begin_op s' = Sleep logchan s''.
Proof.
  destruct (open_denied_keeps_transaction 1 0 opening 0 readonly O_WRONLY eq_refl ltac:(by split) ltac:(done) ltac:(done) eq_refl eq_refl eq_refl)
    as (s' & Hrun & _ & Hsleep).
  destruct Hsleep as [s'' Hs]; [by vm_compute|by vm_compute|]. exists s', s''. exact (conj Hrun Hs).
Defined.
End SysDemo.
