(* ===== verification/ProcWait.v ===== *)
(** * wait: kernel/proc.c

    Reaping a child, and what the caller's memory looks like to [copyout]. *)
From Stdlib Require Import ZArith Lia.
From stdpp Require Import prelude gmap strings.
From S2P Require Import Prelude Bytes Param Str Riscv PhysMem Kalloc Vm VmSpec VmMap VmGrow VmFree VmCopy VmTheorems Spinlock Proc ProcSpec ProcGrow.

#[local] Opaque memset st64 memmove.

(** ** Copies into a process's memory *)

(** A copy writes pages the user may write only. *)
Lemma acopyout_outside D m va l a :
  (∀ v e, D !! v = Some e → flag e PTE_U = true → ¬ in_page (PTE2PA e) a) → ld (fst (acopyout D m va l)) a = ld m a.
Proof.
  intros Hno. revert m va. induction l as [|b l IH]; intros m va; cbn [acopyout fst]; [done|].
  unfold utrans. destruct (D !! (va / 4096)) as [e|] eqn:He; [|done]. destruct (flag e PTE_U) eqn:Hfl; cbn [andb]; [|done].
  destruct (flag e PTE_W); [|done]. rewrite IH, ld_st, decide_False; [done|]. intros <-. apply (Hno _ e He Hfl). unfold in_page. zlia.
Qed.

Section pages.
Context (kend trampoline : Z) (Hend : KERNBASE ≤ kend) (Htr : 0 ≤ trampoline < 18446744073709547520).
Implicit Types (k : kmem) (L : list Z) (T : gmap (list Z) Z) (D : gmap Z Z).
Abbreviation pmem := (pmem kend trampoline).

Lemma kernel_pages_not_user pa perm : 0 ≤ perm < 1024 → Z.testbit perm 4 = false → flag (leaf pa perm) PTE_U = false.
Proof.
  intros Hperm Hbit. change PTE_U with (Z.shiftl 1 4). rewrite flag_testbit by lia.
  rewrite <-(Z.mod_pow2_bits_low _ 10 4), <-PTE_FLAGS_mod, leaf_flags by lia || done.
  rewrite Z.lor_spec, Hbit. done.
Qed.

Lemma pmem_user_entry k L T D root sz tf v e :
  pmem k L T D root sz tf → D !! v = Some e → flag e PTE_U = true → 0 ≤ v < npages sz.
Proof.
  intros Hpm He Hfl. pose proof (pm_ppt _ _ _ _ _ _ _ _ _ Hpm) as Hppt.
  destruct (pm_dom _ _ _ _ _ _ _ _ _ Hppt v) as [|[-> | ->]]; [by rewrite He|done| |].
  - rewrite (pm_tramp _ _ _ _ _ _ _ _ _ Hppt) in He. injection He as <-. unfold tramp_pte in Hfl.
    rewrite kernel_pages_not_user in Hfl; [done|by vm_compute|done].
  - rewrite (pm_tf _ _ _ _ _ _ _ _ _ Hppt) in He. injection He as <-. unfold tf_pte in Hfl.
    rewrite kernel_pages_not_user in Hfl; [done|by vm_compute|done].
Qed.

Lemma pmem_user_pages k L T D root sz tf : pmem k L T D root sz tf → user_pages kend L T D.
Proof.
  intros Hpm. pose proof (pm_ppt _ _ _ _ _ _ _ _ _ Hpm) as Hppt. pose proof (pm_sz _ _ _ _ _ _ _ _ _ Hppt) as Hsz. split.
  - intros v e He. change (NVPN / 2) with 67108864.
    destruct (pm_dom _ _ _ _ _ _ _ _ _ Hppt v) as [|[-> | ->]]; [by rewrite He| |by vm_compute..]. unfold npages, vtf in *. zlia.
  - intros v e He Hfl. apply (ow_page _ _ _ _ _ (pm_owns _ _ _ _ _ _ _ _ _ Hppt)). apply list_elem_of_fmap. exists v.
    rewrite He. split; [done|]. apply elem_of_vrange. pose proof (pmem_user_entry _ _ _ _ _ _ _ _ _ Hpm He Hfl). lia.
Qed.

(** [copyout] to one process does not disturb another. *)
Lemma acopyout_frame k L T D root sz tf T2 D2 root2 sz2 tf2 va l :
  pmem k L T D root sz tf → pmem k L T2 D2 root2 sz2 tf2 → own_set T D sz tf ## own_set T2 D2 sz2 tf2 →
  kmem_ok kend (kset_mem (fst (acopyout D (k_mem k) va l)) k) L →
  pmem (kset_mem (fst (acopyout D (k_mem k) va l)) k) L T2 D2 root2 sz2 tf2.
Proof.
  intros Hpm Hpm2 Hdis Hk. eapply (pmem_frame kend trampoline Htr); [exact Hpm2|done| |].
  - intros p Hp. by eapply own_set_page.
  - intros p a Hp Ha. apply acopyout_outside. intros v e He Hfl Ha'.
    pose proof (pmem_user_entry _ _ _ _ _ _ _ _ _ Hpm He Hfl) as Hv.
    assert (PTE2PA e ∈ own_set T D sz tf) as Hin.
    { unfold own_set. rewrite !elem_of_union, elem_of_list_to_set. left. right. apply list_elem_of_fmap. exists v. rewrite He.
      split; [done|]. apply elem_of_vrange. lia. }
    assert (p ∈ own_set T2 D2 sz2 tf2) as Hin2 by (unfold own_set; rewrite !elem_of_union; tauto).
    apply (Hdis (PTE2PA e)); [done|]. replace (PTE2PA e) with p; [done|].
    apply (pages_disjoint kend p (PTE2PA e) a); [apply (own_set_page _ _ _ _ _ _ _ _ _ p Hpm2 Hin2)|apply (own_set_page _ _ _ _ _ _ _ _ _ _ Hpm Hin)|done..].
Qed.
End pages.

(** ** [wakeup] *)

(** Some of the processes that were asleep, not [me], are now runnable. *)
Definition awake (q q' : proc) : Prop := q' = q ∨ p_state q = SLEEPING ∧ q' = pset_state RUNNABLE q.
Record woken {F} (me : nat) (s s' : kstate F) : Prop := {
  wk_rest : s' = KState (ks_k s) (ks_f s) (ks_procs s') (ks_nextpid s) (ks_initproc s) (ks_ticks s);
  wk_me : ks_procs s' !! me = ks_procs s !! me;
  wk_all : Forall2 awake (ks_procs s) (ks_procs s')
}.

#[export] Instance awake_preorder : PreOrder awake.
Proof. split; [by left|]. intros q1 q2 q3 [->|[Hs ->]] [->|[Hs' ->]]; [by left|by right|by right|]. by cbn in Hs'. Qed.

Lemma woken_refl {F} me (s : kstate F) : woken me s s.
Proof. by split; [destruct s|..]. Qed.

Lemma woken_trans {F} me (s1 s2 s3 : kstate F) : woken me s1 s2 → woken me s2 s3 → woken me s1 s3.
Proof.
  intros [H1 H2 H3] [H1' H2' H3']. split; [rewrite H1' at 1; rewrite H1; by cbn|congruence|].
  by etrans.
Qed.

Lemma woken_length {F} me (s s' : kstate F) : woken me s s' → length (ks_procs s') = length (ks_procs s).
Proof. intros [_ _ Hf]. symmetry. by eapply Forall2_length. Qed.

Lemma wakeup_spec {F} `{FileOps F} me c (s : kstate F) (Q : unit → kstate F → Prop) :
  length (ks_procs s) = NPROC → (∀ s', woken me s s' → Q tt s') → wp (wakeup (Some me) c) s Q.
Proof.
  intros Hlen HQ. eapply wp_mono; [apply (wp_mfor_seq NPROC _ (λ _ s', woken me s s')); [apply woken_refl|]|].
  - intros i s' Hi Hw. destruct (decide (Some i = Some me)) as [|Hne]; [by wp_step|].
    destruct (lookup_lt_is_Some_2 (ks_procs s') i) as [q Hq]; [rewrite (woken_length _ _ _ Hw), Hlen; done|].
    wp_step. eapply wp_getp; [exact Hq|]. case_bool_decide as Hs; cbn [mwhen]; [|by wp_step].
    eapply wp_setp; [exact Hq|]. eapply woken_trans; [exact Hw|]. split; [done|cbn; rewrite list_lookup_insert_ne; congruence|].
    cbn. rewrite <-(list_insert_id (ks_procs s') i q Hq) at 1. apply Forall2_insert; [done|right; tauto].
  - intros [] s' Hw. by apply HQ.
Qed.

Lemma wakeups_spec {F} `{FileOps F} me cs (s : kstate F) (Q : unit → kstate F → Prop) :
  length (ks_procs s) = NPROC → (∀ s', woken me s s' → Q tt s') → wp (wakeups (Some me) cs) s Q.
Proof.
  intros Hlen HQ. eapply wp_mono; [apply (wp_mfor cs _ (λ _ s', woken me s s')); [apply woken_refl|]|].
  - intros pre c post s' _ Hw. apply wakeup_spec; [by rewrite (woken_length _ _ _ Hw)|]. intros s'' Hw'. by eapply woken_trans.
  - intros [] s' Hw. by apply HQ.
Qed.

(** ** [wait] *)
Section wait.
Context {F : Type} `{FileOps F}.
Context (kend trampoline : Z) (Hend : KERNBASE ≤ kend) (Htr : 0 ≤ trampoline < 18446744073709547520).
Implicit Types (s : kstate F) (L : list Z).
Abbreviation pmem := (pmem kend trampoline).

Definition is_child (me : nat) s (pp : nat) : bool :=
  match ks_procs s !! pp with Some q => bool_decide (p_parent q = Some me) | None => false end.
Definition is_zombie_child (me : nat) s (pp : nat) : bool :=
  is_child me s pp && match ks_procs s !! pp with Some q => bool_decide (p_state q = ZOMBIE) | None => false end.

(** Processes the scan passes over. *)
Lemma wait_scan_pass me s addr l rest hk :
  (∀ pp, pp ∈ l → is_Some (ks_procs s !! pp)) → existsb (is_zombie_child me s) l = false →
  wait_scan kend me (l ++ rest) addr hk s = wait_scan kend me rest addr (hk || existsb (is_child me s) l) s.
Proof.
  revert hk. induction l as [|pp l IH]; intros hk Hin Hz; cbn [app existsb] in *; [by rewrite orb_false_r|].
  apply orb_false_iff in Hz as [Hz1 Hz2]. destruct (Hin pp) as [q Hq]; [left|].
  assert (∀ pp, pp ∈ l → is_Some (ks_procs s !! pp)) as Hin' by (intros; apply Hin; by right).
  cbn [wait_scan]. unfold mbind, M_bind. replace (getp pp s) with (Ret q s) by (unfold getp, mbind, M_bind, mget; by rewrite Hq).
  unfold is_zombie_child in Hz1. unfold is_child in Hz1 |- *. rewrite Hq in Hz1 |- *. fold (is_child me s).
  destruct (decide (p_parent q = Some me)) as [Hp|Hp].
  - rewrite bool_decide_eq_true_2 in Hz1 |- * by done. cbn [andb] in Hz1. apply bool_decide_eq_false in Hz1.
    rewrite decide_False by done. rewrite IH by done. by rewrite orb_true_r.
  - rewrite bool_decide_eq_false_2 by done. by rewrite IH.
Qed.

Lemma each_proc_some s pp : length (ks_procs s) = NPROC → pp ∈ each_proc → is_Some (ks_procs s !! pp).
Proof. intros Hlen Hpp%elem_of_seq. apply lookup_lt_is_Some_2. lia. Qed.

(** No child has exited. *)
Lemma wait_none me s addr p :
  length (ks_procs s) = NPROC → ks_procs s !! me = Some p → existsb (is_zombie_child me s) each_proc = false →
  wait kend me addr s =
    if existsb (is_child me s) each_proc && (p_killed p =? 0) then Sleep (proc_chan me) s else Ret (-1) s.
Proof.
  intros Hlen Hme Hz. unfold wait, mbind, M_bind. rewrite <-(app_nil_r each_proc).
  rewrite wait_scan_pass; [|intros pp Hpp; by apply each_proc_some|done]. cbn [wait_scan mret orb].
  rewrite app_nil_r. unfold mret, M_ret. cbv beta match.
  assert (killed me s = Ret (p_killed p) s) as ->.
  { unfold killed, getp, mbind, M_bind, mget. by rewrite Hme. }
  by destruct (existsb (is_child me s) each_proc), (p_killed p =? 0).
Qed.

Lemma kset_same k : kset_mem (k_mem k) k = k.
Proof. by destruct k. Qed.

Lemma with_k_same s : with_k s (ks_k s) = s.
Proof. by destruct s. Qed.

(** The copy of the exit status. *)
Definition status_copy D (m : mem) (addr xstate : Z) : mem * bool :=
  if addr =? 0 then (m, true) else acopyout D m addr (le_bytes 4 xstate).

Lemma wait_copy s L p q addr T D Tc Dc m' ok (Q : Z → kstate F → Prop) :
  pmem (ks_k s) L T D (p_pagetable p) (p_sz p) (p_trapframe p) → pmem (ks_k s) L Tc Dc (p_pagetable q) (p_sz q) (p_trapframe q) →
  own_set T D (p_sz p) (p_trapframe p) ## own_set Tc Dc (p_sz q) (p_trapframe q) → 0 ≤ addr < 18446744073709551616 →
  status_copy D (k_mem (ks_k s)) addr (p_xstate q) = (m', ok) →
  (pmem (kset_mem m' (ks_k s)) L Tc Dc (p_pagetable q) (p_sz q) (p_trapframe q) →
   Q (if ok then 0 else -1) (with_k s (kset_mem m' (ks_k s)))) →
  wp (if negb (addr =? 0) then onk (copyout (p_pagetable p) addr (le_bytes 4 (p_xstate q))) else mret 0) s Q.
Proof.
  intros Hpm Hpmc Hdis Haddr Hcopy HQ. unfold status_copy in Hcopy. destruct (addr =? 0) eqn:Ha; cbn [negb].
  - injection Hcopy as <- <-. wp_step. rewrite kset_same, with_k_same in HQ. by apply HQ.
  - pose proof (pm_as _ _ _ _ _ _ _ _ _ (pm_ppt _ _ _ _ _ _ _ _ _ Hpm)) as Has.
    apply wp_onk. pose proof (copyout_loop_spec kend Hend (Datatypes.S (length (le_bytes 4 (p_xstate q)))) (ks_k s) L T D (p_pagetable p) addr
      (le_bytes 4 (p_xstate q)) Has (pmem_user_pages kend trampoline Htr _ _ _ _ _ _ _ Hpm) Haddr ltac:(lia)) as Hcl.
    rewrite Hcopy in Hcl. destruct Hcl as [Hrun Has']. eapply wp_eq; [exact Hrun|]. apply HQ.
    replace m' with (fst (acopyout D (k_mem (ks_k s)) addr (le_bytes 4 (p_xstate q)))) by (by rewrite Hcopy).
    eapply acopyout_frame; [done..|]. rewrite Hcopy. apply Has'.
Qed.

(** The first child that has exited is [pp]; its record is [q]. *)
Lemma wait_reap s L me p pp q addr T D Tc Dc l1 l2 (Q : Z → kstate F → Prop) :
  length (ks_procs s) = NPROC → ks_procs s !! me = Some p → ks_procs s !! pp = Some q →
  each_proc = l1 ++ pp :: l2 → existsb (is_zombie_child me s) l1 = false → is_zombie_child me s pp = true →
  pmem (ks_k s) L T D (p_pagetable p) (p_sz p) (p_trapframe p) → pmem (ks_k s) L Tc Dc (p_pagetable q) (p_sz q) (p_trapframe q) →
  p_pagetable q ≠ 0 → own_set T D (p_sz p) (p_trapframe p) ## own_set Tc Dc (p_sz q) (p_trapframe q) →
  0 ≤ addr < 18446744073709551616 →
  let '(m', ok) := status_copy D (k_mem (ks_k s)) addr (p_xstate q) in
  (ok = false → Q (-1) (with_k s (kset_mem m' (ks_k s)))) →
  (∀ k' L', ok = true → kmem_ok kend k' L' →
     list_to_set L' =@{gset Z} list_to_set L ∪ own_set Tc Dc (p_sz q) (p_trapframe q) →
     outside (own_set Tc Dc (p_sz q) (p_trapframe q)) m' (k_mem k') →
     Q (p_pid q) (with_proc (with_k s k') pp (freed q))) →
  wp (wait kend me addr) s Q.
Proof.
  intros Hlen Hme Hpp Heach Hz1 Hz2 Hpm Hpmc Hpt Hdis Haddr. destruct (status_copy _ _ _ _) as [m' ok] eqn:Hcopy. intros HQ0 HQ1.
  unfold is_zombie_child, is_child in Hz2. rewrite Hpp in Hz2. apply andb_true_iff in Hz2 as [Hpar Hst].
  apply bool_decide_eq_true in Hpar, Hst.
  unfold wait. wp_step. rewrite Heach. unfold wp.
  rewrite wait_scan_pass; [|intros x Hx; apply each_proc_some; [done|rewrite Heach; apply elem_of_app; by left]|done].
  match goal with |- context [wait_scan _ _ (pp :: l2) _ ?hk _] => generalize hk end. intros hk.
  change (wp (wait_scan kend me (pp :: l2) addr hk) s (λ a s0, wp (let '(havekids, r) := a in
    match r with Some r => mret r | None => k ← killed me; if negb havekids || negb (k =? 0) then mret (-1) else msleep (proc_chan me) end) s0 Q)).
  cbn [wait_scan]. wp_step. pget. rewrite !decide_True by done. wp_step. pget. wp_step.
  eapply (wait_copy s L p q addr T D Tc Dc m' ok); [done..|]. intros Hpmc'. destruct ok.
  - change (0 <? 0) with false. cbv match. wp_step. assert (ks_procs (with_k s (kset_mem m' (ks_k s))) !! pp = Some q) as Hpp' by done.
    eapply freeproc_mem; [exact Hpp'|]. apply (freemem_all kend trampoline Hend Htr q _ L Tc Dc); [done|done|].
    intros k' L' Hk' HL' Hout'. wp_step. wp_step. by apply (HQ1 k' L').
  - change (-1 <? 0) with true. cbv match. wp_step. wp_step. by apply HQ0.
Qed.
End wait.
