(* ===== verification/ProcTheorems.v ===== *)
(** * Theorems about kernel/proc.c

    [fork], [wait], [growproc] and [kill], with an example: a process with one
    page of memory on the machine of VmTheorems, whose files are those of
    kernel/file.c. *)
From Stdlib Require Import ZArith Lia.
From stdpp Require Import prelude gmap gmultiset strings.
From S2P Require Import Prelude Bytes Param Str UserMem Riscv PhysMem Kalloc Vm VmSpec VmMap VmGrow VmFree VmCopy VmTheorems Pipe Spinlock Proc ProcSpec ProcGrow ProcFork Sleeplock BufIface Bio BioInv Log Fs FsTheorems File ProcWait.

(** ** File.v as the files of Proc.v

    The interface through which kernel/proc.c uses open files, implemented by
    kernel/file.c and kernel/fs.c. *)

(** The state of the file system without the page allocator. *)
Record files (S U : Type) := Files { fv_files : list file; fv_pipes : gmap Z pipe; fv_fs : fstate S U }.
Arguments Files {S U}.
Arguments fv_files {S U}.
Arguments fv_pipes {S U}.
Arguments fv_fs {S U}.

Section inst.
Context {S U : Type} `{BufOps S} `{UserMem U} (me kend : Z).

Definition to_fls (kf : kmem * files S U) : fls S U :=
  Fls (fst kf) (fv_files (snd kf)) (fv_pipes (snd kf)) (fv_fs (snd kf)) false [].
Definition of_fls (s : fls S U) : kmem * files S U := (fl_k s, Files (fl_files s) (fl_pipes s) (fl_fs s)).

Definition onfl {A} (m : M (fls S U) A) : M (kmem * files S U) A := lift to_fls (λ s _, of_fls s) m.

(** [namei] of a path that starts with a slash does not look at the directory of
    the process. *)
#[export] Instance file_ops : FileOps (files S U) := {|
  Proc.filedup f := onfl (File.filedup f ;; mret tt);
  Proc.fileclose f := onfl (File.fileclose me kend f ;; gets fl_woken);
  Proc.idup ip := onfl (flf (Fs.idup ip) ;; mret tt);
  Proc.begin_op := onfl fl_begin_op;
  Proc.iput ip := onfl (flf (Fs.iput me ip));
  Proc.end_op := onfl (fl_end_op me ;; gets fl_woken);
  Proc.namei path := onfl (flf (Fs.namei me 0 path))
|}.

(** The references to the open files [X] and to the inodes [Y] are counted, and the
    pages [P] hold the pipes. *)
Definition refs_counted (fs : files S U) (X Y : gmultiset nat) (P : gset Z) : Prop :=
  (∀ f, f ∈ X → ∃ x, fv_files fs !! f = Some x ∧ Z.of_nat (multiplicity f X) ≤ fl_ref x) ∧
  (∀ i, i ∈ Y → ∃ x, f_it (fv_fs fs) !! i = Some x ∧ Z.of_nat (multiplicity i Y) ≤ i_ref x) ∧
  dom (fv_pipes fs) = P.

#[export] Instance file_laws : FileLaws (files S U).
Proof.
  refine {| f_ok := refs_counted |}.
  - intros k fs X Y P f (HX & HY & HP) Hf. destruct (HX f Hf) as (x & Hx & Hr). apply wp_lift. unfold File.filedup, getfile, setfile.
    assert (0 < multiplicity f X)%nat by (by apply elem_of_multiplicity in Hf).
    wp_step. wp_step. wp_step. wp_step. eapply wp_mnth; [exact Hx|]. rewrite (proj2 (Z.ltb_ge _ _)) by lia. wp_steps. split; [done|].
    split_and!; [|done|done]. intros g Hg. cbn. rewrite multiplicity_disj_union, multiplicity_singleton.
    destruct (decide (g = f)) as [->|Hne].
    + exists (flset_ref (fl_ref x + 1) x). rewrite list_lookup_alter_eq. cbn in Hx. rewrite Hx. split; [done|]. cbn. lia.
    + rewrite list_lookup_alter_ne by done. rewrite Nat.add_0_r. apply HX. multiset_solver.
  - intros k fs X Y P i (HX & HY & HP) Hi. destruct (HY i Hi) as (x & Hx & Hr). apply wp_lift. unfold Fs.idup, setino, getino.
    wp_step. apply wp_lift. wp_step. wp_step. wp_step. eapply wp_mnth; [exact Hx|]. wp_steps. split; [done|].
    split_and!; [done| |done]. intros j Hj. cbn. rewrite multiplicity_disj_union, multiplicity_singleton.
    destruct (decide (j = i)) as [->|Hne].
    + exists (iset_ref (i_ref x + 1) x). rewrite list_lookup_insert_eq by (by eapply lookup_lt_Some). split; [done|]. cbn. lia.
    + rewrite list_lookup_insert_ne by done. rewrite Nat.add_0_r. apply HY. multiset_solver.
Defined.
End inst.

#[local] Opaque memset st64 memmove.

Section theorems.
Context {F : Type} `{FL : FileLaws F}.
Context (kend trampoline forkret_pc : Z).
Implicit Types (s : kstate F) (L : list Z).

(** C2: [fork] returns the new process's pid, and the child is a copy of the
    caller: its memory has the same size, contents and permissions in pages of
    its own, its registers are the caller's except a0, which is 0, its files
    and directory are shared, with one more reference counted for each, and its
    parent is the caller; the caller and its
    memory are unchanged. If there is no free entry or not enough memory, it
    returns -1 and every page is free again that was free before. *)
Theorem fork_correct s L me p T D X Y P :
  KERNBASE ≤ kend → 0 ≤ trampoline < 18446744073709547520 →
  length (ks_procs s) = NPROC → unused_ok s → caller_ok s me p X Y P →
  pmem kend trampoline (ks_k s) L T D (p_pagetable p) (p_sz p) (p_trapframe p) →
  ∃ r s', fork kend trampoline forkret_pc me s = Ret r s' ∧
    ((∃ np q k' L' Tc Dc root tf fs', first_unused s np q ∧ r = ks_nextpid s ∧
        s' = with_nextpid (with_proc (with_f (with_k s k') fs') np (child_of forkret_pc me p q r root tf)) (s32 (r + 1)) ∧
        forked kend trampoline (ks_k s) L T D (p_pagetable p) (p_sz p) (p_trapframe p) k' L' Tc Dc root tf ∧
        f_ok fs' (X ⊎ open_files p) (Y ⊎ cwd_of p) P) ∨
     (r = -1 ∧ ks_f s' = ks_f s ∧ (∃ L', kmem_ok kend (ks_k s') L' ∧ list_to_set L' =@{gset Z} list_to_set L) ∧
      outside (list_to_set L) (k_mem (ks_k s)) (k_mem (ks_k s')) ∧
      (∀ j q, ks_procs s !! j = Some q → p_state q ≠ UNUSED → ks_procs s' !! j = Some q) ∧
      ((∀ j q, ks_procs s !! j = Some q → p_state q ≠ UNUSED) ∨ Z.of_nat (length L) < 6 + 3 * npages (p_sz p)))).
Proof.
  intros Hend Htr Hlen Hun Hcall Hpm. apply wp_Ret. eapply (fork_spec kend trampoline forkret_pc Hend Htr s L me p T D X Y P); [done..| | |].
  - intros np q k' L' Tc Dc root tf fs' Hfu Hf Hk. left. by exists np, q, k', L', Tc, Dc, root, tf, fs'.
  - intros Hall. right. split_and!; [done|done| |done|done|by left]. exists L. split; [|done]. apply Hpm.
  - intros np q q' k' L' (Hnp & Hst & _) Hk HL Hout _ _ _ _ Hl. right. split_and!; [done|done| |done| |by right].
    + by exists L'.
    + intros j x Hj Hx. cbn. rewrite list_lookup_insert_ne; [done|]. intros ->. congruence.
Qed.

(** C25: [growproc(n)] changes the size of the process by [n]: what stays keeps
    its pages and contents, new pages are zero and writable by the user, and the
    pages given up are free again; or, if memory runs out, it returns -1 with
    the address space as it was. No page is lost or mapped twice, and a size that
    would become negative is left as it is. *)
Theorem growproc_correct s L T D me p n :
  KERNBASE ≤ kend → 0 ≤ trampoline < 18446744073709547520 → ks_procs s !! me = Some p →
  pmem kend trampoline (ks_k s) L T D (p_pagetable p) (p_sz p) (p_trapframe p) → -2147483648 ≤ n < 2147483648 →
  ∃ r k' L' T' D', let sz' := if r =? 0 then grow_size (p_sz p) n else p_sz p in
    growproc kend me n s = Ret r (with_proc (with_k s k') me (pset_sz sz' p)) ∧
    pmem kend trampoline k' L' T' D' (p_pagetable p) sz' (p_trapframe p) ∧
    resized (ks_k s) L T D (p_sz p) k' L' T' D' sz' (p_trapframe p) ∧
    ((r = 0 ∧ ∀ v i, npages (p_sz p) ≤ v < npages sz' → 0 ≤ i < 4096 →
        PTE_FLAGS (oldpte D' v) = Z.lor (uperm PTE_W) PTE_V ∧ ld (k_mem k') (PTE2PA (oldpte D' v) + i) = 0) ∨
     (r = -1 ∧ D' = D ∧ 0 < n ∧ Z.of_nat (length L) < 3 * (npages (p_sz p + n) - npages (p_sz p)))).
Proof.
  intros Hend Htr Hp Hpm Hn.
  assert (wp (growproc kend me n) s (λ r s', ∃ k' L' T' D', let sz' := if r =? 0 then grow_size (p_sz p) n else p_sz p in
    s' = with_proc (with_k s k') me (pset_sz sz' p) ∧ pmem kend trampoline k' L' T' D' (p_pagetable p) sz' (p_trapframe p) ∧
    resized (ks_k s) L T D (p_sz p) k' L' T' D' sz' (p_trapframe p) ∧
    ((r = 0 ∧ ∀ v i, npages (p_sz p) ≤ v < npages sz' → 0 ≤ i < 4096 →
        PTE_FLAGS (oldpte D' v) = Z.lor (uperm PTE_W) PTE_V ∧ ld (k_mem k') (PTE2PA (oldpte D' v) + i) = 0) ∨
     (r = -1 ∧ D' = D ∧ 0 < n ∧ Z.of_nat (length L) < 3 * (npages (p_sz p + n) - npages (p_sz p)))))) as Hwp.
  { eapply (growproc_spec kend trampoline Hend Htr s L T D me p n); [done..| |].
    - intros k' L' T' D' Hpm' Hrz Hnew. exists k', L', T', D'. split_and!; [done..|]. by left.
    - intros k' L' T' Hpm' Hrz Hpos Hl. exists k', L', T', D. split_and!; [|done..|right; by split_and!].
      rewrite with_proc_same; [done|]. cbn. rewrite Hp. f_equal. by destruct p. }
  apply wp_Ret in Hwp as (r & s' & Hrun & k' & L' & T' & D' & -> & Hrest). by exists r, k', L', T', D'.
Qed.

(** C24: [wait] without an exited child returns -1 if the caller has no children or
    is killed, else it sleeps on the caller's own channel; with an exited child
    it copies the child's status to the caller's memory, frees the child's entry
    and gives back every page of the child's memory, tables and trap frame, and
    returns the child's pid. If the copy fails the child stays as it is. *)
Theorem wait_correct s L me p T D addr :
  KERNBASE ≤ kend → 0 ≤ trampoline < 18446744073709547520 →
  length (ks_procs s) = NPROC → ks_procs s !! me = Some p → 0 ≤ addr < 18446744073709551616 →
  pmem kend trampoline (ks_k s) L T D (p_pagetable p) (p_sz p) (p_trapframe p) →
  (existsb (is_zombie_child me s) each_proc = false →
     wait kend me addr s =
       if existsb (is_child me s) each_proc && (p_killed p =? 0) then Sleep (proc_chan me) s else Ret (-1) s) ∧
  (∀ l1 pp l2 q Tc Dc, each_proc = l1 ++ pp :: l2 → existsb (is_zombie_child me s) l1 = false →
     is_zombie_child me s pp = true → ks_procs s !! pp = Some q → p_pagetable q ≠ 0 →
     pmem kend trampoline (ks_k s) L Tc Dc (p_pagetable q) (p_sz q) (p_trapframe q) →
     own_set T D (p_sz p) (p_trapframe p) ## own_set Tc Dc (p_sz q) (p_trapframe q) →
     let '(m', ok) := status_copy D (k_mem (ks_k s)) addr (p_xstate q) in
     ∃ r s', wait kend me addr s = Ret r s' ∧
       if ok then
         r = p_pid q ∧ ∃ k' L', s' = with_proc (with_k s k') pp (freed q) ∧ kmem_ok kend k' L' ∧
           list_to_set L' =@{gset Z} list_to_set L ∪ own_set Tc Dc (p_sz q) (p_trapframe q) ∧
           outside (own_set Tc Dc (p_sz q) (p_trapframe q)) m' (k_mem k')
       else r = -1 ∧ s' = with_k s (kset_mem m' (ks_k s))).
Proof.
  intros Hend Htr Hlen Hme Haddr Hpm. split; [by apply wait_none|].
  intros l1 pp l2 q Tc Dc Heach Hz1 Hz2 Hpp Hpt Hpmc Hdis.
  pose proof (wait_reap kend trampoline Hend Htr s L me p pp q addr T D Tc Dc l1 l2) as Hreap.
  destruct (status_copy _ _ _ _) as [m' ok]. apply wp_Ret. apply Hreap; [done..| |].
  - by intros ->.
  - intros k' L' -> Hk HL Hout. split; [done|]. by exists k', L'.
Qed.

(** ** [kill] *)

Lemma kill_first s pid p q :
  length (ks_procs s) = NPROC → ks_procs s !! p = Some q → p_pid q = pid →
  (∀ j q', (j < p)%nat → ks_procs s !! j = Some q' → p_pid q' ≠ pid) →
  kill pid s = Ret 0 (with_proc s p
    (let q' := pset_killed 1 q in if decide (p_state q = SLEEPING) then pset_state RUNNABLE q' else q')).
Proof.
  intros Hlen Hp Hpid Hbefore.
  assert (wp (kill pid) s (λ r s', r = 0 ∧ s' = with_proc s p
    (let q' := pset_killed 1 q in if decide (p_state q = SLEEPING) then pset_state RUNNABLE q' else q'))) as Hwp.
  { unfold kill, each_proc. wp_step. apply (wp_mfind_seq 0 NPROC _ (λ i s', s' = s ∧ (i ≤ p)%nat)).
    - split; [done|lia].
    - intros i s' Hi [-> Hip]. destruct (lookup_lt_is_Some_2 (ks_procs s) i) as [q' Hq']; [lia|]. wp_step. pget.
      destruct (Z.eqb_spec (p_pid q') pid) as [Heq|Hne].
      + assert (i = p) as ->. { destruct (decide (i < p)%nat) as [Hlt|]; [by destruct (Hbefore i q' Hlt Hq')|lia]. }
        rewrite Hp in Hq'. injection Hq' as <-. pset. wp_step.
        destruct (decide (p_state q = SLEEPING)) as [Hs|Hs].
        * rewrite bool_decide_eq_true_2 by done. cbn [mwhen]. eapply wp_setp; [by eapply with_proc_lookup|]. rewrite with_proc_twice. wp_steps. done.
        * rewrite bool_decide_eq_false_2 by done. cbn [mwhen]. wp_steps. done.
      + wp_step. split; [done|]. assert (i ≠ p) by (intros ->; congruence). lia.
    - intros s' [-> Hle]. apply lookup_lt_Some in Hp. lia. }
  by apply wp_Ret in Hwp as (r & s' & Hrun & -> & ->).
Qed.

(** C39: [kill(0)] finds the first unused entry of the table, whose pid is 0,
    returns 0 and marks it as killed, and the mark is still there when the entry
    is next allocated: the new process is killed before it has run. *)
Theorem kill_zero_kills_next s L p q :
  KERNBASE ≤ kend → 0 ≤ trampoline < 18446744073709547520 → length (ks_procs s) = NPROC →
  (∀ j x, ks_procs s !! j = Some x → (p_pid x = 0 ↔ p_state x = UNUSED)) → unused_ok s →
  first_unused s p q → kmem_ok kend (ks_k s) L → (6 ≤ length L)%nat →
  ∃ s1 s2 q2, kill 0 s = Ret 0 s1 ∧ allocproc kend trampoline forkret_pc s1 = Ret (Some p) s2 ∧
    ks_procs s2 !! p = Some q2 ∧ p_state q2 = USED ∧ p_pid q2 = ks_nextpid s ∧ p_killed q2 = 1.
Proof.
  intros Hend Htr Hlen Hpids Hun Hfu Hk HL. pose proof Hfu as (Hp & Hst & Hbefore).
  set (s1 := with_proc s p (pset_killed 1 q)). exists s1.
  assert (kill 0 s = Ret 0 s1) as Hkill.
  { rewrite (kill_first s 0 p q Hlen Hp); [by rewrite Hst|by apply (Hpids p)|].
    intros j x Hj Hx. rewrite (Hpids j x Hx). by apply (Hbefore j). }
  assert (∀ j x, ks_procs s1 !! j = Some x → ∃ y, ks_procs s !! j = Some y ∧ p_state x = p_state y ∧ (p_state y = UNUSED → blank x)) as Hs1.
  { intros j x Hx. unfold s1 in Hx. cbn in Hx. destruct (decide (j = p)) as [->|Hne].
    - rewrite list_lookup_insert_eq in Hx by (by eapply lookup_lt_Some). injection Hx as <-. exists q. split_and!; [done|done|].
      intros _. by apply (Hun p q).
    - rewrite list_lookup_insert_ne in Hx by done. exists x. split_and!; [done|done|]. intros Hu. by apply (Hun j x). }
  assert (wp (allocproc kend trampoline forkret_pc) s1 (λ r s2, r = Some p ∧ ∃ q2, ks_procs s2 !! p = Some q2 ∧
    p_state q2 = USED ∧ p_pid q2 = ks_nextpid s ∧ p_killed q2 = 1)) as Hwp.
  { eapply (allocproc_spec kend trampoline forkret_pc Hend Htr s1 L); [cbn; by rewrite length_insert|exact Hk| | | |].
    - intros j x Hx Hu. destruct (Hs1 j x Hx) as (y & _ & Heq & Hbl). apply Hbl. congruence.
    - intros Hall. exfalso. apply (Hall p (pset_killed 1 q)); [by eapply with_proc_lookup|done].
    - intros p' q' k' L' T root tf (Hp' & Hst' & Hbef') _ _ _ _ _.
      assert (p' = p) as ->.
      { destruct (Hs1 p' q' Hp') as (y & Hy & Heq & _). destruct (Nat.lt_trichotomy p' p) as [Hlt|[Heq'|Hlt]]; [|done|].
        - destruct (Hbefore p' y Hlt Hy). congruence.
        - destruct (Hbef' p (pset_killed 1 q) Hlt); [by eapply with_proc_lookup|done]. }
      split; [done|]. pose proof (with_proc_lookup s p (pset_killed 1 q) q Hp) as Hq'.
      change (ks_procs s1 !! p = Some (pset_killed 1 q)) in Hq'. rewrite Hq' in Hp'. injection Hp' as <-.
      eexists. split; [by eapply (with_proc_lookup (with_k s1 k'))|done].
    - intros p' q' k' L' _ _ _ _ Hlt. lia. }
  apply wp_Ret in Hwp as (r & s2 & Hrun & -> & q2 & ?). by exists s2, q2.
Qed.
End theorems.

(** ** The example *)
Definition demo_files_state : Type := files (bstate block_map) unit.

#[local] Instance demo_ops : FileOps demo_files_state := file_ops 1 demo_kend.
#[local] Instance demo_laws : FileLaws demo_files_state := file_laws 1 demo_kend.

Definition demo_tramp : Z := KERNBASE + 4096.
Definition blank_proc : proc :=
  Proc UNUSED None 0 0 0 None 0 0 0 0 (Context_ 0 0) (replicate NOFILE None) None (replicate 16 0).

(** A table in which only entry 0 is in use. *)
Record demo_state (s : kstate demo_files_state) (L : list Z) (T : gmap (list Z) Z) (D : gmap Z Z) (p : proc) : Prop := {
  ds_len : length (ks_procs s) = NPROC;
  ds_me : ks_procs s !! 0%nat = Some p;
  ds_rest j q : ks_procs s !! S j = Some q → q = blank_proc;
  ds_proc : p_state p = RUNNING ∧ p_pid p = 1 ∧ p_killed p = 0 ∧ p_parent p = None;
  ds_call : caller_ok s 0 p ∅ {[+ 0%nat +]} ∅;
  ds_pmem : pmem demo_kend demo_tramp (ks_k s) L T D (p_pagetable p) (p_sz p) (p_trapframe p)
}.

(** A process without memory yet. *)
Lemma demo_alloc : ∃ s L T D p, demo_state s L T D p ∧ p_sz p = 0 ∧ (10 ≤ length L)%nat.
Proof.
  assert (bytes_mem ∅) as Hb by (intros a; unfold ld; rewrite lookup_empty; cbn; lia).
  destruct (proj1 (wp_Ret _ _ _) (kinit_spec demo_kend demo_kend_ok ∅ Hb ltac:(by vm_compute))) as ([] & k0 & _ & Hk).
  set (L := reverse _) in Hk. assert (length L = 16%nat) as HL by (unfold L; by vm_compute). clearbody L.
  destruct Demo.kernel as (fs & _ & Hit & _).
  set (s0 := KState k0 (Files [] ∅ fs : demo_files_state) (replicate NPROC blank_proc) 1 None 0).
  assert (wp (allocproc demo_kend demo_tramp 0) s0 (λ r s1, ∃ k' L' T root tf, r = Some 0%nat ∧
    pmem demo_kend demo_tramp k' L' T (D_empty demo_tramp tf) root 0 tf ∧ (10 ≤ length L')%nat ∧
    s1 = with_nextpid (with_proc (with_k s0 k') 0 (allocated 0 blank_proc 1 root tf)) 2)) as Hwp.
  { apply (allocproc_spec demo_kend demo_tramp 0 demo_kend_ok ltac:(by vm_compute) s0 L); [done|exact Hk| | | |].
    - intros j q [-> _]%lookup_replicate _. done.
    - intros Hall. by destruct (Hall 0%nat blank_proc eq_refl).
    - intros j q k' L' T root tf (Hj & _ & Hbef) Hpm _ _ _ Hlen. destruct j as [|j]; [|by destruct (Hbef 0%nat blank_proc ltac:(lia) eq_refl)].
      injection Hj as <-. exists k', L', T, root, tf. split_and!; [done|done|lia|done].
    - intros j q k' L' _ _ _ _ Hlen. lia. }
  apply wp_Ret in Hwp as (r & s1 & _ & k' & L' & T & root & tf & _ & Hpm & Hlen & _).
  set (p := pset_cwd (Some 0%nat) (pset_state RUNNING (allocated 0 blank_proc 1 root tf))).
  exists (with_nextpid (with_proc (with_k s0 k') 0 p) 2), L', T, (D_empty demo_tramp tf), p. split_and!; [|done|done].
  split; [done|done| |done| |done].
  - intros j q Hq. change (replicate 63 blank_proc !! j = Some q) in Hq. by apply lookup_replicate in Hq as [-> _].
  - split_and!; [done|done|done| |apply gmultiset_empty_subseteq|by exists 0%nat|by apply gmultiset_singleton_subseteq_l, gmultiset_elem_of_singleton]. split_and!; [by intros f ?%gmultiset_not_elem_of_empty| |done].
    intros i ->%gmultiset_elem_of_singleton. exists Demo.x_dir. cbn. rewrite Hit. split; [done|]. by rewrite multiplicity_singleton_eq.
Qed.

(** And one with a page. *)
Lemma demo_caller : ∃ s L T D p, demo_state s L T D p ∧ p_sz p = 4096.
Proof.
  destruct demo_alloc as (s & L & T & D & p & Hs & Hsz & HL). 
  assert (wp (growproc demo_kend 0 4096) s (λ r s', ∃ L' T' D', demo_state s' L' T' D' (pset_sz 4096 p))) as Hwp.
  { eapply (growproc_spec demo_kend demo_tramp demo_kend_ok ltac:(by vm_compute) s L T D 0 p 4096); [apply Hs|apply Hs|lia| |].
    - rewrite Hsz. intros k' L' T' D' Hpm _ _. exists L', T', D'. destruct Hs as [Hlen Hme Hrest Hp Hcall _].
      split; [cbn; by rewrite length_insert|by eapply (with_proc_lookup (with_k s k'))| |done| |exact Hpm].
      + intros j q Hq. cbn in Hq. rewrite list_lookup_insert_ne in Hq by done. by apply (Hrest j).
      + destruct Hcall as (_ & Hst & Hof & Hok & Hopen & Hcwd & Hin). split_and!; [by eapply (with_proc_lookup (with_k s k'))|exact Hst|exact Hof|exact Hok|exact Hopen|exact Hcwd|exact Hin].
    - rewrite Hsz. intros k' L' T' _ _ _ Hl. change (npages (0 + 4096) - npages 0) with 1 in Hl. lia. }
  apply wp_Ret in Hwp as (r & s' & _ & L' & T' & D' & Hs'). by exists s', L', T', D', (pset_sz 4096 p).
Qed.

Lemma demo_unused s L T D p : demo_state s L T D p → unused_ok s.
Proof.
  intros Hs j q Hj Hq. destruct j as [|j].
  - rewrite (ds_me _ _ _ _ _ Hs) in Hj. injection Hj as <-. destruct (ds_proc _ _ _ _ _ Hs). congruence.
  - apply (ds_rest _ _ _ _ _ Hs) in Hj as ->. done.
Qed.

Lemma fork_correct_witness : ∃ (s s' : kstate demo_files_state) r, fork demo_kend demo_tramp 0 0 s = Ret r s'.
Proof.
  destruct demo_caller as (s & L & T & D & p & Hs & _).
  destruct (fork_correct demo_kend demo_tramp 0 s L 0 p T D ∅ {[+ 0%nat +]} ∅ demo_kend_ok ltac:(by vm_compute) (ds_len _ _ _ _ _ Hs)
    (demo_unused _ _ _ _ _ Hs) (ds_call _ _ _ _ _ Hs) (ds_pmem _ _ _ _ _ Hs)) as (r & s' & Hrun & _).
  exists s, s', r. exact Hrun.
Defined.

Lemma growproc_correct_witness : ∃ (s s' : kstate demo_files_state) r, growproc demo_kend 0 (-4096) s = Ret r s'.
Proof.
  destruct demo_caller as (s & L & T & D & p & Hs & _).
  destruct (growproc_correct demo_kend demo_tramp s L T D 0 p (-4096) demo_kend_ok ltac:(by vm_compute) (ds_me _ _ _ _ _ Hs)
    (ds_pmem _ _ _ _ _ Hs) ltac:(lia)) as (r & k' & L' & T' & D' & Hrun & _).
  eexists _, _, r. exact Hrun.
Defined.

Lemma wait_correct_witness : ∃ s : kstate demo_files_state, wait demo_kend 0 0 s = Ret (-1) s.
Proof.
  destruct demo_caller as (s & L & T & D & p & Hs & _).
  assert (∀ pp, is_child 0 s pp = false) as Hno.
  { intros pp. unfold is_child. destruct (ks_procs s !! pp) as [q|] eqn:Hq; [|done]. apply bool_decide_eq_false. destruct pp as [|pp].
    - rewrite (ds_me _ _ _ _ _ Hs) in Hq. injection Hq as <-. destruct (ds_proc _ _ _ _ _ Hs) as (_ & _ & _ & ->). done.
    - apply (ds_rest _ _ _ _ _ Hs) in Hq as ->. done. }
  assert (∀ f l, (∀ pp : nat, f pp = false) → existsb f l = false) as Hex.
  { intros f l Hf. induction l as [|x l IH]; cbn; [done|]. by rewrite Hf, IH. }
  destruct (wait_correct demo_kend demo_tramp s L 0 p T D 0 demo_kend_ok ltac:(by vm_compute) (ds_len _ _ _ _ _ Hs)
    (ds_me _ _ _ _ _ Hs) ltac:(lia) (ds_pmem _ _ _ _ _ Hs)) as [Hnone _].
  exists s. rewrite Hnone; [by rewrite (Hex (is_child 0 s))|]. apply Hex. intros pp. unfold is_zombie_child. by rewrite Hno.
Defined.

Lemma kill_zero_kills_next_witness : ∃ (s s1 s2 : kstate demo_files_state) q2,
  kill 0 s = Ret 0 s1 ∧ allocproc demo_kend demo_tramp 0 s1 = Ret (Some 1%nat) s2 ∧ ks_procs s2 !! 1%nat = Some q2 ∧ p_killed q2 = 1.
Proof.
  destruct demo_alloc as (s & L & T & D & p & Hs & _ & HL). destruct (ds_proc _ _ _ _ _ Hs) as (Hst & Hpid & _).
  assert (ks_procs s !! 1%nat = Some blank_proc) as H1.
  { destruct (lookup_lt_is_Some_2 (ks_procs s) 1) as [q Hq]; [rewrite (ds_len _ _ _ _ _ Hs); unfold NPROC; lia|].
    rewrite Hq. f_equal. by apply (ds_rest _ _ _ _ _ Hs 0). }
  destruct (kill_zero_kills_next demo_kend demo_tramp 0 s L 1 blank_proc demo_kend_ok ltac:(by vm_compute) (ds_len _ _ _ _ _ Hs))
    as (s1 & s2 & q2 & Hk & Ha & Hq2 & _ & _ & Hkd).
  - intros [|j] x Hx; [rewrite (ds_me _ _ _ _ _ Hs) in Hx; injection Hx as <-; rewrite Hpid, Hst; done|].
    by rewrite (ds_rest _ _ _ _ _ Hs j x Hx).
  - by eapply demo_unused.
  - split_and!; [done|done|]. intros [|j] x Hj Hx; [rewrite (ds_me _ _ _ _ _ Hs) in Hx; injection Hx as <-; by rewrite Hst|lia].
  - apply (ds_pmem _ _ _ _ _ Hs).
  - lia.
  - by exists s, s1, s2, q2.
Defined.
