(* ===== verification/Exec.v ===== *)
(** * Running a program: kernel/exec.c and kernel/elf.h

    [exec] on the state of kernel/proc.c. The file is read through the class
    [ExecOps]: [readi] into kernel memory gives the value returned and the bytes
    that were copied; what is read for a segment goes to physical memory. The
    arguments are addresses of strings in kernel memory. *)
From Stdlib Require Import ZArith Lia.
From stdpp Require Import prelude gmap strings.
From S2P Require Import Prelude Bytes Param Str Riscv PhysMem Kalloc Vm Spinlock Proc.

(** ** kernel/elf.h *)

Definition ELF_MAGIC : Z := 0x464C457F.

Record elfhdr := Elfhdr {
  e_magic : Z; e_elf : list Z; e_type : Z; e_machine : Z; e_version : Z;
  e_entry : Z; e_phoff : Z; e_shoff : Z; e_flags : Z; e_ehsize : Z;
  e_phentsize : Z; e_phnum : Z; e_shentsize : Z; e_shnum : Z; e_shstrndx : Z
}.

Record proghdr := Proghdr {
  ph_type : Z; ph_flags : Z; ph_off : Z; ph_vaddr : Z;
  ph_paddr : Z; ph_filesz : Z; ph_memsz : Z; ph_align : Z
}.

Definition ELF_PROG_LOAD : Z := 1.

(** The [n] bytes at offset [off] of a structure, as a number. *)
Definition field (l : list Z) (off n : nat) : Z := le_val (take n (drop off l)).

Definition elfhdr_of (l : list Z) : elfhdr :=
  Elfhdr (field l 0 4) (take 12 (drop 4 l)) (field l 16 2) (field l 18 2) (field l 20 4)
    (field l 24 8) (field l 32 8) (field l 40 8) (field l 48 4) (field l 52 2)
    (field l 54 2) (field l 56 2) (field l 58 2) (field l 60 2) (field l 62 2).
Definition sizeof_elfhdr : Z := 64.

Definition proghdr_of (l : list Z) : proghdr :=
  Proghdr (field l 0 4) (field l 4 4) (field l 8 8) (field l 16 8)
    (field l 24 8) (field l 32 8) (field l 40 8) (field l 48 8).
Definition sizeof_proghdr : Z := 56.

(** ** kernel/exec.c *)

(** What [exec] needs of kernel/fs.c besides [FileOps]. [iunlockput] reports the
    channels it calls [wakeup] on. *)
Class ExecOps (F : Type) := {
  ilock : nat → M (kmem * F) unit;
  readi : nat → Z → Z → M (kmem * F) (Z * list Z);
  iunlockput : nat → M (kmem * F) (list chan)
}.

Definition flags2perm (flags : Z) : Z :=
  let perm := 0 in
  let perm := if negb (Z.land flags 0x1 =? 0) then PTE_X else perm in
  if negb (Z.land flags 0x2 =? 0) then Z.lor perm PTE_W else perm.

(** What is left of the path after its last slash. *)
Fixpoint last_elem (last s : list Z) : list Z :=
  match s with
  | [] => last
  | c :: s => last_elem (if c =? 47 then s else last) s
  end.

Section code.
Context {F : Type} `{FileOps F} `{ExecOps F}.
Context (kend trampoline : Z) (me : nat).
Abbreviation KM := (M (kstate F)).

(** A read into kernel memory at [pa]. *)
Definition readi_at (ip : nat) (pa off n : Z) : KM Z :=
  '(r, bytes) ← onf (readi ip off n);
  onk (modify (λ k, kset_mem (st_bytes (k_mem k) pa bytes) k)) ;;
  mret r.

Fixpoint loadseg_loop (fuel : nat) (pagetable va : Z) (ip : nat) (offset sz i : Z) : KM Z :=
  match fuel with
  | O => λ _, NoFuel
  | S fuel =>
      if i <? sz then
        pa ← onk (walkaddr pagetable (u64 (va + i)));
        if pa =? 0 then panic "loadseg: address should exist" else
        let n := if u32 (sz - i) <? PGSIZE then u32 (sz - i) else PGSIZE in
        r ← readi_at ip pa (u32 (offset + i)) n;
        if negb (u32 r =? n) then mret (-1)
        else loadseg_loop fuel pagetable va ip offset sz (u32 (i + PGSIZE))
      else mret 0
  end.

Definition loadseg (pagetable va : Z) (ip : nat) (offset sz : Z) : KM Z :=
  loadseg_loop (S (Z.to_nat (sz / PGSIZE + 1))) pagetable va ip offset sz 0.

(** One program header of type [ELF_PROG_LOAD]: whether it was loaded, and [sz]. *)
Definition load_ph (pagetable : Z) (ip : nat) (ph : proghdr) (sz : Z) : KM (bool * Z) :=
  if ph_memsz ph <? ph_filesz ph then mret (false, sz) else
  if u64 (ph_vaddr ph + ph_memsz ph) <? ph_vaddr ph then mret (false, sz) else
  if negb (ph_vaddr ph mod PGSIZE =? 0) then mret (false, sz) else
  sz1 ← onk (uvmalloc kend pagetable sz (u64 (ph_vaddr ph + ph_memsz ph)) (flags2perm (s32 (ph_flags ph))));
  if sz1 =? 0 then mret (false, sz) else
  r ← loadseg pagetable (ph_vaddr ph) ip (u32 (ph_off ph)) (u32 (ph_filesz ph));
  if r <? 0 then mret (false, sz1) else mret (true, sz1).

(** The loop over the [n] program headers that are left: whether the program was
    loaded, and [sz]. *)
Fixpoint load_loop (n : nat) (pagetable : Z) (ip : nat) (off sz : Z) : KM (bool * Z) :=
  match n with
  | O => mret (true, sz)
  | S n =>
      '(r, bytes) ← onf (readi ip (u32 off) sizeof_proghdr);
      if negb (r =? sizeof_proghdr) then mret (false, sz) else
      let ph := proghdr_of bytes in
      let off' := s32 (off + sizeof_proghdr) in
      if negb (ph_type ph =? ELF_PROG_LOAD) then load_loop n pagetable ip off' sz else
      '(ok, sz1) ← load_ph pagetable ip ph sz;
      if negb ok then mret (false, sz1) else load_loop n pagetable ip off' sz1
  end.

(** [strlen], of a string that ends within a page of kernel memory. *)
Definition kstrlen (a : Z) : KM Z :=
  s ← mget;
  n ← mnth (strlen (Z.to_nat PGSIZE) (mem_ptr (k_mem (ks_k s)) a));
  mret (Z.of_nat n).

(** The loop that pushes the argument strings, from [argv[argc]] on: [sp] and
    [ustack] at its end. *)
Fixpoint push_args (argv : list Z) (pagetable stackbase argc sp : Z) (ustack : list Z) : KM (option (Z * list Z)) :=
  match argv with
  | [] => mret (Some (sp, ustack))
  | a :: argv =>
      if argc >=? Z.of_nat MAXARG then mret None else
      len ← kstrlen a;
      let sp := u64 (sp - (len + 1)) in
      let sp := u64 (sp - sp mod 16) in
      if sp <? stackbase then mret None else
      s ← mget;
      r ← onk (copyout pagetable sp (ld_bytes (k_mem (ks_k s)) a (Z.to_nat (len + 1))));
      if r <? 0 then mret None else push_args argv pagetable stackbase (argc + 1) sp (ustack ++ [sp])
  end.

(** [iunlockput(ip); end_op();] *)
Definition exec_close (ip : nat) : KM unit :=
  cs ← onf (iunlockput ip);
  wakeups (Some me) cs ;;
  cs ← onf end_op;
  wakeups (Some me) cs.

(** [bad:] while the file is open. *)
Definition exec_bad_file (pagetable sz : Z) (ip : nat) : KM Z :=
  mwhen (negb (pagetable =? 0)) (onk (proc_freepagetable kend pagetable sz)) ;;
  exec_close ip ;;
  mret (-1).

(** [bad:] after it was closed. *)
Definition exec_bad (pagetable sz : Z) : KM Z :=
  mwhen (negb (pagetable =? 0)) (onk (proc_freepagetable kend pagetable sz)) ;;
  mret (-1).

(** From [p->trapframe->a1 = sp;] on. *)
Definition exec_commit (path : list Z) (pagetable oldsz sz sp entry argc : Z) : KM Z :=
  p ← getp me;
  onk (stp (p_trapframe p + TF_a1) sp) ;;
  setp me (set_name (list_ptr (last_elem path path ++ [0]))) ;;
  let oldpagetable := p_pagetable p in
  setp me (pset_pagetable pagetable) ;;
  setp me (pset_sz sz) ;;
  onk (stp (p_trapframe p + TF_epc) entry) ;;
  onk (stp (p_trapframe p + TF_sp) sp) ;;
  onk (proc_freepagetable kend oldpagetable oldsz) ;;
  mret argc.

(** The stack and the arguments, once the program is loaded and the file is
    closed; [ustack] has room for [MAXARG] words. *)
Definition exec_stack (path : list Z) (argv : list Z) (pagetable sz entry : Z) : KM Z :=
  p ← getp me;
  let oldsz := p_sz p in
  let sz := PGROUNDUP sz in
  sz1 ← onk (uvmalloc kend pagetable sz (u64 (sz + (USERSTACK + 1) * PGSIZE)) PTE_W);
  if sz1 =? 0 then exec_bad pagetable sz else
  let sz := sz1 in
  onk (uvmclear pagetable (u64 (sz - (USERSTACK + 1) * PGSIZE))) ;;
  let stackbase := u64 (sz - USERSTACK * PGSIZE) in
  r ← push_args argv pagetable stackbase 0 sz [];
  match r with
  | None => exec_bad pagetable sz
  | Some (sp, ustack) =>
      let argc := Z.of_nat (length ustack) in
      if Z.of_nat MAXARG <=? argc then mfault else
      let ustack := ustack ++ [0] in
      let sp := u64 (sp - (argc + 1) * 8) in
      let sp := u64 (sp - sp mod 16) in
      if sp <? stackbase then exec_bad pagetable sz else
      r ← onk (copyout pagetable sp (concat (le_bytes 8 <$> ustack)));
      if r <? 0 then exec_bad pagetable sz else
      exec_commit path pagetable oldsz sz sp entry argc
  end.

(** From the check of the ELF header on, with [ip] locked. *)
Definition exec_file (path : list Z) (argv : list Z) (ip : nat) : KM Z :=
  p ← getp me;
  '(r, bytes) ← onf (readi ip 0 sizeof_elfhdr);
  if negb (r =? sizeof_elfhdr) then exec_bad_file 0 0 ip else
  let elf := elfhdr_of bytes in
  if negb (e_magic elf =? ELF_MAGIC) then exec_bad_file 0 0 ip else
  pagetable ← onk (proc_pagetable kend trampoline (p_trapframe p));
  if pagetable =? 0 then exec_bad_file 0 0 ip else
  '(ok, sz) ← load_loop (Z.to_nat (e_phnum elf)) pagetable ip (s32 (e_phoff elf)) 0;
  if negb ok then exec_bad_file pagetable sz ip else
  exec_close ip ;;
  exec_stack path argv pagetable sz (e_entry elf).

Definition exec (path : list Z) (argv : list Z) : KM Z :=
  onf begin_op ;;
  r ← onf (namei path);
  match r with
  | None =>
      cs ← onf end_op;
      wakeups (Some me) cs ;;
      mret (-1)
  | Some ip =>
      onf (ilock ip) ;;
      exec_file path argv ip
  end.
End code.
