(* ===== verification/ExecLoad.v ===== *)
(** * Loading a program: kernel/exec.c

    What the file says the memory of the program looks like, computed on flat
    memory, and that the loops of [exec] build it. *)
From Stdlib Require Import ZArith Lia.
From stdpp Require Import prelude gmap strings.
From S2P Require Import Prelude Bytes Param Str Riscv PhysMem Kalloc Vm VmSpec VmMap VmGrow VmFree VmCopy VmTheorems Spinlock Proc ProcSpec ProcGrow ProcFork ProcWait Exec.

(** ** The memory image that kernel/exec.c builds

    An image is an address space under construction, described without page
    tables: a size, the bytes, and the flags of the pages. [image] says that the
    page table being built holds it and was made out of pages that were free;
    the operations of kernel/vm.c that [exec] uses are updates of images. *)

#[local] Opaque memset st64 memmove.

Record aimage := AImage { a_sz : Z; a_byte : Z → Z; a_flags : Z → Z }.

(** Writing bytes at an address. *)
Definition aput (img : Z → Z) (a : Z) (l : list Z) : Z → Z :=
  λ x, if decide (a ≤ x < a + Z.of_nat (length l)) then nth (Z.to_nat (x - a)) l 0 else img x.
Definition put (x : aimage) (a : Z) (l : list Z) : aimage := AImage (a_sz x) (aput (a_byte x) a l) (a_flags x).

(** What [uvmalloc] does. *)
Definition enlarge (x : aimage) (newsz xperm : Z) : aimage :=
  AImage newsz (a_byte x)
    (λ v, if decide (npages (a_sz x) ≤ v < npages newsz) then Z.lor (uperm xperm) PTE_V else a_flags x v).

(** What [uvmclear] does to page [v]. *)
Definition hide (x : aimage) (v : Z) : aimage :=
  AImage (a_sz x) (a_byte x) (λ u, if decide (u = v) then Z.land (a_flags x v) (Z.lnot PTE_U) else a_flags x u).

Definition empty_image : aimage := AImage 0 (λ _, 0) (λ _, 0).

Lemma aput_cons img a b l x : aput (aput img a [b]) (a + 1) l x = aput img a (b :: l) x.
Proof.
  unfold aput. cbn [length]. repeat case_decide; try lia; try done.
  - replace (Z.to_nat (x - a)) with (S (Z.to_nat (x - (a + 1)))) by lia. done.
  - by replace (Z.to_nat (x - a)) with O by lia.
Qed.

Lemma aput_app img a l1 l2 x : aput (aput img a l1) (a + Z.of_nat (length l1)) l2 x = aput img a (l1 ++ l2) x.
Proof.
  unfold aput. rewrite length_app. repeat case_decide; try lia; try done.
  - rewrite app_nth2 by lia. f_equal. lia.
  - by rewrite app_nth1 by lia.
Qed.

(** The byte at a user address. *)
Definition ubyte (m : mem) (D : gmap Z Z) (a : Z) : Z := ld m (PTE2PA (oldpte D (a / 4096)) + a mod 4096).

Lemma upages_inj D n v v' :
  NoDup (upages D n) → 0 ≤ v < n → 0 ≤ v' < n → PTE2PA (oldpte D v) = PTE2PA (oldpte D v') → v = v'.
Proof.
  intros Hnd Hv Hv' He.
  assert (∀ w m i, (i < m)%nat → vrange w m !! i = Some (w + Z.of_nat i)) as Hl.
  { intros w m. revert w. induction m as [|m IH]; intros w i Hi; [lia|]. destruct i as [|i]; cbn; [f_equal; lia|].
    rewrite IH by lia. f_equal. lia. }
  assert (∀ u, 0 ≤ u < n → upages D n !! Z.to_nat u = Some (PTE2PA (oldpte D u))) as Hu.
  { intros u Hu. unfold upages, dpages. rewrite list_lookup_fmap, Hl by lia. cbn. by rewrite Z2Nat.id by lia. }
  pose proof (NoDup_lookup _ _ _ _ Hnd (Hu v Hv) ltac:(rewrite He; by apply Hu)). lia.
Qed.

(** ** The guard page *)
Section clear.
Context (e : Z) (He : 0 ≤ e < 18446744073709551616).
Definition cleared : Z := Z.land e (Z.lnot PTE_U).

Lemma cleared_high : Z.shiftr cleared 10 = Z.shiftr e 10.
Proof using.
  unfold cleared. rewrite Z.shiftr_land. change (Z.shiftr (Z.lnot PTE_U) 10) with (-1). apply Z.land_m1_r.
Qed.

Lemma cleared_range : 0 ≤ cleared < 18446744073709551616.
Proof using He.
  assert (0 ≤ cleared) by (apply Z.land_nonneg; lia).
  pose proof cleared_high as Hh. rewrite !Z.shiftr_div_pow2 in Hh by lia. change (2 ^ 10) with 1024 in Hh. zlia.
Qed.

Lemma cleared_pa : PTE2PA cleared = PTE2PA e.
Proof using. unfold PTE2PA. by rewrite cleared_high. Qed.

Lemma cleared_flags : PTE_FLAGS cleared = Z.land (PTE_FLAGS e) (Z.lnot PTE_U).
Proof using. unfold PTE_FLAGS, cleared. rewrite <-!Z.land_assoc. by f_equal. Qed.

Lemma cleared_V : flag cleared PTE_V = flag e PTE_V.
Proof using. change PTE_V with (Z.shiftl 1 0). rewrite !flag_testbit by lia. unfold cleared. rewrite Z.land_spec. apply andb_true_r. Qed.
End clear.

Lemma dpages_same_pa D v e e' vs : D !! v = Some e → PTE2PA e' = PTE2PA e → dpages (<[v := e']> D) vs = dpages D vs.
Proof.
  intros HD Hpa. apply list_fmap_ext. intros i u _. destruct (decide (u = v)) as [->|Hne].
  - by rewrite lookup_insert_eq, HD.
  - by rewrite lookup_insert_ne.
Qed.

Section image.
Context (kend trampoline : Z) (Hend : KERNBASE ≤ kend) (Htr : 0 ≤ trampoline < 18446744073709547520).
Implicit Types (k : kmem) (L : list Z) (T : gmap (list Z) Z) (D : gmap Z Z) (x : aimage).
Abbreviation pmem := (pmem kend trampoline).

(** Changing the flags of a page. *)
Lemma pmem_reflag k L T D root sz tf k' v e e' :
  pmem k L T D root sz tf → 0 ≤ v < npages sz → D !! v = Some e → PTE2PA e' = PTE2PA e → PTE_FLAGS e' ≠ PTE_V →
  aspace kend k' L T (<[v := e']> D) root → pmem k' L T (<[v := e']> D) root sz tf.
Proof.
  intros [[Has Huser Hdom Htramp Htf Hsz Hown] Htfp] Hv HD Hpa Hfl Has'.
  assert (npages sz ≤ vtf) as Hn by (unfold npages, vtf in *; zlia).
  pose proof (dpages_same_pa D v e e' (vrange 0 (Z.to_nat (npages sz))) HD Hpa) as Hdp. split; [split|].
  - done.
  - intros u Hu. destruct (decide (u = v)) as [->|Hne]; [exists e'; by rewrite lookup_insert_eq|].
    unfold mapped. rewrite lookup_insert_ne by done. by apply Huser.
  - intros u Hu. destruct (decide (u = v)) as [->|Hne]; [by left|]. apply Hdom. by rewrite lookup_insert_ne in Hu.
  - rewrite lookup_insert_ne by (unfold vtramp, vtf in *; lia). done.
  - rewrite lookup_insert_ne by (unfold vtf in *; lia). done.
  - done.
  - destruct Hown as [Hnd Hpg]. split; rewrite Hdp; done.
  - unfold upages. rewrite Hdp. exact Htfp.
Qed.

(** [k0] and [L0]: memory and its free pages before; [tf]: the trap frame. *)
Section from.
Context (k0 : kmem) (L0 : list Z) (tf : Z).

Record image k L T D (root : Z) x : Prop := {
  im_mem : pmem k L T D root (a_sz x) tf;
  im_set : list_to_set L0 =@{gset Z} list_to_set L ∪ tpages T ∪ list_to_set (upages D (npages (a_sz x)));
  im_out : outside (list_to_set L0) (k_mem k0) (k_mem k);
  im_byte a : 0 ≤ a < 4096 * npages (a_sz x) → ubyte (k_mem k) D a = a_byte x a;
  im_zero a : 4096 * npages (a_sz x) ≤ a → a_byte x a = 0;
  im_flags v : 0 ≤ v < npages (a_sz x) → PTE_FLAGS (oldpte D v) = a_flags x v
}.

Lemma image_ext k L T D root x x' :
  image k L T D root x → a_sz x' = a_sz x → (∀ a, a_byte x' a = a_byte x a) →
  (∀ v, 0 ≤ v < npages (a_sz x) → a_flags x' v = a_flags x v) → image k L T D root x'.
Proof.
  intros [] Hs Hb Hf. split; rewrite ?Hs; try done.
  - intros a Ha. rewrite Hb. auto.
  - intros a Ha. rewrite Hb. auto.
  - intros v Hv. rewrite Hf by done. auto.
Qed.

Lemma image_npages k L T D root x : image k L T D root x → 0 ≤ a_sz x ≤ 134217728 ∧ 0 ≤ npages (a_sz x) ≤ 32768.
Proof.
  intros Hi. pose proof (pmem_pages kend trampoline Hend Htr _ _ _ _ _ _ _ (im_mem _ _ _ _ _ _ Hi)) as Hn.
  pose proof (pm_sz _ _ _ _ _ _ _ _ _ (pm_ppt _ _ _ _ _ _ _ _ _ (im_mem _ _ _ _ _ _ Hi))) as Hs. unfold npages in *. zlia.
Qed.

(** The page behind a virtual page of the image. *)
Lemma image_page k L T D root x v :
  image k L T D root x → 0 ≤ v < npages (a_sz x) →
  let p := PTE2PA (oldpte D v) in
  is_Some (D !! v) ∧ page_ok kend p ∧ (p ∉ L) ∧ (p ∉ tpages T) ∧ p ∈ upages D (npages (a_sz x)) ∧ p ∈ L0.
Proof.
  intros Hi Hv p. pose proof (pm_ppt _ _ _ _ _ _ _ _ _ (im_mem _ _ _ _ _ _ Hi)) as Hppt.
  assert (p ∈ upages D (npages (a_sz x))) as Hin.
  { apply list_elem_of_fmap. exists v. split; [done|]. apply elem_of_vrange. lia. }
  destruct (pm_user _ _ _ _ _ _ _ _ _ Hppt v Hv) as (e & He & _).
  destruct (ow_page _ _ _ _ _ (pm_owns _ _ _ _ _ _ _ _ _ Hppt) p Hin) as (? & ? & ?).
  split_and!; [by rewrite He|done..|]. apply (elem_of_list_to_set (C := gset Z)). rewrite (im_set _ _ _ _ _ _ Hi).
  rewrite !elem_of_union, !elem_of_list_to_set. tauto.
Qed.

Lemma image_write k L T D root x v off l :
  image k L T D root x → 0 ≤ v < npages (a_sz x) → 0 ≤ off → off + Z.of_nat (length l) ≤ 4096 → Forall (λ b, 0 ≤ b < 256) l →
  image (kset_mem (st_bytes (k_mem k) (PTE2PA (oldpte D v) + off) l) k) L T D root (put x (4096 * v + off) l).
Proof.
  intros Hi Hv Hoff Hlen Hb. destruct (image_page _ _ _ _ _ _ v Hi Hv) as (HD & Hp & HpL & HpT & Hin & HL0).
  pose proof (pm_owns _ _ _ _ _ _ _ _ _ (pm_ppt _ _ _ _ _ _ _ _ _ (im_mem _ _ _ _ _ _ Hi))) as Hown.
  set (p := PTE2PA (oldpte D v)) in *. set (m' := st_bytes (k_mem k) (p + off) l).
  assert (outside {[p]} (k_mem k) m') as Hout.
  { intros a Ha. unfold m'. rewrite ld_st_bytes, decide_False; [done|]. specialize (Ha p ltac:(by apply elem_of_singleton)).
    unfold in_page in Ha. lia. }
  assert (bytes_mem (k_mem k)) as Hbm.
  { apply (as_k _ _ _ _ _ _ (pm_as _ _ _ _ _ _ _ _ _ (pm_ppt _ _ _ _ _ _ _ _ _ (im_mem _ _ _ _ _ _ Hi)))). }
  split; cbn [a_sz a_byte a_flags put].
  - eapply (pmem_write kend trampoline Htr); [apply Hi|exact Hp|done|done| |exact Hout]. by apply bytes_st_bytes.
  - apply Hi.
  - eapply outside_trans; [apply Hi|]. eapply outside_mono; [|exact Hout]. intros q ->%elem_of_singleton. by apply elem_of_list_to_set.
  - intros a Ha. unfold ubyte, aput. cbn [k_mem kset_mem]. unfold m'. rewrite ld_st_bytes.
    assert (0 ≤ a / 4096 < npages (a_sz x)) as Hva by zlia.
    destruct (decide (4096 * v + off ≤ a < 4096 * v + off + Z.of_nat (length l))) as [Hr|Hr].
    + replace (a / 4096) with v by zlia. fold p. rewrite decide_True by zlia.
      replace (Z.to_nat (p + a mod 4096 - (p + off))) with (Z.to_nat (a - (4096 * v + off))) by zlia.
      apply u8_small. rewrite Forall_forall in Hb. apply Hb. apply list_elem_of_In, nth_In. lia.
    + case_decide as Hx; [|by apply (im_byte _ _ _ _ _ _ Hi a)]. exfalso. apply Hr.
      assert (PTE2PA (oldpte D (a / 4096)) = p) as He.
      { destruct (image_page _ _ _ _ _ _ (a / 4096) Hi Hva) as (_ & Hp' & _).
        apply (pages_disjoint kend _ _ (PTE2PA (oldpte D (a / 4096)) + a mod 4096)); [done|done|unfold in_page; zlia|unfold in_page; lia]. }
      apply (upages_inj D (npages (a_sz x))) in He; [|apply Hown|done|done]. subst v. fold p in Hx. zlia.
  - intros a Ha. unfold aput. rewrite decide_False by lia. by apply Hi.
  - apply Hi.
Qed.

(** ** The operations of kernel/vm.c and kernel/proc.c *)

Lemma image_start k L T root :
  pmem k L T (D_empty trampoline tf) root 0 tf → split_pages k0 L0 k L T → image k L T (D_empty trampoline tf) root empty_image.
Proof.
  intros Hpm [Hset Hout]. split; cbn [a_sz a_byte a_flags empty_image]; change (npages 0) with 0.
  - done.
  - rewrite Hset. change (upages _ 0) with (@nil Z). cbn. by rewrite union_empty_r_L.
  - done.
  - intros a Ha. lia.
  - done.
  - intros v Hv. lia.
Qed.

(** Growing by [m] zeroed pages; [m = 0] when it was undone. *)
Lemma image_grown k L T D root x newsz xperm m k' L' T' D' :
  image k L T D root x → npages newsz = npages (a_sz x) + Z.of_nat m → 0 ≤ newsz ≤ 4096 * vtf → 0 ≤ xperm < 1024 →
  grown kend k L T D root (npages (a_sz x)) (λ _, uperm xperm) (λ _ _, 0) m ∅ k' L' T' D' →
  image k' L' T' D' root (enlarge x newsz xperm).
Proof.
  intros Hi Hn Hnew Hx Hg. destruct (image_npages _ _ _ _ _ _ Hi) as [Hsz Hn0].
  pose proof (uperm_range xperm Hx) as Hu. pose proof (uperm_leaf xperm) as Hl.
  assert (pmem k' L' T' D' root newsz tf) as Hpm'.
  { by apply (pmem_grown kend trampoline Htr k L T D root (a_sz x) tf newsz (λ _, uperm xperm) (λ _ _, 0) m); [apply Hi|..]. }
  pose proof (resized_grown kend trampoline Htr _ _ _ _ _ _ _ newsz _ _ _ _ _ _ _ (im_mem _ _ _ _ _ _ Hi) Hn Hg) as Hrz.
  assert (upages D' (npages newsz) = upages D (npages (a_sz x)) ++ dpages D' (vrange (npages (a_sz x)) m)) as Hup.
  { rewrite Hn, upages_app by lia. f_equal. apply upages_ext. intros v Hv. apply (gw_same _ _ _ _ _ _ _ _ _ _ _ _ _ _ _ Hg). lia. }
  assert (∀ v, npages (a_sz x) ≤ v < npages newsz → ∃ p, oldpte D' v = leaf p (uperm xperm) ∧ page_ok kend p ∧
    ∀ i, 0 ≤ i < 4096 → ld (k_mem k') (p + i) = 0) as Hnewp.
  { intros v Hv. destruct (gw_new _ _ _ _ _ _ _ _ _ _ _ _ _ _ _ Hg v ltac:(lia)) as (p & HD & Hp & Hc).
    exists p. unfold oldpte. rewrite HD. done. }
  pose proof (gw_set _ _ _ _ _ _ _ _ _ _ _ _ _ _ _ Hg) as Hset. unfold rest in Hset. rewrite !union_empty_r_L in Hset.
  split; cbn [a_sz a_byte a_flags enlarge].
  - done.
  - rewrite (im_set _ _ _ _ _ _ Hi), Hset, Hup, list_to_set_app_L. rewrite <-!(assoc_L (∪)). do 2 f_equal. apply (comm_L (∪)).
  - eapply outside_trans; [apply Hi|]. eapply outside_mono; [|apply (gw_out _ _ _ _ _ _ _ _ _ _ _ _ _ _ _ Hg)].
    rewrite (im_set _ _ _ _ _ _ Hi). unfold rest. rewrite union_empty_r_L. apply union_subseteq_l.
  - intros a Ha. destruct (decide (a / 4096 < npages (a_sz x))) as [Hlt|Hge].
    + rewrite <-(im_byte _ _ _ _ _ _ Hi a) by zlia. unfold ubyte.
      replace (oldpte D' (a / 4096)) with (oldpte D (a / 4096)); [apply (rz_content _ _ _ _ _ _ _ _ _ _ _ Hrz); zlia|].
      unfold oldpte. by rewrite (rz_same _ _ _ _ _ _ _ _ _ _ _ Hrz) by zlia.
    + destruct (Hnewp (a / 4096) ltac:(zlia)) as (p & HD & Hp & Hc). rewrite (im_zero _ _ _ _ _ _ Hi) by zlia. unfold ubyte.
      rewrite HD, leaf_pa; [apply Hc; zlia|by apply (page_u64 kend)|apply Hp|done].
  - intros a Ha. apply (im_zero _ _ _ _ _ _ Hi). lia.
  - intros v Hv. case_decide as Hd.
    + destruct (Hnewp v Hd) as (p & HD & _). rewrite HD. by apply leaf_flags.
    + unfold oldpte. rewrite (rz_same _ _ _ _ _ _ _ _ _ _ _ Hrz) by lia. apply (im_flags _ _ _ _ _ _ Hi). lia.
Qed.

Lemma image_uvmalloc k L T D root x newsz xperm (Q : Z → kmem → Prop) :
  image k L T D root x → a_sz x ≤ newsz → 0 ≤ xperm < 1024 →
  (∀ k' L' T' D', image k' L' T' D' root (enlarge x newsz xperm) →
     Z.of_nat (length L) ≤ Z.of_nat (length L') + 3 * (npages newsz - npages (a_sz x)) → Q newsz k') →
  (∀ k' L' T', image k' L' T' D root x → Z.of_nat (length L) < 3 * (npages newsz - npages (a_sz x)) → Q 0 k') →
  wp (uvmalloc kend root (a_sz x) newsz xperm) k Q.
Proof.
  intros Hi Hnew Hx HQ1 HQ0. destruct (image_npages _ _ _ _ _ _ Hi) as [Hsz Hn0].
  pose proof (pm_ppt _ _ _ _ _ _ _ _ _ (im_mem _ _ _ _ _ _ Hi)) as Hppt.
  apply (uvmalloc_any kend Hend k L T D root (a_sz x) newsz xperm vtf); [apply Hppt|lia|done|done|unfold NVPN; lia| | | |].
  - right. unfold vtf. lia.
  - intros v Hv Hlt. destruct (D !! v) eqn:E; [|done]. destruct (pm_dom _ _ _ _ _ _ _ _ _ Hppt v) as [|[-> | ->]]; [by rewrite E|lia|unfold vtramp, vtf in Hlt; lia|lia].
  - intros k' L' T' D' Hg Hl. assert (npages newsz - npages (a_sz x) ≤ 32768) as Hm.
    { pose proof (pages_bound kend Hend _ (gw_nodup _ _ _ _ _ _ _ _ _ _ _ _ _ _ _ Hg)
        (λ p Hp, proj1 (gw_own _ _ _ _ _ _ _ _ _ _ _ _ _ _ _ Hg p Hp))) as Hb.
      unfold dpages in Hb. rewrite length_fmap, length_vrange in Hb. lia. }
    assert (npages (a_sz x) ≤ npages newsz) as Hmono by (unfold npages; zlia).
    eapply HQ1; [eapply image_grown; [exact Hi| | |done|exact Hg]|lia]; [lia|unfold vtf, npages in *; zlia].
  - intros k' L' T' Hg Hl. eapply HQ0; [|exact Hl].
    eapply image_ext; [eapply (image_grown _ _ _ _ _ x (a_sz x)); [exact Hi| | |exact Hx|exact Hg]|done|done|].
    + lia.
    + unfold vtf. lia.
    + intros v Hv. cbn. by rewrite decide_False by lia.
Qed.

(** Every page goes back. *)
Lemma image_free k L T D root x (Q : unit → kmem → Prop) :
  image k L T D root x →
  (∀ k' L', kmem_ok kend k' L' → list_to_set L' =@{gset Z} list_to_set L0 → outside (list_to_set L0) (k_mem k0) (k_mem k') → Q tt k') →
  wp (proc_freepagetable kend root (a_sz x)) k Q.
Proof.
  intros Hi HQ. eapply (proc_freepagetable_spec kend trampoline Hend Htr); [apply Hi|]. intros k' L' Hk' Hset Hout.
  apply (HQ k' L'); [done|by rewrite Hset, (im_set _ _ _ _ _ _ Hi)|]. eapply outside_trans; [apply Hi|].
  eapply outside_mono; [|exact Hout]. rewrite (im_set _ _ _ _ _ _ Hi). rewrite <-(assoc_L (∪)). apply union_subseteq_r.
Qed.

(** The flags of a page, as the code tests them. *)
Lemma flag_flags e b : 0 ≤ b < 10 → flag e (Z.shiftl 1 b) = flag (PTE_FLAGS e) (Z.shiftl 1 b).
Proof.
  intros Hb. rewrite !flag_testbit by lia. rewrite PTE_FLAGS_mod. change 1024 with (2 ^ 10). by rewrite Z.mod_pow2_bits_low by lia.
Qed.

Lemma image_walkaddr k L T D root x v :
  image k L T D root x → 0 ≤ v < npages (a_sz x) → flag (a_flags x v) PTE_U = true →
  walkaddr root (4096 * v) k = Ret (PTE2PA (oldpte D v)) k ∧ PTE2PA (oldpte D v) ≠ 0.
Proof.
  intros Hi Hv Hfl. destruct (image_page _ _ _ _ _ _ v Hi Hv) as ([e He] & Hp & _). split.
  - rewrite (walkaddr_spec kend Hend k L T D root v); [|apply (pm_ppt _ _ _ _ _ _ _ _ _ (im_mem _ _ _ _ _ _ Hi))| |lia].
    + unfold oldpte. rewrite He. cbn [default from_option id]. rewrite <-(im_flags _ _ _ _ _ _ Hi v Hv) in Hfl. unfold oldpte in Hfl.
      rewrite He in Hfl. cbn in Hfl. change PTE_U with (Z.shiftl 1 4) in *. rewrite <-flag_flags in Hfl by lia. by rewrite Hfl.
    + apply (pmem_user_pages kend trampoline Htr _ _ _ _ _ _ _ (im_mem _ _ _ _ _ _ Hi)).
  - destruct (page_bounds kend Hend _ Hp). lia.
Qed.

(** Addresses the user may write. *)
Definition writable x (a : Z) (n : nat) : Prop :=
  0 ≤ a ∧ a + Z.of_nat n ≤ 4096 * npages (a_sz x) ∧
  ∀ v, a / 4096 ≤ v → 4096 * v < a + Z.of_nat n → flag (a_flags x v) PTE_U && flag (a_flags x v) PTE_W = true.

Lemma image_acopyout k L T D root x va l :
  image k L T D root x → writable x va (length l) → Forall (λ b, 0 ≤ b < 256) l →
  ∃ m', acopyout D (k_mem k) va l = (m', true) ∧ image (kset_mem m' k) L T D root (put x va l).
Proof.
  revert k x va. induction l as [|b l IH]; intros k x va Hi (Hva & Hend' & Hw) Hb.
  { exists (k_mem k). split; [done|]. destruct k as [m f n]. eapply image_ext; [exact Hi|done| |done].
    intros a. cbn. unfold aput. rewrite decide_False by (cbn; lia). done. }
  apply Forall_cons in Hb as [Hb Hbs]. cbn [length] in Hend', Hw. cbn [acopyout].
  assert (0 ≤ va / 4096 < npages (a_sz x)) as Hv by zlia.
  destruct (image_page _ _ _ _ _ _ _ Hi Hv) as ([e He] & _).
  assert (utrans D PTE_W va = Some (PTE2PA (oldpte D (va / 4096)) + va mod 4096)) as ->.
  { specialize (Hw (va / 4096) ltac:(lia) ltac:(zlia)). rewrite <-(im_flags _ _ _ _ _ _ Hi _ Hv) in Hw. unfold utrans, oldpte in *. rewrite He in *.
    cbn [default from_option id] in *. change PTE_U with (Z.shiftl 1 4) in *. change PTE_W with (Z.shiftl 1 2) in *.
    rewrite <-!flag_flags in Hw by lia. by rewrite Hw. }
  pose proof (image_write _ _ _ _ _ _ (va / 4096) (va mod 4096) [b] Hi Hv ltac:(zlia) ltac:(cbn; zlia) ltac:(by constructor)) as Hi1.
  cbn [st_bytes imap foldl] in Hi1. change (st_bytes ?m ?a [b]) with (st m (a + 0) b) in Hi1. rewrite Z.add_0_r in Hi1.
  replace (4096 * (va / 4096) + va mod 4096) with va in Hi1 by zlia.
  destruct (IH _ _ (va + 1) Hi1) as (m' & Hm & Hi').
  - split_and!; cbn [a_sz a_flags put]; [lia|lia|]. intros v Hv1 Hv2. apply Hw; zlia.
  - done.
  - exists m'. split; [exact Hm|]. eapply image_ext; [exact Hi'|done| |done]. intros a. cbn. by rewrite aput_cons.
Qed.

Lemma image_copyout k L T D root x va l :
  image k L T D root x → writable x va (length l) → Forall (λ b, 0 ≤ b < 256) l →
  ∃ k', copyout root va l k = Ret 0 k' ∧ image k' L T D root (put x va l).
Proof.
  intros Hi Hw Hb. destruct (image_acopyout _ _ _ _ _ _ _ _ Hi Hw Hb) as (m' & Hm & Hi').
  destruct (image_npages _ _ _ _ _ _ Hi) as [Hsz Hn]. destruct Hw as (? & ? & _).
  pose proof (copyout_loop_spec kend Hend (S (length l)) k L T D root va l
    (pm_as _ _ _ _ _ _ _ _ _ (pm_ppt _ _ _ _ _ _ _ _ _ (im_mem _ _ _ _ _ _ Hi)))
    (pmem_user_pages kend trampoline Htr _ _ _ _ _ _ _ (im_mem _ _ _ _ _ _ Hi)) ltac:(lia) ltac:(lia)) as Hc.
  rewrite Hm in Hc. destruct Hc as [Hc _]. eexists. split; [exact Hc|done].
Qed.

Lemma image_clear k L T D root x v :
  image k L T D root x → 0 ≤ v < npages (a_sz x) → Z.land (a_flags x v) (Z.lnot PTE_U) ≠ PTE_V →
  ∃ k' D', uvmclear root (4096 * v) k = Ret tt k' ∧ image k' L T D' root (hide x v).
Proof.
  intros Hi Hv Hfl. destruct (image_page _ _ _ _ _ _ v Hi Hv) as ([e He] & _). destruct (image_npages _ _ _ _ _ _ Hi) as [_ Hn].
  pose proof (pm_as _ _ _ _ _ _ _ _ _ (pm_ppt _ _ _ _ _ _ _ _ _ (im_mem _ _ _ _ _ _ Hi))) as Has.
  assert (0 ≤ v < NVPN / 2) as Hv2 by (change (NVPN / 2) with 67108864; lia). assert (0 ≤ v < NVPN) as Hv3 by (unfold NVPN; lia).
  destruct (leaf_table _ _ _ _ _ _ _ _ Has He) as [p Hp].
  pose proof (ld_leaf _ _ _ _ _ _ _ _ Has Hv3 Hp) as Hld. rewrite He in Hld. cbn [default from_option id] in Hld.
  assert (0 ≤ e < 18446744073709551616) as Her by (rewrite <-Hld; apply ld64_range, (as_k _ _ _ _ _ _ Has)).
  destruct (pte_nonzero kend Hend _ _ _ _ _ _ _ (ix 0 v) Has Hp (proj1 (ix_range 0 v))) as [_ Hnz].
  destruct (write_leaf kend Hend k L T D root v p (cleared e) (<[v := cleared e]> D) Has Hv3 Hp (cleared_range e Her)) as [Has' Hg].
  { by rewrite lookup_insert_eq. }
  { intros u Hu. by rewrite lookup_insert_ne. }
  { intros _. rewrite cleared_V. by destruct (as_dom _ _ _ _ _ _ Has v e He). }
  set (k' := kset_mem _ k) in *. exists k', (<[v := cleared e]> D). split.
  { unfold uvmclear, mbind, M_bind. rewrite (walk_present kend Hend k L T D root false v p Has Hv2 Hp).
    rewrite (proj2 (Z.eqb_neq _ _)) by done. unfold ldp, gets. rewrite Hld. done. }
  assert (oldpte (<[v := cleared e]> D) v = cleared e) as Hnew by (unfold oldpte; by rewrite lookup_insert_eq).
  assert (∀ u, u ≠ v → oldpte (<[v := cleared e]> D) u = oldpte D u) as Hold by (intros u Hu; unfold oldpte; by rewrite lookup_insert_ne).
  assert (oldpte D v = e) as HDv by (unfold oldpte; by rewrite He).
  assert (∀ u, PTE2PA (oldpte (<[v := cleared e]> D) u) = PTE2PA (oldpte D u)) as Hpa.
  { intros u. destruct (decide (u = v)) as [->|Hne]; [by rewrite Hnew, HDv, cleared_pa|by rewrite Hold]. }
  assert (PTE_FLAGS (cleared e) = Z.land (a_flags x v) (Z.lnot PTE_U)) as Hfl'.
  { rewrite cleared_flags, <-(im_flags _ _ _ _ _ _ Hi v Hv), HDv. done. }
  assert (outside (tpages T) (k_mem k) (k_mem k')) as Hout by apply Hg.
  assert (∀ q a, q ∉ tpages T → page_ok kend q → in_page q a → ld (k_mem k') a = ld (k_mem k) a) as Hsame.
  { intros q a Hq Hok Ha. apply Hout. intros r Hr Ha'. apply Hq. replace q with r; [done|].
    apply (pages_disjoint kend r q a); [|done..]. apply tpages_elem in Hr as [l Hl]. by eapply (pt_page _ _ _ _ (as_tab _ _ _ _ _ _ Has)). }
  split; cbn [a_sz a_byte a_flags hide].
  - eapply pmem_reflag; [apply Hi|done|exact He|apply cleared_pa|by rewrite Hfl'|exact Has'].
  - unfold upages. rewrite (dpages_same_pa D v e) by (done || apply cleared_pa). apply Hi.
  - eapply outside_trans; [apply Hi|]. eapply outside_mono; [|exact Hout]. rewrite (im_set _ _ _ _ _ _ Hi). intros q Hq. rewrite !elem_of_union. tauto.
  - intros a Ha. rewrite <-(im_byte _ _ _ _ _ _ Hi a Ha). unfold ubyte. rewrite Hpa.
    destruct (image_page _ _ _ _ _ _ (a / 4096) Hi ltac:(zlia)) as (_ & Hok & _ & HT & _).
    apply (Hsame (PTE2PA (oldpte D (a / 4096)))); [done|done|unfold in_page; zlia].
  - apply Hi.
  - intros u Hu. case_decide as Hd; [by subst u; rewrite Hnew|]. rewrite Hold by done. by apply Hi.
Qed.
End from.
End image.

#[local] Opaque memset st64 memmove.

(** ** The reference *)

(** What [readi] reads: the bytes of the file within the range. *)
Definition file_read (data : list Z) (off n : Z) : list Z := take (Z.to_nat n) (drop (Z.to_nat off) data).

(** A segment: memory up to its end, with the bytes of the file at its address. *)
Definition load_segment (data : list Z) (ph : proghdr) (x : aimage) : option aimage :=
  let newsz := u64 (ph_vaddr ph + ph_memsz ph) in
  let bytes := file_read data (u32 (ph_off ph)) (u32 (ph_filesz ph)) in
  if (ph_memsz ph <? ph_filesz ph) || (newsz <? ph_vaddr ph) || negb (ph_vaddr ph mod 4096 =? 0) then None else
  let y := if newsz <? a_sz x then x else enlarge x newsz (flags2perm (s32 (ph_flags ph))) in
  if (a_sz y =? 0) || (Z.of_nat (length bytes) <? u32 (ph_filesz ph)) then None
  else Some (put y (ph_vaddr ph) bytes).

Fixpoint load_segments (n : nat) (data : list Z) (off : Z) (x : aimage) : option aimage :=
  match n with
  | O => Some x
  | S n =>
      let bytes := file_read data (u32 off) 56 in
      if Z.of_nat (length bytes) =? 56 then
        let ph := proghdr_of bytes in
        if ph_type ph =? ELF_PROG_LOAD then x' ← load_segment data ph x; load_segments n data (s32 (off + 56)) x'
        else load_segments n data (s32 (off + 56)) x
      else None
  end.

(** The entry point and the image of an ELF file. *)
Definition load_elf (data : list Z) : option (Z * aimage) :=
  let elf := elfhdr_of (take 64 data) in
  if (Z.of_nat (length data) <? 64) || negb (e_magic elf =? ELF_MAGIC) then None else
  x ← load_segments (Z.to_nat (e_phnum elf)) data (s32 (e_phoff elf)) empty_image;
  Some (e_entry elf, x).

(** ** Facts about it *)

Definition bytes (l : list Z) : Prop := Forall (λ b, 0 ≤ b < 256) l.

Lemma bytes_read data off n : bytes data → bytes (file_read data off n).
Proof. intros Hd. by apply Forall_take, Forall_drop. Qed.

Lemma length_read data off n : 0 ≤ off → 0 ≤ n →
  Z.of_nat (length (file_read data off n)) = Z.min n (Z.max 0 (Z.of_nat (length data) - off)).
Proof. intros. unfold file_read. rewrite length_take, length_drop. lia. Qed.

Lemma file_read_split data off n m : 0 ≤ off → 0 ≤ m ≤ n →
  file_read data off n = file_read data off m ++ file_read data (off + m) (n - m).
Proof.
  intros Ho Hm. unfold file_read. rewrite Z2Nat.inj_add, <-drop_drop by lia. rewrite Z2Nat.inj_sub by lia.
  set (l := drop (Z.to_nat off) data). rewrite <-(take_drop (Z.to_nat m) (take (Z.to_nat n) l)).
  rewrite take_take, skipn_firstn_comm. by replace (Z.to_nat m `min` Z.to_nat n)%nat with (Z.to_nat m) by lia.
Qed.

Lemma field_range l off n : bytes l → 0 ≤ field l off n < 256 ^ Z.of_nat n.
Proof.
  intros Hl. unfold field. pose proof (le_val_range (take n (drop off l)) ltac:(by apply Forall_take, Forall_drop)) as Hr.
  split; [lia|]. eapply Z.lt_le_trans; [apply Hr|]. apply Z.pow_le_mono_r; [lia|]. rewrite length_take. lia.
Qed.

Lemma flags2perm_range f : 0 ≤ flags2perm f < 1024.
Proof. unfold flags2perm. by destruct (Z.land f 1 =? 0), (Z.land f 2 =? 0). Qed.

(** Every page may be used by the program. *)
Definition all_user (x : aimage) : Prop := ∀ v, 0 ≤ v < npages (a_sz x) → flag (a_flags x v) PTE_U = true.

Lemma enlarge_user x newsz xperm : a_sz x ≤ newsz → all_user x → all_user (enlarge x newsz xperm).
Proof.
  intros Hs Hx v Hv. cbn in *. case_decide as Hd; [|apply Hx; lia]. change PTE_U with (Z.shiftl 1 4).
  rewrite flag_testbit by lia. unfold uperm. rewrite !Z.lor_spec. done.
Qed.

Lemma load_segment_sz data ph x y : load_segment data ph x = Some y → a_sz x ≤ a_sz y.
Proof.
  unfold load_segment. destruct (_ || _); [done|]. destruct (Z.ltb_spec (u64 (ph_vaddr ph + ph_memsz ph)) (a_sz x));
    destruct (_ || _); intros [= <-]; cbn; lia.
Qed.

Lemma load_segments_sz data n : ∀ off x y, load_segments n data off x = Some y → a_sz x ≤ a_sz y.
Proof.
  induction n as [|n IH]; intros off x y; cbn [load_segments]; [intros [= ->]; lia|].
  destruct (_ =? 56); [|done]. destruct (_ =? ELF_PROG_LOAD); [|by apply IH].
  destruct (load_segment _ _ x) as [z|] eqn:E; [|done]. cbn. intros Hy%IH. apply load_segment_sz in E. lia.
Qed.

Lemma load_elf_sz data entry x : load_elf data = Some (entry, x) → 0 ≤ a_sz x.
Proof.
  unfold load_elf. destruct (_ || _); [done|]. destruct (load_segments _ _ _ _) as [y|] eqn:E; [|done]. cbn. intros [= _ <-].
  by apply load_segments_sz in E.
Qed.

Lemma npages_mono a b : a ≤ b → npages a ≤ npages b.
Proof. unfold npages. intros. zlia. Qed.

Section load.
Context {F : Type} {FO : FileOps F} {EO : ExecOps F}.
Context (kend trampoline : Z) (Hend : KERNBASE ≤ kend) (Htr : 0 ≤ trampoline < 18446744073709547520).
Implicit Types (s : kstate F) (k : kmem) (L : list Z) (T : gmap (list Z) Z) (D : gmap Z Z) (x : aimage) (f : F).

(** The state with another memory and another file system. *)
Definition at_kf s k f : kstate F := KState k f (ks_procs s) (ks_nextpid s) (ks_initproc s) (ks_ticks s).

Lemma wp_onk_at {A} (m : M kmem A) s k f (Q : A → kstate F → Prop) :
  wp m k (λ a k', Q a (at_kf s k' f)) → wp (onk m) (at_kf s k f) Q.
Proof. intros Hm. unfold onk. wp_step. exact Hm. Qed.

Lemma wp_onf_at {A} (m : M (kmem * F) A) s k f (Q : A → kstate F → Prop) :
  wp m (k, f) (λ a kf, Q a (at_kf s kf.1 kf.2)) → wp (onf m) (at_kf s k f) Q.
Proof. intros Hm. unfold onf. wp_step. exact Hm. Qed.

(** ** Reading the file *)
Section file.
Context (ip : nat) (data : list Z) (I : F → Prop) (Hdata : bytes data) (Hlen : Z.of_nat (length data) < 2147483648).
Context (Hread : ∀ k f off n, I f → 0 ≤ off < 4294967296 → 0 ≤ n ≤ 4096 →
  wp (readi ip off n) (k, f) (λ r kf, r = (Z.of_nat (length (file_read data off n)), file_read data off n) ∧ kf.1 = k ∧ I kf.2)).

Lemma file_readi_spec s k f off n (Q : Z * list Z → kstate F → Prop) :
  I f → 0 ≤ off < 4294967296 → 0 ≤ n ≤ 4096 →
  (∀ f', I f' → Q (Z.of_nat (length (file_read data off n)), file_read data off n) (at_kf s k f')) →
  wp (onf (readi ip off n)) (at_kf s k f) Q.
Proof.
  intros Hf Ho Hn HQ. apply wp_onf_at. eapply wp_mono; [by apply Hread|]. intros r [k' f'] (-> & Hk & Hf'). cbn in *. subst k'. by apply HQ.
Qed.

Section segments.
Context (k0 : kmem) (L0 : list Z) (tf root : Z).
Abbreviation image := (image kend trampoline k0 L0 tf).

(** ** [loadseg] *)
Lemma loadseg_loop_spec s va off sz fuel : ∀ k f L T D x i (Q : Z → kstate F → Prop),
  image k L T D root x → all_user x → I f → 0 ≤ off < 4294967296 → 0 ≤ sz < 4294963200 → 0 ≤ va → va mod 4096 = 0 →
  va + sz ≤ a_sz x → 0 ≤ i → i mod 4096 = 0 → i = 0 ∨ off + i ≤ Z.of_nat (length data) → sz - i ≤ 4096 * (Z.of_nat fuel - 1) → 0 < Z.of_nat fuel →
  let l := file_read data (off + i) (sz - i) in
  (∀ k' f', I f' → image k' L T D root (put x (va + i) l) → Z.of_nat (length l) = Z.max 0 (sz - i) → Q 0 (at_kf s k' f')) →
  (∀ k' f' y, I f' → image k' L T D root y → a_sz y = a_sz x → Z.of_nat (length l) < sz - i → Q (-1) (at_kf s k' f')) →
  wp (loadseg_loop fuel root va ip off sz i) (at_kf s k f) Q.
Proof.
  induction fuel as [|fuel IH]; intros k f L T D x i Q Hi Hu Hf Ho Hsz Hva Hvm Hend' Hi0 Him Hpos Hfuel Hfp l HQ0 HQ1; [lia|].
  cbn [loadseg_loop]. destruct (image_npages kend trampoline Hend Htr _ _ _ _ _ _ _ _ _ Hi) as [Hxs Hxn].
  destruct (Z.ltb_spec i sz) as [Hlt|Hge].
  2:{ assert (l = []) as Hl0 by (unfold l, file_read; by replace (Z.to_nat (sz - i)) with O by lia).
      wp_step. apply HQ0; [done| |rewrite Hl0; cbn; lia]. rewrite Hl0. destruct x as [xs xb xf]. eapply image_ext; [exact Hi|done| |done].
      intros a. cbn. unfold aput. rewrite decide_False by (cbn; lia). done. }
  assert (0 ≤ (va + i) / 4096 < npages (a_sz x)) as Hv by (unfold npages; zlia).
  destruct (image_walkaddr kend trampoline Hend Htr _ _ _ _ _ _ _ _ _ _ Hi Hv (Hu _ Hv)) as [Hwa Hnz].
  replace (4096 * ((va + i) / 4096)) with (va + i) in Hwa by zlia.
  wp_step. apply wp_onk_at. rewrite u64_small by lia. eapply wp_eq; [exact Hwa|]. rewrite (proj2 (Z.eqb_neq _ _)) by done.
  change PGSIZE with 4096. rewrite (u32_small (sz - i)) by lia.
  set (n := if sz - i <? 4096 then sz - i else 4096). assert (n = Z.min 4096 (sz - i)) as Hn by (unfold n; destruct (Z.ltb_spec (sz - i) 4096); lia).
  wp_step. unfold readi_at. wp_step.
  assert (u32 (off + i) = off + i) as Hoi by (apply u32_small; lia).
  rewrite Hoi. eapply file_readi_spec; [done|lia|lia|]. intros f' Hf'. set (b := file_read data (off + i) n).
  wp_step. apply wp_onk_at. wp_step. wp_step.
  assert (Z.of_nat (length b) ≤ n) as Hbn by (unfold b; rewrite length_read by lia; lia).
  pose proof (image_write kend trampoline Htr _ _ _ _ _ _ _ _ _ ((va + i) / 4096) 0 b Hi Hv ltac:(lia) ltac:(lia) (bytes_read _ _ _ Hdata)) as Hi1.
  rewrite Z.add_0_r in Hi1. replace (4096 * ((va + i) / 4096) + 0) with (va + i) in Hi1 by zlia.
  assert (l = b ++ file_read data (off + i + n) (sz - i - n)) as Hl by (apply file_read_split; lia).
  rewrite (u32_small (Z.of_nat (length b))) by lia.
  destruct (Z.eqb_spec (Z.of_nat (length b)) n) as [Hfull|Hshort]; cbn [negb].
  2:{ wp_step. eapply HQ1; [done|exact Hi1|done|]. rewrite Hl, length_app. unfold b in Hshort |- *.
      pose proof (length_read data (off + i + n) (sz - i - n)). pose proof (length_read data (off + i) n). lia. }
  assert (off + i + n ≤ Z.of_nat (length data)) as Hin by (unfold b in Hfull; rewrite length_read in Hfull by lia; lia).
  rewrite (u32_small (i + 4096)) by lia. destruct (decide (sz - i ≤ 4096)) as [Hlast|Hmore].
  - assert (length (file_read data (off + i + n) (sz - i - n)) = O) as Hz by (unfold file_read; rewrite length_take; lia).
    apply nil_length_inv in Hz. rewrite Hz, app_nil_r in Hl.
    destruct fuel as [|fuel]; [lia|]. cbn [loadseg_loop]. rewrite (proj2 (Z.ltb_ge _ _)) by lia. wp_step.
    apply HQ0; [done| |rewrite Hl; lia]. rewrite Hl. exact Hi1.
  - assert (n = 4096) as Hn4 by lia. rewrite Hn4 in *. eapply IH; [exact Hi1|done|done|done|done|done|done|cbn; lia|lia|zlia|lia|lia|lia| |].
    + intros k' f'' Hf'' Hi2 Hl2. apply HQ0; [done| |].
      * eapply image_ext; [exact Hi2|done| |done]. intros a. cbn. rewrite Hl. rewrite <-aput_app, Hfull.
        replace (va + (i + 4096)) with (va + i + 4096) by lia. replace (off + (i + 4096)) with (off + i + 4096) by lia.
        by replace (sz - (i + 4096)) with (sz - i - 4096) by lia.
      * rewrite Hl, length_app. replace (off + (i + 4096)) with (off + i + 4096) in Hl2 by lia.
        replace (sz - (i + 4096)) with (sz - i - 4096) in Hl2 by lia. lia.
    + intros k' f'' y Hf'' Hi2 Hy Hl2. eapply HQ1; [done|exact Hi2|done|]. rewrite Hl, length_app.
      replace (off + (i + 4096)) with (off + i + 4096) in Hl2 by lia. replace (sz - (i + 4096)) with (sz - i - 4096) in Hl2 by lia. lia.
Qed.

(** ** A segment *)
Definition grown_to x newsz xperm : aimage := if newsz <? a_sz x then x else enlarge x newsz xperm.

Lemma uvmalloc_to k L T D x newsz xperm (Q : Z → kmem → Prop) :
  image k L T D root x → 0 ≤ xperm < 1024 → let y := grown_to x newsz xperm in
  (∀ k' L' T' D', image k' L' T' D' root y →
     Z.of_nat (length L) ≤ Z.of_nat (length L') + 3 * (npages (a_sz y) - npages (a_sz x)) → Q (a_sz y) k') →
  (∀ k' L' T', image k' L' T' D root x → Z.of_nat (length L) < 3 * (npages (a_sz y) - npages (a_sz x)) → Q 0 k') →
  wp (uvmalloc kend root (a_sz x) newsz xperm) k Q.
Proof.
  intros Hi Hx y HQ1 HQ0. unfold y, grown_to in *. destruct (Z.ltb_spec newsz (a_sz x)) as [Hlt|Hge].
  - unfold uvmalloc. rewrite (proj2 (Z.ltb_lt _ _)) by done. wp_step. eapply HQ1; [exact Hi|lia].
  - by eapply (image_uvmalloc kend trampoline Hend Htr).
Qed.

Lemma load_ph_spec s k f L T D x ph (Q : bool * Z → kstate F → Prop) :
  image k L T D root x → all_user x → I f → 0 ≤ ph_vaddr ph < 18446744073709551616 → 0 ≤ ph_memsz ph < 18446744073709551616 →
  0 ≤ ph_filesz ph →
  (∀ k' f' L' T' D' y, I f' → image k' L' T' D' root y → all_user y → load_segment data ph x = Some y →
     Z.of_nat (length L) ≤ Z.of_nat (length L') + 3 * (npages (a_sz y) - npages (a_sz x)) → Q (true, a_sz y) (at_kf s k' f')) →
  (∀ k' f' L' T' D' y, I f' → image k' L' T' D' root y →
     (∀ z, load_segment data ph x = Some z → Z.of_nat (length L) < 3 * (npages (a_sz z) - npages (a_sz x))) →
     Q (false, a_sz y) (at_kf s k' f')) →
  wp (load_ph kend root ip ph (a_sz x)) (at_kf s k f) Q.
Proof.
  intros Hi Hu Hf Hva Hms Hfs HQ1 HQ0. unfold load_ph, load_segment in *. change PGSIZE with 4096.
  destruct (image_npages kend trampoline Hend Htr _ _ _ _ _ _ _ _ _ Hi) as [Hxs _].
  destruct (Z.ltb_spec (ph_memsz ph) (ph_filesz ph)); cbn [orb] in *; [wp_step; by eapply HQ0|].
  destruct (Z.ltb_spec (u64 (ph_vaddr ph + ph_memsz ph)) (ph_vaddr ph)); cbn [orb] in *; [wp_step; by eapply HQ0|].
  destruct (Z.eqb_spec (ph_vaddr ph mod 4096) 0) as [Hal|]; cbn [negb] in *; [|wp_step; by eapply HQ0].
  assert (u64 (ph_vaddr ph + ph_memsz ph) = ph_vaddr ph + ph_memsz ph) as He by (unfold u64 in *; zlia). rewrite He in *.
  assert (0 ≤ u32 (ph_filesz ph) ≤ ph_filesz ph) as Hfz by (unfold u32; zlia).
  set (perm := flags2perm _) in *. fold (grown_to x (ph_vaddr ph + ph_memsz ph) perm) in *. set (y := grown_to _ _ _) in *.
  assert (ph_vaddr ph + ph_memsz ph ≤ a_sz y ∧ a_sz x ≤ a_sz y ∧ (a_sz y = 0 → a_sz x = 0) ∧ all_user y) as (Hy & Hxy & Hy0 & Huy).
  { unfold y, grown_to. destruct (Z.ltb_spec (ph_vaddr ph + ph_memsz ph) (a_sz x)); [split_and!; (done || lia)|].
    split_and!; [cbn; lia..|]. by apply enlarge_user. }
  wp_step. apply wp_onk_at. eapply uvmalloc_to; [exact Hi|apply flags2perm_range| |]; fold y.
  2:{ intros k' L' T' Hi' Hl. cbn [Z.eqb]. wp_step. eapply HQ0; [done|exact Hi'|]. intros z. destruct (_ || _); [done|]. intros [= <-]. cbn. lia. }
  intros k' L' T' D' Hi' Hl. destruct (Z.eqb_spec (a_sz y) 0) as [Hz|Hnz]; cbn [orb] in *.
  { wp_step. rewrite Hy0, <-Hz by done. by eapply HQ0. }
  destruct (image_npages kend trampoline Hend Htr _ _ _ _ _ _ _ _ _ Hi') as [Hys _].
  wp_step. unfold loadseg. change PGSIZE with 4096. pose proof (length_read data (u32 (ph_off ph)) (u32 (ph_filesz ph))) as Hlr.
  pose proof (u32_range (ph_off ph)) as Hro.
  eapply loadseg_loop_spec; [exact Hi'|done|done|done|lia|lia|done|lia|lia|done|by left|zlia|lia| |]; rewrite ?Z.add_0_r, ?Z.sub_0_r.
  - intros k2 f2 Hf2 Hi2 Hlen2. cbn [Z.ltb Z.compare]. wp_step. eapply (HQ1 _ _ L' T' D' (put y _ _)); [done|exact Hi2|done| |exact Hl].
    by rewrite (proj2 (Z.ltb_ge _ _)) by lia.
  - intros k2 f2 z Hf2 Hi2 Hz Hlen2. cbn [Z.ltb Z.compare]. wp_step. rewrite <-Hz. eapply HQ0; [done|exact Hi2|].
    by rewrite (proj2 (Z.ltb_lt _ _)) by lia.
Qed.

(** ** All of them *)
Lemma load_loop_spec s n : ∀ k f L T D x off (Q : bool * Z → kstate F → Prop),
  image k L T D root x → all_user x → I f →
  (∀ k' f' L' T' D' y, I f' → image k' L' T' D' root y → all_user y → load_segments n data off x = Some y →
     Z.of_nat (length L) ≤ Z.of_nat (length L') + 3 * (npages (a_sz y) - npages (a_sz x)) → Q (true, a_sz y) (at_kf s k' f')) →
  (∀ k' f' L' T' D' y, I f' → image k' L' T' D' root y →
     (∀ z, load_segments n data off x = Some z → Z.of_nat (length L) < 3 * (npages (a_sz z) - npages (a_sz x))) →
     Q (false, a_sz y) (at_kf s k' f')) →
  wp (load_loop kend n root ip off (a_sz x)) (at_kf s k f) Q.
Proof.
  induction n as [|n IH]; intros k f L T D x off Q Hi Hu Hf HQ1 HQ0; cbn [load_loop load_segments] in *.
  { wp_step. eapply HQ1; [done|exact Hi|done|done|lia]. }
  wp_step. change sizeof_proghdr with 56. eapply file_readi_spec; [done|apply u32_range|lia|]. intros f1 Hf1.
  set (b := file_read data (u32 off) 56) in *. destruct (Z.of_nat (length b) =? 56); cbn [negb]; [|wp_step; by eapply HQ0].
  destruct (ph_type (proghdr_of b) =? ELF_PROG_LOAD); cbn [negb]; [|by eapply IH].
  assert (bytes b) as Hb by (by apply bytes_read).
  pose proof (field_range b 16 8 Hb) as Hva. pose proof (field_range b 32 8 Hb) as Hfs. pose proof (field_range b 40 8 Hb) as Hms.
  wp_step. eapply load_ph_spec; [exact Hi|done|done|exact Hva|exact Hms|apply Hfs| |].
  - intros k2 f2 L2 T2 D2 y Hf2 Hi2 Hu2 Hy Hl2. cbn [negb]. rewrite Hy in *. cbn [mbind option_bind] in *.
    eapply IH; [exact Hi2|done|done| |].
    + intros k3 f3 L3 T3 D3 z Hf3 Hi3 Hu3 Hz Hl3. eapply HQ1; [done|exact Hi3|done|exact Hz|lia].
    + intros k3 f3 L3 T3 D3 z Hf3 Hi3 Hz. eapply HQ0; [done|exact Hi3|]. intros w Hw. specialize (Hz w Hw). lia.
  - intros k2 f2 L2 T2 D2 y Hf2 Hi2 Hz. cbn [negb]. wp_step. eapply HQ0; [done|exact Hi2|]. intros z.
    destruct (load_segment data (proghdr_of b) x) as [w|] eqn:Ew; [|done]. cbn. intros Hw%load_segments_sz. specialize (Hz w eq_refl).
    pose proof (npages_mono _ _ Hw). lia.
Qed.
End segments.
End file.
End load.
