(* ===== verification/ExecTheorems.v ===== *)
(** * exec runs the program: kernel/exec.c

    The stack with the arguments, the replacement of the old memory, and the
    theorem about [exec], with an example of a program of one page. *)
From Stdlib Require Import ZArith Lia.
From stdpp Require Import prelude gmap strings.
From S2P Require Import Prelude Bytes Param Str Riscv PhysMem Kalloc Vm VmSpec VmMap VmGrow VmFree VmCopy VmTheorems Spinlock Proc ProcSpec ProcGrow ProcFork ProcWait Exec ExecLoad.

#[local] Opaque memset st64 memmove.

(** ** The reference *)

Definition align16 (sp : Z) : Z := sp - sp mod 16.

(** The strings, from the top of the stack down, each at a multiple of 16. *)
Fixpoint push_strings (args : list (list Z)) (base sp : Z) (x : aimage) (us : list Z) : option (Z * list Z * aimage) :=
  match args with
  | [] => Some (sp, us, x)
  | t :: args =>
      let sp := align16 (sp - (Z.of_nat (length t) + 1)) in
      if sp <? base then None else push_strings args base sp (put x sp (t ++ [0])) (us ++ [sp])
  end.

(** A guard page and a page of stack above the program. *)
Definition add_stack (x : aimage) : aimage :=
  let n := npages (a_sz x) in
  hide (enlarge (AImage (4096 * n) (a_byte x) (a_flags x)) (4096 * (n + 2)) PTE_W) n.

(** What a program starts with. *)
Record program := Program { g_entry : Z; g_sp : Z; g_image : aimage }.

(** The stack pointer, and the image with the strings and the array [argv]. *)
Definition build_stack (args : list (list Z)) (x : aimage) : option (Z * aimage) :=
  let y := add_stack x in
  let base := a_sz y - 4096 in
  '(sp, us, z) ← push_strings args base (a_sz y) y [];
  let sp := align16 (sp - (Z.of_nat (length us) + 1) * 8) in
  if sp <? base then None else Some (sp, put z sp (concat (le_bytes 8 <$> us ++ [0]))).

Definition setup (data : list Z) (args : list (list Z)) : option program :=
  '(entry, x) ← load_elf data;
  '(sp, z) ← build_stack args x;
  Some (Program entry sp z).

(** A string in kernel memory, in no free page. *)
Record kstring (m : mem) (L : list Z) (a : Z) (t : list Z) : Prop := {
  kst_bytes : ld_bytes m a (length t + 1) = t ++ [0];
  kst_nonzero : 0 ∉ t;
  kst_short : (length t < 4096)%nat;
  kst_apart b q : a ≤ b ≤ a + Z.of_nat (length t) → q ∈ L → ¬ in_page q b
}.

Lemma ld_bytes_bytes m a n : bytes_mem m → bytes (ld_bytes m a n).
Proof. intros Hm. apply Forall_fmap, Forall_forall. intros i _. apply Hm. Qed.

Lemma kstring_strlen m L a t : kstring m L a t → strlen (Z.to_nat PGSIZE) (mem_ptr m a) = Some (length t).
Proof.
  intros [Hb H0 Hl _]. apply strlen_spec.
  assert (∀ i c, (t ++ [0]) !! i = Some c → mem_ptr m a i = c) as Hi.
  { intros i c Hc. rewrite <-Hb in Hc. unfold ld_bytes in Hc. rewrite list_lookup_fmap in Hc.
    assert (i < length t + 1)%nat as Hil.
    { destruct (decide (i < length t + 1)%nat); [done|]. rewrite lookup_seq_ge in Hc by lia. done. }
    rewrite lookup_seq_lt in Hc by done. cbn in Hc. by injection Hc. }
  split_and!.
  - change PGSIZE with 4096. lia.
  - apply Hi. by rewrite lookup_app_r, Nat.sub_diag by lia.
  - intros i Hil. destruct (lookup_lt_is_Some_2 t i Hil) as [c Hc]. rewrite (Hi i c) by (by apply lookup_app_l_Some).
    intros ->. apply H0. by eapply list_elem_of_lookup_2.
Qed.

Lemma align16_bounds sp : sp - 15 ≤ align16 sp ≤ sp.
Proof. unfold align16. zlia. Qed.

Lemma npages_round n : npages (4096 * n) = n.
Proof. unfold npages. zlia. Qed.

(** The stack page: the last page of the image, which may be written. *)
Definition stack_ok x : Prop :=
  a_sz x mod 4096 = 0 ∧ 8192 ≤ a_sz x ∧
  flag (a_flags x (a_sz x / 4096 - 1)) PTE_U && flag (a_flags x (a_sz x / 4096 - 1)) PTE_W = true.

Lemma stack_writable x a n : stack_ok x → a_sz x - 4096 ≤ a → a + Z.of_nat n ≤ a_sz x → writable x a n.
Proof.
  intros (Hm & H8 & Hfl) Ha Hn. split_and!; [lia|unfold npages; zlia|]. intros v Hv1 Hv2.
  replace v with (a_sz x / 4096 - 1) by zlia. done.
Qed.

Lemma add_stack_ok x : 0 ≤ a_sz x ≤ 134217728 → stack_ok (add_stack x) ∧ a_sz (add_stack x) = 4096 * (npages (a_sz x) + 2).
Proof.
  intros Hx. split; [|done]. unfold stack_ok, add_stack. cbn [a_sz a_flags hide enlarge]. rewrite !npages_round. set (n := npages (a_sz x)).
  assert (0 ≤ n) by (unfold n, npages; zlia). replace (4096 * (n + 2) / 4096 - 1) with (n + 1) by zlia.
  rewrite decide_False, decide_True by lia. split_and!; [zlia|lia|done].
Qed.

Lemma align16_u64 sp : 0 ≤ sp < 18446744073709551616 → u64 (sp - sp mod 16) = align16 sp.
Proof. intros Hs. unfold align16. rewrite u64_small by zlia. done. Qed.

Section stack.
Context {F : Type} {FO : FileOps F} {EO : ExecOps F}.
Context (kend trampoline : Z) (Hend : KERNBASE ≤ kend) (Htr : 0 ≤ trampoline < 18446744073709547520).
Context (k0 : kmem) (L0 : list Z) (tf root : Z).
Implicit Types (s : kstate F) (k : kmem) (L : list Z) (T : gmap (list Z) Z) (D : gmap Z Z) (x : aimage) (f : F).
Abbreviation image := (image kend trampoline k0 L0 tf).

Lemma kstring_kept k L T D x a t : image k L T D root x → kstring (k_mem k0) L0 a t → kstring (k_mem k) L0 a t.
Proof.
  intros Hi [Hb H0 Hl Hap]. split; try done. rewrite <-Hb. apply ld_bytes_ext. intros b Hbb. apply (im_out _ _ _ _ _ _ _ _ _ _ _ Hi).
  intros q Hq%elem_of_list_to_set. apply Hap; [lia|done].
Qed.

Lemma push_args_spec s f L T D : ∀ args argv k x sp us (Q : option (Z * list Z) → kstate F → Prop),
  image k L T D root x → Forall2 (kstring (k_mem k0) L0) argv args → stack_ok x → a_sz x - 4096 ≤ sp ≤ a_sz x →
  (length us + length args < MAXARG)%nat →
  (∀ k' y sp' us', push_strings args (a_sz x - 4096) sp x us = Some (sp', us', y) → image k' L T D root y → stack_ok y →
     a_sz y = a_sz x → a_sz x - 4096 ≤ sp' ≤ a_sz x → (length us' = length us + length args)%nat →
     Q (Some (sp', us')) (at_kf s k' f)) →
  (∀ k' y, push_strings args (a_sz x - 4096) sp x us = None → image k' L T D root y → a_sz y = a_sz x → Q None (at_kf s k' f)) →
  wp (push_args argv root (a_sz x - 4096) (Z.of_nat (length us)) sp us) (at_kf s k f) Q.
Proof.
  induction args as [|t args IH]; intros argv k x sp us Q Hi Hargs Hst Hsp Hn HQ1 HQ0.
  { apply Forall2_nil_inv_r in Hargs as ->. cbn [push_args push_strings] in *. wp_step. eapply HQ1; [done|exact Hi|done|done|done|cbn; lia]. }
  apply Forall2_cons_inv_r in Hargs as (a & argv' & Hk & Hargs & ->). cbn [push_args push_strings length] in *.
  destruct (Z.geb_spec (Z.of_nat (length us)) (Z.of_nat MAXARG)); [lia|].
  pose proof (kstring_kept _ _ _ _ _ _ _ Hi Hk) as Hk'. pose proof (kst_short _ _ _ _ Hk) as Hshort.
  wp_step. unfold kstrlen. wp_step. wp_step. wp_step. eapply wp_mnth; [by eapply kstring_strlen|]. wp_step.
  destruct Hst as (Hm & H8 & Hfl) eqn:Est. destruct (image_npages kend trampoline Hend Htr _ _ _ _ _ _ _ _ _ Hi) as [Hxs _].
  rewrite (u64_small (sp - _)) by lia. rewrite align16_u64 by lia.
  set (sp' := align16 _) in *. pose proof (align16_bounds (sp - (Z.of_nat (length t) + 1))) as Hal. fold sp' in Hal.
  destruct (Z.ltb_spec sp' (a_sz x - 4096)) as [Hlow|Hok]; [wp_step; by eapply HQ0|].
  wp_step. wp_step. replace (Z.to_nat (Z.of_nat (length t) + 1)) with (length t + 1)%nat by lia. cbn [ks_k at_kf].
  rewrite (kst_bytes _ _ _ _ Hk'). wp_step. apply wp_onk_at.
  destruct (image_copyout kend trampoline Hend Htr _ _ _ _ _ _ _ _ _ sp' (t ++ [0]) Hi) as (k1 & Hc & Hi1).
  { apply stack_writable; [done|lia|]. rewrite length_app. cbn. lia. }
  { rewrite <-(kst_bytes _ _ _ _ Hk'). apply ld_bytes_bytes.
    apply (as_k _ _ _ _ _ _ (pm_as _ _ _ _ _ _ _ _ _ (pm_ppt _ _ _ _ _ _ _ _ _ (im_mem _ _ _ _ _ _ _ _ _ _ _ Hi)))). }
  eapply wp_eq; [exact Hc|]. cbn [Z.ltb Z.compare].
  assert (stack_ok (put x sp' (t ++ [0]))) as Hst1 by done.
  replace (Z.of_nat (length us) + 1) with (Z.of_nat (length (us ++ [sp']))) by (rewrite length_app; cbn; lia).
  change (a_sz x - 4096) with (a_sz (put x sp' (t ++ [0])) - 4096).
  eapply IH; [exact Hi1|done|done|cbn; lia|rewrite length_app; cbn; lia| |].
  - intros k' y sp'' us' Hp Hy Hys Hsz Hr Hlen. eapply HQ1; [exact Hp|exact Hy|done|done|cbn in Hr; lia|]. rewrite length_app in Hlen. cbn in Hlen. lia.
  - intros k' y Hp Hy Hsz. by eapply HQ0.
Qed.

(** ** The stack *)
Lemma image_round k L T D x : image k L T D root x → image k L T D root (AImage (4096 * npages (a_sz x)) (a_byte x) (a_flags x)).
Proof.
  intros Hi. destruct (image_npages kend trampoline Hend Htr _ _ _ _ _ _ _ _ _ Hi) as [_ Hn]. destruct Hi as [[Hppt Htfp] Hset Hout Hb Hz Hfl].
  split; cbn [a_sz a_byte a_flags]; rewrite ?npages_round; try done. split; rewrite ?npages_round; [|done].
  destruct Hppt. split; rewrite ?npages_round; try done. unfold vtf. lia.
Qed.

(** Some image of the size is there, whatever it holds. *)
Definition some_image k (sz : Z) : Prop := ∃ L T D x, image k L T D root x ∧ a_sz x = sz.

(** [uvmalloc] and [uvmclear] for the guard page and the stack. *)
Lemma stack_alloc k L T D x (Q : Z → kmem → Prop) :
  image k L T D root x → let n := npages (a_sz x) in
  (∀ k1, (∃ k' L' T' D', uvmclear root (4096 * n) k1 = Ret tt k' ∧ image k' L' T' D' root (add_stack x) ∧
            Z.of_nat (length L) ≤ Z.of_nat (length L') + 6) → Q (4096 * (n + 2)) k1) →
  (∀ k1, some_image k1 (4096 * n) → Z.of_nat (length L) < 6 → Q 0 k1) →
  wp (uvmalloc kend root (4096 * n) (4096 * (n + 2)) PTE_W) k Q.
Proof.
  intros Hi n HQ1 HQ0. destruct (image_npages kend trampoline Hend Htr _ _ _ _ _ _ _ _ _ Hi) as [Hxs Hn]. fold n in Hn.
  pose proof (image_round _ _ _ _ _ Hi) as Hr. fold n in Hr. set (y := AImage (4096 * n) (a_byte x) (a_flags x)) in *.
  change (4096 * n) with (a_sz y). eapply (image_uvmalloc kend trampoline Hend Htr); [exact Hr|cbn; lia|done| |]; cbn [a_sz y]; rewrite !npages_round.
  - intros k1 L' T' D' Hi' Hl. apply HQ1.
    destruct (image_clear kend trampoline Hend Htr _ _ _ _ _ _ _ _ _ n Hi') as (k2 & D2 & Hc & Hi2).
    + cbn. rewrite npages_round. lia.
    + cbn. rewrite !npages_round, decide_True by lia. done.
    + exists k2, L', T', D2. split_and!; [exact Hc|exact Hi2|lia].
  - intros k1 L' T' Hi' Hl. apply HQ0; [|lia]. by exists L', T', D, y.
Qed.
End stack.

(** ** Replacing the old memory *)
Section commit.
Context {F : Type} {FO : FileOps F} {EO : ExecOps F}.
Context (kend trampoline : Z) (Hend : KERNBASE ≤ kend) (Htr : 0 ≤ trampoline < 18446744073709547520).
Context (k0 : kmem) (L0 : list Z) (T0 : gmap (list Z) Z) (D0 : gmap Z Z) (root0 sz0 tf : Z).
Context (Hold : pmem kend trampoline k0 L0 T0 D0 root0 sz0 tf).
Implicit Types (s : kstate F) (k : kmem) (L : list Z) (T : gmap (list Z) Z) (D : gmap Z Z) (x : aimage) (f : F).
Abbreviation image := (image kend trampoline k0 L0 tf).

(** The process has memory [x] in place of its old one, starts at [entry] with
    stack pointer [sp] and [a1 = sp]; no page is lost. *)
Record committed k L T D (root : Z) x (sp entry : Z) : Prop := {
  cm_mem : pmem kend trampoline k L T D root (a_sz x) tf;
  cm_pages : list_to_set L0 ∪ own_set T0 D0 sz0 tf =@{gset Z} list_to_set L ∪ own_set T D (a_sz x) tf;
  cm_byte a : 0 ≤ a < 4096 * npages (a_sz x) → ubyte (k_mem k) D a = a_byte x a;
  cm_flags v : 0 ≤ v < npages (a_sz x) → PTE_FLAGS (oldpte D v) = a_flags x v;
  cm_a1 : ld64 (k_mem k) (tf + TF_a1) = sp;
  cm_epc : ld64 (k_mem k) (tf + TF_epc) = entry;
  cm_sp : ld64 (k_mem k) (tf + TF_sp) = sp;
  cm_regs a : in_page tf a → (∀ r, r ∈ [TF_a1; TF_epc; TF_sp] → ¬ (tf + r ≤ a < tf + r + 8)) → ld (k_mem k) a = ld (k_mem k0) a;
  cm_out : outside (list_to_set L0 ∪ own_set T0 D0 sz0 tf) (k_mem k0) (k_mem k)
}.

(** The three registers of the trap frame. *)
Definition set_regs (m : mem) (sp entry : Z) : mem :=
  st64 (st64 (st64 m (tf + TF_a1) sp) (tf + TF_epc) entry) (tf + TF_sp) sp.

Lemma set_regs_outside m sp entry : outside {[tf]} m (set_regs m sp entry).
Proof using.
  intros a Ha. specialize (Ha tf ltac:(by apply elem_of_singleton)). unfold in_page in Ha.
  unfold set_regs, TF_a1, TF_epc, TF_sp. rewrite !ld_st64_ne by lia. done.
Qed.

(** The pages of the new memory were free, those of the old one are not. *)
Lemma old_page p : p ∈ own_set T0 D0 sz0 tf → page_ok kend p ∧ p ∉ L0.
Proof. apply (own_set_page _ _ _ _ _ _ _ _ _ p Hold). Qed.

Lemma new_page k L T D root x p : image k L T D root x → p ∈ tpages T ∪ list_to_set (upages D (npages (a_sz x))) → page_ok kend p ∧ p ∈ L0.
Proof.
  intros Hi Hp. assert (p ∈ own_set T D (a_sz x) tf) as Hin by (unfold own_set; rewrite elem_of_union; by left).
  destruct (own_set_page _ _ _ _ _ _ _ _ _ p (im_mem _ _ _ _ _ _ _ _ _ _ _ Hi) Hin) as [Hok _]. split; [done|].
  apply (elem_of_list_to_set (C := gset Z)). rewrite (im_set _ _ _ _ _ _ _ _ _ _ _ Hi), !elem_of_union in *. tauto.
Qed.

(** A page that is neither is left alone. *)
Lemma kept_page (P : gset Z) m m' p a : outside P m m' → (∀ q, q ∈ P → page_ok kend q) → page_ok kend p → p ∉ P → in_page p a → ld m' a = ld m a.
Proof using.
  intros Hout HP Hp Hn Ha. apply Hout. intros q Hq Ha'. apply Hn. replace p with q; [done|].
  apply (pages_disjoint kend q p a); [by apply HP|done..].
Qed.

Lemma old_ppt k L T D root x m' :
  image k L T D root x → bytes_mem m' → outside {[tf]} (k_mem k) m' →
  pmem kend trampoline (kset_mem m' k) L T D root (a_sz x) tf ∧ ppt kend trampoline (kset_mem m' k) L T0 D0 root0 sz0 tf.
Proof.
  intros Hi Hb Hout. destruct (pm_tfpage _ _ _ _ _ _ _ _ _ (im_mem _ _ _ _ _ _ _ _ _ _ _ Hi)) as (Htf & HtfL & HtfT & _).
  destruct (pm_tfpage _ _ _ _ _ _ _ _ _ Hold) as (_ & HtfL0 & HtfT0 & _).
  assert (pmem kend trampoline (kset_mem m' k) L T D root (a_sz x) tf) as Hpm by (by eapply (pmem_write kend trampoline Htr); [apply Hi|..]).
  split; [done|]. eapply (ppt_frame kend trampoline); [apply Hold|apply (pm_as _ _ _ _ _ _ _ _ _ (pm_ppt _ _ _ _ _ _ _ _ _ Hpm))| |].
  - intros p Hp HpL. assert (p ∈ own_set T0 D0 sz0 tf) as Hin by (unfold own_set; rewrite !elem_of_union, elem_of_list_to_set; tauto).
    apply (proj2 (old_page p Hin)). apply (elem_of_list_to_set (C := gset Z)). rewrite (im_set _ _ _ _ _ _ _ _ _ _ _ Hi), !elem_of_union, elem_of_list_to_set. tauto.
  - intros p a Hp Ha. assert (p ∈ own_set T0 D0 sz0 tf) as Hin by (unfold own_set; rewrite !elem_of_union; tauto).
    destruct (old_page p Hin) as [Hok HpL]. cbn [k_mem kset_mem]. rewrite (kept_page {[tf]} (k_mem k) m' p a); [|done|by intros q ->%elem_of_singleton|done| |done].
    + apply (kept_page (list_to_set L0) (k_mem k0) (k_mem k) p a); [apply Hi| |done|by rewrite elem_of_list_to_set|done].
      intros q Hq%elem_of_list_to_set. eapply flist_pages; [|exact Hq]. apply (pm_as _ _ _ _ _ _ _ _ _ (pm_ppt _ _ _ _ _ _ _ _ _ Hold)).
    + intros ->%elem_of_singleton. done.
Qed.

Lemma freeold_spec k L T D root x sp entry (Q : unit → kmem → Prop) :
  image k L T D root x → 0 ≤ sp < 18446744073709551616 → 0 ≤ entry < 18446744073709551616 →
  (∀ k' L', committed k' L' T D root x sp entry → Q tt k') →
  wp (proc_freepagetable kend root0 sz0) (kset_mem (set_regs (k_mem k) sp entry) k) Q.
Proof.
  intros Hi Hsp He HQ. pose proof (im_mem _ _ _ _ _ _ _ _ _ _ _ Hi) as Hpm0.
  assert (bytes_mem (k_mem k)) as Hbm by apply (as_k _ _ _ _ _ _ (pm_as _ _ _ _ _ _ _ _ _ (pm_ppt _ _ _ _ _ _ _ _ _ Hpm0))).
  pose proof (set_regs_outside (k_mem k) sp entry) as Hro. set (m' := set_regs (k_mem k) sp entry) in *.
  destruct (old_ppt k L T D root x m' Hi) as [Hpm Hppt]; [by apply bytes_st64, bytes_st64, bytes_st64|done|].
  destruct (pm_tfpage _ _ _ _ _ _ _ _ _ Hold) as (Htf & HtfL0 & HtfT0 & HtfU0).
  eapply (proc_freepagetable_spec kend trampoline Hend Htr); [exact Hppt|]. intros k' L' Hk' Hset Hout. set (OP := tpages T0 ∪ list_to_set (upages D0 (npages sz0))) in *.
  assert (∀ p, p ∈ OP → p ∈ own_set T0 D0 sz0 tf) as HOP by (intros p Hp; unfold own_set; rewrite elem_of_union; by left).
  assert (∀ q, q ∈ OP → page_ok kend q) as HOPok by (intros q Hq; by apply old_page, HOP).
  assert (tf ∉ OP) as HtfOP by (unfold OP; rewrite elem_of_union, elem_of_list_to_set; tauto).
  assert (∀ p, p ∈ tpages T ∪ list_to_set (upages D (npages (a_sz x))) → page_ok kend p ∧ (p ∉ OP) ∧ p ≠ tf) as Hnew.
  { intros p Hp. destruct (new_page _ _ _ _ _ _ p Hi Hp) as [Hok HpL]. split_and!; [done| |by intros ->].
    intros Hq. by apply (proj2 (old_page p (HOP p Hq))). }
  assert (∀ p a, page_ok kend p → p ∉ OP → p ≠ tf → in_page p a → ld (k_mem k') a = ld (k_mem k) a) as Hsame.
  { intros p a Hok HpO Hne Ha. rewrite (kept_page OP m' (k_mem k') p a) by done.
    apply (kept_page {[tf]} (k_mem k) m' p a); [done|by intros q ->%elem_of_singleton|done|by rewrite elem_of_singleton|done]. }
  assert (∀ a, in_page tf a → ld (k_mem k') a = ld m' a) as Htfb by (intros a Ha; by apply (kept_page OP m' (k_mem k') tf a)).
  apply (HQ k' L'). split.
  - eapply (pmem_frame kend trampoline Htr); [exact Hpm|done| |].
    + intros p Hp. rewrite <-(elem_of_list_to_set (C := gset Z)), Hset, <-(assoc_L (∪)), elem_of_union, elem_of_list_to_set. intros [HpL|HpO].
      * by apply (proj2 (own_set_page _ _ _ _ _ _ _ _ _ p Hpm Hp)).
      * unfold own_set in Hp. rewrite elem_of_union, elem_of_singleton in Hp. destruct Hp as [Hp|Hp]; [by destruct (Hnew p Hp) as (_ & ? & _)|by subst p].
    + intros p a Hp Ha. destruct (Hnew p) as (Hok & HpO & Hne); [rewrite elem_of_union; by left|].
      rewrite (Hsame p a) by done. symmetry. apply Hro. intros q ->%elem_of_singleton Ha'. apply Hne. by apply (pages_disjoint kend p tf a).
  - rewrite Hset, (im_set _ _ _ _ _ _ _ _ _ _ _ Hi). apply set_eq. intros p. unfold own_set. rewrite !elem_of_union. tauto.
  - intros a Ha. rewrite <-(im_byte _ _ _ _ _ _ _ _ _ _ _ Hi a Ha). unfold ubyte.
    destruct (image_page kend trampoline Htr _ _ _ _ _ _ _ _ _ (a / 4096) Hi ltac:(zlia)) as (_ & _ & _ & _ & Hin & _).
    destruct (Hnew (PTE2PA (oldpte D (a / 4096)))) as (Hok & HpO & Hne); [rewrite elem_of_union, elem_of_list_to_set; by right|].
    apply (Hsame (PTE2PA (oldpte D (a / 4096)))); [done..|unfold in_page; zlia].
  - apply Hi.
  - rewrite (ld64_ext m') by (intros b Hb; apply Htfb; unfold in_page, TF_a1 in *; lia).
    unfold m', set_regs, TF_a1, TF_epc, TF_sp. rewrite !ld64_st64_ne by lia. by rewrite ld64_st64_eq, u64_small.
  - rewrite (ld64_ext m') by (intros b Hb; apply Htfb; unfold in_page, TF_epc in *; lia).
    unfold m', set_regs, TF_a1, TF_epc, TF_sp. rewrite ld64_st64_ne by lia. by rewrite ld64_st64_eq, u64_small.
  - rewrite (ld64_ext m') by (intros b Hb; apply Htfb; unfold in_page, TF_sp in *; lia).
    unfold m', set_regs. by rewrite ld64_st64_eq, u64_small.
  - intros a Ha Hr. rewrite Htfb by done. unfold m', set_regs. pose proof (Hr TF_a1 ltac:(set_solver)). pose proof (Hr TF_epc ltac:(set_solver)).
    pose proof (Hr TF_sp ltac:(set_solver)). rewrite !ld_st64_ne by lia. apply (im_out _ _ _ _ _ _ _ _ _ _ _ Hi).
    intros q Hq%elem_of_list_to_set Ha'. apply HtfL0. replace tf with q; [done|]. apply (pages_disjoint kend q tf a); [|done..].
    eapply flist_pages; [|exact Hq]. apply (pm_as _ _ _ _ _ _ _ _ _ (pm_ppt _ _ _ _ _ _ _ _ _ Hold)).
  - eapply outside_trans; [eapply outside_mono; [|apply Hi]; apply union_subseteq_l|].
    eapply outside_trans; [eapply outside_mono; [|exact Hro]|eapply outside_mono; [|exact Hout]].
    + intros q ->%elem_of_singleton. unfold own_set. rewrite !elem_of_union, elem_of_singleton. tauto.
    + intros q Hq. rewrite elem_of_union. right. by apply HOP.
Qed.

(** ** From the loaded program to the new process *)
Context (me : nat) (p : proc) (Hroot : root0 = p_pagetable p) (Hsz : sz0 = p_sz p) (Htf : tf = p_trapframe p).

(** What [exec] makes of the process. *)
Definition new_proc (path : list Z) (root sz : Z) : proc :=
  pset_sz sz (pset_pagetable root (set_name (list_ptr (last_elem path path ++ [0])) p)).

(** Everything is as it was; free pages were written. *)
Definition given_back k : Prop :=
  ∃ L, kmem_ok kend k L ∧ list_to_set L =@{gset Z} list_to_set L0 ∧ outside (list_to_set L0) (k_mem k0) (k_mem k).

Lemma exec_bad_spec s k f root sz (Q : Z → kstate F → Prop) :
  some_image kend trampoline k0 L0 tf root k sz → root ≠ 0 → (∀ k', given_back k' → Q (-1) (at_kf s k' f)) →
  wp (exec_bad kend root sz) (at_kf s k f) Q.
Proof.
  intros (L & T & D & x & Hi & <-) Hr HQ. unfold exec_bad. rewrite (proj2 (Z.eqb_neq _ _)) by done. cbn [negb mwhen].
  wp_step. apply wp_onk_at. eapply (image_free kend trampoline Hend Htr); [exact Hi|]. intros k' L' Hk' Hset Hout. wp_step.
  apply HQ. by exists L'.
Qed.

Lemma exec_commit_spec s k f L T D root x path sp entry argc (Q : Z → kstate F → Prop) :
  image k L T D root x → ks_procs s !! me = Some p → 0 ≤ sp < 18446744073709551616 → 0 ≤ entry < 18446744073709551616 →
  (∀ k' L', committed k' L' T D root x sp entry → Q argc (with_proc (at_kf s k' f) me (new_proc path root (a_sz x)))) →
  wp (exec_commit kend me path root sz0 (a_sz x) sp entry argc) (at_kf s k f) Q.
Proof.
  intros Hi Hp Hsp He HQ. unfold exec_commit. wp_step. eapply wp_getp; [exact Hp|]. wp_step. apply wp_onk_at. unfold stp. wp_step.
  wp_step. eapply wp_setp; [exact Hp|]. wp_step. eapply wp_setp; [by eapply with_proc_lookup|]. rewrite with_proc_twice.
  wp_step. eapply wp_setp; [by eapply with_proc_lookup|]. rewrite with_proc_twice.
  wp_step. apply wp_onk. wp_step. wp_step. apply wp_onk. wp_step. wp_step. apply wp_onk. rewrite <-Hroot, <-Htf.
  eapply (wp_mono _ _ (λ _ k', ∃ L', committed k' L' T D root x sp entry)).
  - apply (freeold_spec k L T D root x sp entry); [done..|]. intros k' L' Hc. by exists L'.
  - intros [] k' [L' Hc]. wp_step. by apply (HQ k' L').
Qed.

Lemma exec_stack_spec s k f L T D root x path argv args entry (Q : Z → kstate F → Prop) :
  image k L T D root x → root ≠ 0 → ks_procs s !! me = Some p → Forall2 (kstring (k_mem k0) L0) argv args →
  (length args < MAXARG)%nat → 0 ≤ entry < 18446744073709551616 →
  (∀ k' L' T' D' sp z, build_stack args x = Some (sp, z) → committed k' L' T' D' root z sp entry →
     Q (Z.of_nat (length args)) (with_proc (at_kf s k' f) me (new_proc path root (a_sz z)))) →
  (∀ k', given_back k' → build_stack args x = None ∨ Z.of_nat (length L) < 6 → Q (-1) (at_kf s k' f)) →
  wp (exec_stack kend me path argv root (a_sz x) entry) (at_kf s k f) Q.
Proof.
  intros Hi Hr Hp Hargs Hn He HQ1 HQ0. destruct (image_npages kend trampoline Hend Htr _ _ _ _ _ _ _ _ _ Hi) as [Hxs Hxn].
  unfold exec_stack. wp_step. eapply wp_getp; [exact Hp|]. rewrite PGROUNDUP_npages by (unfold NVPN; lia).
  change ((USERSTACK + 1) * PGSIZE) with 8192. change (USERSTACK * PGSIZE) with 4096.
  destruct (add_stack_ok x Hxs) as [Hst Hss]. set (n := npages (a_sz x)) in *. rewrite u64_small by lia.
  replace (4096 * n + 8192) with (4096 * (n + 2)) by lia. wp_step. apply wp_onk_at.
  eapply (stack_alloc kend trampoline Hend Htr); [exact Hi| |]; fold n.
  2:{ intros k1 Hs Hl. cbn [Z.eqb]. eapply exec_bad_spec; [exact Hs|done|]. intros k' Hg. apply HQ0; [done|by right]. }
  intros k1 (k2 & L2 & T2 & D2 & Hc & Hi2 & Hl2). rewrite (proj2 (Z.eqb_neq _ _)) by lia. rewrite !u64_small by lia.
  replace (4096 * (n + 2) - 8192) with (4096 * n) by lia. wp_step. apply wp_onk_at. eapply wp_eq; [exact Hc|].
  rewrite <-Hss. set (y := add_stack x) in *. wp_step. unfold build_stack in *. fold y in HQ1, HQ0.
  change 0 with (Z.of_nat (@length Z [])) at 1. eapply (push_args_spec kend trampoline Hend Htr); [exact Hi2|exact Hargs|exact Hst|lia|cbn; lia| |].
  2:{ intros k3 z Hps Hi3 Hz. rewrite Hps in HQ0. eapply exec_bad_spec; [exists L2, T2, D2, z; done|done|]. intros k' Hg. apply HQ0; [done|by left]. }
  intros k3 z sp us Hps Hi3 Hst3 Hz Hspr Hlen. rewrite Hps in *. cbn [length Nat.add] in Hlen. cbn [mbind option_bind] in *.
  rewrite Hlen in *. rewrite (proj2 (Z.leb_gt _ _)) by lia. rewrite (u64_small (sp - _)) by (unfold MAXARG in Hn; lia).
  rewrite align16_u64 by (unfold MAXARG in Hn; lia). set (sp' := align16 _) in *.
  pose proof (align16_bounds (sp - (Z.of_nat (length args) + 1) * 8)) as Hal. fold sp' in Hal.
  destruct (Z.ltb_spec sp' (a_sz y - 4096)) as [Hlow|Hok].
  { eapply exec_bad_spec; [exists L2, T2, D2, z; done|done|]. intros k' Hg. apply HQ0; [done|by left]. }
  assert (length (concat (le_bytes 8 <$> us ++ [0])) = (8 * (length args + 1))%nat) as Hcl.
  { rewrite <-Hlen. clear. induction us as [|u us IH]; [done|]. cbn [app fmap list_fmap concat]. rewrite length_app, IH, length_le_bytes. cbn [length]. lia. }
  destruct (image_copyout kend trampoline Hend Htr _ _ _ _ _ _ _ _ _ sp' (concat (le_bytes 8 <$> us ++ [0])) Hi3) as (k4 & Hc4 & Hi4).
  { apply stack_writable; [done|rewrite Hz; lia|]. rewrite Hcl, Hz. lia. }
  { apply Forall_concat, Forall_fmap, Forall_forall. intros u _. apply le_bytes_range. }
  wp_step. apply wp_onk_at. eapply wp_eq; [exact Hc4|]. cbn [Z.ltb Z.compare]. rewrite <-Hz.
  rewrite <-Hsz. change (a_sz z) with (a_sz (put z sp' (concat (le_bytes 8 <$> us ++ [0])))).
  eapply exec_commit_spec; [exact Hi4|done|lia|done|]. intros k' L' Hcm. by eapply HQ1.
Qed.
End commit.

(** ** What the program finds on its stack *)

(** The bytes [l] are at address [a]. *)
Definition holds (byte : Z → Z) (a : Z) (l : list Z) : Prop := ∀ i c, l !! i = Some c → byte (a + Z.of_nat i) = c.

(** An array of pointers to the strings, ended by a null pointer. *)
Definition argv_at (byte : Z → Z) (sp : Z) (args : list (list Z)) : Prop :=
  ∃ ptrs, holds byte sp (concat (le_bytes 8 <$> ptrs ++ [0])) ∧ Forall2 (λ a t, holds byte a (t ++ [0])) ptrs args.

Lemma holds_put x a l : holds (a_byte (put x a l)) a l.
Proof.
  intros i c Hc. pose proof (lookup_lt_Some _ _ _ Hc) as Hl. cbn. unfold aput. rewrite decide_True by lia.
  replace (Z.to_nat (a + Z.of_nat i - a)) with i by lia. by apply nth_lookup_Some.
Qed.

Lemma holds_above x a l b m : b + Z.of_nat (length m) ≤ a → holds (a_byte x) a l → holds (a_byte (put x b m)) a l.
Proof. intros Hb Hh i c Hc. cbn. unfold aput. rewrite decide_False by lia. by apply Hh. Qed.

Lemma push_strings_holds base args : ∀ sp x us ts sp' us' z,
  push_strings args base sp x us = Some (sp', us', z) → Forall2 (λ a t, sp ≤ a ∧ holds (a_byte x) a (t ++ [0])) us ts → base ≤ sp →
  Forall2 (λ a t, sp' ≤ a ∧ holds (a_byte z) a (t ++ [0])) us' (ts ++ args) ∧ base ≤ sp' ∧
  (∀ a, a < base → a_byte z a = a_byte x a) ∧ a_sz z = a_sz x ∧ a_flags z = a_flags x.
Proof.
  induction args as [|t args IH]; intros sp x us ts sp' us' z; cbn [push_strings].
  { intros [= -> -> ->] Hf Hb. rewrite app_nil_r. by split_and!. }
  pose proof (align16_bounds (sp - (Z.of_nat (length t) + 1))) as Hal. set (sp1 := align16 _) in *.
  destruct (Z.ltb_spec sp1 base) as [|Hge]; [done|]. intros Hp Hf Hb.
  destruct (IH _ _ _ (ts ++ [t]) _ _ _ Hp) as (Hf' & Hb' & Hlow & Hsz & Hfl).
  - apply Forall2_app; [|constructor; [split; [lia|apply holds_put]|constructor]].
    eapply Forall2_impl; [exact Hf|]. intros a u [Ha Hh]. split; [lia|]. apply holds_above; [rewrite length_app; cbn; lia|done].
  - done.
  - rewrite <-app_assoc in Hf'. split_and!; [done|done| |done|done]. intros a Ha. rewrite Hlow by done. cbn. unfold aput. by rewrite decide_False by lia.
Qed.

(** The arguments are above the guard page, the program below it. *)
Lemma build_stack_spec args x sp z :
  build_stack args x = Some (sp, z) →
  argv_at (a_byte z) sp args ∧ sp mod 16 = 0 ∧ a_sz z = 4096 * (npages (a_sz x) + 2) ∧
  (∀ a, a < 4096 * npages (a_sz x) → a_byte z a = a_byte x a) ∧ flag (a_flags z (npages (a_sz x))) PTE_U = false.
Proof.
  unfold build_stack. destruct (push_strings args _ _ (add_stack x) []) as [[[sp0 us] y]|] eqn:Hp; [|done]. cbn [mbind option_bind].
  apply push_strings_holds with (ts := []) in Hp as (Hf & Hb & Hlow & Hsz & Hfl); [|constructor|lia]. cbn [app] in Hf.
  pose proof (align16_bounds (sp0 - (Z.of_nat (length us) + 1) * 8)) as Hal.
  assert (align16 (sp0 - (Z.of_nat (length us) + 1) * 8) mod 16 = 0) as Hmod by (unfold align16; zlia).
  assert (length (concat (le_bytes 8 <$> us ++ [0])) = (8 * (length us + 1))%nat) as Hcl.
  { clear. induction us as [|u us IH]; [done|]. cbn [app fmap list_fmap concat]. rewrite length_app, IH, length_le_bytes. cbn [length]. lia. }
  set (w := concat (le_bytes 8 <$> us ++ [0])) in *. set (sp1 := align16 _) in *.
  destruct (Z.ltb_spec sp1 (a_sz (add_stack x) - 4096)) as [|Hge]; [done|]. intros [= <- <-].
  change (a_sz (add_stack x)) with (4096 * (npages (a_sz x) + 2)) in *. split_and!; [|done|done| |].
  - exists us. split; [apply holds_put|]. eapply Forall2_impl; [exact Hf|]. intros a t [Ha Hh].
    apply holds_above; [rewrite Hcl; lia|done].
  - intros a Ha. cbn. unfold aput. rewrite decide_False by lia. rewrite Hlow by lia. done.
  - cbn. rewrite Hfl. cbn. rewrite decide_True by done. change PTE_U with (Z.shiftl 1 4). rewrite flag_testbit by lia. rewrite Z.land_spec. apply andb_false_r.
Qed.

(** What the program starts with, in terms of its file: the segments, the
    arguments, and a page between them that it may not touch. *)
Definition starts (data : list Z) (args : list (list Z)) (g : program) : Prop :=
  ∃ x, load_elf data = Some (g_entry g, x) ∧ argv_at (a_byte (g_image g)) (g_sp g) args ∧ g_sp g mod 16 = 0 ∧
    (∀ a, a < 4096 * npages (a_sz x) → a_byte (g_image g) a = a_byte x a) ∧
    flag (a_flags (g_image g) (npages (a_sz x))) PTE_U = false ∧ a_sz (g_image g) = 4096 * (npages (a_sz x) + 2).

Lemma setup_starts data args g : setup data args = Some g → starts data args g.
Proof.
  unfold setup. destruct (load_elf data) as [[entry x]|] eqn:Hx; [|done]. cbn. destruct (build_stack args x) as [[sp z]|] eqn:Hb; [|done].
  cbn. intros [= <-]. apply build_stack_spec in Hb as (? & ? & ? & ? & ?). exists x. by split_and!.
Qed.

(** ** [exec] *)
Section theorem.
Context {F : Type} {FO : FileOps F} {EO : ExecOps F}.
Context (kend trampoline : Z).
Implicit Types (s : kstate F) (L : list Z) (f : F).

(** In state [f], [path] names a file with contents [data], or none: what the
    calls of [exec] on it do, and a description of the state after them. *)
Definition stored f (path : list Z) (data : option (list Z)) (fin : F → Prop) : Prop :=
  match data with
  | None => ∀ k, wp begin_op (k, f) (λ _ kf, kf.1 = k ∧ wp (namei path) kf (λ r kf, r = None ∧ kf.1 = k ∧
      wp end_op kf (λ _ kf, kf.1 = k ∧ fin kf.2)))
  | Some data => ∃ ip (I : F → Prop),
      (∀ k, wp begin_op (k, f) (λ _ kf, kf.1 = k ∧ wp (namei path) kf (λ r kf, r = Some ip ∧ kf.1 = k ∧
         wp (ilock ip) kf (λ _ kf, kf.1 = k ∧ I kf.2)))) ∧
      (∀ k f off n, I f → 0 ≤ off < 4294967296 → 0 ≤ n ≤ 4096 →
         wp (readi ip off n) (k, f) (λ r kf,
           r = (Z.of_nat (length (file_read data off n)), file_read data off n) ∧ kf.1 = k ∧ I kf.2)) ∧
      (∀ k f, I f → wp (iunlockput ip) (k, f) (λ _ kf, kf.1 = k ∧ wp end_op kf (λ _ kf, kf.1 = k ∧ fin kf.2))) ∧
      bytes data ∧ Z.of_nat (length data) < 2147483648
  end.

Lemma wakeups_at s me cs k f (Q : unit → kstate F → Prop) :
  length (ks_procs s) = NPROC → (∀ s', woken me s s' → Q tt (at_kf s' k f)) → wp (wakeups (Some me) cs) (at_kf s k f) Q.
Proof.
  intros Hlen HQ. eapply wakeups_spec; [done|]. intros s1 [Hr Hme Hall]. specialize (HQ (at_kf s1 (ks_k s) (ks_f s))).
  rewrite Hr. cbn in *. replace (KState k f _ _ _ _) with (at_kf (at_kf s1 (ks_k s) (ks_f s)) k f) by (rewrite Hr; done).
  apply HQ. split; [by rewrite Hr|done|done].
Qed.

Lemma exec_close_spec s me ip k f (I fin : F → Prop) (Q : unit → kstate F → Prop) :
  (∀ k f, I f → wp (iunlockput ip) (k, f) (λ _ kf, kf.1 = k ∧ wp end_op kf (λ _ kf, kf.1 = k ∧ fin kf.2))) →
  length (ks_procs s) = NPROC → I f → (∀ s' f', woken me s s' → fin f' → Q tt (at_kf s' k f')) →
  wp (exec_close me ip) (at_kf s k f) Q.
Proof.
  intros Hc Hlen Hf HQ. unfold exec_close. wp_step. apply wp_onf_at. eapply wp_mono; [by apply Hc|]. intros cs [k1 f1] [Hk1 He]. cbn in Hk1. subst k1.
  wp_step. apply wakeups_at; [done|]. intros s1 Hw1. wp_step. apply wp_onf_at. eapply wp_mono; [exact He|].
  intros cs2 [k2 f2] [Hk2 Hfin]. cbn in *. subst k2. apply wakeups_at; [by rewrite (woken_length _ _ _ Hw1)|]. intros s2 Hw2.
  apply HQ; [by eapply woken_trans|done].
Qed.

Section call.
Context (Hend : KERNBASE ≤ kend) (Htr : 0 ≤ trampoline < 18446744073709547520).
Context s L (me : nat) (p : proc) (T : gmap (list Z) Z) (D : gmap Z Z) (path : list Z) (argv : list Z) (args : list (list Z)) (fin : F → Prop).
Context (Hlen : length (ks_procs s) = NPROC) (Hp : ks_procs s !! me = Some p)
  (Hpm : pmem kend trampoline (ks_k s) L T D (p_pagetable p) (p_sz p) (p_trapframe p))
  (Hargs : Forall2 (kstring (k_mem (ks_k s)) L) argv args) (Hn : (length args < MAXARG)%nat).

Abbreviation given_back := (given_back kend (ks_k s) L).

(** How [exec] ends. *)
Definition failed (r : Z) (s' : kstate F) : Prop :=
  ∃ sw k f, r = -1 ∧ s' = at_kf sw k f ∧ woken me s sw ∧ fin f ∧ given_back k.
Definition replaced (g : program) (r : Z) (s' : kstate F) : Prop :=
  ∃ sw k f L' T' D' root, r = Z.of_nat (length args) ∧
    s' = with_proc (at_kf sw k f) me (new_proc p path root (a_sz (g_image g))) ∧ woken me s sw ∧ fin f ∧
    committed kend trampoline (ks_k s) L T D (p_sz p) (p_trapframe p) k L' T' D' root (g_image g) (g_sp g) (g_entry g).

Lemma exec_bad_file_spec sw k f root sz ip (I : F → Prop) (Q : Z → kstate F → Prop) :
  (∀ k f, I f → wp (iunlockput ip) (k, f) (λ _ kf, kf.1 = k ∧ wp end_op kf (λ _ kf, kf.1 = k ∧ fin kf.2))) →
  length (ks_procs sw) = NPROC → I f →
  (if root =? 0 then given_back k else some_image kend trampoline (ks_k s) L (p_trapframe p) root k sz) →
  (∀ sw' k' f', woken me sw sw' → fin f' → given_back k' → Q (-1) (at_kf sw' k' f')) →
  wp (exec_bad_file kend me root sz ip) (at_kf sw k f) Q.
Proof.
  intros Hc Hl Hf Hroot HQ. unfold exec_bad_file.
  assert (∀ k1, given_back k1 → wp (exec_close me ip ;; mret (-1)) (at_kf sw k1 f) Q) as Hrest.
  { intros k1 Hg. wp_step. eapply exec_close_spec; [exact Hc|done|done|]. intros s' f' Hw Hfin. wp_step. by apply HQ. }
  destruct (Z.eqb_spec root 0) as [->|Hne]; cbn [negb mwhen]; wp_step; [wp_step; by apply Hrest|].
  destruct Hroot as (L1 & T1 & D1 & x & Hi & <-). apply wp_onk_at. eapply (image_free kend trampoline Hend Htr); [exact Hi|].
  intros k' L' Hk' Hset Hout. apply Hrest. by exists L'.
Qed.

(** The conditions under which [exec] may fail, and those of its parts. *)
Definition may_fail (data : option (list Z)) : Prop :=
  ∀ g, (data ≫= λ d, setup d args) = Some g → Z.of_nat (length L) < 5 + 3 * npages (a_sz (g_image g)).

Lemma setup_sz data entry x g : load_elf data = Some (entry, x) → setup data args = Some g → npages (a_sz (g_image g)) = npages (a_sz x) + 2.
Proof using.
  intros He (y & Hy & _ & _ & _ & _ & ->)%setup_starts. rewrite He in Hy. injection Hy as _ <-. apply npages_round.
Qed.

Lemma setup_load data g : setup data args = Some g → ∃ entry x, load_elf data = Some (entry, x).
Proof using. unfold setup. destruct (load_elf data) as [[entry x]|]; [by exists entry, x|done]. Qed.

Section file.
Context (ip : nat) (data : list Z) (I : F → Prop) (Hdata : bytes data) (Hdl : Z.of_nat (length data) < 2147483648).
Context (Hread : ∀ k f off n, I f → 0 ≤ off < 4294967296 → 0 ≤ n ≤ 4096 →
  wp (readi ip off n) (k, f) (λ r kf,
    r = (Z.of_nat (length (file_read data off n)), file_read data off n) ∧ kf.1 = k ∧ I kf.2)).
Context (Hcl : ∀ k f, I f → wp (iunlockput ip) (k, f) (λ _ kf, kf.1 = k ∧ wp end_op kf (λ _ kf, kf.1 = k ∧ fin kf.2))).
Context (Q : Z → kstate F → Prop) (HQ1 : ∀ g r s', setup data args = Some g → replaced g r s' → Q r s')
  (HQ0 : ∀ r s', failed r s' → may_fail (Some data) → Q r s').

Lemma exec_bad_here k f root sz :
  I f → (if root =? 0 then given_back k else some_image kend trampoline (ks_k s) L (p_trapframe p) root k sz) → may_fail (Some data) →
  wp (exec_bad_file kend me root sz ip) (at_kf s k f) Q.
Proof.
  intros Hf Him Hm. eapply exec_bad_file_spec; [exact Hcl|done|done|exact Him|]. intros sw k' f' Hw Hfin Hg.
  apply HQ0; [|done]. by exists sw, k', f'.
Qed.

Let elf := elfhdr_of (take 64 data).

(** With an empty page table for the program. *)
Lemma exec_image_spec k f L1 T1 root :
  image kend trampoline (ks_k s) L (p_trapframe p) k L1 T1 (D_empty trampoline (p_trapframe p)) root empty_image → root ≠ 0 → I f →
  Z.of_nat (length L) ≤ Z.of_nat (length L1) + 5 → 64 ≤ Z.of_nat (length data) → e_magic elf = ELF_MAGIC →
  wp ('(ok, sz) ← load_loop kend (Z.to_nat (e_phnum elf)) root ip (s32 (e_phoff elf)) 0;
      if negb ok then exec_bad_file kend me root sz ip else
      exec_close me ip ;; exec_stack kend me path argv root sz (e_entry elf)) (at_kf s k f) Q.
Proof.
  intros Hi Hr Hf HL1 H64 Hmag.
  assert (load_elf data = x ← load_segments (Z.to_nat (e_phnum elf)) data (s32 (e_phoff elf)) empty_image; Some (e_entry elf, x)) as Hle.
  { unfold load_elf. fold elf. by rewrite (proj2 (Z.ltb_ge _ _)), (proj2 (Z.eqb_eq _ _)) by done. }
  wp_step. change 0 with (a_sz empty_image) at 1.
  eapply (load_loop_spec kend trampoline Hend Htr ip data I Hdata Hdl Hread); [exact Hi| |done| |].
  { intros v Hv. cbn in Hv. change (npages 0) with 0 in Hv. lia. }
  2:{ intros k2 f2 L2 T2 D2 y Hf2 Hi2 Hy. cbn [negb]. apply exec_bad_here; [done| |].
      - rewrite (proj2 (Z.eqb_neq _ _)) by done. by exists L2, T2, D2, y.
      - intros g Hg. cbn [mbind option_bind] in Hg. destruct (setup_load _ _ Hg) as (entry & x & Hx). rewrite (setup_sz _ _ _ _ Hx Hg).
        rewrite Hle in Hx. destruct (load_segments _ _ _ _) as [z|]; [|done]. cbn in Hx. injection Hx as _ <-.
        specialize (Hy z eq_refl). cbn [a_sz empty_image] in Hy. change (npages 0) with 0 in Hy. lia. }
  intros k2 f2 L2 T2 D2 x Hf2 Hi2 _ Hx Hl2. cbn [negb]. rewrite Hx in Hle. cbn [mbind option_bind a_sz empty_image] in *. change (npages 0) with 0 in Hl2.
  assert (0 ≤ e_entry elf < 18446744073709551616) as Hent.
  { pose proof (field_range (take 64 data) 24 8 ltac:(by apply Forall_take)) as He. exact He. }
  wp_step. eapply exec_close_spec; [exact Hcl|done|done|]. intros sw f3 Hw Hfin.
  eapply (exec_stack_spec kend trampoline Hend Htr (ks_k s) L T D _ _ _ Hpm me p); [done|done|done|exact Hi2|done|by rewrite (wk_me _ _ _ Hw)|exact Hargs|exact Hn|exact Hent| |].
  - intros k' L' T' D' sp z Hb Hc. apply (HQ1 (Program (e_entry elf) sp z)).
    + unfold setup. rewrite Hle. cbn. by rewrite Hb.
    + by exists sw, k', f3, L', T', D', root.
  - intros k' Hg Hb. apply HQ0; [by exists sw, k', f3|]. intros g Hs. cbn [mbind option_bind] in Hs. rewrite (setup_sz _ _ _ _ Hle Hs).
    destruct Hb as [Hb|Hb]; [|lia]. unfold setup in Hs. rewrite Hle in Hs. cbn in Hs. by rewrite Hb in Hs.
Qed.

Lemma exec_file_spec f : I f → wp (exec_file kend trampoline me path argv ip) (at_kf s (ks_k s) f) Q.
Proof.
  intros Hf. unfold exec_file. wp_step. eapply wp_getp; [exact Hp|].
  pose proof (as_k _ _ _ _ _ _ (pm_as _ _ _ _ _ _ _ _ _ (pm_ppt _ _ _ _ _ _ _ _ _ Hpm))) as Hk.
  assert (given_back (ks_k s)) as Hg0 by (by exists L).
  wp_step. change sizeof_elfhdr with 64. eapply file_readi_spec; [exact Hread|done|lia|lia|]. intros f4 Hf4.
  rewrite length_read by lia. change (file_read data 0 64) with (take 64 data). fold elf.
  destruct (Z.eqb_spec (Z.min 64 (Z.max 0 (Z.of_nat (length data) - 0))) 64) as [Hs|Hs]; cbn [negb].
  2:{ apply exec_bad_here; [done|done|]. intros g Hg. cbn in Hg. destruct (setup_load _ _ Hg) as (entry & x & Hx). unfold load_elf in Hx.
      by rewrite (proj2 (Z.ltb_lt _ _)) in Hx by lia. }
  destruct (Z.eqb_spec (e_magic elf) ELF_MAGIC) as [Hmag|Hmag]; cbn [negb].
  2:{ apply exec_bad_here; [done|done|]. intros g Hg. cbn in Hg. destruct (setup_load _ _ Hg) as (entry & x & Hx). unfold load_elf in Hx. fold elf in Hx.
      by rewrite (proj2 (Z.ltb_ge _ _)), (proj2 (Z.eqb_neq _ _)) in Hx by (done || lia). }
  destruct (pm_tfpage _ _ _ _ _ _ _ _ _ Hpm) as (Htf & HtfL & _ & _).
  wp_step. apply wp_onk_at. eapply (proc_pagetable_spec kend trampoline Hend Htr (ks_k s) L (p_trapframe p)); [done|done|done| |].
  - intros k' L' T' root Hpm' Hr Hsp Hl. rewrite (proj2 (Z.eqb_neq _ _)) by done.
    apply (exec_image_spec k' f4 L' T' root); [by apply image_start|done|done|lia|lia|done].
  - intros k' L' Hk' Hset Hout Hl. cbn [Z.eqb]. apply exec_bad_here; [done|by exists L'|]. intros g Hg. cbn in Hg.
    destruct (setup_load _ _ Hg) as (entry & x & Hx). rewrite (setup_sz _ _ _ _ Hx Hg).
    assert (0 ≤ npages (a_sz x)); [|lia]. apply load_elf_sz in Hx. unfold npages. zlia.
Qed.
End file.

Lemma exec_spec data (Q : Z → kstate F → Prop) :
  stored (ks_f s) path data fin →
  (∀ g r s', (data ≫= λ d, setup d args) = Some g → replaced g r s' → Q r s') → (∀ r s', failed r s' → may_fail data → Q r s') →
  wp (exec kend trampoline me path argv) s Q.
Proof.
  intros Hst HQ1 HQ0. replace s with (at_kf s (ks_k s) (ks_f s)) at 1 by (by destruct s). unfold exec. wp_step. apply wp_onf_at.
  pose proof (as_k _ _ _ _ _ _ (pm_as _ _ _ _ _ _ _ _ _ (pm_ppt _ _ _ _ _ _ _ _ _ Hpm))) as Hk.
  destruct data as [data|]; cbn [mbind option_bind] in *.
  - destruct Hst as (ip & I & Hop & Hread & Hcl & Hdata & Hdl).
    eapply wp_mono; [apply Hop|]. intros _ [k1 f1] [Hk1 Hna]. cbn in Hk1. subst k1. wp_step. apply wp_onf_at.
    eapply wp_mono; [exact Hna|]. intros r [k2 f2] (-> & Hk2 & Hil). cbn in Hk2. subst k2. wp_step. apply wp_onf_at.
    eapply wp_mono; [exact Hil|]. intros _ [k3 f3] [Hk3 Hf3]. cbn in *. subst k3. by eapply exec_file_spec.
  - eapply wp_mono; [apply Hst|]. intros _ [k1 f1] [Hk1 Hna]. cbn in Hk1. subst k1. wp_step. apply wp_onf_at.
    eapply wp_mono; [exact Hna|]. intros r [k2 f2] (-> & Hk2 & Heo). cbn in Hk2. subst k2. wp_step. apply wp_onf_at.
    eapply wp_mono; [exact Heo|]. intros cs [k3 f3] [Hk3 Hfin]. cbn in *. subst k3. wp_step. apply wakeups_at; [done|]. intros sw Hw. wp_step.
    apply HQ0; [|done]. exists sw, (ks_k s), f3. split_and!; [done..|]. by exists L.
Qed.
End call.

(** C16: [exec] runs the program in the file. For every contents of the file, well
    formed or not, it returns. If the file is an ELF program that fits, and there
    is memory for it, the result is the number of arguments, and the process has a
    new memory: the segments of the file at their addresses with their
    permissions, zeros elsewhere, above them a page the program may not touch and
    a stack with the arguments, to which the stack pointer and [a1] point, while
    the program counter is the entry point; the rest of the registers is as it
    was, and the pages of the old memory are free. Otherwise it returns -1 and the
    process, its memory and the set of free pages are as they were. *)
Theorem exec_correct s L me p T D path argv args data fin :
  KERNBASE ≤ kend → 0 ≤ trampoline < 18446744073709547520 → length (ks_procs s) = NPROC → ks_procs s !! me = Some p →
  pmem kend trampoline (ks_k s) L T D (p_pagetable p) (p_sz p) (p_trapframe p) →
  stored (ks_f s) path data fin → Forall2 (kstring (k_mem (ks_k s)) L) argv args → (length args < MAXARG)%nat →
  ∃ r s', exec kend trampoline me path argv s = Ret r s' ∧
    match data ≫= λ d, setup d args with
    | Some g =>
        starts (default [] data) args g ∧
        (replaced s L me p T D path args fin g r s' ∨
         failed s L me fin r s' ∧ Z.of_nat (length L) < 5 + 3 * npages (a_sz (g_image g)))
    | None => failed s L me fin r s'
    end.
Proof.
  intros Hend Htr Hlen Hp Hpm Hst Hargs Hn. apply wp_Ret.
  assert (∀ g, (data ≫= λ d, setup d args) = Some g → starts (default [] data) args g) as Hs.
  { intros g Hg. destruct data as [data|]; [|done]. by apply setup_starts. }
  eapply (exec_spec Hend Htr s L me p T D path argv args fin Hlen Hp Hpm Hargs Hn data); [done| |].
  - intros g r s' Hg Hr. rewrite Hg. split; [by apply Hs|by left].
  - intros r s' Hf Hm. unfold may_fail in Hm. destruct (data ≫= λ d, setup d args) as [g|]; [|done]. split; [by apply Hs|right; auto].
Qed.
End theorem.

(** ** A program of one page *)
Module ExecDemo.

(** A file system that has one file. *)
Definition code : list Z := [147; 8; 32; 0; 115; 0; 0; 0].
Definition binary : list Z :=
  le_bytes 4 ELF_MAGIC ++ replicate 12 0 ++ le_bytes 2 2 ++ le_bytes 2 243 ++ le_bytes 4 1 ++ le_bytes 8 0 ++ le_bytes 8 64 ++ le_bytes 8 0 ++
  le_bytes 4 0 ++ le_bytes 2 64 ++ le_bytes 2 56 ++ le_bytes 2 1 ++ le_bytes 2 0 ++ le_bytes 2 0 ++ le_bytes 2 0 ++
  le_bytes 4 1 ++ le_bytes 4 5 ++ le_bytes 8 120 ++ le_bytes 8 0 ++ le_bytes 8 0 ++ le_bytes 8 8 ++ le_bytes 8 8 ++ le_bytes 8 4096 ++ code.

#[local] Instance one_file : FileOps unit := {|
  filedup _ := mret tt; fileclose _ := mret []; idup _ := mret tt; begin_op := mret tt; iput _ := mret tt; end_op := mret [];
  namei path := mret (if decide (path = [47; 97]) then Some 0%nat else None)
|}.
#[local] Instance one_file_exec : ExecOps unit := {|
  ilock _ := mret tt;
  readi _ off n := mret (Z.of_nat (length (file_read binary off n)), file_read binary off n);
  iunlockput _ := mret []
|}.

Lemma binary_stored : stored () [47; 97] (Some binary) (λ _, True).
Proof.
  exists 0%nat, (λ _, True). split_and!.
  - intros k. repeat split.
  - intros k [] off n _ _ _. repeat split.
  - intros k [] _. repeat split.
  - unfold binary. repeat (apply Forall_app; split); (apply le_bytes_range || (repeat constructor; lia)).
  - by vm_compute.
Qed.

(** A machine with 32 pages, a process on it that has no memory yet, and a string
    in the kernel's own memory. *)
Definition kend : Z := PHYSTOP - 32 * 4096.
Definition tramp : Z := KERNBASE + 4096.

Lemma kend_ok : KERNBASE ≤ kend.
Proof. by vm_compute. Qed.
Lemma tramp_ok : 0 ≤ tramp < 18446744073709547520.
Proof. by vm_compute. Qed.

Lemma process : ∃ k L T D root tf, pmem kend tramp k L T D root 0 tf ∧ (20 ≤ length L)%nat.
Proof.
  assert (bytes_mem ∅) as Hb by (intros a; unfold ld; rewrite lookup_empty; cbn; lia).
  destruct (proj1 (wp_Ret _ _ _) (kinit_spec kend kend_ok ∅ Hb ltac:(by vm_compute))) as ([] & k0 & _ & Hk).
  set (L := reverse _) in Hk. assert (length L = 32%nat) as HL by (unfold L; by vm_compute). clearbody L.
  assert (wp (tf ← kalloc; proc_pagetable kend tramp tf) k0 (λ root k, ∃ L T D tf, pmem kend tramp k L T D root 0 tf ∧ (20 ≤ length L)%nat)) as Hwp.
  { wp_step. eapply (kalloc_spec kend kend_ok); [exact Hk|]. destruct L as [|tf L]; [done|]. cbn [length] in HL. intros k1 Hk1 Htf HtfL _.
    eapply (proc_pagetable_spec kend tramp kend_ok tramp_ok); [exact Hk1|exact Htf|exact HtfL| |].
    - intros k' L' T root Hpm _ _ Hl. exists L', T, (D_empty tramp tf), tf. split; [exact Hpm|lia].
    - intros k' L' _ _ _ Hl. lia. }
  apply wp_Ret in Hwp as (root & k & _ & L' & T & D & tf & Hpm & Hl). by exists k, L', T, D, root, tf.
Qed.

Lemma machine : ∃ (s : kstate unit) L T D p, length (ks_procs s) = NPROC ∧ ks_procs s !! 0%nat = Some p ∧
  pmem kend tramp (ks_k s) L T D (p_pagetable p) (p_sz p) (p_trapframe p) ∧ (20 ≤ length L)%nat ∧
  kstring (k_mem (ks_k s)) L KERNBASE [97].
Proof.
  destruct process as (k & L & T & D & root & tf & Hpm & HL).
  pose proof (as_k _ _ _ _ _ _ (pm_as _ _ _ _ _ _ _ _ _ (pm_ppt _ _ _ _ _ _ _ _ _ Hpm))) as Hk.
  assert (∀ q a, page_ok kend q → in_page q a → ¬ (KERNBASE ≤ a < KERNBASE + 2)) as Hout.
  { intros q a [_ Hq] Ha. unfold in_page, kend, PHYSTOP, KERNBASE in *. lia. }
  set (m := st_bytes (k_mem k) KERNBASE [97; 0]).
  assert (∀ q a, page_ok kend q → in_page q a → ld m a = ld (k_mem k) a) as Hm.
  { intros q a Hq Ha. unfold m. rewrite ld_st_bytes, decide_False; [done|]. cbn. by eapply Hout. }
  set (p := Proc RUNNING None 0 0 1 None 0 0 root tf (Context_ 0 0) (replicate NOFILE None) None (replicate 16 0)).
  exists (KState (kset_mem m k) () (p :: replicate 63 p) 2 None 0), L, T, D, p. split_and!; [done|done| |done|].
  - eapply (pmem_frame kend tramp tramp_ok); [exact Hpm| | |].
    + apply kmem_ok_mem; [done|apply bytes_st_bytes, Hk|]. intros q a Hq. apply Hm. eapply flist_pages; [|exact Hq]. apply Hk.
    + intros q Hq. by apply (own_set_page _ _ _ _ _ _ _ _ _ q Hpm Hq).
    + intros q a Hq. apply Hm. apply (own_set_page _ _ _ _ _ _ _ _ _ q Hpm). unfold own_set. rewrite !elem_of_union. tauto.
  - split; [|set_solver|cbn; lia|].
    + cbn [ks_k k_mem kset_mem length Nat.add]. exact (ld_bytes_st (k_mem k) KERNBASE [97; 0] ltac:(repeat constructor; lia)).
    + intros b q Hb Hq Ha. cbn in Hb. apply (Hout q b); [|done|lia]. eapply flist_pages; [|exact Hq]. apply Hk.
Qed.

Lemma exec_correct_witness : ∃ (s s' : kstate unit), exec kend tramp 0 [47; 97] [KERNBASE] s = Ret 1 s'.
Proof.
  destruct machine as (s & L & T & D & p & Hlen & Hp & Hpm & HL & Hstr).
  destruct (exec_correct kend tramp s L 0 p T D [47; 97] [KERNBASE] [[97]] (Some binary) (λ _, True) kend_ok tramp_ok Hlen Hp Hpm)
    as (r & s' & Hrun & Hres).
  - destruct (ks_f s). apply binary_stored.
  - by constructor.
  - cbn. unfold MAXARG. lia.
  - assert (match setup binary [[97]] with Some g => a_sz (g_image g) =? 12288 | None => false end = true) as Hg by (vm_compute; reflexivity).
    cbn [mbind option_bind] in Hres. destruct (setup binary [[97]]) as [g|]; [|done]. apply Z.eqb_eq in Hg. rewrite Hg in Hres.
    change (npages 12288) with 3 in Hres. destruct Hres as [_ [Hr|[_ Hr]]]; [|lia].
    destruct Hr as (? & ? & ? & ? & ? & ? & ? & -> & _). by exists s, s'.
Defined.
End ExecDemo.
