(* ===== verification/Ring.v ===== *)
(** * Ring buffers

    An array of [cap] bytes that holds a queue from position [r] on, positions
    taken modulo [cap]: what the buffers of the console and of the UART share. *)
From Stdlib Require Import ZArith Lia.
From stdpp Require Import prelude.
From S2P Require Import Prelude.

Definition ring (cap : nat) (buf : list Z) (r : Z) (q : list Z) : Prop :=
  length buf = cap ∧ (length q ≤ cap)%nat ∧
  ∀ k, (k < length q)%nat → buf !! Z.to_nat ((r + Z.of_nat k) mod Z.of_nat cap) = q !! k.

Section ring.
Context (cap : nat) (Hcap : (0 < cap)%nat).

(** Only the position modulo [cap] matters. *)
Lemma ring_mod buf r r' q : r mod Z.of_nat cap = r' mod Z.of_nat cap → ring cap buf r q → ring cap buf r' q.
Proof.
  intros Hm (Hb & Hl & Hq). split_and!; [done|done|]. intros k Hk. rewrite <-(Hq k Hk).
  by rewrite <-(Zplus_mod_idemp_l r'), <-Hm, Zplus_mod_idemp_l.
Qed.

Lemma ring_push buf r q c : ring cap buf r q → (length q < cap)%nat →
  ring cap (<[Z.to_nat ((r + Z.of_nat (length q)) mod Z.of_nat cap) := c]> buf) r (q ++ [c]).
Proof.
  intros (Hb & Hl & Hq) Hlt. split_and!; [by rewrite length_insert|rewrite length_app; cbn; lia|].
  intros k Hk. rewrite length_app in Hk. cbn in Hk.
  assert (∀ z, 0 ≤ z mod Z.of_nat cap < Z.of_nat cap) as Hm by (intros; apply Z.mod_pos_bound; lia).
  destruct (decide (k = length q)) as [->|Hne].
  - rewrite list_lookup_insert_eq by (specialize (Hm (r + Z.of_nat (length q))); lia). by rewrite list_lookup_middle.
  - rewrite lookup_app_l by lia. rewrite list_lookup_insert_ne; [apply Hq; lia|]. intros Heq. apply Z2Nat.inj in Heq; [|apply Hm..].
    assert ((r + Z.of_nat k - (r + Z.of_nat (length q))) mod Z.of_nat cap = 0) as H0 by (rewrite Zminus_mod, Heq, Z.sub_diag; apply Zmod_0_l).
    apply Z.mod_divide in H0 as [z Hz]; [|lia]. assert (z = 0 ∨ z ≤ -1 ∨ 1 ≤ z) as [->|[?|?]] by lia; nia.
Qed.

Lemma ring_head buf r c q : ring cap buf r (c :: q) →
  buf !! Z.to_nat (r mod Z.of_nat cap) = Some c ∧ ring cap buf (r + 1) q.
Proof.
  intros (Hb & Hl & Hq). split.
  - specialize (Hq 0%nat). rewrite Z.add_0_r in Hq. apply Hq. cbn. lia.
  - split_and!; [done|cbn in Hl; lia|]. intros k Hk. specialize (Hq (S k) ltac:(cbn; lia)). change (q !! k) with ((c :: q) !! S k). rewrite <-Hq. do 3 f_equal. lia.
Qed.

Lemma ring_prefix buf r q1 q2 : ring cap buf r (q1 ++ q2) → ring cap buf r q1.
Proof.
  intros (Hb & Hl & Hq). rewrite length_app in Hl. split_and!; [done|lia|]. intros k Hk. rewrite Hq by (rewrite length_app; lia). by apply lookup_app_l.
Qed.

Lemma ring_last buf r q c : ring cap buf r (q ++ [c]) → buf !! Z.to_nat ((r + Z.of_nat (length q)) mod Z.of_nat cap) = Some c.
Proof. intros (Hb & Hl & Hq). rewrite Hq by (rewrite length_app; cbn; lia). by rewrite list_lookup_middle. Qed.
End ring.
