(* ===== verification/Virtio.v ===== *)
(** * The disk driver: kernel/virtio_disk.c

    The queues that the driver shares with the device are arrays; addresses in
    descriptors are the objects they point to. [virtio_disk_rw] is cut where it
    sleeps: [rw_submit] up to the notification, [rw_wait] from then on, each of them
    run under [vdisk_lock]. Barriers order what the steps here order anyway. *)
From Stdlib Require Import ZArith Lia.
From stdpp Require Import prelude strings.
From S2P Require Import Prelude.

Definition NUM : nat := 8.
Definition VRING_DESC_F_NEXT : Z := 1.
Definition VRING_DESC_F_WRITE : Z := 2.
Definition VIRTIO_BLK_T_IN : Z := 0.
Definition VIRTIO_BLK_T_OUT : Z := 1.

(** What a descriptor's address points to: [disk.ops[i]], the data of a buffer,
    [disk.info[i].status]. *)
Inductive vaddr := ANull | AOps (i : Z) | AData (b : nat) | AStatus (i : Z).

Record virtq_desc := Desc { d_addr : vaddr; d_len : Z; d_flags : Z; d_next : Z }.
Record virtio_blk_req := Req { r_type : Z; r_reserved : Z; r_sector : Z }.
Record vinfo := Info { i_b : option nat; i_status : Z }.

(** What the driver uses of a [struct buf]. *)
Record vbuf := VBuf { vb_blockno : Z; vb_data : list Z; vb_disk : Z }.

(** [struct disk] with the three shared structures, and the buffers. *)
Record vst := VSt {
  v_desc : list virtq_desc;
  v_avail_idx : Z;
  v_avail : list Z;
  v_used_idx : Z;
  v_used : list Z;
  v_free : list bool;
  v_seen : Z;          (* disk.used_idx *)
  v_info : list vinfo;
  v_ops : list virtio_blk_req;
  v_bufs : list vbuf;
  v_woken : list chan
}.

Abbreviation VM := (M vst).

Definition free_chan : chan := Chan "disk.free" 0.
Definition buf_chan (b : nat) : chan := Chan "buf" b.

Definition set_desc (x : list virtq_desc) (s : vst) : vst :=
  VSt x (v_avail_idx s) (v_avail s) (v_used_idx s) (v_used s) (v_free s) (v_seen s) (v_info s) (v_ops s) (v_bufs s) (v_woken s).
Definition set_avail (i : Z) (x : list Z) (s : vst) : vst :=
  VSt (v_desc s) i x (v_used_idx s) (v_used s) (v_free s) (v_seen s) (v_info s) (v_ops s) (v_bufs s) (v_woken s).
Definition set_used (i : Z) (x : list Z) (s : vst) : vst :=
  VSt (v_desc s) (v_avail_idx s) (v_avail s) i x (v_free s) (v_seen s) (v_info s) (v_ops s) (v_bufs s) (v_woken s).
Definition set_free (x : list bool) (s : vst) : vst :=
  VSt (v_desc s) (v_avail_idx s) (v_avail s) (v_used_idx s) (v_used s) x (v_seen s) (v_info s) (v_ops s) (v_bufs s) (v_woken s).
Definition set_seen (x : Z) (s : vst) : vst :=
  VSt (v_desc s) (v_avail_idx s) (v_avail s) (v_used_idx s) (v_used s) (v_free s) x (v_info s) (v_ops s) (v_bufs s) (v_woken s).
Definition set_info (x : list vinfo) (s : vst) : vst :=
  VSt (v_desc s) (v_avail_idx s) (v_avail s) (v_used_idx s) (v_used s) (v_free s) (v_seen s) x (v_ops s) (v_bufs s) (v_woken s).
Definition set_ops (x : list virtio_blk_req) (s : vst) : vst :=
  VSt (v_desc s) (v_avail_idx s) (v_avail s) (v_used_idx s) (v_used s) (v_free s) (v_seen s) (v_info s) x (v_bufs s) (v_woken s).
Definition set_bufs (x : list vbuf) (s : vst) : vst :=
  VSt (v_desc s) (v_avail_idx s) (v_avail s) (v_used_idx s) (v_used s) (v_free s) (v_seen s) (v_info s) (v_ops s) x (v_woken s).
Definition vwakeup (c : chan) : VM unit :=
  modify (λ s, VSt (v_desc s) (v_avail_idx s) (v_avail s) (v_used_idx s) (v_used s) (v_free s) (v_seen s) (v_info s) (v_ops s) (v_bufs s) (v_woken s ++ [c])).

Definition put_desc (i : Z) (d : virtq_desc) : VM unit := modify (λ s, set_desc (<[Z.to_nat i := d]> (v_desc s)) s).
Definition put_info (i : Z) (f : vinfo → vinfo) : VM unit := modify (λ s, set_info (alter f (Z.to_nat i) (v_info s)) s).
Definition put_buf (b : nat) (f : vbuf → vbuf) : VM unit := modify (λ s, set_bufs (alter f b (v_bufs s)) s).

(** ** Descriptors *)
Definition alloc_desc : VM Z :=
  s ← mget;
  match list_find (λ x, x = true) (v_free s) with
  | Some (i, _) => modify (set_free (<[i := false]> (v_free s))) ;; mret (Z.of_nat i)
  | None => mret (-1)
  end.

Definition free_desc (i : Z) : VM unit :=
  if i >=? Z.of_nat NUM then panic "free_desc 1" else
  s ← mget;
  fr ← mnth (v_free s !! Z.to_nat i);
  if fr : bool then panic "free_desc 2" else
  put_desc i (Desc ANull 0 0 0) ;;
  modify (λ s, set_free (<[Z.to_nat i := true]> (v_free s)) s) ;;
  vwakeup free_chan.

Fixpoint free_chain (fuel : nat) (i : Z) : VM unit :=
  match fuel with
  | O => λ _, NoFuel
  | S fuel =>
      s ← mget;
      d ← mnth (v_desc s !! Z.to_nat i);
      free_desc i ;;
      if negb (Z.land (d_flags d) VRING_DESC_F_NEXT =? 0) then free_chain fuel (d_next d) else mret tt
  end.

(** [for(int i = 0; i < 3; i++)]: [idx] holds what was allocated so far. *)
Fixpoint alloc3_loop (n : nat) (idx : list Z) : VM (option (list Z)) :=
  match n with
  | O => mret (Some idx)
  | S n =>
      i ← alloc_desc;
      if i <? 0 then mfor idx free_desc ;; mret None
      else alloc3_loop n (idx ++ [i])
  end.
Definition alloc3_desc : VM (option (list Z)) := alloc3_loop 3 [].

(** ** Requests *)

(** [virtio_disk_rw] up to the first [sleep(b)]: the descriptors, or [None] if there
    are not three of them and the process sleeps on [disk.free]. *)
Definition rw_submit (b : nat) (write : bool) : VM (option (Z * Z * Z)) :=
  s ← mget;
  buf ← mnth (v_bufs s !! b);
  let sector := u32 (vb_blockno buf * 2) in
  idx ← alloc3_desc;
  match idx with
  | Some [i0; i1; i2] =>
      modify (λ s, set_ops (<[Z.to_nat i0 := Req (if write then VIRTIO_BLK_T_OUT else VIRTIO_BLK_T_IN) 0 sector]> (v_ops s)) s) ;;
      put_desc i0 (Desc (AOps i0) 16 VRING_DESC_F_NEXT i1) ;;
      put_desc i1 (Desc (AData b) 1024 (Z.lor (if write then 0 else VRING_DESC_F_WRITE) VRING_DESC_F_NEXT) i2) ;;
      put_info i0 (λ x, Info (i_b x) 255) ;;
      put_desc i2 (Desc (AStatus i0) 1 VRING_DESC_F_WRITE 0) ;;
      put_buf b (λ x, VBuf (vb_blockno x) (vb_data x) 1) ;;
      put_info i0 (λ x, Info (Some b) (i_status x)) ;;
      modify (λ s, set_avail (v_avail_idx s) (<[Z.to_nat (v_avail_idx s mod 8) := i0]> (v_avail s)) s) ;;
      modify (λ s, set_avail (u16 (v_avail_idx s + 1)) (v_avail s) s) ;;
      mret (Some (i0, i1, i2))
  | _ => mret None
  end.

(** [virtio_disk_rw] after waking up: [false] if the request is not finished and the
    process sleeps again. *)
Definition rw_wait (b : nat) (i0 : Z) : VM bool :=
  s ← mget;
  buf ← mnth (v_bufs s !! b);
  if vb_disk buf =? 1 then mret false
  else
    put_info i0 (λ x, Info None (i_status x)) ;;
    free_chain NUM i0 ;;
    mret true.

(** [while(disk.used_idx != disk.used->idx)]: at most as many as the ring holds. *)
Fixpoint intr_loop (fuel : nat) : VM unit :=
  match fuel with
  | O => λ _, NoFuel
  | S fuel =>
      s ← mget;
      if v_seen s =? v_used_idx s then mret tt else
      id ← mnth (v_used s !! Z.to_nat (v_seen s mod 8));
      info ← mnth (v_info s !! Z.to_nat id);
      if negb (i_status info =? 0) then panic "virtio_disk_intr status" else
      b ← mnth (i_b info);
      put_buf b (λ x, VBuf (vb_blockno x) (vb_data x) 0) ;;
      vwakeup (buf_chan b) ;;
      modify (λ s, set_seen (u16 (v_seen s + 1)) s) ;;
      intr_loop fuel
  end.
Definition virtio_disk_intr : VM unit := intr_loop (S NUM).

(** ** Initialisation *)

(** The device's registers. *)
Class VirtioMmio (D : Type) := {
  vread : Z → D → Z;
  vwrite : Z → Z → D → D
}.

(** [virtio_disk_init], with what [kalloc] returned: the device and the state of
    the driver, whose pages are zeroed. *)
Section init.
Context {D : Type} `{VirtioMmio D}.

Definition init_check (d : D) : bool :=
  (vread 0 d =? 1953655158) && (vread 4 d =? 2) && (vread 8 d =? 2) && (vread 12 d =? 1431127377).

Definition clear_bits (features : Z) (bits : list Z) : Z := foldl (λ f b, Z.land f (Z.lnot (Z.shiftl 1 b))) features bits.

Definition queue_registers (desc avail used : Z) : list (Z * Z) :=
  [(56, 8); (128, u32 desc); (132, u32 (Z.shiftr desc 32)); (144, u32 avail); (148, u32 (Z.shiftr avail 32));
   (160, u32 used); (164, u32 (Z.shiftr used 32)); (68, 1)].

Definition virtio_disk_init (desc avail used : Z) (bufs : list vbuf) : M D vst :=
  d ← mget;
  if negb (init_check d) then panic "could not find virtio disk" else
  modify (vwrite 112 0) ;;
  modify (vwrite 112 1) ;;
  modify (vwrite 112 3) ;;
  d ← mget;
  modify (vwrite 32 (u32 (clear_bits (vread 16 d) [5; 7; 11; 12; 27; 29; 28]))) ;;
  modify (vwrite 112 11) ;;
  d ← mget;
  let status := vread 112 d in
  if Z.land status 8 =? 0 then panic "virtio disk FEATURES_OK unset" else
  modify (vwrite 48 0) ;;
  d ← mget;
  if negb (vread 68 d =? 0) then panic "virtio disk should not be ready" else
  if vread 52 d =? 0 then panic "virtio disk has no queue 0" else
  if vread 52 d <? 8 then panic "virtio disk max queue too short" else
  if (desc =? 0) || (avail =? 0) || (used =? 0) then panic "virtio disk kalloc" else
  mfor (queue_registers desc avail used) (λ '(r, v), modify (vwrite r v)) ;;
  modify (vwrite 112 (Z.lor status 4)) ;;
  mret (VSt (replicate NUM (Desc ANull 0 0 0)) 0 (replicate NUM 0) 0 (replicate NUM 0) (replicate NUM true) 0
          (replicate NUM (Info None 0)) (replicate NUM (Req 0 0 0)) bufs []).
End init.
