(* ===== verification/VirtioInv.v ===== *)
(** * The disk driver and a device: what they do together, and the invariant

    What a device may do and what the disk behind the driver looks like to the
    buffer cache; which descriptors are whose, where each request is, and what the
    shared queues hold; how each function of kernel/virtio_disk.c keeps it. *)
From Stdlib Require Import ZArith Lia.
From stdpp Require Import prelude gmap strings.
From S2P Require Import Prelude BufIface Ring Virtio.

(** ** The disk driver and a device: a disk that serves requests one by one

    The processes that call [virtio_disk_rw], the interrupt handler and the device
    take turns in any order. The description they are compared with is a disk that
    at some moment between a call and its return serves the request, once. *)

Local Open Scope Z_scope.

(** ** What a device may do *)

(** The device: how far it has read the available ring, the requests it works on,
    and the disk. *)
Record vdev (D : Type) := VDev { dv_last : Z; dv_inflight : list Z; dv_disk : D }.
Arguments VDev {D}.
Arguments dv_last {D}.
Arguments dv_inflight {D}.
Arguments dv_disk {D}.

(** A request that a device understands: the buffer, whether to write, the block and
    where to put the status. A request of 1024 bytes at an even sector of 512 bytes
    is for one block. *)
Definition request (s : vst) (h : Z) : option (nat * bool * Z * Z) :=
  match v_desc s !! Z.to_nat h with
  | Some (Desc (AOps i) 16 1 n1) =>
      match v_ops s !! Z.to_nat i, v_desc s !! Z.to_nat n1 with
      | Some (Req ty 0 sec), Some (Desc (AData b) 1024 fl n2) =>
          match v_desc s !! Z.to_nat n2 with
          | Some (Desc (AStatus j) 1 2 _) =>
              if (sec mod 2 =? 0) && (((ty =? 0) && (fl =? 3)) || ((ty =? 1) && (fl =? 1)))
              then Some (b, ty =? 1, sec / 2, j) else None
          | _ => None
          end
      | _, _ => None
      end
  | _ => None
  end.

(** What is seen of the system: a call, a request served, a return; and a buffer
    that no process has given to the driver getting other contents. *)
Inductive vlabel := LCall (p b : nat) (w : bool) | LOp (b : nat) (w : bool) | LRet (p : nat) | LBuf (b : nat) (bn : Z) (data : list Z).

Section device.
Context {D : Type} `{DiskDev D}.

(** The virtio specification, for the block device: the device takes heads of chains
    from the available ring, in order; it completes one of those it has taken, by
    moving the data, storing the status and putting the head in the used ring. What
    it does to a request that it does not understand is anybody's guess. *)
Inductive device_spec : vst * vdev D → option vlabel → vst * vdev D → Prop :=
| dev_fetch s d h :
    dv_last d ≠ v_avail_idx s → v_avail s !! Z.to_nat (dv_last d mod 8) = Some h →
    device_spec (s, d) None (s, VDev (u16 (dv_last d + 1)) (h :: dv_inflight d) (dv_disk d))
| dev_complete s d l1 h l2 b w blk j buf :
    dv_inflight d = l1 ++ h :: l2 → request s h = Some (b, w, blk, j) → v_bufs s !! b = Some buf →
    let data := if w then vb_data buf else dread (dv_disk d) blk in
    device_spec (s, d) (Some (LOp b w))
      (set_used (u16 (v_used_idx s + 1)) (<[Z.to_nat (v_used_idx s mod 8) := h]> (v_used s))
        (set_info (alter (λ x, Info (i_b x) 0) (Z.to_nat j) (v_info s))
          (set_bufs (alter (λ x, VBuf (vb_blockno x) data (vb_disk x)) b (v_bufs s)) s)),
       VDev (dv_last d) (l1 ++ l2) (if w then dwrite (dv_disk d) blk (vb_data buf) else dv_disk d))
| dev_wild s d h l x : h ∈ dv_inflight d → request s h = None → device_spec (s, d) l x.

(** ** The system *)

(** A process inside [virtio_disk_rw]: before it has descriptors, and after. *)
Inductive vproc := Want (b : nat) (w : bool) | Wait (b : nat) (w : bool) (i0 i1 i2 : Z).
Definition proc_buf (x : vproc) : nat := match x with Want b _ => b | Wait b _ _ _ _ => b end.

Record conf := Conf { c_v : vst; c_d : vdev D; c_p : gmap nat vproc }.

(** No process uses the buffer. *)
Definition unused (P : gmap nat vproc) (b : nat) : Prop := ∀ p x, P !! p = Some x → proc_buf x ≠ b.

Definition good_block (bn : Z) (data : list Z) : Prop := 0 ≤ bn < 2147483648 ∧ length data = BLK.

Context (dev_step : vst * vdev D → option vlabel → vst * vdev D → Prop).

Inductive vstep : conf → option vlabel → conf → Prop :=
| v_call v d P p b w : P !! p = None → (b < length (v_bufs v))%nat → unused P b →
    vstep (Conf v d P) (Some (LCall p b w)) (Conf v d (<[p := Want b w]> P))
| v_buf v d P b bn data x : v_bufs v !! b = Some x → unused P b → good_block bn data →
    vstep (Conf v d P) (Some (LBuf b bn data)) (Conf (set_bufs (<[b := VBuf bn data (vb_disk x)]> (v_bufs v)) v) d P)
| v_submit v d P p b w i0 i1 i2 v' : P !! p = Some (Want b w) → rw_submit b w v = Ret (Some (i0, i1, i2)) v' →
    vstep (Conf v d P) None (Conf v' d (<[p := Wait b w i0 i1 i2]> P))
| v_full v d P p b w v' : P !! p = Some (Want b w) → rw_submit b w v = Ret None v' →
    vstep (Conf v d P) None (Conf v' d P)
| v_again v d P p b w i0 i1 i2 v' : P !! p = Some (Wait b w i0 i1 i2) → rw_wait b i0 v = Ret false v' →
    vstep (Conf v d P) None (Conf v' d P)
| v_return v d P p b w i0 i1 i2 v' : P !! p = Some (Wait b w i0 i1 i2) → rw_wait b i0 v = Ret true v' →
    vstep (Conf v d P) (Some (LRet p)) (Conf v' d (delete p P))
| v_intr v d P v' : virtio_disk_intr v = Ret tt v' → vstep (Conf v d P) None (Conf v' d P)
| v_dev v d P l v' d' : dev_step (v, d) l (v', d') → vstep (Conf v d P) l (Conf v' d' P).

(** Runs, and what is seen of them. *)
Inductive vrun (c : conf) : list vlabel → conf → Prop :=
| vrun_nil : vrun c [] c
| vrun_silent tr c1 c2 : vrun c tr c1 → vstep c1 None c2 → vrun c tr c2
| vrun_label tr c1 l c2 : vrun c tr c1 → vstep c1 (Some l) c2 → vrun c (tr ++ [l]) c2.

(** ** The disk that serves requests one by one *)

(** The disk, block number and data of the buffers, and the calls: whether they were
    served. *)
Record aconf := AConf { a_disk : D; a_bufs : list (Z * list Z); a_calls : gmap nat (bool * nat * bool) }.

Definition a_unused (P : gmap nat (bool * nat * bool)) (b : nat) : Prop := ∀ p x, P !! p = Some x → x.1.2 ≠ b.

Inductive astep : aconf → vlabel → aconf → Prop :=
| a_call d bs P p b w : P !! p = None → (b < length bs)%nat → a_unused P b → astep (AConf d bs P) (LCall p b w) (AConf d bs (<[p := (false, b, w)]> P))
| a_buf d bs P b bn data : a_unused P b → (b < length bs)%nat → astep (AConf d bs P) (LBuf b bn data) (AConf d (<[b := (bn, data)]> bs) P)
| a_op d bs P p b w bn data : P !! p = Some (false, b, w) → bs !! b = Some (bn, data) →
    astep (AConf d bs P) (LOp b w)
      (AConf (if w then dwrite d bn data else d) (<[b := (bn, if w then data else dread d bn)]> bs) (<[p := (true, b, w)]> P))
| a_ret d bs P p b w : P !! p = Some (true, b, w) → astep (AConf d bs P) (LRet p) (AConf d bs (delete p P)).

Inductive arun (a : aconf) : list vlabel → aconf → Prop :=
| arun_nil : arun a [] a
| arun_label tr a1 l a2 : arun a tr a1 → astep a1 l a2 → arun a (tr ++ [l]) a2.
End device.
Arguments conf : clear implicits.
Arguments aconf : clear implicits.

Local Open Scope Z_scope.

(** An index of the arrays of [NUM] elements. *)
Definition idx (i : Z) : Prop := 0 ≤ i < 8.

Lemma idx_ne i j : idx i → idx j → i ≠ j → Z.to_nat i ≠ Z.to_nat j.
Proof. unfold idx. lia. Qed.

Definition owns (x : vproc) (i : Z) : Prop :=
  match x with Want _ _ => False | Wait _ _ i0 i1 i2 => i = i0 ∨ i = i1 ∨ i = i2 end.

(** The request of a process that waits: its three descriptors, and where it is: with
    the device ([A]), finished and in the used ring ([Qu]), or known to be finished. *)
Record wait_ok (v : vst) (A Qu : list Z) (b : nat) (w : bool) (i0 i1 i2 : Z) : Prop := {
  wo_idx : idx i0 ∧ idx i1 ∧ idx i2;
  wo_dup : i0 ≠ i1 ∧ i0 ≠ i2 ∧ i1 ≠ i2;
  wo_d0 : v_desc v !! Z.to_nat i0 = Some (Desc (AOps i0) 16 1 i1);
  wo_d1 : v_desc v !! Z.to_nat i1 = Some (Desc (AData b) 1024 (if w then 1 else 3) i2);
  wo_d2 : v_desc v !! Z.to_nat i2 = Some (Desc (AStatus i0) 1 2 0);
  wo_buf : ∃ bn data disk st, v_bufs v !! b = Some (VBuf bn data disk) ∧
    v_ops v !! Z.to_nat i0 = Some (Req (if w then 1 else 0) 0 (2 * bn)) ∧
    v_info v !! Z.to_nat i0 = Some (Info (Some b) st) ∧
    ((i0 ∈ A ∧ disk = 1) ∨ (i0 ∈ Qu ∧ disk = 1 ∧ st = 0) ∨ ((i0 ∉ A) ∧ (i0 ∉ Qu) ∧ disk = 0))
}.

Section inv.
Context {D : Type} `{DD : DiskDev D} `{DL : !DiskLaws D}.

(** [Qa]: what is in the available ring and not taken yet; [Qu]: what is in the used
    ring and not seen yet. *)
Record vinv (v : vst) (d : vdev D) (P : gmap nat vproc) (Qa Qu : list Z) : Prop := {
  vi_desc : length (v_desc v) = 8%nat;
  vi_free : length (v_free v) = 8%nat;
  vi_info : length (v_info v) = 8%nat;
  vi_ops : length (v_ops v) = 8%nat;
  vi_last : 0 ≤ dv_last d < 65536;
  vi_avail : v_avail_idx v = u16 (dv_last d + Z.of_nat (length Qa));
  vi_aring : ring 8 (v_avail v) (dv_last d) Qa;
  vi_seen : 0 ≤ v_seen v < 65536;
  vi_used : v_used_idx v = u16 (v_seen v + Z.of_nat (length Qu));
  vi_uring : ring 8 (v_used v) (v_seen v) Qu;
  vi_nodup : NoDup (Qa ++ dv_inflight d ++ Qu);
  vi_heads h : h ∈ Qa ++ dv_inflight d ++ Qu → ∃ p b w i1 i2, P !! p = Some (Wait b w h i1 i2);
  vi_wait p b w i0 i1 i2 : P !! p = Some (Wait b w i0 i1 i2) → wait_ok v (Qa ++ dv_inflight d) Qu b w i0 i1 i2;
  vi_owned i : idx i → v_free v !! Z.to_nat i = Some true → ∀ p x, P !! p = Some x → ¬ owns x i;
  vi_own1 p x q y i : P !! p = Some x → P !! q = Some y → owns x i → owns y i → p = q;
  vi_busy p x i : P !! p = Some x → owns x i → v_free v !! Z.to_nat i = Some false;
  vi_bufs1 p x q y : P !! p = Some x → P !! q = Some y → proc_buf x = proc_buf y → p = q;
  vi_bound p x : P !! p = Some x → (proc_buf x < length (v_bufs v))%nat;
  vi_good b x : v_bufs v !! b = Some x → good_block (vb_blockno x) (vb_data x)
}.

(** What the driver and the device changed, seen from a request elsewhere. *)
Lemma wait_frame v v' A A' Qu Qu' b w i0 i1 i2 : wait_ok v A Qu b w i0 i1 i2 →
  (∀ i, i = i0 ∨ i = i1 ∨ i = i2 → v_desc v' !! Z.to_nat i = v_desc v !! Z.to_nat i) →
  v_ops v' !! Z.to_nat i0 = v_ops v !! Z.to_nat i0 → v_info v' !! Z.to_nat i0 = v_info v !! Z.to_nat i0 → v_bufs v' !! b = v_bufs v !! b →
  (i0 ∈ A' ↔ i0 ∈ A) → (i0 ∈ Qu' ↔ i0 ∈ Qu) → wait_ok v' A' Qu' b w i0 i1 i2.
Proof.
  intros [Hi Hd H0 H1 H2 Hb] Hdesc Hops Hinfo Hbuf HA HQ. split; [done|done|rewrite Hdesc by auto; done..|]. destruct Hb as (bn & data & disk & st & ? & ? & ? & Hph). exists bn, data, disk, st. rewrite Hops, Hinfo, Hbuf, HA, HQ. done.
Qed.

(** A different process has other descriptors and another buffer. *)
Lemma other_wait v d P Qa Qu p q b w i0 i1 i2 x : vinv v d P Qa Qu → P !! p = Some (Wait b w i0 i1 i2) → P !! q = Some x → p ≠ q →
  (∀ i, i = i0 ∨ i = i1 ∨ i = i2 → ¬ owns x i) ∧ proc_buf x ≠ b.
Proof.
  intros Hi Hp Hq Hne. split.
  - intros i Hown Hx. apply Hne. by eapply (vi_own1 _ _ _ _ _ Hi p _ q x i).
  - intros Hb. apply Hne. by eapply (vi_bufs1 _ _ _ _ _ Hi p _ q x).
Qed.

(** Changes that only concern free descriptors and the wakeups. *)
Lemma vinv_free v d P Qa Qu desc' w' : vinv v d P Qa Qu → length desc' = 8%nat →
  (∀ i, idx i → v_free v !! Z.to_nat i = Some false → desc' !! Z.to_nat i = v_desc v !! Z.to_nat i) →
  vinv (VSt desc' (v_avail_idx v) (v_avail v) (v_used_idx v) (v_used v) (v_free v) (v_seen v) (v_info v) (v_ops v) (v_bufs v) w') d P Qa Qu.
Proof.
  intros Hi Hl Hd. split; cbn; try apply Hi; [done|].
  intros p b w i0 i1 i2 Hp. pose proof (vi_wait _ _ _ _ _ Hi _ _ _ _ _ _ Hp) as Hw. eapply wait_frame; [exact Hw| |done..].
  cbn. intros i Hown. apply Hd; [destruct Hw as [(? & ? & ?) _ _ _ _ _]; destruct Hown as [->|[->| ->]]; done|]. by eapply (vi_busy _ _ _ _ _ Hi p).
Qed.

(** ** Allocating descriptors *)

Lemma find_free (l : list bool) i x : list_find (λ x, x = true) l = Some (i, x) → l !! i = Some true ∧ (i < length l)%nat.
Proof. intros (Hi & -> & _)%list_find_Some. split; [done|]. by eapply lookup_lt_Some. Qed.

Lemma find_none (l : list bool) i : list_find (λ x, x = true) l = None → l !! i ≠ Some true.
Proof. intros Hn%list_find_None Hi. rewrite Forall_lookup in Hn. by apply (Hn i true). Qed.

Lemma free_desc_spec i s (Q : unit → vst → Prop) : idx i → length (v_free s) = 8%nat → v_free s !! Z.to_nat i = Some false →
  Q tt (VSt (<[Z.to_nat i := Desc ANull 0 0 0]> (v_desc s)) (v_avail_idx s) (v_avail s) (v_used_idx s) (v_used s) (<[Z.to_nat i := true]> (v_free s)) (v_seen s)
    (v_info s) (v_ops s) (v_bufs s) (v_woken s ++ [free_chan])) → wp (free_desc i) s Q.
Proof.
  intros Hi Hl Hf HQ. unfold free_desc, put_desc, vwakeup. change (Z.of_nat NUM) with 8. rewrite Z.geb_leb, (proj2 (Z.leb_gt 8 i)) by (unfold idx in Hi; lia).
  wp_steps. eapply wp_mnth; [exact Hf|]. wp_steps. done.
Qed.

(** Three descriptors that were free, or the state but for what free descriptors hold. *)
Lemma alloc3_spec s (Q : option (list Z) → vst → Prop) : length (v_free s) = 8%nat → length (v_desc s) = 8%nat →
  (∀ i0 i1 i2, idx i0 → idx i1 → idx i2 → i0 ≠ i1 → i0 ≠ i2 → i1 ≠ i2 →
     v_free s !! Z.to_nat i0 = Some true → v_free s !! Z.to_nat i1 = Some true → v_free s !! Z.to_nat i2 = Some true →
     Q (Some [i0; i1; i2]) (set_free (<[Z.to_nat i2 := false]> (<[Z.to_nat i1 := false]> (<[Z.to_nat i0 := false]> (v_free s)))) s)) →
  (∀ desc' w', length desc' = 8%nat → (∀ i, v_free s !! i = Some false → desc' !! i = v_desc s !! i) →
     Q None (VSt desc' (v_avail_idx s) (v_avail s) (v_used_idx s) (v_used s) (v_free s) (v_seen s) (v_info s) (v_ops s) (v_bufs s) w')) →
  wp alloc3_desc s Q.
Proof.
  intros Hlf Hld Hsome Hnone. unfold alloc3_desc, alloc3_loop, alloc_desc. wp_steps. cbn [app].
  destruct (list_find _ (v_free s)) as [[n0 x0]|] eqn:E0.
  2: { wp_steps. cbn. specialize (Hnone (v_desc s) (v_woken s)). destruct s. by apply Hnone. }
  apply find_free in E0 as [H0 L0]. wp_steps. rewrite (proj2 (Z.ltb_ge _ 0)) by lia. wp_steps. cbn [v_free set_free].
  destruct (list_find _ (<[n0 := false]> (v_free s))) as [[n1 x1]|] eqn:E1.
  2: { wp_steps. change (-1 <? 0) with true. cbv iota. cbn [mfor]. wp_steps. apply free_desc_spec; cbn.
    - unfold idx. lia.
    - by rewrite length_insert.
    - rewrite Nat2Z.id. apply list_lookup_insert_eq. lia.
    - wp_steps. rewrite Nat2Z.id, list_insert_insert_eq, (list_insert_id (v_free s)) by done. apply Hnone; [by rewrite length_insert|].
      intros i Hi. apply list_lookup_insert_ne. intros ->. congruence. }
  apply find_free in E1 as [H1 L1]. rewrite length_insert in L1. assert (n0 ≠ n1) as N01 by (intros ->; rewrite list_lookup_insert_eq in H1 by done; done).
  rewrite list_lookup_insert_ne in H1 by done. wp_steps. rewrite (proj2 (Z.ltb_ge _ 0)) by lia. wp_steps. cbn [v_free set_free].
  destruct (list_find _ (<[n1 := false]> _)) as [[n2 x2]|] eqn:E2.
  2: { wp_steps. change (-1 <? 0) with true. cbv iota. cbn [mfor]. wp_steps. apply free_desc_spec; cbn.
    - unfold idx. lia.
    - by rewrite !length_insert.
    - rewrite Nat2Z.id, list_lookup_insert_ne by done. apply list_lookup_insert_eq. lia.
    - wp_steps. apply free_desc_spec; cbn.
      + unfold idx. lia.
      + by rewrite !length_insert.
      + rewrite !Nat2Z.id, list_lookup_insert_ne by done. apply list_lookup_insert_eq. rewrite length_insert. lia.
      + wp_steps. rewrite !Nat2Z.id, (list_insert_insert_ne _ n0 n1), list_insert_insert_eq by done.
        rewrite (list_insert_insert_ne _ n1 n0), list_insert_insert_eq by done.
        rewrite (list_insert_id (v_free s) n0) by done. rewrite (list_insert_id (v_free s) n1) by done. apply Hnone; [by rewrite !length_insert|].
        intros i Hi. rewrite !list_lookup_insert_ne by (intros ->; congruence). done. }
  apply find_free in E2 as [H2 L2]. rewrite !length_insert in L2.
  assert (n1 ≠ n2) as N12 by (intros ->; rewrite list_lookup_insert_eq in H2 by (rewrite length_insert; done); done). rewrite list_lookup_insert_ne in H2 by done.
  assert (n0 ≠ n2) as N02 by (intros ->; rewrite list_lookup_insert_eq in H2 by done; done). rewrite list_lookup_insert_ne in H2 by done.
  wp_steps. rewrite (proj2 (Z.ltb_ge _ 0)) by lia. wp_steps.
  specialize (Hsome (Z.of_nat n0) (Z.of_nat n1) (Z.of_nat n2)). rewrite !Nat2Z.id in Hsome. apply Hsome; unfold idx; lia || done.
Qed.

(** ** Submitting a request *)

(** Block number and data of a buffer. *)
Definition plain (x : vbuf) : Z * list Z := (vb_blockno x, vb_data x).

Lemma plain_alter (f : vbuf → vbuf) b (l : list vbuf) : (∀ x, plain (f x) = plain x) → plain <$> alter f b l = plain <$> l.
Proof.
  intros Hf. apply list_eq. intros i. rewrite !list_lookup_fmap. destruct (decide (i = b)) as [->|Hne].
  - rewrite list_lookup_alter_eq. destruct (l !! b); cbn; [by rewrite Hf|done].
  - by rewrite list_lookup_alter_ne.
Qed.

(** The heads in the queues are indices of descriptors in use. *)
Lemma heads_idx v d P Qa Qu h : vinv v d P Qa Qu → h ∈ Qa ++ dv_inflight d ++ Qu → idx h ∧ v_free v !! Z.to_nat h = Some false.
Proof.
  intros Hi Hh. destruct (vi_heads _ _ _ _ _ Hi h Hh) as (p & b & w & i1 & i2 & Hp). destruct (vi_wait _ _ _ _ _ Hi _ _ _ _ _ _ Hp) as [(? & _) _ _ _ _ _].
  split; [done|]. eapply (vi_busy _ _ _ _ _ Hi p _ h Hp). by left.
Qed.

Lemma idx_count (l : list Z) : NoDup l → (∀ h, h ∈ l → idx h) → (length l ≤ 8)%nat.
Proof.
  intros Hnd Hl. change 8%nat with (length (seqZ 0 8)). apply submseteq_length, NoDup_submseteq; [done|].
  intros h Hh. apply elem_of_seqZ. specialize (Hl h Hh). unfold idx in Hl. lia.
Qed.

(** A head that is not there yet finds room. *)
Lemma queue_room v d P Qa Qu l i : vinv v d P Qa Qu → idx i → (i ∉ l) → l ⊆ Qa ++ dv_inflight d ++ Qu → NoDup l → (length l < 8)%nat.
Proof.
  intros Hi Hidx Hni Hsub Hnd. assert (length (i :: l) ≤ 8)%nat as H; [|cbn in H; lia]. apply idx_count; [by constructor|].
  intros h [->|Hh]%elem_of_cons; [done|]. by apply (heads_idx v d P Qa Qu h Hi), Hsub.
Qed.

(** The state after a request was put in the available ring. *)
Definition submitted (v : vst) (b : nat) (w : bool) (bn i0 i1 i2 : Z) : vst :=
  VSt (<[Z.to_nat i2 := Desc (AStatus i0) 1 2 0]>
      (<[Z.to_nat i1 := Desc (AData b) 1024 (Z.lor (if w then 0 else VRING_DESC_F_WRITE) VRING_DESC_F_NEXT) i2]>
      (<[Z.to_nat i0 := Desc (AOps i0) 16 VRING_DESC_F_NEXT i1]> (v_desc v))))
    (u16 (v_avail_idx v + 1)) (<[Z.to_nat (v_avail_idx v mod 8) := i0]> (v_avail v)) (v_used_idx v) (v_used v)
    (<[Z.to_nat i2 := false]> (<[Z.to_nat i1 := false]> (<[Z.to_nat i0 := false]> (v_free v)))) (v_seen v)
    (alter (λ x, Info (Some b) (i_status x)) (Z.to_nat i0) (alter (λ x, Info (i_b x) 255) (Z.to_nat i0) (v_info v)))
    (<[Z.to_nat i0 := Req (if w then VIRTIO_BLK_T_OUT else VIRTIO_BLK_T_IN) 0 (u32 (bn * 2))]> (v_ops v))
    (alter (λ x, VBuf (vb_blockno x) (vb_data x) 1) b (v_bufs v)) (v_woken v).

Section submit.
Context (v : vst) (d : vdev D) (P : gmap nat vproc) (Qa Qu : list Z) (p b : nat) (w : bool) (i0 i1 i2 : Z).
Context (Hi : vinv v d P Qa Qu) (Hp : P !! p = Some (Want b w)).
Context (I0 : idx i0) (I1 : idx i1) (I2 : idx i2) (N01 : i0 ≠ i1) (N02 : i0 ≠ i2) (N12 : i1 ≠ i2).
Context (F0 : v_free v !! Z.to_nat i0 = Some true) (F1 : v_free v !! Z.to_nat i1 = Some true) (F2 : v_free v !! Z.to_nat i2 = Some true).

Lemma submit_not_owned q x i : P !! q = Some x → i = i0 ∨ i = i1 ∨ i = i2 → ¬ owns x i.
Proof. intros Hq [->|[->| ->]]; by eapply (vi_owned _ _ _ _ _ Hi). Qed.

Lemma submit_fresh : i0 ∉ Qa ++ dv_inflight d ++ Qu.
Proof. intros Hin. destruct (heads_idx _ _ _ _ _ _ Hi Hin). congruence. Qed.

Lemma submit_wait bn data disk : v_bufs v !! b = Some (VBuf bn data disk) →
  wait_ok (submitted v b w bn i0 i1 i2) ((Qa ++ [i0]) ++ dv_inflight d) Qu b w i0 i1 i2.
Proof.
  intros Hb. pose proof (idx_ne _ _ I0 I1 N01). pose proof (idx_ne _ _ I0 I2 N02). pose proof (idx_ne _ _ I1 I2 N12).
  pose proof (vi_desc _ _ _ _ _ Hi) as Ld. unfold idx in *. split; cbn; [done|done|..].
  - rewrite !list_lookup_insert_ne by done. apply list_lookup_insert_eq. lia.
  - rewrite list_lookup_insert_ne by done. rewrite list_lookup_insert_eq by (rewrite length_insert; lia). by destruct w.
  - apply list_lookup_insert_eq. rewrite !length_insert. lia.
  - exists bn, data, 1, 255. rewrite list_lookup_alter_eq, Hb. cbn. split; [done|].
    split; [rewrite list_lookup_insert_eq by (rewrite (vi_ops _ _ _ _ _ Hi); lia); do 2 f_equal|split].
    + destruct (vi_good _ _ _ _ _ Hi b _ Hb) as [? _]. cbn in *. wordlia.
    + destruct (lookup_lt_is_Some_2 (v_info v) (Z.to_nat i0)) as [x Hx]; [rewrite (vi_info _ _ _ _ _ Hi); lia|].
      rewrite !list_lookup_alter_eq, Hx. done.
    + left. split; [|done]. rewrite !elem_of_app. left. right. left.
Qed.

Lemma vinv_submit bn data disk : v_bufs v !! b = Some (VBuf bn data disk) →
  vinv (submitted v b w bn i0 i1 i2) d (<[p := Wait b w i0 i1 i2]> P) (Qa ++ [i0]) Qu.
Proof.
  intros Hb. pose proof submit_fresh as Hfr. pose proof submit_not_owned as Hnot.
  split; cbn; rewrite ?length_insert, ?length_alter; try apply Hi.
  - rewrite (vi_avail _ _ _ _ _ Hi), length_app. cbn. wordlia.
  - rewrite (vi_avail _ _ _ _ _ Hi). assert (∀ x, u16 x mod 8 = x mod 8) as -> by (intros; apply Z.mod_mod_divide; by exists 8192).
    apply (ring_push 8 ltac:(lia)); [apply Hi|]. eapply (queue_room _ _ _ _ _ Qa i0 Hi I0); [rewrite elem_of_app in Hfr; tauto|by intros ? ?; apply elem_of_app; left|].
    pose proof (vi_nodup _ _ _ _ _ Hi) as Hnd. by apply NoDup_app in Hnd as [? _].
  - rewrite <-app_assoc. apply NoDup_app. pose proof (vi_nodup _ _ _ _ _ Hi) as Hnd. apply NoDup_app in Hnd as (H1 & H2 & H3). split_and!; [done| |].
    + intros x Hx [->|Hin]%elem_of_cons; [apply Hfr, elem_of_app; by left|]. by apply (H2 x).
    + constructor; [|done]. intros Hin. apply Hfr, elem_of_app. by right.
  - intros h Hh. destruct (decide (h = i0)) as [->|Hne].
    + exists p, b, w, i1, i2. by rewrite lookup_insert_eq.
    + destruct (vi_heads _ _ _ _ _ Hi h) as (q & b' & w' & j1 & j2 & Hq).
      { rewrite <-app_assoc, elem_of_app in Hh. apply elem_of_app. destruct Hh as [?|[?|?]%elem_of_cons]; [by left|done|by right]. }
      exists q, b', w', j1, j2. rewrite lookup_insert_ne; [done|]. intros ->. congruence.
  - intros q b' w' j0 j1 j2. destruct (decide (q = p)) as [->|Hne].
    + rewrite lookup_insert_eq. intros [= <- <- <- <- <-]. by eapply submit_wait.
    + rewrite lookup_insert_ne by done. intros Hq. pose proof (vi_wait _ _ _ _ _ Hi _ _ _ _ _ _ Hq) as Hw. destruct (wo_idx _ _ _ _ _ _ _ _ Hw) as (J0 & J1 & J2).
      assert (∀ j, j = j0 ∨ j = j1 ∨ j = j2 → Z.to_nat i0 ≠ Z.to_nat j ∧ Z.to_nat i1 ≠ Z.to_nat j ∧ Z.to_nat i2 ≠ Z.to_nat j) as Hj.
      { intros j Hown. assert (idx j) as J by (destruct Hown as [->|[->| ->]]; done).
        split_and!; (apply idx_ne; [done..|]); intros <-; (eapply Hnot; [exact Hq| |exact Hown]); auto. }
      destruct (Hj j0 ltac:(auto)) as (? & ? & ?). eapply wait_frame; [exact Hw|..]; cbn.
      * intros i Hown. destruct (Hj i Hown) as (? & ? & ?). by rewrite !list_lookup_insert_ne.
      * by rewrite list_lookup_insert_ne.
      * by rewrite !list_lookup_alter_ne.
      * apply list_lookup_alter_ne. intros ->. apply Hne. eapply (vi_bufs1 _ _ _ _ _ Hi q _ p); [exact Hq|exact Hp|done].
      * rewrite !elem_of_app, list_elem_of_singleton. split; [|tauto]. intros [[?|Heq]|?]; [by left| |by right]. by subst j0.
      * done.
  - intros i Hidx Hf q x Hq. destruct (decide (i = i0 ∨ i = i1 ∨ i = i2)) as [Hin|Hin].
    + exfalso. assert (∀ (l : list bool) n, (n < length l)%nat → <[n := false]> l !! n = Some false) as Hins by (intros; by apply list_lookup_insert_eq).
      pose proof (vi_free _ _ _ _ _ Hi) as Lf. unfold idx in *.
      destruct Hin as [->|[->| ->]]; [rewrite 2 list_lookup_insert_ne in Hf by lia|rewrite list_lookup_insert_ne in Hf by lia|]; rewrite Hins in Hf; rewrite ?length_insert; lia || done.
    + assert (v_free v !! Z.to_nat i = Some true) as Hf' by (rewrite !list_lookup_insert_ne in Hf by (unfold idx in *; lia); done).
      destruct (decide (q = p)) as [->|Hne]; [rewrite lookup_insert_eq in Hq; injection Hq as <-; cbn; tauto|].
      rewrite lookup_insert_ne in Hq by done. by eapply (vi_owned _ _ _ _ _ Hi).
  - intros q x q' y i Hq Hq' Hx Hy.
    apply lookup_insert_Some in Hq as [[<- <-]|[Hne Hq]]; apply lookup_insert_Some in Hq' as [[<- <-]|[Hne' Hq']]; [done| | |].
    + destruct (Hnot q' y i Hq'); [exact Hx|done].
    + destruct (Hnot q x i Hq); [exact Hy|done].
    + by eapply (vi_own1 _ _ _ _ _ Hi).
  - intros q x i Hq Hx. pose proof (vi_free _ _ _ _ _ Hi) as Lf. unfold idx in *.
    assert (∀ (l : list bool) n m, l !! m = Some false → <[n := false]> l !! m = Some false) as Hins.
    { intros l n m Hm. destruct (decide (n = m)) as [->|?]; [apply list_lookup_insert_eq; by eapply lookup_lt_Some|by rewrite list_lookup_insert_ne]. }
    apply lookup_insert_Some in Hq as [[<- <-]|[Hne Hq]].
    + destruct Hx as [->|[->| ->]]; [apply Hins, Hins|apply Hins|]; apply list_lookup_insert_eq; rewrite ?length_insert; lia.
    + do 3 apply Hins. by eapply (vi_busy _ _ _ _ _ Hi).
  - intros q x q' y Hq Hq' Heq.
    apply lookup_insert_Some in Hq as [[<- <-]|[Hne Hq]]; apply lookup_insert_Some in Hq' as [[<- <-]|[Hne' Hq']]; [done| | |].
    + by apply (vi_bufs1 _ _ _ _ _ Hi p (Want b w) q' y).
    + by apply (vi_bufs1 _ _ _ _ _ Hi q x p (Want b w)).
    + by eapply (vi_bufs1 _ _ _ _ _ Hi).
  - intros q x Hq. apply lookup_insert_Some in Hq as [[<- <-]|[Hne Hq]]; [by apply (vi_bound _ _ _ _ _ Hi p (Want b w))|by eapply (vi_bound _ _ _ _ _ Hi)].
  - intros b' x Hx. destruct (decide (b' = b)) as [->|Hne].
    + rewrite list_lookup_alter_eq, Hb in Hx. injection Hx as <-. cbn. by apply (vi_good _ _ _ _ _ Hi b _ Hb).
    + rewrite list_lookup_alter_ne in Hx by done. by eapply (vi_good _ _ _ _ _ Hi).
Qed.
End submit.

Lemma rw_submit_spec v d P Qa Qu p b w (Q : option (Z * Z * Z) → vst → Prop) : vinv v d P Qa Qu → P !! p = Some (Want b w) →
  (∀ i0 i1 i2 v', vinv v' d (<[p := Wait b w i0 i1 i2]> P) (Qa ++ [i0]) Qu → (∀ q b' w' i1' i2', P !! q ≠ Some (Wait b' w' i0 i1' i2')) →
     plain <$> v_bufs v' = plain <$> v_bufs v → Q (Some (i0, i1, i2)) v') →
  (∀ v', vinv v' d P Qa Qu → v_bufs v' = v_bufs v → Q None v') →
  wp (rw_submit b w) v Q.
Proof.
  intros Hi Hp Hsome Hnone. unfold rw_submit. wp_steps.
  destruct (lookup_lt_is_Some_2 (v_bufs v) b (vi_bound _ _ _ _ _ Hi p _ Hp)) as [[bn data disk] Hb]. eapply wp_mnth; [exact Hb|]. wp_steps.
  apply alloc3_spec; [apply Hi|apply Hi| |].
  2: { intros desc' w' Hl Hd. wp_steps. apply Hnone; [|done]. apply vinv_free; [done|done|]. intros i _ Hf. by apply Hd. }
  intros i0 i1 i2 I0 I1 I2 N01 N02 N12 F0 F1 F2. wp_steps. unfold put_desc, put_info, put_buf. wp_steps.
  eapply Hsome.
  - exact (vinv_submit v d P Qa Qu p b w i0 i1 i2 Hi Hp I0 I1 I2 N01 N02 N12 F0 F1 F2 bn data disk Hb).
  - intros q b' w' j1 j2 Hq. eapply (vi_owned _ _ _ _ _ Hi i0 I0 F0 q _ Hq). by left.
  - cbn. by apply plain_alter.
Qed.
End inv.
