(* ===== verification/VirtioSim.v ===== *)
(** * The disk driver serves requests one by one

    How returning from [virtio_disk_rw], the interrupt handler and the device keep
    the invariant, and the simulation. *)
From Stdlib Require Import ZArith Lia.
From stdpp Require Import prelude gmap strings.
From S2P Require Import Prelude BufIface Ring Virtio VirtioInv.
Local Open Scope Z_scope.

Section sim.
Context {D : Type} `{DD : DiskDev D} `{DL : !DiskLaws D}.

(** ** Returning *)
Definition returned (v : vst) (i0 i1 i2 : Z) (wk : list chan) : vst :=
  VSt (<[Z.to_nat i2 := Desc ANull 0 0 0]> (<[Z.to_nat i1 := Desc ANull 0 0 0]> (<[Z.to_nat i0 := Desc ANull 0 0 0]> (v_desc v))))
    (v_avail_idx v) (v_avail v) (v_used_idx v) (v_used v)
    (<[Z.to_nat i2 := true]> (<[Z.to_nat i1 := true]> (<[Z.to_nat i0 := true]> (v_free v)))) (v_seen v)
    (alter (λ x, Info None (i_status x)) (Z.to_nat i0) (v_info v)) (v_ops v) (v_bufs v) wk.

Lemma vinv_return v (d : vdev D) P Qa Qu p b w i0 i1 i2 wk : vinv v d P Qa Qu → P !! p = Some (Wait b w i0 i1 i2) →
  (i0 ∉ Qa ++ dv_inflight d) → (i0 ∉ Qu) → vinv (returned v i0 i1 i2 wk) d (delete p P) Qa Qu.
Proof.
  intros Hi Hp HA HQ. pose proof (vi_wait _ _ _ _ _ Hi _ _ _ _ _ _ Hp) as [(I0 & I1 & I2) _ _ _ _ _].
  assert (∀ q x i, P !! q = Some x → q ≠ p → owns x i → idx i ∧ i ≠ i0 ∧ i ≠ i1 ∧ i ≠ i2) as Hoth.
  { intros q x i Hq Hne Hx. destruct (other_wait _ _ _ _ _ _ _ _ _ _ _ _ _ Hi Hp Hq (not_eq_sym Hne)) as [Hno _].
    assert (idx i) as I. { destruct x as [|b' w' j0 j1 j2]; [done|]. destruct (vi_wait _ _ _ _ _ Hi _ _ _ _ _ _ Hq) as [(? & ? & ?) _ _ _ _ _]. destruct Hx as [->|[->| ->]]; done. }
    split_and!; [done|..]; intros ->; (eapply Hno; [|exact Hx]); auto. }
  split; cbn; rewrite ?length_insert, ?length_alter; try apply Hi.
  - intros h Hh. destruct (vi_heads _ _ _ _ _ Hi h Hh) as (q & b' & w' & j1 & j2 & Hq). exists q, b', w', j1, j2. rewrite lookup_delete_ne; [done|].
    intros ->. rewrite Hq in Hp. injection Hp as _ _ -> _ _. rewrite (assoc_L app), elem_of_app in Hh. tauto.
  - intros q b' w' j0 j1 j2 [Hne Hq]%lookup_delete_Some. pose proof (vi_wait _ _ _ _ _ Hi _ _ _ _ _ _ Hq) as Hw.
    assert (∀ j, j = j0 ∨ j = j1 ∨ j = j2 → Z.to_nat i0 ≠ Z.to_nat j ∧ Z.to_nat i1 ≠ Z.to_nat j ∧ Z.to_nat i2 ≠ Z.to_nat j) as Hj.
    { intros j Hown. destruct (Hoth q _ j Hq (not_eq_sym Hne) Hown) as (? & ? & ? & ?). unfold idx in *. lia. }
    destruct (Hj j0 ltac:(auto)) as (? & ? & ?). eapply wait_frame; [exact Hw|..]; cbn; [|done| |done..].
    + intros i Hown. destruct (Hj i Hown) as (? & ? & ?). by rewrite !list_lookup_insert_ne.
    + by rewrite list_lookup_alter_ne.
  - intros i Hidx Hf q x [Hne Hq]%lookup_delete_Some Hx. destruct (Hoth q x i Hq (not_eq_sym Hne) Hx) as (_ & ? & ? & ?). unfold idx in *.
    rewrite !list_lookup_insert_ne in Hf by lia. eapply (vi_owned _ _ _ _ _ Hi i Hidx Hf q x); done.
  - intros q x q' y i [_ Hq]%lookup_delete_Some [_ Hq']%lookup_delete_Some. by apply (vi_own1 _ _ _ _ _ Hi).
  - intros q x i [Hne Hq]%lookup_delete_Some Hx. destruct (Hoth q x i Hq (not_eq_sym Hne) Hx) as (? & ? & ? & ?). unfold idx in *.
    rewrite !list_lookup_insert_ne by lia. by eapply (vi_busy _ _ _ _ _ Hi).
  - intros q x q' y [_ Hq]%lookup_delete_Some [_ Hq']%lookup_delete_Some. by apply (vi_bufs1 _ _ _ _ _ Hi).
  - intros q x [_ Hq]%lookup_delete_Some. by eapply (vi_bound _ _ _ _ _ Hi).
Qed.

Lemma free_chain_step fuel i s d (Q : unit → vst → Prop) : idx i → length (v_free s) = 8%nat → v_free s !! Z.to_nat i = Some false → v_desc s !! Z.to_nat i = Some d →
  (let s' := VSt (<[Z.to_nat i := Desc ANull 0 0 0]> (v_desc s)) (v_avail_idx s) (v_avail s) (v_used_idx s) (v_used s) (<[Z.to_nat i := true]> (v_free s)) (v_seen s)
     (v_info s) (v_ops s) (v_bufs s) (v_woken s ++ [free_chan]) in
   if negb (Z.land (d_flags d) 1 =? 0) then wp (free_chain fuel (d_next d)) s' Q else Q tt s') →
  wp (free_chain (S fuel) i) s Q.
Proof.
  intros Hi Hl Hf Hd HQ. cbn [free_chain]. wp_steps. eapply wp_mnth; [exact Hd|]. wp_step. apply free_desc_spec; [done..|]. unfold VRING_DESC_F_NEXT.
  cbv zeta in HQ. destruct (negb _); [done|]. by wp_steps.
Qed.

Lemma rw_wait_spec v (d : vdev D) P Qa Qu p b w i0 i1 i2 (Q : bool → vst → Prop) : vinv v d P Qa Qu → P !! p = Some (Wait b w i0 i1 i2) →
  Q false v → 
  (∀ v', vinv v' d (delete p P) Qa Qu → (i0 ∉ Qa ++ dv_inflight d) → v_bufs v' = v_bufs v → Q true v') →
  wp (rw_wait b i0) v Q.
Proof.
  intros Hi Hp Hf Ht. pose proof (vi_wait _ _ _ _ _ Hi _ _ _ _ _ _ Hp) as [(I0 & I1 & I2) (N01 & N02 & N12) D0 D1 D2 (bn & data & disk & st & Hb & _ & _ & Hph)].
  unfold rw_wait. wp_steps. eapply wp_mnth; [exact Hb|]. cbn [vb_disk]. destruct (Z.eqb_spec disk 1) as [->|Hd]; [by wp_steps|].
  assert ((i0 ∉ Qa ++ dv_inflight d) ∧ (i0 ∉ Qu)) as [HA HQ] by (destruct Hph as [[? ?]|[(? & ? & ?)|(? & ? & ?)]]; done).
  unfold put_info. wp_steps. pose proof (vi_free _ _ _ _ _ Hi) as Lf.
  pose proof (vi_busy _ _ _ _ _ Hi p _ i0 Hp ltac:(by left)) as B0. pose proof (vi_busy _ _ _ _ _ Hi p _ i1 Hp ltac:(by right; left)) as B1.
  pose proof (vi_busy _ _ _ _ _ Hi p _ i2 Hp ltac:(by right; right)) as B2.
  pose proof (idx_ne _ _ I0 I1 N01). pose proof (idx_ne _ _ I0 I2 N02). pose proof (idx_ne _ _ I1 I2 N12).
  change NUM with 8%nat. eapply free_chain_step; cbn -[free_chain]; [exact I0|exact Lf|exact B0|exact D0|]. cbn -[free_chain].
  eapply free_chain_step; cbn -[free_chain]; [exact I1|by rewrite length_insert|by rewrite list_lookup_insert_ne|rewrite list_lookup_insert_ne by done; exact D1|].
  assert (negb (Z.land (d_flags (Desc (AData b) 1024 (if w then 1 else 3) i2)) 1 =? 0) = true) as -> by (by destruct w). cbn -[free_chain].
  eapply free_chain_step; cbn -[free_chain]; [exact I2|by rewrite !length_insert|by rewrite !list_lookup_insert_ne|rewrite !list_lookup_insert_ne by done; exact D2|]. cbn -[free_chain].
  wp_steps. apply Ht; [|done|done]. exact (vinv_return v d P Qa Qu p b w i0 i1 i2 _ Hi Hp HA HQ).
Qed.

(** ** The interrupt handler *)
Lemma vinv_seen v (d : vdev D) P Qa Qu p b w i0 i1 i2 bn data wk : vinv v d P Qa (i0 :: Qu) → P !! p = Some (Wait b w i0 i1 i2) →
  v_bufs v !! b = Some (VBuf bn data 1) →
  vinv (VSt (v_desc v) (v_avail_idx v) (v_avail v) (v_used_idx v) (v_used v) (v_free v) (u16 (v_seen v + 1)) (v_info v) (v_ops v)
     (alter (λ x, VBuf (vb_blockno x) (vb_data x) 0) b (v_bufs v)) wk) d P Qa Qu.
Proof.
  intros Hi Hp Hb. pose proof (vi_nodup _ _ _ _ _ Hi) as Hnd. rewrite (assoc_L app) in Hnd. apply NoDup_app in Hnd as (H1 & H2 & [H3 H4]%NoDup_cons).
  pose proof (vi_uring _ _ _ _ _ Hi) as Hring. destruct (ring_head 8 ltac:(lia) _ _ _ _ Hring) as [_ Hring'].
  split; cbn; rewrite ?length_alter; try apply Hi.
  - pose proof (vi_seen _ _ _ _ _ Hi). wordlia.
  - rewrite (vi_used _ _ _ _ _ Hi). cbn [length]. wordlia.
  - eapply ring_mod; [|exact Hring']. change (Z.of_nat 8) with 8. symmetry. apply Z.mod_mod_divide. by exists 8192.
  - rewrite (assoc_L app). apply NoDup_app. split_and!; [done| |done]. intros x Hx Hin. apply (H2 x Hx). by right.
  - intros h Hh. apply (vi_heads _ _ _ _ _ Hi). rewrite !elem_of_app in *. rewrite elem_of_cons. tauto.
  - intros q b' w' j0 j1 j2 Hq. pose proof (vi_wait _ _ _ _ _ Hi _ _ _ _ _ _ Hq) as Hw. destruct (decide (q = p)) as [->|Hne].
    + rewrite Hp in Hq. injection Hq as <- <- <- <- <-. destruct Hw as [? ? ? ? ? (bn' & data' & disk & st & Hb' & Ho & Hinf & _)]. split; cbn; [done..|].
      exists bn', data', 0, st. rewrite list_lookup_alter_eq, Hb'. cbn. split_and!; [done..|]. right. right. split_and!; [|done|done]. intros Hin. apply (H2 i0 Hin). left.
    + destruct (other_wait _ _ _ _ _ _ _ _ _ _ _ _ _ Hi Hp Hq (not_eq_sym Hne)) as [Hno Hbuf]. cbn in Hbuf.
      eapply wait_frame; [exact Hw|..]; cbn; [done|done|done|by apply list_lookup_alter_ne|done|].
      rewrite elem_of_cons. split; [auto|]. intros [->|?]; [|done]. exfalso. eapply (Hno i0); [by left|by left].
  - intros b' x Hx. destruct (decide (b' = b)) as [->|Hne].
    + rewrite list_lookup_alter_eq, Hb in Hx. injection Hx as <-. by apply (vi_good _ _ _ _ _ Hi b _ Hb).
    + rewrite list_lookup_alter_ne in Hx by done. by eapply (vi_good _ _ _ _ _ Hi).
Qed.

Lemma intr_loop_spec fuel (d : vdev D) P Qa : ∀ Qu v (Q : unit → vst → Prop), (length Qu < fuel)%nat → vinv v d P Qa Qu →
  (∀ v', vinv v' d P Qa [] → plain <$> v_bufs v' = plain <$> v_bufs v → Q tt v') → wp (intr_loop fuel) v Q.
Proof.
  induction fuel as [|fuel IH]; intros Qu v Q Hf Hi HQ; [lia|]. cbn [intr_loop]. wp_steps.
  pose proof (vi_uring _ _ _ _ _ Hi) as Hring. pose proof Hring as (_ & Hl & _). pose proof (vi_seen _ _ _ _ _ Hi) as Hs. rewrite (vi_used _ _ _ _ _ Hi).
  destruct Qu as [|h Qu].
  { rewrite (proj2 (Z.eqb_eq _ _)) by (cbn; wordlia). wp_steps. by apply HQ. }
  rewrite (proj2 (Z.eqb_neq _ _)) by (cbn [length] in *; wordlia). destruct (ring_head 8 ltac:(lia) _ _ _ _ Hring) as [Hh _].
  wp_step. eapply wp_mnth; [exact Hh|]. destruct (vi_heads _ _ _ _ _ Hi h) as (p & b & w & i1 & i2 & Hp); [rewrite !elem_of_app, elem_of_cons; tauto|].
  pose proof (vi_wait _ _ _ _ _ Hi _ _ _ _ _ _ Hp) as [_ _ _ _ _ (bn & data & disk & st & Hb & _ & Hinf & Hph)].
  pose proof (vi_nodup _ _ _ _ _ Hi) as Hnd. rewrite (assoc_L app) in Hnd. apply NoDup_app in Hnd as (_ & H2 & _).
  assert (disk = 1 ∧ st = 0) as [-> ->].
  { destruct Hph as [[Hin _]|[(_ & ? & ?)|(_ & Hin & _)]]; [destruct (H2 h Hin); left|done|destruct Hin; left]. }
  wp_step. eapply wp_mnth; [exact Hinf|]. cbn. unfold put_buf, vwakeup. wp_steps.
  apply (IH Qu); [cbn in Hf; lia|exact (vinv_seen v d P Qa Qu p b w h i1 i2 bn data _ Hi Hp Hb)|].
  cbn. intros v' Hi' Hpl. apply HQ; [done|]. rewrite Hpl. by apply plain_alter.
Qed.

Lemma intr_spec v (d : vdev D) P Qa Qu (Q : unit → vst → Prop) : vinv v d P Qa Qu →
  (∀ v', vinv v' d P Qa [] → plain <$> v_bufs v' = plain <$> v_bufs v → Q tt v') → wp virtio_disk_intr v Q.
Proof. intros Hi. apply (intr_loop_spec _ d P Qa Qu); [|done]. pose proof (vi_uring _ _ _ _ _ Hi) as (_ & ? & _). change NUM with 8%nat. lia. Qed.

(** ** The device *)
Lemma request_ok v A Qu b w i0 i1 i2 bn data disk : wait_ok v A Qu b w i0 i1 i2 → v_bufs v !! b = Some (VBuf bn data disk) →
  request v i0 = Some (b, w, bn, i0).
Proof.
  intros [_ _ H0 H1 H2 (bn' & data' & disk' & st & Hb & Ho & _ & _)] Hb'. rewrite Hb in Hb'. injection Hb' as -> -> ->.
  unfold request. rewrite H0, Ho, H1, H2. rewrite Z.mul_comm, Z.mod_mul, Z.div_mul by lia. by destruct w.
Qed.

Lemma vinv_fetch v (d : vdev D) P h Qa Qu : vinv v d P (h :: Qa) Qu →
  vinv v (VDev (u16 (dv_last d + 1)) (h :: dv_inflight d) (dv_disk d)) P Qa Qu.
Proof.
  intros Hi. pose proof (vi_aring _ _ _ _ _ Hi) as Hring. destruct (ring_head 8 ltac:(lia) _ _ _ _ Hring) as [_ Hring'].
  pose proof (vi_last _ _ _ _ _ Hi) as Hl. split; cbn; try apply Hi.
  - wordlia.
  - rewrite (vi_avail _ _ _ _ _ Hi). cbn [length]. wordlia.
  - eapply ring_mod; [|exact Hring']. change (Z.of_nat 8) with 8. symmetry. apply Z.mod_mod_divide. by exists 8192.
  - eapply NoDup_Permutation_proper; [|apply (vi_nodup _ _ _ _ _ Hi)]. cbn. symmetry. apply Permutation_middle.
  - intros x Hx. apply (vi_heads _ _ _ _ _ Hi). cbn. rewrite ?elem_of_app, ?elem_of_cons, ?elem_of_app in *. tauto.
  - intros p b w i0 i1 i2 Hp. eapply wait_frame; [by eapply (vi_wait _ _ _ _ _ Hi)|done..| |done]. rewrite ?elem_of_app, ?elem_of_cons, ?elem_of_app. tauto.
Qed.

Lemma vinv_complete v (d : vdev D) P Qa Qu l1 h l2 p b w i1 i2 bn data disk data' (D' : D) : vinv v d P Qa Qu →
  dv_inflight d = l1 ++ h :: l2 → P !! p = Some (Wait b w h i1 i2) → v_bufs v !! b = Some (VBuf bn data disk) → length data' = BLK →
  vinv (set_used (u16 (v_used_idx v + 1)) (<[Z.to_nat (v_used_idx v mod 8) := h]> (v_used v))
         (set_info (alter (λ x, Info (i_b x) 0) (Z.to_nat h) (v_info v))
           (set_bufs (alter (λ x, VBuf (vb_blockno x) data' (vb_disk x)) b (v_bufs v)) v)))
    (VDev (dv_last d) (l1 ++ l2) D') P Qa (Qu ++ [h]).
Proof.
  intros Hi Hfl Hp Hb Hdata. pose proof (vi_nodup _ _ _ _ _ Hi) as Hnd. rewrite Hfl in Hnd.
  assert (NoDup (h :: Qa ++ (l1 ++ l2) ++ Qu)) as Hnd'.
  { eapply NoDup_Permutation_proper; [|exact Hnd]. solve_Permutation. }
  apply NoDup_cons in Hnd' as [Hfr Hnd']. rewrite !elem_of_app in Hfr.
  assert (∀ x, x ∈ Qa ++ dv_inflight d ↔ x = h ∨ x ∈ Qa ++ (l1 ++ l2)) as HA.
  { intros x. rewrite Hfl, !elem_of_app, elem_of_cons. tauto. }
  destruct (heads_idx _ _ _ _ _ h Hi) as [Ih _]; [rewrite (assoc_L app), elem_of_app; left; apply HA; by left|].
  split; cbn; rewrite ?length_insert, ?length_alter; try apply Hi.
  - rewrite (vi_used _ _ _ _ _ Hi), length_app. cbn. wordlia.
  - rewrite (vi_used _ _ _ _ _ Hi). assert (∀ x, u16 x mod 8 = x mod 8) as -> by (intros; apply Z.mod_mod_divide; by exists 8192).
    apply (ring_push 8 ltac:(lia)); [apply Hi|]. eapply (queue_room _ _ _ _ _ Qu h Hi Ih); [tauto|by intros ? ?; rewrite !elem_of_app; auto|].
    rewrite (assoc_L app) in Hnd'. by apply NoDup_app in Hnd' as (_ & _ & ?).
  - rewrite !(assoc_L app). rewrite (assoc_L app) in Hnd'. apply NoDup_app. apply NoDup_app in Hnd' as (? & ? & ?). split_and!; [|..].
    + apply NoDup_app. rewrite (assoc_L app) in *. split_and!; [done|done|done].
    + intros x Hx Hin%list_elem_of_singleton. subst x. rewrite !elem_of_app in Hx. tauto.
    + apply NoDup_singleton.
  - intros x Hx. apply (vi_heads _ _ _ _ _ Hi). rewrite (assoc_L app), elem_of_app. rewrite (assoc_L app), !(elem_of_app _ _ x) in Hx. rewrite HA, !elem_of_app.
    rewrite list_elem_of_singleton in Hx. tauto.
  - intros q b' w' j0 j1 j2 Hq. pose proof (vi_wait _ _ _ _ _ Hi _ _ _ _ _ _ Hq) as Hw. destruct (decide (q = p)) as [->|Hne].
    + rewrite Hp in Hq. injection Hq as <- <- <- <- <-. destruct Hw as [? ? ? ? ? (bn' & dat & dsk & st & Hb' & Ho & Hinf & Hph)]. split; cbn; [done..|].
      rewrite Hb in Hb'. injection Hb' as <- <- <-. exists bn, data', disk, 0. rewrite !list_lookup_alter_eq, Hb, Hinf. cbn. split_and!; [done..|].
      right. left. split_and!; [apply elem_of_app; right; left| |done]. destruct Hph as [[? ?]|[(? & ? & ?)|(Hin & _)]]; [done|done|]. destruct Hin. apply HA. by left.
    + destruct (other_wait _ _ _ _ _ _ _ _ _ _ _ _ _ Hi Hp Hq (not_eq_sym Hne)) as [Hno Hbuf]. cbn in Hbuf.
      assert (h ≠ j0) as Hhj by (intros <-; eapply (Hno h); [by left|by left]). destruct (wo_idx _ _ _ _ _ _ _ _ Hw) as (J0 & _).
      eapply wait_frame; [exact Hw|..]; cbn; [done|done|apply list_lookup_alter_ne; unfold idx in *; lia|by apply list_lookup_alter_ne|..].
      * rewrite HA. split; [auto|]. intros [?|?]; [by subst|done].
      * rewrite elem_of_app, list_elem_of_singleton. split; [|auto]. intros [?|?]; [done|by subst].
  - intros b' x Hx. destruct (decide (b' = b)) as [->|Hne].
    + rewrite list_lookup_alter_eq, Hb in Hx. injection Hx as <-. cbn. destruct (vi_good _ _ _ _ _ Hi b _ Hb). done.
    + rewrite list_lookup_alter_ne in Hx by done. by eapply (vi_good _ _ _ _ _ Hi).
Qed.

(** ** Simulation *)

(** What a process inside [virtio_disk_rw] is to the disk that serves requests; [A]:
    the requests that are with the device. *)
Definition acall (A : list Z) (x : vproc) : bool * nat * bool :=
  match x with Want b w => (false, b, w) | Wait b w i0 _ _ => (bool_decide (i0 ∉ A), b, w) end.

Definition abs (v : vst) (d : vdev D) (P : gmap nat vproc) (Qa : list Z) : aconf D :=
  AConf (dv_disk d) (plain <$> v_bufs v) (acall (Qa ++ dv_inflight d) <$> P).

Lemma acall_ext A A' (P : gmap nat vproc) : (∀ p b w i0 i1 i2, P !! p = Some (Wait b w i0 i1 i2) → (i0 ∈ A ↔ i0 ∈ A')) → acall A <$> P = acall A' <$> P.
Proof.
  intros HA. apply map_fmap_ext. intros p [b w|b w i0 i1 i2] Hp; [done|]. cbn. do 2 f_equal. apply bool_decide_ext. by rewrite (HA _ _ _ _ _ _ Hp).
Qed.

Lemma acall_buf A x : (acall A x).1.2 = proc_buf x.
Proof. by destruct x. Qed.

Lemma abs_unused A (P : gmap nat vproc) b : unused P b → a_unused (acall A <$> P) b.
Proof. intros Hu p x. rewrite lookup_fmap. destruct (P !! p) eqn:Hp; [|done]. intros [= <-]. rewrite acall_buf. by eapply Hu. Qed.

Context (dev_step : vst * vdev D → option vlabel → vst * vdev D → Prop).
Context (dev_ok : ∀ x l y, dev_step x l y → device_spec x l y).

Definition amatch (a : aconf D) (l : option vlabel) (a' : aconf D) : Prop := match l with None => a' = a | Some l => astep a l a' end.

Lemma sim_dev v d P Qa Qu l v' d' : vinv v d P Qa Qu → dev_step (v, d) l (v', d') →
  ∃ Qa' Qu', vinv v' d' P Qa' Qu' ∧ amatch (abs v d P Qa) l (abs v' d' P Qa').
Proof.
  intros Hi Hs. apply dev_ok in Hs. inversion Hs as [s0 d0 h Hne Hh|s0 d0 l1 h l2 b w blk j buf Hfl Hrq Hb|s0 d0 h l0 x Hin Hrq]; subst.
  - destruct Qa as [|h' Qa].
    { exfalso. apply Hne. rewrite (vi_avail _ _ _ _ _ Hi). pose proof (vi_last _ _ _ _ _ Hi). cbn. wordlia. }
    destruct (ring_head 8 ltac:(lia) _ _ _ _ (vi_aring _ _ _ _ _ Hi)) as [Hh' _]. change (Z.of_nat 8) with 8 in Hh'. rewrite Hh in Hh'. injection Hh' as ->.
    exists Qa, Qu. split; [by apply vinv_fetch|]. unfold amatch, abs. cbn. f_equal. apply acall_ext. intros. rewrite ?elem_of_app, ?elem_of_cons, ?elem_of_app. tauto.
  - destruct (vi_heads _ _ _ _ _ Hi h) as (p & b' & w' & i1 & i2 & Hp); [rewrite Hfl, !elem_of_app, elem_of_cons; tauto|].
    pose proof (vi_wait _ _ _ _ _ Hi _ _ _ _ _ _ Hp) as Hw. destruct (wo_buf _ _ _ _ _ _ _ _ Hw) as (bn & dat & disk & st & Hb' & _).
    rewrite (request_ok _ _ _ _ _ _ _ _ _ _ _ Hw Hb') in Hrq. injection Hrq as <- <- <- <-. rewrite Hb' in Hb. injection Hb as <-. cbn [vb_data] in *.
    destruct (vi_good _ _ _ _ _ Hi b' _ Hb') as [_ Hdl]. cbn in Hdl.
    exists Qa, (Qu ++ [h]). split; [eapply vinv_complete; [done..|]; destruct w'; [done|apply dread_length]|].
    pose proof (vi_nodup _ _ _ _ _ Hi) as Hnd. rewrite Hfl in Hnd.
    assert (h ∉ Qa ++ l1 ++ l2) as Hni.
    { rewrite (assoc_L app) in Hnd. apply NoDup_app in Hnd as (Hnd & _ & _). intros Hin. rewrite (assoc_L app) in Hnd.
      rewrite <-(Permutation_middle (Qa ++ l1) l2 h), NoDup_cons in Hnd. rewrite <-(assoc_L app) in Hnd. tauto. }
    unfold amatch, abs. cbn. rewrite Hfl.
    assert (acall (Qa ++ l1 ++ l2) <$> P = <[p := (true, b', w')]> (acall (Qa ++ l1 ++ h :: l2) <$> P)) as ->.
    { apply map_eq. intros q. rewrite lookup_fmap. destruct (decide (q = p)) as [->|Hne].
      - rewrite lookup_insert_eq, Hp. cbn. by rewrite bool_decide_eq_true_2.
      - rewrite lookup_insert_ne, lookup_fmap by done. destruct (P !! q) as [[|b w i0 j1 j2]|] eqn:Hq; cbn; [done| |done]. do 3 f_equal. apply bool_decide_ext.
        assert (i0 ≠ h) as Hnh. { destruct (other_wait _ _ _ _ _ _ _ _ _ _ _ _ _ Hi Hp Hq (not_eq_sym Hne)) as [Hno _]. intros ->. eapply (Hno h); by left. }
        rewrite !elem_of_app, elem_of_cons. tauto. }
    replace (plain <$> alter _ b' (v_bufs v)) with (<[b' := (bn, if w' then dat else dread (dv_disk d) bn)]> (plain <$> v_bufs v)).
    { apply a_op; [rewrite lookup_fmap, Hp; cbn; by rewrite bool_decide_eq_false_2 by (rewrite !elem_of_app, elem_of_cons; tauto)|rewrite list_lookup_fmap, Hb'; done]. }
    apply list_eq. intros i. rewrite list_lookup_fmap. destruct (decide (i = b')) as [->|Hne].
    + rewrite list_lookup_insert_eq by (rewrite length_fmap; by eapply lookup_lt_Some). by rewrite list_lookup_alter_eq, Hb'.
    + by rewrite list_lookup_insert_ne, list_lookup_alter_ne, list_lookup_fmap by done.
  - exfalso. destruct (vi_heads _ _ _ _ _ Hi h) as (p & b' & w' & i1 & i2 & Hp); [rewrite !elem_of_app; tauto|].
    pose proof (vi_wait _ _ _ _ _ Hi _ _ _ _ _ _ Hp) as Hw. destruct (wo_buf _ _ _ _ _ _ _ _ Hw) as (bn & dat & disk & st & Hb' & _).
    by rewrite (request_ok _ _ _ _ _ _ _ _ _ _ _ Hw Hb') in Hrq.
Qed.

Lemma vinv_call v (d : vdev D) P Qa Qu p b w : vinv v d P Qa Qu → P !! p = None → (b < length (v_bufs v))%nat → unused P b →
  vinv v d (<[p := Want b w]> P) Qa Qu.
Proof.
  intros Hi Hp Hb Hu. split; try apply Hi.
  - intros h Hh. destruct (vi_heads _ _ _ _ _ Hi h Hh) as (q & b' & w' & j1 & j2 & Hq). exists q, b', w', j1, j2. rewrite lookup_insert_ne; [done|congruence].
  - intros q b' w' j0 j1 j2 [[_ ?]|[_ Hq]]%lookup_insert_Some; [done|by apply (vi_wait _ _ _ _ _ Hi q)].
  - intros i I Hf q x [[_ <-]|[_ Hq]]%lookup_insert_Some; [by intros []|by eapply (vi_owned _ _ _ _ _ Hi)].
  - intros q x q' y i [[_ <-]|[_ Hq]]%lookup_insert_Some; [by intros _ []|]. intros [[_ <-]|[_ Hq']]%lookup_insert_Some; [by intros _ []|by eapply (vi_own1 _ _ _ _ _ Hi)].
  - intros q x i [[_ <-]|[_ Hq]]%lookup_insert_Some; [by intros []|by eapply (vi_busy _ _ _ _ _ Hi)].
  - intros q x q' y [[<- <-]|[_ Hq]]%lookup_insert_Some [[<- <-]|[_ Hq']]%lookup_insert_Some Heq; [done| | |by eapply (vi_bufs1 _ _ _ _ _ Hi)].
    + by destruct (Hu q' y Hq').
    + by destruct (Hu q x Hq).
  - intros q x [[_ <-]|[_ Hq]]%lookup_insert_Some; [done|by eapply (vi_bound _ _ _ _ _ Hi)].
Qed.

Lemma vinv_buf v (d : vdev D) P Qa Qu b bn data k : vinv v d P Qa Qu → unused P b → good_block bn data →
  vinv (set_bufs (<[b := VBuf bn data k]> (v_bufs v)) v) d P Qa Qu.
Proof.
  intros Hi Hu Hg. split; cbn; rewrite ?length_insert; try apply Hi.
  - intros p b' w i0 i1 i2 Hp. eapply wait_frame; [by eapply (vi_wait _ _ _ _ _ Hi)|done..| |done|done]. cbn. apply list_lookup_insert_ne. intros <-. by apply (Hu p _ Hp).
  - intros b' x [(-> & <- & _)|[_ Hx]]%list_lookup_insert_Some; [done|by eapply (vi_good _ _ _ _ _ Hi)].
Qed.

Lemma sim_step v d P Qa Qu l c : vinv v d P Qa Qu → vstep dev_step (Conf v d P) l c →
  ∃ Qa' Qu', vinv (c_v c) (c_d c) (c_p c) Qa' Qu' ∧ amatch (abs v d P Qa) l (abs (c_v c) (c_d c) (c_p c) Qa').
Proof.
  intros Hi Hs.
  inversion Hs as [v0 d0 P0 p b w Hp Hb Hu|v0 d0 P0 b bn data x Hb Hu Hg|v0 d0 P0 p b w i0 i1 i2 v1 Hp Hr|v0 d0 P0 p b w v1 Hp Hr|
    v0 d0 P0 p b w i0 i1 i2 v1 Hp Hr|v0 d0 P0 p b w i0 i1 i2 v1 Hp Hr|v0 d0 P0 v1 Hr|v0 d0 P0 l0 v1 d1 Hd]; subst; cbn [c_v c_d c_p].
  - exists Qa, Qu. split; [by apply vinv_call|]. cbn. unfold abs. rewrite fmap_insert. cbn. apply a_call; [by rewrite lookup_fmap, Hp|by rewrite length_fmap|by apply abs_unused].
  - exists Qa, Qu. split; [by apply vinv_buf|]. cbn. unfold abs. cbn. rewrite list_fmap_insert. cbn. apply a_buf; [by apply abs_unused|rewrite length_fmap; by eapply lookup_lt_Some].
  - assert (wp (rw_submit b w) v (λ r v', r = Some (i0, i1, i2) → v' = v1 →
      vinv v' d (<[p := Wait b w i0 i1 i2]> P) (Qa ++ [i0]) Qu ∧ abs v' d (<[p := Wait b w i0 i1 i2]> P) (Qa ++ [i0]) = abs v d P Qa)) as Hwp.
    { eapply rw_submit_spec; [exact Hi|exact Hp| |done]. intros j0 j1 j2 v' Hi' Hno Hpl [= -> -> ->] _. split; [done|]. unfold abs. rewrite Hpl. f_equal.
      rewrite fmap_insert. cbn. rewrite bool_decide_eq_false_2 by (rewrite !elem_of_app, list_elem_of_singleton; tauto).
      rewrite <-(acall_ext (Qa ++ dv_inflight d) ((Qa ++ [i0]) ++ dv_inflight d)).
      - apply insert_id. by rewrite lookup_fmap, Hp.
      - intros q b' w' k0 k1 k2 Hq. rewrite !elem_of_app, list_elem_of_singleton. split; [tauto|]. intros [[?| ->]|?]; [tauto| |tauto]. by destruct (Hno _ _ _ _ _ Hq). }
    apply wp_Ret in Hwp as (r & v' & He & HQ). rewrite Hr in He. injection He as <- <-. destruct (HQ eq_refl eq_refl). by exists (Qa ++ [i0]), Qu.
  - assert (wp (rw_submit b w) v (λ r v', r = None → vinv v' d P Qa Qu ∧ v_bufs v' = v_bufs v)) as Hwp by (eapply rw_submit_spec; [exact Hi|exact Hp|done|done]).
    apply wp_Ret in Hwp as (r & v' & He & HQ). rewrite Hr in He. injection He as <- <-. destruct (HQ eq_refl) as [? Hb]. exists Qa, Qu. split; [done|]. unfold amatch, abs. by rewrite Hb.
  - assert (wp (rw_wait b i0) v (λ r v', r = false → v' = v)) as Hwp by (eapply rw_wait_spec; [exact Hi|exact Hp|done|done]).
    apply wp_Ret in Hwp as (r & v' & He & HQ). rewrite Hr in He. injection He as <- <-. rewrite (HQ eq_refl). by exists Qa, Qu.
  - assert (wp (rw_wait b i0) v (λ r v', r = true → vinv v' d (delete p P) Qa Qu ∧ (i0 ∉ Qa ++ dv_inflight d) ∧ v_bufs v' = v_bufs v)) as Hwp
      by (eapply rw_wait_spec; [exact Hi|exact Hp|done|done]).
    apply wp_Ret in Hwp as (r & v' & He & HQ). rewrite Hr in He. injection He as <- <-. destruct (HQ eq_refl) as (? & Hni & Hb). exists Qa, Qu. split; [done|].
    cbn. unfold abs. rewrite Hb, fmap_delete. eapply (a_ret _ _ _ _ b w). rewrite lookup_fmap, Hp. cbn. by rewrite bool_decide_eq_true_2.
  - assert (wp virtio_disk_intr v (λ _ v', vinv v' d P Qa [] ∧ plain <$> v_bufs v' = plain <$> v_bufs v)) as Hwp by (eapply intr_spec; [exact Hi|done]).
    apply wp_Ret in Hwp as (r & v' & He & HQ & Hb). rewrite Hr in He. injection He as <- <-. exists Qa, []. split; [done|]. unfold amatch, abs. by rewrite Hb.
  - by eapply sim_dev.
Qed.

(** No function of the driver panics or fails to return. *)
Lemma vinv_returns v (d : vdev D) P Qa Qu : vinv v d P Qa Qu →
  (∀ p b w, P !! p = Some (Want b w) → ∃ r v', rw_submit b w v = Ret r v') ∧
  (∀ p b w i0 i1 i2, P !! p = Some (Wait b w i0 i1 i2) → ∃ r v', rw_wait b i0 v = Ret r v') ∧
  ∃ v', virtio_disk_intr v = Ret tt v'.
Proof.
  intros Hi. split_and!.
  - intros p b w Hp. assert (wp (rw_submit b w) v (λ _ _, True)) as Hwp by (by eapply rw_submit_spec). apply wp_Ret in Hwp as (r & v' & ? & _). eauto.
  - intros p b w i0 i1 i2 Hp. assert (wp (rw_wait b i0) v (λ _ _, True)) as Hwp by (by eapply rw_wait_spec). apply wp_Ret in Hwp as (r & v' & ? & _). eauto.
  - assert (wp virtio_disk_intr v (λ _ _, True)) as Hwp by (by eapply intr_spec). apply wp_Ret in Hwp as ([] & v' & ? & _). eauto.
Qed.

Lemma sim_run v d P Qa Qu tr c : vinv v d P Qa Qu → vrun dev_step (Conf v d P) tr c →
  ∃ Qa' Qu', vinv (c_v c) (c_d c) (c_p c) Qa' Qu' ∧ arun (abs v d P Qa) tr (abs (c_v c) (c_d c) (c_p c) Qa').
Proof.
  intros Hi. induction 1 as [|tr [v1 d1 P1] c2 _ (Qa1 & Qu1 & Hi1 & Ha1) Hs|tr [v1 d1 P1] l c2 _ (Qa1 & Qu1 & Hi1 & Ha1) Hs].
  - exists Qa, Qu. split; [done|constructor].
  - destruct (sim_step _ _ _ _ _ _ _ Hi1 Hs) as (Qa2 & Qu2 & Hi2 & Hm). cbn in Hm. exists Qa2, Qu2. split; [done|]. by rewrite Hm.
  - destruct (sim_step _ _ _ _ _ _ _ Hi1 Hs) as (Qa2 & Qu2 & Hi2 & Hm). exists Qa2, Qu2. split; [done|]. by eapply arun_label.
Qed.
End sim.

(** ** From the initialisation on *)
Section theorem.
Context {D : Type} `{DD : DiskDev D} `{DL : !DiskLaws D} {R : Type} `{VR : VirtioMmio R}.

(** The state that [virtio_disk_init] leaves. *)
Lemma init_state desc avail used bufs (r r' : R) v : virtio_disk_init desc avail used bufs r = Ret v r' →
  v = VSt (replicate NUM (Desc ANull 0 0 0)) 0 (replicate NUM 0) 0 (replicate NUM 0) (replicate NUM true) 0
        (replicate NUM (Info None 0)) (replicate NUM (Req 0 0 0)) bufs [].
Proof.
  unfold virtio_disk_init, mbind, M_bind. cbn -[mfor]. repeat (case_match; cbn -[mfor]; try done); try (intros [= <- _]; done); intros; simplify_eq; done.
Qed.

Lemma init_inv desc avail used bufs (r r' : R) v (disk : D) : virtio_disk_init desc avail used bufs r = Ret v r' →
  Forall (λ x, good_block (vb_blockno x) (vb_data x)) bufs → vinv v (VDev 0 [] disk) ∅ [] [].
Proof.
  intros ->%init_state Hg. split; cbn; try done; try lia.
  - split_and!; [done|cbn; lia|cbn; lia].
  - split_and!; [done|cbn; lia|cbn; lia].
  - constructor.
  - by intros h ?%elem_of_nil.
  - intros b x Hx. by apply (Forall_lookup_1 _ _ _ _ Hg Hx).
Qed.

End theorem.

(** ** One write, from the call to the return *)
Module VirtioDemo.
(** Registers that read as qemu's do. *)
#[export] Instance demo_regs : VirtioMmio (Z → Z) := {|
  vread := λ r d, d r;
  vwrite := λ r v d x, if x =? r then v else d x
|}.
Definition regs : Z → Z := λ r,
  if r =? 0 then 1953655158 else if r =? 4 then 2 else if r =? 8 then 2 else if r =? 12 then 1431127377 else if r =? 52 then 1024 else 0.

Definition demo_bufs : list vbuf := [VBuf 7 (replicate 1024 5) 0].
Definition after {A} (m : M vst A) (s : vst) : vst := match m s with Ret _ s' => s' | _ => s end.

Definition s0 : vst := match virtio_disk_init 4096 8192 12288 demo_bufs regs with Ret s _ => s | _ => VSt [] 0 [] 0 [] [] 0 [] [] [] [] end.
Definition s1 : vst := after (rw_submit 0 true) s0.
Definition s2 : vst :=
  set_used (u16 (v_used_idx s1 + 1)) (<[Z.to_nat (v_used_idx s1 mod 8) := 0]> (v_used s1))
    (set_info (alter (λ x, Info (i_b x) 0) (Z.to_nat 0) (v_info s1))
      (set_bufs (alter (λ x, VBuf (vb_blockno x) (replicate 1024 5) (vb_disk x)) 0%nat (v_bufs s1)) s1)).
Definition s3 : vst := after virtio_disk_intr s2.
Definition s4 : vst := after (rw_wait 0 0) s3.

Lemma demo_run : vrun device_spec (Conf s0 (VDev 0 [] (∅ : block_map)) ∅) [LCall 0 0 true; LOp 0 true; LRet 0]
  (Conf s4 (VDev 1 [] (dwrite (∅ : block_map) 7 (replicate 1024 5))) (delete 0%nat (<[0%nat := Wait 0 true 0 1 2]> (<[0%nat := Want 0 true]> ∅)))).
Proof.
  change [LCall 0 0 true; LOp 0 true; LRet 0] with ((([] ++ [LCall 0 0 true]) ++ [LOp 0 true]) ++ [LRet 0]).
  eapply vrun_label; [eapply vrun_silent; [eapply vrun_label; [eapply vrun_silent; [eapply vrun_silent; [eapply vrun_label; [apply vrun_nil|]|]|]|]|]|].
  - apply v_call; [done|vm_compute; lia|done].
  - apply (v_submit device_spec s0 _ _ 0%nat 0%nat true 0 1 2 s1); [apply lookup_insert_eq|vm_compute; reflexivity].
  - apply v_dev, (dev_fetch s1 (VDev 0 [] ∅) 0); [vm_compute; discriminate|vm_compute; reflexivity].
  - apply v_dev. apply (dev_complete s1 (VDev 1 [0] ∅) [] 0 [] 0%nat true 7 0 (VBuf 7 (replicate 1024 5) 1)); vm_compute; reflexivity.
  - apply (v_intr device_spec s2 _ _ s3). vm_compute. reflexivity.
  - apply (v_return device_spec s3 _ _ 0%nat 0%nat true 0 1 2 s4); [apply lookup_insert_eq|vm_compute; reflexivity].
Qed.

End VirtioDemo.
