(* ===== verification/User.v ===== *)
(** * User programs: how they run and what they ask of the kernel

    A user program is a function from the state of the system to an outcome:
    it returns, exits with a status, touches memory it must not, or the bound
    given to one of its loops was too small. The system calls it makes are the
    class [Sys]; [streams] is an instance in which descriptors are byte streams
    that deliver their contents in pieces of any size. *)
From Stdlib Require Import ZArith Lia.
From stdpp Require Import prelude gmap strings.
From S2P Require Import Prelude Bytes Str Fs.

Inductive uoutcome (S A : Type) : Type :=
| URet (a : A) (s : S)
| UExit (status : Z) (s : S)
| UFault
| UNoFuel.
Arguments URet {S A} a s.
Arguments UExit {S A} status s.
Arguments UFault {S A}.
Arguments UNoFuel {S A}.

Definition U (S A : Type) : Type := S → uoutcome S A.

#[export] Instance U_ret {S} : MRet (U S) := λ A a s, URet a s.
#[export] Instance U_bind {S} : MBind (U S) := λ A B f m s,
  match m s with
  | URet a s' => f a s'
  | UExit c s' => UExit c s'
  | UFault => UFault
  | UNoFuel => UNoFuel
  end.

Definition uexit {S A} (status : Z) : U S A := λ s, UExit status s.
Definition ufault {S A} : U S A := λ _, UFault.
Definition unofuel {S A} : U S A := λ _, UNoFuel.
Definition uget {S} : U S S := λ s, URet s s.
Definition umodify {S} (f : S → S) : U S unit := λ s, URet tt (f s).
Definition uwhen {S} (c : bool) (m : U S unit) : U S unit := if c then m else mret tt.

(** [for(x in l) body] *)
Fixpoint ufor {S A} (l : list A) (body : A → U S unit) : U S unit :=
  match l with
  | [] => mret tt
  | x :: l' => body x ;; ufor l' body
  end.

(** ** Total correctness *)

(** From [s], [m] returns with [Q] or exits with [E]. *)
Definition uwp {S A} (m : U S A) (s : S) (Q : A → S → Prop) (E : Z → S → Prop) : Prop :=
  match m s with URet a s' => Q a s' | UExit c s' => E c s' | _ => False end.

Section uwp_rules.
Context {S : Type}.
Implicit Types s : S.

Lemma uwp_bind {A B} (m : U S A) (k : A → U S B) s Q E :
  uwp m s (λ a s', uwp (k a) s' Q E) E → uwp (m ≫= k) s Q E.
Proof. unfold uwp, mbind, U_bind. by destruct (m s). Qed.

Lemma uwp_ret {A} (a : A) s (Q : A → S → Prop) E : Q a s → uwp (mret a) s Q E.
Proof. done. Qed.

Lemma uwp_exit {A} c s (Q : A → S → Prop) (E : Z → S → Prop) : E c s → uwp (uexit c) s Q E.
Proof. done. Qed.

Lemma uwp_get s (Q : S → S → Prop) E : Q s s → uwp uget s Q E.
Proof. done. Qed.

Lemma uwp_modify (f : S → S) s (Q : unit → S → Prop) E : Q tt (f s) → uwp (umodify f) s Q E.
Proof. done. Qed.

Lemma uwp_mono {A} (m : U S A) s (P Q : A → S → Prop) (E F : Z → S → Prop) :
  uwp m s P E → (∀ a s', P a s' → Q a s') → (∀ c s', E c s' → F c s') → uwp m s Q F.
Proof. unfold uwp. destruct (m s); naive_solver. Qed.

Lemma uwp_URet {A} (m : U S A) s (Q : A → S → Prop) :
  uwp m s Q (λ _ _, False) ↔ ∃ a s', m s = URet a s' ∧ Q a s'.
Proof. unfold uwp. split; [destruct (m s); naive_solver|by intros (? & ? & -> & ?)]. Qed.

Lemma uwp_UExit {A} (m : U S A) s (E : Z → S → Prop) :
  uwp m s (λ _ _, False) E ↔ ∃ c s', m s = UExit c s' ∧ E c s'.
Proof. unfold uwp. split; [destruct (m s); naive_solver|by intros (? & ? & -> & ?)]. Qed.
End uwp_rules.

Ltac uwp_step :=
  lazymatch goal with
  | |- uwp (_ ≫= _) _ _ _ => apply uwp_bind
  | |- uwp (mret _) _ _ _ => apply uwp_ret
  | |- uwp (uexit _) _ _ _ => apply uwp_exit
  | |- uwp uget _ _ _ => apply uwp_get
  | |- uwp (umodify _) _ _ _ => apply uwp_modify
  end; cbv beta.
Ltac uwp_steps := repeat uwp_step.

(** ** Characters and strings *)

(** The characters of a literal. *)
Definition chars (s : string) : list Z := (λ a, Z.of_N (Ascii.N_of_ascii a)) <$> String.list_ascii_of_string s.

(** A newline at the end of a literal. *)
Definition NL : string := String (Ascii.ascii_of_nat 10) EmptyString.

(** [*s], for a pointer into a null-terminated string given by its rest. *)
Definition hd0 (s : list Z) : Z := match s with [] => 0 | c :: _ => c end.

(** The null-terminated string at the beginning of some bytes. *)
Fixpoint cut0 (l : list Z) : list Z :=
  match l with
  | [] => []
  | c :: l => if c =? 0 then [] else c :: cut0 l
  end.

Lemma cut0_app x l : (0 ∉ x) → cut0 (x ++ 0 :: l) = x.
Proof.
  induction x as [|c x IH]; intros Hx; [done|]. apply not_elem_of_cons in Hx as [Hc Hx]. cbn.
  destruct (Z.eqb_spec c 0); [congruence|]. by rewrite IH.
Qed.

(** ** System calls *)

(** What user/usys.pl makes of the calls of user/user.h that the programs here
    use. [read] gives the value returned and the bytes stored. *)
Class Sys (S : Type) := {
  read : Z → nat → U S (Z * list Z);
  write : Z → list Z → U S Z;
  open : list Z → Z → U S Z;
  close : Z → U S Z
}.

(** The calls on files as such, and [kill]. *)
Class SysFiles (S : Type) := {
  fstat : Z → U S (Z * stat);
  unlink : list Z → U S Z;
  link : list Z → list Z → U S Z;
  mkdir : list Z → U S Z;
  chmod : list Z → Z → U S Z;
  kill : Z → U S Z
}.

(** The calls on the current directory and on the process table: of each process,
    its number, state and name. *)
Class SysMisc (S : Type) := {
  chdir : list Z → U S Z;
  getprocs : U S (Z * list (Z * Z * list Z))
}.

(** Descriptors as streams: [s_in fd] is what is still to be read from [fd], in
    the pieces in which it arrives; [s_out] what was written, call by call;
    [s_files] what [open] finds under a name. *)
Record streams := Streams {
  s_in : gmap Z (list (list Z));
  s_out : list (Z * list Z);
  s_files : gmap (list Z) (list (list Z));
  s_next : Z
}.

Definition pieces (s : streams) (fd : Z) : list (list Z) := default [] (s_in s !! fd).
Definition set_in (fd : Z) (ps : list (list Z)) (s : streams) : streams :=
  Streams (<[fd := ps]> (s_in s)) (s_out s) (s_files s) (s_next s).
Definition add_out (fd : Z) (bs : list Z) (s : streams) : streams :=
  Streams (s_in s) (s_out s ++ [(fd, bs)]) (s_files s) (s_next s).

(** A read of [n] bytes takes at most the next piece; with no piece left, or
    none asked for, it returns 0. *)
Definition stream_read (fd : Z) (n : nat) : U streams (Z * list Z) := λ s,
  match pieces s fd with
  | [] => URet (0, []) s
  | p :: ps =>
      let got := take n p in
      URet (Z.of_nat (length got), got) (set_in fd (if decide (drop n p = []) then ps else drop n p :: ps) s)
  end.

#[export] Instance stream_sys : Sys streams := {|
  read := stream_read;
  write := λ fd bs s, URet (Z.of_nat (length bs)) (add_out fd bs s);
  open := λ path _ s,
    match s_files s !! path with
    | None => URet (-1) s
    | Some ps => URet (s_next s) (Streams (<[s_next s := ps]> (s_in s)) (s_out s) (s_files s) (s_next s + 1))
    end;
  close := λ fd s, URet 0 (Streams (delete fd (s_in s)) (s_out s) (s_files s) (s_next s))
|}.

(** Everything still to be read from [fd], and everything written to it. *)
Definition input (s : streams) (fd : Z) : list Z := concat (pieces s fd).
Definition output (s : streams) (fd : Z) : list Z := concat (snd <$> filter (λ p, p.1 = fd) (s_out s)).

(** No piece is empty: an empty one would read as the end of the file. *)
Definition live (s : streams) (fd : Z) : Prop := [] ∉ pieces s fd.

Lemma output_add s fd bs fd' : output (add_out fd bs s) fd' = output s fd' ++ if decide (fd = fd') then bs else [].
Proof.
  unfold output, add_out. cbn [s_out]. rewrite filter_app, fmap_app, concat_app. f_equal.
  rewrite filter_cons, filter_nil. cbn [fst]. case_decide; cbn; by rewrite ?app_nil_r.
Qed.

Lemma output_set_in fd ps s fd' : output (set_in fd ps s) fd' = output s fd'.
Proof. done. Qed.

Lemma pieces_set_in fd ps s : pieces (set_in fd ps s) fd = ps.
Proof. unfold pieces, set_in. cbn. by rewrite lookup_insert_eq. Qed.

Lemma pieces_set_in_ne fd fd' ps s : fd ≠ fd' → pieces (set_in fd ps s) fd' = pieces s fd'.
Proof. intros. unfold pieces, set_in. cbn. by rewrite lookup_insert_ne. Qed.

Lemma pieces_add_out fd bs s fd' : pieces (add_out fd bs s) fd' = pieces s fd'.
Proof. done. Qed.

(** A read either takes some bytes off the front of the input, or there are
    none. *)
Lemma stream_read_spec s fd n (Q : Z * list Z → streams → Prop) E :
  live s fd → (0 < n)%nat →
  (∀ got s', got ≠ [] → (length got ≤ n)%nat → input s fd = got ++ input s' fd →
     live s' fd → s_out s' = s_out s → (∀ fd', fd' ≠ fd → pieces s' fd' = pieces s fd') → s_files s' = s_files s → s_next s' = s_next s →
     Q (Z.of_nat (length got), got) s') →
  (input s fd = [] → Q (0, []) s) →
  uwp (read fd n) s Q E.
Proof.
  unfold live, input. intros Hl Hn Hsome Hnone. unfold uwp. cbn. unfold stream_read.
  destruct (pieces s fd) as [|p ps] eqn:Ep; [by apply Hnone|].
  assert (p ≠ []) as Hp by (intros ->; apply Hl; left).
  apply Hsome; [|by rewrite length_take; lia|..].
  - destruct p; [done|]. by destruct n; [lia|].
  - rewrite pieces_set_in. cbn. rewrite <-(take_drop n p) at 1. case_decide as Hd; [by rewrite Hd, app_nil_r|].
    by rewrite <-app_assoc.
  - rewrite pieces_set_in. case_decide; [by intros ?; apply Hl; right|].
    rewrite elem_of_cons. intros [?|?]; [done|]. apply Hl. by right.
  - done.
  - intros. by rewrite pieces_set_in_ne.
  - done.
  - done.
Qed.
