(* ===== verification/Ulib.v ===== *)
(** * The user library: user/ulib.c

    A pointer to a null-terminated string is the list of the characters from it
    to the null byte, so that [*s] is [hd0 s] and [s++] the tail; [memset],
    [memmove], [memcmp] and [memcpy] work on the memory of Str. Characters are
    unsigned, as they are on RISC-V. *)
From Stdlib Require Import ZArith Lia.
From stdpp Require Import prelude gmap strings.
From S2P Require Import Prelude Bytes Param Str Fs User.

(** The bytes [strcpy(s, t)] stores at [s], [s+1], ... *)
Fixpoint strcpy (t : list Z) : list Z :=
  match t with
  | [] => [0]
  | c :: t => c :: strcpy t
  end.

Fixpoint strcmp (p q : list Z) : Z :=
  match p with
  | [] => 0 - u8 (hd0 q)
  | c :: p' => if c =? hd0 q then strcmp p' (tail q) else u8 c - u8 (hd0 q)
  end.

Fixpoint strlen_loop (s : list Z) (n : Z) : Z :=
  match s with
  | [] => n
  | _ :: s => strlen_loop s (s32 (n + 1))
  end.
Definition strlen (s : list Z) : Z := u32 (strlen_loop s 0).

(** [i] is an [int] that is compared with a [uint]. *)
Definition memset (m : mem) (dst c : Z) (n : nat) : mem :=
  foldl (λ m i, st m (dst + Z.of_nat i) c) m (seq 0 n).

(** The rest of the string from the first [c] on. *)
Fixpoint strchr (s : list Z) (c : Z) : option (list Z) :=
  match s with
  | [] => None
  | x :: s' => if x =? c then Some s else strchr s' c
  end.

Fixpoint atoi_loop (s : list Z) (n : Z) : Z :=
  match s with
  | c :: s' => if (48 <=? c) && (c <=? 57) then atoi_loop s' (s32 (n * 10 + c - 48)) else n
  | [] => n
  end.
Definition atoi (s : list Z) : Z := atoi_loop s 0.

Definition memmove (m : mem) (vdst vsrc n : Z) : mem :=
  if vsrc >? vdst then copy_up m vdst vsrc (Z.to_nat n) else copy_down m vdst vsrc (Z.to_nat n).

Fixpoint memcmp (p q : ptr) (n : nat) : Z :=
  match n with
  | O => 0
  | Datatypes.S n => if p O =? q O then memcmp (advance p 1) (advance q 1) n else p O - q O
  end.

Definition memcpy (m : mem) (dst src n : Z) : mem := memmove m dst src (s32 n).

Section calls.
Context {S : Type} `{Sys S}.

(** [i + 1 < max] holds at most [max] times. [buf] is what was stored. *)
Fixpoint gets_loop (fuel : nat) (max : Z) (buf : list Z) : U S (list Z) :=
  match fuel with
  | O => unofuel
  | Datatypes.S fuel =>
      if Z.of_nat (length buf) + 1 <? max then
        r ← read 0 1;
        if fst r <? 1 then mret buf else
        let c := hd0 (snd r) in
        if (c =? 10) || (c =? 13) then mret (buf ++ [c]) else gets_loop fuel max (buf ++ [c])
      else mret buf
  end.

(** The bytes stored in the buffer. *)
Definition gets (max : Z) : U S (list Z) :=
  l ← gets_loop (Datatypes.S (Z.to_nat max)) max [];
  mret (l ++ [0]).

(** [stat], which shares its name with the struct. *)
Definition ulib_stat `{SysFiles S} (n : list Z) : U S (Z * option stat) :=
  fd ← open n O_RDONLY;
  if fd <? 0 then mret (-1, None) else
  r ← fstat fd;
  close fd ;;
  mret (fst r, Some (snd r)).
End calls.

(** ** What they compute *)

Lemma strcpy_app t : strcpy t = t ++ [0].
Proof. induction t as [|c t IH]; [done|]. cbn. by rewrite IH. Qed.

Lemma strcmp_eq p q : (∀ c, c ∈ p ++ q → 0 < c < 256) → strcmp p q = 0 ↔ p = q.
Proof.
  revert q. induction p as [|c p IH]; intros q Hc; cbn [strcmp].
  - destruct q as [|d q]; cbn [hd0]; [done|]. specialize (Hc d ltac:(left)). rewrite u8_small by lia. split; [lia|done].
  - pose proof (Hc c ltac:(left)). destruct q as [|d q]; cbn [hd0 tail].
    + destruct (Z.eqb_spec c 0); [lia|]. rewrite !u8_small by lia. split; [lia|done].
    + pose proof (Hc d ltac:(cbn; right; apply elem_of_app; right; left)).
      destruct (Z.eqb_spec c d) as [->|].
      * rewrite IH; [split; congruence|]. intros x Hx. apply Hc. apply elem_of_app in Hx as [|]; cbn; right; apply elem_of_app; [by left|right; by right].
      * rewrite !u8_small by lia. split; [lia|congruence].
Qed.

Lemma strlen_length s : Z.of_nat (length s) < 2147483648 → strlen s = Z.of_nat (length s).
Proof.
  intros Hs. assert (∀ k, 0 ≤ k → k + Z.of_nat (length s) < 2147483648 → strlen_loop s k = k + Z.of_nat (length s)) as H.
  { clear Hs. induction s as [|c s IH]; intros k Hk Hs; cbn [strlen_loop length] in *; [lia|].
    rewrite s32_small by lia. rewrite IH by lia. lia. }
  unfold strlen. rewrite H by lia. rewrite u32_small by lia. lia.
Qed.

Lemma strchr_Some s c r : strchr s c = Some r → ∃ pre r', r = c :: r' ∧ s = pre ++ r ∧ c ∉ pre.
Proof.
  induction s as [|x s IH]; [done|]. cbn. destruct (Z.eqb_spec x c) as [->|].
  - intros [= <-]. exists [], s. split_and!; [done..|]. apply not_elem_of_nil.
  - intros (pre & r' & -> & -> & Hp)%IH. exists (x :: pre), r'. split_and!; [done..|]. by rewrite not_elem_of_cons.
Qed.

Lemma strchr_None s c : strchr s c = None ↔ c ∉ s.
Proof.
  induction s as [|x s IH]; cbn; [split; [intros _; apply not_elem_of_nil|done]|].
  rewrite not_elem_of_cons. destruct (Z.eqb_spec x c); [naive_solver|]. rewrite IH. naive_solver.
Qed.

Lemma strchr_app pre c s : c ∉ pre → strchr (pre ++ c :: s) c = Some (c :: s).
Proof.
  induction pre as [|x pre IH]; cbn; intros Hp; [by rewrite Z.eqb_refl|].
  apply not_elem_of_cons in Hp as [Hx Hp]. destruct (Z.eqb_spec x c); [congruence|]. by apply IH.
Qed.

Lemma ld_umemmove m dst src n a : bytes_mem m → 0 ≤ n →
  ld (memmove m dst src n) a = if decide (dst ≤ a < dst + n) then ld m (src + (a - dst)) else ld m a.
Proof.
  intros Hm Hn. unfold memmove. destruct (Z.gtb_spec src dst).
  - rewrite ld_copy_up by (done || lia). by rewrite Z2Nat.id.
  - rewrite ld_copy_down by (done || lia). by rewrite Z2Nat.id.
Qed.

Lemma memcmp_eq p q n : memcmp p q n = 0 ↔ ∀ i, (i < n)%nat → p i = q i.
Proof.
  revert p q. induction n as [|n IH]; intros p q; cbn [memcmp]; [split; [lia|done]|].
  destruct (Z.eqb_spec (p O) (q O)) as [E|E].
  - rewrite IH. split; [|intros Hi i ?; apply (Hi (S i)); lia]. intros Hi [|i] ?; [done|]. apply (Hi i). lia.
  - split; [lia|]. intros Hi. destruct E. apply Hi. lia.
Qed.

(** ** Printing integers

    The loop that kernel/printf.c and user/printf.c share: the digits of a number,
    last one first, go to a buffer of fixed size. *)

(** [do { buf[i++] = digits[x % base]; } while((x /= base) != 0);], with [room]
    bytes of [buf] left; [None] if it stores past the end. *)
Fixpoint digit_loop (digits : list Z) (room : nat) (base x : Z) (buf : list Z) : option (list Z) :=
  match room with
  | O => None
  | S room =>
      let buf := buf ++ [nth (Z.to_nat (x mod base)) digits 0] in
      if x / base =? 0 then Some buf else digit_loop digits room base (x / base) buf
  end.

(** The number that digits, first one first, stand for. *)
Definition digits_value (base : Z) (ds : list Z) : Z := foldl (λ n d, n * base + d) 0 ds.

Lemma digits_value_snoc base ds d : digits_value base (ds ++ [d]) = digits_value base ds * base + d.
Proof. unfold digits_value. by rewrite foldl_app. Qed.

(** The loop stores the digits of [x]; if [x] has at most [n] of them, [n] bytes
    are enough. *)
Lemma digit_loop_spec digits extra base n : 2 ≤ base → ∀ x buf, 0 ≤ x < base ^ Z.of_nat n → (0 < n)%nat →
  ∃ ds, digit_loop digits (n + extra) base x buf = Some (buf ++ ((λ d, nth (Z.to_nat d) digits 0) <$> reverse ds)) ∧
    digits_value base ds = x ∧ Forall (λ d, 0 ≤ d < base) ds ∧ (0 < length ds ≤ n)%nat.
Proof.
  intros Hb. induction n as [|n IH]; intros x buf Hx Hr; [lia|]. cbn [Nat.add digit_loop].
  assert (0 ≤ x mod base < base) as Hm by (apply Z.mod_pos_bound; lia).
  pose proof (Z.div_mod x base ltac:(lia)) as Hdm.
  destruct (Z.eqb_spec (x / base) 0) as [Hz|Hz].
  - exists [x mod base]. split_and!; [done| |by constructor|cbn; lia..]. cbn. lia.
  - assert (0 ≤ x / base) by (apply Z.div_pos; lia).
    rewrite Nat2Z.inj_succ, Z.pow_succ_r in Hx by lia.
    assert (x / base < base ^ Z.of_nat n) as Hlt by (apply Z.div_lt_upper_bound; lia).
    assert (0 < n)%nat as Hr' by (destruct n; [cbn in Hlt; lia|lia]).
    destruct (IH (x / base) (buf ++ [nth (Z.to_nat (x mod base)) digits 0])) as (ds & -> & Hv & Hf & Hlen); [lia|done|].
    exists (ds ++ [x mod base]). rewrite digits_value_snoc, Hv, reverse_app, fmap_app, length_app, Forall_app, Forall_singleton.
    rewrite <-app_assoc. cbn. split_and!; try done; lia.
Qed.

(** It has not, if [x] has more. *)
Lemma digit_loop_None digits room base : 2 ≤ base → ∀ x buf, base ^ Z.of_nat room ≤ x → digit_loop digits room base x buf = None.
Proof.
  intros Hb. induction room as [|room IH]; intros x buf Hx; [done|]. cbn [digit_loop].
  rewrite Nat2Z.inj_succ, Z.pow_succ_r in Hx by lia.
  assert (0 < base ^ Z.of_nat room) by (apply Z.pow_pos_nonneg; lia).
  assert (base ^ Z.of_nat room ≤ x / base) by (apply Z.div_le_lower_bound; lia).
  destruct (Z.eqb_spec (x / base) 0); [lia|]. by apply IH.
Qed.
