(* ===== verification/Uprintf.v ===== *)
(** * Formatted output of user programs: user/printf.c

    The arguments of a call are a list: a number is a 64-bit register, a string
    what a pointer points to. *)
From Stdlib Require Import ZArith Lia.
From stdpp Require Import prelude gmap strings.
From S2P Require Import Prelude Bytes Param Str Fs User Ulib.

Inductive varg := VNum (x : Z) | VStr (s : list Z).

Definition digits : list Z := chars "0123456789ABCDEF".

(** What the chain of tests on [c0], [c1], [c2] decides: what to print, and how
    far [i] moves besides. *)
Inductive conv := CInt (base : Z) (sgn : bool) | CPtr | CStr | CPercent | CUnknown.

Definition conversion (c0 c1 c2 : Z) : conv * nat :=
  if c0 =? 100 then (CInt 10 true, 0%nat)
  else if (c0 =? 108) && (c1 =? 100) then (CInt 10 true, 1%nat)
  else if (c0 =? 108) && (c1 =? 108) && (c2 =? 100) then (CInt 10 true, 2%nat)
  else if c0 =? 117 then (CInt 10 false, 0%nat)
  else if (c0 =? 108) && (c1 =? 117) then (CInt 10 false, 1%nat)
  else if (c0 =? 108) && (c1 =? 108) && (c2 =? 117) then (CInt 10 false, 2%nat)
  else if c0 =? 120 then (CInt 16 false, 0%nat)
  else if (c0 =? 108) && (c1 =? 120) then (CInt 16 false, 1%nat)
  else if (c0 =? 108) && (c1 =? 108) && (c2 =? 120) then (CInt 16 false, 2%nat)
  else if c0 =? 112 then (CPtr, 0%nat)
  else if c0 =? 115 then (CStr, 0%nat)
  else if c0 =? 37 then (CPercent, 0%nat)
  else (CUnknown, 0%nat).

Section code.
Context {S : Type} `{Sys S}.

Definition putc (fd c : Z) : U S unit := write fd [c] ;; mret tt.

(** The buffer has 16 bytes; [xx] is an [int]. *)
Definition printint (fd xx base : Z) (sgn : bool) : U S unit :=
  let neg := sgn && (xx <? 0) in
  let x := if neg then u32 (- xx) else u32 xx in
  match digit_loop digits 16 base x [] with
  | None => ufault
  | Some buf =>
      if neg then
        if decide (length buf < 16)%nat then ufor (rev (buf ++ [45])) (putc fd) else ufault
      else ufor (rev buf) (putc fd)
  end.

Definition printptr (fd x : Z) : U S unit :=
  putc fd 48 ;;
  putc fd 120 ;;
  ufor (seq 0 16) (λ i, putc fd (nth (Z.to_nat (u64 (Z.shiftl x (4 * Z.of_nat i)) / 2 ^ 60)) digits 0)).

(** [va_arg] for a number and for a string. *)
Definition arg_num (ap : list varg) : U S (Z * list varg) :=
  match ap with VNum x :: ap => mret (x, ap) | _ => ufault end.
Definition arg_str (ap : list varg) : U S (list Z * list varg) :=
  match ap with
  | VStr s :: ap => mret (s, ap)
  | VNum 0 :: ap => mret (chars "(null)", ap)
  | _ => ufault
  end.

(** The body of the loop in state ['%']. *)
Definition print_arg (fd : Z) (c0 : Z) (k : conv) (ap : list varg) : U S (list varg) :=
  match k with
  | CInt base sgn => r ← arg_num ap; printint fd (s32 (fst r)) base sgn ;; mret (snd r)
  | CPtr => r ← arg_num ap; printptr fd (fst r) ;; mret (snd r)
  | CStr => r ← arg_str ap; ufor (fst r) (putc fd) ;; mret (snd r)
  | CPercent => putc fd 37 ;; mret ap
  | CUnknown => putc fd 37 ;; putc fd c0 ;; mret ap
  end.

(** [skip]: by how much [i] was moved on. *)
Fixpoint vprintf_loop (fd : Z) (fmt : list Z) (skip : nat) (state : bool) (ap : list varg) : U S unit :=
  match fmt with
  | [] => mret tt
  | c0 :: rest =>
      match skip with
      | Datatypes.S skip => vprintf_loop fd rest skip state ap
      | O =>
          if state then
            let c1 := hd0 rest in
            let c2 := hd0 (tail rest) in
            let '(k, skip) := conversion c0 c1 c2 in
            ap ← print_arg fd c0 k ap;
            vprintf_loop fd rest skip false ap
          else if c0 =? 37 then vprintf_loop fd rest 0 true ap
          else putc fd c0 ;; vprintf_loop fd rest 0 false ap
      end
  end.

Definition vprintf (fd : Z) (fmt : list Z) (ap : list varg) : U S unit := vprintf_loop fd fmt 0 false ap.
Definition fprintf (fd : Z) (fmt : string) (ap : list varg) : U S unit := vprintf fd (chars fmt) ap.
Definition printf (fmt : string) (ap : list varg) : U S unit := vprintf 1 (chars fmt) ap.
End code.

(** ** On streams *)

(** The system wrote the bytes [bs] to [fd], and did nothing else. *)
Definition wrote_to (fd : Z) (bs : list Z) (s s' : streams) : Prop :=
  s_in s' = s_in s ∧ s_files s' = s_files s ∧ s_next s' = s_next s ∧
  ∀ fd', output s' fd' = output s fd' ++ if decide (fd = fd') then bs else [].

Lemma wrote_to_nil fd s : wrote_to fd [] s s.
Proof. split_and!; try done. intros. case_decide; by rewrite app_nil_r. Qed.

Lemma wrote_app fd bs bs' s s1 s2 : wrote_to fd bs s s1 → wrote_to fd bs' s1 s2 → wrote_to fd (bs ++ bs') s s2.
Proof.
  intros (Hi & Hf & Hn & Ho) (Hi' & Hf' & Hn' & Ho'). split_and!; [congruence..|].
  intros fd'. rewrite Ho', Ho. case_decide; by rewrite ?app_nil_r, <-?app_assoc.
Qed.

Lemma putc_spec fd c s Q E : (∀ s', wrote_to fd [c] s s' → Q tt s') → uwp (putc fd c) s Q E.
Proof.
  intros HQ. unfold uwp. cbn. apply HQ. split_and!; [done..|]. intros. apply output_add.
Qed.

Lemma putcs_spec fd cs : ∀ s Q E, (∀ s', wrote_to fd cs s s' → Q tt s') → uwp (ufor cs (putc fd)) s Q E.
Proof.
  induction cs as [|c cs IH]; intros s Q E HQ; cbn [ufor]; [apply uwp_ret, HQ, wrote_to_nil|].
  uwp_step. apply putc_spec. intros s1 H1. apply IH. intros s2 H2. apply HQ.
  exact (wrote_app fd [c] cs s s1 s2 H1 H2).
Qed.

(** The characters of an integer. *)
Definition digit_char (d : Z) : Z := nth (Z.to_nat d) digits 0.

Lemma printint_spec fd xx base sgn s Q E :
  base = 10 ∨ base = 16 → -2147483648 ≤ xx < 2147483648 →
  (∀ ds s', digits_value base ds = (if sgn && (xx <? 0) then - xx else u32 xx) → Forall (λ d, 0 ≤ d < base) ds →
     (0 < length ds ≤ 10)%nat →
     wrote_to fd ((if sgn && (xx <? 0) then [45] else []) ++ (digit_char <$> ds)) s s' → Q tt s') →
  uwp (printint fd xx base sgn) s Q E.
Proof.
  intros Hb Hx HQ. unfold printint. set (neg := sgn && (xx <? 0)) in *.
  set (x := if neg then u32 (- xx) else u32 xx).
  assert (0 ≤ x < 4294967296) as Hxr by (unfold x; destruct neg; apply u32_range).
  assert (x = if neg then - xx else u32 xx) as Hxe.
  { unfold x. destruct neg eqn:En; [|done]. unfold neg in En. apply andb_true_iff in En as [_ En%Z.ltb_lt]. apply u32_small. lia. }
  destruct (digit_loop_spec digits 6 base 10 ltac:(lia) x []) as (ds & Hd & Hv & Hf & Hl); [destruct Hb as [->| ->]; lia|lia|].
  change (10 + 6)%nat with 16%nat in Hd. rewrite Hd. cbn [app]. fold digit_char. rewrite length_fmap, length_reverse, rev_app_distr, !rev_reverse, <-!fmap_reverse, !reverse_involutive. cbn [rev app].
  destruct neg; [rewrite decide_True by lia|]; apply putcs_spec; intros s' Hs'; (apply (HQ ds); [by rewrite Hv|done..]).
Qed.

(** ** Reading back what was printed *)

Lemma atoi_digits ds : ∀ n rest, Forall (λ d, 0 ≤ d < 10) ds → 0 ≤ n →
  foldl (λ n d, n * 10 + d) n ds < 2147483648 → (∀ c, head rest = Some c → c < 48 ∨ 57 < c) →
  atoi_loop ((digit_char <$> ds) ++ rest) n = foldl (λ n d, n * 10 + d) n ds.
Proof.
  assert (∀ l k, Forall (λ d, 0 ≤ d < 10) l → 0 ≤ k → k ≤ foldl (λ n d, n * 10 + d) k l) as Hmono.
  { induction l as [|d l IH]; intros k Hf Hk; [done|]. apply Forall_cons in Hf as [Hd Hf]. cbn.
    specialize (IH (k * 10 + d) Hf ltac:(lia)). lia. }
  induction ds as [|d ds IH]; intros n rest Hf Hn Hlt Hr; cbn [fmap list_fmap app foldl] in *.
  - destruct rest as [|c rest]; [done|]. cbn. specialize (Hr c eq_refl).
    destruct (Z.leb_spec 48 c), (Z.leb_spec c 57); (done || lia).
  - apply Forall_cons in Hf as [Hd Hf]. pose proof (Hmono ds (n * 10 + d) Hf ltac:(lia)).
    assert (digit_char d = 48 + d) as Hc.
    { assert (d = 0 ∨ d = 1 ∨ d = 2 ∨ d = 3 ∨ d = 4 ∨ d = 5 ∨ d = 6 ∨ d = 7 ∨ d = 8 ∨ d = 9) as Hd' by lia.
      destruct_or! Hd'; by subst. }
    rewrite Hc. cbn [atoi_loop]. rewrite (proj2 (Z.leb_le 48 _)), (proj2 (Z.leb_le _ 57)) by lia. cbn [andb].
    replace (s32 _) with (n * 10 + d) by (rewrite s32_small; lia). apply IH; [done|lia|done..].
Qed.

Lemma printint_atoi fd n s Q E :
  0 ≤ n < 2147483648 → (∀ cs s', wrote_to fd cs s s' → (length cs ≤ 10)%nat → atoi cs = n → Q tt s') →
  uwp (printint fd n 10 true) s Q E.
Proof.
  intros Hn HQ. apply printint_spec; [by left|lia|]. rewrite (proj2 (Z.ltb_ge n 0)) by lia. cbn [andb app].
  intros ds s' Hv Hf Hl Hw. apply (HQ (digit_char <$> ds)); [done|rewrite length_fmap; lia|].
  rewrite u32_small in Hv by lia. unfold atoi. rewrite <-(app_nil_r (digit_char <$> ds)). rewrite atoi_digits; try done; unfold digits_value in Hv; lia.
Qed.
