(* ===== verification/Console.v ===== *)
(** * The console: kernel/uart.c, kernel/printf.c and kernel/console.c

    The UART is a device that the kernel only sees through its registers: the class
    [UartDev]. Functions that wait are cut where they sleep, as in Pipe.v: the part
    between two acquisitions of a lock is one step. Locks are held throughout, so
    [acquire], [release], [push_off] and [pop_off] leave no trace here. *)
From Stdlib Require Import ZArith Lia.
From stdpp Require Import prelude strings.
From S2P Require Import Prelude UserMem User Ulib.

(** ** The device: a 16550a UART *)

(** Registers, by their offset. *)
Definition RHR : Z := 0.
Definition THR : Z := 0.
Definition IER : Z := 1.
Definition IER_RX_ENABLE : Z := 1.
Definition IER_TX_ENABLE : Z := 2.
Definition FCR : Z := 2.
Definition FCR_FIFO_ENABLE : Z := 1.
Definition FCR_FIFO_CLEAR : Z := 6.
Definition ISR : Z := 2.
Definition LCR : Z := 3.
Definition LCR_EIGHT_BITS : Z := 3.
Definition LCR_BAUD_LATCH : Z := 128.
Definition LSR : Z := 5.
Definition LSR_TX_IDLE : Z := 32.

(** Reading and writing a register; what the rest of this development says about a
    device: the bytes it was given to send, the bytes it received that were not read
    yet, whether it can take a byte to send, and for how many readings of its status
    at most it will say that it cannot. *)
Class UartDev (D : Type) := {
  ReadReg : Z → D → Z * D;
  WriteReg : Z → Z → D → D;
  dev_sent : D → list Z;
  dev_rx : D → list Z;
  dev_idle : D → bool;
  dev_wait : D → nat
}.

(** ** State *)
Record cons := Cons { c_buf : list Z; c_r : Z; c_w : Z; c_e : Z }.
Record uart := Uart { uart_tx_buf : list Z; uart_tx_w : Z; uart_tx_r : Z }.

(** The console, the UART's buffer, the device, the memory of the calling process
    and whether it was killed, the channels woken up, the variable [panicked] and
    what [procdump] finds in the process table. *)
Record cst (D U : Type) := CSt {
  cs_cons : cons;
  cs_uart : uart;
  cs_dev : D;
  cs_mem : U;
  cs_killed : bool;
  cs_woken : list chan;
  cs_panicked : bool;
  cs_procs : list (Z * string * list Z)
}.
Arguments CSt {D U}.
Arguments cs_cons {D U}.
Arguments cs_uart {D U}.
Arguments cs_dev {D U}.
Arguments cs_mem {D U}.
Arguments cs_killed {D U}.
Arguments cs_woken {D U}.
Arguments cs_panicked {D U}.
Arguments cs_procs {D U}.

Definition uart_tx_chan : chan := Chan "uart_tx_r" 0.
Definition cons_r_chan : chan := Chan "cons.r" 0.

(** An argument of [printf]: a number, or what a pointer points to. *)
Inductive karg := KNum (x : Z) | KStr (s : list Z).

Definition kdigits : list Z := chars "0123456789abcdef".

(** What the tests on [c0], [c1] and [c2] decide, and how far [i] moves besides. *)
Inductive kconv := KInt (long : bool) (base : Z) (sgn : bool) | KPtr | KString | KPercent | KEnd | KUnknown.

Definition kconversion (c0 c1 c2 : Z) : kconv * nat :=
  if c0 =? 100 then (KInt false 10 true, 0%nat)
  else if (c0 =? 108) && (c1 =? 100) then (KInt true 10 true, 1%nat)
  else if (c0 =? 108) && (c1 =? 108) && (c2 =? 100) then (KInt true 10 true, 2%nat)
  else if c0 =? 117 then (KInt false 10 false, 0%nat)
  else if (c0 =? 108) && (c1 =? 117) then (KInt true 10 false, 1%nat)
  else if (c0 =? 108) && (c1 =? 108) && (c2 =? 117) then (KInt true 10 false, 2%nat)
  else if c0 =? 120 then (KInt false 16 false, 0%nat)
  else if (c0 =? 108) && (c1 =? 120) then (KInt true 16 false, 1%nat)
  else if (c0 =? 108) && (c1 =? 108) && (c2 =? 120) then (KInt true 16 false, 2%nat)
  else if c0 =? 112 then (KPtr, 0%nat)
  else if c0 =? 115 then (KString, 0%nat)
  else if c0 =? 37 then (KPercent, 0%nat)
  else if c0 =? 0 then (KEnd, 0%nat)
  else (KUnknown, 0%nat).

(** How a step of a function that may wait ends: asleep, with what it needs to go
    on, or returning. *)
Inductive cres := CSleep (dst n : Z) | CRet (r : Z).

Section code.
Context {D U : Type} `{UartDev D} `{UserMem U}.
Abbreviation CM := (M (cst D U)).

Definition set_cons (c : cons) : CM unit :=
  modify (λ s, CSt c (cs_uart s) (cs_dev s) (cs_mem s) (cs_killed s) (cs_woken s) (cs_panicked s) (cs_procs s)).
Definition set_uart (u : uart) : CM unit :=
  modify (λ s, CSt (cs_cons s) u (cs_dev s) (cs_mem s) (cs_killed s) (cs_woken s) (cs_panicked s) (cs_procs s)).
Definition set_dev (d : D) : CM unit :=
  modify (λ s, CSt (cs_cons s) (cs_uart s) d (cs_mem s) (cs_killed s) (cs_woken s) (cs_panicked s) (cs_procs s)).
Definition set_cmem (m : U) : CM unit :=
  modify (λ s, CSt (cs_cons s) (cs_uart s) (cs_dev s) m (cs_killed s) (cs_woken s) (cs_panicked s) (cs_procs s)).
Definition cwakeup (ch : chan) : CM unit :=
  modify (λ s, CSt (cs_cons s) (cs_uart s) (cs_dev s) (cs_mem s) (cs_killed s) (cs_woken s ++ [ch]) (cs_panicked s) (cs_procs s)).

(** [for(;;) ;] *)
Definition mspin {A} : CM A := λ _, NoFuel.

Definition read_reg (r : Z) : CM Z := s ← mget; let '(v, d) := ReadReg r (cs_dev s) in set_dev d ;; mret v.
Definition write_reg (r v : Z) : CM unit := s ← mget; set_dev (WriteReg r v (cs_dev s)).

(** ** kernel/uart.c *)
Definition uartinit : CM unit :=
  write_reg IER 0 ;;
  write_reg LCR LCR_BAUD_LATCH ;;
  write_reg 0 3 ;;
  write_reg 1 0 ;;
  write_reg LCR LCR_EIGHT_BITS ;;
  write_reg FCR (Z.lor FCR_FIFO_ENABLE FCR_FIFO_CLEAR) ;;
  write_reg IER (Z.lor IER_TX_ENABLE IER_RX_ENABLE).

Fixpoint uartstart_loop (fuel : nat) : CM unit :=
  match fuel with
  | O => λ _, NoFuel
  | S fuel =>
      s ← mget;
      let u := cs_uart s in
      if uart_tx_w u =? uart_tx_r u then read_reg ISR ;; mret tt
      else
        lsr ← read_reg LSR;
        if Z.land lsr LSR_TX_IDLE =? 0 then mret tt
        else
          c ← mnth (uart_tx_buf u !! Z.to_nat (uart_tx_r u mod 32));
          set_uart (Uart (uart_tx_buf u) (uart_tx_w u) (u64 (uart_tx_r u + 1))) ;;
          cwakeup uart_tx_chan ;;
          write_reg THR c ;;
          uartstart_loop fuel
  end.

(** At most 32 bytes are waiting. *)
Definition uartstart : CM unit := uartstart_loop 33.

(** [false]: the buffer is full, the caller sleeps. A system that has panicked stays
    in the function for good. *)
Definition uartputc (c : Z) : CM bool :=
  s ← mget;
  if cs_panicked s then mspin else
  let u := cs_uart s in
  if uart_tx_w u =? u64 (uart_tx_r u + 32) then mret false
  else
    set_uart (Uart (<[Z.to_nat (uart_tx_w u mod 32) := u8 c]> (uart_tx_buf u)) (u64 (uart_tx_w u + 1)) (uart_tx_r u)) ;;
    uartstart ;;
    mret true.

(** [while((ReadReg(LSR) & LSR_TX_IDLE) == 0) ;] *)
Fixpoint wait_idle (fuel : nat) : CM unit :=
  match fuel with
  | O => λ _, NoFuel
  | S fuel => lsr ← read_reg LSR; if Z.land lsr LSR_TX_IDLE =? 0 then wait_idle fuel else mret tt
  end.

Definition uartputc_sync (c : Z) : CM unit :=
  s ← mget;
  if cs_panicked s then mspin else
  wait_idle (S (dev_wait (cs_dev s))) ;;
  write_reg THR (u8 c).

Definition uartgetc : CM Z :=
  lsr ← read_reg LSR;
  if Z.land lsr 1 =? 0 then mret (-1) else read_reg RHR.

(** ** kernel/console.c: output *)
Definition BACKSPACE : Z := 256.

Definition consputc (c : Z) : CM unit :=
  if c =? BACKSPACE then uartputc_sync 8 ;; uartputc_sync 32 ;; uartputc_sync 8
  else uartputc_sync c.

(** [consolewrite], from byte [src + i] on, after waking up: [n] is the total. *)
Fixpoint consolewrite_loop (fuel : nat) (src n i : Z) : CM cres :=
  match fuel with
  | O => λ _, NoFuel
  | S fuel =>
      if i <? n then
        s ← mget;
        match ucopyin (cs_mem s) (u64 (src + i)) 1 with
        | ([c], true) =>
            ok ← uartputc c;
            if ok : bool then consolewrite_loop fuel src n (i + 1) else mret (CSleep src i)
        | _ => mret (CRet i)
        end
      else mret (CRet i)
  end.
Definition consolewrite_from (src n i : Z) : CM cres := consolewrite_loop (S (Z.to_nat (n - i))) src n i.
Definition consolewrite (src n : Z) : CM cres := consolewrite_from src n 0.

(** ** kernel/printf.c *)
Definition kprintint (xx base : Z) (sgn : bool) : CM unit :=
  let neg := sgn && (xx <? 0) in
  let x := if neg then u64 (- xx) else u64 xx in
  match digit_loop kdigits 16 base x [] with
  | None => mfault
  | Some buf =>
      if neg then
        if decide (length buf < 16)%nat then mfor (rev (buf ++ [45])) consputc else mfault
      else mfor (rev buf) consputc
  end.

Definition kprintptr (x : Z) : CM unit :=
  consputc 48 ;;
  consputc 120 ;;
  mfor (seq 0 16) (λ i, consputc (nth (Z.to_nat (u64 (Z.shiftl x (4 * Z.of_nat i)) / 2 ^ 60)) kdigits 0)).

Definition karg_num (ap : list karg) : CM (Z * list karg) :=
  match ap with KNum x :: ap => mret (x, ap) | _ => mfault end.
Definition karg_str (ap : list karg) : CM (list Z * list karg) :=
  match ap with
  | KStr s :: ap => mret (s, ap)
  | KNum 0 :: ap => mret (chars "(null)", ap)
  | _ => mfault
  end.

Definition s64 (x : Z) : Z := (x + 9223372036854775808) mod 18446744073709551616 - 9223372036854775808.

(** The body of the loop after a [%]; [None]: it leaves the loop. *)
Definition kprint_arg (c0 : Z) (k : kconv) (ap : list karg) : CM (option (list karg)) :=
  match k with
  | KInt long base sgn => r ← karg_num ap; kprintint (if long then s64 (fst r) else s32 (fst r)) base sgn ;; mret (Some (snd r))
  | KPtr => r ← karg_num ap; kprintptr (fst r) ;; mret (Some (snd r))
  | KString => r ← karg_str ap; mfor (fst r) consputc ;; mret (Some (snd r))
  | KPercent => consputc 37 ;; mret (Some ap)
  | KEnd => mret None
  | KUnknown => consputc 37 ;; consputc c0 ;; mret (Some ap)
  end.

(** [skip]: by how much [i] was moved on; [pct]: the last character was a [%]. *)
Fixpoint kprintf_loop (fmt : list Z) (skip : nat) (pct : bool) (ap : list karg) : CM unit :=
  match fmt with
  | [] => mret tt
  | c0 :: rest =>
      match skip with
      | S skip => kprintf_loop rest skip pct ap
      | O =>
          if pct then
            let '(k, skip) := kconversion c0 (hd0 rest) (hd0 (tail rest)) in
            r ← kprint_arg c0 k ap;
            match r with Some ap => kprintf_loop rest skip false ap | None => mret tt end
          else if c0 =? 37 then kprintf_loop rest 0 true ap
          else consputc c0 ;; kprintf_loop rest 0 false ap
      end
  end.

Definition kprintf (fmt : string) (ap : list karg) : CM unit := kprintf_loop (chars fmt) 0 false ap.

(** [procdump] of kernel/proc.c, on what it reads of the table. *)
Definition print_procs : CM unit :=
  kprintf NL [] ;;
  s ← mget;
  mfor (cs_procs s) (λ '(pid, state, name),
    kprintf "%d %s %s" [KNum pid; KStr (chars state); KStr name] ;; kprintf NL []).

(** ** kernel/console.c: input *)

(** [while(cons.e != cons.w && ...)] of the kill character. *)
Fixpoint kill_line (fuel : nat) : CM unit :=
  match fuel with
  | O => λ _, NoFuel
  | S fuel =>
      s ← mget;
      let c := cs_cons s in
      if c_e c =? c_w c then mret tt else
      b ← mnth (c_buf c !! Z.to_nat (u32 (c_e c - 1) mod 128));
      if b =? 10 then mret tt else
      set_cons (Cons (c_buf c) (c_r c) (c_w c) (u32 (c_e c - 1))) ;;
      consputc BACKSPACE ;;
      kill_line fuel
  end.

Definition consoleintr (c : Z) : CM unit :=
  if c =? 16 then print_procs
  else if c =? 21 then kill_line 129
  else if (c =? 8) || (c =? 127) then
    s ← mget;
    let k := cs_cons s in
    mwhen (negb (c_e k =? c_w k)) (set_cons (Cons (c_buf k) (c_r k) (c_w k) (u32 (c_e k - 1))) ;; consputc BACKSPACE)
  else
    s ← mget;
    let k := cs_cons s in
    mwhen (negb (c =? 0) && (u32 (c_e k - c_r k) <? 128))
      (let c := if c =? 13 then 10 else c in
       consputc c ;;
       s ← mget;
       let k := cs_cons s in
       let k := Cons (<[Z.to_nat (c_e k mod 128) := u8 c]> (c_buf k)) (c_r k) (c_w k) (u32 (c_e k + 1)) in
       set_cons k ;;
       mwhen ((c =? 10) || (c =? 4) || (u32 (c_e k - c_r k) =? 128))
         (set_cons (Cons (c_buf k) (c_r k) (c_e k) (c_e k)) ;; cwakeup cons_r_chan)).

(** [consoleread], with [n] of [target] bytes still to be read, to [dst]. *)
Fixpoint consoleread_loop (fuel : nat) (target dst n : Z) : CM cres :=
  match fuel with
  | O => λ _, NoFuel
  | S fuel =>
      if n >? 0 then
        s ← mget;
        let k := cs_cons s in
        if c_r k =? c_w k then
          if cs_killed s then mret (CRet (-1)) else mret (CSleep dst n)
        else
        c ← mnth (c_buf k !! Z.to_nat (c_r k mod 128));
        set_cons (Cons (c_buf k) (u32 (c_r k + 1)) (c_w k) (c_e k)) ;;
        if c =? 4 then
          mwhen (n <? target) (set_cons (Cons (c_buf k) (u32 (u32 (c_r k + 1) - 1)) (c_w k) (c_e k))) ;;
          mret (CRet (target - n))
        else
        let '(m, ok) := ucopyout (cs_mem s) dst [c] in
        set_cmem m ;;
        if negb ok then mret (CRet (target - n)) else
        if c =? 10 then mret (CRet (target - (n - 1))) else
        consoleread_loop fuel target (u64 (dst + 1)) (n - 1)
      else mret (CRet (target - n))
  end.
Definition consoleread_from (target dst n : Z) : CM cres := consoleread_loop (S (Z.to_nat n)) target dst n.
Definition consoleread (dst n : Z) : CM cres := consoleread_from n dst n.

(** [while(1)] of [uartintr]: as many characters as the device has received. *)
Fixpoint uart_input (fuel : nat) : CM unit :=
  match fuel with
  | O => λ _, NoFuel
  | S fuel => c ← uartgetc; if c =? -1 then mret tt else consoleintr c ;; uart_input fuel
  end.

Definition uartintr : CM unit :=
  s ← mget;
  uart_input (S (length (dev_rx (cs_dev s)))) ;;
  uartstart.

(** The console's part of [consoleinit]; the UART's buffer and [cons] are zero. *)
Definition consoleinit : CM unit := uartinit.
End code.
