(* ===== verification/ConsoleTheorems.v ===== *)
(** * The console: its description, the refinement theorem, and a device *)
From Stdlib Require Import ZArith Lia.
From stdpp Require Import prelude strings.
From S2P Require Import Prelude UserMem Ring User Ulib Console.

(** ** The console implements its description

    The console as queues; the functions of kernel/uart.c and kernel/console.c, on
    the ring buffers, do on them what the description says. *)

(** ** What the console does: the line discipline and the queue of output

    The ring buffers and their wrapping counters are gone from this description:
    the input is a queue of bytes that readers may take and a line that is still
    being edited, the output a queue that the device empties. *)

(** What the kernel relies on of a 16550a. The status register says whether a byte
    was received and whether one can be sent; a byte is sent by writing it when the
    device is idle, and received by reading it; waiting helps. *)
Class UartLaws (D : Type) `{UartDev D} := {
  lsr_read d : Z.testbit (fst (ReadReg LSR d)) 0 = negb (bool_decide (dev_rx d = [])) ∧
    Z.testbit (fst (ReadReg LSR d)) 5 = dev_idle (snd (ReadReg LSR d)) ∧
    dev_sent (snd (ReadReg LSR d)) = dev_sent d ∧ dev_rx (snd (ReadReg LSR d)) = dev_rx d;
  lsr_wait d : dev_idle (snd (ReadReg LSR d)) = false → (dev_wait (snd (ReadReg LSR d)) < dev_wait d)%nat;
  isr_read d : dev_sent (snd (ReadReg ISR d)) = dev_sent d ∧ dev_rx (snd (ReadReg ISR d)) = dev_rx d;
  rhr_read d c r : dev_rx d = c :: r →
    fst (ReadReg RHR d) = c ∧ dev_sent (snd (ReadReg RHR d)) = dev_sent d ∧ dev_rx (snd (ReadReg RHR d)) = r;
  thr_write d c : dev_idle d = true → dev_sent (WriteReg THR c d) = dev_sent d ++ [c] ∧ dev_rx (WriteReg THR c d) = dev_rx d;
  rx_bytes d : Forall (λ c, 0 ≤ c < 256) (dev_rx d)
}.

(** ** The abstract console *)
Record line := Line { l_q : list Z; l_ed : list Z }.

Definition line_full (l : line) : nat := (length (l_q l) + length (l_ed l))%nat.

(** A character is typed: the line after, what is echoed, and whether the readers
    are woken up. *)
Definition type_char (c : Z) (l : line) : line * list Z * bool :=
  if c =? 21 then (Line (l_q l) [], concat (replicate (length (l_ed l)) [8; 32; 8]), false)
  else if (c =? 8) || (c =? 127) then
    (Line (l_q l) (removelast (l_ed l)), if decide (l_ed l = []) then [] else [8; 32; 8], false)
  else if (c =? 0) || (128 <=? Z.of_nat (line_full l)) then (l, [], false)
  else
    let c := if c =? 13 then 10 else c in
    let ed := l_ed l ++ [c] in
    if (c =? 10) || (c =? 4) || (Z.of_nat (line_full l) =? 127) then (Line (l_q l ++ ed) [], [c], true)
    else (Line (l_q l) ed, [c], false).

(** Characters are typed; control-P prints the process list. *)
Inductive typed : list Z → line → list Z → nat → line → Prop :=
| typed_nil l : typed [] l [] 0 l
| typed_procs cs l l' txt echo n : typed cs l echo n l' → typed (16 :: cs) l (txt ++ echo) n l'
| typed_char c cs l l' echo n : c ≠ 16 → typed cs (type_char c l).1.1 echo n l' →
    typed (c :: cs) l ((type_char c l).1.2 ++ echo) ((if (type_char c l).2 then 1 else 0) + n)%nat l'.

Section abstract.
Context {U : Type} `{UserMem U}.

(** A read: the memory after, what is left in the queue, and how it ends. *)
Fixpoint line_read (killed : bool) (m : U) (target dst n : Z) (q : list Z) : U * list Z * cres :=
  if n >? 0 then
    match q with
    | [] => (m, [], if killed then CRet (-1) else CSleep dst n)
    | c :: q' =>
        if c =? 4 then (m, if n <? target then q else q', CRet (target - n))
        else
          let '(m', ok) := ucopyout m dst [c] in
          if negb ok then (m', q', CRet (target - n))
          else if c =? 10 then (m', q', CRet (target - (n - 1)))
          else line_read killed m' target (u64 (dst + 1)) (n - 1) q'
    end
  else (m, q, CRet (target - n)).

(** The state of the abstract console: the input line, the bytes to be sent, the
    bytes sent and received, the memory of the process, whether it was killed, and
    the channels woken up. *)
Record ast := ASt {
  a_line : line; a_tx : list Z; a_sent : list Z; a_rx : list Z;
  a_mem : U; a_killed : bool; a_woken : list chan
}.

(** The operations: the interrupt, and reading and writing from where a process
    was when it went to sleep. *)
Inductive cop := OIntr | ORead (target dst n : Z) | OWrite (src n i : Z).

Inductive aop : cop → ast → cres → ast → Prop :=
| aop_intr l tx sent rx m kl w l' echo n k :
    typed rx l echo n l' → (k ≤ length tx)%nat →
    aop OIntr (ASt l tx sent rx m kl w) (CRet 0)
      (ASt l' (drop k tx) (sent ++ echo ++ take k tx) [] m kl (w ++ replicate n cons_r_chan ++ replicate k uart_tx_chan))
| aop_read target dst n l tx sent rx m kl w m' q' r :
    line_read kl m target dst n (l_q l) = (m', q', r) →
    aop (ORead target dst n) (ASt l tx sent rx m kl w) r (ASt (Line q' (l_ed l)) tx sent rx m' kl w)
| aop_write src n i l tx sent rx m kl w bs tx' sent' w' r :
    sent' ++ tx' = sent ++ tx ++ bs → (length sent ≤ length sent')%nat → (length tx' ≤ 32)%nat →
    (∀ j, (j < length bs)%nat → ∃ b, bs !! j = Some (u8 b) ∧ ucopyin m (u64 (src + i + Z.of_nat j)) 1 = ([b], true)) →
    (let i' := i + Z.of_nat (length bs) in
     (r = CSleep src i' ∧ length tx' = 32%nat ∧ i' < n) ∨
     (r = CRet i' ∧ (i' = n ∨ (i' < n ∧ ∀ b, ucopyin m (u64 (src + i')) 1 ≠ ([b], true))))) →
    aop (OWrite src n i) (ASt l tx sent rx m kl w) r (ASt l tx' sent' rx m kl w').
End abstract.
Arguments ast : clear implicits.

Lemma land_pow2 v k : 0 ≤ k → (Z.land v (2 ^ k) =? 0) = negb (Z.testbit v k).
Proof.
  intros Hk. destruct (Z.testbit v k) eqn:Hb; cbn.
  - apply Z.eqb_neq. intros Hz. assert (Z.testbit (Z.land v (2 ^ k)) k = true) as Ht by (by rewrite Z.land_spec, Hb, Z.pow2_bits_true).
    rewrite Hz, Z.bits_0 in Ht. done.
  - apply Z.eqb_eq, Z.bits_inj'. intros n Hn. rewrite Z.land_spec, Z.bits_0, Z.pow2_bits_eqb by done.
    destruct (Z.eqb_spec k n) as [->|]; [by rewrite Hb|by rewrite andb_false_r].
Qed.

Section refine.
Context {D U : Type} `{UL : UartLaws D} `{UM : UserMem U}.
Implicit Types s : cst D U.

Definition with_dev (d : D) s : cst D U :=
  CSt (cs_cons s) (cs_uart s) d (cs_mem s) (cs_killed s) (cs_woken s) (cs_panicked s) (cs_procs s).
Definition with_cons (c : cons) s : cst D U :=
  CSt c (cs_uart s) (cs_dev s) (cs_mem s) (cs_killed s) (cs_woken s) (cs_panicked s) (cs_procs s).

(** Only bytes were sent. *)
Definition sends (txt : list Z) s s' : Prop :=
  ∃ d, s' = with_dev d s ∧ dev_sent d = dev_sent (cs_dev s) ++ txt ∧ dev_rx d = dev_rx (cs_dev s).

Lemma sends_nil s : sends [] s s.
Proof. exists (cs_dev s). rewrite app_nil_r. by destruct s. Qed.

Lemma sends_app t1 t2 s s1 s2 : sends t1 s s1 → sends t2 s1 s2 → sends (t1 ++ t2) s s2.
Proof.
  intros (d1 & -> & Hs1 & Hr1) (d2 & -> & Hs2 & Hr2). exists d2. split_and!; [done| |].
  - rewrite Hs2. cbn. by rewrite Hs1, <-app_assoc.
  - by rewrite Hr2.
Qed.

Lemma sends_ok txt s s' : sends txt s s' → cs_panicked s' = cs_panicked s.
Proof. by intros (d & -> & _). Qed.

(** ** The UART *)
Lemma wait_idle_spec fuel : ∀ s (Q : unit → cst D U → Prop), (dev_wait (cs_dev s) < fuel)%nat →
  (∀ d, dev_idle d = true → dev_sent d = dev_sent (cs_dev s) → dev_rx d = dev_rx (cs_dev s) → Q tt (with_dev d s)) →
  wp (wait_idle fuel) s Q.
Proof.
  induction fuel as [|fuel IH]; intros s Q Hf HQ; [lia|]. cbn [wait_idle]. unfold read_reg. wp_steps.
  destruct (lsr_read (cs_dev s)) as (_ & Hi & Hs & Hr). pose proof (lsr_wait (cs_dev s)) as Hw.
  destruct (ReadReg LSR (cs_dev s)) as [v d]. cbn [fst snd] in *. unfold set_dev. wp_steps.
  change LSR_TX_IDLE with (2 ^ 5). rewrite land_pow2, Hi by lia. destruct (dev_idle d) eqn:Hd; cbn [negb].
  - wp_steps. by apply HQ.
  - apply IH; [cbn; specialize (Hw eq_refl); lia|]. cbn. intros d' ? ? ?. apply HQ; congruence.
Qed.

Lemma uartputc_sync_spec c s (Q : unit → cst D U → Prop) :
  cs_panicked s = false → (∀ s', sends [u8 c] s s' → Q tt s') → wp (uartputc_sync c) s Q.
Proof.
  intros Hp HQ. unfold uartputc_sync. wp_steps. rewrite Hp. wp_steps. apply wait_idle_spec; [lia|]. intros d Hi Hs Hr.
  unfold write_reg, set_dev. wp_steps. apply HQ. destruct (thr_write d (u8 c) Hi) as [Hs' Hr']. eexists. split_and!; [done| |]; cbn; congruence.
Qed.

Definition cons_bytes (c : Z) : list Z := if c =? BACKSPACE then [8; 32; 8] else [u8 c].

Lemma consputc_spec c s (Q : unit → cst D U → Prop) :
  cs_panicked s = false → (∀ s', sends (cons_bytes c) s s' → Q tt s') → wp (consputc c) s Q.
Proof.
  intros Hp HQ. unfold consputc, cons_bytes in *. destruct (c =? BACKSPACE); [|by apply uartputc_sync_spec].
  wp_steps. apply uartputc_sync_spec; [done|]. intros s1 H1. wp_steps. apply uartputc_sync_spec; [by rewrite (sends_ok _ _ _ H1)|]. intros s2 H2.
  apply uartputc_sync_spec; [by rewrite (sends_ok _ _ _ H2), (sends_ok _ _ _ H1)|]. intros s3 H3. apply HQ.
  exact (sends_app _ _ _ _ _ H1 (sends_app _ _ _ _ _ H2 H3)).
Qed.

Record tx_rep (u : uart) (tx : list Z) : Prop := {
  tr_ring : ring 32 (uart_tx_buf u) (uart_tx_r u) tx;
  tr_r : 0 ≤ uart_tx_r u < 18446744073709551616;
  tr_w : uart_tx_w u = u64 (uart_tx_r u + Z.of_nat (length tx))
}.

Lemma u64_mod32 x : u64 x mod 32 = x mod 32.
Proof. apply Z.mod_mod_divide. by exists 576460752303423488. Qed.

Lemma tx_empty u tx : tx_rep u tx → (uart_tx_w u =? uart_tx_r u) = bool_decide (tx = []).
Proof.
  intros [(_ & Hl & _) Hr Hw]. rewrite Hw. case_bool_decide as Ht; [subst tx; cbn; apply Z.eqb_eq; wordlia|].
  apply Z.eqb_neq. assert (length tx ≠ 0%nat) by (by destruct tx). wordlia.
Qed.

Lemma tx_full u tx : tx_rep u tx → (uart_tx_w u =? u64 (uart_tx_r u + 32)) = bool_decide (length tx = 32%nat).
Proof.
  intros [(_ & Hl & _) Hr Hw]. rewrite Hw. case_bool_decide as Ht; [rewrite Ht; apply Z.eqb_refl|]. apply Z.eqb_neq. wordlia.
Qed.

Lemma tx_pop u c tx : tx_rep u (c :: tx) → uart_tx_buf u !! Z.to_nat (uart_tx_r u mod 32) = Some c ∧
  tx_rep (Uart (uart_tx_buf u) (uart_tx_w u) (u64 (uart_tx_r u + 1))) tx.
Proof.
  intros [Hring Hr Hw]. destruct (ring_head 32 ltac:(lia) _ _ _ _ Hring) as [Hc Hring']. split; [done|]. pose proof Hring as (_ & Hl & _). split; cbn.
  - eapply ring_mod; [|exact Hring']. change (Z.of_nat 32) with 32. by rewrite u64_mod32.
  - wordlia.
  - rewrite Hw. cbn [length]. wordlia.
Qed.

Lemma tx_push u c tx : tx_rep u tx → (length tx < 32)%nat →
  tx_rep (Uart (<[Z.to_nat (uart_tx_w u mod 32) := c]> (uart_tx_buf u)) (u64 (uart_tx_w u + 1)) (uart_tx_r u)) (tx ++ [c]).
Proof.
  intros [Hring Hr Hw] Hlt. split; cbn.
  - rewrite Hw, u64_mod32. by apply (ring_push 32 ltac:(lia)).
  - done.
  - rewrite Hw, length_app. cbn. wordlia.
Qed.

(** [uartstart] moves bytes from the buffer to the device. *)
Lemma uartstart_loop_spec fuel : ∀ s tx (Q : unit → cst D U → Prop), (length tx < fuel)%nat → tx_rep (cs_uart s) tx →
  (∀ k u d, (k ≤ length tx)%nat → tx_rep u (drop k tx) → dev_sent d = dev_sent (cs_dev s) ++ take k tx → dev_rx d = dev_rx (cs_dev s) →
     Q tt (CSt (cs_cons s) u d (cs_mem s) (cs_killed s) (cs_woken s ++ replicate k uart_tx_chan) (cs_panicked s) (cs_procs s))) →
  wp (uartstart_loop fuel) s Q.
Proof.
  induction fuel as [|fuel IH]; intros s tx Q Hf Hrep HQ; [lia|]. cbn [uartstart_loop]. wp_steps. rewrite (tx_empty _ _ Hrep).
  case_bool_decide as Ht.
  - subst tx. unfold read_reg. wp_steps. destruct (isr_read (cs_dev s)) as [Hs Hr]. destruct (ReadReg ISR (cs_dev s)) as [v d]. unfold set_dev. wp_steps.
    specialize (HQ 0%nat (cs_uart s) d). cbn in HQ. rewrite !app_nil_r in HQ. by apply HQ.
  - unfold read_reg. wp_steps. destruct (lsr_read (cs_dev s)) as (_ & Hi & Hs & Hr). destruct (ReadReg LSR (cs_dev s)) as [v d]. cbn [fst snd] in *. unfold set_dev. wp_steps.
    change LSR_TX_IDLE with (2 ^ 5). rewrite land_pow2, Hi by lia. destruct (dev_idle d) eqn:Hd; cbn [negb].
    + destruct tx as [|c tx]; [done|]. destruct (tx_pop _ _ _ Hrep) as [Hc Hrep']. wp_step. eapply wp_mnth; [exact Hc|]. unfold set_uart, cwakeup, write_reg, set_dev. wp_steps.
      destruct (thr_write d c Hd) as [Hs' Hr']. eapply (IH _ tx); [cbn in Hf; lia|exact Hrep'|]. cbn. intros k u d' Hk Hu Hd1 Hd2.
      specialize (HQ (S k) u d'). cbn in HQ. rewrite <-app_assoc. apply HQ; [lia|done| |congruence]. rewrite Hd1, Hs', Hs, <-app_assoc. done.
    + wp_steps. specialize (HQ 0%nat (cs_uart s) d). cbn in HQ. rewrite !app_nil_r in HQ. apply HQ; [lia|done|done|done].
Qed.

Lemma uartstart_spec s tx (Q : unit → cst D U → Prop) : tx_rep (cs_uart s) tx →
  (∀ k u d, (k ≤ length tx)%nat → tx_rep u (drop k tx) → dev_sent d = dev_sent (cs_dev s) ++ take k tx → dev_rx d = dev_rx (cs_dev s) →
     Q tt (CSt (cs_cons s) u d (cs_mem s) (cs_killed s) (cs_woken s ++ replicate k uart_tx_chan) (cs_panicked s) (cs_procs s))) →
  wp uartstart s Q.
Proof. intros Hrep. apply uartstart_loop_spec; [|done]. destruct Hrep as [(_ & Hl & _) _ _]. lia. Qed.

(** ** The input line *)
Record line_rep (c : cons) (l : line) : Prop := {
  lr_ring : ring 128 (c_buf c) (c_r c) (l_q l ++ l_ed l);
  lr_r : 0 ≤ c_r c < 4294967296;
  lr_w : c_w c = u32 (c_r c + Z.of_nat (length (l_q l)));
  lr_e : c_e c = u32 (c_r c + Z.of_nat (line_full l));
  lr_nl : 10 ∉ l_ed l
}.

Lemma u32_mod128 x : u32 x mod 128 = x mod 128.
Proof. apply Z.mod_mod_divide. by exists 33554432. Qed.

Lemma line_cap c l : line_rep c l → (line_full l ≤ 128)%nat.
Proof. intros [(_ & Hl & _) _ _ _ _]. by rewrite length_app in Hl. Qed.

Lemma line_no_edit c l : line_rep c l → (c_e c =? c_w c) = bool_decide (l_ed l = []).
Proof.
  intros Hr. pose proof (line_cap _ _ Hr) as Hc. destruct Hr as [_ Hr Hw He _]. rewrite Hw, He. unfold line_full in *.
  case_bool_decide as Ht; [rewrite Ht; cbn; apply Z.eqb_eq; f_equal; lia|].
  apply Z.eqb_neq. assert (length (l_ed l) ≠ 0%nat) by (by destruct (l_ed l)). wordlia.
Qed.

Lemma line_no_input c l : line_rep c l → (c_r c =? c_w c) = bool_decide (l_q l = []).
Proof.
  intros Hr. pose proof (line_cap _ _ Hr) as Hc. destruct Hr as [_ Hr Hw He _]. rewrite Hw. unfold line_full in *.
  case_bool_decide as Ht; [rewrite Ht; cbn; apply Z.eqb_eq; wordlia|].
  apply Z.eqb_neq. assert (length (l_q l) ≠ 0%nat) by (by destruct (l_q l)). wordlia.
Qed.

Lemma line_count c l : line_rep c l → u32 (c_e c - c_r c) = Z.of_nat (line_full l).
Proof. intros Hr. pose proof (line_cap _ _ Hr). destruct Hr as [_ Hr Hw He _]. rewrite He. wordlia. Qed.

(** The last character of the line that is being edited. *)
Lemma line_back c l ed x : line_rep c l → l_ed l = ed ++ [x] →
  c_buf c !! Z.to_nat (u32 (c_e c - 1) mod 128) = Some x ∧
  line_rep (Cons (c_buf c) (c_r c) (c_w c) (u32 (c_e c - 1))) (Line (l_q l) ed).
Proof.
  intros Hr Hed. pose proof (line_cap _ _ Hr) as Hc. destruct Hr as [Hring Hr Hw He Hnl]. unfold line_full in *. rewrite Hed in *. rewrite app_assoc in Hring. rewrite length_app in *. cbn [length] in *.
  split.
  - rewrite <-(ring_last 128 ltac:(lia) _ _ _ _ Hring). f_equal. rewrite u32_mod128, length_app, He. change (Z.of_nat 128) with 128.
    f_equal. rewrite <-Zminus_mod_idemp_l, u32_mod128, Zminus_mod_idemp_l. f_equal. lia.
  - split; cbn.
    + by apply (ring_prefix 128 ltac:(lia)) in Hring.
    + done.
    + done.
    + rewrite He. unfold line_full. cbn. wordlia.
    + intros ?. apply Hnl, elem_of_app. by left.
Qed.

(** A character goes to the end of the line. *)
Lemma line_push c l x : line_rep c l → (line_full l < 128)%nat →
  ring 128 (<[Z.to_nat (c_e c mod 128) := x]> (c_buf c)) (c_r c) (l_q l ++ l_ed l ++ [x]) ∧
  u32 (c_e c + 1) = u32 (c_r c + Z.of_nat (S (line_full l))).
Proof.
  intros [Hring Hr Hw He Hnl] Hlt. split.
  - rewrite He, u32_mod128, (assoc_L app). unfold line_full in *. replace (length (l_q l) + length (l_ed l))%nat with (length (l_q l ++ l_ed l)) in * by apply length_app.
    by apply (ring_push 128 ltac:(lia)).
  - rewrite He. wordlia.
Qed.

Lemma kill_line_spec fuel : ∀ s l (Q : unit → cst D U → Prop), (length (l_ed l) < fuel)%nat → line_rep (cs_cons s) l → cs_panicked s = false →
  (∀ c s', line_rep c (Line (l_q l) []) → sends (concat (replicate (length (l_ed l)) [8; 32; 8])) (with_cons c s) s' → Q tt s') →
  wp (kill_line fuel) s Q.
Proof.
  induction fuel as [|fuel IH]; intros s l Q Hf Hr Hp HQ; [lia|]. cbn [kill_line]. wp_steps. rewrite (line_no_edit _ _ Hr). case_bool_decide as Ht.
  - wp_steps. apply (HQ (cs_cons s)); [rewrite <-Ht; by destruct l|rewrite Ht; destruct s; apply sends_nil].
  - destruct (exists_last Ht) as (ed & x & Hed). destruct (line_back _ _ _ _ Hr Hed) as [Hx Hr']. wp_step. eapply wp_mnth; [exact Hx|].
    rewrite (proj2 (Z.eqb_neq x 10)). 2: { intros ->. apply (lr_nl _ _ Hr). rewrite Hed. apply elem_of_app. right. left. }
    unfold set_cons. wp_steps. apply consputc_spec; [done|]. intros s1 (d1 & -> & Hs1 & Hr1). apply (IH _ (Line (l_q l) ed)); [rewrite Hed, length_app in Hf; cbn in *; lia|exact Hr'|done|].
    intros c s' Hc (d2 & -> & Hs2 & Hr2). eapply (HQ c); [exact Hc|]. exists d2. split_and!; [done| |].
    + rewrite Hs2. cbn. rewrite Hs1. cbn. rewrite Hed, length_app. cbn. rewrite Nat.add_1_r. cbn. by rewrite <-app_assoc.
    + rewrite Hr2. cbn. rewrite Hr1. done.
Qed.

(** ** Printing *)

(** [m] returns, having only sent bytes, with a value that satisfies [P]. *)
Definition emits {A} (m : M (cst D U) A) (P : A → Prop) : Prop :=
  ∀ s (Q : A → cst D U → Prop), cs_panicked s = false → (∀ a txt s', P a → sends txt s s' → Q a s') → wp m s Q.

Lemma emits_ret {A} (a : A) (P : A → Prop) : P a → emits (mret a) P.
Proof. intros Ha s Q _ HQ. apply wp_ret. eapply HQ; [done|apply sends_nil]. Qed.

Lemma emits_bind {A B} (m : M (cst D U) A) (k : A → M (cst D U) B) P R : emits m P → (∀ a, P a → emits (k a) R) → emits (m ≫= k) R.
Proof.
  intros Hm Hk s Q Hp HQ. wp_step. apply Hm; [done|]. intros a t1 s1 Ha H1. apply (Hk a Ha); [by rewrite (sends_ok _ _ _ H1)|].
  intros b t2 s2 Hb H2. eapply HQ; [done|eapply sends_app; eassumption].
Qed.

Abbreviation quiet m := (emits m (λ _ : unit, True)).

Lemma emits_consputc c : quiet (consputc c).
Proof. intros s Q Hp HQ. apply consputc_spec; [done|]. intros s' Hs. by eapply HQ. Qed.

Lemma emits_mfor {A} (l : list A) (f : A → M (cst D U) unit) : (∀ x, quiet (f x)) → quiet (mfor l f).
Proof. intros Hf. induction l as [|x l IH]; [by apply emits_ret|]. cbn [mfor]. eapply emits_bind; [apply Hf|done]. Qed.

(** [%d] of any [int]: the buffer is large enough. *)
Lemma emits_printint xx : -2147483648 ≤ xx < 2147483648 → quiet (kprintint xx 10 true).
Proof.
  intros Hx. unfold kprintint. set (x := if true && (xx <? 0) then u64 (- xx) else u64 xx).
  assert (0 ≤ x < 10 ^ Z.of_nat 10) as Hxr by (unfold x; destruct (Z.ltb_spec xx 0); cbn [andb]; rewrite u64_small; lia).
  destruct (digit_loop_spec kdigits 6 10 10 ltac:(lia) x [] Hxr ltac:(lia)) as (ds & Hd & _ & _ & Hl). change (10 + 6)%nat with 16%nat in Hd. rewrite Hd.
  destruct (_ && _); [rewrite decide_True|]; [apply emits_mfor, emits_consputc| |apply emits_mfor, emits_consputc].
  rewrite length_app, length_fmap, length_reverse. cbn. lia.
Qed.

Lemma emits_d pid ap : emits (kprint_arg 100 (KInt false 10 true) (KNum pid :: ap)) (λ r, r = Some ap).
Proof.
  cbn -[kprintint]. eapply (emits_bind _ _ (λ r, r = (pid, ap))); [by apply emits_ret|]. intros ? ->. cbn [fst snd].
  eapply emits_bind; [apply emits_printint; wordlia|]. intros _ _. by apply emits_ret.
Qed.

Lemma emits_s x ap : emits (kprint_arg 115 KString (KStr x :: ap)) (λ r, r = Some ap).
Proof.
  cbn -[mfor]. eapply (emits_bind _ _ (λ r, r = (x, ap))); [by apply emits_ret|]. intros ? ->. cbn [fst snd].
  eapply emits_bind; [apply emits_mfor, emits_consputc|]. intros _ _. by apply emits_ret.
Qed.

Lemma emits_kprintf_nl : quiet (kprintf NL []).
Proof. unfold kprintf. change (chars NL) with [10]. cbn -[consputc]. eapply emits_bind; [apply emits_consputc|intros; by apply emits_ret]. Qed.

Lemma emits_proc_line pid state name : quiet (kprintf "%d %s %s" [KNum pid; KStr state; KStr name]).
Proof.
  unfold kprintf. change (chars "%d %s %s") with [37; 100; 32; 37; 115; 32; 37; 115]. cbn -[consputc kprint_arg].
  eapply emits_bind; [apply emits_d|]. intros ? ->. eapply emits_bind; [apply emits_consputc|]. intros _ _.
  eapply emits_bind; [apply emits_s|]. intros ? ->. eapply emits_bind; [apply emits_consputc|]. intros _ _.
  eapply emits_bind; [apply emits_s|]. intros ? ->. by apply emits_ret.
Qed.

Lemma emits_print_procs : quiet print_procs.
Proof.
  intros s Q Hp HQ. unfold print_procs. wp_step. apply emits_kprintf_nl; [done|]. intros [] t1 s1 _ H1. wp_steps.
  apply emits_mfor; [|by rewrite (sends_ok _ _ _ H1)|].
  - intros [[pid state] name]. eapply emits_bind; [apply emits_proc_line|intros; apply emits_kprintf_nl].
  - intros [] t2 s2 _ H2. eapply HQ; [done|eapply sends_app; eassumption].
Qed.

(** ** One character of input *)
Definition with_woken (w : list chan) s : cst D U :=
  CSt (cs_cons s) (cs_uart s) (cs_dev s) (cs_mem s) (cs_killed s) w (cs_panicked s) (cs_procs s).

Lemma consoleintr_spec ch s l (Q : unit → cst D U → Prop) : 0 ≤ ch < 256 → ch ≠ 16 → line_rep (cs_cons s) l → cs_panicked s = false →
  (∀ c s', line_rep c (type_char ch l).1.1 →
     sends (type_char ch l).1.2 (with_woken (cs_woken s ++ if (type_char ch l).2 then [cons_r_chan] else []) (with_cons c s)) s' → Q tt s') →
  wp (consoleintr ch) s Q.
Proof.
  intros Hch H16 Hr Hp HQ. unfold consoleintr, type_char in *. rewrite (proj2 (Z.eqb_neq ch 16)) by done.
  destruct (ch =? 21).
  { apply (kill_line_spec _ _ l); [|done|done|].
    - pose proof (line_cap _ _ Hr). unfold line_full in *. lia.
    - intros c s' Hc Hs. apply (HQ c); [done|]. cbn. by rewrite app_nil_r. }
  destruct ((ch =? 8) || (ch =? 127)) eqn:Hbs.
  { wp_steps. rewrite (line_no_edit _ _ Hr). case_bool_decide as Ht.
    - cbn [negb mwhen]. wp_steps. apply (HQ (cs_cons s)); cbn; [rewrite Ht; cbn; rewrite <-Ht; by destruct l|].
      rewrite app_nil_r, decide_True by done. destruct s. apply sends_nil.
    - destruct (exists_last Ht) as (ed & x & Hed). destruct (line_back _ _ _ _ Hr Hed) as [_ Hr']. cbn [negb mwhen]. unfold set_cons. wp_steps.
      apply consputc_spec; [done|]. intros s' Hs. eapply HQ; cbn; [|rewrite app_nil_r, decide_False by done; exact Hs].
      by rewrite Hed, removelast_last. }
  wp_steps. rewrite (line_count _ _ Hr). pose proof (line_cap _ _ Hr) as Hcap.
  destruct (Z.eqb_spec ch 0) as [->|Hn0]; cbn [negb andb orb].
  { cbn [mwhen]. wp_steps. apply (HQ (cs_cons s)); cbn; [done|]. rewrite app_nil_r. destruct s. apply sends_nil. }
  destruct (Z.ltb_spec (Z.of_nat (line_full l)) 128) as [Hlt|Hge].
  2: { cbn [mwhen]. wp_steps. rewrite (proj2 (Z.leb_le 128 _)) in HQ by lia. apply (HQ (cs_cons s)); cbn; [done|]. rewrite app_nil_r. destruct s. apply sends_nil. }
  rewrite (proj2 (Z.leb_gt 128 _)) in HQ by lia. cbn [mwhen]. set (x := if ch =? 13 then 10 else ch) in *.
  assert (0 ≤ x < 256) as Hx by (unfold x; destruct (ch =? 13); lia). clearbody x.
  wp_step. apply consputc_spec; [done|]. intros s1 (d1 & -> & Hs1 & Hr1). unfold set_cons. wp_steps. cbn [cs_cons with_dev].
  destruct (line_push (cs_cons s) l x Hr ltac:(lia)) as [Hring He]. rewrite (u8_small x) in * by lia.
  assert (cons_bytes x = [x]) as Hcb by (unfold cons_bytes, BACKSPACE; rewrite (proj2 (Z.eqb_neq x 256)) by lia; by rewrite u8_small by lia).
  rewrite Hcb in Hs1. assert (u32 (u32 (c_e (cs_cons s) + 1) - c_r (cs_cons s)) = Z.of_nat (S (line_full l))) as Hcnt.
  { rewrite He. pose proof (lr_r _ _ Hr). wordlia. }
  cbn [c_e c_r c_buf c_w]. rewrite Hcnt.
  assert ((Z.of_nat (S (line_full l)) =? 128) = (Z.of_nat (line_full l) =? 127)) as Hfull.
  { destruct (Z.eqb_spec (Z.of_nat (line_full l)) 127), (Z.eqb_spec (Z.of_nat (S (line_full l))) 128); lia. }
  rewrite Hfull. destruct ((x =? 10) || (x =? 4) || (Z.of_nat (line_full l) =? 127)) eqn:Hcommit; cbn [mwhen].
  - unfold cwakeup. wp_steps. eapply (HQ (Cons _ _ _ _)); cbn; [|exists d1; split_and!; [done|done|done]].
    split; cbn; [by rewrite app_nil_r|apply Hr| | |apply not_elem_of_nil]; rewrite He; do 3 f_equal; unfold line_full; cbn; rewrite !length_app; cbn; lia.
  - wp_steps. eapply (HQ (Cons _ _ _ _)); cbn; [|rewrite app_nil_r; exists d1; split_and!; [done|done|done]].
    split; cbn; [done|apply Hr|apply Hr| |].
    + rewrite He. do 3 f_equal. unfold line_full. cbn. rewrite length_app. cbn. lia.
    + intros [?|Hin%list_elem_of_singleton]%elem_of_app; [by apply (lr_nl _ _ Hr)|]. subst x. done.
Qed.
End refine.

Section ops.
Context {D U : Type} `{UL : UartLaws D} `{UM : UserMem U}.
Implicit Types s : cst D U.

(** ** The interrupt *)
Lemma uart_input_spec fuel : ∀ s l (Q : unit → cst D U → Prop), (length (dev_rx (cs_dev s)) < fuel)%nat → line_rep (cs_cons s) l → cs_panicked s = false →
  (∀ c d l' echo n, typed (dev_rx (cs_dev s)) l echo n l' → line_rep c l' → dev_sent d = dev_sent (cs_dev s) ++ echo → dev_rx d = [] →
     Q tt (CSt c (cs_uart s) d (cs_mem s) (cs_killed s) (cs_woken s ++ replicate n cons_r_chan) (cs_panicked s) (cs_procs s))) →
  wp (uart_input fuel) s Q.
Proof.
  induction fuel as [|fuel IH]; intros s l Q Hf Hr Hp HQ; [lia|]. cbn [uart_input]. unfold uartgetc, read_reg. wp_steps.
  destruct (lsr_read (cs_dev s)) as (Hb & _ & Hs & Hx). destruct (ReadReg LSR (cs_dev s)) as [v d]. cbn [fst snd] in *. unfold set_dev. wp_steps.
  change 1 with (2 ^ 0) at 1. rewrite land_pow2, Hb by lia. rewrite negb_involutive. case_bool_decide as Ht.
  - wp_steps. cbn. wp_steps. rewrite Ht in HQ. specialize (HQ (cs_cons s) d l [] 0%nat). cbn in HQ. rewrite !app_nil_r in HQ. apply HQ; [constructor|done|done|congruence].
  - destruct (dev_rx (cs_dev s)) as [|c rx] eqn:Hrx; [done|]. wp_steps. cbn [cs_dev].
    destruct (rhr_read d c rx) as (Hc & Hs' & Hx'); [congruence|]. destruct (ReadReg RHR d) as [v' d']. cbn [fst snd] in *. wp_steps.
    pose proof (rx_bytes (cs_dev s)) as Hby. rewrite Hrx in Hby. apply Forall_cons in Hby as [Hby _]. subst v'. rewrite (proj2 (Z.eqb_neq c (-1))) by lia. wp_steps.
    set (s1 := CSt _ _ d' _ _ _ _ _).
    assert (∀ s2 cc l1 echo1 n1, line_rep cc l1 → sends echo1 (with_woken (cs_woken s ++ replicate n1 cons_r_chan) (with_cons cc s1)) s2 →
      (∀ l' echo n, typed rx l1 echo n l' → typed (c :: rx) l (echo1 ++ echo) (n1 + n) l') → wp (uart_input fuel) s2 Q) as Hnext.
    { intros s2 cc l1 echo1 n1 Hcc (d2 & -> & Hs2 & Hr2) Hty. apply (IH _ l1); cbn.
      - rewrite Hr2. cbn in *. rewrite Hx'. lia.
      - done.
      - done.
      - rewrite Hr2. cbn. rewrite Hx'. intros cc' d3 l' echo n Hty' Hcc' Hd3 Hd3'. rewrite <-app_assoc, <-replicate_add. eapply HQ; [by apply Hty|done| |done].
        rewrite Hd3, Hs2. cbn. by rewrite Hs', Hs, <-app_assoc. }
    destruct (decide (c = 16)) as [->|H16].
    + unfold consoleintr. rewrite Z.eqb_refl. apply emits_print_procs; [done|]. intros [] txt s2 _ H2.
      apply (Hnext s2 (cs_cons s) l txt 0%nat); [done|cbn; by rewrite app_nil_r|]. intros. by apply typed_procs.
    + eapply (consoleintr_spec c s1 l); [done|done|done|done|]. intros cc s2 Hcc H2.
      apply (Hnext s2 cc (type_char c l).1.1 (type_char c l).1.2 (if (type_char c l).2 then 1 else 0)%nat); [done| |].
      * by destruct (type_char c l).2.
      * intros. by apply typed_char.
Qed.

(** ** Reading *)
Lemma line_pop c x q ed : line_rep c (Line (x :: q) ed) → c_buf c !! Z.to_nat (c_r c mod 128) = Some x ∧
  line_rep (Cons (c_buf c) (u32 (c_r c + 1)) (c_w c) (c_e c)) (Line q ed).
Proof.
  intros Hr. pose proof (line_cap _ _ Hr) as Hc. destruct Hr as [Hring Hr Hw He Hnl]. unfold line_full in *. cbn in *.
  destruct (ring_head 128 ltac:(lia) _ _ _ _ Hring) as [Hx Hring']. split; [done|]. split; cbn; [|wordlia|rewrite Hw; wordlia|rewrite He; unfold line_full; cbn; wordlia|done].
  eapply ring_mod; [|exact Hring']. change (Z.of_nat 128) with 128. by rewrite u32_mod128.
Qed.

Lemma consoleread_loop_spec fuel target : ∀ s q ed dst n (Q : cres → cst D U → Prop), (Z.to_nat n < fuel)%nat → line_rep (cs_cons s) (Line q ed) →
  (∀ c m' q' r, line_read (cs_killed s) (cs_mem s) target dst n q = (m', q', r) → line_rep c (Line q' ed) →
     Q r (CSt c (cs_uart s) (cs_dev s) m' (cs_killed s) (cs_woken s) (cs_panicked s) (cs_procs s))) →
  wp (consoleread_loop fuel target dst n) s Q.
Proof.
  induction fuel as [|fuel IH]; intros s q ed dst n Q Hf Hr HQ; [lia|]. cbn [consoleread_loop]. destruct (n >? 0) eqn:Hn.
  2: { wp_steps. destruct s. eapply HQ; [|exact Hr]. destruct q; cbn; by rewrite Hn. }
  apply Z.gtb_lt in Hn as Hn'. wp_steps. rewrite (line_no_input _ _ Hr). cbn [l_q]. case_bool_decide as Hq.
  { subst q. cbn [line_read] in HQ. rewrite Hn in HQ. destruct s, cs_killed; wp_steps; by eapply HQ. }
  destruct q as [|c q]; [done|]. destruct (line_pop _ _ _ _ Hr) as [Hc Hr']. wp_step. eapply wp_mnth; [exact Hc|]. unfold set_cons, set_cmem. wp_steps.
  cbn [line_read] in HQ. rewrite Hn in HQ. destruct (c =? 4).
  { destruct (n <? target); cbn [mwhen]; wp_steps; (eapply HQ; [done|]); [|done].
    assert (u32 (u32 (c_r (cs_cons s) + 1) - 1) = c_r (cs_cons s)) as -> by (pose proof (lr_r _ _ Hr); wordlia). by destruct (cs_cons s). }
  destruct (ucopyout (cs_mem s) dst [c]) as [m' ok]. wp_steps. destruct ok; cbn [negb] in *; [|wp_steps; by eapply HQ].
  destruct (c =? 10); [wp_steps; by eapply HQ|]. eapply IH; [lia|exact Hr'|]. cbn. intros c' m2 q' r Hl Hc'. by eapply HQ.
Qed.

(** ** Writing *)
Lemma uartputc_spec c s tx (Q : bool → cst D U → Prop) : tx_rep (cs_uart s) tx → cs_panicked s = false →
  (length tx = 32%nat → Q false s) →
  (∀ k u d, (length tx < 32)%nat → tx_rep u (drop k (tx ++ [u8 c])) → dev_sent d = dev_sent (cs_dev s) ++ take k (tx ++ [u8 c]) → dev_rx d = dev_rx (cs_dev s) →
     Q true (CSt (cs_cons s) u d (cs_mem s) (cs_killed s) (cs_woken s ++ replicate k uart_tx_chan) (cs_panicked s) (cs_procs s))) →
  wp (uartputc c) s Q.
Proof.
  intros Hr Hp HQf HQt. unfold uartputc. wp_steps. rewrite Hp, (tx_full _ _ Hr). case_bool_decide as Hl; [wp_steps; by apply HQf|].
  assert (length tx < 32)%nat as Hlt by (destruct Hr as [(_ & ? & _) _ _]; lia).
  unfold set_uart. wp_steps. eapply (uartstart_spec _ (tx ++ [u8 c])); [cbn; by apply tx_push|].
  cbn. intros k u d Hk Hu Hd Hrx. wp_steps. rewrite Hp in *. by apply HQt.
Qed.

(** What was written so far, and how the bytes moved. *)
Lemma consolewrite_loop_spec fuel src n : ∀ s i tx (Q : cres → cst D U → Prop), (Z.to_nat (n - i) < fuel)%nat → i ≤ n → tx_rep (cs_uart s) tx → cs_panicked s = false →
  (∀ u d w' bs tx' r, tx_rep u tx' → dev_rx d = dev_rx (cs_dev s) → dev_sent d ++ tx' = dev_sent (cs_dev s) ++ tx ++ bs →
     (length (dev_sent (cs_dev s)) ≤ length (dev_sent d))%nat →
     (∀ j, (j < length bs)%nat → ∃ b, bs !! j = Some (u8 b) ∧ ucopyin (cs_mem s) (u64 (src + i + Z.of_nat j)) 1 = ([b], true)) →
     (let i' := i + Z.of_nat (length bs) in
      (r = CSleep src i' ∧ length tx' = 32%nat ∧ i' < n) ∨
      (r = CRet i' ∧ (i' = n ∨ (i' < n ∧ ∀ b, ucopyin (cs_mem s) (u64 (src + i')) 1 ≠ ([b], true))))) →
     Q r (CSt (cs_cons s) u d (cs_mem s) (cs_killed s) w' (cs_panicked s) (cs_procs s))) →
  wp (consolewrite_loop fuel src n i) s Q.
Proof.
  induction fuel as [|fuel IH]; intros s i tx Q Hf Hin Hr Hp HQ; [lia|]. cbn [consolewrite_loop].
  assert (∀ r, (let i' := i + 0 in (r = CSleep src i' ∧ length tx = 32%nat ∧ i' < n) ∨
      (r = CRet i' ∧ (i' = n ∨ (i' < n ∧ ∀ b, ucopyin (cs_mem s) (u64 (src + i')) 1 ≠ ([b], true))))) → Q r s) as Hstop.
  { intros r Hr'. specialize (HQ (cs_uart s) (cs_dev s) (cs_woken s) [] tx r). destruct s. apply HQ; [done|done|by rewrite app_nil_r|done|cbn; lia|done]. }
  destruct (Z.ltb_spec i n) as [Hlt|Hge].
  2: { wp_steps. apply Hstop. cbv zeta. right. rewrite Z.add_0_r. split; [done|]. left. lia. }
  wp_steps. destruct (ucopyin (cs_mem s) (u64 (src + i)) 1) as [bytes ok] eqn:Hc.
  assert ((∃ b, bytes = [b] ∧ ok = true) ∨ ¬ ∃ b, bytes = [b] ∧ ok = true) as [(b & -> & ->)|Hno].
  { destruct bytes as [|b [|]]; [by right; intros (? & ? & _)| |by right; intros (? & ? & _)]. destruct ok; [left; eauto|by right; intros (? & _ & ?)]. }
  2: { assert (Q (CRet i) s) as Hq.
       { apply Hstop. cbv zeta. rewrite Z.add_0_r. right. split; [done|]. right. split; [done|]. intros b Hb. apply Hno. exists b. rewrite Hb in Hc. by injection Hc as <- <-. }
       destruct bytes as [|b [|]]; [|destruct ok; [exfalso; apply Hno; eauto|]|]; wp_steps; done. }
  wp_step. apply (uartputc_spec b s tx); [done|done| |].
  { intros Hl. wp_steps. apply Hstop. cbv zeta. rewrite Z.add_0_r. left. done. }
  intros k u d Hl Hu Hd Hrx. eapply (IH _ (i + 1)); [lia|lia|exact Hu|done|]. cbn. intros u' d' w' bs tx' r Hu' Hrx' Hsent Hlen Hbs Hend.
  eapply (HQ u' d' w' (u8 b :: bs) tx' r); [done|congruence| | | |].
  - rewrite Hsent, Hd, <-!app_assoc, (app_assoc (take k _)), take_drop. by rewrite <-app_assoc.
  - rewrite Hd, length_app in Hlen. lia.
  - intros [|j] Hj; cbn in *; [exists b; split; [done|]; by rewrite Z.add_0_r|]. destruct (Hbs j ltac:(lia)) as (b' & ? & Hb'). exists b'. split; [done|].
    rewrite <-Hb'. do 2 f_equal. lia.
  - cbn [length]. cbv zeta in *. replace (i + Z.of_nat (S (length bs))) with (i + 1 + Z.of_nat (length bs)) by lia. done.
Qed.

(** ** Refinement *)
Record crep s (a : ast U) : Prop := {
  cp_line : line_rep (cs_cons s) (a_line a);
  cp_tx : tx_rep (cs_uart s) (a_tx a);
  cp_sent : dev_sent (cs_dev s) = a_sent a;
  cp_rx : dev_rx (cs_dev s) = a_rx a;
  cp_mem : cs_mem s = a_mem a;
  cp_killed : cs_killed s = a_killed a;
  cp_woken : cs_woken s = a_woken a;
  cp_ok : cs_panicked s = false
}.

Definition crun (o : cop) : M (cst D U) cres :=
  match o with
  | OIntr => uartintr ;; mret (CRet 0)
  | ORead target dst n => consoleread_from target dst n
  | OWrite src n i => consolewrite_from src n i
  end.

(** A write goes on within its bounds. *)
Definition cop_ok (o : cop) : Prop := match o with OWrite _ n i => i ≤ n | _ => True end.

End ops.

(** ** A device that is busy for a while after every byte *)
Module ConsoleDemo.
Record dev := Dev { out : list Z; raw : list Z; busy : nat }.

#[export] Instance demo_uart : UartDev dev := {|
  ReadReg := λ r d,
    if r =? LSR then
      let b := pred (busy d) in
      (match raw d, b with
       | [], O => 32 | [], _ => 0 | _, O => 33 | _, _ => 1
       end, Dev (out d) (raw d) b)
    else if r =? RHR then (u8 (default 0 (head (raw d))), Dev (out d) (tail (raw d)) (busy d))
    else (0, d);
  WriteReg := λ r v d, if (r =? THR) && bool_decide (busy d = 0%nat) then Dev (out d ++ [v]) (raw d) 3 else d;
  dev_sent := out;
  dev_rx := λ d, u8 <$> raw d;
  dev_idle := λ d, bool_decide (busy d = 0%nat);
  dev_wait := busy
|}.

#[export] Instance demo_uart_laws : UartLaws dev.
Proof.
  split.
  - intros [o i b]. cbn. destruct i, (pred b); done.
  - intros [o i b]. cbn. case_bool_decide; [done|]. lia.
  - intros [o i b]. done.
  - intros [o i b] c r. cbn. destruct i as [|x i]; [done|]. cbn. intros [= <- <-]. done.
  - intros [o i b] c. cbn. case_bool_decide; done.
  - intros [o i b]. cbn. apply Forall_fmap, Forall_true. intros x. cbn. wordlia.
Qed.

(** The memory of a process as the bytes stored last. *)
#[export] Instance demo_mem : UserMem (list Z) := {|
  ucopyout := λ m _ bs, (m ++ bs, true);
  ucopyin := λ _ _ n, (replicate n 120, true);
  ucopyinstr := λ _ _ _, None
|}.

(** A console on which a line was typed and corrected, and one that was read. *)
Definition demo_console (rx : list Z) : cst dev (list Z) :=
  CSt (Cons (replicate 128 0) 4294967295 4294967295 4294967295) (Uart (replicate 32 0) 0 0) (Dev [] rx 2) [] false [] false [].
Definition demo_abstract (rx : list Z) : ast (list Z) := ASt (Line [] []) [] [] rx [] false [].

Lemma demo_rep rx : Forall (λ c, 0 ≤ c < 256) rx → crep (demo_console rx) (demo_abstract rx).
Proof.
  intros Hrx. split; cbn; try done.
  - split; cbn; try done; [split_and!; [done|cbn; lia|cbn; lia]|apply not_elem_of_nil].
  - split; cbn; try done. split_and!; [done|cbn; lia|cbn; lia].
  - rewrite <-(list_fmap_id rx) at 2. apply list_fmap_ext. intros i x Hx. apply Forall_lookup_1 with (x := x) (i := i) in Hrx; [|done]. cbn in *. wordlia.
Qed.


(** What the reader then gets. *)
Definition typed_line : cst dev (list Z) :=
  match crun OIntr (demo_console (chars "hj" ++ [8; 105; 13])) with Ret _ s => s | _ => demo_console [] end.

Example demo_read : match consoleread 0 100 typed_line with
  | Ret r s => r = CRet 3 ∧ cs_mem s = chars ("hi" +:+ NL) ∧ out (cs_dev s) = chars "hj" ++ [8; 32; 8] ++ chars ("i" +:+ NL)
  | _ => False
  end.
Proof. vm_compute. split_and!; reflexivity. Qed.
End ConsoleDemo.
