(* ===== verification/Uprogs.v ===== *)
(** * The small user programs

    cat, wc, echo, cp, touch, rm, mkdir, ln, kill, chmod, clear, ls, ps and pwd of
    user/, each as its [main] on the list of its arguments. Loops that read to the
    end of a file take a bound on the number of reads. *)
From Stdlib Require Import ZArith Lia.
From stdpp Require Import prelude gmap strings.
From S2P Require Import Prelude Bytes Param Str Fs User Ulib Uprintf.

Section code.
Context {S : Type} `{Sys S} `{SysFiles S} `{SysMisc S}.

(** ** user/cat.c *)
Fixpoint cat (fuel : nat) (fd : Z) : U S unit :=
  match fuel with
  | O => unofuel
  | Datatypes.S fuel =>
      r ← read fd 512;
      let '(n, buf) := r in
      if n >? 0 then
        w ← write 1 buf;
        if negb (w =? n) then fprintf 2 ("cat: write error" +:+ NL) [] ;; uexit 1
        else cat fuel fd
      else if n <? 0 then fprintf 2 ("cat: read error" +:+ NL) [] ;; uexit 1
      else mret tt
  end.

(** The loop over the arguments that cat and wc share, with what they say when
    a file cannot be opened and what they do with one that can. *)
Fixpoint each_file (files : list (list Z)) (cannot : list Z → U S unit) (body : Z → list Z → U S unit) : U S unit :=
  match files with
  | [] => mret tt
  | f :: files =>
      fd ← open f O_RDONLY;
      if fd <? 0 then cannot f ;; uexit 1
      else
        body fd f ;;
        close fd ;;
        each_file files cannot body
  end.

Definition cat_main (fuel : nat) (argv : list (list Z)) : U S unit :=
  (if decide (length argv ≤ 1)%nat then cat fuel 0 ;; uexit 0
   else
     each_file (tail argv)
       (λ f, fprintf 2 ("cat: cannot open %s" +:+ NL) [VStr f])
       (λ fd _, cat fuel fd)) ;;
  uexit 0.

(** ** user/wc.c *)

(** [l], [w], [c] and [inword]. *)
Record counts := Counts { wc_l : Z; wc_w : Z; wc_c : Z; wc_in : bool }.

(** The body of [for(i=0; i<n; i++)]. *)
Definition wc_char (k : counts) (b : Z) : counts :=
  let c := s32 (wc_c k + 1) in
  let l := if b =? 10 then s32 (wc_l k + 1) else wc_l k in
  match strchr [32; 13; 9; 10; 11] b with
  | Some _ => Counts l (wc_w k) c false
  | None => if negb (wc_in k) then Counts l (s32 (wc_w k + 1)) c true else Counts l (wc_w k) c (wc_in k)
  end.

Fixpoint wc_loop (fuel : nat) (fd : Z) (k : counts) : U S (Z * counts) :=
  match fuel with
  | O => unofuel
  | Datatypes.S fuel =>
      r ← read fd 512;
      let '(n, buf) := r in
      if n >? 0 then wc_loop fuel fd (foldl wc_char k buf) else mret (n, k)
  end.

Definition wc (fuel : nat) (fd : Z) (name : list Z) : U S unit :=
  r ← wc_loop fuel fd (Counts 0 0 0 false);
  let '(n, k) := r in
  if n <? 0 then printf ("wc: read error" +:+ NL) [] ;; uexit 1
  else printf ("%d %d %d %s" +:+ NL) [VNum (wc_l k); VNum (wc_w k); VNum (wc_c k); VStr name].

Definition wc_main (fuel : nat) (argv : list (list Z)) : U S unit :=
  (if decide (length argv ≤ 1)%nat then wc fuel 0 [] ;; uexit 0
   else
     each_file (tail argv)
       (λ f, printf ("wc: cannot open %s" +:+ NL) [VStr f])
       (λ fd f, wc fuel fd f)) ;;
  uexit 0.

(** ** user/echo.c *)
Fixpoint echo_args (args : list (list Z)) : U S unit :=
  match args with
  | [] => mret tt
  | a :: args =>
      write 1 a ;;
      write 1 (match args with _ :: _ => [32] | [] => [10] end) ;;
      echo_args args
  end.

Definition echo_main (argv : list (list Z)) : U S unit := echo_args (tail argv) ;; uexit 0.

(** ** user/cp.c *)
Fixpoint cp_loop (fuel : nat) (fd_source fd_dest : Z) : U S Z :=
  match fuel with
  | O => unofuel
  | Datatypes.S fuel =>
      r ← read fd_source 512;
      let '(n, buffer) := r in
      if n >? 0 then
        w ← write fd_dest buffer;
        if negb (w =? n) then
          fprintf 2 ("cp: write error" +:+ NL) [] ;;
          close fd_source ;;
          close fd_dest ;;
          uexit 1
        else cp_loop fuel fd_source fd_dest
      else mret n
  end.

Definition cp_main (fuel : nat) (argv : list (list Z)) : U S unit :=
  match argv with
  | [_; src; dst] =>
      fd_source ← open src O_RDONLY;
      if fd_source <? 0 then fprintf 2 ("cp: cannot open %s" +:+ NL) [VStr src] ;; uexit 1 else
      fd_dest ← open dst (Z.lor O_CREATE O_WRONLY);
      if fd_dest <? 0 then
        fprintf 2 ("cp: cannot create %s" +:+ NL) [VStr dst] ;;
        close fd_source ;;
        uexit 1
      else
      n ← cp_loop fuel fd_source fd_dest;
      if n <? 0 then
        fprintf 2 ("cp: read error" +:+ NL) [] ;;
        close fd_source ;;
        close fd_dest ;;
        uexit 1
      else
      close fd_source ;;
      close fd_dest ;;
      uexit 0
  | _ => fprintf 2 ("Usage: cp source_file destination_file" +:+ NL) [] ;; uexit 1
  end.

(** ** user/touch.c *)
Definition touch_main (argv : list (list Z)) : U S unit :=
  (if decide (length argv < 2)%nat then printf ("Usage: touch filename" +:+ NL) [] ;; uexit 1 else mret tt) ;;
  ufor (tail argv) (λ f,
    fd ← open f (Z.lor O_RDWR O_CREATE);
    if fd <? 0 then printf ("touch: cannot create %s" +:+ NL) [VStr f] ;; uexit 1
    else close fd ;; mret tt) ;;
  uexit 0.

(** ** user/rm.c and user/mkdir.c *)

(** [for(i = 1; i < argc; i++) if(call(argv[i]) < 0){ ...; break; }] *)
Fixpoint until_error (call : list Z → U S Z) (complain : list Z → U S unit) (args : list (list Z)) : U S unit :=
  match args with
  | [] => mret tt
  | a :: args => r ← call a; if r <? 0 then complain a else until_error call complain args
  end.

Definition rm_main (argv : list (list Z)) : U S unit :=
  (if decide (length argv < 2)%nat then fprintf 2 ("Usage: rm files..." +:+ NL) [] ;; uexit 1 else mret tt) ;;
  until_error unlink (λ f, fprintf 2 ("rm: %s failed to delete" +:+ NL) [VStr f]) (tail argv) ;;
  uexit 0.

Definition mkdir_main (argv : list (list Z)) : U S unit :=
  (if decide (length argv < 2)%nat then fprintf 2 ("Usage: mkdir files..." +:+ NL) [] ;; uexit 1 else mret tt) ;;
  until_error mkdir (λ f, fprintf 2 ("mkdir: %s failed to create" +:+ NL) [VStr f]) (tail argv) ;;
  uexit 0.

(** ** user/ln.c, user/kill.c, user/chmod.c and user/clear.c *)
Definition ln_main (argv : list (list Z)) : U S unit :=
  match argv with
  | [_; old; new] =>
      r ← link old new;
      (if r <? 0 then fprintf 2 ("link %s %s: failed" +:+ NL) [VStr old; VStr new] else mret tt) ;;
      uexit 0
  | _ => fprintf 2 ("Usage: ln old new" +:+ NL) [] ;; uexit 1
  end.

Definition kill_main (argv : list (list Z)) : U S unit :=
  (if decide (length argv < 2)%nat then fprintf 2 ("usage: kill pid..." +:+ NL) [] ;; uexit 1 else mret tt) ;;
  ufor (tail argv) (λ a, kill (atoi a) ;; mret tt) ;;
  uexit 0.

Definition chmod_main (argv : list (list Z)) : U S unit :=
  match argv with
  | _ :: m :: f :: _ =>
      let mode := atoi m in
      r ← chmod f mode;
      (if r <? 0 then printf ("chmod: cannot change permissions of %s" +:+ NL) [VStr f] ;; uexit 1 else mret tt) ;;
      uexit 0
  | _ => printf ("Usage: chmod mode file" +:+ NL) [] ;; uexit 1
  end.

Definition clear_main : U S unit := write 1 (27 :: chars "[2J") ;; write 1 (27 :: chars "[H") ;; uexit 0.

(** ** user/ls.c *)

(** The name after the last slash. *)
Fixpoint after_slash (path : list Z) : list Z :=
  match path with
  | [] => []
  | c :: path' => if existsb (λ d, d =? 47) path' then after_slash path' else if c =? 47 then path' else path
  end.

Definition fmtname (path : list Z) : list Z :=
  let p := after_slash path in
  if decide (14 ≤ length p)%nat then p else p ++ replicate (14 - length p) 32.

Definition ret_type (type : Z) : string :=
  if type =? 2 then "-" else if type =? 1 then "d" else if type =? 3 then "b" else "?".

Definition ret_perm (perm : Z) : string :=
  match perm with
  | 0 => "---" | 1 => "--x" | 2 => "-w-" | 3 => "-wx"
  | 4 => "r--" | 5 => "r-x" | 6 => "rw-" | 7 => "rwx"
  | _ => "---"
  end.

(** The line that describes a file. *)
Definition ls_line (name : list Z) (st : stat) : U S unit :=
  printf ("%s%s %s %d %d" +:+ NL)
    [VStr (chars (ret_type (st_type st))); VStr (chars (ret_perm (st_mode st))); VStr (fmtname name);
     VNum (st_ino st); VNum (st_size st)].

(** The loop over the entries of a directory; [path] is what is in [buf] before [p]. *)
Fixpoint ls_entries (fuel : nat) (fd : Z) (path : list Z) : U S unit :=
  match fuel with
  | O => unofuel
  | Datatypes.S fuel =>
      r ← read fd 16;
      let '(n, de) := r in
      if n =? 16 then
        if le_val (take 2 de) =? 0 then ls_entries fuel fd path
        else
          let buf := path ++ cut0 (drop 2 de) in
          r ← ulib_stat buf;
          match r with
          | (e, Some st) =>
              if e <? 0 then printf ("ls: cannot stat %s" +:+ NL) [VStr buf] ;; ls_entries fuel fd path
              else ls_line buf st ;; ls_entries fuel fd path
          | (_, None) => printf ("ls: cannot stat %s" +:+ NL) [VStr buf] ;; ls_entries fuel fd path
          end
      else mret tt
  end.

Definition ls (fuel : nat) (path : list Z) : U S unit :=
  fd ← open path O_RDONLY;
  if fd <? 0 then fprintf 2 ("ls: cannot open %s" +:+ NL) [VStr path] else
  r ← fstat fd;
  let '(e, st) := r in
  if e <? 0 then fprintf 2 ("ls: cannot stat %s" +:+ NL) [VStr path] ;; close fd ;; mret tt else
  (if (st_type st =? T_DEVICE) || (st_type st =? T_FILE) then ls_line path st
   else if st_type st =? T_DIR then
     if decide (512 < length path + 1 + 14 + 1)%nat then printf ("ls: path too long" +:+ NL) []
     else ls_entries fuel fd (path ++ [47])
   else mret tt) ;;
  close fd ;;
  mret tt.

Definition ls_main (fuel : nat) (argv : list (list Z)) : U S unit :=
  if decide (length argv < 2)%nat then ls fuel (chars ".") ;; uexit 0
  else ufor (tail argv) (ls fuel) ;; uexit 0.

(** ** user/ps.c *)

(** The names of the values of [enum procstate] of user/uproc.h. *)
Definition ps_state (state : Z) : string :=
  match state with
  | 0 => "unused   " | 1 => "sleep    " | 2 => "runnable " | 3 => "running  " | 4 => "zombie   "
  | _ => "unknown  "
  end.

Definition TAB : string := String (Ascii.ascii_of_nat 9) EmptyString.

Definition ps_main : U S unit :=
  printf (NL +:+ "PID" +:+ TAB +:+ "STATE" +:+ TAB +:+ TAB +:+ "NAME" +:+ NL) [] ;;
  printf ("------------------------------------" +:+ NL) [] ;;
  r ← getprocs;
  let '(count, info) := r in
  ufor (take (Z.to_nat count) info) (λ '(pid, state, name),
    printf ("%d" +:+ TAB +:+ "%s" +:+ TAB +:+ "%s" +:+ NL) [VNum pid; VStr (chars (ps_state state)); VStr name]) ;;
  printf NL [] ;;
  uexit 0.

(** ** user/pwd.c *)

(** The string in [de.name], which [strcpy] and [stat] read up to a null byte; 14
    bytes without one are read past the end. *)
Definition dirent_name (de : list Z) : option (list Z) :=
  let n := cut0 (drop 2 de) in
  if decide (length n < 14)%nat then Some n else None.

(** [strcpy] into an array of [MAX_PATH] bytes. *)
Definition fit_path (path : list Z) : U S (list Z) := if decide (length path < 128)%nat then mret path else ufault.

(** The loop that looks for the directory [prev] was in; [st] is what the last
    [stat] found. *)
Fixpoint pwd_find (fuel : nat) (fd : Z) (prev : Z) (st : stat) (path : list Z) : U S (stat * list Z) :=
  match fuel with
  | O => unofuel
  | Datatypes.S fuel =>
      r ← read fd 16;
      let '(n, de) := r in
      if n =? 16 then
        if le_val (take 2 de) =? 0 then pwd_find fuel fd prev st path
        else
          match dirent_name de with
          | None => ufault
          | Some name =>
              r ← ulib_stat name;
              if fst r <? 0 then pwd_find fuel fd prev st path
              else
                let st := default st (snd r) in
                if st_ino st =? prev then p ← fit_path (chars "/" ++ name ++ path); mret (st, p)
                else pwd_find fuel fd prev st path
          end
      else mret (st, path)
  end.

(** [while(st.ino != 1)] *)
Fixpoint pwd_up (fuel : nat) (fd : Z) (prev : stat) (st : stat) (path : list Z) : U S (Z * list Z) :=
  match fuel with
  | O => unofuel
  | Datatypes.S fuel =>
      if st_ino st =? 1 then mret (fd, path) else
      close fd ;;
      r ← chdir (chars "..");
      if r <? 0 then fprintf 2 ("pwd: cannot cd to parent" +:+ NL) [] ;; uexit 1 else
      fd ← open (chars ".") 0;
      if fd <? 0 then fprintf 2 ("pwd: cannot open directory" +:+ NL) [] ;; uexit 1 else
      r ← pwd_find fuel fd (st_ino prev) st path;
      let '(st, path) := r in
      r ← fstat fd;
      if fst r <? 0 then fprintf 2 ("pwd: cannot stat directory" +:+ NL) [] ;; close fd ;; uexit 1 else
      pwd_up fuel fd (snd r) st path
  end.

Definition get_current_dir (fuel : nat) : U S (list Z) :=
  let path := chars "." in
  fd ← open (chars ".") 0;
  if fd <? 0 then fprintf 2 ("pwd: cannot open current directory" +:+ NL) [] ;; uexit 1 else
  r ← fstat fd;
  let '(e, st) := r in
  if e <? 0 then fprintf 2 ("pwd: cannot stat current directory" +:+ NL) [] ;; close fd ;; uexit 1 else
  r ← pwd_up fuel fd st st path;
  let '(fd, path) := r in
  close fd ;;
  mret (if decide (path = []) then chars "/" else path).

Definition pwd_main (fuel : nat) : U S unit :=
  path ← get_current_dir fuel;
  printf ("%s" +:+ NL) [VStr path] ;;
  uexit 0.
End code.
