(* ===== verification/UprogsTheorems.v ===== *)
(** * What cat and wc compute, and what pwd and ps print *)
From Stdlib Require Import ZArith Lia.
From stdpp Require Import prelude gmap strings.
From S2P Require Import Prelude Bytes Param Str Proc Fs User Ulib Uprintf Uprogs.

(** ** Reading a file to its end *)

Lemma cat_spec fuel fd : ∀ s Q E,
  live s fd → (length (input s fd) < fuel)%nat →
  (∀ s', (∀ fd', output s' fd' = output s fd' ++ if decide (1 = fd') then input s fd else []) → s_files s' = s_files s → s_next s' = s_next s → Q tt s') →
  uwp (cat (S := streams) fuel fd) s Q E.
Proof.
  induction fuel as [|fuel IH]; intros s Q E Hl Hf HQ; [lia|]. cbn [cat]. uwp_step. apply stream_read_spec; [done|lia| |].
  - intros got s1 Hg Hgl Hi Hl1 Ho1 Hp1 Hfi Hn. rewrite (proj2 (Z.gtb_lt _ 0)) by (destruct got; [done|cbn; lia]).
    uwp_step. unfold uwp at 1. cbn [write stream_sys]. rewrite Z.eqb_refl. cbn [negb].
    apply IH; [done|rewrite Hi, length_app in Hf; destruct got; [done|cbn in *; unfold input, pieces, add_out in *; cbn; lia]|].
    intros s2 Ho2 Hf2 Hn2. apply HQ; [|by rewrite Hf2|by rewrite Hn2]. intros fd'. rewrite Ho2, output_add.
    assert (output s1 fd' = output s fd') as -> by (unfold output; by rewrite Ho1).
    change (input (add_out 1 got s1) fd) with (input s1 fd). rewrite Hi. case_decide; by rewrite ?app_nil_r, <-?app_assoc.
  - intros Hi. cbn. apply HQ; [|done|done]. intros fd'. rewrite Hi. case_decide; by rewrite app_nil_r.
Qed.

Lemma wc_loop_spec fuel fd : ∀ k s Q E,
  live s fd → (length (input s fd) < fuel)%nat →
  (∀ s', s_out s' = s_out s → s_files s' = s_files s → s_next s' = s_next s → Q (0, foldl wc_char k (input s fd)) s') →
  uwp (wc_loop (S := streams) fuel fd k) s Q E.
Proof.
  induction fuel as [|fuel IH]; intros k s Q E Hl Hf HQ; [lia|]. cbn [wc_loop]. uwp_step. apply stream_read_spec; [done|lia| |].
  - intros got s1 Hg Hgl Hi Hl1 Ho1 Hp1 Hfi Hn. rewrite (proj2 (Z.gtb_lt _ 0)) by (destruct got; [done|cbn; lia]).
    apply IH; [done|rewrite Hi, length_app in Hf; destruct got; [done|cbn in *; lia]|].
    intros s2 Ho2 Hf2 Hn2. rewrite <-foldl_app, <-Hi. apply HQ; congruence.
  - intros Hi. cbn. rewrite Hi in HQ. by apply HQ.
Qed.

(** ** Lines, words and characters *)

Definition is_space (c : Z) : bool := match strchr [32; 13; 9; 10; 11] c with Some _ => true | None => false end.

(** The words of a text: the longest runs without a space; [cur] is the one being
    read. *)
Fixpoint words_from (cur l : list Z) : list (list Z) :=
  match l with
  | [] => match cur with [] => [] | _ => [cur] end
  | c :: l =>
      if is_space c then match cur with [] => words_from [] l | _ => cur :: words_from [] l end
      else words_from (cur ++ [c]) l
  end.
Definition words (l : list Z) : list (list Z) := words_from [] l.

Definition newlines (l : list Z) : Z := Z.of_nat (length (filter (λ c, c = 10) l)).

(** Words are not empty, have no space in them, and together are what is not space. *)
Lemma words_from_sound l : ∀ cur, forallb (λ c, negb (is_space c)) cur = true →
  Forall (λ w, w ≠ [] ∧ forallb (λ c, negb (is_space c)) w = true) (words_from cur l) ∧
  concat (words_from cur l) = cur ++ filter (λ c, is_space c = false) l.
Proof.
  induction l as [|c l IH]; intros cur Hc; cbn [words_from].
  - destruct cur as [|d cur]; [by split|]. cbn. rewrite !app_nil_r. split; [|done]. by constructor.
  - destruct (is_space c) eqn:Es.
    + rewrite filter_cons_False by congruence. destruct (IH [] eq_refl) as [H1 H2]. destruct cur as [|d cur]; [done|]. split; [by constructor|]. cbn [concat]. by rewrite H2.
    + rewrite filter_cons_True by done. destruct (IH (cur ++ [c])) as [H1 H2]; [rewrite forallb_app, Hc; cbn; by rewrite Es|].
      split; [done|]. by rewrite H2, <-app_assoc.
Qed.

(** The counters after a text: [cur] is the word that was being read. *)
Lemma wc_foldl l : ∀ k cur,
  wc_in k = negb (bool_decide (cur = [])) →
  0 ≤ wc_c k → 0 ≤ wc_l k → 0 ≤ wc_w k → wc_c k + Z.of_nat (length l) < 2147483648 → wc_l k ≤ wc_c k → wc_w k ≤ wc_c k →
  let k' := foldl wc_char k l in
  wc_c k' = wc_c k + Z.of_nat (length l) ∧ wc_l k' = wc_l k + newlines l ∧
  wc_w k' + (if decide (cur = []) then 0 else 1) = wc_w k + Z.of_nat (length (words_from cur l)).
Proof.
  induction l as [|b l IH]; intros k cur Hin Hc Hl Hw Hlt Hlc Hwc; cbn [foldl words_from].
  - unfold newlines. destruct cur; [rewrite decide_True by done|rewrite decide_False by done]; cbn; lia.
  - assert (newlines (b :: l) = (if b =? 10 then 1 else 0) + newlines l) as ->.
    { unfold newlines. rewrite filter_cons. destruct (Z.eqb_spec b 10); [rewrite decide_True by done|rewrite decide_False by done]; cbn; lia. }
    cbn [length] in Hlt. set (cur' := if is_space b then [] else cur ++ [b]).
    assert (let k1 := wc_char k b in wc_c k1 = wc_c k + 1 ∧ wc_l k1 = wc_l k + (if b =? 10 then 1 else 0) ∧
      wc_in k1 = negb (is_space b) ∧ wc_w k1 = wc_w k + (if is_space b then 0 else if wc_in k then 0 else 1)) as (H1 & H2 & H3 & H4).
    { unfold wc_char, is_space. rewrite !s32_small by lia. destruct (strchr _ b), (wc_in k), (b =? 10); cbn; lia. }
    destruct (IH (wc_char k b) cur') as (G1 & G2 & G3).
    { rewrite H3. unfold cur'. destruct (is_space b); [done|]. cbn. destruct cur; done. }
    all: try (rewrite ?H1, ?H2, ?H4; destruct (is_space b), (wc_in k), (b =? 10); lia).
    rewrite G1, G2, H1, H2. split_and!; [cbn [length]; lia|lia|]. rewrite H4 in G3. unfold cur' in G3.
    rewrite Hin in G3. destruct (is_space b); cbn in G3.
    + rewrite (decide_True (P := @nil Z = [])) in G3 by done. destruct cur; [rewrite decide_True by done|rewrite decide_False by done]; cbn in *; lia.
    + rewrite (decide_False (P := cur ++ [b] = [])) in G3 by (by destruct cur). destruct cur; [rewrite decide_True by done|rewrite decide_False by done]; cbn in *; lia.
Qed.

Lemma wc_counts l : Z.of_nat (length l) < 2147483648 →
  let k := foldl wc_char (Counts 0 0 0 false) l in
  wc_l k = newlines l ∧ wc_w k = Z.of_nat (length (words l)) ∧ wc_c k = Z.of_nat (length l).
Proof.
  intros Hl. destruct (wc_foldl l (Counts 0 0 0 false) []) as (H1 & H2 & H3); cbn; try done; try lia.
  rewrite decide_True in H3 by done. cbn in *. unfold words. lia.
Qed.

Lemma newlines_le l : 0 ≤ newlines l ≤ Z.of_nat (length l).
Proof. unfold newlines. pose proof (length_filter (λ c, c = 10) l). lia. Qed.

Lemma words_le l : ∀ cur, (length (words_from cur l) ≤ length l + (if decide (cur = []) then 0 else 1))%nat.
Proof.
  induction l as [|c l IH]; intros cur; cbn [words_from].
  - destruct cur; [done|]. rewrite decide_False by done. cbn. lia.
  - destruct (is_space c).
    + specialize (IH []). rewrite decide_True in IH by done. destruct cur; [cbn; lia|]. rewrite decide_False by done. cbn. lia.
    + specialize (IH (cur ++ [c])). rewrite decide_False in IH by (by destruct cur). cbn. lia.
Qed.

(** The line that wc prints. *)
Definition wc_line (l name line : list Z) : Prop :=
  ∃ a b c, line = a ++ 32 :: b ++ 32 :: c ++ 32 :: name ++ [10] ∧
    atoi a = newlines l ∧ atoi b = Z.of_nat (length (words l)) ∧ atoi c = Z.of_nat (length l).

(** ** Formats *)
Lemma vprintf_d fd r n ap s Q E : 0 ≤ n < 2147483648 →
  (∀ cs s', wrote_to fd cs s s' → atoi cs = n → uwp (vprintf_loop (S := streams) fd r 0 false ap) s' Q E) →
  uwp (vprintf_loop (S := streams) fd (37 :: 100 :: r) 0 false (VNum n :: ap)) s Q E.
Proof.
  intros Hn HQ. cbn [vprintf_loop]. cbn -[printint vprintf_loop]. uwp_step. uwp_step. uwp_step. uwp_step. cbn [fst snd].
  rewrite s32_small by lia. apply printint_atoi; [done|]. intros cs s' Hw _ Ha. uwp_step. by eapply HQ.
Qed.

Lemma vprintf_s fd r x ap s Q E :
  (∀ s', wrote_to fd x s s' → uwp (vprintf_loop (S := streams) fd r 0 false ap) s' Q E) →
  uwp (vprintf_loop (S := streams) fd (37 :: 115 :: r) 0 false (VStr x :: ap)) s Q E.
Proof.
  intros HQ. cbn [vprintf_loop]. cbn -[ufor putc vprintf_loop]. uwp_step. uwp_step. uwp_step. uwp_step. cbn [fst snd].
  apply putcs_spec. intros s' Hw. uwp_step. by apply HQ.
Qed.

Lemma vprintf_char fd c r ap s Q E : c ≠ 37 →
  (∀ s', wrote_to fd [c] s s' → uwp (vprintf_loop (S := streams) fd r 0 false ap) s' Q E) →
  uwp (vprintf_loop (S := streams) fd (c :: r) 0 false ap) s Q E.
Proof.
  intros Hc HQ. cbn [vprintf_loop]. rewrite (proj2 (Z.eqb_neq c 37)) by done. uwp_step. apply putc_spec. done.
Qed.

Lemma wc_printf l w c name s Q E :
  0 ≤ l < 2147483648 → 0 ≤ w < 2147483648 → 0 ≤ c < 2147483648 →
  (∀ x y z s', wrote_to 1 (x ++ 32 :: y ++ 32 :: z ++ 32 :: name ++ [10]) s s' → atoi x = l → atoi y = w → atoi z = c → Q tt s') →
  uwp (printf (S := streams) ("%d %d %d %s" +:+ NL) [VNum l; VNum w; VNum c; VStr name]) s Q E.
Proof.
  intros Hl Hw Hc HQ. unfold printf, vprintf.
  change (chars ("%d %d %d %s" +:+ NL)) with [37; 100; 32; 37; 100; 32; 37; 100; 32; 37; 115; 10].
  apply vprintf_d; [done|]. intros x s1 H1 Hx. apply vprintf_char; [done|]. intros s2 H2.
  apply vprintf_d; [done|]. intros y s3 H3 Hy. apply vprintf_char; [done|]. intros s4 H4.
  apply vprintf_d; [done|]. intros z s5 H5 Hz. apply vprintf_char; [done|]. intros s6 H6.
  apply vprintf_s. intros s7 H7. apply vprintf_char; [done|]. intros s8 H8. apply uwp_ret.
  eapply (HQ x y z); [|done..].
  pose proof (wrote_app _ _ _ _ _ _ H1 (wrote_app _ _ _ _ _ _ H2 (wrote_app _ _ _ _ _ _ H3 (wrote_app _ _ _ _ _ _ H4 (wrote_app _ _ _ _ _ _ H5
    (wrote_app _ _ _ _ _ _ H6 (wrote_app _ _ _ _ _ _ H7 H8))))))) as H. exact H.
Qed.

(** The output of wc for one file. *)
Lemma wc_spec fuel fd name s Q E :
  live s fd → (length (input s fd) < fuel)%nat → Z.of_nat (length (input s fd)) < 2147483648 →
  (∀ line s', wc_line (input s fd) name line → (∀ fd', output s' fd' = output s fd' ++ if decide (1 = fd') then line else []) →
     s_files s' = s_files s → s_next s' = s_next s → Q tt s') →
  uwp (wc (S := streams) fuel fd name) s Q E.
Proof.
  intros Hl Hf Hlen HQ. unfold wc. uwp_step. apply wc_loop_spec; [done|done|]. intros s1 Ho1 Hf1 Hn1. cbn [Z.ltb Z.compare].
  destruct (wc_counts (input s fd) Hlen) as (H1 & H2 & H3). rewrite H1, H2, H3. pose proof (newlines_le (input s fd)). pose proof (words_le (input s fd) []) as Hw.
  rewrite decide_True in Hw by done. fold (words (input s fd)) in Hw.
  apply wc_printf; [lia..|]. intros x y z s2 (Hi2 & Hf2 & Hn2 & Ho2) Hx Hy Hz. eapply HQ; [by exists x, y, z| |congruence|congruence].
  intros fd'. rewrite Ho2. unfold output at 1. rewrite Ho1. done.
Qed.

(** ** The programs on files *)

(** What [open] finds of the files of a command line. *)
Definition contents (s : streams) (f : list Z) : list (list Z) := default [] (s_files s !! f).

Definition readable (fuel : nat) (s : streams) (f : list Z) : Prop :=
  is_Some (s_files s !! f) ∧ ([] ∉ contents s f) ∧ (length (concat (contents s f)) < fuel)%nat.

(** The loop over the files, for a body that reads a file and appends to the output
    something that [R] relates to the file. *)
Section each.
Context (R : list Z → list Z → list Z → Prop) (fuel : nat) (cannot : list Z → U streams unit) (body : Z → list Z → U streams unit).
Context (Hbody : ∀ fd f s Q E, live s fd → (length (input s fd) < fuel)%nat →
  (∀ line s', R (input s fd) f line → (∀ fd', output s' fd' = output s fd' ++ if decide (1 = fd') then line else []) →
     s_files s' = s_files s → s_next s' = s_next s → Q tt s') → uwp (body fd f) s Q E).

Lemma each_file_spec files : ∀ s Q E, 0 ≤ s_next s → Forall (readable fuel s) files →
  (∀ ls s', Forall2 (λ f line, R (concat (contents s f)) f line) files ls →
     (∀ fd, output s' fd = output s fd ++ if decide (1 = fd) then concat ls else []) → Q tt s') →
  uwp (each_file files cannot body) s Q E.
Proof.
  induction files as [|f files IH]; intros s Q E Hn Hr HQ; cbn [each_file].
  - apply uwp_ret. apply (HQ []); [constructor|]. intros fd. case_decide; by rewrite app_nil_r.
  - apply Forall_cons in Hr as [([ps Hps] & Hlive & Hlen) Hr]. unfold contents in Hlive, Hlen. rewrite Hps in Hlive, Hlen. cbn in Hlive, Hlen.
    uwp_step. unfold uwp at 1. cbn [open stream_sys]. rewrite Hps, (proj2 (Z.ltb_ge _ 0)) by done. uwp_step.
    set (s1 := Streams _ _ _ _). assert (pieces s1 (s_next s) = ps) as Hp by (unfold pieces, s1; cbn; by rewrite lookup_insert_eq).
    apply Hbody; [unfold live; by rewrite Hp|unfold input; by rewrite Hp|]. intros line s2 HR Ho2 Hf2 Hn2. uwp_step. unfold uwp at 1. cbn [close stream_sys].
    apply IH; [cbn; rewrite Hn2; cbn; lia| |].
    + eapply Forall_impl; [exact Hr|]. intros g. unfold readable, contents. cbn [s_files]. by rewrite Hf2.
    + intros ls s' Hls Ho. apply (HQ (line :: ls)).
      * constructor; [unfold contents; rewrite Hps; unfold input in HR; by rewrite Hp in HR|].
        eapply Forall2_impl; [exact Hls|]. intros g x. unfold contents. cbn [s_files]. by rewrite Hf2.
      * intros fd. rewrite Ho. change (output (Streams _ (s_out s2) _ _) fd) with (output s2 fd). rewrite Ho2.
        change (output s1 fd) with (output s fd). case_decide; by rewrite ?app_nil_r, <-?app_assoc.
Qed.
End each.

(** cat prints the contents of its files, in order, and exits with status 0. *)
Theorem cat_correct name files fuel s :
  0 ≤ s_next s → files ≠ [] → Forall (readable fuel s) files →
  ∃ s', cat_main (S := streams) fuel (name :: files) s = UExit 0 s' ∧
    ∀ fd, output s' fd = output s fd ++ if decide (1 = fd) then concat ((λ f, concat (contents s f)) <$> files) else [].
Proof.
  intros Hn Hne Hr. assert (uwp (cat_main (S := streams) fuel (name :: files)) s (λ _ _, False) (λ c s', c = 0 ∧
    ∀ fd, output s' fd = output s fd ++ if decide (1 = fd) then concat ((λ f, concat (contents s f)) <$> files) else [])) as H.
  2: { apply uwp_UExit in H as (c & s' & ? & -> & ?). eauto. }
  unfold cat_main. uwp_step. rewrite decide_False by (destruct files; [done|cbn; lia]). cbn [tail].
  eapply (each_file_spec (λ l _ line, line = l) fuel); [|done|done|].
  - intros fd f s1 Q E Hl Hf HQ. apply cat_spec; [done|done|]. intros s2 Ho Hf2 Hn2. by apply (HQ (input s1 fd)).
  - intros ls s' Hls Ho. uwp_step. split; [done|]. intros fd. rewrite Ho.
    assert (concat ls = concat ((λ f, concat (contents s f)) <$> files)) as ->; [|done]. clear -Hls.
    induction Hls as [|f line files ls -> Hls IH]; cbn; [done|by rewrite IH].
Qed.

(** Wc, given files: for each of them, in order, it prints a line with three
    numbers, in decimal, and the name. They are the number of newlines, of words and
    of bytes of the file, whatever the pieces it is read in, where the words are the
    longest runs of bytes other than space, tab, newline, carriage return and
    vertical tab. The bound on the reads is the length of a file, below the
    2^31 bytes at which an [int] stops counting. *)
Theorem wc_correct name files fuel s :
  0 ≤ s_next s → files ≠ [] → Forall (readable fuel s) files → Z.of_nat fuel ≤ 2147483648 →
  ∃ s' ls, wc_main (S := streams) fuel (name :: files) s = UExit 0 s' ∧
    Forall2 (λ f line, wc_line (concat (contents s f)) f line) files ls ∧
    ∀ fd, output s' fd = output s fd ++ if decide (1 = fd) then concat ls else [].
Proof.
  intros Hn Hne Hr Hf. assert (uwp (wc_main (S := streams) fuel (name :: files)) s (λ _ _, False) (λ c s', c = 0 ∧
    ∃ ls, Forall2 (λ f line, wc_line (concat (contents s f)) f line) files ls ∧
    ∀ fd, output s' fd = output s fd ++ if decide (1 = fd) then concat ls else [])) as H.
  2: { apply uwp_UExit in H as (c & s' & ? & -> & ls & ? & ?). eauto. }
  unfold wc_main. uwp_step. rewrite decide_False by (destruct files; [done|cbn; lia]). cbn [tail].
  eapply (each_file_spec wc_line fuel); [|done|done|].
  - intros fd f s1 Q E Hl Hlen HQ. apply wc_spec; [done|done|lia|done].
  - intros ls s' Hls Ho. uwp_step. split; [done|]. by exists ls.
Qed.

(** ** A file of two lines that arrives in two pieces *)
Module UprogsDemo.
Definition demo_files : streams := Streams ∅ [] {[ chars "f" := [chars "one t"; chars ("wo" +:+ NL +:+ " three" +:+ NL)] ]} 3.

Lemma wc_correct_witness : ∃ s' line, wc_main 100 [chars "wc"; chars "f"] demo_files = UExit 0 s' ∧
  output s' 1 = line ∧ wc_line (chars ("one two" +:+ NL +:+ " three" +:+ NL)) (chars "f") line.
Proof.
  destruct (wc_correct (chars "wc") [chars "f"] 100 demo_files) as (s' & ls & Hs & Hls & Ho).
  - done.
  - done.
  - apply Forall_singleton. split_and!; [vm_compute; eauto| |vm_compute; lia]. apply (bool_decide_unpack _). vm_compute. exact I.
  - lia.
  - apply Forall2_cons_inv_l in Hls as (line & ls' & Hline & Hnil & ->). apply Forall2_nil_inv_l in Hnil as ->.
    exists s', line. split_and!; [exact Hs| |exact Hline]. rewrite Ho. cbn. by rewrite app_nil_r.
Defined.
End UprogsDemo.

(** ** pwd in a directory tree, and ps beside the kernel

    A system with directories, enough for the calls that pwd makes; what pwd prints
    in one, and what ps calls the states that the kernel reports. *)

(** Directories by inode number: the entries, number and name; the current
    directory; the open directories with their offset; what was printed. *)
Record tree := Tree {
  t_dirs : gmap Z (list (Z * list Z));
  t_cwd : Z;
  t_fds : gmap Z (Z * nat);
  t_next : Z;
  t_out : list Z
}.

Definition dirent_bytes (e : Z * list Z) : list Z := le_bytes 2 e.1 ++ e.2 ++ replicate (14 - length e.2) 0.

(** The entry with a name in a directory. *)
Definition t_lookup (t : tree) (name : list Z) : option Z :=
  (λ r, r.2.1) <$> list_find (λ e, e.2 = name) (default [] (t_dirs t !! t_cwd t)).

#[export] Instance tree_sys : Sys tree := {|
  read := λ fd n t,
    match t_fds t !! fd with
    | None => URet (-1, []) t
    | Some (d, off) =>
        let bs := take n (drop off (concat (dirent_bytes <$> default [] (t_dirs t !! d)))) in
        URet (Z.of_nat (length bs), bs) (Tree (t_dirs t) (t_cwd t) (<[fd := (d, off + length bs)%nat]> (t_fds t)) (t_next t) (t_out t))
    end;
  write := λ fd bs t, URet (Z.of_nat (length bs)) (Tree (t_dirs t) (t_cwd t) (t_fds t) (t_next t) (t_out t ++ bs));
  open := λ path _ t,
    match t_lookup t path with
    | None => URet (-1) t
    | Some d => URet (t_next t) (Tree (t_dirs t) (t_cwd t) (<[t_next t := (d, 0%nat)]> (t_fds t)) (t_next t + 1) (t_out t))
    end;
  close := λ fd t, URet 0 (Tree (t_dirs t) (t_cwd t) (delete fd (t_fds t)) (t_next t) (t_out t))
|}.

#[export] Instance tree_files : SysFiles tree := {|
  fstat := λ fd t,
    match t_fds t !! fd with
    | None => URet (-1, Stat 0 0 0 0 0 0) t
    | Some (d, _) => URet (0, Stat 1 d T_DIR 1 0 6) t
    end;
  unlink := λ _ t, URet (-1) t;
  link := λ _ _ t, URet (-1) t;
  mkdir := λ _ t, URet (-1) t;
  chmod := λ _ _ t, URet (-1) t;
  kill := λ _ t, URet (-1) t
|}.

#[export] Instance tree_misc : SysMisc tree := {|
  chdir := λ path t,
    match t_lookup t path with
    | None => URet (-1) t
    | Some d => URet 0 (Tree (t_dirs t) d (t_fds t) (t_next t) (t_out t))
    end;
  getprocs := λ t, URet (0, []) t
|}.

(** The root, with a directory [a] in it, which has a directory [b] in it. *)
Definition demo_tree (cwd : Z) : tree :=
  Tree (<[1 := [(1, chars "."); (1, chars ".."); (2, chars "a")]]>
       (<[2 := [(2, chars "."); (1, chars ".."); (3, chars "b")]]>
       {[ 3 := [(3, chars "."); (2, chars "..")] ]})) cwd ∅ 3 [].

(** pwd prints the path with a dot at its end, and, but for the root, with a
    directory [.] at its beginning. *)
Theorem pwd_output :
  (∃ t, pwd_main 100 (demo_tree 1) = UExit 0 t ∧ t_out t = chars ("." +:+ NL)) ∧
  (∃ t, pwd_main 100 (demo_tree 2) = UExit 0 t ∧ t_out t = chars ("/./a." +:+ NL)) ∧
  (∃ t, pwd_main 100 (demo_tree 3) = UExit 0 t ∧ t_out t = chars ("/./a/b." +:+ NL)).
Proof. split_and!; eexists; vm_compute; split; reflexivity. Qed.

(** ps names the states by the numbers of user/uproc.h, which has no [USED]: but for
    [UNUSED], which the kernel does not report, every state gets the name of the one
    after it in the kernel's order. *)
Theorem ps_names_next :
  ps_state (state_num USED) = "sleep    " ∧ ps_state (state_num SLEEPING) = "runnable " ∧
  ps_state (state_num RUNNABLE) = "running  " ∧ ps_state (state_num RUNNING) = "zombie   " ∧
  ps_state (state_num ZOMBIE) = "unknown  ".
Proof. done. Qed.
