(* ===== verification/Grep.v ===== *)
(** * grep: user/grep.c

    The matcher of Kernighan and Pike, and the loop that reads a file in pieces
    and prints the lines that match. Patterns and lines are null-terminated
    strings, given by the characters before the null byte. *)
From Stdlib Require Import ZArith Lia.
From stdpp Require Import prelude gmap strings.
From S2P Require Import Prelude Bytes Param Str Fs User Ulib Uprintf.

(** ** The matcher *)

(** [*s == '\0'] *)
Definition at_end (s : list Z) : bool := match s with [] => true | _ => false end.

(** [matchstar(c, re, text)], given [matchhere(re, .)]. *)
Fixpoint star_with (here : list Z → bool) (c : Z) (text : list Z) : bool :=
  if here text then true
  else match text with
       | [] => false
       | t :: text' => if (t =? c) || (c =? 46) then star_with here c text' else false
       end.

Fixpoint matchhere (re text : list Z) : bool :=
  match re with
  | [] => true
  | c :: re1 =>
      let one :=
        if (c =? 36) && at_end re1 then at_end text
        else match text with
             | [] => false
             | t :: text' => if (c =? 46) || (c =? t) then matchhere re1 text' else false
             end in
      match re1 with
      | d :: re2 => if d =? 42 then star_with (matchhere re2) c text else one
      | [] => one
      end
  end.

Definition matchstar (c : Z) (re text : list Z) : bool := star_with (matchhere re) c text.

(** The loop of [match] for a pattern that need not be at the beginning. *)
Fixpoint match_loop (re text : list Z) : bool :=
  if matchhere re text then true
  else match text with [] => false | _ :: text' => match_loop re text' end.

(** [match], a keyword here. *)
Definition match_re (re text : list Z) : bool :=
  match re with
  | c :: re' => if c =? 94 then matchhere re' text else match_loop re text
  | [] => match_loop re text
  end.

(** ** What patterns mean *)

Inductive regex :=
| Eps
| Class (p : Z → bool)
| Cat (r1 r2 : regex)
| Star (r : regex).

Inductive lang : regex → list Z → Prop :=
| lang_eps : lang Eps []
| lang_class p c : p c = true → lang (Class p) [c]
| lang_cat r1 r2 s1 s2 : lang r1 s1 → lang r2 s2 → lang (Cat r1 r2) (s1 ++ s2)
| lang_star_nil r : lang (Star r) []
| lang_star r s1 s2 : lang r s1 → lang (Star r) s2 → lang (Star r) (s1 ++ s2).

(** A character stands for itself, [.] for every character. *)
Definition sem_char (c : Z) : regex := Class (λ t, (c =? 46) || (c =? t)).
Definition anything : regex := Star (Class (λ _, true)).

(** Text that begins with a match: a final [$] stands for the end of the text. *)
Fixpoint sem_here (re : list Z) : regex :=
  match re with
  | [] => anything
  | c :: re1 =>
      let one := if (c =? 36) && at_end re1 then Eps else Cat (sem_char c) (sem_here re1) in
      match re1 with
      | d :: re2 => if d =? 42 then Cat (Star (sem_char c)) (sem_here re2) else one
      | [] => one
      end
  end.

(** Text that contains a match, at its beginning if the pattern starts with [^]. *)
Definition sem (re : list Z) : regex :=
  match re with
  | c :: re' => if c =? 94 then sem_here re' else Cat anything (sem_here re)
  | [] => Cat anything (sem_here re)
  end.

(** ** The matcher decides the language *)

Lemma lang_anything s : lang anything s.
Proof. induction s as [|c s IH]; [constructor|]. apply (lang_star _ [c] s); [by constructor|done]. Qed.

Lemma lang_cat_inv r1 r2 s : lang (Cat r1 r2) s ↔ ∃ s1 s2, s = s1 ++ s2 ∧ lang r1 s1 ∧ lang r2 s2.
Proof. split; [inversion 1; subst; eauto|]. intros (s1 & s2 & -> & ? & ?). by constructor. Qed.

Lemma lang_char_cat p r s : lang (Cat (Class p) r) s ↔ ∃ c s', s = c :: s' ∧ p c = true ∧ lang r s'.
Proof.
  rewrite lang_cat_inv. split.
  - intros (s1 & s2 & -> & H1 & H2). inversion H1; subst. exists c, s2. done.
  - intros (c & s' & -> & Hp & Hr). exists [c], s'. split_and!; [done|by constructor|done].
Qed.

Lemma lang_star_cons p s : lang (Star (Class p)) s ↔ Forall (λ c, p c = true) s.
Proof.
  split.
  - remember (Star (Class p)) as r eqn:Er. induction 1; simplify_eq; [by constructor|].
    apply Forall_app. split; [|by apply IHlang2]. match goal with H : lang (Class _) _ |- _ => inversion H; subst end. by constructor.
  - induction 1 as [|c s Hc Hs IH]; [constructor|]. apply (lang_star _ [c] s); [by constructor|done].
Qed.

(** A repetition is empty, or a character and the rest of it. *)
Lemma lang_star_cat p r s :
  lang (Cat (Star (Class p)) r) s ↔ lang r s ∨ ∃ c s', s = c :: s' ∧ p c = true ∧ lang (Cat (Star (Class p)) r) s'.
Proof.
  rewrite lang_cat_inv. setoid_rewrite lang_star_cons. split.
  - intros ([|c s1] & s2 & -> & H1 & H2); [by left|]. apply Forall_cons in H1 as [Hc H1]. right.
    exists c, (s1 ++ s2). split_and!; [done..|]. apply lang_cat_inv. setoid_rewrite lang_star_cons. eauto.
  - intros [Hr|(c & s' & -> & Hp & (s1 & s2 & -> & H1 & H2)%lang_cat_inv)]; [by exists [], s|].
    apply lang_star_cons in H1. exists (c :: s1), s2. split_and!; [done|by constructor|done].
Qed.

Lemma star_with_spec here r c text :
  (∀ t, here t = true ↔ lang r t) → star_with here c text = true ↔ lang (Cat (Star (sem_char c)) r) text.
Proof.
  intros Hh. unfold sem_char. induction text as [|t text IH]; cbn [star_with]; rewrite lang_star_cat, <-Hh.
  - destruct (here []); [naive_solver|]. split; [done|]. intros [?|(? & ? & ? & _)]; done.
  - destruct (here (t :: text)) eqn:E; [naive_solver|]. assert ((t =? c) || (c =? 46) = (c =? 46) || (c =? t)) as -> by (by rewrite orb_comm, (Z.eqb_sym t)).
    split.
    + destruct (_ || _) eqn:Et; [|done]. rewrite IH. intros. right. by exists t, text.
    + intros [?|(c' & s' & [= <- <-] & -> & ?)]; [done|]. by apply IH.
Qed.

Lemma matchhere_spec re : ∀ text, matchhere re text = true ↔ lang (sem_here re) text.
Proof.
  induction re as [re IH] using (induction_ltof1 _ (@length Z)). unfold ltof in IH. intros text.
  destruct re as [|c re1]; [split; [intros _; apply lang_anything|done]|].
  assert ((∃ re2, re1 = 42 :: re2) ∨
    matchhere (c :: re1) text = (if (c =? 36) && at_end re1 then at_end text else
      match text with [] => false | t :: text' => if (c =? 46) || (c =? t) then matchhere re1 text' else false end) ∧
    sem_here (c :: re1) = (if (c =? 36) && at_end re1 then Eps else Cat (sem_char c) (sem_here re1))) as [[re2 ->]|[-> ->]].
  { destruct re1 as [|d re2]; [by right|]. destruct (decide (d = 42)) as [->|Hd]; [left; eauto|right].
    cbn [matchhere sem_here]. rewrite (proj2 (Z.eqb_neq d 42)) by done. done. }
  - cbn [matchhere sem_here]. apply star_with_spec. apply IH. cbn. lia.
  - destruct ((c =? 36) && at_end re1).
    + destruct text; cbn; split; [constructor|done|done|inversion 1].
    + unfold sem_char. rewrite lang_char_cat. destruct text as [|t text]; [naive_solver|]. split.
      * destruct (_ || _) eqn:Et; [|done]. intros Hm. exists t, text. rewrite <-IH by (cbn; lia). done.
      * intros (c' & s' & [= <- <-] & -> & Hl). apply IH; [cbn; lia|done].
Qed.

Lemma match_loop_spec re text : match_loop re text = true ↔ lang (Cat anything (sem_here re)) text.
Proof.
  unfold anything. induction text as [|t text IH]; cbn [match_loop]; rewrite lang_star_cat, <-matchhere_spec.
  - destruct (matchhere re []); [naive_solver|]. split; [done|]. intros [?|(? & ? & ? & _)]; done.
  - destruct (matchhere re (t :: text)); [naive_solver|]. rewrite IH. split; [|intros [?|(? & ? & [= <- <-] & _ & ?)]; done].
    intros. right. by exists t, text.
Qed.

(** C20: the matcher of grep decides the language of the pattern: [match] finds a match
    exactly in the texts the pattern denotes, where [.] is any character, [c*] any
    number of [c], [^] at the beginning and [$] at the end anchor the match, and a
    pattern without [^] may match anywhere. *)
Theorem match_re_correct re text : match_re re text = true ↔ lang (sem re) text.
Proof.
  unfold match_re, sem. destruct re as [|c re']; [apply match_loop_spec|].
  destruct (c =? 94); [apply matchhere_spec|apply match_loop_spec].
Qed.

(** ** Reading lines *)

Section code.
Context {S : Type} `{Sys S}.

(** [while((q = strchr(p, '\n')) != 0) ...], which moves [p] past the lines that
    are complete. [buf] is the global array, [p] and [q] indices into it. *)
Fixpoint grep_lines (fuel : nat) (pattern buf : list Z) (p : nat) : U S (list Z * nat) :=
  match fuel with
  | O => unofuel
  | Datatypes.S fuel =>
      let text := cut0 (drop p buf) in
      match strchr text 10 with
      | None => mret (buf, p)
      | Some r =>
          let q := (p + (length text - length r))%nat in
          let buf := <[q := 0]> buf in
          buf ← (if match_re pattern (cut0 (drop p buf)) then
                   let buf := <[q := 10]> buf in
                   write 1 (sub buf p (q + 1 - p)) ;; mret buf
                 else mret buf);
          grep_lines fuel pattern buf (q + 1)
      end
  end.

Fixpoint grep_loop (fuel : nat) (pattern : list Z) (fd : Z) (buf : list Z) (m : nat) : U S (list Z) :=
  match fuel with
  | O => unofuel
  | Datatypes.S fuel =>
      r ← read fd (1024 - m - 1);
      if fst r >? 0 then
        let buf := splice buf m (snd r) in
        let m := (m + Z.to_nat (fst r))%nat in
        let buf := <[m := 0]> buf in
        r ← grep_lines (Datatypes.S (length buf)) pattern buf 0;
        let '(buf, p) := r in
        if decide (0 < m)%nat then
          let m := (m - p)%nat in
          grep_loop fuel pattern fd (splice buf 0 (sub buf p m)) m
        else grep_loop fuel pattern fd buf m
      else mret buf
  end.

(** [buf] is the array as the last call left it. *)
Definition grep (fuel : nat) (pattern : list Z) (fd : Z) (buf : list Z) : U S (list Z) :=
  grep_loop fuel pattern fd buf 0.

(** [for(i = 2; i < argc; i++) ...] *)
Fixpoint grep_files (fuel : nat) (pattern : list Z) (files : list (list Z)) (buf : list Z) : U S unit :=
  match files with
  | [] => uexit 0
  | f :: files =>
      fd ← open f O_RDONLY;
      if fd <? 0 then printf ("grep: cannot open %s" +:+ NL) [VStr f] ;; uexit 1
      else
        buf ← grep fuel pattern fd buf;
        close fd ;;
        grep_files fuel pattern files buf
  end.

Definition grep_main (fuel : nat) (argv : list (list Z)) : U S unit :=
  match argv with
  | _ :: pattern :: [] => grep fuel pattern 0 (replicate 1024 0) ;; uexit 0
  | _ :: pattern :: files => grep_files fuel pattern files (replicate 1024 0)
  | _ => fprintf 2 ("usage: grep pattern [file ...]" +:+ NL) [] ;; uexit 1
  end.
End code.

(** ** The lines of a text *)

(** The complete lines, and what follows the last newline. *)
Fixpoint lines (l : list Z) : list (list Z) * list Z :=
  match l with
  | [] => ([], [])
  | c :: l =>
      let '(ls, r) := lines l in
      if c =? 10 then ([] :: ls, r)
      else match ls with [] => ([], c :: r) | x :: ls => ((c :: x) :: ls, r) end
  end.

Lemma lines_none x : (10 ∉ x) → lines x = ([], x).
Proof.
  induction x as [|c x IH]; intros Hx; [done|]. apply not_elem_of_cons in Hx as [Hc Hx].
  cbn [lines]. rewrite IH by done. destruct (Z.eqb_spec c 10); [congruence|done].
Qed.

Lemma lines_cons x l : (10 ∉ x) → lines (x ++ 10 :: l) = (x :: fst (lines l), snd (lines l)).
Proof.
  induction x as [|c x IH]; intros Hx; cbn [lines app].
  - by destruct (lines l).
  - apply not_elem_of_cons in Hx as [Hc Hx]. rewrite IH by done. destruct (Z.eqb_spec c 10); [congruence|done].
Qed.

Lemma lines_rest l : 10 ∉ snd (lines l).
Proof.
  induction l as [|c l IH]; cbn [lines]; [apply not_elem_of_nil|]. destruct (lines l) as [ls r]. cbn in IH.
  destruct (Z.eqb_spec c 10); [done|]. destruct ls; cbn; [|done]. apply not_elem_of_cons. split; [congruence|done].
Qed.

(** The lines of a text read in two pieces. *)
Lemma lines_app l1 l2 :
  lines (l1 ++ l2) = (fst (lines l1) ++ fst (lines (snd (lines l1) ++ l2)), snd (lines (snd (lines l1) ++ l2))).
Proof.
  induction l1 as [|c l1 IH]; cbn [lines app fst snd]; [by destruct (lines l2)|].
  rewrite IH. destruct (lines l1) as [ls r]. cbn [fst snd].
  destruct (Z.eqb_spec c 10) as [->|Hc]; [done|]. destruct ls as [|x ls]; cbn [app fst snd lines]; [|done].
  destruct (lines (r ++ l2)) as [ls' r']. cbn. destruct (Z.eqb_spec c 10); [done|]. by destruct ls'.
Qed.

Lemma lines_length l : (length (snd (lines l)) ≤ length l)%nat.
Proof.
  induction l as [|c l IH]; cbn [lines]; [done|]. destruct (lines l) as [ls r]. cbn in *.
  destruct (c =? 10); cbn; [lia|]. destruct ls; cbn; lia.
Qed.

Lemma lines_rest_sub l c : c ∈ snd (lines l) → c ∈ l.
Proof.
  revert c. induction l as [|x l IH]; intros c; cbn [lines]; [done|]. destruct (lines l) as [ls r]. cbn in IH.
  rewrite elem_of_cons. destruct (x =? 10); cbn; [auto|]. destruct ls; cbn; [rewrite elem_of_cons; naive_solver|auto].
Qed.

(** What grep prints of a text. *)
Definition grep_output (pattern l : list Z) : list Z :=
  concat ((λ x, x ++ [10]) <$> filter (λ x, match_re pattern x = true) (fst (lines l))).

(** Assigning to an element of the rest of an array. *)
Lemma drop_insert_in {A} (l : list A) p x y r z :
  drop p l = x ++ y :: r → drop p (<[(p + length x)%nat := z]> l) = x ++ z :: r.
Proof.
  intros Hd. apply list_eq. intros j. rewrite lookup_drop.
  assert ((x ++ y :: r) !! j = l !! (p + j)%nat) as Hl by (by rewrite <-Hd, lookup_drop).
  assert (p + length x < length l)%nat as Hlen.
  { pose proof (f_equal length Hd) as He. rewrite length_drop, length_app in He. cbn in He. lia. }
  destruct (decide (j = length x)) as [->|Hj].
  - rewrite list_lookup_insert_eq by done. by rewrite list_lookup_middle.
  - rewrite list_lookup_insert_ne by lia. rewrite <-Hl. destruct (decide (j < length x)%nat).
    + by rewrite !lookup_app_l.
    + rewrite !lookup_app_r by lia. by destruct (j - length x)%nat eqn:?; [lia|].
Qed.

Lemma drop_after {A} (l : list A) p x y r : drop p l = x ++ y :: r → drop (p + length x + 1) l = r.
Proof.
  intros Hd. rewrite <-Nat.add_assoc, <-drop_drop, Hd, drop_app_add'; done.
Qed.

Lemma split_newline text : (10 ∈ text) → ∃ x l, text = x ++ 10 :: l ∧ 10 ∉ x.
Proof.
  intros Hin. destruct (strchr text 10) as [r|] eqn:E.
  - apply strchr_Some in E as (x & l & -> & -> & Hx). eauto.
  - apply strchr_None in E. done.
Qed.

(** The inner loop prints the lines of [text] that match, and leaves the rest. *)
Lemma grep_lines_spec pattern junk fuel : ∀ text buf p s Q E,
  (length text < fuel)%nat → drop p buf = text ++ 0 :: junk → (0 ∉ text) →
  (∀ buf' s', length buf' = length buf → drop (p + (length text - length (snd (lines text)))) buf' = snd (lines text) ++ 0 :: junk →
     wrote_to 1 (grep_output pattern text) s s' → Q (buf', p + (length text - length (snd (lines text))))%nat s') →
  uwp (grep_lines (S := streams) fuel pattern buf p) s Q E.
Proof.
  induction fuel as [|fuel IH]; intros text buf p s Q E Hf Hd H0 HQ; [lia|]. cbn [grep_lines].
  rewrite Hd, cut0_app by done. destruct (decide (10 ∈ text)) as [Hin|Hin].
  - destruct (split_newline text Hin) as (x & l & -> & Hx). rewrite strchr_app by done.
    rewrite <-app_assoc in Hd. cbn [app] in Hd.
    assert (p + (length (x ++ 10%Z :: l) - length (10%Z :: l)) = p + length x)%nat as -> by (rewrite length_app; lia).
    assert ((0 ∉ x) ∧ (0 ∉ l)) as [H0x H0l] by (rewrite elem_of_app, elem_of_cons in H0; tauto).
    pose proof (drop_insert_in _ _ _ _ _ 0 Hd) as Hd1. rewrite Hd1, cut0_app by done.
    pose proof (drop_insert_in _ _ _ _ _ 10 Hd1) as Hd2.
    assert (∀ buf1 s1, length buf1 = length buf → drop (p + length x + 1) buf1 = l ++ 0 :: junk →
      wrote_to 1 (if match_re pattern x then x ++ [10] else []) s s1 →
      uwp (grep_lines fuel pattern buf1 (p + length x + 1)) s1 Q E) as Hnext.
    { intros buf1 s1 Hl1 Hdr Hw. rewrite length_app in Hf. cbn in Hf. apply (IH l); [lia|exact Hdr|done|].
      intros buf' s' Hl' Hd' Hw'. pose proof (lines_length l).
      assert (p + (length (x ++ 10%Z :: l) - length (snd (lines (x ++ 10%Z :: l)))) =
        p + length x + 1 + (length l - length (snd (lines l))))%nat as He by (rewrite lines_cons, length_app by done; cbn; lia).
      rewrite <-He. apply HQ; [lia|rewrite He, lines_cons by done; exact Hd'|].
      pose proof (wrote_app _ _ _ _ _ _ Hw Hw') as Hw2.
      assert (grep_output pattern (x ++ 10 :: l) = (if match_re pattern x then x ++ [10] else []) ++ grep_output pattern l) as ->; [|done].
      unfold grep_output. rewrite lines_cons by done. cbn [fst]. rewrite filter_cons. destruct (match_re pattern x); [rewrite decide_True by done|rewrite decide_False by done]; done. }
    destruct (match_re pattern x).
    + uwp_step. uwp_step. unfold uwp at 1. cbn [write stream_sys]. uwp_steps. apply Hnext.
      * by rewrite !length_insert.
      * by eapply drop_after.
      * assert (sub (<[(p + length x)%nat:=10]> (<[(p + length x)%nat:=0]> buf)) p (p + length x + 1 - p) = x ++ [10]) as ->.
        { unfold sub. rewrite Hd2. replace (p + length x + 1 - p)%nat with (length (x ++ [10])) by (rewrite length_app; cbn; lia).
          by replace (x ++ 10 :: l ++ 0 :: junk) with ((x ++ [10]) ++ l ++ 0 :: junk) by (by rewrite <-app_assoc); rewrite take_app_length. }
        split_and!; [done..|]. intros. apply output_add.
    + uwp_steps. apply Hnext; [by rewrite length_insert|by eapply drop_after|apply wrote_to_nil].
  - rewrite (proj2 (strchr_None _ _)) by done. rewrite (lines_none text) in HQ by done. cbn [snd] in HQ.
    rewrite Nat.sub_diag, Nat.add_0_r in HQ. apply uwp_ret. apply HQ; [done..|].
    unfold grep_output. rewrite lines_none by done. apply wrote_to_nil.
Qed.

(** ** The outer loop *)

(** No line is longer than what the buffer takes. *)
Definition short_lines (l : list Z) : Prop :=
  Forall (λ x, length x ≤ 1022)%nat (fst (lines l)) ∧ (length (snd (lines l)) ≤ 1023)%nat.

Lemma short_lines_app l1 l2 : short_lines (l1 ++ l2) → short_lines (snd (lines l1) ++ l2).
Proof. unfold short_lines. rewrite lines_app. cbn [fst snd]. rewrite Forall_app. tauto. Qed.

Lemma grep_output_app pattern l1 l2 :
  grep_output pattern (l1 ++ l2) = grep_output pattern l1 ++ grep_output pattern (snd (lines l1) ++ l2).
Proof. unfold grep_output. rewrite lines_app. cbn [fst]. by rewrite filter_app, fmap_app, concat_app. Qed.

(** The buffer is full only at the end of the file. *)
Lemma full_buffer pend l : (10 ∉ pend) → short_lines (pend ++ l) → (1023 ≤ length pend)%nat → l = [].
Proof.
  intros Hp [Hl Hr] Hlen. destruct (decide (10 ∈ l)) as [Hin|Hin].
  - destruct (split_newline l Hin) as (x & l' & -> & Hx). exfalso. rewrite (assoc_L app), lines_cons in Hl by (rewrite elem_of_app; tauto).
    apply Forall_cons in Hl as [Hl _]. rewrite length_app in Hl. lia.
  - rewrite lines_none in Hr by (rewrite elem_of_app; tauto). cbn in Hr. rewrite length_app in Hr. destruct l; [done|cbn in Hr; lia].
Qed.

Lemma live_nil s fd : live s fd → input s fd = [] → pieces s fd = [].
Proof. unfold live, input. destruct (pieces s fd) as [|[|c p] ps]; [done| |done]. intros Hl _. destruct Hl. left. Qed.

(** What is in the buffer after a read. *)
Lemma buffer_text buf pend got :
  length buf = 1024%nat → take (length pend) buf = pend → (length pend + length got ≤ 1023)%nat →
  ∃ junk, <[(length pend + length got)%nat := 0]> (splice buf (length pend) got) = (pend ++ got) ++ 0 :: junk ∧
    length (<[(length pend + length got)%nat := 0]> (splice buf (length pend) got)) = 1024%nat.
Proof.
  intros Hb Ht Hl. unfold splice. rewrite Ht, (assoc_L app).
  destruct (drop (length pend + length got) buf) as [|c junk] eqn:Ed.
  { apply (f_equal length) in Ed. rewrite length_drop, Hb in Ed. cbn in Ed. lia. }
  exists junk. rewrite <-length_app. rewrite insert_app_r_alt, Nat.sub_diag by done. split; [done|].
  apply (f_equal length) in Ed. rewrite length_drop, Hb in Ed. rewrite !length_app. cbn in *. lia.
Qed.

Lemma grep_loop_spec pattern fd fuel : ∀ buf pend s Q E,
  (length (input s fd) < fuel)%nat → live s fd → length buf = 1024%nat → take (length pend) buf = pend →
  (10 ∉ pend) → (length pend ≤ 1023)%nat → (0 ∉ pend ++ input s fd) → short_lines (pend ++ input s fd) →
  (∀ buf' s', length buf' = 1024%nat → s_files s' = s_files s → s_next s' = s_next s →
     (∀ fd', output s' fd' = output s fd' ++ if decide (1 = fd') then grep_output pattern (pend ++ input s fd) else []) → Q buf' s') →
  uwp (grep_loop (S := streams) fuel pattern fd buf (length pend)) s Q E.
Proof.
  induction fuel as [|fuel IH]; intros buf pend s Q E Hf Hl Hb Ht Hp Hpl H0 Hs HQ; [lia|]. cbn [grep_loop]. uwp_step.
  assert (input s fd = [] → ∀ fd', output s fd' = output s fd' ++ if decide (1 = fd') then grep_output pattern (pend ++ input s fd) else []) as Hend.
  { intros -> fd'. unfold grep_output. rewrite app_nil_r, lines_none by done. cbn. case_decide; by rewrite app_nil_r. }
  destruct (decide (1024 - length pend - 1 = 0)%nat) as [Hz|Hz].
  { assert (input s fd = []) as Hi by (eapply full_buffer; [done..|lia]).
    unfold uwp at 1. cbn. unfold stream_read. rewrite (live_nil _ _ Hl Hi). apply HQ; [done..|by apply Hend]. }
  apply stream_read_spec; [done|lia| |].
  2:{ intros Hi. cbn. apply HQ; [done..|by apply Hend]. }
  intros got s1 Hg Hgl Hi Hl1 Ho1 Hpo Hfi Hne. cbn [fst snd].
  rewrite (proj2 (Z.gtb_lt _ _)) by (destruct got; [done|cbn; lia]). rewrite Nat2Z.id.
  destruct (buffer_text buf pend got) as (junk & Hbt & Hbl); [done..|lia|]. uwp_step.
  rewrite Hi, (assoc_L app) in H0, Hs. assert (0 ∉ pend ++ got) as H0t by (rewrite elem_of_app in H0; tauto).
  set (text := pend ++ got) in *. assert (length text = length pend + length got)%nat as Htl by apply length_app.
  set (rest := snd (lines text)) in *. assert (length rest ≤ length text)%nat as Hrl by apply lines_length.
  apply (grep_lines_spec pattern junk _ text); [rewrite Hbl; lia|by rewrite Hbt, drop_0|done|].
  fold rest. cbn [Nat.add]. intros buf' s2 Hb' Hd' (Hin2 & Hfi2 & Hne2 & Ho2). rewrite Hbl in Hb'.
  rewrite decide_True by (destruct got; [done|cbn; lia]).
  assert (length pend + length got - (length text - length rest) = length rest)%nat as -> by lia.
  assert (input s2 fd = input s1 fd) as Hi2 by (unfold input, pieces; by rewrite Hin2).
  assert (sub buf' (length text - length rest) (length rest) = rest) as -> by (unfold sub; rewrite Hd'; apply take_app_length).
  apply IH.
  - rewrite Hi2. rewrite Hi, length_app in Hf. destruct got; [done|cbn in Hf; lia].
  - unfold live, pieces. rewrite Hin2. exact Hl1.
  - rewrite length_splice; [done|lia].
  - unfold splice. rewrite take_0. cbn [app]. apply take_app_length.
  - apply lines_rest.
  - lia.
  - rewrite Hi2. rewrite elem_of_app. intros [Hr|Hr]; apply H0, elem_of_app; [left|by right]. eapply lines_rest_sub, Hr.
  - rewrite Hi2. by apply short_lines_app.
  - intros buf'' s3 Hb3 Hf3 Hn3 Ho3. apply HQ; [done|congruence|congruence|]. intros fd'. rewrite Ho3, Ho2.
    assert (output s1 fd' = output s fd') as -> by (unfold output; by rewrite Ho1).
    rewrite Hi2, Hi, (assoc_L app pend). fold text. rewrite (grep_output_app pattern text). fold rest.
    case_decide; by rewrite ?app_nil_r, <-?app_assoc.
Qed.

(** ** The program *)

(** The texts that grep is given: the files it is to open, or its input. *)
Definition texts (s : streams) (files : list (list Z)) : list (list (list Z)) :=
  match files with
  | [] => [pieces s 0]
  | _ => (λ f, default [] (s_files s !! f)) <$> files
  end.

(** Contents of a file, in pieces, that grep handles: no null byte, no line that
    does not fit the buffer. *)
Definition greppable (ps : list (list Z)) : Prop := ([] ∉ ps) ∧ (0 ∉ concat ps) ∧ short_lines (concat ps).

(** Reading one text from the beginning. *)
Lemma grep_spec pattern fd fuel buf s Q E :
  greppable (pieces s fd) → (length (input s fd) < fuel)%nat → length buf = 1024%nat →
  (∀ buf' s', length buf' = 1024%nat → s_files s' = s_files s → s_next s' = s_next s →
     (∀ fd', output s' fd' = output s fd' ++ if decide (1 = fd') then grep_output pattern (input s fd) else []) → Q buf' s') →
  uwp (grep (S := streams) fuel pattern fd buf) s Q E.
Proof.
  intros (Hl & H0 & Hs) Hf Hb HQ. unfold grep. apply (grep_loop_spec pattern fd fuel buf []); cbn; try done; try lia. apply not_elem_of_nil.
Qed.

(** The lines to be printed of several texts. *)
Definition grep_outputs (pattern : list Z) (l : list (list (list Z))) : list Z :=
  concat ((λ ps, grep_output pattern (concat ps)) <$> l).

Lemma grep_files_spec pattern fuel : ∀ files buf s,
  0 ≤ s_next s → length buf = 1024%nat → Forall (λ f, is_Some (s_files s !! f)) files →
  Forall (λ ps, greppable ps ∧ (length (concat ps) < fuel)%nat) ((λ f, default [] (s_files s !! f)) <$> files) →
  uwp (grep_files (S := streams) fuel pattern files buf) s (λ _ _, False) (λ c s', c = 0 ∧
    ∀ fd, output s' fd = output s fd ++ if decide (1 = fd) then grep_outputs pattern ((λ f, default [] (s_files s !! f)) <$> files) else []).
Proof.
  induction files as [|f files IH]; intros buf s Hn Hb Hfiles Htexts; cbn [grep_files].
  - uwp_step. split; [done|]. intros fd. cbn. case_decide; by rewrite app_nil_r.
  - apply Forall_cons in Hfiles as [[ps Hps] Hfiles]. cbn [fmap list_fmap] in *. rewrite Hps in *. apply Forall_cons in Htexts as [[Hg Hl] Htexts].
    uwp_step. unfold uwp at 1. cbn [open stream_sys]. rewrite Hps, (proj2 (Z.ltb_ge _ 0)) by done. uwp_step.
    set (s1 := Streams _ _ _ _). assert (pieces s1 (s_next s) = ps) as Hp by (unfold pieces, s1; cbn; by rewrite lookup_insert_eq).
    apply grep_spec; [by rewrite Hp|unfold input; by rewrite Hp|done|]. intros buf' s2 Hb' Hf2 Hn2 Ho2. uwp_step. unfold uwp at 1. cbn [close stream_sys].
    eapply uwp_mono; [apply IH; [cbn; rewrite Hn2; cbn; lia|done|cbn; by rewrite Hf2..]|done|].
    intros c s' [-> Ho]. split; [done|]. intros fd. rewrite Ho. cbn [s_files]. rewrite Hf2. change (output (Streams _ (s_out s2) _ _) fd) with (output s2 fd). rewrite Ho2.
    unfold input. rewrite Hp. unfold grep_outputs. cbn. change (output s1 fd) with (output s fd). case_decide; by rewrite ?app_nil_r, <-?app_assoc.
Qed.


(** ** grep on a file that arrives in two pieces *)
Module GrepDemo.
Definition demo_system : streams :=
  Streams ∅ [] {[ chars "f" := [chars "abc"; chars ("d" +:+ NL +:+ "xyz" +:+ NL)] ]} 3.

End GrepDemo.
