(* ===== verification/Sh.v ===== *)
(** * The shell: user/sh.c

    Parsing of command lines. The line is an array of characters that ends with
    a null byte; a [char*] into it is an index. Commands live in a heap, a
    [struct cmd*] being the index of a node: [parseexec] goes on filling in the
    command it has allocated after [parseredirs] has wrapped it, so nodes are
    shared. [malloc] is taken to succeed. *)
From Stdlib Require Import ZArith Lia.
From stdpp Require Import prelude gmap strings.
From S2P Require Import Prelude Bytes Param Str Fs User Ulib Uprintf Grep.

Definition MAXARGS : nat := 10.

(** [argv] and [eargv] up to their first null pointer. *)
Inductive node :=
| EXEC (argv eargv : list nat)
| REDIR (cmd file efile : nat) (mode fd : Z)
| PIPE (left right : nat)
| LIST (left right : nat)
| BACK (cmd : nat)
| BUILTIN (argv : list nat).

Definition whitespace : list Z := [32; 9; 13; 10; 11].
Definition symbols : list Z := chars "<|>&;()".

(** [strchr(toks, c) != 0] *)
Definition one_of (toks : list Z) (c : Z) : bool := match strchr toks c with Some _ => true | None => false end.

(** The process: its commands, the line, and the rest of the system. *)
Record sh (S : Type) := Sh { sh_heap : list node; sh_buf : list Z; sh_sys : S }.
Arguments Sh {S}.
Arguments sh_heap {S}.
Arguments sh_buf {S}.
Arguments sh_sys {S}.

Section code.
Context {S : Type} `{Sys S}.
Abbreviation UM := (U (sh S)).

Definition usys {A} (m : U S A) : UM A := λ s,
  match m (sh_sys s) with
  | URet a t => URet a (Sh (sh_heap s) (sh_buf s) t)
  | UExit c t => UExit c (Sh (sh_heap s) (sh_buf s) t)
  | UFault => UFault
  | UNoFuel => UNoFuel
  end.

(** [panic] *)
Definition sh_panic {A} (msg : string) : UM A := usys (fprintf 2 ("%s" +:+ NL) [VStr (chars msg)]) ;; uexit 1.

(** [*s] and [*s = c] *)
Definition rd (s : nat) : UM Z := λ st, match sh_buf st !! s with Some c => URet c st | None => UFault end.
Definition wr (s : nat) (c : Z) : UM unit := λ st,
  if decide (s < length (sh_buf st))%nat then URet tt (Sh (sh_heap st) (<[s := c]> (sh_buf st)) (sh_sys st)) else UFault.

(** [malloc] of a command. *)
Definition alloc (n : node) : UM nat := λ st, URet (length (sh_heap st)) (Sh (sh_heap st ++ [n]) (sh_buf st) (sh_sys st)).
Definition getnode (p : nat) : UM node := λ st, match sh_heap st !! p with Some n => URet n st | None => UFault end.
Definition setnode (p : nat) (n : node) : UM unit := λ st, URet tt (Sh (<[p := n]> (sh_heap st)) (sh_buf st) (sh_sys st)).

(** ** Constructors *)

Definition execcmd : UM nat := alloc (EXEC [] []).
Definition redircmd (subcmd file efile : nat) (mode fd : Z) : UM nat := alloc (REDIR subcmd file efile mode fd).
Definition pipecmd (l r : nat) : UM nat := alloc (PIPE l r).
Definition listcmd (l r : nat) : UM nat := alloc (LIST l r).
Definition backcmd (subcmd : nat) : UM nat := alloc (BACK subcmd).

(** ** Tokens *)

(** [while(s < es && cond( *s)) s++;] *)
Fixpoint skip_while (cond : Z → bool) (fuel es s : nat) : UM nat :=
  match fuel with
  | O => unofuel
  | Datatypes.S fuel =>
      if decide (s < es)%nat then
        c ← rd s;
        if cond c then skip_while cond fuel es (Datatypes.S s) else mret s
      else mret s
  end.

Definition skip_ws (es s : nat) : UM nat := skip_while (one_of whitespace) (Datatypes.S (es - s)) es s.

(** The token, where it begins and ends, and the new value of [*ps]. *)
Definition gettoken (es ps : nat) : UM (Z * nat * nat * nat) :=
  s ← skip_ws es ps;
  let q := s in
  c ← rd s;
  r ← (if c =? 0 then mret (c, s)
       else if one_of (chars "|();&<") c then mret (c, Datatypes.S s)
       else if c =? 62 then
         c' ← rd (Datatypes.S s);
         if c' =? 62 then mret (43, Datatypes.S (Datatypes.S s)) else mret (c, Datatypes.S s)
       else
         s ← skip_while (λ c, negb (one_of whitespace c) && negb (one_of symbols c)) (Datatypes.S (es - s)) es s;
         mret (97, s) : UM (Z * nat));
  let '(ret, eq) := r in
  s ← skip_ws es eq;
  mret (ret, q, eq, s).

Definition peek (es ps : nat) (toks : list Z) : UM (bool * nat) :=
  s ← skip_ws es ps;
  c ← rd s;
  mret (negb (c =? 0) && one_of toks c, s).

(** ** The parser *)

Fixpoint parseredirs (fuel es cmd ps : nat) : UM (nat * nat) :=
  match fuel with
  | O => unofuel
  | Datatypes.S fuel =>
      r ← peek es ps (chars "<>");
      let '(b, ps) := r in
      if negb b then mret (cmd, ps) else
      r ← gettoken es ps;
      let '(tok, _, _, ps) := r in
      r ← gettoken es ps;
      let '(t, q, eq, ps) := r in
      if negb (t =? 97) then sh_panic "missing file for redirection" else
      cmd ← (if tok =? 60 then redircmd cmd q eq O_RDONLY 0
             else if tok =? 62 then redircmd cmd q eq (Z.lor (Z.lor O_WRONLY O_CREATE) O_TRUNC) 1
             else if tok =? 43 then redircmd cmd q eq (Z.lor O_WRONLY O_CREATE) 1
             else mret cmd : UM nat);
      parseredirs fuel es cmd ps
  end.

(** The loop of [parseexec] over the arguments; [cmd] is the command being filled
    in, [ret] what wraps it. *)
Fixpoint parse_args (fuel es cmd ret ps argc : nat) : UM (nat * nat) :=
  match fuel with
  | O => unofuel
  | Datatypes.S fuel =>
      r ← peek es ps (chars "|)&;");
      let '(b, ps) := r in
      if (b : bool) then mret (ret, ps) else
      r ← gettoken es ps;
      let '(tok, q, eq, ps) := r in
      if tok =? 0 then mret (ret, ps) else
      if negb (tok =? 97) then sh_panic "syntax" else
      n ← getnode cmd;
      match n with
      | EXEC argv eargv =>
          setnode cmd (EXEC (argv ++ [q]) (eargv ++ [eq])) ;;
          let argc := Datatypes.S argc in
          if decide (MAXARGS ≤ argc)%nat then sh_panic "too many args" else
          r ← parseredirs (Datatypes.S (es - ps)) es ret ps;
          let '(ret, ps) := r in
          parse_args fuel es cmd ret ps argc
      | _ => ufault
      end
  end.

(** The loop of [parseline] over [&]. *)
Fixpoint parse_backs (fuel es cmd ps : nat) : UM (nat * nat) :=
  match fuel with
  | O => unofuel
  | Datatypes.S fuel =>
      r ← peek es ps (chars "&");
      let '(b, ps) := r in
      if negb b then mret (cmd, ps) else
      r ← gettoken es ps;
      let '(_, _, _, ps) := r in
      cmd ← backcmd cmd;
      parse_backs fuel es cmd ps
  end.

(** [*ps] is an argument and a result. *)
Fixpoint parseline (fuel es ps : nat) : UM (nat * nat) :=
  match fuel with
  | O => unofuel
  | Datatypes.S fuel =>
      r ← parsepipe fuel es ps;
      let '(cmd, ps) := r in
      r ← parse_backs (Datatypes.S (es - ps)) es cmd ps;
      let '(cmd, ps) := r in
      r ← peek es ps (chars ";");
      let '(b, ps) := r in
      if (b : bool) then
        r ← gettoken es ps;
        let '(_, _, _, ps) := r in
        r ← parseline fuel es ps;
        let '(rest, ps) := r in
        cmd ← listcmd cmd rest;
        mret (cmd, ps)
      else mret (cmd, ps)
  end
with parsepipe (fuel es ps : nat) : UM (nat * nat) :=
  match fuel with
  | O => unofuel
  | Datatypes.S fuel =>
      r ← parseexec fuel es ps;
      let '(cmd, ps) := r in
      r ← peek es ps (chars "|");
      let '(b, ps) := r in
      if (b : bool) then
        r ← gettoken es ps;
        let '(_, _, _, ps) := r in
        r ← parsepipe fuel es ps;
        let '(rest, ps) := r in
        cmd ← pipecmd cmd rest;
        mret (cmd, ps)
      else mret (cmd, ps)
  end
with parseexec (fuel es ps : nat) : UM (nat * nat) :=
  match fuel with
  | O => unofuel
  | Datatypes.S fuel =>
      r ← peek es ps (chars "(");
      let '(b, ps) := r in
      if (b : bool) then parseblock fuel es ps else
      cmd ← execcmd;
      r ← parseredirs (Datatypes.S (es - ps)) es cmd ps;
      let '(ret, ps) := r in
      parse_args (Datatypes.S (es - ps)) es cmd ret ps 0
  end
with parseblock (fuel es ps : nat) : UM (nat * nat) :=
  match fuel with
  | O => unofuel
  | Datatypes.S fuel =>
      r ← peek es ps (chars "(");
      let '(b, ps) := r in
      if negb b then sh_panic "parseblock" else
      r ← gettoken es ps;
      let '(_, _, _, ps) := r in
      r ← parseline fuel es ps;
      let '(cmd, ps) := r in
      r ← peek es ps (chars ")");
      let '(b, ps) := r in
      if negb b then sh_panic "syntax - missing )" else
      r ← gettoken es ps;
      let '(_, _, _, ps) := r in
      parseredirs (Datatypes.S (es - ps)) es cmd ps
  end.

(** NUL-terminate all the counted strings. *)
Fixpoint nulterminate (fuel cmd : nat) : UM unit :=
  match fuel with
  | O => unofuel
  | Datatypes.S fuel =>
      n ← getnode cmd;
      match n with
      | EXEC argv eargv => ufor eargv (λ e, wr e 0)
      | REDIR sub _ efile _ _ => nulterminate fuel sub ;; wr efile 0
      | PIPE l r => nulterminate fuel l ;; nulterminate fuel r
      | LIST l r => nulterminate fuel l ;; nulterminate fuel r
      | BACK sub => nulterminate fuel sub
      | BUILTIN _ => mret tt
      end
  end.

(** The arguments of a built-in command: [s] is the current one, [token] where
    to look for the next blank. *)
Fixpoint builtin_args (fuel token s : nat) (argv : list nat) : UM (list nat) :=
  match fuel with
  | O => unofuel
  | Datatypes.S fuel =>
      st ← uget;
      let text := cut0 (drop token (sh_buf st)) in
      match strchr text 32 with
      | Some r =>
          if decide (length argv < MAXARGS - 1)%nat then
            let token := (token + (length text - length r))%nat in
            wr token 0 ;;
            builtin_args fuel (Datatypes.S token) (Datatypes.S token) (argv ++ [s])
          else mret argv
      | None => mret argv
      end
  end.

(** The line starts at index 0 of the buffer. *)
Definition parsecmd : UM nat :=
  st ← uget;
  let es := length (cut0 (sh_buf st)) in
  r ← parseline (4 * es + 8) es 0;
  let '(cmd, s) := r in
  r ← peek es s [];
  let '(_, s) := r in
  if decide (s ≠ es) then
    usys (fprintf 2 ("leftovers: %s" +:+ NL) [VStr (cut0 (drop s (sh_buf st)))]) ;; sh_panic "syntax"
  else
  st ← uget;
  nulterminate (length (sh_heap st)) cmd ;;
  st ← uget;
  let line := drop s (sh_buf st) in
  if (memcmp (list_ptr line) (list_ptr (chars "cd ")) 3 =? 0) || (strcmp (cut0 line) (chars "cd") =? 0) then
    argv ← builtin_args (Datatypes.S MAXARGS) s s [];
    alloc (BUILTIN argv)
  else mret cmd.
End code.
