(* ===== verification/ShTotal.v ===== *)
(** * The shell's tokens, and that its parser terminates: user/sh.c

    What [gettoken] and [peek] see of a line. On every line the parser returns or
    exits with status 1 after a message: it neither loops nor leaves the line or
    the heap. *)
From Stdlib Require Import ZArith Lia.
From stdpp Require Import prelude gmap strings.
From S2P Require Import Prelude Bytes Param Str Fs User Ulib Uprintf Grep Sh.

(** ** Tokens of the shell: user/sh.c

    What [gettoken] and [peek] see of a line: its tokens, with any white space
    between them. *)

Inductive token := TSym (c : Z) | TAppend | TWord (w : list Z).

Definition is_ws (c : Z) : bool := one_of whitespace c.
Definition word_char (c : Z) : bool := negb (one_of whitespace c) && negb (one_of symbols c).

Definition tok_text (t : token) : list Z :=
  match t with TSym c => [c] | TAppend => [62; 62] | TWord w => w end.

(** The token, followed by [rest], is as long as it can be. *)
Definition tok_ok (t : token) (rest : list Z) : Prop :=
  match t with
  | TSym c => c ∈ symbols ∧ (c = 62 → head rest ≠ Some 62)
  | TAppend => True
  | TWord w => w ≠ [] ∧ Forall (λ c, word_char c = true) w ∧ ∀ c, head rest = Some c → word_char c = false
  end.

Inductive lexed : list Z → list token → Prop :=
| lexed_end x : Forall (λ c, is_ws c = true) x → lexed x []
| lexed_tok x t rest ts : Forall (λ c, is_ws c = true) x → tok_ok t rest → lexed rest ts →
    lexed (x ++ tok_text t ++ rest) (t :: ts).

(** What [gettoken] returns for a token, and the character [peek] looks at. *)
Definition tok_code (t : token) : Z := match t with TSym c => c | TAppend => 43 | TWord _ => 97 end.
Definition tok_char (t : token) : Z := hd0 (tok_text t).

Lemma one_of_spec l c : one_of l c = true ↔ c ∈ l.
Proof.
  unfold one_of. destruct (strchr l c) eqn:E; split; try done.
  - intros _. apply strchr_Some in E as (pre & r' & -> & -> & _). apply elem_of_app. right. left.
  - intros Hin. apply strchr_None in E. done.
Qed.

(** The literals, spelled out. *)
Lemma symbols_list : symbols = [60; 124; 62; 38; 59; 40; 41].
Proof. reflexivity. Qed.
Lemma single_list : chars "|();&<" = [124; 40; 41; 59; 38; 60].
Proof. reflexivity. Qed.
Ltac toks := rewrite ?symbols_list, ?single_list, !elem_of_cons, !elem_of_nil in *.

Lemma symbol_not_ws c : c ∈ symbols → is_ws c = false.
Proof. intros H. toks. destruct_or! H; by subst. Qed.

Lemma symbol_nonzero c : c ∈ symbols → c ≠ 0.
Proof. intros H. toks. destruct_or! H; by subst. Qed.

Lemma word_char_ws c : word_char c = true → is_ws c = false ∧ c ∉ symbols.
Proof.
  unfold word_char, is_ws. intros [H1%negb_true_iff H2%negb_true_iff]%andb_true_iff. split; [done|].
  rewrite <-one_of_spec, H2. done.
Qed.

Lemma head_drop {A} (l : list A) i : head (drop i l) = l !! i.
Proof. revert i. induction l as [|x l IH]; intros [|i]; cbn; [done..|apply IH]. Qed.

(** Every line has tokens. *)
Lemma lexed_cons_ws c s ts : is_ws c = true → lexed s ts → lexed (c :: s) ts.
Proof.
  intros Hc Hs. destruct Hs as [x Hx|x t rest ts Hx Ht Hr].
  - apply lexed_end. by constructor.
  - apply (lexed_tok (c :: x)); [by constructor|done..].
Qed.

Lemma split_while (f : Z → bool) l : ∃ x y, l = x ++ y ∧ Forall (λ c, f c = true) x ∧ ∀ c, head y = Some c → f c = false.
Proof.
  induction l as [|c l (x & y & -> & Hx & Hy)]; [by exists [], []|].
  destruct (f c) eqn:E; [exists (c :: x), y|exists [], (c :: x ++ y)]; split_and!; try done; [by constructor|].
  intros ? [= <-]. done.
Qed.

Lemma lexed_total s : ∃ ts, lexed s ts.
Proof.
  induction s as [s IH] using (induction_ltof1 _ (@length Z)). unfold ltof in IH.
  destruct s as [|c s]; [exists []; by constructor|].
  destruct (is_ws c) eqn:Ew.
  { destruct (IH s) as [ts Hts]; [cbn; lia|]. exists ts. by apply lexed_cons_ws. }
  assert (∀ t rest, c :: s = tok_text t ++ rest → tok_ok t rest → (0 < length (tok_text t))%nat → ∃ ts, lexed (c :: s) ts) as Htok.
  { intros t rest He Ht Hl. destruct (IH rest) as [ts Hts]; [rewrite He, length_app; lia|].
    exists (t :: ts). rewrite He. apply (lexed_tok []); [constructor|done..]. }
  destruct (decide (c ∈ symbols)) as [Hs|Hs].
  - destruct (decide (c = 62 ∧ head s = Some 62)) as [[-> Hh]|Hn].
    + destruct s as [|d s]; [done|]. injection Hh as ->. apply (Htok TAppend s); [done..|cbn; lia].
    + apply (Htok (TSym c) s); [done| |cbn; lia]. split; [done|]. intros -> ?. by apply Hn.
  - destruct (split_while word_char (c :: s)) as (w & rest & He & Hw & Hr).
    apply (Htok (TWord w) rest); [done| |].
    + split_and!; try done. intros ->. cbn in He. specialize (Hr c). rewrite <-He in Hr. specialize (Hr eq_refl).
      unfold word_char in Hr. unfold is_ws in Ew. rewrite Ew in Hr. cbn in Hr. apply negb_false_iff, one_of_spec in Hr. done.
    + destruct w; [|cbn; lia]. cbn in He. specialize (Hr c). rewrite <-He in Hr. specialize (Hr eq_refl).
      unfold word_char in Hr. unfold is_ws in Ew. rewrite Ew in Hr. cbn in Hr. apply negb_false_iff, one_of_spec in Hr. done.
Qed.

(** ** The scanner *)
Section scan.
Context {S : Type} `{Sys S} (text : list Z) (H0 : 0 ∉ text).
Abbreviation es := (length text).

(** The line is in the buffer. *)
Definition on_line (st : sh S) : Prop := sh_buf st = text ++ [0].

(** What follows index [p] consists of the tokens [ts]. *)
Definition at_toks (p : nat) (ts : list token) : Prop := (p ≤ es)%nat ∧ lexed (drop p text) ts.

Lemma rd_text st p c r : on_line st → drop p text = c :: r → rd p st = URet c st.
Proof.
  intros Hst Hd. unfold rd. rewrite Hst. assert (text !! p = Some c) as Hp by (by rewrite <-(Nat.add_0_r p), <-lookup_drop, Hd).
  by rewrite (lookup_app_l_Some _ _ _ _ Hp).
Qed.

Lemma rd_end st p : on_line st → drop p text = [] → (p ≤ es)%nat → rd p st = URet 0 st.
Proof.
  intros Hst Hd Hp. unfold rd. rewrite Hst. assert (p = es) as ->.
  { apply (f_equal length) in Hd. rewrite length_drop in Hd. cbn in Hd. lia. }
  by rewrite lookup_app_r, Nat.sub_diag.
Qed.

Lemma skip_while_spec cond st x y : on_line st → Forall (λ c, cond c = true) x → (∀ c, head y = Some c → cond c = false) →
  ∀ fuel p, (length x < fuel)%nat → drop p text = x ++ y → (p ≤ es)%nat → skip_while cond fuel es p st = URet (p + length x)%nat st.
Proof.
  intros Hst Hx Hy. induction Hx as [|c x Hc Hx IH]; intros fuel p Hf Hd Hp; (destruct fuel as [|fuel]; [cbn in Hf; lia|]); cbn [skip_while length].
  - rewrite Nat.add_0_r. case_decide; [|done]. destruct y as [|c y].
    + exfalso. apply (f_equal length) in Hd. rewrite length_drop in Hd. cbn in Hd. lia.
    + cbn in Hd. unfold mbind, U_bind. rewrite (rd_text _ _ _ _ Hst Hd). by rewrite Hy.
  - assert (p < es)%nat. { apply (f_equal length) in Hd. rewrite length_drop in Hd. cbn in Hd. lia. }
    rewrite decide_True by done. unfold mbind, U_bind. rewrite (rd_text _ _ _ _ Hst Hd), Hc.
    rewrite (IH fuel (Datatypes.S p)); [f_equal; cbn; lia|cbn in Hf; lia| |lia].
    by rewrite <-Nat.add_1_r, <-drop_drop, Hd.
Qed.

Lemma drop_length p x y : drop p text = x ++ y → (p ≤ es)%nat → drop (p + length x) text = y ∧ (p + length x ≤ es)%nat ∧ (length x ≤ es - p)%nat.
Proof.
  intros Hd Hp. rewrite <-drop_drop, Hd, drop_app_length. split; [done|].
  apply (f_equal length) in Hd. rewrite length_drop, length_app in Hd. lia.
Qed.

Lemma skip_ws_spec st p x y : on_line st → (p ≤ es)%nat → drop p text = x ++ y → Forall (λ c, is_ws c = true) x →
  (∀ c, head y = Some c → is_ws c = false) → skip_ws es p st = URet (p + length x)%nat st.
Proof.
  intros Hst Hp Hd Hx Hy. eapply skip_while_spec; [done..| |done|done].
  destruct (drop_length p x y) as (_ & _ & ?); [done..|]. lia.
Qed.

(** The tokens that follow are found after the white space. *)
Lemma tok_head t rest : tok_ok t rest → ∃ c r, tok_text t ++ rest = c :: r ∧ c = tok_char t ∧ is_ws c = false.
Proof.
  destruct t as [c| |w]; cbn.
  - intros [Hc _]. exists c, rest. split_and!; [done..|by apply symbol_not_ws].
  - intros _. by exists 62, (62 :: rest).
  - intros (Hw & Hf & _). destruct w as [|c w]; [done|]. exists c, (w ++ rest). split_and!; [done..|].
    apply Forall_cons in Hf as [Hc _]. by apply word_char_ws in Hc as [? _].
Qed.

Lemma at_split p ts : at_toks p ts → ∃ x y, drop p text = x ++ y ∧ Forall (λ c, is_ws c = true) x ∧ (∀ c, head y = Some c → is_ws c = false) ∧
  match ts with
  | [] => y = []
  | t :: ts' => ∃ rest, y = tok_text t ++ rest ∧ tok_ok t rest ∧ lexed rest ts'
  end.
Proof.
  intros [Hp Hl]. inversion Hl as [x Hx He|x t rest ts' Hx Ht Hr He]; subst.
  - exists (drop p text), []. rewrite app_nil_r. done.
  - exists x, (tok_text t ++ rest). split_and!; [done..| |eauto].
    destruct (tok_head t rest Ht) as (c & r & -> & _ & Hc). intros ? [= <-]. done.
Qed.

Lemma peek_spec st p ts toks : on_line st → at_toks p ts →
  ∃ p', peek es p toks st = URet (match ts with [] => false | t :: _ => one_of toks (tok_char t) end, p') st ∧
    (p ≤ p')%nat ∧ at_toks p' ts ∧ (ts = [] → p' = es).
Proof.
  intros Hst Hat. pose proof Hat as [Hp _]. destruct (at_split p ts Hat) as (x & y & Hd & Hx & Hy & Hts).
  destruct (drop_length p x y Hd Hp) as (Hd' & Hp' & _). exists (p + length x)%nat.
  unfold peek, mbind, U_bind. rewrite (skip_ws_spec st p x y) by done. destruct ts as [|t ts].
  - subst y. rewrite (rd_end _ _ Hst Hd' Hp'). split_and!; [done|lia| |].
    + split; [done|]. rewrite Hd'. by constructor.
    + intros _. apply (f_equal length) in Hd'. rewrite length_drop in Hd'. cbn in Hd'. lia.
  - destruct Hts as (rest & -> & Ht & Hr). destruct (tok_head t rest Ht) as (c & r & Hc & -> & _).
    rewrite (rd_text _ _ (tok_char t) r Hst) by congruence.
    assert (tok_char t ≠ 0) as Hz.
    { intros Hz. apply H0. rewrite <-Hz, <-(take_drop (p + length x) text), Hd', Hc. apply elem_of_app. right. left. }
    rewrite (proj2 (Z.eqb_neq _ 0)) by done. split_and!; [done|lia| |done]. split; [done|]. rewrite Hd'. apply (lexed_tok []); [constructor|done..].
Qed.

(** The word [w] is at [q], and ends at [eq]. *)
Definition word_at (q eq : nat) (w : list Z) : Prop :=
  eq = (q + length w)%nat ∧ (eq ≤ es)%nat ∧ drop q text = w ++ drop eq text ∧ Forall (λ c, word_char c = true) w ∧
  ∀ c, text !! eq = Some c → word_char c = false.

(** Scanning a token: its code and its end. *)
Lemma scan_token st p t rest : on_line st → (p ≤ es)%nat → drop p text = tok_text t ++ rest → tok_ok t rest →
  (if tok_char t =? 0 then mret (tok_char t, p)
   else if one_of (chars "|();&<") (tok_char t) then mret (tok_char t, Datatypes.S p)
   else if tok_char t =? 62 then
     c' ← rd (Datatypes.S p);
     if c' =? 62 then mret (43, Datatypes.S (Datatypes.S p)) else mret (tok_char t, Datatypes.S p)
   else
     s ← skip_while (λ c, negb (one_of whitespace c) && negb (one_of symbols c)) (Datatypes.S (es - p)) es p;
     mret (97, s) : U (sh S) (Z * nat)) st = URet (tok_code t, p + length (tok_text t))%nat st.
Proof.
  intros Hst Hp Hd Ht. destruct (drop_length p _ _ Hd Hp) as (Hd' & Hp' & Hl).
  destruct t as [c| |w]; cbn [tok_text tok_char tok_code hd0] in *.
  - unfold tok_char. cbn [tok_text hd0]. destruct Ht as [Hc Hg]. rewrite (proj2 (Z.eqb_neq c 0)) by (by apply symbol_nonzero).
    destruct (one_of (chars "|();&<") c) eqn:E1; [cbn; do 2 f_equal; lia|].
    assert (c = 62) as ->.
    { apply not_true_iff_false in E1. rewrite one_of_spec in E1. toks. tauto. }
    cbn [Z.eqb Pos.eqb]. unfold mbind, U_bind. replace (p + length [62%Z])%nat with (Datatypes.S p) in * by (cbn; lia).
    destruct rest as [|d rest]; [rewrite (rd_end _ _ Hst Hd') by done; done|].
    rewrite (rd_text _ _ _ _ Hst Hd'). destruct (Z.eqb_spec d 62) as [->|]; [|done]. by destruct (Hg eq_refl).
  - change (tok_char TAppend) with 62. cbn [Z.eqb Pos.eqb]. change (one_of (chars "|();&<") 62) with false. cbv iota.
    unfold mbind, U_bind. assert (drop (Datatypes.S p) text = 62 :: rest) as Hd1 by (by rewrite <-Nat.add_1_r, <-drop_drop, Hd).
    rewrite (rd_text _ _ _ _ Hst Hd1). cbn. do 2 f_equal. lia.
  - destruct Ht as (Hw & Hf & Hr). assert (∃ c w', w = c :: w') as (c & w' & ->) by (destruct w; [done|eauto]).
    change (tok_char (TWord (c :: w'))) with c. pose proof (proj1 (Forall_cons_1 _ _ _ Hf)) as Hc. apply word_char_ws in Hc as [_ Hs].
    assert (c ≠ 0) as Hz.
    { intros ->. apply H0. rewrite <-(take_drop p text), Hd. apply elem_of_app. right. left. }
    rewrite (proj2 (Z.eqb_neq c 0)) by done.
    assert (one_of (chars "|();&<") c = false) as ->.
    { apply not_true_iff_false. rewrite one_of_spec. intros Hin. apply Hs. toks. tauto. }
    assert (c ≠ 62) as H62 by (intros ->; apply Hs; toks; tauto).
    rewrite (proj2 (Z.eqb_neq c 62)) by done. unfold mbind, U_bind.
    rewrite (skip_while_spec _ st (c :: w') rest); [done..|lia|done|done].
Qed.

Lemma gettoken_spec st p t ts : on_line st → at_toks p (t :: ts) →
  ∃ q eq p', gettoken es p st = URet (tok_code t, q, eq, p') st ∧ (p < p')%nat ∧ at_toks p' ts ∧
    ∀ w, t = TWord w → word_at q eq w.
Proof.
  intros Hst Hat. pose proof Hat as [Hp _]. destruct (at_split p _ Hat) as (x & y & Hd & Hx & Hy & rest & -> & Ht & Hr).
  destruct (drop_length p x _ Hd Hp) as (Hd1 & Hp1 & _).
  destruct (drop_length _ _ _ Hd1 Hp1) as (Hd2 & Hp2 & _).
  assert (0 < length (tok_text t))%nat as Htl by (destruct (tok_head t rest Ht) as (c & r & He & -> & _); destruct t as [| |[]]; cbn in *; try lia; by destruct Ht).
  assert (at_toks (p + length x + length (tok_text t)) ts) as Hat2 by (split; [done|by rewrite Hd2]).
  destruct (at_split _ _ Hat2) as (x2 & y2 & Hd3 & Hx2 & Hy2 & Hts2).
  destruct (drop_length _ _ _ Hd3 Hp2) as (Hd4 & Hp4 & _).
  exists (p + length x)%nat, (p + length x + length (tok_text t))%nat, (p + length x + length (tok_text t) + length x2)%nat.
  split_and!; [|lia| |].
  - unfold gettoken. unfold mbind at 1, U_bind at 1. rewrite (skip_ws_spec st p x _ Hst Hp Hd Hx Hy).
    unfold mbind at 1, U_bind at 1. destruct (tok_head t rest Ht) as (c & r & He & -> & _).
    rewrite (rd_text _ _ (tok_char t) r Hst) by congruence.
    unfold mbind at 1, U_bind at 1. rewrite (scan_token st _ t rest Hst Hp1 Hd1 Ht).
    unfold mbind at 1, U_bind at 1. rewrite (skip_ws_spec st _ x2 y2 Hst Hp2 Hd3 Hx2 Hy2). done.
  - split; [done|]. rewrite Hd4. destruct ts as [|t' ts']; [subst; by constructor|].
    destruct Hts2 as (rest' & -> & Ht' & Hr'). apply (lexed_tok []); [constructor|done..].
  - intros w ->. destruct Ht as (_ & Hf & Hend). split_and!; [done|done|by rewrite Hd2|done|].
    intros c Hc. apply Hend. rewrite <-Hd2, head_drop. exact Hc.
Qed.

(** The code of a token tells words from the others, and from the end. *)
Lemma at_code p t ts : at_toks p (t :: ts) → tok_code t ≠ 0 ∧ (tok_code t = 97 → ∃ w, t = TWord w).
Proof.
  intros Hat. destruct (at_split p _ Hat) as (x & y & _ & _ & _ & rest & _ & Ht & _).
  destruct t as [c| |w]; cbn; [|split; [done|]..]; [|done|by eauto].
  destruct Ht as [Hc _]. toks. split; [|intros ->]; destruct_or! Hc; by subst.
Qed.

Lemma gettoken_end st p : on_line st → at_toks p [] → ∃ q eq, gettoken es p st = URet (0, q, eq, es) st.
Proof.
  intros Hst Hat. pose proof Hat as [Hp _]. destruct (at_split p _ Hat) as (x & y & Hd & Hx & Hy & ->).
  destruct (drop_length p x _ Hd Hp) as (Hd1 & Hp1 & _).
  assert (p + length x = es)%nat as He by (apply (f_equal length) in Hd1; rewrite length_drop in Hd1; cbn in Hd1; lia).
  exists es, es. unfold gettoken. unfold mbind at 1, U_bind at 1. rewrite (skip_ws_spec st p x _ Hst Hp Hd Hx Hy).
  unfold mbind at 1, U_bind at 1. rewrite (rd_end _ _ Hst Hd1 Hp1). rewrite He.
  change (0 =? 0) with true. cbv iota. unfold mbind, U_bind. cbv beta iota delta [mret U_ret].
  rewrite (skip_ws_spec st es [] []) by (done || (rewrite drop_all; done)). cbn. by rewrite Nat.add_0_r.
Qed.
End scan.

(** Printing a format with one string. *)
Lemma vprintf_lit fd lit : ∀ fmt ap s Q E, (37 ∉ lit) →
  (∀ s', uwp (vprintf_loop fd fmt 0 false ap) s' Q E) → uwp (vprintf_loop (S := streams) fd (lit ++ fmt) 0 false ap) s Q E.
Proof.
  induction lit as [|c lit IH]; intros fmt ap s Q E Hl HQ; [apply HQ|]. apply not_elem_of_cons in Hl as [Hc Hl].
  cbn [app vprintf_loop]. rewrite (proj2 (Z.eqb_neq c 37)) by congruence. uwp_step. apply putc_spec. intros s' _. by apply IH.
Qed.

Lemma vprintf_string fd str : ∀ fmt ap s Q E,
  (∀ s', uwp (vprintf_loop fd fmt 0 false ap) s' Q E) →
  uwp (vprintf_loop (S := streams) fd (37 :: 115 :: fmt) 0 false (VStr str :: ap)) s Q E.
Proof.
  intros fmt ap s Q E HQ. cbn [vprintf_loop]. change (37 =? 37) with true. cbv iota.
  change (conversion 115 (hd0 fmt) (hd0 (tail fmt))) with (CStr, 0%nat). cbv iota beta.
  uwp_step. cbn [print_arg arg_str]. uwp_step. uwp_step. cbn [fst snd]. uwp_step. apply putcs_spec. intros s' _. uwp_step. apply HQ.
Qed.

Lemma sh_panic_total {A} msg st (Q : A → sh streams → Prop) : uwp (sh_panic msg) st Q (λ c _, c = 1).
Proof.
  unfold sh_panic. uwp_step. assert (uwp (fprintf 2 ("%s" +:+ NL) [VStr (chars msg)]) (sh_sys st) (λ _ _, True) (λ _ _, False)) as Hp.
  { unfold fprintf, vprintf. change (chars ("%s" +:+ NL)) with [37; 115; 10]. apply vprintf_string. intros s'.
    apply (vprintf_lit 2 [10] []); [toks; lia|]. done. }
  unfold uwp, usys in *. by destruct (fprintf _ _ _ (sh_sys st)).
Qed.

Section total.
Context (text : list Z) (H0 : 0 ∉ text).
Abbreviation es := (length text).
Implicit Types st : sh streams.

(** Commands point to earlier ones, and strings end in the line. *)
Definition node_ok (i : nat) (n : node) : Prop :=
  match n with
  | EXEC argv eargv => Forall (λ e, e ≤ es)%nat eargv
  | REDIR c _ e _ _ => (c < i ∧ e ≤ es)%nat
  | PIPE l r | LIST l r => (l < i ∧ r < i)%nat
  | BACK c => (c < i)%nat
  | BUILTIN _ => False
  end.

Definition heap_ok (h : list node) : Prop := ∀ i n, h !! i = Some n → node_ok i n.

Definition good st : Prop := on_line text st ∧ heap_ok (sh_heap st).

(** What a parsing function leaves: at a later place of the line, a command. *)
Definition parsed (p : nat) st (r : nat * nat) st' : Prop :=
  (p ≤ snd r ≤ es)%nat ∧ good st' ∧ (length (sh_heap st) ≤ length (sh_heap st'))%nat ∧ (fst r < length (sh_heap st'))%nat.

Definition failed (c : Z) st : Prop := c = 1.

Lemma at_any p : (p ≤ es)%nat → ∃ ts, at_toks text p ts.
Proof. intros Hp. destruct (lexed_total (drop p text)) as [ts Hts]. by exists ts. Qed.

Lemma peek_total p toks st Q E : good st → (p ≤ es)%nat →
  (∀ b p', (p ≤ p' ≤ es)%nat → (b = true → (p' < es)%nat) → Q (b, p') st) → uwp (peek es p toks) st Q E.
Proof.
  intros [Hst _] Hp HQ. destruct (at_any p Hp) as [ts Hts].
  destruct (peek_spec text H0 st p ts toks Hst Hts) as (p' & Hr & Hle & Hts' & _). unfold uwp. rewrite Hr.
  apply HQ; [destruct Hts'; lia|]. destruct ts as [|t ts]; [done|]. intros _. destruct Hts' as [Hp' Hl].
  destruct (decide (p' = es)) as [->|]; [|lia]. exfalso. rewrite drop_all in Hl. inversion Hl as [|x t' rest ts' Hx Ht Hr' He]; subst.
  apply app_eq_nil in He as [_ [He _]%app_eq_nil]. destruct t as [| |[]]; try done. by destruct Ht.
Qed.

Lemma gettoken_total p st Q E : good st → (p ≤ es)%nat →
  (∀ tok q eq p', (p ≤ p' ≤ es)%nat → (tok ≠ 0 → (p < p')%nat) → ((p < es)%nat → (p < p')%nat) → (tok = 97 → (eq ≤ es)%nat) → Q (tok, q, eq, p') st) →
  uwp (gettoken es p) st Q E.
Proof.
  intros [Hst _] Hp HQ. destruct (at_any p Hp) as [[|t ts] Hts].
  - destruct (gettoken_end text st p Hst Hts) as (q & eq & Hr). unfold uwp. rewrite Hr. apply HQ; [lia|done|lia|done].
  - destruct (gettoken_spec text H0 st p t ts Hst Hts) as (q & eq & p' & Hr & Hlt & [? _] & Hw). unfold uwp. rewrite Hr.
    destruct (at_code text p t ts Hts) as [_ Hc]. apply HQ; [lia|done|done|]. intros E97. destruct (Hc E97) as [w ->]. by destruct (Hw w eq_refl) as (_ & ? & _).
Qed.

Lemma heap_ok_snoc h n : heap_ok h → node_ok (length h) n → heap_ok (h ++ [n]).
Proof.
  intros Hh Hn i m. destruct (decide (i < length h)%nat); [rewrite lookup_app_l by done; apply Hh|].
  rewrite lookup_app_r by lia. destruct (i - length h)%nat eqn:Ei; [|done]. intros [= <-]. by replace i with (length h) by lia.
Qed.

Lemma heap_ok_insert h i n : heap_ok h → node_ok i n → heap_ok (<[i := n]> h).
Proof.
  intros Hh Hn j m. destruct (decide (i = j)) as [<-|]; [|rewrite list_lookup_insert_ne by done; apply Hh].
  intros Hj. destruct (decide (i < length h)%nat) as [Hi|Hi]; [rewrite list_lookup_insert_eq in Hj by done; congruence|].
  apply lookup_lt_Some in Hj. rewrite length_insert in Hj. lia.
Qed.

Lemma alloc_total n st Q E : good st → node_ok (length (sh_heap st)) n →
  (∀ st', good st' → sh_heap st' = sh_heap st ++ [n] → Q (length (sh_heap st)) st') → uwp (alloc n) st Q E.
Proof. intros [Hl Hh] Hn HQ. unfold uwp, alloc. apply HQ; [|done]. split; [exact Hl|]. by apply heap_ok_snoc. Qed.

Lemma parseredirs_total fuel : ∀ p cmd st Q, good st → (p ≤ es)%nat → (es - p < fuel)%nat → (cmd < length (sh_heap st))%nat →
  (∀ r st', parsed p st r st' → sh_heap st `prefix_of` sh_heap st' → Q r st') → uwp (parseredirs fuel es cmd p) st Q failed.
Proof.
  induction fuel as [|fuel IH]; intros p cmd st Q Hg Hp Hf Hc HQ; [lia|]. cbn [parseredirs]. uwp_step.
  apply peek_total; [done..|]. intros b p1 Hp1 Hb. destruct b; cbn [negb].
  2:{ apply HQ; [|done]. unfold parsed. cbn. split_and!; (done || lia). }
  uwp_step. apply gettoken_total; [done|lia|]. intros tok q0 eq0 p2 Hp2 _ Hlt _. uwp_step.
  apply gettoken_total; [done|lia|]. intros t q eq p3 Hp3 _ _ Heq. specialize (Hlt (Hb eq_refl)).
  destruct (Z.eqb_spec t 97) as [->|]; cbn [negb]; [|apply sh_panic_total].
  assert (∀ mode fd, uwp (redircmd cmd q eq mode fd) st (λ c st', uwp (parseredirs fuel es c p3) st' Q failed) failed) as Hr.
  { intros mode fd. apply alloc_total; [done|cbn; split; [done|by apply Heq]|]. intros st' Hg' Hh'.
    apply IH; [done|lia|lia|rewrite Hh', length_app; cbn; lia|]. intros r st'' (? & ? & Hlen & ?) Hpre. rewrite Hh' in *. rewrite length_app in Hlen.
    apply HQ; [unfold parsed; split_and!; (done || lia)|]. etrans; [|exact Hpre]. by eexists. }
  uwp_step. destruct (tok =? 60); [apply Hr|]. destruct (tok =? 62); [apply Hr|]. destruct (tok =? 43); [apply Hr|].
  uwp_step. apply IH; [done|lia|lia|done|]. intros r st' (? & ? & ? & ?) Hpre. apply HQ; [unfold parsed; split_and!; (done || lia)|done].
Qed.

Lemma parse_args_total fuel : ∀ p cmd ret argc st, good st → (p ≤ es)%nat → (es - p < fuel)%nat → (ret < length (sh_heap st))%nat →
  (∃ a e, sh_heap st !! cmd = Some (EXEC a e)) →
  uwp (parse_args fuel es cmd ret p argc) st (parsed p st) failed.
Proof.
  induction fuel as [|fuel IH]; intros p cmd ret argc st Hg Hp Hf Hr (a & e & Hn); [lia|]. cbn [parse_args]. uwp_step.
  apply peek_total; [done..|]. intros b p1 Hp1 _. destruct b; [uwp_step; unfold parsed; cbn; split_and!; (done || lia)|].
  uwp_step. apply gettoken_total; [done|lia|]. intros tok q eq p2 Hp2 Hlt _ Heq.
  destruct (Z.eqb_spec tok 0) as [->|Ht]; [uwp_step; unfold parsed; cbn; split_and!; (done || lia)|].
  specialize (Hlt Ht). destruct (Z.eqb_spec tok 97) as [->|]; cbn [negb]; [|apply sh_panic_total].
  uwp_step. unfold uwp at 1, getnode. rewrite Hn. uwp_step. unfold uwp at 1, setnode. case_decide; [apply sh_panic_total|].
  uwp_step. set (st1 := Sh _ _ _). assert (good st1) as Hg1.
  { destruct Hg as [Hl Hh]. split; [exact Hl|]. apply heap_ok_insert; [done|]. cbn. specialize (Hh _ _ Hn). cbn in Hh.
    apply Forall_app. split; [done|]. constructor; [by apply Heq|done]. }
  assert (length (sh_heap st1) = length (sh_heap st)) as Hl1 by apply length_insert.
  assert (sh_heap st1 !! cmd = Some (EXEC (a ++ [q]) (e ++ [eq]))) as Hn1 by (apply list_lookup_insert_eq; by eapply lookup_lt_Some).
  apply parseredirs_total; [done|lia|lia|lia|]. intros [ret' p3] st2 (Hp3 & Hg2 & Hlen & Hret) Hpre. cbn [fst snd] in *.
  eapply uwp_mono; [apply IH; [done|lia|lia|done|]| |done].
  - exists (a ++ [q]), (e ++ [eq]). by eapply prefix_lookup_Some.
  - intros r st3 (? & ? & ? & ?). unfold parsed. split_and!; (done || lia).
Qed.

Lemma parse_backs_total fuel : ∀ p cmd st, good st → (p ≤ es)%nat → (es - p < fuel)%nat → (cmd < length (sh_heap st))%nat →
  uwp (parse_backs fuel es cmd p) st (parsed p st) failed.
Proof.
  induction fuel as [|fuel IH]; intros p cmd st Hg Hp Hf Hc; [lia|]. cbn [parse_backs]. uwp_step.
  apply peek_total; [done..|]. intros b p1 Hp1 Hb. destruct b; cbn [negb]; [|uwp_step; unfold parsed; cbn; split_and!; (done || lia)].
  uwp_step. apply gettoken_total; [done|lia|]. intros tok q0 eq0 p2 Hp2 _ Hlt _. specialize (Hlt (Hb eq_refl)).
  uwp_step. apply alloc_total; [done..|]. intros st' Hg' Hh'.
  eapply uwp_mono; [apply IH; [done|lia|lia|rewrite Hh', length_app; cbn; lia]| |done].
  intros r st3 (? & ? & Hlen & ?). rewrite Hh', length_app in Hlen. unfold parsed. split_and!; (done || lia).
Qed.

(** From a later place and a larger heap. *)
Lemma parsed_later p p1 st st1 r st2 : (p ≤ p1)%nat → (length (sh_heap st) ≤ length (sh_heap st1))%nat → parsed p1 st1 r st2 → parsed p st r st2.
Proof. intros Hp Hl (? & ? & ? & ?). unfold parsed. split_and!; (done || lia). Qed.

(** The end of [parseline] and [parsepipe]: a token, the rest, and a command of both. *)
Lemma parse_rest_total (mk : nat → nat → node) (toks : list Z) (rec : nat → U (sh streams) (nat * nat)) p cmd st :
  (∀ l r i, (l < i → r < i → node_ok i (mk l r))%nat) →
  good st → (p ≤ es)%nat → (cmd < length (sh_heap st))%nat →
  (∀ p' st', good st' → (p < p' ≤ es)%nat → uwp (rec p') st' (parsed p' st') failed) →
  uwp (r ← peek es p toks;
       let '(b, ps) := r in
       if (b : bool) then
         r ← gettoken es ps;
         let '(_, _, _, ps) := r in
         r ← rec ps;
         let '(rest, ps) := r in
         cmd ← alloc (mk cmd rest);
         mret (cmd, ps)
       else mret (cmd, ps)) st (parsed p st) failed.
Proof.
  intros Hmk Hg Hp Hc Hrec. uwp_step. apply peek_total; [done..|]. intros b p1 Hp1 Hb.
  destruct b; [|uwp_step; unfold parsed; cbn; split_and!; (done || lia)].
  uwp_step. apply gettoken_total; [done|lia|]. intros tok q0 eq0 p2 Hp2 _ Hlt _. specialize (Hlt (Hb eq_refl)).
  uwp_step. eapply uwp_mono; [apply Hrec; [done|lia]| |done]. intros [rest p3] st3 (? & ? & ? & ?). cbn [fst snd] in *.
  uwp_step. apply alloc_total; [done|apply Hmk; lia|]. intros st4 Hg4 Hh4. uwp_step.
  unfold parsed. cbn. rewrite Hh4, length_app. cbn. split_and!; (done || lia).
Qed.

Lemma parse_total fuel :
  (∀ p st, good st → (p ≤ es)%nat → (4 * (es - p) + 4 ≤ fuel)%nat → uwp (parseline fuel es p) st (parsed p st) failed) ∧
  (∀ p st, good st → (p ≤ es)%nat → (4 * (es - p) + 3 ≤ fuel)%nat → uwp (parsepipe fuel es p) st (parsed p st) failed) ∧
  (∀ p st, good st → (p ≤ es)%nat → (4 * (es - p) + 2 ≤ fuel)%nat → uwp (parseexec fuel es p) st (parsed p st) failed) ∧
  (∀ p st, good st → (p ≤ es)%nat → (4 * (es - p) + 1 ≤ fuel)%nat → uwp (parseblock fuel es p) st (parsed p st) failed).
Proof.
  induction fuel as [|fuel (IHl & IHp & IHe & IHb)]; [split_and!; intros; lia|]. split_and!; intros p st Hg Hp Hf.
  - cbn [parseline]. uwp_step. eapply uwp_mono; [apply IHp; [done..|lia]| |done]. intros [c p1] st1 (? & ? & ? & ?). cbn [fst snd] in *.
    uwp_step. eapply uwp_mono; [apply parse_backs_total; [done|lia|lia|done]| |done]. intros [c2 p2] st2 (? & ? & ? & ?). cbn [fst snd] in *.
    eapply uwp_mono; [apply (parse_rest_total LIST); [by split|done|lia|done|]| |done].
    + intros p3 st3 ? ?. apply IHl; [done|lia|lia].
    + intros r st3. apply parsed_later; lia.
  - cbn [parsepipe]. uwp_step. eapply uwp_mono; [apply IHe; [done..|lia]| |done]. intros [c p1] st1 (? & ? & ? & ?). cbn [fst snd] in *.
    eapply uwp_mono; [apply (parse_rest_total PIPE); [by split|done|lia|done|]| |done].
    + intros p3 st3 ? ?. apply IHp; [done|lia|lia].
    + intros r st3. apply parsed_later; lia.
  - cbn [parseexec]. uwp_step. apply peek_total; [done..|]. intros b p1 Hp1 _. destruct b.
    { eapply uwp_mono; [apply IHb; [done|lia|lia]| |done]. intros r st3. apply parsed_later; lia. }
    uwp_step. apply alloc_total; [done|by constructor|]. intros st1 Hg1 Hh1. uwp_step.
    apply parseredirs_total; [done|lia|lia|rewrite Hh1, length_app; cbn; lia|].
    intros [ret p2] st2 (? & ? & Hlen & ?) Hpre. cbn [fst snd] in *.
    eapply uwp_mono; [apply parse_args_total; [done|lia|lia|done|]| |done].
    + exists [], []. eapply prefix_lookup_Some; [|exact Hpre]. rewrite Hh1. by rewrite lookup_app_r, Nat.sub_diag.
    + rewrite Hh1, length_app in Hlen. intros r st3. apply parsed_later; lia.
  - cbn [parseblock]. uwp_step. apply peek_total; [done..|]. intros b p1 Hp1 Hb. destruct b; cbn [negb]; [|apply sh_panic_total].
    uwp_step. apply gettoken_total; [done|lia|]. intros tok q0 eq0 p2 Hp2 _ Hlt _. specialize (Hlt (Hb eq_refl)).
    uwp_step. eapply uwp_mono; [apply IHl; [done|lia|lia]| |done]. intros [c p3] st3 (? & ? & ? & ?). cbn [fst snd] in *.
    uwp_step. apply peek_total; [done|lia|]. intros b2 p4 Hp4 _. destruct b2; cbn [negb]; [|apply sh_panic_total].
    uwp_step. apply gettoken_total; [done|lia|]. intros tok2 q2 eq2 p5 Hp5 _ _ _.
    apply parseredirs_total; [done|lia|lia|done|]. intros r st4 Hr _. eapply parsed_later; [| |exact Hr]; lia.
Qed.

(** Ending the strings does not leave the line. *)
Lemma wr_total e c st Q E : (e ≤ es)%nat → length (sh_buf st) = S es →
  (∀ st', sh_heap st' = sh_heap st → length (sh_buf st') = S es → sh_buf st' = <[e := c]> (sh_buf st) → Q tt st') → uwp (wr e c) st Q E.
Proof. intros He Hl HQ. unfold uwp, wr. rewrite decide_True by lia. apply HQ; [done|cbn; by rewrite length_insert|done]. Qed.

Lemma nulterminate_total fuel : ∀ cmd st Q E, (cmd < fuel)%nat → (cmd < length (sh_heap st))%nat → heap_ok (sh_heap st) → length (sh_buf st) = S es →
  (∀ st', sh_heap st' = sh_heap st → length (sh_buf st') = S es → (sh_buf st !! es = Some 0 → sh_buf st' !! es = Some 0) → Q tt st') →
  uwp (nulterminate fuel cmd) st Q E.
Proof.
  induction fuel as [|fuel IH]; intros cmd st Q E Hf Hc Hh Hl HQ; [lia|]. cbn [nulterminate]. uwp_step.
  destruct (lookup_lt_is_Some_2 _ _ Hc) as [n Hn]. unfold uwp at 1, getnode. rewrite Hn. pose proof (Hh _ _ Hn) as Hok.
  assert (∀ (st : sh streams) e Q, (e ≤ es)%nat → length (sh_buf st) = S es →
    (∀ st', sh_heap st' = sh_heap st → length (sh_buf st') = S es → (sh_buf st !! es = Some 0 → sh_buf st' !! es = Some 0) → Q tt st') → uwp (wr e 0) st Q E) as Hwr.
  { clear. intros st e Q He Hl HQ. apply wr_total; [done..|]. intros st' ? ? Hb. apply HQ; [done..|]. rewrite Hb. intros Hz.
    destruct (decide (e = es)) as [->|]; [rewrite list_lookup_insert_eq by lia; done|by rewrite list_lookup_insert_ne]. }
  assert (∀ l r, (l < cmd ∧ r < cmd)%nat → uwp (nulterminate fuel l ;; nulterminate fuel r) st Q E) as Htwo.
  { intros l r [? ?]. uwp_step. apply IH; [lia|lia|done..|]. intros st1 E1 Hl1 Hz1. apply IH; [lia|rewrite E1; lia|by rewrite E1|done|].
    intros st2 E2 Hl2 Hz2. apply HQ; [congruence|done|auto]. }
  destruct n as [argv eargv|sub f e mode fd|l r|l r|sub|argv]; cbn in Hok.
  - clear Hn Htwo IH. revert st Hc Hh Hl HQ. induction Hok as [|e eargv He Hr IHr]; intros st Hc Hh Hl HQ; cbn [ufor]; [apply HQ; done|].
    uwp_step. apply Hwr; [done..|]. intros st1 E1 Hl1 Hz1. apply IHr; [by rewrite E1..|done|].
    intros st2 E2 Hl2 Hz2. apply HQ; [congruence|done|auto].
  - uwp_step. apply IH; [lia|lia|done..|]. intros st1 E1 Hl1 Hz1. apply Hwr; [lia|done|]. intros st2 E2 Hl2 Hz2. apply HQ; [congruence|done|auto].
  - by apply Htwo.
  - by apply Htwo.
  - apply IH; [lia|lia|done..].
  - done.
Qed.

Lemma cut0_line : cut0 (text ++ [0]) = text.
Proof. by apply cut0_app. Qed.

Lemma parsecmd_total st : sh_heap st = [] → on_line text st → uwp parsecmd st (λ cmd st', ∃ n, sh_heap st' !! cmd = Some n ∧ ∀ argv, n ≠ BUILTIN argv) failed.
Proof.
  intros Hh Hl. assert (good st) as Hg by (split; [done|]; rewrite Hh; by intros i n ?).
  unfold parsecmd. uwp_step. uwp_step. cbv zeta. unfold on_line in Hl. rewrite !Hl, !cut0_line. uwp_step.
  eapply uwp_mono; [apply (proj1 (parse_total _)); [done|lia|lia]| |done]. intros [cmd p] st1 (Hp & Hg1 & _ & Hc). cbn [fst snd] in *.
  uwp_step. apply peek_total; [done|lia|]. intros b p1 Hp1 _. case_decide as Hne.
  { uwp_step. eapply uwp_mono with (P := λ _ _, True) (E := λ _ _, False); [|intros; apply sh_panic_total|done].
    assert (∀ str s, uwp (fprintf 2 ("leftovers: %s" +:+ NL) [VStr str]) s (λ _ _, True) (λ _ _, False)) as Hpr.
    { intros str s. unfold fprintf, vprintf. change (chars ("leftovers: %s" +:+ NL)) with (chars "leftovers: " ++ [37; 115; 10]).
      apply vprintf_lit; [by apply (bool_decide_unpack _); vm_compute|]. intros s1. apply vprintf_string. intros s2.
      apply (vprintf_lit 2 [10] []); [toks; lia|done]. }
    specialize (Hpr (cut0 (drop p1 (text ++ [0]))) (sh_sys st1)). unfold uwp, usys in *. by destruct (fprintf _ _ _ _). }
  assert (p1 = es) as -> by (destruct (decide (p1 = es)); [done|by destruct Hne]).
  uwp_step. uwp_step. uwp_step. destruct Hg1 as [Hl1 Hh1].
  apply nulterminate_total; [done..|by rewrite Hl1, length_app, Nat.add_1_r|]. intros st2 Hh2 Hlen2 Hz2.
  uwp_step. uwp_step. specialize (Hz2 ltac:(by rewrite Hl1, lookup_app_r, Nat.sub_diag)).
  destruct (drop es (sh_buf st2)) as [|z line] eqn:Ed; [apply (f_equal length) in Ed; rewrite length_drop in Ed; cbn in Ed; lia|].
  assert (z = 0) as -> by (apply (f_equal head) in Ed; rewrite head_drop in Ed; cbn in Ed; congruence).
  assert ((memcmp (list_ptr (0 :: line)) (list_ptr (chars "cd ")) 3 =? 0) || (strcmp (cut0 (0 :: line)) (chars "cd") =? 0) = false) as -> by done.
  uwp_step. rewrite Hh2. destruct (lookup_lt_is_Some_2 _ _ Hc) as [n Hn]. exists n. split; [done|].
  intros argv ->. exact (Hh1 _ _ Hn).
Qed.
End total.
