(* ===== verification/ShParse.v ===== *)
(** * What the shell's parser returns: user/sh.c

    The grammar of command lines, and that the parser finds the command that a
    line was written for, its strings terminated. *)
From Stdlib Require Import ZArith Lia.
From stdpp Require Import prelude gmap strings.
From S2P Require Import Prelude Bytes Param Str Fs User Ulib Uprintf Grep Sh ShTotal.

(** ** Commands *)

Inductive redir := RIn (w : list Z) | ROut (w : list Z) | RAppend (w : list Z).

(** Words and redirections of a simple command may be mixed; a block is a line in
    parentheses. *)
Inductive ast :=
| AExec (items : list (list Z + redir))
| ABlock (a : ast) (rs : list redir)
| APipe (l r : ast)
| ABack (a : ast)
| AList (l r : ast).

Definition redir_word (r : redir) : list Z := match r with RIn w | ROut w | RAppend w => w end.
Definition redir_mode (r : redir) : Z :=
  match r with
  | RIn _ => O_RDONLY
  | ROut _ => Z.lor (Z.lor O_WRONLY O_CREATE) O_TRUNC
  | RAppend _ => Z.lor O_WRONLY O_CREATE
  end.
Definition redir_fd (r : redir) : Z := match r with RIn _ => 0 | _ => 1 end.

(** ** How they are written *)

Definition redir_toks (r : redir) : list token :=
  [match r with RIn _ => TSym 60 | ROut _ => TSym 62 | RAppend _ => TAppend end; TWord (redir_word r)].
Definition redirs_toks (rs : list redir) : list token := concat (redir_toks <$> rs).
Definition item_toks (i : list Z + redir) : list token := match i with inl w => [TWord w] | inr r => redir_toks r end.
Definition items_toks (items : list (list Z + redir)) : list token := concat (item_toks <$> items).

Fixpoint toks (a : ast) : list token :=
  match a with
  | AExec items => items_toks items
  | ABlock a rs => TSym 40 :: toks a ++ TSym 41 :: redirs_toks rs
  | APipe l r => toks l ++ TSym 124 :: toks r
  | ABack a => toks a ++ [TSym 38]
  | AList l r => toks l ++ TSym 59 :: toks r
  end.

Definition words (items : list (list Z + redir)) : list (list Z) := omap (λ i, match i with inl w => Some w | inr _ => None end) items.
Definition redirs (items : list (list Z + redir)) : list redir := omap (λ i, match i with inr r => Some r | inl _ => None end) items.

(** What may stand where: level 0 is [parseexec], 1 [parsepipe], 2 a pipe with any
    number of [&], 3 [parseline]. *)
Inductive wf : nat → ast → Prop :=
| wf_exec items : (length (words items) < MAXARGS)%nat → wf 0 (AExec items)
| wf_block a rs : wf 3 a → wf 0 (ABlock a rs)
| wf_pipe1 a : wf 0 a → wf 1 a
| wf_pipe l r : wf 0 l → wf 1 r → wf 1 (APipe l r)
| wf_back1 a : wf 1 a → wf 2 a
| wf_back a : wf 2 a → wf 2 (ABack a)
| wf_line2 a : wf 2 a → wf 3 a
| wf_list l r : wf 2 l → wf 3 r → wf 3 (AList l r).

(** ** Commands in the heap *)

(** [W q eq w]: the word [w] is at [q], and [eq] is its end. *)
Section repr.
Context (W : nat → nat → list Z → Prop).

(** The redirections [rs], the first one innermost, around the command [p0]. *)
Fixpoint wraps_by (h : list node) (p0 : nat) (rs : list redir) (p : nat) : Prop :=
  match rs with
  | [] => p = p0
  | r :: rs => ∃ p1 q eq, h !! p1 = Some (REDIR p0 q eq (redir_mode r) (redir_fd r)) ∧
      W q eq (redir_word r) ∧ wraps_by h p1 rs p
  end.

Definition exec_by (h : list node) (p : nat) (ws : list (list Z)) : Prop :=
  ∃ argv eargv, h !! p = Some (EXEC argv eargv) ∧ Forall3 W argv eargv ws.

Fixpoint repr_by (h : list node) (p : nat) (a : ast) : Prop :=
  match a with
  | AExec items => ∃ p0, exec_by h p0 (words items) ∧ wraps_by h p0 (redirs items) p
  | ABlock a rs => ∃ p0, repr_by h p0 a ∧ wraps_by h p0 rs p
  | APipe l r => ∃ pl pr, h !! p = Some (PIPE pl pr) ∧ repr_by h pl l ∧ repr_by h pr r
  | ABack a => ∃ p0, h !! p = Some (BACK p0) ∧ repr_by h p0 a
  | AList l r => ∃ pl pr, h !! p = Some (LIST pl pr) ∧ repr_by h pl l ∧ repr_by h pr r
  end.
End repr.

Lemma wraps_mono (W W' : nat → nat → list Z → Prop) h p0 rs p : (∀ q eq w, W q eq w → W' q eq w) → wraps_by W h p0 rs p → wraps_by W' h p0 rs p.
Proof. intros HW. revert p0. induction rs as [|r rs IH]; intros p0; cbn; [done|]. naive_solver. Qed.

Lemma repr_mono (W W' : nat → nat → list Z → Prop) h p a : (∀ q eq w, W q eq w → W' q eq w) → repr_by W h p a → repr_by W' h p a.
Proof.
  intros HW. revert p. induction a as [items|a IH rs|l IHl r IHr|a IH|l IHl r IHr]; intros p; cbn.
  - intros (p0 & (argv & eargv & ? & Hf) & ?). exists p0. split; [exists argv, eargv|by eapply wraps_mono]. split; [done|].
    clear -Hf HW. induction Hf; constructor; auto.
  - intros (p0 & ? & ?). exists p0. split; [auto|by eapply wraps_mono].
  - intros (pl & pr & ? & ? & ?). exists pl, pr. auto.
  - intros (p0 & ? & ?). eauto.
  - intros (pl & pr & ? & ? & ?). exists pl, pr. auto.
Qed.

Section parse.
Context {S : Type} `{Sys S} (text : list Z) (H0 : 0 ∉ text) (y : S).
Abbreviation es := (length text).
Abbreviation stt h := (Sh h (text ++ [0]) y).

(** ** Properties of the heap *)

Abbreviation wraps := (wraps_by (word_at text)).
Abbreviation exec_at := (exec_by (word_at text)).
Abbreviation repr := (repr_by (word_at text)).

Lemma wraps_prefix h h' p0 rs p : h `prefix_of` h' → wraps h p0 rs p → wraps h' p0 rs p.
Proof.
  intros Hp. revert p0. induction rs as [|r rs IH]; intros p0; cbn; [done|].
  intros (p1 & q & eq & Hn & Hw & Hr). exists p1, q, eq. split_and!; [by eapply prefix_lookup_Some|done|by apply IH].
Qed.

Lemma wraps_snoc h p0 rs p r p' q eq : wraps h p0 rs p → h !! p' = Some (REDIR p q eq (redir_mode r) (redir_fd r)) →
  word_at text q eq (redir_word r) → wraps h p0 (rs ++ [r]) p'.
Proof.
  revert p0. induction rs as [|r' rs IH]; intros p0; cbn; [intros -> ? ?; by exists p', q, eq|].
  intros (p1 & q' & eq' & Hn & Hw & Hr) ? ?. exists p1, q', eq'. split_and!; [done..|by apply IH].
Qed.

Lemma wraps_app h p0 rs rs' p p' : wraps h p0 rs p → wraps h p rs' p' → wraps h p0 (rs ++ rs') p'.
Proof.
  revert p0. induction rs as [|r rs IH]; intros p0; cbn; [by intros ->|].
  intros (p1 & q & eq & Hn & Hw & Hr) ?. exists p1, q, eq. split_and!; [done..|by apply IH].
Qed.

Lemma repr_prefix h h' p a : h `prefix_of` h' → repr h p a → repr h' p a.
Proof.
  intros Hp. assert (∀ p n, h !! p = Some n → h' !! p = Some n) as Hl by (intros; by eapply prefix_lookup_Some).
  revert p. induction a as [items|a IH rs|l IHl r IHr|a IH|l IHl r IHr]; intros p; cbn.
  - intros (p0 & (argv & eargv & ? & ?) & ?). exists p0. split; [exists argv, eargv; auto|by eapply wraps_prefix].
  - intros (p0 & ? & ?). exists p0. split; [auto|by eapply wraps_prefix].
  - intros (pl & pr & ? & ? & ?). exists pl, pr. auto.
  - intros (p0 & ? & ?). eauto.
  - intros (pl & pr & ? & ? & ?). exists pl, pr. auto.
Qed.

(** ** The scanner on tokens *)

Lemma redir_list : chars "<>" = [60; 62].
Proof. reflexivity. Qed.
Lemma stop_list : chars "|)&;" = [124; 41; 38; 59].
Proof. reflexivity. Qed.

Definition first (ts : list token) (l : list Z) : bool := match ts with [] => false | t :: _ => one_of l (tok_char t) end.

Lemma peek_wp p ts toks h Q E : at_toks text p ts →
  (∀ p', (p ≤ p' ≤ es)%nat → at_toks text p' ts → Q (first ts toks, p') (stt h)) → uwp (peek es p toks) (stt h) Q E.
Proof.
  intros Hat HQ. destruct (peek_spec text H0 (stt h) p ts toks eq_refl Hat) as (p' & Hr & Hle & Hat' & _).
  unfold uwp. rewrite Hr. apply HQ; [destruct Hat'; lia|done].
Qed.

Lemma gettoken_wp p t ts h Q E : at_toks text p (t :: ts) →
  (∀ q eq p', (p < p' ≤ es)%nat → at_toks text p' ts → (∀ w, t = TWord w → word_at text q eq w) → Q (tok_code t, q, eq, p') (stt h)) →
  uwp (gettoken es p) (stt h) Q E.
Proof.
  intros Hat HQ. destruct (gettoken_spec text H0 (stt h) p t ts eq_refl Hat) as (q & eq & p' & Hr & Hlt & Hat' & Hw).
  unfold uwp. rewrite Hr. apply HQ; [destruct Hat'; lia|done..].
Qed.

Lemma alloc_wp n h Q E : Q (length h) (stt (h ++ [n])) → uwp (alloc n) (stt h) Q E.
Proof. done. Qed.

(** A word is not taken for a symbol. *)
Lemma first_word w ts l p : at_toks text p (TWord w :: ts) → (∀ c, c ∈ l → c ∈ symbols) → first (TWord w :: ts) l = false.
Proof.
  intros Hat Hl. destruct (at_split text p _ Hat) as (x & z & _ & _ & _ & rest & _ & (Hne & Hf & _) & _).
  cbn. destruct w as [|c w]; [done|]. unfold tok_char. cbn. apply Forall_cons in Hf as [Hc _]. apply word_char_ws in Hc as [_ Hc].
  apply not_true_iff_false. rewrite one_of_spec. auto.
Qed.

Lemma parseredirs_wp rs ts : first ts (chars "<>") = false → ∀ fuel p cmd h Q E,
  at_toks text p (redirs_toks rs ++ ts) → (es - p < fuel)%nat →
  (∀ ret p' h', at_toks text p' ts → (p ≤ p' ≤ es)%nat → h `prefix_of` h' → wraps h' cmd rs ret → Q (ret, p') (stt h')) →
  uwp (parseredirs fuel es cmd p) (stt h) Q E.
Proof.
  intros Hts. induction rs as [|r rs IH]; intros fuel p cmd h Q E Hat Hf HQ; (destruct fuel as [|fuel]; [lia|]); cbn [parseredirs].
  - cbn in Hat. uwp_step. apply (peek_wp p ts); [done|]. intros p' Hp' Hat'. rewrite Hts. cbn [negb]. uwp_step. by apply HQ.
  - change (redirs_toks (r :: rs) ++ ts) with ((match r with RIn _ => TSym 60 | ROut _ => TSym 62 | RAppend _ => TAppend end) :: TWord (redir_word r) :: redirs_toks rs ++ ts) in Hat.
    uwp_step. eapply peek_wp; [exact Hat|]. intros p1 Hp1 Hat1.
    assert (first (match r with RIn _ => TSym 60 | ROut _ => TSym 62 | RAppend _ => TAppend end :: TWord (redir_word r) :: redirs_toks rs ++ ts) (chars "<>") = true) as -> by (by destruct r).
    cbn [negb]. uwp_step. eapply gettoken_wp; [exact Hat1|]. intros q1 eq1 p2 Hp2 Hat2 _. uwp_step.
    eapply gettoken_wp; [exact Hat2|]. intros q eq p3 Hp3 Hat3 Hw. specialize (Hw _ eq_refl). cbn [tok_code]. change (97 =? 97) with true. cbn [negb].
    uwp_step.
    assert (uwp (redircmd cmd q eq (redir_mode r) (redir_fd r)) (stt h) (λ c st', uwp (parseredirs fuel es c p3) st' Q E) E) as Hr.
    { apply alloc_wp. apply IH; [exact Hat3|lia|]. intros ret p' h' Hat' Hp' Hpre Hwr.
      apply HQ; [done|lia|etrans; [|exact Hpre]; by eexists|]. cbn. exists (length h), q, eq. split_and!; [|done..].
      eapply prefix_lookup_Some; [|exact Hpre]. by rewrite lookup_app_r, Nat.sub_diag. }
    by destruct r.
Qed.

Lemma lexed_after p ts1 ts2 : at_toks text p (ts1 ++ ts2) → ∃ p', at_toks text p' ts2.
Proof.
  revert p. induction ts1 as [|t ts1 IH]; intros p Hat; [by exists p|].
  destruct (gettoken_spec text H0 (stt []) p t _ eq_refl Hat) as (q & eq & p' & _ & _ & Hat' & _). by eapply IH.
Qed.

(** Simple commands: [items] begins with a word. *)
Definition no_redir (items : list (list Z + redir)) : Prop := ∀ r rest, items ≠ inr r :: rest.

Lemma split_redirs items : ∃ rs rest, items = (inr <$> rs) ++ rest ∧ no_redir rest.
Proof.
  induction items as [|[w|r] items (rs & rest & -> & Hr)]; [by exists [], []|by exists [], (inl w :: (inr <$> rs) ++ rest)|].
  by exists (r :: rs), rest.
Qed.

Lemma items_toks_app i1 i2 : items_toks (i1 ++ i2) = items_toks i1 ++ items_toks i2.
Proof. unfold items_toks. by rewrite fmap_app, concat_app. Qed.
Lemma items_toks_redirs rs : items_toks (inr <$> rs) = redirs_toks rs.
Proof. unfold items_toks, redirs_toks. by rewrite <-list_fmap_compose. Qed.
Lemma words_redirs rs rest : words ((inr <$> rs) ++ rest) = words rest.
Proof. unfold words. induction rs; [done|]. by cbn. Qed.
Lemma redirs_redirs rs rest : redirs ((inr <$> rs) ++ rest) = rs ++ redirs rest.
Proof. unfold redirs. induction rs as [|r rs IH]; [done|]. cbn. by f_equal. Qed.

(** What follows a command ends it. *)
Definition follow (l : string) (ts : list token) : Prop := ts = [] ∨ first ts (chars l) = true.
Abbreviation stops := (follow "|)&;").

Lemma follow_not l l' ts : Forall (λ c, c ∉ chars l') (chars l) → follow l ts → first ts (chars l') = false.
Proof.
  intros Hl [->|Hf]; [done|]. destruct ts as [|t ts]; [done|]. cbn [first] in *. apply one_of_spec in Hf.
  apply not_true_iff_false. rewrite one_of_spec. rewrite Forall_forall in Hl. auto.
Qed.

Lemma follow_weak l l' ts : Forall (λ c, c ∈ chars l') (chars l) → follow l ts → follow l' ts.
Proof.
  intros Hl [->|Hf]; [by left|right]. destruct ts as [|t ts]; [done|]. cbn [first] in *. rewrite one_of_spec in *.
  rewrite Forall_forall in Hl. auto.
Qed.

Ltac lits := apply (bool_decide_unpack _); vm_compute; exact I.

Lemma stops_no_redir ts : stops ts → first ts (chars "<>") = false.
Proof. apply follow_not. lits. Qed.

Lemma items_no_redir items ts p : no_redir items → stops ts → at_toks text p (items_toks items ++ ts) → first (items_toks items ++ ts) (chars "<>") = false.
Proof.
  intros Hn Hs Hat. destruct items as [|[w|r] items]; [by apply stops_no_redir| |by destruct (Hn r items)].
  eapply first_word; [exact Hat|]. intros c. rewrite symbols_list, redir_list, !elem_of_cons, !elem_of_nil. tauto.
Qed.

Lemma wraps_insert h cmd a e a' e' p0 rs p : h !! cmd = Some (EXEC a e) → wraps h p0 rs p → wraps (<[cmd := EXEC a' e']> h) p0 rs p.
Proof.
  intros Hc. revert p0. induction rs as [|r rs IH]; intros p0; cbn; [done|].
  intros (p1 & q & eq & Hn & Hw & Hr). exists p1, q, eq. split_and!; [|done|by apply IH].
  rewrite list_lookup_insert_ne; [done|]. intros ->. congruence.
Qed.

Lemma parse_args_wp ts : stops ts → ∀ fuel items p cmd ret h argv eargv ws rs Q E,
  at_toks text p (items_toks items ++ ts) → no_redir items → (es - p < fuel)%nat →
  h !! cmd = Some (EXEC argv eargv) → Forall3 (word_at text) argv eargv ws → wraps h cmd rs ret →
  (length ws + length (words items) < MAXARGS)%nat →
  (∀ ret' p' h', at_toks text p' ts → (p ≤ p' ≤ es)%nat → take cmd h' = take cmd h →
     exec_at h' cmd (ws ++ words items) → wraps h' cmd (rs ++ redirs items) ret' → Q (ret', p') (stt h')) →
  uwp (parse_args fuel es cmd ret p (length ws)) (stt h) Q E.
Proof.
  intros Hs. induction fuel as [|fuel IH]; intros items p cmd ret h argv eargv ws rs Q E Hat Hn Hf Hc Hws Hwr Hmax HQ; [lia|].
  cbn [parse_args]. uwp_step. eapply peek_wp; [exact Hat|]. intros p1 Hp1 Hat1.
  destruct items as [|[w|r] items]; [| |by destruct (Hn r items)].
  - change (items_toks [] ++ ts) with ts in *. change (words []) with (@nil (list Z)) in *. change (redirs []) with (@nil redir) in *.
    rewrite app_nil_r in HQ. assert (∀ p', (p ≤ p' ≤ es)%nat → at_toks text p' ts → Q (ret, p') (stt h)) as Hdone.
    { intros p' Hp' Hat'. rewrite app_nil_r in HQ. apply HQ; [done..|by exists argv, eargv|done]. }
    destruct Hs as [->|Hs]; [|rewrite Hs; uwp_step; by apply Hdone].
    cbn [first]. uwp_step. destruct (gettoken_end text (stt h) p1 eq_refl Hat1) as (q & eq & Hr). unfold uwp at 1. rewrite Hr.
    change (0 =? 0) with true. cbv iota. uwp_step. apply Hdone; [lia|]. split; [done|]. rewrite drop_all. by constructor.
  - change (items_toks (inl w :: items) ++ ts) with (TWord w :: items_toks items ++ ts) in *.
    rewrite (first_word w _ _ p1 Hat1) by (intros c; rewrite symbols_list, stop_list, !elem_of_cons, !elem_of_nil; tauto).
    uwp_step. eapply gettoken_wp; [exact Hat1|]. intros q eq p2 Hp2 Hat2 Hw. specialize (Hw _ eq_refl). cbn [tok_code].
    change (97 =? 0) with false. change (97 =? 97) with true. cbn [negb]. cbv iota. uwp_step. unfold uwp at 1, getnode. cbn [sh_heap]. rewrite Hc.
    uwp_step. unfold uwp at 1, setnode. cbn [sh_heap sh_buf sh_sys]. cbn in Hmax. rewrite decide_False by lia. uwp_step.
    destruct (split_redirs items) as (rs' & rest & -> & Hrest). rewrite items_toks_app, items_toks_redirs, <-app_assoc in Hat2.
    rewrite words_redirs in Hmax. set (h1 := <[cmd := _]> h).
    assert (h1 !! cmd = Some (EXEC (argv ++ [q]) (eargv ++ [eq]))) as Hc1 by (apply list_lookup_insert_eq; by eapply lookup_lt_Some).
    apply (parseredirs_wp rs' (items_toks rest ++ ts)); [|exact Hat2|lia|].
    { destruct (lexed_after p2 _ _ Hat2) as [p9 Hat9]. by eapply items_no_redir. }
    intros ret2 p3 h2 Hat3 Hp3 Hpre Hwr2.
    replace (Datatypes.S (length ws)) with (length (ws ++ [w])) by (rewrite length_app; cbn; lia).
    apply (IH rest p3 cmd ret2 h2 (argv ++ [q]) (eargv ++ [eq]) (ws ++ [w]) (rs ++ rs')); [done|done|lia| | | | |].
    + by eapply prefix_lookup_Some.
    + apply Forall3_app; [done|]. by constructor; [|constructor].
    + eapply wraps_app; [|exact Hwr2]. eapply wraps_prefix; [exact Hpre|]. by eapply wraps_insert.
    + rewrite length_app. cbn. lia.
    + intros ret' p' h' Hat' Hp' Htk Hex Hwr'. apply HQ; [done|lia| | |].
      * rewrite Htk. destruct Hpre as [k ->]. rewrite take_app_le by (unfold h1; rewrite length_insert; apply lookup_lt_Some in Hc; lia).
        unfold h1. by rewrite take_insert_ge.
      * cbn. rewrite words_redirs. by rewrite <-app_assoc in Hex.
      * cbn. rewrite redirs_redirs. by rewrite <-(assoc_L app) in Hwr'.
Qed.

(** Any number of [&]. *)
Fixpoint backs (n : nat) (a : ast) : ast := match n with O => a | Datatypes.S n => backs n (ABack a) end.

Lemma backs_S n a : backs (Datatypes.S n) a = ABack (backs n a).
Proof. revert a. induction n as [|n IH]; intros a; [done|]. cbn [backs] in *. by rewrite IH. Qed.

Lemma toks_backs n a : toks (backs n a) = toks a ++ replicate n (TSym 38).
Proof.
  revert a. induction n as [|n IH]; intros a; cbn [backs replicate]; [by rewrite app_nil_r|]. rewrite IH. cbn. by rewrite <-app_assoc.
Qed.

Lemma wf_backs a : wf 2 a → ∃ n b, wf 1 b ∧ a = backs n b.
Proof.
  remember 2%nat as k eqn:Ek. induction 1 as [| | | |a Ha|a Ha IH| |]; simplify_eq; [by exists 0%nat, a|].
  destruct (IH eq_refl) as (n & b & Hb & ->). exists (Datatypes.S n), b. split; [done|]. by rewrite backs_S.
Qed.

Lemma parse_backs_wp ts n : first ts (chars "&") = false → ∀ fuel p cmd a h Q E,
  at_toks text p (replicate n (TSym 38) ++ ts) → (es - p < fuel)%nat → repr h cmd a →
  (∀ c p' h', at_toks text p' ts → (p ≤ p' ≤ es)%nat → h `prefix_of` h' → repr h' c (backs n a) → Q (c, p') (stt h')) →
  uwp (parse_backs fuel es cmd p) (stt h) Q E.
Proof.
  intros Hts. induction n as [|n IH]; intros fuel p cmd a h Q E Hat Hf Hr HQ; (destruct fuel as [|fuel]; [lia|]); cbn [parse_backs]; uwp_step.
  - eapply peek_wp; [exact Hat|]. intros p1 Hp1 Hat1. cbn [replicate app] in *. rewrite Hts. cbn [negb]. uwp_step. by apply HQ.
  - eapply peek_wp; [exact Hat|]. intros p1 Hp1 Hat1. cbn [replicate app first] in *. change (one_of (chars "&") (tok_char (TSym 38))) with true. cbn [negb].
    uwp_step. eapply gettoken_wp; [exact Hat1|]. intros q eq p2 Hp2 Hat2 _. uwp_step. apply alloc_wp.
    apply (IH fuel p2 _ (ABack a)); [done|lia| |].
    + cbn. exists cmd. split; [by rewrite lookup_app_r, Nat.sub_diag|]. eapply repr_prefix; [|exact Hr]. by eexists.
    + intros c p' h' Hat' Hp' Hpre Hr'. apply HQ; [done|lia|etrans; [|exact Hpre]; by eexists|done].
Qed.

(** ** The parser *)

(** The parser has found [a] at [p], and is before [ts]. *)
Definition found (h : list node) (p : nat) (a : ast) (ts : list token) (r : nat * nat) (st : sh S) : Prop :=
  ∃ h', st = stt h' ∧ h `prefix_of` h' ∧ repr h' (fst r) a ∧ at_toks text (snd r) ts ∧ (p ≤ snd r ≤ es)%nat.

Definition nofail (c : Z) (st : sh S) : Prop := False.

(** The end of [parseline] and [parsepipe]. *)
Lemma parse_rest_wp (mk : nat → nat → node) (mka : ast → ast → ast) c0 (rec : nat → U (sh S) (nat * nat)) p cmd h h0 a b ts ts0 :
  (∀ h p pl pr a b, h !! p = Some (mk pl pr) → repr h pl a → repr h pr b → repr h p (mka a b)) →
  h0 `prefix_of` h → repr h cmd a → at_toks text p ts0 →
  ts0 = TSym c0 :: toks b ++ ts →
  (∀ p', (p < p' ≤ es)%nat → at_toks text p' (toks b ++ ts) → uwp (rec p') (stt h) (found h p' b ts) nofail) →
  uwp (r ← peek es p [c0];
       let '(x, ps) := r in
       if (x : bool) then
         r ← gettoken es ps;
         let '(_, _, _, ps) := r in
         r ← rec ps;
         let '(rest, ps) := r in
         cmd ← alloc (mk cmd rest);
         mret (cmd, ps)
       else mret (cmd, ps)) (stt h) (found h0 p (mka a b) ts) nofail.
Proof.
  intros Hmk Hpre Hr Hat -> Hrec. uwp_step. eapply peek_wp; [exact Hat|]. intros p1 Hp1 Hat1. cbn [first].
  rewrite (proj2 (one_of_spec [c0] _)) by left. uwp_step. eapply gettoken_wp; [exact Hat1|]. intros q eq p2 Hp2 Hat2 _. uwp_step.
  eapply uwp_mono; [apply Hrec; [lia|done]| |done]. intros [rest p3] st (h3 & -> & Hpre3 & Hr3 & Hat3 & Hp3). cbn [fst snd] in *.
  uwp_step. apply alloc_wp. uwp_step. assert (h3 `prefix_of` h3 ++ [mk cmd rest]) as Hpre4 by (by eexists).
  eexists. split; [done|]. split_and!; [by do 2 (etrans; [eassumption|])| |done|cbn; lia..].
  eapply (Hmk _ _ cmd rest); [by cbn; rewrite lookup_app_r, Nat.sub_diag| |].
  - eapply repr_prefix; [exact Hpre4|]. by eapply repr_prefix.
  - by eapply repr_prefix.
Qed.

(** Nothing of the kind follows. *)
Lemma parse_norest_wp (toks : list Z) (rec : nat → U (sh S) (nat * nat)) p cmd h h0 a ts :
  first ts toks = false → h0 `prefix_of` h → repr h cmd a → at_toks text p ts →
  uwp (r ← peek es p toks; let '(x, ps) := r in if (x : bool) then rec ps else mret (cmd, ps)) (stt h) (found h0 p a ts) nofail.
Proof.
  intros Hf Hpre Hr Hat. uwp_step. eapply peek_wp; [exact Hat|]. intros p1 Hp1 Hat1. rewrite Hf. uwp_step.
  exists h. split_and!; (done || cbn; lia).
Qed.

Lemma found_later h h1 p p1 a ts r st : (p ≤ p1)%nat → h `prefix_of` h1 → found h1 p1 a ts r st → found h p a ts r st.
Proof. intros Hp Hpre (h' & -> & ? & ? & ? & ?). exists h'. split_and!; [done|by etrans|done|done|lia|lia]. Qed.

Definition parse_ok (fuel : nat) : Prop :=
  (∀ p a ts h, wf 3 a → at_toks text p (toks a ++ ts) → follow ")" ts → (4 * (es - p) + 4 ≤ fuel)%nat →
     uwp (parseline fuel es p) (stt h) (found h p a ts) nofail) ∧
  (∀ p a ts h, wf 1 a → at_toks text p (toks a ++ ts) → follow ")&;" ts → (4 * (es - p) + 3 ≤ fuel)%nat →
     uwp (parsepipe fuel es p) (stt h) (found h p a ts) nofail) ∧
  (∀ p a ts h, wf 0 a → at_toks text p (toks a ++ ts) → stops ts → (4 * (es - p) + 2 ≤ fuel)%nat →
     uwp (parseexec fuel es p) (stt h) (found h p a ts) nofail) ∧
  (∀ p a rs ts h, wf 3 a → at_toks text p (toks (ABlock a rs) ++ ts) → stops ts → (4 * (es - p) + 1 ≤ fuel)%nat →
     uwp (parseblock fuel es p) (stt h) (found h p (ABlock a rs) ts) nofail).

Lemma parseline_step fuel : parse_ok fuel → ∀ p a ts h, wf 3 a → at_toks text p (toks a ++ ts) → follow ")" ts → (4 * (es - p) + 4 ≤ Datatypes.S fuel)%nat →
  uwp (parseline (Datatypes.S fuel) es p) (stt h) (found h p a ts) nofail.
Proof.
  intros (IHl & IHp & _ & _) p a ts h Hwf Hat Hfo Hf. cbn [parseline].
  (* The line up to a semicolon. *)
  assert (∀ b ts2 (k : nat * nat → U (sh S) (nat * nat)), wf 2 b → at_toks text p (toks b ++ ts2) → follow ");" ts2 →
    (∀ c p1 h1, (p ≤ p1 ≤ es)%nat → h `prefix_of` h1 → repr h1 c b → at_toks text p1 ts2 → uwp (k (c, p1)) (stt h1) (found h p a ts) nofail) →
    uwp (r ← parsepipe fuel es p; let '(cmd, ps) := r in r ← parse_backs (Datatypes.S (es - ps)) es cmd ps; k r) (stt h) (found h p a ts) nofail) as Hfront.
  { intros b ts2 k Hb Hat2 Hfo2 Hk. destruct (wf_backs b Hb) as (n & b0 & Hb0 & ->). rewrite toks_backs, <-app_assoc in Hat2.
    uwp_step. eapply uwp_mono; [eapply (IHp p b0); [done|exact Hat2| |lia]| |done].
    - destruct n; [by eapply follow_weak; [|exact Hfo2]; lits|by right].
    - intros [c p1] st (h1 & -> & Hpre & Hr & Hat1 & Hp1). cbn [fst snd] in *. uwp_step.
      eapply (parse_backs_wp ts2 n); [eapply follow_not; [|exact Hfo2]; lits|exact Hat1|lia|exact Hr|].
      intros c' p2 h2 Hat' Hp2 Hpre2 Hr2. apply Hk; [lia|by etrans|done..]. }
  inversion Hwf as [| | | | | |? Hb|l r Hl Hr]; subst.
  - eapply Hfront; [exact Hb|exact Hat|by eapply follow_weak; [|exact Hfo]; lits|]. intros c p1 h1 Hp1 Hpre Hr1 Hat1.
    eapply uwp_mono; [apply parse_norest_wp; [eapply follow_not; [|exact Hfo]; lits|exact Hpre|exact Hr1|exact Hat1]| |done].
    intros r' st'. apply found_later; [lia|done].
  - cbn [toks] in Hat. rewrite <-app_assoc in Hat. cbn [app] in Hat. eapply Hfront; [exact Hl|exact Hat|by right|]. intros c p1 h1 Hp1 Hpre Hr1 Hat1.
    eapply uwp_mono; [eapply (parse_rest_wp LIST AList 59 (parseline fuel es)); [|exact Hpre|exact Hr1|exact Hat1|done|]| |done].
    + intros. cbn. eauto.
    + intros p' Hp' Hat'. apply IHl; [done..|lia].
    + intros r' st'. apply found_later; [lia|done].
Qed.

Lemma parsepipe_step fuel : parse_ok fuel → ∀ p a ts h, wf 1 a → at_toks text p (toks a ++ ts) → follow ")&;" ts → (4 * (es - p) + 3 ≤ Datatypes.S fuel)%nat →
  uwp (parsepipe (Datatypes.S fuel) es p) (stt h) (found h p a ts) nofail.
Proof.
  intros (_ & IHp & IHe & _) p a ts h Hwf Hat Hfo Hf. cbn [parsepipe]. uwp_step.
  inversion Hwf as [| |? Ha|l r Hl Hr| | | |]; subst.
  - eapply uwp_mono; [eapply IHe; [exact Ha|exact Hat|by eapply follow_weak; [|exact Hfo]; lits|lia]| |done].
    intros [c p1] st (h1 & -> & Hpre & Hr & Hat1 & Hp1). cbn [fst snd] in *.
    eapply uwp_mono; [apply parse_norest_wp; [eapply follow_not; [|exact Hfo]; lits|exact Hpre|exact Hr|exact Hat1]| |done].
    intros r' st'. apply found_later; [lia|done].
  - cbn [toks] in Hat. rewrite <-app_assoc in Hat. cbn [app] in Hat.
    eapply uwp_mono; [eapply IHe; [exact Hl|exact Hat|by right|lia]| |done].
    intros [c p1] st (h1 & -> & Hpre & Hr1 & Hat1 & Hp1). cbn [fst snd] in *.
    eapply uwp_mono; [eapply (parse_rest_wp PIPE APipe 124 (parsepipe fuel es)); [|exact Hpre|exact Hr1|exact Hat1|done|]| |done].
    + intros. cbn. eauto.
    + intros p' Hp' Hat'. apply IHp; [done..|lia].
    + intros r' st'. apply found_later; [lia|done].
Qed.

Lemma parseexec_step fuel : parse_ok fuel → ∀ p a ts h, wf 0 a → at_toks text p (toks a ++ ts) → stops ts → (4 * (es - p) + 2 ≤ Datatypes.S fuel)%nat →
  uwp (parseexec (Datatypes.S fuel) es p) (stt h) (found h p a ts) nofail.
Proof.
  intros (_ & _ & _ & IHb) p a ts h Hwf Hat Hfo Hf. cbn [parseexec]. uwp_step. eapply peek_wp; [exact Hat|]. intros p1 Hp1 Hat1.
  inversion Hwf as [items Hmax|a' rs Ha| | | | | |]; subst.
  - assert (first (toks (AExec items) ++ ts) (chars "(") = false) as ->.
    { destruct items as [|[w|r] items]; [eapply follow_not; [|exact Hfo]; lits| |by destruct r].
      eapply first_word; [exact Hat1|]. intros c. rewrite symbols_list. change (chars "(") with [40]. rewrite !elem_of_cons, !elem_of_nil. tauto. }
    uwp_step. apply alloc_wp. uwp_step. cbn [toks] in Hat1.
    destruct (split_redirs items) as (rs & rest & -> & Hrest). rewrite items_toks_app, items_toks_redirs, <-app_assoc in Hat1.
    eapply (parseredirs_wp rs (items_toks rest ++ ts)); [|exact Hat1|lia|].
    { destruct (lexed_after p1 _ _ Hat1) as [p9 Hat9]. by eapply items_no_redir. }
    intros ret p2 h2 Hat2 Hp2 Hpre Hwr. rewrite words_redirs in Hmax.
    assert (h2 !! length h = Some (EXEC [] [])) as Hc by (eapply prefix_lookup_Some; [|exact Hpre]; by rewrite lookup_app_r, Nat.sub_diag).
    apply (parse_args_wp ts Hfo _ rest p2 (length h) ret h2 [] [] [] rs); [done|done|lia|done|constructor|done|cbn; lia|].
    intros ret' p' h' Hat' Hp' Htk Hex Hwr'. exists h'. cbn [fst snd]. split_and!; [done| |exists (length h)|done|lia|lia].
    + exists (drop (length h) h'). rewrite <-(take_drop (length h) h') at 1. f_equal. rewrite Htk. destruct Hpre as [k ->].
      by rewrite <-app_assoc, take_app_length.
    + rewrite words_redirs, redirs_redirs. done.
  - cbn [toks app first]. change (one_of (chars "(") (tok_char (TSym 40))) with true. cbv iota.
    eapply uwp_mono; [eapply (IHb p1 a' rs ts h); [done|exact Hat1|done|lia]| |done]. intros r st. apply found_later; [lia|done].
Qed.

Lemma parseblock_step fuel : parse_ok fuel → ∀ p a rs ts h, wf 3 a → at_toks text p (toks (ABlock a rs) ++ ts) → stops ts → (4 * (es - p) + 1 ≤ Datatypes.S fuel)%nat →
  uwp (parseblock (Datatypes.S fuel) es p) (stt h) (found h p (ABlock a rs) ts) nofail.
Proof.
  intros (IHl & _ & _ & _) p a rs ts h Hwf Hat Hfo Hf. cbn [parseblock toks app] in *. rewrite <-app_assoc in Hat. cbn [app] in Hat.
  uwp_step. eapply peek_wp; [exact Hat|]. intros p1 Hp1 Hat1. cbn [first]. change (one_of (chars "(") (tok_char (TSym 40))) with true. cbn [negb].
  uwp_step. eapply gettoken_wp; [exact Hat1|]. intros q eq p2 Hp2 Hat2 _. uwp_step.
  eapply uwp_mono; [eapply (IHl p2 a (TSym 41 :: redirs_toks rs ++ ts)); [done|exact Hat2|by right|lia]| |done].
  intros [c p3] st (h3 & -> & Hpre & Hr & Hat3 & Hp3). cbn [fst snd] in *.
  uwp_step. eapply peek_wp; [exact Hat3|]. intros p4 Hp4 Hat4. cbn [first]. change (one_of (chars ")") (tok_char (TSym 41))) with true. cbn [negb].
  uwp_step. eapply gettoken_wp; [exact Hat4|]. intros q5 eq5 p5 Hp5 Hat5 _.
  eapply (parseredirs_wp rs ts); [by apply stops_no_redir|exact Hat5|lia|].
  intros ret p6 h6 Hat6 Hp6 Hpre6 Hwr. exists h6. cbn [fst snd]. split_and!; [done|by etrans| |done|lia|lia].
  exists c. split; [by eapply repr_prefix|done].
Qed.

Lemma parse_all fuel : parse_ok fuel.
Proof.
  induction fuel as [|fuel IH]; [split_and!; intros; lia|].
  split_and!; [by apply parseline_step|by apply parsepipe_step|by apply parseexec_step|by apply parseblock_step].
Qed.
End parse.
