(* ===== verification/ShTheorems.v ===== *)
(** * Theorems about user/sh.c

    [nulterminate] ends the strings of a command without damaging those of
    another, and so [parsecmd] returns the command that a line was written for. *)
From Stdlib Require Import ZArith Lia.
From stdpp Require Import prelude gmap strings.
From S2P Require Import Prelude Bytes Param Str Fs User Ulib Uprintf Grep Sh ShTotal ShParse.

Lemma uwp_and {S A} (m : U S A) s (Q Q' : A → S → Prop) (E E' : Z → S → Prop) :
  uwp m s Q E → uwp m s Q' E' → uwp m s (λ a s', Q a s' ∧ Q' a s') (λ c s', E c s' ∧ E' c s').
Proof. unfold uwp. destruct (m s); auto. Qed.

Section term.
Context (text : list Z) (H0 : 0 ∉ text).
Abbreviation es := (length text).

(** A place of the line where no word has a character. *)
Definition gap (i : nat) : Prop := (i ≤ es)%nat ∧ ∀ c, text !! i = Some c → word_char c = false.

(** Null bytes were written, in gaps only. *)
Definition evolves (b b' : list Z) : Prop :=
  length b' = length b ∧ ∀ i c, b !! i = Some c → b' !! i = Some c ∨ (b' !! i = Some 0 ∧ gap i).

Lemma evolves_refl b : evolves b b.
Proof. split; auto. Qed.

Lemma evolves_trans b1 b2 b3 : evolves b1 b2 → evolves b2 b3 → evolves b1 b3.
Proof.
  intros [Hl H1] [Hl' H2]. split; [congruence|]. intros i c Hi. destruct (H1 i c Hi) as [Hb|[Hb Hg]]; [auto|].
  destruct (H2 i 0 Hb) as [?|[? ?]]; auto.
Qed.

Lemma evolves_zero b b' i : evolves b b' → b !! i = Some 0 → b' !! i = Some 0.
Proof. intros [_ He] Hi. by destruct (He i 0 Hi) as [?|[? _]]. Qed.

(** A word whose end is marked. *)
Definition ended (b : list Z) (q eq : nat) (w : list Z) : Prop := word_at text q eq w ∧ b !! eq = Some 0.

Lemma ended_evolves b b' q eq w : evolves b b' → ended b q eq w → ended b' q eq w.
Proof. intros He [Hw Hz]. split; [done|]. by eapply evolves_zero. Qed.

Lemma word_gap q eq w : word_at text q eq w → gap eq.
Proof. intros (_ & ? & _ & _ & ?). done. Qed.

Lemma wr_wp e (st : sh streams) Q E : gap e → length (sh_buf st) = S es →
  (∀ st', sh_heap st' = sh_heap st → sh_sys st' = sh_sys st → evolves (sh_buf st) (sh_buf st') → sh_buf st' !! e = Some 0 → Q tt st') →
  uwp (wr e 0) st Q E.
Proof.
  intros Hg Hl HQ. unfold uwp, wr. rewrite decide_True by (destruct Hg; lia). apply HQ; [done..| |].
  - cbn [sh_buf]. split; [by rewrite length_insert|]. intros i c Hi. destruct (decide (e = i)) as [<-|]; [right; split; [|done]|left; by rewrite list_lookup_insert_ne].
    rewrite list_lookup_insert_eq; [done|]. destruct Hg. lia.
  - cbn. apply list_lookup_insert_eq. destruct Hg. lia.
Qed.

(** [nulterminate] on the command [p] of the heap [h] establishes [P]. *)
Definition terminates (h : list node) (p : nat) (P : list Z → Prop) : Prop :=
  ∀ fuel (st : sh streams), (p < fuel)%nat → sh_heap st = h → length (sh_buf st) = S es →
    uwp (nulterminate fuel p) st (λ _ st', sh_heap st' = h ∧ sh_sys st' = sh_sys st ∧ evolves (sh_buf st) (sh_buf st') ∧ P (sh_buf st')) (λ _ _, False).

Lemma terminates_exec h p ws : exec_by (word_at text) h p ws → terminates h p (λ b, exec_by (ended b) h p ws).
Proof.
  intros (argv & eargv & Hn & Hf) [|fuel] st Hfu Hh Hl; [lia|]. cbn [nulterminate]. uwp_step. unfold uwp at 1, getnode. rewrite Hh, Hn.
  assert (∀ st, sh_heap st = h → length (sh_buf st) = S es → uwp (ufor eargv (λ e, wr e 0)) st (λ _ (st' : sh streams), sh_heap st' = h ∧
    sh_sys st' = sh_sys st ∧ evolves (sh_buf st) (sh_buf st') ∧ Forall3 (ended (sh_buf st')) argv eargv ws) (λ _ _, False)) as Hloop.
  { clear -Hf. induction Hf as [|q eq w argv eargv ws Hw Hf IH]; intros st Hh Hl; cbn [ufor]; [split_and!; [done..|apply evolves_refl|constructor]|].
    uwp_step. apply wr_wp; [by eapply word_gap|done|]. intros st1 Hh1 Hs1 He1 Hz1.
    eapply uwp_mono; [apply IH; [congruence|destruct He1; congruence]| |done]. intros [] st2 (? & ? & He2 & Hf2).
    split_and!; [done|congruence|by eapply evolves_trans|]. constructor; [|done]. split; [done|]. by eapply evolves_zero. }
  eapply uwp_mono; [by apply Hloop| |done]. intros [] st' (? & ? & ? & ?). split_and!; [done..|]. exists argv, eargv. done.
Qed.

Lemma terminates_seq h p l r (P Q : list Z → Prop) : (l < p)%nat → (r < p)%nat → (∀ b b', evolves b b' → P b → P b') →
  h !! p = Some (PIPE l r) ∨ h !! p = Some (LIST l r) →
  terminates h l P → terminates h r Q → terminates h p (λ b, P b ∧ Q b).
Proof.
  intros Hlp Hrp HP Hn Hl Hr [|fuel] st Hfu Hh Hlen; [lia|]. cbn [nulterminate]. uwp_step. unfold uwp at 1, getnode. rewrite Hh.
  assert (uwp (nulterminate fuel l ;; nulterminate fuel r) st (λ _ st', sh_heap st' = h ∧ sh_sys st' = sh_sys st ∧ evolves (sh_buf st) (sh_buf st') ∧ P (sh_buf st') ∧ Q (sh_buf st')) (λ _ _, False)) as Hboth; [|by destruct Hn as [->| ->]].
  uwp_step. eapply uwp_mono; [apply Hl; [lia|done..]| |done]. intros [] st1 (Hh1 & Hs1 & He1 & HP1).
  eapply uwp_mono; [apply Hr; [lia|done|destruct He1; congruence]| |done]. intros [] st2 (? & ? & He2 & ?).
  split_and!; [done|congruence|by eapply evolves_trans|by eapply HP|done].
Qed.

Lemma terminates_weak h p (P Q : list Z → Prop) : (∀ b, P b → Q b) → terminates h p P → terminates h p Q.
Proof.
  intros HPQ HP fuel st ? ? ?. eapply uwp_mono; [by apply HP| |done]. intros [] st' (? & ? & ? & ?). auto.
Qed.

Lemma wraps_by_snoc W h p0 rs r p : wraps_by W h p0 (rs ++ [r]) p ↔
  ∃ p1 q eq, wraps_by W h p0 rs p1 ∧ h !! p = Some (REDIR p1 q eq (redir_mode r) (redir_fd r)) ∧ W q eq (redir_word r).
Proof.
  revert p0. induction rs as [|r' rs IH]; intros p0; cbn.
  - split; [intros (p1 & q & eq & ? & ? & ->); by exists p0, q, eq|intros (p1 & q & eq & -> & ? & ?); by exists p, q, eq].
  - setoid_rewrite IH. naive_solver.
Qed.

Lemma terminates_wraps h p0 rs p (P : list Z → Prop) : heap_ok text h → (∀ b b', evolves b b' → P b → P b') → wraps_by (word_at text) h p0 rs p →
  terminates h p0 P → terminates h p (λ b, P b ∧ wraps_by (ended b) h p0 rs p).
Proof.
  intros Hh HP. revert p. induction rs as [|r rs IH] using rev_ind; intros p Hw Ht.
  - cbn in *. subst. eapply terminates_weak; [|exact Ht]. auto.
  - apply wraps_by_snoc in Hw as (p1 & q & eq & Hw & Hn & Hwd). specialize (IH p1 Hw Ht).
    intros [|fuel] st Hfu Hhe Hlen; [lia|]. cbn [nulterminate]. uwp_step. unfold uwp at 1, getnode. rewrite Hhe, Hn. uwp_step.
    pose proof (Hh _ _ Hn) as [Hlt _]. eapply uwp_mono; [apply IH; [lia|done..]| |done]. intros [] st1 (Hh1 & Hs1 & He1 & HP1 & Hw1).
    apply wr_wp; [by eapply word_gap|destruct He1; congruence|]. intros st2 Hh2 Hs2 He2 Hz2.
    split_and!; [congruence|congruence|by eapply evolves_trans|by eapply HP|]. apply wraps_by_snoc. exists p1, q, eq.
    split_and!; [|done|done]. eapply wraps_mono; [|exact Hw1]. intros. by eapply ended_evolves.
Qed.

Lemma repr_evolves h p a b b' : evolves b b' → repr_by (ended b) h p a → repr_by (ended b') h p a.
Proof. intros He. apply repr_mono. intros. by eapply ended_evolves. Qed.

Lemma terminates_repr h a : heap_ok text h → ∀ p, repr_by (word_at text) h p a → terminates h p (λ b, repr_by (ended b) h p a).
Proof.
  intros Hh. induction a as [items|a IH rs|l IHl r IHr|a IH|l IHl r IHr]; intros p; cbn [repr_by].
  - intros (p0 & Hex & Hw). eapply terminates_weak; [|eapply terminates_wraps; [done| |exact Hw|by apply terminates_exec]].
    + intros b [? ?]. by exists p0.
    + intros b b' He (argv & eargv & ? & Hf). exists argv, eargv. split; [done|]. clear -He Hf. induction Hf; constructor; [by eapply ended_evolves|done].
  - intros (p0 & Hr & Hw). eapply terminates_weak; [|eapply terminates_wraps; [done| |exact Hw|by apply IH]].
    + intros b [? ?]. by exists p0.
    + intros b b' ?. by apply repr_evolves.
  - intros (pl & pr & Hn & Hl & Hr). pose proof (Hh _ _ Hn) as [? ?]. eapply terminates_weak; [|eapply (terminates_seq h p pl pr); [done|done| |by left|by apply IHl|by apply IHr]].
    + intros b [? ?]. by exists pl, pr.
    + intros b b' ?. by apply repr_evolves.
  - intros (p0 & Hn & Hr). pose proof (Hh _ _ Hn) as Hlt. intros [|fuel] st Hfu Hhe Hlen; [lia|]. cbn [nulterminate]. uwp_step. unfold uwp at 1, getnode. rewrite Hhe, Hn.
    eapply uwp_mono; [apply (IH p0 Hr); [cbn in Hlt; lia|done..]| |done]. intros [] st1 (? & ? & ? & ?). split_and!; [done..|]. by exists p0.
  - intros (pl & pr & Hn & Hl & Hr). pose proof (Hh _ _ Hn) as [? ?]. eapply terminates_weak; [|eapply (terminates_seq h p pl pr); [done|done| |by right|by apply IHl|by apply IHr]].
    + intros b [? ?]. by exists pl, pr.
    + intros b b' ?. by apply repr_evolves.
Qed.

(** The word can be read as a string. *)
Lemma ended_string b q eq w : evolves (text ++ [0]) b → ended b q eq w → cut0 (drop q b) = w.
Proof.
  intros [Hl He] [(-> & Hes & Hd & Hf & _) Hz].
  assert (take (length w) (drop q b) = w) as Ht.
  { apply list_eq. intros i. destruct (decide (i < length w)%nat) as [Hi|Hi].
    - rewrite lookup_take_lt, lookup_drop by done. destruct (lookup_lt_is_Some_2 w i Hi) as [c Hc]. rewrite Hc.
      assert (text !! (q + i)%nat = Some c) as Ht by (rewrite <-lookup_drop, Hd; by apply lookup_app_l_Some).
      destruct (He (q + i)%nat c) as [?|[_ [_ Hg]]]; [by apply lookup_app_l_Some|done|]. specialize (Hg c Ht).
      rewrite Forall_forall in Hf. specialize (Hf c (list_elem_of_lookup_2 _ _ _ Hc)). congruence.
    - rewrite lookup_take_ge by lia. symmetry. apply lookup_ge_None_2. lia. }
  rewrite <-(take_drop (length w) (drop q b)), Ht, drop_drop.
  assert (∃ junk, drop (q + length w) b = 0 :: junk) as [junk ->].
  { destruct (drop (q + length w) b) as [|z junk] eqn:Ed; [|exists junk; f_equal]; apply (f_equal head) in Ed; rewrite head_drop, Hz in Ed; cbn in Ed; congruence. }
  apply cut0_app. intros Hin. apply H0. rewrite <-(take_drop q text), Hd. apply elem_of_app. right. apply elem_of_app. by left.
Qed.

(** The command in memory is [a]: its strings read as the words of [a]. *)
Definition command (st : sh streams) (p : nat) (a : ast) : Prop :=
  repr_by (λ q _ w, cut0 (drop q (sh_buf st)) = w) (sh_heap st) p a.

Lemma parsecmd_found a (y : streams) : wf 3 a → lexed text (toks a) →
  uwp parsecmd (Sh [] (text ++ [0]) y) (λ p st, command st p a ∧ sh_sys st = y) (λ _ _, False).
Proof.
  intros Hwf Hlex. unfold parsecmd. uwp_step. uwp_step. cbv zeta. cbn [sh_buf]. rewrite !cut0_app by done.
  assert (good text (Sh [] (text ++ [0]) y)) as Hg by (split; [done|]; by intros i n ?).
  assert (at_toks text 0 (toks a ++ [])) as Hat by (rewrite app_nil_r; split; [lia|done]).
  pose proof (proj1 (parse_total text H0 (4 * es + 8)) 0%nat _ Hg ltac:(lia) ltac:(lia)) as Htot.
  pose proof (proj1 (parse_all text H0 y (4 * es + 8)) 0%nat a [] [] Hwf Hat ltac:(by left) ltac:(lia)) as Hpar.
  uwp_step. eapply uwp_mono; [exact (uwp_and _ _ _ _ _ _ Htot Hpar)| |by intros ? ? [_ []]].
  intros [cmd p] st1 [(Hp & Hg1 & _ & Hc) (h1 & -> & _ & Hr & Hat1 & _)]. cbn [fst snd] in *. destruct Hg1 as [_ Hh1]. cbn [sh_heap] in *.
  uwp_step. destruct (peek_spec text H0 (Sh h1 (text ++ [0]) y) p [] [] eq_refl Hat1) as (p1 & Hpk & _ & _ & Hes).
  rewrite Hes in Hpk by done. unfold uwp at 1. rewrite Hpk. cbn [fst snd]. rewrite decide_False by (intros Hne; by apply Hne).
  uwp_step. uwp_step. uwp_step. cbn [sh_heap].
  eapply uwp_mono; [apply (terminates_repr h1 a Hh1 cmd Hr); [done|done|cbn; by rewrite length_app, Nat.add_1_r]| |done].
  intros [] st2 (Hh2 & Hs2 & He2 & Hr2). cbn [sh_buf sh_sys] in *. uwp_step. uwp_step.
  assert (sh_buf st2 !! es = Some 0) as Hz by (eapply evolves_zero; [exact He2|]; by rewrite lookup_app_r, Nat.sub_diag).
  destruct (drop es (sh_buf st2)) as [|z line] eqn:Ed; [by apply (f_equal head) in Ed; rewrite head_drop, Hz in Ed|].
  assert (z = 0) as -> by (apply (f_equal head) in Ed; rewrite head_drop in Ed; cbn in Ed; congruence).
  assert ((memcmp (list_ptr (0 :: line)) (list_ptr (chars "cd ")) 3 =? 0) || (strcmp (cut0 (0 :: line)) (chars "cd") =? 0) = false) as -> by done.
  uwp_step. split; [|done]. unfold command. rewrite Hh2. eapply repr_mono; [|exact Hr2]. intros q eq w Hw. by eapply ended_string.
Qed.
End term.

(** C17: Writing and parsing agree: if the tokens of a line, with any white space
    between them, are those of the command [a], then [parsecmd] returns [a]: the
    structures in memory are those of [a], and every argument and file name in
    them is a string that ends where the word ends. *)
Theorem parsecmd_roundtrip (a : ast) (line : list Z) (s : streams) :
  wf 3 a → (0 ∉ line) → lexed line (toks a) →
  ∃ p st, parsecmd (Sh [] (line ++ [0]) s) = URet p st ∧ command st p a ∧ sh_sys st = s.
Proof. intros Hwf H0 Hlex. apply uwp_URet. by apply parsecmd_found. Qed.

(** C36: The parser terminates on every line: it returns a command, never the
    built-in one, or exits with status 1 after a message. It does not read or
    write outside the line. *)
Theorem parsecmd_terminates (line : list Z) (s : streams) :
  (0 ∉ line) →
  (∃ p st n, parsecmd (Sh [] (line ++ [0]) s) = URet p st ∧ sh_heap st !! p = Some n ∧ ∀ argv, n ≠ BUILTIN argv) ∨
  ∃ st, parsecmd (Sh [] (line ++ [0]) s) = UExit 1 st.
Proof.
  intros H0. pose proof (parsecmd_total line H0 (Sh [] (line ++ [0]) s) eq_refl eq_refl) as Ht. unfold uwp in Ht.
  destruct (parsecmd _) as [p st|c st| |]; [left|right|done|done].
  - destruct Ht as (n & Hn & Hb). by exists p, st, n.
  - unfold failed in Ht. subst. by exists st.
Qed.

Module ShDemo.
Definition word (s : string) : list Z := chars s.
Definition demo_line : list Z := chars "ls -l <d|(cat>>out; wc )&  ; echo".
Definition demo_ast : ast :=
  AList (ABack (APipe (AExec [inl (word "ls"); inl (word "-l"); inr (RIn (word "d"))])
                      (ABlock (AList (AExec [inl (word "cat"); inr (RAppend (word "out"))]) (AExec [inl (word "wc")])) [])))
        (AExec [inl (word "echo")]).
Definition no_system : streams := Streams ∅ [] ∅ 3.

(** A line with its white space and tokens, piece by piece. *)
Definition spaced (l : list (string * token)) (tail : string) : list Z := concat ((λ p, chars p.1 ++ tok_text p.2) <$> l) ++ chars tail.
Fixpoint spaced_ok (l : list (string * token)) (tail : string) : bool :=
  match l with
  | [] => bool_decide (Forall (λ c, is_ws c = true) (chars tail))
  | (x, t) :: l => bool_decide (Forall (λ c, is_ws c = true) (chars x)) &&
      (match t with
       | TSym c => bool_decide (c ∈ symbols) && negb ((c =? 62) && bool_decide (head (spaced l tail) = Some 62))
       | TAppend => true
       | TWord w => negb (at_end w) && bool_decide (Forall (λ c, word_char c = true) w) &&
           match head (spaced l tail) with Some c => negb (word_char c) | None => true end
       end) && spaced_ok l tail
  end.

Lemma spaced_lexed l tail : spaced_ok l tail = true → lexed (spaced l tail) (snd <$> l).
Proof.
  induction l as [|[x t] l IH]; cbn [spaced_ok].
  - intros Hx%bool_decide_eq_true. by constructor.
  - rewrite !andb_true_iff. intros [[Hx%bool_decide_eq_true Ht] Hl].
    assert (spaced ((x, t) :: l) tail = chars x ++ tok_text t ++ spaced l tail) as -> by (unfold spaced; cbn; by rewrite <-!app_assoc).
    cbn [fmap list_fmap snd]. constructor; [done| |by apply IH]. destruct t as [c| |w]; cbn in *; [|done|].
    + apply andb_true_iff in Ht as [Hc%bool_decide_eq_true Hn%negb_true_iff]. split; [done|]. intros -> Hh. cbn in Hn. by apply bool_decide_eq_false in Hn.
    + rewrite !andb_true_iff in Ht. destruct Ht as [[Hw Hf%bool_decide_eq_true] Hh]. split_and!; [by destruct w|done|]. intros c Hc. rewrite Hc in Hh. by apply negb_true_iff.
Qed.

Definition demo_pieces : list (string * token) :=
  [("", TWord (word "ls")); (" ", TWord (word "-l")); (" ", TSym 60); ("", TWord (word "d")); ("", TSym 124); ("", TSym 40); ("", TWord (word "cat"));
   ("", TAppend); ("", TWord (word "out")); ("", TSym 59); (" ", TWord (word "wc")); (" ", TSym 41); ("", TSym 38); ("  ", TSym 59); (" ", TWord (word "echo"))].

Lemma parsecmd_roundtrip_witness :
  ∃ p st, parsecmd (Sh [] (demo_line ++ [0]) no_system) = URet p st ∧ command st p demo_ast ∧ sh_sys st = no_system.
Proof.
  apply (parsecmd_roundtrip demo_ast demo_line no_system).
  - repeat (first [apply wf_list|apply wf_line2|apply wf_back|apply wf_back1|apply wf_pipe|apply wf_pipe1|apply wf_exec; vm_compute; lia|apply wf_block]).
  - apply (bool_decide_unpack _). vm_compute. exact I.
  - apply (spaced_lexed demo_pieces ""). reflexivity.
Defined.

Lemma parsecmd_terminates_witness : 
  (∃ p st n, parsecmd (Sh [] (chars "ls ) a" ++ [0]) no_system) = URet p st ∧ sh_heap st !! p = Some n ∧ ∀ argv, n ≠ BUILTIN argv) ∨
  ∃ st, parsecmd (Sh [] (chars "ls ) a" ++ [0]) no_system) = UExit 1 st.
Proof. apply (parsecmd_terminates (chars "ls ) a") no_system). apply (bool_decide_unpack _). vm_compute. exact I. Defined.
End ShDemo.
