(* ===== verification/ShRun.v ===== *)
(** * Running commands in the shell: user/sh.c

    What [runcmd] does with a command in memory, as the behaviour of the processes
    it becomes: each has a table of descriptors, opened, closed and duplicated as
    the kernel does, always at the lowest free place; a child starts with a copy
    of its parent's. The theorem compares the programs that are started, with
    their standard input and output, with what the command line means. *)
From Stdlib Require Import ZArith Lia.
From stdpp Require Import prelude gmap strings.
From S2P Require Import Prelude Bytes Param Str Fs User Ulib Uprintf Grep Sh ShTotal ShParse ShTheorems.

(** What a descriptor refers to. The two ends of a pipe are named after the
    command that made it. *)
Inductive obj := Tty | File (path : list Z) (mode : Z) | ReadEnd (cmd : nat) | WriteEnd (cmd : nat).

#[export] Instance obj_eq_dec : EqDecision obj.
Proof. solve_decision. Defined.

Abbreviation fds := (list (option obj)).

(** The behaviour of a process: the programs it becomes, the processes it starts,
    what it writes to descriptor 2, and the status it exits with. *)
Inductive job :=
| JExit (status : Z)
| JExec (path : list Z) (argv : list (list Z)) (t : fds)
| JFork (child parent : job)
| JWait (j : job)
| JMsg (msg : list Z) (j : job).

(** The lowest free descriptor. *)
Definition lowest (t : fds) : option nat := fst <$> list_find (λ o, o = None) t.
Definition job_close (t : fds) (fd : nat) : fds := <[fd := None]> t.
Definition job_dup (t : fds) (fd : nat) : fds :=
  match lowest t, t !! fd with Some n, Some (Some o) => <[n := Some o]> t | _, _ => t end.
(** [pipe(p)]: [p[0]], [p[1]] and the table. *)
Definition job_pipe (t : fds) (cmd : nat) : option (nat * nat * fds) :=
  match lowest t with
  | None => None
  | Some p0 =>
      let t := <[p0 := Some (ReadEnd cmd)]> t in
      match lowest t with
      | None => None
      | Some p1 => Some (p0, p1, <[p1 := Some (WriteEnd cmd)]> t)
      end
  end.

Section code.
(** What the rest of the system decides: which programs there are, which files
    can be opened, and whether the n-th [fork] for a command succeeds. *)
Context (can_exec : list Z → bool) (can_open : list Z → Z → bool) (can_fork : nat → nat → bool).
Context (h : list node) (buf : list Z).

Definition str (q : nat) : list Z := cut0 (drop q buf).

Definition job_panic (msg : string) : job := JMsg (chars msg ++ [10]) (JExit 1).

(** [if(fork1() == 0) child; parent] *)
Definition fork1 (cmd n : nat) (child parent : job) : job :=
  if can_fork cmd n then JFork child parent else job_panic "fork".

(** [builtin_cmd]: whether it did the command, with what it prints. *)
Definition builtin_cmd (can_chdir : list Z → bool) (n : node) : bool * list Z :=
  match n with
  | BUILTIN argv =>
      match argv with
      | a0 :: rest =>
          if strcmp (str a0) (chars "cd") =? 0 then
            match rest with
            | [] => (true, chars ("cd: missing argument" +:+ NL))
            | a1 :: _ => (true, if can_chdir (str a1) then [] else chars "cd: cannot cd to " ++ str a1 ++ [10])
            end
          else (false, [])
      | [] => (false, [])
      end
  | _ => (false, [])
  end.

Context (can_chdir : list Z → bool).

(** [path] has 128 bytes. *)
Definition slash_path (a0 : list Z) : list Z := 47 :: a0.

Definition run_exec (argv : list nat) (t : fds) : option job :=
  match argv with
  | [] => Some (JExit 1)
  | a0 :: _ =>
      let a := str a0 in
      let args := str <$> argv in
      let failed := JMsg (chars "exec " ++ a ++ chars (" failed" +:+ NL)) (JExit 0) in
      if can_exec a then Some (JExec a args t)
      else if negb (hd0 a =? 47) then
        if decide (length a + 2 ≤ 128)%nat then
          if can_exec (slash_path a) then Some (JExec (slash_path a) args t) else Some failed
        else None
      else Some failed
  end.

(** [None]: the fuel is used up, a pointer is wild, or [path] overflows. *)
Fixpoint runcmd (fuel cmd : nat) (t : fds) : option job :=
  match fuel with
  | O => None
  | S fuel =>
      match h !! cmd with
      | None => None
      | Some n =>
          let '(done, msg) := builtin_cmd can_chdir n in
          if (done : bool) then Some (JMsg msg (JExit 0)) else
          match n with
          | EXEC argv _ => run_exec argv t
          | REDIR sub file _ mode fd =>
              let t := job_close t (Z.to_nat fd) in
              match lowest t with
              | Some n =>
                  if can_open (str file) mode then runcmd fuel sub (<[n := Some (File (str file) mode)]> t)
                  else Some (JMsg (chars "open " ++ str file ++ chars (" failed" +:+ NL)) (JExit 1))
              | None => Some (JMsg (chars "open " ++ str file ++ chars (" failed" +:+ NL)) (JExit 1))
              end
          | LIST l r =>
              jl ← runcmd fuel l t;
              jr ← runcmd fuel r t;
              Some (fork1 cmd 0 jl (JWait jr))
          | PIPE l r =>
              match job_pipe t cmd with
              | None => Some (job_panic "pipe")
              | Some (p0, p1, t) =>
                  jl ← runcmd fuel l (job_close (job_close (job_dup (job_close t 1) p1) p0) p1);
                  jr ← runcmd fuel r (job_close (job_close (job_dup (job_close t 0) p0) p0) p1);
                  Some (fork1 cmd 0 jl (fork1 cmd 1 jr (JWait (JWait (JExit 0)))))
              end
          | BACK sub =>
              j ← runcmd fuel sub t;
              Some (fork1 cmd 0 j (JExit 0))
          | BUILTIN _ => Some (job_panic "runcmd")
          end
      end
  end.
End code.

(** ** What a command line means *)

(** The programs a process and its children become, with their standard input
    and output and the other descriptors. *)
Record started := Started { st_argv : list (list Z); st_in : option obj; st_out : option obj; st_rest : fds }.

Fixpoint programs (j : job) : list started :=
  match j with
  | JExit _ => []
  | JExec _ argv t => [Started argv (default None (t !! 0%nat)) (default None (t !! 1%nat)) (drop 2 t)]
  | JFork c p => programs c ++ programs p
  | JWait j | JMsg _ j => programs j
  end.

(** The innermost redirection is the one that is in force: the first. *)
Fixpoint redirected (rs : list redir) (fd : Z) (o : obj) : obj :=
  match rs with
  | [] => o
  | r :: rs => if redir_fd r =? fd then File (redir_word r) (redir_mode r) else redirected rs fd o
  end.

Inductive means (rest : fds) : ast → obj → obj → list started → Prop :=
| means_exec items i o : words items ≠ [] →
    means rest (AExec items) i o
      [Started (words items) (Some (redirected (redirs items) 0 i)) (Some (redirected (redirs items) 1 o)) rest]
| means_empty items i o : words items = [] → means rest (AExec items) i o []
| means_block a rs i o ps : means rest a (redirected rs 0 i) (redirected rs 1 o) ps → means rest (ABlock a rs) i o ps
| means_pipe l r n i o pl pr : means rest l i (WriteEnd n) pl → means rest r (ReadEnd n) o pr → means rest (APipe l r) i o (pl ++ pr)
| means_back a i o ps : means rest a i o ps → means rest (ABack a) i o ps
| means_list l r i o pl pr : means rest l i o pl → means rest r i o pr → means rest (AList l r) i o (pl ++ pr).

(** How deep [runcmd] recurses. *)
Fixpoint depth (a : ast) : nat :=
  match a with
  | AExec items => S (length (redirs items))
  | ABlock a rs => depth a + length rs
  | APipe l r | AList l r => S (depth l + depth r)
  | ABack a => S (depth a)
  end.

(** ** Descriptor tables *)

Lemma lowest_Some (t : fds) n : lowest t = Some n ↔ t !! n = Some None ∧ ∀ j o, (j < n)%nat → t !! j = Some o → o ≠ None.
Proof.
  unfold lowest. rewrite fmap_Some. split.
  - intros ([m o] & (Hm & -> & Hj)%list_find_Some & ->). split; [done|]. intros j o Hlt Hj'. by eapply Hj.
  - intros [Hn Hj]. exists (n, None). split; [|done]. apply list_find_Some. split_and!; [done..|]. intros j o ? ?. by eapply Hj.
Qed.

(** Standard input and output are [i] and [o]; two descriptors are free. *)
Record table (t : fds) (i o : obj) : Prop := {
  tb_in : t !! 0%nat = Some (Some i);
  tb_out : t !! 1%nat = Some (Some o);
  tb_free : ∃ a b, (a < b)%nat ∧ t !! a = Some None ∧ t !! b = Some None
}.

Lemma table_free t i o : table t i o → ∃ p0 p1, (2 ≤ p0 < p1)%nat ∧ t !! p0 = Some None ∧ t !! p1 = Some None ∧
  (∀ j x, (j < p0)%nat → t !! j = Some x → x ≠ None) ∧ (∀ j x, (p0 < j < p1)%nat → t !! j = Some x → x ≠ None).
Proof.
  intros [Hi Ho (a & b & Hab & Ha & Hb)].
  assert (∀ (P : nat → Prop) `{!∀ n, Decision (P n)} n, P n → ∃ m, P m ∧ ∀ j, (j < m)%nat → ¬ P j) as Hmin.
  { intros P HP n. induction n as [n IH] using lt_wf_ind. intros Hn. destruct (decide (Exists P (seq 0 n))) as [He|He].
    - apply Exists_exists in He as (m & Hm%elem_of_seq & HPm). apply (IH m); [lia|done].
    - exists n. split; [done|]. intros j Hj HPj. apply He, Exists_exists. exists j. split; [apply elem_of_seq; lia|done]. }
  destruct (Hmin (λ n, t !! n = Some None) _ a Ha) as (p0 & H0 & Hlt0).
  assert (2 ≤ p0)%nat as Hge by (destruct p0 as [|[|p0]]; [congruence..|lia]).
  destruct (Hmin (λ n, (p0 < n)%nat ∧ t !! n = Some None) _ b) as (p1 & [Hp H1] & Hlt1).
  { split; [|done]. destruct (decide (a < p0)%nat) as [?|?]; [by destruct (Hlt0 a)|lia]. }
  exists p0, p1. split_and!; [done..| |].
  - intros j x Hj Hx ->. by apply (Hlt0 j).
  - intros j x Hj Hx ->. apply (Hlt1 j); [lia|split; [lia|done]].
Qed.

Lemma sys_pipe_spec t i o cmd : table t i o → ∃ p0 p1, (2 ≤ p0 < p1)%nat ∧ t !! p0 = Some None ∧ t !! p1 = Some None ∧
  job_pipe t cmd = Some (p0, p1, <[p1 := Some (WriteEnd cmd)]> (<[p0 := Some (ReadEnd cmd)]> t)).
Proof.
  intros Ht. destruct (table_free t i o Ht) as (p0 & p1 & Hp & H0 & H1 & Hl0 & Hl1). exists p0, p1. split_and!; [lia..|done|done|].
  unfold job_pipe. rewrite (proj2 (lowest_Some t p0)) by done.
  rewrite (proj2 (lowest_Some _ p1)); [done|]. rewrite list_lookup_insert_ne by lia. split; [done|]. intros j x Hj.
  destruct (decide (j = p0)) as [->|]; [rewrite list_lookup_insert_eq by (by eapply lookup_lt_Some); by intros [= <-]|].
  rewrite list_lookup_insert_ne by done. intros Hx. destruct (decide (j < p0)%nat); [by eapply Hl0|eapply Hl1; [|done]; lia].
Qed.

(** Replacing standard input or output. *)
Definition set_std (fd : nat) (x : obj) (t : fds) : fds := <[fd := Some x]> t.

Lemma table_set t i o fd x : (fd < 2)%nat → table t i o → table (set_std fd x t) (if decide (fd = 0)%nat then x else i) (if decide (fd = 1)%nat then x else o).
Proof.
  intros Hfd [Hi Ho (a & b & Hab & Ha & Hb)]. unfold set_std.
  assert (2 ≤ a)%nat by (destruct a as [|[|]]; [congruence..|lia]).
  split.
  - destruct fd as [|[|]]; [rewrite list_lookup_insert_eq by (by eapply lookup_lt_Some)|rewrite list_lookup_insert_ne by lia|lia]; done.
  - destruct fd as [|[|]]; [rewrite list_lookup_insert_ne by lia|rewrite list_lookup_insert_eq by (by eapply lookup_lt_Some)|lia]; done.
  - exists a, b. by rewrite !list_lookup_insert_ne by lia.
Qed.

Lemma drop_set t fd x : (fd < 2)%nat → drop 2 (set_std fd x t) = drop 2 t.
Proof. intros. unfold set_std. by rewrite drop_insert_lt by lia. Qed.

(** [close(fd)] and then [open] or [dup]: standard input or output is replaced. *)
Lemma lowest_closed t i o fd : (fd < 2)%nat → table t i o → lowest (job_close t fd) = Some fd.
Proof.
  intros Hfd [Hi Ho _]. apply lowest_Some. unfold job_close. destruct fd as [|[|fd]]; [| |lia].
  - rewrite list_lookup_insert_eq by (by eapply lookup_lt_Some). split; [done|lia].
  - rewrite list_lookup_insert_eq by (by eapply lookup_lt_Some). split; [done|]. intros j x Hj. replace j with 0%nat by lia.
    rewrite list_lookup_insert_ne by lia. rewrite Hi. by intros [= <-].
Qed.

Lemma pipe_child t i o fd p0 p1 x y : (fd < 2)%nat → table t i o → (2 ≤ p0 < p1)%nat → t !! p0 = Some None → t !! p1 = Some None →
  let t' := <[p1 := Some y]> (<[p0 := Some x]> t) in
  job_close (job_close (job_dup (job_close t' fd) p1) p0) p1 = set_std fd y t ∧
  job_close (job_close (job_dup (job_close t' fd) p0) p0) p1 = set_std fd x t.
Proof.
  intros Hfd Ht Hp H0 H1 t'. assert (p0 < length t ∧ p1 < length t ∧ fd < length t)%nat as (Hp0 & Hp1 & Hfl).
  { destruct Ht as [Hi%lookup_lt_Some Ho%lookup_lt_Some _]. apply lookup_lt_Some in H0, H1. lia. }
  assert (table t' i o → lowest (job_close t' fd) = Some fd) as Hlow by (intros; by eapply lowest_closed).
  assert (t' !! 0%nat = Some (Some i) ∧ t' !! 1%nat = Some (Some o)) as [Hi Ho].
  { destruct Ht as [Hi Ho _]. unfold t'. by rewrite !list_lookup_insert_ne by lia. }
  assert (lowest (job_close t' fd) = Some fd) as Hl.
  { apply lowest_Some. unfold job_close. rewrite list_lookup_insert_eq by (unfold t'; rewrite !length_insert; lia). split; [done|].
    intros j z Hj. rewrite list_lookup_insert_ne by lia. replace j with 0%nat by lia. rewrite Hi. by intros [= <-]. }
  assert (job_close t' fd !! p0 = Some (Some x) ∧ job_close t' fd !! p1 = Some (Some y)) as [Hx Hy].
  { unfold job_close, t'. rewrite !(list_lookup_insert_ne _ fd) by lia. rewrite list_lookup_insert_eq by (rewrite length_insert; lia).
    rewrite list_lookup_insert_ne, list_lookup_insert_eq by lia. done. }
  unfold job_dup. rewrite Hl, Hx, Hy. unfold job_close, set_std.
  split; apply list_eq; intros j; unfold t';
    repeat match goal with
    | |- context [ (<[?a := _]> ?l) !! ?b ] =>
        destruct (decide (a = b)) as [<-|?]; [rewrite (list_lookup_insert_eq l) by (rewrite ?length_insert; lia)|rewrite (list_lookup_insert_ne l) by lia]
    end; try done; try lia; try congruence; symmetry; by apply list_lookup_insert_eq.
Qed.

Section run.
Context (h : list node) (buf : list Z).
Abbreviation runs := (runcmd (λ _, true) (λ _ _, true) (λ _ _, true) h buf (λ _, true)).
Abbreviation spelled := (λ (q _ : nat) w, str buf q = w).

Lemma redirected_snoc rs r fd o : redirected (rs ++ [r]) fd o = redirected rs fd (if redir_fd r =? fd then File (redir_word r) (redir_mode r) else o).
Proof. induction rs as [|r' rs IH]; cbn; [done|]. by destruct (redir_fd r' =? fd). Qed.

(** Redirections around a command. *)
Lemma run_wraps p0 rs : ∀ p t i o fuel, wraps_by spelled h p0 rs p → table t i o →
  ∃ t', table t' (redirected rs 0 i) (redirected rs 1 o) ∧ drop 2 t' = drop 2 t ∧ runs (length rs + fuel) p t = runs fuel p0 t'.
Proof.
  induction rs as [|r rs IH] using rev_ind; intros p t i o fuel Hw Ht; [cbn in Hw; subst; by exists t|].
  assert (∃ p1 q eq, wraps_by spelled h p0 rs p1 ∧ h !! p = Some (REDIR p1 q eq (redir_mode r) (redir_fd r)) ∧ str buf q = redir_word r) as (p1 & q & eq & Hw1 & Hn & Hq).
  { clear -Hw. revert p0 Hw. induction rs as [|r' rs IH]; intros p0 Hw; cbn in Hw.
    - destruct Hw as (p1 & q & eq & ? & ? & ->). by exists p0, q, eq.
    - destruct Hw as (p1 & q & eq & ? & ? & (p2 & q2 & eq2 & ? & ? & ?)%IH). exists p2, q2, eq2. split_and!; [|done..]. by exists p1, q, eq. }
  rewrite length_app, Nat.add_1_r. cbn [Nat.add runcmd]. rewrite Hn. cbn [builtin_cmd].
  assert (Z.to_nat (redir_fd r) < 2)%nat as Hfd by (destruct r; cbn; lia).
  rewrite (lowest_closed t i o) by done. rewrite Hq.
  assert (<[Z.to_nat (redir_fd r) := Some (File (redir_word r) (redir_mode r))]> (job_close t (Z.to_nat (redir_fd r))) =
    set_std (Z.to_nat (redir_fd r)) (File (redir_word r) (redir_mode r)) t) as -> by (unfold job_close, set_std; by rewrite list_insert_insert_eq).
  destruct (IH p1 _ _ _ fuel Hw1 (table_set t i o _ (File (redir_word r) (redir_mode r)) Hfd Ht)) as (t' & Ht' & Hd & Hr).
  exists t'. rewrite !redirected_snoc. split_and!; [|by rewrite Hd, drop_set|exact Hr].
  destruct r; cbn in *; done.
Qed.

Lemma run_means a : ∀ p t i o fuel, repr_by spelled h p a → table t i o → (depth a ≤ fuel)%nat →
  ∃ j ps, runs fuel p t = Some j ∧ means (drop 2 t) a i o ps ∧ programs j = ps.
Proof.
  induction a as [items|a IH rs|l IHl r IHr|a IH|l IHl r IHr]; intros p t i o fuel Hr Ht Hf; cbn [repr_by depth] in *.
  - destruct Hr as (p0 & (argv & eargv & Hn & Hws) & Hw).
    destruct (run_wraps p0 (redirs items) p t i o (fuel - length (redirs items)) Hw Ht) as (t' & [Hi Ho _] & Hd & Hrun).
    replace (length (redirs items) + (fuel - length (redirs items)))%nat with fuel in Hrun by lia. rewrite Hrun.
    destruct (fuel - length (redirs items))%nat as [|f] eqn:Ef; [lia|]. cbn [runcmd]. rewrite Hn. cbn [builtin_cmd run_exec].
    assert (str buf <$> argv = words items) as Hargs by (clear -Hws; induction Hws; cbn; congruence).
    destruct argv as [|a0 argv].
    + exists (JExit 1), []. split_and!; [done| |done]. apply means_empty. by rewrite <-Hargs.
    + eexists _, _. split_and!; [done| |reflexivity]. cbn [programs]. rewrite Hargs, Hi, Ho, Hd. cbn. apply means_exec. by rewrite <-Hargs.
  - destruct Hr as (p0 & Hr & Hw). destruct (run_wraps p0 rs p t i o (fuel - length rs) Hw Ht) as (t' & Ht' & Hd & Hrun).
    replace (length rs + (fuel - length rs))%nat with fuel in Hrun by lia. rewrite Hrun.
    destruct (IH p0 t' _ _ (fuel - length rs)%nat Hr Ht') as (j & ps & ? & Hm & ?); [lia|]. exists j, ps. split_and!; [done| |done].
    rewrite Hd in Hm. by constructor.
  - destruct Hr as (pl & pr & Hn & Hl & Hr). destruct fuel as [|fuel]; [lia|]. cbn [runcmd]. rewrite Hn. cbn [builtin_cmd].
    destruct (sys_pipe_spec t i o p Ht) as (p0 & p1 & Hp & H0 & H1 & ->).
    destruct (pipe_child t i o 1 p0 p1 (ReadEnd p) (WriteEnd p) ltac:(lia) Ht Hp H0 H1) as [-> _].
    destruct (pipe_child t i o 0 p0 p1 (ReadEnd p) (WriteEnd p) ltac:(lia) Ht Hp H0 H1) as [_ ->].
    destruct (IHl pl _ _ _ fuel Hl (table_set t i o 1 (WriteEnd p) ltac:(lia) Ht)) as (jl & psl & -> & Hml & <-); [lia|].
    destruct (IHr pr _ _ _ fuel Hr (table_set t i o 0 (ReadEnd p) ltac:(lia) Ht)) as (jr & psr & -> & Hmr & <-); [lia|].
    rewrite drop_set in Hml, Hmr by lia. cbn in Hml, Hmr. eexists _, _. split_and!; [done| |done]. cbn. rewrite app_nil_r. by eapply means_pipe.
  - destruct Hr as (p0 & Hn & Hr). destruct fuel as [|fuel]; [lia|]. cbn [runcmd]. rewrite Hn. cbn [builtin_cmd].
    destruct (IH p0 t i o fuel Hr Ht) as (j & ps & -> & Hm & <-); [lia|]. eexists _, _. split_and!; [done| |done]. cbn. rewrite app_nil_r. by constructor.
  - destruct Hr as (pl & pr & Hn & Hl & Hr). destruct fuel as [|fuel]; [lia|]. cbn [runcmd]. rewrite Hn. cbn [builtin_cmd].
    destruct (IHl pl t i o fuel Hl Ht) as (jl & psl & -> & Hml & <-); [lia|]. destruct (IHr pr t i o fuel Hr Ht) as (jr & psr & -> & Hmr & <-); [lia|].
    eexists _, _. split_and!; [done| |done]. cbn. by constructor.
Qed.
End run.


Module ShRunDemo.
Import ShDemo.
Definition demo_table : fds := [Some Tty; Some Tty; Some Tty] ++ replicate 13 None.

End ShRunDemo.
