(* ===== verification/Umalloc.v ===== *)
(** * The user-level allocator: user/umalloc.c

    Kernighan and Ritchie's allocator. A [Header] is 16 bytes; the headers are a
    map from addresses to their two fields, beside which the memory of the process
    plays no part. [freep] is 0 before the first call. The program break is where
    [sbrk] moves it, which is modelled as kernel/sysproc.c and [growproc] of
    kernel/proc.c do it, with [avail] bytes to be had. *)
From Stdlib Require Import ZArith Lia.
From stdpp Require Import prelude gmap sorting.
From S2P Require Import Prelude User.

Record header := Header { h_ptr : Z; h_size : Z }.
#[export] Instance header_eq_dec : EqDecision header.
Proof. solve_decision. Defined.

Record um := UM { hdrs : gmap Z header; freep : Z; brk : Z; avail : Z }.

Definition hd_at (s : um) (p : Z) : header := default (Header 0 0) (hdrs s !! p).
Definition ptr (s : um) (p : Z) : Z := h_ptr (hd_at s p).
Definition size (s : um) (p : Z) : Z := h_size (hd_at s p).

Definition set_hdr (p : Z) (h : header) (s : um) : um := UM (<[p := h]> (hdrs s)) (freep s) (brk s) (avail s).
Definition set_ptr (p v : Z) (s : um) : um := set_hdr p (Header v (size s p)) s.
Definition set_size (p v : Z) (s : um) : um := set_hdr p (Header (ptr s p) (u32 v)) s.
Definition set_freep (p : Z) (s : um) : um := UM (hdrs s) p (brk s) (avail s).

Section code.
(** The address of the static header. *)
Context (base : Z).

(** [sbrk(n)], for an [int] [n]: the break before, or -1. *)
Definition sbrk (n : Z) : U um Z := λ s,
  let n := s32 n in
  if 0 <=? n then
    if n <=? avail s then URet (brk s) (UM (hdrs s) (freep s) (brk s + n) (avail s - n)) else URet (-1) s
  else
    let newsz := u64 (brk s + n) in
    if newsz >=? brk s then URet (brk s) s
    else URet (brk s) (UM (hdrs s) (freep s) newsz (avail s - n)).

(** The loop of [free] that looks for the place of [bp]. *)
Fixpoint free_find (fuel : nat) (bp p : Z) : U um Z :=
  match fuel with
  | O => unofuel
  | S fuel =>
      s ← uget;
      let nx := ptr s p in
      if (bp >? p) && (bp <? nx) then mret p
      else if (p >=? nx) && ((bp >? p) || (bp <? nx)) then mret p
      else free_find fuel bp nx
  end.

Definition free (ap : Z) : U um unit :=
  let bp := ap - 16 in
  s ← uget;
  p ← free_find (2 * stdpp.base.size (hdrs s) + 2) bp (freep s);
  s ← uget;
  let nx := ptr s p in
  (if bp + 16 * size s bp =? nx then
     umodify (set_size bp (size s bp + size s nx)) ;;
     umodify (λ s, set_ptr bp (ptr s nx) s)
   else umodify (set_ptr bp nx)) ;;
  s ← uget;
  (if p + 16 * size s p =? bp then
     umodify (set_size p (size s p + size s bp)) ;;
     umodify (λ s, set_ptr p (ptr s bp) s)
   else umodify (set_ptr p bp)) ;;
  umodify (set_freep p).

Definition morecore (nu : Z) : U um Z :=
  let nu := if nu <? 4096 then 4096 else nu in
  p ← sbrk (nu * 16);
  if p =? -1 then mret 0 else
  umodify (set_size p nu) ;;
  free (p + 16) ;;
  s ← uget;
  mret (freep s).

(** The loop of [malloc]. *)
Fixpoint malloc_loop (fuel : nat) (nunits prevp p : Z) : U um Z :=
  match fuel with
  | O => unofuel
  | S fuel =>
      s ← uget;
      if size s p >=? nunits then
        (if size s p =? nunits then
           umodify (set_ptr prevp (ptr s p)) ;;
           umodify (set_freep prevp) ;;
           mret (p + 16)
         else
           umodify (set_size p (size s p - nunits)) ;;
           let p := p + 16 * (size s p - nunits) in
           umodify (set_size p nunits) ;;
           umodify (set_freep prevp) ;;
           mret (p + 16))
      else if p =? freep s then
        p ← morecore nunits;
        if p =? 0 then mret 0 else
        s ← uget;
        malloc_loop fuel nunits p (ptr s p)
      else malloc_loop fuel nunits p (ptr s p)
  end.

Definition malloc (nbytes : Z) : U um Z :=
  let nunits := u32 ((u32 nbytes + 16 - 1) / 16 + 1) in
  s ← uget;
  uwhen (freep s =? 0)
    (umodify (set_freep base) ;;
     umodify (set_ptr base base) ;;
     umodify (set_size base 0)) ;;
  s ← uget;
  malloc_loop (2 * stdpp.base.size (hdrs s) + 8) nunits (freep s) (ptr s (freep s)).
End code.

(** ** The free list of user/umalloc.c: its invariant, and what [free] and [malloc] do

    Total specifications of [free], [morecore] and [malloc] over the invariant: the
    blocks on the list and those handed out, before and after, and that nothing
    inside a block that is handed out is written. *)

(** ** The free list of user/umalloc.c

    The free blocks form a circle in order of their addresses, beginning with the
    static header, with a gap between any two; blocks that are handed out lie in
    the gaps. [free] and [malloc] keep it so and write to no block that is handed
    out. *)

(** ** Lists of blocks *)

(** An address and a number of units. *)
Abbreviation block := (Z * Z)%type.

Definition before (x y : block) : Prop := x.1 + 16 * x.2 < y.1.

Lemma ss_app (l1 l2 : list block) :
  StronglySorted before (l1 ++ l2) ↔ StronglySorted before l1 ∧ StronglySorted before l2 ∧ ∀ x y, x ∈ l1 → y ∈ l2 → before x y.
Proof.
  induction l1 as [|x l1 IH]; cbn [app].
  - split; [intros; split_and!; [constructor|done|]|tauto]. by intros ? ? ?%elem_of_nil.
  - split.
    + intros [Hs Hf]%StronglySorted_inv. rewrite Forall_app in Hf. apply IH in Hs as (H1 & H2 & H12). destruct Hf as [Hf1 Hf2].
      rewrite Forall_forall in Hf2. split_and!; [by constructor|done|]. intros a b [->|Ha]%elem_of_cons Hb; auto.
    + intros ([Hs Hf]%StronglySorted_inv & H2 & H12). constructor.
      * apply IH. split_and!; [done..|]. intros. apply H12; [by right|done].
      * apply Forall_app. split; [done|]. apply Forall_forall. intros. apply H12; [by left|done].
Qed.

Lemma ss_cons x l : StronglySorted before (x :: l) ↔ StronglySorted before l ∧ ∀ y, y ∈ l → before x y.
Proof.
  change (x :: l) with ([x] ++ l). rewrite ss_app. setoid_rewrite list_elem_of_singleton. split; [naive_solver|].
  intros [Hs Hx]. split_and!; [by repeat constructor|done|naive_solver].
Qed.

(** The address after the list [l]. *)
Definition next (l : list block) (stop : Z) : Z := match l with [] => stop | x :: _ => x.1 end.

Fixpoint seg (H : gmap Z header) (l : list block) (stop : Z) : Prop :=
  match l with
  | [] => True
  | x :: l' => H !! x.1 = Some (Header (next l' stop) x.2) ∧ seg H l' stop
  end.

Lemma next_app l1 l2 stop : next (l1 ++ l2) stop = next l1 (next l2 stop).
Proof. by destruct l1. Qed.

Lemma chain_app H l1 l2 stop : seg H (l1 ++ l2) stop ↔ seg H l1 (next l2 stop) ∧ seg H l2 stop.
Proof. induction l1 as [|x l1 IH]; cbn; [tauto|]. rewrite IH, next_app. tauto. Qed.

Lemma chain_frame H H' l stop : (∀ x, x ∈ l → H' !! x.1 = H !! x.1) → seg H l stop → seg H' l stop.
Proof.
  induction l as [|x l IH]; cbn; [done|]. intros Hx [Hh Hs]. split; [rewrite Hx by left; done|]. apply IH; [|done]. intros. apply Hx. by right.
Qed.

Lemma seg_lookup H l stop x : seg H l stop → x ∈ l → ∃ n, H !! x.1 = Some (Header n x.2).
Proof. induction l as [|z l IH]; cbn; [by intros ? ?%elem_of_nil|]. intros [Hh Hs] [->|Hx]%elem_of_cons; [eauto|by apply IH]. Qed.

Lemma ss_nodup (l : list block) : StronglySorted before l → (∀ x, x ∈ l → 0 ≤ x.2) → NoDup l.*1.
Proof.
  induction l as [|x l IH]; cbn; [constructor|]. intros [Hs Hx]%ss_cons Hp. constructor; [|apply IH; [done|]; intros; apply Hp; by right].
  intros (y & Hy & Hin)%list_elem_of_fmap. specialize (Hx y Hin). specialize (Hp x ltac:(left)). unfold before in Hx. lia.
Qed.

(** ** The invariant *)
Section inv.
Context (base : Z) (Hbase : 0 < base).

(** The blocks that are handed out. *)
Abbreviation allocs := (gmap Z Z).

Definition apart (x y : block) : Prop := x.1 + 16 * x.2 ≤ y.1 ∨ y.1 + 16 * y.2 ≤ x.1.

(** A block of the heap. *)
Definition in_heap (s : um) (x : block) : Prop := 0 < x.2 ∧ base + 16 ≤ x.1 ∧ x.1 + 16 * x.2 ≤ brk s.

Record inv (s : um) (l : list block) (A : allocs) : Prop := {
  inv_seg : seg (hdrs s) ((base, 0) :: l) base;
  inv_sorted : StronglySorted before ((base, 0) :: l);
  inv_free x : x ∈ l → in_heap s x;
  inv_freep : freep s ∈ base :: l.*1;
  inv_alloc a n : A !! a = Some n → in_heap s (a, n) ∧ size s a = n;
  inv_apart a n b m : A !! a = Some n → A !! b = Some m → a ≠ b → apart (a, n) (b, m);
  inv_gap a n x : A !! a = Some n → x ∈ l → apart (a, n) x;
  inv_top : brk s + avail s < 68719476736 ∧ 0 ≤ avail s;
  inv_brk : base + 16 ≤ brk s
}.

Lemma inv_hdr s l A x : inv s l A → x ∈ (base, 0) :: l → size s x.1 = x.2 ∧ is_Some (hdrs s !! x.1).
Proof.
  intros Hi Hx. destruct (seg_lookup _ _ _ _ (inv_seg _ _ _ Hi) Hx) as [n Hn]. unfold size, hd_at. rewrite Hn. eauto.
Qed.

Lemma inv_ptr s l A l1 x l2 : inv s l A → (base, 0) :: l = l1 ++ x :: l2 → ptr s x.1 = next l2 base ∧ size s x.1 = x.2.
Proof.
  intros Hi Hl. pose proof (inv_seg _ _ _ Hi) as Hs. rewrite Hl in Hs. apply chain_app in Hs as [_ [Hx _]].
  unfold ptr, size, hd_at. by rewrite Hx.
Qed.

Lemma inv_length s l A : inv s l A → (S (length l) ≤ stdpp.base.size (hdrs s))%nat.
Proof.
  intros Hi. assert (NoDup ((base, 0) :: l).*1) as Hnd.
  { apply ss_nodup; [apply Hi|]. intros x [->|Hx]%elem_of_cons; [done|]. destruct (inv_free _ _ _ Hi x Hx). lia. }
  rewrite <-size_dom. change (S (length l)) with (length ((base, 0) :: l)). rewrite <-(length_fmap fst).
  rewrite <-(size_list_to_set (C := gset Z)) by done. apply subseteq_size. intros a. rewrite elem_of_list_to_set, elem_of_dom.
  intros (x & -> & Hx)%list_elem_of_fmap. by apply (inv_hdr s l A x).
Qed.

(** Everything on the list is at or above the static header. *)
Lemma inv_above s l A x : inv s l A → x ∈ (base, 0) :: l → base ≤ x.1 ∧ 0 ≤ x.2.
Proof. intros Hi [->|Hx]%elem_of_cons; [done|]. destruct (inv_free _ _ _ Hi x Hx). lia. Qed.

(** ** [free] *)

(** The place of a block that is handed out: after [p], before [l2]. *)
Lemma free_find_up s l A bp : inv s l A → base < bp → bp ∉ l.*1 → ∀ l2 l1 x fuel Q E,
  (base, 0) :: l = l1 ++ x :: l2 → x.1 < bp → (length l2 < fuel)%nat →
  (∀ m1 y m2, (base, 0) :: l = m1 ++ y :: m2 → y.1 < bp → (∀ z, z ∈ m2 → bp < z.1) → Q y.1 s) →
  uwp (free_find fuel bp x.1) s Q E.
Proof.
  intros Hi Hbp Hnin. induction l2 as [|z l2 IH]; intros l1 x fuel Q E Hl Hx Hf HQ; (destruct fuel as [|fuel]; [lia|]);
    cbn [free_find]; uwp_step; uwp_step; destruct (inv_ptr s l A _ _ _ Hi Hl) as [-> _]; cbn [next].
  - destruct (inv_above s l A x Hi) as [Hge _]; [rewrite Hl; apply elem_of_app; right; left|].
    rewrite (proj2 (Z.ltb_ge bp base)), andb_false_r by lia. rewrite (proj2 (Z.geb_le x.1 base)), (proj2 (Z.gtb_lt bp x.1)) by lia. cbn [andb orb].
    uwp_step. apply (HQ l1 x []); [done..|]. by intros ? ?%elem_of_nil.
  - pose proof (inv_sorted _ _ _ Hi) as Hs. rewrite Hl in Hs. apply ss_app in Hs as (_ & Hs & _). apply ss_cons in Hs as [Hs Hxz].
    specialize (Hxz z ltac:(left)) as Hxz'. apply ss_cons in Hs as [_ Hz]. unfold before in *.
    assert (x ∈ (base, 0) :: l ∧ z ∈ (base, 0) :: l) as [Hxin Hzin] by (rewrite Hl; split; apply elem_of_app; right; [left|right; left]).
    destruct (inv_above s l A x Hi Hxin), (inv_above s l A z Hi Hzin).
    rewrite (proj2 (Z.gtb_lt bp x.1)) by lia. cbn [andb]. destruct (Z.ltb_spec bp z.1) as [Hlt|Hge].
    + uwp_step. apply (HQ l1 x (z :: l2)); [done..|]. intros y [->|Hy]%elem_of_cons; [done|]. specialize (Hz y Hy). lia.
    + rewrite Z.geb_leb, (proj2 (Z.leb_gt z.1 x.1)) by lia. cbn [andb]. apply (IH (l1 ++ [x]) z); [by rewrite <-app_assoc| |cbn in Hf; lia|done].
      assert (z.1 ≠ bp); [|lia]. intros <-. apply Hnin, list_elem_of_fmap. exists z. split; [done|].
      apply elem_of_cons in Hzin as [->|?]; [cbn in *; lia|done].
Qed.

(** From a block above it the search goes on to the end of the list. *)
Lemma free_find_wrap s l A bp : inv s l A → base < bp → ∀ l2 l1 x fuel Q E,
  (base, 0) :: l = l1 ++ x :: l2 → bp < x.1 → (length l2 < fuel)%nat →
  uwp (free_find (fuel - length l2 - 1) bp base) s Q E → uwp (free_find fuel bp x.1) s Q E.
Proof.
  intros Hi Hbp. induction l2 as [|z l2 IH]; intros l1 x fuel Q E Hl Hx Hf HQ; (destruct fuel as [|fuel]; [lia|]);
    cbn [free_find]; uwp_step; uwp_step; destruct (inv_ptr s l A _ _ _ Hi Hl) as [-> _]; cbn [next]; rewrite (Z.gtb_ltb bp x.1), (proj2 (Z.ltb_ge x.1 bp)) by lia; cbn [andb orb].
  - rewrite (proj2 (Z.ltb_ge bp base)), andb_false_r by lia. cbn in HQ. by rewrite !Nat.sub_0_r in HQ.
  - pose proof (inv_sorted _ _ _ Hi) as Hs. rewrite Hl in Hs. apply ss_app in Hs as (_ & Hs & _). apply ss_cons in Hs as [_ Hxz].
    specialize (Hxz z ltac:(left)). unfold before in Hxz.
    destruct (inv_above s l A x Hi) as [_ Hx0]; [rewrite Hl; apply elem_of_app; right; left|].
    rewrite (Z.geb_leb x.1 z.1), (proj2 (Z.leb_gt z.1 x.1)) by lia. cbn [andb]. apply (IH (l1 ++ [x]) z); [by rewrite <-app_assoc|lia|cbn in Hf; lia|].
    cbn [length] in HQ. by replace (fuel - length l2 - 1)%nat with (S fuel - S (length l2) - 1)%nat by lia.
Qed.

Lemma free_find_spec s l A bp fuel Q E : inv s l A → base < bp → bp ∉ l.*1 → (2 * length l + 2 < fuel)%nat →
  (∀ m1 y m2, (base, 0) :: l = m1 ++ y :: m2 → y.1 < bp → (∀ z, z ∈ m2 → bp < z.1) → Q y.1 s) →
  uwp (free_find fuel bp (freep s)) s Q E.
Proof.
  intros Hi Hbp Hnin Hf HQ. pose proof (inv_freep _ _ _ Hi) as Hfp. change (base :: l.*1) with ((base, 0) :: l).*1 in Hfp.
  apply list_elem_of_fmap in Hfp as (x & Hx & Hin). rewrite Hx. apply list_elem_of_split in Hin as (l1 & l2 & Hl).
  assert (length l1 + S (length l2) = S (length l))%nat as Hlen by (apply (f_equal length) in Hl; rewrite length_app in Hl; cbn in Hl; lia).
  destruct (decide (x.1 < bp)) as [Hlt|Hge].
  - eapply (free_find_up s l A bp); [done..|lia|done].
  - assert (bp < x.1).
    { assert (x.1 ≠ bp); [|lia]. intros <-. apply Hnin, list_elem_of_fmap. exists x. split; [done|].
      assert (x ∈ (base, 0) :: l) as Hin by (rewrite Hl; apply elem_of_app; right; left). apply elem_of_cons in Hin as [->|?]; [cbn in *; lia|done]. }
    eapply (free_find_wrap s l A bp); [done..|lia|]. eapply (free_find_up s l A bp Hi Hbp Hnin l [] (base, 0)); [done|cbn; lia|lia|done].
Qed.

(** Headers written outside the list do not matter to it. *)
Lemma seg_insert H l stop a h : a ∉ l.*1 → seg H l stop → seg (<[a := h]> H) l stop.
Proof.
  intros Ha. apply chain_frame. intros x Hx. rewrite lookup_insert_ne; [done|]. intros ->. apply Ha, list_elem_of_fmap. eauto.
Qed.

(** The block [(bp, n1)] between [p] and [m2]: what it takes to be inserted. *)
Record fits (s : um) (A : allocs) (bp n1 : Z) (m2 : list block) : Prop := {
  fit_size : 0 < n1 ∧ bp + 16 * n1 ≤ brk s;
  fit_above z : z ∈ m2 → bp + 16 * n1 < z.1;
  fit_apart a k : A !! a = Some k → a ≠ bp → apart (a, k) (bp, n1)
}.

(** Coalescing with the next block. *)
Lemma merge_next s l A bp n m1 y m2 : inv s l A → A !! bp = Some n → (base, 0) :: l = m1 ++ y :: m2 → (∀ z, z ∈ m2 → bp < z.1) →
  ∃ n1 m2', fits s A bp n1 m2' ∧ (∀ z, z ∈ m2' → z ∈ m2) ∧ (length m2' ≤ length m2)%nat ∧ n ≤ n1 ∧ seg (hdrs s) m2' base ∧ StronglySorted before m2' ∧
    (if bp + 16 * n =? next m2 base then n1 = n + size s (next m2 base) ∧ ptr s (next m2 base) = next m2' base ∧ next m2 base ≠ bp
     else n1 = n ∧ next m2 base = next m2' base).
Proof.
  intros Hi Hbp Hl Habove. destruct (inv_alloc _ _ _ Hi _ _ Hbp) as [[Hn [Hb Ht]] _]. cbn in *.
  pose proof (inv_seg _ _ _ Hi) as Hseg. pose proof (inv_sorted _ _ _ Hi) as Hs. rewrite Hl in Hseg, Hs.
  apply chain_app in Hseg as [_ [_ Hseg]]. apply ss_app in Hs as (_ & Hs & _). apply ss_cons in Hs as [Hs _].
  assert (∀ z, z ∈ m2 → z ∈ l) as Hin.
  { intros z Hz. assert (z ∈ (base, 0) :: l) as H by (rewrite Hl; apply elem_of_app; right; by right). apply elem_of_cons in H as [->|?]; [|done].
    specialize (Habove _ Hz). cbn in *. lia. }
  assert (∀ z, z ∈ m2 → bp + 16 * n ≤ z.1) as Hge.
  { intros z Hz. specialize (Habove z Hz). destruct (inv_gap _ _ _ Hi _ _ z Hbp (Hin z Hz)) as [?|Hx]; cbn in *; [lia|].
    destruct (inv_free _ _ _ Hi z (Hin z Hz)). lia. }
  destruct m2 as [|z m2]; cbn [next].
  - rewrite (proj2 (Z.eqb_neq _ base)) by lia. exists n, []. split_and!; try done; try lia. split; [lia|by intros ? ?%elem_of_nil|].
    intros a k Ha Hne. by eapply (inv_apart _ _ _ Hi).
  - destruct Hseg as [Hz Hseg]. apply ss_cons in Hs as [Hs Hbef]. pose proof (Hge z ltac:(left)) as Hzge.
    assert (z ∈ l) as Hzl by (apply Hin; left). destruct (inv_free _ _ _ Hi z Hzl) as (Hz0 & Hz1 & Hz2).
    destruct (Z.eqb_spec (bp + 16 * n) z.1) as [He|He].
    + exists (n + z.2), m2. unfold size, ptr, hd_at. rewrite Hz. cbn. split_and!; [|intros; by right|cbn; lia|lia|done|done|done|done|lia].
      split; [lia| |].
      * intros x Hx. specialize (Hbef x Hx). unfold before in Hbef. lia.
      * intros a k Ha Hne. pose proof (inv_apart _ _ _ Hi _ _ _ _ Ha Hbp Hne) as H1. pose proof (inv_gap _ _ _ Hi _ _ z Ha Hzl) as H2.
        destruct (inv_alloc _ _ _ Hi _ _ Ha) as [[? _] _]. unfold apart in *. cbn in *. lia.
    + exists n, (z :: m2). split_and!; [|done|done|lia|done|by apply ss_cons|done|done]. split; [lia| |].
      * intros x Hx. apply elem_of_cons in Hx as [->|Hx]; [lia|]. specialize (Hbef x Hx). unfold before in Hbef. lia.
      * intros a k Ha Hne. by eapply (inv_apart _ _ _ Hi).
Qed.

(** A block on the list is not where a block that is handed out begins. *)
Lemma alloc_not_free s l A a n x : inv s l A → A !! a = Some n → x ∈ (base, 0) :: l → a ≠ x.1.
Proof.
  intros Hi Ha Hx Heq. destruct (inv_alloc _ _ _ Hi _ _ Ha) as [(Hn & Hb & _) _]. cbn in *.
  apply elem_of_cons in Hx as [->|Hx]; [cbn in *; lia|]. destruct (inv_free _ _ _ Hi x Hx) as [? _].
  destruct (inv_gap _ _ _ Hi _ _ x Ha Hx); cbn in *; lia.
Qed.

(** Another list, and changed headers, of a heap with fewer blocks handed out. *)
Lemma inv_relist s l A h2 y l' bp :
  inv s l A → seg h2 ((base, 0) :: l') base → StronglySorted before ((base, 0) :: l') → y ∈ base :: l'.*1 →
  (∀ x, x ∈ l' → in_heap s x ∧ ∀ a n, A !! a = Some n → a ≠ bp → apart (a, n) x) →
  (∀ a n, A !! a = Some n → a ≠ bp → h2 !! a = hdrs s !! a) →
  inv (UM h2 y (brk s) (avail s)) l' (delete bp A).
Proof.
  intros Hi Hseg Hs Hy Hx Hh. split; [done|done| |done| | | |apply Hi|apply Hi].
  - intros x Hin. by destruct (Hx x Hin).
  - intros a n [Hne Ha]%lookup_delete_Some. destruct (inv_alloc _ _ _ Hi _ _ Ha) as [? Hsz]. split; [done|].
    unfold size, hd_at in *. cbn. by rewrite (Hh a n).
  - intros a n b m [? Ha]%lookup_delete_Some [? Hb]%lookup_delete_Some. by apply (inv_apart _ _ _ Hi).
  - intros a n x [Hne Ha]%lookup_delete_Some Hin. by apply (Hx x Hin).
Qed.

(** What the two ends of [free] make of the free list. *)
Lemma inv_release s l A bp n m1 y m2 n1 m2' : inv s l A → A !! bp = Some n → (base, 0) :: l = m1 ++ y :: m2 → y.1 < bp →
  fits s A bp n1 m2' → (∀ z, z ∈ m2' → z ∈ m2) → (length m2' ≤ length m2)%nat → n ≤ n1 → seg (hdrs s) m2' base → StronglySorted before m2' →
  let merged := y.1 + 16 * y.2 =? bp in
  let h1 := <[bp := Header (next m2' base) n1]> (hdrs s) in
  let h2 := <[y.1 := if merged then Header (next m2' base) (y.2 + n1) else Header bp y.2]> h1 in
  ∃ l', inv (UM h2 y.1 (brk s) (avail s)) l' (delete bp A) ∧ (length l' ≤ S (length l))%nat ∧ ∃ x, x ∈ l' ∧ n ≤ x.2.
Proof.
  intros Hi Hbp Hl Hy Hfit Hsub Hlen Hn1 Hseg2 Hss2 merged h1 h2.
  destruct (inv_alloc _ _ _ Hi _ _ Hbp) as [(Hn & Hb & _) _]. cbn in Hn, Hb.
  destruct Hfit as [[Hf0 Hft] Hfa Hfap].
  pose proof (inv_seg _ _ _ Hi) as Hseg. pose proof (inv_sorted _ _ _ Hi) as Hs. rewrite Hl in Hseg, Hs.
  apply chain_app in Hseg as [Hseg1 _]. apply ss_app in Hs as (Hs1 & Hs2 & H12). apply ss_cons in Hs2 as [_ Hy2].
  cbn [next] in Hseg1.
  assert (y ∈ (base, 0) :: l) as Hyin by (rewrite Hl; apply elem_of_app; right; left).
  destruct (inv_above s l A y Hi Hyin) as [Hyb Hy0].
  assert (y.1 + 16 * y.2 ≤ bp) as Hyle.
  { apply elem_of_cons in Hyin as [->|Hyin]; [cbn; lia|]. destruct (inv_gap _ _ _ Hi _ _ y Hbp Hyin) as [?|?]; cbn in *; lia. }
  assert (∀ x, x ∈ m1 → x.1 < y.1 ∧ 0 ≤ x.2) as Hm1.
  { intros x Hx. pose proof (H12 x y Hx ltac:(left)) as Hb'. unfold before in Hb'.
    destruct (inv_above s l A x Hi) as [? ?]; [rewrite Hl; apply elem_of_app; by left|]. lia. }
  assert (∀ z, z ∈ m2' → bp < z.1) as Hm2 by (intros z Hz; specialize (Hfa z Hz); lia).
  assert (seg h2 m1 y.1) as Hsegm1.
  { eapply chain_frame; [|exact Hseg1]. intros x Hx. destruct (Hm1 x Hx). unfold h2, h1. rewrite !lookup_insert_ne by lia. done. }
  assert (seg h2 m2' base) as Hsegm2.
  { eapply chain_frame; [|exact Hseg2]. intros x Hx. specialize (Hm2 x Hx). unfold h2, h1. rewrite !lookup_insert_ne by lia. done. }
  assert (∀ a k, A !! a = Some k → a ≠ bp → h2 !! a = hdrs s !! a) as Hh2.
  { intros a k Ha Hne. pose proof (alloc_not_free s l A a k y Hi Ha Hyin). unfold h2, h1. by rewrite !lookup_insert_ne by done. }
  assert (∀ z, z ∈ m2' → z ∈ l) as Hm2l.
  { intros z Hz. assert (z ∈ (base, 0) :: l) as H by (rewrite Hl; apply elem_of_app; right; right; auto). apply elem_of_cons in H as [->|?]; [|done].
    specialize (Hm2 _ Hz). cbn in *. lia. }
  assert (∀ x, x ∈ l → in_heap s x ∧ ∀ a k, A !! a = Some k → a ≠ bp → apart (a, k) x) as Hold.
  { intros x Hx. split; [by apply (inv_free _ _ _ Hi)|]. intros. by eapply (inv_gap _ _ _ Hi). }
  assert (length l = length m1 + length m2)%nat as Hll by (apply (f_equal length) in Hl; rewrite length_app in Hl; cbn in Hl; lia).
  destruct m1 as [|b m1].
  - (* The static header precedes the block. *)
    cbn in Hl. injection Hl as <- <-. assert (merged = false) as Hm by (apply Z.eqb_neq; cbn; lia). unfold h2 in *. rewrite Hm in *. cbn [fst snd] in *.
    exists ((bp, n1) :: m2'). split_and!; [|cbn; lia|exists (bp, n1); split; [left|done]]. eapply inv_relist; [exact Hi| | | | |exact Hh2].
    + cbn. split; [by rewrite lookup_insert_eq|]. split; [|done]. unfold h1. rewrite lookup_insert_ne, lookup_insert_eq by lia. done.
    + apply ss_cons. split; [apply ss_cons; split; [done|]; intros z Hz; exact (Hfa z Hz)|].
      intros z [->|Hz]%elem_of_cons; unfold before; cbn; [lia|]. specialize (Hm2 z Hz). lia.
    + left.
    + intros x [->|Hx]%elem_of_cons; [|by apply Hold, Hm2l]. split; [split_and!; cbn; lia|done].
  - cbn in Hl. injection Hl as <- ->. apply elem_of_cons in Hyin as [->|Hyin].
    { destruct (Hm1 (base, 0)); [left|cbn in *; lia]. }
    destruct (inv_free _ _ _ Hi y Hyin) as (Hyp & Hyb' & Hyt).
    assert (∀ x, x ∈ m1 → x ∈ m1 ++ y :: m2) as Hm1l by (intros; apply elem_of_app; by left).
    destruct merged eqn:Hm; unfold merged in Hm.
    + apply Z.eqb_eq in Hm. exists (m1 ++ (y.1, y.2 + n1) :: m2').
      split_and!; [|rewrite !length_app; cbn; rewrite length_app in Hll; cbn in *; lia|exists (y.1, y.2 + n1); split; [apply elem_of_app; right; left|cbn; lia]].
      eapply inv_relist; [exact Hi| | | | |exact Hh2].
      * change ((base, 0) :: m1 ++ ?t) with (((base, 0) :: m1) ++ t). apply chain_app. split; [done|]. cbn. unfold h2. rewrite lookup_insert_eq. done.
      * change ((base, 0) :: m1 ++ ?t) with (((base, 0) :: m1) ++ t). apply ss_app. split_and!; [done| |].
        -- apply ss_cons. split; [done|]. intros z Hz. specialize (Hfa z Hz). unfold before. cbn. lia.
        -- intros x z Hx Hz. pose proof (H12 x y Hx ltac:(left)) as Hxy. unfold before in *.
           apply elem_of_cons in Hz as [->|Hz]; [done|]. specialize (Hm2 z Hz). lia.
      * right. rewrite fmap_app. apply elem_of_app. right. left.
      * intros x [Hx|[->|Hx]%elem_of_cons]%elem_of_app; [by apply Hold, Hm1l| |by apply Hold, Hm2l]. split; [split_and!; cbn; lia|].
        intros a k Ha Hne. pose proof (Hfap a k Ha Hne) as H1. pose proof (inv_gap _ _ _ Hi a k y Ha Hyin) as H2.
        destruct (inv_alloc _ _ _ Hi _ _ Ha) as [[? _] _]. unfold apart in *. cbn in *. lia.
    + apply Z.eqb_neq in Hm. exists (m1 ++ y :: (bp, n1) :: m2').
      split_and!; [|rewrite !length_app; cbn; rewrite length_app in Hll; cbn in *; lia|exists (bp, n1); split; [apply elem_of_app; right; right; left|done]].
      eapply inv_relist; [exact Hi| | | | |exact Hh2].
      * change ((base, 0) :: m1 ++ ?t) with (((base, 0) :: m1) ++ t). apply chain_app. split; [done|]. cbn. unfold h2. rewrite lookup_insert_eq. split; [done|]. split; [|done].
        unfold h1. rewrite lookup_insert_ne, lookup_insert_eq by lia. done.
      * change ((base, 0) :: m1 ++ ?t) with (((base, 0) :: m1) ++ t). apply ss_app. split_and!; [done| |].
        -- apply ss_cons. split; [apply ss_cons; split; [done|exact Hfa]|]. intros z [->|Hz]%elem_of_cons; unfold before; cbn; [lia|]. specialize (Hm2 z Hz). lia.
        -- intros x z Hx Hz. pose proof (H12 x y Hx ltac:(left)) as Hxy. unfold before in *.
           apply elem_of_cons in Hz as [->|Hz]; [done|]. apply elem_of_cons in Hz as [->|Hz]; [cbn; lia|]. specialize (Hm2 z Hz). lia.
      * right. rewrite fmap_app. apply elem_of_app. right. left.
      * intros x [Hx|[->|[->|Hx]%elem_of_cons]%elem_of_cons]%elem_of_app; [by apply Hold, Hm1l|by apply Hold| |by apply Hold, Hm2l].
        split; [split_and!; cbn; lia|done].
Qed.
End inv.

Local Open Scope Z_scope.

Section spec.
Context (base : Z) (Hbase : 0 < base).
Abbreviation inv := (inv base).
Abbreviation allocs := (gmap Z Z).

Lemma inv_u32 s l A x : inv s l A → in_heap base s x → u32 x.2 = x.2.
Proof.
  intros Hi (H0 & H1 & H2). destruct (inv_top _ _ _ _ Hi) as [Ht Ha]. apply u32_small. lia.
Qed.

(** No header inside a block of [A] differs. *)
Definition payloads_kept (A : allocs) (s s' : um) : Prop :=
  ∀ b n a, A !! b = Some n → b < a < b + 16 * n → hdrs s' !! a = hdrs s !! a.

Lemma payloads_kept_trans A s1 s2 s3 : payloads_kept A s1 s2 → payloads_kept A s2 s3 → payloads_kept A s1 s3.
Proof. intros H1 H2 b n a Hb Ha. by rewrite (H2 b n a), (H1 b n a). Qed.

(** The header of a block apart from another is not inside it. *)
Lemma apart_outside b n x a : 0 < x.2 → apart (b, n) x → b < a < b + 16 * n → a ≠ x.1.
Proof. unfold apart. cbn. lia. Qed.

Lemma list_outside s l A b n x a : inv s l A → A !! b = Some n → x ∈ (base, 0) :: l → b < a < b + 16 * n → a ≠ x.1.
Proof.
  intros Hi Hb Hx Ha. destruct (inv_alloc _ _ _ _ Hi _ _ Hb) as [(? & ? & _) _]. cbn in *.
  apply elem_of_cons in Hx as [->|Hx]; [cbn; lia|]. destruct (inv_free _ _ _ _ Hi x Hx).
  eapply apart_outside; [done| |done]. by eapply (inv_gap _ _ _ _ Hi).
Qed.

Lemma alloc_outside s l A b n c m a : inv s l A → A !! b = Some n → A !! c = Some m → b ≠ c → b < a < b + 16 * n → a ≠ c.
Proof.
  intros Hi Hb Hc Hne Ha. destruct (inv_alloc _ _ _ _ Hi _ _ Hc) as [(? & _) _].
  apply (apart_outside b n (c, m)); [done| |done]. by eapply (inv_apart _ _ _ _ Hi).
Qed.

(** ** [free] *)

(** Linking the block to what follows. *)
Lemma release_next s bp nx n n1 nx' : size s bp = n → u32 n1 = n1 →
  (if bp + 16 * n =? nx then n1 = n + size s nx ∧ ptr s nx = nx' ∧ nx ≠ bp else n1 = n ∧ nx = nx') →
  uwp (if bp + 16 * n =? nx then umodify (set_size bp (n + size s nx)) ;; umodify (λ s, set_ptr bp (ptr s nx) s) else umodify (set_ptr bp nx))
    s (λ _ s', s' = UM (<[bp := Header nx' n1]> (hdrs s)) (freep s) (brk s) (avail s)) (λ _ _, False).
Proof.
  intros Hsz Hu. case_match.
  - intros (-> & Hp & Hne). uwp_steps. unfold set_ptr, set_size, set_hdr, ptr, size, hd_at. cbn [hdrs freep brk avail]. rewrite lookup_insert_eq, lookup_insert_ne by done.
    cbn [h_size]. rewrite insert_insert_eq. unfold ptr, size, hd_at in *. by rewrite Hu, Hp.
  - intros [-> ->]. uwp_steps. unfold set_ptr, set_hdr. by rewrite Hsz.
Qed.

(** Linking what precedes to the block. *)
Lemma release_prev s p bp sp n1 nx : size s p = sp → size s bp = n1 → ptr s bp = nx → p ≠ bp → (p + 16 * sp = bp → u32 (sp + n1) = sp + n1) →
  uwp (if p + 16 * size s p =? bp then umodify (set_size p (size s p + size s bp)) ;; umodify (λ s, set_ptr p (ptr s bp) s) else umodify (set_ptr p bp))
    s (λ _ s', s' = UM (<[p := if p + 16 * sp =? bp then Header nx (sp + n1) else Header bp sp]> (hdrs s)) (freep s) (brk s) (avail s)) (λ _ _, False).
Proof.
  intros Hsp Hn1 Hnx Hne Hu. rewrite Hsp, Hn1. destruct (Z.eqb_spec (p + 16 * sp) bp) as [He|He].
  - uwp_steps. unfold set_ptr, set_size, set_hdr, ptr, size, hd_at in *. cbn [hdrs freep brk avail]. rewrite lookup_insert_eq, lookup_insert_ne by done.
    cbn [h_size]. by rewrite insert_insert_eq, Hnx, (Hu He).
  - uwp_steps. unfold set_ptr, set_hdr. by rewrite Hsp.
Qed.

Lemma free_spec s l A bp n Q E : inv s l A → A !! bp = Some n →
  (∀ s' l', inv s' l' (delete bp A) → (length l' ≤ S (length l))%nat → (∃ x, x ∈ l' ∧ n ≤ x.2) →
     payloads_kept (delete bp A) s s' → brk s' = brk s → avail s' = avail s → Q tt s') →
  uwp (free (bp + 16)) s Q E.
Proof.
  intros Hi Hbp HQ. unfold free. replace (bp + 16 - 16) with bp by lia.
  destruct (inv_alloc _ _ _ _ Hi _ _ Hbp) as [Hh Hsz]. pose proof Hh as (Hn & Hb & Ht). cbn in Hn, Hb, Ht.
  uwp_step. uwp_step. apply uwp_bind.
  pose proof (inv_length _ _ _ _ Hi) as Hlen.
  eapply (free_find_spec base s l A); [exact Hi|lia| |lia|].
  { intros (x & -> & Hx)%list_elem_of_fmap. eapply (alloc_not_free base s l A _ n x); [done..|by right|done]. }
  intros m1 y m2 Hl Hy Hm2. uwp_step. uwp_step.
  destruct (merge_next base s l A bp n m1 y m2) as (n1 & m2' & Hfit & Hsub & Hlen' & Hn1 & Hseg & Hss & Hmerge); [done..|].
  destruct (inv_ptr base s l A m1 y m2 Hi Hl) as [Hptr Hysz].
  assert (u32 n1 = n1) as Hu1 by (apply (inv_u32 s l A (bp, n1) Hi); destruct Hfit as [[? ?] _ _]; split_and!; cbn; lia).
  rewrite Hptr, Hsz. set (h1 := <[bp := Header (next m2' base) n1]> (hdrs s)).
  apply uwp_bind. eapply uwp_mono.
  { apply (release_next s bp (next m2 base) n n1 (next m2' base) Hsz Hu1 Hmerge). }
  2: by intros. intros _ ? ->. uwp_step. uwp_step. apply uwp_bind.
  set (s1 := UM _ _ _ _).
  destruct (inv_release base s l A bp n m1 y m2 n1 m2') as (l' & Hi' & Hl' & Hx); [done..|]. cbv zeta in Hi'. fold h1 in Hi'.
  assert (y ∈ (base, 0) :: l) as Hyin by (rewrite Hl; apply elem_of_app; right; left).
  eapply uwp_mono.
  { apply (release_prev s1 y.1 bp y.2 n1 (next m2' base)); [..|intros Hm].
    - unfold size, hd_at in *. cbn. rewrite lookup_insert_ne by lia. done.
    - unfold size, hd_at. cbn. by rewrite lookup_insert_eq.
    - unfold ptr, hd_at. cbn. by rewrite lookup_insert_eq.
    - lia.
    - destruct Hfit as [[? ?] _ _]. destruct (inv_above base s l A y Hi Hyin). destruct (inv_top _ _ _ _ Hi). apply u32_small. lia. }
  2: by intros. intros _ ? ->. uwp_step. unfold set_freep. cbn. eapply HQ; [exact Hi'|done|done| |done|done].
  intros b k a [Hne Hb']%lookup_delete_Some Ha. cbn.
  pose proof (list_outside s l A b k y a Hi Hb' Hyin Ha). pose proof (alloc_outside s l A b k bp n a Hi Hb' Hbp (not_eq_sym Hne) Ha).
  by rewrite !lookup_insert_ne by done.
Qed.

(** ** [morecore] *)

(** A fresh block at the break counts as handed out until it is freed. *)
Lemma inv_grow s l A k nu : inv s l A → k = 16 * nu → 0 < nu → k ≤ avail s →
  A !! brk s = None ∧
  inv (UM (<[brk s := Header (ptr s (brk s)) nu]> (hdrs s)) (freep s) (brk s + k) (avail s - k)) l (<[brk s := nu]> A).
Proof.
  intros Hi -> Hnu Hk. pose proof (inv_brk _ _ _ _ Hi) as Hb.
  assert (∀ a n, A !! a = Some n → a + 16 * n ≤ brk s ∧ 0 < n ∧ base + 16 ≤ a) as HA.
  { intros a n Ha. destruct (inv_alloc _ _ _ _ Hi _ _ Ha) as [(? & ? & ?) _]. cbn in *. lia. }
  assert (∀ x, x ∈ l → x.1 + 16 * x.2 ≤ brk s ∧ 0 < x.2 ∧ base + 16 ≤ x.1) as Hl.
  { intros x Hx. destruct (inv_free _ _ _ _ Hi _ Hx) as (? & ? & ?). lia. }
  assert (A !! brk s = None) as Hnone by (destruct (A !! brk s) eqn:Ha; [apply HA in Ha; lia|done]).
  split; [done|]. split; cbn.
  - pose proof (inv_seg _ _ _ _ Hi) as Hseg. eapply seg_insert in Hseg; [exact Hseg|].
    intros (x & Hx & Hin)%list_elem_of_fmap. apply elem_of_cons in Hin as [->|Hin]; [cbn in Hx; lia|]. specialize (Hl x Hin). lia.
  - apply Hi.
  - intros x Hx. specialize (Hl x Hx). unfold in_heap. cbn. lia.
  - apply Hi.
  - intros a n. destruct (decide (a = brk s)) as [->|Hne].
    + rewrite lookup_insert_eq. intros [= ->]. unfold in_heap, size, hd_at. cbn. rewrite lookup_insert_eq. cbn. lia.
    + rewrite lookup_insert_ne by done. intros Ha. destruct (inv_alloc _ _ _ _ Hi _ _ Ha) as [(? & ? & ?) Hsz].
      unfold in_heap, size, hd_at in *. cbn in *. rewrite lookup_insert_ne by done. split; [lia|done].
  - intros a n b m Ha Hb' Hne. unfold apart. cbn.
    apply lookup_insert_Some in Ha as [[<- <-]|[? Ha]]; apply lookup_insert_Some in Hb' as [[<- <-]|[? Hb']]; [done|apply HA in Hb'; lia|apply HA in Ha; lia|].
    by apply (inv_apart _ _ _ _ Hi a n b m).
  - intros a n x Ha Hx. specialize (Hl x Hx) as ?. unfold apart. cbn. apply lookup_insert_Some in Ha as [[<- <-]|[? Ha]]; [lia|].
    by apply (inv_gap _ _ _ _ Hi a n x).
  - destruct (inv_top _ _ _ _ Hi). lia.
  - lia.
Qed.

(** The bytes [morecore] asks for. *)
Definition core_bytes (nu : Z) : Z := 16 * Z.max 4096 nu.

Lemma morecore_spec s l A nu Q E : inv s l A → 0 < nu → 16 * nu < 2147483648 →
  (avail s < core_bytes nu → Q 0 s) →
  (∀ s' l', core_bytes nu ≤ avail s → inv s' l' A → (length l' ≤ S (length l))%nat → (∃ x, x ∈ l' ∧ nu ≤ x.2) → payloads_kept A s s' →
     brk s' = brk s + core_bytes nu → avail s' = avail s - core_bytes nu → Q (freep s') s') →
  uwp (morecore nu) s Q E.
Proof.
  intros Hi Hnu Hlt HQ0 HQ. unfold morecore.
  assert ((if nu <? 4096 then 4096 else nu) = Z.max 4096 nu) as -> by (destruct (Z.ltb_spec nu 4096); lia).
  assert (Z.max 4096 nu * 16 = core_bytes nu) as -> by (unfold core_bytes; lia). apply uwp_bind. unfold sbrk.
  assert (s32 (core_bytes nu) = core_bytes nu) as -> by (apply s32_small; unfold core_bytes; lia).
  unfold uwp at 1. rewrite (proj2 (Z.leb_le 0 _)) by (unfold core_bytes; lia). pose proof (inv_brk _ _ _ _ Hi) as Hb.
  destruct (Z.leb_spec (core_bytes nu) (avail s)) as [Hle|Hgt].
  2: { cbn. by apply HQ0. }
  rewrite (proj2 (Z.eqb_neq _ _)) by lia.
  destruct (inv_grow s l A (core_bytes nu) (Z.max 4096 nu) Hi) as [Hnone Hi']; [done|lia|done|].
  uwp_step. uwp_step. apply uwp_bind. unfold set_size, set_hdr. cbn [hdrs freep brk avail].
  assert (u32 (Z.max 4096 nu) = Z.max 4096 nu) as -> by (apply u32_small; lia).
  eapply (free_spec _ l _ (brk s)); [exact Hi'|apply lookup_insert_eq|].
  intros s' l' Hi2 Hlen (x & Hx & Hxs) Hkept Hb' Ha'. rewrite delete_insert_id in Hi2, Hkept by done. cbn in *.
  uwp_steps. eapply HQ; [done..|exists x; split; [done|lia]| |done|done].
  intros b n a Hb2 Ha2. rewrite (Hkept b n a Hb2 Ha2). apply lookup_insert_ne.
  destruct (inv_alloc _ _ _ _ Hi _ _ Hb2) as [(? & ? & ?) _]. cbn in *. lia.
Qed.

(** ** [malloc] *)

(** A part of the block [x] leaves the list. *)
Lemma inv_hand_out s l A x h f l' q nu nx : inv s l A → x ∈ l → 0 < nu → x.1 ≤ q → q + 16 * nu ≤ x.1 + 16 * x.2 →
  seg h ((base, 0) :: l') base → StronglySorted before ((base, 0) :: l') → f ∈ base :: l'.*1 →
  (∀ z, z ∈ l' → 0 < z.2 ∧ apart (q, nu) z ∧ ∃ z0, z0 ∈ l ∧ z.1 = z0.1 ∧ z.2 ≤ z0.2) →
  h !! q = Some (Header nx nu) → (∀ a n, A !! a = Some n → h !! a = hdrs s !! a) →
  inv (UM h f (brk s) (avail s)) l' (<[q := nu]> A).
Proof.
  intros Hi Hx Hnu Hq Hqx Hseg Hss Hf Hl' Hhq Hh. destruct (inv_free _ _ _ _ Hi x Hx) as (Hx0 & Hx1 & Hx2).
  assert (∀ a n, A !! a = Some n → apart (a, n) (q, nu)) as HA.
  { intros a n Ha. pose proof (inv_gap _ _ _ _ Hi a n x Ha Hx). destruct (inv_alloc _ _ _ _ Hi _ _ Ha) as [[? _] _]. unfold apart in *. cbn in *. lia. }
  split; cbn; [done|done| |done| | | |apply Hi|apply Hi].
  - intros z Hz. destruct (Hl' z Hz) as (? & _ & z0 & Hz0 & ? & ?). destruct (inv_free _ _ _ _ Hi z0 Hz0) as (? & ? & ?). unfold in_heap. cbn. lia.
  - intros a n [[<- <-]|[? Ha]]%lookup_insert_Some; unfold size, hd_at; cbn.
    + rewrite Hhq. unfold in_heap. cbn. lia.
    + destruct (inv_alloc _ _ _ _ Hi _ _ Ha) as [? Hsz]. by rewrite (Hh a n Ha).
  - intros a n b m [[<- <-]|[? Ha]]%lookup_insert_Some [[<- <-]|[? Hb]]%lookup_insert_Some Hne; [done| | |by apply (inv_apart _ _ _ _ Hi a n b m)].
    + specialize (HA b m Hb). unfold apart in *. lia.
    + by apply HA.
  - intros a n z [[<- <-]|[? Ha]]%lookup_insert_Some Hz; destruct (Hl' z Hz) as (? & ? & z0 & Hz0 & ? & ?); [done|].
    pose proof (inv_gap _ _ _ _ Hi a n z0 Ha Hz0). unfold apart in *. cbn in *. lia.
Qed.

(** What is on the list around a block that is taken. *)
Lemma around s l A m1 y x m2 : inv s l A → (base, 0) :: l = m1 ++ y :: x :: m2 →
  x ∈ l ∧ (∀ z, z ∈ m1 ++ [y] → before z x ∧ 0 ≤ z.2) ∧ (∀ z, z ∈ m2 → before x z) ∧ y ∈ (base, 0) :: l ∧
  (∀ z, z ∈ m1 ++ y :: m2 → z ≠ (base, 0) → z ∈ l ∧ apart x z) ∧
  ∃ t, m1 ++ [y] = (base, 0) :: t ∧ l = t ++ x :: m2.
Proof.
  intros Hi Hl. pose proof (inv_sorted _ _ _ _ Hi) as Hs. rewrite Hl, cons_middle, app_assoc in Hs. apply ss_app in Hs as (_ & Hs & H12).
  apply ss_cons in Hs as [_ Hx2].
  assert (∃ t, m1 ++ [y] = (base, 0) :: t ∧ l = t ++ x :: m2) as (t & Ht & Hlt).
  { rewrite cons_middle, app_assoc in Hl. destruct (m1 ++ [y]) as [|b t] eqn:Hb; [by destruct m1|]. cbn in Hl. injection Hl as <- ->. eauto. }
  assert (x ∈ l) as Hx by (rewrite Hlt; apply elem_of_app; right; left).
  assert (∀ z, z ∈ m1 ++ [y] → before z x ∧ 0 ≤ z.2) as Hz1.
  { intros z Hz. split; [apply H12; [done|left]|]. eapply (inv_above base s l A z Hi). rewrite Hl, cons_middle, app_assoc. apply elem_of_app. by left. }
  split_and!; [done..| | |by exists t].
  - rewrite Hl. apply elem_of_app. right. left.
  - intros z Hz Hne. assert (z ∈ (base, 0) :: l) as Hin.
    { rewrite Hl. apply elem_of_app in Hz as [?|[->|?]%elem_of_cons]; apply elem_of_app; [by left|right; left|right; right; by right]. }
    apply elem_of_cons in Hin as [?|Hin]; [done|]. split; [done|]. rewrite cons_middle, app_assoc in Hz. unfold apart.
    apply elem_of_app in Hz as [Hz|Hz]; [specialize (Hz1 z Hz)|specialize (Hx2 z Hz)]; unfold before in *; lia.
Qed.

(** Taking the whole of a block off the list. *)
Lemma inv_take_all s l A m1 y x m2 : inv s l A → (base, 0) :: l = m1 ++ y :: x :: m2 →
  ∃ l', inv (UM (<[y.1 := Header (ptr s x.1) y.2]> (hdrs s)) y.1 (brk s) (avail s)) l' (<[x.1 := x.2]> A).
Proof.
  intros Hi Hl. destruct (around s l A m1 y x m2 Hi Hl) as (Hx & Hz1 & Hz2 & Hy & Hap & t & Ht & Hlt).
  destruct (inv_free _ _ _ _ Hi x Hx) as (Hx0 & _ & _).
  assert (m1 ++ y :: m2 = (base, 0) :: t ++ m2) as Hl' by (rewrite cons_middle, app_assoc, Ht; done).
  pose proof (inv_seg _ _ _ _ Hi) as Hseg. rewrite Hl in Hseg. apply chain_app in Hseg as [Hs1 [_ Hs2]]. destruct Hs2 as [Hxh Hs2].
  pose proof (inv_sorted _ _ _ _ Hi) as Hs. rewrite Hl in Hs. pose proof Hs as (Hsm1 & Hsy & Hsx)%ss_app. apply ss_cons in Hsy as [[Hsm2 _]%ss_cons Hsy].
  exists (t ++ m2). assert (ptr s x.1 = next m2 base) as -> by (unfold ptr, hd_at; by rewrite Hxh).
  assert (y.1 ≠ x.1 ∧ ∀ z, z ∈ m2 → y.1 ≠ z.1) as [Hyx Hy2].
  { destruct (Hz1 y) as [Hb ?]; [apply elem_of_app; right; left|]. unfold before in *. split; [lia|]. intros z Hz. specialize (Hz2 z Hz). lia. }
  eapply (inv_hand_out s l A x _ _ _ _ _ (next m2 base)); [done|done|done|lia|lia|..]; rewrite <-?Hl'.
  - apply chain_app. split; [|split; [by rewrite lookup_insert_eq|]]; (eapply chain_frame; [|eassumption]); intros z Hz; apply lookup_insert_ne.
    + specialize (Hsx z y Hz ltac:(left)). assert (0 ≤ z.2) by (apply Hz1, elem_of_app; by left). unfold before in *. lia.
    + by apply Hy2.
  - apply ss_app. split_and!; [done| |].
    + apply ss_cons. split; [done|]. intros z Hz. apply Hsy. by right.
    + intros z w Hz Hw. apply Hsx; [done|]. apply elem_of_cons in Hw as [->|?]; [left|right; by right].
  - change (base :: (t ++ m2).*1) with (((base, 0) :: t ++ m2).*1). rewrite <-Hl', fmap_app. apply elem_of_app. right. left.
  - intros z Hz. assert (z ∈ l) as Hzl by (rewrite Hlt; apply elem_of_app in Hz as [?|?]; apply elem_of_app; [by left|right; by right]).
    destruct (inv_free _ _ _ _ Hi z Hzl) as (? & ? & ?). split_and!; [done| |by exists z].
    destruct x as [x1 x2]. apply Hap; [rewrite Hl'; by right|]. intros ->. cbn in *. lia.
  - rewrite lookup_insert_ne by done. exact Hxh.
  - intros a n Ha. apply lookup_insert_ne. apply not_eq_sym. by eapply (alloc_not_free base s l A a n y).
Qed.

(** Taking the tail of a block. *)
Lemma inv_take_tail s l A m1 y x m2 nu : inv s l A → (base, 0) :: l = m1 ++ y :: x :: m2 → 0 < nu < x.2 →
  let q := x.1 + 16 * (x.2 - nu) in
  ∃ l', inv (UM (<[q := Header (ptr s q) nu]> (<[x.1 := Header (ptr s x.1) (x.2 - nu)]> (hdrs s))) y.1 (brk s) (avail s)) l' (<[q := nu]> A).
Proof.
  intros Hi Hl Hnu q. destruct (around s l A m1 y x m2 Hi Hl) as (Hx & Hz1 & Hz2 & Hy & Hap & t & Ht & Hlt).
  destruct (inv_free _ _ _ _ Hi x Hx) as (Hx0 & Hxb & _).
  pose proof (inv_seg _ _ _ _ Hi) as Hseg. rewrite Hl, cons_middle, app_assoc in Hseg. apply chain_app in Hseg as [Hs1 [Hxh Hs2]].
  pose proof (inv_sorted _ _ _ _ Hi) as Hs. rewrite Hl, cons_middle, app_assoc in Hs. apply ss_app in Hs as (Hsm1 & Hsx & Hsb). apply ss_cons in Hsx as [Hsm2 Hsx].
  exists (t ++ (x.1, x.2 - nu) :: m2). assert (ptr s x.1 = next m2 base) as -> by (unfold ptr, hd_at; by rewrite Hxh).
  rewrite Ht in *.
  eapply (inv_hand_out s l A x _ _ _ q nu (ptr s q)); [done|done|lia|lia|lia|..].
  - change ((base, 0) :: t ++ ?r) with (((base, 0) :: t) ++ r). apply chain_app.
    split; [|split; [cbn; rewrite lookup_insert_ne, lookup_insert_eq by lia; done|]]; (eapply chain_frame; [|eassumption]); intros z Hz.
    + destruct (Hz1 z Hz) as [Hb ?]. unfold before in Hb. rewrite !lookup_insert_ne by lia. done.
    + specialize (Hz2 z Hz). unfold before in Hz2. rewrite !lookup_insert_ne by lia. done.
  - change ((base, 0) :: t ++ ?r) with (((base, 0) :: t) ++ r). apply ss_app. split_and!; [done| |].
    + apply ss_cons. split; [done|]. intros z Hz. specialize (Hsx z Hz). unfold before in *. cbn. lia.
    + intros z w Hz [->|Hw]%elem_of_cons; [|apply Hsb; [done|by right]]. by apply (Hsb z x Hz ltac:(left)).
  - change (base :: (t ++ ?r).*1) with ((((base, 0) :: t) ++ r).*1). rewrite fmap_app. apply elem_of_app. left. rewrite <-Ht, fmap_app. apply elem_of_app. right. left.
  - intros z [Hz|[->|Hz]%elem_of_cons]%elem_of_app.
    1,3: assert (z ∈ l) as Hzl by (rewrite Hlt; apply elem_of_app; first [by left|right; by right]);
      destruct (inv_free _ _ _ _ Hi z Hzl) as (? & ? & ?); split_and!; [done| |by exists z].
    + destruct (Hz1 z ltac:(by right)) as [Hb ?]. unfold before, apart in *. cbn. lia.
    + specialize (Hz2 z Hz). unfold before, apart in *. cbn. lia.
    + cbn. split_and!; [lia|unfold apart; cbn; lia|]. exists x. cbn. split_and!; [done|done|lia].
  - by rewrite lookup_insert_eq.
  - intros a n Ha. pose proof (alloc_not_free base s l A a n x Hi Ha ltac:(by right)).
    pose proof (inv_gap _ _ _ _ Hi a n x Ha Hx) as Hg. destruct (inv_alloc _ _ _ _ Hi _ _ Ha) as [[? _] _]. unfold apart in Hg. cbn in *.
    by rewrite !lookup_insert_ne by lia.
Qed.

(** Nothing that is handed out is inside a block of the list. *)
Lemma inside_outside s l A b n x a : inv s l A → A !! b = Some n → x ∈ l → b ≤ a < b + 16 * n → x.1 ≤ a < x.1 + 16 * x.2 → False.
Proof. intros Hi Hb Hx Ha Hxa. pose proof (inv_gap _ _ _ _ Hi b n x Hb Hx) as Hg. unfold apart in Hg. cbn in *. lia. Qed.

(** The predecessor of a block, in the circle, is its predecessor in the list. *)
Lemma predecessor s l A y x : inv s l A → y ∈ base :: l.*1 → ptr s y = x.1 → x ∈ l →
  ∃ m1 y' m2, (base, 0) :: l = m1 ++ y' :: x :: m2 ∧ y'.1 = y.
Proof.
  intros Hi Hy Hp Hx. change (base :: l.*1) with ((base, 0) :: l).*1 in Hy. apply list_elem_of_fmap in Hy as (y' & -> & Hin).
  destruct (list_elem_of_split _ _ Hin) as (m1 & t & Hl). destruct (inv_ptr base s l A m1 y' t Hi Hl) as [Hp' _].
  destruct (inv_free _ _ _ _ Hi x Hx) as (? & ? & _). destruct t as [|x' m2]; cbn in Hp'; [lia|].
  exists m1, y', m2. split; [|done]. rewrite Hl. do 3 f_equal.
  destruct (inv_ptr base s l A (m1 ++ [y']) x' m2 Hi) as [_ H1]; [by rewrite Hl, <-app_assoc|].
  destruct (inv_hdr base s l A x Hi) as [H2 _]; [by right|]. destruct x, x'; cbn in *. congruence.
Qed.

(** The iteration that finds a block. *)
Lemma malloc_take s l A y x nu fuel Q E : inv s l A → y ∈ base :: l.*1 → ptr s y = x.1 → x ∈ l → 0 < nu → nu ≤ x.2 →
  (∀ s' l' q, inv s' l' (<[q := nu]> A) → A !! q = None → payloads_kept A s s' → brk s' = brk s → avail s' = avail s → Q (q + 16) s') →
  uwp (malloc_loop (S fuel) nu y x.1) s Q E.
Proof.
  intros Hi Hy Hp Hx Hnu Hle HQ. destruct (predecessor s l A y x Hi Hy Hp Hx) as (m1 & y' & m2 & Hl & <-).
  pose proof (inv_free _ _ _ _ Hi x Hx) as Hxh. pose proof Hxh as (Hx0 & _ & _). pose proof (inv_u32 s l A x Hi Hxh) as Hux.
  destruct (inv_hdr base s l A x Hi) as [Hsx _]; [by right|].
  assert (y' ∈ (base, 0) :: l) as Hy' by (rewrite Hl; apply elem_of_app; right; left). destruct (inv_hdr base s l A y' Hi Hy') as [Hsy _].
  assert (∀ q, x.1 ≤ q < x.1 + 16 * x.2 → A !! q = None) as Hnone.
  { intros q Hq. destruct (A !! q) as [n|] eqn:Ha; [|done]. destruct (inv_alloc _ _ _ _ Hi _ _ Ha) as [[? _] _]. cbn in *.
    exfalso. eapply (inside_outside s l A q n x q); [done..|lia|lia]. }
  cbn [malloc_loop]. uwp_step. uwp_step. rewrite Hsx, (proj2 (Z.geb_le x.2 nu)) by done. destruct (Z.eqb_spec x.2 nu) as [<-|Hne].
  - destruct (inv_take_all s l A m1 y' x m2 Hi Hl) as [l' Hi']. uwp_steps. unfold set_freep, set_ptr, set_hdr. cbn. rewrite Hsy.
    eapply HQ; [exact Hi'|apply Hnone; lia| |done|done]. intros b n a Hb Ha. cbn. apply lookup_insert_ne. apply not_eq_sym. by apply (list_outside s l A b n y' a).
  - destruct (inv_take_tail s l A m1 y' x m2 nu Hi Hl) as [l' Hi']; [lia|]. uwp_steps. unfold set_freep, set_size, set_hdr. cbn [hdrs freep brk avail].
    assert (u32 (x.2 - nu) = x.2 - nu) as Hu by (apply u32_small; pose proof (inv_top _ _ _ _ Hi); destruct Hxh as (?&?&?); lia).
    assert (u32 nu = nu) as Hun by (apply u32_small; pose proof (inv_top _ _ _ _ Hi); destruct Hxh as (?&?&?); lia).
    set (q := x.1 + 16 * (x.2 - nu)) in *. rewrite Hu, Hun. unfold ptr at 1, hd_at. cbn [hdrs]. rewrite lookup_insert_ne by lia.
    change (h_ptr (default (Header 0 0) (hdrs s !! q))) with (ptr s q).
    eapply HQ; [exact Hi'|apply Hnone; lia| |done|done]. intros b n a Hb Ha. cbn.
    pose proof (list_outside s l A b n x a Hi Hb ltac:(by right) Ha).
    rewrite !lookup_insert_ne; [done|done|]. intros <-. eapply (inside_outside s l A b n x q); [done..|lia|lia].
Qed.

(** The nodes that the pointers lead to. *)
Fixpoint linked (s : um) (y : Z) (vs : list block) (stop : Z) : Prop :=
  match vs with [] => ptr s y = stop | v :: vs => ptr s y = v.1 ∧ linked s v.1 vs stop end.

Lemma seg_linked s t : ∀ y stop, seg (hdrs s) (y :: t) stop → linked s y.1 t stop.
Proof.
  induction t as [|v t IH]; intros y stop [Hy Ht]; cbn; unfold ptr, hd_at; rewrite Hy; [done|]. split; [done|]. by apply IH.
Qed.

Lemma linked_app s v ws stop t : ∀ y, linked s y t v.1 → linked s v.1 ws stop → linked s y (t ++ v :: ws) stop.
Proof. induction t as [|u t IH]; cbn; [done|]. intros y [? ?] ?. split; [done|]. by apply IH. Qed.

(** The circle from [freep] back to it. *)
Lemma circle s l A : inv s l A → ∃ f vs, f.1 = freep s ∧ f ∈ (base, 0) :: l ∧ linked s (freep s) vs (freep s) ∧
  (∀ v, v ∈ vs → v ∈ (base, 0) :: l ∧ v.1 ≠ freep s) ∧ (∀ v, v ∈ l → v = f ∨ v ∈ vs) ∧ length vs = length l.
Proof.
  intros Hi. pose proof (inv_freep _ _ _ _ Hi) as Hf. change (base :: l.*1) with ((base, 0) :: l).*1 in Hf.
  apply list_elem_of_fmap in Hf as (f & Hf & Hin). rewrite Hf. pose proof Hin as (l1 & l2 & Hl)%list_elem_of_split.
  assert (NoDup ((base, 0) :: l).*1) as Hnd.
  { apply ss_nodup; [apply Hi|]. intros x Hx. by apply (inv_above base s l A x). }
  assert (∀ v, v ∈ l2 ++ l1 → v ∈ (base, 0) :: l ∧ v.1 ≠ f.1) as Hvs.
  { intros v Hv. split; [rewrite Hl; apply elem_of_app in Hv as [?|?]; apply elem_of_app; [right; by right|by left]|].
    rewrite Hl, fmap_app in Hnd. cbn in Hnd. apply NoDup_app in Hnd as (_ & Hd & [Hn2 _]%NoDup_cons).
    intros Heq. apply elem_of_app in Hv as [Hv|Hv]; [apply Hn2|apply (Hd v.1); [|rewrite Heq; left]]; rewrite <-?Heq; apply list_elem_of_fmap; eauto. }
  exists f, (l2 ++ l1). split_and!; [done..| |exact Hvs| |].
  - pose proof (inv_seg _ _ _ _ Hi) as Hseg. rewrite Hl in Hseg. apply chain_app in Hseg as [H1 H2]. cbn [next] in H1. apply seg_linked in H2.
    destruct l1 as [|b l1]; [|injection Hl as <- _; apply linked_app; [done|by apply seg_linked in H1]].
    injection Hl as <- _. by rewrite app_nil_r.
  - intros v Hv. assert (v ∈ (base, 0) :: l) as Hv' by by right. rewrite Hl in Hv'. rewrite elem_of_app.
    apply elem_of_app in Hv' as [?|[->|?]%elem_of_cons]; auto.
  - apply (f_equal length) in Hl. rewrite length_app in *. cbn in Hl. lia.
Qed.

(** The scan of the circle, up to a block that is large enough or to [freep]. *)
Lemma malloc_scan s l A nu Q E : inv s l A → 0 < nu →
  (∀ s' l' q, inv s' l' (<[q := nu]> A) → A !! q = None → payloads_kept A s s' → brk s' = brk s → avail s' = avail s → Q (q + 16) s') →
  ∀ vs y fuel, y ∈ base :: l.*1 → linked s y vs (freep s) → (∀ v, v ∈ vs → v ∈ (base, 0) :: l ∧ v.1 ≠ freep s) → (length vs < fuel)%nat →
  ((∀ v, v ∈ vs → v.2 < nu) → ∀ y', y' ∈ base :: l.*1 → ptr s y' = freep s → uwp (malloc_loop (fuel - length vs) nu y' (freep s)) s Q E) →
  uwp (malloc_loop fuel nu y (ptr s y)) s Q E.
Proof.
  intros Hi Hnu HQ. induction vs as [|v vs IH]; intros y fuel Hy Hlk Hvs Hf Hend.
  - cbn in Hlk. rewrite Hlk. cbn in Hend. rewrite Nat.sub_0_r in Hend. apply Hend; [by intros ? ?%elem_of_nil|done|done].
  - destruct Hlk as [Hp Hlk]. destruct (Hvs v ltac:(left)) as [Hv Hne]. destruct fuel as [|fuel]; [cbn in Hf; lia|].
    destruct (inv_hdr base s l A v Hi Hv) as [Hsz _]. rewrite Hp. destruct (decide (nu ≤ v.2)) as [Hle|Hgt].
    + eapply malloc_take; [done..| |done|done|done]. apply elem_of_cons in Hv as [->|?]; [cbn in Hle; lia|done].
    + cbn [malloc_loop]. uwp_step. uwp_step. rewrite Hsz, Z.geb_leb, (proj2 (Z.leb_gt nu v.2)), (proj2 (Z.eqb_neq v.1 _)) by lia || done.
      apply IH; [change (base :: l.*1) with ((base, 0) :: l).*1; apply list_elem_of_fmap; eauto|done|intros; apply Hvs; by right|cbn in Hf; lia|].
      intros Hsm. apply Hend. intros w [->|Hw]%elem_of_cons; [lia|by apply Hsm].
Qed.

(** From [freep], with room for two turns of the circle. *)
Lemma malloc_loop_spec s l A nu fuel Q E : inv s l A → 0 < nu → 16 * nu < 2147483648 → (2 * length l + 4 ≤ fuel)%nat →
  (avail s < core_bytes nu → (∀ x, x ∈ l → x.2 < nu) → Q 0 s) →
  (∀ s' l' q, inv s' l' (<[q := nu]> A) → A !! q = None → payloads_kept A s s' → Q (q + 16) s') →
  uwp (malloc_loop fuel nu (freep s) (ptr s (freep s))) s Q E.
Proof.
  intros Hi Hnu Hlt Hf HQ0 HQ. destruct (circle s l A Hi) as (f & vs & Hff & Hfin & Hlk & Hvs & Hall & Hlen).
  eapply (malloc_scan s l A nu); [done|done|eauto|apply Hi|exact Hlk|done|lia|]. intros Hsm y' Hy' Hp'.
  destruct (fuel - length vs)%nat as [|k] eqn:Hk; [lia|]. rewrite <-Hff. destruct (decide (nu ≤ f.2)) as [Hle|Hgt].
  { eapply malloc_take; [done|done|congruence| |done|done|eauto]. apply elem_of_cons in Hfin as [->|?]; [cbn in Hle; lia|done]. }
  destruct (inv_hdr base s l A f Hi Hfin) as [Hsz _]. cbn [malloc_loop]. uwp_step. uwp_step.
  rewrite Hsz, Z.geb_leb, (proj2 (Z.leb_gt nu f.2)) by lia. rewrite Hff, Z.eqb_refl. apply uwp_bind.
  assert (∀ x, x ∈ l → x.2 < nu) as Hsmall by (intros x Hx; destruct (Hall x Hx) as [->|?]; [lia|auto]).
  apply (morecore_spec s l A); [done..|intros; rewrite Z.eqb_refl; uwp_step; auto|].
  intros s' l' Hav Hi' Hlen' (x & Hx & Hxs) Hkept Hb Ha. pose proof (inv_freep _ _ _ _ Hi') as Hfp.
  destruct (circle s' l' A Hi') as (f' & vs' & Hff' & Hfin' & Hlk' & Hvs' & Hall' & Hlen2).
  destruct (inv_above base s' l' A f' Hi' Hfin') as [Hpos _]. rewrite (proj2 (Z.eqb_neq _ 0)) by lia. uwp_step. uwp_step.
  assert (∀ s'' l'' q, inv s'' l'' (<[q := nu]> A) → A !! q = None → payloads_kept A s' s'' → brk s'' = brk s' → avail s'' = avail s' → Q (q + 16) s'') as HQ'
    by (intros; eapply HQ; [done..|by eapply payloads_kept_trans]).
  eapply (malloc_scan s' l' A nu); [done|done|exact HQ'|done|exact Hlk'|done|lia|]. intros Hsm' z Hz Hpz.
  destruct (Hall' x Hx) as [->|Hin]; [|specialize (Hsm' x Hin); lia]. destruct (k - length vs')%nat as [|k'] eqn:Hk'; [lia|].
  rewrite <-Hff'. eapply malloc_take; [done|done|congruence|done|done|done|exact HQ'].
Qed.

(** The allocator's state: before the first call, or with its list. *)
Definition heap (s : um) (A : allocs) : Prop :=
  (∃ l, inv s l A) ∨
  (freep s = 0 ∧ A = ∅ ∧ base + 16 ≤ brk s ∧ brk s + avail s < 68719476736 ∧ 0 ≤ avail s).

(** The units of a request. *)
Definition units (nbytes : Z) : Z := (nbytes + 15) / 16 + 1.

Lemma inv_init s : base + 16 ≤ brk s → brk s + avail s < 68719476736 → 0 ≤ avail s →
  inv (UM (<[base := Header base 0]> (hdrs s)) base (brk s) (avail s)) [] ∅.
Proof.
  intros. split; cbn; [by rewrite lookup_insert_eq|repeat constructor|by intros ? ?%elem_of_nil|left|done|done|done|done|done].
Qed.

Lemma heap_units n : 0 ≤ n ≤ 2147483616 → 0 < units n ∧ 16 * units n < 2147483648 ∧ n + 16 ≤ 16 * units n ∧ u32 ((u32 n + 16 - 1) / 16 + 1) = units n.
Proof.
  intros Hn. unfold units. pose proof (Z.div_mod (n + 15) 16 ltac:(lia)). pose proof (Z.mod_pos_bound (n + 15) 16 ltac:(lia)).
  split_and!; [lia..|]. rewrite (u32_small n) by lia. replace (n + 16 - 1) with (n + 15) by lia. apply u32_small. lia.
Qed.

Lemma malloc_spec s A n Q E : heap s A → 0 ≤ n ≤ 2147483616 →
  (∀ s', heap s' A → payloads_kept A s s' → avail s < core_bytes (units n) → Q 0 s') →
  (∀ s' q, heap s' (<[q := units n]> A) → A !! q = None → payloads_kept A s s' → Q (q + 16) s') →
  uwp (malloc base n) s Q E.
Proof.
  intros Hh Hn HQ0 HQ. destruct (heap_units n Hn) as (Hu0 & Hu1 & _ & Hu). unfold malloc. rewrite Hu. uwp_step. uwp_step. apply uwp_bind.
  destruct Hh as [[l Hi]|(Hf0 & -> & Hb & Ht & Ha)].
  - destruct (circle s l A Hi) as (f & _ & Hff & Hfin & _). destruct (inv_above base s l A f Hi Hfin) as [Hpos _].
    rewrite (proj2 (Z.eqb_neq _ 0)) by lia. unfold uwhen. uwp_step. uwp_step. uwp_step. pose proof (inv_length base s l A Hi).
    apply (malloc_loop_spec s l A); [done..|lia| |].
    + intros. apply HQ0; [by left; exists l|by intros ???|done].
    + intros s' l' q ? ? ?. apply HQ; [by left; exists l'|done|done].
  - rewrite (proj2 (Z.eqb_eq _ 0)) by done. unfold uwhen. uwp_steps.
    pose proof (inv_init s Hb Ht Ha) as Hi.
    assert (set_size base 0 (set_ptr base base (set_freep base s)) = UM (<[base := Header base 0]> (hdrs s)) base (brk s) (avail s)) as Hs.
    { unfold set_size, set_ptr, set_hdr, set_freep, ptr, hd_at. cbn. by rewrite lookup_insert_eq, insert_insert_eq. }
    rewrite Hs. pose proof (inv_length base _ _ _ Hi). apply (malloc_loop_spec _ [] ∅); [done..|cbn in *; lia| |].
    + intros. apply HQ0; [by left; eexists|done|done].
    + intros s' l' q ? ? ?. apply HQ; [by left; exists l'|done|done].
Qed.
End spec.
