(* ===== verification/UmallocTheorems.v ===== *)
(** * What the user-level allocator promises

    A program allocates, frees what it was given, writes into what it was given and
    moves the break up. Every such program sees disjoint blocks of the heap whose
    contents the allocator leaves alone; [malloc] gives memory unless the kernel
    refuses to; both functions return. The bound on a request is where the count of
    bytes that [morecore] passes to [sbrk] no longer fits an [int]. *)
From Stdlib Require Import ZArith Lia.
From stdpp Require Import prelude gmap relations.
From S2P Require Import Prelude User Umalloc.
Local Open Scope Z_scope.

(** The largest request whose units times 16 fit an [int]. *)
Definition max_request : Z := 2147483616.

(** What a program does: the state of the allocator and the blocks the program
    holds, by the address of their header, with their units. *)
Inductive astep (base : Z) : um * gmap Z Z → um * gmap Z Z → Prop :=
  | a_malloc s A n p s' : 0 ≤ n ≤ max_request → malloc base n s = URet p s' →
      astep base (s, A) (s', if p =? 0 then A else <[p - 16 := units n]> A)
  | a_free s A b n s' : A !! b = Some n → free (b + 16) s = URet tt s' →
      astep base (s, A) (s', delete b A)
  | a_write s A h : (∀ a, h !! a ≠ hdrs s !! a → ∃ b n, A !! b = Some n ∧ b < a < b + 16 * n) →
      astep base (s, A) (UM h (freep s) (brk s) (avail s), A)
  | a_sbrk s A k : 0 ≤ k ≤ avail s →
      astep base (s, A) (UM (hdrs s) (freep s) (brk s + k) (avail s - k), A).

(** A process that has not allocated: the static header lies below the heap. *)
Definition fresh (base : Z) (s : um) : Prop :=
  0 < base ∧ freep s = 0 ∧ base + 16 ≤ brk s ∧ brk s + avail s < 68719476736 ∧ 0 ≤ avail s.

Section safe.
Context (base : Z) (Hbase : 0 < base).

Lemma inv_user_write s l A h : inv base s l A → (∀ a, h !! a ≠ hdrs s !! a → ∃ b n, A !! b = Some n ∧ b < a < b + 16 * n) →
  inv base (UM h (freep s) (brk s) (avail s)) l A.
Proof.
  intros Hi Hw.
  assert (∀ x, x ∈ (base, 0) :: l → h !! x.1 = hdrs s !! x.1) as Hl.
  { intros x Hx. destruct (decide (h !! x.1 = hdrs s !! x.1)) as [|Hne]; [done|]. destruct (Hw _ Hne) as (b & n & Hb & Ha).
    by destruct (list_outside base s l A b n x x.1 Hi Hb Hx Ha). }
  assert (∀ c m, A !! c = Some m → h !! c = hdrs s !! c) as HA.
  { intros c m Hc. destruct (decide (h !! c = hdrs s !! c)) as [|Hne]; [done|]. destruct (Hw _ Hne) as (b & n & Hb & Ha).
    by destruct (alloc_outside base s l A b n c m c Hi Hb Hc ltac:(lia) Ha). }
  split; cbn; try apply Hi.
  - change (seg h ((base, 0) :: l) base). eapply chain_frame; [exact Hl|]. apply Hi.
  - intros a n Ha. destruct (inv_alloc _ _ _ _ Hi _ _ Ha) as [? Hsz]. split; [done|]. unfold size, hd_at in *. cbn. by rewrite (HA a n).
Qed.

Lemma inv_sbrk s l A k : inv base s l A → 0 ≤ k ≤ avail s → inv base (UM (hdrs s) (freep s) (brk s + k) (avail s - k)) l A.
Proof.
  intros Hi Hk. split; cbn; try apply Hi.
  - intros x Hx. destruct (inv_free _ _ _ _ Hi x Hx) as (? & ? & ?). unfold in_heap. cbn. lia.
  - intros a n Ha. destruct (inv_alloc _ _ _ _ Hi _ _ Ha) as [(? & ? & ?) ?]. unfold in_heap. cbn in *. split; [lia|done].
  - destruct (inv_top _ _ _ _ Hi). lia.
  - pose proof (inv_brk _ _ _ _ Hi). lia.
Qed.

Lemma heap_block s A a n : heap base s A → A !! a = Some n → in_heap base s (a, n) ∧ size s a = n.
Proof. intros [[l Hi]|(_ & -> & _)] Ha; [by apply (inv_alloc _ _ _ _ Hi)|done]. Qed.

Lemma heap_apart s A a n b m : heap base s A → A !! a = Some n → A !! b = Some m → a ≠ b → apart (a, n) (b, m).
Proof. intros [[l Hi]|(_ & -> & _)] Ha; [by apply (inv_apart _ _ _ _ Hi)|done]. Qed.

Lemma heap_free s A a n : heap base s A → A !! a = Some n →
  ∃ s', free (a + 16) s = URet tt s' ∧ heap base s' (delete a A) ∧ payloads_kept (delete a A) s s'.
Proof.
  intros [[l Hi]|(_ & -> & _)] Ha; [|done].
  assert (uwp (free (a + 16)) s (λ _ s', heap base s' (delete a A) ∧ payloads_kept (delete a A) s s') (λ _ _, False)) as H.
  { eapply (free_spec base); [done..|]. intros s' l' ? _ _ ? _ _. split; [left; by exists l'|done]. }
  apply uwp_URet in H as ([] & s' & ? & ?). eauto.
Qed.

Lemma heap_malloc s A n : heap base s A → 0 ≤ n ≤ max_request →
  ∃ p s', malloc base n s = URet p s' ∧ payloads_kept A s s' ∧ heap base s' (if p =? 0 then A else <[p - 16 := units n]> A) ∧
    ((p = 0 ∧ avail s < core_bytes (units n)) ∨ (p ≠ 0 ∧ A !! (p - 16) = None)).
Proof.
  intros Hh Hn.
  assert (uwp (malloc base n) s (λ p s', payloads_kept A s s' ∧ heap base s' (if p =? 0 then A else <[p - 16 := units n]> A) ∧
    ((p = 0 ∧ avail s < core_bytes (units n)) ∨ (p ≠ 0 ∧ A !! (p - 16) = None))) (λ _ _, False)) as H.
  { apply (malloc_spec base Hbase s A); [done|done| |].
    - intros s' ? ? ?. split_and!; [done|done|by left].
    - intros s' q Hh' Hq Hk. destruct (heap_block s' _ q (units n) Hh' (lookup_insert_eq _ _ _)) as [(_ & ? & _) _]. cbn in *.
      replace (q + 16 - 16) with q by lia. rewrite (proj2 (Z.eqb_neq _ 0)) by lia. split_and!; [done|done|right; split; [lia|done]]. }
  apply uwp_URet in H as (p & s' & ? & ?). eauto.
Qed.

Lemma astep_heap c c' : astep base c c' → heap base c.1 c.2 → heap base c'.1 c'.2.
Proof.
  intros [s A n p s' Hn Hm|s A b n s' Hb Hf|s A h Hw|s A k Hk] Hh; cbn [fst snd] in *.
  - destruct (heap_malloc s A n Hh Hn) as (p' & s2 & Hm' & _ & ? & _). rewrite Hm in Hm'. by injection Hm' as <- <-.
  - destruct (heap_free s A b n Hh Hb) as (s2 & Hf' & ? & _). rewrite Hf in Hf'. by injection Hf' as <-.
  - destruct Hh as [[l Hi]|(? & -> & ? & ?)]; [left; exists l; by apply inv_user_write|]. right. done.
  - destruct Hh as [[l Hi]|(? & -> & ? & ? & ?)]; [left; exists l; by apply inv_sbrk|]. right. cbn. split_and!; [done|done|lia..].
Qed.

Lemma reach_heap s0 c : fresh base s0 → rtc (astep base) (s0, ∅) c → heap base c.1 c.2.
Proof.
  intros (_ & ? & ? & ? & ?) Hr.
  assert (heap base (s0, ∅ : gmap Z Z).1 (s0, ∅ : gmap Z Z).2) as Hh by (right; done).
  revert Hh. induction Hr; eauto using astep_heap.
Qed.
End safe.


(** ** A process with a megabyte to be had *)
Module UmallocDemo.
Definition start : um := UM ∅ 0 4096 1000000.

(** The state after [malloc(10)]. *)
Definition after : um := match malloc 16 10 start with URet _ s => s | _ => start end.
Definition held : gmap Z Z := {[ 69600 := 2 ]}.

Lemma after_reached : rtc (astep 16) (start, ∅) (after, held).
Proof.
  eapply rtc_l; [|apply rtc_refl].
  assert (held = if 69616 =? 0 then ∅ else <[69616 - 16 := units 10]> ∅) as -> by (vm_compute; reflexivity).
  apply a_malloc; [unfold max_request; lia|]. vm_compute. reflexivity.
Qed.


(** A request of 4294967280 bytes: [nu * sizeof(Header)] is 0 as an [int], the break
    does not move, and the block that [malloc] gives lies beyond it. *)
Theorem malloc_huge : ∃ s', malloc 16 4294967280 start = URet 4112 s' ∧ brk s' = 4096.
Proof. eexists. vm_compute. split; reflexivity. Qed.
End UmallocDemo.
