(* ===== verification/Machine.v ===== *)
(** * The hart and the assembly code

    Registers, control registers and the translation of addresses of a RISC-V hart
    in supervisor mode, as far as the kernel uses them, and the code of
    kernel/trampoline.S, kernelvec.S, swtch.S and entry.S as lists of
    instructions; kernel/start.c, which sets the control registers up. *)
From Stdlib Require Import ZArith Lia.
From stdpp Require Import prelude gmap strings.
From S2P Require Import Prelude Bytes Str Riscv PhysMem Kalloc.

(** ** Registers *)

Module Reg.
Inductive reg :=
  ra | sp | gp | tp | t0 | t1 | t2 | s0 | s1 | a0 | a1 | a2 | a3 | a4 | a5 | a6 | a7
| s2 | s3 | s4 | s5 | s6 | s7 | s8 | s9 | s10 | s11 | t3 | t4 | t5 | t6.
Inductive csr :=
  mhartid | mstatus | mepc | medeleg | mideleg | mie | menvcfg | mcounteren | pmpaddr0 | pmpcfg0
| sstatus | sie | sepc | stvec | scause | stval | satp | sscratch | stimecmp | time.
End Reg.
Export Reg (reg, csr).

#[export] Instance reg_eq_dec : EqDecision reg.
Proof. solve_decision. Defined.
#[export] Instance csr_eq_dec : EqDecision csr.
Proof. solve_decision. Defined.

(** A register file, and how it changes. *)
Definition upd {A} `{EqDecision A} (f : A → Z) (x : A) (v : Z) : A → Z := λ y, if decide (y = x) then v else f y.

Record mach := Mach { m_reg : reg → Z; m_csr : csr → Z; m_mem : mem }.
Abbreviation HM := (M mach).

Definition SSTATUS_SPP : Z := Z.shiftl 1 8.
Definition SSTATUS_SPIE : Z := Z.shiftl 1 5.
Definition SSTATUS_SIE : Z := Z.shiftl 1 1.
Definition MSTATUS_MPP_MASK : Z := Z.shiftl 3 11.
Definition MSTATUS_MPP_S : Z := Z.shiftl 1 11.
Definition SIE_SEIE : Z := Z.shiftl 1 9.
Definition SIE_STIE : Z := Z.shiftl 1 5.
Definition SIE_SSIE : Z := Z.shiftl 1 1.
Definition MIE_STIE : Z := Z.shiftl 1 5.
Definition SATP_SV39 : Z := Z.shiftl 8 60.
Definition MAKE_SATP (pagetable : Z) : Z := Z.lor SATP_SV39 (Z.shiftr pagetable 12).

(** [x & ~bits] of 64 bits. *)
Definition clear (x bits : Z) : Z := Z.land x (u64 (Z.lnot bits)).

(** ** Translation *)

(** The Sv39 walk of the tables from [pt] at [level]: the entry of the page. *)
Fixpoint sv39 (level : nat) (m : mem) (pt va : Z) : option Z :=
  let pte := ld64 m (pt + 8 * PX (Z.of_nat level) va) in
  if negb (flag pte PTE_V) then None else
  if flag pte PTE_R || flag pte PTE_X then (if decide (level = O) then Some pte else None)
  else match level with O => None | S level => sv39 level m (PTE2PA pte) va end.

(** Supervisor mode reads what is readable, writes what is writable, and touches
    no page of the user. Large pages and negative addresses are not used. *)
Definition translate (m : mem) (satp va : Z) (write : bool) : option Z :=
  if Z.shiftr satp 60 =? 0 then Some va else
  if negb ((Z.shiftr satp 60 =? 8) && (va <? MAXVA)) then None else
  pte ← sv39 2 m (Z.shiftl (Z.land satp (2 ^ 44 - 1)) 12) va;
  if flag pte (if write then PTE_W else PTE_R) && negb (flag pte PTE_U) then Some (PTE2PA pte + va mod 4096) else None.

(** ** Instructions *)
Inductive instr :=
| Sd (r : reg) (off : Z) (base : reg)
| Ld (r : reg) (off : Z) (base : reg)
| Li (r : reg) (v : Z)
| Addi (rd rs : reg) (imm : Z)
| Add (rd r1 r2 : reg)
| Mul (rd r1 r2 : reg)
| Csrw (c : csr) (r : reg)
| Csrr (r : reg) (c : csr)
| Sfence
| Jr (r : reg)
| Call (f : string)
| Sret.

(** Where control goes: a jump, a call and the code after it, the end of the code,
    or [sret], to user mode or not. *)
Inductive ctrl := Jump (pc : Z) | Called (f : string) (rest : list instr) | Fell | Back (pc : Z) (user : bool).

Definition setreg (r : reg) (v : Z) : HM unit := modify (λ s, Mach (upd (m_reg s) r v) (m_csr s) (m_mem s)).
Definition setcsr (c : csr) (v : Z) : HM unit := modify (λ s, Mach (m_reg s) (upd (m_csr s) c v) (m_mem s)).
Definition address (base : reg) (off : Z) (write : bool) : HM Z :=
  s ← mget;
  mnth (translate (m_mem s) (m_csr s Reg.satp) (u64 (m_reg s base + off)) write).

(** [sstatus] after [sret]: the interrupts are as they were before the trap. *)
Definition sret_status (x : Z) : Z :=
  let x' := Z.lor (clear x (Z.lor SSTATUS_SPP SSTATUS_SIE)) SSTATUS_SPIE in
  if flag x SSTATUS_SPIE then Z.lor x' SSTATUS_SIE else x'.

(** [sstatus] after a trap from user mode: the interrupts are off. *)
Definition trap_status (x : Z) : Z :=
  let x' := clear x (Z.lor SSTATUS_SPP (Z.lor SSTATUS_SPIE SSTATUS_SIE)) in
  if flag x SSTATUS_SIE then Z.lor x' SSTATUS_SPIE else x'.

Fixpoint run (l : list instr) : HM ctrl :=
  match l with
  | [] => mret Fell
  | Sd r off base :: l =>
      a ← address base off true;
      modify (λ s, Mach (m_reg s) (m_csr s) (st64 (m_mem s) a (m_reg s r))) ;; run l
  | Ld r off base :: l =>
      a ← address base off false;
      s ← mget;
      setreg r (ld64 (m_mem s) a) ;; run l
  | Li r v :: l => setreg r v ;; run l
  | Addi rd rs imm :: l => s ← mget; setreg rd (u64 (m_reg s rs + imm)) ;; run l
  | Add rd r1 r2 :: l => s ← mget; setreg rd (u64 (m_reg s r1 + m_reg s r2)) ;; run l
  | Mul rd r1 r2 :: l => s ← mget; setreg rd (u64 (m_reg s r1 * m_reg s r2)) ;; run l
  | Csrw c r :: l => s ← mget; setcsr c (m_reg s r) ;; run l
  | Csrr r c :: l => s ← mget; setreg r (m_csr s c) ;; run l
  | Sfence :: l => run l
  | Jr r :: l => s ← mget; mret (Jump (m_reg s r))
  | Call f :: l => mret (Called f l)
  | Sret :: l =>
      s ← mget;
      let x := m_csr s Reg.sstatus in
      setcsr Reg.sstatus (sret_status x) ;;
      mret (Back (m_csr s Reg.sepc) (negb (flag x SSTATUS_SPP)))
  end.

(** ** The assembly code *)
Section code.
Import Reg.

(** kernel/trampoline.S *)
Definition uservec : list instr :=
  [Csrw sscratch a0; Li a0 TRAPFRAME;
   Sd ra 40 a0; Sd sp 48 a0; Sd gp 56 a0; Sd tp 64 a0; Sd t0 72 a0; Sd t1 80 a0; Sd t2 88 a0; Sd s0 96 a0; Sd s1 104 a0;
   Sd a1 120 a0; Sd a2 128 a0; Sd a3 136 a0; Sd a4 144 a0; Sd a5 152 a0; Sd a6 160 a0; Sd a7 168 a0;
   Sd s2 176 a0; Sd s3 184 a0; Sd s4 192 a0; Sd s5 200 a0; Sd s6 208 a0; Sd s7 216 a0; Sd s8 224 a0; Sd s9 232 a0;
   Sd s10 240 a0; Sd s11 248 a0; Sd t3 256 a0; Sd t4 264 a0; Sd t5 272 a0; Sd t6 280 a0;
   Csrr t0 sscratch; Sd t0 112 a0;
   Ld sp 8 a0; Ld tp 32 a0; Ld t0 16 a0; Ld t1 0 a0;
   Sfence; Csrw satp t1; Sfence; Jr t0].

Definition userret : list instr :=
  [Sfence; Csrw satp a0; Sfence; Li a0 TRAPFRAME;
   Ld ra 40 a0; Ld sp 48 a0; Ld gp 56 a0; Ld tp 64 a0; Ld t0 72 a0; Ld t1 80 a0; Ld t2 88 a0; Ld s0 96 a0; Ld s1 104 a0;
   Ld a1 120 a0; Ld a2 128 a0; Ld a3 136 a0; Ld a4 144 a0; Ld a5 152 a0; Ld a6 160 a0; Ld a7 168 a0;
   Ld s2 176 a0; Ld s3 184 a0; Ld s4 192 a0; Ld s5 200 a0; Ld s6 208 a0; Ld s7 216 a0; Ld s8 224 a0; Ld s9 232 a0;
   Ld s10 240 a0; Ld s11 248 a0; Ld t3 256 a0; Ld t4 264 a0; Ld t5 272 a0; Ld t6 280 a0;
   Ld a0 112 a0; Sret].

(** kernel/swtch.S; [ret] jumps to [ra]. *)
Definition swtch : list instr :=
  [Sd ra 0 a0; Sd sp 8 a0; Sd s0 16 a0; Sd s1 24 a0; Sd s2 32 a0; Sd s3 40 a0; Sd s4 48 a0; Sd s5 56 a0; Sd s6 64 a0;
   Sd s7 72 a0; Sd s8 80 a0; Sd s9 88 a0; Sd s10 96 a0; Sd s11 104 a0;
   Ld ra 0 a1; Ld sp 8 a1; Ld s0 16 a1; Ld s1 24 a1; Ld s2 32 a1; Ld s3 40 a1; Ld s4 48 a1; Ld s5 56 a1; Ld s6 64 a1;
   Ld s7 72 a1; Ld s8 80 a1; Ld s9 88 a1; Ld s10 96 a1; Ld s11 104 a1;
   Jr ra].

(** kernel/kernelvec.S *)
Definition kernelvec : list instr :=
  [Addi sp sp (-256);
   Sd ra 0 sp; Sd sp 8 sp; Sd gp 16 sp; Sd tp 24 sp; Sd t0 32 sp; Sd t1 40 sp; Sd t2 48 sp; Sd a0 72 sp; Sd a1 80 sp;
   Sd a2 88 sp; Sd a3 96 sp; Sd a4 104 sp; Sd a5 112 sp; Sd a6 120 sp; Sd a7 128 sp; Sd t3 216 sp; Sd t4 224 sp;
   Sd t5 232 sp; Sd t6 240 sp;
   Call "kerneltrap";
   Ld ra 0 sp; Ld sp 8 sp; Ld gp 16 sp; Ld t0 32 sp; Ld t1 40 sp; Ld t2 48 sp; Ld a0 72 sp; Ld a1 80 sp;
   Ld a2 88 sp; Ld a3 96 sp; Ld a4 104 sp; Ld a5 112 sp; Ld a6 120 sp; Ld a7 128 sp; Ld t3 216 sp; Ld t4 224 sp;
   Ld t5 232 sp; Ld t6 240 sp;
   Addi sp sp 256; Sret].

(** kernel/entry.S; [stack0] is in kernel/start.c. *)
Definition entry (stack0 : Z) : list instr :=
  [Li sp stack0; Li a0 (1024 * 4); Csrr a1 mhartid; Addi a1 a1 1; Mul a0 a0 a1; Add sp sp a0; Call "start"].

(** ** kernel/start.c *)

Definition r_csr (c : csr) : HM Z := gets (λ s, m_csr s c).
Definition w_csr (c : csr) (v : Z) : HM unit := setcsr c v.

Definition timerinit : HM unit :=
  x ← r_csr mie; w_csr mie (Z.lor x MIE_STIE) ;;
  x ← r_csr menvcfg; w_csr menvcfg (Z.lor x (Z.shiftl 1 63)) ;;
  x ← r_csr mcounteren; w_csr mcounteren (Z.lor x 2) ;;
  x ← r_csr time; w_csr stimecmp (u64 (x + 1000000)).

(** Where [mret] goes is in [mepc], and with which privilege in [mstatus]. *)
Definition start (main : Z) : HM unit :=
  x ← r_csr mstatus;
  let x := clear x MSTATUS_MPP_MASK in
  let x := Z.lor x MSTATUS_MPP_S in
  w_csr mstatus x ;;
  w_csr mepc main ;;
  w_csr satp 0 ;;
  w_csr medeleg 0xffff ;;
  w_csr mideleg 0xffff ;;
  x ← r_csr sie; w_csr sie (Z.lor (Z.lor (Z.lor x SIE_SEIE) SIE_STIE) SIE_SSIE) ;;
  w_csr pmpaddr0 0x3fffffffffffff ;;
  w_csr pmpcfg0 0xf ;;
  timerinit ;;
  id ← r_csr mhartid;
  setreg tp (u64 (s32 id)).
End code.
