(* ===== verification/Trap.v ===== *)
(** * System calls and traps: kernel/syscall.c, sysproc.c, trap.c, plic.c, start.c

    The handlers of the system calls on processes run on the state of
    kernel/proc.c with the table of mutexes; [sys_exec] of kernel/sysfile.c is
    here too, because it works on that state. The other handlers of
    kernel/sysfile.c, which Sysfile models on a state of its own, are an argument
    of the dispatch. [me] is the entry of [myproc()]. *)
From Stdlib Require Import ZArith Lia.
From stdpp Require Import prelude gmap strings.
From S2P Require Import Prelude Bytes Param Str Riscv PhysMem Kalloc Vm Spinlock Proc Mutex Exec Console Machine.

(** ** kernel/syscall.h *)
Definition SYS_fork : Z := 1.
Definition SYS_exit : Z := 2.
Definition SYS_wait : Z := 3.
Definition SYS_pipe : Z := 4.
Definition SYS_read : Z := 5.
Definition SYS_kill : Z := 6.
Definition SYS_exec : Z := 7.
Definition SYS_fstat : Z := 8.
Definition SYS_chdir : Z := 9.
Definition SYS_dup : Z := 10.
Definition SYS_getpid : Z := 11.
Definition SYS_sbrk : Z := 12.
Definition SYS_sleep : Z := 13.
Definition SYS_uptime : Z := 14.
Definition SYS_open : Z := 15.
Definition SYS_write : Z := 16.
Definition SYS_mknod : Z := 17.
Definition SYS_unlink : Z := 18.
Definition SYS_link : Z := 19.
Definition SYS_mkdir : Z := 20.
Definition SYS_close : Z := 21.
Definition SYS_freemem : Z := 22.
Definition SYS_lseek : Z := 23.
Definition SYS_chmod : Z := 24.
Definition SYS_mutex_create : Z := 25.
Definition SYS_mutex_lock : Z := 26.
Definition SYS_mutex_unlock : Z := 27.
Definition SYS_mutex_free : Z := 28.
Definition SYS_getprocs : Z := 29.

(** The processes, the mutexes, and what [printf] was called with. *)
Record sysst (F : Type) := SysSt { sy_k : kstate F; sy_mutex : mtable; sy_log : list (string * list karg) }.
Arguments SysSt {F}.
Arguments sy_k {F}.
Arguments sy_mutex {F}.
Arguments sy_log {F}.

(** The channel that is the address of [ticks]. *)
Definition ticks_chan : chan := Chan "ticks" 0.
Definition mutex_chan (id : Z) : chan := Chan "mutex" (Z.to_nat id).

Section code.
Context {F : Type} `{FileOps F} `{ExecOps F}.
Context (kend trampoline forkret_pc : Z) (me : nat).
Abbreviation KM := (M (kstate F)).
Abbreviation KS := (M (sysst F)).

Definition onp {A} (m : KM A) : KS A := lift sy_k (λ k s, SysSt k (sy_mutex s) (sy_log s)) m.
Definition onm {A} (m : M mtable A) : KS A := lift sy_mutex (λ t s, SysSt (sy_k s) t (sy_log s)) m.
Definition printk (fmt : string) (ap : list karg) : KS unit :=
  modify (λ s, SysSt (sy_k s) (sy_mutex s) (sy_log s ++ [(fmt, ap)])).

(** The registers of the trapframe. *)
Definition tf_get (off : Z) : KM Z := p ← getp me; onk (ldp (p_trapframe p + off)).
Definition tf_set (off v : Z) : KM unit := p ← getp me; onk (stp (p_trapframe p + off) v).

(** ** kernel/syscall.c *)

Definition fetchaddr (addr : Z) : KM (option Z) :=
  p ← getp me;
  if (addr >=? p_sz p) || (u64 (addr + 8) >? p_sz p) then mret None else
  '(bytes, r) ← onk (copyin (p_pagetable p) addr 8);
  if negb (r =? 0) then mret None else mret (Some (le_val bytes)).

(** What is stored in [buf], and the value returned. *)
Definition fetchstr (addr max : Z) : KM (list Z * Z) :=
  p ← getp me;
  '(buf, r) ← onk (copyinstr (p_pagetable p) addr max);
  if r <? 0 then mret (buf, -1) else
  n ← mnth (strlen (length buf) (list_ptr buf));
  mret (buf, Z.of_nat n).

Definition argraw (n : nat) : KM Z :=
  if (n <? 6)%nat then tf_get (TF_a0 + 8 * Z.of_nat n) else panic "argraw".
Definition argint (n : nat) : KM Z := a ← argraw n; mret (s32 a).
Definition argaddr (n : nat) : KM Z := argraw n.
Definition argstr (n : nat) (max : Z) : KM (list Z * Z) := addr ← argaddr n; fetchstr addr max.

(** ** kernel/sysproc.c *)

(** [None]: the call does not return to the process. *)
Definition sys_exit : KS (option Z) := n ← onp (argint 0); onp (exit me n) ;; mret None.
Definition sys_getpid : KS Z := p ← onp (getp me); mret (p_pid p).
Definition sys_fork : KS Z := onp (fork kend trampoline forkret_pc me).
Definition sys_wait : KS Z := p ← onp (argaddr 0); onp (wait kend me p).

Definition sys_sbrk : KS Z :=
  n ← onp (argint 0);
  p ← onp (getp me);
  let addr := p_sz p in
  r ← onp (growproc kend me n);
  if r <? 0 then mret (-1) else mret addr.

(** The loop, from the test on; it is entered again when the process is woken. *)
Definition sys_sleep_loop (ticks0 n : Z) : KS Z :=
  s ← mget;
  if u32 (ks_ticks (sy_k s) - ticks0) <? n then
    k ← onp (killed me);
    if negb (k =? 0) then mret (-1) else msleep ticks_chan
  else mret 0.

Definition sys_sleep : KS Z :=
  n ← onp (argint 0);
  let n := if n <? 0 then 0 else n in
  ticks0 ← gets (λ s, ks_ticks (sy_k s));
  sys_sleep_loop ticks0 n.

Definition sys_kill : KS Z := pid ← onp (argint 0); onp (kill pid).
Definition sys_uptime : KS Z := gets (λ s, ks_ticks (sy_k s)).
Definition sys_freemem : KS Z := onp (onk kalloc_free_memory).

(** [mutex_unlock] and [mutex_free] end with [wakeup(m)]. *)
Definition mwake (mutex_id r : Z) : KS Z :=
  if r <? 0 then mret r else onp (wakeup (Some me) (mutex_chan mutex_id)) ;; mret r.

Definition sys_mutex_create : KS Z := p ← onp (getp me); onm (mutex_create (p_pid p)).
Definition sys_mutex_lock : KS Z := id ← onp (argint 0); p ← onp (getp me); onm (mutex_lock (p_pid p) id).
Definition sys_mutex_unlock : KS Z :=
  id ← onp (argint 0); p ← onp (getp me); r ← onm (mutex_unlock (p_pid p) id); mwake id r.
Definition sys_mutex_free : KS Z :=
  id ← onp (argint 0); p ← onp (getp me); r ← onm (mutex_free (p_pid p) id); mwake id r.

(** ** [sys_exec] of kernel/sysfile.c *)

(** The loop that fetches the arguments, with [n] entries of [argv] left: the
    pages in [argv], and whether it ended with [break]. *)
Fixpoint fetch_args (n : nat) (uargv i : Z) (argv : list Z) : KM (list Z * bool) :=
  match n with
  | O => mret (argv, false)
  | S n =>
      r ← fetchaddr (u64 (uargv + 8 * i));
      match r with
      | None => mret (argv, false)
      | Some uarg =>
          if uarg =? 0 then mret (argv, true) else
          pg ← onk kalloc;
          if pg =? 0 then mret (argv, false) else
          '(bytes, r) ← fetchstr uarg PGSIZE;
          onk (modify (λ k, kset_mem (st_bytes (k_mem k) pg bytes) k)) ;;
          if r <? 0 then mret (argv ++ [pg], false) else fetch_args n uargv (i + 1) (argv ++ [pg])
      end
  end.

Definition free_args (argv : list Z) : KM unit := mfor argv (λ a, onk (kfree kend a)).

Definition sys_exec_k : KM Z :=
  uargv ← argaddr 1;
  '(path, r) ← argstr 0 MAXPATH;
  if r <? 0 then mret (-1) else
  '(argv, ok) ← fetch_args MAXARG uargv 0 [];
  if ok : bool then
    ret ← exec kend trampoline me (take (Z.to_nat r) path) argv;
    free_args argv ;;
    mret ret
  else free_args argv ;; mret (-1).
Definition sys_exec : KS Z := onp sys_exec_k.

(** ** The dispatch *)

(** [sys_getprocs] copies out what its buffer held: [junk]. *)
Context (junk : list Z) (file_call : Z → KS Z).

Definition ret (m : KS Z) : KS (option Z) := v ← m; mret (Some v).

Definition syscalls : list (Z * KS (option Z)) :=
  [(SYS_fork, ret sys_fork); (SYS_exit, sys_exit); (SYS_wait, ret sys_wait);
   (SYS_pipe, ret (file_call SYS_pipe)); (SYS_read, ret (file_call SYS_read)); (SYS_kill, ret sys_kill);
   (SYS_exec, ret sys_exec); (SYS_fstat, ret (file_call SYS_fstat)); (SYS_chdir, ret (file_call SYS_chdir));
   (SYS_dup, ret (file_call SYS_dup)); (SYS_getpid, ret sys_getpid); (SYS_sbrk, ret sys_sbrk);
   (SYS_sleep, ret sys_sleep); (SYS_uptime, ret sys_uptime); (SYS_open, ret (file_call SYS_open));
   (SYS_write, ret (file_call SYS_write)); (SYS_mknod, ret (file_call SYS_mknod));
   (SYS_unlink, ret (file_call SYS_unlink)); (SYS_link, ret (file_call SYS_link));
   (SYS_mkdir, ret (file_call SYS_mkdir)); (SYS_close, ret (file_call SYS_close)); (SYS_freemem, ret sys_freemem);
   (SYS_lseek, ret (file_call SYS_lseek)); (SYS_chmod, ret (file_call SYS_chmod));
   (SYS_mutex_create, ret sys_mutex_create); (SYS_mutex_lock, ret sys_mutex_lock);
   (SYS_mutex_unlock, ret sys_mutex_unlock); (SYS_mutex_free, ret sys_mutex_free);
   (SYS_getprocs, ret (a ← onp (argaddr 0); onp (sys_getprocs me junk a)))].

Definition syscall_of (num : Z) : option (KS (option Z)) := (λ c, snd (snd c)) <$> list_find (λ c, fst c = num) syscalls.

(** [false]: the process does not continue. *)
Definition syscall : KS bool :=
  a7 ← onp (tf_get TF_a7);
  let num := s32 a7 in
  match (if (0 <? num) && (num <? 30) then syscall_of num else None) with
  | Some f =>
      r ← f;
      match r with
      | Some v => onp (tf_set TF_a0 (u64 v)) ;; mret true
      | None => mret false
      end
  | None =>
      p ← onp (getp me);
      printk "%d %s: unknown sys call %d\n" [KNum (p_pid p); KStr (p_name p); KNum num] ;;
      onp (tf_set TF_a0 (u64 (-1))) ;;
      mret true
  end.
End code.

(** ** kernel/plic.c and kernel/trap.c *)

Definition UART0_IRQ : Z := 10.
Definition VIRTIO0_IRQ : Z := 1.
Definition PLIC_SENABLE (hart : Z) : Z := PLIC + 0x2080 + hart * 0x100.
Definition PLIC_SPRIORITY (hart : Z) : Z := PLIC + 0x201000 + hart * 0x2000.
Definition PLIC_SCLAIM (hart : Z) : Z := PLIC + 0x201004 + hart * 0x2000.

(** The interrupt controller, whose registers are 32 bits wide, and the two drivers
    that [devintr] calls, with the channels on which they call [wakeup]. *)
Class Devices (X : Type) := {
  plic_read : Z → X → Z * X;
  plic_write : Z → Z → X → X;
  dev_uartintr : M X (list chan);
  dev_virtio_disk_intr : M X (list chan)
}.

Record tst (F X : Type) := TSt { t_sys : sysst F; t_csr : csr → Z; t_tp : Z; t_dev : X }.
Arguments TSt {F X}.
Arguments t_sys {F X}.
Arguments t_csr {F X}.
Arguments t_tp {F X}.
Arguments t_dev {F X}.

(** A process in user mode: its registers and the address of its next instruction,
    and the rest of the machine. *)
Record ust (F X : Type) := USt { u_reg : reg → Z; u_pc : Z; u_t : tst F X }.
Arguments USt {F X}.
Arguments u_reg {F X}.
Arguments u_pc {F X}.
Arguments u_t {F X}.

(** How [usertrap] ends: it goes to user space with this page table, the process is
    gone, or it has given up the CPU and goes on with [usertrapret] when it is
    scheduled again. *)
Inductive resume := ToUser (satp : Z) | Gone | Yielded.

Section trap.
Context {F X : Type} `{FileOps F} `{ExecOps F} `{Devices X}.
Context (kend trampoline forkret_pc : Z) (me : nat) (junk : list Z) (file_call : Z → M (sysst F) Z).
(** The addresses of [kernelvec] and [usertrap], and of [uservec] from the start of
    the trampoline. *)
Context (kernelvec_pc usertrap_pc uservec_off : Z).
Abbreviation TM := (M (tst F X)).

Definition onsys {A} (m : M (sysst F) A) : TM A := lift t_sys (λ k s, TSt k (t_csr s) (t_tp s) (t_dev s)) m.
Definition ondev {A} (m : M X A) : TM A := lift t_dev (λ d s, TSt (t_sys s) (t_csr s) (t_tp s) d) m.
Definition onproc {A} (m : M (kstate F) A) : TM A := onsys (onp m).
Definition r_ (c : csr) : TM Z := gets (λ s, t_csr s c).
Definition w_ (c : csr) (v : Z) : TM unit := modify (λ s, TSt (t_sys s) (upd (t_csr s) c v) (t_tp s) (t_dev s)).

Definition cpuid : TM Z := gets (λ s, s32 (t_tp s)).
Definition intr_on : TM unit := x ← r_ Reg.sstatus; w_ Reg.sstatus (Z.lor x SSTATUS_SIE).
Definition intr_off : TM unit := x ← r_ Reg.sstatus; w_ Reg.sstatus (clear x SSTATUS_SIE).
Definition intr_get : TM bool := x ← r_ Reg.sstatus; mret (flag x SSTATUS_SIE).

Definition plic_set (a v : Z) : TM unit := ondev (modify (plic_write a v)).

Definition plicinit : TM unit :=
  plic_set (PLIC + UART0_IRQ * 4) 1 ;;
  plic_set (PLIC + VIRTIO0_IRQ * 4) 1.

Definition plicinithart : TM unit :=
  hart ← cpuid;
  plic_set (PLIC_SENABLE hart) (Z.lor (Z.shiftl 1 UART0_IRQ) (Z.shiftl 1 VIRTIO0_IRQ)) ;;
  plic_set (PLIC_SPRIORITY hart) 0.

Definition plic_claim : TM Z :=
  hart ← cpuid;
  irq ← ondev (λ d, let '(v, d) := plic_read (PLIC_SCLAIM hart) d in Ret v d);
  mret (s32 irq).

Definition plic_complete (irq : Z) : TM unit :=
  hart ← cpuid;
  plic_set (PLIC_SCLAIM hart) (u32 irq).

Definition trapinithart : TM unit := w_ Reg.stvec kernelvec_pc.

(** [cur] is [myproc()], if there is one. *)
Definition wake (cur : option nat) (cs : list chan) : TM unit := onproc (wakeups cur cs).

Definition clockintr (cur : option nat) : TM unit :=
  id ← cpuid;
  mwhen (id =? 0)
    (onproc (modify (λ s, KState (ks_k s) (ks_f s) (ks_procs s) (ks_nextpid s) (ks_initproc s) (u32 (ks_ticks s + 1)))) ;;
     wake cur [ticks_chan]) ;;
  t ← r_ Reg.time;
  w_ Reg.stimecmp (u64 (t + 1000000)).

Definition devintr (cur : option nat) : TM Z :=
  scause ← r_ Reg.scause;
  if scause =? 0x8000000000000009 then
    irq ← plic_claim;
    (if irq =? UART0_IRQ then cs ← ondev dev_uartintr; wake cur cs
     else if irq =? VIRTIO0_IRQ then cs ← ondev dev_virtio_disk_intr; wake cur cs
     else mwhen (negb (irq =? 0)) (onsys (printk "unexpected interrupt irq=%d\n" [KNum irq]))) ;;
    mwhen (negb (irq =? 0)) (plic_complete irq) ;;
    mret 1
  else if scause =? 0x8000000000000005 then clockintr cur ;; mret 2
  else mret 0.

Definition usertrapret : TM resume :=
  p ← onproc (getp me);
  intr_off ;;
  w_ Reg.stvec (TRAMPOLINE + uservec_off) ;;
  x ← r_ Reg.satp; onproc (tf_set me TF_kernel_satp x) ;;
  onproc (tf_set me TF_kernel_sp (u64 (p_kstack p + PGSIZE))) ;;
  onproc (tf_set me TF_kernel_trap usertrap_pc) ;;
  s ← mget; onproc (tf_set me TF_kernel_hartid (t_tp s)) ;;
  x ← r_ Reg.sstatus;
  let x := clear x SSTATUS_SPP in
  let x := Z.lor x SSTATUS_SPIE in
  w_ Reg.sstatus x ;;
  epc ← onproc (tf_get me TF_epc);
  w_ Reg.sepc epc ;;
  mret (ToUser (MAKE_SATP (p_pagetable p))).

(** The part of [usertrap] that finds out why it was called: [which_dev], and
    whether the process goes on. *)
Definition usertrap_cause : TM (Z * bool) :=
  scause ← r_ Reg.scause;
  if scause =? 8 then
    k ← onproc (killed me);
    if negb (k =? 0) then onproc (exit me (-1)) ;; mret (0, false) else
    epc ← onproc (tf_get me TF_epc);
    onproc (tf_set me TF_epc (u64 (epc + 4))) ;;
    intr_on ;;
    back ← onsys (syscall kend trampoline forkret_pc me junk file_call);
    mret (0, back)
  else
    which_dev ← devintr (Some me);
    if negb (which_dev =? 0) then mret (which_dev, true) else
    p ← onproc (getp me);
    sepc ← r_ Reg.sepc; stval ← r_ Reg.stval;
    onsys (printk "usertrap(): unexpected scause 0x%lx pid=%d\n" [KNum scause; KNum (p_pid p)]) ;;
    onsys (printk "            sepc=0x%lx stval=0x%lx\n" [KNum sepc; KNum stval]) ;;
    onproc (setkilled me) ;;
    mret (0, true).

Definition usertrap : TM resume :=
  x ← r_ Reg.sstatus;
  if flag x SSTATUS_SPP then panic "usertrap: not from user mode" else
  w_ Reg.stvec kernelvec_pc ;;
  sepc ← r_ Reg.sepc;
  onproc (tf_set me TF_epc sepc) ;;
  '(which_dev, goes_on) ← usertrap_cause;
  if negb goes_on then mret Gone else
  k ← onproc (killed me);
  if negb (k =? 0) then onproc (exit me (-1)) ;; mret Gone else
  if which_dev =? 2 then onproc (yield_begin me) ;; mret Yielded else
  usertrapret.

Definition kerneltrap_end (sepc sstatus : Z) : TM unit :=
  w_ Reg.sepc sepc ;;
  w_ Reg.sstatus sstatus.

(** [true]: the process was switched out at the timer's interrupt, and goes on with
    [kerneltrap_end] later. *)
Definition kerneltrap (cur : option nat) : TM bool :=
  sepc ← r_ Reg.sepc;
  sstatus ← r_ Reg.sstatus;
  scause ← r_ Reg.scause;
  if negb (flag sstatus SSTATUS_SPP) then panic "kerneltrap: not from supervisor mode" else
  on ← intr_get;
  if on : bool then panic "kerneltrap: interrupts enabled" else
  which_dev ← devintr cur;
  if which_dev =? 0 then
    stval ← r_ Reg.stval;
    onsys (printk "scause=0x%lx sepc=0x%lx stval=0x%lx\n" [KNum scause; KNum sepc; KNum stval]) ;;
    panic "kerneltrap"
  else match (if which_dev =? 2 then cur else None) with
  | Some p => onproc (yield_begin p) ;; mret true
  | None => kerneltrap_end sepc sstatus ;; mret false
  end.

(** ** From user space and back *)

Abbreviation UM := (M (ust F X)).

Definition mach_of (u : ust F X) : mach := Mach (u_reg u) (t_csr (u_t u)) (k_mem (ks_k (sy_k (t_sys (u_t u))))).
Definition of_mach (h : mach) (u : ust F X) : ust F X :=
  let y := t_sys (u_t u) in
  let s := sy_k y in
  USt (m_reg h) (u_pc u)
    (TSt (SysSt (KState (kset_mem (m_mem h) (ks_k s)) (ks_f s) (ks_procs s) (ks_nextpid s) (ks_initproc s) (ks_ticks s)) (sy_mutex y) (sy_log y)) (m_csr h) (m_reg h Reg.tp) (t_dev (u_t u))).
Definition onmach {A} (m : HM A) : UM A := lift mach_of of_mach m.
Definition onkernel {A} (m : TM A) : UM A := lift u_t (λ t u, USt (u_reg u) (u_pc u) t) m.

(** What the hardware does at an [ecall] in user mode. *)
Definition take_trap (cause : Z) : UM unit :=
  modify (λ u, let c := t_csr (u_t u) in
    USt (u_reg u) (c Reg.stvec)
      (TSt (t_sys (u_t u)) (upd (upd (upd c Reg.sepc (u_pc u)) Reg.scause cause) Reg.sstatus (trap_status (c Reg.sstatus))) (t_tp (u_t u)) (t_dev (u_t u)))).

(** [usertrapret] calls [userret] with the page table in [a0], and [regs] in the
    other registers. [None]: the process has not come back. *)
Definition to_user (regs : reg → Z) (r : resume) : UM (option bool) :=
  match r with
  | ToUser satp =>
      modify (λ u, USt (upd (upd regs Reg.tp (t_tp (u_t u))) Reg.a0 satp) (u_pc u) (u_t u)) ;;
      c ← onmach (run userret);
      match c with
      | Back pc user => modify (λ u, USt (u_reg u) pc (u_t u)) ;; mret (Some user)
      | _ => mret None
      end
  | _ => mret None
  end.

(** [uservec] jumps to [usertrap]. *)
Definition ecall (regs : reg → Z) : UM (option bool) :=
  take_trap 8 ;;
  c ← onmach (run uservec);
  if negb (match c with Jump pc => pc =? usertrap_pc | _ => false end) then mret None else
  r ← onkernel usertrap;
  to_user regs r.
End trap.
