(* ===== verification/Isolation.v ===== *)
(** * The processes share no memory

    The invariant of the kernel's memory: every page is free, holds a pipe, or
    belongs to exactly one process, as a page of its memory or of its page table or
    as its trap frame; and the references to open files are counted. Every
    operation of kernel/proc.c and kernel/exec.c keeps it, and changes no page of
    another process. *)
From Stdlib Require Import ZArith Lia.
From stdpp Require Import prelude gmap gmultiset strings.
From S2P Require Import Prelude Bytes Param Str Riscv PhysMem Kalloc Vm VmSpec VmMap VmGrow VmFree VmCopy VmTheorems Spinlock Proc ProcSpec ProcGrow ProcFork ProcWait Exec ExecLoad ExecTheorems.

(** The tables and the pages of a process. *)
Abbreviation space := (gmap (list Z) Z * gmap Z Z)%type.

Definition owned (x : space) (q : proc) : gset Z :=
  if decide (p_state q = UNUSED) then ∅ else own_set x.1 x.2 (p_sz q) (p_trapframe q).

(** An entry of the table, its memory apart. *)
Record proc_ok (q : proc) : Prop := {
  po_files : length (p_ofile q) = NOFILE;
  po_blank : p_state q = UNUSED → blank q;
  po_closed : p_state q = UNUSED ∨ p_state q = ZOMBIE → p_ofile q = replicate NOFILE None ∧ p_cwd q = None;
  po_cwd : p_state q ≠ UNUSED → p_state q ≠ ZOMBIE → is_Some (p_cwd q)
}.

(** The references of all processes. *)
Definition total (f : proc → gmultiset nat) (l : list proc) : gmultiset nat := ⋃+ (f <$> l).

Lemma total_split f l i q :
  l !! i = Some q → ∃ R, total f l = f q ⊎ R ∧ ∀ q', total f (<[i := q']> l) = f q' ⊎ R.
Proof.
  intros Hi. exists (total f (take i l) ⊎ total f (drop (S i) l)).
  assert (∀ l1 x l2, total f (l1 ++ x :: l2) = f x ⊎ (total f l1 ⊎ total f l2)) as Happ.
  { intros l1 x l2. unfold total. rewrite fmap_app, gmultiset_disj_union_list_app. cbn. rewrite !(assoc_L (⊎)). f_equal. apply (comm_L (⊎)). }
  split.
  - rewrite <-(take_drop_middle l i q) at 1 by done. apply Happ.
  - intros q'. rewrite insert_take_drop by (by eapply lookup_lt_Some). apply Happ.
Qed.

Lemma total_same f l l' : Forall2 (λ q q', f q' = f q) l l' → total f l' = total f l.
Proof. unfold total. induction 1 as [|q q' l l' Hq _ IH]; [done|]. cbn. by rewrite Hq, IH. Qed.

Lemma total_elem f l i q : l !! i = Some q → f q ⊆ total f l.
Proof. intros Hi. destruct (total_split f l i q Hi) as (R & -> & _). apply gmultiset_disj_union_subseteq_l. Qed.

Lemma owned_live x q : p_state q ≠ UNUSED → owned x q = own_set x.1 x.2 (p_sz q) (p_trapframe q).
Proof. intros Hq. unfold owned. by rewrite decide_False. Qed.

Lemma owned_unused x q : p_state q = UNUSED → owned x q = ∅.
Proof. intros Hq. unfold owned. by rewrite decide_True. Qed.

Definition same_memory (q q' : proc) : Prop :=
  p_pagetable q' = p_pagetable q ∧ p_sz q' = p_sz q ∧ p_trapframe q' = p_trapframe q ∧ (p_state q' = UNUSED ↔ p_state q = UNUSED).

Lemma same_owned x q q' : same_memory q q' → owned x q' = owned x q.
Proof. intros (_ & Hsz & Htf & Hst). unfold owned. rewrite Hsz, Htf. by repeat case_decide; try tauto. Qed.

(** Only the entry changes, and not what it refers to. *)
Definition quiet (q q' : proc) : Prop :=
  same_memory q q' ∧ p_ofile q' = p_ofile q ∧ p_cwd q' = p_cwd q ∧ (p_state q' = ZOMBIE ↔ p_state q = ZOMBIE).

Lemma quiet_ok q q' : quiet q q' → proc_ok q → proc_ok q'.
Proof.
  intros ((Hpt & Hsz & Htf & Hu) & Hof & Hcwd & Hz) [H1 H2 H3 H4].
  split; [congruence| | |rewrite Hcwd; tauto]; [|rewrite Hof, Hcwd; tauto].
  intros Hq. unfold blank in *. rewrite Hsz, Hpt, Htf. tauto.
Qed.

Lemma quiet_refl q : quiet q q.
Proof. by repeat split. Qed.

Lemma quiet_trans q1 q2 q3 : quiet q1 q2 → quiet q2 q3 → quiet q1 q3.
Proof. unfold quiet, same_memory. intros ((? & ? & ? & ?) & ? & ? & ?) ((? & ? & ? & ?) & ? & ? & ?). split_and!; try congruence; tauto. Qed.

Lemma quiet_insert (l : list proc) i q q' : l !! i = Some q → quiet q q' → Forall2 quiet l (<[i := q']> l).
Proof.
  intros Hi Hq. rewrite <-(list_insert_id l i q) at 1 by done. apply Forall2_insert; [|done].
  apply Forall_Forall2_diag, Forall_true. intros. apply quiet_refl.
Qed.

Lemma awake_quiet q q' : awake q q' → quiet q q'.
Proof. intros [->|[Hs ->]]; [apply quiet_refl|]. split; [split_and!; try done|split_and!; try done]; cbn; by rewrite Hs. Qed.

Section isolation.
Context {F : Type} `{FL : FileLaws F}.
Context (kend trampoline : Z) (Hend : KERNBASE ≤ kend) (Htr : 0 ≤ trampoline < 18446744073709547520).
Implicit Types (s : kstate F) (L : list Z) (A P : gset Z) (sp : nat → space).
Abbreviation pmem := (pmem kend trampoline).

(** The kernel's memory: the pages [A], of which [P] hold pipes, [L] are free, and
    [sp] describes the rest. *)
Record isolated s A P L sp : Prop := {
  is_len : length (ks_procs s) = NPROC;
  is_k : kmem_ok kend (ks_k s) L;
  is_mem i q : ks_procs s !! i = Some q → p_state q ≠ UNUSED →
    pmem (ks_k s) L (sp i).1 (sp i).2 (p_pagetable q) (p_sz q) (p_trapframe q);
  is_apart i j q q' : i ≠ j → ks_procs s !! i = Some q → ks_procs s !! j = Some q' → owned (sp i) q ## owned (sp j) q';
  is_proc i q : ks_procs s !! i = Some q → proc_ok q;
  is_files : f_ok (ks_f s) (total open_files (ks_procs s)) (total cwd_of (ks_procs s)) P;
  is_pipes p : p ∈ P → page_ok kend p ∧ (p ∉ L) ∧ ∀ i q, ks_procs s !! i = Some q → p ∉ owned (sp i) q;
  is_all p : p ∈ A ↔ p ∈ L ∨ p ∈ P ∨ ∃ i q, ks_procs s !! i = Some q ∧ p ∈ owned (sp i) q
}.

(** Nothing happens to the memory of process [i]. *)
Definition untouched s sp s' sp' (i : nat) : Prop :=
  ∀ q, ks_procs s !! i = Some q → p_state q ≠ UNUSED → ∃ q', ks_procs s' !! i = Some q' ∧
    p_pagetable q' = p_pagetable q ∧ p_sz q' = p_sz q ∧ p_trapframe q' = p_trapframe q ∧ p_state q' ≠ UNUSED ∧ sp' i = sp i ∧
    ∀ p a, p ∈ owned (sp i) q → in_page p a → ld (k_mem (ks_k s')) a = ld (k_mem (ks_k s)) a.

Lemma isolated_owned s A P L sp i q p :
  isolated s A P L sp → ks_procs s !! i = Some q → p ∈ owned (sp i) q → page_ok kend p ∧ p ∉ L.
Proof.
  intros Hi Hq Hp. destruct (decide (p_state q = UNUSED)) as [Hu|Hu]; [by rewrite owned_unused in Hp|].
  rewrite owned_live in Hp by done. eapply own_set_page; [by eapply (is_mem _ _ _ _ _ Hi)|done].
Qed.

Lemma isolated_page s A P L sp p : isolated s A P L sp → p ∈ A → page_ok kend p.
Proof.
  intros Hi [Hp|[Hp|(i & q & Hq & Hp)]]%(is_all _ _ _ _ _ Hi).
  - eapply flist_pages; [apply (is_k _ _ _ _ _ Hi)|done].
  - by apply (is_pipes _ _ _ _ _ Hi).
  - by eapply isolated_owned.
Qed.

(** Memory outside the pages [W] is the same: so is the memory of a process that
    owns none of them. *)
Lemma pages_same (W : gset Z) (m m' : mem) (O : gset Z) :
  outside W m m' → (∀ p, p ∈ W → page_ok kend p) → (∀ p, p ∈ O → page_ok kend p) → O ## W →
  ∀ p a, p ∈ O → in_page p a → ld m' a = ld m a.
Proof.
  intros Hout HW HO Hdis p a Hp Ha. apply Hout. intros r Hr Ha'. apply (Hdis p); [done|].
  replace p with r; [done|]. apply (pages_disjoint kend r p a); auto.
Qed.

(** ** Changing one process *)

Definition place sp (i : nat) (x : space) : nat → space := λ j, if decide (j = i) then x else sp j.

Lemma place_eq sp i x : place sp i x i = x.
Proof. unfold place. by rewrite decide_True. Qed.
Lemma place_ne sp i j x : j ≠ i → place sp i x j = sp j.
Proof. intros Hne. unfold place. by rewrite decide_False. Qed.

(** Process [i] and the free pages exchange pages, and nobody else notices. *)
Lemma isolated_change s A P L sp i q s' q' x L' :
  isolated s A P L sp → ks_procs s !! i = Some q → ks_procs s' = <[i := q']> (ks_procs s) → proc_ok q' →
  kmem_ok kend (ks_k s') L' →
  (p_state q' ≠ UNUSED → pmem (ks_k s') L' x.1 x.2 (p_pagetable q') (p_sz q') (p_trapframe q')) →
  list_to_set L' ∪ owned x q' = list_to_set L ∪ owned (sp i) q →
  outside (list_to_set L ∪ owned (sp i) q) (k_mem (ks_k s)) (k_mem (ks_k s')) →
  f_ok (ks_f s') (total open_files (ks_procs s')) (total cwd_of (ks_procs s')) P →
  isolated s' A P L' (place sp i x) ∧ ∀ j, j ≠ i → untouched s sp s' (place sp i x) j.
Proof.
  intros Hi Hq Hprocs Hok Hk Hmem Hset Hout Hf.
  assert (∀ p, p ∈ list_to_set L ∪ owned (sp i) q → page_ok kend p) as HW.
  { intros p [Hp%elem_of_list_to_set|Hp]%elem_of_union; [|by eapply isolated_owned].
    eapply flist_pages; [apply (is_k _ _ _ _ _ Hi)|done]. }
  assert (∀ p, p ∈ L' ∨ p ∈ owned x q' ↔ p ∈ L ∨ p ∈ owned (sp i) q) as Hel.
  { intros p. rewrite <-(elem_of_list_to_set (C:=gset Z) p L'), <-(elem_of_list_to_set (C:=gset Z) p L), <-!elem_of_union. by rewrite Hset. }
  assert (∀ j qj, j ≠ i → ks_procs s !! j = Some qj → owned (sp j) qj ## list_to_set L ∪ owned (sp i) q) as Hdis.
  { intros j qj Hne Hj p Hp [HpL%elem_of_list_to_set|Hp']%elem_of_union.
    - by eapply isolated_owned.
    - by apply (is_apart _ _ _ _ _ Hi j i qj q Hne Hj Hq p). }
  assert (∀ j qj, j ≠ i → ks_procs s !! j = Some qj → ∀ p a, p ∈ owned (sp j) qj → in_page p a →
    ld (k_mem (ks_k s')) a = ld (k_mem (ks_k s)) a) as Hsame.
  { intros j qj Hne Hj. eapply pages_same; [exact Hout|exact HW|by intros p Hp; eapply isolated_owned|by eapply Hdis]. }
  assert (∀ j qj, j ≠ i → ks_procs s' !! j = Some qj → ks_procs s !! j = Some qj) as Hother.
  { intros j qj Hne. by rewrite Hprocs, list_lookup_insert_ne. }
  assert (ks_procs s' !! i = Some q') as Hq'.
  { rewrite Hprocs. apply list_lookup_insert_eq. by eapply lookup_lt_Some. }
  assert (∀ j qj, ks_procs s' !! j = Some qj → j = i ∧ qj = q' ∨ j ≠ i ∧ ks_procs s !! j = Some qj) as Hcases.
  { intros j qj Hj. destruct (decide (j = i)) as [->|Hne]; [left; split; congruence|right; auto]. }
  assert (∀ p, p ∈ owned x q' → p ∉ L') as HxL.
  { intros p Hp. destruct (decide (p_state q' = UNUSED)) as [Hu|Hu]; [by rewrite owned_unused in Hp|].
    rewrite owned_live in Hp by done. eapply own_set_page; [by apply Hmem|done]. }
  split; [split|].
  - rewrite Hprocs, length_insert. apply Hi.
  - done.
  - intros j qj [[-> ->]|[Hne Hj]]%Hcases Hu; [rewrite place_eq; by apply Hmem|]. rewrite place_ne by done.
    eapply (pmem_frame kend trampoline Htr); [by eapply (is_mem _ _ _ _ _ Hi)|done| |].
    + intros p Hp HpL. rewrite <-(owned_live _ qj) in Hp by done. apply (Hdis j qj Hne Hj p Hp).
      rewrite elem_of_union, elem_of_list_to_set. apply Hel. by left.
    + intros p a Hp Ha. eapply Hsame; [exact Hne|exact Hj| |done]. rewrite owned_live by done. unfold own_set. rewrite !elem_of_union. by left; left.
  - intros j l qj ql Hne Hj Hl. destruct (Hcases j qj Hj) as [[-> ->]|[Hnj Hj']], (Hcases l ql Hl) as [[-> ->]|[Hnl Hl']]; [done| | |].
    + rewrite place_eq, place_ne by done. intros p Hp Hp'. apply (Hdis l ql Hnl Hl' p Hp').
      rewrite elem_of_union, elem_of_list_to_set. apply Hel. by right.
    + rewrite place_eq, place_ne by done. intros p Hp' Hp. apply (Hdis j qj Hnj Hj' p Hp').
      rewrite elem_of_union, elem_of_list_to_set. apply Hel. by right.
    + rewrite !place_ne by done. by eapply (is_apart _ _ _ _ _ Hi).
  - intros j qj [[-> ->]|[Hne Hj]]%Hcases; [done|by eapply (is_proc _ _ _ _ _ Hi)].
  - done.
  - intros p Hp. destruct (is_pipes _ _ _ _ _ Hi p Hp) as (Hpg & HpL & Hpo).
    assert (¬ (p ∈ L' ∨ p ∈ owned x q')) as Hno by (rewrite Hel; intros [?|?]; [done|by eapply Hpo]).
    split_and!; [done|tauto|]. intros j qj [[-> ->]|[Hne Hj]]%Hcases; [rewrite place_eq; tauto|rewrite place_ne by done; by eapply Hpo].
  - intros p. rewrite (is_all _ _ _ _ _ Hi p). split.
    + intros Hp. assert (p ∈ L ∨ p ∈ owned (sp i) q → p ∈ L' ∨ p ∈ P ∨ ∃ i0 q0, ks_procs s' !! i0 = Some q0 ∧ p ∈ owned (place sp i x i0) q0) as Hin.
      { intros [?|?]%Hel; [by left|]. right; right. exists i, q'. by rewrite place_eq. }
      destruct Hp as [Hp|[Hp|(j & qj & Hj & Hp)]]; [auto|by right; left|]. destruct (decide (j = i)) as [->|Hne].
      * apply Hin. right. congruence.
      * right; right. exists j, qj. rewrite place_ne by done. split; [|done]. by rewrite Hprocs, list_lookup_insert_ne.
    + assert (p ∈ L' ∨ p ∈ owned x q' → p ∈ L ∨ p ∈ P ∨ ∃ i0 q0, ks_procs s !! i0 = Some q0 ∧ p ∈ owned (sp i0) q0) as Hin.
      { intros [?|?]%Hel; [by left|]. right; right. by exists i, q. }
      intros [Hp|[Hp|(j & qj & [[-> ->]|[Hne Hj]]%Hcases & Hp)]]; [auto|by right; left|rewrite place_eq in Hp; auto|].
      rewrite place_ne in Hp by done. right; right. by exists j, qj.
  - intros j Hne qj Hj Hu. exists qj. rewrite place_ne by done. split_and!; [by rewrite Hprocs, list_lookup_insert_ne|done..|].
    by eapply Hsame.
Qed.

(** ** Changing no memory of a process *)

(** The free pages and those of the pipes change places, the entries of the table
    keep their memory. *)
Lemma isolated_rest s A P L sp s' P' L' :
  isolated s A P L sp → Forall2 (λ q q', same_memory q q' ∧ proc_ok q') (ks_procs s) (ks_procs s') → kmem_ok kend (ks_k s') L' →
  list_to_set L' ∪ P' = list_to_set L ∪ P → (∀ p, p ∈ P' → p ∉ L') →
  outside (list_to_set L ∪ P) (k_mem (ks_k s)) (k_mem (ks_k s')) →
  f_ok (ks_f s') (total open_files (ks_procs s')) (total cwd_of (ks_procs s')) P' →
  isolated s' A P' L' sp ∧ ∀ j, untouched s sp s' sp j.
Proof.
  intros Hi Hall Hk Hset HPL Hout Hf.
  assert (∀ p, p ∈ L' ∨ p ∈ P' ↔ p ∈ L ∨ p ∈ P) as Hel.
  { intros p. rewrite <-(elem_of_list_to_set (C:=gset Z) p L'), <-(elem_of_list_to_set (C:=gset Z) p L), <-!elem_of_union. by rewrite Hset. }
  assert (∀ p, p ∈ list_to_set L ∪ P → page_ok kend p) as HW.
  { intros p [Hp%elem_of_list_to_set|Hp]%elem_of_union; [|by apply (is_pipes _ _ _ _ _ Hi)].
    eapply flist_pages; [apply (is_k _ _ _ _ _ Hi)|done]. }
  assert (∀ j q', ks_procs s' !! j = Some q' → ∃ q, ks_procs s !! j = Some q ∧ same_memory q q' ∧ proc_ok q') as Hback.
  { intros j q' Hj. destruct (Forall2_lookup_r _ _ _ _ _ Hall Hj) as (q & Hq & ?). by exists q. }
  assert (∀ j q, ks_procs s !! j = Some q → owned (sp j) q ## list_to_set L ∪ P) as Hdis.
  { intros j q Hj p Hp [HpL%elem_of_list_to_set|HpP]%elem_of_union.
    - by eapply isolated_owned.
    - by eapply (is_pipes _ _ _ _ _ Hi). }
  assert (∀ j q, ks_procs s !! j = Some q → ∀ p a, p ∈ owned (sp j) q → in_page p a →
    ld (k_mem (ks_k s')) a = ld (k_mem (ks_k s)) a) as Hsame.
  { intros j q Hj. eapply pages_same; [exact Hout|exact HW|by intros p Hp; eapply isolated_owned|by eapply Hdis]. }
  split; [split|].
  - rewrite <-(Forall2_length _ _ _ Hall). apply Hi.
  - done.
  - intros j q' (q & Hq & Hm & _)%Hback Hu. pose proof Hm as (Hpt & Hsz & Htf & Hst). rewrite Hpt, Hsz, Htf.
    assert (p_state q ≠ UNUSED) as Hu' by tauto.
    eapply (pmem_frame kend trampoline Htr); [by eapply (is_mem _ _ _ _ _ Hi)|done| |].
    + intros p Hp HpL. rewrite <-owned_live in Hp by done. apply (Hdis j q Hq p Hp). rewrite elem_of_union, elem_of_list_to_set. apply Hel. by left.
    + intros p a Hp Ha. eapply Hsame; [exact Hq| |done]. rewrite owned_live by done. unfold own_set. rewrite !elem_of_union. by left; left.
  - intros i j q1 q2 Hne (r1 & H1 & Hm1 & _)%Hback (r2 & H2 & Hm2 & _)%Hback. rewrite (same_owned _ _ _ Hm1), (same_owned _ _ _ Hm2).
    by eapply (is_apart _ _ _ _ _ Hi).
  - intros j q' (q & _ & _ & ?)%Hback. done.
  - done.
  - intros p Hp. assert (p ∈ L ∨ p ∈ P) as Hp' by (apply Hel; by right). split_and!; [|by apply HPL|].
    + apply HW. by rewrite elem_of_union, elem_of_list_to_set.
    + intros j q' (q & Hq & Hm & _)%Hback. rewrite (same_owned _ _ _ Hm). intros Ho. apply (Hdis j q Hq p Ho).
      by rewrite elem_of_union, elem_of_list_to_set.
  - intros p. rewrite (is_all _ _ _ _ _ Hi p).
    assert ((∃ j q, ks_procs s !! j = Some q ∧ p ∈ owned (sp j) q) ↔ ∃ j q', ks_procs s' !! j = Some q' ∧ p ∈ owned (sp j) q') as Hex.
    { split; [intros (j & q & Hq & Hp)|intros (j & q' & (q & Hq & Hm & _)%Hback & Hp)].
      - destruct (Forall2_lookup_l _ _ _ _ _ Hall Hq) as (q' & Hq' & Hm & _). exists j, q'. by rewrite (same_owned _ _ _ Hm).
      - exists j, q. by rewrite <-(same_owned _ _ _ Hm). }
    rewrite <-Hex. specialize (Hel p). tauto.
  - intros j q Hq Hu. destruct (Forall2_lookup_l _ _ _ _ _ Hall Hq) as (q' & Hq' & Hm & _). pose proof Hm as (? & ? & ? & ?).
    exists q'. split_and!; [done..|tauto|done|]. by eapply Hsame.
Qed.

(** What is not touched twice is not touched. *)
Lemma untouched_trans s1 sp1 s2 sp2 s3 sp3 j :
  untouched s1 sp1 s2 sp2 j → untouched s2 sp2 s3 sp3 j → untouched s1 sp1 s3 sp3 j.
Proof.
  intros H12 H23 q Hq Hu. destruct (H12 q Hq Hu) as (q2 & Hq2 & Hpt & Hsz & Htf & Hu2 & Hsp & Hm).
  destruct (H23 q2 Hq2 Hu2) as (q3 & Hq3 & Hpt' & Hsz' & Htf' & Hu3 & Hsp' & Hm').
  exists q3. split_and!; [done|congruence..|done|congruence|]. intros p a Hp Ha. rewrite (Hm' p a), (Hm p a); [done..| |done].
  rewrite Hsp. rewrite owned_live in * by done. by rewrite Hsz, Htf.
Qed.

Lemma untouched_refl s sp j : untouched s sp s sp j.
Proof. intros q Hq Hu. by exists q. Qed.

Lemma isolated_quiet s A P L sp s' :
  isolated s A P L sp → ks_k s' = ks_k s → ks_f s' = ks_f s → Forall2 quiet (ks_procs s) (ks_procs s') →
  isolated s' A P L sp ∧ ∀ j, untouched s sp s' sp j.
Proof.
  intros Hi Hk Hf Hall. apply (isolated_rest s A P L sp s' P L); [done| |by rewrite Hk; apply Hi|done| |by rewrite Hk|].
  - apply Forall2_same_length_lookup. split; [by eapply Forall2_length|]. intros i q q' Hq Hq'.
    pose proof (Forall2_lookup_lr _ _ _ _ _ _ Hall Hq Hq') as Hqq. split; [apply Hqq|]. eapply quiet_ok; [done|]. by eapply (is_proc _ _ _ _ _ Hi).
  - intros p Hp. by apply (is_pipes _ _ _ _ _ Hi).
  - rewrite Hf, (total_same open_files (ks_procs s)), (total_same cwd_of (ks_procs s)).
    + apply Hi.
    + eapply Forall2_impl; [exact Hall|]. intros q q' (_ & _ & Hc & _). unfold cwd_of. by rewrite Hc.
    + eapply Forall2_impl; [exact Hall|]. intros q q' (_ & Ho & _). unfold open_files. by rewrite Ho.
Qed.

Lemma woken_quiet me s s' : woken me s s' → Forall2 quiet (ks_procs s) (ks_procs s').
Proof. intros Hw. eapply Forall2_impl; [apply Hw|]. apply awake_quiet. Qed.
End isolation.
