(* ===== verification/IsoOps.v ===== *)
(** * Every operation on processes keeps them apart

    [fork], [exit], [wait], [growproc], [exec] and the operations that only change
    the states of processes, on a kernel whose memory is [isolated]. *)
From Stdlib Require Import ZArith Lia.
From stdpp Require Import prelude gmap gmultiset strings.
From S2P Require Import Prelude Bytes Param Str Riscv PhysMem Kalloc Vm VmSpec VmMap VmGrow VmFree VmCopy VmTheorems Spinlock Proc ProcSpec ProcGrow ProcFork ProcWait Exec ExecLoad ExecTheorems Isolation.

(** What [exit] relies on: closing a file gives a reference up, and the page of a
    pipe with its last one; [iput], in a transaction for which there is room in the
    log, gives up a reference to an inode. *)
Class CloseLaws (F : Type) (kend : Z) `{FileLaws F} := {
  fileclose_law k L fs X Y P f : f_ok fs (X ⊎ {[+ f +]}) Y P → kmem_ok kend k L → (∀ p, p ∈ P → page_ok kend p ∧ p ∉ L) →
    wp (fileclose f) (k, fs) (λ _ kf, ∃ L' P', kmem_ok kend kf.1 L' ∧ list_to_set L' ∪ P' = list_to_set L ∪ P ∧
      (∀ p, p ∈ P' → p ∉ L') ∧ outside (list_to_set L ∪ P) (k_mem k) (k_mem kf.1) ∧ f_ok kf.2 X Y P');
  iput_law k fs X Y P ip : f_ok fs X (Y ⊎ {[+ ip +]}) P →
    wp begin_op (k, fs) (λ _ kf, kf.1 = k ∧ wp (iput ip) kf (λ _ kf, kf.1 = k ∧
      wp end_op kf (λ _ kf, kf.1 = k ∧ f_ok kf.2 X Y P)))
}.

(** What [exec] relies on: a path names a file, or it does not. *)
Class PathLaws (F : Type) `{FileLaws F} `{!ExecOps F} := {
  path_law fs X Y P path : f_ok fs X Y P → ∃ data, stored fs path data (λ fs', f_ok fs' X Y P)
}.

(** The first element that passes a test. *)
Lemma existsb_first {A} (f : A → bool) l :
  existsb f l = true → ∃ l1 x l2, l = l1 ++ x :: l2 ∧ existsb f l1 = false ∧ f x = true.
Proof.
  induction l as [|y l IH]; [done|]. cbn. destruct (f y) eqn:Hy.
  - intros _. by exists [], y, l.
  - intros (l1 & x & l2 & -> & H1 & H2)%IH. exists (y :: l1), x, l2. cbn. by rewrite Hy.
Qed.

(** A run that returns in [R], or goes to sleep in [Q]. *)
Definition wps {S A} (m : M S A) (s : S) (R : A → S → Prop) (Q : S → Prop) : Prop :=
  match m s with Ret a s' => R a s' | Sleep _ s' => Q s' | _ => False end.

Lemma wp_wps {S A} (m : M S A) s (R : A → S → Prop) (Q : S → Prop) : wp m s R → wps m s R Q.
Proof. intros H. apply wp_Ret in H as (a & s' & Hrun & HQ). unfold wps. by rewrite Hrun. Qed.

Section ops.
Context {F : Type} (kend trampoline forkret_pc : Z) `{FL : FileLaws F}.
Context (Hend : KERNBASE ≤ kend) (Htr : 0 ≤ trampoline < 18446744073709547520).
Implicit Types (s : kstate F) (L : list Z) (A P : gset Z) (sp : nat → space).
Abbreviation pmem := (pmem kend trampoline).
Abbreviation isolated := (isolated kend trampoline).

(** The process [me] did something: memory is still in order, and the memory of
    every other process is as it was, unless it was a child that had exited. *)
Definition apart (me : nat) s A sp s' : Prop :=
  ∃ P' L' sp', isolated s' A P' L' sp' ∧ ∀ j, j ≠ me → untouched s sp s' sp' j ∨
    ∃ q q', ks_procs s !! j = Some q ∧ p_state q = ZOMBIE ∧ p_parent q = Some me ∧
      ks_procs s' !! j = Some q' ∧ p_state q' = UNUSED.

(** And it is still there. *)
Definition stays (me : nat) s s' : Prop := p_state <$> ks_procs s' !! me = p_state <$> ks_procs s !! me.
Definition kept_apart (me : nat) s A sp s' : Prop := apart me s A sp s' ∧ stays me s s'.

Lemma kept_apart_of me s A sp s' P' L' sp' :
  stays me s s' → isolated s' A P' L' sp' ∧ (∀ j, j ≠ me → untouched s sp s' sp' j) → kept_apart me s A sp s'.
Proof. intros Hst [Hi Hu]. split; [|done]. exists P', L', sp'. split; [done|]. intros j Hj. left. by apply Hu. Qed.

Lemma kept_apart_all me s A sp s' P' L' sp' :
  stays me s s' → isolated s' A P' L' sp' ∧ (∀ j, untouched s sp s' sp' j) → kept_apart me s A sp s'.
Proof. intros Hst [Hi Hu]. eapply kept_apart_of; [done|]. split; [exact Hi|auto]. Qed.

(** The process that changed was not in use. *)
Lemma kept_apart_new me s A sp s' P' L' sp' np q :
  ks_procs s !! np = Some q → p_state q = UNUSED → stays me s s' →
  isolated s' A P' L' sp' ∧ (∀ j, j ≠ np → untouched s sp s' sp' j) → kept_apart me s A sp s'.
Proof.
  intros Hq Hu Hst [Hi Hother]. eapply (kept_apart_all me s A sp s'); [done|]. split; [exact Hi|]. intros j.
  destruct (decide (j = np)) as [->|Hne]; [|by apply Hother]. intros q0 Hq0 Hu0. congruence.
Qed.

Lemma stays_other me s s' np q' : ks_procs s' = <[np := q']> (ks_procs s) → np ≠ me → stays me s s'.
Proof. intros Hs Hne. unfold stays. by rewrite Hs, list_lookup_insert_ne. Qed.

Lemma stays_set me s s' p p' : ks_procs s !! me = Some p → ks_procs s' = <[me := p']> (ks_procs s) → p_state p' = p_state p → stays me s s'.
Proof. intros Hp Hs Hst. unfold stays. rewrite Hs, list_lookup_insert_eq, Hp by (by eapply lookup_lt_Some). cbn. by rewrite Hst. Qed.

Lemma stays_woken me s s' : woken me s s' → stays me s s'.
Proof. intros Hw. unfold stays. by rewrite (wk_me _ _ _ Hw). Qed.

Lemma isolated_unused s A P L sp : isolated s A P L sp → unused_ok s.
Proof.
  intros Hi i q Hq Hu. pose proof (is_proc _ _ _ _ _ _ _ Hi i q Hq) as Hok. split; [by apply Hok|]. by apply (po_closed q Hok); left.
Qed.

Lemma unused_refs q : proc_ok q → p_state q = UNUSED ∨ p_state q = ZOMBIE → open_files q = ∅ ∧ cwd_of q = ∅.
Proof. intros Hok Hq. destruct (po_closed q Hok Hq) as [Ho Hc]. unfold open_files, cwd_of. by rewrite Ho, Hc. Qed.

Lemma isolated_refs s A P L sp i q q' :
  isolated s A P L sp → ks_procs s !! i = Some q → p_ofile q' = p_ofile q → p_cwd q' = p_cwd q →
  f_ok (ks_f s) (total open_files (<[i := q']> (ks_procs s))) (total cwd_of (<[i := q']> (ks_procs s))) P.
Proof.
  intros Hi Hq Hof Hcw. destruct (total_split open_files (ks_procs s) i q Hq) as (R & HR & ->).
  destruct (total_split cwd_of (ks_procs s) i q Hq) as (R' & HR' & ->). unfold open_files, cwd_of in *. rewrite Hof, Hcw, <-HR, <-HR'. apply Hi.
Qed.

(** ** [fork] *)
Lemma fork_isolated s A P L sp me p :
  isolated s A P L sp → ks_procs s !! me = Some p → p_state p ≠ UNUSED → p_state p ≠ ZOMBIE →
  wp (fork kend trampoline forkret_pc me) s (λ _ s', kept_apart me s A sp s').
Proof.
  intros Hi Hp Hu Hz. pose proof (is_proc _ _ _ _ _ _ _ Hi me p Hp) as Hok.
  pose proof (is_mem _ _ _ _ _ _ _ Hi me p Hp Hu) as Hpm.
  eapply (fork_spec kend trampoline forkret_pc Hend Htr s L me p (sp me).1 (sp me).2 (total open_files (ks_procs s)) (total cwd_of (ks_procs s)) P).
  - apply Hi.
  - by eapply isolated_unused.
  - split_and!; [done|done|apply Hok|apply Hi|by eapply total_elem|by apply Hok|by eapply total_elem].
  - done.
  - intros np q k' L' T D root tf fs' (Hnp & Hnu & _) Hf Hfs.
    pose proof (is_proc _ _ _ _ _ _ _ Hi np q Hnp) as Hqok. destruct (unused_refs q Hqok ltac:(by left)) as [Hqf Hqc].
    eapply kept_apart_new; [exact Hnp|exact Hnu|eapply stays_other; [done|congruence]|]. eapply (isolated_change kend trampoline Htr s A P L sp np q _ (child_of forkret_pc me p q (ks_nextpid s) root tf) (T, D) L');
      [done|done|done| |apply (pm_as _ _ _ _ _ _ _ _ _ (pm_ppt _ _ _ _ _ _ _ _ _ (fk_child _ _ _ _ _ _ _ _ _ _ _ _ _ _ _ Hf)))|..].
    + split; [apply Hok|done|by intros [?|?]|intros _ _; by apply Hok].
    + intros _. apply Hf.
    + rewrite owned_live, (owned_unused _ q), (right_id_L ∅ (∪)) by done. symmetry. apply Hf.
    + rewrite owned_unused, (right_id_L ∅ (∪)) by done. apply Hf.
    + cbn [ks_f ks_procs with_nextpid with_proc with_f with_k]. destruct (total_split open_files (ks_procs s) np q Hnp) as (R & HR & ->). destruct (total_split cwd_of (ks_procs s) np q Hnp) as (R' & HR' & ->).
      rewrite HR, HR', Hqf, Hqc, !(left_id_L ∅ (⊎)) in Hfs. rewrite (comm_L (⊎) R), (comm_L (⊎) R') in Hfs. exact Hfs.
  - intros _. apply (kept_apart_all me s A sp s P L sp); [done|]. split; [done|]. intros j. apply untouched_refl.
  - intros np q q' k' L' (Hnp & Hnu & _) Hk HL Hout Hst Hbl Hof Hcw _.
    pose proof (is_proc _ _ _ _ _ _ _ Hi np q Hnp) as Hqok.
    eapply kept_apart_new; [exact Hnp|exact Hnu|eapply stays_other; [done|congruence]|]. eapply (isolated_change kend trampoline Htr s A P L sp np q _ q' (sp np) L'); [done|done|done| |done|..].
    + split; [rewrite Hof; apply Hqok|done| |done]. intros _. rewrite Hof, Hcw. apply Hqok. by left.
    + done.
    + rewrite !owned_unused by done. by rewrite HL.
    + rewrite owned_unused, (right_id_L ∅ (∪)) by done. done.
    + by apply (isolated_refs s A P L sp np q q').
Qed.

(** ** [growproc] *)
Lemma growproc_isolated s A P L sp me p n :
  isolated s A P L sp → ks_procs s !! me = Some p → p_state p ≠ UNUSED → -2147483648 ≤ n < 2147483648 →
  wp (growproc kend me n) s (λ _ s', kept_apart me s A sp s').
Proof.
  intros Hi Hp Hu Hn. pose proof (is_proc _ _ _ _ _ _ _ Hi me p Hp) as [Hof Hbl Hcl Hcw].
  pose proof (is_mem _ _ _ _ _ _ _ Hi me p Hp Hu) as Hpm.
  assert (∀ p' k' L' T' D', p_pagetable p' = p_pagetable p → p_trapframe p' = p_trapframe p → p_state p' = p_state p →
    p_ofile p' = p_ofile p → p_cwd p' = p_cwd p →
    pmem k' L' T' D' (p_pagetable p) (p_sz p') (p_trapframe p) →
    resized (ks_k s) L (sp me).1 (sp me).2 (p_sz p) k' L' T' D' (p_sz p') (p_trapframe p) →
    kept_apart me s A sp (with_proc (with_k s k') me p')) as Hchange.
  { intros p' k' L' T' D' Hpt Htf Hst Hof' Hcw' Hpm' [Hset _ _ Hout]. eapply kept_apart_of; [by eapply (stays_set me s _ p)|].
    eapply (isolated_change kend trampoline Htr s A P L sp me p _ p' (T', D') L'); [done|done|done| |apply Hpm'|..].
    - split; rewrite ?Hst, ?Hof', ?Hcw'; done.
    - intros _. by rewrite Hpt, Htf.
    - rewrite !owned_live by congruence. cbn. by rewrite Htf.
    - by rewrite owned_live.
    - by apply (isolated_refs s A P L sp me p p'). }
  eapply (growproc_spec kend trampoline Hend Htr s L (sp me).1 (sp me).2 me p n); [done|done|done| |].
  - intros k' L' T' D' Hpm' Hr _. by apply (Hchange (pset_sz (grow_size (p_sz p) n) p) k' L' T' D').
  - intros k' L' T' Hpm' Hr _ _. rewrite <-(with_proc_same (with_k s k') me p) by done. by apply (Hchange p k' L' T' (sp me).2).
Qed.

(** ** Copies to the caller *)
Lemma copy_self k L T D root sz tf va l :
  pmem k L T D root sz tf → 0 ≤ va < 18446744073709551616 →
  let '(m', ok) := acopyout D (k_mem k) va l in
  copyout root va l k = Ret (if ok then 0 else -1) (kset_mem m' k) ∧ pmem (kset_mem m' k) L T D root sz tf ∧
  outside (own_set T D sz tf) (k_mem k) m'.
Proof.
  intros Hpm Hva. pose proof (pm_as _ _ _ _ _ _ _ _ _ (pm_ppt _ _ _ _ _ _ _ _ _ Hpm)) as Has.
  pose proof (pmem_user_pages kend trampoline Htr _ _ _ _ _ _ _ Hpm) as Hus.
  pose proof (copyout_loop_spec kend Hend (Datatypes.S (length l)) k L T D root va l Has Hus Hva ltac:(lia)) as Hc.
  pose proof (acopyout_outside D (k_mem k) va l) as Hout. destruct (acopyout D (k_mem k) va l) as [m' ok]. destruct Hc as [Hrun Has'].
  cbn [fst] in Hout. split_and!; [exact Hrun| |].
  - eapply (pmem_frame kend trampoline Htr); [exact Hpm|apply Has'|intros r Hr; by eapply own_set_page|].
    intros r a Hr Ha. apply Hout. intros v e He Hfl Ha'. destruct (up_page _ _ _ _ Hus v e He Hfl) as (Hpg & _ & HT). apply HT.
    replace (PTE2PA e) with r; [done|]. apply (pages_disjoint kend r (PTE2PA e) a); [|done..].
    apply tpages_elem in Hr as [x Hx]. by eapply (pt_page _ _ _ _ (as_tab _ _ _ _ _ _ Has)).
  - intros a Ha. apply Hout. intros v e He Hfl. apply Ha. unfold own_set. rewrite !elem_of_union, elem_of_list_to_set. left. right.
    apply list_elem_of_fmap. exists v. rewrite He. split; [done|]. apply elem_of_vrange.
    pose proof (pmem_user_entry kend trampoline _ _ _ _ _ _ _ _ _ Hpm He Hfl). lia.
Qed.

(** The memory of one process changes, and nothing else. *)
Lemma isolated_write s A P L sp me p m' :
  isolated s A P L sp → ks_procs s !! me = Some p → p_state p ≠ UNUSED →
  pmem (kset_mem m' (ks_k s)) L (sp me).1 (sp me).2 (p_pagetable p) (p_sz p) (p_trapframe p) →
  outside (own_set (sp me).1 (sp me).2 (p_sz p) (p_trapframe p)) (k_mem (ks_k s)) m' →
  isolated (with_k s (kset_mem m' (ks_k s))) A P L (place sp me (sp me)) ∧
  ∀ j, j ≠ me → untouched s sp (with_k s (kset_mem m' (ks_k s))) (place sp me (sp me)) j.
Proof.
  intros Hi Hp Hu Hpm Hout. apply (isolated_change kend trampoline Htr s A P L sp me p _ p (sp me) L); [done|done|..].
  - cbn. by rewrite list_insert_id.
  - by eapply (is_proc _ _ _ _ _ _ _ Hi).
  - apply Hpm.
  - done.
  - done.
  - rewrite owned_live by done. eapply outside_mono; [|exact Hout]. apply union_subseteq_r.
  - apply Hi.
Qed.

Lemma copyout_isolated s A P L sp me p va l :
  isolated s A P L sp → ks_procs s !! me = Some p → p_state p ≠ UNUSED → 0 ≤ va < 18446744073709551616 →
  wp (onk (copyout (p_pagetable p) va l)) s (λ _ s', kept_apart me s A sp s').
Proof.
  intros Hi Hp Hu Hva. pose proof (copy_self _ _ _ _ _ _ _ va l (is_mem _ _ _ _ _ _ _ Hi me p Hp Hu) Hva) as Hc.
  destruct (acopyout _ _ _ _) as [m' ok]. destruct Hc as (Hrun & Hpm & Hout). apply wp_onk. eapply wp_eq; [exact Hrun|].
  eapply kept_apart_of; [done|]. by eapply isolated_write.
Qed.

(** ** [wait] *)
Lemma pmem_root k L T D root sz tf : pmem k L T D root sz tf → root ≠ 0.
Proof.
  intros Hpm. pose proof (as_tab _ _ _ _ _ _ (pm_as _ _ _ _ _ _ _ _ _ (pm_ppt _ _ _ _ _ _ _ _ _ Hpm))) as Ht.
  destruct (page_bounds kend Hend root); [apply (pt_page _ _ _ _ Ht []), Ht|lia].
Qed.

Lemma reap_isolated s A P L sp me p pp q addr l1 l2 :
  isolated s A P L sp → ks_procs s !! me = Some p → p_state p ≠ UNUSED → p_state p ≠ ZOMBIE → 0 ≤ addr < 18446744073709551616 →
  each_proc = l1 ++ pp :: l2 → existsb (is_zombie_child me s) l1 = false → ks_procs s !! pp = Some q →
  p_parent q = Some me → p_state q = ZOMBIE → wp (wait kend me addr) s (λ _ s', kept_apart me s A sp s').
Proof.
  intros Hi Hp Hu Hz Haddr Heach H1 Hq Hpar Hst. assert (pp ≠ me) as Hne by (intros ->; congruence).
  pose proof (is_mem _ _ _ _ _ _ _ Hi me p Hp Hu) as Hpm. assert (p_state q ≠ UNUSED) as Hqu by congruence.
  pose proof (is_mem _ _ _ _ _ _ _ Hi pp q Hq Hqu) as Hpmc. pose proof (is_apart _ _ _ _ _ _ _ Hi me pp p q (not_eq_sym Hne) Hp Hq) as Hap.
  rewrite !owned_live in Hap by done. pose proof (is_proc _ _ _ _ _ _ _ Hi pp q Hq) as Hqok.
  destruct (po_closed q Hqok (or_intror Hst)) as [Hof Hcw].
  pose proof (wait_reap kend trampoline Hend Htr s L me p pp q addr (sp me).1 (sp me).2 (sp pp).1 (sp pp).2 l1 l2 (λ _ s', kept_apart me s A sp s') ltac:(apply Hi) Hp Hq Heach H1) as Hw.
  assert (∃ m' ok, status_copy (sp me).2 (k_mem (ks_k s)) addr (p_xstate q) = (m', ok) ∧
    pmem (kset_mem m' (ks_k s)) L (sp me).1 (sp me).2 (p_pagetable p) (p_sz p) (p_trapframe p) ∧
    outside (own_set (sp me).1 (sp me).2 (p_sz p) (p_trapframe p)) (k_mem (ks_k s)) m') as (m' & ok & Hcopy & Hpm' & Hout').
  { unfold status_copy. destruct (addr =? 0); [exists (k_mem (ks_k s)), true; split_and!; [done|by rewrite kset_same|done]|].
    pose proof (copy_self _ _ _ _ _ _ _ addr (le_bytes 4 (p_xstate q)) Hpm Haddr) as Hc. destruct (acopyout _ _ _ _) as [m' ok].
    exists m', ok. split; [done|]. by destruct Hc. }
  destruct (isolated_write s A P L sp me p m' Hi Hp Hu Hpm' Hout') as [Hi1 Hu1]. rewrite Hcopy in Hw. apply Hw; [|done|done| |done|done| |].
  - unfold is_zombie_child, is_child. rewrite Hq, !bool_decide_true by done. done.
  - by eapply pmem_root.
  - intros _. by eapply kept_apart_of.
  - intros k' L' _ Hk HL Hout. set (s1 := with_k s (kset_mem m' (ks_k s))) in *. assert (ks_procs s1 !! pp = Some q) as Hq1 by done.
    destruct (isolated_change kend trampoline Htr s1 A P L (place sp me (sp me)) pp q (with_proc (with_k s k') pp (freed q)) (freed q) (sp pp) L') as [Hi2 Hu2];
      [done|done|done| |done|done| | | |].
    + split; [apply Hqok|done|by intros _|done].
    + rewrite (owned_unused (sp pp) (freed q)), (right_id_L ∅ (∪)), owned_live, place_ne by done. done.
    + rewrite owned_live, place_ne by done. eapply outside_mono; [|exact Hout]. apply union_subseteq_r.
    + by apply (isolated_refs s1 A P L (place sp me (sp me)) pp q (freed q)).
    + split; [|by eapply (stays_other me s _ pp)]. eexists P, L', _. split; [exact Hi2|]. intros j Hj. destruct (decide (j = pp)) as [->|Hjp]; [right|left].
      * exists q, (freed q). split_and!; [done..|by eapply (with_proc_lookup (with_k s k'))|done].
      * eapply untouched_trans; [by apply Hu1|by apply Hu2].
Qed.

Lemma wait_isolated s A P L sp me p addr :
  isolated s A P L sp → ks_procs s !! me = Some p → p_state p ≠ UNUSED → p_state p ≠ ZOMBIE → 0 ≤ addr < 18446744073709551616 →
  wps (wait kend me addr) s (λ _, kept_apart me s A sp) (kept_apart me s A sp).
Proof.
  intros Hi Hp Hu Hz Haddr. destruct (existsb (is_zombie_child me s) each_proc) eqn:Hex.
  - apply existsb_first in Hex as (l1 & pp & l2 & Heach & H1 & H2). unfold is_zombie_child, is_child in H2.
    destruct (ks_procs s !! pp) as [q|] eqn:Hq; [|done]. apply andb_true_iff in H2 as [Hpar%bool_decide_eq_true Hst%bool_decide_eq_true].
    apply wp_wps. by eapply reap_isolated.
  - assert (kept_apart me s A sp s) as Hsame.
    { eapply kept_apart_all; [done|]. split; [exact Hi|]. intros j. apply untouched_refl. }
    unfold wps. rewrite (wait_none _ me s addr p) by (done || apply Hi). by destruct (_ && _).
Qed.

(** ** [exit] *)

Lemma quiet_files q q' : quiet q q' → open_files q' = open_files q.
Proof. intros (_ & Ho & _). unfold open_files. by rewrite Ho. Qed.
Lemma quiet_cwd q q' : quiet q q' → cwd_of q' = cwd_of q.
Proof. intros (_ & _ & Hc & _). unfold cwd_of. by rewrite Hc. Qed.

(** The entry of [me] becomes [p'], and the others change quietly. *)
Definition drift (me : nat) (l l' : list proc) (p' : proc) : Prop :=
  length l' = length l ∧ l' !! me = Some p' ∧ ∀ j q, j ≠ me → l !! j = Some q → ∃ q', l' !! j = Some q' ∧ quiet q q'.

Lemma drift_back me l l' p p' : l !! me = Some p → drift me l l' p' → Forall2 quiet l (<[me := p]> l').
Proof.
  intros Hp (Hlen & Hp' & Hall). apply Forall2_same_length_lookup. split; [by rewrite length_insert|]. intros i q q' Hq Hq'.
  destruct (decide (i = me)) as [->|Hne].
  - rewrite list_lookup_insert_eq in Hq' by (by eapply lookup_lt_Some). rewrite Hp in Hq. simplify_eq. apply quiet_refl.
  - rewrite list_lookup_insert_ne in Hq' by done. destruct (Hall i q Hne Hq) as (? & ? & ?). congruence.
Qed.

Lemma drift_quiet me l l' l'' p' p'' :
  drift me l l' p' → Forall2 quiet l' l'' → l'' !! me = Some p'' → drift me l l'' p''.
Proof.
  intros (Hlen & Hp' & Hall) Hq Hp''. split_and!; [rewrite <-Hlen; symmetry; by eapply Forall2_length|done|].
  intros j q Hne Hj. destruct (Hall j q Hne Hj) as (q1 & Hq1 & Hqq1). destruct (Forall2_lookup_l _ _ _ _ _ Hq Hq1) as (q2 & Hq2 & Hqq2).
  exists q2. split; [done|]. by eapply quiet_trans.
Qed.

Lemma drift_insert me l l' p' p'' : drift me l l' p' → drift me l (<[me := p'']> l') p''.
Proof.
  intros (Hlen & Hp' & Hall). split_and!; [by rewrite length_insert|apply list_lookup_insert_eq; by eapply lookup_lt_Some|].
  intros j q Hne Hj. rewrite list_lookup_insert_ne by done. by apply Hall.
Qed.

Lemma drift_trans me l l1 l2 p1 p2 : drift me l l1 p1 → drift me l1 l2 p2 → drift me l l2 p2.
Proof.
  intros (Hl1 & _ & H1) (Hl2 & Hp2 & H2). split_and!; [congruence|done|]. intros j q Hne Hj. destruct (H1 j q Hne Hj) as (q1 & Hj1 & Hq1).
  destruct (H2 j q1 Hne Hj1) as (q2 & Hj2 & Hq2). exists q2. split; [done|]. by eapply quiet_trans.
Qed.

Lemma drift_refl me l p : l !! me = Some p → drift me l l p.
Proof. intros Hp. split_and!; [done..|]. intros j q _ Hj. exists q. split; [done|apply quiet_refl]. Qed.

(** The caller gives up references. *)
Lemma isolated_drop s A P L sp me p s' P' L' p' X Y :
  isolated s A P L sp → ks_procs s !! me = Some p → drift me (ks_procs s) (ks_procs s') p' → same_memory p p' → proc_ok p' →
  kmem_ok kend (ks_k s') L' → list_to_set L' ∪ P' = list_to_set L ∪ P → (∀ r, r ∈ P' → r ∉ L') →
  outside (list_to_set L ∪ P) (k_mem (ks_k s)) (k_mem (ks_k s')) →
  total open_files (ks_procs s) = open_files p ⊎ X → total cwd_of (ks_procs s) = cwd_of p ⊎ Y →
  f_ok (ks_f s') (open_files p' ⊎ X) (cwd_of p' ⊎ Y) P' →
  isolated s' A P' L' sp ∧ ∀ j, untouched s sp s' sp j.
Proof.
  intros Hi Hp Hd Hsm Hok Hk Hset HPL Hout HX HY Hf. pose proof (drift_back _ _ _ _ _ Hp Hd) as Hq.
  assert (ks_procs s' = <[me := p']> (<[me := p]> (ks_procs s'))) as Hback.
  { rewrite list_insert_insert_eq. symmetry. apply list_insert_id, Hd. }
  assert (<[me := p]> (ks_procs s') !! me = Some p) as Hme.
  { apply list_lookup_insert_eq. destruct Hd as (_ & Hd & _). by eapply lookup_lt_Some. }
  assert (∀ f Z0, (∀ q q', quiet q q' → f q' = f q) → total f (ks_procs s) = f p ⊎ Z0 → total f (ks_procs s') = f p' ⊎ Z0) as Htot.
  { intros f Z0 Hqf HZ. destruct (total_split f _ me p Hme) as (R & HR & HR'). rewrite Hback, HR'. f_equal.
    apply (inj (f p ⊎.)). rewrite <-HR, <-HZ. apply total_same. eapply Forall2_impl; [exact Hq|exact Hqf]. }
  apply (isolated_rest kend trampoline Htr s A P L sp _ P' L'); [done| |done..|].
  - rewrite Hback. rewrite <-(list_insert_id (ks_procs s) me p) by done. apply Forall2_insert; [|done].
    apply Forall2_same_length_lookup. split; [by eapply Forall2_length|]. intros i q q' Hqi Hqi'.
    pose proof (Forall2_lookup_lr _ _ _ _ _ _ Hq Hqi Hqi') as Hqq. split; [apply Hqq|]. eapply quiet_ok; [done|]. by eapply (is_proc _ _ _ _ _ _ _ Hi).
  - by rewrite (Htot open_files X quiet_files HX), (Htot cwd_of Y quiet_cwd HY).
Qed.

Lemma refs_remove l i f : l !! i = Some (Some f) → refs l = refs (<[i := None]> l) ⊎ {[+ f +]}.
Proof.
  intros Hi. rewrite <-(take_drop_middle l i (Some f)) at 1 by done. rewrite insert_take_drop by (by eapply lookup_lt_Some).
  rewrite !refs_app. change (Some f :: drop (S i) l) with ([Some f] ++ drop (S i) l). change (None :: drop (S i) l) with ([None] ++ drop (S i) l).
  rewrite !refs_app. change (refs [None]) with (∅ : gmultiset nat). rewrite (left_id_L ∅ (⊎)).
  replace (refs [Some f]) with ({[+ f +]} : gmultiset nat) by (symmetry; apply (right_id_L ∅ (⊎))).
  rewrite <-!(assoc_L (⊎)). f_equal. apply (comm_L (⊎)).
Qed.

(** What is left of the caller in the course of [exit]. *)
Record leaving (me : nat) s A sp (p : proc) s' (p' : proc) : Prop := {
  lv_iso : ∃ P' L', isolated s' A P' L' sp;
  lv_mem j : untouched s sp s' sp j;
  lv_me : ks_procs s' !! me = Some p';
  lv_state : p_state p' = p_state p;
  lv_init : ks_initproc s' = ks_initproc s
}.

Context `{CL : !CloseLaws F kend} `{EO : !ExecOps F}.

Lemma close_file s A sp me p s1 p1 fd f :
  leaving me s A sp p s1 p1 → p_state p ≠ UNUSED → p_state p ≠ ZOMBIE → p_ofile p1 !! fd = Some (Some f) →
  wp (cs ← onf (fileclose f); wakeups (Some me) cs ;; setp me (λ p, pset_ofile (<[fd := None]> (p_ofile p)) p)) s1
    (λ _ s2, leaving me s A sp p s2 (pset_ofile (<[fd := None]> (p_ofile p1)) p1)).
Proof.
  intros [(P & L & Hi) Hun Hp1 Hst Hin] Hu Hz Hf. pose proof (is_proc _ _ _ _ _ _ _ Hi me p1 Hp1) as Hok.
  destruct (total_split open_files (ks_procs s1) me p1 Hp1) as (X & HX & _). destruct (total_split cwd_of (ks_procs s1) me p1 Hp1) as (Y & HY & _).
  set (p2 := pset_ofile (<[fd := None]> (p_ofile p1)) p1).
  assert (open_files p1 = open_files p2 ⊎ {[+ f +]}) as Hof by (by apply refs_remove).
  wp_step. apply wp_lift. eapply wp_mono.
  - apply (fileclose_law (ks_k s1) L (ks_f s1) (open_files p2 ⊎ X) (total cwd_of (ks_procs s1)) P f).
    + replace (open_files p2 ⊎ X ⊎ {[+ f +]}) with (total open_files (ks_procs s1)); [apply Hi|]. rewrite HX, Hof.
      rewrite <-!(assoc_L (⊎)). f_equal. apply (comm_L (⊎)).
    + apply Hi.
    + intros r Hr. by destruct (is_pipes _ _ _ _ _ _ _ Hi r Hr) as (? & ? & _).
  - intros cs [k' fs'] (L' & P' & Hk & Hset & HPL & Hout & Hfs). cbn in Hk, Hout, Hfs.
    wp_step. change (KState _ _ _ _ _ _) with (at_kf s1 k' fs'). apply wakeups_spec; [apply Hi|]. intros sw Hw.
    assert (ks_procs sw !! me = Some p1) as Hsw by (by rewrite (wk_me _ _ _ Hw)). eapply wp_setp; [exact Hsw|]. fold p2.
    assert (ks_k sw = k' ∧ ks_f sw = fs') as [Hkw Hfw] by (by rewrite (wk_rest _ _ _ Hw)).
    destruct (isolated_drop s1 A P L sp me p1 (with_proc sw me p2) P' L' p2 X Y) as [Hi2 Hu2]; cbn; rewrite ?Hkw, ?Hfw; try done.
    + eapply drift_insert, drift_quiet; [by apply drift_refl|by apply (woken_quiet me (at_kf s1 k' fs'))|done].
    + split; [cbn; rewrite length_insert; apply Hok|cbn; congruence|cbn; rewrite Hst; tauto|cbn; apply Hok].
    + change (cwd_of p2) with (cwd_of p1). by rewrite <-HY.
    + split; [by exists P', L'| |by eapply with_proc_lookup|done|].
      * intros j. by eapply untouched_trans.
      * cbn. rewrite (wk_rest _ _ _ Hw). exact Hin.
Qed.

(** The process tables of two states, with everything else the same. *)
Record drifted (me : nat) s s' (p p' : proc) : Prop := {
  dr_k : ks_k s' = ks_k s;
  dr_f : ks_f s' = ks_f s;
  dr_init : ks_initproc s' = ks_initproc s;
  dr_procs : drift me (ks_procs s) (ks_procs s') p';
  dr_me : quiet p p' ∧ p_state p' = p_state p
}.

Lemma drifted_len me s s' p p' : drifted me s s' p p' → length (ks_procs s') = length (ks_procs s).
Proof. intros Hd. apply Hd. Qed.

Lemma drifted_woken me s s1 s2 p p1 : drifted me s s1 p p1 → woken me s1 s2 → drifted me s s2 p p1.
Proof.
  intros [H1 H2 H3 H4 H5] Hw. destruct (wk_rest _ _ _ Hw). split; [by rewrite (wk_rest _ _ _ Hw)..| |done].
  eapply drift_quiet; [exact H4|by eapply woken_quiet|]. rewrite (wk_me _ _ _ Hw). apply H4.
Qed.

(** Any entry changes quietly; the caller's keeps its state. *)
Lemma drifted_set me s s1 p p1 i q q' :
  drifted me s s1 p p1 → ks_procs s1 !! i = Some q → quiet q q' → p_state q' = p_state q → ∃ p2, drifted me s (with_proc s1 i q') p p2.
Proof.
  intros [H1 H2 H3 H4 [H5 H6]] Hq Hqq Hst. pose proof H4 as (_ & Hp1 & _). destruct (decide (i = me)) as [->|Hne].
  - exists q'. rewrite Hp1 in Hq. injection Hq as <-. split; [done..|by eapply drift_insert|]. split; [by eapply quiet_trans|congruence].
  - exists p1. split; [done..| |done]. cbn. eapply drift_quiet; [exact H4|by eapply quiet_insert|]. by rewrite list_lookup_insert_ne.
Qed.

Lemma drifted_some me s s' p p' i : drifted me s s' p p' → length (ks_procs s) = NPROC → (i < NPROC)%nat → ∃ q, ks_procs s' !! i = Some q.
Proof. intros Hd Hlen Hi. apply lookup_lt_is_Some_2. by rewrite (drifted_len _ _ _ _ _ Hd), Hlen. Qed.

Lemma reparent_drift me s s0 p p0 (Q : unit → kstate F → Prop) :
  drifted me s s0 p p0 → length (ks_procs s) = NPROC → (∀ s' p', drifted me s s' p p' → Q tt s') → wp (reparent me) s0 Q.
Proof.
  intros Hd Hlen HQ. eapply wp_mono; [apply (wp_mfor_seq NPROC _ (λ _ s', ∃ p', drifted me s s' p p')); [by exists p0|]|].
  - intros i s1 Hi (p1 & Hd1). destruct (drifted_some _ _ _ _ _ i Hd1 Hlen Hi) as [q Hq]. wp_step. eapply wp_getp; [exact Hq|].
    case_bool_decide as Hpar; cbn [mwhen]; [|wp_step; by exists p1]. wp_step. wp_step. wp_step. eapply wp_setp; [exact Hq|].
    destruct (drifted_set me s s1 p p1 i q (pset_parent (ks_initproc s1) q) Hd1 Hq) as [p2 Hd2]; [by repeat split|done|].
    destruct (ks_initproc s1) as [ini|]; [|wp_step; by exists p2].
    apply wakeup_spec; [by rewrite (drifted_len _ _ _ _ _ Hd2)|]. intros s3 Hw. exists p2. by eapply drifted_woken.
  - intros [] s' (p' & Hd'). by eapply HQ.
Qed.

(** From [p->cwd = 0;] on. *)
Lemma exit_tail me s p status (Q : unit → kstate F → Prop) :
  ks_procs s !! me = Some p → p_state p ≠ UNUSED → length (ks_procs s) = NPROC →
  (∀ s' p', ks_k s' = ks_k s → ks_f s' = ks_f s → drift me (ks_procs s) (ks_procs s') p' → same_memory p p' →
     p_ofile p' = p_ofile p → p_cwd p' = None → p_state p' = ZOMBIE → Q tt s') →
  wp (setp me (pset_cwd None) ;; reparent me ;; p ← getp me;
      (match p_parent p with Some pp => wakeup (Some me) (proc_chan pp) | None => mret tt end) ;;
      setp me (pset_xstate status) ;; setp me (pset_state ZOMBIE)) s Q.
Proof.
  intros Hp Hun Hlen HQ. pset. set (p0 := pset_cwd None p). set (s0 := with_proc s me p0).
  assert (ks_procs s0 !! me = Some p0) as Hp0 by (by eapply with_proc_lookup).
  assert (length (ks_procs s0) = NPROC) as Hlen0 by (cbn; by rewrite length_insert).
  assert (drift me (ks_procs s) (ks_procs s0) p0) as Hd0 by (by eapply drift_insert, drift_refl).
  assert (drifted me s0 s0 p0 p0) as Hr0 by (split; [done..|by apply drift_refl|split; [apply quiet_refl|done]]).
  wp_step. eapply reparent_drift; [exact Hr0|done|]. intros s1 p1 Hd1. pose proof (dr_procs _ _ _ _ _ Hd1) as (_ & Hp1 & _).
  wp_step. pget. wp_step.
  assert (∀ s2, drifted me s0 s2 p0 p1 → wp (setp me (pset_xstate status) ;; setp me (pset_state ZOMBIE)) s2 Q) as Hend2.
  { intros s2 Hd2. pose proof (dr_procs _ _ _ _ _ Hd2) as (_ & Hp2 & _). pset. eapply wp_setp; [by eapply with_proc_lookup|]. rewrite with_proc_twice.
    set (z := pset_state ZOMBIE (pset_xstate status p1)). pose proof (dr_me _ _ _ _ _ Hd2) as [((Hpt & Hsz & Htf & Hu) & Hof & Hcw & _) Hst].
    apply (HQ _ z); [apply Hd2|apply Hd2| | |done|done|done].
    - cbn. destruct (dr_procs _ _ _ _ _ Hd2) as (Hl & _ & Hall). apply (drift_insert me _ _ p1). split_and!; [rewrite Hl; apply Hd0|done|].
      intros j q Hne Hj. apply Hall; [done|]. cbn. by rewrite list_lookup_insert_ne.
    - split_and!; done. }
  destruct (p_parent p1) as [pp|]; [|wp_step; by apply Hend2].
  apply wakeup_spec; [by rewrite (drifted_len _ _ _ _ _ Hd1)|]. intros s2 Hw. apply Hend2. by eapply drifted_woken.
Qed.

(** Every file is closed. *)
Lemma exit_files s A P L sp me p :
  isolated s A P L sp → ks_procs s !! me = Some p → p_state p ≠ UNUSED → p_state p ≠ ZOMBIE →
  wp (mfor (seq 0 NOFILE) (λ fd,
    p ← getp me;
    f ← mnth (p_ofile p !! fd);
    match f with
    | Some f => cs ← onf (fileclose f); wakeups (Some me) cs ;; setp me (λ p, pset_ofile (<[fd := None]> (p_ofile p)) p)
    | None => mret tt
    end)) s (λ _ s1, ∃ p1, leaving me s A sp p s1 p1 ∧ p_ofile p1 = replicate NOFILE None).
Proof.
  intros Hi Hp Hu Hz.
  assert (leaving me s A sp p s p) as Hl0 by (split; [by exists P, L|intros j; apply untouched_refl|done..]).
  eapply wp_mono; [apply (wp_mfor_seq NOFILE _ (λ i s1, ∃ p1, leaving me s A sp p s1 p1 ∧ ∀ k, (k < i)%nat → p_ofile p1 !! k = Some None));
    [exists p; split; [done|lia]|]|].
  - intros i s1 Hlt (p1 & Hl & Hnone). pose proof Hl as [(P1 & L1 & Hi1) _ Hp1 Hst1 _]. wp_step. pget.
    destruct (lookup_lt_is_Some_2 (p_ofile p1) i) as [o Ho]; [rewrite (po_files _ (is_proc _ _ _ _ _ _ _ Hi1 me p1 Hp1)); lia|].
    wp_step. eapply wp_mnth; [exact Ho|]. destruct o as [f|].
    + eapply wp_mono; [by eapply close_file|]. intros [] s2 Hl2. eexists. split; [exact Hl2|]. intros k Hk. cbn.
      destruct (decide (k = i)) as [->|Hne]; [apply list_lookup_insert_eq; by eapply lookup_lt_Some|].
      rewrite list_lookup_insert_ne by done. apply Hnone. lia.
    + wp_step. exists p1. split; [done|]. intros k Hk. destruct (decide (k = i)) as [->|]; [done|apply Hnone; lia].
  - intros [] s1 (p1 & Hl & Hnone). exists p1. split; [done|]. pose proof Hl as [(P1 & L1 & Hi1) _ Hp1 _ _].
    apply list_eq_same_length with NOFILE; [apply length_replicate|apply (is_proc _ _ _ _ _ _ _ Hi1 me p1 Hp1)|]. intros i x y Hi' Hx Hy.
    rewrite Hnone in Hx by done. rewrite lookup_replicate_2 in Hy by done. congruence.
Qed.

Lemma exit_isolated s A P L sp me p status :
  isolated s A P L sp → ks_procs s !! me = Some p → p_state p ≠ UNUSED → p_state p ≠ ZOMBIE → ks_initproc s ≠ Some me →
  wp (exit me status) s (λ _ s', ∃ P' L' p', isolated s' A P' L' sp ∧ (∀ j, untouched s sp s' sp j) ∧
    ks_procs s' !! me = Some p' ∧ p_state p' = ZOMBIE).
Proof.
  intros Hi Hp Hu Hz Hinit. unfold exit. wp_step. wp_step. rewrite decide_False by done. wp_step.
  eapply wp_mono; [by eapply exit_files|].
  intros [] s1 (p1 & [(P1 & L1 & Hi1) Hun1 Hp1 Hst1 Hin1] & Hno). pose proof (is_proc _ _ _ _ _ _ _ Hi1 me p1 Hp1) as Hok1.
  wp_step. pget. destruct (po_cwd p1 Hok1) as [ip Hip]; [congruence..|]. rewrite Hip.
  destruct (total_split open_files (ks_procs s1) me p1 Hp1) as (X & HX & _). destruct (total_split cwd_of (ks_procs s1) me p1 Hp1) as (Y & HY & _).
  assert (cwd_of p1 = {[+ ip +]}) as Hcw by (unfold cwd_of; by rewrite Hip).
  pose proof (iput_law (ks_k s1) (ks_f s1) (total open_files (ks_procs s1)) Y P1 ip) as Hlaw.
  rewrite (comm_L (⊎) Y), <-Hcw, <-HY in Hlaw. specialize (Hlaw ltac:(apply Hi1)).
  wp_step. apply wp_lift. eapply wp_mono; [exact Hlaw|]. intros [] [k1 f1] [Hk1 Hw1]. cbn in Hk1. subst k1.
  wp_step. apply wp_lift. eapply wp_mono; [exact Hw1|]. intros [] [k2 f2] [Hk2 Hw2]. cbn in Hk2. subst k2.
  wp_step. apply wp_lift. eapply wp_mono; [exact Hw2|]. intros cs [k3 f3] [Hk3 Hf3]. cbn in Hk3, Hf3. subst k3.
  match goal with |- wp _ ?st _ => change st with (at_kf s1 (ks_k s1) f3) end.
  wp_step. apply wakeups_spec; [apply Hi1|]. intros sw Hw. assert (ks_procs sw !! me = Some p1) as Hsw by (by rewrite (wk_me _ _ _ Hw)).
  assert (ks_k sw = ks_k s1 ∧ ks_f sw = f3) as [Hkw Hfw] by (by rewrite (wk_rest _ _ _ Hw)).
  eapply exit_tail; [exact Hsw|congruence|rewrite (woken_length _ _ _ Hw); apply Hi1|].
  intros s' p' Hk' Hf' Hd' Hsm Hof Hcw' Hst'. rewrite Hkw in Hk'. rewrite Hfw in Hf'.
  destruct (isolated_drop s1 A P1 L1 sp me p1 s' P1 L1 p' X Y) as [Hi2 Hu2]; rewrite ?Hk', ?Hf'; try done.
  - eapply drift_trans; [|exact Hd']. eapply drift_quiet; [by apply drift_refl|by apply (woken_quiet me (at_kf s1 (ks_k s1) f3))|done].
  - split; [rewrite Hof; apply Hok1|congruence|intros _; by rewrite Hof|congruence].
  - apply Hi1.
  - intros r Hr. by destruct (is_pipes _ _ _ _ _ _ _ Hi1 r Hr) as (? & ? & _).
  - unfold open_files, cwd_of in *. rewrite Hof, Hcw', <-HX, (left_id_L ∅ (⊎)). exact Hf3.
  - exists P1, L1, p'. split_and!; [done| |apply Hd'|done]. intros j. by eapply untouched_trans.
Qed.

(** ** [exec] *)
Context `{PL : !PathLaws F}.

Lemma exec_isolated s A P L sp me p path argv args :
  isolated s A P L sp → ks_procs s !! me = Some p → p_state p ≠ UNUSED →
  Forall2 (kstring (k_mem (ks_k s)) L) argv args → (length args < MAXARG)%nat →
  wp (exec kend trampoline me path argv) s (λ _ s', kept_apart me s A sp s').
Proof.
  intros Hi Hp Hu Hargs Hn. pose proof (is_mem _ _ _ _ _ _ _ Hi me p Hp Hu) as Hpm.
  destruct (path_law _ _ _ _ path (is_files _ _ _ _ _ _ _ Hi)) as [data Hst].
  assert (∀ sw k f L' x p', woken me s sw → f_ok f (total open_files (ks_procs s)) (total cwd_of (ks_procs s)) P → kmem_ok kend k L' →
    p_ofile p' = p_ofile p → p_cwd p' = p_cwd p → p_state p' = p_state p →
    pmem k L' x.1 x.2 (p_pagetable p') (p_sz p') (p_trapframe p') →
    list_to_set L' ∪ own_set x.1 x.2 (p_sz p') (p_trapframe p') = list_to_set L ∪ own_set (sp me).1 (sp me).2 (p_sz p) (p_trapframe p) →
    outside (list_to_set L ∪ own_set (sp me).1 (sp me).2 (p_sz p) (p_trapframe p)) (k_mem (ks_k s)) (k_mem k) →
    kept_apart me s A sp (with_proc (at_kf sw k f) me p')) as Hchange.
  { intros sw k f L' x p' Hw Hf Hk Hof Hcw Hst' Hpm' Hset Hout. pose proof (wk_rest _ _ _ Hw) as Hrest.
    destruct (isolated_quiet kend trampoline Htr s A P L sp sw Hi) as [Hiw Huw]; [by rewrite Hrest..|by eapply woken_quiet|].
    assert (ks_procs sw !! me = Some p) as Hpw by (by rewrite (wk_me _ _ _ Hw)).
    assert (ks_k sw = ks_k s) as Hkw by (by rewrite Hrest). pose proof (is_proc _ _ _ _ _ _ _ Hi me p Hp) as [? ? ? ?].
    destruct (isolated_change kend trampoline Htr sw A P L sp me p (with_proc (at_kf sw k f) me p') p' x L') as [Hi2 Hu2];
      [done|done|done| |done|done| | | |].
    - split; rewrite ?Hst', ?Hof, ?Hcw; done.
    - by rewrite !owned_live by congruence.
    - rewrite owned_live by done. by rewrite Hkw.
    - destruct (total_split open_files _ me p Hpw) as (X & HX & HX'). destruct (total_split cwd_of _ me p Hpw) as (Y & HY & HY').
      cbn [ks_procs ks_f with_proc at_kf]. rewrite HX', HY'. unfold open_files, cwd_of in *. rewrite Hof, Hcw, <-HX, <-HY.
      by rewrite (total_same open_files (ks_procs s)), (total_same cwd_of (ks_procs s))
        by (eapply Forall2_impl; [by eapply woken_quiet|]; first [apply quiet_files|apply quiet_cwd]).
    - eapply kept_apart_of; [etrans; [by eapply (stays_set me sw _ p)|by apply stays_woken]|]. split; [exact Hi2|]. intros j Hj. eapply untouched_trans; [apply Huw|by apply Hu2]. }
  eapply (exec_spec kend trampoline Hend Htr s L me p (sp me).1 (sp me).2 path argv args _ ltac:(apply Hi) Hp Hpm Hargs Hn data); [exact Hst| |].
  - intros g r s' _ (sw & k & f & L' & T' & D' & root & _ & -> & Hw & Hf & [Hm Hpg _ _ _ _ _ _ Hout]).
    apply (Hchange sw k f L' (T', D')); [done|exact Hf|apply Hm|done..].
  - intros r s' (sw & k & f & _ & -> & Hw & Hf & (L' & Hk & HL & Hout)) _.
    assert (ks_procs (at_kf sw k f) !! me = Some p) as Hpw by (cbn; by rewrite (wk_me _ _ _ Hw)).
    rewrite <-(with_proc_same (at_kf sw k f) me p) by done. apply (Hchange sw k f L' (sp me)); [done|exact Hf|done..| |by rewrite HL|].
    + eapply (pmem_frame kend trampoline Htr); [exact Hpm|done| |].
      * intros r' Hr' HrL. destruct (own_set_page _ _ _ _ _ _ _ _ _ r' Hpm Hr') as [_ HrL']. apply HrL'.
        rewrite <-(elem_of_list_to_set (C:=gset Z)), <-HL. by apply elem_of_list_to_set.
      * intros r' a Hr' Ha. eapply (own_same kend trampoline); [exact Hpm|exact Hout| |exact Ha]. unfold own_set. rewrite !elem_of_union. by left; left.
    + eapply outside_mono; [|exact Hout]. apply union_subseteq_l.
Qed.

(** ** Operations that change the states of processes only *)
Lemma set_quiet s A P L sp i q q' :
  isolated s A P L sp → ks_procs s !! i = Some q → quiet q q' →
  isolated (with_proc s i q') A P L sp ∧ ∀ j, untouched s sp (with_proc s i q') sp j.
Proof. intros Hi Hq Hqq. apply (isolated_quiet kend trampoline Htr s A P L sp); [done..|]. by eapply quiet_insert. Qed.

Lemma wakeups_isolated s A P L sp me cs :
  isolated s A P L sp → wp (wakeups (Some me) cs) s (λ _ s', isolated s' A P L sp ∧ ∀ j, untouched s sp s' sp j).
Proof.
  intros Hi. apply wakeups_spec; [apply Hi|]. intros s' Hw. apply (isolated_quiet kend trampoline Htr s A P L sp); [done|by rewrite (wk_rest _ _ _ Hw)..|].
  by eapply woken_quiet.
Qed.

Lemma kill_isolated s A P L sp pid :
  isolated s A P L sp → wp (kill pid) s (λ _ s', (isolated s' A P L sp ∧ ∀ j, untouched s sp s' sp j) ∧
    ∀ me p, ks_procs s !! me = Some p → p_state p ≠ SLEEPING → stays me s s').
Proof.
  assert (∀ i q q' me p, ks_procs s !! i = Some q → (p_state q' = p_state q ∨ p_state q = SLEEPING) → ks_procs s !! me = Some p →
    p_state p ≠ SLEEPING → stays me s (with_proc s i q')) as Hstay.
  { intros i q q' me p Hq Hst Hp Hns. destruct (decide (i = me)) as [->|Hne]; [|by eapply stays_other].
    eapply stays_set; [exact Hq|done|]. destruct Hst; [done|congruence]. }
  intros Hi. unfold kill, each_proc. wp_step. apply (wp_mfind_seq 0 NPROC _ (λ _ s', s' = s)); [done| |].
  - intros i s' Hlt ->. destruct (lookup_lt_is_Some_2 (ks_procs s) i) as [q Hq]; [rewrite (is_len _ _ _ _ _ _ _ Hi); lia|].
    wp_step. eapply wp_getp; [exact Hq|]. destruct (p_pid q =? pid); [|by wp_step]. pset. wp_step. case_bool_decide as Hs; cbn [mwhen].
    + eapply wp_setp; [by eapply with_proc_lookup|]. rewrite with_proc_twice. wp_step. wp_step. split; [|intros me p; eapply Hstay; [done|by right]].
      apply (set_quiet s A P L sp i q); [done..|]. by repeat split; cbn; rewrite ?Hs.
    + wp_step. wp_step. wp_step. split; [by apply (set_quiet s A P L sp i q)|intros me p; eapply Hstay; [done|by left]].
  - intros s' ->. wp_step. split; [|done]. split; [done|]. intros j. apply untouched_refl.
Qed.

(** ** Pages that belong to nobody *)

(** The free pages become [L'], and some pages [W] that no process has are written. *)
Lemma isolated_pages s A P L sp k' L' A' (W : gset Z) :
  isolated s A P L sp → kmem_ok kend k' L' → outside W (k_mem (ks_k s)) (k_mem k') → (∀ p, p ∈ W → page_ok kend p) →
  (∀ p i q, ks_procs s !! i = Some q → p ∈ owned (sp i) q → (p ∉ W) ∧ p ∉ L') → (∀ p, p ∈ P → p ∉ L') →
  (∀ p, p ∈ A' ↔ p ∈ L' ∨ p ∈ P ∨ ∃ i q, ks_procs s !! i = Some q ∧ p ∈ owned (sp i) q) →
  isolated (with_k s k') A' P L' sp ∧ ∀ j, untouched s sp (with_k s k') sp j.
Proof.
  intros Hi Hk Hout HW Hown HP Hall.
  assert (∀ j q, ks_procs s !! j = Some q → ∀ p a, p ∈ owned (sp j) q → in_page p a → ld (k_mem k') a = ld (k_mem (ks_k s)) a) as Hsame.
  { intros j q Hj. eapply (pages_same kend); [exact Hout|done|by intros p Hp; apply (isolated_owned kend trampoline s A P L sp j q p Hi Hj Hp)|]. intros p Hp HpW. by destruct (Hown p j q Hj Hp). }
  split; [split|]; [apply Hi|done| |apply Hi|apply Hi|apply Hi| |done|].
  - intros j q Hq Hu. eapply (pmem_frame kend trampoline Htr); [by eapply (is_mem _ _ _ _ _ _ _ Hi)|done| |].
    + intros p Hp. rewrite <-owned_live in Hp by done. by eapply Hown.
    + intros p a Hp Ha. eapply Hsame; [exact Hq| |done]. rewrite owned_live by done. unfold own_set. rewrite !elem_of_union. by left; left.
  - intros p Hp. destruct (is_pipes _ _ _ _ _ _ _ Hi p Hp) as (? & _ & ?). split_and!; [done|by apply HP|done].
  - intros j q Hq Hu. exists q. split_and!; [done..|]. by eapply Hsame.
Qed.

Lemma kalloc_isolated s A P L sp (Q : Z → kstate F → Prop) :
  isolated s A P L sp → Q 0 s →
  (∀ pg k' L', L = pg :: L' → pg ≠ 0 → page_ok kend pg → outside {[pg]} (k_mem (ks_k s)) (k_mem k') →
     isolated (with_k s k') (A ∖ {[pg]}) P L' sp → (∀ j, untouched s sp (with_k s k') sp j) → Q pg (with_k s k')) →
  wp (onk kalloc) s Q.
Proof.
  intros Hi HQ0 HQ. apply wp_onk. apply (kalloc_spec kend Hend (ks_k s) L); [apply Hi|]. destruct L as [|pg L'].
  { by destruct s. }
  intros k' Hk Hpg HpL Hm.
  assert (outside {[pg]} (k_mem (ks_k s)) (k_mem k')) as Hout.
  { intros a Ha. rewrite Hm, decide_False; [done|]. apply Ha. set_solver. }
  assert (∀ p i q, ks_procs s !! i = Some q → p ∈ owned (sp i) q → (p ∉ ({[pg]} : gset Z)) ∧ p ∉ L') as Hown.
  { intros p i q Hq Hp. destruct (isolated_owned _ _ _ _ _ _ _ _ _ _ Hi Hq Hp) as [_ HpL']. set_solver. }
  destruct (isolated_pages s A P (pg :: L') sp k' L' (A ∖ {[pg]}) {[pg]}) as [Hi' Hu']; [done|done|done|set_solver|done| | |].
  - intros p Hp. destruct (is_pipes _ _ _ _ _ _ _ Hi p Hp) as (_ & ? & _). set_solver.
  - intros p. rewrite elem_of_difference, elem_of_singleton, (is_all _ _ _ _ _ _ _ Hi p), elem_of_cons.
    split; [tauto|]. intros [Hp|[Hp|(i & q & Hq & Hp)]].
    + split; [tauto|]. intros ->. done.
    + split; [tauto|]. intros ->. destruct (is_pipes _ _ _ _ _ _ _ Hi pg Hp) as (_ & ? & _). set_solver.
    + split; [right; right; by exists i, q|]. intros ->. destruct (Hown pg i q Hq Hp) as [? _]. set_solver.
  - apply (HQ pg k' L'); [done| |done..]. destruct (page_bounds kend Hend pg Hpg). lia.
Qed.

Lemma kfree_isolated s A P L sp pg (Q : unit → kstate F → Prop) :
  isolated s A P L sp → page_ok kend pg → pg ∉ A →
  (∀ k', isolated (with_k s k') (A ∪ {[pg]}) P (pg :: L) sp → (∀ j, untouched s sp (with_k s k') sp j) → Q tt (with_k s k')) →
  wp (onk (kfree kend pg)) s Q.
Proof.
  intros Hi Hpg HpA HQ. pose proof (λ p, is_all _ _ _ _ _ _ _ Hi p) as Hall. apply wp_onk. apply (kfree_spec kend Hend (ks_k s) L); [apply Hi|done| |].
  { intros HpL. apply HpA, Hall. by left. }
  intros k' Hk Hm. destruct (isolated_pages s A P L sp k' (pg :: L) (A ∪ {[pg]}) {[pg]}) as [Hi' Hu']; [done|done| |set_solver| | | |by apply HQ].
  - intros a Ha. apply Hm, Ha. set_solver.
  - intros p i q Hq Hp. destruct (isolated_owned _ _ _ _ _ _ _ _ _ _ Hi Hq Hp) as [_ ?].
    assert (p ≠ pg); [|set_solver]. intros ->. apply HpA, Hall. right; right. by exists i, q.
  - intros p Hp. destruct (is_pipes _ _ _ _ _ _ _ Hi p Hp) as (_ & ? & _). assert (p ≠ pg); [|set_solver]. intros ->. apply HpA, Hall. tauto.
  - intros p. rewrite elem_of_union, elem_of_singleton, (Hall p), elem_of_cons. tauto.
Qed.

(** Writing a page that belongs to nobody. *)
Lemma store_isolated s A P L sp pg m' :
  isolated s A P L sp → page_ok kend pg → pg ∉ A → bytes_mem m' → outside {[pg]} (k_mem (ks_k s)) m' →
  isolated (with_k s (kset_mem m' (ks_k s))) A P L sp ∧ ∀ j, untouched s sp (with_k s (kset_mem m' (ks_k s))) sp j.
Proof.
  intros Hi Hpg HpA Hb Hout. pose proof (λ p, is_all _ _ _ _ _ _ _ Hi p) as Hall.
  apply (isolated_pages s A P L sp _ L A {[pg]}); [done| |done|set_solver| | |done].
  - assert (pg ∉ L) as HpL by (intros HpL; apply HpA, Hall; by left). pose proof (is_k _ _ _ _ _ _ _ Hi) as Hk.
    apply kmem_ok_mem; [done|done|]. intros q a Hq Ha. apply Hout. intros r ->%elem_of_singleton Ha'. apply HpL.
    replace pg with q; [done|]. apply (pages_disjoint kend q pg a); [|done..]. eapply flist_pages; [apply Hk|done].
  - intros p i q Hq Hp. destruct (isolated_owned _ _ _ _ _ _ _ _ _ _ Hi Hq Hp) as [_ ?]. split; [|done].
    rewrite elem_of_singleton. intros ->. apply HpA, Hall. right; right. by exists i, q.
  - intros p Hp. by destruct (is_pipes _ _ _ _ _ _ _ Hi p Hp) as (_ & ? & _).
Qed.
End ops.
