(* ===== verification/TrapSafe.v ===== *)
(** * No system call can hurt another process

    The dispatch of kernel/syscall.c with the handlers of kernel/sysproc.c, and
    [sys_exec]: whatever a process puts in its registers and its memory, the call
    returns or sleeps without a panic or a fault, the pages of the machine are
    still shared out among the processes, and the memory of every other process is
    as it was. *)
From Stdlib Require Import ZArith Lia.
From stdpp Require Import prelude gmap gmultiset strings.
From S2P Require Import Prelude Bytes Param Str Riscv PhysMem Kalloc Vm VmSpec VmMap VmGrow VmFree VmCopy VmTheorems Spinlock Mutex Proc ProcSpec ProcGrow ProcFork ProcWait Exec ExecLoad ExecTheorems Console Machine Trap Isolation IsoOps.

#[local] Opaque memset st64 memmove.

(** ** Runs that may sleep *)
Section wps.
Context {S : Type}.

Lemma wps_bind {A B} (m : M S A) (k : A → M S B) s (R : B → S → Prop) (Q : S → Prop) :
  wps m s (λ a s', wps (k a) s' R Q) Q → wps (m ≫= k) s R Q.
Proof. unfold wps, mbind, M_bind. by destruct (m s). Qed.

Lemma wps_bind_wp {A B} (m : M S A) (k : A → M S B) s (R : B → S → Prop) (Q : S → Prop) :
  wp m s (λ a s', wps (k a) s' R Q) → wps (m ≫= k) s R Q.
Proof. intros H. apply wps_bind. by apply wp_wps. Qed.

Lemma wps_mono {A} (m : M S A) s (R R' : A → S → Prop) (Q Q' : S → Prop) :
  wps m s R Q → (∀ a s', R a s' → R' a s') → (∀ s', Q s' → Q' s') → wps m s R' Q'.
Proof. unfold wps. destruct (m s); auto. Qed.

Lemma wps_lift {T A} (get : S → T) (put : T → S → S) (m : M T A) s (R : A → S → Prop) (Q : S → Prop) :
  wps m (get s) (λ a t, R a (put t s)) (λ t, Q (put t s)) → wps (lift get put m) s R Q.
Proof. unfold wps, lift. by destruct (m (get s)). Qed.
End wps.

Lemma sysst_eta {F} (t : sysst F) : t = SysSt (sy_k t) (sy_mutex t) (sy_log t).
Proof. by destruct t. Qed.

(** A string that [copyinstr] finds. *)
Lemma acopyinstr_string D m va n l : acopyinstr D m va n = Some l → ∃ t, l = t ++ [0] ∧ 0 ∉ t.
Proof.
  revert va l. induction n as [|n IH]; intros va l; cbn [acopyinstr]; [done|]. destruct (utrans D PTE_V va) as [pa|]; [|done].
  destruct (Z.eqb_spec (ld m pa) 0) as [|Hne]; [intros [= <-]; exists []; split; [done|apply not_elem_of_nil]|].
  destruct (acopyinstr D m (va + 1) n) as [l'|] eqn:Hl; [|done]. intros [= <-]. destruct (IH _ _ Hl) as (t & -> & Ht).
  exists (ld m pa :: t). split; [done|]. rewrite elem_of_cons. intros [?|?]; [congruence|done].
Qed.

Lemma acopyin_bytes D m va n : bytes_mem m →
  Forall (λ b, 0 ≤ b < 256) (fst (acopyin D m va n)) ∧ (snd (acopyin D m va n) = true → length (fst (acopyin D m va n)) = n).
Proof.
  intros Hb. revert va. induction n as [|n IH]; intros va; cbn [acopyin]; [done|]. destruct (utrans D PTE_V va) as [pa|]; [|done].
  specialize (IH (va + 1)). destruct (acopyin D m (va + 1) n) as [l ok]. cbn in *. destruct IH as [IH1 IH2]. split.
  - constructor; [apply Hb|done].
  - intros Hok. by rewrite IH2.
Qed.

Lemma strlen_string t : 0 ∉ t → strlen (length (t ++ [0])) (list_ptr (t ++ [0])) = Some (length t).
Proof.
  intros H0. apply strlen_spec. rewrite length_app. cbn [length]. unfold list_ptr. split_and!; [lia| |].
  - by rewrite app_nth2, Nat.sub_diag by lia.
  - intros i Hi Heq. rewrite app_nth1 in Heq by lia. apply H0. rewrite <-Heq. rewrite list_elem_of_In. by apply nth_In.
Qed.

Section safe.
Context {F : Type} (kend trampoline forkret_pc : Z) `{FL : FileLaws F} `{EO : !ExecOps F} `{CL : !CloseLaws F kend} `{PL : !PathLaws F}.
Context (Hend : KERNBASE ≤ kend) (Htr : 0 ≤ trampoline < 18446744073709547520).
Implicit Types (s : kstate F) (L : list Z) (A P : gset Z) (sp : nat → space).
Abbreviation pmem := (pmem kend trampoline).
Abbreviation isolated := (isolated kend trampoline).
Abbreviation apart := (apart kend trampoline).
Abbreviation kept_apart := (kept_apart kend trampoline).

(** ** Arguments *)
Lemma tf_get_spec s me p off (Q : Z → kstate F → Prop) :
  ks_procs s !! me = Some p → Q (ld64 (k_mem (ks_k s)) (p_trapframe p + off)) s → wp (tf_get me off) s Q.
Proof. intros Hp HQ. unfold tf_get. wp_step. pget. apply wp_onk. unfold ldp. wp_step. by destruct s. Qed.

Lemma argraw_spec s A P L sp me p n (Q : Z → kstate F → Prop) :
  isolated s A P L sp → ks_procs s !! me = Some p → (n < 6)%nat →
  (∀ v, 0 ≤ v < 18446744073709551616 → Q v s) → wp (argraw me n) s Q.
Proof.
  intros Hi Hp Hn HQ. unfold argraw. rewrite (proj2 (Nat.ltb_lt _ _)) by done. apply (tf_get_spec s me p); [done|].
  apply HQ, ld64_range, (is_k _ _ _ _ _ _ _ Hi).
Qed.

Lemma argint_spec s A P L sp me p n (Q : Z → kstate F → Prop) :
  isolated s A P L sp → ks_procs s !! me = Some p → (n < 6)%nat →
  (∀ v, -2147483648 ≤ v < 2147483648 → Q v s) → wp (argint me n) s Q.
Proof.
  intros Hi Hp Hn HQ. unfold argint. wp_step. eapply argraw_spec; [done..|]. intros v Hv. wp_step. apply HQ. unfold s32. wordlia.
Qed.

Lemma fetchaddr_spec s A P L sp me p addr (Q : option Z → kstate F → Prop) :
  isolated s A P L sp → ks_procs s !! me = Some p → p_state p ≠ UNUSED → 0 ≤ addr < 18446744073709551616 →
  (∀ r, match r with Some v => 0 ≤ v < 18446744073709551616 | None => True end → Q r s) → wp (fetchaddr me addr) s Q.
Proof.
  intros Hi Hp Hu Ha HQ. pose proof (is_mem _ _ _ _ _ _ _ Hi me p Hp Hu) as Hpm. unfold fetchaddr. wp_step. pget.
  destruct (_ || _); [wp_step; by apply HQ|]. wp_step. apply wp_onk.
  pose proof (copyin_loop_spec kend Hend (Datatypes.S (Z.to_nat 8)) (ks_k s) L _ _ (p_pagetable p) addr 8
    (pm_as _ _ _ _ _ _ _ _ _ (pm_ppt _ _ _ _ _ _ _ _ _ Hpm)) (pmem_user_pages kend trampoline Htr _ _ _ _ _ _ _ Hpm) Ha ltac:(lia) ltac:(lia)) as Hrun.
  pose proof (acopyin_bytes (sp me).2 (k_mem (ks_k s)) addr (Z.to_nat 8) (ko_bytes _ _ _ (is_k _ _ _ _ _ _ _ Hi))) as [Hb Hl].
  destruct (acopyin _ _ _ _) as [l ok]. eapply wp_eq; [exact Hrun|]. cbn [fst snd] in *.
  rewrite with_k_same. destruct ok; cbn [Z.eqb negb]; wp_step; apply HQ; [|done].
  pose proof (le_val_range l Hb) as Hv. rewrite Hl in Hv by done. exact Hv.
Qed.

Lemma fetchstr_spec s A P L sp me p addr max (Q : list Z * Z → kstate F → Prop) :
  isolated s A P L sp → ks_procs s !! me = Some p → p_state p ≠ UNUSED → 0 ≤ addr < 18446744073709551616 → 0 ≤ max →
  (∀ buf r, Z.of_nat (length buf) ≤ max → bytes buf → r = -1 ∨ (∃ t, buf = t ++ [0] ∧ (0 ∉ t) ∧ r = Z.of_nat (length t)) → Q (buf, r) s) →
  wp (fetchstr me addr max) s Q.
Proof.
  intros Hi Hp Hu Ha Hm HQ. pose proof (is_mem _ _ _ _ _ _ _ Hi me p Hp Hu) as Hpm. unfold fetchstr. wp_step. pget. wp_step. apply wp_onk.
  destruct (copyinstr_loop_full kend Hend (Datatypes.S (Z.to_nat max)) (ks_k s) L _ _ (p_pagetable p) addr max
    (pm_as _ _ _ _ _ _ _ _ _ (pm_ppt _ _ _ _ _ _ _ _ _ Hpm)) (pmem_user_pages kend trampoline Htr _ _ _ _ _ _ _ Hpm) Ha Hm ltac:(lia))
    as (l & r & Hrun & Hl & Hb & Hres).
  eapply wp_eq; [exact Hrun|]. rewrite with_k_same. destruct (acopyinstr _ _ _ _) as [l'|] eqn:Hac.
  - destruct Hres as [-> ->]. destruct (acopyinstr_string _ _ _ _ _ Hac) as (t & -> & Ht). change (0 <? 0) with false. cbv match.
    wp_step. eapply wp_mnth; [by apply strlen_string|]. wp_step. apply HQ; [done|done|]. right. by exists t.
  - subst r. change (-1 <? 0) with true. cbv match. wp_step. apply HQ; [done|done|by left].
Qed.

(** Writing a register of the trap frame. *)
Lemma tf_store s A P L sp me p off v :
  isolated s A P L sp → ks_procs s !! me = Some p → p_state p ≠ UNUSED → 0 ≤ off ≤ 4088 →
  let s' := with_k s (kset_mem (st64 (k_mem (ks_k s)) (p_trapframe p + off) v) (ks_k s)) in
  ∃ sp', isolated s' A P L sp' ∧ ∀ j, j ≠ me → untouched s sp s' sp' j.
Proof.
  intros Hi Hp Hu Hoff. pose proof (is_mem _ _ _ _ _ _ _ Hi me p Hp Hu) as Hpm. set (m' := st64 _ _ v).
  destruct (pm_tfpage _ _ _ _ _ _ _ _ _ Hpm) as (Hpg & HtL & HtT & _).
  assert (outside {[p_trapframe p]} (k_mem (ks_k s)) m') as Hout.
  { intros a Ha. apply ld_st64_ne. specialize (Ha (p_trapframe p) ltac:(set_solver)). unfold in_page in Ha. lia. }
  eexists. apply (isolated_write kend trampoline Htr s A P L sp me p m' Hi Hp Hu).
  - apply (pmem_write kend trampoline Htr _ _ _ _ _ _ _ (p_trapframe p)); [done..| |done]. apply bytes_st64, (is_k _ _ _ _ _ _ _ Hi).
  - eapply outside_mono; [|exact Hout]. unfold own_set. apply union_subseteq_r.
Qed.

(** ** [sys_exec] *)

(** The state [s1], in which the pages [argv] have been taken from the free ones
    and nothing else has changed. *)
Record holding_pages s A P sp (argv : list Z) s1 L1 : Prop := {
  hp_state : s1 = with_k s (ks_k s1);
  hp_iso : isolated s1 (A ∖ list_to_set argv) P L1 sp;
  hp_mem j : untouched s sp s1 sp j;
  hp_pages pg : pg ∈ argv → page_ok kend pg ∧ pg ∈ A;
  hp_nodup : NoDup argv
}.

Lemma holding_none s A P L sp : isolated s A P L sp → holding_pages s A P sp [] s L.
Proof.
  intros Hi. split; [by rewrite with_k_same| |intros j; apply untouched_refl|by intros pg ?%not_elem_of_nil|constructor].
  cbn. by rewrite difference_empty_L.
Qed.

(** Freeing them. *)
Lemma free_args_spec s A P L sp l (Q : unit → kstate F → Prop) :
  isolated s (A ∖ list_to_set l) P L sp → NoDup l → (∀ pg, pg ∈ l → page_ok kend pg ∧ pg ∈ A) →
  (∀ k' L', isolated (with_k s k') A P L' sp → (∀ j, untouched s sp (with_k s k') sp j) → Q tt (with_k s k')) →
  wp (free_args kend l) s Q.
Proof.
  revert s L Q. unfold free_args. induction l as [|pg l IH]; intros s L Q Hi Hnd Hpg HQ; cbn [mfor].
  { wp_step. rewrite <-(with_k_same s) in *. apply (HQ _ L); [|intros j; apply untouched_refl]. cbn in Hi. by rewrite difference_empty_L in Hi. }
  apply NoDup_cons in Hnd as [Hnin Hnd]. destruct (Hpg pg) as [Hok HA]; [apply elem_of_cons; by left|].
  wp_step. eapply (kfree_isolated kend trampoline Hend Htr); [exact Hi|done|cbn; set_solver|]. intros k1 Hi1 Hu1.
  eapply (IH (with_k s k1) (pg :: L)); [|done|intros x Hx; apply Hpg; apply elem_of_cons; by right|].
  - replace (A ∖ list_to_set l) with (A ∖ list_to_set (pg :: l) ∪ {[pg]}); [done|]. apply set_eq. intros x. cbn.
    rewrite elem_of_union, !elem_of_difference, elem_of_union, !elem_of_singleton, !elem_of_list_to_set.
    destruct (decide (x = pg)) as [->|]; [|tauto]. split; [tauto|]. intros _. by right.
  - intros k' L' Hi' Hu'. apply (HQ k' L'); [done|]. intros j. eapply untouched_trans; [apply Hu1|apply Hu'].
Qed.

Lemma kstring_later m m' L L' pg a t :
  kstring m L a t → pg ∈ L → (∀ q, q ∈ L' → q ∈ L) → outside {[pg]} m m' → kstring m' L' a t.
Proof.
  intros [Hb H0 Hl Hap] Hpg Hsub Hout. split; [|done|done|].
  - rewrite <-Hb. apply ld_bytes_ext. intros b Hb'. apply Hout. intros q ->%elem_of_singleton. apply Hap; [lia|done].
  - intros b q Hb' Hq. apply Hap; [done|by apply Hsub].
Qed.

Lemma kstring_stored k L pg t :
  kmem_ok kend k L → page_ok kend pg → pg ∉ L → bytes (t ++ [0]) → 0 ∉ t → (length t < 4096)%nat →
  kstring (st_bytes (k_mem k) pg (t ++ [0])) L pg t.
Proof.
  intros Hk Hpg HpL Hb H0 Hl. split; [|done|done|].
  - replace (length t + 1)%nat with (length (t ++ [0])) by (rewrite length_app; cbn; lia). by apply ld_bytes_st.
  - intros b q Hbr Hq Hin. apply HpL. replace pg with q; [done|]. apply (pages_disjoint kend q pg b); [|done|done|unfold in_page; lia].
    eapply flist_pages; [apply Hk|done].
Qed.

(** One page more. *)
Lemma holding_more s A P sp argv s1 pg L2 k' m' :
  holding_pages s A P sp argv s1 (pg :: L2) → page_ok kend pg → isolated (with_k s1 k') ((A ∖ list_to_set argv) ∖ {[pg]}) P L2 sp →
  (∀ j, untouched s1 sp (with_k s1 k') sp j) → bytes_mem m' → outside {[pg]} (k_mem k') m' →
  holding_pages s A P sp (argv ++ [pg]) (with_k s1 (kset_mem m' k')) L2.
Proof.
  intros [Hs Hi Hm Hpg Hnd] Hok Hi' Hu' Hb Hout.
  assert (pg ∈ A ∖ list_to_set argv) as Hin by (apply (is_all _ _ _ _ _ _ _ Hi); left; apply elem_of_cons; by left).
  destruct (store_isolated kend trampoline Hend Htr (with_k s1 k') _ P L2 sp pg m' Hi') as [Hi2 Hu2]; [done|set_solver|done|done|].
  split.
  - cbn. by rewrite Hs.
  - replace (A ∖ list_to_set (argv ++ [pg])) with (A ∖ list_to_set argv ∖ {[pg]}); [exact Hi2|]. rewrite list_to_set_app_L. set_solver.
  - intros j. eapply untouched_trans; [apply Hm|]. eapply untouched_trans; [apply Hu'|apply Hu2].
  - intros x [Hx|Hx]%elem_of_app; [by apply Hpg|]. apply list_elem_of_singleton in Hx as ->. split; [done|set_solver].
  - apply NoDup_app. split_and!; [done| |apply NoDup_singleton]. intros x Hx ->%list_elem_of_singleton. set_solver.
Qed.

Lemma fetch_args_spec s A P L sp me p uargv (Q : list Z * bool → kstate F → Prop) :
  isolated s A P L sp → ks_procs s !! me = Some p → p_state p ≠ UNUSED →
  (∀ argv s1 L1 args, holding_pages s A P sp argv s1 L1 → Forall2 (kstring (k_mem (ks_k s1)) L1) argv args →
     (length args < MAXARG)%nat → Q (argv, true) s1) →
  (∀ argv s1 L1, holding_pages s A P sp argv s1 L1 → Q (argv, false) s1) →
  ∀ n i argv s1 L1 args, holding_pages s A P sp argv s1 L1 → Forall2 (kstring (k_mem (ks_k s1)) L1) argv args →
    (length args + n = MAXARG)%nat → wp (fetch_args me n uargv i argv) s1 Q.
Proof.
  intros Hi Hp Hu HQt HQf n. induction n as [|n IH]; intros i argv s1 L1 args Hh Hargs Hn; cbn [fetch_args]; [wp_step; by eapply HQf|].
  assert (ks_procs s1 !! me = Some p) as Hp1 by (by rewrite (hp_state _ _ _ _ _ _ _ Hh)).
  wp_step. eapply fetchaddr_spec; [apply Hh|done|done|apply u64_range|]. intros [uarg|] Hr; [|wp_step; by eapply HQf].
  destruct (Z.eqb_spec uarg 0); [wp_step; eapply HQt; [done..|lia]|].
  wp_step. apply (kalloc_isolated kend trampoline Hend Htr s1 (A ∖ list_to_set argv) P L1 sp); [apply Hh|cbn [Z.eqb]; wp_step; by eapply HQf|].
  intros pg k' L2 -> Hpg0 Hpg Hout Hi2 Hu2. rewrite (proj2 (Z.eqb_neq _ _)) by done.
  wp_step. eapply fetchstr_spec; [exact Hi2|done|done|done|by vm_compute|]. intros buf r Hl Hb Hbuf. change PGSIZE with 4096 in Hl.
  wp_step. apply wp_onk. wp_step. cbn [ks_k with_k k_mem kset_mem].
  set (m' := st_bytes (k_mem k') pg buf).
  assert (outside {[pg]} (k_mem k') m') as Hout'.
  { intros a Ha. specialize (Ha pg ltac:(set_solver)). unfold in_page in Ha. unfold m'. rewrite ld_st_bytes. apply decide_False. lia. }
  assert (bytes_mem m') as Hbm by (apply bytes_st_bytes, (is_k _ _ _ _ _ _ _ Hi2)).
  change (with_k (with_k s1 k') (kset_mem m' k')) with (with_k s1 (kset_mem m' k')).
  assert (holding_pages s A P sp (argv ++ [pg]) (with_k s1 (kset_mem m' k')) L2) as Hh2 by (by eapply holding_more).
  destruct (Z.ltb_spec r 0) as [Hneg|Hpos]; [wp_step; by eapply HQf|].
  destruct Hbuf as [->|(t & -> & Ht & ->)]; [lia|]. rewrite length_app in Hl. cbn in Hl.
  eapply (IH (i + 1) (argv ++ [pg]) _ L2 (args ++ [t])); [done| |rewrite length_app; cbn; lia].
  apply Forall2_app.
  - eapply Forall2_impl; [exact Hargs|]. intros a t' Hk. eapply (kstring_later _ _ _ _ pg); [exact Hk|apply elem_of_cons; by left|intros q Hq; apply elem_of_cons; by right|].
    cbn [ks_k with_k k_mem kset_mem]. intros a' Ha'. by rewrite Hout', Hout.
  - constructor; [|constructor]. apply kstring_stored; [apply Hi2|done| |done|done|lia].
    pose proof (ko_nodup _ _ _ (is_k _ _ _ _ _ _ _ (hp_iso _ _ _ _ _ _ _ Hh))) as Hnd. by apply NoDup_cons in Hnd as [? _].
Qed.

Lemma kept_apart_refl me s A P L sp : isolated s A P L sp → kept_apart me s A sp s.
Proof. intros Hi. eapply kept_apart_all; [done|]. split; [exact Hi|]. intros j. apply untouched_refl. Qed.

Lemma sys_exec_safe s A P L sp me p :
  isolated s A P L sp → ks_procs s !! me = Some p → p_state p ≠ UNUSED →
  wp (sys_exec_k kend trampoline me) s (λ _ s', kept_apart me s A sp s').
Proof.
  intros Hi Hp Hu. unfold sys_exec_k, argaddr, argstr. pose proof (kept_apart_refl me s A P L sp Hi) as Hrefl.
  wp_step. eapply argraw_spec; [done|done|lia|]. intros uargv _.
  wp_step. wp_step. eapply argraw_spec; [done|done|lia|]. intros a Ha. eapply fetchstr_spec; [done..|by vm_compute|]. intros path r _ _ _.
  destruct (r <? 0); [by wp_step|]. wp_step.
  apply (fetch_args_spec s A P L sp me p uargv) with (L1 := L) (args := []); [done|done|done| | |by apply holding_none|constructor|done].
  - intros argv s1 L1 args Hh Hargs Hn. assert (ks_procs s1 !! me = Some p) as Hp1 by (by rewrite (hp_state _ _ _ _ _ _ _ Hh)).
    wp_step. eapply wp_mono; [eapply (exec_isolated kend trampoline Hend Htr s1); [apply Hh|done|done|exact Hargs|done]|].
    intros ret s2 [(P2 & L2 & sp2 & Hi2 & Hu2) Hst2]. wp_step.
    eapply free_args_spec; [exact Hi2|apply Hh|apply Hh|]. intros k3 L3 Hi3 Hu3. wp_step. split.
    + exists P2, L3, sp2. split; [exact Hi3|]. intros j Hj. destruct (Hu2 j Hj) as [Hun|(q & q' & Hq & ?)]; [left|right].
      * eapply untouched_trans; [apply Hh|]. by eapply untouched_trans.
      * exists q, q'. rewrite (hp_state _ _ _ _ _ _ _ Hh) in Hq. done.
    + unfold stays in *. rewrite (hp_state _ _ _ _ _ _ _ Hh) in Hst2. exact Hst2.
  - intros argv s1 L1 Hh. wp_step. eapply free_args_spec; [apply Hh|apply Hh|apply Hh|]. intros k3 L3 Hi3 Hu3. wp_step.
    eapply kept_apart_all; [|split; [exact Hi3|]].
    + unfold stays. by rewrite (hp_state _ _ _ _ _ _ _ Hh).
    + intros j. eapply untouched_trans; [apply Hh|apply Hu3].
Qed.

(** ** The calls *)
Context (me : nat) (junk : list Z) (file_call : Z → M (sysst F) Z).
Implicit Types t : sysst F.

(** The processes and the mutexes, as a call finds them. *)
Record sys_ok t A P L sp (p : proc) : Prop := {
  so_iso : isolated (sy_k t) A P L sp;
  so_mutex : length (sy_mutex t) = MAX_MUTEXES;
  so_me : ks_procs (sy_k t) !! me = Some p;
  so_run : p_state p = RUNNING
}.

(** How it leaves them. *)
Definition safe t A sp t' : Prop := apart me (sy_k t) A sp (sy_k t') ∧ length (sy_mutex t') = MAX_MUTEXES.
Definition returns t A sp (r : option Z) t' : Prop :=
  safe t A sp t' ∧ match r with Some _ => stays me (sy_k t) (sy_k t') | None => True end.
Definition call_ok t A sp (f : M (sysst F) (option Z)) : Prop := wps f t (returns t A sp) (safe t A sp).

Section calls.
Context t A P L sp p (Hok : sys_ok t A P L sp p).

Lemma live : p_state p ≠ UNUSED ∧ p_state p ≠ ZOMBIE ∧ p_state p ≠ SLEEPING.
Proof. by rewrite (so_run _ _ _ _ _ _ Hok). Qed.

Lemma returns_kept r v k' t' :
  t' = SysSt k' (sy_mutex t) (sy_log t) → kept_apart me (sy_k t) A sp k' → r = Some v → returns t A sp r t'.
Proof. intros -> [Ha Hs] ->. split; [split; [done|apply Hok]|done]. Qed.

Lemma returns_same v : returns t A sp (Some v) t.
Proof. eapply returns_kept; [apply sysst_eta|by eapply kept_apart_refl, Hok|done]. Qed.

(** A call on the processes. *)
Lemma call_ret (m : M (kstate F) Z) :
  wp m (sy_k t) (λ _ k', kept_apart me (sy_k t) A sp k') → call_ok t A sp (ret (onp m)).
Proof.
  intros Hm. unfold call_ok, ret. apply wps_bind_wp. apply wp_lift. eapply wp_mono; [exact Hm|].
  intros v k' Hk. by eapply returns_kept.
Qed.

(** The arguments are read first. *)
Lemma call_argint (f : Z → M (sysst F) (option Z)) :
  (∀ v, -2147483648 ≤ v < 2147483648 → call_ok t A sp (f v)) → call_ok t A sp (v ← onp (argint me 0); f v).
Proof.
  intros Hf. unfold call_ok. apply wps_bind_wp. apply wp_lift. eapply argint_spec; [apply Hok|apply Hok|lia|].
  intros v Hv. rewrite <-sysst_eta. by apply Hf.
Qed.

Lemma call_argaddr (f : Z → M (sysst F) (option Z)) :
  (∀ v, 0 ≤ v < 18446744073709551616 → call_ok t A sp (f v)) → call_ok t A sp (v ← onp (argaddr me 0); f v).
Proof.
  intros Hf. unfold call_ok, argaddr. apply wps_bind_wp. apply wp_lift. eapply argraw_spec; [apply Hok|apply Hok|lia|].
  intros v Hv. rewrite <-sysst_eta. by apply Hf.
Qed.

Lemma call_bind {B} (m : M (sysst F) B) (k : B → M (sysst F) Z) :
  call_ok t A sp (b ← m; ret (k b)) → call_ok t A sp (ret (m ≫= k)).
Proof. unfold call_ok, wps, ret, mbind, M_bind. by destruct (m t). Qed.

Lemma fork_ok : call_ok t A sp (ret (sys_fork kend trampoline forkret_pc me)).
Proof. apply call_ret. eapply fork_isolated; [done|done|apply Hok|apply Hok|apply live..]. Qed.

Lemma exit_ok : ks_initproc (sy_k t) ≠ Some me → call_ok t A sp (sys_exit me).
Proof.
  intros Hinit. apply call_argint. intros n _. unfold call_ok. apply wps_bind_wp. apply wp_lift.
  eapply wp_mono; [eapply (exit_isolated kend trampoline Htr); [apply Hok|apply Hok|apply live|apply live|done]|].
  intros [] k' (P' & L' & p' & Hi' & Hu' & _). split; [|done]. split; [|apply Hok]. exists P', L', sp. split; [done|]. intros j _. by left.
Qed.

Lemma wait_ok : call_ok t A sp (ret (sys_wait kend me)).
Proof.
  apply call_bind, call_argaddr. intros a Ha. unfold call_ok, ret. apply wps_bind, wps_lift.
  eapply wps_mono; [eapply (wait_isolated kend trampoline Hend Htr); [apply Hok|apply Hok|apply live|apply live|done]| |].
  - intros v k' Hk. by eapply returns_kept.
  - intros k' [Hk _]. split; [done|apply Hok].
Qed.

Lemma sbrk_ok : call_ok t A sp (ret (sys_sbrk kend me)).
Proof.
  apply call_bind, call_argint. intros n Hn. apply call_bind. unfold call_ok. apply wps_bind_wp, wp_lift.
  eapply wp_getp; [apply Hok|]. rewrite <-sysst_eta. fold (call_ok t A sp (ret (r ← onp (growproc kend me n); if r <? 0 then mret (-1) else mret (p_sz p)))).
  apply call_bind. unfold call_ok. apply wps_bind_wp, wp_lift.
  eapply wp_mono; [eapply (growproc_isolated kend trampoline Hend Htr); [apply Hok|apply Hok|apply live|done]|].
  intros r k' Hk. destruct (r <? 0); by eapply returns_kept.
Qed.

Lemma sleep_ok : call_ok t A sp (ret (sys_sleep me)).
Proof.
  apply call_bind, call_argint. intros n Hn. set (n' := if n <? 0 then 0 else n). unfold call_ok, wps, ret, sys_sleep_loop, mbind, M_bind, gets, mget.
  rewrite Z.sub_diag. destruct (u32 0 <? n'); [|apply returns_same].
  unfold onp, lift, killed, getp, mbind, M_bind, mget. rewrite (so_me _ _ _ _ _ _ Hok). cbn. destruct (p_killed p =? 0); cbn.
  - rewrite <-sysst_eta. apply (returns_same 0).
  - rewrite <-sysst_eta. apply returns_same.
Qed.

Lemma kill_ok : call_ok t A sp (ret (sys_kill me)).
Proof.
  apply call_bind, call_argint. intros pid _. apply call_ret. eapply wp_mono; [eapply (kill_isolated kend trampoline Htr); apply Hok|].
  intros r k' [Hk Hst]. eapply kept_apart_all; [|exact Hk]. eapply Hst; [apply Hok|apply live].
Qed.

Lemma exec_ok : call_ok t A sp (ret (sys_exec kend trampoline me)).
Proof. apply call_ret. eapply sys_exec_safe; [apply Hok|apply Hok|apply live]. Qed.

Lemma getprocs_ok : call_ok t A sp (ret (a ← onp (argaddr me 0); onp (sys_getprocs me junk a))).
Proof.
  apply call_bind, call_argaddr. intros a Ha. apply call_ret. unfold sys_getprocs. pose proof (kept_apart_refl me _ _ _ _ _ (so_iso _ _ _ _ _ _ Hok)) as Hr.
  wp_step. wp_step. destruct (0 <? _); [|by wp_step]. wp_step. eapply wp_getp; [apply Hok|]. wp_step.
  eapply wp_mono; [eapply (copyout_isolated kend trampoline Hend Htr); [apply Hok|apply Hok|apply live|done]|].
  intros r k' Hk. destruct (r <? 0); by wp_step.
Qed.

(** Calls that change nothing. *)
Lemma pure_ok (m : M (sysst F) Z) v : m t = Ret v t → call_ok t A sp (ret m).
Proof. intros Hm. unfold call_ok, wps, ret, mbind, M_bind. rewrite Hm. apply returns_same. Qed.

(** [wakeup] at the end of a call. *)
Lemma mwake_ok id r : call_ok t A sp (ret (mwake me id r)).
Proof.
  unfold mwake. destruct (r <? 0); [by apply (pure_ok (mret r) r)|]. apply call_bind. unfold call_ok. apply wps_bind_wp, wp_lift.
  apply wakeup_spec; [apply (so_iso _ _ _ _ _ _ Hok)|]. intros k' Hw. eapply returns_kept; [done| |done].
  eapply kept_apart_all; [by apply stays_woken|]. apply (isolated_quiet kend trampoline Htr _ _ P L); [apply Hok|by rewrite (wk_rest _ _ _ Hw)..|by eapply woken_quiet].
Qed.

Lemma call_getp (f : proc → M (sysst F) Z) : call_ok t A sp (ret (f p)) → call_ok t A sp (ret (q ← onp (getp me); f q)).
Proof.
  intros Hf. apply call_bind. unfold call_ok. apply wps_bind_wp, wp_lift. eapply wp_getp; [apply Hok|]. rewrite <-sysst_eta. exact Hf.
Qed.
End calls.

Lemma sys_ok_mutex t A P L sp p tab :
  sys_ok t A P L sp p → length tab = MAX_MUTEXES → sys_ok (SysSt (sy_k t) tab (sy_log t)) A P L sp p.
Proof. intros [Hi Hm Hp Hr] Htab. by split. Qed.

(** A call on the mutexes, and what comes after it. *)
Lemma call_mutex t A P L sp p (m : M mtable Z) (f : Z → M (sysst F) Z) :
  sys_ok t A P L sp p →
  wps m (sy_mutex t) (λ _ tab, length tab = MAX_MUTEXES) (λ tab, length tab = MAX_MUTEXES) →
  (∀ r tab, length tab = MAX_MUTEXES → call_ok (SysSt (sy_k t) tab (sy_log t)) A sp (ret (f r))) →
  call_ok t A sp (ret (onm m ≫= f)).
Proof.
  intros Hok Hm Hf. apply call_bind. unfold call_ok. apply wps_bind, wps_lift. eapply wps_mono; [exact Hm| |].
  - intros r tab Htab. apply (Hf r tab Htab).
  - intros tab Htab. split; [|done]. by apply (kept_apart_refl me _ A P L sp (so_iso _ _ _ _ _ _ Hok)).
Qed.

Lemma mutex_create_len pid tab : length tab = MAX_MUTEXES →
  wps (mutex_create pid) tab (λ _ tab', length tab' = MAX_MUTEXES) (λ tab', length tab' = MAX_MUTEXES).
Proof.
  intros Hl. apply wp_wps. eapply wp_mono; [by apply mutex_create_spec|].
  intros r tab' [(m & _ & _ & ->)|(_ & -> & _)]; [by rewrite length_insert|done].
Qed.

(** The other calls on a mutex, which must exist. *)
Lemma mutex_len (f : M mtable Z) id tab :
  length tab = MAX_MUTEXES → (bad_id id = true → f tab = Ret (-1) tab) →
  (∀ m, 0 ≤ id < 64 → tab !! Z.to_nat id = Some m →
     wps f tab (λ _ tab', length tab' = MAX_MUTEXES) (λ tab', length tab' = MAX_MUTEXES)) →
  wps f tab (λ _ tab', length tab' = MAX_MUTEXES) (λ tab', length tab' = MAX_MUTEXES).
Proof.
  intros Hl Hbad Hgood. destruct (bad_id id) eqn:Hb; [unfold wps; by rewrite Hbad|]. apply bad_id_spec in Hb.
  destruct (lookup_lt_is_Some_2 tab (Z.to_nat id)) as [m Hm]; [rewrite Hl; unfold MAX_MUTEXES; lia|]. by eapply Hgood.
Qed.

Lemma mutex_lock_len pid id tab : length tab = MAX_MUTEXES →
  wps (mutex_lock pid id) tab (λ _ tab', length tab' = MAX_MUTEXES) (λ tab', length tab' = MAX_MUTEXES).
Proof.
  intros Hl. apply (mutex_len _ id); [done|by intros Hb; unfold mutex_lock; rewrite Hb|]. intros [l q] Hid Hm. unfold wps.
  rewrite (mutex_lock_run _ _ _ l q) by done. destruct (l =? 0); [by rewrite length_insert|done].
Qed.

Lemma mutex_unlock_len pid id tab : length tab = MAX_MUTEXES →
  wps (mutex_unlock pid id) tab (λ _ tab', length tab' = MAX_MUTEXES) (λ tab', length tab' = MAX_MUTEXES).
Proof.
  intros Hl. apply (mutex_len _ id); [done|by intros Hb; unfold mutex_unlock; rewrite Hb|]. intros [l q] Hid Hm. unfold wps.
  rewrite (mutex_unlock_run _ _ _ l q) by done. destruct (q =? pid); [by rewrite length_insert|done].
Qed.

Lemma mutex_ret t A P L sp p (m : M mtable Z) :
  sys_ok t A P L sp p → wps m (sy_mutex t) (λ _ tab, length tab = MAX_MUTEXES) (λ tab, length tab = MAX_MUTEXES) →
  call_ok t A sp (ret (onm m)).
Proof.
  intros Hok Hm. unfold call_ok, ret. apply wps_bind, wps_lift. eapply wps_mono; [exact Hm| |].
  - intros r tab Htab. split; [split; [|done]|done]. by apply (kept_apart_refl me _ A P L sp (so_iso _ _ _ _ _ _ Hok)).
  - intros tab Htab. split; [|done]. by apply (kept_apart_refl me _ A P L sp (so_iso _ _ _ _ _ _ Hok)).
Qed.

Lemma mutex_calls_ok t A P L sp p :
  sys_ok t A P L sp p →
  call_ok t A sp (ret (sys_mutex_create me)) ∧ call_ok t A sp (ret (sys_mutex_lock me)) ∧
  call_ok t A sp (ret (sys_mutex_unlock me)) ∧ call_ok t A sp (ret (sys_mutex_free me)).
Proof.
  intros Hok. pose proof (so_mutex _ _ _ _ _ _ Hok) as Hl. split_and!.
  - eapply call_getp; [exact Hok|]. eapply mutex_ret; [exact Hok|by apply mutex_create_len].
  - eapply call_bind, call_argint; [exact Hok|]. intros id _. eapply call_getp; [exact Hok|]. eapply mutex_ret; [exact Hok|by apply mutex_lock_len].
  - eapply call_bind, call_argint; [exact Hok|]. intros id _. eapply call_getp; [exact Hok|].
    eapply call_mutex; [exact Hok|by apply mutex_unlock_len|]. intros r tab Htab. eapply mwake_ok. by eapply sys_ok_mutex.
  - eapply call_bind, call_argint; [exact Hok|]. intros id _. eapply call_getp; [exact Hok|].
    eapply call_mutex; [exact Hok|by apply mutex_unlock_len|]. intros r tab Htab. eapply mwake_ok. by eapply sys_ok_mutex.
Qed.

(** ** The dispatch *)

(** The numbers of the calls on files. *)
Definition file_calls : list Z :=
  [SYS_pipe; SYS_read; SYS_fstat; SYS_chdir; SYS_dup; SYS_open; SYS_write; SYS_mknod; SYS_unlink; SYS_link; SYS_mkdir; SYS_close; SYS_lseek; SYS_chmod].

Lemma calls_ok t A P L sp p :
  sys_ok t A P L sp p → ks_initproc (sy_k t) ≠ Some me →
  Forall (λ c, fst c ∉ file_calls → call_ok t A sp (snd c)) (syscalls kend trampoline forkret_pc me junk file_call).
Proof.
  intros Hok Hinit. destruct (mutex_calls_ok t A P L sp p Hok) as (Hm1 & Hm2 & Hm3 & Hm4).
  unfold syscalls. repeat (apply Forall_cons; split); try apply Forall_nil_2; intros Hn; try (exfalso; apply Hn, (bool_decide_eq_true_1 _); vm_compute; reflexivity); cbn [fst snd].
  - by eapply fork_ok.
  - by eapply exit_ok.
  - by eapply wait_ok.
  - by eapply kill_ok.
  - by eapply exec_ok.
  - eapply call_getp; [exact Hok|]. by eapply pure_ok.
  - by eapply sbrk_ok.
  - by eapply sleep_ok.
  - by eapply pure_ok.
  - eapply call_ret; [exact Hok|]. apply wp_onk. unfold kalloc_free_memory. wp_step. rewrite with_k_same. eapply kept_apart_refl, Hok.
  - done.
  - done.
  - done.
  - done.
  - by eapply getprocs_ok.
Qed.

Lemma apart_then k A sp k1 k2 :
  apart me k A sp k1 → stays me k k1 → ∀ p, ks_procs k !! me = Some p → p_state p ≠ UNUSED →
  (∀ P L sp1 p1, isolated k1 A P L sp1 → ks_procs k1 !! me = Some p1 → p_state p1 ≠ UNUSED →
     ks_procs k2 = ks_procs k1 ∧ ∃ sp2, isolated k2 A P L sp2 ∧ ∀ j, j ≠ me → untouched k1 sp1 k2 sp2 j) →
  apart me k A sp k2.
Proof.
  intros (P & L & sp1 & Hi1 & Hu1) Hst p Hp Hu Hnext. unfold stays in Hst. rewrite Hp in Hst.
  destruct (ks_procs k1 !! me) as [p1|] eqn:Hp1; [|done]. cbn in Hst. injection Hst as Hst.
  destruct (Hnext P L sp1 p1 Hi1 eq_refl ltac:(congruence)) as (Hprocs & sp2 & Hi2 & Hu2). exists P, L, sp2. split; [done|].
  intros j Hj. destruct (Hu1 j Hj) as [Hun|(q & q' & ? & ? & ? & ? & ?)]; [left; eapply untouched_trans; [exact Hun|by apply Hu2]|right].
  exists q, q'. by rewrite Hprocs.
Qed.

(** The result is stored in the trap frame. *)
Lemma store_result t A P L sp p t1 off v :
  sys_ok t A P L sp p → safe t A sp t1 → stays me (sy_k t) (sy_k t1) → 0 ≤ off ≤ 4088 →
  wps (onp (tf_set me off v) ;; mret true) t1 (λ _, safe t A sp) (safe t A sp).
Proof.
  intros Hok [Hap Hm] Hst Hoff. pose proof (so_me _ _ _ _ _ _ Hok) as Hp. destruct (live _ _ _ _ _ _ Hok) as (Hu & _ & _).
  apply wps_bind_wp, wp_lift. pose proof Hap as (P1 & L1 & sp1 & Hi1 & _).
  assert (∃ p1, ks_procs (sy_k t1) !! me = Some p1 ∧ p_state p1 ≠ UNUSED) as (p1 & Hp1 & Hu1).
  { unfold stays in Hst. rewrite Hp in Hst. destruct (ks_procs (sy_k t1) !! me) as [p1|]; [|done]. cbn in Hst. injection Hst as Hst. exists p1. split; [done|congruence]. }
  unfold tf_set. wp_step. eapply wp_getp; [exact Hp1|]. apply wp_onk. unfold stp. wp_step. split; [|exact Hm].
  eapply (apart_then (sy_k t) A sp (sy_k t1)); [done|done|done|done|]. intros P2 L2 sp2 p2 Hi2 Hp2 Hu2. rewrite Hp1 in Hp2. injection Hp2 as <-.
  split; [done|]. by apply tf_store.
Qed.

Lemma syscall_of_ok t A P L sp p num f :
  sys_ok t A P L sp p → ks_initproc (sy_k t) ≠ Some me → num ∉ file_calls →
  syscall_of kend trampoline forkret_pc me junk file_call num = Some f → call_ok t A sp f.
Proof.
  intros Hok Hinit Hnum Hf. unfold syscall_of in Hf. destruct (list_find _ _) as [[i [n g]]|] eqn:Hfind; [|done]. cbn in Hf. injection Hf as <-.
  apply list_find_Some in Hfind as (Hi & Hn & _). cbn in Hn. subst n.
  pose proof (calls_ok t A P L sp p Hok Hinit) as Hall. rewrite Forall_lookup in Hall. by apply (Hall i (num, g) Hi).
Qed.
End safe.

Section theorems.
Context {F : Type} `{FL : FileLaws F} `{EO : !ExecOps F} `{PL : !PathLaws F}.
Context (kend trampoline forkret_pc : Z) `{CL : !CloseLaws F kend} (me : nat) (junk : list Z) (file_call : Z → M (sysst F) Z).

End theorems.

(** ** A kernel with one process

    The files are counted references, and no path names a file. *)
Module TrapDemo.
Abbreviation counted := (gmultiset nat * gmultiset nat)%type.

#[export] Instance counted_ops : FileOps counted := {|
  filedup f := modify (λ kf, (kf.1, (kf.2.1 ⊎ {[+ f +]}, kf.2.2)));
  fileclose f := modify (λ kf, (kf.1, (kf.2.1 ∖ {[+ f +]}, kf.2.2))) ;; mret [];
  idup i := modify (λ kf, (kf.1, (kf.2.1, kf.2.2 ⊎ {[+ i +]})));
  begin_op := mret tt;
  iput i := modify (λ kf, (kf.1, (kf.2.1, kf.2.2 ∖ {[+ i +]})));
  end_op := mret [];
  namei _ := mret None
|}.
#[export] Instance counted_exec : ExecOps counted := {|
  ilock _ := mret tt;
  readi _ _ _ := mret (-1, []);
  iunlockput _ := mret []
|}.

Definition counts (fs : counted) (X Y : gmultiset nat) (P : gset Z) : Prop := fs = (X, Y) ∧ P = ∅.

#[export] Instance counted_laws : FileLaws counted.
Proof.
  refine {| f_ok := counts |}.
  - intros k fs X Y P f [-> ->] _. by vm_compute.
  - intros k fs X Y P i [-> ->] _. by vm_compute.
Defined.

#[export] Instance counted_close kend : CloseLaws counted kend.
Proof.
  split.
  - intros k L fs X Y P f [-> ->] Hk _. cbn. wp_step. wp_step. wp_step. exists L, ∅. split_and!; [done|done|set_solver|done|]. split; [|done].
    cbn. f_equal. multiset_solver.
  - intros k fs X Y P i [-> ->]. split; [done|]. split; [done|]. split; [done|]. split; [|done].
    cbn. f_equal. multiset_solver.
Qed.

#[export] Instance counted_path : PathLaws counted.
Proof.
  split. intros fs X Y P path Hf. exists None. by intros k.
Qed.

Definition blank_entry : proc :=
  Proc UNUSED None 0 0 0 None 0 0 0 0 (Context_ 0 0) (replicate NOFILE None) None (replicate 16 0).

(** A running process and 63 unused entries. *)
Lemma one_process : ∃ (s : kstate counted) A L sp p,
  isolated demo_kend KERNBASE s A ∅ L sp ∧ ks_procs s !! 0%nat = Some p ∧ p_state p = RUNNING ∧ ks_initproc s = None ∧ p_killed p = 0.
Proof.
  assert (bytes_mem ∅) as Hb by (intros a; unfold ld; rewrite lookup_empty; cbn; lia).
  destruct (proj1 (wp_Ret _ _ _) (kinit_spec demo_kend demo_kend_ok ∅ Hb ltac:(by vm_compute))) as ([] & k0 & _ & Hk).
  set (L := reverse _) in Hk. assert (length L = 16%nat) as HL by (unfold L; by vm_compute). clearbody L.
  set (s0 := KState k0 (∅, {[+ 0%nat +]}) (replicate NPROC blank_entry) 1 None 0 : kstate counted).
  assert (wp (allocproc demo_kend KERNBASE 0) s0 (λ _ _, ∃ k' L' T root tf,
    pmem demo_kend KERNBASE k' L' T (D_empty KERNBASE tf) root 0 tf)) as Hwp.
  { apply (allocproc_spec demo_kend KERNBASE 0 demo_kend_ok ltac:(by vm_compute) s0 L); [done|exact Hk| | | |].
    - intros j q [-> _]%lookup_replicate _. done.
    - intros Hall. by destruct (Hall 0%nat blank_entry eq_refl).
    - intros j q k' L' T root tf _ Hpm _ _ _ _. by exists k', L', T, root, tf.
    - intros j q k' L' _ _ _ _ Hlen. lia. }
  apply wp_Ret in Hwp as (r & s1 & _ & k' & L' & T & root & tf & Hpm).
  set (p := Proc RUNNING None 0 0 1 None 0 0 root tf (Context_ 0 0) (replicate NOFILE None) (Some 0%nat) (replicate 16 0)).
  exists (KState k' (∅, {[+ 0%nat +]}) (p :: replicate 63 blank_entry) 2 None 0),
    (list_to_set L' ∪ own_set T (D_empty KERNBASE tf) 0 tf), L', (λ _, (T, D_empty KERNBASE tf)), p.
  assert (∀ i q, (p :: replicate 63 blank_entry) !! i = Some q → i = 0%nat ∧ q = p ∨ i ≠ 0%nat ∧ q = blank_entry) as Hcases.
  { intros [|i] q Hq; [left; by injection Hq as <-|right]. by apply lookup_replicate in Hq as [-> _]. }
  split_and!; [|done..]. split; cbn [ks_procs ks_k ks_f].
  - done.
  - apply Hpm.
  - intros i q [[-> ->]|[_ ->]]%Hcases Hu; [exact Hpm|done].
  - intros i j q q' Hne [[-> ->]|[_ ->]]%Hcases [[-> ->]|[_ ->]]%Hcases; [done|..]; rewrite ?(owned_unused _ blank_entry) by done; set_solver.
  - intros i q [[-> ->]|[_ ->]]%Hcases; split; try done. by intros [?|?].
  - done.
  - set_solver.
  - intros x. rewrite elem_of_union, elem_of_list_to_set. split.
    + intros [Hx|Hx]; [by left|]. right; right. exists 0%nat, p. split; [done|]. by rewrite owned_live.
    + intros [Hx|[Hx|(i & q & [[-> ->]|[_ ->]]%Hcases & Hx)]]; [by left|set_solver|right; by rewrite owned_live in Hx|by rewrite owned_unused in Hx].
Qed.

End TrapDemo.
