(* ===== verification/TrapPath.v ===== *)
(** * The way into the kernel and back

    The assembly code that saves and restores registers: kernel/trampoline.S,
    kernelvec.S and swtch.S; and a system call from the [ecall] instruction to the
    instruction after it, through [uservec], [usertrap], [usertrapret] and
    [userret]. *)
From Stdlib Require Import ZArith Lia.
From stdpp Require Import prelude gmap gmultiset strings.
From S2P Require Import Prelude Bytes Param Str Riscv PhysMem Kalloc Vm VmSpec VmMap VmGrow VmFree VmCopy VmTheorems Spinlock Mutex Proc ProcSpec ProcGrow ProcFork ProcWait Exec ExecLoad ExecTheorems Console Machine Trap Isolation IsoOps TrapSafe.

#[local] Opaque memset st64 memmove.

Ltac by_decision := apply (bool_decide_eq_true_1 _); vm_compute; reflexivity.
Ltac by_not_decision := apply (bool_decide_eq_false_1 _); vm_compute; reflexivity.

(** ** Saving and restoring registers *)

Abbreviation slots := (list (reg * Z)).
Definition saves (base : reg) (l : slots) : list instr := (λ x, Sd x.1 x.2 base) <$> l.
Definition loads (base : reg) (l : slots) : list instr := (λ x, Ld x.1 x.2 base) <$> l.

(** The memory and the registers after them. *)
Definition saved (pa : Z) (r : reg → Z) (l : slots) (m : mem) : mem := foldl (λ m x, st64 m (pa + x.2) (r x.1)) m l.
Definition loaded (pa : Z) (m : mem) (l : slots) (r : reg → Z) : reg → Z := foldl (λ r x, upd r x.1 (ld64 m (pa + x.2))) r l.

Lemma upd_eq {A} `{EqDecision A} (f : A → Z) x v : upd f x v x = v.
Proof. unfold upd. by rewrite decide_True. Qed.
Lemma upd_ne {A} `{EqDecision A} (f : A → Z) x y v : y ≠ x → upd f x v y = f y.
Proof. intros Hne. unfold upd. by rewrite decide_False. Qed.

(** The slots do not overlap. *)
Definition slots_apart (l : list Z) : Prop := NoDup l ∧ Forall (λ o, o mod 8 = 0) l.

Lemma apart_ne (x y : Z) pa : x mod 8 = 0 → y mod 8 = 0 → x ≠ y → pa + x + 8 ≤ pa + y ∨ pa + y + 8 ≤ pa + x.
Proof. intros. zlia. Qed.

Lemma ld64_saved_ne pa r l m o : o mod 8 = 0 → Forall (λ o, o mod 8 = 0) l.*2 → o ∉ l.*2 → ld64 (saved pa r l m) (pa + o) = ld64 m (pa + o).
Proof.
  intros Ho. revert m. induction l as [|[x y] l IH]; intros m Hall Hnin; [done|]. cbn in *. apply Forall_cons in Hall as [Hy Hall].
  apply not_elem_of_cons in Hnin as [Hne Hnin]. unfold saved in *. cbn. rewrite IH by done. apply ld64_st64_ne. by apply apart_ne.
Qed.

Lemma ld64_saved pa r l m x o : slots_apart l.*2 → (x, o) ∈ l → ld64 (saved pa r l m) (pa + o) = u64 (r x).
Proof.
  intros [Hnd Hall]. revert m. induction l as [|[y o'] l IH]; intros m; [by intros ?%not_elem_of_nil|]. cbn in Hnd, Hall.
  apply NoDup_cons in Hnd as [Hnin Hnd]. apply Forall_cons in Hall as [Ho' Hall].
  intros [[= -> ->]|Hin]%elem_of_cons; [|by apply IH]. change (saved pa r ((y, o') :: l) m) with (saved pa r l (st64 m (pa + o') (r y))).
  rewrite ld64_saved_ne by done. apply ld64_st64_eq.
Qed.

Lemma saved_outside pa r l m a : Forall (λ o, 0 ≤ o ∧ o + 8 ≤ 4096) l.*2 → ¬ in_page pa a → ld (saved pa r l m) a = ld m a.
Proof.
  intros Hall Ha. revert m. induction l as [|[x o] l IH]; intros m; [done|]. cbn in *. apply Forall_cons in Hall as [Ho Hall].
  unfold saved in *. cbn. rewrite IH by done. apply ld_st64_ne. unfold in_page in Ha. lia.
Qed.

Lemma saved_apart pa r l m a : (∀ x o, (x, o) ∈ l → ¬ (pa + o ≤ a < pa + o + 8)) → ld (saved pa r l m) a = ld m a.
Proof.
  revert m. induction l as [|[x o] l IH]; intros m Ha; [done|]. unfold saved in *. cbn.
  rewrite IH; [apply ld_st64_ne; assert (¬ (pa + o ≤ a < pa + o + 8)) by (apply (Ha x), elem_of_cons; by left); lia|]. intros y o' Hy. apply (Ha y), elem_of_cons. by right.
Qed.

Lemma loaded_ne pa m l r x : x ∉ l.*1 → loaded pa m l r x = r x.
Proof.
  revert r. induction l as [|[y o] l IH]; intros r; [done|]. cbn. intros [Hne Hnin]%not_elem_of_cons. unfold loaded in *. cbn.
  rewrite IH by done. by apply upd_ne.
Qed.

Lemma loaded_eq pa m l r x o : NoDup l.*1 → (x, o) ∈ l → loaded pa m l r x = ld64 m (pa + o).
Proof.
  revert r. induction l as [|[y o'] l IH]; intros r; [by intros _ ?%not_elem_of_nil|]. cbn [fmap list_fmap fst]. intros [Hnin Hnd]%NoDup_cons.
  intros [[= -> ->]|Hin]%elem_of_cons; [|by apply IH]. change (loaded pa m ((y, o') :: l) r) with (loaded pa m l (upd r y (ld64 m (pa + o')))).
  rewrite loaded_ne by done. apply upd_eq.
Qed.

Lemma saved_ext pa r r' l m : (∀ x, x ∈ l.*1 → r x = r' x) → saved pa r l m = saved pa r' l m.
Proof.
  revert m. induction l as [|[y o] l IH]; intros m Hx; [done|]. unfold saved in *. cbn in *. rewrite (Hx y) by (apply elem_of_cons; by left).
  apply IH. intros x Hin. apply Hx, elem_of_cons. by right.
Qed.

Lemma saved_app pa r l l' m : saved pa r (l ++ l') m = saved pa r l' (saved pa r l m).
Proof. apply foldl_app. Qed.

Lemma loaded_app pa m l l' r : loaded pa m (l ++ l') r = loaded pa m l' (loaded pa m l r).
Proof. apply foldl_app. Qed.

(** A page (or a part of it) at [pa], which is reached at the address [va]. *)
Section window.
Context (W : mem → Prop) (c : csr → Z) (va pa size : Z).
Context (HW : ∀ m w off, W m → 0 ≤ off → off + 8 ≤ size → translate m (c Reg.satp) (u64 (va + off)) w = Some (pa + off)).
Context (Hst : ∀ m off v, W m → 0 ≤ off → off + 8 ≤ size → W (st64 m (pa + off) v)).

Lemma run_saves base l rest r m (Q : ctrl → mach → Prop) :
  W m → r base = va → Forall (λ o, 0 ≤ o ∧ o + 8 ≤ size) l.*2 →
  (W (saved pa r l m) → wp (run rest) (Mach r c (saved pa r l m)) Q) → wp (run (saves base l ++ rest)) (Mach r c m) Q.
Proof.
  intros Hm Hb Hall HQ. revert m Hm HQ. induction l as [|[x o] l IH]; intros m Hm HQ; [by apply HQ|].
  cbn in Hall. apply Forall_cons in Hall as [Ho Hall]. cbn [saves fmap list_fmap app run fst snd].
  wp_step. unfold address. wp_step. wp_step. eapply wp_mnth; [cbn [m_reg m_csr m_mem]; rewrite Hb; apply HW; (done || lia)|]. wp_step. wp_step.
  apply (IH Hall); [apply Hst; (done || lia)|]. exact HQ.
Qed.

Lemma run_loads base l rest r m (Q : ctrl → mach → Prop) :
  W m → r base = va → Forall (λ o, 0 ≤ o ∧ o + 8 ≤ size) l.*2 → base ∉ l.*1 →
  wp (run rest) (Mach (loaded pa m l r) c m) Q → wp (run (loads base l ++ rest)) (Mach r c m) Q.
Proof.
  intros Hm Hb Hall Hnin HQ. revert r Hb HQ. induction l as [|[x o] l IH]; intros r Hb HQ; [by apply HQ|].
  cbn in Hall, Hnin. apply Forall_cons in Hall as [Ho Hall]. apply not_elem_of_cons in Hnin as [Hne Hnin]. cbn [loads fmap list_fmap app run fst snd].
  wp_step. unfold address. wp_step. wp_step. eapply wp_mnth; [cbn [m_reg m_csr m_mem]; rewrite Hb; apply HW; (done || lia)|].
  wp_step. wp_step. wp_step. unfold setreg. wp_step. cbn [m_reg m_csr m_mem]. apply (IH Hall Hnin); [by rewrite upd_ne|]. exact HQ.
Qed.
End window.

(** ** The trap frame in user space *)
Section tables.
Context (kend trampoline : Z) (Hend : KERNBASE ≤ kend) (Htr : 0 ≤ trampoline < 18446744073709547520).
Implicit Types (k : kmem) (L : list Z) (T : gmap (list Z) Z) (D : gmap Z Z).
Abbreviation pmem := (pmem kend trampoline).

Lemma PX_offset level vpn off : (level ≤ 2)%nat → 0 ≤ off < 4096 → PX (Z.of_nat level) (4096 * vpn + off) = PX (Z.of_nat level) (4096 * vpn).
Proof.
  intros Hl Hoff. unfold PX, PXSHIFT, PGSHIFT. rewrite !Z.shiftr_div_pow2 by lia. f_equal.
  rewrite !Z.pow_add_r by lia. rewrite <-!Z.div_div by lia. change (2 ^ 12) with 4096. f_equal. zlia.
Qed.

Lemma pointer_flags p bit : bit = 1 ∨ bit = 3 → flag (Z.lor (PA2PTE p) PTE_V) (Z.shiftl 1 bit) = false.
Proof.
  intros Hb. rewrite flag_testbit by lia. rewrite Z.lor_spec. unfold PA2PTE. rewrite Z.shiftl_spec_low by lia. by destruct Hb as [-> | ->].
Qed.

(** The hardware finds what [walk] finds. *)
Lemma sv39_entry k L T D root vpn off e :
  aspace kend k L T D root → D !! vpn = Some e → flag e PTE_R = true → 0 ≤ off < 4096 → sv39 2 (k_mem k) root (4096 * vpn + off) = Some e.
Proof.
  intros Has He HR Hoff. destruct (as_dom _ _ _ _ _ _ Has vpn e He) as [Hv HV].
  destruct (leaf_table kend k L T D root vpn e Has He) as [p0 Hp0].
  assert (T !! path 2 vpn = Some root) as Hp2 by apply (pt_root _ _ _ _ (as_tab _ _ _ _ _ _ Has)).
  pose proof (table_step kend k L T D root 1 vpn root Has ltac:(lia) Hp2) as H2.
  destruct (T !! path 1 vpn) as [p1|] eqn:Hp1; [|by rewrite (no_table kend k L T D root 1 vpn Has ltac:(lia) Hp1) in Hp0].
  pose proof (table_step kend k L T D root 0 vpn p1 Has ltac:(lia) Hp1) as H1. rewrite Hp0 in H1.
  pose proof (ld_leaf kend k L T D root vpn p0 Has Hv Hp0) as H0. rewrite He in H0. change (default 0 (Some e)) with e in H0.
  assert (page_ok kend p1 ∧ page_ok kend p0) as [Hk1 Hk0] by (split; by eapply (pt_page _ _ _ _ (as_tab _ _ _ _ _ _ Has))).
  unfold pte_at in *. cbn [sv39]. rewrite !PX_offset, !PX_ix by lia.
  rewrite H2, flag_V_lor, (table_entry kend Hend) by done. unfold PTE_R, PTE_X. rewrite !pointer_flags by lia. cbn [negb orb].
  rewrite H1, flag_V_lor, (table_entry kend Hend) by done. rewrite !pointer_flags by lia. cbn [negb orb].
  rewrite H0, HV. change (Z.shiftl 1 1) with PTE_R. by rewrite HR.
Qed.

Lemma satp_root root : page_ok kend root →
  Z.shiftr (MAKE_SATP root) 60 = 8 ∧ Z.shiftl (Z.land (MAKE_SATP root) (2 ^ 44 - 1)) 12 = root.
Proof.
  intros Hr. destruct (page_bounds kend Hend root Hr) as [Hlo Hhi]. destruct Hr as [Hal [_ Htop]]. unfold MAKE_SATP, SATP_SV39, PHYSTOP, KERNBASE in *.
  set (x := Z.shiftr root 12). assert (0 ≤ x < 2 ^ 44 ∧ root = x * 4096) as [Hx Hrx].
  { unfold x. rewrite Z.shiftr_div_pow2 by lia. change (2 ^ 12) with 4096. change (2 ^ 44) with 17592186044416. split; zlia. }
  split.
  - rewrite Z.shiftr_lor. assert (Z.shiftr x 60 = 0) as -> by (rewrite Z.shiftr_div_pow2 by lia; apply Z.div_small; lia). done.
  - rewrite Z.land_lor_distr_l. change (Z.land (Z.shiftl 8 60) (2 ^ 44 - 1)) with 0. rewrite Z.lor_0_l.
    change (2 ^ 44 - 1) with (Z.ones 44). rewrite Z.land_ones, Z.mod_small, Z.shiftl_mul_pow2 by lia. lia.
Qed.

Lemma tf_flags tf : page_ok kend tf → flag (tf_pte tf) PTE_R = true ∧ flag (tf_pte tf) PTE_W = true ∧ flag (tf_pte tf) PTE_U = false.
Proof.
  intros Htf. unfold tf_pte, leaf. change PTE_R with (Z.shiftl 1 1). change PTE_W with (Z.shiftl 1 2). change PTE_U with (Z.shiftl 1 4). rewrite <-Z.lor_assoc.
  by rewrite !flag_join by (by vm_compute).
Qed.

(** [TRAPFRAME] is the trap frame of the process whose page table is in use. *)
Lemma translate_tf k L T D root sz tf w off :
  pmem k L T D root sz tf → 0 ≤ off < 4096 → translate (k_mem k) (MAKE_SATP root) (u64 (TRAPFRAME + off)) w = Some (tf + off).
Proof.
  intros Hpm Hoff. pose proof (pm_ppt _ _ _ _ _ _ _ _ _ Hpm) as Hppt. pose proof (pm_as _ _ _ _ _ _ _ _ _ Hppt) as Has.
  destruct (pm_tfpage _ _ _ _ _ _ _ _ _ Hpm) as (Htf & _). destruct (tf_flags tf Htf) as (HR & HW & HU).
  assert (page_ok kend root) as Hroot by (eapply (pt_page _ _ _ _ (as_tab _ _ _ _ _ _ Has)), (pt_root _ _ _ _ (as_tab _ _ _ _ _ _ Has))).
  destruct (satp_root root Hroot) as [Hmode Hppn].
  assert (u64 (TRAPFRAME + off) = 4096 * vtf + off) as ->.
  { change TRAPFRAME with (4096 * vtf). apply u64_small. unfold vtf. lia. }
  unfold translate. rewrite Hmode, Hppn. cbn [Z.eqb Pos.eqb andb].
  rewrite (proj2 (Z.ltb_lt _ _)) by (change MAXVA with 274877906944; unfold vtf; lia). cbn [negb].
  rewrite (sv39_entry k L T D root vtf off (tf_pte tf) Has (pm_tf _ _ _ _ _ _ _ _ _ Hppt) HR Hoff). cbn [mbind option_bind].
  rewrite HU. destruct w; rewrite ?HR, ?HW; cbn [andb negb].
  all: unfold tf_pte; rewrite (leaf_pa tf _ (page_u64 kend Hend tf Htf)); [f_equal; zlia|apply Htf|done].
Qed.

(** ** The trampoline *)

(** A memory in which a process has its page table and its trap frame. *)
Definition window (root tf : Z) (m : mem) : Prop := ∃ k L T D sz, k_mem k = m ∧ pmem k L T D root sz tf.

Lemma window_translate root tf m w off : window root tf m → 0 ≤ off → off + 8 ≤ 4096 → translate m (MAKE_SATP root) (u64 (TRAPFRAME + off)) w = Some (tf + off).
Proof. intros (k & L & T & D & sz & <- & Hpm) H0 H1. eapply translate_tf; [exact Hpm|lia]. Qed.

Lemma window_st64 root tf m off v : window root tf m → 0 ≤ off → off + 8 ≤ 4096 → window root tf (st64 m (tf + off) v).
Proof.
  intros (k & L & T & D & sz & <- & Hpm) H0 H1. destruct (pm_tfpage _ _ _ _ _ _ _ _ _ Hpm) as (Htf & HL & HT & _).
  exists (kset_mem (st64 (k_mem k) (tf + off) v) k), L, T, D, sz. split; [done|].
  eapply (pmem_write kend trampoline Htr); [exact Hpm|done..| |].
  - apply bytes_st64. apply (pm_as _ _ _ _ _ _ _ _ _ (pm_ppt _ _ _ _ _ _ _ _ _ Hpm)).
  - intros a Ha. apply ld_st64_ne. specialize (Ha tf ltac:(set_solver)). unfold in_page in Ha. lia.
Qed.

Import Reg.
(** The registers [uservec] saves before [a0], and where. *)
Definition user_regs : slots :=
  [(ra, 40); (sp, 48); (gp, 56); (tp, 64); (t0, 72); (t1, 80); (t2, 88); (s0, 96); (s1, 104);
   (a1, 120); (a2, 128); (a3, 136); (a4, 144); (a5, 152); (a6, 160); (a7, 168);
   (s2, 176); (s3, 184); (s4, 192); (s5, 200); (s6, 208); (s7, 216); (s8, 224); (s9, 232);
   (s10, 240); (s11, 248); (t3, 256); (t4, 264); (t5, 272); (t6, 280)].
Definition all_regs : slots := user_regs ++ [(a0, 112)].

Lemma uservec_shape :
  uservec = [Csrw sscratch a0; Li a0 TRAPFRAME] ++ saves a0 user_regs ++ [Csrr t0 sscratch] ++ saves a0 [(t0, 112)] ++
            loads a0 [(sp, 8); (tp, 32); (t0, 16); (t1, 0)] ++ [Sfence; Csrw satp t1; Sfence; Jr t0].
Proof. reflexivity. Qed.

Lemma userret_shape : userret = [Sfence; Csrw satp a0; Sfence; Li a0 TRAPFRAME] ++ loads a0 user_regs ++ [Ld a0 112 a0; Sret].
Proof. reflexivity. Qed.

Lemma in_frame : Forall (λ o, 0 ≤ o ∧ o + 8 ≤ 4096) user_regs.*2.
Proof. by_decision. Qed.

Lemma uservec_spec r c m root tf (Q : ctrl → mach → Prop) :
  window root tf m → c satp = MAKE_SATP root →
  (∀ r', let m' := saved tf r all_regs m in
     window root tf m' → r' sp = ld64 m' (tf + 8) → r' tp = ld64 m' (tf + 32) →
     Q (Jump (ld64 m' (tf + 16))) (Mach r' (upd (upd c sscratch (r a0)) satp (ld64 m' (tf + 0))) m')) →
  wp (run uservec) (Mach r c m) Q.
Proof.
  intros HW Hsatp HQ. rewrite uservec_shape. cbn [app]. cbn [run]. unfold setreg, setcsr. wp_steps. cbn [m_reg m_csr m_mem].
  set (c1 := upd c sscratch (r a0)). set (r1 := upd r a0 TRAPFRAME).
  assert (∀ m w off, window root tf m → 0 ≤ off → off + 8 ≤ 4096 → translate m (c1 satp) (u64 (TRAPFRAME + off)) w = Some (tf + off)) as Htrans.
  { unfold c1. rewrite upd_ne by done. rewrite Hsatp. intros. by apply window_translate. }
  apply (run_saves (window root tf) c1 TRAPFRAME tf 4096 Htrans (window_st64 root tf)); [done|apply upd_eq|apply in_frame|]. intros HW1.
  cbn [app]. cbn [run]. unfold setreg. wp_steps. cbn [m_reg m_csr m_mem].
  apply (run_saves (window root tf) c1 TRAPFRAME tf 4096 Htrans (window_st64 root tf)); [done|by vm_compute|by_decision|]. intros HW2.
  apply (run_loads (window root tf) c1 TRAPFRAME tf 4096 Htrans); [done|by vm_compute|by_decision|by_decision|].
  assert (saved tf (upd r1 t0 (c1 sscratch)) [(t0, 112)] (saved tf r1 user_regs m) = saved tf r all_regs m) as Hm.
  { unfold all_regs. rewrite saved_app. rewrite (saved_ext tf r1 r user_regs); [|intros x Hx; apply upd_ne; intros ->; revert Hx; by_not_decision].
    unfold saved at 1 3. cbn. rewrite upd_eq. by unfold c1; rewrite upd_eq. }
  rewrite Hm in *. cbn [run]. unfold setcsr. wp_steps. cbn [m_reg m_csr m_mem].
  assert (∀ x o, (x, o) ∈ [(sp, 8); (tp, 32); (t0, 16); (t1, 0)] →
    loaded tf (saved tf r all_regs m) [(sp, 8); (tp, 32); (t0, 16); (t1, 0)] (upd r1 t0 (c1 sscratch)) x = ld64 (saved tf r all_regs m) (tf + o)) as Hl.
  { intros x o Hx. apply loaded_eq; [|done]. by_decision. }
  rewrite (Hl t1 0), (Hl t0 16) by by_decision. apply HQ; [done|apply Hl; by_decision..].
Qed.

Lemma userret_spec r c m root tf (Q : ctrl → mach → Prop) :
  window root tf m → r a0 = MAKE_SATP root →
  (∀ r', (∀ x o, (x, o) ∈ all_regs → r' x = ld64 m (tf + o)) →
     Q (Back (c sepc) (negb (flag (c sstatus) SSTATUS_SPP))) (Mach r' (upd (upd c satp (MAKE_SATP root)) sstatus (sret_status (c sstatus))) m)) →
  wp (run userret) (Mach r c m) Q.
Proof.
  intros HW Ha0 HQ. rewrite userret_shape. cbn [app]. cbn [run]. unfold setreg, setcsr. wp_steps. cbn [m_reg m_csr m_mem]. rewrite Ha0.
  set (c1 := upd c satp (MAKE_SATP root)). set (r1 := upd r a0 TRAPFRAME).
  assert (∀ m w off, window root tf m → 0 ≤ off → off + 8 ≤ 4096 → translate m (c1 satp) (u64 (TRAPFRAME + off)) w = Some (tf + off)) as Htrans.
  { unfold c1. rewrite upd_eq. intros. by apply window_translate. }
  apply (run_loads (window root tf) c1 TRAPFRAME tf 4096 Htrans); [done|apply upd_eq|apply in_frame|by_decision|].
  set (r2 := loaded tf m user_regs r1). change (Ld a0 112 a0) with (Ld (a0, 112).1 (a0, 112).2 a0). cbn [run]. wp_step. unfold address. wp_step. wp_step.
  eapply wp_mnth; [cbn [m_reg m_csr m_mem fst snd]|].
  { unfold r2. rewrite loaded_ne by by_decision. unfold r1. rewrite upd_eq. apply Htrans; [done|lia..]. }
  unfold setreg, setcsr. wp_steps. cbn [m_reg m_csr m_mem fst snd].
  assert (c1 sstatus = c sstatus ∧ c1 sepc = c sepc) as [-> ->] by (unfold c1; by rewrite !upd_ne by done).
  apply HQ. intros x o [Hx|Hx%list_elem_of_singleton]%elem_of_app; [|injection Hx as -> ->; apply upd_eq].
  rewrite upd_ne; [by apply loaded_eq; [by_decision|]|]. intros ->. apply list_elem_of_fmap_2 with (f := fst) in Hx. revert Hx. by_not_decision.
Qed.
End tables.

(** ** In the kernel

    The kernel's memory is mapped to itself, and [pa] is in a part of it. *)
Section kernel.
Import Reg.
Context (c : csr → Z) (W : mem → Prop) (base size : Z).
Context (Hdirect : ∀ m w a, W m → base ≤ a → a + 8 ≤ base + size → translate m (c satp) (u64 a) w = Some a).
Context (HWst : ∀ m a v, W m → base ≤ a → a + 8 ≤ base + size → W (st64 m a v)).

Lemma kernel_saves b l rest r m a (Q : ctrl → mach → Prop) :
  W m → r b = a → base ≤ a → Forall (λ o, 0 ≤ o ∧ a + o + 8 ≤ base + size) l.*2 →
  (W (saved a r l m) → wp (run rest) (Mach r c (saved a r l m)) Q) → wp (run (saves b l ++ rest)) (Mach r c m) Q.
Proof.
  intros Hm Hb Ha Hall. apply (run_saves W c a a (base + size - a)); [| |done|done|].
  - intros m' w off Hm' H0 H1. apply Hdirect; [done|lia..].
  - intros m' off v Hm' H0 H1. apply HWst; [done|lia..].
  - eapply Forall_impl; [exact Hall|]. cbv beta. lia.
Qed.

Lemma kernel_loads b l rest r m a (Q : ctrl → mach → Prop) :
  W m → r b = a → base ≤ a → Forall (λ o, 0 ≤ o ∧ a + o + 8 ≤ base + size) l.*2 → b ∉ l.*1 →
  wp (run rest) (Mach (loaded a m l r) c m) Q → wp (run (loads b l ++ rest)) (Mach r c m) Q.
Proof.
  intros Hm Hb Ha Hall. apply (run_loads W c a a (base + size - a)); [|done|done|].
  - intros m' w off Hm' H0 H1. apply Hdirect; [done|lia..].
  - eapply Forall_impl; [exact Hall|]. cbv beta. lia.
Qed.

(** *** [swtch] *)

Definition context_regs : slots :=
  [(ra, 0); (sp, 8); (s0, 16); (s1, 24); (s2, 32); (s3, 40); (s4, 48); (s5, 56); (s6, 64); (s7, 72); (s8, 80); (s9, 88); (s10, 96); (s11, 104)].

Definition in_range (a n : Z) : Prop := base ≤ a ∧ a + n ≤ base + size.

Lemma swtch_spec r m (Q : ctrl → mach → Prop) :
  W m → in_range (r a0) 112 → in_range (r a1) 112 →
  (let m' := saved (r a0) r context_regs m in let r' := loaded (r a1) m' context_regs r in
   W m' → Q (Jump (r' ra)) (Mach r' c m')) →
  wp (run swtch) (Mach r c m) Q.
Proof.
  intros Hm [Ha1 Ha2] [Hb1 Hb2] HQ. change swtch with (saves a0 context_regs ++ loads a1 context_regs ++ [Jr ra]).
  assert (∀ a, a + 112 ≤ base + size → Forall (λ o, 0 ≤ o ∧ a + o + 8 ≤ base + size) context_regs.*2) as Hall.
  { intros a Ha. apply (Forall_impl (λ o, 0 ≤ o ≤ 104)); [by_decision|]. cbv beta. lia. }
  apply (kernel_saves a0 _ _ r m (r a0)); [done|done|done|by apply Hall|]. intros Hm'.
  apply (kernel_loads a1 _ _ _ _ (r a1)); [done|done|done|by apply Hall|by_decision|].
  cbn [run]. wp_steps. by apply HQ.
Qed.

(** A thread that has called [swtch] goes on, when another [swtch] chooses its
    context, after its call with its stack and the registers a call preserves. *)
Lemma swtch_back r1 m1 r2 m2 :
  W m1 → W m2 → in_range (r1 a0) 112 → in_range (r1 a1) 112 → in_range (r2 a0) 112 → r2 a1 = r1 a0 →
  (r2 a0 + 112 ≤ r1 a0 ∨ r1 a0 + 112 ≤ r2 a0) →
  (∀ a, r1 a0 ≤ a < r1 a0 + 112 → ld m2 a = ld (saved (r1 a0) r1 context_regs m1) a) →
  wp (run swtch) (Mach r2 c m2) (λ ctl s, ctl = Jump (u64 (r1 ra)) ∧ (∀ x o, (x, o) ∈ context_regs → m_reg s x = u64 (r1 x)) ∧
    ∀ x, x ∉ context_regs.*1 → m_reg s x = r2 x).
Proof.
  intros Hm1 Hm2 H1 H1' H2 Hold Hap Hkept. apply swtch_spec; [done|done|by rewrite Hold|]. intros m' r' _.
  assert (∀ x o, (x, o) ∈ context_regs → r' x = u64 (r1 x)) as Hr.
  { intros x o Hx. unfold r'. rewrite (loaded_eq _ _ _ _ x o) by (done || by_decision). rewrite Hold.
    assert (0 ≤ o ≤ 104) as Ho.
    { assert (Forall (λ y, 0 ≤ y.2 ≤ 104) context_regs) as Hall by by_decision. rewrite Forall_forall in Hall. apply (Hall (x, o) Hx). }
    rewrite <-(ld64_saved (r1 a0) r1 context_regs m1 x o) by (done || (split; by_decision)). apply ld64_ext. intros b Hb.
    rewrite <-Hkept by lia. unfold m'. apply saved_apart. intros y o' Hy.
    assert (Forall (λ y, 0 ≤ y.2 ≤ 104) context_regs) as Hall by by_decision. rewrite Forall_forall in Hall. pose proof (Hall (y, o') Hy) as Hy'. cbn [snd] in Hy'. lia. }
  split_and!; [by rewrite (Hr ra 0) by by_decision|done|]. intros x Hx. cbn [m_reg]. by apply loaded_ne.
Qed.
End kernel.

(** *** [kernelvec] *)
Section kernelvec.
Import Reg.
Context (ks : Z) (W : mem → Prop) (base size : Z).
Context (Hdirect : ∀ m w a, W m → base ≤ a → a + 8 ≤ base + size → translate m ks (u64 a) w = Some a).
Context (HWst : ∀ m a v, W m → base ≤ a → a + 8 ≤ base + size → W (st64 m a v)).

(** What [kernelvec] puts on the stack, and what it restores from there. *)
Definition trap_regs : slots :=
  [(t0, 32); (t1, 40); (t2, 48); (a0, 72); (a1, 80); (a2, 88); (a3, 96); (a4, 104); (a5, 112); (a6, 120); (a7, 128);
   (t3, 216); (t4, 224); (t5, 232); (t6, 240)].
Definition trap_saved : slots := [(ra, 0); (sp, 8); (gp, 16); (tp, 24)] ++ trap_regs.
Definition trap_restored : slots := [(gp, 16)] ++ trap_regs.
Definition callee_saved : list reg := [s0; s1; s2; s3; s4; s5; s6; s7; s8; s9; s10; s11].

Lemma kernelvec_shape :
  kernelvec = [Addi sp sp (-256)] ++ saves sp trap_saved ++ [Call "kerneltrap"] ++
    loads sp [(ra, 0)] ++ [Ld sp 8 sp] ++ loads sp trap_restored ++ [Addi sp sp 256; Sret].
Proof. reflexivity. Qed.

Lemma restored_slot x : x ≠ sp → x ∉ tp :: callee_saved → ∃ o, (x, o) ∈ (ra, 0) :: trap_restored ∧ (x, o) ∈ trap_saved.
Proof.
  intros Hne Hx. destruct x; try done; try (exfalso; apply Hx; by_decision).
  all: eexists; split; [repeat (first [apply list_elem_of_here | apply list_elem_of_further])|by_decision].
Qed.

Lemma kernelvec_rest r2 c2 m2 a (Q : ctrl → mach → Prop) :
  W m2 → c2 satp = ks → r2 sp = a → base ≤ a → a + 256 ≤ base + size → ld64 m2 (a + 8) = a →
  (∀ r', (∀ x o, (x, o) ∈ (ra, 0) :: trap_restored → r' x = ld64 m2 (a + o)) → r' sp = u64 (a + 256) → (∀ x, x ∈ tp :: callee_saved → r' x = r2 x) →
     Q (Back (c2 sepc) (negb (flag (c2 sstatus) SSTATUS_SPP))) (Mach r' (upd c2 sstatus (sret_status (c2 sstatus))) m2)) →
  wp (run (loads sp [(ra, 0)] ++ [Ld sp 8 sp] ++ loads sp trap_restored ++ [Addi sp sp 256; Sret])) (Mach r2 c2 m2) Q.
Proof.
  intros Hm Hsatp Hsp Ha Hsz Hsaved HQ. rewrite <-Hsatp in Hdirect.
  assert (∀ l, Forall (λ o, 0 ≤ o ≤ 248) l → Forall (λ o, 0 ≤ o ∧ a + o + 8 ≤ base + size) l) as Hall.
  { intros l Hl. eapply Forall_impl; [exact Hl|]. cbv beta. lia. }
  apply (kernel_loads c2 W base size Hdirect sp _ _ _ _ a); [done|done|done|apply Hall; by_decision|by_decision|].
  cbn [app run]. set (r3 := loaded a m2 [(ra, 0)] r2). wp_step. unfold address. wp_step. wp_step. cbn [m_reg m_csr m_mem].
  assert (r3 sp = a) as Hr3 by (unfold r3; by rewrite loaded_ne by by_decision). rewrite Hr3.
  eapply wp_mnth; [apply Hdirect; [done|lia..]|]. unfold setreg. wp_steps. cbn [m_reg m_csr m_mem]. rewrite Hsaved.
  apply (kernel_loads c2 W base size Hdirect sp _ _ _ _ a); [done|apply upd_eq|done|apply Hall; by_decision|by_decision|].
  cbn [run]. unfold setreg, setcsr. wp_steps. cbn [m_reg m_csr m_mem]. apply HQ.
  - intros x o Hx. rewrite upd_ne by (intros ->; apply list_elem_of_fmap_2 with (f := fst) in Hx; revert Hx; by_not_decision). apply elem_of_cons in Hx as [[= -> ->]|Hx].
    + rewrite loaded_ne, upd_ne by (done || by_decision). unfold r3. by rewrite (loaded_eq _ _ _ _ ra 0) by by_decision.
    + by apply loaded_eq; [by_decision|].
  - rewrite upd_eq, loaded_ne, upd_eq by by_decision. done.
  - intros x Hx. assert (Forall (λ x, x ≠ sp ∧ x ∉ trap_restored.*1 ∧ x ∉ [(ra, 0)].*1) (tp :: callee_saved)) as Hno by by_decision.
    rewrite Forall_forall in Hno. destruct (Hno x Hx) as (? & ? & ?). rewrite upd_ne, loaded_ne, upd_ne by done. unfold r3. by rewrite loaded_ne.
Qed.

(** Kernel code that is interrupted does not notice: when [kerneltrap] keeps what a
    C function keeps (the stack, [sp] and the callee-saved registers), and puts
    [sepc] and [sstatus] back, the code goes on where it was, with every register
    but [tp] as it was, which is the one of the CPU it now runs on. *)
Lemma kernelvec_transparent r c m :
  W m → c satp = ks → let a := u64 (r sp - 256) in base ≤ a → a + 256 ≤ base + size →
  wp (run kernelvec) (Mach r c m) (λ ctl h, ∃ rest, ctl = Called "kerneltrap" rest ∧ W (m_mem h) ∧
    (∀ b, ¬ (a ≤ b < a + 256) → ld (m_mem h) b = ld m b) ∧
    ∀ r2 c2 m2, W m2 → c2 satp = ks → r2 sp = m_reg h sp → (∀ x, x ∈ callee_saved → r2 x = m_reg h x) →
      (∀ b, a ≤ b < a + 256 → ld m2 b = ld (m_mem h) b) →
      wp (run rest) (Mach r2 c2 m2) (λ ctl' h', ctl' = Back (c2 sepc) (negb (flag (c2 sstatus) SSTATUS_SPP)) ∧ m_mem h' = m2 ∧
        (∀ x, x ∉ tp :: callee_saved → m_reg h' x = u64 (r x)) ∧ (∀ x, x ∈ callee_saved → m_reg h' x = r x) ∧ m_reg h' tp = r2 tp)).
Proof.
  intros Hm Hsatp a Ha Hsz. rewrite kernelvec_shape. cbn [app]. cbn [run]. unfold setreg. wp_steps. cbn [m_reg m_csr m_mem].
  set (r1 := upd r sp (u64 (r sp + -256))). assert (r1 sp = a) as Hsp by (unfold r1; by rewrite upd_eq).
  pose proof Hdirect as Hd. rewrite <-Hsatp in Hd.
  apply (kernel_saves c W base size Hd HWst sp _ _ r1 m a); [done|done|done| |].
  { apply (Forall_impl (λ o, 0 ≤ o ≤ 248)); [by_decision|]. cbv beta. lia. }
  intros Hm1. set (m1 := saved a r1 trap_saved m) in *. cbn [app run]. wp_step. eexists. split; [done|]. cbn [m_reg m_mem]. split_and!; [done| |].
  { intros b Hb. apply saved_apart. intros x o Hx. assert (Forall (λ y, 0 ≤ y.2 ≤ 248) trap_saved) as Hall by by_decision.
    rewrite Forall_forall in Hall. pose proof (Hall (x, o) Hx) as Hx'. cbn [snd] in Hx'. lia. }
  intros r2 c2 m2 Hm2 Hsatp2 Hsp2 Hcs Hkept. rewrite Hsp in Hsp2.
  assert (∀ x o, (x, o) ∈ trap_saved → ld64 m2 (a + o) = u64 (r1 x)) as Hld.
  { intros x o Hx. rewrite <-(ld64_saved a r1 trap_saved m x o) by (done || (split; by_decision)). apply ld64_ext. intros b Hb. apply Hkept.
    assert (Forall (λ y, 0 ≤ y.2 ≤ 248) trap_saved) as Hall by by_decision. rewrite Forall_forall in Hall.
    pose proof (Hall (x, o) Hx) as Hx'. cbn [snd] in Hx'. lia. }
  apply (kernelvec_rest r2 c2 m2 a); [done|done|done|done|done| |].
  { rewrite (Hld sp 8), Hsp by by_decision. unfold a. apply u64_small, u64_range. }
  intros r' Hr' Hsp' Hrest. cbn [m_mem m_reg]. split_and!; [done|done| | |].
  - intros x Hx. destruct (decide (x = sp)) as [->|Hne].
    { rewrite Hsp'. unfold a, u64. rewrite Zplus_mod_idemp_l. f_equal. lia. }
    assert (∃ o, (x, o) ∈ (ra, 0) :: trap_restored ∧ (x, o) ∈ trap_saved) as (o & Ho & Ho') by (by apply restored_slot).
    rewrite (Hr' x o Ho), (Hld x o Ho'). unfold r1. by rewrite upd_ne.
  - intros x Hx. rewrite Hrest, Hcs by (done || (apply elem_of_cons; by right)). unfold r1. apply upd_ne. intros ->. revert Hx. by_not_decision.
  - apply Hrest, elem_of_cons. by left.
Qed.
End kernelvec.

(** ** A system call, from user space and back *)

Lemma all_regs_slot x : ∃ o, (x, o) ∈ all_regs.
Proof. destruct x; eexists; (do 40 (first [apply list_elem_of_here | apply list_elem_of_further])). Qed.

Lemma all_regs_off x o : (x, o) ∈ all_regs → o mod 8 = 0 ∧ 40 ≤ o ≤ 280.
Proof.
  intros Hx. assert (Forall (λ y, y.2 mod 8 = 0 ∧ 40 ≤ y.2 ≤ 280) all_regs) as Hall by by_decision.
  rewrite Forall_forall in Hall. apply (Hall (x, o) Hx).
Qed.

Lemma all_regs_inj x y o : (x, o) ∈ all_regs → (y, o) ∈ all_regs → x = y.
Proof.
  intros Hx Hy. assert (Forall (λ y, Forall (λ z, y.2 = z.2 → y.1 = z.1) all_regs) all_regs) as Hall by by_decision.
  rewrite Forall_forall in Hall. specialize (Hall _ Hx). rewrite Forall_forall in Hall. by apply (Hall _ Hy).
Qed.

Lemma flag_clear x bits k : 0 ≤ k → Z.testbit (u64 (Z.lnot bits)) k = false → flag (clear x bits) (Z.shiftl 1 k) = false.
Proof. intros Hk Hb. rewrite flag_testbit by done. unfold clear. by rewrite Z.land_spec, Hb, andb_false_r. Qed.

Lemma flag_lor x y k : 0 ≤ k → flag (Z.lor x y) (Z.shiftl 1 k) = flag x (Z.shiftl 1 k) || flag y (Z.shiftl 1 k).
Proof. intros Hk. rewrite !flag_testbit by done. apply Z.lor_spec. Qed.

Lemma trap_status_spp x : flag (trap_status x) SSTATUS_SPP = false.
Proof.
  unfold trap_status. change SSTATUS_SPP with (Z.shiftl 1 8). destruct (flag x SSTATUS_SIE); rewrite ?flag_lor by lia; by rewrite flag_clear by (lia || by vm_compute).
Qed.

Section round.
Context {F X : Type} `{FileOps F} `{ExecOps F} `{Devices X}.
Context (kend trampoline forkret_pc : Z) (Hend : KERNBASE ≤ kend) (Htr : 0 ≤ trampoline < 18446744073709547520).
Context (me : nat) (junk : list Z) (file_call : Z → M (sysst F) Z) (kernelvec_pc usertrap_pc uservec_off : Z).
Implicit Types (s : kstate F) (t : sysst F) (u : ust F X) (p : proc).
Abbreviation window := (window kend trampoline).
Abbreviation mem_of s := (k_mem (ks_k s)).
Abbreviation ks_of u := (sy_k (t_sys (u_t u))).

(** The process's registers are in its trap frame, and [g] is what is there. *)
Record frame s0 s p (g : Z → Z) : Prop := {
  fr_state : s = with_k s0 (kset_mem (mem_of s) (ks_k s0));
  fr_me : ks_procs s !! me = Some p;
  fr_window : window (p_pagetable p) (p_trapframe p) (mem_of s);
  fr_slot o : o mod 8 = 0 → 0 ≤ o ≤ 280 → ld64 (mem_of s) (p_trapframe p + o) = g o;
  fr_out : outside {[p_trapframe p]} (mem_of s0) (mem_of s)
}.

Lemma outside_st64 tf m m' o v : outside {[tf]} m m' → 0 ≤ o ≤ 280 → outside {[tf]} m (st64 m' (tf + o) v).
Proof.
  intros Hout Ho a Ha. rewrite <-(Hout a Ha). apply ld_st64_ne. specialize (Ha tf ltac:(set_solver)). unfold in_page in Ha. lia.
Qed.

Lemma tf_set_frame s0 s p g o v (Q : unit → kstate F → Prop) :
  frame s0 s p g → o mod 8 = 0 → 0 ≤ o ≤ 280 → (∀ s', frame s0 s' p (upd g o (u64 v)) → Q tt s') → wp (tf_set me o v) s Q.
Proof.
  intros [Hs Hp HW Hg Hout] Hm Ho HQ. unfold tf_set. wp_step. pget. apply wp_onk. unfold stp. wp_step. apply HQ. split.
  - cbn. by rewrite Hs.
  - exact Hp.
  - apply (window_st64 kend trampoline Hend Htr); [done|lia..].
  - intros o' Hm' Ho'. cbn [ks_k with_k k_mem kset_mem]. destruct (decide (o' = o)) as [->|Hne]; [by rewrite upd_eq, ld64_st64_eq|].
    rewrite upd_ne by done. rewrite ld64_st64_ne by (apply apart_ne; done). by apply Hg.
  - by apply outside_st64.
Qed.

Lemma tf_get_frame s0 s p g o (Q : Z → kstate F → Prop) :
  frame s0 s p g → o mod 8 = 0 → 0 ≤ o ≤ 280 → Q (g o) s → wp (tf_get me o) s Q.
Proof.
  intros [Hs Hp HW Hg Hout] Hm Ho HQ. unfold tf_get. wp_step. pget. apply wp_onk. unfold ldp. wp_step. rewrite Hg by done. by destruct s.
Qed.

Abbreviation usertrap := (usertrap kend trampoline forkret_pc me junk file_call kernelvec_pc usertrap_pc uservec_off).
Abbreviation usertrapret := (usertrapret me usertrap_pc uservec_off).

(** What [usertrapret] leaves in the trap frame. *)
Definition ready_frame p (ksatp hart : Z) (g : Z → Z) : Z → Z :=
  upd (upd (upd (upd g TF_kernel_satp (u64 ksatp)) TF_kernel_sp (u64 (u64 (p_kstack p + PGSIZE)))) TF_kernel_trap (u64 usertrap_pc)) TF_kernel_hartid (u64 hart).

Lemma wp_onproc {A} (m : M (kstate F) A) s mt lg c hart (dev : X) (Q : A → tst F X → Prop) :
  wp m s (λ a s', Q a (TSt (SysSt s' mt lg) c hart dev)) → wp (onproc m) (TSt (SysSt s mt lg) c hart dev) Q.
Proof. intros Hm. unfold onproc, onsys, onp. apply wp_lift, wp_lift. exact Hm. Qed.

Ltac frame_set H s' := wp_step; apply wp_onproc; eapply tf_set_frame; [exact H|done|done|]; clear H; intros s' H.
Ltac csrs := unfold intr_on, intr_off, r_, w_; wp_steps; cbn [t_sys t_csr t_tp t_dev].

Lemma usertrapret_spec s0 s mt lg c hart dev p g (Q : resume → tst F X → Prop) :
  frame s0 s p g →
  (∀ s' c', frame s0 s' p (ready_frame p (c Reg.satp) hart g) → c' Reg.satp = c Reg.satp → c' Reg.stvec = TRAMPOLINE + uservec_off →
     c' Reg.sepc = g TF_epc → flag (c' Reg.sstatus) SSTATUS_SPP = false →
     Q (ToUser (MAKE_SATP (p_pagetable p))) (TSt (SysSt s' mt lg) c' hart dev)) →
  wp usertrapret (TSt (SysSt s mt lg) c hart dev) Q.
Proof.
  intros Hf HQ. unfold usertrapret. wp_step. apply wp_onproc. eapply wp_getp; [apply Hf|]. csrs.
  apply wp_onproc. eapply tf_set_frame; [exact Hf|done|done|]. clear Hf. intros s1 Hf.
  frame_set Hf s2. frame_set Hf s3. csrs. apply wp_onproc. eapply tf_set_frame; [exact Hf|done|done|]. clear Hf. intros s4 Hf. csrs.
  apply wp_onproc. eapply tf_get_frame; [exact Hf|done|done|]. csrs.
  rewrite (upd_ne _ Reg.stvec Reg.satp), (upd_ne c Reg.sstatus Reg.satp) in Hf by done.
  apply HQ; [exact Hf|by rewrite !upd_ne by done|by rewrite !upd_ne, upd_eq by done|by rewrite upd_eq, !upd_ne by done|].
  rewrite upd_ne, upd_eq by done. change SSTATUS_SPP with (Z.shiftl 1 8). rewrite flag_lor by lia. by rewrite flag_clear by (lia || by vm_compute).
Qed.

(** The call has left the trap frame, and the process's place in the kernel, alone. *)
Record frame_kept s p t' p' : Prop := {
  fk_me : ks_procs (sy_k t') !! me = Some p';
  fk_table : p_pagetable p' = p_pagetable p;
  fk_frame : p_trapframe p' = p_trapframe p;
  fk_stack : p_kstack p' = p_kstack p;
  fk_killed : p_killed p' = 0;
  fk_window : window (p_pagetable p') (p_trapframe p') (mem_of (sy_k t'));
  fk_bytes a : in_page (p_trapframe p) a → ld (mem_of (sy_k t')) a = ld (mem_of s) a
}.

Lemma frame_kept_frame s0 s p g t' p' : frame s0 s p g → frame_kept s p t' p' → frame (sy_k t') (sy_k t') p' g.
Proof.
  intros Hf [Hme Ht Hfr Hks Hk HW Hb]. split; [by destruct (sy_k t') as [[] ? ? ? ? ?]|done|done| |by intros a Ha].
  intros o Hm Ho. rewrite <-(fr_slot _ _ _ _ Hf o Hm Ho), Hfr. apply ld64_ext. intros b Hbb. apply Hb. unfold in_page. lia.
Qed.

Definition epc_set (g : Z → Z) (epc : Z) : Z → Z := upd (upd g TF_epc (u64 epc)) TF_epc (u64 (u64 (u64 epc + 4))).

Lemma syscall_frame s0 s p g mt lg f (R : Z → sysst F → Prop) (Q : bool → sysst F → Prop) :
  frame s0 s p g → 0 < s32 (g TF_a7) < 30 → syscall_of kend trampoline forkret_pc me junk file_call (s32 (g TF_a7)) = Some f →
  wp f (SysSt s mt lg) (λ o t', ∃ v p', o = Some v ∧ R v t' ∧ frame_kept s p t' p') →
  (∀ v t' p' s', R v t' → frame_kept s p t' p' → frame (sy_k t') s' p' (upd g TF_a0 (u64 (u64 v))) → Q true (SysSt s' (sy_mutex t') (sy_log t'))) →
  wp (syscall kend trampoline forkret_pc me junk file_call) (SysSt s mt lg) Q.
Proof.
  intros Hf Hnum Hof Hcall HQ. unfold syscall. wp_step. apply wp_lift. eapply tf_get_frame; [exact Hf|done|done|]. cbv beta.
  rewrite (proj2 (Z.ltb_lt 0 _)), (proj2 (Z.ltb_lt _ 30)) by lia. cbn [andb]. rewrite Hof. wp_step.
  eapply wp_mono; [exact Hcall|]. intros o t' (v & p' & -> & HR & Hk). wp_step. apply wp_lift.
  eapply tf_set_frame; [by eapply frame_kept_frame|done|done|]. intros s' Hf'. wp_step. by eapply HQ.
Qed.

Lemma usertrap_spec s0 s p g mt lg c hart dev f (R : Z → sysst F → Prop) (Q : resume → tst F X → Prop) :
  frame s0 s p g → p_killed p = 0 → c Reg.scause = 8 → flag (c Reg.sstatus) SSTATUS_SPP = false →
  0 < s32 (g TF_a7) < 30 → syscall_of kend trampoline forkret_pc me junk file_call (s32 (g TF_a7)) = Some f →
  (∀ s', frame s0 s' p (epc_set g (c Reg.sepc)) → wp f (SysSt s' mt lg) (λ o t', ∃ v p', o = Some v ∧ R v t' ∧ frame_kept s' p t' p')) →
  (∀ v t' p' s1 s' c' g', R v t' → frame_kept s1 p t' p' →
     g' = ready_frame p' (c Reg.satp) hart (upd (epc_set g (c Reg.sepc)) TF_a0 (u64 (u64 v))) → frame (sy_k t') s' p' g' →
     c' Reg.satp = c Reg.satp → c' Reg.stvec = TRAMPOLINE + uservec_off → c' Reg.sepc = g' TF_epc → flag (c' Reg.sstatus) SSTATUS_SPP = false →
     Q (ToUser (MAKE_SATP (p_pagetable p'))) (TSt (SysSt s' (sy_mutex t') (sy_log t')) c' hart dev)) →
  wp usertrap (TSt (SysSt s mt lg) c hart dev) Q.
Proof.
  intros Hf Hkill Hcause Hspp Hnum Hof Hcall HQ. unfold usertrap. wp_step. unfold r_. wp_step. cbn [t_csr]. rewrite Hspp. csrs.
  rewrite (upd_ne _ _ Reg.sepc) by done. apply wp_onproc. eapply tf_set_frame; [exact Hf|done|done|]. clear Hf. intros s1 Hf.
  wp_step. unfold usertrap_cause. wp_step. unfold r_. wp_step. cbn [t_csr]. rewrite upd_ne by done. rewrite Hcause. cbn [Z.eqb Pos.eqb].
  wp_step. apply wp_onproc. unfold killed. wp_step. eapply wp_getp; [apply Hf|]. wp_step. rewrite Hkill. cbn [Z.eqb negb].
  wp_step. apply wp_onproc. eapply tf_get_frame; [exact Hf|done|done|]. rewrite upd_eq.
  wp_step. apply wp_onproc. eapply tf_set_frame; [exact Hf|done|done|]. clear Hf. intros s2 Hf. fold (epc_set g (c Reg.sepc)) in Hf. csrs.
  assert (epc_set g (c Reg.sepc) TF_a7 = g TF_a7) as Ha7 by (unfold epc_set; by rewrite !upd_ne by done).
  unfold onsys at 1. apply wp_lift. eapply (syscall_frame s0 s2 p _ mt lg f R); [exact Hf|by rewrite Ha7|by rewrite Ha7|by apply Hcall|].
  intros v t' p' s3 HR Hk Hf3. wp_steps. cbn [t_csr t_tp t_dev negb]. wp_step. apply wp_onproc. unfold killed. wp_step. eapply wp_getp; [apply Hf3|]. wp_step.
  rewrite (fk_killed _ _ _ _ Hk). cbn [Z.eqb negb]. eapply usertrapret_spec; [exact Hf3|]. intros s4 c' Hf4 Hsatp Hstvec Hsepc Hspp'.
  rewrite !upd_ne in Hsatp, Hf4 by done.
  eapply HQ; [exact HR|exact Hk|reflexivity|exact Hf4|done|done| |done]. rewrite Hsepc. unfold ready_frame. by rewrite !upd_ne by done.
Qed.

(** ** The whole way *)

(** The process [me] in user mode: its page table is in use, its trap frame is
    ready for the next trap. *)
Record in_user u p (ksatp hart : Z) : Prop := {
  iu_me : ks_procs (ks_of u) !! me = Some p;
  iu_window : window (p_pagetable p) (p_trapframe p) (mem_of (ks_of u));
  iu_satp : t_csr (u_t u) Reg.satp = MAKE_SATP (p_pagetable p);
  iu_stvec : t_csr (u_t u) Reg.stvec = TRAMPOLINE + uservec_off;
  iu_ready o v : (o, v) ∈ [(TF_kernel_satp, ksatp); (TF_kernel_sp, u64 (p_kstack p + PGSIZE)); (TF_kernel_trap, usertrap_pc); (TF_kernel_hartid, hart)] →
    ld64 (mem_of (ks_of u)) (p_trapframe p + o) = v
}.

(** The kernel's state when the call is made: the registers are in the trap frame,
    with the address of the next instruction. *)
Record calling u p s : Prop := {
  ca_state : s = with_k (ks_of u) (kset_mem (mem_of s) (ks_k (ks_of u)));
  ca_window : window (p_pagetable p) (p_trapframe p) (mem_of s);
  ca_out : outside {[p_trapframe p]} (mem_of (ks_of u)) (mem_of s);
  ca_regs x o : (x, o) ∈ all_regs → ld64 (mem_of s) (p_trapframe p + o) = u64 (u_reg u x);
  ca_epc : ld64 (mem_of s) (p_trapframe p + TF_epc) = u64 (u_pc u + 4)
}.

(** And when the process is back. *)
Record called u u' t' p p' (v : Z) : Prop := {
  cd_pc : u_pc u' = u64 (u_pc u + 4);
  cd_a0 : u_reg u' Reg.a0 = u64 v;
  cd_regs x : x ≠ Reg.a0 → u_reg u' x = u64 (u_reg u x);
  cd_state : ks_of u' = with_k (sy_k t') (kset_mem (mem_of (ks_of u')) (ks_k (sy_k t')));
  cd_out : outside {[p_trapframe p']} (mem_of (sy_k t')) (mem_of (ks_of u'));
  cd_rest : sy_mutex (t_sys (u_t u')) = sy_mutex t' ∧ sy_log (t_sys (u_t u')) = sy_log t' ∧ t_dev (u_t u') = t_dev (u_t u);
  cd_same : p_pagetable p' = p_pagetable p ∧ p_trapframe p' = p_trapframe p
}.

Lemma u64_add x : u64 (u64 (u64 x + 4)) = u64 (x + 4).
Proof. unfold u64. rewrite Z.mod_mod by done. by rewrite Zplus_mod_idemp_l. Qed.

Lemma saved_frame s p r :
  ks_procs s !! me = Some p → window (p_pagetable p) (p_trapframe p) (saved (p_trapframe p) r all_regs (mem_of s)) →
  let s' := with_k s (kset_mem (saved (p_trapframe p) r all_regs (mem_of s)) (ks_k s)) in
  frame s s' p (λ o, ld64 (mem_of s') (p_trapframe p + o)).
Proof.
  intros Hp HW s'. split; [done|done|done|done|]. intros a Ha. apply saved_outside; [by_decision|]. apply Ha. set_solver.
Qed.

Lemma saved_reg tf r m x o : (x, o) ∈ all_regs → ld64 (saved tf r all_regs m) (tf + o) = u64 (r x).
Proof. apply ld64_saved. split; by_decision. Qed.

Lemma saved_slot tf r m o : o ∈ [TF_kernel_satp; TF_kernel_sp; TF_kernel_trap; TF_kernel_hartid; TF_epc] → ld64 (saved tf r all_regs m) (tf + o) = ld64 m (tf + o).
Proof.
  intros Ho. assert (Forall (λ o, o mod 8 = 0 ∧ o ∉ all_regs.*2) [TF_kernel_satp; TF_kernel_sp; TF_kernel_trap; TF_kernel_hartid; TF_epc]) as Hall by by_decision.
  rewrite Forall_forall in Hall. destruct (Hall o Ho). apply ld64_saved_ne; [done|by_decision|done].
Qed.

Lemma frame_calling u p r pc s' :
  r = u_reg u → pc = u_pc u →
  frame (ks_of u) s' p (epc_set (λ o, ld64 (saved (p_trapframe p) r all_regs (mem_of (ks_of u))) (p_trapframe p + o)) pc) → calling u p s'.
Proof.
  intros -> -> [Hs Hp HW Hg Hout]. split; [done..| |].
  - intros x o Hx. destruct (all_regs_off x o Hx) as [Hm Ho]. rewrite Hg by (done || lia). unfold epc_set.
    rewrite !upd_ne by (unfold TF_epc; lia). by apply saved_reg.
  - rewrite Hg by done. unfold epc_set. rewrite upd_eq. apply u64_add.
Qed.

(** What is restored from the trap frame. *)
Lemma final_slot p tf r m pc ksatp hart v x o :
  (x, o) ∈ all_regs →
  ready_frame p ksatp hart (upd (epc_set (λ o, ld64 (saved tf r all_regs m) (tf + o)) pc) TF_a0 (u64 (u64 v))) o =
  if decide (x = Reg.a0) then u64 v else u64 (r x).
Proof.
  intros Hx. destruct (all_regs_off x o Hx) as [Hm Ho]. unfold ready_frame, epc_set, TF_kernel_satp, TF_kernel_sp, TF_kernel_trap, TF_kernel_hartid, TF_epc.
  rewrite !(upd_ne _ _ o) by lia. case_decide as Hd.
  - subst x. assert (o = TF_a0) as ->.
    { assert (Forall (λ y, y.1 = Reg.a0 → y.2 = TF_a0) all_regs) as Hall by by_decision. rewrite Forall_forall in Hall. by apply (Hall (Reg.a0, o) Hx). }
    rewrite upd_eq. unfold u64. by rewrite Z.mod_mod.
  - rewrite upd_ne; [rewrite !upd_ne by lia; by apply saved_reg|]. intros ->. apply Hd. eapply all_regs_inj; [exact Hx|by_decision].
Qed.

(** C8: A system call returns to user space, to the instruction after the [ecall],
    with the call's result in [a0] and every other register as it was, for every
    call that returns and leaves the caller's trap frame alone: [uservec] saves the
    registers through the user's page table, [usertrap] dispatches on [a7], and
    [usertrapret] and [userret] restore them. The call finds all registers in the
    trap frame. Outside the trap frame memory is as the call leaves it, and the
    process is ready for its next trap. *)
Theorem ecall_roundtrip u p ksatp hart regs f (R : Z → sysst F → Prop) :
  in_user u p ksatp hart → p_killed p = 0 →
  Forall (λ x, 0 ≤ x < 18446744073709551616) [usertrap_pc; ksatp; hart] →
  0 < s32 (u64 (u_reg u Reg.a7)) < 30 → syscall_of kend trampoline forkret_pc me junk file_call (s32 (u64 (u_reg u Reg.a7))) = Some f →
  (∀ s, calling u p s → wp f (SysSt s (sy_mutex (t_sys (u_t u))) (sy_log (t_sys (u_t u)))) (λ o t', ∃ v p', o = Some v ∧ R v t' ∧ frame_kept s p t' p')) →
  wp (ecall kend trampoline forkret_pc me junk file_call kernelvec_pc usertrap_pc uservec_off regs) u
    (λ o u', o = Some true ∧ ∃ v t' p', R v t' ∧ called u u' t' p p' v ∧ in_user u' p' ksatp hart).
Proof.
  intros [Hme HW Hsatp Hstvec Hready] Hkill Hrng Hnum Hof Hcall. destruct u as [r pc [[s mt lg] c tp dev]].
  apply Forall_cons in Hrng as [Hpc Hrng]. apply Forall_cons in Hrng as [Hks Hrng]. apply Forall_cons in Hrng as [Hht _].
  cbn [u_t u_reg u_pc t_sys t_csr sy_k sy_mutex sy_log] in *. set (tf := p_trapframe p) in *.
  unfold ecall, take_trap. wp_steps. unfold onmach at 1. apply wp_lift. unfold mach_of. cbn [u_t u_reg u_pc t_sys t_csr sy_k sy_mutex sy_log t_tp t_dev].
  eapply (uservec_spec kend trampoline Hend Htr); [exact HW|by rewrite !upd_ne by done|].
  intros r1 m1 HW1 Hsp Htp. pose proof (saved_frame s p r Hme HW1) as Hf. cbv zeta in Hf. fold tf m1 in Hf.
  cbn [ks_k with_k k_mem kset_mem] in Hf.
  assert (∀ o v, (o, v) ∈ [(TF_kernel_satp, ksatp); (TF_kernel_sp, u64 (p_kstack p + PGSIZE)); (TF_kernel_trap, usertrap_pc); (TF_kernel_hartid, hart)] →
    ld64 m1 (tf + o) = v) as Hready1.
  { intros o v Ho. unfold m1. rewrite saved_slot; [by apply Hready|]. revert Ho. rewrite !elem_of_cons, !pair_eq. intros [[-> _]|[[-> _]|[[-> _]|[[-> _]|[]%not_elem_of_nil]]]]; by_decision. }
  change 16 with TF_kernel_trap. rewrite (Hready1 TF_kernel_trap usertrap_pc) by set_solver.
  change (tf + 0) with (tf + TF_kernel_satp). rewrite (Hready1 TF_kernel_satp ksatp) by set_solver.
  rewrite Z.eqb_refl. cbn [negb]. wp_step. unfold onkernel at 1. apply wp_lift. unfold of_mach. cbn [u_t u_reg u_pc t_sys t_csr sy_k sy_mutex sy_log t_tp t_dev m_reg m_csr m_mem].
  eapply (usertrap_spec s _ p _ mt lg _ _ dev f R); [exact Hf|done|done|by rewrite !upd_ne, upd_eq, trap_status_spp by done| | | |].
  { unfold m1. rewrite saved_reg with (x := Reg.a7); [done|by_decision]. }
  { unfold m1. rewrite saved_reg with (x := Reg.a7); [done|by_decision]. }
  { intros s' Hf'. apply Hcall. by apply (frame_calling (USt r pc (TSt (SysSt s mt lg) c tp dev)) p r pc). }
  intros v t' p' s1 s' c' g' HR Hk Hg' Hf' Hsatp' Hstvec' Hsepc' Hspp'. unfold to_user. wp_steps. unfold onmach. apply wp_lift. unfold mach_of.
  cbn [u_t u_reg u_pc t_sys t_csr sy_k sy_mutex sy_log t_tp t_dev m_reg m_csr m_mem].
  eapply (userret_spec kend trampoline Hend Htr); [apply Hf'|apply upd_eq|]. intros r2 Hr2. wp_steps. rewrite Hspp'. split; [done|].
  change (upd (upd (upd (upd (upd c Reg.sepc pc) Reg.scause 8) Reg.sstatus (trap_status (c Reg.sstatus))) Reg.sscratch (r Reg.a0)) Reg.satp ksatp Reg.satp)
    with ksatp in Hg'.
  change (upd (upd (upd (upd (upd c Reg.sepc pc) Reg.scause 8) Reg.sstatus (trap_status (c Reg.sstatus))) Reg.sscratch (r Reg.a0)) Reg.satp ksatp Reg.sepc)
    with pc in Hg'.
  assert (∀ x o, (x, o) ∈ all_regs → r2 x = if decide (x = Reg.a0) then u64 v else u64 (r x)) as Hr3.
  { intros x o Hx. destruct (all_regs_off x o Hx). rewrite (Hr2 x o Hx), (fr_slot _ _ _ _ Hf' o), Hg' by (done || lia). by apply final_slot. }
  exists v, t', p'. split; [done|]. split; [split|split]; unfold of_mach; cbn [u_t u_reg u_pc t_sys t_csr sy_k sy_mutex sy_log t_tp t_dev m_reg m_csr m_mem].
  - rewrite Hsepc', Hg'. unfold ready_frame, epc_set. rewrite !(upd_ne _ _ TF_epc), upd_eq by done. apply u64_add.
  - by rewrite (Hr3 Reg.a0 112) by by_decision.
  - intros x Hx. destruct (all_regs_slot x) as [o Ho]. by rewrite (Hr3 x o Ho), decide_False.
  - cbn. by rewrite (fr_state _ _ _ _ Hf').
  - apply Hf'.
  - done.
  - split; apply Hk.
  - apply Hf'.
  - apply Hf'.
  - by rewrite upd_ne, upd_eq.
  - by rewrite !upd_ne.
  - intros o w Ho. cbn [ks_k k_mem kset_mem]. revert Ho. rewrite !elem_of_cons, !pair_eq.
    change 32 with TF_kernel_hartid in Htp. rewrite (Hready1 TF_kernel_hartid hart) in Htp by set_solver. rewrite Htp in Hg'.
    intros [[-> ->]|[[-> ->]|[[-> ->]|[[-> ->]|[]%not_elem_of_nil]]]]; rewrite (fr_slot _ _ _ _ Hf'), Hg' by done; unfold ready_frame.
    all: rewrite ?upd_ne by done; rewrite upd_eq; apply u64_small; first [done|apply u64_range].
Qed.
End round.

(** ** The process of [TrapDemo] calls [getpid] *)
Module PathDemo.
Import TrapDemo.

#[local] Instance no_devices : Devices unit := {|
  plic_read _ d := (0, d);
  plic_write _ _ d := d;
  dev_uartintr := mret [];
  dev_virtio_disk_intr := mret []
|}.

Definition getpid_regs : reg → Z := upd (λ _, 7) Reg.a7 SYS_getpid.

Lemma ecall_roundtrip_witness : ∃ (u : ust counted unit) p ksatp hart pc, u_reg u = getpid_regs ∧
  wp (ecall demo_kend KERNBASE 0 0 [] (λ _, mret (-1)) 0 pc 0 (λ _, 0)) u
    (λ o u', o = Some true ∧ ∃ v t' p', v = p_pid p ∧ called u u' t' p p' v ∧ in_user demo_kend KERNBASE 0 pc 0 u' p' ksatp hart).
Proof.
  destruct one_process as (s & A & L & sp & p & Hi & Hp & Hst & _ & Hkill).
  destruct (tf_store demo_kend KERNBASE demo_kend_ok ltac:(by vm_compute) s A ∅ L sp 0 p TF_kernel_sp (u64 (p_kstack p + PGSIZE)) Hi Hp ltac:(by rewrite Hst) ltac:(by vm_compute)) as (sp' & Hi' & _).
  set (s' := with_k s _) in Hi'. set (m := k_mem (ks_k s')). set (slot o := ld64 m (p_trapframe p + o)).
  assert (∀ o, 0 ≤ slot o < 18446744073709551616) as Hslot by (intros o; apply ld64_range, (is_k _ _ _ _ _ _ _ Hi')).
  exists (USt getpid_regs 100 (TSt (SysSt s' [] []) (upd (upd (λ _, 0) Reg.satp (MAKE_SATP (p_pagetable p))) Reg.stvec (TRAMPOLINE + 0)) 0 tt)),
    p, (slot 0), (slot 32), (slot 16). split; [done|].
  apply (ecall_roundtrip demo_kend KERNBASE 0 demo_kend_ok ltac:(by vm_compute) 0 [] (λ _, mret (-1)) 0 (slot 16) 0 _ p _ _ (λ _, 0) (ret (sys_getpid 0)) (λ v _, v = p_pid p)).
  - split; cbn [u_t t_sys sy_k t_csr].
    + exact Hp.
    + exists (ks_k s'), L, (sp' 0%nat).1, (sp' 0%nat).2, (p_sz p). split; [done|]. apply (is_mem _ _ _ _ _ _ _ Hi' 0%nat p Hp). by rewrite Hst.
    + by rewrite upd_ne, upd_eq.
    + by rewrite upd_eq.
    + intros o v. rewrite !elem_of_cons, !pair_eq. intros [[-> ->]|[[-> ->]|[[-> ->]|[[-> ->]|[]%not_elem_of_nil]]]]; try reflexivity.
      unfold s'. cbn [ks_k with_k k_mem kset_mem]. rewrite ld64_st64_eq. apply u64_small, u64_range.
  - exact Hkill.
  - repeat constructor; apply Hslot.
  - by vm_compute.
  - reflexivity.
  - intros s1 [Hs1 HW1 _ _ _]. cbn [u_t t_sys sy_k sy_mutex sy_log] in *.
    assert (ks_procs s1 !! 0%nat = Some p) as Hp1 by (by rewrite Hs1).
    unfold ret, sys_getpid. wp_step. wp_step. apply wp_lift. eapply wp_getp; [exact Hp1|]. wp_steps.
    exists (p_pid p), p. split_and!; [done|done|]. by split.
Defined.
End PathDemo.
