(* ===== verification/Mkfs.v ===== *)
(** * mkfs: the first file system

    mkfs/mkfs.c, the program of the build that writes the disk image. The image is
    a file of sectors, in which what was not written is zero; what the program
    reads of the files it copies is given, read by read. The machine it runs on
    stores integers with the low byte first, as the target does. *)
From Stdlib Require Import ZArith Lia.
From stdpp Require Import prelude strings.
From S2P Require Import Prelude Bytes Param Str UserMem Sleeplock BufIface Log Fs.

Definition NINODES : Z := 200.
Definition nbitmap : Z := FSSIZE / BPB + 1.
Definition ninodeblocks : Z := NINODES / IPB + 1.
Definition nlog : Z := LOGSIZE.
Definition nmeta : Z := 2 + nlog + ninodeblocks + nbitmap.
Definition nblocks : Z := FSSIZE - nmeta.

(** The image and its length in sectors, and the next free inode and block. *)
Record mkst := MkSt { m_img : Z → block; m_len : Z; freeinode : Z; freeblock : Z }.
Abbreviation MK := (M mkst).

Definition xshort (x : Z) : Z := le_val (le_bytes 2 x).
Definition xint (x : Z) : Z := le_val (le_bytes 4 x).

Definition sb : superblock :=
  SuperBlock FSMAGIC (xint FSSIZE) (xint nblocks) (xint NINODES) (xint nlog) (xint 2) (xint (2 + nlog)) (xint (2 + nlog + ninodeblocks)).
Definition superblock_bytes (s : superblock) : list Z :=
  concat (le_bytes 4 <$> [sb_magic s; sb_size s; sb_nblocks s; sb_ninodes s; sb_nlog s; sb_logstart s; sb_inodestart s; sb_bmapstart s]).

Definition wsect (sec : Z) (buf : block) : MK unit :=
  let b := u32 (sec * BSIZE) / BSIZE in
  modify (λ s, MkSt (<[b := buf]> (m_img s)) (Z.max (m_len s) (b + 1)) (freeinode s) (freeblock s)).

Definition rsect (sec : Z) : MK block :=
  let b := u32 (sec * BSIZE) / BSIZE in
  s ← mget;
  if b <? m_len s then mret (m_img s b) else panic "read".

(** [struct dinode] as its bytes. *)
Definition winode (inum : Z) (ip : list Z) : MK unit :=
  let bn := IBLOCK inum sb in
  buf ← rsect bn;
  wsect bn (splice buf (dinode_off inum) ip).

Definition rinode (inum : Z) : MK (list Z) :=
  buf ← rsect (IBLOCK inum sb);
  mret (sub buf (dinode_off inum) (Z.to_nat sizeof_dinode)).

Definition ialloc (type : Z) : MK Z :=
  inum ← gets freeinode;
  modify (λ s, MkSt (m_img s) (m_len s) (u32 (freeinode s + 1)) (freeblock s)) ;;
  let din := replicate (Z.to_nat sizeof_dinode) 0 in
  let din := put16 din 0 (xshort type) in
  let din := put16 din 6 (xshort 1) in
  let din := put32 din 8 (xint 0) in
  let din := put16 din 64 6 in
  winode inum din ;;
  mret inum.

Definition balloc (used : Z) : MK unit :=
  if negb (used <? BPB) then panic "assert" else
  let buf := foldl (λ buf i, <[ (i / 8)%nat := Z.lor (nth (i / 8) buf 0) (Z.shiftl 1 (Z.of_nat (i mod 8))) ]> buf) zero_block (seq 0 (Z.to_nat used)) in
  wsect (sb_bmapstart sb) buf.

(** [freeblock++] *)
Definition next_block : MK Z :=
  x ← gets freeblock;
  modify (λ s, MkSt (m_img s) (m_len s) (freeinode s) (u32 (freeblock s + 1))) ;;
  mret x.

(** [din.addrs[i]] *)
Definition addr_off (i : Z) : nat := 12 + 4 * Z.to_nat i.

(** The block of the file that holds its block [fbn]. *)
Definition iappend_block (fbn : Z) (din : list Z) : MK (Z * list Z) :=
  if fbn <? NDIRECT then
    din ← (if xint (get32 din (addr_off fbn)) =? 0
           then x ← next_block; mret (put32 din (addr_off fbn) (xint x)) else mret din);
    mret (xint (get32 din (addr_off fbn)), din)
  else
    din ← (if xint (get32 din (addr_off NDIRECT)) =? 0
           then x ← next_block; mret (put32 din (addr_off NDIRECT) (xint x)) else mret din);
    let ind := xint (get32 din (addr_off NDIRECT)) in
    indirect ← rsect ind;
    let o := (4 * Z.to_nat (fbn - NDIRECT))%nat in
    indirect ← (if get32 indirect o =? 0
                then x ← next_block;
                     let indirect := put32 indirect o (xint x) in
                     wsect ind indirect ;; mret indirect
                else mret indirect);
    mret (xint (get32 indirect o), din).

Fixpoint iappend_loop (fuel : nat) (p : list Z) (off : Z) (din : list Z) : MK (Z * list Z) :=
  match fuel with
  | O => λ _, NoFuel
  | S fuel =>
      if decide (p = []) then mret (off, din) else
      let fbn := off / BSIZE in
      if negb (fbn <? MAXFILE) then panic "assert" else
      '(x, din) ← iappend_block fbn din;
      let n1 := Z.min (Z.of_nat (length p)) ((fbn + 1) * BSIZE - off) in
      buf ← rsect x;
      wsect x (splice buf (Z.to_nat (off - fbn * BSIZE)) (take (Z.to_nat n1) p)) ;;
      iappend_loop fuel (drop (Z.to_nat n1) p) (u32 (off + n1)) din
  end.

Definition iappend (inum : Z) (p : list Z) : MK unit :=
  din ← rinode inum;
  '(off, din) ← iappend_loop (S (length p)) p (xint (get32 din 8)) din;
  winode inum (put32 din 8 (xint off)).

Definition dirent (inum : Z) (name : list Z) : list Z := splice (put16 (replicate 16 0) 0 (xshort inum)) 2 name.

(** A file to copy: its path, and what the reads return if it can be opened. *)
Abbreviation hostfile := (list Z * option (list (list Z)))%type.

Definition user_ : list Z := [117; 115; 101; 114; 47].
Definition shortname (path : list Z) : list Z := if strncmp (list_ptr path) (list_ptr user_) 5 =? 0 then drop 5 path else path.
Definition skip_underscore (name : list Z) : list Z := if nth 0 name 0 =? 95 then drop 1 name else name.

Definition add_file (rootino : Z) (f : hostfile) : MK unit :=
  let name := shortname (fst f) in
  if existsb (λ c, c =? 47) name then panic "assert" else
  match snd f with
  | None => panic "open"
  | Some reads =>
      let name := skip_underscore name in
      if negb (Z.of_nat (length name) <=? Z.of_nat DIRSIZ) then panic "assert" else
      inum ← ialloc T_FILE;
      iappend rootino (dirent inum (strncpy (list_ptr name) DIRSIZ)) ;;
      mfor reads (λ buf, iappend inum buf)
  end.

Definition zero_image : MK unit := mfor (seq 0 (Z.to_nat FSSIZE)) (λ i, wsect (Z.of_nat i) zero_block).

(** [argc] is 2 and the files; [opens]: the image can be created. *)
Definition mkfs (opens : bool) (files : list hostfile) : MK unit :=
  if negb (BSIZE mod sizeof_dinode =? 0) then panic "assert" else
  if negb (BSIZE mod 16 =? 0) then panic "assert" else
  if negb opens then panic "open" else
  modify (λ s, MkSt (m_img s) (m_len s) (freeinode s) nmeta) ;;
  zero_image ;;
  wsect 1 (splice zero_block 0 (superblock_bytes sb)) ;;
  rootino ← ialloc T_DIR;
  if negb (rootino =? ROOTINO) then panic "assert" else
  iappend rootino (dirent rootino [46; 0]) ;;
  iappend rootino (dirent rootino [46; 46; 0]) ;;
  mfor files (add_file rootino) ;;
  din ← rinode rootino;
  let off := xint (get32 din 8) in
  let off := (off / BSIZE + 1) * BSIZE in
  winode rootino (put32 din 8 (xint off)) ;;
  used ← gets freeblock;
  balloc used.

(** Before the program runs: an empty image. *)
Definition mk_init : mkst := MkSt (λ _, zero_block) 0 1 0.
