(* ===== verification/MkfsTheorems.v ===== *)
(** * The image mkfs writes

    What [mkfs] puts on the disk is the file system that the kernel's code relies
    on: the superblock, inodes whose blocks are theirs alone and marked in use, and
    a root directory with the files, which hold what was copied. *)
From Stdlib Require Import ZArith Lia.
From stdpp Require Import prelude strings functions.
From S2P Require Import Prelude Bytes Param Str UserMem Sleeplock BufIface Log LogSpec Mkfs Fs FsBlock FsData FsRw FsWrite FsDir.

(** ** Places of a file *)

Definition dd (din : list Z) : dinode := dinode_get din 0.
Definition ptr (v : Z → block) (din : list Z) (k : nat) : Z := ptr_at v (dd din) k.

Lemma ptr_direct v din k : (k < 13)%nat → ptr v din k = get32 din (12 + 4 * k).
Proof.
  intros Hk. unfold ptr, ptr_at. rewrite decide_True by places. unfold dd, dinode_get. cbn [d_addrs].
  erewrite nth_lookup_Some; [reflexivity|]. rewrite list_lookup_fmap, lookup_seq_lt by places. done.
Qed.

Lemma ptr_indirect v din k : (13 ≤ k)%nat → ptr v din k = if ptr v din 12 =? 0 then 0 else get32 (v (ptr v din 12)) (4 * (k - 13)).
Proof.
  intros Hk. unfold ptr, ptr_at. rewrite decide_False by places. rewrite decide_True by places. done.
Qed.

(** The places that a file of [n] bytes fills. *)
Definition needs (n : Z) (k : nat) : Prop :=
  if decide (k < 12)%nat then 1024 * Z.of_nat k < n else if decide (k = 12)%nat then 12288 < n else 1024 * (Z.of_nat k - 1) < n.
Definition nblk (n : Z) : Z := (n + 1023) / 1024 + (if 12288 <? n then 1 else 0).

Lemma needs_place n bn : 0 ≤ bn → needs n (place bn) ↔ 1024 * bn < n.
Proof. intros Hbn. unfold needs, place, NDIRECT. destruct (Z.ltb_spec bn 12); repeat case_decide; lia. Qed.

Lemma needs_mono n n' k : n ≤ n' → needs n k → needs n' k.
Proof. unfold needs. repeat case_decide; lia. Qed.

Lemma nblk_mono n n' : 0 ≤ n ≤ n' → nblk n ≤ nblk n'.
Proof. intros Hn. unfold nblk. destruct (Z.ltb_spec 12288 n), (Z.ltb_spec 12288 n'); zlia. Qed.

(** A place is the one of the indirect block or the one of a block of the file. *)
Lemma place_cases k : (k < 269)%nat → k = 12%nat ∨ ∃ bn, 0 ≤ bn < 268 ∧ k = place bn.
Proof.
  intros Hk. destruct (decide (k = 12%nat)) as [->|Hne]; [by left|right]. unfold place, NDIRECT. destruct (decide (k < 12)%nat).
  - exists (Z.of_nat k). rewrite (proj2 (Z.ltb_lt _ _)) by lia. split; lia.
  - exists (Z.of_nat k - 1). rewrite (proj2 (Z.ltb_ge _ _)) by lia. split; lia.
Qed.

(** ** Files on the image *)

(** The inode [din] holds the file [c]; behind its end its last block is zero. *)
Record file_ok (v : Z → block) (din c : list Z) : Prop := {
  fo_len : length din = 1024%nat;
  fo_max : Z.of_nat (length c) ≤ 274432;
  fo_ptr k : (k < 269)%nat → ptr v din k ≠ 0 ↔ needs (Z.of_nat (length c)) k;
  fo_data bn i : 0 ≤ bn → 1024 * bn < Z.of_nat (length c) → (i < 1024)%nat → nth i (v (ptr v din (place bn))) 0 = nth (1024 * Z.to_nat bn + i) c 0
}.

Record entry := Ent { e_type : Z; e_din : list Z; e_data : list Z }.
Definition content (l : list entry) : list (Z * list Z) := (λ e, (e_type e, e_data e)) <$> l.

(** The first block that files with the contents [c] leave free. *)
Definition usedc (c : list (Z * list Z)) : Z := 234 + foldr Z.add 0 ((λ x, nblk (Z.of_nat (length x.2))) <$> c).
Abbreviation used l := (usedc (content l)).

(** The files [l] with blocks before [fb], each block in one place of one file. *)
Record built (v : Z → block) (fb : Z) (l : list entry) : Prop := {
  b_lens b : length (v b) = 1024%nat;
  b_file i e : l !! i = Some e → file_ok v (e_din e) (e_data e);
  b_range i e k : l !! i = Some e → (k < 269)%nat → ptr v (e_din e) k ≠ 0 → 234 ≤ ptr v (e_din e) k < fb;
  b_inj i j e e' k k' : l !! i = Some e → l !! j = Some e' → (k < 269)%nat → (k' < 269)%nat →
    ptr v (e_din e) k ≠ 0 → ptr v (e_din e) k = ptr v (e_din e') k' → i = j ∧ k = k';
  b_zero b : fb ≤ b → v b = zero_block;
  b_fb : 234 ≤ fb
}.

(** A file grows by bytes of one block, into which [x] points. *)
Record grows (v : Z → block) (fb : Z) (din : list Z) (n : Z) (q : list Z) (x : Z) (v' : Z → block) (fb' : Z) (din' : list Z) : Prop := {
  gr_len : length din' = 1024%nat;
  gr_fb : fb ≤ fb';
  gr_x : ptr v' din' (place (n / 1024)) = x;
  gr_old k : (k < 269)%nat → ptr v din k ≠ 0 → ptr v' din' k = ptr v din k;
  gr_new k : (k < 269)%nat → ptr v din k = 0 → ptr v' din' k ≠ 0 → fb ≤ ptr v' din' k < fb';
  gr_inj k k' : (k < 269)%nat → (k' < 269)%nat → ptr v din k = 0 → ptr v din k' = 0 → ptr v' din' k ≠ 0 → ptr v' din' k = ptr v' din' k' → k = k';
  gr_needs k : (k < 269)%nat → ptr v' din' k ≠ 0 ↔ needs (n + Z.of_nat (length q)) k;
  gr_rest b : b < fb → b ≠ x → b ≠ ptr v din 12 → v' b = v b;
  gr_block : v' x = splice (v x) (Z.to_nat (n mod 1024)) q;
  gr_zero b : fb' ≤ b → v' b = v b;
  gr_lens b : length (v' b) = 1024%nat
}.

Lemma nth_image_splice b o q j : (o + length q ≤ length b)%nat →
  nth j (splice b o q) 0 = if decide (o ≤ j < o + length q)%nat then nth (j - o) q 0 else nth j b 0.
Proof.
  intros Hl. rewrite !nth_lookup, lookup_splice by done. repeat case_decide; try lia; try done.
Qed.

Lemma nth_overflow_0 j n : nth j (replicate n 0) 0 = 0.
Proof. rewrite nth_lookup. destruct (replicate n 0 !! j) eqn:E; [|done]. by apply lookup_replicate in E as [-> _]. Qed.

Section grow.
Context (v : Z → block) (fb : Z) (l : list entry) (i : nat) (e : entry) (q : list Z) (x : Z) (v' : Z → block) (fb' : Z) (din' : list Z).
Context (Hb : built v fb l) (He : l !! i = Some e).
Let n := Z.of_nat (length (e_data e)).
Context (Hq : q ≠ []) (Hblk : n mod 1024 + Z.of_nat (length q) ≤ 1024) (Hmax : n + Z.of_nat (length q) ≤ 274432).
Context (Hg : grows v fb (e_din e) n q x v' fb' din').

Lemma grow_bn : 0 ≤ n / 1024 < 268 ∧ (place (n / 1024) < 269)%nat ∧ place (n / 1024) ≠ 12%nat ∧ (0 < length q)%nat.
Proof.
  assert (0 < length q)%nat by (destruct q; cbn; [done|lia]). assert (0 ≤ n / 1024 < 268) as Hbn by zlia.
  destruct (place_lt (n / 1024)) as [H1 H2]; [exact Hbn|]. change NPTR with 269%nat in H1. change IND with 12%nat in H2. done.
Qed.

(** [x] is the file's, or new. *)
Lemma grow_x : (ptr v (e_din e) (place (n / 1024)) = x ∧ x ≠ 0) ∨ (fb ≤ x ∧ 1024 * (n / 1024) = n).
Proof.
  destruct grow_bn as (Hbn & Hp & _ & Hl). destruct (b_file _ _ _ Hb i e He) as [_ _ Fptr _]. fold n in Fptr.
  assert (ptr v' din' (place (n / 1024)) ≠ 0) as Hx by (apply (gr_needs _ _ _ _ _ _ _ _ _ Hg); [done|]; apply needs_place; zlia).
  destruct (decide (ptr v (e_din e) (place (n / 1024)) = 0)) as [H0|H0].
  - right. split; [rewrite <-(gr_x _ _ _ _ _ _ _ _ _ Hg); by apply (gr_new _ _ _ _ _ _ _ _ _ Hg)|].
    destruct (decide (1024 * (n / 1024) < n)) as [Hlt|]; [|zlia]. exfalso. by apply (Fptr (place (n / 1024)) Hp) in H0; [|apply needs_place; lia].
  - left. split; [|by rewrite <-(gr_x _ _ _ _ _ _ _ _ _ Hg)]. by rewrite <-(gr_old _ _ _ _ _ _ _ _ _ Hg), (gr_x _ _ _ _ _ _ _ _ _ Hg).
Qed.

Lemma grow_same j e' k :
  l !! j = Some e' → (k < 269)%nat → ptr v (e_din e') k ≠ 0 → (j = i → k ≠ 12%nat ∧ k ≠ place (n / 1024)) → v' (ptr v (e_din e') k) = v (ptr v (e_din e') k).
Proof.
  intros Hj Hk H0 Hne. destruct grow_bn as (_ & Hp & _). destruct (b_range _ _ _ Hb j e' k Hj Hk H0) as [_ Hlt]. apply (gr_rest _ _ _ _ _ _ _ _ _ Hg); [done| |].
  - intros Hx. destruct grow_x as [[Hold _]|[Hnew _]]; [|lia]. destruct (b_inj _ _ _ Hb j i e' e k (place (n / 1024))) as [-> ->]; [done..|congruence|].
    by destruct (Hne eq_refl).
  - intros Hx. destruct (b_inj _ _ _ Hb j i e' e k 12%nat) as [-> ->]; [done|done|done|lia|done|done|]. by destruct (Hne eq_refl).
Qed.

Lemma grow_other j e' k : j ≠ i → l !! j = Some e' → (k < 269)%nat → ptr v' (e_din e') k = ptr v (e_din e') k.
Proof.
  intros Hne Hj Hk. destruct (decide (k < 13)%nat); [by rewrite !ptr_direct|]. rewrite !(ptr_indirect _ _ k) by lia.
  rewrite !(ptr_direct v'), !(ptr_direct v) by lia. destruct (Z.eqb_spec (get32 (e_din e') (12 + 4 * 12)) 0) as [|H0]; [done|].
  rewrite <-(ptr_direct v) in * by lia. f_equal. apply (grow_same j); [done|lia|done|done].
Qed.

Lemma grow_file : file_ok v' din' (e_data e ++ q).
Proof.
  destruct grow_bn as (Hbn & Hp & Hp12 & Hl). destruct (b_file _ _ _ Hb i e He) as [Fl Fmax Fptr Fdata]. fold n in Fptr, Fdata.
  split; [apply Hg|rewrite length_app; lia|intros k Hk; rewrite length_app, Nat2Z.inj_add; by apply Hg|].
  intros bn j Hbn' Hlt Hj. rewrite length_app, Nat2Z.inj_add in Hlt. fold n in Hlt. destruct (decide (bn = n / 1024)) as [->|Hne].
  - rewrite (gr_x _ _ _ _ _ _ _ _ _ Hg), (gr_block _ _ _ _ _ _ _ _ _ Hg), nth_image_splice by (rewrite (b_lens _ _ _ Hb); zlia).
    case_decide as Hin; [rewrite app_nth2 by (unfold n in *; zlia); f_equal; unfold n in *; zlia|].
    destruct grow_x as [[Hold Hx]|[Hnew Heq]].
    + assert (1024 * (n / 1024) < n) as Hlt' by (apply needs_place, Fptr; [lia|done|by rewrite Hold]).
      rewrite <-Hold, Fdata by (done || lia). destruct (decide (1024 * Z.to_nat (n / 1024) + j < length (e_data e))%nat); [by rewrite app_nth1|].
      rewrite !nth_overflow; [done| |lia]. rewrite length_app. unfold n in *. zlia.
    + rewrite (b_zero _ _ _ Hb) by done. unfold zero_block. rewrite nth_overflow_0, nth_overflow; [done|]. rewrite length_app. unfold n in *. zlia.
  - assert (bn < n / 1024) as Hlt1 by zlia. assert (1024 * bn < n) as Hlt2 by zlia.
    destruct (place_lt bn) as [Hpb Hpb12]; [unfold MAXFILE, NINDIRECT, NDIRECT, BSIZE; change (12 + 1024 / 4) with 268; lia|]. change NPTR with 269%nat in Hpb. change IND with 12%nat in Hpb12.
    assert (ptr v (e_din e) (place bn) ≠ 0) as H0 by (apply Fptr; [done|]; by apply needs_place).
    rewrite (gr_old _ _ _ _ _ _ _ _ _ Hg) by done. rewrite (grow_same i e) by (done || (intros _; split; [done|]; intros ?%place_inj; lia)).
    rewrite Fdata by done. rewrite app_nth1; [done|]. unfold n in *. zlia.
Qed.

Lemma built_grows : built v' fb' (<[i := Ent (e_type e) din' (e_data e ++ q)]> l).
Proof.
  assert (∀ j e', <[i := Ent (e_type e) din' (e_data e ++ q)]> l !! j = Some e' → j = i ∧ e' = Ent (e_type e) din' (e_data e ++ q) ∨ j ≠ i ∧ l !! j = Some e') as Hc.
  { intros j e' Hj. destruct (decide (j = i)) as [->|Hne]; [left|right].
    - rewrite list_lookup_insert_eq in Hj by (by eapply lookup_lt_Some). split; congruence.
    - by rewrite list_lookup_insert_ne in Hj. }
  assert (∀ k, (k < 269)%nat → ptr v' din' k ≠ 0 → (ptr v (e_din e) k ≠ 0 ∧ ptr v' din' k = ptr v (e_din e) k) ∨ (ptr v (e_din e) k = 0 ∧ fb ≤ ptr v' din' k < fb')) as Hcases.
  { intros k Hk H0. destruct (decide (ptr v (e_din e) k = 0)); [right|left]; split; try done; by apply Hg. }
  pose proof (gr_fb _ _ _ _ _ _ _ _ _ Hg) as Hfb. pose proof (b_fb _ _ _ Hb) as Hfb0. split.
  - apply Hg.
  - intros j e' [[-> ->]|[Hne Hj]]%Hc; [apply grow_file|]. destruct (b_file _ _ _ Hb j e' Hj) as [Fl Fmax Fptr Fdata].
    split; [done|done|intros k Hk; rewrite (grow_other j e') by done; by apply Fptr|]. intros bn o Hbn Hlt Ho.
    destruct (place_lt bn) as [Hpb _]; [unfold MAXFILE, NINDIRECT, NDIRECT, BSIZE; change (12 + 1024 / 4) with 268; lia|].
    assert (ptr v (e_din e') (place bn) ≠ 0) as H0 by (apply Fptr; [done|by apply needs_place]).
    rewrite (grow_other j e') by done. rewrite (grow_same j e') by (done || (by intros ->)). by apply Fdata.
  - intros j e' k [[-> ->]|[Hne Hj]]%Hc Hk H0; cbn [e_din] in *.
    + destruct (Hcases k Hk H0) as [[H1 ->]|[_ ?]]; [|lia]. pose proof (b_range _ _ _ Hb i e k He Hk H1). lia.
    + rewrite (grow_other j e') in * by done. pose proof (b_range _ _ _ Hb j e' k Hj Hk H0). lia.
  - intros j j' e1 e2 k k' [[-> ->]|[Hne Hj]]%Hc [[-> ->]|[Hne' Hj']]%Hc Hk Hk' H0 Heq; cbn [e_din] in *.
    + split; [done|]. assert (ptr v' din' k' ≠ 0) as H0' by congruence.
      destruct (Hcases k Hk H0) as [[H1 H2]|[H1 H2]], (Hcases k' Hk' H0') as [[H3 H4]|[H3 H4]].
      * by apply (b_inj _ _ _ Hb i i e e); [..|congruence].
      * pose proof (b_range _ _ _ Hb i e k He Hk H1). lia.
      * pose proof (b_range _ _ _ Hb i e k' He Hk' H3). lia.
      * by apply (gr_inj _ _ _ _ _ _ _ _ _ Hg).
    + exfalso. rewrite (grow_other j' e2) in Heq by done. destruct (Hcases k Hk H0) as [[H1 H2]|[H1 H2]].
      * destruct (b_inj _ _ _ Hb i j' e e2 k k'); [done..|congruence|done].
      * assert (ptr v (e_din e2) k' ≠ 0) as H0' by congruence. pose proof (b_range _ _ _ Hb j' e2 k' Hj' Hk' H0'). lia.
    + exfalso. rewrite (grow_other j e1) in Heq, H0 by done. assert (ptr v' din' k' ≠ 0) as H0' by congruence. destruct (Hcases k' Hk' H0') as [[H1 H2]|[H1 H2]].
      * destruct (b_inj _ _ _ Hb j i e1 e k k'); [done..|congruence|done].
      * pose proof (b_range _ _ _ Hb j e1 k Hj Hk H0). lia.
    + rewrite (grow_other j e1) in Heq, H0 by done. rewrite (grow_other j' e2) in Heq by done. by apply (b_inj _ _ _ Hb j j' e1 e2).
  - intros b Hb'. rewrite (gr_zero _ _ _ _ _ _ _ _ _ Hg) by done. apply (b_zero _ _ _ Hb). lia.
  - lia.
Qed.
End grow.

(** ** Writing into a block *)

Lemma needs_same n m k : 0 ≤ n → n mod 1024 ≠ 0 → 0 ≤ m → n mod 1024 + m ≤ 1024 → needs (n + m) k ↔ needs n k.
Proof. intros H0 Hn Hm Hle. unfold needs. repeat case_decide; split; intros; zlia. Qed.

Lemma needs_step bn m k : 0 ≤ bn → 0 < m ≤ 1024 →
  needs (1024 * bn + m) k ↔ k = place bn ∨ (k = 12%nat ∧ bn = 12) ∨ needs (1024 * bn) k.
Proof.
  intros Hbn Hm. unfold needs, place, NDIRECT. destruct (Z.ltb_spec bn 12); repeat case_decide; split; intros; try lia.
Qed.

Lemma nblk_same n m : 0 ≤ n → n mod 1024 ≠ 0 → 0 ≤ m → n mod 1024 + m ≤ 1024 → nblk (n + m) = nblk n.
Proof. intros H0 Hn Hm Hle. unfold nblk. destruct (Z.ltb_spec 12288 n), (Z.ltb_spec 12288 (n + m)); zlia. Qed.

Lemma nblk_step bn m : 0 ≤ bn → 0 < m ≤ 1024 → nblk (1024 * bn + m) = nblk (1024 * bn) + 1 + (if bn =? 12 then 1 else 0).
Proof. intros Hbn Hm. unfold nblk. destruct (Z.ltb_spec 12288 (1024 * bn)), (Z.ltb_spec 12288 (1024 * bn + m)), (Z.eqb_spec bn 12); zlia. Qed.

Lemma ptr_same v v' din k : (ptr v din 12 ≠ 0 → v' (ptr v din 12) = v (ptr v din 12)) → ptr v' din k = ptr v din k.
Proof.
  intros Hv. destruct (decide (k < 13)%nat); [by rewrite !ptr_direct|]. rewrite !(ptr_indirect _ _ k) by lia.
  rewrite !(ptr_direct v') by lia. rewrite !(ptr_direct v) in * by lia. destruct (Z.eqb_spec (get32 din (12 + 4 * 12)) 0); [done|]. by rewrite Hv.
Qed.

(** The block is there: only its contents change. *)
Lemma grows_same v fb din c q x :
  file_ok v din c → (∀ b, length (v b) = 1024%nat) → let n := Z.of_nat (length c) in
  n mod 1024 ≠ 0 → n mod 1024 + Z.of_nat (length q) ≤ 1024 → x = ptr v din (place (n / 1024)) → x ≠ ptr v din 12 → x < fb →
  grows v fb din n q x (<[x := splice (v x) (Z.to_nat (n mod 1024)) q]> v) fb din.
Proof.
  intros [Fl Fmax Fptr Fdata] Hlens n Hn Hle Hx Hne Hlt. assert (∀ k, ptr (<[x := splice (v x) (Z.to_nat (n mod 1024)) q]> v) din k = ptr v din k) as Hp.
  { intros k. apply ptr_same. intros _. by rewrite fn_lookup_insert_ne. }
  split; try done; try (intros; rewrite ?Hp in *; done).
  - intros k Hk. rewrite Hp, needs_same by (unfold n in *; zlia). by apply Fptr.
  - intros b _ Hb _. by rewrite fn_lookup_insert_ne.
  - by rewrite fn_lookup_insert.
  - intros b Hb. rewrite fn_lookup_insert_ne; [done|lia].
  - intros b. destruct (decide (b = x)) as [->|]; [rewrite fn_lookup_insert, length_splice; [done|]; rewrite Hlens; zlia|by rewrite fn_lookup_insert_ne].
Qed.

(** A new block, and at the end of the direct ones a new indirect block too. *)
Lemma grows_new v fb din c q x v' din' bn :
  file_ok v din c → (∀ b, length (v' b) = 1024%nat) → Z.of_nat (length c) = 1024 * bn → 0 ≤ bn < 268 → (0 < length q ≤ 1024)%nat → 234 ≤ fb →
  length din' = 1024%nat → x = fb + (if bn =? 12 then 1 else 0) →
  (∀ k, (k < 269)%nat → ptr v' din' k = if decide (k = place bn) then x else if decide (k = 12%nat ∧ bn = 12) then fb else ptr v din k) →
  (∀ b, b < fb → b ≠ ptr v din 12 → v' b = v b) → v' x = splice (v x) 0 q → (∀ b, x < b → v' b = v b) →
  grows v fb din (1024 * bn) q x v' (x + 1) din'.
Proof.
  intros [Fl Fmax Fptr Fdata] Hlens Hn Hbn Hq Hfb Hl Hx Hptr Hrest Hblock Hzero.
  destruct (place_lt bn) as [Hpb Hpb12]; [exact Hbn|]. change NPTR with 269%nat in Hpb. change IND with 12%nat in Hpb12.
  assert (1024 * bn / 1024 = bn) as Hdiv by zlia. assert (1024 * bn mod 1024 = 0) as Hmod by zlia. rewrite Hn in Fptr.
  assert (fb ≤ x) as Hle by (rewrite Hx; destruct (bn =? 12); lia).
  assert (∀ k, (k < 269)%nat → k = place bn ∨ (k = 12%nat ∧ bn = 12) → ptr v din k = 0) as Hz.
  { intros k Hk Hcase. destruct (decide (ptr v din k = 0)) as [|Hnz]; [done|]. exfalso. apply Fptr in Hnz; [|done].
    destruct Hcase as [->|[-> ->]]; [apply needs_place in Hnz; lia|]. unfold needs in Hnz. rewrite decide_False, decide_True in Hnz by lia. lia. }
  split.
  - done.
  - lia.
  - rewrite Hdiv, Hptr, decide_True by done. done.
  - intros k Hk H0. rewrite Hptr by done. destruct (decide (k = place bn)) as [H1|H1]; [exfalso; apply H0, Hz; auto|]. destruct (decide (k = 12%nat ∧ bn = 12)) as [H2|H2]; [exfalso; apply H0, Hz; auto|done].
  - intros k Hk H0. rewrite Hptr by done. destruct (decide (k = place bn)); [intros _; lia|]. destruct (decide (k = 12%nat ∧ bn = 12)) as [[_ ->]|]; [|done]. cbn in Hx. intros _. lia.
  - intros k k' Hk Hk' H0 H0'. rewrite !Hptr by done.
    destruct (decide (k = place bn)) as [H1|H1], (decide (k' = place bn)) as [H2|H2]; try congruence.
    + destruct (decide (k' = 12%nat ∧ bn = 12)) as [[_ ->]|]; [cbn in Hx; lia|congruence].
    + destruct (decide (k = 12%nat ∧ bn = 12)) as [[_ ->]|]; [cbn in Hx; lia|congruence].
    + destruct (decide (k = 12%nat ∧ bn = 12)) as [[-> _]|]; [|congruence]. destruct (decide (k' = 12%nat ∧ bn = 12)) as [[-> _]|]; [done|congruence].
  - intros k Hk. rewrite needs_step, Hptr by (done || lia). destruct (decide (k = place bn)); [split; [tauto|intros _; lia]|]. destruct (decide (k = 12%nat ∧ bn = 12)); [split; [tauto|intros _; lia]|].
    rewrite Fptr by done. tauto.
  - intros b Hb _ Hne. by apply Hrest.
  - by rewrite Hmod.
  - intros b Hb. apply Hzero. lia.
  - done.
Qed.

Lemma get32_image_zero n o : get32 (replicate n 0) o = 0.
Proof.
  unfold get32, sub. rewrite drop_replicate, take_replicate. generalize (4 `min` (n - o))%nat. intros m. induction m as [|m IH]; [done|]. cbn. by rewrite IH.
Qed.

Section places.
Context (v : Z → block) (fb : Z) (din c q : list Z) (Hf : file_ok v din c) (Hlens : ∀ b, length (v b) = 1024%nat) (Hfb : 234 ≤ fb < 4294967294) (Hq : (0 < length q ≤ 1024)%nat).
Context (bn : Z) (Hn : Z.of_nat (length c) = 1024 * bn) (Hbn : 0 ≤ bn < 268) (Hzero : ∀ b, fb ≤ b → v b = zero_block).

Lemma zero_len w : (length w ≤ 1024)%nat → length (splice zero_block 0 w) = 1024%nat.
Proof. intros Hw. rewrite length_splice; [done|]. change (length zero_block) with 1024%nat. lia. Qed.

Lemma ins_len (w : Z → block) a b y : (∀ b, length (w b) = 1024%nat) → length y = 1024%nat → length ((<[a := y]> w) b) = 1024%nat.
Proof. intros Hw Hy. destruct (decide (b = a)) as [->|]; [by rewrite fn_lookup_insert|by rewrite fn_lookup_insert_ne]. Qed.

Lemma ind_zero : bn ≤ 12 → ptr v din 12 = 0.
Proof.
  intros Hle. destruct (decide (ptr v din 12 = 0)) as [|Hnz]; [done|]. exfalso. apply (fo_ptr _ _ _ Hf) in Hnz; [|lia]. unfold needs in Hnz. rewrite decide_False, decide_True in Hnz by lia. lia.
Qed.

Lemma grows_direct : bn < 12 →
  grows v fb din (1024 * bn) q fb (<[fb := splice zero_block 0 q]> v) (fb + 1) (put32 din (12 + 4 * Z.to_nat bn) fb).
Proof.
  intros Hlt. assert (place bn = Z.to_nat bn) as Hp by (unfold place, NDIRECT; by rewrite (proj2 (Z.ltb_lt _ _))).
  pose proof (fo_len _ _ _ Hf) as Hl. apply (grows_new _ _ _ c); try done; try lia.
  - intros b. apply ins_len; [done|]. apply zero_len. lia.
  - rewrite length_put32; lia.
  - rewrite (proj2 (Z.eqb_neq _ _)); lia.
  - intros k Hk. rewrite Hp. destruct (decide (k < 13)%nat) as [Hk13|Hk13].
    + rewrite !ptr_direct by done. case_decide as He; [subst k; rewrite get32_put32_eq by lia; apply u32_small; lia|].
      rewrite decide_False by lia. apply get32_put32_ne; lia.
    + rewrite decide_False by lia. rewrite decide_False by lia. rewrite !(ptr_indirect _ _ k) by lia. rewrite ind_zero by lia.
      rewrite ptr_direct, get32_put32_ne by lia. rewrite <-(ptr_direct v) by lia. by rewrite ind_zero by lia.
  - intros b Hb _. rewrite fn_lookup_insert_ne; [done|lia].
  - by rewrite fn_lookup_insert, Hzero.
  - intros b Hb. rewrite fn_lookup_insert_ne; [done|lia].
Qed.

Lemma grows_indirect : bn = 12 →
  grows v fb din (1024 * bn) q (fb + 1) (<[fb + 1 := splice zero_block 0 q]> (<[fb := put32 zero_block 0 (fb + 1)]> v)) (fb + 2) (put32 din 60 fb).
Proof.
  intros H12. assert (ptr v din 12 = 0) as Hiz by (apply ind_zero; lia). revert H12. intros ->. pose proof (fo_len _ _ _ Hf) as Hl. replace (fb + 2) with (fb + 1 + 1) by lia. apply (grows_new _ _ _ c); try done; try lia.
  - intros b. apply ins_len; [|apply zero_len; lia]. intros b'. apply ins_len; [done|]. by vm_compute.
  - rewrite length_put32; lia.
  - change (place 12) with 13%nat. intros k Hk. destruct (decide (k < 13)%nat) as [Hk13|Hk13].
    + rewrite decide_False by lia. rewrite !ptr_direct by done. case_decide as He; [destruct He as [-> _]; rewrite get32_put32_eq by lia; apply u32_small; lia|].
      apply get32_put32_ne; lia.
    + rewrite (ptr_indirect _ _ k) by lia. rewrite ptr_direct by lia. rewrite get32_put32_eq by lia. rewrite u32_small by lia. rewrite (proj2 (Z.eqb_neq _ _)) by lia.
      rewrite fn_lookup_insert_ne, fn_lookup_insert by lia. change (length zero_block) with 1024%nat.
      case_decide as He; [subst k; rewrite get32_put32_eq by (vm_compute; lia); apply u32_small; lia|]. rewrite decide_False by lia.
      rewrite get32_put32_ne by (change (length zero_block) with 1024%nat; lia). unfold zero_block. rewrite get32_image_zero.
      rewrite (ptr_indirect v) by lia. by rewrite Hiz.
  - intros b Hb _. rewrite !fn_lookup_insert_ne; [done|lia..].
  - rewrite fn_lookup_insert. by rewrite Hzero by lia.
  - intros b Hb. rewrite !fn_lookup_insert_ne; [done|lia..].
Qed.

Lemma grows_entry ind : 12 < bn → ptr v din 12 = ind → 234 ≤ ind < fb →
  grows v fb din (1024 * bn) q fb (<[fb := splice zero_block 0 q]> (<[ind := put32 (v ind) (4 * Z.to_nat (bn - 12)) fb]> v)) (fb + 1) din.
Proof.
  intros Hlt Hind Hi. assert (place bn = Z.to_nat bn + 1)%nat as Hp by (unfold place, NDIRECT; by rewrite (proj2 (Z.ltb_ge _ _)) by lia).
  pose proof (fo_len _ _ _ Hf) as Hl. apply (grows_new _ _ _ c); try done; try lia.
  - intros b. apply ins_len; [|apply zero_len; lia]. intros b'. apply ins_len; [done|]. rewrite length_put32; rewrite Hlens; lia.
  - rewrite (proj2 (Z.eqb_neq _ _)); lia.
  - intros k Hk. rewrite Hp. rewrite (decide_False (P := k = 12%nat ∧ bn = 12)) by lia. destruct (decide (k < 13)%nat) as [Hk13|Hk13].
    + rewrite !ptr_direct by done. by rewrite decide_False by lia.
    + rewrite !(ptr_indirect _ _ k) by lia. rewrite (ptr_direct _ _ 12) in Hind by lia. rewrite !(ptr_direct _ _ 12), Hind by lia.
      rewrite (proj2 (Z.eqb_neq _ _)) by lia. rewrite fn_lookup_insert_ne, fn_lookup_insert by lia.
      case_decide as He; [|apply get32_put32_ne; rewrite ?Hlens; lia]. replace (4 * (k - 13))%nat with (4 * Z.to_nat (bn - 12))%nat by lia.
      rewrite get32_put32_eq by (rewrite Hlens; lia). apply u32_small. lia.
  - intros b Hb Hne. rewrite !fn_lookup_insert_ne; [done|congruence|lia].
  - by rewrite fn_lookup_insert, Hzero.
  - intros b Hb. rewrite !fn_lookup_insert_ne; [done|lia..].
Qed.
End places.

(** ** The operations *)

Lemma sector b : 0 ≤ b < 2000 → u32 (b * BSIZE) / BSIZE = b.
Proof. intros Hb. unfold BSIZE. rewrite u32_small by lia. zlia. Qed.

Lemma xint_small x : 0 ≤ x < 4294967296 → xint x = x.
Proof. intros Hx. unfold xint. rewrite le_val_bytes. apply Z.mod_small. lia. Qed.

Lemma rsect_spec s sec (Q : block → mkst → Prop) : m_len s = 2000 → 0 ≤ sec < 2000 → Q (m_img s sec) s → wp (rsect sec) s Q.
Proof.
  intros Hlen Hsec HQ. unfold rsect. wp_step. wp_step. rewrite sector, Hlen by done. rewrite (proj2 (Z.ltb_lt _ _)) by lia. by wp_step.
Qed.

Lemma wsect_spec s sec buf (Q : unit → mkst → Prop) :
  m_len s = 2000 → 0 ≤ sec < 2000 → Q tt (MkSt (<[sec := buf]> (m_img s)) 2000 (freeinode s) (freeblock s)) → wp (wsect sec buf) s Q.
Proof. intros Hlen Hsec HQ. unfold wsect. wp_step. rewrite sector, Hlen by done. by rewrite Z.max_l by lia. Qed.

Lemma next_block_spec s (Q : Z → mkst → Prop) :
  0 ≤ freeblock s < 2000 → Q (freeblock s) (MkSt (m_img s) (m_len s) (freeinode s) (freeblock s + 1)) → wp next_block s Q.
Proof. intros Hfb HQ. unfold next_block. wp_steps. rewrite u32_small by lia. exact HQ. Qed.

(** What of the inode [iappend] does not touch before the end. *)
Definition same_head (din din' : list Z) : Prop := sub din' 0 12 = sub din 0 12 ∧ sub din' 64 960 = sub din 64 960.

Lemma same_head_put din k x : length din = 1024%nat → (k ≤ 12)%nat → same_head din (put32 din (12 + 4 * k) x).
Proof. intros Hl Hk. unfold put32. split; apply sub_splice_ne; rewrite ?length_le_bytes; lia. Qed.

Lemma iappend_block_spec s l i e q (Q : Z * list Z → mkst → Prop) :
  built (m_img s) (freeblock s) l → l !! i = Some e → let n := Z.of_nat (length (e_data e)) in
  (0 < length q)%nat → n mod 1024 + Z.of_nat (length q) ≤ 1024 → n + Z.of_nat (length q) ≤ 274432 →
  m_len s = 2000 → freeblock s + (nblk (n + Z.of_nat (length q)) - nblk n) ≤ 2000 →
  (∀ x din' s', m_len s' = 2000 → freeinode s' = freeinode s → freeblock s' = freeblock s + (nblk (n + Z.of_nat (length q)) - nblk n) → 234 ≤ x < 2000 →
     same_head (e_din e) din' → (∀ b, b < 234 → m_img s' b = m_img s b) →
     grows (m_img s) (freeblock s) (e_din e) n q x (<[x := splice (m_img s' x) (Z.to_nat (n mod 1024)) q]> (m_img s')) (freeblock s') din' → Q (x, din') s') →
  wp (iappend_block (n / 1024) (e_din e)) s Q.
Proof.
  intros Hb He n Hq Hle Hmax Hlen Hfb HQ. pose proof (b_file _ _ _ Hb i e He) as Hf. pose proof (fo_len _ _ _ Hf) as Hl.
  pose proof (b_fb _ _ _ Hb) as Hfb0. set (din := e_din e) in *. set (v := m_img s) in *. set (fb := freeblock s) in *.
  assert (0 ≤ n / 1024 < 268) as Hbn by (unfold n in *; zlia). set (bn := n / 1024) in *.
  destruct (place_lt bn) as [Hpb Hpb12]; [exact Hbn|]. change NPTR with 269%nat in Hpb. change IND with 12%nat in Hpb12.
  assert (∀ k, (k < 269)%nat → ptr v din k ≠ 0 → 234 ≤ ptr v din k < fb) as Hrng by (intros k; apply (b_range _ _ _ Hb i e k He)).
  pose proof (fo_ptr _ _ _ Hf) as Hptr. fold n in Hptr.
  destruct (decide (n mod 1024 = 0)) as [Hal|Hal].
  - assert (n = 1024 * bn) as Hn by (unfold bn; zlia).
    pose proof (nblk_step bn (Z.of_nat (length q)) ltac:(lia) ltac:(lia)) as Hnb. rewrite <-Hn in Hnb.
    assert (ptr v din (place bn) = 0) as Hz.
    { destruct (decide (ptr v din (place bn) = 0)) as [|Hnz]; [done|]. apply Hptr, needs_place in Hnz; lia. }
    rewrite Hal in HQ. change (Z.to_nat 0) with 0%nat in HQ.
    assert (v fb = zero_block ∧ v (fb + 1) = zero_block) as [Hv0 Hv1] by (split; apply (b_zero _ _ _ Hb); unfold fb; lia).
    assert (Hlens := b_lens _ _ _ Hb). assert (Hzero := b_zero _ _ _ Hb).
    unfold iappend_block. fold bn. change NDIRECT with 12 in *. destruct (Z.ltb_spec bn 12) as [Hd|Hd].
    + assert (place bn = Z.to_nat bn) as Hp by (unfold place; by rewrite (proj2 (Z.ltb_lt _ _))). rewrite Hp, ptr_direct in Hz by lia.
      rewrite (proj2 (Z.eqb_neq bn 12)) in Hnb by lia. unfold addr_off. rewrite Hz. cbn [xint]. change (xint 0 =? 0) with true. cbn iota.
      wp_step. wp_step. apply next_block_spec; [fold fb; lia|]. wp_steps. fold fb v. rewrite (xint_small fb) by lia.
      rewrite get32_put32_eq by lia. rewrite u32_small, xint_small by lia.
      apply HQ; cbn [m_img m_len freeinode freeblock]; [done|done|fold fb; lia|lia|by apply same_head_put; [|lia]|done|].
      rewrite Hv0, Hn. apply (grows_direct v fb din (e_data e)); try done; lia.
    + destruct (decide (bn = 12)) as [H12|H12].
      * assert (ptr v din 12 = 0) as Hi0 by (apply (ind_zero v din (e_data e) q Hf ltac:(lia) bn); fold n; lia).
        rewrite (proj2 (Z.eqb_eq bn 12)) in Hnb by lia. rewrite ptr_direct in Hi0 by lia. change (addr_off 12) with 60%nat. change (12 + 4 * 12)%nat with 60%nat in Hi0.
        rewrite Hi0. change (xint 0 =? 0) with true. cbn iota. wp_step. wp_step. apply next_block_spec; [fold fb; lia|]. wp_steps. fold fb v.
        rewrite (xint_small fb) by lia. rewrite get32_put32_eq by lia. rewrite u32_small, xint_small by lia.
        apply rsect_spec; [done|lia|]. cbn [m_img freeblock]. fold v. rewrite Hv0. unfold zero_block at 1. rewrite get32_image_zero. cbn [Z.eqb]. wp_step. wp_step.
        apply next_block_spec; [cbn [freeblock]; lia|]. cbn [m_img m_len freeinode freeblock]. wp_step. apply wsect_spec; [done|lia|]. cbn [m_img m_len freeinode freeblock]. wp_steps.
        assert (4 * Z.to_nat (bn - 12) = 0)%nat as Ho by lia. rewrite Ho, (xint_small (fb + 1)) by lia.
        rewrite get32_put32_eq by (change (length zero_block) with 1024%nat; lia). rewrite u32_small, xint_small by lia.
        apply HQ; cbn [m_img m_len freeinode freeblock]; [done|done|fold fb; lia|lia|by apply (same_head_put din 12)|intros b Hb'; rewrite fn_lookup_insert_ne; [done|lia]|].
        rewrite fn_lookup_insert_ne, Hv1, Hn by lia. replace (fb + 1 + 1) with (fb + 2) by lia. apply (grows_indirect v fb din (e_data e)); try done; lia.
      * assert (ptr v din 12 ≠ 0) as Hi0 by (apply Hptr; [lia|]; unfold needs; rewrite decide_False, decide_True by lia; lia).
        pose proof (Hrng 12%nat ltac:(lia) Hi0) as Hind. set (ind := ptr v din 12) in *.
        assert (get32 din 60 = ind) as Hg by (unfold ind; by rewrite ptr_direct by lia).
        rewrite (proj2 (Z.eqb_neq bn 12)) in Hnb by lia. change (addr_off 12) with 60%nat. rewrite Hg, xint_small by lia.
        rewrite (proj2 (Z.eqb_neq ind 0)) by done. wp_steps. rewrite Hg, xint_small by lia. apply rsect_spec; [done|lia|]. fold v.
        assert (place bn = Z.to_nat bn + 1)%nat as Hp by (unfold place; by rewrite (proj2 (Z.ltb_ge _ _))).
        rewrite Hp, ptr_indirect in Hz by lia. fold ind in Hz. rewrite (proj2 (Z.eqb_neq ind 0)) in Hz by done.
        replace (4 * (Z.to_nat bn + 1 - 13))%nat with (4 * Z.to_nat (bn - 12))%nat in Hz by lia. rewrite Hz. cbn [Z.eqb]. wp_step. wp_step.
        apply next_block_spec; [fold fb; lia|]. cbn [m_img m_len freeinode freeblock]. fold fb v. wp_step. apply wsect_spec; [done|lia|]. cbn [m_img m_len freeinode freeblock]. wp_steps.
        rewrite (xint_small fb) by lia. rewrite get32_put32_eq by (rewrite Hlens; lia). rewrite u32_small, xint_small by lia.
        apply HQ; cbn [m_img m_len freeinode freeblock]; [done|done|fold fb; lia|lia|done|intros b Hb'; rewrite fn_lookup_insert_ne; [done|lia]|].
        rewrite fn_lookup_insert_ne, Hv0, Hn by lia. apply (grows_entry v fb din (e_data e)); try done; lia.
  - assert (ptr v din (place bn) ≠ 0) as Hnz by (apply Hptr; [done|]; apply needs_place; unfold bn; zlia).
    pose proof (Hrng _ Hpb Hnz) as Hx. rewrite nblk_same in HQ, Hfb by (unfold n in *; zlia).
    assert (ptr v din (place bn) ≠ ptr v din 12) as Hne.
    { intros Heq. destruct (b_inj _ _ _ Hb i i e e (place bn) 12%nat) as [_ ?]; [done|done|done|lia|done|done|done]. }
    assert (wp (iappend_block bn din) s (λ r s', r = (ptr v din (place bn), din) ∧ s' = s)) as Hw.
    { unfold iappend_block. change NDIRECT with 12 in *. unfold place in *. change NDIRECT with 12 in *. destruct (Z.ltb_spec bn 12) as [Hd|Hd].
      - rewrite ptr_direct in * by lia. unfold addr_off. rewrite xint_small by lia. rewrite (proj2 (Z.eqb_neq _ 0)) by done. wp_steps. by rewrite xint_small by lia.
      - assert (ptr v din 12 ≠ 0) as Hi0 by (apply Hptr; [lia|]; unfold needs; rewrite decide_False, decide_True by lia; unfold bn in *; zlia).
        pose proof (Hrng 12%nat ltac:(lia) Hi0) as Hind. rewrite ptr_indirect in Hx, Hnz |- * by lia. set (ind := ptr v din 12) in *.
        assert (get32 din 60 = ind) as Hg by (unfold ind; by rewrite ptr_direct by lia). rewrite (proj2 (Z.eqb_neq ind 0)) in * by done.
        change (addr_off 12) with 60%nat. rewrite Hg, xint_small by lia. rewrite (proj2 (Z.eqb_neq ind 0)) by done. wp_steps. rewrite Hg, xint_small by lia.
        apply rsect_spec; [done|lia|]. fold v. replace (4 * (Z.to_nat bn + 1 - 13))%nat with (4 * Z.to_nat (bn - 12))%nat in * by lia.
        rewrite (proj2 (Z.eqb_neq (get32 _ _) 0)) by done. wp_steps. by rewrite xint_small by lia. }
    eapply wp_mono; [exact Hw|]. intros r s' [-> ->]. apply HQ; [done|done|fold fb; lia|lia|done|done|].
    fold v fb. apply (grows_same v fb din (e_data e)); [done|apply (b_lens _ _ _ Hb)|done|done|done|done|lia].
Qed.

(** ** The whole image *)

Definition head_ok (type : Z) (din : list Z) : Prop := sub din 0 8 = [type; 0; 0; 0; 0; 0; 1; 0] ∧ sub din 64 960 = 6 :: replicate 959 0.
Definition sb_block : block := splice zero_block 0 (superblock_bytes Mkfs.sb).

(** The image with the files [l], of inodes 1, 2, ...; the inode of [skip] is
    being changed, and not written yet. *)
Record image (skip : option nat) (s : mkst) (l : list entry) : Prop := {
  im_built : built (m_img s) (freeblock s) l;
  im_len : m_len s = 2000;
  im_used : freeblock s = used l;
  im_next : freeinode s = 1 + Z.of_nat (length l);
  im_count : (length l ≤ 199)%nat;
  im_head i e : l !! i = Some e → head_ok (e_type e) (e_din e);
  im_ino i e : l !! i = Some e → skip ≠ Some i → m_img s (33 + Z.of_nat i) = e_din e ∧ get32 (e_din e) 8 = Z.of_nat (length (e_data e));
  im_sb : m_img s 1 = sb_block;
  im_rest b : b = 0 ∨ 2 ≤ b < 33 ∨ 33 + Z.of_nat (length l) ≤ b < 234 → m_img s b = zero_block
}.

Lemma usedc_app c c' : usedc (c ++ c') = usedc c + (usedc c' - 234).
Proof.
  unfold usedc. rewrite fmap_app. generalize ((λ x : Z * list Z, nblk (Z.of_nat (length x.2))) <$> c'). intros w.
  induction c as [|x c IH]; cbn [fmap list_fmap app foldr] in *; lia.
Qed.

Lemma usedc_insert c i x x' : c !! i = Some x → usedc (<[i := x']> c) = usedc c + (nblk (Z.of_nat (length x'.2)) - nblk (Z.of_nat (length x.2))).
Proof.
  intros Hi. rewrite insert_take_drop by (by eapply lookup_lt_Some). rewrite <-(take_drop_middle c i x) at 3 by done. rewrite !usedc_app.
  unfold usedc. cbn [fmap list_fmap foldr]. lia.
Qed.

Lemma content_insert l i ty din d : content (<[i := Ent ty din d]> l) = <[i := (ty, d)]> (content l).
Proof. unfold content. by rewrite list_fmap_insert. Qed.

Lemma used_insert l i e e' : l !! i = Some e →
  used (<[i := e']> l) = used l + (nblk (Z.of_nat (length (e_data e'))) - nblk (Z.of_nat (length (e_data e)))).
Proof.
  intros Hi. destruct e' as [ty' din' d']. rewrite content_insert. apply (usedc_insert _ _ (e_type e, e_data e)). unfold content. by rewrite list_lookup_fmap, Hi.
Qed.

Lemma sub_sub l o n o' n' : (o' + n' ≤ n)%nat → sub (sub l o n) o' n' = sub l (o + o') n'.
Proof. intros Hle. unfold sub. rewrite skipn_firstn_comm, firstn_firstn, drop_drop. f_equal. lia. Qed.

Lemma head_same ty din din' : same_head din din' → head_ok ty din → head_ok ty din'.
Proof.
  intros [H1 H2] [H3 H4]. split; [|congruence]. rewrite <-H3. change (sub din' (0 + 0) 8 = sub din (0 + 0) 8). rewrite <-(sub_sub din' 0 12 0 8), <-(sub_sub din 0 12 0 8) by lia. by rewrite H1.
Qed.

Lemma image_grows s l i e q x din' s' :
  image (Some i) s l → l !! i = Some e → let n := Z.of_nat (length (e_data e)) in
  (0 < length q)%nat → n mod 1024 + Z.of_nat (length q) ≤ 1024 → n + Z.of_nat (length q) ≤ 274432 →
  m_len s' = 2000 → freeinode s' = freeinode s → freeblock s' = freeblock s + (nblk (n + Z.of_nat (length q)) - nblk n) →
  same_head (e_din e) din' → (∀ b, b < 234 → m_img s' b = m_img s b) →
  grows (m_img s) (freeblock s) (e_din e) n q x (m_img s') (freeblock s') din' →
  image (Some i) s' (<[i := Ent (e_type e) din' (e_data e ++ q)]> l).
Proof.
  intros [Hb Hlen Hused Hnext Hcount Hhead Hino Hsb Hrest] He n Hq Hle Hmax Hlen' Hfi Hfb Hsame Hlow Hg. pose proof (lookup_lt_Some _ _ _ He) as Hi.
  split; rewrite ?length_insert; try done.
  - eapply (built_grows (m_img s) (freeblock s) l i e q x); [done|done|intros ->; cbn in Hq; lia|done|done|exact Hg].
  - rewrite (used_insert _ _ e) by done. cbn [e_data]. rewrite length_app, Nat2Z.inj_add. fold n. lia.
  - by rewrite Hfi.
  - intros j e' Hj. destruct (decide (j = i)) as [->|Hne].
    + rewrite list_lookup_insert_eq in Hj by done. injection Hj as <-. cbn [e_type e_din]. eapply head_same; [done|by eapply Hhead].
    + rewrite list_lookup_insert_ne in Hj by done. by eapply Hhead.
  - intros j e' Hj Hskip. assert (j ≠ i) as Hne by congruence. rewrite list_lookup_insert_ne in Hj by done.
    pose proof (lookup_lt_Some _ _ _ Hj). rewrite Hlow by lia. by eapply Hino.
  - by rewrite Hlow by lia.
  - intros b Hb'. rewrite Hlow by lia. by apply Hrest.
Qed.

Lemma iappend_loop_spec fuel : ∀ s l i e p (Q : Z * list Z → mkst → Prop),
  image (Some i) s l → l !! i = Some e → (length p < fuel)%nat → Z.of_nat (length (e_data e ++ p)) ≤ 274432 →
  used (<[i := Ent (e_type e) (e_din e) (e_data e ++ p)]> l) ≤ 2000 →
  (∀ din' s', image (Some i) s' (<[i := Ent (e_type e) din' (e_data e ++ p)]> l) → Q (Z.of_nat (length (e_data e ++ p)), din') s') →
  wp (iappend_loop fuel p (Z.of_nat (length (e_data e))) (e_din e)) s Q.
Proof.
  induction fuel as [|fuel IH]; intros s l i e p Q Hi He Hfuel Hmax Hused HQ; [lia|]. cbn [iappend_loop].
  destruct (decide (p = [])) as [->|Hp].
  { wp_step. rewrite app_nil_r in HQ. apply HQ. rewrite list_insert_id; [done|]. rewrite He. by destruct e. }
  set (n := Z.of_nat (length (e_data e))) in *. rewrite length_app, Nat2Z.inj_add in Hmax. fold n in Hmax.
  assert (0 < length p)%nat as Hpl by (destruct p; cbn; [done|lia]). change BSIZE with 1024 in *. change MAXFILE with 268.
  rewrite (proj2 (Z.ltb_lt _ _)) by (unfold n in *; zlia). cbn [negb].
  set (n1 := Z.min (Z.of_nat (length p)) ((n / 1024 + 1) * 1024 - n)). assert (0 < n1 ≤ Z.of_nat (length p) ∧ n mod 1024 + n1 ≤ 1024) as [Hn1 Hn1'] by (unfold n1, n in *; zlia).
  set (q := take (Z.to_nat n1) p). assert (length q = Z.to_nat n1) as Hq by (unfold q; rewrite length_take; lia).
  rewrite (used_insert _ _ e) in Hused by done. cbn [e_data] in Hused. rewrite length_app, Nat2Z.inj_add in Hused. fold n in Hused.
  assert (nblk (n + Z.of_nat (length q)) ≤ nblk (n + Z.of_nat (length p))) as Hmono by (apply nblk_mono; unfold n; lia).
  wp_step. eapply (iappend_block_spec s l i e q); [apply Hi|done|lia|fold n; lia|fold n; lia|apply Hi|fold n; rewrite (im_used _ _ _ Hi); lia|]. fold n.
  intros x din' s' Hlen' Hfi Hfb Hx Hsame Hlow Hg. wp_step. apply rsect_spec; [done|lia|]. wp_step. apply wsect_spec; [done|lia|].
  replace (n - n / 1024 * 1024) with (n mod 1024) by zlia. set (s2 := MkSt _ _ _ _).
  assert (image (Some i) s2 (<[i := Ent (e_type e) din' (e_data e ++ q)]> l)) as Hi2.
  { eapply (image_grows s l i e q x din' s2); [done|done|lia|fold n; lia|fold n; lia|done|done|done|done| |done].
    intros b Hb. cbn. rewrite fn_lookup_insert_ne by lia. by apply Hlow. }
  set (e2 := Ent (e_type e) din' (e_data e ++ q)) in *. assert (<[i := e2]> l !! i = Some e2) as He2 by (apply list_lookup_insert_eq; by eapply lookup_lt_Some).
  assert (e_data e2 ++ drop (Z.to_nat n1) p = e_data e ++ p) as Hdata by (cbn; rewrite <-app_assoc; f_equal; apply take_drop).
  replace (u32 (n + n1)) with (Z.of_nat (length (e_data e2))) by (cbn; rewrite length_app; fold n; rewrite u32_small by (unfold n in *; lia); unfold n in *; lia).
  change din' with (e_din e2) at 1. apply (IH s2 (<[i := e2]> l) i e2); [done|done|rewrite length_drop; lia| | |]; rewrite Hdata.
  - rewrite length_app. fold n. lia.
  - rewrite list_insert_insert_eq, (used_insert _ _ e) by done. cbn [e_data]. rewrite length_app, Nat2Z.inj_add. fold n. lia.
  - intros din3 s3. rewrite list_insert_insert_eq. apply HQ.
Qed.

(** ** Inodes *)

Lemma inode_block i : (i ≤ 199)%nat → IBLOCK (1 + Z.of_nat i) Mkfs.sb = 33 + Z.of_nat i ∧ dinode_off (1 + Z.of_nat i) = 0%nat.
Proof.
  intros Hi. unfold IBLOCK, dinode_off. change IPB with 1. change (sb_inodestart Mkfs.sb) with 32. rewrite Z.div_1_r, Z.mod_1_r. split; [lia|done].
Qed.

Lemma splice_all b w : length w = length b → splice b 0 w = w.
Proof. intros Hl. unfold splice. cbn. rewrite drop_ge by lia. apply app_nil_r. Qed.

Lemma sub_all b n : n = length b → sub b 0 n = b.
Proof. intros ->. unfold sub. by rewrite drop_0, firstn_all. Qed.

(** The same blocks of the same files, the inodes written or changed elsewhere. *)
Definition same_file (e e' : entry) : Prop :=
  e_data e' = e_data e ∧ length (e_din e') = 1024%nat ∧ ∀ k, (k < 13)%nat → get32 (e_din e') (12 + 4 * k) = get32 (e_din e) (12 + 4 * k).

Lemma built_same v v' fb l l' :
  built v fb l → (∀ b, 234 ≤ b → v' b = v b) → (∀ b, length (v' b) = 1024%nat) → Forall2 same_file l l' → built v' fb l'.
Proof.
  intros [Hlens Hfile Hrng Hinj Hzero Hfb] Hv Hlens' Hall.
  assert (∀ i e', l' !! i = Some e' → ∃ e, l !! i = Some e ∧ same_file e e' ∧ ∀ k, (k < 269)%nat → ptr v' (e_din e') k = ptr v (e_din e) k) as Hback.
  { intros i e' He'. destruct (Forall2_lookup_r _ _ _ _ _ Hall He') as (e & He & Hs). exists e. split; [done|]. split; [done|].
    destruct Hs as (Hd & Hl & Hk). intros k Hk'. destruct (decide (k < 13)%nat); [rewrite !ptr_direct by done; by apply Hk|].
    rewrite !(ptr_indirect _ _ k) by lia. rewrite (ptr_direct v'), Hk, <-(ptr_direct v) by lia. destruct (Z.eqb_spec (ptr v (e_din e) 12) 0) as [|H0]; [done|].
    rewrite Hv; [done|]. by apply (Hrng i e 12%nat He); [lia|]. }
  split; [done| | | | |done].
  - intros i e' (e & He & (Hd & Hl & _) & Hp)%Hback. destruct (Hfile i e He) as [Fl Fmax Fptr Fdata]. split; rewrite ?Hd; [done|done|intros k Hk; rewrite Hp by done; by apply Fptr|].
    intros bn j Hbn Hlt Hj. destruct (place_lt bn) as [Hpb _]; [unfold MAXFILE, NINDIRECT, NDIRECT, BSIZE; change (12 + 1024 / 4) with 268; lia|].
    rewrite Hp by done. rewrite Hv; [by apply Fdata|]. apply (Hrng i e _ He Hpb), Fptr; [done|]. by apply needs_place.
  - intros i e' k (e & He & _ & Hp)%Hback Hk. rewrite Hp by done. by apply Hrng with (i := i).
  - intros i j e1 e2 k k' (d1 & H1 & _ & Hp1)%Hback (d2 & H2 & _ & Hp2)%Hback Hk Hk'. rewrite Hp1, Hp2 by done. by apply Hinj.
  - intros b Hb. rewrite Hv by lia. by apply Hzero.
Qed.

Lemma built_new v fb l ty din :
  built v fb l → length din = 1024%nat → (∀ k, (k < 269)%nat → ptr v din k = 0) → built v fb (l ++ [Ent ty din []]).
Proof.
  intros [Hlens Hfile Hrng Hinj Hzero Hfb] Hl Hp.
  assert (∀ i e, (l ++ [Ent ty din []]) !! i = Some e → l !! i = Some e ∨ e = Ent ty din []) as Hc.
  { intros i e [He|[_ He]]%lookup_app_Some; [by left|right]. by apply list_lookup_singleton_Some in He as [_ <-]. }
  split; [done| | | |done|done].
  - intros i e [He| ->]%Hc; [by eapply Hfile|]. split; cbn [e_din e_data length]; [done|done| |].
    + intros k Hk. rewrite Hp by done. unfold needs. split; [done|]. repeat case_decide; lia.
    + intros bn j Hbn Hlt. cbn in Hlt. lia.
  - intros i e k [He| ->]%Hc Hk H0; [by eapply Hrng|]. by rewrite Hp in H0.
  - intros i j e e' k k' He He' Hk Hk' H0 Heq. destruct (Hc i e He) as [He1| ->]; [|by rewrite Hp in H0].
    destruct (Hc j e' He') as [He2| ->]; [by eapply Hinj|]. cbn [e_din] in Heq. rewrite (Hp k') in Heq by done. done.
Qed.

(** ** The contents of the image *)

Definition holds (s : mkst) (c : list (Z * list Z)) : Prop := ∃ l, image None s l ∧ content l = c.

Lemma content_lookup l c i ty d : content l = c → c !! i = Some (ty, d) → ∃ din, l !! i = Some (Ent ty din d).
Proof.
  intros <- Hi. unfold content in Hi. rewrite list_lookup_fmap in Hi. destruct (l !! i) as [[ty' din d']|]; [|done]. cbn in Hi. injection Hi as <- <-. by exists din.
Qed.

Lemma winode_spec s i din (Q : unit → mkst → Prop) :
  m_len s = 2000 → (i ≤ 199)%nat → length (m_img s (33 + Z.of_nat i)) = 1024%nat → length din = 1024%nat →
  Q tt (MkSt (<[33 + Z.of_nat i := din]> (m_img s)) 2000 (freeinode s) (freeblock s)) → wp (winode (1 + Z.of_nat i) din) s Q.
Proof.
  intros Hlen Hi Hb Hd HQ. unfold winode. destruct (inode_block i Hi) as [-> ->]. wp_step. apply rsect_spec; [done|lia|]. apply wsect_spec; [done|lia|].
  by rewrite splice_all by congruence.
Qed.

Lemma rinode_spec s l i e (Q : list Z → mkst → Prop) : image None s l → l !! i = Some e → Q (e_din e) s → wp (rinode (1 + Z.of_nat i)) s Q.
Proof.
  intros Hi He HQ. pose proof (lookup_lt_Some _ _ _ He) as Hlt. pose proof (im_count _ _ _ Hi) as Hc. unfold rinode.
  destruct (inode_block i) as [-> ->]; [lia|]. wp_step. apply rsect_spec; [apply Hi|lia|]. wp_step.
  rewrite (proj1 (im_ino _ _ _ Hi i e He ltac:(done))). rewrite sub_all; [done|]. symmetry. apply (fo_len _ _ _ (b_file _ _ _ (im_built _ _ _ Hi) i e He)).
Qed.

(** [iappend] appends. *)
Lemma iappend_spec s c i ty d p (Q : unit → mkst → Prop) :
  holds s c → c !! i = Some (ty, d) → Z.of_nat (length (d ++ p)) ≤ 274432 → usedc (<[i := (ty, d ++ p)]> c) ≤ 2000 →
  (∀ s', holds s' (<[i := (ty, d ++ p)]> c) → Q tt s') → wp (iappend (1 + Z.of_nat i) p) s Q.
Proof.
  intros (l & Him & Hc) Hi Hmax Hused HQ. destruct (content_lookup l c i ty d Hc Hi) as [din He]. set (e := Ent ty din d) in *.
  pose proof (lookup_lt_Some _ _ _ He) as Hlt. pose proof (im_count _ _ _ Him) as Hcnt. destruct (im_ino _ _ _ Him i e He ltac:(done)) as [_ Hsize]. change (e_din e) with din in Hsize. change (e_data e) with d in Hsize.
  unfold iappend. wp_step. eapply rinode_spec; [done|exact He|]. wp_step. change (e_din e) with din. rewrite Hsize, xint_small by (rewrite length_app in Hmax; lia).
  change d with (e_data e) at 1. change din with (e_din e).
  assert (image (Some i) s l) as Him' by (destruct Him; split; try done; intros j e' Hj _; by apply im_ino0).
  apply (iappend_loop_spec _ s l i e p); [done|done|lia|done| |].
  { rewrite content_insert, Hc. exact Hused. }
  intros din' s' Him2. change (e_data e) with d in *. change (e_type e) with ty in *. set (l' := <[i := Ent ty din' (d ++ p)]> l) in *.
  assert (l' !! i = Some (Ent ty din' (d ++ p))) as He' by (by apply list_lookup_insert_eq).
  pose proof (b_file _ _ _ (im_built _ _ _ Him2) i _ He') as Hf. pose proof (fo_len _ _ _ Hf) as Hl'. cbn [e_din] in Hl'.
  assert (length l' = length l) as Hll by (apply length_insert).
  rewrite xint_small by lia. set (din2 := put32 din' 8 (Z.of_nat (length (d ++ p)))). assert (length din2 = 1024%nat) as Hl2 by (unfold din2; rewrite length_put32; lia).
  apply winode_spec; [apply Him2|lia|apply (b_lens _ _ _ (im_built _ _ _ Him2))|done|]. apply HQ.
  set (s2 := MkSt _ _ _ _). exists (<[i := Ent ty din2 (d ++ p)]> l'). split; [|unfold l'; by rewrite list_insert_insert_eq, content_insert, Hc].
  destruct Him2 as [Hb Hlen Hu Hnext Hcount Hhead Hino Hsb Hrest]. split; rewrite ?length_insert; try done.
  - eapply built_same; [exact Hb| | |].
    + intros b Hb'. cbn. rewrite fn_lookup_insert_ne; [done|lia].
    + intros b. cbn. apply ins_len; [apply Hb|done].
    + rewrite <-(list_insert_id l' i (Ent ty din' (d ++ p))) at 1 by done. apply Forall2_insert.
      * apply Forall_Forall2_diag, Forall_lookup. intros j e' Hj. split; [done|]. split; [|done]. apply (b_file _ _ _ Hb j e' Hj).
      * split; [done|]. split; [done|]. intros k Hk. cbn [e_din]. unfold din2. apply get32_put32_ne; lia.
  - cbn [freeblock s2]. rewrite Hu, (used_insert _ _ _ _ He'). cbn [e_data]. lia.
  - intros j e' Hj. destruct (decide (j = i)) as [->|Hne].
    + rewrite list_lookup_insert_eq in Hj by lia. injection Hj as <-. cbn [e_type e_din]. destruct (Hhead i _ He') as [H1 H2]. cbn [e_din e_type] in H1, H2.
      unfold din2, put32. split; rewrite sub_splice_ne; rewrite ?length_le_bytes; (done || lia).
    + rewrite list_lookup_insert_ne in Hj by done. by eapply Hhead.
  - intros j e' Hj _. destruct (decide (j = i)) as [->|Hne].
    + rewrite list_lookup_insert_eq in Hj by lia. injection Hj as <-. cbn [e_din e_data m_img s2]. rewrite fn_lookup_insert. split; [done|].
      unfold din2. rewrite get32_put32_eq by lia. apply u32_small. lia.
    + rewrite list_lookup_insert_ne in Hj by done. cbn [m_img s2]. rewrite fn_lookup_insert_ne by lia. apply Hino; [done|congruence].
  - cbn [m_img s2]. rewrite fn_lookup_insert_ne by lia. done.
  - intros b Hb'. cbn [m_img s2]. rewrite fn_lookup_insert_ne by lia. by apply Hrest.
Qed.

(** The inode [ialloc] writes. *)
Definition new_din (type : Z) : list Z :=
  put16 (put32 (put16 (put16 (replicate 1024 0) 0 (xshort type)) 6 (xshort 1)) 8 (xint 0)) 64 6.

Lemma new_din_ok type : type = T_DIR ∨ type = T_FILE →
  length (new_din type) = 1024%nat ∧ head_ok type (new_din type) ∧ get32 (new_din type) 8 = 0 ∧ ∀ v k, (k < 269)%nat → ptr v (new_din type) k = 0.
Proof.
  intros Ht. assert (∀ k, (k < 13)%nat → get32 (new_din type) (12 + 4 * k) = 0) as Hz.
  { intros k Hk. assert (Forall (λ k, get32 (new_din type) (12 + 4 * k) = 0) (seq 0 13)) as Hall by (destruct Ht as [-> | ->]; apply (bool_decide_eq_true_1 _); by vm_compute).
    rewrite Forall_forall in Hall. apply Hall, in_seq. lia. }
  split_and!; try (destruct Ht as [-> | ->]; by vm_compute).
  intros v k Hk. destruct (decide (k < 13)%nat); [rewrite ptr_direct by done; by apply Hz|]. rewrite ptr_indirect, ptr_direct by lia. by rewrite (Hz 12%nat) by lia.
Qed.

Lemma ialloc_spec s c type (Q : Z → mkst → Prop) :
  holds s c → (length c ≤ 198)%nat → type = T_DIR ∨ type = T_FILE →
  (∀ s', holds s' (c ++ [(type, [])]) → Q (1 + Z.of_nat (length c)) s') → wp (Mkfs.ialloc type) s Q.
Proof.
  intros (l & Him & Hc) Hcnt Ht HQ. destruct (new_din_ok type Ht) as (Hl & Hh & Hs & Hp). unfold Mkfs.ialloc. wp_steps.
  change (Z.to_nat sizeof_dinode) with 1024%nat. fold (new_din type).
  assert (length l = length c) as Hlc by (rewrite <-Hc; unfold content; by rewrite length_fmap).
  destruct Him as [Hb Hlen Hu Hnext Hcount Hhead Hino Hsb Hrest]. rewrite Hnext, u32_small by lia.
  apply winode_spec; cbn [m_len m_img freeinode freeblock]; [done|lia|apply Hb|done|]. wp_step. rewrite Hlc. apply HQ. rewrite <-Hlc.
  exists (l ++ [Ent type (new_din type) []]). split; [|unfold content in *; by rewrite fmap_app, Hc].
  split; cbn [m_len m_img freeinode freeblock]; rewrite ?length_app; cbn [length]; try done; try lia.
  - apply built_new; [|done|by intros k Hk; apply Hp]. eapply built_same; [exact Hb| | |].
    + intros b Hb'. rewrite fn_lookup_insert_ne; [done|lia].
    + intros b. apply ins_len; [apply Hb|done].
    + apply Forall_Forall2_diag, Forall_lookup. intros j e' Hj. split; [done|]. split; [|done]. apply (b_file _ _ _ Hb j e' Hj).
  - unfold content. rewrite fmap_app, usedc_app. fold (content l). change (usedc _ - 234) with (usedc [(type, [])] - 234). change (usedc [(type, [])]) with 234. lia.
  - intros j e [He|[_ He]]%lookup_app_Some; [by eapply Hhead|]. apply list_lookup_singleton_Some in He as [_ <-]. done.
  - intros j e Hj _. apply lookup_app_Some in Hj as [He|[Hge He]].
    + pose proof (lookup_lt_Some _ _ _ He). rewrite fn_lookup_insert_ne by lia. by apply Hino.
    + apply list_lookup_singleton_Some in He as [Hj <-]. replace (Z.of_nat j) with (Z.of_nat (length l)) by lia. rewrite fn_lookup_insert. done.
  - rewrite fn_lookup_insert_ne by lia. done.
  - intros b Hb'. rewrite fn_lookup_insert_ne by lia. apply Hrest. lia.
Qed.

Lemma reads_spec c i ty : ∀ reads s d (Q : unit → mkst → Prop),
  holds s (<[i := (ty, d)]> c) → (i < length c)%nat → Z.of_nat (length (d ++ concat reads)) ≤ 274432 → usedc (<[i := (ty, d ++ concat reads)]> c) ≤ 2000 →
  (∀ s', holds s' (<[i := (ty, d ++ concat reads)]> c) → Q tt s') → wp (mfor reads (λ buf, iappend (1 + Z.of_nat i) buf)) s Q.
Proof.
  induction reads as [|r reads IH]; intros s d Q Hs Hi Hmax Hused HQ; cbn [mfor concat] in *; [wp_step; rewrite app_nil_r in HQ; by apply HQ|].
  assert (<[i := (ty, d)]> c !! i = Some (ty, d)) as Hlk by (by apply list_lookup_insert_eq). rewrite app_assoc in *.
  wp_step. eapply iappend_spec; [exact Hs|exact Hlk|rewrite length_app in Hmax; lia| |].
  - rewrite list_insert_insert_eq. destruct (lookup_lt_is_Some_2 c i Hi) as [x Hx]. rewrite (usedc_insert _ _ x) in Hused |- * by done. cbn [snd] in *.
    pose proof (nblk_mono (Z.of_nat (length (d ++ r))) (Z.of_nat (length ((d ++ r) ++ concat reads))) ltac:(rewrite (length_app (d ++ r)); lia)). lia.
  - rewrite list_insert_insert_eq. intros s' Hs'. by apply (IH s' (d ++ r)).
Qed.

(** ** The files *)

Definition file_name (f : hostfile) : list Z := skip_underscore (shortname (fst f)).
Definition file_data (f : hostfile) : list Z := concat (default [] (snd f)).

(** The file can be opened, its name fits into a directory entry, and it is not
    too large. *)
Record file_fits (f : hostfile) : Prop := {
  ff_slash : existsb (λ c, c =? 47) (shortname (fst f)) = false;
  ff_open : is_Some (snd f);
  ff_name : (length (file_name f) ≤ DIRSIZ)%nat;
  ff_size : Z.of_nat (length (file_data f)) ≤ 274432
}.

Fixpoint dents (k : nat) (files : list hostfile) : list Z :=
  match files with
  | [] => []
  | f :: files => dirent (2 + Z.of_nat k) (strncpy (list_ptr (file_name f)) DIRSIZ) ++ dents (S k) files
  end.
Definition datas (files : list hostfile) : list (Z * list Z) := (λ f, (T_FILE, file_data f)) <$> files.

Lemma length_dirent inum name : (length name ≤ 14)%nat → length (dirent inum name) = 16%nat.
Proof.
  intros Hl. unfold dirent, put16. rewrite length_splice; rewrite length_splice; rewrite ?length_replicate, ?length_le_bytes; lia.
Qed.

Lemma length_dents k files : length (dents k files) = (16 * length files)%nat.
Proof.
  revert k. induction files as [|f files IH]; intros k; [done|]. cbn [dents]. rewrite length_app, IH, length_dirent by (by rewrite length_strncpy). cbn [length]. lia.
Qed.

Lemma nblk_nonneg n : 0 ≤ n → 0 ≤ nblk n.
Proof. intros Hn. unfold nblk. destruct (12288 <? n); zlia. Qed.

Lemma usedc_pos c : 234 ≤ usedc c.
Proof.
  unfold usedc. induction c as [|x c IH]; cbn [fmap list_fmap foldr]; [lia|]. pose proof (nblk_nonneg (Z.of_nat (length x.2)) ltac:(lia)). lia.
Qed.

Lemma usedc_cons x c : usedc (x :: c) = usedc c + nblk (Z.of_nat (length x.2)).
Proof. unfold usedc. cbn [fmap list_fmap foldr]. lia. Qed.

Lemma add_file_spec s d cf f (Q : unit → mkst → Prop) :
  holds s ((T_DIR, d) :: cf) → file_fits f → (S (length cf) ≤ 198)%nat → Z.of_nat (length d) + 16 ≤ 274432 →
  let d' := d ++ dirent (2 + Z.of_nat (length cf)) (strncpy (list_ptr (file_name f)) DIRSIZ) in
  usedc ((T_DIR, d') :: cf ++ [(T_FILE, file_data f)]) ≤ 2000 →
  (∀ s', holds s' ((T_DIR, d') :: cf ++ [(T_FILE, file_data f)]) → Q tt s') → wp (add_file 1 f) s Q.
Proof.
  intros Hs [Hsl [reads Hop] Hnm Hsz] Hcnt Hmax d' Hused HQ. unfold add_file. rewrite Hsl, Hop. fold (file_name f).
  rewrite (proj2 (Z.leb_le _ _)) by lia. cbn [negb]. wp_step. apply (ialloc_spec s ((T_DIR, d) :: cf)); [done|cbn; lia|by right|].
  intros s1 Hs1. cbn [length] in *. replace (1 + Z.of_nat (S (length cf))) with (2 + Z.of_nat (length cf)) by lia.
  rewrite usedc_cons, usedc_app in Hused. cbn [snd] in Hused.
  assert (usedc [(T_FILE, file_data f)] = 234 + nblk (Z.of_nat (length (file_data f)))) as Hu1 by (rewrite usedc_cons; cbn [snd]; change (usedc []) with 234; lia).
  pose proof (nblk_nonneg (Z.of_nat (length (file_data f))) ltac:(lia)).
  wp_step. change 1 with (1 + Z.of_nat 0) at 1. eapply iappend_spec; [exact Hs1|reflexivity| | |]; fold d'.
  { unfold d'. rewrite length_app, length_dirent by (by rewrite length_strncpy). lia. }
  { change (<[0%nat := (T_DIR, d')]> (((T_DIR, d) :: cf) ++ [(T_FILE, [])])) with ((T_DIR, d') :: cf ++ [(T_FILE, [])]).
    rewrite usedc_cons, usedc_app. cbn [snd]. change (usedc [(T_FILE, [])]) with 234. lia. }
  change (<[0%nat := (T_DIR, d')]> (((T_DIR, d) :: cf) ++ [(T_FILE, [])])) with ((T_DIR, d') :: cf ++ [(T_FILE, [])]). intros s2 Hs2.
  assert (file_data f = concat reads) as Hfd by (unfold file_data; by rewrite Hop).
  assert (∀ x, (T_DIR, d') :: cf ++ [(T_FILE, x)] = <[S (length cf) := (T_FILE, x)]> ((T_DIR, d') :: cf ++ [(T_FILE, [])])) as Hins.
  { intros x. change (<[S (length cf) := (T_FILE, x)]> ((T_DIR, d') :: cf ++ [(T_FILE, [])])) with ((T_DIR, d') :: <[length cf := (T_FILE, x)]> (cf ++ [(T_FILE, [])])).
    f_equal. rewrite insert_app_r_alt by lia. by rewrite Nat.sub_diag. }
  replace (2 + Z.of_nat (length cf)) with (1 + Z.of_nat (S (length cf))) by lia.
  eapply (reads_spec ((T_DIR, d') :: cf ++ [(T_FILE, [])]) (S (length cf)) T_FILE reads s2 []).
  - rewrite <-Hins. exact Hs2.
  - cbn [length]. rewrite length_app. cbn [length]. lia.
  - cbn [app]. by rewrite <-Hfd.
  - cbn [app]. rewrite <-Hins, <-Hfd. rewrite usedc_cons, usedc_app. cbn [snd]. lia.
  - cbn [app]. rewrite <-Hins, <-Hfd. exact HQ.
Qed.

Lemma add_files_spec files : ∀ s d cf (Q : unit → mkst → Prop),
  holds s ((T_DIR, d) :: cf) → Forall file_fits files → (length cf + length files ≤ 198)%nat → Z.of_nat (length d) + 16 * Z.of_nat (length files) ≤ 274432 →
  usedc ((T_DIR, d ++ dents (length cf) files) :: cf ++ datas files) ≤ 2000 →
  (∀ s', holds s' ((T_DIR, d ++ dents (length cf) files) :: cf ++ datas files) → Q tt s') → wp (mfor files (add_file 1)) s Q.
Proof.
  induction files as [|f files IH]; intros s d cf Q Hs Hall Hcnt Hmax Hused HQ; cbn [mfor dents datas fmap list_fmap] in *.
  { wp_step. rewrite !app_nil_r in HQ. by apply HQ. }
  apply Forall_cons_1 in Hall as [Hf Hall]. cbn [length] in *. fold (datas files) in *.
  set (de := dirent _ _) in *. assert (length de = 16%nat) as Hde by (apply length_dirent; by rewrite length_strncpy).
  replace (cf ++ (T_FILE, file_data f) :: datas files) with ((cf ++ [(T_FILE, file_data f)]) ++ datas files) in * by (by rewrite <-app_assoc).
  rewrite app_assoc in *. replace (S (length cf)) with (length (cf ++ [(T_FILE, file_data f)])) in * by (rewrite length_app; cbn [length]; lia).
  wp_step. apply (add_file_spec s d cf f); [done|done|lia|lia| |].
  - fold de. rewrite usedc_cons in *. rewrite usedc_app in Hused. cbn [snd] in *. pose proof (usedc_pos (datas files)).
    pose proof (nblk_mono (Z.of_nat (length (d ++ de))) (Z.of_nat (length ((d ++ de) ++ dents (length (cf ++ [(T_FILE, file_data f)])) files))) ltac:(rewrite (length_app (d ++ de)); lia)). lia.
  - fold de. intros s' Hs'. apply (IH s' (d ++ de) (cf ++ [(T_FILE, file_data f)])); [done|done|rewrite length_app; cbn [length]; lia|rewrite length_app; lia|done|done].
Qed.

(** ** The free map *)

Definition bits (n : nat) : block :=
  foldl (λ buf i, <[ (i / 8)%nat := Z.lor (nth (i / 8) buf 0) (Z.shiftl 1 (Z.of_nat (i mod 8))) ]> buf) zero_block (seq 0 n).

Lemma bits_S n : bits (S n) = <[ (n / 8)%nat := Z.lor (nth (n / 8) (bits n) 0) (Z.shiftl 1 (Z.of_nat (n mod 8))) ]> (bits n).
Proof. unfold bits. by rewrite seq_S, foldl_app. Qed.

Lemma length_bits n : length (bits n) = 1024%nat.
Proof. induction n as [|n IH]; [done|]. by rewrite bits_S, length_insert. Qed.

Lemma bits_spec n b : Z.of_nat n ≤ 8192 → Z.of_nat b < 8192 → Z.testbit (nth (b / 8) (bits n) 0) (Z.of_nat (b mod 8)) = bool_decide (b < n)%nat.
Proof.
  intros Hn Hb. assert (∀ x, x mod 8 < 8)%nat as Hmod by (intros x; apply Nat.mod_upper_bound; lia).
  assert (∀ x, x = 8 * (x / 8) + x mod 8)%nat as Hdm by (intros x; apply Nat.div_mod; lia).
  induction n as [|n IH]; [change (bits 0) with (replicate BLK 0); by rewrite nth_overflow_0, Z.testbit_0_l|]. specialize (IH ltac:(lia)). rewrite bits_S.
  destruct (decide (b / 8 = n / 8)%nat) as [He|Hne].
  - rewrite <-He, nth_insert_eq by (rewrite length_bits; apply Nat.Div0.div_lt_upper_bound; lia). rewrite Z.lor_spec, IH, testbit_mask by lia.
    pose proof (Hdm b). pose proof (Hdm n). destruct (decide (b = n)) as [->|Hbn].
    + rewrite (bool_decide_eq_true_2 (Z.of_nat (n mod 8) = _)), orb_true_r by done. symmetry. apply bool_decide_eq_true_2. lia.
    + rewrite (bool_decide_eq_false_2 (Z.of_nat (b mod 8) = _)), orb_false_r by lia. apply bool_decide_ext. lia.
  - rewrite nth_insert_ne by done. rewrite IH. apply bool_decide_ext. assert (b ≠ n) by congruence. lia.
Qed.

Lemma bits_in_use v n b : Z.of_nat n < 8192 → v 233 = bits n → 0 ≤ b < 2000 → in_use Mkfs.sb v b = bool_decide (b < Z.of_nat n).
Proof.
  intros Hn Hv Hb. unfold in_use, BBLOCK. change (sb_bmapstart Mkfs.sb) with 233. change BPB with 8192.
  rewrite (Z.div_small b 8192), Z.add_0_l, Hv, (Z.mod_small b 8192) by lia. unfold bit_byte.
  assert (b = Z.of_nat (Z.to_nat b)) as Hbz by lia. rewrite Hbz at 1 2. change 8 with (Z.of_nat 8). rewrite <-Nat2Z.inj_div, <-Nat2Z.inj_mod, Nat2Z.id.
  rewrite bits_spec by lia. apply bool_decide_ext. lia.
Qed.

(** ** The disk *)

(** The inode [inum] is a file of the type, with one link and the given contents. *)
Definition inode_at (v : Z → block) (inum : Z) : dinode := dinode_get (v (IBLOCK inum Mkfs.sb)) (dinode_off inum).
Record file_at (v : Z → block) (inum type : Z) (data : list Z) : Prop := {
  fa_type : d_type (inode_at v inum) = type;
  fa_dev : d_major (inode_at v inum) = 0 ∧ d_minor (inode_at v inum) = 0;
  fa_nlink : d_nlink (inode_at v inum) = 1;
  fa_mode : d_mode (inode_at v inum) = 6;
  fa_ok : ino_ok Mkfs.sb v (inode_at v inum);
  fa_data : fbytes v (inode_at v inum) 0 (length data) = data;
  fa_alloc o : 0 ≤ o → o / 1024 < 268 → ptr_at v (inode_at v inum) (place (o / 1024)) ≠ 0 ↔ 1024 * (o / 1024) < Z.of_nat (length data)
}.

Lemma head_fields ty din : length din = 1024%nat → ty = T_DIR ∨ ty = T_FILE → head_ok ty din →
  d_type (dd din) = ty ∧ d_major (dd din) = 0 ∧ d_minor (dd din) = 0 ∧ d_nlink (dd din) = 1 ∧ d_mode (dd din) = 6.
Proof.
  intros Hl Ht [H1 H2]. unfold dd, dinode_get. cbn [d_type d_major d_minor d_nlink d_mode].
  assert (∀ o, (o + 2 ≤ 8)%nat → get16 din o = le_val (sub [ty; 0; 0; 0; 0; 0; 1; 0] o 2)) as Hg.
  { intros o Ho. unfold get16. by rewrite <-H1, sub_sub by lia. }
  assert (get16 din (0 + 64) = 6) as -> by (unfold get16; change (0 + 64)%nat with (64 + 0)%nat; rewrite <-(sub_sub din 64 960 0 2) by lia; rewrite H2; by vm_compute).
  rewrite !Hg by lia. by destruct Ht as [-> | ->]; vm_compute.
Qed.

Lemma built_file_at v fb l i e :
  built v fb l → l !! i = Some e → (i ≤ 199)%nat → v (33 + Z.of_nat i) = e_din e → head_ok (e_type e) (e_din e) → e_type e = T_DIR ∨ e_type e = T_FILE →
  fb ≤ 2000 → (∀ b, 0 ≤ b < fb → in_use Mkfs.sb v b = true) → file_at v (1 + Z.of_nat i) (e_type e) (e_data e).
Proof.
  intros Hb He Hi Hv Hh Ht Hfb Huse. pose proof (b_file _ _ _ Hb i e He) as Hf. destruct Hf as [Fl Fmax Fptr Fdata].
  assert (inode_at v (1 + Z.of_nat i) = dd (e_din e)) as Hx by (unfold inode_at, dd; destruct (inode_block i Hi) as [-> ->]; by rewrite Hv).
  destruct (head_fields _ _ Fl Ht Hh) as (Hd1 & Hd2 & Hd3 & Hd4 & Hd5). split; rewrite Hx; try done.
  - split.
    + done.
    + intros k Hk H0. change NPTR with 269%nat in Hk. change (FsBlock.nmeta Mkfs.sb) with 234. change (sb_size Mkfs.sb) with 2000.
      pose proof (b_range _ _ _ Hb i e k He Hk H0) as Hr. unfold ptr in Hr. split; [lia|]. apply Huse. lia.
    + intros k k' Hk Hk' H0 Heq. by apply (b_inj _ _ _ Hb i i e e k k').
  - apply list_eq. intros j. unfold fbytes. rewrite list_lookup_fmap. destruct (decide (j < length (e_data e))%nat) as [Hj|Hj].
    + rewrite lookup_seq_lt by done. cbn [fmap option_fmap option_map]. symmetry.
      unfold fbyte. change BSIZE with 1024. set (o := 0 + Z.of_nat (0 + j)). fold (ptr v (e_din e) (place (o / 1024))). rewrite Fdata by (unfold o; zlia).
      replace (1024 * Z.to_nat (o / 1024) + Z.to_nat (o mod 1024))%nat with j by (unfold o; zlia). by apply nth_Some.
    + rewrite lookup_seq_ge, lookup_ge_None_2 by lia. done.
  - intros o Ho Hbn. destruct (place_lt (o / 1024)) as [Hpb _]; [split; [zlia|exact Hbn]|]. rewrite <-needs_place by zlia. by apply Fptr.
Qed.

(** What [mkfs] is asked to put on the disk. *)
Definition root_data (files : list hostfile) : list Z := dirent 1 [46; 0] ++ dirent 1 [46; 46; 0] ++ dents 0 files.
Definition contents (files : list hostfile) : list (Z * list Z) := (T_DIR, root_data files) :: datas files.

(** The disk with these files. *)
Record disk_image (v : Z → block) (files : list hostfile) : Prop := {
  di_sb : superblock_get (v 1) = Mkfs.sb;
  di_geometry : geometry 2 Mkfs.sb;
  di_log : v 2 = zero_block;
  di_map b : 0 ≤ b < FSSIZE → in_use Mkfs.sb v b = bool_decide (b < usedc (contents files));
  di_files i type data : contents files !! i = Some (type, data) → file_at v (1 + Z.of_nat i) type data;
  di_apart i j k k' : (i < length (contents files))%nat → (j < length (contents files))%nat → i ≠ j → (k < NPTR)%nat → (k' < NPTR)%nat →
    ptr_at v (inode_at v (1 + Z.of_nat i)) k ≠ 0 → ptr_at v (inode_at v (1 + Z.of_nat i)) k ≠ ptr_at v (inode_at v (1 + Z.of_nat j)) k';
  di_sizes i f : files !! i = Some f → d_size (inode_at v (2 + Z.of_nat i)) = Z.of_nat (length (file_data f));
  di_root : d_size (inode_at v 1) = (16 * (2 + Z.of_nat (length files)) / 1024 + 1) * 1024;
  di_dents i f : files !! i = Some f → dent v (inode_at v 1) (2 + i) = new_dent (file_name f) (2 + Z.of_nat i);
  di_free inum : 2 + Z.of_nat (length files) ≤ inum < NINODES → d_type (inode_at v inum) = 0
}.

Lemma dirent_new inum name : 0 ≤ inum < 65536 → dirent inum (strncpy (list_ptr name) DIRSIZ) = new_dent name inum.
Proof.
  intros Hi. unfold dirent. assert (xshort inum = inum) as -> by (unfold xshort; rewrite le_val_bytes; apply Z.mod_small; lia).
  change (put16 (replicate 16 0) 0 inum) with (le_bytes 2 inum ++ replicate 14 0). unfold splice, new_dent.
  rewrite take_app_length' by (by rewrite length_le_bytes). f_equal. rewrite length_strncpy, drop_ge; [apply app_nil_r|]. rewrite length_app, length_le_bytes. done.
Qed.

Lemma sub_dents files : ∀ k i f, files !! i = Some f → sub (dents k files) (16 * i) 16 = dirent (2 + Z.of_nat (k + i)) (strncpy (list_ptr (file_name f)) DIRSIZ).
Proof.
  induction files as [|f0 files IH]; intros k i f Hi; [done|]. cbn [dents]. set (de := dirent _ _).
  assert (length de = 16%nat) as Hde by (apply length_dirent; by rewrite length_strncpy). destruct i as [|i].
  - injection Hi as <-. unfold sub. rewrite Nat.mul_0_r, drop_0, take_app_le, firstn_all2 by lia. unfold de. by rewrite Nat.add_0_r.
  - unfold sub. rewrite drop_app_ge by lia. replace (16 * S i - length de)%nat with (16 * i)%nat by lia. fold (sub (dents (S k) files) (16 * i) 16).
    rewrite (IH (S k) i f Hi). do 2 f_equal. lia.
Qed.

Lemma fbytes_sub v x data off n : fbytes v x 0 (length data) = data → (off + n ≤ length data)%nat → fbytes v x (Z.of_nat off) n = sub data off n.
Proof.
  intros Hd Hle. rewrite <-Hd at 1. unfold sub. replace (length data) with (off + (n + (length data - off - n)))%nat by lia.
  rewrite fbytes_app, fbytes_app. rewrite Z.add_0_l. rewrite drop_app_length' by (by rewrite length_fbytes). by rewrite take_app_length' by (by rewrite length_fbytes).
Qed.

Lemma zero_image_spec s (Q : unit → mkst → Prop) :
  m_len s = 0 → (∀ b, m_img s b = zero_block) →
  (∀ s', m_len s' = 2000 → (∀ b, m_img s' b = zero_block) → freeinode s' = freeinode s → freeblock s' = freeblock s → Q tt s') → wp zero_image s Q.
Proof.
  intros Hlen Hz HQ. unfold zero_image. change (Z.to_nat FSSIZE) with (2000)%nat.
  assert (∀ n k s (Q : unit → mkst → Prop), m_len s = Z.of_nat k → Z.of_nat (k + n) ≤ 2000 → (∀ b, m_img s b = zero_block) →
    (∀ s', m_len s' = Z.of_nat (k + n) → (∀ b, m_img s' b = zero_block) → freeinode s' = freeinode s → freeblock s' = freeblock s → Q tt s') →
    wp (mfor (seq k n) (λ i, wsect (Z.of_nat i) zero_block)) s Q) as Hloop.
  { clear. intros n. induction n as [|n IH]; intros k s Q Hlen Hle Hz HQ; cbn [seq mfor]; [wp_step; apply HQ; [lia|done..]|].
    wp_step. unfold wsect. wp_step. rewrite sector by lia. apply (IH (S k)); cbn [m_len m_img freeinode freeblock].
    - rewrite Hlen. lia.
    - lia.
    - intros b. destruct (decide (b = Z.of_nat k)) as [->|]; [by rewrite fn_lookup_insert|by rewrite fn_lookup_insert_ne].
    - intros s' H1 H2 H3 H4. apply HQ; [rewrite H1; lia|done..]. }
  apply (Hloop 2000%nat 0%nat); [done|lia|done|]. intros s' H1. apply HQ. rewrite H1. lia.
Qed.

Lemma mkfs_start s : m_len s = 2000 → (∀ b, b ≠ 1 → m_img s b = zero_block) → m_img s 1 = sb_block → freeinode s = 1 → freeblock s = 234 → holds s [].
Proof.
  intros Hlen Hz Hsb Hfi Hfb. exists []. split; [|done]. split; try done; cbn [length]; try lia.
  - split; try done; [|intros b Hb; apply Hz; lia|lia]. intros b. destruct (decide (b = 1)) as [->|]; [by rewrite Hsb|by rewrite Hz].
  - intros b Hb. apply Hz. lia.
Qed.

(** The last writes: the size of the root directory and the free map. *)
Section finish.
Context (s : mkst) (l : list entry) (files : list hostfile) (Him : image None s l) (Hc : content l = contents files).
Context (Hcnt : (length files ≤ 198)%nat) (Hused : usedc (contents files) ≤ 2000).
Context (din : list Z) (Hroot : l !! 0%nat = Some (Ent T_DIR din (root_data files))).
Let din' : list Z := put32 din 8 ((16 * (2 + Z.of_nat (length files)) / 1024 + 1) * 1024).
Let v : Z → block := <[233 := bits (Z.to_nat (usedc (contents files)))]> (<[33 := din']> (m_img s)).
Let l' : list entry := <[0%nat := Ent T_DIR din' (root_data files)]> l.

Lemma length_root : length (root_data files) = (16 * (2 + length files))%nat.
Proof. unfold root_data. rewrite !length_app, length_dents, !length_dirent by (cbn; lia). lia. Qed.

Lemma finish_len : length l = S (length files) ∧ length din' = 1024%nat.
Proof.
  split; [rewrite <-(length_fmap (λ e, (e_type e, e_data e)) l); fold (content l); rewrite Hc; unfold contents, datas; cbn [length]; by rewrite length_fmap|].
  pose proof (fo_len _ _ _ (b_file _ _ _ (im_built _ _ _ Him) _ _ Hroot)) as Hl. cbn [e_din] in Hl. unfold din'. rewrite length_put32; lia.
Qed.

Lemma finish_built : built v (freeblock s) l'.
Proof.
  destruct finish_len as [_ Hd]. pose proof (im_built _ _ _ Him) as Hb.
  pose proof (fo_len _ _ _ (b_file _ _ _ Hb _ _ Hroot)) as Hl. cbn [e_din] in Hl. eapply built_same; [exact Hb| | |].
  - intros b Hb'. unfold v. rewrite !fn_lookup_insert_ne by lia. done.
  - intros b. unfold v. apply ins_len; [|apply length_bits]. intros b'. apply ins_len; [apply Hb|done].
  - unfold l'. rewrite <-(list_insert_id l 0%nat _ Hroot) at 1. apply Forall2_insert.
    + apply Forall_Forall2_diag, Forall_lookup. intros j e' Hj. split; [done|]. split; [|done]. apply (b_file _ _ _ Hb j e' Hj).
    + split; [done|]. split; [done|]. intros k Hk. cbn [e_din]. unfold din'. apply get32_put32_ne; lia.
Qed.

Lemma finish_entry i ty d : contents files !! i = Some (ty, d) → ∃ d', l' !! i = Some (Ent ty d' d) ∧ v (33 + Z.of_nat i) = d' ∧ head_ok ty d' ∧
  (i ≠ 0%nat → get32 d' 8 = Z.of_nat (length d)).
Proof.
  intros Hi. destruct finish_len as [Hll Hd]. destruct (content_lookup l _ i ty d Hc Hi) as [d0 He]. pose proof (lookup_lt_Some _ _ _ He) as Hlt. destruct (decide (i = 0%nat)) as [->|Hne].
  - rewrite Hroot in He. injection He as <- <- <-. exists din'. unfold l', v. rewrite list_lookup_insert_eq by lia. rewrite fn_lookup_insert_ne by lia.
    change (33 + Z.of_nat 0) with 33. rewrite fn_lookup_insert. split_and!; [done|done| |done].
    pose proof (fo_len _ _ _ (b_file _ _ _ (im_built _ _ _ Him) _ _ Hroot)) as Hl. cbn [e_din] in Hl.
    destruct (im_head _ _ _ Him _ _ Hroot) as [H1 H2]. cbn [e_din e_type] in *. unfold din', put32. split; rewrite sub_splice_ne; rewrite ?length_le_bytes; (done || lia).
  - exists d0. unfold l', v. rewrite list_lookup_insert_ne by done. rewrite !fn_lookup_insert_ne by lia.
    destruct (im_ino _ _ _ Him i _ He ltac:(done)) as [H1 H2]. split_and!; [done|done|apply (im_head _ _ _ Him i _ He)|by intros _].
Qed.

Lemma finish_inode i ty d : contents files !! i = Some (ty, d) → ∃ d', l' !! i = Some (Ent ty d' d) ∧ inode_at v (1 + Z.of_nat i) = dd d'.
Proof.
  intros Hi. destruct finish_len as [Hll _]. destruct (finish_entry i ty d Hi) as (d' & He & Hv & _). exists d'. split; [done|].
  pose proof (lookup_lt_Some _ _ _ He) as Hlt. unfold l' in Hlt. rewrite length_insert in Hlt.
  unfold inode_at, dd. destruct (inode_block i) as [-> ->]; [lia|]. by rewrite Hv.
Qed.

Lemma finish_map b : 0 ≤ b < 2000 → in_use Mkfs.sb v b = bool_decide (b < usedc (contents files)).
Proof.
  intros Hb. pose proof (usedc_pos (contents files)). rewrite (bits_in_use v (Z.to_nat (usedc (contents files)))); [|lia|by unfold v; rewrite fn_lookup_insert|done].
  by rewrite Z2Nat.id by lia.
Qed.

Lemma finish_file i ty d : contents files !! i = Some (ty, d) → file_at v (1 + Z.of_nat i) ty d.
Proof.
  intros Hi. destruct finish_len as [Hll _]. destruct (finish_entry i ty d Hi) as (d' & He & Hv & Hh & _).
  pose proof (lookup_lt_Some _ _ _ He) as Hlt. unfold l' in Hlt. rewrite length_insert in Hlt. pose proof (im_used _ _ _ Him) as Hu. rewrite Hc in Hu.
  apply (built_file_at v (freeblock s) l' i (Ent ty d' d)); [apply finish_built|done|lia|done|done| |lia|].
  - cbn [e_type]. destruct i as [|i]; [injection Hi as <- _; by left|right]. change (datas files !! i = Some (ty, d)) in Hi. unfold datas in Hi. rewrite list_lookup_fmap in Hi.
    destruct (files !! i); [|done]. by injection Hi as <- _.
  - intros b Hb. rewrite finish_map by lia. apply bool_decide_eq_true_2. lia.
Qed.

Lemma finish_ok : disk_image v files.
Proof.
  destruct finish_len as [Hll Hd]. assert (length (contents files) = S (length files)) as Hlc by (unfold contents, datas; cbn [length]; by rewrite length_fmap).
  assert (∀ i f, files !! i = Some f → contents files !! S i = Some (T_FILE, file_data f)) as Hcf by (intros i f Hf; change (contents files !! S i) with (datas files !! i); unfold datas; by rewrite list_lookup_fmap, Hf).
  split.
  - unfold v. rewrite !fn_lookup_insert_ne by lia. rewrite (im_sb _ _ _ Him). by vm_compute.
  - split; by vm_compute.
  - unfold v. rewrite !fn_lookup_insert_ne by lia. apply (im_rest _ _ _ Him). lia.
  - apply finish_map.
  - apply finish_file.
  - intros i j k k' Hi Hj Hne Hk Hk' H0 Heq. destruct (lookup_lt_is_Some_2 _ _ Hi) as [[t1 d1] H1], (lookup_lt_is_Some_2 _ _ Hj) as [[t2 d2] H2].
    destruct (finish_inode i t1 d1 H1) as (x1 & E1 & X1), (finish_inode j t2 d2 H2) as (x2 & E2 & X2). rewrite X1 in *. rewrite X2 in *.
    destruct (b_inj _ _ _ finish_built i j _ _ k k' E1 E2 Hk Hk' H0 Heq). done.
  - intros i f Hf. destruct (finish_entry (S i) T_FILE (file_data f) (Hcf i f Hf)) as (d' & He & Hv & _ & Hsz).
    pose proof (lookup_lt_Some _ _ _ Hf). replace (2 + Z.of_nat i) with (1 + Z.of_nat (S i)) by lia.
    unfold inode_at, dinode_get. destruct (inode_block (S i)) as [-> ->]; [lia|]. rewrite Hv. by apply Hsz.
  - change 1 with (1 + Z.of_nat 0) at 1. unfold inode_at, dinode_get. destruct (inode_block 0) as [-> ->]; [lia|]. change (33 + Z.of_nat 0) with 33. unfold v.
    rewrite fn_lookup_insert_ne, fn_lookup_insert by lia. cbn [d_size Nat.add]. unfold din'.
    pose proof (fo_len _ _ _ (b_file _ _ _ (im_built _ _ _ Him) _ _ Hroot)) as Hl. cbn [e_din] in Hl. rewrite get32_put32_eq by lia. apply u32_small. zlia.
  - intros i f Hf. pose proof (lookup_lt_Some _ _ _ Hf). pose proof (finish_file 0 T_DIR (root_data files) eq_refl) as Hfa. change (1 + Z.of_nat 0) with 1 in Hfa.
    pose proof length_root. unfold dent. replace (16 * Z.of_nat (2 + i)) with (Z.of_nat (16 * (2 + i))) by lia. rewrite (fbytes_sub _ _ (root_data files)); [|apply Hfa|lia].
    unfold root_data. rewrite app_assoc. unfold sub. rewrite drop_app_ge by (rewrite length_app, !length_dirent by (cbn; lia); lia).
    rewrite length_app, !length_dirent by (cbn; lia). replace (16 * (2 + i) - (16 + 16))%nat with (16 * i)%nat by lia. fold (sub (dents 0 files) (16 * i) 16).
    rewrite (sub_dents files 0 i f Hf), dirent_new by lia. done.
  - intros inum Hin. change NINODES with 200 in Hin. replace inum with (1 + Z.of_nat (Z.to_nat (inum - 1))) by lia. unfold inode_at. destruct (inode_block (Z.to_nat (inum - 1))) as [-> ->]; [lia|].
    unfold v. rewrite !fn_lookup_insert_ne by lia. rewrite (im_rest _ _ _ Him) by lia. by vm_compute.
Qed.
End finish.

(** C14: [mkfs] makes the file system the kernel expects, for any files that fit:
    whatever sizes the reads of the files return, it ends without a failed
    assertion, and then the superblock describes the disk's layout and the log is
    empty; the free map has exactly the blocks in use marked; the root directory
    (inode 1) holds [.], [..] and an entry for every file in order, whose inodes
    2, 3, ... hold exactly the files' bytes; every inode is well formed, and no
    block belongs to two of them; the other inodes are free. *)
Theorem mkfs_correct (files : list hostfile) :
  Forall file_fits files → (length files ≤ 198)%nat → usedc (contents files) ≤ FSSIZE →
  wp (mkfs true files) mk_init (λ _ s, m_len s = FSSIZE ∧ disk_image (m_img s) files).
Proof.
  intros Hfits Hcnt Hused. change FSSIZE with 2000 in *. unfold mkfs. change (BSIZE mod sizeof_dinode =? 0) with true. change (BSIZE mod 16 =? 0) with true. cbn [negb].
  wp_steps. apply zero_image_spec; [done|done|]. intros s1 H1 H2 H3 H4. wp_step. apply wsect_spec; [done|lia|].
  assert (holds (MkSt (<[1 := splice zero_block 0 (superblock_bytes Mkfs.sb)]> (m_img s1)) 2000 (freeinode s1) (freeblock s1)) []) as Hs.
  { apply mkfs_start; cbn; [done|intros b Hb; by rewrite fn_lookup_insert_ne|by rewrite fn_lookup_insert|by rewrite H3|by rewrite H4]. }
  wp_step. apply (ialloc_spec _ []); [exact Hs|cbn; lia|by left|]. clear Hs. intros s2 Hs. cbn [length app] in *. change (1 + Z.of_nat 0) with 1. change (1 =? ROOTINO) with true. cbn [negb].
  wp_step. eapply (iappend_spec _ _ 0%nat T_DIR []); [exact Hs|done|by vm_compute|by vm_compute|]. clear Hs. intros s3 Hs. cbn [app insert list_insert] in Hs.
  wp_step. eapply (iappend_spec _ _ 0%nat T_DIR); [exact Hs|done|by vm_compute|by vm_compute|]. clear Hs. intros s4 Hs. cbn [insert list_insert] in Hs.
  wp_step. eapply (add_files_spec files s4 _ []); [exact Hs|done|cbn [length]; lia| | |].
  { rewrite length_app, !length_dirent by (cbn; lia). lia. }
  { cbn [app length]. rewrite <-app_assoc. exact Hused. }
  cbn [app length]. rewrite <-app_assoc. fold (root_data files). change ((T_DIR, root_data files) :: datas files) with (contents files). intros s5 (l & Him & Hc).
  destruct (content_lookup l _ 0%nat T_DIR (root_data files) Hc eq_refl) as [din Hroot].
  destruct (im_ino _ _ _ Him _ _ Hroot ltac:(done)) as [_ Hsz]. cbn [e_din e_data] in Hsz. pose proof (length_root files Hcnt) as Hlr.
  destruct (finish_len s5 l files Him Hc Hcnt din Hroot) as [_ Hd].
  wp_step. apply (rinode_spec s5 l 0%nat _ _ Him Hroot). cbn [e_din]. rewrite Hsz, Hlr.
  rewrite (xint_small (Z.of_nat _)) by lia. change BSIZE with 1024. replace (Z.of_nat (16 * (2 + length files))) with (16 * (2 + Z.of_nat (length files))) by lia.
  rewrite xint_small by zlia. wp_step. apply (winode_spec s5 0%nat); [apply Him|lia|apply (b_lens _ _ _ (im_built _ _ _ Him))|done|]. wp_steps. cbn [freeblock].
  rewrite (im_used _ _ _ Him), Hc. pose proof (usedc_pos (contents files)). unfold Mkfs.balloc. rewrite (proj2 (Z.ltb_lt _ _)) by (change BPB with 8192; lia). cbn [negb].
  apply wsect_spec; [done|by vm_compute|]. cbn [m_len m_img]. split; [done|]. apply (finish_ok s5 l); done.
Qed.

Section root.
Context (v : Z → block) (files : list hostfile) (Hv : disk_image v files) (Hcnt : (length files ≤ 198)%nat).

Lemma root_alloc o : 0 ≤ o → o / 1024 < 268 →
  ptr_at v (inode_at v 1) (place (o / 1024)) ≠ 0 ↔ 1024 * (o / 1024) < 16 * (2 + Z.of_nat (length files)).
Proof.
  intros Ho Hb. pose proof (di_files _ _ Hv 0%nat T_DIR (root_data files) eq_refl) as Hf. change (1 + Z.of_nat 0) with 1 in Hf.
  rewrite (fa_alloc _ _ _ _ Hf o Ho Hb), (length_root files Hcnt). lia.
Qed.

(** The root directory is as the kernel's directory code wants it. *)
Lemma root_dir_ok : (2 + Z.of_nat (length files)) mod 64 ≠ 0 → dir_ok v (inode_at v 1).
Proof.
  intros Hmod. pose proof (di_files _ _ Hv 0%nat T_DIR (root_data files) eq_refl) as Hf. change (1 + Z.of_nat 0) with 1 in Hf. pose proof (di_root _ _ Hv) as Hsz.
  split; [apply Hf|rewrite Hsz; zlia|rewrite Hsz; change (MAXFILE * BSIZE) with 274432; zlia|].
  intros o Ho. change BSIZE with 1024. rewrite Hsz in Ho. apply root_alloc; zlia.
Qed.

(** With 62 files (or 126, or 190) the rounded size has a block that the directory
    does not have: reading the directory to its end allocates one. *)
Lemma root_hole : (2 + Z.of_nat (length files)) mod 64 = 0 →
  let o := 16 * (2 + Z.of_nat (length files)) in o < d_size (inode_at v 1) ∧ ptr_at v (inode_at v 1) (place (o / 1024)) = 0.
Proof.
  intros Hmod o. pose proof (di_root _ _ Hv) as Hsz. fold o in Hsz. split; [rewrite Hsz; unfold o; zlia|].
  destruct (decide (ptr_at v (inode_at v 1) (place (o / 1024)) = 0)) as [|Hne]; [done|]. apply root_alloc in Hne; unfold o in *; zlia.
Qed.
End root.

(** [user/_cat] and [README]. *)
Definition demo_files : list hostfile :=
  [([117; 115; 101; 114; 47; 95; 99; 97; 116], Some [[127; 69; 76]; [70]]); ([82; 69; 65; 68; 77; 69], Some [replicate 1000 120; replicate 700 121])].

Lemma mkfs_correct_witness : wp (mkfs true demo_files) mk_init (λ _ s, m_len s = FSSIZE ∧ disk_image (m_img s) demo_files).
Proof.
  apply mkfs_correct.
  - apply Forall_cons_2; [|apply Forall_cons_2; [|apply Forall_nil_2]]; split; try (by vm_compute); try (vm_compute; lia); by eexists.
  - cbn. lia.
  - by vm_compute.
Defined.
