(* ===== verification/Boot.v ===== *)
(** * Booting

    The kernel's own page table ([kvmmake], [proc_mapstacks] and [kvminit] of
    kernel/vm.c and kernel/proc.c), and the part of [main] that sets up memory and
    the first process: afterwards the pages are divided as the system calls need
    it, and the kernel's memory is mapped to itself. *)
From Stdlib Require Import ZArith Lia.
From stdpp Require Import prelude gmap gmultiset strings.
From S2P Require Import Prelude Bytes Param Str Riscv PhysMem Kalloc Vm VmSpec VmMap VmGrow VmFree VmCopy VmTheorems Spinlock Mutex Console Proc ProcSpec ProcGrow ProcFork ProcWait Exec ExecLoad ExecTheorems Machine Trap Isolation IsoOps TrapSafe TrapPath.

(** The code of the first process, [initcode.S] assembled. *)
Definition initcode : list Z :=
  [0x17; 0x05; 0x00; 0x00; 0x13; 0x05; 0x45; 0x02;
   0x97; 0x05; 0x00; 0x00; 0x93; 0x85; 0x35; 0x02;
   0x93; 0x08; 0x70; 0x00; 0x73; 0x00; 0x00; 0x00;
   0x93; 0x08; 0x20; 0x00; 0x73; 0x00; 0x00; 0x00;
   0xef; 0xf0; 0x9f; 0xff; 0x2f; 0x69; 0x6e; 0x69;
   0x74; 0x00; 0x00; 0x24; 0x00; 0x00; 0x00; 0x00;
   0x00; 0x00; 0x00; 0x00].


Definition proc_mapstacks (kpgtbl : Z) : M kmem unit :=
  mfor each_proc (λ p,
    pa ← kalloc;
    if pa =? 0 then panic "kalloc" else
    kvmmap kpgtbl (KSTACK (Z.of_nat p)) pa PGSIZE (Z.lor PTE_R PTE_W)).

(** [etext]: the end of the kernel's code, from the linker. *)
Definition kvmmake (etext trampoline : Z) : M kmem Z :=
  kpgtbl ← kalloc;
  zero_page kpgtbl ;;
  kvmmap kpgtbl UART0 UART0 PGSIZE (Z.lor PTE_R PTE_W) ;;
  kvmmap kpgtbl VIRTIO0 VIRTIO0 PGSIZE (Z.lor PTE_R PTE_W) ;;
  kvmmap kpgtbl PLIC PLIC 0x4000000 (Z.lor PTE_R PTE_W) ;;
  kvmmap kpgtbl KERNBASE KERNBASE (etext - KERNBASE) (Z.lor PTE_R PTE_X) ;;
  kvmmap kpgtbl etext etext (PHYSTOP - etext) (Z.lor PTE_R PTE_W) ;;
  kvmmap kpgtbl TRAMPOLINE trampoline PGSIZE (Z.lor PTE_R PTE_X) ;;
  proc_mapstacks kpgtbl ;;
  mret kpgtbl.
(** The queues of the disk's driver, in three pages of their own. *)
Definition disk_queues : M kmem (Z * Z * Z) :=
  desc ← kalloc;
  avail ← kalloc;
  used ← kalloc;
  if (desc =? 0) || (avail =? 0) || (used =? 0) then panic "virtio disk kalloc" else
  zero_page desc ;; zero_page avail ;; zero_page used ;;
  mret (desc, avail, used).

(** ** [main]

    The state is the one of Trap.v. What the drivers' parts of the start do to the
    devices and to the file system's tables is an argument: [consoleinit],
    [virtio_disk_init] with the pages of the queues, and [files_init] for [binit],
    [iinit] and [fileinit]; and so is [fsinit], which reads the disk. *)
Section main.
Context {F X : Type} `{FileOps F} `{Devices X}.
Context (kend etext trampoline forkret_pc kernelvec_pc usertrap_pc uservec_off : Z).
Context (consoleinit : M X unit) (virtio_disk_init : Z → Z → Z → M X unit) (files_init : M F unit) (fsinit : M (tst F X) unit).
Abbreviation TM := (M (tst F X)).

Definition kvminit : TM Z := onproc (onk (kvmmake etext trampoline)).

Definition kvminithart (kernel_pagetable : Z) : TM unit := w_ Reg.satp (MAKE_SATP kernel_pagetable).

Definition onfiles {A} (m : M F A) : M (kstate F) A :=
  lift ks_f (λ f s, KState (ks_k s) f (ks_procs s) (ks_nextpid s) (ks_initproc s) (ks_ticks s)) m.

(** The first hart; [kernel_pagetable] is the result. *)
Definition main : TM Z :=
  ondev consoleinit ;;
  onsys (printk "\n" []) ;;
  onsys (printk "xv6 kernel is booting\n" []) ;;
  onsys (printk "\n" []) ;;
  onproc (onk (kinit kend)) ;;
  kernel_pagetable ← kvminit;
  kvminithart kernel_pagetable ;;
  onproc procinit ;;
  trapinithart kernelvec_pc ;;
  plicinit ;;
  plicinithart ;;
  onproc (onfiles files_init) ;;
  '(desc, avail, used) ← onproc (onk disk_queues);
  ondev (virtio_disk_init desc avail used) ;;
  onproc (userinit kend trampoline forkret_pc initcode) ;;
  mret kernel_pagetable.

(** The other harts, once [started] is set. *)
Definition main_hart (kernel_pagetable : Z) : TM unit :=
  id ← cpuid;
  onsys (printk "hart %d starting\n" [KNum id]) ;;
  kvminithart kernel_pagetable ;;
  trapinithart kernelvec_pc ;;
  plicinithart.

(** ** [scheduler]

    [swtch p] is what happens from the switch to process [p] until the switch
    back. *)
Section sched.
Context (swtch : nat → TM unit).

Fixpoint scheduler_loop (ps : list nat) (found : bool) : TM bool :=
  match ps with
  | [] => mret found
  | p :: ps =>
      chosen ← onproc (scheduler_visit p);
      if chosen : bool then swtch p ;; scheduler_loop ps true else scheduler_loop ps found
  end.

(** One round of the scheduler's loop; [false] is where it waits for an interrupt. *)
Definition scheduler_round : TM bool :=
  intr_on ;;
  found ← scheduler_loop each_proc false;
  mwhen (negb found) intr_on ;;
  mret found.
End sched.

(** [first]: no process has been here before. *)
Definition forkret (me : nat) (first : bool) : TM resume :=
  mwhen first fsinit ;;
  usertrapret me usertrap_pc uservec_off.

(** From the start of the first hart to the first instruction of the first process:
    [main], the scheduler's choice, and the process's way to user space. *)
Definition boot (regs : reg → Z) : M (ust F X) (option bool) :=
  onkernel main ;;
  onkernel intr_on ;;
  chosen ← onkernel (onproc (scheduler_visit 0));
  if chosen : bool then r ← onkernel (forkret 0 true); to_user regs r else mret None.
End main.

Lemma wp_visit {F} (s : kstate F) p q (Q : bool → kstate F → Prop) :
  ks_procs s !! p = Some q →
  (if decide (p_state q = RUNNABLE) then Q true (with_proc s p (pset_state RUNNING q)) else Q false s) → wp (scheduler_visit p) s Q.
Proof.
  intros Hq HQ. unfold scheduler_visit. wp_step. eapply wp_getp; [exact Hq|]. case_decide; [|by wp_step].
  wp_step. eapply wp_setp; [exact Hq|]. by wp_step.
Qed.

(** ** Mapping a large range *)
Section map.
Context (kend : Z) (Hend : KERNBASE ≤ kend).
Implicit Types (s : kmem) (L : list Z) (T : gmap (list Z) Z) (D : gmap Z Z).
Abbreviation aspace := (aspace kend).

Lemma path_next vpn : (vpn + 1) mod 512 ≠ 0 → path 0 (vpn + 1) = path 0 vpn.
Proof.
  intros Hne. unfold path, ix. assert ((vpn + 1) / 512 = vpn / 512) as H1 by zlia.
  assert (∀ l, (0 < l)%nat → (vpn + 1) / 512 ^ Z.of_nat l = vpn / 512 ^ Z.of_nat l) as Hl.
  { intros l Hpos. replace (Z.of_nat l) with (1 + Z.of_nat (l - 1)) by lia. rewrite Z.pow_add_r, Z.pow_1_r by lia. rewrite <-!Z.div_div by lia. by rewrite H1. }
  rewrite (Hl 2%nat), (Hl 1%nat) by lia. done.
Qed.

(** Only every 512th page can need a table, and then at most two. *)
Definition tables_cost (T : gmap (list Z) Z) (vpn : Z) (n : nat) : Z :=
  (if decide (is_Some (T !! path 0 vpn)) then 0 else 2) + 2 * ((vpn mod 512 + Z.of_nat n - 1) / 512).

Lemma mappages_loop_few perm fuel : ∀ s L T D root vpn pa n c (Q : Z → kmem → Prop),
  aspace s L T D root → n = fuel → (0 < n)%nat → 0 ≤ vpn → vpn + Z.of_nat n ≤ NVPN / 2 →
  0 ≤ pa → pa + 4096 * Z.of_nat n ≤ 18446744073709551616 → 0 ≤ perm < 1024 →
  (∀ v, vpn ≤ v < vpn + Z.of_nat n → D !! v = None) →
  tables_cost T vpn n ≤ Z.of_nat c → (c ≤ length L)%nat →
  (∀ s' L' T', aspace s' L' T' (map_range D vpn n pa perm) root → grow s L T s' L' T' → (length L ≤ length L' + c)%nat → Q 0 s') →
  wp (mappages_loop fuel root (4096 * vpn) (4096 * (vpn + Z.of_nat n - 1)) pa perm) s Q.
Proof.
  change (NVPN / 2) with 67108864.
  induction fuel as [|fuel IH]; intros s L T D root vpn pa n c Q Has -> Hn Hv Hv' Hpa Hpa' Hperm HD Hc HcL HQ; [lia|].
  assert (0 ≤ vpn < NVPN) as Hvr by (unfold NVPN; lia). cbn [mappages_loop]. wp_step.
  eapply (wp_mono _ _ (λ r s1, r ≠ 0 ∧ ∃ L1 T1 p c1, aspace s1 L1 T1 D root ∧ grow s L T s1 L1 T1 ∧ T1 !! path 0 vpn = Some p ∧ r = pte_at p (ix 0 vpn) ∧
    (length L ≤ length L1 + c1)%nat ∧ Z.of_nat c1 + 2 * ((vpn mod 512 + Z.of_nat (S fuel) - 1) / 512) ≤ Z.of_nat c)).
  { unfold tables_cost in Hc. destruct (T !! path 0 vpn) as [p|] eqn:Hp.
    - rewrite decide_True in Hc by done. eapply wp_eq; [apply (walk_present kend Hend s L T D root true vpn p); [done|change (NVPN / 2) with 67108864; lia|done]|].
      destruct (pte_nonzero kend Hend T s L D root _ p (ix 0 vpn) Has Hp) as [_ Hp0]; [apply ix_range|]. split; [done|].
      exists L, T, p, 0%nat. split_and!; [done|apply grow_refl|done|done|lia|lia].
    - rewrite decide_False in Hc by (by intros []). apply (walk_alloc kend Hend s L T D root vpn); [done|change (NVPN / 2) with 67108864; lia|].
      intros r s1 L1 T1 Has1 Hg1 [(-> & -> & Hlen)|(Hr & Hlen & p & Hp1 & ->)]; [zlia|]. split; [done|]. exists L1, T1, p, 2%nat. split_and!; [done|done|done|done|lia|lia]. }
  intros r s1 (Hr & L1 & T1 & p & c1 & Has1 & Hg1 & Hp & -> & Hl1 & Hc1).
  rewrite (proj2 (Z.eqb_neq _ _)) by done. unfold ldp, stp. wp_step. wp_step.
  rewrite (ld_leaf kend s1 L1 T1 D root vpn p Has1 Hvr Hp), HD by lia. cbn [default]. rewrite flag_0. wp_step. wp_step.
  rewrite <-Z.lor_assoc. change (Z.lor (PA2PTE pa) (Z.lor perm PTE_V)) with (leaf pa perm).
  edestruct (write_leaf kend Hend s1 L1 T1 D root vpn p (leaf pa perm) (<[vpn := leaf pa perm]> D)) as [Has2 Hg2];
    [exact Has1|exact Hvr|exact Hp|apply leaf_range; lia|by rewrite lookup_insert_eq|
     intros v Hne; by rewrite lookup_insert_ne|intros _; apply leaf_V|].
  pose proof (grow_trans _ _ _ _ _ _ _ _ _ Hg1 Hg2) as Hg.
  destruct fuel as [|fuel].
  - replace (4096 * vpn =? 4096 * (vpn + Z.of_nat 1 - 1)) with true by (symmetry; apply Z.eqb_eq; lia).
    wp_step. apply (HQ _ L1 T1); [done|exact Hg|zlia].
  - rewrite (proj2 (Z.eqb_neq _ _)) by lia. rewrite !(u64_small) by (unfold PGSIZE; lia).
    change PGSIZE with 4096. replace (4096 * vpn + 4096) with (4096 * (vpn + 1)) by lia.
    replace (4096 * (vpn + Z.of_nat (S (S fuel)) - 1)) with (4096 * (vpn + 1 + Z.of_nat (S fuel) - 1)) by lia.
    eapply (IH _ L1 T1 _ root (vpn + 1) (pa + 4096) (S fuel) (c - c1)%nat); [exact Has2|done|lia|lia|lia|lia|lia|done| | | |].
    + intros v Hvv. rewrite lookup_insert_ne by lia. apply HD. lia.
    + unfold tables_cost. destruct (decide ((vpn + 1) mod 512 = 0)) as [Hz|Hz].
      * case_decide; zlia.
      * rewrite decide_True by (rewrite path_next by done; by eexists). zlia.
    + zlia.
    + intros s' L' T' Has' Hg' Hl'. apply (HQ s' L' T'); [exact Has'|exact (grow_trans _ _ _ _ _ _ _ _ _ Hg Hg')|zlia].
Qed.

Lemma kvmmap_spec s L T D root vpn n pa perm (Q : unit → kmem → Prop) :
  aspace s L T D root → (0 < n)%nat → 0 ≤ vpn → vpn + Z.of_nat n ≤ NVPN / 2 →
  0 ≤ pa → pa + 4096 * Z.of_nat n ≤ 18446744073709551616 → 0 ≤ perm < 1024 →
  (∀ v, vpn ≤ v < vpn + Z.of_nat n → D !! v = None) → (2 * (n / 512 + 2) ≤ length L)%nat →
  (∀ s' L' T', aspace s' L' T' (map_range D vpn n pa perm) root → grow s L T s' L' T' → (length L ≤ length L' + 2 * (n / 512 + 2))%nat → Q tt s') →
  wp (kvmmap root (4096 * vpn) pa (4096 * Z.of_nat n) perm) s Q.
Proof.
  intros Has Hn Hv Hv' Hpa Hpa' Hperm HD HL HQ. unfold kvmmap. wp_step. unfold mappages. change PGSIZE with 4096.
  rewrite (Z.mul_comm 4096 vpn), Z_mod_mult, (Z.mul_comm 4096 (Z.of_nat n)), Z_mod_mult. cbn [negb Z.eqb].
  rewrite (proj2 (Z.eqb_neq _ _)) by lia. rewrite Z.div_mul, Nat2Z.id by done.
  change (NVPN / 2) with 67108864 in *. rewrite u64_small by lia.
  replace (vpn * 4096 + Z.of_nat n * 4096 - 4096) with (4096 * (vpn + Z.of_nat n - 1)) by lia. rewrite (Z.mul_comm vpn 4096).
  eapply (mappages_loop_few perm n s L T D root vpn pa n (2 * (n / 512 + 2))%nat); try done.
  unfold tables_cost. pose proof (Nat2Z.inj_div n 512) as Hdiv. change (Z.of_nat 512) with 512 in Hdiv. case_decide; zlia.
Qed.
End map.

(** ** The kernel's page table *)
Section kernel_map.
Context (kend : Z) (Hend : KERNBASE ≤ kend) (ve trampoline : Z).
Context (Hve : 524288 < ve < 557056) (Htr : 0 ≤ trampoline < 18446744073709547520).
Implicit Types (s : kmem) (L : list Z) (T : gmap (list Z) Z) (D : gmap Z Z) (stacks : list Z).
Abbreviation RW := (Z.lor PTE_R PTE_W).
Abbreviation RX := (Z.lor PTE_R PTE_X).

(** The entry of each virtual page: devices, the kernel's code and the rest of
    memory at their own addresses, the trampoline, and below it the stacks, each
    with an unmapped page under it. *)
Definition kmap stacks (v : Z) : option Z :=
  if decide (49152 ≤ v < 65538) then Some (leaf (4096 * v) RW) else
  if decide (524288 ≤ v < ve) then Some (leaf (4096 * v) RX) else
  if decide (ve ≤ v < 557056) then Some (leaf (4096 * v) RW) else
  if decide (v = vtramp) then Some (leaf trampoline RX) else
  if decide (v < vtramp ∧ (vtramp - v) mod 2 = 0) then (λ pa, leaf pa RW) <$> stacks !! Z.to_nat ((vtramp - v) / 2 - 1) else None.

(** The kernel's page table [D] and stacks were made of free pages [L0]. *)
Record kspace s0 L0 s L T D root stacks : Prop := {
  kp_as : aspace kend s L T D root;
  kp_set : list_to_set L0 =@{gset Z} list_to_set L ∪ tpages T ∪ list_to_set stacks;
  kp_stacks pa : pa ∈ stacks → page_ok kend pa ∧ (pa ∉ L) ∧ pa ∉ tpages T;
  kp_nodup : NoDup stacks;
  kp_out : outside (list_to_set L0) (k_mem s0) (k_mem s)
}.

Lemma kspace_grow s0 L0 s L T D root stacks s' L' T' D' :
  kspace s0 L0 s L T D root stacks → aspace kend s' L' T' D' root → grow s L T s' L' T' → kspace s0 L0 s' L' T' D' root stacks.
Proof.
  intros [Has Hset Hst Hnd Hout] Has' [Hsub (new & -> & Htp) Hgo]. split; [done| | |done|].
  - rewrite Hset, Htp, list_to_set_app_L. set_solver.
  - intros pa Hpa. destruct (Hst pa Hpa) as (Hok & HL & HT). rewrite not_elem_of_app in HL. split_and!; [done|tauto|].
    rewrite Htp, not_elem_of_union, not_elem_of_list_to_set. tauto.
  - eapply outside_trans; [exact Hout|]. eapply outside_mono; [|exact Hgo]. rewrite Hset, Htp, list_to_set_app_L. set_solver.
Qed.

(** One more mapping. *)
Lemma kspace_map s0 L0 s L T D root stacks vpn n pa perm (Q : unit → kmem → Prop) :
  kspace s0 L0 s L T D root stacks → (0 < n)%nat → 0 ≤ vpn → vpn + Z.of_nat n ≤ NVPN / 2 →
  0 ≤ pa → pa + 4096 * Z.of_nat n ≤ 18446744073709551616 → 0 ≤ perm < 1024 →
  (∀ v, vpn ≤ v < vpn + Z.of_nat n → D !! v = None) → (2 * (n / 512 + 2) ≤ length L)%nat →
  (∀ s' L' T' D', kspace s0 L0 s' L' T' D' root stacks →
     (∀ v, D' !! v = if decide (vpn ≤ v < vpn + Z.of_nat n) then Some (leaf (pa + 4096 * (v - vpn)) perm) else D !! v) →
     (length L ≤ length L' + 2 * (n / 512 + 2))%nat → Q tt s') →
  wp (kvmmap root (4096 * vpn) pa (4096 * Z.of_nat n) perm) s Q.
Proof.
  intros Hk Hn Hv Hv' Hpa Hpa' Hperm HD HL HQ. eapply (kvmmap_spec kend Hend s L T D root); try done; [apply Hk|].
  intros s' L' T' Has' Hg Hl. eapply (HQ s' L' T'); [by eapply kspace_grow| |done]. intros v. apply lookup_map_range.
Qed.

Lemma kspace_stack s0 L0 s pa L T D root stacks s1 :
  kspace s0 L0 s (pa :: L) T D root stacks → kmem_ok kend s1 L → page_ok kend pa → pa ∉ L →
  (∀ a, ld (k_mem s1) a = if decide (in_page pa a) then 5 else ld (k_mem s) a) →
  kspace s0 L0 s1 L T D root (stacks ++ [pa]).
Proof.
  intros [Has Hset Hst Hnd Hout] Hk1 Hpa HpL Hm. 
  assert (pa ∉ tpages T) as HpT by (intros [l Hl]%tpages_elem; apply (as_free _ _ _ _ _ _ Has l pa Hl), elem_of_cons; by left).
  assert (pa ∉ stacks) as Hps by (intros Hin; destruct (Hst pa Hin) as (_ & Hno & _); apply Hno, elem_of_cons; by left).
  split.
  - eapply aspace_frame; [exact Has|done| |].
    + intros l p Hl Hin. apply (as_free _ _ _ _ _ _ Has l p Hl), elem_of_cons. by right.
    + intros l p a Hl Ha. rewrite Hm. apply decide_False. intros Ha'. apply HpT. replace pa with p; [apply tpages_elem; by exists l|].
      apply (pages_disjoint kend p pa a); [by eapply (pt_page _ _ _ _ (as_tab _ _ _ _ _ _ Has))|done|done|done].
  - rewrite Hset, list_to_set_app_L. cbn. set_solver.
  - intros p [Hp|Hp]%elem_of_app; [destruct (Hst p Hp) as (? & HnL & ?); rewrite not_elem_of_cons in HnL; tauto|]. apply list_elem_of_singleton in Hp as ->. done.
  - apply NoDup_app. split_and!; [done| |apply NoDup_singleton]. by intros p Hp ->%list_elem_of_singleton.
  - eapply outside_trans; [exact Hout|]. intros a Ha. rewrite Hm. apply decide_False. apply Ha. rewrite Hset. set_solver.
Qed.

Lemma kmap_stack stacks pa v :
  let vs := vtramp - 2 * (Z.of_nat (length stacks) + 1) in (length stacks < 64)%nat →
  kmap (stacks ++ [pa]) v = if decide (vs ≤ v < vs + Z.of_nat 1) then Some (leaf (pa + 4096 * (v - vs)) RW) else kmap stacks v.
Proof.
  intros vs Hlen. unfold kmap. unfold vtramp in *. destruct (decide (vs ≤ v < vs + Z.of_nat 1)) as [Hv|Hv].
  - assert (v = vs) as -> by lia. do 4 (rewrite decide_False by (unfold vs; lia)). rewrite decide_True by (unfold vs; zlia).
    replace (Z.to_nat ((67108863 - vs) / 2 - 1)) with (length stacks) by (unfold vs; zlia).
    rewrite lookup_app_r, Nat.sub_diag by lia. cbn. f_equal. f_equal. lia.
  - repeat case_decide; try done. rewrite lookup_app. destruct (stacks !! _) eqn:E; [done|]. apply lookup_ge_None in E.
    rewrite lookup_ge_None_2; [done|]. cbn [length]. unfold vs in *. zlia.
Qed.

Lemma kmap_free stacks : (length stacks < 64)%nat → kmap stacks (vtramp - 2 * (Z.of_nat (length stacks) + 1)) = None.
Proof.
  intros Hlen. unfold kmap, vtramp. set (v := 67108863 - _). do 4 (rewrite decide_False by (unfold v; lia)). rewrite decide_True by (unfold v; zlia).
  replace (Z.to_nat ((67108863 - v) / 2 - 1)) with (length stacks) by (unfold v; zlia). by rewrite lookup_ge_None_2.
Qed.

Lemma mapstacks_spec n : ∀ s0 L0 s L T D root stacks (Q : unit → kmem → Prop),
  kspace s0 L0 s L T D root stacks → (∀ v, D !! v = kmap stacks v) → (length stacks + n = 64)%nat → (5 * n ≤ length L)%nat →
  (∀ s' L' T' D' stacks', kspace s0 L0 s' L' T' D' root stacks' → length stacks' = 64%nat → (∀ v, D' !! v = kmap stacks' v) → (length L ≤ length L' + 5 * n)%nat → Q tt s') →
  wp (mfor (seq (length stacks) n) (λ p, pa ← kalloc; if pa =? 0 then panic "kalloc" else kvmmap root (KSTACK (Z.of_nat p)) pa PGSIZE RW)) s Q.
Proof.
  induction n as [|n IH]; intros s0 L0 s L T D root stacks Q Hk HD Hn HL HQ; cbn [seq mfor].
  { wp_step. eapply HQ; [exact Hk|lia|done|lia]. }
  wp_step. wp_step. apply (kalloc_spec kend Hend s L); [apply (kp_as _ _ _ _ _ _ _ _ Hk)|]. destruct L as [|pa L]; [cbn in HL; lia|].
  intros s1 Hk1 Hpa HpL Hm1. destruct (page_bounds kend Hend pa Hpa) as [Hp0 Hp1]. rewrite (proj2 (Z.eqb_neq _ _)) by lia.
  pose proof (kspace_stack _ _ _ _ _ _ _ _ _ _ Hk Hk1 Hpa HpL Hm1) as Hk2. cbn [length] in HL. unfold PHYSTOP, KERNBASE in Hp1.
  replace (KSTACK (Z.of_nat (length stacks))) with (4096 * (vtramp - 2 * (Z.of_nat (length stacks) + 1))) by (unfold KSTACK, vtramp; change TRAMPOLINE with 274877902848; change PGSIZE with 4096; lia).
  change PGSIZE with (4096 * Z.of_nat 1).
  eapply (kspace_map _ _ _ _ _ _ _ _ _ 1 pa RW); [exact Hk2|lia|unfold vtramp; lia|change (NVPN / 2) with 67108864; unfold vtramp; lia|lia|lia|by vm_compute| |cbn; lia|].
  { intros v Hv. replace v with (vtramp - 2 * (Z.of_nat (length stacks) + 1)) by lia. rewrite HD. apply kmap_free. lia. }
  intros s2 L2 T2 D2 Hk3 HD2 Hl2. cbn [Nat.div Nat.divmod fst Nat.add Nat.mul] in Hl2.
  replace (S (length stacks)) with (length (stacks ++ [pa])) by (rewrite length_app; cbn; lia).
  eapply (IH s0 L0 s2 L2 T2 D2); [exact Hk3| |rewrite length_app; cbn; lia|lia|].
  - intros v. rewrite HD2, kmap_stack by lia. by rewrite HD.
  - intros s' L' T' D' st' Hk' Hst HD' Hl'. eapply HQ; [exact Hk'|done|done|cbn [length]; lia].
Qed.

Lemma root_spec {A} (f : Z → M kmem A) s p L (Q : A → kmem → Prop) :
  kmem_ok kend s (p :: L) → (∀ s', kspace s (p :: L) s' L {[ [] := p ]} ∅ p [] → wp (f p) s' Q) →
  wp (kpgtbl ← kalloc; zero_page kpgtbl ;; f kpgtbl) s Q.
Proof.
  intros Hk HQ. assert (wp uvmcreate s (λ r s', r ≠ 0 ∧ wp (f r) s' Q)) as Hw.
  { apply (uvmcreate_spec kend Hend s (p :: L)); [done|]. intros s' Has Hout.
    assert (page_ok kend p) as Hp by (eapply (pt_page _ _ _ _ (as_tab _ _ _ _ _ _ Has)), (pt_root _ _ _ _ (as_tab _ _ _ _ _ _ Has))).
    destruct (page_bounds kend Hend p Hp). split; [lia|]. apply HQ. split; [done| |by intros pa ?%not_elem_of_nil|apply NoDup_nil_2|].
    - cbn. unfold tpages. rewrite map_img_singleton_L. set_solver.
    - eapply outside_mono; [|exact Hout]. set_solver. }
  unfold uvmcreate, wp, mbind, M_bind in *. destruct (kalloc s) as [r s1| | | |]; [|done..]. destruct (Z.eqb_spec r 0) as [->|Hr]; [by destruct Hw|].
  destruct (zero_page r s1) as [[] s2| | | |]; [|done..]. cbn in Hw. apply Hw.
Qed.

Lemma kvmmake_spec s L (Q : Z → kmem → Prop) :
  kmem_ok kend s L → (600 ≤ length L)%nat →
  (∀ root s' L' T D stacks, kspace s L s' L' T D root stacks → length stacks = 64%nat → (∀ v, D !! v = kmap stacks v) → (length L ≤ length L' + 600)%nat → Q root s') →
  wp (kvmmake (4096 * ve) trampoline) s Q.
Proof.
  intros Hk HL HQ. destruct L as [|p L]; [cbn in HL; lia|]. unfold kvmmake. apply (root_spec _ s p L); [done|]. intros s1 Hk1. cbn [length] in *.
  change UART0 with (4096 * 65536). change VIRTIO0 with (4096 * 65537). change PLIC with (4096 * 49152). change KERNBASE with (4096 * 524288).
  change TRAMPOLINE with (4096 * vtramp). change PGSIZE with (4096 * Z.of_nat 1). change 0x4000000 with (4096 * Z.of_nat (Z.to_nat 16384)).
  replace (4096 * ve - 4096 * 524288) with (4096 * Z.of_nat (Z.to_nat (ve - 524288))) by lia.
  change PHYSTOP with (4096 * 557056). replace (4096 * 557056 - 4096 * ve) with (4096 * Z.of_nat (Z.to_nat (557056 - ve))) by lia.
  set (n1 := Z.to_nat 16384). set (n2 := Z.to_nat (ve - 524288)). set (n3 := Z.to_nat (557056 - ve)).
  assert (Z.of_nat n1 = 16384 ∧ (n1 / 512 = 32)%nat) as [Hn1 Hd1] by (split; [done|by vm_compute]).
  assert (n2 / 512 + n3 / 512 ≤ 64)%nat as Hd by (pose proof (Nat2Z.inj_div n2 512); pose proof (Nat2Z.inj_div n3 512); change (Z.of_nat 512) with 512 in *; unfold n2, n3 in *; zlia).
  assert (∀ v, (∅ : gmap Z Z) !! v = None) as HD0 by (intros v; apply lookup_empty). clearbody n1. change (NVPN / 2) with 67108864 in *.
  wp_step. eapply (kspace_map _ _ _ _ _ _ _ _ 65536 1); [exact Hk1|lia|lia|change (NVPN / 2) with 67108864; lia|lia|lia|by vm_compute|intros; apply HD0|cbn; lia|].
  intros s2 L2 T2 D2 Hk2 HD2 Hl2.
  wp_step. eapply (kspace_map _ _ _ _ _ _ _ _ 65537 1); [exact Hk2|lia|lia|change (NVPN / 2) with 67108864; lia|lia|lia|by vm_compute| |cbn in *; lia|].
  { intros v Hv. rewrite HD2, decide_False by lia. apply HD0. }
  intros s3 L3 T3 D3 Hk3 HD3 Hl3.
  wp_step. eapply (kspace_map _ _ _ _ _ _ _ _ 49152 n1); [exact Hk3|lia|lia|change (NVPN / 2) with 67108864; lia|lia|lia|by vm_compute| |cbn in *; lia|].
  { intros v Hv. rewrite HD3, decide_False, HD2, decide_False by lia. apply HD0. }
  intros s4 L4 T4 D4 Hk4 HD4 Hl4.
  wp_step. eapply (kspace_map _ _ _ _ _ _ _ _ 524288 n2); [exact Hk4|unfold n2; lia|lia|change (NVPN / 2) with 67108864; unfold n2; lia|lia|unfold n2; lia|by vm_compute| |cbn in *; lia|].
  { intros v Hv. rewrite HD4, decide_False, HD3, decide_False, HD2, decide_False by lia. apply HD0. }
  intros s5 L5 T5 D5 Hk5 HD5 Hl5.
  wp_step. eapply (kspace_map _ _ _ _ _ _ _ _ ve n3); [exact Hk5|unfold n3; lia|lia|change (NVPN / 2) with 67108864; unfold n3; lia|lia|unfold n3; lia|by vm_compute| |cbn in *; lia|].
  { intros v Hv. rewrite HD5, decide_False, HD4, decide_False, HD3, decide_False, HD2, decide_False by (unfold n2 in *; lia). apply HD0. }
  intros s6 L6 T6 D6 Hk6 HD6 Hl6.
  wp_step. eapply (kspace_map _ _ _ _ _ _ _ _ vtramp 1); [exact Hk6|lia|unfold vtramp; lia|change (NVPN / 2) with 67108864; unfold vtramp; lia|lia|lia|by vm_compute| |cbn in *; lia|].
  { intros v Hv. unfold vtramp in *. rewrite HD6, decide_False, HD5, decide_False, HD4, decide_False, HD3, decide_False, HD2, decide_False by (unfold n2, n3 in *; lia). apply HD0. }
  intros s7 L7 T7 D7 Hk7 HD7 Hl7. cbn [Nat.div Nat.divmod fst Nat.add Nat.mul] in Hl2, Hl3, Hl7.
  wp_step. change each_proc with (seq (length (@nil Z)) 64). change (4096 * Z.of_nat 1) with PGSIZE.
  eapply (mapstacks_spec 64 _ _ s7 L7 T7 D7 p []); [exact Hk7| |done|cbn in *; lia|].
  - intros v. rewrite HD7, HD6, HD5, HD4, HD3, HD2, HD0. unfold kmap, n2, n3, vtramp in *. rewrite lookup_nil.
    repeat case_decide; try lia; try done; do 2 f_equal; lia.
  - intros s8 L8 T8 D8 st Hk8 Hst HD8 Hl8. wp_step. eapply HQ; [exact Hk8|done|done|lia].
Qed.
End kernel_map.

(** ** The first process *)

(** [namei("/")], before there are other references. *)
Class RootLaw (F : Type) `{FileLaws F} : Prop := {
  root_law k fs : f_ok fs ∅ ∅ ∅ → ∃ i, wp (namei slash) (k, fs) (λ r kf, r = Some i ∧ kf.1 = k ∧ f_ok kf.2 ∅ {[+ i +]} ∅)
}.

Section first.
Context {F : Type} `{FL : FileLaws F}.
Context (kend trampoline forkret_pc : Z) (Hend : KERNBASE ≤ kend) (Htr : 0 ≤ trampoline < 18446744073709547520).
Implicit Types (s : kstate F) (k : kmem) (L : list Z) (T : gmap (list Z) Z) (D : gmap Z Z).
Abbreviation pmem := (pmem kend trampoline).

Definition user_perm : Z := Z.lor (Z.lor (Z.lor PTE_W PTE_R) PTE_X) PTE_U.

Lemma uvmfirst_spec k L T D root tf src (Q : unit → kmem → Prop) :
  pmem k L T D root 0 tf → (3 ≤ length L)%nat → Z.of_nat (length src) < 4096 → bytes src → D !! 0 = None →
  (∀ k' L' T' p, let D' := <[0 := leaf p user_perm]> D in pmem k' L' T' D' root 4096 tf → resized k L T D 0 k' L' T' D' 4096 tf →
     (∀ i, 0 ≤ i < 4096 → ld (k_mem k') (p + i) = nth (Z.to_nat i) src 0) → page_ok kend p → Q tt k') →
  wp (uvmfirst root src) k Q.
Proof.
  intros Hpm HL Hsrc Hb HD0 HQ. unfold uvmfirst. change PGSIZE with 4096.
  replace (Z.of_nat (length src) >=? 4096) with false by (symmetry; rewrite Z.geb_leb; apply Z.leb_gt; lia).
  pose proof (pm_as _ _ _ _ _ _ _ _ _ (pm_ppt _ _ _ _ _ _ _ _ _ Hpm)) as Has. assert (∀ v : Z, 0 ≤ (λ _, user_perm) v < 1024) as Hperm by (intros _; by vm_compute).
  pose proof (grown_start kend k L T D root 0 (λ _, user_perm) (λ _ _, 0) Has) as Hg0.
  wp_step. eapply (grown_kalloc kend Hend k L T D root 0 (λ _, user_perm) (λ _ _, 0) Hperm); [exact Hg0|].
  destruct L as [|p L]; [cbn in HL; lia|]. cbn [length] in HL. intros k1 Hg1 Hp0.
  wp_step. unfold zero_page. rewrite (proj2 (Z.eqb_neq _ _)) by lia. wp_step. set (k2 := kset_mem _ k1).
  assert (grown kend k (p :: L) T D root 0 (λ _, user_perm) (λ _ _, 0) 0 {[p]} k2 L T D) as Hg2.
  { apply grown_fill; [done|done|exact Hg1| |].
    - apply bytes_memset. apply (as_k _ _ _ _ _ _ (gw_as _ _ _ _ _ _ _ _ _ _ _ _ _ _ _ Hg1)).
    - intros a Ha. rewrite ld_memset, decide_False; [done|]. specialize (Ha p ltac:(by apply elem_of_singleton)).
      unfold in_page in Ha. unfold PGN, PGSIZE. lia. }
  destruct (gw_lim _ _ _ _ _ _ _ _ _ _ _ _ _ _ _ Hg2 p) as (Hp & HpL & HpT); [by apply elem_of_singleton|].
  destruct (page_bounds kend Hend p Hp) as [Hp1 Hp2]. unfold PHYSTOP, KERNBASE in Hp2.
  wp_step. change 4096 with (4096 * Z.of_nat 1) at 1. change 0 with (4096 * 0) at 1.
  apply (mappages_spec kend Hend k2 L T D root 0 1); [apply Hg2|lia|lia|by vm_compute|lia|lia|by vm_compute| |].
  { intros v Hv. by replace v with 0 by lia. }
  intros r k3 L3 T3 j Has3 Hgrow [(-> & -> & Hlen)|(-> & Hj & -> & Hlen)]; [|cbn in Hlen; lia]. cbn [map_range] in Has3. wp_step.
  assert (grown kend k (p :: L) T D root 0 (λ _, user_perm) (λ _ _, 0) 1 ∅ k3 L3 T3 (<[0 := leaf p user_perm]> D)) as Hg3.
  { eapply (grown_add kend Hend k (p :: L) T D root 0 (λ _, user_perm) (λ _ _, 0) Hperm 0 k2); [exact Hg2|done|done|].
    intros i Hi. unfold k2. cbn [k_mem kset_mem]. rewrite ld_memset, decide_True; [done|]. unfold PGN, PGSIZE. lia. }
  assert (pmem k3 L3 T3 (<[0 := leaf p user_perm]> D) root 4096 tf) as Hpm3.
  { eapply (pmem_grown kend trampoline Htr k (p :: L) T D root 0 tf 4096 (λ _, user_perm) (λ _ _, 0) 1); [done|done|by vm_compute|done|done|exact Hg3]. }
  pose proof (resized_grown kend trampoline Htr k (p :: L) T D root 0 tf 4096 (λ _, user_perm) (λ _ _, 0) 1 k3 L3 T3 _ Hpm eq_refl Hg3) as [Hset Hsame _ Hout].
  destruct (gw_new _ _ _ _ _ _ _ _ _ _ _ _ _ _ _ Hg3 0) as (p' & Hp' & Hok' & Hc); [lia|]. rewrite lookup_insert_eq in Hp'.
  assert (p' = p) as ->.
  { injection Hp' as Hp'. rewrite <-(leaf_pa p' user_perm), <-(leaf_pa p user_perm); [by rewrite Hp'|..];
      try (by apply (page_u64 kend)); try apply Hp; try apply Hok'; by vm_compute. }
  assert (p ∉ rest L3 T3 ∅) as Hpr.
  { apply (gw_own _ _ _ _ _ _ _ _ _ _ _ _ _ _ _ Hg3 p). eapply (dpages_new kend Hend 0 (λ _, user_perm) Hperm _ 1 0); [lia| |done]. apply lookup_insert_eq. }
  rewrite elem_of_rest in Hpr.
  assert (outside {[p]} (k_mem k3) (st_bytes (k_mem k3) p src)) as Hw.
  { intros a Ha. rewrite ld_st_bytes, decide_False; [done|]. specialize (Ha p ltac:(by apply elem_of_singleton)). unfold in_page in Ha. lia. }
  apply (HQ _ L3 T3 p).
  - apply (pmem_write kend trampoline Htr _ _ _ _ _ _ _ p); [done|done|tauto|tauto| |done]. apply bytes_st_bytes, Has3.
  - split; [done|done| |].
    + intros v i Hv. change (npages 0) with 0 in Hv. lia.
    + eapply outside_trans; [exact Hout|]. eapply outside_mono; [|exact Hw]. intros r ->%elem_of_singleton.
      apply elem_of_union. left. apply elem_of_list_to_set. left.
  - intros i Hi. cbn [k_mem kset_mem]. rewrite ld_st_bytes. replace (p + i - p) with i by lia. case_decide as Hd.
    + apply u8_small. eapply Forall_nth; [exact Hb|lia].
    + rewrite Hc by done. rewrite nth_overflow by lia. done.
  - done.
Qed.

(** ** The process table *)

(** The entries of [proc], which C fills with zeros, and what [procinit] adds. *)
Definition zero_proc : proc := Proc UNUSED None 0 0 0 None 0 0 0 0 (Context_ 0 0) (replicate NOFILE None) None (replicate 16 0).
Definition unused_proc (p : nat) : proc := pset_kstack (KSTACK (Z.of_nat p)) zero_proc.

Lemma procinit_spec s (Q : unit → kstate F → Prop) :
  ks_procs s = replicate NPROC zero_proc →
  (∀ l, length l = NPROC → (∀ p q, l !! p = Some q → q = unused_proc p) →
     Q tt (KState (ks_k s) (ks_f s) l (ks_nextpid s) (ks_initproc s) (ks_ticks s))) →
  wp procinit s Q.
Proof.
  assert (∀ n i s (Q : unit → kstate F → Prop), length (ks_procs s) = (i + n)%nat →
    (∀ p q, ks_procs s !! p = Some q → q = if decide (p < i)%nat then unused_proc p else zero_proc) →
    (∀ l, length l = (i + n)%nat → (∀ p q, l !! p = Some q → q = unused_proc p) →
     Q tt (KState (ks_k s) (ks_f s) l (ks_nextpid s) (ks_initproc s) (ks_ticks s))) →
    wp (mfor (seq i n) (λ p, setp p (pset_state UNUSED) ;; setp p (pset_kstack (KSTACK (Z.of_nat p))))) s Q) as Hloop.
  { clear s Q. induction n as [|n IH]; intros i s Q Hlen Hl HQ; cbn [seq mfor].
    - wp_step. destruct s. apply HQ; [done|]. intros p q Hq. rewrite (Hl p q Hq), decide_True; [done|]. apply lookup_lt_Some in Hq. cbn in *. lia.
    - destruct (lookup_lt_is_Some_2 (ks_procs s) i) as [q Hq]; [lia|]. pose proof (Hl i q Hq) as Hz. rewrite decide_False in Hz by lia. subst q.
      wp_step. pset. eapply wp_setp; [by eapply with_proc_lookup|]. rewrite with_proc_twice.
      apply IH.
      + cbn. rewrite length_insert. lia.
      + intros p q. cbn [with_proc ks_procs]. destruct (decide (p = i)) as [->|Hne].
        * rewrite list_lookup_insert_eq by lia. intros [= <-]. rewrite decide_True by lia. done.
        * rewrite list_lookup_insert_ne by done. intros Hp. rewrite (Hl p q Hp). repeat case_decide; try done; lia.
      + intros l Hl' Hall. apply HQ; [lia|done]. }
  intros Hs HQ. apply Hloop; [by rewrite Hs| |done]. intros p q Hp. rewrite Hs in Hp. by apply lookup_replicate in Hp as [-> _].
Qed.

(** ** Pages *)

Lemma page_taken k p L (Q : Z → kmem → Prop) :
  kmem_ok kend k (p :: L) →
  (∀ k', kmem_ok kend k' L → page_ok kend p → p ∉ L → outside {[p]} (k_mem k) (k_mem k') → Q p k') → wp kalloc k Q.
Proof.
  intros Hk HQ. apply (kalloc_spec kend Hend k (p :: L)); [done|]. intros k' Hk' Hp HpL Hm. apply HQ; [done..|].
  intros a Ha. rewrite Hm, decide_False; [done|]. apply Ha. by apply elem_of_singleton.
Qed.

Lemma page_zeroed k p L (Q : unit → kmem → Prop) :
  kmem_ok kend k L → page_ok kend p → p ∉ L →
  (∀ k', kmem_ok kend k' L → outside {[p]} (k_mem k) (k_mem k') → Q tt k') → wp (zero_page p) k Q.
Proof.
  intros Hk Hp HpL HQ. destruct (page_bounds kend Hend p Hp). unfold zero_page. rewrite (proj2 (Z.eqb_neq _ _)) by lia. wp_step.
  assert (outside {[p]} (k_mem k) (memset (k_mem k) p 0 PGN)) as Hout.
  { intros a Ha. rewrite ld_memset, decide_False; [done|]. specialize (Ha p ltac:(by apply elem_of_singleton)).
    unfold in_page in Ha. unfold PGN, PGSIZE. lia. }
  apply HQ; [|done]. apply kmem_ok_mem; [done|apply bytes_memset, Hk|]. intros q a Hq Ha. apply Hout. intros r ->%elem_of_singleton Ha'.
  apply HpL. replace p with q; [done|]. apply (pages_disjoint kend q p a); [|done..]. eapply flist_pages; [apply Hk|done].
Qed.

Lemma disk_queues_spec k L (Q : Z * Z * Z → kmem → Prop) :
  kmem_ok kend k L → (3 ≤ length L)%nat →
  (∀ k' L' d a u, L = d :: a :: u :: L' → kmem_ok kend k' L' → outside (list_to_set L) (k_mem k) (k_mem k') → Q (d, a, u) k') →
  wp disk_queues k Q.
Proof.
  intros Hk HL HQ. destruct L as [|d [|a [|u L]]]; cbn in HL; try lia. unfold disk_queues.
  wp_step. eapply page_taken; [exact Hk|]. intros k1 Hk1 Hd HdL O1.
  wp_step. eapply page_taken; [exact Hk1|]. intros k2 Hk2 Ha HaL O2.
  wp_step. eapply page_taken; [exact Hk2|]. intros k3 Hk3 Hu HuL O3.
  destruct (page_bounds kend Hend d Hd), (page_bounds kend Hend a Ha), (page_bounds kend Hend u Hu).
  do 3 (rewrite (proj2 (Z.eqb_neq _ _)) by lia). cbn [orb].
  wp_step. eapply page_zeroed; [exact Hk3|done|set_solver|]. intros k4 Hk4 O4.
  wp_step. eapply page_zeroed; [exact Hk4|done|set_solver|]. intros k5 Hk5 O5.
  wp_step. eapply page_zeroed; [exact Hk5|done|set_solver|]. intros k6 Hk6 O6. wp_step.
  apply (HQ k6 L d a u); [done|done|].
  repeat (eapply outside_trans; [eapply outside_mono; [|eassumption]; set_solver|]). done.
Qed.

(** The kernel's page table stays as it is when other pages change. *)
Lemma aspace_kept k L T D root k' L' (W : gset Z) :
  aspace kend k L T D root → kmem_ok kend k' L' → outside W (k_mem k) (k_mem k') →
  (∀ p, p ∈ W → page_ok kend p ∧ p ∉ tpages T) → (∀ p, p ∈ L' → p ∈ W) → aspace kend k' L' T D root.
Proof.
  intros Has Hk' Hout HW HL. eapply aspace_frame; [exact Has|done| |].
  - intros l p Hp Hin. apply (HW p (HL p Hin)). apply tpages_elem. eauto.
  - intros l p a Hp Ha. apply Hout. intros r Hr Ha'. destruct (HW r Hr) as [Hok Hnot]. apply Hnot. replace r with p; [apply tpages_elem; eauto|].
    apply (pages_disjoint kend p r a); [|done..]. by eapply (pt_page _ _ _ _ (as_tab _ _ _ _ _ _ Has)).
Qed.

(** ** [userinit] *)
Context `{RL : !RootLaw F}.

Definition first_proc (pid root tf : Z) (i : nat) : proc :=
  Proc RUNNABLE None 0 0 pid None (KSTACK 0) 4096 root tf (Context_ forkret_pc (u64 (KSTACK 0 + PGSIZE)))
    (replicate NOFILE None) (Some i) (initcode_name ++ replicate 7 0).

(** The states of [userinit], with process 0 being made. *)
Definition making s (k : kmem) (fs : F) (q : proc) : kstate F :=
  KState k fs (<[0%nat := q]> (ks_procs s)) (s32 (ks_nextpid s + 1)) (Some 0%nat) (ks_ticks s).

Lemma making_get s k fs q : length (ks_procs s) = NPROC → ks_procs (making s k fs q) !! 0%nat = Some q.
Proof. intros Hlen. apply list_lookup_insert_eq. rewrite Hlen. unfold NPROC. lia. Qed.

Lemma making_put s k fs q q' : with_proc (making s k fs q) 0 q' = making s k fs q'.
Proof. unfold with_proc, making. cbn. by rewrite list_insert_insert_eq. Qed.

Lemma making_k s k fs q k' : with_k (making s k fs q) k' = making s k' fs q.
Proof. done. Qed.

Lemma userinit_spec s L (Q : unit → kstate F → Prop) :
  length (ks_procs s) = NPROC → (∀ p q, ks_procs s !! p = Some q → q = unused_proc p) →
  kmem_ok kend (ks_k s) L → (9 ≤ length L)%nat → f_ok (ks_f s) ∅ ∅ ∅ →
  (∀ k' fs' L' T tf root pg i, let D := <[0 := leaf pg user_perm]> (D_empty trampoline tf) in
     pmem k' L' T D root 4096 tf → list_to_set L =@{gset Z} list_to_set L' ∪ own_set T D 4096 tf →
     outside (list_to_set L) (k_mem (ks_k s)) (k_mem k') → page_ok kend pg →
     ld64 (k_mem k') (tf + TF_epc) = 0 → ld64 (k_mem k') (tf + TF_sp) = 4096 →
     (∀ i, 0 ≤ i < 4096 → ld (k_mem k') (pg + i) = nth (Z.to_nat i) initcode 0) → f_ok fs' ∅ {[+ i +]} ∅ →
     Q tt (making s k' fs' (first_proc (ks_nextpid s) root tf i))) →
  wp (userinit kend trampoline forkret_pc initcode) s Q.
Proof.
  intros Hlen Hall Hk HL Hf HQ. destruct (lookup_lt_is_Some_2 (ks_procs s) 0) as [q0 Hq0]; [rewrite Hlen; unfold NPROC; lia|].
  pose proof (Hall _ _ Hq0) as ->. unfold userinit. wp_step. apply (allocproc_spec kend trampoline forkret_pc Hend Htr s L); [done|done| | | |].
  { intros p q Hp _. by rewrite (Hall p q Hp). }
  { intros Hno. by destruct (Hno 0%nat _ Hq0). }
  2:{ intros. lia. }
  intros p q k1 L1 T1 root tf (Hp & Hu & Hfirst) Hpm1 Hroot Hset1 Hout1 Hl1.
  assert (p = 0%nat) as ->. { destruct p as [|p]; [done|]. destruct (Hfirst 0%nat _ ltac:(lia) Hq0). done. }
  rewrite Hq0 in Hp. injection Hp as <-.
  set (q1 := allocated _ _ _ _ _). wp_step. wp_step. change (KState _ _ _ _ _ _) with (making s k1 (ks_f s) q1).
  wp_step. eapply wp_getp; [by apply making_get|]. wp_step. apply wp_onk. change (p_pagetable q1) with root. change (p_trapframe q1) with tf.
  apply (uvmfirst_spec k1 L1 T1 (D_empty trampoline tf) root tf initcode); [done|lia|by vm_compute|by apply (bool_decide_eq_true_1 _); vm_compute|by vm_compute|].
  intros k2 L2 T2 pg D Hpm2 [Hset2 _ _ Hout2] Hcode Hpg.
  rewrite making_k. wp_step. eapply wp_setp; [by apply making_get|]. rewrite making_put. set (q2 := pset_sz _ _).
  wp_step. apply wp_onk. unfold stp. wp_step. rewrite making_k.
  wp_step. apply wp_onk. wp_step. rewrite making_k.
  wp_step. eapply wp_setp; [by apply making_get|]. rewrite making_put. 
  set (k3 := kset_mem (st64 (st64 (k_mem k2) (tf + TF_epc) 0) (tf + TF_sp) 4096) k2). change (making s _ _ _) with (making s k3 (ks_f s) (set_name (list_ptr initcode_name) q2)).
  destruct (root_law k3 (ks_f s) Hf) as (i & Hroot_i).
  wp_step. unfold onf. apply wp_lift. cbn [making ks_k ks_f]. eapply wp_mono; [exact Hroot_i|]. intros r [k' fs'] (-> & Hk' & Hf'). cbn [fst snd] in *. subst k'.
  change (KState _ _ _ _ _ _) with (making s k3 fs' (set_name (list_ptr initcode_name) q2)).
  wp_step. eapply wp_setp; [by apply making_get|]. rewrite making_put. eapply wp_setp; [by apply making_get|]. rewrite making_put.
  destruct (pm_tfpage _ _ _ _ _ _ _ _ _ Hpm2) as (Htf & HtfL & HtfT & HtfU).
  assert (outside {[tf]} (k_mem k2) (k_mem k3)) as Hout3 by (do 2 (apply (outside_st64 kend trampoline Hend Htr); [|unfold TF_epc, TF_sp; lia]); by intros a _).
  assert (pmem k3 L2 T2 D root 4096 tf) as Hpm3.
  { apply (pmem_write kend trampoline Htr _ _ _ _ _ _ _ tf); [done..| |done]. do 2 apply bytes_st64. apply Hpm2. }
  apply (HQ k3 fs' L2 T2 tf root pg i); [done| | |done|..|done].
  - by rewrite Hset1.
  - eapply outside_trans; [exact Hout1|]. rewrite Hset1. eapply outside_trans; [exact Hout2|]. eapply outside_mono; [|exact Hout3].
    rewrite Hset2. unfold own_set. set_solver.
  - unfold k3. cbn [k_mem kset_mem]. rewrite ld64_st64_ne by (unfold TF_epc, TF_sp; lia). by rewrite ld64_st64_eq.
  - unfold k3. cbn [k_mem kset_mem]. by rewrite ld64_st64_eq.
  - intros a Ha. rewrite <-(Hcode a Ha). apply Hout3. intros r ->%elem_of_singleton Ha'. apply HtfU.
    replace tf with pg by (apply (pages_disjoint kend pg tf (pg + a)); [done..|unfold in_page; lia|done]).
    apply list_elem_of_fmap. exists 0. split; [|by apply elem_of_vrange]. unfold D. rewrite lookup_insert_eq. cbn [default from_option id].
    symmetry. apply leaf_pa; [by apply (page_u64 kend)|apply Hpg|by vm_compute].
Qed.

(** ** What [main] leaves *)
Context (ve : Z) (Hve : 524288 < ve < 557056).

(** The kernel's page table maps what [kvmmake] says, and it and the kernel's stacks
    are not among the pages [A] of the allocator and the processes. *)
Record kernel_ready s root (A : gset Z) L T D (stacks : list Z) : Prop := {
  kr_as : aspace kend (ks_k s) L T D root;
  kr_map v : D !! v = kmap ve trampoline stacks v;
  kr_stacks : length stacks = 64%nat ∧ NoDup stacks;
  kr_apart p : p ∈ A → page_ok kend p ∧ (p ∉ tpages T) ∧ p ∉ stacks
}.

Lemma ready_kept s root A L T D stacks s' L' :
  kernel_ready s root A L T D stacks → kmem_ok kend (ks_k s') L' → (∀ p, p ∈ L' → p ∈ A) →
  outside A (k_mem (ks_k s)) (k_mem (ks_k s')) → kernel_ready s' root A L' T D stacks.
Proof.
  intros [Has Hmap Hst Hap] Hk HL Hout. split; [|done..]. eapply aspace_kept; [exact Has|done|exact Hout| |done].
  intros p Hp. destruct (Hap p Hp) as (? & ? & _). done.
Qed.

(** The first process is ready to run [initcode], with its pages apart from the rest. *)
Record started s root A L sp T D stacks q tf pg i : Prop := {
  sd_iso : isolated kend trampoline s A ∅ L sp;
  sd_kernel : kernel_ready s root A L T D stacks;
  sd_proc : ks_procs s !! 0%nat = Some q ∧ (∃ uroot, q = first_proc 1 uroot tf i) ∧ ks_initproc s = Some 0%nat;
  sd_others p q : p ≠ 0%nat → ks_procs s !! p = Some q → q = unused_proc p;
  sd_page : (sp 0%nat).2 !! 0 = Some (leaf pg user_perm) ∧ page_ok kend pg;
  sd_code a : 0 ≤ a < 4096 → ld (k_mem (ks_k s)) (pg + a) = nth (Z.to_nat a) initcode 0;
  sd_frame : ld64 (k_mem (ks_k s)) (tf + TF_epc) = 0 ∧ ld64 (k_mem (ks_k s)) (tf + TF_sp) = 4096
}.

Lemma total_empty (f : proc → gmultiset nat) l : Forall (λ q, f q = ∅) l → total f l = ∅.
Proof. unfold total. induction 1 as [|q l Hq _ IH]; [done|]. cbn. rewrite Hq, IH. multiset_solver. Qed.

(** No process yet. *)
Lemma isolated_start s L :
  length (ks_procs s) = NPROC → (∀ p q, ks_procs s !! p = Some q → q = unused_proc p) →
  kmem_ok kend (ks_k s) L → f_ok (ks_f s) ∅ ∅ ∅ → isolated kend trampoline s (list_to_set L) ∅ L (λ _, (∅, ∅)).
Proof.
  intros Hlen Hall Hk Hf. assert (∀ (f : proc → gmultiset nat), (∀ p, f (unused_proc p) = ∅) → total f (ks_procs s) = ∅) as Htot.
  { intros f Hz. apply total_empty, Forall_lookup. intros p q Hp. by rewrite (Hall p q Hp). }
  split; [done|done|..].
  - intros p q Hp. rewrite (Hall p q Hp). done.
  - intros p p' q q' _ Hp Hp'. rewrite (owned_unused _ q); [set_solver|]. by rewrite (Hall p q Hp).
  - intros p q Hp. rewrite (Hall p q Hp). by split.
  - rewrite !Htot by done. done.
  - set_solver.
  - intros p. rewrite elem_of_list_to_set. split; [by left|]. intros [Hp|[Hp|(j & q & Hq & Hp)]]; [done|set_solver|].
    rewrite (owned_unused _ q) in Hp; [set_solver|]. by rewrite (Hall j q Hq).
Qed.

Lemma userinit_started s L root T D stacks (Q : unit → kstate F → Prop) :
  length (ks_procs s) = NPROC → (∀ p q, ks_procs s !! p = Some q → q = unused_proc p) → ks_nextpid s = 1 →
  kernel_ready s root (list_to_set L) L T D stacks → (9 ≤ length L)%nat → f_ok (ks_f s) ∅ ∅ ∅ →
  (∀ s' L' sp q tf pg i, started s' root (list_to_set L) L' sp T D stacks q tf pg i → Q tt s') →
  wp (userinit kend trampoline forkret_pc initcode) s Q.
Proof.
  intros Hlen Hall Hpid Hkr HL Hf HQ. pose proof (as_k _ _ _ _ _ _ (kr_as _ _ _ _ _ _ _ Hkr)) as Hk.
  pose proof (isolated_start s L Hlen Hall Hk Hf) as Hi. destruct (lookup_lt_is_Some_2 (ks_procs s) 0) as [q0 Hq0]; [rewrite Hlen; unfold NPROC; lia|].
  pose proof (Hall _ _ Hq0) as ->.
  apply (userinit_spec s L); [done..|]. intros k' fs' L' Tu tf uroot pg i Du Hpm Hset Hout Hpg Hepc Hsp Hcode Hfs. rewrite Hpid. set (q := first_proc _ _ _ _).
  set (s' := making s k' fs' q).
  assert (isolated kend trampoline s' (list_to_set L) ∅ L' (place (λ _, (∅, ∅)) 0 (Tu, Du))) as Hi'.
  { eapply (isolated_change kend trampoline Htr s (list_to_set L) ∅ L _ 0 (unused_proc 0) s' q (Tu, Du) L' Hi).
    - done.
    - done.
    - split; [done|done|by intros []|by exists i].
    - apply Hpm.
    - intros _. exact Hpm.
    - rewrite owned_live, owned_unused by done. cbn [fst snd]. by rewrite union_empty_r_L.
    - rewrite owned_unused by done. by rewrite union_empty_r_L.
    - cbn [s' making ks_f ks_procs]. destruct (total_split open_files _ 0 _ Hq0) as (R1 & Ht1 & ->), (total_split cwd_of _ 0 _ Hq0) as (R2 & Ht2 & ->).
      pose proof (is_files _ _ _ _ _ _ _ Hi) as Hf0. rewrite !total_empty in Ht1, Ht2 by (apply Forall_lookup; intros p r Hp; by rewrite (Hall p r Hp)).
      replace R1 with (∅ : gmultiset nat) by (revert Ht1; clear; multiset_solver). replace R2 with (∅ : gmultiset nat) by (revert Ht2; clear; multiset_solver).
      rewrite !gmultiset_disj_union_empty_r || rewrite !(right_id_L ∅ (⊎)). exact Hfs. }
  eapply (HQ s' L' _ q tf pg i). split; [exact Hi'| | | | |exact Hcode|done].
  - eapply ready_kept; [exact Hkr|apply Hpm| |exact Hout]. intros p Hp. rewrite Hset, elem_of_union, elem_of_list_to_set. by left.
  - split_and!; [by apply making_get|by exists uroot|done].
  - intros p r Hne. cbn [s' making ks_procs]. rewrite list_lookup_insert_ne by done. apply Hall.
  - rewrite place_eq. cbn [snd]. split; [apply lookup_insert_eq|done].
Qed.
End first.

(** ** From reset to user space *)
Section start.
Context {F X : Type} `{RL : RootLaw F} `{Devices X}.
Context (kend ve trampoline forkret_pc kernelvec_pc usertrap_pc uservec_off : Z).
Context (consoleinit : M X unit) (virtio_disk_init : Z → Z → Z → M X unit) (files_init : M F unit) (fsinit : M (tst F X) unit).
Context (Hend : KERNBASE ≤ kend) (Hroom : kend + 4096 * 700 ≤ PHYSTOP) (Hve : 524288 < ve < 557056) (Htr : 0 ≤ trampoline < 18446744073709547520).
Context (Hcons : ∀ d, wp consoleinit d (λ _ _, True)) (Hdisk : ∀ a b c d, wp (virtio_disk_init a b c) d (λ _ _, True))
  (Hfiles : ∀ fs, wp files_init fs (λ _ fs', f_ok fs' ∅ ∅ ∅)).
Abbreviation main := (main kend (4096 * ve) trampoline forkret_pc kernelvec_pc consoleinit virtio_disk_init files_init).
Abbreviation started := (started kend trampoline forkret_pc ve).

Lemma free_pages : (700 ≤ length (reverse (page_range (PGROUNDUP kend) PHYSTOP)))%nat.
Proof.
  rewrite length_reverse. unfold page_range. rewrite length_fmap, length_seqZ. rewrite PGROUNDUP_div by (unfold PHYSTOP, KERNBASE in *; lia).
  unfold PHYSTOP, KERNBASE in *. zlia.
Qed.

(** All memory that C fills with zeros. *)
Definition reset_state (m : mem) (fs : F) : kstate F := KState (KMem m 0 0) fs (replicate NPROC zero_proc) 1 None 0.

Section wp.
Context (s : kstate F) (mt : mtable) (lg : list (string * list karg)) (c : csr → Z) (hart : Z) (dev : X).
Abbreviation st := (TSt (SysSt s mt lg) c hart).

Lemma wp_ondev {A} (m : M X A) (Q : A → tst F X → Prop) : wp m dev (λ a d, Q a (st d)) → wp (ondev m) (st dev) Q.
Proof. intros Hm. unfold ondev. apply wp_lift. exact Hm. Qed.

Lemma wp_printk fmt ap (Q : unit → tst F X → Prop) : (∀ lg', Q tt (TSt (SysSt s mt lg') c hart dev)) → wp (onsys (printk fmt ap)) (st dev) Q.
Proof. intros HQ. unfold onsys, printk. apply wp_lift. wp_step. apply HQ. Qed.

Lemma wp_plic a v (Q : unit → tst F X → Prop) : (∀ dev', Q tt (st dev')) → wp (plic_set a v) (st dev) Q.
Proof. intros HQ. unfold plic_set. apply wp_ondev. wp_step. apply HQ. Qed.
End wp.

Lemma queues_ready k1 L1 k2 L2 T D root stacks fs l k3 L3 d a u :
  kspace kend k1 L1 k2 L2 T D root stacks → length stacks = 64%nat → (∀ v, D !! v = kmap ve trampoline stacks v) →
  L2 = d :: a :: u :: L3 → kmem_ok kend k3 L3 → outside (list_to_set L2) (k_mem k2) (k_mem k3) →
  kernel_ready (F:=F) kend trampoline ve (KState k3 fs l 1 None 0) root (list_to_set L3) L3 T D stacks.
Proof.
  intros [Has Hset Hst Hnd _] Hlen Hmap HL2 Hk3 Hout.
  assert (∀ p, p ∈ L3 → p ∈ L2) as Hsub by (intros p Hp; rewrite HL2; do 3 right; done).
  assert (∀ p, p ∈ L2 → page_ok kend p ∧ p ∉ tpages T) as HL.
  { intros p Hp. split; [eapply flist_pages; [apply Has|done]|]. intros [t Ht]%tpages_elem. by apply (as_free _ _ _ _ _ _ Has t p). }
  split; [|done|done|].
  - eapply (aspace_kept kend); [exact Has|exact Hk3|exact Hout| |].
    + intros p Hp%elem_of_list_to_set. by apply HL.
    + intros p Hp. apply elem_of_list_to_set. by apply Hsub.
  - intros p Hp%elem_of_list_to_set. destruct (HL p (Hsub p Hp)). split_and!; [done..|]. intros Hin. destruct (Hst p Hin) as (_ & HpL & _). by apply HpL, Hsub.
Qed.

Lemma main_spec m fs mt lg c hart dev (Q : Z → tst F X → Prop) :
  bytes_mem m →
  (∀ root s A L sp T D stacks q tf pg i lg' c' dev', started s root A L sp T D stacks q tf pg i → c' Reg.satp = MAKE_SATP root → c' Reg.stvec = kernelvec_pc →
     Q root (TSt (SysSt s mt lg') c' hart dev')) →
  wp main (TSt (SysSt (reset_state m fs) mt lg) c hart dev) Q.
Proof.
  intros Hm HQ. pose proof free_pages as Hfree. unfold main. wp_step. apply wp_ondev. eapply wp_mono; [apply Hcons|]. intros [] dev1 _.
  wp_step. apply wp_printk. intros lg1. wp_step. apply wp_printk. intros lg2. wp_step. apply wp_printk. intros lg3.
  wp_step. apply wp_onproc, wp_onk. eapply wp_mono; [apply (kinit_spec kend Hend m Hm); unfold PHYSTOP in *; lia|]. intros [] k1 Hk1. cbv beta.
  set (L1 := reverse _) in *.
  wp_step. unfold kvminit. apply wp_onproc, wp_onk. eapply (kvmmake_spec kend Hend ve trampoline Hve Htr _ L1); [exact Hk1|lia|].
  intros root k2 L2 T D stacks Hks Hst Hmap HL2. unfold kvminithart, w_. wp_step. wp_step.
  wp_step. cbn [t_sys t_csr t_tp t_dev]. apply wp_onproc. apply procinit_spec; [done|]. intros l Hl Hall. cbn [ks_k ks_f ks_procs ks_nextpid ks_initproc ks_ticks with_k reset_state].
  unfold trapinithart, w_. wp_step. wp_step. cbn [t_sys t_csr t_tp t_dev].
  unfold plicinit, plicinithart, cpuid. wp_step. wp_step. apply wp_plic. intros dev2. apply wp_plic. intros dev3.
  wp_step. wp_step. wp_step. wp_step. apply wp_plic. intros dev4. apply wp_plic. intros dev5.
  wp_step. apply wp_onproc. unfold onfiles. apply wp_lift. eapply wp_mono; [apply Hfiles|]. intros [] fs' Hf.
  cbn [ks_k ks_f ks_procs ks_nextpid ks_initproc ks_ticks].
  wp_step. apply wp_onproc, wp_onk. eapply (disk_queues_spec kend trampoline Hend Htr _ L2); [apply Hks|lia|]. intros k3 L3 d a u HL3 Hk3 Hout3.
  wp_step. apply wp_ondev. eapply wp_mono; [apply Hdisk|]. intros [] dev6 _.
  wp_step. apply wp_onproc. pose proof (queues_ready k1 L1 k2 L2 T D root stacks fs' l k3 L3 d a u Hks Hst Hmap HL3 Hk3 Hout3) as Hkr.
  eapply (userinit_started kend trampoline forkret_pc Hend Htr ve Hve _ L3); [exact Hl|exact Hall|done|exact Hkr| |exact Hf|].
  { subst L2. cbn in HL2. lia. }
  intros s' L' sp q tf pg i Hs. wp_step. eapply HQ; [exact Hs|by rewrite upd_ne, upd_eq|by rewrite upd_eq].
Qed.

(** [fsinit] changes the state of the file system only. *)
Context (Hfsinit : ∀ t P Y, f_ok (ks_f (sy_k (t_sys t))) ∅ Y P →
  wp fsinit t (λ _ t', ∃ fs', f_ok fs' ∅ Y P ∧ t' = TSt (SysSt (with_f (sy_k (t_sys t)) fs') (sy_mutex (t_sys t)) (sy_log (t_sys t))) (t_csr t) (t_tp t) (t_dev t))).

Lemma started_files s root A L sp T D stacks q tf pg i :
  started s root A L sp T D stacks q tf pg i →
  total open_files (ks_procs s) = ∅ ∧ total cwd_of (ks_procs s) = {[+ i +]} ∧ open_files q = ∅ ∧ cwd_of q = {[+ i +]}.
Proof.
  intros [_ _ (Hq & [uroot Hfirst] & _) Hoth _ _ _].
  assert (∀ f : proc → gmultiset nat, (∀ p, f (unused_proc p) = ∅) → total f (ks_procs s) = f q) as Htot.
  { intros f Hz. destruct (total_split f _ 0 _ Hq) as (R & -> & HR). specialize (HR (unused_proc 0)).
    rewrite total_empty, Hz in HR; [replace R with (∅ : gmultiset nat) by (revert HR; clear; multiset_solver); clear; multiset_solver|].
    apply Forall_lookup. intros p r. destruct (decide (p = 0%nat)) as [->|Hne].
    - rewrite list_lookup_insert_eq by (by eapply lookup_lt_Some). intros [= <-]. apply Hz.
    - rewrite list_lookup_insert_ne by done. intros Hp. by rewrite (Hoth p r Hne Hp). }
  rewrite !Htot by done. by subst q.
Qed.

(** The first process, when it is chosen and the file system is read. *)
Lemma started_runs s root A L sp T D stacks q tf pg i fs' :
  started s root A L sp T D stacks q tf pg i → f_ok fs' ∅ {[+ i +]} ∅ →
  let s' := with_f (with_proc s 0 (pset_state RUNNING q)) fs' in isolated kend trampoline s' A ∅ L sp.
Proof.
  intros Hs Hf s'. destruct (started_files _ _ _ _ _ _ _ _ _ _ _ _ Hs) as (Ho & Hc & Hoq & Hcq).
  destruct Hs as [Hi _ (Hq & [uroot Hfirst] & _) _ _ _ _]. set (q' := pset_state RUNNING q) in *.
  destruct (isolated_quiet kend trampoline Htr s A ∅ L sp (with_proc s 0 q') Hi) as [Hi' _]; [done|done| |].
  { eapply quiet_insert; [exact Hq|]. subst q. by repeat split. }
  destruct (total_split open_files _ 0 _ Hq) as (R1 & Hr1 & Hr1'), (total_split cwd_of _ 0 _ Hq) as (R2 & Hr2 & Hr2').
  destruct Hi' as [I1 I2 I3 I4 I5 _ I7 I8]. split; [done..| |done|done]. cbn [s' with_f with_proc ks_f ks_procs].
  rewrite Hr1', Hr2'. change (open_files q') with (open_files q). change (cwd_of q') with (cwd_of q). rewrite <-Hr1, <-Hr2, Ho, Hc. exact Hf.
Qed.

Lemma MAKE_SATP_range root : page_ok kend root → 0 ≤ MAKE_SATP root < 18446744073709551616.
Proof.
  intros Hr. destruct (satp_root kend trampoline Hend Htr root Hr) as [Hm _]. rewrite Z.shiftr_div_pow2 in Hm by lia. change (2 ^ 60) with 1152921504606846976 in Hm. zlia.
Qed.

(** A store into the trap frame of the first process. *)
Lemma frame_isolated s A L sp T D stacks root q s' :
  isolated kend trampoline s A ∅ L sp → kernel_ready kend trampoline ve s root A L T D stacks →
  ks_procs s !! 0%nat = Some q → p_state q ≠ UNUSED → bytes_mem (k_mem (ks_k s')) →
  s' = with_k s (kset_mem (k_mem (ks_k s')) (ks_k s)) → outside {[p_trapframe q]} (k_mem (ks_k s)) (k_mem (ks_k s')) →
  (∃ sp', isolated kend trampoline s' A ∅ L sp' ∧ sp' 0%nat = sp 0%nat) ∧ kernel_ready kend trampoline ve s' root A L T D stacks.
Proof.
  intros Hi Hkr Hq Hu Hb Hs' Hout. pose proof (is_mem _ _ _ _ _ _ _ Hi 0%nat q Hq Hu) as Hpm.
  destruct (pm_tfpage _ _ _ _ _ _ _ _ _ Hpm) as (Htf & HtfL & HtfT & _). set (m' := k_mem (ks_k s')) in *.
  assert (pmem kend trampoline (kset_mem m' (ks_k s)) L (sp 0%nat).1 (sp 0%nat).2 (p_pagetable q) (p_sz q) (p_trapframe q)) as Hpm'.
  { apply (pmem_write kend trampoline Htr _ _ _ _ _ _ _ (p_trapframe q)); done. }
  assert (p_trapframe q ∈ owned (sp 0%nat) q) as Hown.
  { rewrite owned_live by done. unfold own_set. rewrite elem_of_union, elem_of_singleton. by right. }
  split.
  - exists (place sp 0 (sp 0%nat)). split; [|apply place_eq]. rewrite Hs'.
    apply (isolated_write kend trampoline Htr s A ∅ L sp 0 q m' Hi Hq Hu Hpm'). eapply outside_mono; [|exact Hout].
    unfold own_set. apply union_subseteq_r.
  - eapply ready_kept; [exact Hkr| | |].
    + rewrite Hs'. cbn [with_k ks_k]. apply Hpm'.
    + intros p Hp. apply (is_all _ _ _ _ _ _ _ Hi). by left.
    + eapply outside_mono; [|exact Hout]. intros p ->%elem_of_singleton. apply (is_all _ _ _ _ _ _ _ Hi). right; right. by exists 0%nat, q.
Qed.

Lemma wp_onkernel {A} (m : M (tst F X) A) r pc t (Q : A → ust F X → Prop) :
  wp m t (λ a t', Q a (USt r pc t')) → wp (onkernel m) (USt r pc t) Q.
Proof. intros Hm. unfold onkernel. apply wp_lift. exact Hm. Qed.

(** The first return to user space. *)
Lemma enter_user s mt lg c hart dev r pc regs q g (Q : option bool → ust F X → Prop) :
  frame kend trampoline 0 s s q g → Forall (λ x, 0 ≤ x < 18446744073709551616) [usertrap_pc; c Reg.satp; hart] →
  (∀ s' u', s' = sy_k (t_sys (u_t u')) → frame kend trampoline 0 s s' q (ready_frame usertrap_pc q (c Reg.satp) hart g) →
     u_pc u' = g TF_epc → u_reg u' Reg.sp = g TF_sp → in_user kend trampoline 0 usertrap_pc uservec_off u' q (c Reg.satp) hart → Q (Some true) u') →
  wp (usertrapret 0 usertrap_pc uservec_off) (TSt (SysSt s mt lg) c hart dev) (λ o t, wp (to_user regs o) (USt r pc t) Q).
Proof.
  intros Hf Hrng HQ. apply Forall_cons in Hrng as [Htrap Hrng]. apply Forall_cons in Hrng as [Hsatp Hrng]. apply Forall_cons in Hrng as [Hhart _].
  eapply (usertrapret_spec kend trampoline Hend Htr 0 usertrap_pc uservec_off s); [exact Hf|].
  intros s' c' Hf' Hsatp' Hstvec' Hsepc' Hspp'. unfold to_user. wp_steps. unfold onmach. apply wp_lift. unfold mach_of.
  cbn [u_t u_reg u_pc t_sys t_csr sy_k sy_mutex sy_log t_tp t_dev m_reg m_csr m_mem].
  eapply (userret_spec kend trampoline Hend Htr); [apply Hf'|apply upd_eq|]. intros r2 Hr2. wp_steps. rewrite Hspp'.
  assert (with_k s' (kset_mem (k_mem (ks_k s')) (ks_k s')) = s') as Hsame by (by destruct s' as [[] ? ? ? ? ?]).
  eapply (HQ s'); unfold of_mach; cbn [u_t u_reg u_pc t_sys t_csr sy_k sy_mutex sy_log t_tp t_dev m_reg m_csr m_mem].
  - symmetry. exact Hsame.
  - exact Hf'.
  - exact Hsepc'.
  - rewrite (Hr2 Reg.sp 48) by by_decision. rewrite (fr_slot _ _ _ _ _ _ _ Hf' 48) by done. done.
  - split; cbn [u_t u_reg u_pc t_sys t_csr sy_k sy_mutex sy_log t_tp t_dev m_reg m_csr m_mem].
    + apply Hf'.
    + apply Hf'.
    + by rewrite upd_ne, upd_eq.
    + by rewrite !upd_ne.
    + intros o w Ho. cbn [ks_k k_mem kset_mem]. revert Ho. rewrite !elem_of_cons, !pair_eq.
      intros [[-> ->]|[[-> ->]|[[-> ->]|[[-> ->]|[]%not_elem_of_nil]]]]; rewrite (fr_slot _ _ _ _ _ _ _ Hf') by done; unfold ready_frame.
      all: rewrite ?upd_ne by done; rewrite upd_eq; apply u64_small; first [done|apply u64_range].
Qed.

(** C4: From reset to user space. [main] makes the kernel's page table, the process
    table and the first process; the scheduler chooses that process, and [forkret],
    [usertrapret] and [userret] bring it to user mode at address 0 with the stack
    pointer 4096 and the code of [initcode] in its page, whatever was in memory and
    in the registers. Then the first process is [initproc], its pages and the free
    pages are apart as the system calls need it, none of them is one of the kernel's
    tables or stacks, the kernel's table still maps what [kvmmake] mapped, and the
    next trap finds all it needs in the trap frame. *)
Theorem boot_correct m fs mt lg c hart dev r pc regs :
  bytes_mem m → 0 ≤ usertrap_pc < 18446744073709551616 → 0 ≤ hart < 18446744073709551616 →
  wp (boot kend (4096 * ve) trampoline forkret_pc kernelvec_pc usertrap_pc uservec_off consoleinit virtio_disk_init files_init fsinit regs)
    (USt r pc (TSt (SysSt (reset_state m fs) mt lg) c hart dev))
    (λ o u, let s := sy_k (t_sys (u_t u)) in
       o = Some true ∧ u_pc u = 0 ∧ u_reg u Reg.sp = 4096 ∧ ∃ root A L sp T D stacks q pg,
       isolated kend trampoline s A ∅ L sp ∧ kernel_ready kend trampoline ve s root A L T D stacks ∧
       in_user kend trampoline 0 usertrap_pc uservec_off u q (MAKE_SATP root) hart ∧
       p_state q = RUNNING ∧ p_killed q = 0 ∧ p_sz q = 4096 ∧ ks_initproc s = Some 0%nat ∧
       (sp 0%nat).2 !! 0 = Some (leaf pg user_perm) ∧ ∀ a, 0 ≤ a < 4096 → ld (k_mem (ks_k s)) (pg + a) = nth (Z.to_nat a) initcode 0).
Proof.
  intros Hm Htrap Hhart. unfold boot. wp_step. apply wp_onkernel. apply main_spec; [done|].
  intros root s A L sp T D stacks q tf pg i lg' c' dev' Hs Hsatp Hstvec.
  pose proof Hs as [Hi Hkr (Hq & [uroot Hfirst] & Hinit) Hoth [Hpage Hpg] Hcode [Hepc Husp]].
  destruct (started_files _ _ _ _ _ _ _ _ _ _ _ _ Hs) as (Ho & Hc & _ & _).
  assert (f_ok (ks_f s) ∅ {[+ i +]} ∅) as Hf by (rewrite <-Ho, <-Hc; apply Hi).
  wp_step. apply wp_onkernel. unfold intr_on, r_, w_. wp_step. wp_step. wp_step. cbn [t_sys t_csr t_tp t_dev].
  wp_step. apply wp_onkernel, wp_onproc. eapply wp_visit; [exact Hq|]. rewrite decide_True by (by subst q). set (q' := pset_state RUNNING q).
  wp_step. apply wp_onkernel. unfold forkret. wp_step. cbn [mwhen]. eapply wp_mono; [eapply (Hfsinit _ ∅ {[+ i +]}); exact Hf|].
  intros [] t' (fs' & Hf' & ->). cbn [t_sys sy_k sy_mutex sy_log t_csr t_tp t_dev].
  pose proof (started_runs _ _ _ _ _ _ _ _ _ _ _ _ fs' Hs Hf') as Hi1. cbv zeta in Hi1. fold q' in Hi1. set (s1 := with_f _ fs') in *.
  assert (ks_procs s1 !! 0%nat = Some q') as Hq1 by (apply list_lookup_insert_eq; by eapply lookup_lt_Some).
  assert (p_state q' ≠ UNUSED) as Hu by done. pose proof (is_mem _ _ _ _ _ _ _ Hi1 0%nat q' Hq1 Hu) as Hpm.
  destruct (pm_tfpage _ _ _ _ _ _ _ _ _ Hpm) as (Htf & _ & _ & HtfU).
  assert (frame kend trampoline 0 s1 s1 q' (λ o, ld64 (k_mem (ks_k s1)) (p_trapframe q' + o))) as Hfr.
  { split; [by destruct s as [[] ? ? ? ? ?]|done|by exists (ks_k s1), L, (sp 0%nat).1, (sp 0%nat).2, (p_sz q')|done|by intros a _]. }
  apply (enter_user s1 mt lg' _ hart dev' r pc regs q' _ _ Hfr).
  { rewrite upd_ne, Hsatp by done. repeat apply Forall_cons_2; [done| |done|apply Forall_nil_2]. apply MAKE_SATP_range.
    pose proof (as_tab _ _ _ _ _ _ (kr_as _ _ _ _ _ _ _ _ _ _ Hkr)) as Ht. apply (pt_page _ _ _ _ Ht []), Ht. }
  rewrite upd_ne, Hsatp by done. intros s' u' Hs' [Hst _ HW _ Hout] Hpc' Hsp' Hin. rewrite <-Hs'.
  assert (bytes_mem (k_mem (ks_k s'))) as Hb'.
  { destruct HW as (k & L0 & T0 & D0 & sz & <- & Hpm0). apply Hpm0. }
  destruct (frame_isolated s1 A L sp T D stacks root q' s' Hi1) as [(sp' & Hi2 & Hsp0) Hkr2]; [|done..|].
  { destruct Hkr as [K1 K2 K3 K4]. by split. }
  split_and!; [done|by rewrite Hpc'; subst q|by rewrite Hsp'; subst q|]. exists root, A, L, sp', T, D, stacks, q', pg.
  split_and!; [done..|by subst q|by subst q|by rewrite Hst|by rewrite Hsp0|].
  intros a Ha. rewrite <-(Hcode a Ha). apply Hout. intros p ->%elem_of_singleton Hin'. apply HtfU.
  replace (p_trapframe q') with pg by (apply (pages_disjoint kend pg _ (pg + a)); [done..|unfold in_page; lia|done]).
  apply list_elem_of_fmap. exists 0. subst q. split; [|by apply elem_of_vrange]. rewrite Hpage. cbn [default from_option id].
  symmetry. apply leaf_pa; [by apply (page_u64 kend)|apply Hpg|by vm_compute].
Qed.
End start.

(** ** The scheduler is fair *)
Section fair.
Context {F X : Type} `{FileOps F} (swtch : nat → M (tst F X) unit) (ran : X → list nat).
Implicit Types t : tst F X.

Definition state_of t (p : nat) : option procstate := p_state <$> ks_procs (sy_k (t_sys t)) !! p.

(** A process that is switched to runs, gives up the CPU at some time, and takes
    nobody else's turn. *)
Context (Hswtch : ∀ p t, state_of t p = Some RUNNING → wp (swtch p) t (λ _ t',
  ran (t_dev t') = ran (t_dev t) ++ [p] ∧ length (ks_procs (sy_k (t_sys t'))) = length (ks_procs (sy_k (t_sys t))) ∧
  ∀ j, j ≠ p → state_of t j = Some RUNNABLE → state_of t' j = Some RUNNABLE)).

Lemma scheduler_loop_spec ps : ∀ t found, NoDup ps → (∀ p, p ∈ ps → (p < length (ks_procs (sy_k (t_sys t))))%nat) →
  wp (scheduler_loop swtch ps found) t (λ b t', ∃ l, ran (t_dev t') = ran (t_dev t) ++ l ∧ NoDup l ∧ l ⊆ ps ∧
    (∀ p, p ∈ ps → state_of t p = Some RUNNABLE → p ∈ l) ∧ b = found || negb (bool_decide (l = []))).
Proof.
  induction ps as [|p ps IH]; intros t found Hnd Hlen; cbn [scheduler_loop].
  { wp_step. exists []. rewrite app_nil_r, orb_false_r. split_and!; [done|constructor|done|set_solver|done]. }
  apply NoDup_cons in Hnd as [Hp Hnd]. destruct t as [[s mt lg] c hart dev]. cbn [t_sys sy_k] in Hlen.
  destruct (lookup_lt_is_Some_2 (ks_procs s) p) as [q Hq]; [apply Hlen; left|].
  wp_step. apply wp_onproc. eapply wp_visit; [exact Hq|]. case_decide as Hst.
  2:{ eapply wp_mono; [apply IH; [done|]|].
    - intros j Hj. apply Hlen. by right.
    - intros b t' (l & Hl & Hnl & Hsub & Hall & ->). exists l. split_and!; [done|done|set_solver| |done].
      intros j [->|Hj]%elem_of_cons Hr; [|by apply Hall]. unfold state_of in Hr. cbn in Hr. rewrite Hq in Hr. cbn in Hr. congruence. }
  set (s1 := with_proc s p _). set (t1 := TSt _ _ _ _).
  wp_step. eapply wp_mono; [apply Hswtch|].
  { unfold state_of. cbn. rewrite list_lookup_insert_eq by (by eapply lookup_lt_Some). done. }
  intros [] t2 (Hran & Hlen2 & Hothers). cbn [t1 t_sys sy_k t_dev] in *. eapply wp_mono; [apply IH; [done|]|].
  { intros j Hj. rewrite Hlen2. cbn. rewrite length_insert. apply Hlen. by right. }
  intros b t' (l & Hl & Hnl & Hsub & Hall & ->). exists (p :: l). rewrite Hl, Hran, <-app_assoc. split_and!.
  - done.
  - apply NoDup_cons. split; [|done]. intros Hin. by apply Hp, Hsub.
  - set_solver.
  - intros j [->|Hj]%elem_of_cons Hr; [left|right]. apply Hall; [done|]. apply Hothers; [by intros ->|].
    unfold state_of in *. cbn in *. by rewrite list_lookup_insert_ne by (by intros ->).
  - by destruct found.
Qed.

End fair.

(** ** A machine with no devices

    The files are counted references, and [/] is inode 1. *)
Module BootDemo.
Abbreviation counted := (gmultiset nat * gmultiset nat)%type.

#[local] Instance rooted_ops : FileOps counted := {|
  filedup f := modify (λ kf, (kf.1, (kf.2.1 ⊎ {[+ f +]}, kf.2.2)));
  fileclose f := modify (λ kf, (kf.1, (kf.2.1 ∖ {[+ f +]}, kf.2.2))) ;; mret [];
  idup i := modify (λ kf, (kf.1, (kf.2.1, kf.2.2 ⊎ {[+ i +]})));
  begin_op := mret tt;
  iput i := modify (λ kf, (kf.1, (kf.2.1, kf.2.2 ∖ {[+ i +]})));
  end_op := mret [];
  namei _ := modify (λ kf, (kf.1, (kf.2.1, kf.2.2 ⊎ {[+ 1%nat +]}))) ;; mret (Some 1%nat)
|}.

#[local] Instance rooted_laws : FileLaws counted.
Proof.
  refine {| f_ok fs X Y P := fs = (X, Y) ∧ P = ∅ |}.
  - intros k fs X Y P f [-> ->] _. by vm_compute.
  - intros k fs X Y P i [-> ->] _. by vm_compute.
Defined.

#[local] Instance rooted_root : RootLaw counted.
Proof.
  split. intros k fs [-> _]. exists 1%nat. cbn. wp_step. wp_step. wp_step. done.
Qed.

#[local] Instance no_devices : Devices (list nat) := {|
  plic_read _ d := (0, d);
  plic_write _ _ d := d;
  dev_uartintr := mret [];
  dev_virtio_disk_intr := mret []
|}.

Definition files_init : M counted unit := λ _, Ret tt (∅, ∅).

Lemma boot_correct_witness : wp
  (boot 0x80042000 (4096 * 524300) KERNBASE 0 0 0 0 (mret tt) (λ _ _ _, mret tt) files_init (mret tt) (λ _, 7))
  (USt (λ _, 5) 0 (TSt (SysSt (reset_state (gset_to_gmap 3 (list_to_set (seqZ KERNBASE 16))) (∅, ∅)) [] []) (λ _, 9) 0 []))
  (λ o u, o = Some true ∧ u_pc u = 0 ∧ u_reg u Reg.sp = 4096).
Proof.
  eapply wp_mono; [apply (boot_correct 0x80042000 524300 KERNBASE 0 0 0 0 (mret tt) (λ _ _ _, mret tt) files_init (mret tt))|].
  - by vm_compute.
  - by vm_compute.
  - by vm_compute.
  - by vm_compute.
  - intros d. by wp_step.
  - intros a b c d. by wp_step.
  - done.
  - intros [[] ? ? ?] P Y Hf. wp_step. eexists. split; [exact Hf|]. by destruct sy_k.
  - intros a. unfold ld. rewrite lookup_gset_to_gmap. by case_guard; cbn; lia.
  - lia.
  - lia.
  - intros o u (-> & Hpc & Hsp & _). done.
Defined.

Definition busy_state : tst counted (list nat) :=
  TSt (SysSt (KState (KMem ∅ 0 0) (∅, ∅) (<[3%nat := pset_state RUNNABLE zero_proc]> (<[5%nat := pset_state RUNNABLE zero_proc]> (replicate NPROC zero_proc))) 1 None 0) [] []) (λ _, 0) 0 [].

End BootDemo.
